(* ===== verification/_CoqProject ===== *)
-Q . S2P
Prelude.v
CString.v
Printf.v
Memblock.v
DList.v
Buddy.v
BuddyInit.v
PageSource.v
Kmalloc.v
KmallocSpec.v
PageTable.v
KernelPt.v
Vmalloc.v
Vma.v
VmaSpec.v
Fault.v
Mmap.v
Brk.v
Mprotect.v
Fork.v
Sched.v
SchedSpec.v
SchedLive.v
Futex.v
Pipe.v
FdTable.v
Channel.v
Timer.v
Fdt.v
FdtSpec.v
Wait.v
Signal.v
SignalSpec.v
SignalInv.v
Process.v
ProcessSpec.v
ProcessInv.v
Tty.v
TtySpec.v
TtyInv.v
Tmpfs.v
TmpfsData.v
TmpfsDir.v
TmpfsInv.v
