(* ===== verification/Prelude.v ===== *)
(** * A verification library for the OluxOS kernel

    OluxOS is a kernel for 64-bit ARM machines (src/arch, src/kernel, src/mm,
    src/fs, src/lib, src/drivers, src/net) with user programs (src/user).  This
    library models the parts of it that can be stated apart from the hardware:
    the library routines, physical memory from the boot map to the heap, the
    kernel's own mappings and user address spaces, the scheduler with its wait
    queues, futexes and timers, processes and signals, terminals, the RAM file
    system, and the descriptor tables, pipes and channels that processes talk
    through.
    Definitions carry the names of the C functions.

    ** How the code is modelled

    - A C integer is a [Z] with the wrap-around written out where it can occur
      ([wrap64], [wrap32], the operators of [olux_scope]); a pointer is an
      address, an index or a number that names the object.
    - Kernel state is a record per component that operations take and return; a
      section under a spinlock or with interrupts masked is one operation.
    - [outcome] separates a return from [panic]; a loop whose end is not
      structural takes fuel, and the theorems show that the stated fuel is
      enough, so that they also say that the loop ends.
    - Intrusive lists are sequences; DList proves that the pointer operations of
      include/olux/list.h implement them.
    - What the environment decides is an argument: whether an allocation
      succeeds, which page it returns, whether a copy from user memory faults,
      when the other CPU runs.
    - A numeric macro is a notation or a definition of the same name.
    - A call that blocks ends with a value that says where it waits and is
      resumed by a separate operation.

    ** Files

    - Prelude: integers, alignment, outcomes, tactics.
    - CString (src/lib/string.c), Printf (src/lib/vsprintf.c), DList
      (src/include/olux/list.h): library routines.
    - Fdt, FdtSpec (src/lib/fdt.c): device trees; every access to the blob is
      checked in the model.
    - Memblock (src/mm/memblock.c), Buddy and BuddyInit (src/mm/page_alloc.c),
      Kmalloc and KmallocSpec (src/mm/kmalloc.c): physical memory.  The page
      allocator starts from the map that Memblock leaves; the heap takes its
      pages from the page allocator and keeps its free lists in their bytes.
    - PageSource: the interface between the page allocator and what takes pages
      from it, the class [PageSource] with its laws, and the page allocator as
      an instance.  KernelPt (src/arch/arm64/mmu.c) and Vmalloc
      (src/mm/vmalloc.c) are proved over the interface: the kernel page tables
      with blocks and pages, and the areas that vmalloc, ioremap and DMA memory
      take from the range of kernel virtual addresses.
    - PageTable, Vma, VmaSpec, Fault, Mmap, Brk, Mprotect, Fork (src/mm/vm.c and
      the identifiers of src/arch/arm64/context.c): user address spaces; page
      tables, the VMA list, faults, the mmap family and fork.
    - Sched, SchedSpec, SchedLive (src/kernel/sched.c): run queues, context
      switch, wake-ups in their two sections, policies.  Futex (src/kernel/futex.c) wakes threads
      through Sched; Wait (src/kernel/wait.c) is proved over the class
      [Scheduler], of which Sched is an instance.
    - Timer (src/kernel/time.c): timer lists, ticks, the wall clock.
    - Signal, SignalSpec, SignalInv (src/kernel/signal.c): sending, delivery,
      frames and return, the system calls; the order of delivery; the invariant.
    - Process, ProcessSpec, ProcessInv (src/kernel/process.c): the tree of
      processes over the state of Signal; exit; fork, wait and the invariant.
    - Tty, TtySpec, TtyInv (src/drivers/char/tty.c): terminals over the state of
      Process; the line discipline against an editor of lines, reads in their
      sections under the lock, and writes; the invariant.
    - Tmpfs, TmpfsData, TmpfsDir, TmpfsInv (src/fs/tmpfs.c and, of
      src/fs/vfs.c, the inodes and the ends of link and rename): the RAM file system; files as arrays of bytes; link and
      reference counts over the tree of directories; the calls on names and the
      invariant.
    - Pipe (src/fs/pipe.c), FdTable (src/fs/file.c) and Channel
      (src/kernel/channel.c), which transfers files between tables.

    ** What is proved

    - C1: the boot allocator returns the highest place that fits;
      [memblock_add_reserve_correct]: its region lists stay sorted and disjoint
      and denote exactly what was added and reserved.
    - C2 to C5: the word-wise memory routines equal the byte-wise ones, string
      copies stay inside their buffers, [vsnprintf] writes what its
      specification says and no more, and list pointers implement sequences.
      [printf_strtoul]: numbers are read back as they were printed.
    - C6, C7: the page allocator takes and returns exactly the right pages,
      merging undoes splitting, and a double free panics.
      [page_alloc_init_correct]: the initial state is the unreserved memory.
      [page_put_correct]: a page is freed at its last reference.
    - C8, C9: live objects of the heap are disjoint and keep their bytes;
      freeing takes away exactly one; which sizes terminate.
    - C10 to C14: [zap_range] with its jumps equals the page-wise loop; munmap,
      mmap, brk ([do_brk_correct]) and mprotect ([do_mprotect_correct]) change
      exactly the pages of their ranges; a fault keeps the invariant and grants
      no more than the VMA allows; fork shares pages so that no write passes
      between parent and child, and gives back what it took when it fails.
    - C15 to C17: the scheduler's invariant in every order of its sections, when
      no policy changes in the middle of a wake-up; [schedule]
      runs the first thread of the best level; every thread of a time-sliced
      level gets its turn.  [try_to_wake_up_correct]: wake-ups are not lost.
    - C18: futex requeue, and [futex_wake_correct] wake, act on exactly the
      first waiters in order.
    - C19: a pipe delivers every byte once and in order, and a small write
      whose copies succeed is in one piece.  C20: the conservation of file
      references through channels.
      [fd_install_correct]: descriptors are the lowest free ones.
    - C21: the timer interrupt fires exactly the due timers in order and misses
      none.
    - C22: the device-tree functions read back the tree a blob encodes.
    - C23: a mutex excludes and loses no wake-up.
    - C24: the boot page tables map RAM and the image with the right
      permissions, none of it writable and executable.  [vmalloc_correct]:
      kernel areas are disjoint, behind guard pages and backed by pages of
      their own; what they took is given back ([vfree_correct],
      [dma_coherent_correct]).
    - C25 to C29: [do_signal] acts on the first signal that matters and ends,
      when its frame can be written or SIGSEGV ends the process (and not
      otherwise, [do_signal_loops]); return from
      a handler restores the program; SIGKILL and SIGSTOP can be neither
      blocked nor caught; a signal is not lost; [kill] reaches exactly the
      permitted targets.
    - C30 to C33: the processes form a tree whose references are counted exactly
      in every reachable state; what fork adds or gives back, what exit leaves,
      and which child a wait reports.
    - C34 to C37: the rings of the terminals stay in order in every reachable
      state, unless a read outlives its mode; the bytes that arrive are handled
      like an editor of lines does it, the foreground group is signalled and
      readers are woken; what a read returns on every path; and a write hands
      the driver exactly the translation of the bytes it reports.
    - C38 to C40: link counts, references and used pages of the RAM file system
      are exact in every reachable state, as long as there is memory to look new
      names up and no write faults; directories are maps from names to inodes
      that each call changes in one place; files are arrays of bytes, zero where
      nothing was written.

    Theorems without a number show where the code does something else than it
    means to: [vm_wraps] (lengths that wrap at 2^64 in mmap, brk and mremap),
    [va_alloc_wraps], [setscheduler_race], [futex_requeue_same_key],
    [msg_send_double_put], [mutex_wakeup_lost], [fdt_truncated_unsafe],
    [do_signal_loops], [tgkill_unchecked], [sigaction_past_table],
    [wait_continued_spurious], [wait_echild_missed], [clone_vfork_stuck],
    [nul_ends_line], [quoted_ends_line], [full_line_stuck],
    [eol_read_on], [stale_read_breaks], [read_fault_keeps_position],
    [write_no_table_grows], [faulting_write_exposed], [rename_loses_target],
    [symlink_no_target], [link_duplicates], [rename_duplicates],
    [listing_misses_entry], [asid_leaked], [faulting_write_partial],
    [thread_conflict].

    ** Bounds

    The fuel of a walk is the length of what it walks plus one: the pages of a
    range, the entries of a list or free list (at most 257 objects of a slab
    page), the bytes of a string or of a structure block.  [WRITE_FUEL] of Pipe
    is 4, since a write makes at most two copies before it blocks or ends.  The
    scheduler theorems hold for any number of CPUs that the code allows; they
    are initialised by [boot] and come online by steps.  The tree
    theorem is for trees of at most 32 levels, the stack of [fdt_parent], and
    blobs below 2 GiB.  [SIGNAL_FUEL] is 140, since at most 128 signals are
    pending for a thread.  [WAIT_PASSES] is 2, since a wait that finds
    nothing to report sleeps.  A read of a terminal makes less than [TTY_BUF]
    copies, each of at least a character, a write at most one pass per byte, and
    so do reads and writes of files.  [put_fuel] is the sum of all reference
    counts, of which every put takes one.  [mmu_init]
    may need up to four table pages per bank of RAM, an area three pages per
    page.

    ** Not modelled

    Assembly, exception entry, TLB and cache maintenance, the fixmap, memory
    ordering and the lock words themselves; exec and the system-call
    layer; the paths, mounts and dentries of the virtual file system, the file
    systems other than tmpfs and the network, which are operation tables over
    third-party or user-space code; the drivers of
    devices; user programs; the legacy x86 kernel, which is not
    built.  Of the modelled parts: timeouts of waits, the wake-ups and signals
    of pipes and channels, [schedule_timeout], the kernel lock, and the release
    operations that the last [file_put] of a file runs, which are separate
    steps; the call of a terminal driver for new attributes; times of files, and
    the widths of their link and reference counts.  A timer function
    may only restart its own timer.  A width or precision of a format that
    overflows [int] is undefined; loop counters of type [int] are not wrapped. *)

From stdpp Require Export base numbers option gmap list.

#[global] Open Scope Z_scope.

(** ** Machine integers

    C's unsigned 64-bit arithmetic on [Z] with the wrap-around written out.
    A value of type [u64] (or [phys_addr_t], [size_t]) is a [Z] in
    [0, 2^64); [u64_ok] says so. *)

Declare Scope olux_scope.
Delimit Scope olux_scope with olux.

Definition U64 : Z := 2 ^ 64.
Definition U32 : Z := 2 ^ 32.

Definition u64_ok (x : Z) : Prop := 0 ≤ x < U64.

Definition wrap64 (x : Z) : Z := x `mod` U64.
Definition wrap32 (x : Z) : Z := x `mod` U32.
Definition add64 (x y : Z) : Z := wrap64 (x + y).
Definition sub64 (x y : Z) : Z := wrap64 (x - y).
Definition not64 (x : Z) : Z := U64 - 1 - x.

Infix "⊕" := add64 (at level 50, left associativity) : olux_scope.
Infix "⊖" := sub64 (at level 50, left associativity) : olux_scope.
#[global] Open Scope olux_scope.

(** The alignment macros of include/olux/compiler.h at type [u64]. *)
Definition ALIGN_UP (x a : Z) : Z := Z.land (x ⊕ (a - 1)) (not64 (a - 1)).
Definition ALIGN_DOWN (x a : Z) : Z := Z.land x (not64 (a - 1)).

(** arch/arm64/include/asm/memory.h *)
Definition PAGE_SHIFT : Z := 12.
Definition PAGE_SIZE : Z := 4096.

(** ** Outcomes of kernel code

    A kernel function either returns or calls [panic], which does not
    return. *)

Inductive outcome (A : Type) : Type :=
| Ok (a : A)
| Panic.
Arguments Ok {A} a.
Arguments Panic {A}.

Definition obind {A B} (m : outcome A) (f : A → outcome B) : outcome B :=
  match m with Ok a => f a | Panic => Panic end.

Notation "'let!' x := m 'in' k" := (obind m (fun x => k))
  (at level 10, x binder, m at level 100, k at level 200) : olux_scope.

(** Linux errno values (include/olux/errno.h); the kernel returns them negated. *)
Definition EPERM : Z := 1.
Definition ENOENT : Z := 2.
Definition EINTR : Z := 4.
Definition EBADF : Z := 9.
Definition EAGAIN : Z := 11.
Definition ENOMEM : Z := 12.
Definition EACCES : Z := 13.
Definition EFAULT : Z := 14.
Definition EEXIST : Z := 17.
Definition ENODEV : Z := 19.
Definition EINVAL : Z := 22.
Definition EMFILE : Z := 24.
Definition ENOTTY : Z := 25.
Definition EPIPE : Z := 32.
Definition ENOSYS : Z := 38.
Definition ENOTSOCK : Z := 88.
Definition EMSGSIZE : Z := 90.
Definition EOPNOTSUPP : Z := 95.
Definition ETIMEDOUT : Z := 110.
Definition ERESTARTSYS : Z := 512.

(** ** Automation *)

Create HintDb olux discriminated.
Create Rewrite HintDb olux_wrap.

(** Decide the boolean comparisons of a goal or hypothesis. *)
Ltac zbool :=
  repeat match goal with
  | H : (_ && _)%bool = true |- _ => apply andb_true_iff in H as [??]
  | H : (_ || _)%bool = false |- _ => apply orb_false_iff in H as [??]
  | H : negb _ = true |- _ => apply negb_true_iff in H
  | H : negb _ = false |- _ => apply negb_false_iff in H
  | H : (_ <? _) = true |- _ => apply Z.ltb_lt in H
  | H : (_ <? _) = false |- _ => apply Z.ltb_ge in H
  | H : (_ <=? _) = true |- _ => apply Z.leb_le in H
  | H : (_ <=? _) = false |- _ => apply Z.leb_gt in H
  | H : (_ =? _) = true |- _ => apply Z.eqb_eq in H
  | H : (_ =? _) = false |- _ => apply Z.eqb_neq in H
  end.

(** The same, splitting the disjunctions. *)
Ltac zsplit :=
  zbool; repeat match goal with
  | H : (_ && _)%bool = false |- _ => apply andb_false_iff in H as [?|?]
  | H : (_ || _)%bool = true |- _ => apply orb_true_iff in H as [?|?]
  end; zbool.

(** Case analysis on the first boolean test of the goal. *)
Ltac case_test :=
  match goal with
  | |- context [if ?b then _ else _] =>
      match type of b with bool => destruct b eqn:? end
  end; zbool.

Ltac case_test_in H :=
  match type of H with
  | context [if ?b then _ else _] =>
      match type of b with bool => destruct b eqn:? end
  end; zbool.

(** ** Wrap-around arithmetic *)

Lemma U64_pos : 0 < U64.
Proof. reflexivity. Qed.

Lemma wrap64_small x : 0 ≤ x < U64 → wrap64 x = x.
Proof. apply Z.mod_small. Qed.

Lemma wrap64_range x : 0 ≤ wrap64 x < U64.
Proof. apply Z.mod_pos_bound, U64_pos. Qed.

Lemma add64_small x y : 0 ≤ x + y < U64 → x ⊕ y = x + y.
Proof. apply wrap64_small. Qed.

Lemma sub64_small x y : 0 ≤ x - y < U64 → x ⊖ y = x - y.
Proof. apply wrap64_small. Qed.

Lemma add64_ok x y : u64_ok (x ⊕ y).
Proof. apply wrap64_range. Qed.

Lemma sub64_ok x y : u64_ok (x ⊖ y).
Proof. apply wrap64_range. Qed.

#[export] Hint Resolve add64_ok sub64_ok wrap64_range U64_pos : olux.
#[export] Hint Rewrite add64_small sub64_small wrap64_small
  using (unfold U64 in *; lia) : olux_wrap.

(** Rewrite away the wrap-around where the operands are small enough. *)
Ltac unwrap := autorewrite with olux_wrap in *.

#[global] Instance divide_dec (d x : Z) : Decision (d | x).
Proof.
  destruct (decide (d = 0)) as [->|Hd].
  - destruct (decide (x = 0)) as [->|Hx]; [left; apply Z.divide_refl|right].
    intros H. by apply Hx, Z.divide_0_l.
  - destruct (decide (x `mod` d = 0)) as [H|H]; [left; by apply Z.mod_divide|right].
    intros H'. by apply H, Z.mod_divide.
Defined.

Lemma to_nat_nonpos z : z ≤ 0 → Z.to_nat z = 0%nat.
Proof. lia. Qed.

(** *** Alignment

    On a power of two the masks of [ALIGN_UP] and [ALIGN_DOWN] round to a
    multiple, the latter always and the former when the sum does not wrap. *)

Lemma land_not64_pow2 x k :
  0 ≤ k ≤ 64 → u64_ok x → Z.land x (not64 (2 ^ k - 1)) = x / 2 ^ k * 2 ^ k.
Proof.
  intros Hk [Hx0 Hx1].
  rewrite <-Z.shiftr_div_pow2, <-Z.shiftl_mul_pow2 by lia.
  rewrite <-Z.ldiff_ones_r by lia.
  unfold not64, U64 in *. rewrite Z.ones_equiv, <-Z.sub_1_r.
  apply Z.bits_inj'. intros n Hn.
  rewrite Z.land_spec, Z.ldiff_spec.
  assert (2 ^ k - 1 = Z.ones k) as -> by (rewrite Z.ones_equiv; lia).
  assert (2 ^ 64 - 1 - Z.ones k = Z.ldiff (Z.ones 64) (Z.ones k)) as ->.
  { rewrite <-Z.sub_nocarry_ldiff; [rewrite (Z.ones_equiv 64); lia|].
    apply Z.bits_inj'. intros m Hm. rewrite Z.ldiff_spec, Z.bits_0.
    rewrite !Z.testbit_ones by lia. destruct (m <? 64) eqn:?, (m <? k) eqn:?; zbool;
      destruct (0 <=? m) eqn:?; zbool; simpl; lia || done. }
  rewrite Z.ldiff_spec, (Z.testbit_ones 64) by lia.
  destruct (n <? 64) eqn:Hn'; zbool.
  - assert ((0 <=? n) = true) as -> by lia. done.
  - rewrite andb_false_r. simpl.
    assert (Z.testbit x n = false) as ->; [|done].
    destruct (decide (x = 0)) as [->|]; [apply Z.bits_0|].
    apply Z.bits_above_log2; [lia|].
    assert (Z.log2 x < 64) by (apply Z.log2_lt_pow2; lia). lia.
Qed.

(** The power-of-two alignments the kernel uses. *)
Definition pow2_align (a : Z) : Prop := ∃ k, 0 ≤ k ≤ 64 ∧ a = 2 ^ k.

Lemma pow2_align_pos a : pow2_align a → 0 < a.
Proof. intros (k & Hk & ->). apply Z.pow_pos_nonneg; lia. Qed.

Lemma pow2_align_page : pow2_align PAGE_SIZE.
Proof. exists 12. done. Qed.
#[export] Hint Resolve pow2_align_page pow2_align_pos : olux.

Lemma ALIGN_DOWN_div x a :
  pow2_align a → u64_ok x → ALIGN_DOWN x a = x / a * a.
Proof. intros (k & Hk & ->) Hx. by apply land_not64_pow2. Qed.

Lemma ALIGN_DOWN_spec x a :
  pow2_align a → u64_ok x →
  (a | ALIGN_DOWN x a) ∧ 0 ≤ ALIGN_DOWN x a ≤ x ∧ x < ALIGN_DOWN x a + a.
Proof.
  intros Ha Hx. pose proof (pow2_align_pos a Ha).
  rewrite ALIGN_DOWN_div by done. destruct Hx.
  pose proof (Z.div_mod x a ltac:(lia)). pose proof (Z.mod_pos_bound x a ltac:(lia)).
  pose proof (Z.div_pos x a ltac:(lia) ltac:(lia)).
  split; [apply Z.divide_factor_r|]. nia.
Qed.

(** [ALIGN_DOWN] is the greatest multiple below. *)
Lemma ALIGN_DOWN_greatest x a c :
  pow2_align a → u64_ok x → (a | c) → c ≤ x → c ≤ ALIGN_DOWN x a.
Proof.
  intros Ha Hx [q ->] Hc. pose proof (pow2_align_pos a Ha).
  rewrite ALIGN_DOWN_div by done.
  apply Z.mul_le_mono_nonneg_r; [lia|]. apply Z.div_le_lower_bound; lia.
Qed.

Lemma ALIGN_UP_div x a :
  pow2_align a → 0 ≤ x → x + (a - 1) < U64 → ALIGN_UP x a = (x + (a - 1)) / a * a.
Proof.
  intros Ha Hx Hlt. pose proof (pow2_align_pos a Ha).
  unfold ALIGN_UP. rewrite add64_small by lia.
  apply (ALIGN_DOWN_div (x + (a - 1)) a); [done|]. unfold u64_ok. lia.
Qed.

Lemma ALIGN_UP_spec x a :
  pow2_align a → 0 ≤ x → x + (a - 1) < U64 →
  (a | ALIGN_UP x a) ∧ x ≤ ALIGN_UP x a ≤ x + (a - 1).
Proof.
  intros Ha Hx Hlt. pose proof (pow2_align_pos a Ha).
  rewrite ALIGN_UP_div by done.
  pose proof (Z.div_mod (x + (a - 1)) a ltac:(lia)).
  pose proof (Z.mod_pos_bound (x + (a - 1)) a ltac:(lia)).
  split; [apply Z.divide_factor_r|]. nia.
Qed.

Lemma ALIGN_UP_id x a :
  pow2_align a → 0 ≤ x → x + (a - 1) < U64 → (a | x) → ALIGN_UP x a = x.
Proof.
  intros Ha Hx Hlt [q ->]. pose proof (pow2_align_pos a Ha).
  rewrite ALIGN_UP_div by done.
  rewrite Z.add_comm, Z.div_add, Z.div_small; lia.
Qed.

(** [ALIGN_UP] rounds the last page of the address space up to 0. *)
Lemma ALIGN_UP_wraps x :
  U64 - PAGE_SIZE < x < U64 → ALIGN_UP x PAGE_SIZE = 0.
Proof.
  intros Hx. unfold ALIGN_UP, add64, wrap64.
  assert ((x + (PAGE_SIZE - 1)) `mod` U64 = x + (PAGE_SIZE - 1) - U64) as ->.
  { symmetry. apply (Z.mod_unique_pos _ _ 1); unfold PAGE_SIZE, U64 in *; lia. }
  change (not64 (PAGE_SIZE - 1)) with (not64 (2 ^ 12 - 1)).
  rewrite land_not64_pow2; [|lia|unfold u64_ok, U64, PAGE_SIZE in *; lia].
  rewrite Z.div_small; unfold U64, PAGE_SIZE in *; lia.
Qed.

(** Two multiples of [d] that differ are at least [d] apart. *)
Lemma divide_gap d x y : 0 < d → (d | x) → (d | y) → x < y → x + d ≤ y.
Proof.
  intros Hd [a ->] [b ->] H.
  assert (a < b) by (apply (Z.mul_lt_mono_pos_r d); lia). nia.
Qed.

(** *** Powers of two and the bit that flips between buddies *)

Lemma divide_pow2 j k : 0 ≤ j ≤ k → (2 ^ j | 2 ^ k).
Proof. intros. exists (2 ^ (k - j)). rewrite <-Z.pow_add_r by lia. f_equal. lia. Qed.

Lemma land_not64 x b : u64_ok x → u64_ok b → Z.land x (not64 b) = Z.ldiff x b.
Proof.
  intros Hx Hb.
  assert (∀ y i, u64_ok y → 64 ≤ i → Z.testbit y i = false) as Hhigh.
  { intros y i [Hy0 Hy] Hi. destruct (decide (y = 0)) as [->|]; [apply Z.bits_0|].
    apply Z.bits_above_log2; [done|].
    assert (Z.log2 y < 64) by (apply Z.log2_lt_pow2; unfold U64 in *; lia). lia. }
  assert (not64 b = Z.ldiff (Z.ones 64) b) as ->.
  { unfold not64. rewrite <-Z.sub_nocarry_ldiff; [by rewrite Z.ones_equiv|].
    apply Z.bits_inj'. intros i Hi. rewrite Z.ldiff_spec, Z.bits_0, Z.testbit_ones by lia.
    destruct (decide (64 ≤ i)); [by rewrite Hhigh|].
    replace ((0 <=? i) && (i <? 64)) with true by lia. by rewrite andb_false_r. }
  apply Z.bits_inj'. intros i Hi. rewrite Z.land_spec, !Z.ldiff_spec, Z.testbit_ones by lia.
  destruct (decide (64 ≤ i)); [by rewrite (Hhigh x)|].
  by replace ((0 <=? i) && (i <? 64)) with true by lia.
Qed.

Lemma bit0_cases q :
  (∃ k, q = 2 * k ∧ Z.lxor q 1 = q + 1 ∧ Z.ldiff q 1 = q) ∨
  (∃ k, q = 2 * k + 1 ∧ Z.lxor q 1 = q - 1 ∧ Z.ldiff q 1 = q - 1).
Proof.
  assert (∀ k, Z.land (2 * k) 1 = 0) as Hland.
  { intros k. apply Z.bits_inj'. intros i Hi. rewrite Z.land_spec, Z.bits_0.
    destruct (decide (i = 0)) as [->|]; [by rewrite Z.testbit_even_0|].
    change 1 with (Z.ones 1). rewrite Z.testbit_ones by lia.
    replace (i <? 1) with false by lia. by rewrite !andb_false_r. }
  destruct (Z.Even_or_Odd q) as [[k ->]|[k ->]]; [left|right]; exists k; split_and!; [done|..|done| |].
  - symmetry. apply Z.add_nocarry_lxor, Hland.
  - rewrite <-(Z.lor_ldiff_and (2 * k) 1) at 2. by rewrite Hland, Z.lor_0_r.
  - rewrite (Z.add_nocarry_lxor (2 * k) 1) at 1 by apply Hland.
    rewrite Z.lxor_assoc, Z.lxor_nilpotent, Z.lxor_0_r. lia.
  - symmetry. apply Z.sub_nocarry_ldiff. apply Z.bits_inj'. intros i Hi.
    rewrite Z.ldiff_spec, Z.bits_0. destruct (decide (i = 0)) as [->|].
    + by rewrite Z.testbit_odd_0.
    + change 1 with (Z.ones 1) at 1. rewrite Z.testbit_ones by lia.
      by replace (i <? 1) with false by lia; rewrite andb_false_r.
Qed.

(** For a multiple [p] of [2^o]: the buddy [p ^ 2^o] is the neighbour that
    shares the enclosing block of twice the size, which starts at
    [p & ~2^o]. *)
Lemma buddy_cases p o :
  0 ≤ o < 64 → u64_ok p → (2 ^ o | p) →
  (Z.lxor p (2 ^ o) = p + 2 ^ o ∧ Z.land p (not64 (2 ^ o)) = p ∧ (2 * 2 ^ o | p)) ∨
  (Z.lxor p (2 ^ o) = p - 2 ^ o ∧ Z.land p (not64 (2 ^ o)) = p - 2 ^ o ∧
   (2 * 2 ^ o | p - 2 ^ o)).
Proof.
  intros Ho Hp [q ->].
  assert (u64_ok (2 ^ o)).
  { split; [lia|]. apply Z.pow_lt_mono_r; lia. }
  rewrite land_not64 by done.
  assert (∀ q, q * 2 ^ o = Z.shiftl q o) as Hq by (intros; by rewrite Z.shiftl_mul_pow2 by lia).
  assert (2 ^ o = Z.shiftl 1 o) as E by (rewrite Z.shiftl_mul_pow2; lia).
  assert (Z.lxor (q * 2 ^ o) (2 ^ o) = Z.lxor q 1 * 2 ^ o) as ->
    by (rewrite !Hq, E; by rewrite Z.shiftl_lxor).
  assert (Z.ldiff (q * 2 ^ o) (2 ^ o) = Z.ldiff q 1 * 2 ^ o) as ->
    by (rewrite !Hq, E; by rewrite Z.shiftl_ldiff).
  destruct (bit0_cases q) as [(k & -> & -> & ->)|(k & -> & -> & ->)]; [left|right];
    (split_and!; [lia|lia|exists k; lia]).
Qed.
