(* ===== verification/CString.v ===== *)
(** * Memory and string routines (src/lib/string.c)

    Memory is a function from byte addresses to bytes.  The word-sized fast
    paths of [memcpy] and [memset] are modelled as they are written, on
    64-bit little-endian loads and stores, and proved equal to the byte-wise
    reference; [memmove] is proved right for every overlap.  The loops of the
    string routines, which run to a NUL byte, take fuel and return [None]
    when it is used up; [cstr] says where the NUL is and how much is enough. *)

From stdpp Require Import functions.
From S2P Require Import Prelude.

Definition mem := Z → Z.

(** ** Loads and stores *)

Definition wr8 (m : mem) (a v : Z) : mem := λ x, if x =? a then v else m x.

(** The [k]-byte little-endian value at [a]. *)
Fixpoint rd_le (k : nat) (m : mem) (a : Z) : Z :=
  match k with O => 0 | S k => m a + 2 ^ 8 * rd_le k m (a + 1) end.

Definition rd64 (m : mem) (a : Z) : Z := rd_le 8 m a.

Definition wr64 (m : mem) (a v : Z) : mem := λ x,
  if (a <=? x) && (x <? a + 8) then (v / 2 ^ (8 * (x - a))) `mod` 256 else m x.

(** ** memcpy, memmove, memset *)

Fixpoint memcpy32 (fuel : nat) (m : mem) (d s n : Z) : mem * Z * Z * Z :=
  match fuel with
  | O => (m, d, s, n)
  | S fuel =>
      if 32 <=? n then
        let a := rd64 m s in let b := rd64 m (s + 8) in
        let c := rd64 m (s + 16) in let e := rd64 m (s + 24) in
        let m := wr64 m d a in let m := wr64 m (d + 8) b in
        let m := wr64 m (d + 16) c in let m := wr64 m (d + 24) e in
        memcpy32 fuel m (d + 32) (s + 32) (n - 32)
      else (m, d, s, n)
  end.

Fixpoint memcpy8 (fuel : nat) (m : mem) (d s n : Z) : mem * Z * Z * Z :=
  match fuel with
  | O => (m, d, s, n)
  | S fuel =>
      if 8 <=? n then memcpy8 fuel (wr64 m d (rd64 m s)) (d + 8) (s + 8) (n - 8)
      else (m, d, s, n)
  end.

Fixpoint memcpy1 (fuel : nat) (m : mem) (d s : Z) : mem :=
  match fuel with
  | O => m
  | S fuel => memcpy1 fuel (wr8 m d (m s)) (d + 1) (s + 1)
  end.

(** The loops run [n / 32], [n / 8] and [n] times, so [n] rounds are enough. *)
Definition memcpy (m : mem) (dst src n : Z) : mem :=
  let '(m, d, s, n) :=
    if Z.land (Z.lor dst src) 7 =? 0 then
      let '(m, d, s, n) := memcpy32 (Z.to_nat n) m dst src n in
      memcpy8 (Z.to_nat n) m d s n
    else (m, dst, src, n) in
  memcpy1 (Z.to_nat n) m d s.

(** [while (n--) *--d = *--s;] *)
Fixpoint memmove_back (fuel : nat) (m : mem) (d s : Z) : mem :=
  match fuel with
  | O => m
  | S fuel => memmove_back fuel (wr8 m (d - 1) (m (s - 1))) (d - 1) (s - 1)
  end.

Definition memmove (m : mem) (dst src n : Z) : mem :=
  if (dst =? src) || (n =? 0) then m
  else if (dst <? src) || (src + n <=? dst) then memcpy m dst src n
  else memmove_back (Z.to_nat n) m (dst + n) (src + n).

Fixpoint memset8 (fuel : nat) (m : mem) (d v n : Z) : mem * Z * Z :=
  match fuel with
  | O => (m, d, n)
  | S fuel => if 8 <=? n then memset8 fuel (wr64 m d v) (d + 8) v (n - 8) else (m, d, n)
  end.

Fixpoint memset1 (fuel : nat) (m : mem) (d c : Z) : mem :=
  match fuel with
  | O => m
  | S fuel => memset1 fuel (wr8 m d c) (d + 1) c
  end.

Definition memset (m : mem) (dst c n : Z) : mem :=
  let c8 := c `mod` 256 in
  let '(m, d, n) :=
    if (Z.land dst 7 =? 0) && (8 <=? n) then
      let v := c8 in
      let v := Z.lor v (wrap64 (Z.shiftl v 8)) in
      let v := Z.lor v (wrap64 (Z.shiftl v 16)) in
      let v := Z.lor v (wrap64 (Z.shiftl v 32)) in
      memset8 (Z.to_nat n) m dst v n
    else (m, dst, n) in
  memset1 (Z.to_nat n) m d c8.

(** ** Comparison and search *)

Fixpoint memcmp (m : mem) (x y : Z) (n : nat) : Z :=
  match n with
  | O => 0
  | S n => if m x =? m y then memcmp m (x + 1) (y + 1) n else m x - m y
  end.

(** A pointer result: [None] is NULL. *)
Fixpoint memchr (m : mem) (p c : Z) (n : nat) : option Z :=
  match n with
  | O => None
  | S n => if m p =? c `mod` 256 then Some p else memchr m (p + 1) c n
  end.

Fixpoint strlen_from (fuel : nat) (m : mem) (p : Z) : option Z :=
  match fuel with
  | O => None
  | S fuel => if m p =? 0 then Some p else strlen_from fuel m (p + 1)
  end.

Definition strlen (fuel : nat) (m : mem) (s : Z) : option Z :=
  p ← strlen_from fuel m s; Some (p - s).

Fixpoint strnlen (m : mem) (s : Z) (max : nat) : Z :=
  match max with
  | O => 0
  | S max => if m s =? 0 then 0 else 1 + strnlen m (s + 1) max
  end.

Fixpoint strcmp (fuel : nat) (m : mem) (a b : Z) : option Z :=
  match fuel with
  | O => None
  | S fuel =>
      if negb (m a =? 0) && (m a =? m b) then strcmp fuel m (a + 1) (b + 1)
      else Some (m a - m b)
  end.

Fixpoint strncmp (m : mem) (a b : Z) (n : nat) : Z :=
  match n with
  | O => 0
  | S n =>
      if negb (m a =? m b) then m a - m b
      else if m a =? 0 then 0
      else strncmp m (a + 1) (b + 1) n
  end.

(** The outer option is the fuel, the inner one the returned pointer. *)
Fixpoint strchr (fuel : nat) (m : mem) (s c : Z) : option (option Z) :=
  match fuel with
  | O => None
  | S fuel =>
      if m s =? c `mod` 256 then Some (Some s)
      else if m s =? 0 then Some None
      else strchr fuel m (s + 1) c
  end.

Fixpoint strrchr (fuel : nat) (m : mem) (s c : Z) (r : option Z) : option (option Z) :=
  match fuel with
  | O => None
  | S fuel =>
      let r := if m s =? c `mod` 256 then Some s else r in
      if m s =? 0 then Some r else strrchr fuel m (s + 1) c r
  end.

(** ** Bounded copies *)

Definition strlcpy (fuel : nat) (m : mem) (dst src size : Z) : option (mem * Z) :=
  len ← strlen fuel m src;
  if size =? 0 then Some (m, len)
  else
    let n := if size <=? len then size - 1 else len in
    let m := memcpy m dst src n in
    Some (wr8 m (dst + n) 0, len).

Definition strlcat (fuel : nat) (m : mem) (dst src size : Z) : option (mem * Z) :=
  let dl := strnlen m dst (Z.to_nat size) in
  if dl =? size then len ← strlen fuel m src; Some (m, size ⊕ len)
  else
    '(m, r) ← strlcpy fuel m (dst + dl) src (size - dl);
    Some (m, dl ⊕ r).

(** ** Numbers *)

Definition isdigit (c : Z) : bool := (48 <=? c) && (c <=? 57).
Definition isspace (c : Z) : bool := (c =? 32) || ((9 <=? c) && (c <=? 13)).

Fixpoint skip_space (fuel : nat) (m : mem) (s : Z) : option Z :=
  match fuel with
  | O => None
  | S fuel => if isspace (m s) then skip_space fuel m (s + 1) else Some s
  end.

(** The digit value of a character, [None] where the loop breaks. *)
Definition digit_of (c : Z) : option Z :=
  if isdigit c then Some (c - 48)
  else if (97 <=? c) && (c <=? 122) then Some (c - 97 + 10)
  else if (65 <=? c) && (c <=? 90) then Some (c - 65 + 10)
  else None.

Fixpoint strtoul_digits (fuel : nat) (m : mem) (s base v : Z) : option (Z * Z) :=
  match fuel with
  | O => None
  | S fuel =>
      match digit_of (m s) with
      | None => Some (v, s)
      | Some d =>
          if base <=? d then Some (v, s)
          else strtoul_digits fuel m (s + 1) base (wrap64 (v * base + d))
      end
  end.

(** Returns the value and the end pointer. *)
Definition strtoul (fuel : nat) (m : mem) (s base : Z) : option (Z * Z) :=
  s ← skip_space fuel m s;
  let s := if m s =? 43 then s + 1 else s in
  let '(s, base) :=
    if ((base =? 0) || (base =? 16)) && (m s =? 48) &&
       ((m (s + 1) =? 120) || (m (s + 1) =? 88)) then (s + 2, 16)
    else if (base =? 0) && (m s =? 48) then (s, 8)
    else if base =? 0 then (s, 10)
    else (s, base) in
  strtoul_digits fuel m s base 0.

(** The 64-bit two's complement reading of an unsigned value. *)
Definition to_s64 (v : Z) : Z := if v <? 2 ^ 63 then v else v - U64.

Definition strtol (fuel : nat) (m : mem) (s base : Z) : option (Z * Z) :=
  s ← skip_space fuel m s;
  if m s =? 45 then
    '(v, e) ← strtoul fuel m (s + 1) base;
    Some (to_s64 (wrap64 (- to_s64 v)), e)
  else
    '(v, e) ← strtoul fuel m s base; Some (to_s64 v, e).

(** ** Reference definitions *)

(** The memory after a block move: the destination holds what the source
    held before. *)
Definition mem_move (m : mem) (dst src n : Z) : mem := λ x,
  if (dst <=? x) && (x <? dst + n) then m (src + (x - dst)) else m x.

Definition mem_fill (m : mem) (dst c n : Z) : mem := λ x,
  if (dst <=? x) && (x <? dst + n) then c else m x.

Definition bytes_ok (m : mem) : Prop := ∀ a, 0 ≤ m a < 256.

(** Memories are compared address by address. *)
Definition mem_eq (m m' : mem) : Prop := ∀ x, m x = m' x.

#[export] Instance mem_eq_equiv : Equivalence mem_eq.
Proof.
  split; [by intros m x|by intros m m' H x|].
  intros m1 m2 m3 H12 H23 x. by rewrite H12.
Qed.

#[export] Instance wr8_proper : Proper (mem_eq ==> eq ==> eq ==> mem_eq) wr8.
Proof. intros m m' Hm a a' <- v v' <- x. unfold wr8. by rewrite Hm. Qed.

#[export] Instance wr64_proper : Proper (mem_eq ==> eq ==> eq ==> mem_eq) wr64.
Proof. intros m m' Hm a a' <- v v' <- x. unfold wr64. by rewrite Hm. Qed.

#[export] Instance rd64_proper : Proper (mem_eq ==> eq ==> eq) rd64.
Proof.
  intros m m' Hm a a' <-. unfold rd64. generalize 8%nat as k. intros k. revert a.
  induction k as [|k IH]; intros a; simpl; [done|]. by rewrite Hm, IH.
Qed.

Ltac mem_cases := unfold wr8, mem_move, mem_fill; repeat case_test.

(** ** Word access *)

Lemma rd_le_byte k m a i :
  bytes_ok m → 0 ≤ i < Z.of_nat k → (rd_le k m a / 2 ^ (8 * i)) `mod` 256 = m (a + i).
Proof.
  intros Hm. revert a i. induction k as [|k IH]; intros a i Hi; simpl; [lia|].
  pose proof (Hm a). destruct (decide (i = 0)) as [->|Hne].
  - rewrite Z.mul_0_r, Z.pow_0_r, Z.div_1_r, Z.add_0_r.
    symmetry. apply Z.mod_unique_pos with (rd_le k m (a + 1)); lia.
  - replace (8 * i) with (8 + 8 * (i - 1)) by lia.
    rewrite Z.pow_add_r, <-Z.div_div by lia.
    replace ((m a + 2 ^ 8 * rd_le k m (a + 1)) / 2 ^ 8) with (rd_le k m (a + 1))
      by (apply Z.div_unique_pos with (m a); lia).
    rewrite IH by lia. f_equal. lia.
Qed.

Lemma wr64_rd64 m m' d s x :
  bytes_ok m' → wr64 m d (rd64 m' s) x =
  if (d <=? x) && (x <? d + 8) then m' (s + (x - d)) else m x.
Proof.
  intros Hm. unfold wr64. case_test; [|done]. apply rd_le_byte; [done|lia].
Qed.

Lemma rd_le_ext k m m' a :
  (∀ i, 0 ≤ i < Z.of_nat k → m' (a + i) = m (a + i)) → rd_le k m' a = rd_le k m a.
Proof.
  revert a. induction k as [|k IH]; intros a H; simpl; [done|].
  pose proof (H 0 ltac:(lia)) as H0. rewrite Z.add_0_r in H0. rewrite H0, IH; [done|].
  intros i Hi. rewrite <-!Z.add_assoc. apply H. lia.
Qed.

Lemma rd_le_value k m a v :
  (∀ i, 0 ≤ i < Z.of_nat k → m (a + i) = (v / 2 ^ (8 * i)) `mod` 256) →
  rd_le k m a = v `mod` 2 ^ (8 * Z.of_nat k).
Proof.
  revert a v. induction k as [|k IH]; intros a v H; [by rewrite Z.mod_1_r|]. cbn [rd_le].
  pose proof (H 0 ltac:(lia)) as H0. rewrite Z.add_0_r, Z.mul_0_r, Z.pow_0_r, Z.div_1_r in H0.
  rewrite (IH _ (v / 2 ^ 8)).
  - replace (8 * Z.of_nat (S k)) with (8 + 8 * Z.of_nat k) by lia.
    rewrite H0, Z.pow_add_r, Z.rem_mul_r by lia. done.
  - intros i Hi. rewrite <-Z.add_assoc, H, Z.div_div by lia. rewrite <-Z.pow_add_r by lia.
    do 3 f_equal. lia.
Qed.

(** A word that was stored is read back; a store elsewhere does not matter. *)
Lemma rd64_ext m m' a : (∀ x, a ≤ x < a + 8 → m' x = m x) → rd64 m' a = rd64 m a.
Proof. intros H. apply rd_le_ext. intros i Hi. apply H. lia. Qed.

Lemma rd64_wr64 m a v : u64_ok v → rd64 (wr64 m a v) a = v.
Proof.
  intros Hv. unfold rd64. rewrite (rd_le_value 8 _ a v).
  - change (8 * Z.of_nat 8) with 64. by apply Z.mod_small.
  - intros i Hi. unfold wr64. replace (a + i - a) with i by lia. case_test; [done|lia].
Qed.

Lemma wr64_other m a v x : x < a ∨ a + 8 ≤ x → wr64 m a v x = m x.
Proof. intros. unfold wr64. case_test; [lia|done]. Qed.

#[export] Instance mem_move_proper : Proper (mem_eq ==> eq ==> eq ==> eq ==> mem_eq) mem_move.
Proof. intros m m' Hm ?? <- ?? <- ?? <- x. unfold mem_move. by rewrite !Hm. Qed.

Lemma bytes_ok_move m d s n : bytes_ok m → bytes_ok (mem_move m d s n).
Proof. intros Hm x. unfold mem_move. by case_test. Qed.

Lemma bytes_ok_eq m m' : mem_eq m m' → bytes_ok m → bytes_ok m'.
Proof. intros He Hm x. by rewrite <-He. Qed.

(** A copy that goes upwards is right when the destination does not run
    into source bytes that are still to be read. *)
Definition upward (d s n : Z) : Prop := d ≤ s ∨ s + n ≤ d.

(** Moving [n] bytes after having moved the first [k]. *)
Lemma mem_move_app m d s k n :
  0 ≤ k → 0 ≤ n → upward d s (k + n) →
  mem_eq (mem_move (mem_move m d s k) (d + k) (s + k) n) (mem_move m d s (k + n)).
Proof.
  intros Hk Hn Hu x. unfold mem_move, upward in *.
  destruct ((d + k <=? x) && (x <? d + k + n)) eqn:E1.
  - zbool. assert ((d <=? x) && (x <? d + (k + n)) = true) as -> by lia.
    assert ((d <=? s + k + (x - (d + k))) && (s + k + (x - (d + k)) <? d + k) = false) as -> by lia.
    f_equal. lia.
  - destruct ((d <=? x) && (x <? d + k)) eqn:E2; zbool.
    + assert ((d <=? x) && (x <? d + (k + n)) = true) as -> by lia. done.
    + assert ((d <=? x) && (x <? d + (k + n)) = false) as -> by lia. done.
Qed.

(** What each loop of [memcpy] leaves: some prefix of [k] bytes was moved. *)
Definition moved (m : mem) (d s n : Z) (r : mem * Z * Z * Z) : Prop :=
  let '(m', d', s', n') := r in
  ∃ k, 0 ≤ k ≤ n ∧ d' = d + k ∧ s' = s + k ∧ n' = n - k ∧
       mem_eq m' (mem_move m d s k).

Lemma moved_trans m d s n m1 k r :
  bytes_ok m → 0 ≤ k ≤ n → upward d s n →
  mem_eq m1 (mem_move m d s k) →
  moved m1 (d + k) (s + k) (n - k) r → moved m d s n r.
Proof.
  intros Hm Hk Hu H1. destruct r as [[[m' d'] s'] n'].
  intros (j & Hj & -> & -> & -> & H2). exists (k + j). split_and!; try lia.
  rewrite H2, H1. rewrite mem_move_app by (unfold upward in *; lia). done.
Qed.

Lemma moved_refl m d s n : 0 ≤ n → moved m d s n (m, d, s, n).
Proof.
  intros Hn. exists 0. split_and!; try lia. intros x. unfold mem_move.
  case_test; [lia|done].
Qed.

Lemma memcpy8_moved fuel m d s n :
  bytes_ok m → 0 ≤ n → upward d s n → moved m d s n (memcpy8 fuel m d s n).
Proof.
  revert m d s n. induction fuel as [|fuel IH]; intros m d s n Hm Hn Hu; simpl;
    [by apply moved_refl|].
  case_test; [|by apply moved_refl].
  assert (mem_eq (wr64 m d (rd64 m s)) (mem_move m d s 8)) as He.
  { intros x. by rewrite wr64_rd64. }
  eapply moved_trans; [done| |done|exact He|]; [lia|].
  apply IH; [|lia|unfold upward in *; lia].
  eapply bytes_ok_eq; [by symmetry|]. by apply bytes_ok_move.
Qed.

Lemma memcpy32_moved fuel m d s n :
  bytes_ok m → 0 ≤ n → upward d s n → moved m d s n (memcpy32 fuel m d s n).
Proof.
  revert m d s n. induction fuel as [|fuel IH]; intros m d s n Hm Hn Hu; simpl;
    [by apply moved_refl|].
  case_test; [|by apply moved_refl].
  match goal with |- moved _ _ _ _ (memcpy32 _ ?m1 _ _ _) =>
    assert (mem_eq m1 (mem_move m d s 32)) as He end.
  { intros x. rewrite !wr64_rd64 by done. unfold mem_move.
    repeat case_test; (f_equal; lia) || lia || done. }
  eapply moved_trans; [done| |done|exact He|]; [lia|].
  apply IH; [|lia|unfold upward in *; lia].
  eapply bytes_ok_eq; [by symmetry|]. by apply bytes_ok_move.
Qed.

Lemma memcpy1_move fuel m d s :
  upward d s (Z.of_nat fuel) →
  mem_eq (memcpy1 fuel m d s) (mem_move m d s (Z.of_nat fuel)).
Proof.
  revert m d s. induction fuel as [|fuel IH]; intros m d s Hu; simpl memcpy1.
  { intros x. unfold mem_move. case_test; [lia|done]. }
  rewrite IH by (unfold upward in *; lia).
  assert (mem_eq (wr8 m d (m s)) (mem_move m d s 1)) as ->.
  { intros x. unfold wr8, mem_move. repeat case_test; (f_equal; lia) || lia || done. }
  rewrite mem_move_app by (unfold upward in *; lia).
  by replace (1 + Z.of_nat fuel) with (Z.of_nat (S fuel)) by lia.
Qed.

Lemma memcpy_move m d s n :
  bytes_ok m → 0 ≤ n → upward d s n → mem_eq (memcpy m d s n) (mem_move m d s n).
Proof.
  intros Hm Hn Hu. unfold memcpy.
  assert (moved m d s n
    (if Z.land (Z.lor d s) 7 =? 0 then
      let '(m, d, s, n) := memcpy32 (Z.to_nat n) m d s n in
      memcpy8 (Z.to_nat n) m d s n
    else (m, d, s, n))) as Hmv.
  { case_test; [|by apply moved_refl].
    pose proof (memcpy32_moved (Z.to_nat n) m d s n Hm Hn Hu) as H32.
    destruct (memcpy32 (Z.to_nat n) m d s n) as [[[m1 d1] s1] n1].
    destruct H32 as (k & Hk & -> & -> & -> & H1).
    eapply moved_trans; [done| |done|exact H1|]; [lia|].
    apply memcpy8_moved; [|lia|unfold upward in *; lia].
    eapply bytes_ok_eq; [by symmetry|]. by apply bytes_ok_move. }
  destruct (if Z.land (Z.lor d s) 7 =? 0 then _ else _) as [[[m' d'] s'] n'].
  destruct Hmv as (k & Hk & -> & -> & -> & H1).
  rewrite memcpy1_move by (unfold upward in *; lia).
  rewrite H1, Z2Nat.id by lia. rewrite mem_move_app by (unfold upward in *; lia).
  by replace (k + (n - k)) with n by lia.
Qed.

Lemma memmove_back_move fuel m d s :
  s ≤ d → mem_eq (memmove_back fuel m d s)
                 (mem_move m (d - Z.of_nat fuel) (s - Z.of_nat fuel) (Z.of_nat fuel)).
Proof.
  revert m d s. induction fuel as [|fuel IH]; intros m d s Hle; simpl memmove_back.
  { intros x. unfold mem_move. case_test; [lia|done]. }
  rewrite IH by lia. intros x. unfold mem_move, wr8.
  repeat case_test; zsplit; (f_equal; lia) || lia || done.
Qed.

Lemma memset8_fill fuel m d v n c :
  (∀ i, 0 ≤ i < 8 → (v / 2 ^ (8 * i)) `mod` 256 = c) → 0 ≤ n →
  let '(m', d', n') := memset8 fuel m d v n in
  ∃ k, 0 ≤ k ≤ n ∧ d' = d + k ∧ n' = n - k ∧ mem_eq m' (mem_fill m d c k).
Proof.
  intros Hv. revert m d n. induction fuel as [|fuel IH]; intros m d n Hn; simpl.
  { exists 0. split_and!; try lia. intros x. unfold mem_fill. case_test; [lia|done]. }
  case_test.
  2: { exists 0. split_and!; try lia. intros x. unfold mem_fill. case_test; [lia|done]. }
  specialize (IH (wr64 m d v) (d + 8) (n - 8) ltac:(lia)).
  destruct (memset8 fuel (wr64 m d v) (d + 8) v (n - 8)) as [[m' d'] n'].
  destruct IH as (k & Hk & -> & -> & Hm). exists (8 + k). split_and!; try lia.
  intros x. rewrite Hm. unfold mem_fill, wr64.
  repeat case_test; zsplit; try lia; try done. apply Hv. lia.
Qed.

Lemma memset1_fill fuel m d c :
  mem_eq (memset1 fuel m d c) (mem_fill m d c (Z.of_nat fuel)).
Proof.
  revert m d. induction fuel as [|fuel IH]; intros m d; simpl memset1.
  { intros x. unfold mem_fill. case_test; [lia|done]. }
  rewrite IH. intros x. unfold mem_fill, wr8.
  repeat case_test; zsplit; lia || done.
Qed.

(** The word [memset] stores holds the byte in each of its eight places. *)
Lemma memset_word c :
  0 ≤ c < 256 →
  let v := c in
  let v := Z.lor v (wrap64 (Z.shiftl v 8)) in
  let v := Z.lor v (wrap64 (Z.shiftl v 16)) in
  let v := Z.lor v (wrap64 (Z.shiftl v 32)) in
  ∀ i, 0 ≤ i < 8 → (v / 2 ^ (8 * i)) `mod` 256 = c.
Proof.
  intros Hc. cbv zeta.
  set (word := λ c, let v := Z.lor c (wrap64 (Z.shiftl c 8)) in
    let v := Z.lor v (wrap64 (Z.shiftl v 16)) in Z.lor v (wrap64 (Z.shiftl v 32))).
  change (∀ i, 0 ≤ i < 8 → (word c / 2 ^ (8 * i)) `mod` 256 = c).
  assert (forallb (λ c, forallb (λ i, (word c / 2 ^ (8 * i)) `mod` 256 =? c) (seqZ 0 8))
            (seqZ 0 256) = true) as Hall by (by vm_compute).
  rewrite forallb_forall in Hall. intros i Hi.
  assert (In c (seqZ 0 256)) as Hin by (apply list_elem_of_In, elem_of_seqZ; lia).
  specialize (Hall c Hin). rewrite forallb_forall in Hall.
  apply Z.eqb_eq, Hall, list_elem_of_In, elem_of_seqZ. lia.
Qed.

Lemma memset_fill m d c n :
  0 ≤ n → mem_eq (memset m d c n) (mem_fill m d (c `mod` 256) n).
Proof.
  intros Hn. unfold memset. set (c8 := c `mod` 256).
  assert (0 ≤ c8 < 256) as Hc by (apply Z.mod_pos_bound; lia).
  pose proof (memset_word c8 Hc) as Hw. cbv zeta in Hw. cbv zeta.
  revert Hw. set (v := Z.lor _ (wrap64 (Z.shiftl _ 32))). intros Hw.
  destruct ((Z.land d 7 =? 0) && (8 <=? n)).
  - pose proof (memset8_fill (Z.to_nat n) m d v n c8 Hw Hn) as H8.
    destruct (memset8 (Z.to_nat n) m d v n) as [[m' d'] n'].
    destruct H8 as (k & Hk & -> & -> & Hm). rewrite memset1_fill.
    intros x. unfold mem_fill. rewrite Hm. unfold mem_fill.
    rewrite Z2Nat.id by lia. repeat case_test; zsplit; lia || done.
  - rewrite memset1_fill, Z2Nat.id by lia. done.
Qed.

(** C2. The word-wise fast paths agree with byte-wise code: [memmove] moves
    the source bytes as they were before the call for every alignment,
    length and overlap, [memcpy] does so whenever the destination does not
    lie inside the source above its start, and [memset] fills exactly its
    range. *)
Theorem mem_routines_correct m d s c n :
  bytes_ok m → 0 ≤ n →
  mem_eq (memmove m d s n) (mem_move m d s n) ∧
  (upward d s n → mem_eq (memcpy m d s n) (mem_move m d s n)) ∧
  mem_eq (memset m d c n) (mem_fill m d (c `mod` 256) n).
Proof.
  intros Hm Hn. split_and!; [|by apply memcpy_move|by apply memset_fill].
  unfold memmove. case_test.
  { intros x. unfold mem_move. case_test; [|done]. zsplit; [f_equal; lia|lia]. }
  case_test.
  - apply memcpy_move; [done..|]. unfold upward. zsplit; lia.
  - rewrite memmove_back_move by lia. rewrite Z2Nat.id by lia.
    by replace (d + n - n) with d by lia; replace (s + n - n) with s by lia.
Qed.

Lemma mem_routines_witness :
  mem_eq (memmove (λ a, a `mod` 256) 104 100 41) (mem_move (λ a, a `mod` 256) 104 100 41) ∧
  map (memmove (λ a, a `mod` 256) 104 100 41) (seqZ 103 5) = [103; 100; 101; 102; 103].
Proof.
  assert (bytes_ok (λ a, a `mod` 256)) as Hb by (intros a; apply Z.mod_pos_bound; lia).
  split; [exact (proj1 (mem_routines_correct _ 104 100 0 41 Hb ltac:(lia)))|by vm_compute].
Defined.

(** ** Strings *)

(** The NUL-terminated string [l] is stored at [s]. *)
Fixpoint cstr (m : mem) (s : Z) (l : list Z) : Prop :=
  match l with
  | [] => m s = 0
  | c :: l => m s = c ∧ c ≠ 0 ∧ cstr m (s + 1) l
  end.

Lemma cstr_lookup m s l i c :
  cstr m s l → l !! i = Some c → m (s + Z.of_nat i) = c ∧ c ≠ 0.
Proof.
  revert s i. induction l as [|c' l IH]; intros s i; simpl; [done|].
  intros (Hc & Hne & Hl). destruct i as [|i]; simpl; intros Hi; simplify_eq.
  - by rewrite Z.add_0_r.
  - replace (s + Z.of_nat (S i)) with (s + 1 + Z.of_nat i) by lia. by apply IH.
Qed.

Lemma cstr_end m s l : cstr m s l → m (s + Z.of_nat (length l)) = 0.
Proof.
  revert s. induction l as [|c l IH]; intros s; simpl; [by rewrite Z.add_0_r|].
  intros (_ & _ & Hl). replace (s + Z.of_nat (S (length l))) with (s + 1 + Z.of_nat (length l)) by lia.
  by apply IH.
Qed.

Lemma cstr_intro m s l :
  (∀ i c, l !! i = Some c → m (s + Z.of_nat i) = c ∧ c ≠ 0) →
  m (s + Z.of_nat (length l)) = 0 → cstr m s l.
Proof.
  revert s. induction l as [|c l IH]; intros s Hl He; simpl in *; [by rewrite Z.add_0_r in He|].
  destruct (Hl 0%nat c) as [Hc Hne]; [done|]. rewrite Z.add_0_r in Hc.
  split_and!; [done..|]. apply IH.
  - intros i d Hd. replace (s + 1 + Z.of_nat i) with (s + Z.of_nat (S i)) by lia. by apply Hl.
  - rewrite <-He. f_equal. lia.
Qed.

Lemma strlen_from_cstr fuel m s l :
  cstr m s l → (length l < fuel)%nat →
  strlen_from fuel m s = Some (s + Z.of_nat (length l)).
Proof.
  revert s l. induction fuel as [|fuel IH]; intros s l Hl Hf; [lia|]. simpl.
  destruct l as [|c l]; simpl in *.
  - rewrite Hl. simpl. f_equal. lia.
  - destruct Hl as (Hc & Hne & Hl). rewrite Hc. case_test; [done|].
    rewrite (IH _ l) by (done || lia). f_equal. lia.
Qed.

Lemma strlen_cstr fuel m s l :
  cstr m s l → (length l < fuel)%nat → strlen fuel m s = Some (Z.of_nat (length l)).
Proof.
  intros Hl Hf. unfold strlen. rewrite (strlen_from_cstr _ _ _ l) by done.
  simpl. f_equal. lia.
Qed.

Lemma strnlen_cstr m s l max :
  cstr m s l → strnlen m s max = Z.of_nat (Nat.min (length l) max).
Proof.
  revert s l. induction max as [|max IH]; intros s l Hl; simpl.
  { by rewrite Nat.min_0_r. }
  destruct l as [|c l]; simpl in *; [by rewrite Hl|].
  destruct Hl as (-> & Hne & Hl). case_test; [done|]. rewrite (IH _ l) by done. lia.
Qed.

(** The writes of [strlcpy] stay inside the first [size] bytes of [dst]. *)
Lemma strlcpy_cstr fuel m dst src size l :
  bytes_ok m → cstr m src l → (length l < fuel)%nat → 0 < size →
  upward dst src (Z.of_nat (length l)) →
  ∃ m', strlcpy fuel m dst src size = Some (m', Z.of_nat (length l)) ∧
    cstr m' dst (take (Z.to_nat (size - 1)) l) ∧
    (∀ x, x < dst ∨ dst + size ≤ x → m' x = m x) ∧
    (∀ x, dst + Z.of_nat (length l) < x → m' x = m x).
Proof.
  intros Hb Hl Hf Hs Hu. unfold strlcpy. rewrite (strlen_cstr _ _ _ l) by done. simpl.
  case_test; [lia|].
  set (n := if size <=? Z.of_nat (length l) then size - 1 else Z.of_nat (length l)).
  assert (0 ≤ n < size ∧ n ≤ Z.of_nat (length l) ∧
          n = Z.of_nat (length (take (Z.to_nat (size - 1)) l))) as (Hn1 & Hn2 & Hn3).
  { rewrite length_take. unfold n. case_test; lia. }
  assert (mem_eq (memcpy m dst src n) (mem_move m dst src n)) as Hcpy.
  { apply memcpy_move; [done|lia|unfold upward in *; lia]. }
  eexists. split; [done|]. split_and!.
  - apply cstr_intro.
    + intros i c Hi. pose proof (lookup_lt_Some _ _ _ Hi) as Hlt.
      unfold wr8. case_test; [lia|]. rewrite Hcpy. unfold mem_move. case_test; [|zsplit; lia].
      apply lookup_take_Some in Hi as [Hi _].
      destruct (cstr_lookup m src l i c Hl Hi) as [Hc Hne]. split; [|done].
      rewrite <-Hc. f_equal. lia.
    + rewrite <-Hn3. unfold wr8. case_test; [done|lia].
  - intros x Hx. unfold wr8. case_test; [lia|]. rewrite Hcpy. unfold mem_move.
    case_test; [lia|done].
  - intros x Hx. unfold wr8. case_test; [lia|]. rewrite Hcpy. unfold mem_move.
    case_test; [lia|done].
Qed.

Lemma cstr_ext m m' s l :
  (∀ x, s ≤ x ≤ s + Z.of_nat (length l) → m' x = m x) → cstr m s l → cstr m' s l.
Proof.
  intros He Hl. apply cstr_intro.
  - intros i c Hi. pose proof (lookup_lt_Some _ _ _ Hi). rewrite He by lia. by eapply cstr_lookup.
  - rewrite He by lia. by apply cstr_end.
Qed.

Lemma strnlen_full m s n : (∀ i, 0 ≤ i < Z.of_nat n → m (s + i) ≠ 0) → strnlen m s n = Z.of_nat n.
Proof.
  revert s. induction n as [|n IH]; intros s H; cbn [strnlen]; [done|].
  pose proof (H 0 ltac:(lia)). rewrite Z.add_0_r in *. case_test; [done|].
  rewrite IH; [lia|]. intros i Hi. replace (s + 1 + i) with (s + (i + 1)) by lia. apply H. lia.
Qed.

(** A destination that is terminated inside the buffer. *)
Lemma strlcat_cstr fuel m dst src size k l :
  bytes_ok m → cstr m dst k → cstr m src l → (length l < fuel)%nat →
  Z.of_nat (length k) < size → size + Z.of_nat (length l) < U64 →
  dst + size ≤ src ∨ src + Z.of_nat (length l) < dst →
  ∃ m', strlcat fuel m dst src size = Some (m', Z.of_nat (length k + length l)) ∧
    cstr m' dst (take (Z.to_nat (size - 1)) (k ++ l)) ∧
    ∀ x, x < dst ∨ dst + size ≤ x → m' x = m x.
Proof.
  intros Hb Hk Hl Hf Hs Hu Hd. unfold strlcat. rewrite (strnlen_cstr _ _ k) by done.
  rewrite Nat.min_l by lia. case_test; [lia|].
  destruct (strlcpy_cstr fuel m (dst + Z.of_nat (length k)) src (size - Z.of_nat (length k)) l)
    as (m' & -> & Hc & Ho & _); [done..|lia|unfold upward; lia|].
  simpl. exists m'. split; [rewrite add64_small by lia; f_equal; f_equal; lia|]. split.
  - assert (∀ i, (i < length k)%nat → m' (dst + Z.of_nat i) = m (dst + Z.of_nat i)) as Hlow
      by (intros; apply Ho; lia).
    rewrite take_app_ge by lia. apply cstr_intro.
    + intros i c Hi. apply lookup_app_Some in Hi as [Hi|[Hge Hi]].
      * rewrite Hlow by (by eapply lookup_lt_Some). by eapply cstr_lookup.
      * assert (dst + Z.of_nat i = dst + Z.of_nat (length k) + Z.of_nat (i - length k)) as -> by lia.
        replace (Z.to_nat (size - 1) - length k)%nat
          with (Z.to_nat (size - Z.of_nat (length k) - 1)) in Hi by lia.
        by eapply cstr_lookup.
    + rewrite length_app. replace (Z.to_nat (size - 1) - length k)%nat
          with (Z.to_nat (size - Z.of_nat (length k) - 1)) by lia.
      rewrite Nat2Z.inj_add, Z.add_assoc. by apply cstr_end.
  - intros x Hx. apply Ho. lia.
Qed.

(** C3. [strlcat] onto a string [k] that ends inside the [size] bytes of [dst]
    writes only these bytes, leaves the NUL-terminated concatenation there, cut
    to [size - 1] characters, and returns the length of the string it tried to
    create, so that the caller sees a truncation.  When no NUL is among the
    [size] bytes, [size = 0] included, it writes nothing and returns [size] and
    the length of the appended string.  That string must not overlap the
    buffer, and both together fit into the address space. *)
Theorem strlcat_correct fuel m dst src size l :
  bytes_ok m → cstr m src l → (length l < fuel)%nat →
  0 ≤ size → size + Z.of_nat (length l) < U64 →
  dst + size ≤ src ∨ src + Z.of_nat (length l) < dst →
  (∀ k, cstr m dst k → Z.of_nat (length k) < size →
     ∃ m', strlcat fuel m dst src size = Some (m', Z.of_nat (length k + length l)) ∧
       cstr m' dst (take (Z.to_nat (size - 1)) (k ++ l)) ∧
       ∀ x, x < dst ∨ dst + size ≤ x → m' x = m x) ∧
  ((∀ i, 0 ≤ i < size → m (dst + i) ≠ 0) →
     strlcat fuel m dst src size = Some (m, size + Z.of_nat (length l))).
Proof.
  intros Hb Hl Hf Hs Hu Hd. split; [intros k Hk Hlen; by apply strlcat_cstr|].
  intros Hfull. unfold strlcat. rewrite strnlen_full by (intros i Hi; apply Hfull; lia).
  rewrite Z2Nat.id, Z.eqb_refl, (strlen_cstr fuel m src l) by done. simpl. by rewrite add64_small by lia.
Qed.

(** "ab" at 100 in an 8-byte buffer, "cdefghij" at 200. *)
Definition ex_strings : mem := λ a,
  if a =? 100 then 97 else if a =? 101 then 98
  else if (200 <=? a) && (a <? 208) then 99 + (a - 200) else 0.

Lemma strlcat_witness :
  (∃ m', strlcat 20 ex_strings 100 200 8 = Some (m', 10) ∧
         cstr m' 100 [97; 98; 99; 100; 101; 102; 103]) ∧
  strlcat 20 ex_strings 100 200 2 = Some (ex_strings, 10).
Proof.
  assert (bytes_ok ex_strings) as Hb by (intros a; unfold ex_strings; repeat case_test; lia).
  assert (cstr ex_strings 200 [99; 100; 101; 102; 103; 104; 105; 106]) as Hl by by vm_compute.
  destruct (strlcat_correct 20 ex_strings 100 200 8 _ Hb Hl) as [H _]; [simpl; unfold U64; lia..|].
  destruct (strlcat_correct 20 ex_strings 100 200 2 _ Hb Hl) as [_ H']; [simpl; unfold U64; lia..|].
  destruct (H [97; 98]) as (m' & H1 & H2 & _); [by vm_compute|simpl; lia|].
  split; [exists m'; by split|]. apply H'. intros i Hi.
  assert (i = 0 ∨ i = 1) as [-> | ->] by lia; by vm_compute.
Defined.
