(* ===== verification/Printf.v ===== *)
(** * Formatted output (src/lib/vsprintf.c)

    [vsnprintf] as it is written: the output cursor [out] that counts every
    character but stores only what fits, number formatting, and the format
    interpreter.  The format is the list of its characters before the NUL;
    a [va_list] is the list of the argument slots, each an 8-byte integer
    slot or a string.  A result [None] is undefined behaviour: an argument
    that is missing or of another kind, or an [int] (a width, a precision, a
    padding) that overflows.

    [format_text] gives the text that a format and its arguments stand for,
    as fields that are padded to their widths.  [vsnprintf_correct] says that
    for every buffer the code stores the first [size - 1] characters of that
    text and a NUL, nothing else, and returns its length as an [int].
    [printf_strtoul] reads printed numbers back. *)

From S2P Require Import Prelude CString.

Record out := Out { o_mem : mem; o_buf : Z; o_size : Z; o_pos : Z }.

Definition emit (o : out) (c : Z) : out :=
  let m := if o_pos o ⊕ 1 <? o_size o then wr8 (o_mem o) (o_buf o + o_pos o) c
           else o_mem o in
  Out m (o_buf o) (o_size o) (o_pos o ⊕ 1).

Definition sext (bits v : Z) : Z :=
  let u := v `mod` 2 ^ bits in if u <? 2 ^ (bits - 1) then u else u - 2 ^ bits.

(** An [int] that was computed; an overflow is undefined. *)
Definition int32 (z : Z) : option Z :=
  if (- 2 ^ 31 <=? z) && (z <? 2 ^ 31) then Some z else None.

(** [while (n-- > 0) emit(o, c);] *)
Fixpoint emit_rep (o : out) (c : Z) (n : nat) : out :=
  match n with O => o | S n => emit_rep (emit o c) c n end.

(** Emitting the characters of a string in order. *)
Definition emit_str (o : out) (s : list Z) : out := fold_left emit s o.

Notation F_LEFT := 1%Z (only parsing).
Notation F_PLUS := 2%Z (only parsing).
Notation F_SPACE := 4%Z (only parsing).
Notation F_ALT := 8%Z (only parsing).
Notation F_ZERO := 16%Z (only parsing).
Notation F_UPPER := 32%Z (only parsing).

Definition has (flags f : Z) : bool := negb (Z.land flags f =? 0).

(** The character of a digit: "0123456789ABCDEF" or "0123456789abcdef". *)
Definition digit_char (upper : bool) (d : Z) : Z :=
  if d <? 10 then 48 + d else if upper then 65 + (d - 10) else 97 + (d - 10).

(** The [while (v)] loop: the digits in [tmp], least significant first. *)
Fixpoint num_digits (fuel : nat) (upper : bool) (base v : Z) : list Z :=
  match fuel with
  | O => []
  | S fuel =>
      if v =? 0 then []
      else digit_char upper (v `mod` base) :: num_digits fuel upper base (v / base)
  end.

(** [char tmp[24]]: 24 rounds, enough for 64-bit values ([tmp_enough]). *)
Definition TMP_SIZE : nat := 24.
Arguments TMP_SIZE : simpl never.

(** [pad] is decremented once more than it is positive. *)
Definition emit_num (o : out) (v : Z) (neg : bool) (base flags width prec : Z) : option out :=
  let is_zero := v =? 0 in
  let tmp := (if is_zero && negb (prec =? 0) then [48] else []) ++
             num_digits TMP_SIZE (has flags F_UPPER) base v in
  let n := Z.of_nat (length tmp) in
  let sign := if neg then 45
              else if has flags F_PLUS then 43
              else if has flags F_SPACE then 32 else 0 in
  let prefix :=
    if has flags F_ALT && (base =? 16) && negb is_zero
    then [48; if has flags F_UPPER then 88 else 120] else [] in
  let prefix :=
    if has flags F_ALT && (base =? 8) &&
       ((n =? 0) || negb (nth (Z.to_nat (n - 1)) tmp 0 =? 48))
    then [48] else prefix in
  let plen := Z.of_nat (length prefix) + (if sign =? 0 then 0 else 1) in
  let zeros := if n <? prec then prec - n else 0 in
  let zeros :=
    if has flags F_ZERO && negb (has flags F_LEFT) && (prec <? 0)
    then let w := width - plen - n in if zeros <? w then w else zeros
    else zeros in
  let pad := width - plen - zeros - n in
  _ ← int32 (pad - 1);
  let o := if has flags F_LEFT then o else emit_rep o 32 (Z.to_nat pad) in
  let o := if sign =? 0 then o else emit o sign in
  let o := emit_str o prefix in
  let o := emit_rep o 48 (Z.to_nat zeros) in
  let o := emit_str o (rev tmp) in
  Some (if has flags F_LEFT then emit_rep o 32 (Z.to_nat pad) else o).

(** An argument slot: an 8-byte integer slot, or a string pointer with the
    characters it points at ([None] is NULL). *)
Inductive va := VInt (slot : Z) | VStr (s : option (list Z)).

(** [va_arg] at type int, long / long long, unsigned and 64-bit unsigned. *)
Definition va_int (ap : list va) : option (Z * list va) :=
  match ap with VInt v :: ap => Some (sext 32 v, ap) | _ => None end.
Definition va_long (ap : list va) : option (Z * list va) :=
  match ap with VInt v :: ap => Some (sext 64 v, ap) | _ => None end.
Definition va_uint (ap : list va) : option (Z * list va) :=
  match ap with VInt v :: ap => Some (wrap32 v, ap) | _ => None end.
Definition va_ulong (ap : list va) : option (Z * list va) :=
  match ap with VInt v :: ap => Some (wrap64 v, ap) | _ => None end.
Definition va_str (ap : list va) : option (option (list Z) * list va) :=
  match ap with VStr s :: ap => Some (s, ap) | _ => None end.

(** The character under the format pointer; 0 at the end. *)
Definition head (fmt : list Z) : Z := default 0 (hd_error fmt).

Fixpoint parse_flags (fmt : list Z) (flags : Z) : list Z * Z :=
  match fmt with
  | [] => (fmt, flags)
  | c :: fmt' =>
      if c =? 45 then parse_flags fmt' (Z.lor flags F_LEFT)
      else if c =? 43 then parse_flags fmt' (Z.lor flags F_PLUS)
      else if c =? 32 then parse_flags fmt' (Z.lor flags F_SPACE)
      else if c =? 35 then parse_flags fmt' (Z.lor flags F_ALT)
      else if c =? 48 then parse_flags fmt' (Z.lor flags F_ZERO)
      else (fmt, flags)
  end.

Fixpoint parse_num (fmt : list Z) (w : Z) : option (list Z * Z) :=
  match fmt with
  | c :: fmt' => if isdigit c then w ← int32 (w * 10 + (c - 48)); parse_num fmt' w else Some (fmt, w)
  | [] => Some (fmt, w)
  end.

(** The field width: [*] takes an [int], a negative one means left-justify. *)
Definition parse_width (fmt : list Z) (flags : Z) (ap : list va)
    : option (list Z * Z * Z * list va) :=
  if head fmt =? 42 then
    '(w, ap) ← va_int ap;
    if w <? 0 then w ← int32 (- w); Some (tail fmt, Z.lor flags F_LEFT, w, ap)
    else Some (tail fmt, flags, w, ap)
  else '(fmt', w) ← parse_num fmt 0; Some (fmt', flags, w, ap).

Definition parse_prec (fmt : list Z) (ap : list va) : option (list Z * Z * list va) :=
  if head fmt =? 46 then
    let fmt := tail fmt in
    if head fmt =? 42 then '(p, ap) ← va_int ap; Some (tail fmt, p, ap)
    else '(fmt', p) ← parse_num fmt 0; Some (fmt', p, ap)
  else Some (fmt, -1, ap).

(** Length modifiers: 0 int, 1 long, 2 long long, -1 short, -2 char. *)
Fixpoint parse_len (fmt : list Z) (len : Z) : option (list Z * Z) :=
  match fmt with
  | [] => Some (fmt, len)
  | c :: fmt' =>
      if c =? 108 then l ← int32 (len + 1); parse_len fmt' l
      else if c =? 104 then l ← int32 (len - 1); parse_len fmt' l
      else if (c =? 122) || (c =? 116) || (c =? 106) then parse_len fmt' 1
      else Some (fmt, len)
  end.

Definition null_text : list Z := [40; 110; 117; 108; 108; 41].

(** One conversion: the [switch] on the conversion character. *)
Definition conversion (o : out) (c flags width prec len : Z) (ap : list va)
    : option (out * list va) :=
  if (c =? 100) || (c =? 105) then
    '(s, ap) ← (if 1 <=? len then va_long ap else va_int ap);
    let s := if len =? -1 then sext 16 s else s in
    let s := if len <=? -2 then sext 8 s else s in
    o ← emit_num o (Z.abs s) (s <? 0) 10 flags width prec;
    Some (o, ap)
  else if (c =? 117) || (c =? 120) || (c =? 88) || (c =? 111) then
    '(u, ap) ← (if 1 <=? len then va_ulong ap else va_uint ap);
    let u := if len =? -1 then u `mod` 2 ^ 16 else u in
    let u := if len <=? -2 then u `mod` 2 ^ 8 else u in
    let flags := if c =? 88 then Z.lor flags F_UPPER else flags in
    o ← emit_num o u false (if c =? 117 then 10 else if c =? 111 then 8 else 16)
          (Z.ldiff flags (Z.lor F_PLUS F_SPACE)) width prec;
    Some (o, ap)
  else if c =? 112 then
    '(u, ap) ← va_ulong ap;
    o ← emit_num o u false 16 (Z.lor F_ALT F_ZERO) 18 (-1);
    Some (o, ap)
  else if c =? 115 then
    '(s, ap) ← va_str ap;
    let str := default null_text s in
    let n := if 0 <=? prec then Z.min (Z.of_nat (length str)) prec
             else sext 32 (Z.of_nat (length str)) in
    pad ← int32 (width - n);
    let o := if has flags F_LEFT then o else emit_rep o 32 (Z.to_nat pad) in
    let o := emit_str o (take (Z.to_nat n) str) in
    Some (if has flags F_LEFT then emit_rep o 32 (Z.to_nat pad) else o, ap)
  else if c =? 99 then
    '(v, ap) ← va_int ap;
    let pad := Z.to_nat (width - 1) in
    let o := if has flags F_LEFT then o else emit_rep o 32 pad in
    let o := emit o (v `mod` 256) in
    Some (if has flags F_LEFT then emit_rep o 32 pad else o, ap)
  else if c =? 37 then Some (emit o 37, ap)
  else Some (emit (emit o 37) c, ap).

(** The [for (; *fmt; fmt++)] loop; [length fmt] rounds are enough
    ([vsn_loop_enough]). *)
Fixpoint vsn_loop (fuel : nat) (o : out) (fmt : list Z) (ap : list va) : option out :=
  match fuel, fmt with
  | _, [] => Some o
  | O, _ => None
  | S fuel, c :: fmt =>
      if negb (c =? 37) then vsn_loop fuel (emit o c) fmt ap
      else
        let '(fmt, flags) := parse_flags fmt 0 in
        '(fmt, flags, width, ap) ← parse_width fmt flags ap;
        '(fmt, prec, ap) ← parse_prec fmt ap;
        '(fmt, len) ← parse_len fmt 0;
        match fmt with
        | [] => Some o
        | c :: fmt =>
            '(o, ap) ← conversion o c flags width prec len ap;
            vsn_loop fuel o fmt ap
        end
  end.

(** Returns the memory and the position as an [int]. *)
Definition vsnprintf (m : mem) (buf size : Z) (fmt : list Z) (ap : list va)
    : option (mem * Z) :=
  o ← vsn_loop (length fmt) (Out m buf size 0) fmt ap;
  let m := if size =? 0 then o_mem o
           else wr8 (o_mem o) (buf + (if o_pos o <? size then o_pos o else size - 1)) 0 in
  Some (m, sext 32 (o_pos o)).

Definition snprintf := vsnprintf.

(** ** The text of a format *)

Lemma emit_rep_str o c n : emit_rep o c n = emit_str o (replicate n c).
Proof. revert o. induction n as [|n IH]; intros o; simpl; [done|]. apply IH. Qed.

Lemma emit_str_app o s t : emit_str (emit_str o s) t = emit_str o (s ++ t).
Proof. symmetry. apply fold_left_app. Qed.

Lemma emit_one o c : emit o c = emit_str o [c].
Proof. done. Qed.

(** A field: padded with spaces to its width, on the left or on the right. *)
Definition field (left : bool) (width : Z) (body : list Z) : list Z :=
  let spaces := replicate (Z.to_nat (width - Z.of_nat (length body))) 32 in
  if left then body ++ spaces else spaces ++ body.

(** A number: sign, prefix, zeros up to the precision, or without one up to
    the width if the flag 0 asks for it, and the digits. *)
Definition num_body (v : Z) (neg : bool) (base flags width prec : Z) : list Z :=
  let digits := if v =? 0 then if prec =? 0 then [] else [48]
                else rev (num_digits TMP_SIZE (has flags F_UPPER) base v) in
  let sign := if neg then [45] else if has flags F_PLUS then [43]
              else if has flags F_SPACE then [32] else [] in
  let prefix := if negb (has flags F_ALT) then []
                else if base =? 16 then
                  if v =? 0 then [] else [48; if has flags F_UPPER then 88 else 120]
                else if (base =? 8) && negb (head digits =? 48) then [48] else [] in
  let zeros := if 0 <=? prec then prec - Z.of_nat (length digits)
               else if has flags F_ZERO && negb (has flags F_LEFT)
               then width - Z.of_nat (length (sign ++ prefix ++ digits)) else 0 in
  sign ++ prefix ++ replicate (Z.to_nat zeros) 48 ++ digits.

Definition num_field (v : Z) (neg : bool) (base flags width prec : Z) : option (list Z) :=
  let body := num_body v neg base flags width prec in
  _ ← int32 (width - Z.of_nat (length body) - 1);
  Some (field (has flags F_LEFT) width body).

(** The text of one conversion, and the arguments it leaves. *)
Definition conv_text (c flags width prec len : Z) (ap : list va) : option (list Z * list va) :=
  if (c =? 100) || (c =? 105) then
    '(s, ap) ← (if 1 <=? len then va_long ap else va_int ap);
    let s := if len =? -1 then sext 16 s else if len <=? -2 then sext 8 s else s in
    t ← num_field (Z.abs s) (s <? 0) 10 flags width prec; Some (t, ap)
  else if (c =? 117) || (c =? 120) || (c =? 88) || (c =? 111) then
    '(u, ap) ← (if 1 <=? len then va_ulong ap else va_uint ap);
    let u := if len =? -1 then u `mod` 2 ^ 16 else if len <=? -2 then u `mod` 2 ^ 8 else u in
    let flags := Z.ldiff (if c =? 88 then Z.lor flags F_UPPER else flags) (Z.lor F_PLUS F_SPACE) in
    t ← num_field u false (if c =? 117 then 10 else if c =? 111 then 8 else 16) flags width prec;
    Some (t, ap)
  else if c =? 112 then
    '(u, ap) ← va_ulong ap; t ← num_field u false 16 (Z.lor F_ALT F_ZERO) 18 (-1); Some (t, ap)
  else if c =? 115 then
    '(s, ap) ← va_str ap;
    let str := default null_text s in
    let n := if 0 <=? prec then Z.min (Z.of_nat (length str)) prec
             else sext 32 (Z.of_nat (length str)) in
    pad ← int32 (width - n);
    let spaces := replicate (Z.to_nat pad) 32 in
    let body := take (Z.to_nat n) str in
    Some (if has flags F_LEFT then body ++ spaces else spaces ++ body, ap)
  else if c =? 99 then
    '(v, ap) ← va_int ap; Some (field (has flags F_LEFT) width [v `mod` 256], ap)
  else Some (if c =? 37 then [37] else [37; c], ap).

(** The text of a format. *)
Fixpoint text_loop (fuel : nat) (fmt : list Z) (ap : list va) : option (list Z) :=
  match fuel, fmt with
  | _, [] => Some []
  | O, _ => None
  | S fuel, c :: fmt =>
      if negb (c =? 37) then t ← text_loop fuel fmt ap; Some (c :: t)
      else
        let '(fmt, flags) := parse_flags fmt 0 in
        '(fmt, flags, width, ap) ← parse_width fmt flags ap;
        '(fmt, prec, ap) ← parse_prec fmt ap;
        '(fmt, len) ← parse_len fmt 0;
        match fmt with
        | [] => Some []
        | c :: fmt =>
            '(t, ap) ← conv_text c flags width prec len ap;
            t' ← text_loop fuel fmt ap; Some (t ++ t')
        end
  end.
Definition format_text (fmt : list Z) (ap : list va) : option (list Z) :=
  text_loop (length fmt) fmt ap.

Lemma last_rev (l : list Z) : nth (Z.to_nat (Z.of_nat (length l) - 1)) l 0 = head (rev l).
Proof.
  destruct l as [|x l _] using rev_ind; [done|]. rewrite rev_unit, length_app, app_nth2; simpl; [|lia].
  by replace (_ - length l)%nat with 0%nat by lia.
Qed.

Lemma num_digits_zero fuel upper base : num_digits fuel upper base 0 = [].
Proof. by destruct fuel. Qed.

(** The pieces of a number, in the order in which they are written. *)
Lemma emit_pieces o sg (S P D : list Z) (left : bool) (width zeros zs : Z) :
  (if sg =? 0 then S = [] else S = [sg]) → 0 ≤ zeros → Z.to_nat zs = Z.to_nat zeros →
  let plen := Z.of_nat (length P) + (if sg =? 0 then 0 else 1) in
  let pad := width - plen - zeros - Z.of_nat (length D) in
  let body := S ++ P ++ replicate (Z.to_nat zs) 48 ++ rev D in
  width - Z.of_nat (length body) = pad ∧
  (let o := if left then o else emit_rep o 32 (Z.to_nat pad) in
   let o := if sg =? 0 then o else emit o sg in
   let o := emit_str o P in
   let o := emit_rep o 48 (Z.to_nat zeros) in
   let o := emit_str o (rev D) in
   if left then emit_rep o 32 (Z.to_nat pad) else o) = emit_str o (field left width body).
Proof.
  intros HS Hz Hzs plen pad body. cbv zeta.
  assert (width - Z.of_nat (length body) = pad) as Hl.
  { unfold body, pad, plen. rewrite !length_app, length_replicate, length_rev, Hzs.
    destruct (sg =? 0); rewrite HS; simpl; lia. }
  split; [done|]. unfold field. rewrite Hl. unfold body. rewrite Hzs.
  destruct left, (sg =? 0); rewrite HS, ?emit_rep_str, ?emit_one, ?emit_str_app, <-?app_assoc; done.
Qed.

(** [emit_num] writes the field. *)
Lemma emit_num_text o v neg base flags width prec :
  emit_num o v neg base flags width prec =
  t ← num_field v neg base flags width prec; Some (emit_str o t).
Proof.
  unfold emit_num, num_field, num_body. cbv zeta.
  set (U := has flags F_UPPER). set (D := if v =? 0 then _ else rev _).
  set (tmp := (if (v =? 0) && negb (prec =? 0) then [48] else []) ++ num_digits TMP_SIZE U base v).
  assert (D = rev tmp) as ->.
  { unfold D, tmp. destruct (Z.eqb_spec v 0) as [->|]; [|done]. rewrite num_digits_zero, app_nil_r.
    by destruct (prec =? 0). }
  set (sg := if neg then 45 else _). set (S := if neg then [45] else _).
  assert (if sg =? 0 then S = [] else S = [sg]) as HS.
  { unfold sg, S. by destruct neg, (has flags F_PLUS), (has flags F_SPACE). }
  assert (Z.of_nat (length S) = if sg =? 0 then 0 else 1) as HSl by (destruct (sg =? 0); by rewrite HS).
  set (P := if negb (has flags F_ALT) then [] else _). set (P' := if _ && (base =? 8) && _ then [48] else _).
  assert (P' = P) as ->.
  { unfold P', P. rewrite last_rev. destruct (has flags F_ALT); [|done]. cbn [andb negb].
    destruct (Z.eqb_spec base 16) as [->|]; [by destruct (v =? 0)|]. destruct (Z.eqb_spec base 8); [|done].
    destruct tmp as [|x tmp'] eqn:E; [done|]. by destruct (head _ =? 48). }
  set (zeros := if has flags F_ZERO && _ && (prec <? 0) then _ else _). set (zs := if 0 <=? prec then _ else _).
  assert (0 ≤ zeros ∧ Z.to_nat zs = Z.to_nat zeros) as [Hz Hzs].
  { unfold zeros, zs. rewrite !length_app, length_rev, !Nat2Z.inj_add, HSl.
    set (pl := if sg =? 0 then 0 else 1). set (n := Z.of_nat (length tmp)). set (p := Z.of_nat (length P)).
    assert (0 ≤ n) as Hn by (unfold n; lia). clearbody pl n p. destruct (Z.leb_spec 0 prec), (Z.ltb_spec prec 0); try lia;
      destruct (has flags F_ZERO && negb (has flags F_LEFT)), (Z.ltb_spec n prec); cbn [andb]; try lia; case_test; lia. }
  destruct (emit_pieces o sg S P tmp (has flags F_LEFT) width zeros zs HS Hz Hzs) as [E1 E2].
  rewrite E1. destruct (int32 _); [|done]. cbn [mbind option_bind]. by rewrite <-E2.
Qed.

Lemma conversion_text o c flags width prec len ap :
  conversion o c flags width prec len ap =
  '(t, ap) ← conv_text c flags width prec len ap; Some (emit_str o t, ap).
Proof.
  unfold conversion, conv_text. destruct ((c =? 100) || (c =? 105)).
  { destruct (if 1 <=? len then va_long ap else va_int ap) as [[s ap']|]; [|done].
    cbn [mbind option_bind]. cbv zeta. rewrite emit_num_text.
    assert ((if len <=? -2 then sext 8 (if len =? -1 then sext 16 s else s) else if len =? -1 then sext 16 s else s) =
      (if len =? -1 then sext 16 s else if len <=? -2 then sext 8 s else s)) as -> by (repeat case_test; done || lia).
    by destruct (num_field _ _ _ _ _ _). }
  destruct ((c =? 117) || (c =? 120) || (c =? 88) || (c =? 111)).
  { destruct (if 1 <=? len then va_ulong ap else va_uint ap) as [[u ap']|]; [|done].
    cbn [mbind option_bind]. cbv zeta. rewrite emit_num_text.
    assert ((if len <=? -2 then (if len =? -1 then u `mod` 2 ^ 16 else u) `mod` 2 ^ 8 else if len =? -1 then u `mod` 2 ^ 16 else u) =
      (if len =? -1 then u `mod` 2 ^ 16 else if len <=? -2 then u `mod` 2 ^ 8 else u)) as -> by (repeat case_test; done || lia).
    by destruct (num_field _ _ _ _ _ _). }
  destruct (c =? 112).
  { destruct (va_ulong ap) as [[u ap']|]; [|done]. cbn [mbind option_bind]. rewrite emit_num_text. by destruct (num_field _ _ _ _ _ _). }
  destruct (c =? 115).
  { destruct (va_str ap) as [[s ap']|]; [|done]. cbn [mbind option_bind]. cbv zeta. destruct (int32 _) as [pad|]; [|done].
    cbn [mbind option_bind]. destruct (has flags F_LEFT); by rewrite ?emit_rep_str, ?emit_str_app. }
  destruct (c =? 99).
  { destruct (va_int ap) as [[u ap']|]; [|done]. cbn [mbind option_bind]. cbv zeta. unfold field.
    destruct (has flags F_LEFT); by rewrite ?emit_rep_str, ?emit_one, ?emit_str_app. }
  by destruct (c =? 37).
Qed.

Lemma vsn_loop_text fuel o fmt ap : vsn_loop fuel o fmt ap = t ← text_loop fuel fmt ap; Some (emit_str o t).
Proof.
  revert o fmt ap. induction fuel as [|fuel IH]; intros o fmt ap; destruct fmt as [|c fmt]; try done. cbn [vsn_loop text_loop].
  destruct (negb (c =? 37)). { rewrite IH. by destruct (text_loop fuel fmt ap). }
  destruct (parse_flags fmt 0) as [fmt1 flags1].
  destruct (parse_width fmt1 flags1 ap) as [[[[fmt2 flags] width] ap2]|]; [|done]. cbn [mbind option_bind].
  destruct (parse_prec fmt2 ap2) as [[[fmt3 prec] ap3]|]; [|done]. cbn [mbind option_bind].
  destruct (parse_len fmt3 0) as [[fmt4 len]|]; [|done]. cbn [mbind option_bind].
  destruct fmt4 as [|c' fmt']; [done|]. rewrite conversion_text.
  destruct (conv_text c' flags width prec len ap3) as [[t ap']|]; [|done]. cbn [mbind option_bind]. rewrite IH.
  destruct (text_loop fuel fmt' ap') as [t'|]; [|done]. cbn [mbind option_bind]. by rewrite emit_str_app.
Qed.

(** The parsers consume the format, so more fuel changes nothing. *)
Lemma parse_flags_length fmt flags : (length (parse_flags fmt flags).1 ≤ length fmt)%nat.
Proof.
  revert flags. induction fmt as [|c fmt IH]; intros flags; simpl; [done|].
  repeat case_match; simpl; try done; (etrans; [apply IH|lia]).
Qed.

Lemma parse_num_length fmt w fmt' w' : parse_num fmt w = Some (fmt', w') → (length fmt' ≤ length fmt)%nat.
Proof.
  revert w. induction fmt as [|c fmt IH]; intros w; simpl; [by intros; simplify_eq|].
  destruct (isdigit c); [|by intros; simplify_eq]. destruct (int32 _) as [x|]; simpl; [|done].
  intros H. apply IH in H. lia.
Qed.

Lemma length_tail_le (l : list Z) : (length (tail l) ≤ length l)%nat.
Proof. destruct l; simpl; lia. Qed.

Lemma parse_width_length fmt flags ap fmt' fl w ap' :
  parse_width fmt flags ap = Some (fmt', fl, w, ap') → (length fmt' ≤ length fmt)%nat.
Proof.
  unfold parse_width. pose proof (length_tail_le fmt). case_test.
  - destruct (va_int ap) as [[v ap1]|]; simpl; [|done]. case_test; [|naive_solver].
    destruct (int32 _); simpl; naive_solver.
  - destruct (parse_num fmt 0) as [[]|] eqn:E; simpl; [|done]. apply parse_num_length in E. naive_solver.
Qed.

Lemma parse_prec_length fmt ap fmt' p ap' :
  parse_prec fmt ap = Some (fmt', p, ap') → (length fmt' ≤ length fmt)%nat.
Proof.
  unfold parse_prec. pose proof (length_tail_le fmt). pose proof (length_tail_le (tail fmt)).
  case_test; [case_test|].
  - destruct (va_int ap) as [[v ap1]|]; simpl; [|done]. intros; simplify_eq. lia.
  - destruct (parse_num (tail fmt) 0) as [[]|] eqn:E; simpl; [|done]. apply parse_num_length in E.
    intros; simplify_eq. lia.
  - intros; simplify_eq. lia.
Qed.

Lemma parse_len_length fmt len fmt' l : parse_len fmt len = Some (fmt', l) → (length fmt' ≤ length fmt)%nat.
Proof.
  revert len. induction fmt as [|c fmt IH]; intros len; simpl; [by intros; simplify_eq|].
  destruct (c =? 108); [|destruct (c =? 104); [|destruct (_ || _); [intros H; apply IH in H; lia|by intros; simplify_eq]]].
  all: destruct (int32 _); simpl; [|done]; intros H; apply IH in H; lia.
Qed.

(** [length fmt] rounds are enough. *)
Lemma vsn_loop_enough fuel fuel' o fmt ap :
  (length fmt ≤ fuel)%nat → (length fmt ≤ fuel')%nat →
  vsn_loop fuel o fmt ap = vsn_loop fuel' o fmt ap.
Proof.
  revert fuel' o fmt ap.
  induction fuel as [|fuel IH]; intros [|fuel'] o fmt ap; destruct fmt as [|c fmt]; simpl;
    intros H1 H2; try lia; try done.
  destruct (negb (c =? 37)); [apply IH; lia|].
  pose proof (parse_flags_length fmt 0) as L1. destruct (parse_flags fmt 0) as [fmt1 flags1].
  destruct (parse_width fmt1 flags1 ap) as [[[[fmt2 flags] width] ap2]|] eqn:L2; [|done]. simpl.
  destruct (parse_prec fmt2 ap2) as [[[fmt3 prec] ap3]|] eqn:L3; [|done]. simpl.
  destruct (parse_len fmt3 0) as [[fmt4 len]|] eqn:L4; [|done]. apply parse_len_length in L4.
  apply parse_width_length in L2. apply parse_prec_length in L3. simpl in *.
  destruct fmt4 as [|c' fmt']; [done|]. simpl in L4.
  destruct (conversion o c' flags width prec len ap3) as [[o' ap']|]; [|done]. simpl.
  apply IH; lia.
Qed.

(** ** What reaches the buffer *)

Lemma emit_str_pos o t :
  0 ≤ o_pos o → o_pos o + Z.of_nat (length t) < U64 →
  o_pos (emit_str o t) = o_pos o + Z.of_nat (length t) ∧
  o_buf (emit_str o t) = o_buf o ∧ o_size (emit_str o t) = o_size o.
Proof.
  revert o. induction t as [|c t IH]; intros o Hp Hu; simpl in *; [by split_and!; [lia|..]|].
  assert (o_pos (emit o c) = o_pos o + 1) as E by (simpl; rewrite add64_small; lia).
  destruct (IH (emit o c)) as (H1 & H2 & H3); [lia..|]. rewrite H1, H2, H3, E. simpl.
  by split_and!; [lia|..].
Qed.

Lemma emit_str_mem o t x :
  0 ≤ o_pos o → o_pos o + Z.of_nat (length t) < U64 →
  o_mem (emit_str o t) x =
    let i := x - o_buf o - o_pos o in
    if (0 <=? i) && (i <? Z.of_nat (length t)) && (o_pos o + i + 1 <? o_size o)
    then nth (Z.to_nat i) t 0 else o_mem o x.
Proof.
  revert o. induction t as [|c t IH]; intros o Hp Hu; simpl in *.
  { case_test; [lia|done]. }
  assert (o_pos o ⊕ 1 = o_pos o + 1) as E by (rewrite add64_small; lia).
  rewrite IH by (simpl; rewrite E; lia). unfold emit. simpl. rewrite E. cbv zeta.
  destruct ((0 <=? x - o_buf o - o_pos o) && (x - o_buf o - o_pos o <? Z.of_nat (S (length t)))
    && (o_pos o + (x - o_buf o - o_pos o) + 1 <? o_size o)) eqn:E'; zbool.
  - destruct (decide (x - o_buf o - o_pos o = 0)) as [E0|E0].
    + case_test; [lia|]. rewrite E0. simpl. case_test; [|lia]. unfold wr8. case_test; [done|lia].
    + case_test; [|zsplit; lia].
      replace (Z.to_nat (x - o_buf o - o_pos o)) with (S (Z.to_nat (x - o_buf o - (o_pos o + 1)))) by lia.
      done.
  - case_test; [zsplit; lia|]. case_test; [|done]. unfold wr8. case_test; [zsplit; lia|done].
Qed.

(** The memory after the text [t] was formatted into [size] bytes at [buf]. *)
Definition stored (m : mem) (buf size : Z) (t : list Z) (x : Z) : Z :=
  let i := x - buf in
  let n := Z.min (Z.of_nat (length t)) (size - 1) in
  if (0 <=? i) && (i <? n) then nth (Z.to_nat i) t 0
  else if (0 <? size) && (i =? n) then 0
  else m x.

Lemma vsnprintf_stored m buf size fmt ap t :
  0 ≤ size → format_text fmt ap = Some t → Z.of_nat (length t) < U64 →
  ∃ m', vsnprintf m buf size fmt ap = Some (m', sext 32 (Z.of_nat (length t))) ∧
        ∀ x, m' x = stored m buf size t x.
Proof.
  intros Hs Ht Hu. unfold vsnprintf. unfold format_text in Ht. rewrite vsn_loop_text, Ht. cbn [mbind option_bind].
  destruct (emit_str_pos (Out m buf size 0) t) as (Hp & _ & _); [simpl; lia..|]. simpl in Hp. rewrite Hp.
  eexists. split; [done|]. intros x. unfold stored. cbv zeta.
  pose proof (emit_str_mem (Out m buf size 0) t x ltac:(simpl; lia) ltac:(simpl; lia)) as Hm. simpl in Hm.
  cbv zeta in Hm. rewrite !Z.sub_0_r in Hm.
  destruct (size =? 0) eqn:Hz; zbool.
  - rewrite Hm. repeat case_test; zsplit; lia || done.
  - assert ((if 0 + Z.of_nat (length t) <? size then 0 + Z.of_nat (length t) else size - 1) =
            Z.min (Z.of_nat (length t)) (size - 1)) as -> by (case_test; lia).
    unfold wr8. rewrite Hm. repeat case_test; zsplit; lia || done.
Qed.

(** C4. A format and its arguments stand for the text [format_text], which does
    not depend on the buffer: literal characters and fields, each padded to its
    width, numbers with sign, prefix, zeros and digits.  For every buffer and
    size, [vsnprintf] stores the first [size - 1] characters of the text and a
    terminating NUL, changes no other byte, and returns the length of the whole
    text as an [int] (so that a text of 2^31 characters and more gives a wrong
    length).  When the text is not defined, because an argument is missing or a
    width overflows, neither is the call. *)
Theorem vsnprintf_correct fmt ap :
  match format_text fmt ap with
  | Some t =>
      Z.of_nat (length t) < U64 →
      ∀ m buf size, 0 ≤ size →
        ∃ m', vsnprintf m buf size fmt ap = Some (m', sext 32 (Z.of_nat (length t))) ∧
              ∀ x, m' x = stored m buf size t x
  | None => ∀ m buf size, vsnprintf m buf size fmt ap = None
  end.
Proof.
  destruct (format_text fmt ap) as [t|] eqn:E; [intros; by apply vsnprintf_stored|].
  intros m buf size. unfold vsnprintf. unfold format_text in E. by rewrite vsn_loop_text, E.
Qed.

(** "%5d|%-6x|%s" of -42, 255 and "ab". *)
Lemma vsnprintf_correct_witness :
  ∃ m', vsnprintf (λ _, 7) 1000 12 [37; 53; 100; 124; 37; 45; 54; 120; 124; 37; 115] [VInt (-42); VInt 255; VStr (Some [97; 98])] = Some (m', 15) ∧
    ∀ x, m' x = stored (λ _, 7) 1000 12 [32; 32; 45; 52; 50; 124; 102; 102; 32; 32; 32; 32; 124; 97; 98] x.
Proof.
  exact (vsnprintf_correct [37; 53; 100; 124; 37; 45; 54; 120; 124; 37; 115] [VInt (-42); VInt 255; VStr (Some [97; 98])]
    eq_refl (λ _, 7) 1000 12 ltac:(lia)).
Defined.

(** ** Reading printed numbers back *)

(** A 64-bit value has at most 22 digits in base 8 and above, so [tmp]
    holds every number. *)
Lemma tmp_enough upper base v :
  8 ≤ base → 0 ≤ v < U64 → (length (num_digits TMP_SIZE upper base v) ≤ 22)%nat.
Proof.
  intros Hb Hv.
  assert (∀ k fuel w, 0 ≤ w < 8 ^ Z.of_nat k →
    (length (num_digits fuel upper base w) ≤ k)%nat) as Hgen.
  { induction k as [|k IH]; intros fuel w Hw.
    - assert (w = 0) as -> by (simpl in Hw; lia). by destruct fuel.
    - destruct fuel as [|fuel]; simpl; [lia|]. case_test; simpl; [lia|].
      apply le_n_S, IH. split; [apply Z.div_pos; lia|].
      rewrite Nat2Z.inj_succ, Z.pow_succ_r in Hw by lia.
      apply Z.div_lt_upper_bound; [lia|]. nia. }
  apply Hgen. change (8 ^ Z.of_nat 22) with (2 ^ 66). unfold U64 in Hv. lia.
Qed.

(** One step of [strtoul]'s loop on a character, and the value of a text. *)
Definition digit_step (base v c : Z) : Z := wrap64 (v * base + default 0 (digit_of c)).

Definition is_digit_of (base c : Z) : Prop :=
  c ≠ 0 ∧ ∃ d, digit_of c = Some d ∧ 0 ≤ d < base.

Lemma strtoul_digits_cstr fuel m s base v l :
  cstr m s l → (length l < fuel)%nat → Forall (is_digit_of base) l →
  strtoul_digits fuel m s base v =
    Some (fold_left (digit_step base) l v, s + Z.of_nat (length l)).
Proof.
  revert s v l. induction fuel as [|fuel IH]; intros s v l Hl Hf Hd; [lia|]. simpl.
  destruct l as [|c l]; simpl in *.
  { rewrite Hl. simpl. do 2 f_equal. lia. }
  destruct Hl as (-> & Hne & Hl). apply Forall_cons in Hd as [(_ & d & Hc & Hr) Hd].
  rewrite Hc. case_test; [lia|]. rewrite (IH _ _ l) by (done || lia).
  unfold digit_step at 3. rewrite Hc. simpl. do 2 f_equal. lia.
Qed.

Lemma digit_char_of upper base d :
  0 ≤ d < base → base ≤ 16 →
  digit_of (digit_char upper d) = Some d ∧ is_digit_of base (digit_char upper d) ∧
  (digit_char upper d = 48 → d = 0).
Proof.
  intros Hd Hb. assert (digit_of (digit_char upper d) = Some d) as H.
  { unfold digit_char. destruct (d <? 10) eqn:?; [|destruct upper]; unfold digit_of, isdigit;
      repeat case_test; zsplit; first [exfalso; lia | f_equal; lia]. }
  split; [done|]. split.
  - split; [|by exists d]. unfold digit_char. destruct upper; repeat case_test; lia.
  - unfold digit_char. destruct upper; repeat case_test; lia.
Qed.

Lemma num_digits_value fuel upper base v :
  2 ≤ base ≤ 16 → 0 ≤ v < base ^ Z.of_nat fuel → v < U64 →
  Forall (is_digit_of base) (num_digits fuel upper base v) ∧
  foldr (λ c a, digit_step base a c) 0 (num_digits fuel upper base v) = v.
Proof.
  intros Hb. revert v. induction fuel as [|fuel IH]; intros v Hv Hu; simpl.
  { simpl in Hv. split; [constructor|lia]. }
  case_test; [by split; [constructor|simpl; lia]|]. simpl.
  pose proof (Z.div_mod v base ltac:(lia)). pose proof (Z.mod_pos_bound v base ltac:(lia)).
  assert (0 ≤ v / base < base ^ Z.of_nat fuel) as Hq.
  { split; [apply Z.div_pos; lia|]. apply Z.div_lt_upper_bound; [lia|].
    rewrite Nat2Z.inj_succ, Z.pow_succ_r in Hv by lia. lia. }
  assert (v / base ≤ v) as Hle by (apply Z.div_le_upper_bound; nia).
  destruct (IH (v / base) Hq ltac:(lia)) as [IH1 IH2].
  destruct (digit_char_of upper base (v `mod` base)) as (Hd & Hd' & _); [lia..|].
  split; [by constructor|]. rewrite IH2. unfold digit_step. rewrite Hd. simpl.
  rewrite wrap64_small by lia. lia.
Qed.

Lemma num_digits_nonempty upper base v : v ≠ 0 → num_digits TMP_SIZE upper base v ≠ [].
Proof.
  intros Hv. change TMP_SIZE with (S (pred TMP_SIZE)). generalize (pred TMP_SIZE).
  intros k. simpl. by rewrite (proj2 (Z.eqb_neq v 0)).
Qed.

Definition num_text (upper : bool) (base v : Z) : list Z :=
  rev ((if v =? 0 then [48] else []) ++ num_digits TMP_SIZE upper base v).

Lemma num_field_plain (upper : bool) (base v : Z) :
  (length (num_text upper base v) ≤ 23)%nat →
  num_field v false base (if upper then F_UPPER else 0) 0 (-1) = Some (num_text upper base v).
Proof.
  intros Hl. assert (num_body v false base (if upper then F_UPPER else 0) 0 (-1) = num_text upper base v) as E.
  { unfold num_body, num_text. cbv zeta.
    assert (has (if upper then F_UPPER else 0) F_UPPER = upper) as -> by (by destruct upper).
    assert (∀ f, f = F_ALT ∨ f = F_LEFT ∨ f = F_PLUS ∨ f = F_SPACE ∨ f = F_ZERO →
      has (if upper then F_UPPER else 0) f = false) as Hf
      by (intros f [->|[->|[->|[->| ->]]]]; by destruct upper).
    rewrite !Hf by tauto. cbn. destruct (Z.eqb_spec v 0) as [->|]; [by rewrite num_digits_zero|done]. }
  unfold num_field. cbv zeta. rewrite E. unfold int32. destruct (_ && _) eqn:Ei; [|exfalso; zsplit; lia].
  cbn [mbind option_bind]. unfold field. rewrite to_nat_nonpos by lia. cbn [replicate app]. rewrite app_nil_r.
  by destruct (has _ _).
Qed.

Lemma num_text_digits upper base v :
  8 ≤ base ≤ 16 → 0 ≤ v < U64 →
  Forall (is_digit_of base) (num_text upper base v) ∧
  fold_left (digit_step base) (num_text upper base v) 0 = v ∧
  (0 < length (num_text upper base v) ≤ 23)%nat.
Proof.
  intros Hb Hv. unfold num_text.
  assert (U64 ≤ base ^ Z.of_nat TMP_SIZE) as Hpow.
  { transitivity (8 ^ Z.of_nat TMP_SIZE); [by vm_compute|]. apply Z.pow_le_mono_l; lia. }
  destruct (num_digits_value TMP_SIZE upper base v) as [H1 H2]; [lia..|]. clear Hpow.
  pose proof (tmp_enough upper base v ltac:(lia) Hv) as Hlen.
  destruct (digit_char_of false base 0) as (_ & H0 & _); [lia..|].
  pose proof (num_digits_nonempty upper base v) as Hne.
  revert H1 H2 Hlen Hne. generalize (num_digits TMP_SIZE upper base v) as D.
  intros D H1 H2 Hlen Hne. split_and!.
  - rewrite rev_alt. change (Forall (is_digit_of base) (reverse ((if v =? 0 then [48] else []) ++ D))).
    apply Forall_reverse, Forall_app. split; [|done]. case_test; [by constructor|constructor].
  - rewrite <-fold_left_rev_right, rev_involutive, foldr_app, H2.
    destruct (v =? 0) eqn:Ev; zbool; [by rewrite Ev|done].
  - rewrite length_rev, length_app. case_test; simpl; [lia|].
    destruct D; simpl in *; [by destruct Hne|lia].
  - rewrite length_rev, length_app. case_test; simpl; lia.
Qed.

(** The conversions [%llu], [%llo], [%llx] and [%llX] with their bases. *)
Definition unsigned_conv (c base : Z) : Prop :=
  (c, base) ∈ [(117, 10); (111, 8); (120, 16); (88, 16)].

Lemma text_unsigned c base v :
  unsigned_conv c base → 0 ≤ v < U64 → (length (num_text (c =? 88)%Z base v) ≤ 23)%nat →
  format_text [37; 108; 108; c] [VInt v] = Some (num_text (c =? 88) base v).
Proof.
  intros Hc Hv Hl. unfold unsigned_conv in Hc. rewrite !elem_of_cons, elem_of_nil in Hc.
  destruct Hc as [?|[?|[?|[?|[]]]]]; simplify_eq; cbn [Z.eqb Pos.eqb] in Hl |- *; cbv -[num_text num_field wrap64 app]; rewrite wrap64_small by done;
    (match goal with |- context [num_text ?u ?b v] => change (num_field _ _ _ _ _ _) with (num_field v false b (if u then F_UPPER else 0) 0 (-1)); rewrite (num_field_plain u) by done end); by rewrite app_nil_r.
Qed.

Lemma skip_space_none fuel m s : (0 < fuel)%nat → isspace (m s) = false → skip_space fuel m s = Some s.
Proof. intros Hf Hs. destruct fuel; [lia|]. simpl. by rewrite Hs. Qed.

(** Printing and parsing are inverse: a 64-bit number printed with [%llu],
    [%llo], [%llx] or [%llX] into a buffer with room for 23 digits is read back
    by [strtoul] in the same base, which stops exactly at the NUL. *)
Theorem printf_strtoul c base v m buf size fuel :
  unsigned_conv c base → 0 ≤ v < U64 → 24 ≤ size → (24 ≤ fuel)%nat →
  ∃ m' n, vsnprintf m buf size [37; 108; 108; c] [VInt v] = Some (m', n) ∧
          strtoul fuel m' buf base = Some (v, buf + n).
Proof.
  intros Hc Hv Hs Hf. set (t := num_text (c =? 88) base v).
  assert (8 ≤ base ≤ 16) as Hb.
  { unfold unsigned_conv in Hc. rewrite !elem_of_cons, elem_of_nil in Hc.
    destruct Hc as [?|[?|[?|[?|[]]]]]; simplify_eq; lia. }
  destruct (num_text_digits (c =? 88) base v Hb Hv) as (Hd & Hval & Hlen).
  fold t in Hd, Hval, Hlen.
  destruct (vsnprintf_stored m buf size [37; 108; 108; c] [VInt v] t) as (m' & Heq & Hm');
    [lia|by apply text_unsigned; unfold t in Hlen; try lia|unfold U64; lia|].
  assert (sext 32 (Z.of_nat (length t)) = Z.of_nat (length t)) as Hse
    by (unfold sext; cbv zeta; rewrite Z.mod_small by lia; case_test; lia).
  exists m', (Z.of_nat (length t)). split; [by rewrite Heq, Hse|].
  assert (cstr m' buf t) as Hcs.
  { apply cstr_intro.
    - intros i x Hi. pose proof (lookup_lt_Some _ _ _ Hi). rewrite Hm'. unfold stored.
      cbv zeta. case_test; [|zsplit; lia].
      replace (buf + Z.of_nat i - buf) with (Z.of_nat i) by lia. rewrite Nat2Z.id.
      rewrite (nth_lookup_Some _ _ _ _ Hi). split; [done|].
      by apply (Forall_lookup_1 _ _ _ _ Hd Hi).
    - rewrite Hm'. unfold stored. cbv zeta. case_test; [lia|]. case_test; [done|]. zsplit; lia. }
  clearbody t.
  assert (strtoul_digits fuel m' buf base 0 = Some (v, buf + Z.of_nat (length t))) as Hdig.
  { rewrite (strtoul_digits_cstr _ _ _ _ _ t) by (done || lia). by rewrite Hval. }
  destruct t as [|c0 t]; simpl in Hlen; [lia|]. destruct Hcs as (Hc0 & Hne0 & Hcs).
  apply Forall_cons in Hd as [(_ & d0 & Hd0 & Hr0) Hd].
  assert (48 ≤ c0) as H48.
  { revert Hd0. unfold digit_of, isdigit. repeat case_test; intros; simplify_eq; lia. }
  assert (m' (buf + 1) ≠ 120 ∧ m' (buf + 1) ≠ 88) as [Hx HX].
  { destruct t as [|c1 t]; simpl in Hcs; [by rewrite Hcs|].
    destruct Hcs as (-> & _ & _). apply Forall_cons in Hd as [(_ & d1 & Hd1 & Hr1) _].
    split; intros ->; vm_compute in Hd1; simplify_eq; lia. }
  unfold strtoul. rewrite skip_space_none by (lia || (unfold isspace; rewrite Hc0; lia)).
  cbn [mbind option_bind]. cbv zeta. rewrite Hc0, (proj2 (Z.eqb_neq c0 43)), Hc0 by lia.
  rewrite (proj2 (Z.eqb_neq base 0)), (proj2 (Z.eqb_neq _ 120) Hx),
    (proj2 (Z.eqb_neq _ 88) HX) by lia.
  by rewrite andb_false_r.
Qed.

Lemma printf_strtoul_witness :
  ∃ m' n, vsnprintf (λ _, 255) 1000 32 [37; 108; 108; 120] [VInt 3735928559] = Some (m', n) ∧
          strtoul 24 m' 1000 16 = Some (3735928559, 1000 + n) ∧
          map m' (seqZ 1000 9) = [100; 101; 97; 100; 98; 101; 101; 102; 0].
Proof.
  destruct (printf_strtoul 120 16 3735928559 (λ _, 255) 1000 32 24) as (m' & n & H1 & H2);
    [unfold unsigned_conv; do 2 right; left|done|lia|lia|].
  exists m', n. split; [exact H1|]. split; [exact H2|].
  vm_compute in H1. injection H1 as <- <-. by vm_compute.
Defined.
