(* ===== verification/Memblock.v ===== *)
(** * Early physical memory bookkeeping (src/mm/memblock.c)

    The two region lists (RAM banks and reservations), the merging insertion
    that keeps them sorted and separated, and the top-down allocator.  A
    region list is a Rocq list in array order; the array's capacity
    [MEMBLOCK_MAX] is the guard of [insert]. *)

From S2P Require Import Prelude.

Definition MEMBLOCK_MAX : nat := 64.

Record memblock_region := Region { r_base : Z; r_size : Z }.

#[export] Instance memblock_region_eq_dec : EqDecision memblock_region.
Proof. solve_decision. Defined.

(** The exclusive end as the code computes it, in [phys_addr_t]. *)
Definition r_end (r : memblock_region) : Z := r_base r ⊕ r_size r.

(** The [while] loop of [insert]: regions that overlap or touch
    [[base, end)] are absorbed into it, the others stay in place. *)
Fixpoint merge_regions (l : list memblock_region) (base end_ : Z)
    : list memblock_region * Z * Z :=
  match l with
  | [] => ([], base, end_)
  | r :: l' =>
      if (r_end r <? base) || (end_ <? r_base r) then
        let '(k, b, e) := merge_regions l' base end_ in (r :: k, b, e)
      else merge_regions l' (Z.min base (r_base r)) (Z.max end_ (r_end r))
  end.

(** The insertion in base order that follows the loop. *)
Fixpoint place_region (l : list memblock_region) (n : memblock_region)
    : list memblock_region :=
  match l with
  | [] => [n]
  | r :: l' => if r_base r <? r_base n then r :: place_region l' n else n :: r :: l'
  end.

Definition insert (l : list memblock_region) (base size : Z)
    : outcome (list memblock_region) :=
  if size =? 0 then Ok l
  else
    let '(k, b, e) := merge_regions l base (base ⊕ size) in
    if Nat.eqb (length k) MEMBLOCK_MAX then Panic
    else Ok (place_region k (Region b (e ⊖ b))).

Record memblock := Memblock {
  memory : list memblock_region;
  reserved : list memblock_region;
}.

Definition memblock_add (m : memblock) (base size : Z) : outcome memblock :=
  let b := ALIGN_UP base PAGE_SIZE in
  let e := ALIGN_DOWN (base ⊕ size) PAGE_SIZE in
  if b <? e then
    let! l := insert (memory m) b (e ⊖ b) in Ok (Memblock l (reserved m))
  else Ok m.

Definition memblock_reserve (m : memblock) (base size : Z) : outcome memblock :=
  let b := ALIGN_DOWN base PAGE_SIZE in
  let e := ALIGN_UP (base ⊕ size) PAGE_SIZE in
  let! l := insert (reserved m) b (e ⊖ b) in Ok (Memblock (memory m) l).

Definition region_has (pa : Z) (r : memblock_region) : bool :=
  (r_base r <=? pa) && (pa ⊖ r_base r <? r_size r).

Definition memblock_is_reserved (m : memblock) (pa : Z) : bool :=
  existsb (region_has pa) (reserved m).

(** The inner [for] loop of [memblock_alloc]: the first reserved region
    that overlaps [[cand, cand + size)]. *)
Fixpoint first_conflict (l : list memblock_region) (cand size : Z)
    : option memblock_region :=
  match l with
  | [] => None
  | r :: l' =>
      if (cand <? r_end r) && (r_base r <? cand ⊕ size) then Some r
      else first_conflict l' cand size
  end.

(** What the [while (cand >= lo)] loop of [memblock_alloc] comes to: a
    candidate, none in this bank, or (in the model only) no fuel left. *)
Inductive search := Found (cand : Z) | NotHere | NoFuel.

Fixpoint search_down (fuel : nat) (res : list memblock_region)
    (lo size align cand : Z) : search :=
  match fuel with
  | O => NoFuel
  | S fuel =>
      if lo <=? cand then
        match first_conflict res cand size with
        | None => Found cand
        | Some r =>
            if r_base r <? size then NotHere
            else search_down fuel res lo size align
                   (ALIGN_DOWN (r_base r ⊖ size) align)
        end
      else NotHere
  end.

(** One bank of the outer loop.  Every round of the search moves below one
    more reserved region, so [S (length res)] rounds are enough
    ([search_bank_spec]). *)
Definition search_bank (res : list memblock_region) (size align limit : Z)
    (b : memblock_region) : search :=
  let lo := r_base b in
  let hi := Z.min (r_end b) limit in
  if (hi <=? lo) || (hi ⊖ lo <? size) then NotHere
  else search_down (S (length res)) res lo size align
         (ALIGN_DOWN (hi ⊖ size) align).

(** The outer loop runs over the banks from the last to the first. *)
Fixpoint search_banks (res : list memblock_region) (size align limit : Z)
    (banks : list memblock_region) : search :=
  match banks with
  | [] => NotHere
  | b :: banks' =>
      match search_bank res size align limit b with
      | NotHere => search_banks res size align limit banks'
      | s => s
      end
  end.

(** [None]: the search has not come to an end. *)
Definition memblock_alloc (m : memblock) (size align limit : Z)
    : option (outcome (memblock * Z)) :=
  let size := ALIGN_UP size PAGE_SIZE in
  match search_banks (reserved m) size align limit (rev (memory m)) with
  | Found cand => Some (let! m' := memblock_reserve m cand size in Ok (m', cand))
  | NotHere => Some (Ok (m, 0))
  | NoFuel => None
  end.

Definition memblock_start (m : memblock) : Z :=
  match memory m with [] => 0 | r :: _ => r_base r end.

Definition memblock_end (m : memblock) : Z :=
  match memory m !! pred (length (memory m)) with None => 0 | Some r => r_end r end.

Definition memblock_total (m : memblock) : Z :=
  fold_left (λ t r, t ⊕ r_size r) (memory m) 0.

(** ** Invariant *)

(** A region is not empty and ends within the 64-bit address space. *)
Definition region_ok (r : memblock_region) : Prop :=
  0 ≤ r_base r ∧ 0 < r_size r ∧ r_base r + r_size r < U64.

(** Sorted with a gap between neighbours: touching regions were merged. *)
Inductive separated : list memblock_region → Prop :=
| sep_nil : separated []
| sep_cons r l :
    Forall (λ s, r_base r + r_size r < r_base s) l →
    separated l → separated (r :: l).

Definition regions_ok (l : list memblock_region) : Prop :=
  Forall region_ok l ∧ separated l ∧ (length l ≤ MEMBLOCK_MAX)%nat.

Definition covers (l : list memblock_region) (pa : Z) : Prop :=
  ∃ r, r ∈ l ∧ r_base r ≤ pa < r_base r + r_size r.

Definition memblock_ok (m : memblock) : Prop :=
  regions_ok (memory m) ∧ regions_ok (reserved m).

#[export] Hint Constructors separated : olux.

Lemma r_end_ok r : region_ok r → r_end r = r_base r + r_size r.
Proof. intros (?&?&?). unfold r_end. by rewrite add64_small by lia. Qed.

Lemma covers_nil pa : ¬ covers [] pa.
Proof. intros (r & Hr & _). by apply not_elem_of_nil in Hr. Qed.

Lemma covers_cons r l pa :
  covers (r :: l) pa ↔ r_base r ≤ pa < r_base r + r_size r ∨ covers l pa.
Proof.
  unfold covers. setoid_rewrite elem_of_cons. split.
  - intros (s & [->|Hs] & Hpa); [by left|right; eauto].
  - intros [Hpa|(s & Hs & Hpa)]; eauto.
Qed.

Lemma is_reserved_iff m pa :
  regions_ok (reserved m) → u64_ok pa → memblock_is_reserved m pa = true ↔ covers (reserved m) pa.
Proof.
  intros (Hok & _ & _) [Hpa0 Hpa1]. rewrite Forall_forall in Hok.
  unfold memblock_is_reserved, covers. rewrite existsb_exists.
  split; intros (r & Hr & H); exists r.
  - apply list_elem_of_In in Hr. destruct (Hok r Hr) as (? & ? & ?). unfold region_has in H. zbool.
    rewrite sub64_small in * by lia. split; [done|lia].
  - split; [by apply list_elem_of_In|]. destruct (Hok r Hr) as (? & ? & ?). unfold region_has.
    rewrite sub64_small by lia. lia.
Qed.

(** The banks lie between [memblock_start] and [memblock_end]. *)
Lemma memory_bounds m r :
  regions_ok (memory m) → r ∈ memory m →
  memblock_start m ≤ r_base r ∧ r_base r + r_size r ≤ memblock_end m.
Proof.
  intros (Hok & Hsep & _) Hr. unfold memblock_start, memblock_end.
  destruct (memory m) as [|r0 l]; [by apply not_elem_of_nil in Hr|]. split.
  - inversion Hsep as [|?? Hg _]; subst. apply elem_of_cons in Hr as [->|Hr]; [lia|].
    rewrite Forall_forall in Hg, Hok. pose proof (Hg r Hr).
    destruct (Hok r0 ltac:(apply list_elem_of_here)). lia.
  - simpl length. simpl pred. revert r r0 Hok Hsep Hr.
    induction l as [|r1 l IH]; intros r r0 Hok Hsep Hr.
    + apply list_elem_of_singleton in Hr as ->. simpl. rewrite r_end_ok; [lia|].
      by rewrite Forall_singleton in Hok.
    + apply Forall_cons in Hok as [Hr0 Hok]. inversion Hsep as [|?? Hg Hsep']; subst.
      change ((r0 :: r1 :: l) !! length (r1 :: l)) with ((r1 :: l) !! length l).
      apply elem_of_cons in Hr as [->|Hr]; [|by apply IH].
      etransitivity; [|apply (IH r1 r1); [done..|apply list_elem_of_here]].
      apply Forall_cons in Hok as [(?&?&?) _]. rewrite Forall_cons in Hg. lia.
Qed.

(** ** [insert] *)

(** The loop absorbs what touches the interval: what is left is separated
    from the grown interval, and together they cover what they covered. *)
Lemma merge_regions_spec l base e k b' e' :
  Forall region_ok l → separated l → 0 ≤ base < e → e < U64 →
  merge_regions l base e = (k, b', e') →
  Forall region_ok k ∧ separated k ∧ (length k ≤ length l)%nat ∧
  k `sublist_of` l ∧
  0 ≤ b' ≤ base ∧ e ≤ e' < U64 ∧
  Forall (λ r, r_base r + r_size r < b' ∨ e' < r_base r) k ∧
  (∀ pa, covers k pa ∨ b' ≤ pa < e' ↔ covers l pa ∨ base ≤ pa < e).
Proof.
  revert base e k b' e'.
  induction l as [|r l IH]; intros base e k b' e' Hok Hsep Hbe He Hm; simpl in Hm.
  { simplify_eq. repeat split; try done; try lia; constructor. }
  apply Forall_cons in Hok as [Hr Hok]. inversion Hsep as [|?? Hgap Hsep']; subst.
  pose proof Hr as (Hr0 & Hrs & Hre). rewrite r_end_ok in Hm by done.
  destruct ((r_base r + r_size r <? base) || (e <? r_base r)) eqn:Htest.
  - destruct (merge_regions l base e) as [[k0 b0] e0] eqn:Hm'. simplify_eq.
    destruct (IH _ _ _ _ _ Hok Hsep' Hbe He Hm')
      as (Hk & Hks & Hlen & Hsub & Hb & He' & Hcl & Hcov).
    assert (r_base r + r_size r < b' ∨ e' < r_base r) as Hrcl.
    { (* neither end of the interval grew into [r]: growth comes from
         regions of [l], all of which lie above [r] *)
      destruct (decide (r_base r + r_size r < b')) as [|Hn]; [by left|right].
      apply orb_true_iff in Htest as [Ht|Ht]; zbool.
      - exfalso. assert (b' < base) as Hlt by lia.
        destruct (proj1 (Hcov b')) as [(s & Hs & Hin)|]; [right; lia| |lia].
        rewrite Forall_forall in Hgap. pose proof (Hgap s Hs). lia.
      - destruct (decide (e' < r_base r)) as [|Hn']; [done|exfalso].
        destruct (proj1 (Hcov e)) as [(s & Hs & Hin)|]; [right; lia| |lia].
        rewrite Forall_forall in Hgap. pose proof (Hgap s Hs). lia. }
    split_and!; try done; try lia.
    + by constructor.
    + constructor; [|done]. rewrite Forall_forall in Hgap |- *.
      intros s Hs. apply Hgap. by eapply elem_of_sublist.
    + simpl. lia.
    + by apply sublist_skip.
    + by constructor.
    + intros pa. rewrite !covers_cons. specialize (Hcov pa). tauto.
  - apply orb_false_iff in Htest as [Ht1 Ht2]. zbool.
    eapply IH in Hm as (Hk & Hks & Hlen & Hsub & Hb & He' & Hcl & Hcov); try done; try lia.
    split_and!; try done; try lia.
    + simpl. lia.
    + by apply sublist_cons.
    + intros pa. rewrite Hcov, covers_cons.
      assert (Z.min base (r_base r) ≤ pa < Z.max e (r_base r + r_size r) ↔
              r_base r ≤ pa < r_base r + r_size r ∨ base ≤ pa < e) by lia.
      tauto.
Qed.

Lemma place_region_spec k n :
  Forall region_ok k → separated k → region_ok n →
  Forall (λ r, r_base r + r_size r < r_base n ∨ r_base n + r_size n < r_base r) k →
  Forall region_ok (place_region k n) ∧ separated (place_region k n) ∧
  length (place_region k n) = S (length k) ∧
  (∀ s, s ∈ place_region k n ↔ s = n ∨ s ∈ k) ∧
  (∀ pa, covers (place_region k n) pa ↔
         covers k pa ∨ r_base n ≤ pa < r_base n + r_size n).
Proof.
  intros Hok Hsep Hn. induction Hsep as [|r k Hgap Hsep IH]; intros Hcl; simpl.
  { split_and!; [by apply Forall_singleton|by repeat constructor|done|set_solver|].
    intros pa. rewrite covers_cons. tauto. }
  apply Forall_cons in Hok as [Hr Hok]. apply Forall_cons in Hcl as [Hrcl Hcl].
  destruct (IH Hok Hcl) as (IH1 & IH2 & IH3 & IH4 & IH5).
  destruct Hr as (?&?&?), Hn as (?&?&?). case_test; simpl.
  - split_and!; [by constructor| |by rewrite IH3| |].
    2: { intros s. rewrite !elem_of_cons, IH4. tauto. }
    + constructor; [|done]. rewrite Forall_forall in Hgap |- *.
      intros s [->|Hs]%IH4; [lia|by apply Hgap].
    + intros pa. rewrite !covers_cons, IH5. tauto.
  - split_and!; [by repeat constructor| |done| |].
    2: { intros s. rewrite !elem_of_cons. tauto. }
    + constructor; [|by constructor]. constructor; [lia|].
      rewrite Forall_forall in Hgap |- *. intros s Hs. pose proof (Hgap s Hs). lia.
    + intros pa. rewrite (covers_cons n). tauto.
Qed.

Lemma insert_regions_ok l base size :
  regions_ok l → 0 ≤ base → 0 ≤ size → base + size < U64 →
  match insert l base size with
  | Ok l' => regions_ok l' ∧
             ∀ pa, covers l' pa ↔ covers l pa ∨ base ≤ pa < base + size
  | Panic => length l = MEMBLOCK_MAX
  end.
Proof.
  intros (Hok & Hsep & Hlen) Hb Hs He. unfold insert. case_test.
  { split; [done|]. intros pa. split; [tauto|]. intros [|]; [done|lia]. }
  rewrite add64_small by lia.
  destruct (merge_regions l base (base + size)) as [[k b'] e'] eqn:Hm.
  apply merge_regions_spec in Hm as (Hk & Hks & Hlk & _ & Hb' & He' & Hcl & Hcov);
    [|done..|lia|lia].
  rewrite sub64_small by lia.
  destruct (Nat.eqb_spec (length k) MEMBLOCK_MAX); [lia|].
  destruct (place_region_spec k (Region b' (e' - b'))) as (H1 & H2 & H3 & _ & H5);
    [done..|unfold region_ok; simpl; lia| |].
  { eapply Forall_impl; [done|]. simpl. intros. lia. }
  split; [by split_and!; [..|lia]|]. intros pa. rewrite H5. simpl.
  rewrite <-Hcov. replace (b' + (e' - b')) with e' by lia. done.
Qed.

(** The page of [pa] lies inside [[base, base + size)]. *)
Definition page_inside (base size pa : Z) : Prop :=
  base ≤ ALIGN_DOWN pa PAGE_SIZE ∧ ALIGN_DOWN pa PAGE_SIZE + PAGE_SIZE ≤ base + size.

(** The page of [pa] meets [[base, base + size)]. *)
Definition page_meets (base size pa : Z) : Prop :=
  base < ALIGN_DOWN pa PAGE_SIZE + PAGE_SIZE ∧ ALIGN_DOWN pa PAGE_SIZE < base + size.

Lemma page_gap x y : (PAGE_SIZE | x) → (PAGE_SIZE | y) → x < y → x + PAGE_SIZE ≤ y.
Proof. intros [i ->] [j ->]. unfold PAGE_SIZE. lia. Qed.

(** A page bound separates addresses as it separates their pages. *)
Lemma page_of_multiple q pa :
  u64_ok pa → (PAGE_SIZE | q) →
  (q ≤ pa ↔ q ≤ ALIGN_DOWN pa PAGE_SIZE) ∧
  (pa < q ↔ ALIGN_DOWN pa PAGE_SIZE + PAGE_SIZE ≤ q).
Proof.
  intros Hpa [k ->]. rewrite ALIGN_DOWN_div by auto with olux.
  pose proof (Z.div_mod pa PAGE_SIZE ltac:(done)).
  pose proof (Z.mod_pos_bound pa PAGE_SIZE ltac:(done)).
  unfold PAGE_SIZE in *. lia.
Qed.

Lemma page_inside_iff base size pa :
  0 ≤ base → 0 < size → base + size + PAGE_SIZE ≤ U64 → u64_ok pa →
  page_inside base size pa ↔
  ALIGN_UP base PAGE_SIZE ≤ pa < ALIGN_DOWN (base + size) PAGE_SIZE.
Proof.
  intros Hb Hs He Hpa. unfold page_inside.
  destruct (ALIGN_UP_spec base PAGE_SIZE) as [Hd1 Hl1]; [auto with olux|lia|lia|].
  destruct (ALIGN_DOWN_spec (base + size) PAGE_SIZE) as (Hd2 & Hl2 & Hg2);
    [auto with olux|unfold u64_ok, PAGE_SIZE in *; lia|].
  destruct (ALIGN_DOWN_spec pa PAGE_SIZE) as (Hd & _ & _); [auto with olux|done|].
  destruct (page_of_multiple _ pa Hpa Hd1) as [-> _].
  destruct (page_of_multiple _ pa Hpa Hd2) as [_ ->].
  pose proof (page_gap _ _ Hd Hd1).
  pose proof (page_gap _ (ALIGN_DOWN pa PAGE_SIZE + PAGE_SIZE) Hd2
                ltac:(by apply Z.divide_add_r)).
  unfold PAGE_SIZE in *. lia.
Qed.

Lemma page_meets_iff base size pa :
  0 ≤ base → 0 < size → base + size + PAGE_SIZE ≤ U64 → u64_ok pa →
  page_meets base size pa ↔
  ALIGN_DOWN base PAGE_SIZE ≤ pa < ALIGN_UP (base + size) PAGE_SIZE.
Proof.
  intros Hb Hs He Hpa. unfold page_meets.
  destruct (ALIGN_UP_spec (base + size) PAGE_SIZE) as [Hd1 Hl1]; [auto with olux|lia|lia|].
  destruct (ALIGN_DOWN_spec base PAGE_SIZE) as (Hd2 & Hl2 & Hg2);
    [auto with olux|unfold u64_ok, PAGE_SIZE in *; lia|].
  destruct (ALIGN_DOWN_spec pa PAGE_SIZE) as (Hd & _ & _); [auto with olux|done|].
  destruct (page_of_multiple _ pa Hpa Hd2) as [-> _].
  destruct (page_of_multiple _ pa Hpa Hd1) as [_ ->].
  pose proof (page_gap _ _ Hd Hd1). pose proof (page_gap _ _ Hd Hd2).
  unfold PAGE_SIZE in *. lia.
Qed.

(** [memblock_add] adds exactly the whole pages inside the range it is
    given and [memblock_reserve] exactly the pages that meet it; both keep
    the lists sorted, merged (overlapping and adjacent regions are joined)
    and within their arrays, leave the other list alone, and panic only
    when the array is full. *)
Theorem memblock_add_reserve_correct m base size :
  memblock_ok m → 0 ≤ base → 0 < size → base + size + PAGE_SIZE ≤ U64 →
  match memblock_add m base size with
  | Ok m' => memblock_ok m' ∧ reserved m' = reserved m ∧
      ∀ pa, u64_ok pa →
        (covers (memory m') pa ↔ covers (memory m) pa ∨ page_inside base size pa)
  | Panic => length (memory m) = MEMBLOCK_MAX
  end ∧
  match memblock_reserve m base size with
  | Ok m' => memblock_ok m' ∧ memory m' = memory m ∧
      ∀ pa, u64_ok pa →
        (covers (reserved m') pa ↔ covers (reserved m) pa ∨ page_meets base size pa)
  | Panic => length (reserved m) = MEMBLOCK_MAX
  end.
Proof.
  intros [Hm Hr] Hb Hs He. unfold memblock_add, memblock_reserve.
  rewrite !add64_small by (unfold PAGE_SIZE, U64 in *; lia).
  assert (u64_ok base ∧ u64_ok (base + size)) as [Hu1 Hu2]
    by (unfold u64_ok, PAGE_SIZE, U64 in *; lia).
  destruct (ALIGN_UP_spec base PAGE_SIZE) as [_ Hl1]; [auto with olux|lia|lia|].
  destruct (ALIGN_UP_spec (base + size) PAGE_SIZE) as [_ Hl2]; [auto with olux|lia|lia|].
  destruct (ALIGN_DOWN_spec base PAGE_SIZE) as (_ & Hl3 & _); [auto with olux|done|].
  destruct (ALIGN_DOWN_spec (base + size) PAGE_SIZE) as (_ & Hl4 & _); [auto with olux|done|].
  pose proof (λ pa, page_inside_iff base size pa Hb Hs He) as Hin.
  pose proof (λ pa, page_meets_iff base size pa Hb Hs He) as Hmeet.
  revert Hin Hmeet Hl1 Hl2 Hl3 Hl4.
  generalize (ALIGN_UP base PAGE_SIZE) (ALIGN_DOWN (base + size) PAGE_SIZE)
    (ALIGN_DOWN base PAGE_SIZE) (ALIGN_UP (base + size) PAGE_SIZE).
  intros b1 e1 b2 e2 Hin Hmeet Hl1 Hl2 Hl3 Hl4. unfold u64_ok in Hu1, Hu2. split.
  - destruct (b1 <? e1) eqn:Hlt; zbool.
    2: { simpl. split_and!; [done..|]. intros pa Hpa. rewrite Hin by done.
         split; [tauto|]. intros [|]; [done|lia]. }
    rewrite sub64_small by lia.
    pose proof (insert_regions_ok (memory m) b1 (e1 - b1) Hm ltac:(lia) ltac:(lia) ltac:(lia)) as Hi.
    destruct (insert (memory m) b1 (e1 - b1)) as [l|]; simpl; [|done].
    destruct Hi as [Hl Hc]. split_and!; [done..|]. intros pa Hpa.
    rewrite Hc, Hin by done. by replace (b1 + (e1 - b1)) with e1 by lia.
  - rewrite sub64_small by lia.
    pose proof (insert_regions_ok (reserved m) b2 (e2 - b2) Hr ltac:(lia) ltac:(lia) ltac:(lia)) as Hi.
    destruct (insert (reserved m) b2 (e2 - b2)) as [l|]; simpl; [|done].
    destruct Hi as [Hl Hc]. split_and!; [done..|]. intros pa Hpa.
    rewrite Hc, Hmeet by done. by replace (b2 + (e2 - b2)) with e2 by lia.
Qed.

(** A machine with two banks, of which the first has two reservations. *)
Definition ex_memblock : memblock :=
  Memblock [Region 4096 65536; Region 131072 65536] [Region 4096 8192; Region 61440 4096].

Lemma ex_memblock_ok : memblock_ok ex_memblock.
Proof.
  split; (split_and!; [repeat constructor; done|repeat constructor; done|by vm_compute; lia]).
Qed.

Lemma memblock_add_reserve_witness :
  ∃ m', memblock_reserve ex_memblock 12288 50000 = Ok m' ∧ memblock_ok m' ∧
        reserved m' = [Region 4096 61440].
Proof.
  destruct (memblock_add_reserve_correct ex_memblock 12288 50000 ex_memblock_ok
    ltac:(lia) ltac:(lia) ltac:(done)) as [_ H].
  exists (Memblock (memory ex_memblock) [Region 4096 61440]).
  split; [reflexivity|]. split; [exact (proj1 H)|reflexivity].
Defined.



(** ** [memblock_alloc] *)

(** [[c, c + size)] avoids every region of [res]. *)
Definition avoids (res : list memblock_region) (size c : Z) : Prop :=
  Forall (λ r, c + size ≤ r_base r ∨ r_base r + r_size r ≤ c) res.

(** An address the allocator may return: aligned, inside one bank, below
    the limit and clear of every reservation. *)
Definition fits (m : memblock) (size align limit c : Z) : Prop :=
  (align | c) ∧ avoids (reserved m) size c ∧
  ∃ b, b ∈ memory m ∧ r_base b ≤ c ∧ c + size ≤ r_base b + r_size b ∧ c + size ≤ limit.

Section Search.
Context (res : list memblock_region) (size align : Z).
Context (Hres : Forall region_ok res) (Hsize : 0 < size) (Halign : pow2_align align).

Lemma first_conflict_None cand :
  0 ≤ cand → cand + size < U64 →
  first_conflict res cand size = None → avoids res size cand.
Proof.
  intros H0 H1. clear Halign. unfold avoids. induction Hres as [|r l Hr Hl IH]; simpl; [constructor|].
  rewrite r_end_ok, add64_small by (done || lia).
  intros H. case_test_in H; [done|]. constructor; [|auto].
  apply andb_false_iff in Heqb as [?|?]; zbool; lia.
Qed.

Lemma first_conflict_Some cand r :
  0 ≤ cand → cand + size < U64 →
  first_conflict res cand size = Some r →
  r ∈ res ∧ region_ok r ∧ cand < r_base r + r_size r ∧ r_base r < cand + size.
Proof.
  intros H0 H1. clear Halign. induction Hres as [|s l Hs Hl IH]; simpl; [done|].
  rewrite r_end_ok, add64_small by (done || lia).
  intros H. case_test_in H; simplify_eq; [by split; [left|]|].
  destruct (IH Hl H) as (?&?&?&?). by split; [right|].
Qed.

(** The reserved regions a candidate can still run into. *)
Definition below (cand : Z) : nat :=
  length (filter (λ r, r_base r < cand + size) res).

Lemma below_lt cand cand' r :
  r ∈ res → r_base r < cand + size → cand' + size ≤ r_base r →
  (below cand' < below cand)%nat.
Proof.
  clear Hres Halign. unfold below. intros Hr H1 H2.
  assert (∀ l : list memblock_region,
    (length (filter (λ r, (r_base r < cand' + size)%Z) l) ≤
     length (filter (λ r, (r_base r < cand + size)%Z) l))%nat) as Hle.
  { induction l as [|s l IH]; [done|]. rewrite !filter_cons.
    repeat case_decide; simpl; lia. }
  induction res as [|s l IH]; [by apply not_elem_of_nil in Hr|].
  pose proof (Hle l). rewrite !filter_cons. apply elem_of_cons in Hr as [->|Hr].
  - rewrite decide_False, decide_True by lia. simpl. lia.
  - specialize (IH Hr). repeat case_decide; simpl; lia.
Qed.

(** The loop finds the highest candidate that avoids the reservations, and
    needs at most one round per reserved region. *)
Lemma search_down_spec fuel lo cand :
  0 ≤ lo → u64_ok cand → cand + size < U64 → (align | cand) →
  match search_down fuel res lo size align cand with
  | Found c => lo ≤ c ≤ cand ∧ (align | c) ∧ avoids res size c ∧
               ∀ c', (align | c') → c' ≤ cand → avoids res size c' → c' ≤ c
  | NotHere => ∀ c', (align | c') → lo ≤ c' ≤ cand → ¬ avoids res size c'
  | NoFuel => (fuel ≤ below cand)%nat
  end.
Proof.
  revert cand. induction fuel as [|fuel IH]; intros cand Hlo Hc Hcs Hal; simpl; [lia|].
  case_test; [|intros; lia].
  destruct (first_conflict res cand size) as [r|] eqn:Hfc.
  2: { split_and!; try done; try lia. by apply first_conflict_None; [destruct Hc|..]. }
  apply first_conflict_Some in Hfc as (Hr & Hrok & H1 & H2); [|by destruct Hc|done].
  assert (∀ c', avoids res size c' → c' ≤ cand → c' + size ≤ r_base r) as Hconf.
  { intros c' Hav Hle. unfold avoids in Hav. rewrite Forall_forall in Hav.
    destruct (Hav r Hr); lia. }
  case_test.
  { intros c' Ha' Hc' Hav. pose proof (Hconf c' Hav ltac:(lia)). lia. }
  destruct Hrok as (Hr0 & Hrs & Hre). rewrite sub64_small by (unfold U64 in *; lia).
  assert (u64_ok (r_base r - size)) as Hu by (unfold u64_ok; lia).
  destruct (ALIGN_DOWN_spec (r_base r - size) align Halign Hu) as (Hd & Hlt & _).
  specialize (IH (ALIGN_DOWN (r_base r - size) align) Hlo).
  destruct search_down as [c| |] eqn:Hs; simpl in IH.
  - destruct IH as (Hc1 & Hc2 & Hc3 & Hc4); [unfold u64_ok; lia|lia|done|].
    split_and!; try done; [lia..|]. intros c' Hac' Hle Hav.
    apply Hc4; [done| |done]. pose proof (Hconf c' Hav Hle).
    apply ALIGN_DOWN_greatest; [done..|lia].
  - intros c' Hac' Hle Hav. pose proof (Hconf c' Hav ltac:(lia)).
    eapply IH; [unfold u64_ok; lia|lia|done..| |done].
    split; [lia|]. apply ALIGN_DOWN_greatest; [done..|lia].
  - assert (fuel ≤ below (ALIGN_DOWN (r_base r - size) align))%nat as Hf.
    { apply IH; [unfold u64_ok; lia|lia|done]. }
    pose proof (below_lt cand (ALIGN_DOWN (r_base r - size) align) r Hr H2 ltac:(lia)). lia.
Qed.

Lemma below_bound cand : (below cand ≤ length res)%nat.
Proof. apply length_filter. Qed.

(** One bank: the highest fit in it, or none; never out of fuel. *)
Lemma search_bank_spec limit b :
  region_ok b → 0 ≤ limit →
  match search_bank res size align limit b with
  | Found c => r_base b ≤ c ∧ c + size ≤ r_base b + r_size b ∧ c + size ≤ limit ∧
               (align | c) ∧ avoids res size c ∧
               ∀ c', (align | c') → c' + size ≤ r_base b + r_size b → c' + size ≤ limit →
                     avoids res size c' → c' ≤ c
  | NotHere => ∀ c', (align | c') → r_base b ≤ c' → c' + size ≤ r_base b + r_size b →
                     c' + size ≤ limit → ¬ avoids res size c'
  | NoFuel => False
  end.
Proof.
  intros Hb Hlim. pose proof Hb as (Hb0 & Hbs & Hbe). unfold search_bank.
  rewrite r_end_ok by done. set (hi := Z.min (r_base b + r_size b) limit).
  destruct (hi <=? r_base b) eqn:Hh; cbn [orb]; zbool; [intros; lia|].
  rewrite sub64_small by lia. case_test; [intros; lia|].
  rewrite sub64_small by lia.
  assert (u64_ok (hi - size)) as Hu by (unfold u64_ok; lia).
  destruct (ALIGN_DOWN_spec (hi - size) align Halign Hu) as (Hd & Hlt & _).
  pose proof (search_down_spec (S (length res)) (r_base b) (ALIGN_DOWN (hi - size) align))
    as Hspec.
  specialize (Hspec Hb0 ltac:(unfold u64_ok; lia) ltac:(lia) Hd).
  destruct search_down as [c| |].
  - destruct Hspec as (H1 & H2 & H3 & H4). split_and!; try done; [lia..|].
    intros c' Ha' He' Hl' Hav. apply H4; [done| |done].
    apply ALIGN_DOWN_greatest; [done..|lia].
  - intros c' Ha' Hb' He' Hl' Hav. eapply Hspec; [done| |done].
    split; [done|]. apply ALIGN_DOWN_greatest; [done..|lia].
  - pose proof (below_bound (ALIGN_DOWN (hi - size) align)). lia.
Qed.

End Search.

Lemma elem_of_rev {A} (x : A) l : x ∈ rev l ↔ x ∈ l.
Proof. by rewrite !list_elem_of_In, <-in_rev. Qed.

Lemma separated_snoc l b :
  separated (l ++ [b]) →
  separated l ∧ Forall (λ s, r_base s + r_size s < r_base b) l.
Proof.
  induction l as [|s l IH]; simpl; intros H; [split; [constructor|done]|].
  inversion H as [|?? Hg Hs]; subst. apply Forall_app in Hg as [Hg1 Hg2].
  destruct (IH Hs) as [? ?]. split; [by constructor|].
  rewrite Forall_singleton in Hg2. by constructor.
Qed.

Lemma search_banks_spec res size align limit banks :
  Forall region_ok res → 0 < size → pow2_align align → 0 ≤ limit →
  Forall region_ok banks → separated (rev banks) →
  match search_banks res size align limit banks with
  | Found c => fits (Memblock banks res) size align limit c ∧
               ∀ c', fits (Memblock banks res) size align limit c' → c' ≤ c
  | NotHere => ∀ c', ¬ fits (Memblock banks res) size align limit c'
  | NoFuel => False
  end.
Proof.
  intros Hres Hsize Hal Hlim Hok.
  induction Hok as [|b banks Hb Hok IH]; simpl; intros Hsep.
  { intros c' (_ & _ & b & Hb & _). by apply not_elem_of_nil in Hb. }
  apply separated_snoc in Hsep as [Hsep Hlow]. specialize (IH Hsep).
  pose proof (search_bank_spec res size align Hres Hsize Hal limit b Hb Hlim) as Hbank.
  destruct (search_bank res size align limit b) as [c| |]; [| |done].
  - destruct Hbank as (H1 & H2 & H3 & H4 & H5 & H6). split.
    { split_and!; [done..|]. exists b. by split; [left|]. }
    intros c' (Ha & Hav & b' & [->|Hb']%elem_of_cons & H1' & H2' & H3').
    + by apply H6.
    + rewrite Forall_forall in Hlow.
      assert (b' ∈ rev banks) as Hin by (by rewrite elem_of_rev).
      pose proof (Hlow b' Hin). lia.
  - destruct (search_banks res size align limit banks) as [c| |]; [| |done].
    + destruct IH as [(Ha & Hav & b' & Hb' & Hin) Hmax]. split.
      { split_and!; [done..|]. exists b'. by split; [right|]. }
      intros c' (Ha' & Hav' & b'' & [->|Hb'']%elem_of_cons & H1' & H2' & H3').
      * exfalso. by eapply Hbank.
      * apply Hmax. split_and!; [done..|]. by exists b''.
    + intros c' (Ha' & Hav' & b'' & [->|Hb'']%elem_of_cons & H1' & H2' & H3').
      * by eapply Hbank.
      * eapply IH. split_and!; [done..|]. by exists b''.
Qed.

(** Reserving a page-aligned block that ends inside the address space. *)
Lemma memblock_reserve_block m c sz :
  memblock_ok m → (length (reserved m) < MEMBLOCK_MAX)%nat →
  (PAGE_SIZE | c) → (PAGE_SIZE | sz) → 0 ≤ c → 0 < sz → c + sz < U64 →
  ∃ m', memblock_reserve m c sz = Ok m' ∧ memblock_ok m' ∧ memory m' = memory m ∧
    ∀ a, covers (reserved m') a ↔ covers (reserved m) a ∨ c ≤ a < c + sz.
Proof.
  intros [Hm Hr] Hlen Hpc Hszd Hc Hsz Hlt. unfold memblock_reserve. rewrite add64_small by lia.
  assert (c + sz + (PAGE_SIZE - 1) < U64) as Hnw.
  { destruct (Z.divide_add_r _ _ _ Hpc Hszd) as [q Hq].
    unfold PAGE_SIZE, U64 in *. lia. }
  rewrite ALIGN_UP_id by (auto with olux || lia || by apply Z.divide_add_r).
  assert (ALIGN_DOWN c PAGE_SIZE = c) as ->.
  { assert (u64_ok c) as Hu by (unfold u64_ok; lia).
    destruct (ALIGN_DOWN_spec c PAGE_SIZE pow2_align_page Hu) as (_ & ? & _).
    pose proof (ALIGN_DOWN_greatest c PAGE_SIZE c pow2_align_page Hu Hpc ltac:(lia)). lia. }
  rewrite sub64_small by lia. replace (c + sz - c) with sz by lia.
  pose proof (insert_regions_ok (reserved m) c sz Hr ltac:(lia) ltac:(lia) ltac:(lia)) as Hins.
  destruct (insert (reserved m) c sz) as [l'|]; [|lia].
  destruct Hins as [Hl' Hcov]. eexists. split; [done|]. by split.
Qed.

Definition alloc_result (m : memblock) (sz align limit : Z) (m' : memblock) (pa : Z) : Prop :=
  (fits m sz align limit pa ∧ (∀ c, fits m sz align limit c → c ≤ pa) ∧
   memblock_ok m' ∧ memory m' = memory m ∧
   ∀ a, covers (reserved m') a ↔ covers (reserved m) a ∨ pa ≤ a < pa + sz)
  ∨ (pa = 0 ∧ m' = m ∧ ∀ c, ¬ fits m sz align limit c).

Lemma memblock_alloc_spec m size align limit :
  memblock_ok m → (length (reserved m) < MEMBLOCK_MAX)%nat →
  0 < size → size + PAGE_SIZE ≤ U64 →
  pow2_align align → (PAGE_SIZE | align) → 0 ≤ limit →
  ∃ m' pa, memblock_alloc m size align limit = Some (Ok (m', pa)) ∧
    alloc_result m (ALIGN_UP size PAGE_SIZE) align limit m' pa.
Proof.
  intros Hok Hlen Hs0 Hs1 Hal Hpal Hlim. set (sz := ALIGN_UP size PAGE_SIZE).
  pose proof Hok as [(Hm1 & Hm2 & _) (Hr1 & Hr2 & Hr3)].
  assert (0 < sz ∧ (PAGE_SIZE | sz)) as [Hsz Hszd].
  { destruct (ALIGN_UP_spec size PAGE_SIZE) as (? & ?);
      [auto with olux|lia|unfold PAGE_SIZE in *; lia|]. by split; [lia|]. }
  unfold memblock_alloc. fold sz.
  pose proof (search_banks_spec (reserved m) sz align limit (rev (memory m))) as Hspec.
  rewrite rev_involutive in Hspec.
  assert (∀ c, fits (Memblock (rev (memory m)) (reserved m)) sz align limit c ↔
               fits m sz align limit c) as Hrev.
  { intros c. unfold fits. simpl. by setoid_rewrite elem_of_rev. }
  rewrite Forall_forall in Hm1.
  assert (Forall region_ok (rev (memory m))) as Hm1'.
  { rewrite Forall_forall. intros x. rewrite elem_of_rev. apply Hm1. }
  specialize (Hspec Hr1 Hsz Hal Hlim Hm1' Hm2).
  destruct search_banks as [c| |]; [| |done].
  2: { exists m, 0. split; [done|]. right. split_and!; [done..|].
       intros c Hc%Hrev. by eapply Hspec. }
  destruct Hspec as [Hfit%Hrev Hmax].
  pose proof Hfit as (Hcd & Hav & b & Hb & Hb1 & Hb2 & Hb3).
  destruct (Hm1 b Hb) as (Hb4 & Hb5 & Hb6).
  destruct (memblock_reserve_block m c sz Hok Hlen (Z.divide_trans _ _ _ Hpal Hcd) Hszd
    ltac:(lia) Hsz ltac:(lia)) as (m' & -> & Hm' & Hmem & Hcov).
  exists m', c. split; [done|]. left. split_and!; try done.
  intros c' Hc'. apply Hmax. by rewrite Hrev.
Qed.

(** C1. [memblock_alloc] returns the highest address that fits (aligned,
    inside one RAM bank, below the limit, clear of every reservation), and
    reserves exactly that block; it returns 0 and changes nothing only when
    no address fits.  It never panics while the reservation array has room,
    and the search always ends. *)
Theorem memblock_alloc_correct m size align limit :
  memblock_ok m → (length (reserved m) < MEMBLOCK_MAX)%nat →
  0 < size → size + PAGE_SIZE ≤ U64 →
  pow2_align align → (PAGE_SIZE | align) → 0 ≤ limit →
  let sz := ALIGN_UP size PAGE_SIZE in
  ∃ m' pa, memblock_alloc m size align limit = Some (Ok (m', pa)) ∧
    ((fits m sz align limit pa ∧ (∀ c, fits m sz align limit c → c ≤ pa) ∧
      memblock_ok m' ∧ memory m' = memory m ∧
      ∀ a, covers (reserved m') a ↔ covers (reserved m) a ∨ pa ≤ a < pa + sz)
     ∨ (pa = 0 ∧ m' = m ∧ ∀ c, ¬ fits m sz align limit c)).
Proof. intros. by apply memblock_alloc_spec. Qed.

Lemma memblock_alloc_correct_witness :
  fits ex_memblock 16384 4096 131072 45056 ∧
  ∃ m', memblock_alloc ex_memblock 16000 4096 131072 = Some (Ok (m', 45056)).
Proof.
  destruct (memblock_alloc_correct ex_memblock 16000 4096 131072 ex_memblock_ok
    ltac:(by vm_compute; lia) ltac:(lia) ltac:(done) ltac:(by exists 12) ltac:(by exists 1)
    ltac:(lia)) as (m' & pa & He & H).
  assert (pa = 45056) as -> by (vm_compute in He; congruence).
  destruct H as [(Hf & _)|(? & _)]; [|done]. split; [exact Hf|by exists m'].
Defined.
