(* ===== verification/DList.v ===== *)
(** * The intrusive circular lists of include/olux/list.h

    [heap] holds the [next] and [prev] fields of every [struct list_head],
    indexed by address, and the operations are the pointer assignments of the
    header in their order.  [dll h hd l] says that the nodes [l] hang off the
    head [hd]; the theorems relate every operation to the operation on
    sequences the other files use for a list that the kernel links this way:
    [cons] for [list_add], [snoc] for [list_add_tail], [lremove] for
    [list_del]. *)

From stdpp Require Import functions.
From S2P Require Import Prelude.

(** ** The fields *)

Record heap : Type := Heap { next : Z → Z; prev : Z → Z }.

Definition set_next (h : heap) (a v : Z) : heap := Heap (<[a := v]> (next h)) (prev h).
Definition set_prev (h : heap) (a v : Z) : heap := Heap (next h) (<[a := v]> (prev h)).

(** ** The operations *)

Definition list_init (h : heap) (l : Z) : heap := set_next (set_prev h l l) l l.

Definition list_empty (h : heap) (l : Z) : bool := next h l =? l.

Definition __list_add (h : heap) (n prev next : Z) : heap :=
  let h := set_prev h next n in
  let h := set_next h n next in
  let h := set_prev h n prev in
  set_next h prev n.

Definition list_add (h : heap) (n head : Z) : heap := __list_add h n head (next h head).

Definition list_add_tail (h : heap) (n head : Z) : heap := __list_add h n (prev h head) head.

Definition list_del (h : heap) (e : Z) : heap :=
  let h := set_prev h (next h e) (prev h e) in
  let h := set_next h (prev h e) (next h e) in
  let h := set_prev h e e in
  set_next h e e.

Definition list_linked (h : heap) (e : Z) : bool := negb (next h e =? e).

(** [list_for_each]: the nodes in the order the macro visits them; [None]
    when the head has not come round after [fuel] nodes. *)
Fixpoint walk (fuel : nat) (h : heap) (pos head : Z) : option (list Z) :=
  match fuel with
  | O => None
  | S fuel =>
      if pos =? head then Some []
      else cons pos <$> walk fuel h (next h pos) head
  end.

Definition list_for_each (fuel : nat) (h : heap) (head : Z) : option (list Z) :=
  walk fuel h (next h head) head.

(** ** Specification *)

(** The sequence without [x]: what [list_del] leaves. *)
Definition lremove (x : Z) (l : list Z) : list Z := filter (λ y, y ≠ x) l.

(** From [x] through [l] to [z], both ways. *)
Fixpoint chain (h : heap) (x : Z) (l : list Z) (z : Z) : Prop :=
  match l with
  | [] => next h x = z ∧ prev h z = x
  | y :: l => next h x = y ∧ prev h y = x ∧ chain h y l z
  end.

Definition dll (h : heap) (hd : Z) (l : list Z) : Prop :=
  NoDup (hd :: l) ∧ chain h hd l hd.

(** ** Lemmas *)

Lemma lremove_app x l1 l2 : lremove x (l1 ++ l2) = lremove x l1 ++ lremove x l2.
Proof. apply filter_app. Qed.

Lemma lremove_not_in x l : x ∉ l → lremove x l = l.
Proof.
  intros Hx. induction l as [|y l IH]; [done|].
  apply not_elem_of_cons in Hx as [??].
  unfold lremove. rewrite filter_cons_True by done. f_equal. by apply IH.
Qed.

Lemma lremove_split x l1 l2 :
  NoDup (l1 ++ x :: l2) → lremove x (l1 ++ x :: l2) = l1 ++ l2.
Proof.
  intros (_ & Hd & [? _]%NoDup_cons)%NoDup_app.
  rewrite lremove_app. unfold lremove at 2. rewrite filter_cons_False by auto.
  fold (lremove x l2). rewrite !lremove_not_in; [done|done|].
  intros Hx. apply (Hd x Hx), list_elem_of_here.
Qed.

Lemma elem_of_lremove x y l : y ∈ lremove x l ↔ y ∈ l ∧ y ≠ x.
Proof. unfold lremove. rewrite list_elem_of_filter. tauto. Qed.

Lemma lremove_NoDup x l : NoDup l → NoDup (lremove x l).
Proof. apply NoDup_filter. Qed.

Lemma lremove_length x l :
  NoDup l → x ∈ l → length l = S (length (lremove x l)).
Proof.
  intros Hnd (l1 & l2 & ->)%list_elem_of_split.
  rewrite lremove_split by done. rewrite !length_app. simpl. lia.
Qed.

(** A chain depends only on [next] of all its nodes but the last and on
    [prev] of all but the first. *)
Lemma chain_ext h h' x l z :
  (∀ y, y ∈ x :: l → next h' y = next h y) →
  (∀ y, y ∈ l ++ [z] → prev h' y = prev h y) →
  chain h x l z → chain h' x l z.
Proof.
  revert x. induction l as [|y l IH]; simpl; intros x Hn Hp.
  - rewrite Hn, Hp by (apply list_elem_of_here). done.
  - intros (? & ? & ?). rewrite Hn, Hp by (apply list_elem_of_here). split_and!; [done..|].
    apply IH; [intros; apply Hn|intros; apply Hp|done]; by apply list_elem_of_further.
Qed.

Lemma chain_app h x l1 y l2 z :
  chain h x (l1 ++ y :: l2) z ↔ chain h x l1 y ∧ chain h y l2 z.
Proof.
  revert x. induction l1 as [|w l1 IH]; simpl; intros x; [tauto|].
  rewrite IH. tauto.
Qed.

(** The last link of a chain leaves from one of its nodes. *)
Lemma chain_last h x l z : chain h x l z → prev h z ∈ x :: l.
Proof.
  revert x. induction l as [|y l IH]; simpl; intros x.
  - intros [_ ->]. apply list_elem_of_here.
  - intros (_ & _ & H). apply list_elem_of_further. by apply IH.
Qed.

(** Look up a field after assignments to fields of known addresses. *)
Ltac fields :=
  unfold set_next, set_prev; simpl;
  repeat (rewrite fn_lookup_insert || (rewrite fn_lookup_insert_ne by congruence)).

(** Distinctness of the nodes of a list, as disequations. *)
Ltac nodup :=
  rewrite ?NoDup_cons, ?NoDup_app, ?not_elem_of_cons, ?not_elem_of_app,
    ?not_elem_of_cons in *;
  destruct_and?.

(** Two addresses differ because one is a node of a list and the other is not. *)
Ltac differ :=
  rewrite ?elem_of_app, ?list_elem_of_singleton, ?elem_of_cons, ?elem_of_nil in *;
  let E := fresh in intros E; destruct_or?; subst;
  try match goal with
  | H : ∀ x, x ∈ ?l → x ∉ _, Hw : _ ∈ ?l |- _ => apply (H _ Hw); set_solver +
  end; first [congruence | tauto].

(** Unlinking [e]: where the fields of its two neighbours point past it and
    the other fields of the nodes are kept, the rest is a chain. *)
Lemma chain_join h h' x l1 e l2 z :
  NoDup (x :: l1) → NoDup (l2 ++ [z]) →
  chain h x l1 e → chain h e l2 z →
  next h' (prev h e) = next h e → prev h' (next h e) = prev h e →
  (∀ y, y ∈ x :: l1 → y ≠ prev h e → next h' y = next h y) →
  (∀ y, y ∈ l1 → prev h' y = prev h y) →
  (∀ y, y ∈ l2 → next h' y = next h y) →
  (∀ y, y ∈ l2 ++ [z] → y ≠ next h e → prev h' y = prev h y) →
  chain h' x (l1 ++ l2) z.
Proof.
  intros Hnd1 Hnd2 H1 H2 Hne Hpe Hn1 Hp1 Hn2 Hp2. revert x Hnd1 H1 Hn1.
  induction l1 as [|y l1 IH]; simpl; intros x [Hx Hnd1]%NoDup_cons H1 Hn1.
  - destruct H1 as [H1 H1']. rewrite H1' in *.
    destruct l2 as [|q l2]; simpl in *; destruct_and! H2; [split; congruence|].
    apply NoDup_cons in Hnd2 as [Hq _]. split_and!; [congruence..|].
    apply (chain_ext h); [done| |done].
    intros y Hy. apply Hp2; [by apply list_elem_of_further|]. differ.
  - destruct H1 as (? & ? & H1). pose proof (chain_last _ _ _ _ H1).
    split_and!; [| |apply IH; auto].
    + rewrite Hn1; [done|apply list_elem_of_here|]. differ.
    + rewrite Hp1; [done|apply list_elem_of_here].
    + intros. apply Hp1. by apply list_elem_of_further.
    + intros. apply Hn1; [by apply list_elem_of_further|done].
Qed.

(** *** The operations on sequences *)

Lemma list_init_dll h hd : dll (list_init h hd) hd [].
Proof. split; [apply NoDup_singleton|]. split; unfold list_init; by fields. Qed.

Lemma list_empty_dll h hd l : dll h hd l → list_empty h hd = bool_decide (l = []).
Proof.
  intros [Hnd H]. unfold list_empty. destruct l as [|y l]; simpl in H.
  - destruct H as [-> _]. rewrite bool_decide_true by done. lia.
  - destruct H as [-> _]. rewrite bool_decide_false by done.
    apply Z.eqb_neq. nodup. congruence.
Qed.

Lemma list_add_dll h n hd l :
  dll h hd l → n ∉ hd :: l → dll (list_add h n hd) hd (n :: l).
Proof.
  intros [Hnd H] Hn. split; [nodup; split_and!; set_solver|].
  unfold list_add, __list_add. destruct l as [|y l]; simpl in H.
  - destruct H as [-> ?]. nodup. simpl. split_and!; by fields.
  - destruct H as (-> & Hp & H). nodup. simpl. split_and!; [by fields..|].
    apply (chain_ext h); [| |done]; intros w Hw; fields.
    + rewrite !fn_lookup_insert_ne by differ. done.
    + rewrite !fn_lookup_insert_ne by differ. done.
Qed.

Lemma list_add_tail_dll h n hd l :
  dll h hd l → n ∉ hd :: l → dll (list_add_tail h n hd) hd (l ++ [n]).
Proof.
  intros [Hnd H] Hn. split; [nodup; split_and!; try apply NoDup_singleton; set_solver|].
  unfold list_add_tail, __list_add.
  destruct l as [|y l _] using rev_ind; [simpl in H|].
  - destruct H as [? ->]. nodup. simpl. split_and!; by fields.
  - rewrite <-app_assoc. apply chain_app in H as [H [Hy ->]]. nodup.
    apply chain_app. split; [|simpl; split_and!; by fields].
    apply (chain_ext h); [| |done]; intros w Hw; fields;
      rewrite !fn_lookup_insert_ne by differ; done.
Qed.

Lemma list_del_dll h e hd l :
  dll h hd l → e ∈ l →
  dll (list_del h e) hd (lremove e l) ∧ dll (list_del h e) e [].
Proof.
  intros [Hnd H] He. apply list_elem_of_split in He as (l1 & l2 & ->).
  pose proof Hnd as [Hhd Hnd']%NoDup_cons. rewrite lremove_split by done.
  change (hd :: l1 ++ e :: l2) with ((hd :: l1) ++ e :: l2) in Hnd.
  rewrite <-Permutation_middle in Hnd.
  apply NoDup_cons in Hnd as [He Hnd].
  pose proof Hnd as [Hhd' (? & Hdis & ?)%NoDup_app]%NoDup_cons.
  assert (NoDup (hd :: l1) ∧ NoDup (l2 ++ [hd])) as [Hnd1 Hnd2].
  { rewrite (Permutation_app_comm l2).
    split; apply NoDup_cons; (split; [set_solver|done]). }
  apply chain_app in H as [Hc1 Hc2].
  pose proof (chain_last _ _ _ _ Hc1) as Hp.
  assert (next h e ∈ l2 ++ [hd]) as Hn.
  { destruct l2; simpl in Hc2; destruct Hc2 as [-> _]; apply list_elem_of_here. }
  assert (prev h e ≠ e ∧ next h e ≠ e) as [??].
  { split; intros E; rewrite E in *; set_solver +He Hn Hp. }
  split; split; [done| |apply NoDup_singleton|split; unfold list_del; by fields].
  apply (chain_join h _ _ _ e); try done; unfold list_del; fields; try done.
  - rewrite (fn_lookup_insert_ne _ (next h e)) by done. by fields.
  - intros y Hy ?. rewrite !fn_lookup_insert_ne; [done|congruence|set_solver +Hy He].
  - intros y Hy. rewrite !fn_lookup_insert_ne; [done| |set_solver +Hy He].
    intros <-. set_solver +Hy Hn Hdis Hhd'.
  - intros y Hy. rewrite !fn_lookup_insert_ne; [done| |set_solver +Hy He].
    intros <-. set_solver +Hy Hp Hdis Hhd'.
  - intros y Hy ?. rewrite !fn_lookup_insert_ne; [done|congruence|set_solver +Hy He].
Qed.

(** Lists that do not share a node with the changed one are kept. *)
Lemma chain_frame h h' hd l :
  (∀ y, y ∈ hd :: l → next h' y = next h y ∧ prev h' y = prev h y) →
  dll h hd l → dll h' hd l.
Proof.
  intros Hf [Hnd H]. split; [done|].
  apply (chain_ext h); [intros; by apply Hf| |done].
  intros y Hy. apply Hf. set_solver.
Qed.

(** The walk visits exactly the nodes, in order, and stops. *)
Lemma walk_chain h hd l pos fuel :
  hd ∉ l → chain h pos l hd → (length l < fuel)%nat →
  walk fuel h (next h pos) hd = Some l.
Proof.
  revert pos fuel. induction l as [|y l IH]; intros pos fuel Hhd H Hf;
    destruct fuel as [|fuel]; simpl in *; try lia.
  - destruct H as [-> _]. rewrite Z.eqb_refl. done.
  - destruct H as (-> & _ & H). apply not_elem_of_cons in Hhd as [??].
    assert ((y =? hd) = false) as -> by (apply Z.eqb_neq; congruence).
    rewrite (IH y); [done..|lia].
Qed.

(** ** A heap of lists

    Several heads live in one heap and nodes move between them.  The abstract
    state gives every head its sequence; [lists_ok] relates the two. *)

Definition lists_ok (h : heap) (heads : list Z) (L : Z → list Z) : Prop :=
  (∀ hd, hd ∈ heads → dll h hd (L hd)) ∧
  (∀ hd hd' x, hd ∈ heads → hd' ∈ heads → hd ≠ hd' →
     x ∈ hd :: L hd → x ∉ hd' :: L hd').

(** What the kernel does to lists. *)
Inductive list_op : Type :=
| OpAdd (n hd : Z)
| OpAddTail (n hd : Z)
| OpDel (e hd : Z).

Definition op_head (o : list_op) : Z :=
  match o with OpAdd _ hd | OpAddTail _ hd | OpDel _ hd => hd end.

Definition exec_op (h : heap) (o : list_op) : heap :=
  match o with
  | OpAdd n hd => list_add h n hd
  | OpAddTail n hd => list_add_tail h n hd
  | OpDel e _ => list_del h e
  end.

Definition spec_op (L : Z → list Z) (o : list_op) : Z → list Z :=
  match o with
  | OpAdd n hd => <[hd := n :: L hd]> L
  | OpAddTail n hd => <[hd := L hd ++ [n]]> L
  | OpDel e hd => <[hd := lremove e (L hd)]> L
  end.

(** A node is added when it is on no list, and removed when it is on one. *)
Definition op_ok (heads : list Z) (L : Z → list Z) (o : list_op) : Prop :=
  match o with
  | OpAdd n hd | OpAddTail n hd => hd ∈ heads ∧ Forall (λ hd', n ∉ hd' :: L hd') heads
  | OpDel e hd => hd ∈ heads ∧ e ∈ L hd
  end.

Fixpoint ops_ok (heads : list Z) (L : Z → list Z) (os : list list_op) : Prop :=
  match os with
  | [] => True
  | o :: os => op_ok heads L o ∧ ops_ok heads (spec_op L o) os
  end.

#[export] Instance op_ok_dec heads L o : Decision (op_ok heads L o).
Proof. destruct o; apply _. Defined.

#[export] Instance ops_ok_dec heads os : ∀ L, Decision (ops_ok heads L os).
Proof. induction os; simpl; apply _. Defined.

(** The fields an operation on [hd] may change. *)
Definition op_nodes (L : Z → list Z) (o : list_op) : list Z :=
  match o with
  | OpAdd n hd | OpAddTail n hd => n :: hd :: L hd
  | OpDel _ hd => hd :: L hd
  end.

Lemma chain_neighbours h x l z y :
  chain h x l z →
  (y ∈ x :: l → next h y ∈ l ++ [z]) ∧ (y ∈ l ++ [z] → prev h y ∈ x :: l).
Proof.
  revert x. induction l as [|w l IH]; simpl; intros x.
  - intros [Hn Hp]. split; intros ->%list_elem_of_singleton; rewrite ?Hn, ?Hp;
      apply list_elem_of_here.
  - intros (<- & Hp & H). destruct (IH _ H) as [IHn IHp].
    split; (intros [->|Hy]%elem_of_cons; [|apply list_elem_of_further; auto]).
    + apply list_elem_of_here.
    + rewrite Hp. apply list_elem_of_here.
Qed.

Lemma dll_neighbours h hd l x :
  dll h hd l → x ∈ hd :: l → next h x ∈ hd :: l ∧ prev h x ∈ hd :: l.
Proof.
  intros [_ H] Hx. destruct (chain_neighbours h hd l hd x H) as [Hn Hp].
  split; [apply Hn in Hx|apply Hp]; set_solver.
Qed.

(** An operation changes the fields of its own list only. *)
Lemma exec_op_frame h heads L o y :
  lists_ok h heads L → op_ok heads L o → y ∉ op_nodes L o →
  next (exec_op h o) y = next h y ∧ prev (exec_op h o) y = prev h y.
Proof.
  intros [Hd _] Ho Hy.
  destruct o as [n hd|n hd|e hd]; simpl in *; destruct Ho as [Hhd Ho];
    pose proof (Hd hd Hhd) as Hdll;
    [pose proof (dll_neighbours _ _ _ hd Hdll (list_elem_of_here _ _)) as [??]..|
     pose proof (dll_neighbours _ _ _ e Hdll (list_elem_of_further _ _ _ Ho)) as [??]];
    unfold list_add, list_add_tail, list_del, __list_add, set_next, set_prev; simpl.
  - split; rewrite !fn_lookup_insert_ne; set_solver +Hy H H0.
  - split; rewrite !fn_lookup_insert_ne; set_solver +Hy H H0.
  - assert (<[next h e := prev h e]> (prev h) e = prev h e) as ->.
    { destruct (decide (next h e = e)) as [E|]; [rewrite E; by rewrite fn_lookup_insert|].
      by rewrite fn_lookup_insert_ne. }
    split; rewrite !fn_lookup_insert_ne; set_solver +Hy Ho H H0.
Qed.

Lemma exec_op_dll h heads L o :
  lists_ok h heads L → op_ok heads L o →
  dll (exec_op h o) (op_head o) (spec_op L o (op_head o)).
Proof.
  intros [Hd _] Ho.
  destruct o; simpl in *; destruct Ho as [Hhd Ho]; rewrite fn_lookup_insert;
    try rewrite Forall_forall in Ho;
    [apply list_add_dll|apply list_add_tail_dll|apply list_del_dll]; auto.
Qed.

Lemma spec_op_nodes heads L o x :
  op_ok heads L o → x ∈ spec_op L o (op_head o) → x ∈ op_nodes L o.
Proof.
  destruct o; simpl; intros [_ Ho]; rewrite fn_lookup_insert; try set_solver +.
  rewrite elem_of_lremove. set_solver +.
Qed.

Lemma spec_op_other L o hd : hd ≠ op_head o → spec_op L o hd = L hd.
Proof. intros. destruct o; simpl in *; by rewrite fn_lookup_insert_ne by congruence. Qed.

(** The nodes of an operation are on no list but its own. *)
Lemma op_nodes_other h heads L o hd x :
  lists_ok h heads L → op_ok heads L o → hd ∈ heads → hd ≠ op_head o →
  x ∈ hd :: L hd → x ∉ op_head o :: op_nodes L o.
Proof.
  intros [_ Hdis] Ho Hhd Hne Hx Hin.
  destruct o as [n hd'|n hd'|e hd']; simpl in *; destruct Ho as [Hhd' Ho];
    specialize (Hdis hd hd' x Hhd Hhd' Hne Hx); try rewrite Forall_forall in Ho;
    try (destruct (decide (x = n)) as [->|]; [by apply (Ho hd)|]); set_solver.
Qed.

Lemma exec_op_ok h heads L o :
  lists_ok h heads L → op_ok heads L o → lists_ok (exec_op h o) heads (spec_op L o).
Proof.
  intros Hok Ho. split.
  - intros hd Hhd. destruct (decide (hd = op_head o)) as [->|Hne].
    { by apply (exec_op_dll h heads). }
    rewrite spec_op_other by done. apply (chain_frame h); [|by apply Hok].
    intros y Hy. apply (exec_op_frame h heads L); [done..|].
    pose proof (op_nodes_other h heads L o hd y Hok Ho Hhd Hne Hy). set_solver.
  - assert (∀ hd x, hd ∈ heads → hd ≠ op_head o → x ∈ hd :: L hd →
      x ∉ op_head o :: spec_op L o (op_head o)) as Hother.
    { intros hd x Hhd Hne Hx Hx'.
      apply (op_nodes_other h heads L o hd x Hok Ho Hhd Hne Hx).
      apply elem_of_cons in Hx' as [->|Hx']; [apply list_elem_of_here|].
      apply list_elem_of_further. by apply (spec_op_nodes heads). }
    intros hd hd' x Hhd Hhd' Hne Hx Hx'.
    destruct (decide (hd = op_head o)) as [E1|Hne1], (decide (hd' = op_head o)) as [E2|Hne2];
      [congruence| | |].
    + rewrite (spec_op_other _ _ hd') in Hx' by done. subst hd. by apply (Hother hd' x).
    + rewrite (spec_op_other _ _ hd) in Hx by done. subst hd'. by apply (Hother hd x).
    + rewrite spec_op_other in Hx, Hx' by done. by apply (proj2 Hok hd hd' x).
Qed.

(** C5.  The pointer manipulations of list.h implement sequences: starting
    from heads that each link their own sequence, any series of [list_add],
    [list_add_tail] and [list_del] that adds only unlinked nodes and removes
    only linked ones leaves every head linking the sequence the same series
    gives by [cons], [snoc] and removal, no list sharing a node with another;
    [list_for_each] from a head ends and visits exactly that sequence, and
    [list_empty] tells whether it is empty. *)
Theorem lists_correct heads h L os :
  lists_ok h heads L → ops_ok heads L os →
  let h' := fold_left exec_op os h in
  let L' := fold_left spec_op os L in
  lists_ok h' heads L' ∧
  ∀ hd, hd ∈ heads →
    list_for_each (S (length (L' hd))) h' hd = Some (L' hd) ∧
    list_empty h' hd = bool_decide (L' hd = []).
Proof.
  intros Hok Hos h' L'. assert (lists_ok h' heads L') as Hok'.
  { subst h' L'. revert h L Hok Hos. induction os as [|o os IH]; simpl; [done|].
    intros h L Hok [Ho Hos]. apply IH; [by apply exec_op_ok|done]. }
  split; [done|]. intros hd Hhd. destruct Hok' as [Hd _]. specialize (Hd hd Hhd).
  split; [|by apply list_empty_dll].
  destruct Hd as [[? _]%NoDup_cons ?]. apply walk_chain; [done..|lia].
Qed.

(** Two heads, 100 and 200: nodes 1 and 2 go on the first, 1 moves to the
    second. *)
Definition two_heads : heap := list_init (list_init (Heap id id) 100) 200.
Definition some_ops : list list_op :=
  [OpAdd 1 100; OpAddTail 2 100; OpDel 1 100; OpAddTail 1 200; OpAdd 3 200].

Lemma lists_correct_witness :
  list_for_each 3 (fold_left exec_op some_ops two_heads) 200 = Some [3; 1].
Proof.
  apply (lists_correct [100; 200] two_heads (λ _, []) some_ops); [split| |].
  - intros hd Hhd. assert (hd = 100 ∨ hd = 200) as [->| ->] by set_solver;
      (split; [apply NoDup_singleton|done]).
  - set_solver.
  - apply (bool_decide_unpack (ops_ok [100; 200] (λ _, []) some_ops)). by vm_compute.
  - set_solver.
Defined.
