(* ===== verification/Buddy.v ===== *)
(** * The page allocator: src/mm/page_alloc.c

    A [struct page] is named by its page frame number (pfn): [page_to_pfn]
    and [pfn_to_page] are inverse to each other on [mem_map], and the null
    page is [None].  [mem_map] holds the descriptors, [zones] the three zones
    with their free lists (sequences of pfns, first entry first, see DList),
    [ram] the bytes of the linear map.  Each function that takes [zone_lock]
    is one transition. *)

From stdpp Require Import functions.
From S2P Require Import Prelude CString DList Memblock.

(** ** Data *)

Notation GFP_ZERO := 1%Z (only parsing).
Notation GFP_DMA := 2%Z (only parsing).
Notation GFP_DMA32 := 4%Z (only parsing).
Definition MAX_ORDER : nat := 11.
Definition PG_RESERVED : Z := 1.
Notation PG_BUDDY := 2%Z (only parsing).
Definition PG_SLAB : Z := 4.
Notation PG_COMPOUND := 8%Z (only parsing).
Definition NR_ZONES : nat := 3.
Definition ZONE_DMA : nat := 0.
Definition ZONE_DMA32 : nat := 1.
Definition ZONE_NORMAL : nat := 2.

(** [struct page] without the link fields, which the free lists stand for. *)
Record page : Type := Page {
  flags : Z;
  refcount : Z;
  order : nat;
  slab_class : nat;
  slab_inuse : Z;
  freelist : Z;
}.

Definition set_flags (p : page) (f : Z) : page :=
  Page f (refcount p) (order p) (slab_class p) (slab_inuse p) (freelist p).
Definition set_refcount (p : page) (r : Z) : page :=
  Page (flags p) r (order p) (slab_class p) (slab_inuse p) (freelist p).
Definition set_order (p : page) (o : nat) : page :=
  Page (flags p) (refcount p) o (slab_class p) (slab_inuse p) (freelist p).

Record zone : Type := Zone {
  start_pfn : Z;
  end_pfn : Z;
  free : nat → list Z;
  nr_free : nat → Z;
  z_free_pages : Z;
  managed_pages : Z;
}.

Record pagealloc : Type := PageAlloc {
  zones : nat → zone;
  mem_map : Z → page;
  mem_map_base_pfn : Z;
  mem_map_pfns : Z;
  ram : mem;
}.

Definition set_zone (s : pagealloc) (zi : nat) (z : zone) : pagealloc :=
  PageAlloc (<[zi := z]> (zones s)) (mem_map s) (mem_map_base_pfn s) (mem_map_pfns s) (ram s).
Definition set_page (s : pagealloc) (pfn : Z) (p : page) : pagealloc :=
  PageAlloc (zones s) (<[pfn := p]> (mem_map s)) (mem_map_base_pfn s) (mem_map_pfns s) (ram s).
Definition set_ram (s : pagealloc) (m : mem) : pagealloc :=
  PageAlloc (zones s) (mem_map s) (mem_map_base_pfn s) (mem_map_pfns s) m.

Definition not32 (x : Z) : Z := U32 - 1 - x.
Definition has (f b : Z) : bool := negb (Z.land f b =? 0).

(** The address arithmetic of include/olux/mm.h and asm/memory.h. *)
Definition PAGE_OFFSET : Z := 0xffffff8000000000.
Definition LINEAR_MAP_SIZE : Z := 0x4000000000.
Definition phys_to_virt (pa : Z) : Z := pa ⊕ PAGE_OFFSET.
Definition page_to_phys (pfn : Z) : Z := wrap64 (Z.shiftl pfn PAGE_SHIFT).
Definition page_address (pfn : Z) : Z := phys_to_virt (page_to_phys pfn).
Definition KIMAGE_VADDR : Z := 0xffffffff80000000.
Definition virt_to_phys (kimage_voffset va : Z) : Z :=
  if KIMAGE_VADDR <=? va then va ⊖ kimage_voffset else va ⊖ PAGE_OFFSET.
Definition phys_to_page (pa : Z) : Z := Z.shiftr pa PAGE_SHIFT.
Definition virt_to_page (kimage_voffset va : Z) : Z := phys_to_page (virt_to_phys kimage_voffset va).

Definition pfn_valid (s : pagealloc) (pfn : Z) : bool :=
  (mem_map_base_pfn s <=? pfn) && (pfn <? mem_map_base_pfn s ⊕ mem_map_pfns s).

(** ** Operations *)

(** The loop from the last zone down. *)
Fixpoint pfn_zone_from (s : pagealloc) (z : nat) (pfn : Z) : nat :=
  if start_pfn (zones s z) <=? pfn then z
  else match z with O => O | S z => pfn_zone_from s z pfn end.

Definition pfn_zone (s : pagealloc) (pfn : Z) : nat := pfn_zone_from s (NR_ZONES - 1) pfn.

Definition add_free (s : pagealloc) (zi : nat) (p : Z) (o : nat) : pagealloc :=
  let pg := mem_map s p in
  let s := set_page s p (set_order (set_flags pg (Z.lor (flags pg) PG_BUDDY)) o) in
  let z := zones s zi in
  set_zone s zi (Zone (start_pfn z) (end_pfn z) (<[o := p :: free z o]> (free z))
                   (<[o := nr_free z o ⊕ 1]> (nr_free z)) (z_free_pages z) (managed_pages z)).

Definition del_free (s : pagealloc) (zi : nat) (p : Z) (o : nat) : pagealloc :=
  let pg := mem_map s p in
  let s := set_page s p (set_flags pg (Z.land (flags pg) (not32 PG_BUDDY))) in
  let z := zones s zi in
  set_zone s zi (Zone (start_pfn z) (end_pfn z) (<[o := lremove p (free z o)]> (free z))
                   (<[o := nr_free z o ⊖ 1]> (nr_free z)) (z_free_pages z) (managed_pages z)).

Definition add_free_pages (s : pagealloc) (zi : nat) (n : Z) : pagealloc :=
  let z := zones s zi in
  set_zone s zi (Zone (start_pfn z) (end_pfn z) (free z) (nr_free z)
                   (z_free_pages z ⊕ n) (managed_pages z)).

Definition add_managed (s : pagealloc) (zi : nat) : pagealloc :=
  let z := zones s zi in
  set_zone s zi (Zone (start_pfn z) (end_pfn z) (free z) (nr_free z)
                   (z_free_pages z) (managed_pages z ⊕ 1)).

(** [1UL << order] *)
Definition bsize (o : nat) : Z := Z.shiftl 1 (Z.of_nat o).

(** The merging loop of [__free]: it runs while [order < MAX_ORDER - 1], so
    at most [n = MAX_ORDER - 1 - order] times. *)
Fixpoint coalesce (n : nat) (s : pagealloc) (zi : nat) (pfn : Z) (o : nat)
    : pagealloc * Z * nat :=
  match n with
  | O => (s, pfn, o)
  | S n =>
      let buddy_pfn := Z.lxor pfn (bsize o) in
      let z := zones s zi in
      if negb (pfn_valid s buddy_pfn) || (buddy_pfn <? start_pfn z) || (end_pfn z <=? buddy_pfn)
      then (s, pfn, o)
      else
        let b := mem_map s buddy_pfn in
        if negb (has (flags b) PG_BUDDY) || negb (order b =? o)%nat then (s, pfn, o)
        else coalesce n (del_free s zi buddy_pfn o) zi (Z.land pfn (not64 (bsize o))) (S o)
  end.

Definition __free (s : pagealloc) (p : Z) (o : nat) : pagealloc :=
  let zi := pfn_zone s p in
  let s := add_free_pages s zi (bsize o) in
  let '(s, pfn, o) := coalesce (MAX_ORDER - 1 - o) s zi p o in
  add_free s zi pfn o.

(** The splitting loop of [__alloc], from [order + k] down to [order]. *)
Fixpoint split_block (k : nat) (s : pagealloc) (zi : nat) (p : Z) (o : nat) : pagealloc :=
  match k with
  | O => s
  | S k => split_block k (add_free s zi (p + bsize (o + k)) (o + k)) zi p o
  end.

(** The scan of the orders [o], ..., [MAX_ORDER - 1]; [n] of them are left. *)
Fixpoint alloc_scan (n : nat) (s : pagealloc) (zi : nat) (order o : nat)
    : pagealloc * option Z :=
  match n with
  | O => (s, None)
  | S n =>
      match free (zones s zi) o with
      | [] => alloc_scan n s zi order (S o)
      | p :: _ =>
          let s := del_free s zi p o in
          let s := split_block (o - order) s zi p order in
          (add_free_pages s zi (- bsize order), Some p)
      end
  end.

Definition __alloc (s : pagealloc) (zi : nat) (order : nat) : pagealloc * option Z :=
  alloc_scan (MAX_ORDER - order) s zi order order.

(** The zones from [zi] down to 0, until one has a block. *)
Fixpoint alloc_zones (zi : nat) (s : pagealloc) (order : nat) : pagealloc * option Z :=
  match __alloc s zi order with
  | (s, Some p) => (s, Some p)
  | (s, None) => match zi with O => (s, None) | S zi => alloc_zones zi s order end
  end.

Definition gfp_zone (gfp : Z) : nat :=
  if has gfp GFP_DMA then ZONE_DMA else if has gfp GFP_DMA32 then ZONE_DMA32 else ZONE_NORMAL.

(** The loop over [p[i]], [n] pages left: the flag check and the reference. *)
Fixpoint take_pages (n : nat) (s : pagealloc) (p : Z) : outcome pagealloc :=
  match n with
  | O => Ok s
  | S n =>
      if has (flags (mem_map s p)) (Z.lor PG_RESERVED PG_SLAB) then Panic
      else take_pages n (set_page s p (set_refcount (mem_map s p) 1)) (p + 1)
  end.

Definition alloc_pages (s : pagealloc) (gfp : Z) (o : nat) : outcome (pagealloc * option Z) :=
  if (MAX_ORDER <=? o)%nat then Ok (s, None)
  else
    match alloc_zones (gfp_zone gfp) s o with
    | (s, None) => Ok (s, None)
    | (s, Some p) =>
        let! s := take_pages (Z.to_nat (bsize o)) s p in
        let s := set_page s p (set_order (mem_map s p) o) in
        let s := if has gfp GFP_ZERO
                 then set_ram s (memset (ram s) (page_address p) 0 (PAGE_SIZE * bsize o)) else s in
        Ok (s, Some p)
    end.

Fixpoint drop_pages (n : nat) (s : pagealloc) (p : Z) : pagealloc :=
  match n with
  | O => s
  | S n => drop_pages n (set_page s p (set_refcount (mem_map s p) 0)) (p + 1)
  end.

(** An s32 after a wrapping update. *)
Definition to_s32 (x : Z) : Z := let x := wrap32 x in if x <? 2 ^ 31 then x else x - U32.

Section Free.

(** The build option that poisons freed memory. *)
Variable CONFIG_DEBUG : bool.

Definition free_pages (s : pagealloc) (p : option Z) (o : nat) : outcome pagealloc :=
  match p with
  | None => Ok s
  | Some p =>
      if has (flags (mem_map s p)) (Z.lor PG_BUDDY PG_RESERVED) then Panic
      else
        let s := drop_pages (Z.to_nat (bsize o)) s p in
        let s := if CONFIG_DEBUG
                 then set_ram s (memset (ram s) (page_address p) 0x6b (PAGE_SIZE * bsize o)) else s in
        Ok (__free s p o)
  end.

Definition page_get (s : pagealloc) (p : Z) : pagealloc :=
  set_page s p (set_refcount (mem_map s p) (to_s32 (refcount (mem_map s p) + 1))).

Definition page_put (s : pagealloc) (p : Z) : outcome (pagealloc * bool) :=
  let r := to_s32 (refcount (mem_map s p) - 1) in
  let s := set_page s p (set_refcount (mem_map s p) r) in
  if r <? 0 then Panic
  else if r =? 0 then
    let s := set_page s p (set_refcount (mem_map s p) 1) in
    let! s := free_pages s (Some p) 0 in Ok (s, true)
  else Ok (s, false).

Definition free_pages_va (kimage_voffset : Z) (s : pagealloc) (va : Z) (o : nat)
    : outcome pagealloc :=
  if va =? 0 then Ok s else free_pages s (Some (virt_to_page kimage_voffset va)) o.

End Free.

Definition get_free_pages (s : pagealloc) (gfp : Z) (o : nat) : outcome (pagealloc * Z) :=
  let! r := alloc_pages s gfp o in
  Ok (r.1, match r.2 with Some p => page_address p | None => 0 end).

Definition nr_free_pages (s : pagealloc) : Z :=
  0 ⊕ z_free_pages (zones s 0) ⊕ z_free_pages (zones s 1) ⊕ z_free_pages (zones s 2).

Definition nr_total_pages (s : pagealloc) : Z :=
  0 ⊕ managed_pages (zones s 0) ⊕ managed_pages (zones s 1) ⊕ managed_pages (zones s 2).

(** *** Initialisation *)

(** The static bounds of the zones array. *)
Definition zone_start (zi : nat) : Z :=
  match zi with O => 0 | 1%nat => 2 ^ 18 | _ => 2 ^ 20 end.
Definition zone_end (zi : nat) : Z :=
  match zi with O => 2 ^ 18 | 1%nat => 2 ^ 20 | _ => U64 - 1 end.

(** The zones after [list_init] on their lists; the counters start at 0. *)
Definition zones0 (zi : nat) : zone :=
  Zone (zone_start zi) (zone_end zi) (λ _, []) (λ _, 0) 0 0.

Definition sizeof_page : Z := 40.

(** Hand the page at address [a] to the allocator unless it is reserved. *)
Definition init_page (mb : memblock) (s : pagealloc) (a : Z) : pagealloc :=
  if memblock_is_reserved mb a then s
  else
    let p := phys_to_page a in
    let s := set_page s p (set_flags (mem_map s p) 0) in
    let s := add_managed s (pfn_zone s (Z.shiftr a PAGE_SHIFT)) in
    __free s p 0.

(** The inner loop over the pages of a bank; it takes at most
    [size / PAGE_SIZE + 1] rounds. *)
Fixpoint init_pages (fuel : nat) (mb : memblock) (s : pagealloc) (a e : Z) : pagealloc :=
  match fuel with
  | O => s
  | S fuel => if a <? e then init_pages fuel mb (init_page mb s a) (a ⊕ PAGE_SIZE) e else s
  end.

Definition init_bank (mb : memblock) (s : pagealloc) (r : memblock_region) : pagealloc :=
  init_pages (S (Z.to_nat (r_size r / PAGE_SIZE))) mb s (r_base r) (r_end r).

(** The bytes of the [mem_map] array itself are the function [mem_map]: they
    are zeroed and every page is marked reserved.  [None]: the search for its
    place has not ended. *)
Definition page_alloc_init (m : mem) (mb : memblock) : option (outcome (pagealloc * memblock)) :=
  let start := Z.shiftr (memblock_start mb) PAGE_SHIFT in
  let end_ := Z.shiftr (memblock_end mb) PAGE_SHIFT in
  let pfns := end_ ⊖ start in
  let bytes := ALIGN_UP (wrap64 (pfns * sizeof_page)) PAGE_SIZE in
  o ← memblock_alloc mb bytes PAGE_SIZE (U64 - 1);
  Some (let! r := o in
        let '(mb, pa) := r in
        if pa =? 0 then Panic
        else
          let s := PageAlloc zones0 (λ _, Page PG_RESERVED 0 0 0 0 0) start pfns m in
          Ok (fold_left (init_bank mb) (memory mb) s, mb)).

(** ** Invariant *)

(** The pages of the block of order [o] at [p]. *)
Definition blk (p : Z) (o : nat) (x : Z) : Prop := p ≤ x < p + bsize o.

(** RAM lies in the 256 GiB that the linear map can hold. *)
Record geom (s : pagealloc) : Prop := {
  geom_start zi : (zi < NR_ZONES)%nat → start_pfn (zones s zi) = zone_start zi;
  geom_end zi : (zi < NR_ZONES)%nat → end_pfn (zones s zi) = zone_end zi;
  geom_base : 0 ≤ mem_map_base_pfn s;
  geom_pfns : 0 ≤ mem_map_pfns s;
  geom_top : mem_map_base_pfn s + mem_map_pfns s ≤ 2 ^ 26;
}.

Definition valid (s : pagealloc) (x : Z) : Prop :=
  mem_map_base_pfn s ≤ x < mem_map_base_pfn s + mem_map_pfns s.

(** The free list of zone [zi] and order [o] has the block at [p]. *)
Definition fb (s : pagealloc) (zi o : nat) (p : Z) : Prop :=
  (zi < NR_ZONES)%nat ∧ (o < MAX_ORDER)%nat ∧ p ∈ free (zones s zi) o.

Definition is_free (s : pagealloc) (x : Z) : Prop := ∃ zi o p, fb s zi o p ∧ blk p o x.

Definition block_in (s : pagealloc) (zi : nat) (p : Z) (o : nat) : Prop :=
  (bsize o | p) ∧
  mem_map_base_pfn s ≤ p ∧ p + bsize o ≤ mem_map_base_pfn s + mem_map_pfns s ∧
  zone_start zi ≤ p ∧ p + bsize o ≤ zone_end zi.

(** No mark that a free page must not carry: reserved, slab or compound. *)
Definition USED_MASK : Z := Z.lor PG_COMPOUND (Z.lor PG_RESERVED PG_SLAB).
Definition clear (pg : page) : Prop := Z.land (flags pg) USED_MASK = 0.

Record buddy_wf (s : pagealloc) : Prop := {
  wf_geom : geom s;
  wf_block zi o p : fb s zi o p →
    block_in s zi p o ∧ has (flags (mem_map s p)) PG_BUDDY = true ∧ order (mem_map s p) = o;
  wf_clear zi o p x : fb s zi o p → blk p o x → clear (mem_map s x);
  wf_flag x : valid s x → has (flags (mem_map s x)) PG_BUDDY = true →
    fb s (pfn_zone s x) (order (mem_map s x)) x;
  wf_disj zi o p zi' o' p' x :
    fb s zi o p → fb s zi' o' p' → blk p o x → blk p' o' x → zi = zi' ∧ o = o' ∧ p = p';
  wf_nodup zi o : (zi < NR_ZONES)%nat → (o < MAX_ORDER)%nat → NoDup (free (zones s zi) o);
  wf_nr zi o : (zi < NR_ZONES)%nat → (o < MAX_ORDER)%nat →
    nr_free (zones s zi) o = wrap64 (Z.of_nat (length (free (zones s zi) o)));
}.

(** The pages on the free lists of a zone. *)
Definition zone_sum (z : zone) : Z :=
  foldr (λ o t, Z.of_nat (length (free z o)) * bsize o + t) 0 (seq 0 MAX_ORDER).

Definition counted (s : pagealloc) : Prop :=
  ∀ zi, (zi < NR_ZONES)%nat → z_free_pages (zones s zi) = wrap64 (zone_sum (zones s zi)).

(** No two free buddies are left unmerged. *)
Definition coalesced (s : pagealloc) : Prop :=
  ∀ zi o p, fb s zi o p → (o < MAX_ORDER - 1)%nat → ¬ fb s zi o (Z.lxor p (bsize o)).

Record buddy_ok (s : pagealloc) : Prop := {
  ok_wf : buddy_wf s;
  ok_counted : counted s;
  ok_coalesced : coalesced s;
}.

(** ** Arithmetic of blocks *)

Lemma bsize_pow o : bsize o = 2 ^ Z.of_nat o.
Proof. unfold bsize. rewrite Z.shiftl_mul_pow2; lia. Qed.

Lemma bsize_pos o : 0 < bsize o.
Proof. rewrite bsize_pow. apply Z.pow_pos_nonneg; lia. Qed.

Lemma bsize_S o : bsize (S o) = 2 * bsize o.
Proof. rewrite !bsize_pow, Nat2Z.inj_succ, Z.pow_succ_r; lia. Qed.

Lemma bsize_divide o o' : (o ≤ o')%nat → (bsize o | bsize o').
Proof. intros. rewrite !bsize_pow. apply divide_pow2. lia. Qed.

Lemma bsize_le o o' : (o ≤ o')%nat → bsize o ≤ bsize o'.
Proof. intros. apply Z.divide_pos_le; [apply bsize_pos|by apply bsize_divide]. Qed.

Lemma bsize_max o : (o < MAX_ORDER)%nat → bsize o ≤ 1024.
Proof. intros Ho. change 1024 with (bsize 10). apply bsize_le. unfold MAX_ORDER in Ho. lia. Qed.
#[export] Hint Resolve bsize_pos : olux.

(** Of two blocks that meet the larger contains the smaller. *)
Lemma blk_nested p o a k x :
  (bsize o | p) → (bsize k | a) → (k ≤ o)%nat → blk p o x → blk a k x →
  ∀ y, blk a k y → blk p o y.
Proof.
  unfold blk. intros Hp Ha Hk Hx Hx' y Hy. pose proof (bsize_pos k).
  pose proof (bsize_divide k o Hk) as Hd.
  pose proof (Z.divide_trans _ _ _ Hd Hp) as Hp'.
  assert (p ≤ a).
  { destruct (decide (a < p)); [|lia].
    pose proof (divide_gap (bsize k) a p ltac:(done) Ha Hp' ltac:(done)). lia. }
  pose proof (divide_gap (bsize k) a (p + bsize o) ltac:(done) Ha
    (Z.divide_add_r _ _ _ Hp' Hd) ltac:(lia)). lia.
Qed.

Lemma blk_same p a o x :
  (bsize o | p) → (bsize o | a) → blk p o x → blk a o x → p = a.
Proof.
  intros Hp Ha Hx Hx'. pose proof (bsize_pos o).
  pose proof (blk_nested p o a o x Hp Ha ltac:(lia) Hx Hx' a ltac:(unfold blk; lia)).
  pose proof (blk_nested a o p o x Ha Hp ltac:(lia) Hx' Hx p ltac:(unfold blk; lia)).
  unfold blk in *. lia.
Qed.

(** ** Zones *)

Ltac zones3 zi := destruct zi as [|[|[|zi]]]; [..|unfold NR_ZONES in *; lia].

Lemma pfn_zone_eq s x :
  geom s → pfn_zone s x = if 2 ^ 20 <=? x then 2%nat else if 2 ^ 18 <=? x then 1%nat else 0%nat.
Proof.
  intros Hg. unfold pfn_zone, NR_ZONES. simpl.
  rewrite !(geom_start s Hg) by (unfold NR_ZONES; lia). simpl.
  by destruct (0 <=? x).
Qed.

Lemma pfn_zone_unique s zi x :
  geom s → (zi < NR_ZONES)%nat → zone_start zi ≤ x < zone_end zi → pfn_zone s x = zi.
Proof.
  intros Hg Hzi Hx. rewrite pfn_zone_eq by done.
  zones3 zi; simpl in Hx; repeat case_test; lia.
Qed.

Lemma pfn_zone_in s x :
  geom s → 0 ≤ x < 2 ^ 26 →
  (pfn_zone s x < NR_ZONES)%nat ∧ zone_start (pfn_zone s x) ≤ x < zone_end (pfn_zone s x).
Proof.
  intros Hg Hx. rewrite pfn_zone_eq by done. unfold NR_ZONES.
  repeat case_test; simpl; unfold U64; lia.
Qed.

Lemma zone_aligned zi o :
  (zi < NR_ZONES)%nat → (o < MAX_ORDER)%nat → (bsize o | zone_start zi).
Proof.
  intros Hzi Ho. unfold MAX_ORDER in Ho.
  assert (∀ k, 10 ≤ k → (bsize o | 2 ^ k)) as Hd.
  { intros. rewrite bsize_pow. apply divide_pow2. lia. }
  zones3 zi; simpl; [apply Z.divide_0_r|by apply Hd..].
Qed.

(** ** Adding and removing a free block *)

(** The page table of the flags a block operation leaves alone. *)
Lemma has_lor f b : b ≠ 0 → has (Z.lor f b) b = true.
Proof.
  intros Hb. unfold has. apply negb_true_iff, Z.eqb_neq.
  rewrite Z.land_lor_distr_l, Z.land_diag. intros [_ ?]%Z.lor_eq_0_iff. done.
Qed.

Lemma has_clear_buddy f : has (Z.land f (not32 PG_BUDDY)) PG_BUDDY = false.
Proof. unfold has. by rewrite <-Z.land_assoc, Z.land_0_r. Qed.

Lemma clear_lor_buddy f :
  Z.land (Z.lor f PG_BUDDY) USED_MASK = Z.land f USED_MASK.
Proof. rewrite Z.land_lor_distr_l. apply Z.lor_0_r. Qed.

Lemma clear_land_buddy f :
  Z.land (Z.land f (not32 PG_BUDDY)) USED_MASK = Z.land f USED_MASK.
Proof. by rewrite <-Z.land_assoc. Qed.

(** Same geometry: the bounds that no operation changes. *)
Definition same_geom (s s' : pagealloc) : Prop :=
  mem_map_base_pfn s' = mem_map_base_pfn s ∧ mem_map_pfns s' = mem_map_pfns s ∧
  ∀ zi, start_pfn (zones s' zi) = start_pfn (zones s zi) ∧
        end_pfn (zones s' zi) = end_pfn (zones s zi).

#[export] Instance same_geom_preorder : PreOrder same_geom.
Proof.
  split; [by repeat split|]. intros s1 s2 s3 (?&?&H1) (?&?&H2).
  split_and!; [congruence..|]. intros zi. destruct (H1 zi), (H2 zi). split; congruence.
Qed.

Lemma same_geom_geom s s' : same_geom s s' → geom s → geom s'.
Proof.
  intros (Hb & Hp & Hz) [H1 H2 H3 H4 H5].
  split; rewrite ?Hb, ?Hp; try done; intros zi Hzi;
    destruct (Hz zi) as [Ha Hb']; rewrite ?Ha, ?Hb'; auto.
Qed.

Lemma same_geom_zone s s' x : same_geom s s' → pfn_zone s' x = pfn_zone s x.
Proof.
  intros (_ & _ & Hz). unfold pfn_zone. generalize (NR_ZONES - 1)%nat as z.
  induction z as [|z IH]; simpl; [by destruct (Hz 0%nat) as [-> _]|].
  rewrite IH. by destruct (Hz (S z)) as [-> _].
Qed.

Lemma same_geom_block_in s s' zi p o :
  same_geom s s' → block_in s' zi p o ↔ block_in s zi p o.
Proof. intros (Hb & Hp & _). unfold block_in. by rewrite Hb, Hp. Qed.

Lemma same_geom_valid s s' x : same_geom s s' → valid s' x ↔ valid s x.
Proof. intros (Hb & Hp & _). unfold valid. by rewrite Hb, Hp. Qed.

(** Case analysis on where an updated function is looked up. *)
Ltac upd :=
  unfold add_free, del_free, add_free_pages, set_zone, set_page in *; simpl in *;
  repeat match goal with
  | |- context [<[?a := ?v]> ?f ?a] => rewrite (fn_lookup_insert f a v) in *; simpl in *
  | H : context [<[?a := ?v]> ?f ?a] |- _ => rewrite (fn_lookup_insert f a v) in *; simpl in *
  | |- context [<[?a := ?v]> ?f ?b] =>
      destruct (decide (a = b)) as [<-|];
      [rewrite (fn_lookup_insert f a v) in *|rewrite (fn_lookup_insert_ne f a b v) in * by done];
      simpl in *
  | H : context [<[?a := ?v]> ?f ?b] |- _ =>
      destruct (decide (a = b)) as [<-|];
      [rewrite (fn_lookup_insert f a v) in *|rewrite (fn_lookup_insert_ne f a b v) in * by done];
      simpl in *
  end.

Lemma add_free_geom s zi p o : same_geom s (add_free s zi p o).
Proof. split_and!; try done. intros zi'. by upd. Qed.

Lemma del_free_geom s zi p o : same_geom s (del_free s zi p o).
Proof. split_and!; try done. intros zi'. by upd. Qed.

Lemma add_free_pages_geom s zi n : same_geom s (add_free_pages s zi n).
Proof. split_and!; try done. intros zi'. by upd. Qed.
#[export] Hint Resolve add_free_geom del_free_geom add_free_pages_geom : olux.

Lemma fb_add s zi p o zi' o' q :
  (zi < NR_ZONES)%nat → (o < MAX_ORDER)%nat →
  fb (add_free s zi p o) zi' o' q ↔ fb s zi' o' q ∨ (zi' = zi ∧ o' = o ∧ q = p).
Proof.
  intros Hzi Ho. unfold fb. upd; rewrite ?elem_of_cons; naive_solver.
Qed.

Lemma fb_del s zi p o zi' o' q :
  fb (del_free s zi p o) zi' o' q ↔ fb s zi' o' q ∧ ¬ (zi' = zi ∧ o' = o ∧ q = p).
Proof. unfold fb. upd; rewrite ?elem_of_lremove; naive_solver. Qed.

Lemma fb_add_pages s zi n zi' o q : fb (add_free_pages s zi n) zi' o q ↔ fb s zi' o q.
Proof. unfold fb. by upd. Qed.

Lemma mem_map_add s zi p o x :
  mem_map (add_free s zi p o) x =
  if decide (x = p) then set_order (set_flags (mem_map s p) (Z.lor (flags (mem_map s p)) PG_BUDDY)) o
  else mem_map s x.
Proof. upd; [by rewrite decide_True|by rewrite decide_False by congruence]. Qed.

Lemma mem_map_del s zi p o x :
  mem_map (del_free s zi p o) x =
  if decide (x = p) then set_flags (mem_map s p) (Z.land (flags (mem_map s p)) (not32 PG_BUDDY))
  else mem_map s x.
Proof. upd; [by rewrite decide_True|by rewrite decide_False by congruence]. Qed.

Lemma clear_add s zi p o x : clear (mem_map (add_free s zi p o) x) ↔ clear (mem_map s x).
Proof.
  rewrite mem_map_add. destruct decide as [->|]; [|done]. unfold clear. simpl.
  by rewrite clear_lor_buddy.
Qed.

Lemma clear_del s zi p o x : clear (mem_map (del_free s zi p o) x) ↔ clear (mem_map s x).
Proof.
  rewrite mem_map_del. destruct decide as [->|]; [|done]. unfold clear. simpl.
  by rewrite clear_land_buddy.
Qed.

(** A block that can be added: in range, its pages neither free nor marked. *)
Record addable (s : pagealloc) (zi : nat) (p : Z) (o : nat) : Prop := {
  add_zone : (zi < NR_ZONES)%nat;
  add_order : (o < MAX_ORDER)%nat;
  add_in : block_in s zi p o;
  add_clear x : blk p o x → clear (mem_map s x);
  add_used x : blk p o x → ¬ is_free s x;
}.

Lemma blk_head p o : blk p o p.
Proof. unfold blk. pose proof (bsize_pos o). lia. Qed.
#[export] Hint Resolve blk_head : olux.

Lemma is_free_add s zi p o x :
  (zi < NR_ZONES)%nat → (o < MAX_ORDER)%nat →
  is_free (add_free s zi p o) x ↔ is_free s x ∨ blk p o x.
Proof.
  intros Hzi Ho. unfold is_free. setoid_rewrite fb_add; [|done..]. split.
  - intros (zi' & o' & q & [Hf|(-> & -> & ->)] & Hx); [left; eauto 10|by right].
  - intros [(zi' & o' & q & Hf & Hx)|Hx]; [eauto 10|]. exists zi, o, p. auto.
Qed.

Lemma is_free_del s zi p o x :
  buddy_wf s → fb s zi o p →
  is_free (del_free s zi p o) x ↔ is_free s x ∧ ¬ blk p o x.
Proof.
  intros Hwf Hf. unfold is_free. setoid_rewrite fb_del. split.
  - intros (zi' & o' & q & [Hf' Hne] & Hx). split; [eauto 10|]. intros Hx'.
    apply Hne. by apply (wf_disj s Hwf zi' o' q zi o p x).
  - intros [(zi' & o' & q & Hf' & Hx) Hn]. exists zi', o', q. split; [|done]. split; [done|].
    intros (-> & -> & ->). done.
Qed.

(** *** Preservation *)

Lemma length_wrap_add n k : wrap64 (Z.of_nat n) ⊕ k = wrap64 (Z.of_nat n + k).
Proof. unfold add64, wrap64. by rewrite Zplus_mod_idemp_l. Qed.

Lemma length_wrap_sub n k : wrap64 n ⊖ k = wrap64 (n - k).
Proof. unfold sub64, wrap64. by rewrite Zminus_mod_idemp_l. Qed.

Lemma add_free_wf s zi p o :
  buddy_wf s → addable s zi p o → buddy_wf (add_free s zi p o).
Proof.
  intros Hwf [Hzi Ho Hin Hclr Hused].
  assert (∀ zi' o' q, fb s zi' o' q → q ≠ p) as Hnew.
  { intros zi' o' q Hf ->. apply (Hused p); [auto with olux|]. exists zi', o', p. auto with olux. }
  split.
  - eapply same_geom_geom; [auto with olux|apply Hwf].
  - intros zi' o' q. rewrite fb_add by done. rewrite mem_map_add.
    rewrite same_geom_block_in by auto with olux. intros [Hf|(-> & -> & ->)].
    + rewrite decide_False by eauto. by apply Hwf.
    + rewrite decide_True by done. simpl. rewrite has_lor by done. done.
  - intros zi' o' q x. rewrite fb_add, clear_add by done. intros [Hf|(-> & -> & ->)] Hx.
    + by eapply wf_clear.
    + by apply Hclr.
  - intros x Hv. rewrite fb_add by done. rewrite mem_map_add.
    rewrite same_geom_valid in Hv by auto with olux.
    rewrite (same_geom_zone s) by auto with olux.
    destruct decide as [->|Hne]; [|by left; apply Hwf]. intros _. simpl. right.
    split_and!; try done. apply pfn_zone_unique; [apply Hwf|done|].
    destruct Hin as (_ & _ & _ & ? & ?). pose proof (bsize_pos o). lia.
  - intros zi1 o1 p1 zi2 o2 p2 x. rewrite !fb_add by done.
    intros [Hf1|(-> & -> & ->)] [Hf2|(-> & -> & ->)] Hx1 Hx2; [| | |done].
    + by apply (wf_disj s Hwf _ _ _ _ _ _ x).
    + destruct (Hused x Hx2). by exists zi1, o1, p1.
    + destruct (Hused x Hx1). by exists zi2, o2, p2.
  - intros zi' o' Hzi' Ho'. pose proof (wf_nodup s Hwf zi' o' Hzi' Ho'). upd; try done.
    apply NoDup_cons. split; [|done]. intros Hp. by apply (Hnew zi o p).
  - intros zi' o' Hzi' Ho'. pose proof (wf_nr s Hwf zi' o' Hzi' Ho') as Hnr.
    upd; try done. rewrite Hnr, length_wrap_add. f_equal. lia.
Qed.

Lemma del_free_wf s zi p o :
  buddy_wf s → fb s zi o p → buddy_wf (del_free s zi p o).
Proof.
  intros Hwf Hf.
  assert (∀ zi' o' q, fb s zi' o' q → ¬ (zi' = zi ∧ o' = o ∧ q = p) → q ≠ p) as Hold.
  { intros zi' o' q Hf' Hne ->. apply Hne.
    apply (wf_disj s Hwf zi' o' p zi o p p); auto with olux. }
  split.
  - eapply same_geom_geom; [auto with olux|apply Hwf].
  - intros zi' o' q. rewrite fb_del, mem_map_del. rewrite same_geom_block_in by auto with olux.
    intros [Hf' Hne]. rewrite decide_False by eauto. by apply Hwf.
  - intros zi' o' q x. rewrite fb_del, clear_del. intros [Hf' _] Hx. by eapply wf_clear.
  - intros x Hv. rewrite fb_del, mem_map_del.
    rewrite same_geom_valid in Hv by auto with olux.
    rewrite (same_geom_zone s) by auto with olux.
    destruct decide as [->|Hne]; simpl; [by rewrite has_clear_buddy|].
    intros Hfl. split; [by apply Hwf|naive_solver].
  - intros zi1 o1 p1 zi2 o2 p2 x. rewrite !fb_del. intros [Hf1 _] [Hf2 _].
    by apply (wf_disj s Hwf).
  - intros zi' o' Hzi' Ho'. pose proof (wf_nodup s Hwf zi' o' Hzi' Ho'). upd; try done.
    by apply lremove_NoDup.
  - intros zi' o' Hzi' Ho'. pose proof (wf_nr s Hwf zi' o' Hzi' Ho') as Hnr.
    pose proof (wf_nodup s Hwf zi' o' Hzi' Ho') as Hnd.
    upd; try done. rewrite Hnr, length_wrap_sub. f_equal.
    destruct Hf as (_ & _ & Hp). rewrite (lremove_length p _ Hnd Hp). lia.
Qed.

Lemma add_free_pages_wf s zi n : buddy_wf s → buddy_wf (add_free_pages s zi n).
Proof.
  intros Hwf. split.
  - eapply same_geom_geom; [auto with olux|apply Hwf].
  - intros zi' o q. rewrite fb_add_pages. apply Hwf.
  - intros zi' o q x. rewrite fb_add_pages. apply Hwf.
  - intros x. rewrite fb_add_pages, (same_geom_zone s) by auto with olux. apply Hwf.
  - intros zi1 o1 p1 zi2 o2 p2 x. rewrite !fb_add_pages. by apply (wf_disj s Hwf).
  - intros zi' o Hzi' Ho. pose proof (wf_nodup s Hwf zi' o Hzi' Ho). by upd.
  - intros zi' o Hzi' Ho. pose proof (wf_nr s Hwf zi' o Hzi' Ho). by upd.
Qed.

(** *** Accounting *)

Lemma sum_update (f g : nat → Z) o l :
  (∀ o', o' ≠ o → g o' = f o') → NoDup l → o ∈ l →
  foldr (λ o t, g o + t) 0 l = foldr (λ o t, f o + t) 0 l + (g o - f o).
Proof.
  intros Hfg. induction l as [|a l IH]; intros Hnd Hin; [by apply not_elem_of_nil in Hin|].
  apply NoDup_cons in Hnd as [Ha Hnd]. simpl. destruct (decide (a = o)) as [->|Hne].
  - assert (foldr (λ o t, g o + t) 0 l = foldr (λ o t, f o + t) 0 l) as ->; [|lia].
    clear IH Hin. induction l as [|b l IH]; [done|].
    apply not_elem_of_cons in Ha as [??]. apply NoDup_cons in Hnd as [??]. simpl.
    rewrite IH by done. by rewrite Hfg by congruence.
  - rewrite IH; [rewrite Hfg by done; lia|done|set_solver].
Qed.

Lemma zone_sum_update z z' o :
  (o < MAX_ORDER)%nat → (∀ o', o' ≠ o → free z' o' = free z o') →
  zone_sum z' = zone_sum z + (Z.of_nat (length (free z' o)) - Z.of_nat (length (free z o))) * bsize o.
Proof.
  intros Ho Hz. unfold zone_sum.
  rewrite (sum_update (λ o, Z.of_nat (length (free z o)) * bsize o)
             (λ o, Z.of_nat (length (free z' o)) * bsize o) o); [lia| | |].
  - intros o' Hne. by rewrite Hz.
  - apply NoDup_seq.
  - apply elem_of_seq. lia.
Qed.

(** What the block operations leave alone: the bounds, the page counters and
    the contents of memory. *)
Definition same_rest (s s' : pagealloc) : Prop :=
  same_geom s s' ∧ ram s' = ram s ∧
  ∀ zi, z_free_pages (zones s' zi) = z_free_pages (zones s zi) ∧
        managed_pages (zones s' zi) = managed_pages (zones s zi).

#[export] Instance same_rest_preorder : PreOrder same_rest.
Proof.
  split; [by repeat split|]. intros s1 s2 s3 (G1&R1&H1) (G2&R2&H2).
  split; [by transitivity s2|]. split; [congruence|]. intros zi. destruct (H1 zi), (H2 zi).
  split; congruence.
Qed.

Lemma add_free_rest s zi p o : same_rest s (add_free s zi p o).
Proof. split; [auto with olux|]. split; [done|]. intros zi'. by upd. Qed.

Lemma del_free_rest s zi p o : same_rest s (del_free s zi p o).
Proof. split; [auto with olux|]. split; [done|]. intros zi'. by upd. Qed.
#[export] Hint Resolve add_free_rest del_free_rest : olux.

Definition delta (zi zi' : nat) (n : Z) : Z := if decide (zi' = zi) then n else 0.

Lemma zone_sum_add s zi p o zi' :
  (o < MAX_ORDER)%nat →
  zone_sum (zones (add_free s zi p o) zi') = zone_sum (zones s zi') + delta zi zi' (bsize o).
Proof.
  intros Ho. unfold delta. upd.
  - rewrite decide_True by done. rewrite (zone_sum_update (zones s zi) _ o); simpl; [|done|].
    + rewrite fn_lookup_insert. simpl. lia.
    + intros o' Hne. by rewrite fn_lookup_insert_ne by congruence.
  - rewrite decide_False by congruence. lia.
Qed.

Lemma zone_sum_del s zi p o zi' :
  buddy_wf s → fb s zi o p →
  zone_sum (zones (del_free s zi p o) zi') = zone_sum (zones s zi') - delta zi zi' (bsize o).
Proof.
  intros Hwf (Hzi & Ho & Hp). pose proof (wf_nodup s Hwf zi o Hzi Ho) as Hnd. unfold delta. upd.
  - rewrite decide_True by done. rewrite (zone_sum_update (zones s zi) _ o); simpl; [|done|].
    + rewrite fn_lookup_insert, (lremove_length p _ Hnd Hp). lia.
    + intros o' Hne. by rewrite fn_lookup_insert_ne by congruence.
  - rewrite decide_False by congruence. lia.
Qed.

(** *** Merging *)

Lemma pfn_valid_iff s x : geom s → pfn_valid s x = true ↔ valid s x.
Proof.
  intros [_ _ ? ? ?]. unfold pfn_valid, valid. rewrite add64_small by (unfold U64; lia).
  rewrite andb_true_iff, Z.leb_le, Z.ltb_lt. done.
Qed.

(** The buddy of a block and the block that the two make up. *)
Lemma buddy_blk p o :
  (o < MAX_ORDER)%nat → u64_ok p → (bsize o | p) →
  let b := Z.lxor p (bsize o) in
  let q := Z.land p (not64 (bsize o)) in
  (bsize (S o) | q) ∧ (q = p ∨ q = b) ∧ (∀ x, blk q (S o) x ↔ blk p o x ∨ blk b o x).
Proof.
  intros Ho Hp Hd b q. subst b q. rewrite bsize_S. unfold blk. rewrite bsize_S.
  rewrite bsize_pow in *. unfold MAX_ORDER in Ho.
  destruct (buddy_cases p (Z.of_nat o) ltac:(lia) Hp Hd) as [(-> & -> & ?)|(-> & -> & ?)];
    (split_and!; [done|auto|intros; lia]).
Qed.

Lemma lxor_buddy p o : Z.lxor (Z.lxor p (bsize o)) (bsize o) = p.
Proof. by rewrite Z.lxor_assoc, Z.lxor_nilpotent, Z.lxor_0_r. Qed.

Lemma block_in_u64 s zi p o : geom s → block_in s zi p o → u64_ok p.
Proof.
  intros [_ _ ? ? ?] (_ & ? & ? & _). pose proof (bsize_pos o). unfold u64_ok, U64. lia.
Qed.

Lemma coalesced_del s zi p o : coalesced s → coalesced (del_free s zi p o).
Proof. intros Hc zi' o' q. rewrite !fb_del. intros [Hf _] Ho' [Hf' _]. by apply (Hc zi' o' q). Qed.

(** One round of the merging loop: the free buddy is taken off its list and
    the two halves make an addable block of the next order. *)
Lemma merge_addable s zi p o :
  buddy_wf s → addable s zi p o → (o < MAX_ORDER - 1)%nat →
  fb s zi o (Z.lxor p (bsize o)) →
  let s' := del_free s zi (Z.lxor p (bsize o)) o in
  let q := Z.land p (not64 (bsize o)) in
  addable s' zi q (S o) ∧
  (∀ x, is_free s' x ∨ blk q (S o) x ↔ is_free s x ∨ blk p o x).
Proof.
  intros Hwf [Hzi Ho Hin Hclr Hused] HoM Hf s' q. set (b := Z.lxor p (bsize o)) in *.
  pose proof (block_in_u64 s zi p o (wf_geom s Hwf) Hin) as Hu.
  destruct (buddy_blk p o Ho Hu (proj1 Hin)) as (Hqd & Hqor & Hq). fold b in Hqor, Hq. fold q in Hqd, Hqor, Hq.
  destruct (wf_block s Hwf _ _ _ Hf) as [Hbin _].
  assert (∀ x, is_free s' x ↔ is_free s x ∧ ¬ blk b o x) as Hfree
    by (intros; by apply is_free_del).
  split.
  - split; [done|unfold MAX_ORDER in *; lia|..].
    + rewrite (same_geom_block_in s) by apply del_free_geom.
      destruct Hin as (_ & ? & ? & ? & ?), Hbin as (_ & ? & ? & ? & ?).
      pose proof (proj1 (Hq q) (blk_head _ _)). pose proof (bsize_pos o).
      pose proof (proj1 (Hq (q + bsize (S o) - 1)) ltac:(unfold blk; rewrite bsize_S; lia)).
      unfold blk in *. split; [done|]. lia.
    + intros x [Hx|Hx]%Hq; apply clear_del; [by apply Hclr|by eapply wf_clear].
    + intros x Hx [Hfx Hnb]%Hfree. apply Hq in Hx as [Hx|Hx]; [by apply (Hused x)|done].
  - intros x. rewrite Hfree, Hq.
    assert (blk b o x → is_free s x) by (intros; by exists zi, o, b).
    destruct (decide (b ≤ x < b + bsize o)) as [Hx|Hx]; unfold blk in *; tauto.
Qed.

(** Pages that are neither free nor being freed keep their descriptors. *)
Definition kept (s s' : pagealloc) (P : Z → Prop) : Prop :=
  ∀ x, ¬ is_free s x → ¬ P x → mem_map s' x = mem_map s x.

(** The loop stops with a block whose buddy is not a free block of its order. *)
Lemma coalesce_stop s zi p o :
  buddy_wf s → addable s zi p o →
  (let b := Z.lxor p (bsize o) in
   negb (pfn_valid s b) || (b <? start_pfn (zones s zi)) || (end_pfn (zones s zi) <=? b)
   || (negb (has (flags (mem_map s b)) PG_BUDDY) || negb (order (mem_map s b) =? o)%nat) = true) →
  ¬ fb s zi o (Z.lxor p (bsize o)).
Proof.
  cbv zeta. intros Hwf Ha Htest Hf. set (b := Z.lxor p (bsize o)) in *.
  pose proof (bsize_pos o).
  destruct (wf_block s Hwf _ _ _ Hf) as ((_ & ? & ? & ? & ?) & Hfl & Ho).
  pose proof (wf_geom s Hwf) as Hg. pose proof (add_zone _ _ _ _ Ha) as Hzi.
  rewrite (geom_start s Hg), (geom_end s Hg) in Htest by done.
  assert (pfn_valid s b = true) as Hv by (apply pfn_valid_iff; [done|]; unfold valid; lia).
  rewrite Hv, Hfl, Ho, Nat.eqb_refl in Htest. simpl in Htest. zsplit; lia || done.
Qed.

Lemma coalesce_spec n s zi p o s' p' o' :
  n = (MAX_ORDER - 1 - o)%nat → buddy_wf s → coalesced s → addable s zi p o →
  coalesce n s zi p o = (s', p', o') →
  buddy_wf s' ∧ coalesced s' ∧ addable s' zi p' o' ∧ same_rest s s' ∧
  (∀ x, is_free s' x ∨ blk p' o' x ↔ is_free s x ∨ blk p o x) ∧
  ((o' < MAX_ORDER - 1)%nat → ¬ fb s' zi o' (Z.lxor p' (bsize o'))) ∧
  (∀ zi', zone_sum (zones s' zi') =
          zone_sum (zones s zi') + delta zi zi' (bsize o) - delta zi zi' (bsize o')) ∧
  kept s s' (blk p o).
Proof.
  revert s p o. induction n as [|n IH]; intros s p o Hn Hwf Hc Ha Hrun; simpl in Hrun.
  { simplify_eq. split_and!; try done; [lia|intros; lia]. }
  pose proof (coalesce_stop s zi p o Hwf Ha) as Hstop. simpl in Hstop.
  destruct (negb (pfn_valid s (Z.lxor p (bsize o))) ||
    (Z.lxor p (bsize o) <? start_pfn (zones s zi)) ||
    (end_pfn (zones s zi) <=? Z.lxor p (bsize o))) eqn:Ht1.
  { simplify_eq. split_and!; try done; [intros _; by apply Hstop|intros; lia]. }
  destruct (negb (has (flags (mem_map s (Z.lxor p (bsize o)))) PG_BUDDY) ||
    negb (order (mem_map s (Z.lxor p (bsize o))) =? o)%nat) eqn:Ht2.
  { simplify_eq. split_and!; try done; [intros _; by apply Hstop|intros; lia]. }
  clear Hstop. set (b := Z.lxor p (bsize o)) in *.
  pose proof (wf_geom s Hwf) as Hg. pose proof (add_zone _ _ _ _ Ha) as Hzi.
  assert (fb s zi o b) as Hf.
  { apply orb_false_iff in Ht1 as [[Hv%negb_false_iff Hs]%orb_false_iff He].
    apply orb_false_iff in Ht2 as [Hfl%negb_false_iff Hor%negb_false_iff%Nat.eqb_eq].
    apply pfn_valid_iff in Hv; [|done]. zbool.
    rewrite (geom_start s Hg) in Hs by done. rewrite (geom_end s Hg) in He by done.
    rewrite <-(pfn_zone_unique s zi b Hg Hzi ltac:(lia)), <-Hor. by apply Hwf. }
  destruct (merge_addable s zi p o Hwf Ha ltac:(lia) Hf) as [Ha' Hfree]. fold b in Ha', Hfree.
  destruct (IH (del_free s zi b o) (Z.land p (not64 (bsize o))) (S o) ltac:(lia)
    (del_free_wf _ _ _ _ Hwf Hf) (coalesced_del _ _ _ _ Hc) Ha' Hrun)
    as (Hwf' & Hc' & Ha2 & Hrest & Hfree2 & Hlast & Hsum & Hkept).
  split_and!; try done.
  - transitivity (del_free s zi b o); [auto with olux|done].
  - intros x. by rewrite Hfree2, Hfree.
  - intros zi'. rewrite Hsum, (zone_sum_del s zi b o zi' Hwf Hf). unfold delta.
    destruct decide; rewrite ?bsize_S; lia.
  - intros x Hx Hn'. assert (¬ is_free (del_free s zi b o) x ∧ ¬ blk (Z.land p (not64 (bsize o))) (S o) x)
      as [Hx1 Hx2] by (specialize (Hfree x); tauto).
    rewrite (Hkept x Hx1 Hx2), mem_map_del, decide_False; [done|].
    intros ->. apply Hx. exists zi, o, b. auto with olux.
Qed.

Lemma add_free_coalesced s zi p o :
  coalesced s → addable s zi p o →
  ((o < MAX_ORDER - 1)%nat → ¬ fb s zi o (Z.lxor p (bsize o))) →
  coalesced (add_free s zi p o).
Proof.
  intros Hc [Hzi Ho _ _ _] Hlast zi' o' q. rewrite !fb_add by done.
  intros [Hf|(-> & -> & ->)] HoM [Hf'|(E1 & E2 & E)].
  - by apply (Hc zi' o' q).
  - subst zi' o' p. rewrite lxor_buddy in Hlast. by apply Hlast.
  - by apply Hlast.
  - assert (Z.lxor p (Z.lxor p (bsize o)) = 0) as H0 by (rewrite E; apply Z.lxor_nilpotent).
    rewrite <-Z.lxor_assoc, Z.lxor_nilpotent, Z.lxor_0_l in H0.
    pose proof (bsize_pos o). lia.
Qed.

Lemma wrap64_add_wrap x y : wrap64 x ⊕ y = wrap64 (x + y).
Proof. unfold add64, wrap64. by rewrite Zplus_mod_idemp_l. Qed.

(** What freeing the block [p] of order [o] does. *)
Record freed (s s' : pagealloc) (p : Z) (o : nat) : Prop := {
  freed_ok : buddy_ok s';
  freed_geom : same_geom s s';
  freed_ram : ram s' = ram s;
  freed_set x : is_free s' x ↔ is_free s x ∨ blk p o x;
  freed_kept : kept s s' (blk p o);
  freed_count zi : (zi < NR_ZONES)%nat → z_free_pages (zones s' zi) =
    z_free_pages (zones s zi) ⊕ delta (pfn_zone s p) zi (bsize o);
  freed_managed zi : managed_pages (zones s' zi) = managed_pages (zones s zi);
}.

Lemma __free_spec s p o :
  buddy_ok s → addable s (pfn_zone s p) p o → freed s (__free s p o) p o.
Proof.
  intros [Hwf Hcnt Hc] Ha. unfold __free. set (zi := pfn_zone s p) in *.
  set (s1 := add_free_pages s zi (bsize o)).
  assert (addable s1 zi p o) as Ha1.
  { destruct Ha as [H1 H2 H3 H4 H5]. split; try done.
    intros x Hx (zi' & o' & q & Hf & Hq). unfold s1 in Hf. rewrite fb_add_pages in Hf.
    apply (H5 x Hx). by exists zi', o', q. }
  assert (coalesced s1) as Hc1.
  { intros zi' o' q. unfold s1. rewrite !fb_add_pages. apply Hc. }
  assert (∀ x, is_free s1 x ↔ is_free s x) as Hf1.
  { intros x. unfold is_free, s1. by setoid_rewrite fb_add_pages. }
  destruct (coalesce (MAX_ORDER - 1 - o) s1 zi p o) as [[s2 p'] o'] eqn:Hrun.
  destruct (coalesce_spec _ s1 zi p o s2 p' o' eq_refl (add_free_pages_wf _ _ _ Hwf) Hc1 Ha1 Hrun)
    as (Hwf2 & Hc2 & Ha2 & (Hg2 & Hram2 & Hcn2) & Hfree2 & Hlast & Hsum & Hkept).
  pose proof (add_free_rest s2 zi p' o') as (Hg3 & Hram3 & Hcn3).
  assert (same_geom s s2) as Hg12 by (transitivity s1; [apply add_free_pages_geom|done]).
  assert (∀ zi', (zi' < NR_ZONES)%nat → z_free_pages (zones (add_free s2 zi p' o') zi') =
    z_free_pages (zones s zi') ⊕ delta zi zi' (bsize o)) as Hcount.
  { intros zi' Hzi'. rewrite (proj1 (Hcn3 zi')), (proj1 (Hcn2 zi')). unfold delta, s1. upd.
    - by rewrite decide_True.
    - rewrite decide_False by congruence. rewrite Hcnt by done.
      rewrite wrap64_add_wrap. f_equal. lia. }
  split.
  - split; [by apply add_free_wf| |by apply add_free_coalesced].
    intros zi' Hzi'. rewrite Hcount, zone_sum_add, Hsum, Hcnt, wrap64_add_wrap by (done || apply Ha2).
    f_equal. assert (zone_sum (zones s1 zi') = zone_sum (zones s zi')) as -> by (unfold s1; by upd).
    lia.
  - by transitivity s2.
  - by rewrite Hram3, Hram2.
  - intros x. rewrite is_free_add, Hfree2, Hf1 by apply Ha2. done.
  - intros x Hx Hn. rewrite mem_map_add, decide_False.
    + apply Hkept; [by rewrite Hf1|done].
    + intros ->. destruct (proj1 (Hfree2 p')) as [H|H]; [right; auto with olux| |done].
      apply Hx. by apply Hf1.
  - done.
  - intros zi'. rewrite (proj2 (Hcn3 zi')), (proj2 (Hcn2 zi')). unfold s1. by upd.
Qed.

(** *** Splitting *)

Lemma upper_buddy p j :
  (j < MAX_ORDER)%nat → u64_ok p → (bsize (S j) | p) → Z.lxor (p + bsize j) (bsize j) = p.
Proof.
  intros Hj Hp Hd. rewrite bsize_S in Hd. rewrite bsize_pow in *. unfold MAX_ORDER in Hj.
  assert (2 ^ Z.of_nat j | p) as Hd1 by (eapply Z.divide_trans; [|done]; by exists 2).
  destruct (buddy_cases p (Z.of_nat j) ltac:(lia) Hp Hd1) as [(E & _)|(_ & _ & Hd')].
  - rewrite <-E. by rewrite Z.lxor_assoc, Z.lxor_nilpotent, Z.lxor_0_r.
  - exfalso. pose proof (bsize_pos j) as Hpos. rewrite bsize_pow in Hpos.
    pose proof (divide_gap (2 * 2 ^ Z.of_nat j) _ _ ltac:(lia) Hd' Hd ltac:(lia)). lia.
Qed.

Lemma split_addable s zi p j :
  buddy_wf s → coalesced s → addable s zi p (S j) →
  let s' := add_free s zi (p + bsize j) j in
  buddy_wf s' ∧ coalesced s' ∧ addable s' zi p j ∧
  (∀ x, is_free s' x ∨ blk p j x ↔ is_free s x ∨ blk p (S j) x).
Proof.
  intros Hwf Hc [Hzi Hj Hin Hclr Hused] s'. pose proof (bsize_pos j).
  pose proof (block_in_u64 s zi p _ (wf_geom s Hwf) Hin) as Hu.
  assert (∀ x, blk p (S j) x ↔ blk p j x ∨ blk (p + bsize j) j x) as Hblk
    by (intros; unfold blk; rewrite bsize_S; lia).
  destruct Hin as (Hd & Hin). rewrite bsize_S in Hin.
  assert (bsize j | p) as Hdj by (eapply Z.divide_trans; [apply (bsize_divide j (S j)); lia|done]).
  assert (addable s zi (p + bsize j) j) as Ha.
  { split; [done|lia|..].
    - split; [by apply Z.divide_add_r; [|apply Z.divide_refl]|lia].
    - intros x Hx. apply Hclr, Hblk. by right.
    - intros x Hx. apply Hused, Hblk. by right. }
  assert (∀ x, is_free s' x ↔ is_free s x ∨ blk (p + bsize j) j x) as Hfree
    by (intros; apply is_free_add; [done|lia]).
  split_and!.
  - by apply add_free_wf.
  - apply add_free_coalesced; [done..|]. intros _ Hf. rewrite upper_buddy in Hf by (done || lia).
    apply (Hused p); [auto with olux|]. exists zi, j, p. auto with olux.
  - split; [done|lia|..].
    + apply (same_geom_block_in s); [apply add_free_geom|]. split; [done|lia].
    + intros x Hx. apply clear_add, Hclr, Hblk. by left.
    + intros x Hx [Hf|Hx']%Hfree; [apply (Hused x); [apply Hblk; by left|done]|].
      unfold blk in *. lia.
  - intros x. rewrite Hfree, Hblk. tauto.
Qed.

Lemma split_block_spec k s zi p o :
  buddy_wf s → coalesced s → addable s zi p (o + k) →
  let s' := split_block k s zi p o in
  buddy_wf s' ∧ coalesced s' ∧ addable s' zi p o ∧ same_rest s s' ∧
  (∀ x, is_free s' x ∨ blk p o x ↔ is_free s x ∨ blk p (o + k) x) ∧
  (∀ zi', zone_sum (zones s' zi') =
          zone_sum (zones s zi') + delta zi zi' (bsize (o + k)) - delta zi zi' (bsize o)) ∧
  kept s s' (blk p (o + k)).
Proof.
  revert s. induction k as [|k IH]; simpl; intros s Hwf Hc Ha.
  { rewrite Nat.add_0_r in *. split_and!; try done. intros; lia. }
  rewrite Nat.add_succ_r in *. set (j := (o + k)%nat) in *.
  destruct (split_addable s zi p j Hwf Hc Ha) as (Hwf1 & Hc1 & Ha1 & Hfree1).
  destruct (IH _ Hwf1 Hc1 Ha1) as (Hwf2 & Hc2 & Ha2 & Hrest & Hfree2 & Hsum & Hkept).
  split_and!; try done.
  - etransitivity; [|done]. auto with olux.
  - intros x. by rewrite Hfree2, Hfree1.
  - intros zi'. rewrite Hsum, zone_sum_add by apply Ha1. unfold delta.
    destruct decide; rewrite ?bsize_S; lia.
  - intros x Hx Hn. rewrite Hkept.
    + rewrite mem_map_add, decide_False; [done|]. intros ->. apply Hn.
      unfold blk. rewrite bsize_S. pose proof (bsize_pos j). lia.
    + intros Hf. destruct (proj1 (Hfree1 x)); [by left|done..].
    + intros Hb. destruct (proj1 (Hfree1 x)); [by right|done..].
Qed.

(** What taking the block [p] of order [o] out of the lists does. *)
Record taken (s s' : pagealloc) (zi : nat) (p : Z) (o : nat) : Prop := {
  taken_ok : buddy_ok s';
  taken_geom : same_geom s s';
  taken_ram : ram s' = ram s;
  taken_addable : addable s' zi p o;
  taken_set x : is_free s' x ∨ blk p o x ↔ is_free s x;
  taken_kept : kept s s' (λ _, False);
  taken_count zi' : (zi' < NR_ZONES)%nat →
    z_free_pages (zones s' zi') = z_free_pages (zones s zi') ⊖ delta zi zi' (bsize o);
  taken_managed zi' : managed_pages (zones s' zi') = managed_pages (zones s zi');
}.

Lemma add_free_pages_count s zi n zi' :
  z_free_pages (zones (add_free_pages s zi n) zi') =
  if decide (zi' = zi) then z_free_pages (zones s zi) ⊕ n else z_free_pages (zones s zi').
Proof. upd; [by rewrite decide_True|by rewrite decide_False by congruence]. Qed.

Lemma add_free_pages_sum s zi n zi' :
  zone_sum (zones (add_free_pages s zi n) zi') = zone_sum (zones s zi').
Proof. by upd. Qed.

Lemma add_free_pages_managed s zi n zi' :
  managed_pages (zones (add_free_pages s zi n) zi') = managed_pages (zones s zi').
Proof. by upd. Qed.

Lemma add_free_pages_free s zi n x : is_free (add_free_pages s zi n) x ↔ is_free s x.
Proof. unfold is_free. by setoid_rewrite fb_add_pages. Qed.

Lemma add_free_pages_addable s zi n zi' p o :
  addable s zi' p o → addable (add_free_pages s zi n) zi' p o.
Proof.
  intros [H1 H2 H3 H4 H5]. split; try done. intros x Hx.
  rewrite add_free_pages_free. by apply H5.
Qed.

Lemma del_free_addable s zi p o :
  buddy_wf s → fb s zi o p → addable (del_free s zi p o) zi p o.
Proof.
  intros Hwf Hf. pose proof Hf as (Hzi & Ho & _). split; [done|done|..].
  - apply (same_geom_block_in s); [apply del_free_geom|]. by apply Hwf.
  - intros x Hx. apply clear_del. by eapply wf_clear.
  - intros x Hx. rewrite is_free_del by done. tauto.
Qed.

(** *** Allocation *)

(** Taking the first block of order [o] and splitting it down to [order]. *)
Lemma take_block s zi p order k :
  buddy_ok s → fb s zi (order + k) p →
  taken s (add_free_pages (split_block k (del_free s zi p (order + k)) zi p order) zi
             (- bsize order)) zi p order.
Proof.
  intros [Hwf Hcnt Hc] Hf. set (s1 := del_free s zi p (order + k)).
  destruct (split_block_spec k s1 zi p order (del_free_wf _ _ _ _ Hwf Hf)
    (coalesced_del _ _ _ _ Hc) (del_free_addable _ _ _ _ Hwf Hf))
    as (Hwf2 & Hc2 & Ha2 & (Hg2 & Hram2 & Hcn2) & Hfree2 & Hsum2 & Hkept2).
  set (s2 := split_block k s1 zi p order) in *.
  assert (∀ x, is_free s1 x ↔ is_free s x ∧ ¬ blk p (order + k) x) as Hfree1
    by (intros; by apply is_free_del).
  assert (∀ x, blk p (order + k) x → is_free s x) as Hblk by (intros; by exists zi, (order + k)%nat, p).
  assert (∀ zi', (zi' < NR_ZONES)%nat →
    z_free_pages (zones (add_free_pages s2 zi (- bsize order)) zi') =
    z_free_pages (zones s zi') ⊖ delta zi zi' (bsize order)) as Hcount.
  { intros zi' Hzi'. pose proof (Hcn2 zi') as [Hz _]. pose proof (Hcnt zi' Hzi') as Hw.
    assert (z_free_pages (zones s1 zi') = z_free_pages (zones s zi')) as E
      by (unfold s1; apply (del_free_rest s zi p (order + k))).
    rewrite add_free_pages_count. unfold delta. destruct decide as [->|];
      rewrite Hz, E; [done|]. rewrite Hw, length_wrap_sub. f_equal. lia. }
  split.
  - split; [by apply add_free_pages_wf| |].
    + intros zi' Hzi'. rewrite Hcount by done. rewrite Hcnt by done. rewrite length_wrap_sub. f_equal.
      rewrite add_free_pages_sum, Hsum2. unfold s1. rewrite (zone_sum_del s zi p (order + k) zi' Hwf Hf). lia.
    + intros zi' o' q. rewrite !fb_add_pages. apply Hc2.
  - transitivity s2; [|apply add_free_pages_geom]. transitivity s1; [apply del_free_geom|done].
  - done.
  - by apply add_free_pages_addable.
  - intros x. rewrite add_free_pages_free, Hfree2, Hfree1.
    destruct (decide (p ≤ x < p + bsize (order + k))); unfold blk in *; [|tauto].
    specialize (Hblk x). tauto.
  - intros x Hx _. change (mem_map s2 x = mem_map s x). rewrite Hkept2.
    + unfold s1. rewrite mem_map_del, decide_False; [done|]. intros ->. apply Hx, Hblk. auto with olux.
    + intros [Hx' _]%Hfree1. by apply Hx.
    + intros Hx'. by apply Hx, Hblk.
  - done.
  - intros zi'. rewrite add_free_pages_managed, (proj2 (Hcn2 zi')). apply (del_free_rest s zi p (order + k)).
Qed.

Lemma alloc_scan_spec n s zi order o :
  n = (MAX_ORDER - o)%nat → (order ≤ o)%nat → (zi < NR_ZONES)%nat → buddy_ok s →
  (∀ o', (order ≤ o' < o)%nat → free (zones s zi) o' = []) →
  match alloc_scan n s zi order o with
  | (s', Some p) => taken s s' zi p order
  | (s', None) => s' = s ∧ ∀ o', (order ≤ o' < MAX_ORDER)%nat → free (zones s zi) o' = []
  end.
Proof.
  revert o. induction n as [|n IH]; intros o Hn Ho Hzi Hok Hemp; simpl.
  { split; [done|]. intros o' Ho'. apply Hemp. lia. }
  destruct (free (zones s zi) o) as [|p l] eqn:E.
  - apply IH; try done; try lia. intros o' Ho'. destruct (decide (o' = o)) as [->|]; [done|].
    apply Hemp. lia.
  - replace o with (order + (o - order))%nat at 2 by lia. apply take_block; [done|].
    replace (order + (o - order))%nat with o by lia. split_and!; [done|lia|].
    rewrite E. apply list_elem_of_here.
Qed.

Lemma __alloc_spec s zi order :
  (zi < NR_ZONES)%nat → buddy_ok s →
  match __alloc s zi order with
  | (s', Some p) => taken s s' zi p order
  | (s', None) => s' = s ∧ ∀ o', (order ≤ o' < MAX_ORDER)%nat → free (zones s zi) o' = []
  end.
Proof. intros. apply alloc_scan_spec; try done. lia. Qed.

Lemma alloc_zones_spec zi s order :
  (zi < NR_ZONES)%nat → buddy_ok s →
  match alloc_zones zi s order with
  | (s', Some p) => ∃ zi', (zi' ≤ zi)%nat ∧ taken s s' zi' p order
  | (s', None) => s' = s ∧ ∀ zi' o', (zi' ≤ zi)%nat → (order ≤ o' < MAX_ORDER)%nat →
                                     free (zones s zi') o' = []
  end.
Proof.
  induction zi as [|zi IH]; intros Hzi Hok; simpl;
    pose proof (__alloc_spec s _ order Hzi Hok) as Hspec; destruct (__alloc s _ order) as [s1 [p|]].
  - by exists 0%nat.
  - destruct Hspec as [-> Hemp]. split; [done|]. intros zi' o' Hle Ho'.
    replace zi' with 0%nat by lia. by apply Hemp.
  - by exists (S zi).
  - destruct Hspec as [-> Hemp]. specialize (IH ltac:(lia) Hok).
    destruct (alloc_zones zi s order) as [s2 [p|]].
    + destruct IH as (zi' & ? & ?). exists zi'. split; [lia|done].
    + destruct IH as [-> Hemp']. split; [done|]. intros zi' o' Hle Ho'.
      destruct (decide (zi' = S zi)) as [->|]; [by apply Hemp|apply Hemp'; [lia|done]].
Qed.

(** Because free buddies are always merged, an aligned run of free pages of a
    zone lies in one free block. *)
Lemma free_run s zi k a :
  buddy_ok s → (zi < NR_ZONES)%nat → (k < MAX_ORDER)%nat → (bsize k | a) → u64_ok a →
  (∀ x, blk a k x → ∃ o p, fb s zi o p ∧ blk p o x) →
  ∃ o p, fb s zi o p ∧ (k ≤ o)%nat ∧ ∀ x, blk a k x → blk p o x.
Proof.
  intros [Hwf _ Hc] Hzi. revert a. induction k as [|k IH]; intros a Hk Hd Hu Hrun.
  { destruct (Hrun a ltac:(auto with olux)) as (o & p & Hf & Hx). exists o, p.
    split_and!; [done|lia|]. intros x Hx'. change (a ≤ x < a + 1) in Hx'.
    by replace x with a by lia. }
  pose proof (bsize_pos k). pose proof (bsize_S k) as HS.
  assert (bsize k | a) as Hdk by (eapply Z.divide_trans; [apply (bsize_divide k (S k)); lia|done]).
  assert (u64_ok (a + bsize k)) as Hu'.
  { destruct (Hrun (a + bsize k)) as (o & p & Hf & Hx); [unfold blk; lia|].
    destruct (wf_block s Hwf _ _ _ Hf) as ((_ & ? & ? & _) & _).
    destruct (wf_geom s Hwf). unfold u64_ok, blk, U64 in *. lia. }
  destruct (IH a ltac:(lia) Hdk Hu) as (o1 & p1 & Hf1 & Ho1 & Hin1).
  { intros x Hx. apply Hrun. unfold blk in *. lia. }
  destruct (IH (a + bsize k) ltac:(lia) (Z.divide_add_r _ _ _ Hdk (Z.divide_refl _)) Hu')
    as (o2 & p2 & Hf2 & Ho2 & Hin2).
  { intros x Hx. apply Hrun. unfold blk in *. lia. }
  destruct (wf_block s Hwf _ _ _ Hf1) as ((Hd1 & _) & _), (wf_block s Hwf _ _ _ Hf2) as ((Hd2 & _) & _).
  destruct (decide (S k ≤ o1)%nat) as [Hge|].
  { exists o1, p1. split_and!; [done..|]. apply (blk_nested p1 o1 a (S k) a); auto with olux. }
  destruct (decide (S k ≤ o2)%nat) as [Hge|].
  { exists o2, p2. split_and!; [done..|].
    apply (blk_nested p2 o2 a (S k) (a + bsize k)); auto with olux. unfold blk; lia. }
  exfalso. assert (o1 = k) as -> by lia. assert (o2 = k) as -> by lia.
  assert (p1 = a) as -> by (apply (blk_same p1 a k a); auto with olux).
  assert (p2 = a + bsize k) as -> by (apply (blk_same p2 _ k (a + bsize k)); auto with olux;
    by apply Z.divide_add_r; [|apply Z.divide_refl]).
  apply (Hc zi k (a + bsize k) Hf2 ltac:(lia)). by rewrite upper_buddy by (done || lia).
Qed.

(** Whether a page is free can be decided: the lists are finite. *)
Lemma is_free_dec s x : is_free s x ∨ ¬ is_free s x.
Proof.
  set (blocks := flat_map (λ zi, flat_map (λ o, (λ p, (o, p)) <$> free (zones s zi) o)
                                   (seq 0 MAX_ORDER)) (seq 0 NR_ZONES)).
  assert (is_free s x ↔ Exists (λ b, b.2 ≤ x < b.2 + bsize b.1) blocks) as Hiff.
  { rewrite List.Exists_exists. unfold blocks. split.
    - intros (zi & o & p & (Hzi & Ho & Hp) & Hx). exists (o, p). split; [|done].
      apply in_flat_map. exists zi. split; [apply in_seq; lia|].
      apply in_flat_map. exists o. split; [apply in_seq; lia|].
      apply list_elem_of_In, list_elem_of_fmap. eauto.
    - intros ([o p] & Hin & Hx).
      apply in_flat_map in Hin as (zi & Hzi%in_seq & Hin).
      apply in_flat_map in Hin as (o' & Ho'%in_seq & Hin).
      apply list_elem_of_In, list_elem_of_fmap in Hin as (p' & [= -> ->] & Hp').
      exists zi, o', p'. split; [split_and!; [lia|lia|done]|done]. }
  rewrite Hiff. destruct (decide (Exists (λ b : nat * Z, b.2 ≤ x < b.2 + bsize b.1) blocks)); auto.
Qed.

(** *** Changes to the descriptors of pages in use *)

(** [s'] differs from [s] only in memory contents and in descriptors of pages
    that are not free and stay unmarked as free. *)
Record quiet (s s' : pagealloc) : Prop := {
  quiet_zones : zones s' = zones s;
  quiet_base : mem_map_base_pfn s' = mem_map_base_pfn s;
  quiet_pfns : mem_map_pfns s' = mem_map_pfns s;
  quiet_map x : mem_map s' x = mem_map s x ∨
    (¬ is_free s x ∧ has (flags (mem_map s' x)) PG_BUDDY = false);
}.

Lemma quiet_geom s s' : quiet s s' → same_geom s s'.
Proof. intros [Hz ? ? _]. split_and!; [done..|]. intros zi. by rewrite Hz. Qed.

Lemma quiet_fb s s' zi o p : quiet s s' → fb s' zi o p ↔ fb s zi o p.
Proof. intros [Hz _ _ _]. unfold fb. by rewrite Hz. Qed.

Lemma quiet_free s s' x : quiet s s' → is_free s' x ↔ is_free s x.
Proof. intros Hq. unfold is_free. by setoid_rewrite (quiet_fb s s' _ _ _ Hq). Qed.

Lemma quiet_same s s' zi o p x :
  quiet s s' → fb s zi o p → blk p o x → mem_map s' x = mem_map s x.
Proof.
  intros Hq Hf Hx. destruct (quiet_map s s' Hq x) as [|[Hn _]]; [done|].
  destruct Hn. by exists zi, o, p.
Qed.

Lemma quiet_ok s s' : buddy_ok s → quiet s s' → buddy_ok s'.
Proof.
  intros [Hwf Hcnt Hc] Hq. pose proof (quiet_geom _ _ Hq) as Hg.
  pose proof (quiet_zones _ _ Hq) as Hz.
  split; [split| |].
  - eapply same_geom_geom; [done|apply Hwf].
  - intros zi o p. rewrite (quiet_fb s), (same_geom_block_in s) by done. intros Hf.
    rewrite (quiet_same s s' zi o p p) by auto with olux. by apply Hwf.
  - intros zi o p x. rewrite (quiet_fb s) by done. intros Hf Hx.
    rewrite (quiet_same s s' zi o p x) by done. by eapply wf_clear.
  - intros x. rewrite (same_geom_valid s), (quiet_fb s), (same_geom_zone s) by done.
    intros Hv Hfl. destruct (quiet_map s s' Hq x) as [E|[_ Hn]]; [|by rewrite Hn in Hfl].
    rewrite E in *. by apply Hwf.
  - intros zi1 o1 p1 zi2 o2 p2 x. rewrite !(quiet_fb s s' _ _ _ Hq). by apply (wf_disj s Hwf).
  - intros zi o. rewrite Hz. apply Hwf.
  - intros zi o. rewrite Hz. apply Hwf.
  - intros zi. rewrite Hz. apply Hcnt.
  - intros zi o p. rewrite !(quiet_fb s s' _ _ _ Hq). apply Hc.
Qed.

(** A page in use is not marked as free. *)
Lemma used_unmarked s x :
  buddy_wf s → valid s x → ¬ is_free s x → has (flags (mem_map s x)) PG_BUDDY = false.
Proof.
  intros Hwf Hv Hn. apply not_true_is_false. intros Hfl. apply Hn.
  eexists _, _, x. split; [by apply Hwf|auto with olux].
Qed.

Lemma addable_used s zi p o x :
  buddy_wf s → addable s zi p o → blk p o x →
  ¬ is_free s x ∧ valid s x ∧ clear (mem_map s x) ∧ has (flags (mem_map s x)) PG_BUDDY = false.
Proof.
  intros Hwf [_ _ (_ & ? & ? & _) Hclr Hused] Hx.
  assert (valid s x) by (unfold valid, blk in *; lia).
  split_and!; [auto..|]. apply used_unmarked; auto.
Qed.

Lemma clear_mask pg :
  clear pg →
  has (flags pg) (Z.lor PG_RESERVED PG_SLAB) = false ∧ Z.land (flags pg) PG_RESERVED = 0 ∧
  Z.land (flags pg) PG_SLAB = 0 ∧ Z.land (flags pg) PG_COMPOUND = 0.
Proof.
  unfold clear, USED_MASK, has. rewrite !Z.land_lor_distr_r.
  intros [H1 [H2 H3]%Z.lor_eq_0_iff]%Z.lor_eq_0_iff. rewrite H1, H2, H3. done.
Qed.

(** The two loops over the pages of a block. *)
Definition map_pages (s : pagealloc) (p n : Z) (f : page → page) (s' : pagealloc) : Prop :=
  zones s' = zones s ∧ mem_map_base_pfn s' = mem_map_base_pfn s ∧
  mem_map_pfns s' = mem_map_pfns s ∧ ram s' = ram s ∧
  ∀ x, mem_map s' x = if decide (p ≤ x < p + n) then f (mem_map s x) else mem_map s x.

Lemma map_pages_step s p n f pg s' :
  pg = f (mem_map s p) → 0 ≤ n →
  map_pages (set_page s p pg) (p + 1) n f s' → map_pages s p (n + 1) f s'.
Proof.
  intros -> Hn (Hz & Hb & Hp & Hr & Hm). split_and!; try done. intros x. rewrite Hm. simpl.
  destruct (decide (p = x)) as [->|].
  - rewrite fn_lookup_insert. rewrite decide_False, decide_True by lia. done.
  - rewrite fn_lookup_insert_ne by done. repeat destruct decide; lia || done.
Qed.

Lemma take_pages_spec n s p :
  (∀ x, p ≤ x < p + Z.of_nat n → clear (mem_map s x)) →
  ∃ s', take_pages n s p = Ok s' ∧
        map_pages s p (Z.of_nat n) (λ pg, set_refcount pg 1) s'.
Proof.
  revert s p. induction n as [|n IH]; intros s p Hclr.
  { exists s. split; [done|]. split_and!; try done. intros x. rewrite decide_False; [done|lia]. }
  cbn [take_pages]. assert (has (flags (mem_map s p)) (Z.lor PG_RESERVED PG_SLAB) = false) as ->.
  { apply clear_mask, Hclr. lia. }
  destruct (IH (set_page s p (set_refcount (mem_map s p) 1)) (p + 1)) as (s' & Hrun & Hs').
  { intros x Hx. simpl. rewrite fn_lookup_insert_ne by lia. apply Hclr. lia. }
  exists s'. split; [done|]. rewrite Nat2Z.inj_succ, <-Z.add_1_r.
  eapply map_pages_step; [reflexivity|lia|done].
Qed.

Lemma drop_pages_spec n s p :
  map_pages s p (Z.of_nat n) (λ pg, set_refcount pg 0) (drop_pages n s p).
Proof.
  revert s p. induction n as [|n IH]; intros s p.
  { split_and!; try done. intros x. rewrite decide_False; [done|lia]. }
  rewrite Nat2Z.inj_succ, <-Z.add_1_r. eapply map_pages_step; [reflexivity|lia|apply IH].
Qed.

Lemma map_pages_quiet s zi p o f s' :
  buddy_wf s → addable s zi p o → (∀ pg, flags (f pg) = flags pg) →
  map_pages s p (bsize o) f s' → quiet s s' ∧ addable s' zi p o.
Proof.
  intros Hwf Ha Hf (Hz & Hb & Hp & _ & Hm).
  assert (quiet s s') as Hq.
  { split; [done..|]. intros x. rewrite Hm. destruct decide as [Hx|]; [right|by left].
    destruct (addable_used s zi p o x Hwf Ha Hx) as (? & _ & _ & ?). by rewrite Hf. }
  split; [done|]. destruct Ha as [H1 H2 H3 H4 H5]. split; [done..| | |].
  - apply (same_geom_block_in s); [by apply quiet_geom|done].
  - intros x Hx. rewrite Hm, decide_True by done. unfold clear. rewrite Hf. by apply H4.
  - intros x Hx. rewrite (quiet_free s) by done. by apply H5.
Qed.

(** ** What the allocator promises *)

Lemma wrap64_sum3 a b c : 0 ⊕ a ⊕ b ⊕ c = wrap64 (a + b + c).
Proof. unfold add64 at 3. by rewrite !wrap64_add_wrap. Qed.

Lemma wrap64_wrap3 a b c : wrap64 (wrap64 a + wrap64 b + wrap64 c) = wrap64 (a + b + c).
Proof.
  unfold wrap64. rewrite Zplus_mod_idemp_r.
  by rewrite (Zplus_mod (a `mod` U64 + b `mod` U64) c), <-(Zplus_mod a b), <-Zplus_mod.
Qed.

(** The total moves by what one zone's counter moves by. *)
Lemma nr_free_move s s' zi n :
  (zi < NR_ZONES)%nat →
  (∀ zi', (zi' < NR_ZONES)%nat →
     z_free_pages (zones s' zi') = z_free_pages (zones s zi') ⊕ delta zi zi' n) →
  nr_free_pages s' = nr_free_pages s ⊕ n.
Proof.
  intros Hzi Hz. unfold nr_free_pages. rewrite !wrap64_sum3, wrap64_add_wrap.
  rewrite !Hz by (unfold NR_ZONES; lia). unfold add64. rewrite wrap64_wrap3. unfold delta.
  f_equal. zones3 zi; repeat destruct decide; lia.
Qed.

(** The bytes of a block in the linear map. *)
Definition block_bytes (p : Z) (o : nat) (a : Z) : Prop :=
  page_address p ≤ a < page_address p + PAGE_SIZE * bsize o.

Lemma page_address_eq p : 0 ≤ p < 2 ^ 26 → page_address p = PAGE_OFFSET + p * PAGE_SIZE.
Proof.
  intros Hp. unfold page_address, phys_to_virt, page_to_phys, PAGE_SHIFT, PAGE_OFFSET, PAGE_SIZE.
  rewrite Z.shiftl_mul_pow2 by lia. rewrite wrap64_small by (unfold U64; lia).
  rewrite add64_small by (unfold U64; lia). lia.
Qed.

(** The result of a successful [alloc_pages]. *)
Record allocated (s s' : pagealloc) (gfp p : Z) (o : nat) : Prop := {
  al_ok : buddy_ok s';
  al_geom : same_geom s s';
  al_order : (o < MAX_ORDER)%nat;
  al_aligned : (bsize o | p);
  al_block x : blk p o x →
    is_free s x ∧ valid s x ∧ x < zone_end (gfp_zone gfp) ∧
    clear (mem_map s' x) ∧ refcount (mem_map s' x) = 1;
  al_head : order (mem_map s' p) = o;
  al_set x : is_free s' x ↔ is_free s x ∧ ¬ blk p o x;
  al_kept x : ¬ is_free s x → mem_map s' x = mem_map s x;
  al_count : nr_free_pages s' = nr_free_pages s ⊖ bsize o;
  al_zero a : has gfp GFP_ZERO = true → block_bytes p o a → ram s' a = 0;
  al_ram a : has gfp GFP_ZERO = false ∨ ¬ block_bytes p o a → ram s' a = ram s a;
}.

(** No aligned run of [2^o] free pages in the zones a request may use. *)
Definition no_run (s : pagealloc) (gfp : Z) (o : nat) : Prop :=
  ∀ a, (bsize o | a) → ¬ (∀ x, blk a o x → is_free s x ∧ x < zone_end (gfp_zone gfp)).

Lemma gfp_zone_lt gfp : (gfp_zone gfp < NR_ZONES)%nat.
Proof. unfold gfp_zone, NR_ZONES, ZONE_DMA, ZONE_DMA32, ZONE_NORMAL. repeat case_test; lia. Qed.

Lemma zone_end_mono zi zi' : (zi ≤ zi')%nat → (zi' < NR_ZONES)%nat → zone_end zi ≤ zone_end zi'.
Proof. intros Hle Hlt. zones3 zi'; zones3 zi; simpl; unfold U64; lia. Qed.

(** A free page below the end of zone [top] is in a zone up to [top]. *)
Lemma free_zone s zi o p x top :
  buddy_wf s → fb s zi o p → blk p o x → (top < NR_ZONES)%nat → x < zone_end top → (zi ≤ top)%nat.
Proof.
  intros Hwf Hf Hx Htop Hlt. pose proof Hf as (Hzi & _ & _).
  destruct (wf_block s Hwf _ _ _ Hf) as ((_ & _ & _ & Hs & _) & _). unfold blk in Hx.
  zones3 zi; zones3 top; simpl in *; lia.
Qed.

(** An aligned run of free pages lies in one zone. *)
Lemma run_zone s o a :
  buddy_wf s → (o < MAX_ORDER)%nat → (bsize o | a) → (∀ x, blk a o x → is_free s x) →
  (pfn_zone s a < NR_ZONES)%nat ∧ u64_ok a ∧
  ∀ x, blk a o x → ∃ o' p, fb s (pfn_zone s a) o' p ∧ blk p o' x.
Proof.
  intros Hwf Ho Hd Hrun. pose proof (wf_geom s Hwf) as Hg.
  assert (∀ x, is_free s x → 0 ≤ x < 2 ^ 26) as Hrange.
  { intros x (zi & o' & p & Hf & Hx). destruct (wf_block s Hwf _ _ _ Hf) as ((_ & ? & ? & _) & _).
    destruct Hg. unfold blk in Hx. lia. }
  pose proof (Hrange a (Hrun a ltac:(auto with olux))) as Ha.
  destruct (pfn_zone_in s a Hg Ha) as [Hz Hin].
  split_and!; [done|unfold u64_ok, U64; lia|]. intros x Hx.
  pose proof (Hrange x (Hrun x Hx)) as Hxr.
  destruct (Hrun x Hx) as (zi & o' & p & Hf & Hp). exists o', p. split; [|done].
  assert (pfn_zone s a = zi) as ->; [|done]. pose proof Hf as (Hzi & _ & _).
  destruct (wf_block s Hwf _ _ _ Hf) as ((_ & _ & _ & Hs & He) & _). unfold blk in *.
  destruct (decide (a < zone_start zi)) as [Hlt|].
  - pose proof (divide_gap (bsize o) a _ (bsize_pos o) Hd (zone_aligned zi o Hzi Ho) Hlt). lia.
  - by apply pfn_zone_unique; [..|lia].
Qed.

Lemma alloc_none s gfp o :
  buddy_ok s → (o < MAX_ORDER)%nat →
  (∀ zi' o', (zi' ≤ gfp_zone gfp)%nat → (o ≤ o' < MAX_ORDER)%nat → free (zones s zi') o' = []) →
  no_run s gfp o.
Proof.
  intros Hok Ho Hemp a Hd Hrun. pose proof (ok_wf s Hok) as Hwf.
  destruct (run_zone s o a Hwf Ho Hd) as (Hz & Hu & Hrun'); [intros x Hx; by apply Hrun|].
  destruct (free_run s _ o a Hok Hz Ho Hd Hu Hrun') as (o' & p & Hf & Hle & Hin).
  assert (blk a o a) as Ha by auto with olux.
  pose proof (free_zone s _ o' p a (gfp_zone gfp) Hwf Hf (Hin a Ha) (gfp_zone_lt gfp)
    (proj2 (Hrun a Ha))) as Hle'.
  destruct Hf as (_ & Ho' & Hp). rewrite (Hemp _ o' Hle') in Hp by lia.
  by apply not_elem_of_nil in Hp.
Qed.

Lemma sub64_add x n : x ⊖ n = x ⊕ - n.
Proof. unfold sub64, add64. by f_equal. Qed.

Lemma set_order_quiet s zi p o n :
  buddy_wf s → addable s zi p o → quiet s (set_page s p (set_order (mem_map s p) n)).
Proof.
  intros Hwf Ha. destruct (addable_used s zi p o p Hwf Ha ltac:(auto with olux)) as (? & _ & _ & ?).
  split; [done..|]. intros x. simpl. destruct (decide (p = x)) as [<-|];
    [rewrite fn_lookup_insert; by right|rewrite fn_lookup_insert_ne by done; by left].
Qed.

Lemma quiet_refl s : quiet s s.
Proof. split; try done. intros x. by left. Qed.

Lemma quiet_trans s1 s2 s3 : quiet s1 s2 → quiet s2 s3 → quiet s1 s3.
Proof.
  intros H12 H23. pose proof (quiet_free s1 s2) as Hf.
  destruct H12 as [Hz Hb Hp Hm], H23 as [Hz' Hb' Hp' Hm'].
  split; [congruence..|]. intros x. destruct (Hm' x) as [->|[Hn ?]]; [apply Hm|right].
  split; [|done]. rewrite <-Hf; [done|by split].
Qed.

Lemma quiet_set_ram s s' m : quiet s s' → quiet s (set_ram s' m).
Proof. intros [? ? ? ?]. by split. Qed.

Lemma addable_set_ram s zi p o m : addable s zi p o → addable (set_ram s m) zi p o.
Proof. intros [? ? ? ? ?]. by split. Qed.

(** The pages of the block taken from the lists become the result. *)
Lemma finish_alloc s s1 s2 zi p o gfp m :
  taken s s1 zi p o → (zi ≤ gfp_zone gfp)%nat →
  map_pages s1 p (bsize o) (λ pg, set_refcount pg 1) s2 →
  (∀ a, has gfp GFP_ZERO = true → block_bytes p o a → m a = 0) →
  (∀ a, has gfp GFP_ZERO = false ∨ ¬ block_bytes p o a → m a = ram s a) →
  allocated s (set_ram (set_page s2 p (set_order (mem_map s2 p) o)) m) gfp p o.
Proof.
  intros [Hok1 Hg1 Hr1 Ha1 Hset Hkept Hcnt Hman] Hzi Hmap Hzero Hram.
  pose proof (ok_wf s1 Hok1) as Hwf1.
  destruct (map_pages_quiet s1 zi p o (λ pg, set_refcount pg 1) s2 Hwf1 Ha1 ltac:(done) Hmap) as [Hq Ha2].
  pose proof (quiet_ok s1 s2 Hok1 Hq) as Hok2.
  pose proof (set_order_quiet s2 zi p o o (ok_wf _ Hok2) Ha2) as Hq3.
  set (s3 := set_ram _ m). assert (quiet s1 s3) as Hq'.
  { apply quiet_set_ram. by apply (quiet_trans s1 s2). }
  assert (∀ x, blk p o x → valid s x ∧ x < zone_end (gfp_zone gfp)) as Hvalid.
  { intros x Hx. pose proof (add_in _ _ _ _ Ha1) as Hin.
    rewrite (same_geom_block_in s) in Hin by done. destruct Hin as (_ & ? & ? & ? & ?).
    pose proof (zone_end_mono _ _ Hzi (gfp_zone_lt gfp)). unfold valid, blk in *. lia. }
  destruct Hmap as (Hz2 & _ & _ & _ & Hm2).
  split; try done.
  - by apply (quiet_ok s1).
  - transitivity s1; [done|by apply quiet_geom].
  - apply Ha1.
  - apply Ha1.
  - intros x Hx. destruct (Hvalid x Hx) as [Hv Hlt].
    assert (flags (mem_map s3 x) = flags (mem_map s1 x) ∧ refcount (mem_map s3 x) = 1) as [Hf Hr].
    { unfold s3. simpl. destruct (decide (p = x)) as [<-|];
        [rewrite fn_lookup_insert|rewrite fn_lookup_insert_ne by done];
        by rewrite Hm2, decide_True. }
    split_and!; [apply Hset; by right|done|done| |done].
    unfold clear. rewrite Hf. by apply Ha1.
  - unfold s3. simpl. by rewrite fn_lookup_insert.
  - intros x. rewrite (quiet_free s1 s3), <-Hset by done.
    pose proof (add_used _ _ _ _ Ha1 x). tauto.
  - intros x Hx. assert (¬ blk p o x) as Hn by (intros Hx'; apply Hx, Hset; by right).
    unfold s3. simpl. rewrite fn_lookup_insert_ne by (intros ->; auto with olux).
    rewrite Hm2, decide_False by done. apply Hkept; tauto.
  - rewrite sub64_add. apply (nr_free_move s s3 zi); [apply Ha1|]. intros zi' Hzi'.
    rewrite (quiet_zones _ _ Hq'), Hcnt, sub64_add by done. unfold delta. by destruct decide.
Qed.

Lemma alloc_pages_spec s gfp o :
  buddy_ok s →
  match alloc_pages s gfp o with
  | Ok (s', Some p) => allocated s s' gfp p o
  | Ok (s', None) => s' = s ∧ ((MAX_ORDER ≤ o)%nat ∨ no_run s gfp o)
  | Panic => False
  end.
Proof.
  intros Hok. unfold alloc_pages. destruct (MAX_ORDER <=? o)%nat eqn:Ho.
  { split; [done|left]. by apply Nat.leb_le. }
  apply Nat.leb_gt in Ho.
  pose proof (alloc_zones_spec (gfp_zone gfp) s o (gfp_zone_lt gfp) Hok) as Hspec.
  destruct (alloc_zones (gfp_zone gfp) s o) as [s1 [p|]].
  2: { destruct Hspec as [-> Hemp]. split; [done|right]. by apply alloc_none. }
  destruct Hspec as (zi & Hzi & Ht). pose proof (bsize_pos o) as Hpos.
  destruct (take_pages_spec (Z.to_nat (bsize o)) s1 p) as (s2 & -> & Hmap).
  { intros x Hx. apply (add_clear _ _ _ _ (taken_addable _ _ _ _ _ Ht)). unfold blk. lia. }
  rewrite Z2Nat.id in Hmap by lia. simpl.
  pose proof Hmap as (_ & _ & _ & Hr2 & _). pose proof (taken_ram _ _ _ _ _ Ht) as Hr1.
  destruct (has gfp GFP_ZERO) eqn:Hgz.
  - apply (finish_alloc s s1 s2 zi); [done..| |];
      intros a; rewrite Hgz; (intros Ha || intros _ Ha);
      rewrite memset_fill by (unfold PAGE_SIZE; lia); unfold mem_fill, block_bytes in *;
      case_test; zsplit; try done; try lia; rewrite ?Hr2, ?Hr1; destruct Ha; done || lia.
  - assert (set_page s2 p (set_order (mem_map s2 p) o) =
      set_ram (set_page s2 p (set_order (mem_map s2 p) o)) (ram s2)) as -> by done.
    apply (finish_alloc s s1 s2 zi); [done..| |]; intros a; rewrite Hgz; [done|].
    intros _. by rewrite Hr2, Hr1.
Qed.

(** The block [p] of order [o] is in use and its caller may free it: aligned,
    inside memory and one zone, no page of it free, reserved, slab or compound. *)
Definition in_use (s : pagealloc) (p : Z) (o : nat) : Prop := addable s (pfn_zone s p) p o.

(** A block just allocated may be freed. *)
Lemma allocated_in_use s s' gfp p o : buddy_ok s → allocated s s' gfp p o → in_use s' p o.
Proof.
  intros Hok [Hok' Hg Ho Hd Hblk _ Hset _ _ _ _]. pose proof (bsize_pos o).
  pose proof (ok_wf s Hok) as Hwf.
  assert (∀ x, blk p o x → is_free s x) as Hfree by (intros x Hx; by apply Hblk).
  destruct (run_zone s o p Hwf Ho Hd Hfree) as (Hz & Hu & Hrun).
  unfold in_use. rewrite (same_geom_zone s) by done. split; [done|done| | |].
  - apply (same_geom_block_in s); [done|].
    destruct (Hblk p ltac:(auto with olux)) as (_ & [? _] & _).
    destruct (Hblk (p + bsize o - 1) ltac:(unfold blk; lia)) as (_ & [_ ?] & _).
    destruct (Hrun p ltac:(auto with olux)) as (o1 & p1 & Hf1 & Hx1).
    destruct (Hrun (p + bsize o - 1) ltac:(unfold blk; lia)) as (o2 & p2 & Hf2 & Hx2).
    destruct (wf_block s Hwf _ _ _ Hf1) as ((_ & _ & _ & ? & _) & _).
    destruct (wf_block s Hwf _ _ _ Hf2) as ((_ & _ & _ & _ & ?) & _).
    unfold blk in *. split; [done|]. lia.
  - intros x Hx. by apply Hblk.
  - intros x Hx. rewrite Hset. tauto.
Qed.

(** The result of a successful [free_pages]. *)
Record released (s s' : pagealloc) (p : Z) (o : nat) : Prop := {
  rel_ok : buddy_ok s';
  rel_geom : same_geom s s';
  rel_set x : is_free s' x ↔ is_free s x ∨ blk p o x;
  rel_kept x : ¬ is_free s x → ¬ blk p o x → mem_map s' x = mem_map s x;
  rel_count : nr_free_pages s' = nr_free_pages s ⊕ bsize o;
  rel_ram a : ¬ block_bytes p o a → ram s' a = ram s a;
}.

Lemma quiet_count s s' : quiet s s' → nr_free_pages s' = nr_free_pages s.
Proof. intros Hq. unfold nr_free_pages. by rewrite (quiet_zones s s' Hq). Qed.

Lemma in_use_unmarked s p o :
  buddy_wf s → in_use s p o → has (flags (mem_map s p)) (Z.lor PG_BUDDY PG_RESERVED) = false.
Proof.
  intros Hwf Ha.
  destruct (addable_used s _ p o p Hwf Ha ltac:(auto with olux)) as (_ & _ & Hc & Hb).
  apply clear_mask in Hc as (_ & Hc & _).
  unfold has in *. apply negb_false_iff, Z.eqb_eq in Hb. apply negb_false_iff, Z.eqb_eq.
  by rewrite Z.land_lor_distr_r, Hb, Hc.
Qed.

(** Freeing after changes that only touch pages in use. *)
Lemma __free_released s s1 p o :
  buddy_ok s → quiet s s1 → in_use s1 p o →
  (∀ x, ¬ blk p o x → mem_map s1 x = mem_map s x) →
  (∀ a, ¬ block_bytes p o a → ram s1 a = ram s a) →
  released s (__free s1 p o) p o.
Proof.
  intros Hok Hq Ha Hm Hr.
  destruct (__free_spec s1 p o (quiet_ok s s1 Hok Hq) Ha) as [Hok' Hg Hr' Hset Hk Hcnt _].
  split.
  - done.
  - transitivity s1; [by apply quiet_geom|done].
  - intros x. rewrite Hset, (quiet_free s) by done. done.
  - intros x Hx Hn. rewrite Hk; [by apply Hm|by rewrite (quiet_free s)|done].
  - rewrite (nr_free_move s1 _ (pfn_zone s1 p) (bsize o) (add_zone _ _ _ _ Ha) Hcnt).
    by rewrite (quiet_count s s1).
  - intros a Ha'. rewrite Hr'. by apply Hr.
Qed.

Lemma free_pages_spec dbg s p o :
  buddy_ok s → in_use s p o →
  ∃ s', free_pages dbg s (Some p) o = Ok s' ∧ released s s' p o.
Proof.
  intros Hok Ha. pose proof (ok_wf s Hok) as Hwf. unfold free_pages.
  rewrite (in_use_unmarked s p o) by done. eexists. split; [done|].
  pose proof (bsize_pos o). pose proof (drop_pages_spec (Z.to_nat (bsize o)) s p) as Hmap.
  rewrite Z2Nat.id in Hmap by lia. set (s1 := drop_pages (Z.to_nat (bsize o)) s p) in *.
  destruct (map_pages_quiet s _ p o (λ pg, set_refcount pg 0) s1 Hwf Ha ltac:(done) Hmap)
    as [Hq Ha1].
  destruct Hmap as (_ & _ & _ & Hr1 & Hm1).
  assert (∀ x, ¬ blk p o x → mem_map s1 x = mem_map s x) as Hout
    by (intros x Hx; by rewrite Hm1, decide_False).
  destruct dbg.
  - apply __free_released; [done|by apply quiet_set_ram| |done|].
    + unfold in_use. rewrite (same_geom_zone s) by (apply quiet_geom; by apply quiet_set_ram).
      by apply addable_set_ram.
    + intros a Hna. simpl. rewrite memset_fill by (unfold PAGE_SIZE; lia).
      unfold mem_fill, block_bytes in *. rewrite Hr1. case_test; [lia|done].
  - apply __free_released; [done..| |done|by rewrite Hr1].
    unfold in_use. by rewrite (same_geom_zone s) by (by apply quiet_geom).
Qed.

(** Reference counts. *)
Lemma page_put_spec dbg s p :
  buddy_ok s → in_use s p 0 → 1 ≤ refcount (mem_map s p) < 2 ^ 31 →
  ∃ s', page_put dbg s p = Ok (s', refcount (mem_map s p) =? 1) ∧
    if refcount (mem_map s p) =? 1 then released s s' p 0
    else s' = set_page s p (set_refcount (mem_map s p) (refcount (mem_map s p) - 1)).
Proof.
  intros Hok Ha Hr. unfold page_put.
  set (r := refcount (mem_map s p)) in *.
  assert (to_s32 (r - 1) = r - 1) as ->.
  { unfold to_s32, wrap32. rewrite Z.mod_small by (unfold U32; lia). case_test; lia. }
  destruct (r - 1 <? 0) eqn:?; zbool; [lia|].
  destruct (decide (r = 1)) as [E|]; [|exists (set_page s p (set_refcount (mem_map s p) (r - 1)));
    by replace (r - 1 =? 0) with false by lia; replace (r =? 1) with false by lia].
  replace (r - 1 =? 0) with true by lia. replace (r =? 1) with true by lia. cbv zeta.
  set (s1 := set_page (set_page s p _) p _).
  assert (map_pages s p (bsize 0) (λ pg, set_refcount pg 1) s1) as Hmap.
  { split_and!; try done. intros x. unfold s1. simpl. change (bsize 0) with 1.
    destruct (decide (p = x)) as [<-|].
    - rewrite !fn_lookup_insert, decide_True by lia. done.
    - rewrite !fn_lookup_insert_ne, decide_False by lia. done. }
  pose proof (ok_wf s Hok) as Hwf.
  destruct (map_pages_quiet s _ p 0 (λ pg, set_refcount pg 1) s1 Hwf Ha ltac:(done) Hmap) as [Hq Ha1].
  destruct (free_pages_spec dbg s1 p 0 (quiet_ok s s1 Hok Hq)) as (s' & Hrun & Hrel).
  { unfold in_use. by rewrite (same_geom_zone s) by (by apply quiet_geom). }
  exists s'. split; [by rewrite Hrun|]. destruct Hrel as [H1 H2 H3 H4 H5 H6].
  destruct Hmap as (_ & _ & _ & Hr1 & Hm1). split.
  - done.
  - transitivity s1; [by apply quiet_geom|done].
  - intros x. rewrite H3, (quiet_free s) by done. done.
  - intros x Hx Hn. rewrite H4, Hm1, decide_False; [done|done|by rewrite (quiet_free s)|done].
  - by rewrite H5, (quiet_count s s1).
  - intros a Hn. by rewrite H6, Hr1.
Qed.
