(* ===== verification/BuddyInit.v ===== *)
(** * The page allocator from boot: [page_alloc_init] and the contract

    [page_alloc_init] takes the RAM map of memblock and hands every page that
    is not reserved to the buddy allocator.  The first part proves that it
    establishes the invariant of Buddy with exactly those pages free; the
    second states what [alloc_pages], [free_pages] and [page_put] promise. *)

From stdpp Require Import functions.
From S2P Require Import Prelude CString DList Memblock Buddy.

(** ** The loops of [page_alloc_init] *)

Section Init.

Variable mb : memblock.
Variable m0 : mem.
Hypothesis Hres : regions_ok (reserved mb).

Definition resv (x : Z) : Prop := covers (reserved mb) (x * PAGE_SIZE).

(** After the pages [P] have been visited. *)
Record init_inv (start pfns : Z) (P : Z → Prop) (s : pagealloc) : Prop := {
  inv_ok : buddy_ok s;
  inv_base : mem_map_base_pfn s = start;
  inv_pfns : mem_map_pfns s = pfns;
  inv_free x : is_free s x ↔ P x ∧ ¬ resv x;
  inv_ram : ram s = m0;
  inv_managed zi : (zi < NR_ZONES)%nat → managed_pages (zones s zi) = z_free_pages (zones s zi);
}.

Lemma add_managed_ok s zi :
  buddy_ok s →
  buddy_ok (add_managed s zi) ∧ (∀ x, is_free (add_managed s zi) x ↔ is_free s x) ∧
  same_geom s (add_managed s zi).
Proof.
  intros [Hwf Hcnt Hc].
  assert (∀ zi' o, free (zones (add_managed s zi) zi') o = free (zones s zi') o) as Hfree
    by (intros; unfold add_managed; by upd).
  assert (∀ zi' o p, fb (add_managed s zi) zi' o p ↔ fb s zi' o p) as Hfb
    by (intros; unfold fb; by rewrite Hfree).
  assert (same_geom s (add_managed s zi)) as Hg.
  { split_and!; try done. intros zi'. unfold add_managed. by upd. }
  split_and!; [|intros x; unfold is_free; by setoid_rewrite Hfb|done].
  split; [split| |].
  - eapply same_geom_geom; [done|apply Hwf].
  - intros zi' o p. rewrite Hfb. apply Hwf.
  - intros zi' o p x. rewrite Hfb. apply Hwf.
  - intros x. rewrite Hfb, (same_geom_zone s) by done. apply Hwf.
  - intros zi1 o1 p1 zi2 o2 p2 x. rewrite !Hfb. by apply (wf_disj s Hwf).
  - intros zi' o. rewrite Hfree. apply Hwf.
  - intros zi' o Hzi' Ho. rewrite Hfree, <-(wf_nr s Hwf) by done. unfold add_managed. by upd.
  - intros zi' Hzi'. specialize (Hcnt zi' Hzi'). unfold add_managed. by upd.
  - intros zi' o p. rewrite !Hfb. apply Hc.
Qed.

Lemma pfn_of_page x : 0 ≤ x → phys_to_page (x * PAGE_SIZE) = x.
Proof.
  intros. unfold phys_to_page, PAGE_SHIFT, PAGE_SIZE. rewrite Z.shiftr_div_pow2 by lia.
  change (2 ^ 12) with 4096. by rewrite Z.div_mul.
Qed.

(** Visiting one page of RAM. *)
Lemma init_page_inv start pfns P s x :
  init_inv start pfns P s → start ≤ x < start + pfns → ¬ P x →
  init_inv start pfns (λ y, P y ∨ y = x) (init_page mb s (x * PAGE_SIZE)).
Proof.
  intros [Hok Hb Hp Hfree Hram Hman] Hx HPx.
  pose proof (wf_geom s (ok_wf s Hok)) as [_ _ ? ? ?].
  assert (u64_ok (x * PAGE_SIZE)) as Hu by (unfold u64_ok, PAGE_SIZE, U64; lia).
  pose proof (is_reserved_iff mb (x * PAGE_SIZE) Hres Hu) as Hr. fold (resv x) in Hr.
  unfold init_page. destruct (memblock_is_reserved mb (x * PAGE_SIZE)).
  { split; try done. intros y. rewrite Hfree. split; [tauto|].
    intros [[?| ->] ?]; [done|tauto]. }
  assert (¬ resv x) as Hnr by (intros ?%Hr; done). clear Hr.
  change (Z.shiftr (x * PAGE_SIZE) PAGE_SHIFT) with (phys_to_page (x * PAGE_SIZE)).
  rewrite pfn_of_page by lia.
  set (s1 := set_page s x (set_flags (mem_map s x) 0)).
  assert (¬ is_free s x) as Hnf by (rewrite Hfree; tauto).
  assert (quiet s s1) as Hq.
  { split; [done..|]. intros y. unfold s1. simpl. destruct (decide (x = y)) as [<-|].
    - rewrite fn_lookup_insert. by right.
    - rewrite fn_lookup_insert_ne by done. by left. }
  pose proof (quiet_ok s s1 Hok Hq) as Hok1. set (zi := pfn_zone s1 x).
  destruct (add_managed_ok s1 zi Hok1) as (Hok2 & Hf2 & Hg2). set (s2 := add_managed s1 zi) in *.
  assert (pfn_zone s2 x = zi) as Hzi by (by apply same_geom_zone).
  assert (geom s1) as Hg1 by apply Hok1.
  destruct (pfn_zone_in s1 x Hg1 ltac:(lia)) as [Hz Hin]. fold zi in Hz, Hin.
  destruct (__free_spec s2 x 0 Hok2) as [Hok3 Hg3 Hram3 Hset _ Hcnt Hman3].
  { rewrite Hzi. change (bsize 0) with 1 in *. split; [done|unfold MAX_ORDER; lia|..].
    - apply (same_geom_block_in s1); [done|]. change (bsize 0) with 1.
      split; [apply Z.divide_1_l|]. change (bsize 0) with 1. simpl. lia.
    - intros y Hy. change (x ≤ y < x + 1) in Hy. replace y with x by lia.
      unfold s2, s1, add_managed, set_zone. simpl. by rewrite fn_lookup_insert.
    - intros y Hy. change (x ≤ y < x + 1) in Hy. replace y with x by lia.
      by rewrite Hf2, (quiet_free s). }
  split.
  - done.
  - rewrite (proj1 Hg3). done.
  - rewrite (proj1 (proj2 Hg3)). done.
  - intros y. rewrite Hset, Hf2, (quiet_free s), Hfree by done. change (blk x 0 y) with (x ≤ y < x + 1).
    split; [intros [?|?]; [tauto|replace y with x by lia; tauto]|].
    intros [[?| ->] ?]; [by left|right; lia].
  - by rewrite Hram3.
  - intros zi' Hzi'. rewrite Hman3, Hcnt by done. rewrite Hzi.
    specialize (Hman zi' Hzi'). unfold s2, add_managed, s1, delta. upd.
    + rewrite decide_True by done. by rewrite Hman.
    + rewrite decide_False by congruence. rewrite Hman.
      rewrite (ok_counted s Hok) by done. rewrite wrap64_add_wrap. f_equal. lia.
Qed.

Lemma init_inv_ext start pfns P Q s :
  (∀ x, P x ↔ Q x) → init_inv start pfns P s → init_inv start pfns Q s.
Proof. intros HPQ [? ? ? Hf ? ?]. split; try done. intros x. by rewrite Hf, HPQ. Qed.

Lemma init_pages_inv fuel start pfns P s x y :
  init_inv start pfns P s → start ≤ x → y ≤ start + pfns → (Z.to_nat (y - x) < fuel)%nat →
  (∀ z, x ≤ z < y → ¬ P z) →
  init_inv start pfns (λ z, P z ∨ x ≤ z < y) (init_pages fuel mb s (x * PAGE_SIZE) (y * PAGE_SIZE)).
Proof.
  revert P s x. induction fuel as [|fuel IH]; intros P s x Hinv Hx Hy Hf HP; [lia|].
  pose proof (wf_geom s (ok_wf s (inv_ok _ _ _ _ Hinv))) as [_ _ ? ? ?].
  rewrite (inv_base _ _ _ _ Hinv), (inv_pfns _ _ _ _ Hinv) in *. cbn [init_pages].
  destruct (x * PAGE_SIZE <? y * PAGE_SIZE) eqn:Hlt; zbool.
  - assert (x < y) by (unfold PAGE_SIZE in *; lia).
    rewrite add64_small by (unfold PAGE_SIZE, U64; lia).
    replace (x * PAGE_SIZE + PAGE_SIZE) with ((x + 1) * PAGE_SIZE) by lia.
    eapply init_inv_ext; [|apply IH; [apply init_page_inv; [done|lia|apply HP; lia]|lia..|]].
    + intros z. simpl. split; [intros [[?| ->]|?]; [by left|right; lia|right; lia]|].
      intros [?|?]; [by left; left|]. destruct (decide (z = x)); [left; by right|right; lia].
    + simpl. intros z Hz [?| ->]; [|lia]. by apply (HP z); [lia|].
  - eapply init_inv_ext; [|done]. intros z. unfold PAGE_SIZE in *. split; [by left|].
    intros [?|?]; [done|lia].
Qed.

Definition page_region (r : memblock_region) : Prop :=
  (PAGE_SIZE | r_base r) ∧ (PAGE_SIZE | r_size r).

Lemma fold_banks_inv start pfns l P s :
  Forall region_ok l → Forall page_region l → separated l →
  (∀ r, r ∈ l → start * PAGE_SIZE ≤ r_base r ∧
                r_base r + r_size r ≤ (start + pfns) * PAGE_SIZE) →
  (∀ x, P x → ¬ covers l (x * PAGE_SIZE)) →
  init_inv start pfns P s →
  init_inv start pfns (λ x, P x ∨ covers l (x * PAGE_SIZE)) (fold_left (init_bank mb) l s).
Proof.
  intros Hok. revert P s. induction Hok as [|r l Hr Hok IH]; intros P s Hpg Hsep Hin HP Hinv; simpl.
  { eapply init_inv_ext; [|done]. intros x. pose proof (covers_nil (x * PAGE_SIZE)). tauto. }
  apply Forall_cons in Hpg as [[[b Hb] [n Hn]] Hpg]. inversion Hsep as [|?? Hg Hsep']; subst.
  pose proof Hr as (Hr0 & Hr1 & Hr2). pose proof (Hin r ltac:(apply list_elem_of_here)) as Hrin.
  assert (∀ x, b ≤ x < b + n ↔ r_base r ≤ x * PAGE_SIZE < r_base r + r_size r) as Hpages
    by (intros; unfold PAGE_SIZE in *; lia).
  eapply init_inv_ext; [|apply (IH (λ x, P x ∨ b ≤ x < b + n))]; try done.
  - intros x. simpl. rewrite covers_cons, Hpages. tauto.
  - intros r' Hr'. apply Hin. by apply list_elem_of_further.
  - intros x [Hx|Hx%Hpages].
    + intros Hc. apply (HP x Hx). apply covers_cons. by right.
    + intros (r' & Hr' & Hx'). rewrite Forall_forall in Hg. pose proof (Hg r' Hr'). lia.
  - unfold init_bank. rewrite r_end_ok, Hb, Hn by done.
    replace (b * PAGE_SIZE + n * PAGE_SIZE) with ((b + n) * PAGE_SIZE) by lia.
    apply init_pages_inv; [done|unfold PAGE_SIZE in *; lia..| |].
    + rewrite Z.div_mul by done. lia.
    + intros z Hz HPz. apply (HP z HPz), covers_cons. left. by apply Hpages.
Qed.

End Init.

(** The empty allocator. *)
Lemma empty_inv mb start pfns m :
  0 ≤ start → 0 ≤ pfns → start + pfns ≤ 2 ^ 26 →
  init_inv mb m start pfns (λ _, False)
    (PageAlloc zones0 (λ _, Page PG_RESERVED 0 0 0 0 0) start pfns m).
Proof.
  intros Hs Hp Htop. set (s := PageAlloc _ _ _ _ _).
  assert (∀ zi o p, ¬ fb s zi o p) as Hnone
    by (intros zi o p (_ & _ & Hin); by apply not_elem_of_nil in Hin).
  split; [split; [split| |]|done|done| |done|done].
  - by split.
  - intros zi o p Hf. by destruct (Hnone zi o p).
  - intros zi o p x Hf. by destruct (Hnone zi o p).
  - done.
  - intros zi o p zi' o' p' x Hf. by destruct (Hnone zi o p).
  - intros. apply NoDup_nil_2.
  - done.
  - intros zi Hzi. by zones3 zi.
  - intros zi o p Hf. by destruct (Hnone zi o p).
  - intros x. split; [|tauto]. intros (zi & o & p & Hf & _). by destruct (Hnone zi o p).
Qed.

(** The RAM map at boot: page-aligned banks (as [memblock_add] makes them)
    below the 256 GiB of the linear map, and room for one more reservation. *)
Record boot_ok (mb : memblock) : Prop := {
  boot_mb : memblock_ok mb;
  boot_room : (length (reserved mb) < MEMBLOCK_MAX)%nat;
  boot_ram : memory mb ≠ [];
  boot_pages : Forall page_region (memory mb);
  boot_top : memblock_end mb ≤ LINEAR_MAP_SIZE;
}.

Definition mem_map_bytes (mb : memblock) : Z :=
  ALIGN_UP ((memblock_end mb / PAGE_SIZE - memblock_start mb / PAGE_SIZE) * sizeof_page) PAGE_SIZE.

(** The ends of RAM are page boundaries. *)
Lemma boot_bounds mb :
  boot_ok mb → ∃ b n, memblock_start mb = b * PAGE_SIZE ∧
    memblock_end mb = (b + n) * PAGE_SIZE ∧ 0 ≤ b ∧ 0 < n ∧ b + n ≤ 2 ^ 26.
Proof.
  intros [[Hm _] _ Hne Hpg Htop]. pose proof Hm as (Hok & _ & _).
  destruct (memory mb) as [|r0 l] eqn:E; [done|].
  pose proof (memory_bounds mb r0 ltac:(by rewrite E) ltac:(rewrite E; apply list_elem_of_here)).
  rewrite Forall_forall in Hok, Hpg.
  destruct (Hok r0 ltac:(apply list_elem_of_here)) as (? & ? & _).
  assert (PAGE_SIZE | memblock_start mb) as [b Hb].
  { unfold memblock_start. rewrite E. apply Hpg, list_elem_of_here. }
  assert (PAGE_SIZE | memblock_end mb) as [e He].
  { unfold memblock_end. rewrite E. destruct (lookup_lt_is_Some_2 (r0 :: l) (length l)) as [r Hr];
      [simpl; lia|]. simpl length. simpl pred. rewrite Hr. apply list_elem_of_lookup_2 in Hr.
    rewrite r_end_ok by (by apply Hok). apply Z.divide_add_r; by apply Hpg. }
  exists b, (e - b). assert (memblock_start mb = r_base r0) by (unfold memblock_start; by rewrite E).
  unfold PAGE_SIZE, LINEAR_MAP_SIZE in *. repeat split; lia.
Qed.

Lemma page_alloc_init_spec m mb :
  boot_ok mb →
  let bytes := mem_map_bytes mb in
  match page_alloc_init m mb with
  | Some (Ok (s, mb')) =>
      buddy_ok s ∧ ram s = m ∧
      (∃ pa, fits mb bytes PAGE_SIZE (U64 - 1) pa ∧ memory mb' = memory mb ∧
         ∀ a, covers (reserved mb') a ↔ covers (reserved mb) a ∨ pa ≤ a < pa + bytes) ∧
      (∀ x, is_free s x ↔
         covers (memory mb) (x * PAGE_SIZE) ∧ ¬ covers (reserved mb') (x * PAGE_SIZE)) ∧
      nr_free_pages s = nr_total_pages s
  | Some Panic => ∀ c, fits mb bytes PAGE_SIZE (U64 - 1) c → c ≤ 0
  | None => False
  end.
Proof.
  intros Hboot bytes. destruct (boot_bounds mb Hboot) as (b & n & Hb & He & Hb0 & Hn & Htop).
  destruct Hboot as [Hok Hroom Hne Hpg _]. pose proof Hok as [(Hmok & Hmsep & _) _].
  unfold page_alloc_init. rewrite Hb, He.
  change (Z.shiftr (b * PAGE_SIZE) PAGE_SHIFT) with (phys_to_page (b * PAGE_SIZE)).
  change (Z.shiftr ((b + n) * PAGE_SIZE) PAGE_SHIFT) with (phys_to_page ((b + n) * PAGE_SIZE)).
  rewrite !pfn_of_page by lia. rewrite sub64_small by (unfold U64; lia).
  replace (b + n - b) with n by lia.
  rewrite wrap64_small by (unfold sizeof_page, U64; lia).
  assert (bytes = ALIGN_UP (n * sizeof_page) PAGE_SIZE) as Hbytes.
  { unfold bytes, mem_map_bytes. rewrite Hb, He, !Z.div_mul by done. do 2 f_equal. lia. }
  rewrite <-Hbytes.
  destruct (ALIGN_UP_spec (n * sizeof_page) PAGE_SIZE) as [Hd Hrange];
    [auto with olux|unfold sizeof_page; lia|unfold sizeof_page, PAGE_SIZE, U64; lia|].
  rewrite <-Hbytes in Hd, Hrange. unfold sizeof_page in Hrange.
  destruct (memblock_alloc_spec mb bytes PAGE_SIZE (U64 - 1)) as (mb' & pa & -> & Hres);
    [done|done|lia|unfold PAGE_SIZE, U64 in *; lia|auto with olux|apply Z.divide_refl|unfold U64; lia|].
  rewrite ALIGN_UP_id in Hres by (auto with olux || (unfold PAGE_SIZE, U64 in *; lia) || done).
  cbn [mbind option_bind obind]. destruct (pa =? 0) eqn:Hpa; zbool.
  { subst pa. destruct Hres as [(_ & Hmax & _)|(_ & _ & Hno)]; [done|].
    intros c Hc. by destruct (Hno c). }
  destruct Hres as [(Hfit & _ & [_ Hr'] & Hmem & Hcov)|(? & _)]; [|done].
  pose proof (fold_banks_inv mb' m Hr' b n (memory mb) (λ _, False)
    (PageAlloc zones0 (λ _, Page PG_RESERVED 0 0 0 0 0) b n m) Hmok Hpg Hmsep) as Hinv.
  destruct Hinv as [Hok' _ _ Hfree Hram Hman]; [|done|by (apply empty_inv; lia)|].
  { intros r Hr. rewrite <-Hb, <-He. apply memory_bounds; [apply Hok|done]. }
  rewrite Hmem. split_and!; [done|done|by exists pa| |].
  - intros x. rewrite Hfree. unfold resv. tauto.
  - unfold nr_free_pages, nr_total_pages. by rewrite !Hman by (unfold NR_ZONES; lia).
Qed.

(** ** The contract *)

(** Because free buddies are merged, the free pages determine the blocks. *)
Lemma blocks_canonical s s' zi o p :
  buddy_ok s → buddy_ok s' → same_geom s s' → (∀ x, is_free s' x ↔ is_free s x) →
  fb s zi o p → fb s' zi o p.
Proof.
  (* a block of one state lies in a block, at least as large, of the other *)
  assert (∀ s s' zi o p, buddy_ok s → buddy_ok s' → same_geom s s' →
    (∀ x, is_free s x → is_free s' x) → fb s zi o p →
    ∃ o' p', fb s' zi o' p' ∧ (o ≤ o')%nat ∧ ∀ x, blk p o x → blk p' o' x) as Hin.
  { clear. intros s s' zi o p Hok Hok' Hg Hfree Hf. pose proof Hf as (Hzi & Ho & _).
    pose proof (ok_wf s Hok) as Hwf. pose proof (ok_wf s' Hok') as Hwf'.
    destruct (wf_block s Hwf _ _ _ Hf) as (Hbin & _).
    pose proof (block_in_u64 s zi p o (wf_geom s Hwf) Hbin) as Hu.
    destruct (run_zone s' o p Hwf' Ho (proj1 Hbin)) as (_ & _ & Hrun).
    { intros x Hx. apply Hfree. by exists zi, o, p. }
    assert (pfn_zone s' p = zi) as Hz.
    { apply pfn_zone_unique; [apply Hwf'|done|]. destruct Hbin as (_ & _ & _ & ? & ?).
      pose proof (bsize_pos o). lia. }
    rewrite Hz in Hrun. by apply (free_run s' zi o p Hok' Hzi Ho (proj1 Hbin) Hu). }
  intros Hok Hok' Hg Hfree Hf. assert (same_geom s' s) as Hg'.
  { destruct Hg as (? & ? & Hz). split_and!; [done..|]. intros zi'. by destruct (Hz zi'). }
  destruct (Hin s s' zi o p Hok Hok' Hg ltac:(apply Hfree) Hf) as (o' & p' & Hf' & Hle & Hsub).
  destruct (Hin s' s zi o' p' Hok' Hok Hg' ltac:(apply Hfree) Hf') as (o2 & p2 & Hf2 & Hle2 & Hsub2).
  assert (blk p o p) as Hp by auto with olux.
  destruct (wf_disj s (ok_wf s Hok) zi o p zi o2 p2 p Hf Hf2 Hp (Hsub2 p (Hsub p Hp))) as (_ & -> & ->).
  assert (o' = o2) as -> by lia.
  assert (p' = p2) as ->; [|done].
  apply (blk_same p' p2 o2 p2).
  - apply (wf_block s' (ok_wf s' Hok') _ _ _ Hf').
  - apply (wf_block s (ok_wf s Hok) _ _ _ Hf2).
  - by apply Hsub.
  - auto with olux.
Qed.

(** C6.  [alloc_pages] never panics on a well-formed allocator.  A page it
    returns starts an aligned block of [2^order] pages that were free, all
    below the end of the highest zone the flags allow; it removes exactly
    these from the free set, gives each of them one reference, leaves every
    descriptor of a page in use and the rest of memory alone, lowers the free
    count by [2^order], zeroes the block under GFP_ZERO, and keeps the
    invariant (lists and flags agree, blocks are aligned and disjoint, no two
    free buddies are left apart).  It fails only for an order that is too
    large or when there is no aligned run of [2^order] free pages at all. *)
Theorem alloc_pages_correct s gfp o :
  buddy_ok s →
  match alloc_pages s gfp o with
  | Ok (s', Some p) => allocated s s' gfp p o
  | Ok (s', None) => s' = s ∧ ((MAX_ORDER ≤ o)%nat ∨ no_run s gfp o)
  | Panic => False
  end.
Proof. apply alloc_pages_spec. Qed.

(** Allocating a block and freeing it again brings back not only the
    same free pages and free count but the same free blocks: splitting on the
    way out and merging on the way in are inverse. *)
Lemma alloc_free_spec dbg s gfp o s1 p :
  buddy_ok s → alloc_pages s gfp o = Ok (s1, Some p) →
  ∃ s2, free_pages dbg s1 (Some p) o = Ok s2 ∧ buddy_ok s2 ∧
    (∀ zi o' q, fb s2 zi o' q ↔ fb s zi o' q) ∧
    (∀ x, ¬ is_free s x → mem_map s2 x = mem_map s x) ∧
    nr_free_pages s2 = nr_free_pages s.
Proof.
  intros Hok Hrun. pose proof (alloc_pages_spec s gfp o Hok) as Hal. rewrite Hrun in Hal.
  destruct (free_pages_spec dbg s1 p o (al_ok _ _ _ _ _ Hal) (allocated_in_use _ _ _ _ _ Hok Hal))
    as (s2 & Hrun2 & [Hok2 Hg2 Hset2 Hk2 Hc2 _]).
  destruct Hal as [_ Hg _ _ Hblk _ Hset Hk Hc _ _].
  assert (∀ x, is_free s2 x ↔ is_free s x) as Hfree.
  { intros x. rewrite Hset2, Hset. split; [intros [?|?%Hblk]; tauto|].
    intros Hx. destruct (decide (p ≤ x < p + bsize o)); [by right|by left]. }
  assert (same_geom s s2) as Hg' by (by transitivity s1).
  exists s2. split_and!; [done|done| | |].
  - intros zi o' q. split; apply blocks_canonical; try done.
    destruct Hg' as (? & ? & Hz). split_and!; [done..|]. intros zi'. by destruct (Hz zi').
  - intros x Hx. rewrite Hk2, Hk; [done|done|rewrite Hset; tauto|]. intros Hx'. by apply Hx, Hblk.
  - rewrite Hc2, Hc. rewrite sub64_add. unfold nr_free_pages at 2.
    unfold add64 at 1. unfold nr_free_pages. rewrite wrap64_sum3, wrap64_add_wrap.
    unfold wrap64. rewrite Zplus_mod_idemp_l. f_equal. lia.
Qed.

(** C7.  [free_pages] of a block in use adds exactly its pages to the free
    set, raises the free count by [2^order], touches no other page in use and
    no memory outside the block, merges buddies as far as possible and keeps
    the invariant; it panics on a page that heads a free block (a double
    free) or is reserved, and ignores a null page.  Freeing a block that was
    just allocated brings back not only the same free pages and free count but
    the same free blocks: splitting on the way out and merging on the way in
    are inverse. *)
Theorem free_pages_correct dbg s p o :
  buddy_ok s →
  free_pages dbg s None o = Ok s ∧
  (in_use s p o → ∃ s', free_pages dbg s (Some p) o = Ok s' ∧ released s s' p o) ∧
  ((∃ zi o', fb s zi o' p) ∨ has (flags (mem_map s p)) PG_RESERVED = true →
   free_pages dbg s (Some p) o = Panic) ∧
  (∀ gfp s1 q, alloc_pages s gfp o = Ok (s1, Some q) →
   ∃ s2, free_pages dbg s1 (Some q) o = Ok s2 ∧ buddy_ok s2 ∧ (∀ zi o' q', fb s2 zi o' q' ↔ fb s zi o' q') ∧
     (∀ x, ¬ is_free s x → mem_map s2 x = mem_map s x) ∧ nr_free_pages s2 = nr_free_pages s).
Proof.
  intros Hok. split_and!; [done|by apply free_pages_spec| |intros gfp s1 q; by apply alloc_free_spec]. intros Hbad. unfold free_pages.
  assert (has (flags (mem_map s p)) (Z.lor PG_BUDDY PG_RESERVED) = true) as ->; [|done].
  assert (has (flags (mem_map s p)) PG_BUDDY = true ∨ has (flags (mem_map s p)) PG_RESERVED = true)
    as Hor.
  { destruct Hbad as [(zi & o' & Hf)|]; [left|by right]. by apply (wf_block s (ok_wf s Hok) zi o'). }
  unfold has in *. rewrite Z.land_lor_distr_r. apply negb_true_iff, Z.eqb_neq.
  rewrite !negb_true_iff, !Z.eqb_neq in Hor. intros [??]%Z.lor_eq_0_iff. tauto.
Qed.

(** Reference counts on a page in use: [page_get] followed by [page_put]
    changes nothing; [page_put] frees the page exactly when it drops the last
    reference and otherwise only lowers the count; dropping a reference that
    does not exist panics. *)
Theorem page_put_correct dbg s p :
  buddy_ok s → in_use s p 0 → 0 ≤ refcount (mem_map s p) < 2 ^ 31 - 1 →
  let r := refcount (mem_map s p) in
  (1 ≤ r → ∃ s', page_put dbg s p = Ok (s', r =? 1) ∧
     if r =? 1 then released s s' p 0
     else s' = set_page s p (set_refcount (mem_map s p) (r - 1))) ∧
  (r = 0 → page_put dbg s p = Panic) ∧
  (1 ≤ r → ∃ s', page_put dbg (page_get s p) p = Ok (s', false) ∧
     (∀ x, mem_map s' x = mem_map s x) ∧ zones s' = zones s ∧ ram s' = ram s).
Proof.
  intros Hok Ha Hr r. split_and!.
  - intros Hr1. apply page_put_spec; [done..|lia].
  - intros E. unfold page_put. fold r. by rewrite E.
  - intros Hr1. unfold page_put, page_get. simpl. rewrite fn_lookup_insert. simpl. fold r.
    assert (∀ v, 0 ≤ v < 2 ^ 31 → to_s32 v = v) as Hs.
    { intros v Hv. unfold to_s32, wrap32. rewrite Z.mod_small by (unfold U32; lia). case_test; lia. }
    rewrite (Hs (r + 1)) by lia. replace (r + 1 - 1) with r by lia. rewrite Hs by lia.
    replace (r <? 0) with false by lia. replace (r =? 0) with false by lia.
    eexists. split; [done|]. split_and!; try done. intros x. simpl.
    destruct (decide (p = x)) as [<-|].
    + rewrite !fn_lookup_insert. unfold r, set_refcount. simpl. by destruct (mem_map s p).
    + by rewrite !fn_lookup_insert_ne.
Qed.

(** From the RAM map of memblock, [page_alloc_init] builds a
    well-formed allocator in which a page is free exactly when it is RAM and
    not reserved, where the reservations now include the [mem_map] array that
    was placed clear of all earlier ones; every managed page is free.  It
    panics only when the array fits nowhere above address 0. *)
Theorem page_alloc_init_correct m mb :
  boot_ok mb →
  let bytes := mem_map_bytes mb in
  match page_alloc_init m mb with
  | Some (Ok (s, mb')) =>
      buddy_ok s ∧ ram s = m ∧
      (∃ pa, fits mb bytes PAGE_SIZE (U64 - 1) pa ∧ memory mb' = memory mb ∧
         ∀ a, covers (reserved mb') a ↔ covers (reserved mb) a ∨ pa ≤ a < pa + bytes) ∧
      (∀ x, is_free s x ↔
         covers (memory mb) (x * PAGE_SIZE) ∧ ¬ covers (reserved mb') (x * PAGE_SIZE)) ∧
      nr_free_pages s = nr_total_pages s
  | Some Panic => ∀ c, fits mb bytes PAGE_SIZE (U64 - 1) c → c ≤ 0
  | None => False
  end.
Proof. apply page_alloc_init_spec. Qed.

(** ** Witnesses

    Sixteen pages of RAM from 64 KiB, the page at 96 KiB reserved. *)

Definition ex_ram : memblock := Memblock [Region 0x10000 0x10000] [Region 0x18000 0x1000].

Lemma ex_ram_ok : boot_ok ex_ram.
Proof.
  split; simpl; try (unfold MEMBLOCK_MAX; lia) || done.
  - split; (split_and!; [|repeat constructor|unfold MEMBLOCK_MAX; simpl; lia]);
      apply Forall_singleton; by repeat split.
  - apply Forall_singleton. by split; [exists 16|exists 16].
Qed.

Definition ex_alloc : pagealloc :=
  match page_alloc_init (λ _, 7) ex_ram with
  | Some (Ok (s, _)) => s
  | _ => PageAlloc zones0 (λ _, Page 0 0 0 0 0 0) 0 0 (λ _, 0)
  end.

Lemma ex_alloc_ok : buddy_ok ex_alloc.
Proof.
  pose proof (page_alloc_init_spec (λ _, 7) ex_ram ex_ram_ok) as H. unfold ex_alloc. cbv zeta in H.
  destruct (page_alloc_init (λ _, 7) ex_ram) as [[[s mb']|]|] eqn:E; [by destruct H|by vm_compute in E|done].
Qed.

Lemma page_alloc_init_witness :
  boot_ok ex_ram ∧
  ∃ s mb', page_alloc_init (λ _, 7) ex_ram = Some (Ok (s, mb')) ∧ nr_free_pages s = 14 ∧ buddy_ok s.
Proof.
  pose proof (page_alloc_init_correct (λ _, 7) ex_ram ex_ram_ok) as H. cbv zeta in H.
  split; [exact ex_ram_ok|].
  destruct (page_alloc_init (λ _, 7) ex_ram) as [[[s mb']|]|] eqn:E; [|by vm_compute in E|done].
  exists s, mb'. split; [done|]. split; [|apply H].
  assert (match page_alloc_init (λ _, 7) ex_ram with Some (Ok (s, _)) => nr_free_pages s | _ => 0 end = 14)
    as Hn by (by vm_compute).
  by rewrite E in Hn.
Defined.

Lemma alloc_pages_witness :
  ∃ s', alloc_pages ex_alloc GFP_DMA 1 = Ok (s', Some 28) ∧
        allocated ex_alloc s' GFP_DMA 28 1.
Proof.
  pose proof (alloc_pages_correct ex_alloc GFP_DMA 1 ex_alloc_ok) as H.
  assert (match alloc_pages ex_alloc GFP_DMA 1 with Ok (_, p) => p | Panic => None end = Some 28)
    as Hp by (by vm_compute).
  destruct (alloc_pages ex_alloc GFP_DMA 1) as [[s' [p|]]|]; simplify_eq. by exists s'.
Defined.

(** The state after one page has been allocated. *)
Definition ex_used : pagealloc :=
  match alloc_pages ex_alloc 0 0 with Ok (s, _) => s | Panic => ex_alloc end.

Lemma ex_used_alloc : alloc_pages ex_alloc 0 0 = Ok (ex_used, Some 30).
Proof.
  assert (match alloc_pages ex_alloc 0 0 with Ok (_, p) => p | Panic => None end = Some 30)
    as Hp by (by vm_compute).
  unfold ex_used. destruct (alloc_pages ex_alloc 0 0) as [[s' p]|]; by simplify_eq.
Qed.

Lemma ex_used_ok : buddy_ok ex_used ∧ in_use ex_used 30 0.
Proof.
  pose proof (alloc_pages_spec ex_alloc 0 0 ex_alloc_ok) as H. rewrite ex_used_alloc in H.
  split; [apply H|]. apply (allocated_in_use ex_alloc ex_used 0); [apply ex_alloc_ok|done].
Qed.

Lemma free_pages_witness :
  (∃ s', free_pages true ex_used (Some 30) 0 = Ok s' ∧ released ex_used s' 30 0) ∧
  free_pages true ex_used (Some 25) 0 = Panic ∧
  (∃ s2, free_pages false ex_used (Some 30) 0 = Ok s2 ∧ nr_free_pages s2 = nr_free_pages ex_alloc).
Proof.
  destruct ex_used_ok as [Hok Hin]. split; [|split].
  - by apply (free_pages_correct true ex_used 30 0 Hok).
  - apply (free_pages_correct true ex_used 25 0 Hok). left. exists 0%nat, 0%nat.
    split_and!; [unfold NR_ZONES; lia|unfold MAX_ORDER; lia|].
    assert (free (zones ex_used 0) 0 = [25]) as -> by (by vm_compute). apply list_elem_of_here.
  - destruct (free_pages_correct false ex_alloc 0 0 ex_alloc_ok) as (_ & _ & _ & H).
    destruct (H 0 ex_used 30 ex_used_alloc) as (s2 & H1 & _ & _ & _ & H2). exists s2. split; [exact H1|exact H2].
Defined.

Lemma page_put_witness :
  ∃ s', page_put false ex_used 30 = Ok (s', true) ∧ released ex_used s' 30 0.
Proof.
  destruct ex_used_ok as [Hok Hin].
  assert (refcount (mem_map ex_used 30) = 1) as Hr by (by vm_compute).
  destruct (page_put_correct false ex_used 30 Hok Hin ltac:(rewrite Hr; lia)) as [H _].
  rewrite Hr in H. exact (H ltac:(lia)).
Defined.
