(* ===== verification/PageSource.v ===== *)
(** * What the page allocator promises to its callers

    [PageSource] is the interface of src/mm/page_alloc.c that the kernel page
    tables and the kernel virtual areas are written against; [PageSourceLaws]
    is its contract.  The instance at the end discharges the contract for the
    buddy allocator. *)

From S2P Require Import Prelude Memblock Buddy.

Class PageSource (P : Type) : Type := {
  ps_alloc : P → Z → nat → outcome (P * option Z);
  ps_free : P → option Z → nat → outcome P;
  ps_count : P → Z;
}.

(** Two blocks have no page in common. *)
Definition apart (p : Z) (o : nat) (q : Z) (o' : nat) : Prop := p + bsize o ≤ q ∨ q + bsize o' ≤ p.

Class PageSourceLaws (P : Type) `{!PageSource P} : Type := {
  ps_ok : P → Prop;
  (** a block that was allocated and not freed *)
  ps_used : P → Z → nat → Prop;
  ps_alloc_law s gfp o : ps_ok s →
    match ps_alloc s gfp o with
    | Ok (s', Some p) =>
        ps_ok s' ∧ ps_used s' p o ∧ ps_count s' = ps_count s ⊖ bsize o ∧
        ∀ q o', ps_used s q o' → ps_used s' q o' ∧ apart p o q o'
    | Ok (s', None) => s' = s
    | Panic => False
    end;
  ps_free_law s p o : ps_ok s → ps_used s p o →
    ∃ s', ps_free s (Some p) o = Ok s' ∧ ps_ok s' ∧ ps_count s' = ps_count s ⊕ bsize o ∧
      ∀ q o', ps_used s q o' → apart p o q o' → ps_used s' q o';
  (** the page at physical address 0 is not handed out *)
  ps_range s p o : ps_ok s → ps_used s p o → 0 < p ∧ p + bsize o ≤ 2 ^ 26 ∧ (o < MAX_ORDER)%nat;
  ps_count_range s : u64_ok (ps_count s);
}.

(** [n] pages in a row can be had. *)
Fixpoint can_alloc {P} `{!PageSource P} (n : nat) (s : P) : Prop :=
  match n with
  | O => True
  | S n => match ps_alloc s GFP_ZERO 0 with Ok (s', Some _) => can_alloc n s' | _ => False end
  end.

Lemma can_alloc_le {P} `{!PageSource P} n n' (s : P) : (n' ≤ n)%nat → can_alloc n s → can_alloc n' s.
Proof.
  revert n s. induction n' as [|n' IH]; intros n s Hn; [done|]. destruct n as [|n]; [lia|]. cbn [can_alloc].
  destruct (ps_alloc s GFP_ZERO 0) as [[s' [p|]]|]; [|done..]. apply IH. lia.
Qed.

(** ** The buddy allocator *)

Definition buddy_source (dbg : bool) : PageSource pagealloc :=
  {| ps_alloc := alloc_pages; ps_free := free_pages dbg; ps_count := nr_free_pages |}.

Lemma in_use_frame s s' p o :
  same_geom s s' → (∀ x, blk p o x → mem_map s' x = mem_map s x ∧ ¬ is_free s' x) → in_use s p o → in_use s' p o.
Proof.
  intros Hg Hx [Hz Ho Hin Hc Hu]. unfold in_use. rewrite (same_geom_zone s) by done. split; [done|done| | |].
  - by apply (same_geom_block_in s).
  - intros x Hb. destruct (Hx x Hb) as [-> _]. by apply Hc.
  - intros x Hb. by apply Hx.
Qed.

(** Blocks that share no page are apart. *)
Lemma blk_apart p o q o' : (∀ x, blk p o x → ¬ blk q o' x) → apart p o q o'.
Proof.
  intros H. unfold apart. destruct (decide (p + bsize o ≤ q)); [by left|]. destruct (decide (q + bsize o' ≤ p)); [by right|].
  pose proof (bsize_pos o). pose proof (bsize_pos o'). exfalso. apply (H (Z.max p q)); unfold blk; lia.
Qed.

(** The page at address 0 is outside memory or reserved. *)
Definition page0_reserved (s : pagealloc) : Prop := valid s 0 → ¬ clear (mem_map s 0).

Lemma page0_not_free s : buddy_ok s → page0_reserved s → ¬ is_free s 0.
Proof.
  intros Hok H0 (zi & o & p & Hf & Hb). destruct (wf_block s (ok_wf s Hok) _ _ _ Hf) as ((_ & H1 & H2 & _) & _).
  apply H0; [unfold valid, blk in *; lia|]. by apply (wf_clear s (ok_wf s Hok) zi o p).
Qed.

Lemma page0_frame s s' : same_geom s s' → mem_map s' 0 = mem_map s 0 → page0_reserved s → page0_reserved s'.
Proof. intros (E1 & E2 & _) Em H. unfold page0_reserved, valid. by rewrite E1, E2, Em. Qed.

#[export] Instance buddy_laws dbg : @PageSourceLaws pagealloc (buddy_source dbg).
Proof.
  unshelve refine {| ps_ok := λ s, buddy_ok s ∧ page0_reserved s; ps_used := in_use |}.
  - intros s gfp o [Hok H0]. cbn [ps_alloc buddy_source]. pose proof (alloc_pages_spec s gfp o Hok) as H.
    destruct (alloc_pages s gfp o) as [[s' [p|]]|]; [|by destruct H|done].
    pose proof (allocated_in_use _ _ _ _ _ Hok H) as Hu. destruct H as [Hok' Hg Ho Hd Hb _ Hset Hk Hc _ _].
    split_and!; [done| |done..|].
    + apply (page0_frame s); [done| |done]. by apply Hk, page0_not_free.
    + intros q o' Hq. assert (∀ x, blk q o' x → ¬ is_free s x) as Hnf by apply Hq. split.
      * apply (in_use_frame s); [done| |done]. intros x Hx%Hnf. split; [by apply Hk|]. rewrite Hset. tauto.
      * apply blk_apart. intros x Hx Hx'. apply (Hnf x Hx'). by apply Hb.
  - intros s p o [Hok H0] Hp. cbn [ps_free buddy_source]. destruct (free_pages_spec dbg s p o Hok Hp) as (s' & E & [Hok' Hg Hset Hk Hc _]).
    exists s'. split_and!; [done|done| |done|].
    + apply (page0_frame s); [done| |done]. apply Hk; [by apply page0_not_free|]. intros Hb. pose proof Hp as [_ _ (_ & H1 & H2 & _) Hcl _].
      apply H0; [|by apply Hcl]. pose proof (geom_base s (wf_geom s (ok_wf s Hok))). unfold valid, blk in *. lia.
    + intros q o' Hq Hap. apply (in_use_frame s); [done| |done]. intros x Hx. assert (¬ is_free s x) as Hnf by by apply Hq.
      assert (¬ blk p o x) by (unfold apart, blk in *; lia). split; [by apply Hk|]. rewrite Hset. tauto.
  - intros s p o [Hok H0] [_ Ho (_ & H1 & H2 & _) Hcl _]. destruct (wf_geom s (ok_wf s Hok)) as [_ _ G1 G2 G3]. pose proof (bsize_pos o).
    split; [|split; [lia|done]]. destruct (decide (p = 0)) as [->|]; [|lia]. exfalso. apply H0; [unfold valid; lia|]. by apply Hcl, blk_head.
  - intros s. cbn. unfold nr_free_pages. apply add64_ok.
Defined.
