(* ===== verification/Kmalloc.v ===== *)
(** * The kernel heap: src/mm/kmalloc.c

    Slab pages are carved into objects of one power-of-two size; the free
    objects of a page are linked through their first word and marked with a
    magic number in their second, in the memory of the page allocator
    ([ram]).  The model reads and writes these words as the code does.  The
    theorems describe the heap by the set of live objects ([live]).

    A call whose loop has no exit gives [None]. *)

From stdpp Require Import functions.
From S2P Require Import Prelude CString DList Memblock Buddy.

(** ** Data *)

Definition NR_CLASSES : nat := 8.
Notation MIN_SHIFT := 4%Z (only parsing).
Notation FREE_MAGIC := 0xf4eef4eef4eef4ee%Z (only parsing).

Record slab_cache : Type := SlabCache {
  sc_size : Z;
  partial : list Z;
  sc_pages : Z;
}.

Record kheap : Type := KHeap {
  pa : pagealloc;
  classes : nat → slab_cache;
  bytes_in_use : Z;
}.

Definition set_pa (K : kheap) (s : pagealloc) : kheap := KHeap s (classes K) (bytes_in_use K).
Definition set_class (K : kheap) (ci : nat) (c : slab_cache) : kheap :=
  KHeap (pa K) (<[ci := c]> (classes K)) (bytes_in_use K).
Definition add_bytes (K : kheap) (n : Z) : kheap := KHeap (pa K) (classes K) (bytes_in_use K ⊕ n).
Definition kram (K : kheap) : mem := ram (pa K).
Definition set_kram (K : kheap) (m : mem) : kheap := set_pa K (set_ram (pa K) m).
Definition kpage (K : kheap) (x : Z) : page := mem_map (pa K) x.
Definition set_kpage (K : kheap) (x : Z) (pg : page) : kheap := set_pa K (set_page (pa K) x pg).

Definition set_slab (p : page) (ci : nat) (inuse fl : Z) : page :=
  Page (flags p) (refcount p) (order p) ci inuse fl.

(** ** Operations *)

Definition kmalloc_init (K : kheap) : kheap :=
  KHeap (pa K) (λ i, SlabCache (Z.shiftl 1 (Z.of_nat i + MIN_SHIFT)) [] (sc_pages (classes K i)))
    (bytes_in_use K).

(** [n] classes from [i] on are left to try. *)
Fixpoint size_class_from (n i : nat) (K : kheap) (size : Z) : option nat :=
  match n with
  | O => None
  | S n => if size <=? sc_size (classes K i) then Some i else size_class_from n (S i) K size
  end.

Definition size_class (K : kheap) (size : Z) : option nat := size_class_from NR_CLASSES 0 K size.

(** The carving loop: [n] objects are left, the next at [off]. *)
Fixpoint carve (n : nat) (m : mem) (base off sz head : Z) : mem * Z :=
  match n with
  | O => (m, head)
  | S n =>
      if off <? 0 then (m, head)
      else
        let obj := base + off in
        let m := wr64 m obj head in
        let m := if 16 <=? sz then wr64 m (obj + 8) FREE_MAGIC else m in
        if off =? 0 then (m, obj) else carve n m base (off - sz) sz obj
  end.

Definition new_slab (K : kheap) (ci : nat) : outcome (kheap * option Z) :=
  let! r := alloc_pages (pa K) 0 0 in
  let '(s, p) := r in
  match p with
  | None => Ok (set_pa K s, None)
  | Some x =>
      let K := set_pa K s in
      let K := set_kpage K x (set_flags (kpage K x) (Z.lor (flags (kpage K x)) PG_SLAB)) in
      let K := set_kpage K x (set_slab (kpage K x) ci 0 (freelist (kpage K x))) in
      let sz := sc_size (classes K ci) in
      let base := page_address x in
      let '(m, head) := carve (Z.to_nat (PAGE_SIZE / sz)) (kram K) base (PAGE_SIZE - sz) sz 0 in
      let K := set_kram K m in
      let K := set_kpage K x (set_slab (kpage K x) (slab_class (kpage K x))
                                (slab_inuse (kpage K x)) head) in
      let c := classes K ci in
      Ok (set_class K ci (SlabCache (sc_size c) (x :: partial c) (sc_pages c ⊕ 1)), Some x)
  end.

(** The smallest order whose block holds [size] bytes; [None] when no shift
    that C defines gives one, where the loop has no exit. *)
Fixpoint order_from (n o : nat) (size : Z) : option nat :=
  match n with
  | O => None
  | S n => if wrap64 (PAGE_SIZE * bsize o) <? size then order_from n (S o) size else Some o
  end.

Definition order_for (size : Z) : option nat := order_from 64 0 size.

Definition kmalloc_large (K : kheap) (size gfp : Z) (o : nat) : outcome (kheap * Z) :=
  let! r := alloc_pages (pa K) (Z.land gfp (not32 GFP_ZERO)) o in
  let '(s, p) := r in
  let K := set_pa K s in
  match p with
  | None => Ok (K, 0)
  | Some x =>
      let K := set_kpage K x (set_flags (kpage K x) (Z.lor (flags (kpage K x)) PG_COMPOUND)) in
      let K := set_kpage K x (set_order (kpage K x) o) in
      let va := page_address x in
      let K := if has gfp GFP_ZERO then set_kram K (memset (kram K) va 0 size) else K in
      Ok (add_bytes K (wrap64 (PAGE_SIZE * bsize o)), va)
  end.

(** The page that the object is taken from. *)
Definition pick_slab (K : kheap) (ci : nat) : outcome (kheap * option Z) :=
  match partial (classes K ci) with
  | [] => new_slab K ci
  | x :: _ => Ok (K, Some x)
  end.

Definition take_object (K : kheap) (ci : nat) (x gfp : Z) : outcome (kheap * Z) :=
  let c := classes K ci in
  let obj := freelist (kpage K x) in
  if (16 <=? sc_size c) && negb (rd64 (kram K) (obj + 8) =? FREE_MAGIC) then Panic
  else
    let pg := kpage K x in
    let fl := rd64 (kram K) obj in
    let K := set_kpage K x (set_slab pg (slab_class pg) (wrap32 (slab_inuse pg + 1)) fl) in
    let K := if fl =? 0 then set_class K ci (SlabCache (sc_size c) (lremove x (partial c)) (sc_pages c))
             else K in
    let K := add_bytes K (sc_size c) in
    let K := if has gfp GFP_ZERO then set_kram K (memset (kram K) obj 0 (sc_size c))
             else set_kram K (wr64 (kram K) (obj + 8) 0) in
    Ok (K, obj).

Definition kmalloc (K : kheap) (size gfp : Z) : option (outcome (kheap * Z)) :=
  if size =? 0 then Some (Ok (K, 0))
  else
    match size_class K size with
    | None => (λ o, kmalloc_large K size gfp o) <$> order_for size
    | Some ci =>
        Some (let! r := pick_slab K ci in
              let '(K, p) := r in
              match p with
              | None => Ok (K, 0)
              | Some x => take_object K ci x gfp
              end)
    end.

(** The scan of the free list for [obj]; [fuel] nodes are left, and a list
    that has more than that is cyclic. *)
Fixpoint on_freelist (fuel : nat) (m : mem) (q obj : Z) : option bool :=
  match fuel with
  | O => None
  | S fuel =>
      if q =? 0 then Some false
      else if q =? obj then Some true
      else on_freelist fuel m (rd64 m q) obj
  end.

Section Kfree.

Variable CONFIG_DEBUG : bool.
Variable kimage_voffset : Z.

Definition put_object (K : kheap) (ci : nat) (x obj : Z) : outcome kheap :=
  let c := classes K ci in
  let K := if CONFIG_DEBUG then set_kram K (memset (kram K) obj 0x6b (sc_size c)) else K in
  let pg := kpage K x in
  let was_full := freelist pg =? 0 in
  let K := set_kram K (wr64 (kram K) obj (freelist pg)) in
  let K := if 16 <=? sc_size c then set_kram K (wr64 (kram K) (obj + 8) FREE_MAGIC) else K in
  let inuse := wrap32 (slab_inuse pg - 1) in
  let K := set_kpage K x (set_slab pg (slab_class pg) inuse obj) in
  let K := add_bytes K (- sc_size c) in
  let K := if was_full then set_class K ci (SlabCache (sc_size c) (x :: partial c) (sc_pages c))
           else K in
  let c := classes K ci in
  if (inuse =? 0) && (1 <? sc_pages c) then
    let K := set_class K ci (SlabCache (sc_size c) (lremove x (partial c)) (sc_pages c ⊖ 1)) in
    let K := set_kpage K x (set_flags (kpage K x) (Z.land (flags (kpage K x)) (not32 PG_SLAB))) in
    let! s := free_pages CONFIG_DEBUG (pa K) (Some x) 0 in Ok (set_pa K s)
  else Ok K.

Definition kfree (K : kheap) (ptr : Z) : option (outcome kheap) :=
  if ptr =? 0 then Some (Ok K)
  else
    let x := virt_to_page kimage_voffset ptr in
    let pg := kpage K x in
    if has (flags pg) PG_COMPOUND then
      let o := order pg in
      let K := set_kpage K x (set_flags pg (Z.land (flags pg) (not32 PG_COMPOUND))) in
      let K := add_bytes K (- wrap64 (PAGE_SIZE * bsize o)) in
      Some (let! s := free_pages CONFIG_DEBUG (pa K) (Some x) o in Ok (set_pa K s))
    else if negb (has (flags pg) PG_SLAB) then Some Panic
    else
      let c := classes K (slab_class pg) in
      if negb (Z.land ptr (sc_size c - 1) =? 0) then Some Panic
      else if (16 <=? sc_size c) && (rd64 (kram K) (ptr + 8) =? FREE_MAGIC) then
        match on_freelist 257 (kram K) (freelist pg) ptr with
        | None => None
        | Some true => Some Panic
        | Some false => Some (put_object K (slab_class pg) x ptr)
        end
      else Some (put_object K (slab_class pg) x ptr).

End Kfree.

Definition ksize (kimage_voffset : Z) (K : kheap) (ptr : Z) : Z :=
  let pg := kpage K (virt_to_page kimage_voffset ptr) in
  if has (flags pg) PG_COMPOUND then wrap64 (PAGE_SIZE * bsize (order pg))
  else sc_size (classes K (slab_class pg)).

Definition kzalloc (K : kheap) (size gfp : Z) : option (outcome (kheap * Z)) :=
  kmalloc K size (Z.lor gfp GFP_ZERO).

Definition kcalloc (K : kheap) (n size gfp : Z) : option (outcome (kheap * Z)) :=
  if negb (size =? 0) && ((U64 - 1) / size <? n) then Some (Ok (K, 0))
  else kzalloc K (wrap64 (n * size)) gfp.

Definition kstrdup (fuel : nat) (K : kheap) (s gfp : Z) : option (outcome (kheap * Z)) :=
  match strlen fuel (kram K) s with
  | None => None
  | Some l =>
      let n := l + 1 in
      match kmalloc K n gfp with
      | Some (Ok (K, d)) =>
          Some (Ok (if d =? 0 then K else set_kram K (memcpy (kram K) d s n), d))
      | r => r
      end
  end.

(** ** Invariant *)

(** The object size of a class, and how many objects a page holds. *)
Definition csz (ci : nat) : Z := 2 ^ (Z.of_nat ci + 4).
Definition cap (ci : nat) : Z := PAGE_SIZE / csz ci.

(** The bytes of page [x] in the linear map. *)
Definition pgb (x a : Z) : Prop := page_address x ≤ a < page_address x + PAGE_SIZE.

(** [a] is one of the objects that page [x] is carved into. *)
Definition slot (x : Z) (ci : nat) (a : Z) : Prop :=
  ∃ k, 0 ≤ k < cap ci ∧ a = page_address x + k * csz ci.

(** The free objects linked from [head]. *)
Fixpoint flist (m : mem) (head : Z) (objs : list Z) : Prop :=
  match objs with
  | [] => head = 0
  | o :: objs => head = o ∧ flist m (rd64 m o) objs
  end.

Record slab_ok (K : kheap) (x : Z) (objs : list Z) : Prop := {
  sl_ci : (slab_class (kpage K x) < NR_CLASSES)%nat;
  sl_list : flist (kram K) (freelist (kpage K x)) objs;
  sl_nodup : NoDup objs;
  sl_slots : Forall (slot x (slab_class (kpage K x))) objs;
  sl_magic : Forall (λ o, rd64 (kram K) (o + 8) = FREE_MAGIC) objs;
  sl_inuse : slab_inuse (kpage K x) = cap (slab_class (kpage K x)) - Z.of_nat (length objs);
  sl_part : x ∈ partial (classes K (slab_class (kpage K x))) ↔ objs ≠ [];
}.

(** The block at [x] is in use with the mark [f] on its first page. *)
Definition unflag (f : Z) (pg : page) : page := set_flags pg (Z.land (flags pg) (not32 f)).

Record marked (s : pagealloc) (x : Z) (o : nat) (f : Z) : Prop := {
  mk_order : (o < MAX_ORDER)%nat;
  mk_in : block_in s (pfn_zone s x) x o;
  mk_head : clear (unflag f (mem_map s x));
  mk_rest y : blk x o y → y ≠ x → clear (mem_map s y);
  mk_used y : blk x o y → ¬ is_free s y;
}.

Record kok (K : kheap) : Prop := {
  k_buddy : buddy_ok (pa K);
  k_size ci : (ci < NR_CLASSES)%nat → sc_size (classes K ci) = csz ci;
  k_slab x : valid (pa K) x → has (flags (kpage K x)) PG_SLAB = true →
    marked (pa K) x 0 PG_SLAB ∧ ∃ objs, slab_ok K x objs;
  k_large x : valid (pa K) x → has (flags (kpage K x)) PG_COMPOUND = true →
    marked (pa K) x (order (kpage K x)) PG_COMPOUND;
  k_part ci x : (ci < NR_CLASSES)%nat → x ∈ partial (classes K ci) →
    valid (pa K) x ∧ has (flags (kpage K x)) PG_SLAB = true ∧ slab_class (kpage K x) = ci;
  k_nodup ci : (ci < NR_CLASSES)%nat → NoDup (partial (classes K ci));
}.

(** The objects of page [x] that are in use: carved objects that are not on
    its free list, or the block that it heads. *)
Definition live_in (K : kheap) (x a n : Z) : Prop :=
  (has (flags (kpage K x)) PG_SLAB = true ∧
   ∃ objs, slab_ok K x objs ∧ slot x (slab_class (kpage K x)) a ∧ a ∉ objs ∧
           n = csz (slab_class (kpage K x))) ∨
  (has (flags (kpage K x)) PG_COMPOUND = true ∧
   a = page_address x ∧ n = PAGE_SIZE * bsize (order (kpage K x))).

Definition live (K : kheap) (a n : Z) : Prop := ∃ x, valid (pa K) x ∧ live_in K x a n.

(** ** Addresses *)

Lemma csz_cases ci :
  (ci < NR_CLASSES)%nat →
  ∃ n, 0 ≤ n ≤ 7 ∧ csz ci = 2 ^ (n + 4) ∧ cap ci = 2 ^ (8 - n) ∧ cap ci * csz ci = PAGE_SIZE.
Proof.
  intros Hci. unfold NR_CLASSES in Hci. exists (Z.of_nat ci). unfold cap, csz.
  do 8 (destruct ci as [|ci]; [by vm_compute|]). lia.
Qed.

Lemma csz_bounds ci : (ci < NR_CLASSES)%nat → 16 ≤ csz ci ≤ 2048 ∧ 2 ≤ cap ci ≤ 256.
Proof.
  intros Hci. unfold NR_CLASSES in Hci. unfold cap, csz.
  do 8 (destruct ci as [|ci]; [by vm_compute|]). lia.
Qed.

Lemma valid_range s x : geom s → valid s x → 0 ≤ x < 2 ^ 26.
Proof. intros [_ _ ? ? ?] ?. unfold valid in *. lia. Qed.

Lemma pgb_unique x y a : 0 ≤ x < 2 ^ 26 → 0 ≤ y < 2 ^ 26 → pgb x a → pgb y a → x = y.
Proof. unfold pgb. intros Hx Hy. rewrite !page_address_eq by done. unfold PAGE_SIZE. lia. Qed.

Lemma virt_to_page_pgb ko x a : 0 ≤ x < 2 ^ 26 → pgb x a → virt_to_page ko a = x.
Proof.
  unfold pgb. intros Hx. rewrite page_address_eq by done.
  unfold virt_to_page, virt_to_phys, phys_to_page, PAGE_SIZE, PAGE_OFFSET, KIMAGE_VADDR, PAGE_SHIFT.
  intros Ha. case_test; [lia|]. rewrite sub64_small by (unfold U64; lia).
  rewrite Z.shiftr_div_pow2 by lia. change (2 ^ 12) with 4096.
  symmetry. apply (Z.div_unique_pos _ _ _ (a - 0xffffff8000000000 - x * 4096)); lia.
Qed.

Lemma slot_range x ci a :
  (ci < NR_CLASSES)%nat → slot x ci a →
  page_address x ≤ a ∧ a + csz ci ≤ page_address x + PAGE_SIZE.
Proof.
  intros Hci (k & Hk & ->). destruct (csz_cases ci Hci) as (_ & _ & _ & _ & Hcap).
  pose proof (csz_bounds ci Hci). nia.
Qed.

Lemma slot_pgb x ci a b :
  (ci < NR_CLASSES)%nat → slot x ci a → a ≤ b < a + csz ci → pgb x b.
Proof. intros Hci Hs Hb. pose proof (slot_range x ci a Hci Hs). unfold pgb. lia. Qed.

(** Two objects of a page are the same or do not overlap. *)
Lemma slot_apart x ci a b :
  (ci < NR_CLASSES)%nat → slot x ci a → slot x ci b → a ≠ b → a + csz ci ≤ b ∨ b + csz ci ≤ a.
Proof.
  intros Hci (k & Hk & ->) (l & Hl & ->) Hne. pose proof (csz_bounds ci Hci).
  destruct (decide (k < l)); [left; nia|].
  destruct (decide (k = l)) as [->|]; [done|right; nia].
Qed.

Lemma slot_u64 x ci a :
  (ci < NR_CLASSES)%nat → 0 ≤ x < 2 ^ 26 → slot x ci a → u64_ok a ∧ a ≠ 0.
Proof.
  intros Hci Hx Hs. pose proof (slot_range x ci a Hci Hs) as H. pose proof (csz_bounds ci Hci).
  rewrite page_address_eq in H by done. unfold PAGE_OFFSET, PAGE_SIZE, u64_ok, U64 in *. lia.
Qed.

Lemma slot_aligned x ci a :
  (ci < NR_CLASSES)%nat → 0 ≤ x < 2 ^ 26 → slot x ci a → Z.land a (csz ci - 1) = 0.
Proof.
  intros Hci Hx Hs. destruct (slot_u64 x ci a Hci Hx Hs) as [Hu _].
  destruct Hs as (k & Hk & ->). destruct (csz_cases ci Hci) as (n & Hn & Hc & _ & Hcap).
  rewrite page_address_eq in * by done. rewrite Hc in *.
  replace (2 ^ (n + 4) - 1) with (Z.ones (n + 4)) by (rewrite Z.ones_equiv; lia).
  rewrite Z.land_ones by lia. apply Z.mod_divide; [lia|].
  apply Z.divide_add_r; [apply Z.divide_add_r|apply Z.divide_factor_r].
  - replace PAGE_OFFSET with (0x1ffffff * 2 ^ 39) by done.
    apply Z.divide_mul_r, divide_pow2. lia.
  - apply Z.divide_mul_r. exists (cap ci). lia.
Qed.

(** ** Marks on pages in use *)

Lemma has_true f b : has f b = true ↔ Z.land f b ≠ 0.
Proof. unfold has. by rewrite negb_true_iff, Z.eqb_neq. Qed.

Lemma has_false f b : has f b = false ↔ Z.land f b = 0.
Proof. unfold has. by rewrite negb_false_iff, Z.eqb_eq. Qed.

(** The marks that kmalloc puts on a page. *)
Definition heap_mark (f : Z) : Prop := f = PG_SLAB ∨ f = PG_COMPOUND.

Lemma mark_unflag f pg :
  heap_mark f → clear pg → clear (unflag f (set_flags pg (Z.lor (flags pg) f))).
Proof.
  unfold clear. intros Hf Hc. simpl. rewrite <-Z.land_assoc, Z.land_lor_distr_l.
  destruct Hf as [-> | ->].
  - change (Z.land PG_SLAB (Z.land (not32 PG_SLAB) USED_MASK)) with 0. rewrite Z.lor_0_r.
    rewrite (Z.land_comm (not32 _)), Z.land_assoc, Hc. done.
  - change (Z.land PG_COMPOUND (Z.land (not32 PG_COMPOUND) USED_MASK)) with 0. rewrite Z.lor_0_r.
    rewrite (Z.land_comm (not32 _)), Z.land_assoc, Hc. done.
Qed.

Lemma unflag_other f pg b :
  heap_mark f → b = PG_SLAB ∨ b = PG_COMPOUND ∨ b = PG_RESERVED ∨ b = PG_BUDDY → b ≠ f →
  Z.land (flags (unflag f pg)) b = Z.land (flags pg) b.
Proof.
  intros Hf Hb Hne. simpl. rewrite <-Z.land_assoc. f_equal.
  destruct Hf as [-> | ->], Hb as [->|[->|[->| ->]]]; done.
Qed.

(** A page carries one mark only. *)
Lemma marked_flags s x o f :
  heap_mark f → marked s x o f →
  Z.land (flags (mem_map s x)) PG_RESERVED = 0 ∧
  (f = PG_SLAB → has (flags (mem_map s x)) PG_COMPOUND = false) ∧
  (f = PG_COMPOUND → has (flags (mem_map s x)) PG_SLAB = false).
Proof.
  intros Hf [_ _ (_ & Hr & Hs & Hc)%clear_mask _ _]. split_and!.
  - rewrite <-Hr. symmetry. apply unflag_other; [done|auto|]. destruct Hf as [-> | ->]; done.
  - intros ->. apply has_false. rewrite <-Hc. symmetry. apply unflag_other; [done|auto|done].
  - intros ->. apply has_false. rewrite <-Hs. symmetry. apply unflag_other; [done|auto|done].
Qed.

Lemma marked_valid s x o f y : marked s x o f → blk x o y → valid s y.
Proof. intros [_ (_ & ? & ? & _) _ _ _] Hy. unfold valid, blk in *. lia. Qed.

Lemma marked_frame s s' x o f :
  same_geom s s' → (∀ y, blk x o y → mem_map s' y = mem_map s y) →
  (∀ y, blk x o y → ¬ is_free s' y) → marked s x o f → marked s' x o f.
Proof.
  intros Hg Hm Hf [H1 H2 H3 H4 H5]. split; [done| | | |done].
  - rewrite (same_geom_zone s), (same_geom_block_in s) by done. done.
  - rewrite Hm by auto with olux. done.
  - intros y Hy Hne. rewrite Hm by done. by apply H4.
Qed.

(** Marking the first page of a block in use. *)
Lemma marked_intro s x o f pg :
  heap_mark f → in_use s x o → flags pg = Z.lor (flags (mem_map s x)) f →
  marked (set_page s x pg) x o f.
Proof.
  intros Hf [Hz Ho Hin Hc Hu] Hpg. split; [done|done| | |done].
  - simpl. rewrite fn_lookup_insert.
    pose proof (mark_unflag f (mem_map s x) Hf (Hc x ltac:(auto with olux))) as H.
    unfold clear in *. simpl in *. by rewrite Hpg.
  - intros y Hy Hne. simpl. rewrite fn_lookup_insert_ne by done. by apply Hc.
Qed.

(** Clearing the mark again gives a block that may be freed. *)
Lemma unmark_in_use s x o f :
  heap_mark f → buddy_ok s → marked s x o f →
  let s' := set_page s x (unflag f (mem_map s x)) in quiet s s' ∧ in_use s' x o.
Proof.
  intros Hf Hok Hmk s'. pose proof (ok_wf s Hok) as Hwf.
  pose proof (marked_valid s x o f x Hmk ltac:(auto with olux)) as Hv.
  pose proof Hmk as [Ho Hin Hh Hrest Hu].
  assert (quiet s s') as Hq.
  { split; [done..|]. intros y. unfold s'. simpl. destruct (decide (x = y)) as [<-|].
    - right. rewrite fn_lookup_insert. split; [by apply Hu; auto with olux|].
      apply has_false. rewrite unflag_other by (auto || (destruct Hf as [-> | ->]; done)).
      apply has_false, used_unmarked; [done|done|]. apply Hu. auto with olux.
    - left. by rewrite fn_lookup_insert_ne. }
  split; [done|]. unfold in_use. rewrite (same_geom_zone s) by (by apply quiet_geom).
  split.
  - apply pfn_zone_in; [apply Hwf|]. eapply valid_range; [apply Hwf|done].
  - done.
  - apply (same_geom_block_in s); [by apply quiet_geom|done].
  - intros y Hy. unfold s'. simpl. destruct (decide (x = y)) as [<-|].
    + by rewrite fn_lookup_insert.
    + rewrite fn_lookup_insert_ne by done. by apply Hrest.
  - intros y Hy. rewrite (quiet_free s) by done. by apply Hu.
Qed.

(** ** Free lists in memory *)

Lemma flist_frame m m' head objs :
  (∀ o, o ∈ objs → rd64 m' o = rd64 m o) → flist m head objs → flist m' head objs.
Proof.
  revert head. induction objs as [|o objs IH]; intros head Hm; [done|].
  intros [-> H]. split; [done|]. rewrite Hm by apply list_elem_of_here.
  apply IH; [|done]. intros. apply Hm. by apply list_elem_of_further.
Qed.

Lemma flist_fun m head objs objs' :
  Forall (λ o, o ≠ 0) objs → Forall (λ o, o ≠ 0) objs' →
  flist m head objs → flist m head objs' → objs = objs'.
Proof.
  revert head objs'. induction objs as [|o objs IH]; intros head [|o' objs'] Hn Hn' H H';
    simpl in *; try done.
  - apply Forall_cons in Hn' as [? _]. destruct H'. congruence.
  - apply Forall_cons in Hn as [? _]. destruct H. congruence.
  - apply Forall_cons in Hn as [_ Hn], Hn' as [_ Hn']. destruct H as [<- H], H' as [<- H'].
    f_equal. by eapply IH.
Qed.

Lemma on_freelist_flist fuel m head objs obj :
  flist m head objs → Forall (λ o, o ≠ 0) objs → (length objs < fuel)%nat →
  on_freelist fuel m head obj = Some (bool_decide (obj ∈ objs)).
Proof.
  revert head objs. induction fuel as [|fuel IH]; intros head objs H Hn Hf; [lia|]. simpl.
  destruct objs as [|o objs]; simpl in H.
  - subst. by rewrite bool_decide_false by apply not_elem_of_nil.
  - destruct H as [-> H]. apply Forall_cons in Hn as [Ho Hn]. simpl in Hf.
    replace (o =? 0) with false by lia. destruct (o =? obj) eqn:E; zbool.
    + subst. rewrite bool_decide_true; [done|apply list_elem_of_here].
    + rewrite (IH _ objs) by (done || lia). f_equal. apply bool_decide_ext.
      rewrite elem_of_cons. split; [by right|]. intros [?|?]; [congruence|done].
Qed.

Lemma slab_nonzero K x objs :
  0 ≤ x < 2 ^ 26 → slab_ok K x objs → Forall (λ o, o ≠ 0) objs.
Proof.
  intros Hx [Hci _ _ Hs _ _ _]. eapply Forall_impl; [done|]. simpl. intros o Ho.
  by eapply slot_u64.
Qed.

(** The number of objects of a page bounds its free list. *)
Lemma slots_length x ci objs :
  (ci < NR_CLASSES)%nat → NoDup objs → Forall (slot x ci) objs → Z.of_nat (length objs) ≤ cap ci.
Proof.
  intros Hci Hnd Hs. pose proof (csz_bounds ci Hci).
  assert (objs ⊆ (λ k, page_address x + k * csz ci) <$> seqZ 0 (cap ci)) as Hsub.
  { intros a Ha. rewrite Forall_forall in Hs. destruct (Hs a Ha) as (k & Hk & ->).
    apply list_elem_of_fmap. exists k. split; [done|]. apply elem_of_seqZ. lia. }
  pose proof (submseteq_length _ _ (NoDup_submseteq _ _ Hnd Hsub)) as Hlen.
  rewrite length_fmap, length_seqZ in Hlen. lia.
Qed.

(** ** Updates that leave most pages alone *)

(** Nothing that the heap knows about page [y] has changed. *)
Definition same_slab (K K' : kheap) (y : Z) : Prop :=
  kpage K' y = kpage K y ∧ (∀ a, pgb y a → kram K' a = kram K a) ∧
  ∀ ci, (ci < NR_CLASSES)%nat → y ∈ partial (classes K' ci) ↔ y ∈ partial (classes K ci).

Lemma same_slab_sym K K' y : same_slab K K' y → same_slab K' K y.
Proof.
  intros (H1 & H2 & H3). split_and!; [done| |].
  - intros a Ha. symmetry. by apply H2.
  - intros ci Hci. symmetry. by apply H3.
Qed.

Lemma slot_words_kept K K' y ci o :
  (ci < NR_CLASSES)%nat → slot y ci o → (∀ a, pgb y a → kram K' a = kram K a) →
  rd64 (kram K') o = rd64 (kram K) o ∧ rd64 (kram K') (o + 8) = rd64 (kram K) (o + 8).
Proof.
  intros Hci Ho Hm. pose proof (csz_bounds ci Hci).
  split; apply rd64_ext; intros a Ha; apply Hm; apply (slot_pgb y ci o); done || lia.
Qed.

Lemma slab_ok_frame K K' y objs : same_slab K K' y → slab_ok K y objs → slab_ok K' y objs.
Proof.
  intros (Hp & Hm & Hpart) [Hci Hl Hnd Hs Hmg Hin Hpt].
  assert (∀ o, o ∈ objs → rd64 (kram K') o = rd64 (kram K) o ∧
                          rd64 (kram K') (o + 8) = rd64 (kram K) (o + 8)) as Hw.
  { intros o Ho. rewrite Forall_forall in Hs. by eapply slot_words_kept; [|apply Hs|]. }
  split; rewrite ?Hp; try done.
  - eapply flist_frame; [|done]. intros o Ho. by apply Hw.
  - rewrite Forall_forall in *. intros o Ho. rewrite (proj2 (Hw o Ho)). by apply Hmg.
  - by rewrite Hpart.
Qed.

Lemma live_in_frame K K' y a n : same_slab K K' y → live_in K' y a n ↔ live_in K y a n.
Proof.
  intros Hs. pose proof (same_slab_sym _ _ _ Hs) as Hs'. pose proof Hs as (Hp & _ & _).
  unfold live_in. rewrite Hp.
  split; (intros [(H1 & objs & H2 & H3)|H]; [left|by right]); (split; [done|]); exists objs;
    (split; [|done]); by eapply slab_ok_frame.
Qed.

(** The block of a large object is in use and holds no slab and no other
    large object. *)
Lemma large_block K y z :
  kok K → valid (pa K) y → has (flags (kpage K y)) PG_COMPOUND = true →
  blk y (order (kpage K y)) z →
  valid (pa K) z ∧ ¬ is_free (pa K) z ∧ has (flags (kpage K z)) PG_SLAB = false ∧
  (z ≠ y → has (flags (kpage K z)) PG_COMPOUND = false).
Proof.
  intros HK Hy Hc Hz. pose proof (k_large K HK y Hy Hc) as Hmk.
  split; [by eapply marked_valid|]. split; [by apply (mk_used _ _ _ _ Hmk)|].
  destruct (decide (z = y)) as [->|Hne].
  - split; [|done]. by apply (marked_flags _ _ _ _ ltac:(by right) Hmk).
  - destruct (clear_mask _ (mk_rest _ _ _ _ Hmk z Hz Hne)) as (_ & _ & Hs & Hcm).
    split; [by apply has_false|]. intros _. by apply has_false.
Qed.

(** A free page carries no mark. *)
Lemma free_unmarked s x : buddy_wf s → is_free s x → clear (mem_map s x) ∧ valid s x.
Proof.
  intros Hwf (zi & o & p & Hf & Hx). split; [by eapply wf_clear|].
  destruct (wf_block s Hwf _ _ _ Hf) as ((_ & ? & ? & _) & _). unfold valid, blk in *. lia.
Qed.

Section Update.

(** [K'] comes from [K] by changes to the pages [X]. *)
Context (K K' : kheap) (X : Z → Prop).
Hypothesis HK : kok K.
Hypothesis Hbuddy : buddy_ok (pa K').
Hypothesis Hgeom : same_geom (pa K) (pa K').
Hypothesis Hsize : ∀ ci, (ci < NR_CLASSES)%nat → sc_size (classes K' ci) = sc_size (classes K ci).
Hypothesis Hdec : ∀ y, X y ∨ ¬ X y.
Hypothesis Hkeep : ∀ y, valid (pa K) y → ¬ X y →
  same_slab K K' y ∧ (is_free (pa K') y → is_free (pa K) y).
(** No large object lies half inside [X]. *)
Hypothesis Hlarge : ∀ y z, valid (pa K) y → ¬ X y → has (flags (kpage K y)) PG_COMPOUND = true →
  blk y (order (kpage K y)) z → ¬ X z.

Lemma update_kok :
  (∀ y, valid (pa K) y → X y → has (flags (kpage K' y)) PG_SLAB = true →
     marked (pa K') y 0 PG_SLAB ∧ ∃ objs, slab_ok K' y objs) →
  (∀ y, valid (pa K) y → X y → has (flags (kpage K' y)) PG_COMPOUND = true →
     marked (pa K') y (order (kpage K' y)) PG_COMPOUND) →
  (∀ ci y, (ci < NR_CLASSES)%nat → y ∈ partial (classes K' ci) →
     (¬ X y ∧ y ∈ partial (classes K ci)) ∨
     (valid (pa K) y ∧ has (flags (kpage K' y)) PG_SLAB = true ∧ slab_class (kpage K' y) = ci)) →
  (∀ ci, (ci < NR_CLASSES)%nat → NoDup (partial (classes K' ci))) →
  kok K'.
Proof.
  intros HXslab HXlarge Hpart Hnd. split; [done| | | | |done].
  - intros ci Hci. rewrite Hsize by done. by apply HK.
  - intros y. rewrite (same_geom_valid (pa K)) by done. intros Hv Hs.
    destruct (Hdec y) as [HX|HX]; [by apply HXslab|].
    destruct (Hkeep y Hv HX) as [Hsame Hfree]. pose proof Hsame as (Hp & _ & _). rewrite Hp in Hs.
    destruct (k_slab K HK y Hv Hs) as [Hmk [objs Hobjs]]. split.
    + apply (marked_frame (pa K)); [done| | |done];
        intros z Hz; change (y ≤ z < y + 1) in Hz; replace z with y by lia; [done|].
      intros Hf. apply (mk_used _ _ _ _ Hmk y); [auto with olux|by apply Hfree].
    + exists objs. by apply (slab_ok_frame K).
  - intros y. rewrite (same_geom_valid (pa K)) by done. intros Hv Hc.
    destruct (Hdec y) as [HX|HX]; [by apply HXlarge|].
    destruct (Hkeep y Hv HX) as [(Hp & _ & _) _]. rewrite Hp in *.
    apply (marked_frame (pa K)); [done| | |by apply HK]; intros z Hz;
      destruct (large_block K y z HK Hv Hc Hz) as (Hvz & Hnf & _);
      pose proof (Hlarge y z Hv HX Hc Hz) as HXz; destruct (Hkeep z Hvz HXz) as [(Hpz & _) Hfz];
      [done|tauto].
  - intros ci y Hci Hy. rewrite (same_geom_valid (pa K)) by done.
    destruct (Hpart ci y Hci Hy) as [[HX Hy']|]; [|done].
    destruct (k_part K HK ci y Hci Hy') as (Hv & Hs & Hcl).
    destruct (Hkeep y Hv HX) as [(Hp & _ & _) _]. by rewrite Hp.
Qed.

Lemma update_live a n :
  live K' a n ↔ (∃ y, valid (pa K) y ∧ X y ∧ live_in K' y a n) ∨
                (∃ y, valid (pa K) y ∧ ¬ X y ∧ live_in K y a n).
Proof.
  unfold live. setoid_rewrite (same_geom_valid (pa K) (pa K')); [|done]. split.
  - intros (y & Hv & Hl). destruct (Hdec y) as [HX|HX]; [left; eauto|right].
    exists y. split_and!; [done..|]. by apply (live_in_frame K K'); [apply Hkeep|].
  - intros [(y & Hv & _ & Hl)|(y & Hv & HX & Hl)]; exists y; [done|].
    split; [done|]. by apply (live_in_frame K K'); [apply Hkeep|].
Qed.

(** Objects outside [X] keep their contents. *)
Lemma update_bytes y a n b :
  valid (pa K) y → ¬ X y → live_in K y a n → a ≤ b < a + n → kram K' b = kram K b.
Proof.
  intros Hv HX Hl Hb. pose proof (wf_geom _ (ok_wf _ (k_buddy K HK))) as Hg.
  destruct Hl as [(Hs & objs & Hok & Hsl & _ & ->)|(Hc & -> & ->)].
  - destruct (Hkeep y Hv HX) as [(_ & Hm & _) _]. apply Hm.
    eapply slot_pgb; [apply (sl_ci _ _ _ Hok)|done|done].
  - set (o := order (kpage K y)) in *. pose proof (valid_range _ _ Hg Hv) as Hyr.
    assert (∃ q, 0 ≤ q < bsize o ∧ q * PAGE_SIZE ≤ b - page_address y < (q + 1) * PAGE_SIZE)
      as (q & Hq & Hbq).
    { exists ((b - page_address y) / PAGE_SIZE).
      pose proof (Z.div_mod (b - page_address y) PAGE_SIZE ltac:(done)).
      pose proof (Z.mod_pos_bound (b - page_address y) PAGE_SIZE ltac:(done)).
      split; [|lia].
      split; [apply Z.div_pos; [lia|done]|apply Z.div_lt_upper_bound; [done|lia]]. }
    assert (blk y o (y + q)) as Hz by (unfold blk; lia).
    destruct (large_block K y _ HK Hv Hc Hz) as (Hvz & _).
    destruct (Hkeep _ Hvz (Hlarge y _ Hv HX Hc Hz)) as [(_ & Hm & _) _].
    apply Hm. unfold pgb. rewrite (page_address_eq (y + q)) by (by eapply valid_range).
    rewrite (page_address_eq y) in Hbq by done. lia.
Qed.

End Update.

(** ** Live objects *)

(** The live objects of a slab page, given its free list. *)
Lemma live_in_slab K x objs a n :
  0 ≤ x < 2 ^ 26 → has (flags (kpage K x)) PG_SLAB = true →
  has (flags (kpage K x)) PG_COMPOUND = false → slab_ok K x objs →
  live_in K x a n ↔
  slot x (slab_class (kpage K x)) a ∧ a ∉ objs ∧ n = csz (slab_class (kpage K x)).
Proof.
  intros Hx Hs Hc Hok. unfold live_in. split; [|intros H; left; eauto].
  intros [(_ & objs' & Hok' & H)|(Hc' & _)]; [|congruence].
  replace objs with objs'; [done|].
  eapply flist_fun; [by eapply slab_nonzero|by eapply slab_nonzero|apply Hok'|apply Hok].
Qed.

(** Where the bytes of a live object are. *)
Lemma live_in_range K y a n :
  kok K → valid (pa K) y → live_in K y a n →
  0 < n ∧ page_address y ≤ a ∧
  (has (flags (kpage K y)) PG_SLAB = true ∧ a + n ≤ page_address y + PAGE_SIZE ∨
   has (flags (kpage K y)) PG_COMPOUND = true ∧ a = page_address y ∧
   n = PAGE_SIZE * bsize (order (kpage K y))).
Proof.
  intros HK Hv [(Hs & objs & Hok & Hsl & _ & ->)|(Hc & -> & ->)].
  - pose proof (sl_ci _ _ _ Hok) as Hci. pose proof (csz_bounds _ Hci).
    destruct (slot_range _ _ _ Hci Hsl). split_and!; [lia|done|by left].
  - pose proof (bsize_pos (order (kpage K y))). split_and!; [unfold PAGE_SIZE; lia|lia|by right].
Qed.

Lemma live_in_pgb K y a n : kok K → valid (pa K) y → live_in K y a n → pgb y a.
Proof.
  intros HK Hy Hl. destruct (live_in_range K y a n HK Hy Hl) as (? & ? & Hr). unfold pgb.
  destruct Hr as [[_ ?]|(_ & -> & _)]; [lia|unfold PAGE_SIZE; lia].
Qed.

(** A live object is one of the page that its address lies in. *)
Lemma live_at K x a n :
  kok K → valid (pa K) x → pgb x a → live K a n → live_in K x a n.
Proof.
  intros HK Hx Ha (y & Hy & Hl). pose proof (wf_geom _ (ok_wf _ (k_buddy K HK))) as Hg.
  replace x with y; [done|]. apply (pgb_unique y x a); [by eapply valid_range..| |done].
  by eapply live_in_pgb.
Qed.

(** Live objects of different pages do not overlap. *)
Lemma live_apart K y z a n b k :
  kok K → valid (pa K) y → valid (pa K) z → y < z →
  live_in K y a n → live_in K z b k → a + n ≤ b.
Proof.
  intros HK Hy Hz Hlt Hl Hl'. pose proof (wf_geom _ (ok_wf _ (k_buddy K HK))) as Hg.
  destruct (live_in_range K y a n HK Hy Hl) as (_ & _ & Hr).
  destruct (live_in_range K z b k HK Hz Hl') as (_ & Hb & Hr').
  rewrite page_address_eq in * by (by eapply valid_range).
  destruct Hr as [[Hs Hr]|(Hc & -> & ->)]; [unfold PAGE_SIZE in *; lia|].
  assert (y + bsize (order (kpage K y)) ≤ z) as Hle.
  { destruct (decide (z < y + bsize (order (kpage K y)))) as [Hin|]; [|lia]. exfalso.
    destruct (large_block K y z HK Hy Hc ltac:(unfold blk; lia)) as (_ & _ & Hns & Hnc).
    specialize (Hnc ltac:(lia)). destruct Hr' as [[? _]|(? & _)]; congruence. }
  unfold PAGE_SIZE in *. lia.
Qed.

Lemma live_disjoint K a n b k :
  kok K → live K a n → live K b k → (a = b ∧ n = k) ∨ a + n ≤ b ∨ b + k ≤ a.
Proof.
  intros HK (y & Hy & Hl) (z & Hz & Hl').
  destruct (decide (y < z)); [right; left; by eapply (live_apart K y z)|].
  destruct (decide (z < y)); [right; right; by eapply (live_apart K z y)|].
  assert (z = y) as -> by lia. clear Hz.
  pose proof (wf_geom _ (ok_wf _ (k_buddy K HK))) as Hg.
  destruct Hl as [(Hs & objs & Hok & Hsl & Hni & ->)|(Hc & -> & ->)].
  - destruct (k_slab K HK y Hy Hs) as [Hmk _].
    destruct (marked_flags _ _ _ _ ltac:(by left) Hmk) as (_ & Hnc & _). specialize (Hnc eq_refl).
    apply (live_in_slab K y objs b k) in Hl' as (Hsl' & _ & ->); try done; [|by eapply valid_range].
    destruct (decide (a = b)) as [->|]; [by left|right].
    by apply (slot_apart y (slab_class (kpage K y))); [apply Hok|..].
  - destruct Hl' as [(Hs & _)|(_ & -> & ->)]; [|by left].
    pose proof (k_large K HK y Hy Hc) as Hmk.
    destruct (marked_flags _ _ _ _ ltac:(by right) Hmk) as (_ & _ & Hns).
    specialize (Hns eq_refl). unfold kpage in *. congruence.
Qed.

(** What allocating the object [p] of [n] bytes does. *)
Record grown (K K' : kheap) (p n : Z) : Prop := {
  g_ok : kok K';
  g_live a k : live K' a k ↔ live K a k ∨ (a = p ∧ k = n);
  g_fresh k : ¬ live K p k;
  g_bytes a k b : live K a k → a ≤ b < a + k → kram K' b = kram K b;
  g_count : bytes_in_use K' = bytes_in_use K ⊕ n;
}.

Lemma quiet_set_page s x pg :
  ¬ is_free s x → has (flags pg) PG_BUDDY = false → quiet s (set_page s x pg).
Proof.
  intros Hn Hb. split; [done..|]. intros y. simpl. destruct (decide (x = y)) as [<-|].
  - right. by rewrite fn_lookup_insert.
  - left. by rewrite fn_lookup_insert_ne.
Qed.

(** A change to one slab page that stays a slab page of its class. *)
Lemma slab_change K K' x :
  kok K → valid (pa K) x → has (flags (kpage K x)) PG_SLAB = true →
  (∀ y, y ≠ x → kpage K' y = kpage K y) →
  flags (kpage K' x) = flags (kpage K x) →
  quiet (pa K) (pa K') →
  (∀ a, ¬ pgb x a → kram K' a = kram K a) →
  (∀ ci, (ci < NR_CLASSES)%nat → sc_size (classes K' ci) = sc_size (classes K ci)) →
  (∀ ci y, (ci < NR_CLASSES)%nat → y ≠ x →
     y ∈ partial (classes K' ci) ↔ y ∈ partial (classes K ci)) →
  (∀ ci, (ci < NR_CLASSES)%nat → x ∈ partial (classes K' ci) → slab_class (kpage K' x) = ci) →
  (∀ ci, (ci < NR_CLASSES)%nat → NoDup (partial (classes K' ci))) →
  (∃ objs, slab_ok K' x objs) →
  kok K' ∧
  (∀ a n, live K' a n ↔ live_in K' x a n ∨ (∃ y, valid (pa K) y ∧ y ≠ x ∧ live_in K y a n)) ∧
  (∀ y a n b, valid (pa K) y → y ≠ x → live_in K y a n → a ≤ b < a + n → kram K' b = kram K b).
Proof.
  intros HK Hv Hs Hpages Hfl Hq Hram Hsize Hpart Hcl Hnd Hobjs.
  pose proof (wf_geom _ (ok_wf _ (k_buddy K HK))) as Hg.
  assert (∀ y, valid (pa K) y → y ≠ x →
    same_slab K K' y ∧ (is_free (pa K') y → is_free (pa K) y)) as Hkeep.
  { intros y Hy Hne. split; [|by rewrite (quiet_free (pa K))]. split_and!; [by apply Hpages| |].
    - intros a Ha. apply Hram. intros Ha'. apply Hne.
      by eapply pgb_unique; [eapply valid_range|eapply valid_range| |].
    - intros ci Hci. by apply Hpart. }
  assert (∀ y z, valid (pa K) y → y ≠ x → has (flags (kpage K y)) PG_COMPOUND = true →
    blk y (order (kpage K y)) z → z ≠ x) as Hlarge.
  { intros y z Hy Hne Hc Hz ->. destruct (large_block K y x HK Hy Hc Hz) as (_ & _ & Hns & _).
    congruence. }
  assert (∀ y, y = x ∨ y ≠ x) as Hdec by (intros; lia).
  destruct (k_slab K HK x Hv Hs) as [Hmk _].
  destruct (marked_flags _ _ _ _ ltac:(by left) Hmk) as (_ & Hnc & _). specialize (Hnc eq_refl).
  split_and!.
  - apply (update_kok K K' (λ y, y = x)); try done.
    + by apply (quiet_ok (pa K)); [apply HK|].
    + by apply quiet_geom.
    + intros y _ -> _. split; [|done].
      assert (∀ y, blk x 0 y → y = x) as H1 by (intros y Hy; change (x ≤ y < x + 1) in Hy; lia).
      destruct Hmk as [H2 H3 H4 H5 H6]. split; [done|..].
      * rewrite (same_geom_zone (pa K)), (same_geom_block_in (pa K)) by (by apply quiet_geom). done.
      * unfold clear in *. simpl in *. unfold kpage in Hfl. by rewrite Hfl.
      * intros y Hy%H1. done.
      * intros y Hy. rewrite (quiet_free (pa K)) by done. by apply H6.
    + intros y _ -> Hc'. unfold kpage in *. rewrite Hfl in Hc'. congruence.
    + intros ci y Hci Hy. destruct (Hdec y) as [->|Hne]; [right|left; by rewrite <-Hpart].
      rewrite Hfl. split_and!; [done..|]. by apply Hcl.
  - intros a n. rewrite (update_live K K' (λ y, y = x)) by (done || by apply quiet_geom).
    split; (intros [?|?]; [left|right]); naive_solver.
  - intros y a n b Hy Hne. by apply (update_bytes K K' (λ y, y = x)).
Qed.

(** ** [kmalloc] of a small object *)

(** The memory after the new object has been cleared or unmarked. *)
Definition fresh_mem (gfp obj sz : Z) (m : mem) : mem :=
  if has gfp GFP_ZERO then memset m obj 0 sz else wr64 m (obj + 8) 0.

Lemma fresh_mem_out gfp obj sz m a :
  16 ≤ sz → a < obj ∨ obj + sz ≤ a → fresh_mem gfp obj sz m a = m a.
Proof.
  intros Hsz Ha. unfold fresh_mem. case_test.
  - rewrite memset_fill by lia. unfold mem_fill. case_test; [lia|done].
  - apply wr64_other. lia.
Qed.

Lemma fresh_mem_zero gfp obj sz m a :
  0 ≤ sz → has gfp GFP_ZERO = true → obj ≤ a < obj + sz → fresh_mem gfp obj sz m a = 0.
Proof.
  intros Hsz Hz Ha. unfold fresh_mem. rewrite Hz, memset_fill by lia. unfold mem_fill.
  case_test; [done|]. zsplit; lia.
Qed.

(** The heap after [take_object] has taken the object [o]. *)
Definition taken_heap (K : kheap) (ci : nat) (x gfp o fl : Z) : kheap :=
  let c := classes K ci in
  let pg := kpage K x in
  KHeap (set_ram (set_page (pa K) x (set_slab pg (slab_class pg) (wrap32 (slab_inuse pg + 1)) fl))
           (fresh_mem gfp o (sc_size c) (kram K)))
    (if fl =? 0 then <[ci := SlabCache (sc_size c) (lremove x (partial c)) (sc_pages c)]> (classes K)
     else classes K)
    (bytes_in_use K ⊕ sc_size c).

Lemma take_object_eq K ci x gfp o :
  freelist (kpage K x) = o → rd64 (kram K) (o + 8) = FREE_MAGIC →
  take_object K ci x gfp = Ok (taken_heap K ci x gfp o (rd64 (kram K) o), o).
Proof.
  intros <- Hm. unfold take_object, taken_heap, fresh_mem. rewrite Hm, Z.eqb_refl, andb_false_r.
  by destruct (rd64 (kram K) (freelist (kpage K x)) =? 0), (has gfp GFP_ZERO).
Qed.

Section Take.

Context (K : kheap) (ci : nat) (x gfp o : Z) (rest : list Z).
Hypothesis HK : kok K.
Hypothesis Hci : (ci < NR_CLASSES)%nat.
Hypothesis Hv : valid (pa K) x.
Hypothesis Hs : has (flags (kpage K x)) PG_SLAB = true.
Hypothesis Hcl : slab_class (kpage K x) = ci.
Hypothesis Hok : slab_ok K x (o :: rest).

Let fl := rd64 (kram K) o.
Let K' := taken_heap K ci x gfp o fl.

Lemma taken_fl : fl = 0 ↔ rest = [].
Proof.
  destruct Hok as [_ [_ Hl] _ Hsl _ _ _]. fold fl in Hl. rewrite Hcl in Hsl.
  apply Forall_cons in Hsl as [_ Hsl]. destruct rest as [|o' rest']; simpl in Hl; [done|].
  destruct Hl as [-> _]. split; [|done]. intros ->. apply Forall_cons in Hsl as [Hsl _].
  destruct (slot_u64 x ci 0 Hci) as [_ Hn]; [|done|done].
  eapply valid_range; [apply (wf_geom _ (ok_wf _ (k_buddy K HK)))|done].
Qed.

Lemma taken_part ci' y :
  y ∈ partial (classes K' ci') ↔
  y ∈ partial (classes K ci') ∧ ¬ (rest = [] ∧ ci' = ci ∧ y = x).
Proof.
  unfold K', taken_heap. simpl. rewrite <-taken_fl. destruct (fl =? 0) eqn:E; zbool.
  - destruct (decide (ci = ci')) as [<-|].
    + rewrite fn_lookup_insert. simpl. rewrite elem_of_lremove. naive_solver.
    + rewrite fn_lookup_insert_ne by done. naive_solver.
  - naive_solver.
Qed.

Lemma taken_page y : y ≠ x → kpage K' y = kpage K y.
Proof. intros Hne. unfold K', taken_heap, kpage. simpl. by rewrite fn_lookup_insert_ne. Qed.

Lemma taken_page_x :
  kpage K' x = set_slab (kpage K x) ci (wrap32 (slab_inuse (kpage K x) + 1)) fl.
Proof. unfold K', taken_heap, kpage. simpl. by rewrite fn_lookup_insert, <-Hcl. Qed.

Lemma taken_kram a : a < o ∨ o + csz ci ≤ a → kram K' a = kram K a.
Proof.
  intros Ha. unfold K', taken_heap, kram. simpl. rewrite (k_size K HK) by done.
  apply fresh_mem_out; [|done]. by apply csz_bounds.
Qed.

(** The rest of the free list is untouched. *)
Lemma taken_slab : slab_ok K' x rest.
Proof.
  pose proof (csz_bounds ci Hci) as Hsz. pose proof Hok as [_ [_ Hl] Hnd Hsl Hmg Hin Hpt].
  fold fl in Hl. rewrite Hcl in *. apply NoDup_cons in Hnd as [Hni Hnd].
  apply Forall_cons in Hsl as [Ho Hsl], Hmg as [_ Hmg].
  assert (∀ o', o' ∈ rest → ∀ d, d = 0 ∨ d = 8 → rd64 (kram K') (o' + d) = rd64 (kram K) (o' + d))
    as Hw.
  { intros o' Ho' d Hd. apply rd64_ext. intros a Ha. apply taken_kram.
    rewrite Forall_forall in Hsl.
    destruct (slot_apart x ci o o' Hci Ho (Hsl o' Ho')) as [?|?]; [congruence|lia..]. }
  pose proof taken_page_x as Hpx.
  split; rewrite ?Hpx; cbn [set_slab slab_class freelist slab_inuse]; try done.
  - eapply flist_frame; [|done]. intros o' Ho'. rewrite <-(Z.add_0_r o'). apply Hw; auto.
  - rewrite Forall_forall in *. intros o' Ho'. rewrite Hw by auto. by apply Hmg.
  - rewrite Hin. simpl length.
    pose proof (slots_length x ci (o :: rest) Hci ltac:(by apply NoDup_cons)
      ltac:(by apply Forall_cons)) as Hlen. simpl length in Hlen.
    unfold wrap32. rewrite Z.mod_small by (unfold U32; lia). lia.
  - rewrite taken_part, Hpt. naive_solver.
Qed.

Lemma take_grown : grown K K' o (csz ci).
Proof.
  pose proof (csz_bounds ci Hci) as Hsz. pose proof Hok as [_ _ Hnd Hsl _ _ _]. rewrite Hcl in Hsl.
  apply NoDup_cons in Hnd as [Hni _]. apply Forall_cons in Hsl as [Ho _].
  pose proof (valid_range _ _ (wf_geom _ (ok_wf _ (k_buddy K HK))) Hv) as Hxr.
  destruct (k_slab K HK x Hv Hs) as [Hmk _].
  destruct (marked_flags _ _ _ _ ltac:(by left) Hmk) as (_ & Hnc & _). specialize (Hnc eq_refl).
  assert (flags (kpage K' x) = flags (kpage K x)) as Hfl by (by rewrite taken_page_x).
  assert (quiet (pa K) (pa K')) as Hq.
  { apply quiet_set_ram, quiet_set_page; [apply (mk_used _ _ _ _ Hmk); auto with olux|]. simpl.
    apply used_unmarked; [apply HK|done|]. apply (mk_used _ _ _ _ Hmk). auto with olux. }
  destruct (slab_change K K' x HK Hv Hs taken_page Hfl Hq) as (Hok' & Hlive & Hbytes).
  - intros a Ha. apply taken_kram. destruct (slot_range x ci o Hci Ho). unfold pgb in Ha. lia.
  - intros ci' _. unfold K', taken_heap. simpl. case_test; [|done].
    destruct (decide (ci = ci')) as [<-|]; [by rewrite fn_lookup_insert|by rewrite fn_lookup_insert_ne].
  - intros ci' y _ Hne. rewrite taken_part. naive_solver.
  - intros ci' Hci' [Hin _]%taken_part. rewrite taken_page_x. simpl.
    by destruct (k_part K HK ci' x Hci' Hin) as (_ & _ & <-).
  - intros ci' Hci'. pose proof (k_nodup K HK ci' Hci'). unfold K', taken_heap. simpl.
    case_test; [|done]. destruct (decide (ci = ci')) as [<-|].
    + rewrite fn_lookup_insert. by apply lremove_NoDup.
    + by rewrite fn_lookup_insert_ne.
  - exists rest. apply taken_slab.
  - assert (∀ a n, live_in K' x a n ↔ live_in K x a n ∨ (a = o ∧ n = csz ci)) as Hx.
    { intros a n. rewrite (live_in_slab K' x rest), (live_in_slab K x (o :: rest));
        rewrite ?Hfl; try done; [|apply taken_slab]. rewrite taken_page_x. simpl. rewrite Hcl.
      rewrite not_elem_of_cons. destruct (decide (a = o)) as [->|]; naive_solver. }
    split; [done| | | |].
    + intros a k. rewrite Hlive, Hx. unfold live. split.
      * intros [[?|?]|(y & ? & ? & ?)]; [left; by exists x|by right|left; by exists y].
      * intros [(y & Hy & Hl)|?]; [|by left; right].
        destruct (decide (y = x)) as [->|]; [by left; left|right; by exists y].
    + intros k Hl. destruct (proj1 (live_in_slab K x (o :: rest) o k Hxr Hs Hnc Hok)) as (_ & Hn & _);
        [|apply Hn, list_elem_of_here].
      apply live_at; [done|done| |done]. apply (slot_pgb x ci o); [done..|lia].
    + intros a k b (y & Hy & Hl) Hb. destruct (decide (y = x)) as [->|Hne]; [|by eapply Hbytes].
      apply (live_in_slab K x (o :: rest)) in Hl as (Hsl & Hn & ->); try done. rewrite Hcl in *.
      apply taken_kram. apply not_elem_of_cons in Hn as [Hn _].
      destruct (slot_apart x ci a o Hci Hsl Ho Hn); lia.
    + unfold K', taken_heap. simpl. by rewrite (k_size K HK).
Qed.

End Take.

(** ** A new slab page *)

Definition objects (base sz : Z) (n : nat) : list Z := (λ k, base + k * sz) <$> seqZ 0 (Z.of_nat n).

Lemma objects_S base sz n : objects base sz (S n) = objects base sz n ++ [base + Z.of_nat n * sz].
Proof.
  unfold objects. rewrite Nat2Z.inj_succ, <-Z.add_1_r, seqZ_app, fmap_app by lia. done.
Qed.

(** The loop links the objects in ascending order in front of [objs]. *)
Lemma carve_spec n m base sz head objs :
  16 ≤ sz → (0 < n)%nat → 0 ≤ base → base + Z.of_nat n * sz < U64 → u64_ok head →
  flist m head objs → Forall (λ o, rd64 m (o + 8) = FREE_MAGIC) objs →
  Forall (λ o, base + Z.of_nat n * sz ≤ o) objs →
  let '(m', h) := carve n m base ((Z.of_nat n - 1) * sz) sz head in
  flist m' h (objects base sz n ++ objs) ∧
  Forall (λ o, rd64 m' (o + 8) = FREE_MAGIC) (objects base sz n ++ objs) ∧
  (∀ a, a < base ∨ base + Z.of_nat n * sz ≤ a → m' a = m a).
Proof.
  intros Hsz. revert m head objs. induction n as [|n IH]; intros m head objs Hn Hb Hu Hh Hl Hmg Hab; [lia|].
  rewrite Nat2Z.inj_succ in *. replace ((Z.succ (Z.of_nat n) - 1) * sz) with (Z.of_nat n * sz) by lia.
  cbn [carve]. set (obj := base + Z.of_nat n * sz).
  replace (Z.of_nat n * sz <? 0) with false by nia. replace (16 <=? sz) with true by lia.
  set (m1 := wr64 (wr64 m obj head) (obj + 8) FREE_MAGIC).
  assert (∀ a, a < obj ∨ obj + 16 ≤ a → m1 a = m a) as Hout
    by (intros; unfold m1; rewrite !wr64_other by lia; done).
  assert (rd64 m1 obj = head) as Hrd.
  { rewrite (rd64_ext (wr64 m obj head)); [by apply rd64_wr64|].
    intros a Ha. apply wr64_other. lia. }
  assert (∀ o, o ∈ objs → ∀ d, 0 ≤ d → rd64 m1 (o + d) = rd64 m (o + d)) as Hrest.
  { intros o Ho d Hd. rewrite Forall_forall in Hab. specialize (Hab o Ho). apply rd64_ext.
    intros a Ha. apply Hout. unfold obj. lia. }
  assert (flist m1 obj (obj :: objs)) as Hl1.
  { split; [done|]. rewrite Hrd. eapply flist_frame; [|done]. intros o Ho.
    rewrite <-(Z.add_0_r o). by apply Hrest. }
  assert (Forall (λ o, rd64 m1 (o + 8) = FREE_MAGIC) (obj :: objs)) as Hmg1.
  { apply Forall_cons. split; [by apply rd64_wr64|]. rewrite Forall_forall in *. intros o Ho.
    rewrite Hrest by (done || lia). by apply Hmg. }
  rewrite objects_S, <-app_assoc. simpl app. fold obj.
  destruct (Z.of_nat n * sz =? 0) eqn:E; zbool.
  - assert (n = 0%nat) as -> by nia. split_and!; [done..|]. intros a Ha. apply Hout. unfold obj. lia.
  - specialize (IH m1 obj (obj :: objs)). replace (Z.of_nat n * sz - sz) with ((Z.of_nat n - 1) * sz) by lia.
    destruct (carve n m1 base ((Z.of_nat n - 1) * sz) sz obj) as [m' h].
    destruct IH as (H1 & H2 & H3); try done; try (unfold u64_ok, obj; nia).
    { apply Forall_cons. split; [lia|]. eapply Forall_impl; [done|]. simpl. intros o Ho. nia. }
    split_and!; [done..|]. intros a Ha. rewrite H3 by nia. apply Hout. unfold obj. nia.
Qed.

Lemma objects_slots x ci :
  (ci < NR_CLASSES)%nat →
  NoDup (objects (page_address x) (csz ci) (Z.to_nat (cap ci))) ∧
  ∀ a, a ∈ objects (page_address x) (csz ci) (Z.to_nat (cap ci)) ↔ slot x ci a.
Proof.
  intros Hci. pose proof (csz_bounds ci Hci). unfold objects. rewrite Z2Nat.id by lia. split.
  - apply NoDup_fmap_2; [|apply NoDup_seqZ]. intros k l E. nia.
  - intros a. rewrite list_elem_of_fmap. unfold slot. split.
    + intros (k & -> & Hk%elem_of_seqZ). exists k. split; [lia|done].
    + intros (k & Hk & ->). exists k. split; [done|]. apply elem_of_seqZ. lia.
Qed.

(** What the new page looks like. *)
Record slab_page (K K' : kheap) (s : pagealloc) (ci : nat) (x head : Z) : Prop := {
  sp_page : kpage K' x = Page (Z.lor (flags (mem_map s x)) PG_SLAB) (refcount (mem_map s x))
                          (order (mem_map s x)) ci 0 head;
  sp_other y : y ≠ x → kpage K' y = mem_map s y;
  sp_zones : zones (pa K') = zones s;
  sp_base : mem_map_base_pfn (pa K') = mem_map_base_pfn s;
  sp_pfns : mem_map_pfns (pa K') = mem_map_pfns s;
  sp_class : classes K' = <[ci := SlabCache (sc_size (classes K ci)) (x :: partial (classes K ci))
                                    (sc_pages (classes K ci) ⊕ 1)]> (classes K);
  sp_bytes : bytes_in_use K' = bytes_in_use K;
}.

Lemma new_slab_eq K ci s x :
  alloc_pages (pa K) 0 0 = Ok (s, Some x) →
  let sz := sc_size (classes K ci) in
  ∃ K' head, new_slab K ci = Ok (K', Some x) ∧ slab_page K K' s ci x head ∧
    carve (Z.to_nat (PAGE_SIZE / sz)) (ram s) (page_address x) (PAGE_SIZE - sz) sz 0 = (kram K', head).
Proof.
  intros Hal sz. unfold new_slab. rewrite Hal. cbn [obind]. simpl.
  fold sz. unfold kram. simpl.
  destruct (carve _ (ram s) _ _ _ _) as [m head] eqn:Hc. eexists _, head.
  split; [done|]. split; [|done].
  split; unfold kpage; simpl; rewrite ?fn_lookup_insert; try done.
  intros y Hne. rewrite !fn_lookup_insert_ne by done. done.
Qed.

(** The same live objects with the same contents. *)
Definition same_live (K K' : kheap) : Prop :=
  (∀ a n, live K' a n ↔ live K a n) ∧
  (∀ a n b, live K a n → a ≤ b < a + n → kram K' b = kram K b) ∧
  bytes_in_use K' = bytes_in_use K.

(** A free page has no live object. *)
Lemma live_in_used K x a n : kok K → is_free (pa K) x → ¬ live_in K x a n.
Proof.
  intros HK Hf Hl. destruct (free_unmarked _ x (ok_wf _ (k_buddy K HK)) Hf) as [Hc Hv].
  destruct (clear_mask _ Hc) as (_ & _ & Hs & Hcm). apply has_false in Hs, Hcm.
  unfold live_in, kpage in Hl. rewrite Hs, Hcm in Hl. destruct Hl as [[? _]|[? _]]; done.
Qed.

Lemma slab_page_slab K K' s ci x head :
  (ci < NR_CLASSES)%nat → 0 ≤ x < 2 ^ 26 → sc_size (classes K ci) = csz ci →
  slab_page K K' s ci x head →
  carve (Z.to_nat (PAGE_SIZE / csz ci)) (ram s) (page_address x) (PAGE_SIZE - csz ci) (csz ci) 0 =
    (kram K', head) →
  slab_ok K' x (objects (page_address x) (csz ci) (Z.to_nat (cap ci))) ∧
  (∀ a, ¬ pgb x a → kram K' a = ram s a).
Proof.
  intros Hci Hx Hsz Hsp Hcv. pose proof (csz_bounds ci Hci) as Hb.
  destruct (csz_cases ci Hci) as (_ & _ & _ & _ & Hcap).
  destruct (objects_slots x ci Hci) as [Hnd Hobj].
  pose proof (page_address_eq x Hx) as Hpa.
  pose proof (carve_spec (Z.to_nat (cap ci)) (ram s) (page_address x) (csz ci) 0 []) as Hspec.
  rewrite Z2Nat.id in Hspec by lia.
  replace ((cap ci - 1) * csz ci) with (PAGE_SIZE - csz ci) in Hspec by lia.
  change (PAGE_SIZE / csz ci) with (cap ci) in Hcv. rewrite Hcv in Hspec. rewrite !app_nil_r in Hspec.
  destruct Hspec as (Hl & Hmg & Hout);
    [lia|lia|unfold PAGE_OFFSET, PAGE_SIZE in *; lia|unfold PAGE_OFFSET, PAGE_SIZE, U64 in *; lia
    |unfold u64_ok, U64; lia|done|by apply Forall_nil|by apply Forall_nil|].
  split; [|intros a Ha; apply Hout; unfold pgb in Ha; lia].
  pose proof (sp_page _ _ _ _ _ _ Hsp) as Hpg.
  split; rewrite ?Hpg; simpl; try done.
  - apply Forall_forall. intros a. apply Hobj.
  - unfold objects. rewrite length_fmap, length_seqZ. lia.
  - rewrite (sp_class _ _ _ _ _ _ Hsp), fn_lookup_insert. simpl. split; [|intros; apply list_elem_of_here].
    intros _ E. assert (page_address x ∈ @nil Z) as Hin; [|by apply not_elem_of_nil in Hin].
    rewrite <-E. apply Hobj. exists 0. lia.
Qed.

(** Marks on the page that came from the page allocator. *)
Lemma slab_page_quiet K K' s ci x head :
  kok K → allocated (pa K) s 0 x 0 → slab_page K K' s ci x head →
  quiet s (pa K') ∧ marked (pa K') x 0 PG_SLAB ∧
  has (flags (kpage K' x)) PG_SLAB = true ∧ has (flags (kpage K' x)) PG_COMPOUND = false.
Proof.
  intros HK Hal Hsp. pose proof (k_buddy K HK) as Hok. pose proof (al_ok _ _ _ _ _ Hal) as Hok'.
  assert (blk x 0 x) as Hxx by auto with olux.
  destruct (al_block _ _ _ _ _ Hal x Hxx) as (Hfx & Hvx & _ & Hclr & _).
  assert (¬ is_free s x) as Hnf by (rewrite (al_set _ _ _ _ _ Hal); tauto).
  pose proof (sp_page _ _ _ _ _ _ Hsp) as Hpg.
  assert (has (flags (kpage K' x)) PG_BUDDY = false) as Hnb.
  { rewrite Hpg. simpl. apply has_false. rewrite Z.land_lor_distr_l.
    change (Z.land PG_SLAB PG_BUDDY) with 0. rewrite Z.lor_0_r. apply has_false.
    apply used_unmarked; [apply Hok'| |done]. by rewrite (same_geom_valid (pa K)) by apply Hal. }
  assert (quiet s (pa K')) as Hq.
  { split; [apply Hsp..|]. intros y. destruct (decide (y = x)) as [->|Hne]; [by right|left].
    by apply Hsp. }
  split_and!; [done| | |].
  - destruct (clear_mask _ Hclr) as (_ & _ & _ & Hcm).
    pose proof (allocated_in_use (pa K) s 0 x 0 Hok Hal) as Hin.
    pose proof (marked_intro s x 0 PG_SLAB (kpage K' x) ltac:(by left) Hin) as Hmk.
    specialize (Hmk ltac:(by rewrite Hpg)).
    apply (marked_frame (set_page s x (kpage K' x))); [| | |done].
    + split_and!; [apply Hsp..|]. intros zi. simpl. by rewrite (sp_zones _ _ _ _ _ _ Hsp).
    + intros y Hy. change (x ≤ y < x + 1) in Hy. replace y with x by lia. simpl.
      by rewrite fn_lookup_insert.
    + intros y Hy. change (x ≤ y < x + 1) in Hy. replace y with x by lia.
      by rewrite (quiet_free s).
  - rewrite Hpg. simpl. by apply has_lor.
  - rewrite Hpg. simpl. apply has_false. rewrite Z.land_lor_distr_l.
    destruct (clear_mask _ Hclr) as (_ & _ & _ & ->). done.
Qed.

(** Pages taken from the page allocator join the heap. *)
Lemma alloc_update K K' x o :
  kok K → buddy_ok (pa K') → same_geom (pa K) (pa K') →
  (∀ ci, (ci < NR_CLASSES)%nat → sc_size (classes K' ci) = sc_size (classes K ci)) →
  (∀ y, is_free (pa K') y ↔ is_free (pa K) y ∧ ¬ blk x o y) →
  (∀ y, blk x o y → is_free (pa K) y) →
  (∀ y, valid (pa K) y → ¬ is_free (pa K) y → same_slab K K' y) →
  (∀ y, blk x o y → has (flags (kpage K' y)) PG_SLAB = true →
     marked (pa K') y 0 PG_SLAB ∧ ∃ objs, slab_ok K' y objs) →
  (∀ y, blk x o y → has (flags (kpage K' y)) PG_COMPOUND = true →
     marked (pa K') y (order (kpage K' y)) PG_COMPOUND) →
  (∀ ci y, (ci < NR_CLASSES)%nat → y ∈ partial (classes K' ci) →
     y ∈ partial (classes K ci) ∨
     (blk x o y ∧ has (flags (kpage K' y)) PG_SLAB = true ∧ slab_class (kpage K' y) = ci)) →
  (∀ ci, (ci < NR_CLASSES)%nat → NoDup (partial (classes K' ci))) →
  kok K' ∧
  (∀ a n, live K' a n ↔ live K a n ∨ ∃ y, blk x o y ∧ live_in K' y a n) ∧
  (∀ a n b, live K a n → a ≤ b < a + n → kram K' b = kram K b).
Proof.
  intros HK Hok' Hg Hsize Hfree Hin Hkeep Hslab Hlarge' Hpart Hnd.
  pose proof (ok_wf _ (k_buddy K HK)) as Hwf.
  assert (∀ y, valid (pa K) y → ¬ is_free (pa K) y →
    same_slab K K' y ∧ (is_free (pa K') y → is_free (pa K) y)) as Hkeep'.
  { intros y Hy Hnf. split; [by apply Hkeep|]. by intros [? _]%Hfree. }
  assert (∀ y z, valid (pa K) y → ¬ is_free (pa K) y → has (flags (kpage K y)) PG_COMPOUND = true →
    blk y (order (kpage K y)) z → ¬ is_free (pa K) z) as Hlarge.
  { intros y z Hy _ Hc Hz. by apply (large_block K y z). }
  (* a page that was free is in the block or still free, and then unmarked *)
  assert (∀ y, is_free (pa K) y → blk x o y ∨
    (has (flags (kpage K' y)) PG_SLAB = false ∧ has (flags (kpage K' y)) PG_COMPOUND = false)) as Hmarks.
  { intros y Hy. destruct (decide (x ≤ y < x + bsize o)) as [Hb|Hb]; [by left|right].
    destruct (free_unmarked (pa K') y (ok_wf _ Hok')) as [Hc _]; [by apply Hfree|].
    destruct (clear_mask _ Hc) as (_ & _ & ? & ?). split; by apply has_false. }
  assert (∀ y a n, is_free (pa K) y → live_in K' y a n → blk x o y) as Hlin.
  { intros y a n Hy [(Hs & _)|(Hc & _)]; destruct (Hmarks y Hy) as [|[??]]; congruence || done. }
  split_and!.
  - apply (update_kok K K' (is_free (pa K))); try done; [apply is_free_dec| | |].
    + intros y _ Hy Hs. apply Hslab; [|done]. destruct (Hmarks y Hy) as [|[??]]; congruence || done.
    + intros y _ Hy Hc. apply Hlarge'; [|done]. destruct (Hmarks y Hy) as [|[??]]; congruence || done.
    + intros ci y Hci Hy. destruct (Hpart ci y Hci Hy) as [Hy'|(Hb & ? & ?)]; [left|right].
      * split; [|done]. destruct (k_part K HK ci y Hci Hy') as (Hv & Hs & _).
        destruct (k_slab K HK y Hv Hs) as [Hmk _]. apply (mk_used _ _ _ _ Hmk). auto with olux.
      * split; [|done]. by apply free_unmarked, Hin.
  - intros a n. rewrite (update_live K K' (is_free (pa K))) by (done || apply is_free_dec).
    unfold live. split.
    + intros [(y & Hv & Hy & Hl)|(y & Hv & _ & Hl)]; [right; eauto|left; eauto].
    + intros [(y & Hv & Hl)|(y & Hb & Hl)]; [right|left]; exists y.
      * split_and!; [done| |done]. intros Hy. by apply (live_in_used K y a n).
      * split_and!; [by apply free_unmarked, Hin|by apply Hin|done].
  - intros a n b (y & Hv & Hl). apply (update_bytes K K' (is_free (pa K)) HK Hkeep' Hlarge y); [done| |done].
    intros Hy. by apply (live_in_used K y a n).
Qed.

Lemma set_pa_id K : set_pa K (pa K) = K.
Proof. by destruct K. Qed.

Lemma new_slab_spec K ci :
  kok K → (ci < NR_CLASSES)%nat →
  match new_slab K ci with
  | Ok (K', Some x) =>
      kok K' ∧ same_live K K' ∧ x ∈ partial (classes K' ci)
  | Ok (K', None) => K' = K ∧ no_run (pa K) 0 0
  | Panic => False
  end.
Proof.
  intros HK Hci. pose proof (k_buddy K HK) as Hok. pose proof (alloc_pages_spec (pa K) 0 0 Hok) as Hspec.
  destruct (alloc_pages (pa K) 0 0) as [[s [x|]]|] eqn:Hal; [| |done].
  2: { unfold new_slab. rewrite Hal. simpl. destruct Hspec as [-> [Ho|Hno]];
         [unfold MAX_ORDER in Ho; lia|]. by rewrite set_pa_id. }
  destruct (new_slab_eq K ci s x Hal) as (K' & head & -> & Hsp & Hcv). cbv zeta in Hcv.
  rewrite (k_size K HK) in Hcv by done.
  destruct (al_block _ _ _ _ _ Hspec x ltac:(auto with olux)) as (Hfx & Hvx & _).
  pose proof (wf_geom _ (ok_wf _ Hok)) as Hg. pose proof (valid_range _ _ Hg Hvx) as Hxr.
  destruct (slab_page_slab K K' s ci x head Hci Hxr (k_size K HK ci Hci) Hsp Hcv) as [Hslab Hram].
  destruct (slab_page_quiet K K' s ci x head HK Hspec Hsp) as (Hq & Hmk & Hs & Hnc).
  assert (same_geom (pa K) (pa K')) as Hgg by (transitivity s; [apply Hspec|by apply quiet_geom]).
  assert (∀ y, is_free (pa K') y ↔ is_free (pa K) y ∧ ¬ blk x 0 y) as Hfree.
  { intros y. by rewrite (quiet_free s), (al_set _ _ _ _ _ Hspec) by done. }
  assert (∀ y, blk x 0 y → y = x) as Hone by (intros y Hy; change (x ≤ y < x + 1) in Hy; lia).
  assert (∀ ci' y, y ∈ partial (classes K' ci') ↔
                   y ∈ partial (classes K ci') ∨ (ci' = ci ∧ y = x)) as Hpart.
  { intros ci' y. rewrite (sp_class _ _ _ _ _ _ Hsp). destruct (decide (ci = ci')) as [<-|].
    - rewrite fn_lookup_insert. simpl. rewrite elem_of_cons. naive_solver.
    - rewrite fn_lookup_insert_ne by done. naive_solver. }
  assert (∀ y, valid (pa K) y → ¬ is_free (pa K) y → same_slab K K' y) as Hkeep.
  { intros y Hy Hnf. assert (y ≠ x) as Hne by (by intros ->). split_and!.
    - rewrite (sp_other _ _ _ _ _ _ Hsp) by done. by apply Hspec.
    - intros a Ha. rewrite Hram; [apply Hspec; by left|]. intros Ha'. apply Hne.
      by eapply pgb_unique; [eapply valid_range| | |].
    - intros ci' _. rewrite Hpart. naive_solver. }
  destruct (alloc_update K K' x 0 HK (quiet_ok s _ (al_ok _ _ _ _ _ Hspec) Hq) Hgg)
    as (Hok' & Hlive & Hbytes); try done.
  - intros ci' _. rewrite (sp_class _ _ _ _ _ _ Hsp). destruct (decide (ci = ci')) as [<-|].
    + by rewrite fn_lookup_insert.
    + by rewrite fn_lookup_insert_ne.
  - by intros y ->%Hone.
  - intros y ->%Hone _. eauto.
  - intros y ->%Hone. congruence.
  - intros ci' y _ [?|[-> ->]]%Hpart; [by left|right]. rewrite (sp_page _ _ _ _ _ _ Hsp) at 2.
    split_and!; [auto with olux|done|done].
  - intros ci' Hci'. pose proof (k_nodup K HK ci' Hci') as Hnd. rewrite (sp_class _ _ _ _ _ _ Hsp).
    destruct (decide (ci = ci')) as [<-|]; [|by rewrite fn_lookup_insert_ne].
    rewrite fn_lookup_insert. apply NoDup_cons. split; [|done]. intros Hx.
    destruct (k_part K HK ci x Hci' Hx) as (_ & Hsx & _). destruct (k_slab K HK x Hvx Hsx) as [Hmk' _].
    by apply (mk_used _ _ _ _ Hmk' x); [auto with olux|].
  - split_and!; [done| |apply Hpart; by right]. split_and!; [|done|apply Hsp]. intros a n. rewrite Hlive.
    split; [|by left]. intros [?|(y & ->%Hone & Hl)]; [done|exfalso].
    apply (live_in_slab K' x _ a n Hxr Hs Hnc Hslab) in Hl as (Hsl & Hn & _).
    rewrite (sp_page _ _ _ _ _ _ Hsp) in Hsl. apply Hn. by apply objects_slots.
Qed.

(** ** [kmalloc] *)

Lemma pick_slab_spec K ci :
  kok K → (ci < NR_CLASSES)%nat →
  match pick_slab K ci with
  | Ok (K', Some x) => kok K' ∧ same_live K K' ∧ x ∈ partial (classes K' ci)
  | Ok (K', None) => K' = K ∧ no_run (pa K) 0 0
  | Panic => False
  end.
Proof.
  intros HK Hci. unfold pick_slab. destruct (partial (classes K ci)) as [|x l] eqn:E.
  - by apply new_slab_spec.
  - split_and!; [done|by repeat split|]. rewrite E. apply list_elem_of_here.
Qed.

Lemma take_object_spec K ci x gfp :
  kok K → (ci < NR_CLASSES)%nat → x ∈ partial (classes K ci) →
  ∃ K' o, take_object K ci x gfp = Ok (K', o) ∧ grown K K' o (csz ci) ∧ slot x ci o ∧
    valid (pa K) x ∧
    (has gfp GFP_ZERO = true → ∀ b, o ≤ b < o + csz ci → kram K' b = 0).
Proof.
  intros HK Hci Hx. destruct (k_part K HK ci x Hci Hx) as (Hv & Hs & Hcl).
  destruct (k_slab K HK x Hv Hs) as [_ [objs Hok]].
  destruct objs as [|o rest].
  { exfalso. apply (sl_part _ _ _ Hok); [by rewrite Hcl|done]. }
  pose proof (sl_list _ _ _ Hok) as [Hfl _]. pose proof (sl_magic _ _ _ Hok) as [Hmg _]%Forall_cons.
  pose proof (sl_slots _ _ _ Hok) as [Hsl _]%Forall_cons. rewrite Hcl in Hsl.
  eexists _, o. split; [by apply take_object_eq|]. split; [by eapply take_grown|].
  split_and!; [done|done|]. intros Hz b Hb. unfold taken_heap, kram. simpl.
  rewrite (k_size K HK) by done. pose proof (csz_bounds ci Hci).
  apply fresh_mem_zero; [lia|done|done].
Qed.

Lemma size_class_spec K size :
  kok K →
  match size_class K size with
  | Some ci => (ci < NR_CLASSES)%nat ∧ size ≤ csz ci ∧ (∀ ci', (ci' < ci)%nat → csz ci' < size)
  | None => 2048 < size
  end.
Proof.
  intros HK. unfold size_class.
  assert (∀ n i, (i + n = NR_CLASSES)%nat → (∀ ci', (ci' < i)%nat → csz ci' < size) →
    match size_class_from n i K size with
    | Some ci => (ci < NR_CLASSES)%nat ∧ size ≤ csz ci ∧ (∀ ci', (ci' < ci)%nat → csz ci' < size)
    | None => ∀ ci', (ci' < NR_CLASSES)%nat → csz ci' < size
    end) as H.
  { induction n as [|n IH]; intros i Hi Hlt; simpl.
    - intros ci' Hci'. apply Hlt. lia.
    - rewrite (k_size K HK) by lia. destruct (size <=? csz i) eqn:E; zbool.
      + split_and!; [lia|done|done].
      + apply IH; [lia|]. intros ci' Hci'. destruct (decide (ci' = i)) as [->|]; [done|apply Hlt; lia]. }
  specialize (H NR_CLASSES 0%nat eq_refl ltac:(lia)).
  destruct size_class_from; [done|]. apply (H 7%nat). unfold NR_CLASSES. lia.
Qed.

(** The order loop ends for sizes up to 2^63, and only for those. *)
Lemma order_for_spec size :
  2048 < size ≤ 2 ^ 63 →
  ∃ o, order_for size = Some o ∧ size ≤ PAGE_SIZE * bsize o ∧ (o ≤ 51)%nat ∧
       ∀ o', (o' < o)%nat → PAGE_SIZE * bsize o' < size.
Proof.
  intros Hsize. unfold order_for.
  assert (∀ n o, (o + n = 64)%nat → (o ≤ 51)%nat → (∀ o', (o' < o)%nat → PAGE_SIZE * bsize o' < size) →
    ∃ r, order_from n o size = Some r ∧ size ≤ PAGE_SIZE * bsize r ∧ (r ≤ 51)%nat ∧
       ∀ o', (o' < r)%nat → PAGE_SIZE * bsize o' < size) as H; [|apply H; lia].
  induction n as [|n IH]; intros o Hn Ho Hlt; [lia|]. cbn [order_from].
  assert (PAGE_SIZE * bsize o ≤ 2 ^ 63) as Hb.
  { pose proof (bsize_le o 51 Ho) as Hle. change (bsize 51) with (2 ^ 51) in Hle.
    unfold PAGE_SIZE. lia. }
  pose proof (bsize_pos o). rewrite wrap64_small by (unfold U64, PAGE_SIZE in *; lia).
  destruct (PAGE_SIZE * bsize o <? size) eqn:E; zbool.
  - apply IH; [lia| |].
    + assert (o ≠ 51%nat) as Hne; [|lia]. intros ->. change (bsize 51) with (2 ^ 51) in E.
      unfold PAGE_SIZE in E. lia.
    + intros o' Ho'. destruct (decide (o' = o)) as [->|]; [done|apply Hlt; lia].
  - exists o. split_and!; [done|lia|lia|done].
Qed.

(** A request for more than 2^63 bytes: every shift gives less than [size]. *)
Lemma order_for_none size : 2 ^ 63 < size < U64 → order_for size = None.
Proof.
  intros Hsize. unfold order_for.
  assert (∀ n o, (o + n = 64)%nat → order_from n o size = None) as H; [|by apply H].
  induction n as [|n IH]; intros o Ho; [done|]. cbn [order_from].
  assert (wrap64 (PAGE_SIZE * bsize o) ≤ 2 ^ 63) as Hle.
  { rewrite bsize_pow. change PAGE_SIZE with (2 ^ 12). rewrite <-Z.pow_add_r by lia.
    destruct (decide (o ≤ 51)%nat).
    - rewrite wrap64_small; [apply Z.pow_le_mono_r; lia|].
      split; [lia|]. apply Z.pow_lt_mono_r; lia.
    - unfold wrap64. replace (12 + Z.of_nat o) with (64 + (Z.of_nat o - 52)) by lia.
      rewrite Z.pow_add_r by lia. change (2 ^ 64) with U64. rewrite Z.mul_comm, Z.mod_mul; [lia|done]. }
  replace (wrap64 (PAGE_SIZE * bsize o) <? size) with true by lia. apply IH. lia.
Qed.

(** *** A large object *)

Section Large.

Context (K K' : kheap) (s : pagealloc) (x gfp size : Z) (o : nat).
Let pg := set_order (set_flags (mem_map s x) (Z.lor (flags (mem_map s x)) PG_COMPOUND)) o.
Hypothesis HK : kok K.
Hypothesis Hal : allocated (pa K) s gfp x o.
Hypothesis Hgfp : has gfp GFP_ZERO = false.
Hypothesis Hsize : 0 ≤ size ≤ PAGE_SIZE * bsize o.
Hypothesis Hpages : ∀ y, kpage K' y = if decide (y = x) then pg else mem_map s y.
Hypothesis Hzones : zones (pa K') = zones s.
Hypothesis Hbase : mem_map_base_pfn (pa K') = mem_map_base_pfn s.
Hypothesis Hpfns : mem_map_pfns (pa K') = mem_map_pfns s.
Hypothesis Hram : ∀ a, a < page_address x ∨ page_address x + size ≤ a → kram K' a = ram s a.
Hypothesis Hclasses : classes K' = classes K.
Hypothesis Hbytes : bytes_in_use K' = bytes_in_use K ⊕ PAGE_SIZE * bsize o.

Lemma large_blk y : blk x o y → is_free (pa K) y ∧ valid (pa K) y ∧ clear (mem_map s y).
Proof. intros Hy. by destruct (al_block _ _ _ _ _ Hal y Hy) as (? & ? & _ & ? & _). Qed.

Lemma large_used y : blk x o y → ¬ is_free s y.
Proof. intros Hy. rewrite (al_set _ _ _ _ _ Hal). tauto. Qed.

Lemma large_flags :
  has (flags pg) PG_BUDDY = false ∧ has (flags pg) PG_SLAB = false ∧
  has (flags pg) PG_COMPOUND = true.
Proof.
  destruct (large_blk x ltac:(auto with olux)) as (_ & Hvx & Hcx).
  destruct (clear_mask _ Hcx) as (_ & _ & Hs & _). simpl. split_and!; [| |by apply has_lor];
    apply has_false; rewrite Z.land_lor_distr_l; rewrite Z.lor_0_r; [|done]. apply has_false.
  apply used_unmarked; [apply Hal|by rewrite (same_geom_valid (pa K)) by apply Hal|].
  apply large_used. auto with olux.
Qed.

Lemma large_page_x : kpage K' x = pg.
Proof. rewrite Hpages. by rewrite decide_True. Qed.

Lemma large_quiet : quiet s (pa K').
Proof.
  split; [done..|]. intros y. change (mem_map (pa K') y) with (kpage K' y). rewrite Hpages.
  destruct decide as [->|]; [right|by left]. split; [apply large_used; auto with olux|].
  apply large_flags.
Qed.

Lemma large_marked : marked (pa K') x o PG_COMPOUND.
Proof.
  pose proof (allocated_in_use _ _ _ _ _ (k_buddy K HK) Hal) as Hin.
  pose proof (marked_intro s x o PG_COMPOUND pg ltac:(by right) Hin eq_refl) as Hmk.
  apply (marked_frame (set_page s x pg)); [| | |done].
  - split_and!; [done..|]. intros zi. simpl. by rewrite Hzones.
  - intros y Hy. change (mem_map (pa K') y) with (kpage K' y). rewrite Hpages. simpl.
    destruct decide as [->|]; [by rewrite fn_lookup_insert|by rewrite fn_lookup_insert_ne].
  - intros y Hy. rewrite (quiet_free s) by apply large_quiet. by apply large_used.
Qed.

(** The bytes of the block lie in its pages. *)
Lemma large_bytes y a :
  valid (pa K) y → ¬ is_free (pa K) y → pgb y a → kram K' a = kram K a.
Proof.
  intros Hv Hnf Ha. rewrite Hram; [apply Hal; by left|].
  pose proof (wf_geom _ (ok_wf _ (k_buddy K HK))) as Hg.
  destruct (large_blk x ltac:(auto with olux)) as (_ & Hvx & _).
  destruct (decide (x ≤ y < x + bsize o)) as [Hin|Hout]; [by destruct Hnf; apply large_blk|].
  unfold pgb in Ha. rewrite page_address_eq in * by (by eapply valid_range).
  unfold PAGE_SIZE in *. nia.
Qed.

Lemma large_grown : grown K K' (page_address x) (PAGE_SIZE * bsize o).
Proof.
  pose proof large_quiet as Hq. destruct large_flags as (Hnb & Hns & Hc).
  pose proof (k_buddy K HK) as Hok.
  assert (same_geom (pa K) (pa K')) as Hgg by (transitivity s; [apply Hal|by apply quiet_geom]).
  assert (∀ y, blk x o y → y ≠ x → clear (kpage K' y)) as Hclr.
  { intros y Hy Hne. rewrite Hpages, decide_False by done. by apply large_blk. }
  destruct (alloc_update K K' x o HK (quiet_ok s _ (al_ok _ _ _ _ _ Hal) Hq) Hgg)
    as (Hok' & Hlive & Hkept).
  - intros ci _. by rewrite Hclasses.
  - intros y. by rewrite (quiet_free s), (al_set _ _ _ _ _ Hal).
  - intros y Hy. by apply large_blk.
  - intros y Hv Hnf. split_and!; [|intros a Ha; by apply (large_bytes y)|by rewrite Hclasses].
    rewrite Hpages, decide_False; [by apply Hal|]. intros ->. apply Hnf, large_blk. auto with olux.
  - intros y Hy Hs. exfalso. destruct (decide (y = x)) as [->|Hne].
    + rewrite large_page_x in Hs. congruence.
    + destruct (clear_mask _ (Hclr y Hy Hne)) as (_ & _ & Hs' & _). apply has_false in Hs'. congruence.
  - intros y Hy Hcy. destruct (decide (y = x)) as [->|Hne].
    + rewrite large_page_x. apply large_marked.
    + destruct (clear_mask _ (Hclr y Hy Hne)) as (_ & _ & _ & Hc'). apply has_false in Hc'. congruence.
  - intros ci y _. rewrite Hclasses. by left.
  - intros ci Hci. rewrite Hclasses. by apply HK.
  - assert (∀ y a n, blk x o y → live_in K' y a n ↔ y = x ∧ a = page_address x ∧ n = PAGE_SIZE * bsize o)
      as Hl.
    { intros y a n Hy. unfold live_in. destruct (decide (y = x)) as [->|Hne].
      - rewrite large_page_x, Hns, Hc. simpl. naive_solver.
      - destruct (clear_mask _ (Hclr y Hy Hne)) as (_ & _ & Hs' & Hc').
        apply has_false in Hs', Hc'. rewrite Hs', Hc'. naive_solver. }
    split; [done| | | |done].
    + intros a k. rewrite Hlive. split; (intros [?|H]; [by left|right]).
      * destruct H as (y & Hy & (_ & ? & ?)%Hl); done.
      * destruct H as [-> ->]. exists x. split; [auto with olux|]. apply Hl; auto with olux.
    + intros k Hlk. destruct (large_blk x ltac:(auto with olux)) as (Hfx & Hvx & _).
      apply (live_in_used K x (page_address x) k HK Hfx). apply live_at; [done..| |done].
      unfold pgb, PAGE_SIZE. lia.
    + intros a k b. apply Hkept.
Qed.

End Large.

Lemma grown_after K K1 K' p n : same_live K K1 → grown K1 K' p n → grown K K' p n.
Proof.
  intros (Hl & Hb & Hc) [H1 H2 H3 H4 H5]. split; [done|..].
  - intros a k. by rewrite H2, Hl.
  - intros k. by rewrite <-Hl.
  - intros a k b Ha Hb'. rewrite (H4 a k b), (Hb a k b); by rewrite ?Hl.
  - by rewrite H5, Hc.
Qed.

(** Why a request fails: no page for a new slab, or no block large enough. *)
Definition exhausted (K : kheap) (size gfp : Z) : Prop :=
  (size ≤ 2048 ∧ no_run (pa K) 0 0) ∨
  ∃ o, order_for size = Some o ∧
    ((MAX_ORDER ≤ o)%nat ∨ no_run (pa K) (Z.land gfp (not32 GFP_ZERO)) o).

Lemma kmalloc_large_eq K size gfp o s x :
  alloc_pages (pa K) (Z.land gfp (not32 GFP_ZERO)) o = Ok (s, Some x) →
  (o < MAX_ORDER)%nat →
  ∃ K', kmalloc_large K size gfp o = Ok (K', page_address x) ∧
    (∀ y, kpage K' y = if decide (y = x)
       then set_order (set_flags (mem_map s x) (Z.lor (flags (mem_map s x)) PG_COMPOUND)) o
       else mem_map s y) ∧
    zones (pa K') = zones s ∧ mem_map_base_pfn (pa K') = mem_map_base_pfn s ∧
    mem_map_pfns (pa K') = mem_map_pfns s ∧
    kram K' = (if has gfp GFP_ZERO then memset (ram s) (page_address x) 0 size else ram s) ∧
    classes K' = classes K ∧ bytes_in_use K' = bytes_in_use K ⊕ PAGE_SIZE * bsize o.
Proof.
  intros Hal Ho. unfold kmalloc_large. rewrite Hal. cbn [obind].
  pose proof (bsize_max o Ho). pose proof (bsize_pos o).
  rewrite (wrap64_small (PAGE_SIZE * bsize o)) by (unfold PAGE_SIZE, U64; lia).
  eexists. split; [done|]. unfold kram, kpage.
  destruct (has gfp GFP_ZERO); simpl; split_and!; try done; intros y;
    (destruct (decide (y = x)) as [->|];
     [by rewrite !fn_lookup_insert|by rewrite !fn_lookup_insert_ne by congruence]).
Qed.

Lemma kmalloc_spec K size gfp :
  kok K → 0 < size ≤ 2 ^ 63 →
  ∃ K' p, kmalloc K size gfp = Some (Ok (K', p)) ∧
    ((p = 0 ∧ K' = K ∧ exhausted K size gfp) ∨
     (∃ n, p ≠ 0 ∧ size ≤ n ∧ grown K K' p n ∧
           (has gfp GFP_ZERO = true → ∀ b, p ≤ b < p + size → kram K' b = 0))).
Proof.
  intros HK Hsize. unfold kmalloc. replace (size =? 0) with false by lia.
  pose proof (size_class_spec K size HK) as Hcl. destruct (size_class K size) as [ci|].
  - destruct Hcl as (Hci & Hle & _). pose proof (pick_slab_spec K ci HK Hci) as Hp.
    destruct (pick_slab K ci) as [[K1 [x|]]|]; [| |done]; cbn [obind].
    + destruct Hp as (HK1 & Hsame & Hx).
      destruct (take_object_spec K1 ci x gfp HK1 Hci Hx) as (K' & o & -> & Hgr & Hsl & Hv & Hz).
      exists K', o. split; [done|right]. exists (csz ci). pose proof (csz_bounds ci Hci).
      split_and!; [|done|by eapply grown_after|intros; apply Hz; [done|lia]].
      apply (slot_u64 x ci o Hci); [|done].
      eapply valid_range; [apply (wf_geom _ (ok_wf _ (k_buddy K1 HK1)))|done].
    + destruct Hp as [-> Hno]. exists K, 0. split; [done|left]. split_and!; [done..|].
      left. split; [|done]. pose proof (csz_bounds ci Hci). lia.
  - destruct (order_for_spec size ltac:(lia)) as (o & Ho & Hle & _). rewrite Ho. simpl.
    pose proof (alloc_pages_spec (pa K) (Z.land gfp (not32 GFP_ZERO)) o (k_buddy K HK)) as Hal.
    destruct (alloc_pages (pa K) (Z.land gfp (not32 GFP_ZERO)) o) as [[s [x|]]|] eqn:Hrun; [| |done].
    + destruct (kmalloc_large_eq K size gfp o s x Hrun (al_order _ _ _ _ _ Hal))
        as (K' & -> & Hpg & Hz & Hb & Hp & Hram & Hc & Hby).
      exists K', (page_address x). split; [done|right]. exists (PAGE_SIZE * bsize o).
      destruct (al_block _ _ _ _ _ Hal x ltac:(auto with olux)) as (_ & Hv & _).
      pose proof (valid_range _ _ (wf_geom _ (ok_wf _ (k_buddy K HK))) Hv) as Hxr.
      split_and!; [|done| |].
      * rewrite page_address_eq by done. unfold PAGE_OFFSET, PAGE_SIZE. lia.
      * apply (large_grown K K' s x (Z.land gfp (not32 GFP_ZERO)) size o); try done; try lia.
        { apply has_false. by rewrite <-Z.land_assoc, Z.land_0_r. }
        intros a Ha. rewrite Hram. case_test; [|done]. rewrite memset_fill by lia.
        unfold mem_fill. case_test; [lia|done].
      * intros Hgz b Hb'. rewrite Hram, Hgz, memset_fill by lia. unfold mem_fill.
        case_test; [done|]. zsplit; lia.
    + destruct Hal as [-> Hno]. unfold kmalloc_large. rewrite Hrun. simpl. rewrite set_pa_id.
      exists K, 0. split; [done|left]. split_and!; [done..|]. right. by exists o.
Qed.

(** ** [kfree] *)

(** What freeing the object [p] does. *)
Record shrunk (K K' : kheap) (p n : Z) : Prop := {
  s_ok : kok K';
  s_live a k : live K' a k ↔ live K a k ∧ a ≠ p;
  s_bytes a k b : live K a k → a ≠ p → a ≤ b < a + k → kram K' b = kram K b;
  s_count : bytes_in_use K' = bytes_in_use K ⊖ n;
}.

(** Two large objects have disjoint blocks. *)
Lemma large_apart K x y z :
  kok K → valid (pa K) x → valid (pa K) y → x ≠ y →
  has (flags (kpage K x)) PG_COMPOUND = true → has (flags (kpage K y)) PG_COMPOUND = true →
  blk x (order (kpage K x)) z → ¬ blk y (order (kpage K y)) z.
Proof.
  intros HK Hx Hy Hne Hcx Hcy Hzx Hzy. destruct (decide (x < y)).
  - destruct (large_block K x y HK Hx Hcx) as (_ & _ & _ & Hn); [unfold blk in *; lia|].
    rewrite Hn in Hcy; done.
  - destruct (large_block K y x HK Hy Hcy) as (_ & _ & _ & Hn); [unfold blk in *; lia|].
    rewrite Hn in Hcx; done.
Qed.

(** Pages of a block that go back to the page allocator leave the heap. *)
Lemma free_update K K' x o :
  kok K → buddy_ok (pa K') → same_geom (pa K) (pa K') →
  (∀ ci, (ci < NR_CLASSES)%nat → sc_size (classes K' ci) = sc_size (classes K ci)) →
  (∀ y, is_free (pa K') y ↔ is_free (pa K) y ∨ blk x o y) →
  (∀ y, valid (pa K) y → ¬ is_free (pa K) y → ¬ blk x o y → same_slab K K' y) →
  (∀ y z, valid (pa K) y → ¬ blk x o y → has (flags (kpage K y)) PG_COMPOUND = true →
     blk y (order (kpage K y)) z → ¬ blk x o z) →
  (∀ ci y, (ci < NR_CLASSES)%nat → y ∈ partial (classes K' ci) →
     y ∈ partial (classes K ci) ∧ ¬ blk x o y) →
  (∀ ci, (ci < NR_CLASSES)%nat → NoDup (partial (classes K' ci))) →
  kok K' ∧
  (∀ a n, live K' a n ↔ ∃ y, valid (pa K) y ∧ ¬ blk x o y ∧ live_in K y a n) ∧
  (∀ y a n b, valid (pa K) y → ¬ blk x o y → live_in K y a n → a ≤ b < a + n →
     kram K' b = kram K b).
Proof.
  intros HK Hok' Hg Hsize Hfree Hkeep Hlg Hpart Hnd. set (X := is_free (pa K')).
  assert (∀ y, valid (pa K) y → ¬ X y →
    same_slab K K' y ∧ (is_free (pa K') y → is_free (pa K) y)) as Hkeep'.
  { intros y Hy HX. unfold X in HX. rewrite Hfree in HX. split; [apply Hkeep; tauto|].
    rewrite Hfree. tauto. }
  assert (∀ y z, valid (pa K) y → ¬ X y → has (flags (kpage K y)) PG_COMPOUND = true →
    blk y (order (kpage K y)) z → ¬ X z) as Hlarge.
  { intros y z Hy HX Hc Hz. unfold X in *. rewrite Hfree in *. intros [Hz'|Hz'].
    - by apply (large_block K y z).
    - by apply (Hlg y z); [|tauto|..]. }
  assert (∀ y, X y → has (flags (kpage K' y)) PG_SLAB = false ∧
                     has (flags (kpage K' y)) PG_COMPOUND = false) as Hmarks.
  { intros y Hy. destruct (free_unmarked (pa K') y (ok_wf _ Hok') Hy) as [Hc _].
    destruct (clear_mask _ Hc) as (_ & _ & ? & ?). split; by apply has_false. }
  assert (∀ y a n, live_in K y a n → valid (pa K) y → ¬ blk x o y → ¬ X y) as HnX.
  { intros y a n Hl Hv Hb. unfold X. rewrite Hfree. intros [Hf|]; [|done].
    by apply (live_in_used K y a n). }
  split_and!.
  - apply (update_kok K K' X); try done; [intros; apply is_free_dec|..].
    + intros y _ HX Hs. destruct (Hmarks y HX). congruence.
    + intros y _ HX Hc. destruct (Hmarks y HX). congruence.
    + intros ci y Hci Hy. left. destruct (Hpart ci y Hci Hy) as [Hy' Hb]. split; [|done].
      unfold X. rewrite Hfree. intros [Hf|]; [|done].
      destruct (k_part K HK ci y Hci Hy') as (Hv & Hs & _).
      destruct (k_slab K HK y Hv Hs) as [Hmk _].
      by apply (mk_used _ _ _ _ Hmk y); [auto with olux|].
  - intros a n. rewrite (update_live K K' X) by (done || intros; apply is_free_dec). split.
    + intros [(y & _ & HX & Hl)|(y & Hv & HX & Hl)].
      * destruct (Hmarks y HX) as [H1 H2]. destruct Hl as [[? _]|[? _]]; congruence.
      * exists y. split_and!; [done| |done]. intros Hb. apply HX. unfold X. rewrite Hfree. by right.
    + intros (y & Hv & Hb & Hl). right. exists y. split_and!; [done|by eapply HnX|done].
  - intros y a n b Hv Hb Hl. apply (update_bytes K K' X HK Hkeep' Hlarge y); [done| |done].
    by eapply HnX.
Qed.

(** A block of bytes in terms of its pages. *)
Lemma block_bytes_pgb x o y a :
  0 ≤ x < 2 ^ 26 → 0 ≤ y < 2 ^ 26 → pgb y a → block_bytes x o a → blk x o y.
Proof.
  intros Hx Hy. unfold pgb, block_bytes, blk. rewrite !page_address_eq by done.
  pose proof (bsize_pos o). unfold PAGE_SIZE. nia.
Qed.

(** Freeing a large object. *)
Lemma kfree_large dbg ko K x :
  kok K → valid (pa K) x → has (flags (kpage K x)) PG_COMPOUND = true →
  ∃ K', kfree dbg ko K (page_address x) = Some (Ok K') ∧
        shrunk K K' (page_address x) (PAGE_SIZE * bsize (order (kpage K x))).
Proof.
  intros HK Hv Hc. pose proof (k_buddy K HK) as Hok.
  pose proof (wf_geom _ (ok_wf _ Hok)) as Hg. pose proof (valid_range _ _ Hg Hv) as Hxr.
  pose proof (k_large K HK x Hv Hc) as Hmk. set (o := order (kpage K x)) in *.
  assert (pgb x (page_address x)) as Hpx by (unfold pgb, PAGE_SIZE; lia).
  pose proof (mk_order _ _ _ _ Hmk) as Ho. pose proof (bsize_max o Ho). pose proof (bsize_pos o).
  unfold kfree. replace (page_address x =? 0) with false.
  2: { rewrite page_address_eq by done. unfold PAGE_OFFSET, PAGE_SIZE. lia. }
  rewrite (virt_to_page_pgb ko x) by done. rewrite Hc. fold o.
  rewrite (wrap64_small (PAGE_SIZE * bsize o)) by (unfold PAGE_SIZE, U64; lia).
  destruct (unmark_in_use (pa K) x o PG_COMPOUND ltac:(by right) Hok Hmk) as [Hq Hin].
  set (s1 := set_page (pa K) x (unflag PG_COMPOUND (mem_map (pa K) x))) in *.
  destruct (free_pages_spec dbg s1 x o (quiet_ok _ _ Hok Hq) Hin) as (s2 & Hrun & Hrel).
  change (pa (add_bytes (set_kpage K x _) _)) with s1. rewrite Hrun. cbn [obind].
  eexists. split; [done|]. set (K' := set_pa _ s2).
  assert (∀ y, is_free (pa K') y ↔ is_free (pa K) y ∨ blk x o y) as Hfree.
  { intros y. change (pa K') with s2. by rewrite (rel_set _ _ _ _ Hrel), (quiet_free (pa K)) by done. }
  destruct (free_update K K' x o HK (rel_ok _ _ _ _ Hrel)) as (Hok' & Hlive & Hbytes); try done.
  - transitivity s1; [by apply quiet_geom|apply Hrel].
  - intros y Hvy Hnf Hnb. assert (y ≠ x) as Hne by (intros ->; auto with olux).
    split_and!; [| |done].
    + change (kpage K' y) with (mem_map s2 y). rewrite (rel_kept _ _ _ _ Hrel);
        [|by rewrite (quiet_free (pa K))|done]. unfold s1. simpl. by rewrite fn_lookup_insert_ne.
    + intros a Ha. change (kram K' a) with (ram s2 a). rewrite (rel_ram _ _ _ _ Hrel); [done|].
      intros Hbb. apply Hnb. eapply block_bytes_pgb; [done|by eapply valid_range|done|done].
  - intros y z Hvy Hnb Hcy Hz Hz'. assert (x ≠ y) as Hne by (intros ->; auto with olux).
    by apply (large_apart K x y z).
  - intros ci y Hci Hy. split; [done|]. intros Hb. destruct (k_part K HK ci y Hci Hy) as (_ & Hs & _).
    destruct (large_block K x y HK Hv Hc Hb) as (_ & _ & Hns & _). congruence.
  - intros ci Hci. by apply HK.
  - assert (∀ y a k, valid (pa K) y → live_in K y a k → (¬ blk x o y ↔ a ≠ page_address x)) as Hx.
    { intros y a k Hy Hl. pose proof (live_in_pgb K y a k HK Hy Hl) as Hp. split.
      - intros Hnb ->. apply Hnb. replace y with x; [auto with olux|].
        by eapply pgb_unique; [|eapply valid_range| |].
      - intros Hne Hb. destruct (large_block K x y HK Hv Hc Hb) as (_ & _ & Hns & Hnc).
        destruct (decide (y = x)) as [->|Hny]; [|specialize (Hnc Hny)];
          destruct Hl as [[? _]|(? & ? & _)]; congruence. }
    split; [done| | |].
    + intros a k. rewrite Hlive. unfold live. split.
      * intros (y & Hy & Hb & Hl). split; [by exists y|by apply (Hx y a k)].
      * intros [(y & Hy & Hl) Hne]. exists y. split_and!; [done|by apply (Hx y a k)|done].
    + intros a k b (y & Hy & Hl) Hne Hb. eapply (Hbytes y a k); [done|by apply (Hx y a k)|done|done].
    + simpl. by rewrite sub64_add.
Qed.
