(* ===== verification/KmallocSpec.v ===== *)
(** * The contract of the kernel heap

    The rest of the proof of [kfree] (objects of a slab page) and the theorems
    on [kmalloc], [kfree] and [kcalloc] in terms of live objects. *)

From stdpp Require Import functions.
From S2P Require Import Prelude CString DList Memblock Buddy BuddyInit Kmalloc.

(** ** Freeing an object of a slab page *)

(** The memory after the object has been poisoned and linked. *)
Definition freed_mem (dbg : bool) (p sz fl : Z) (m : mem) : mem :=
  wr64 (wr64 (if dbg then memset m p 0x6b sz else m) p fl) (p + 8) FREE_MAGIC.

Lemma freed_mem_out dbg p sz fl m a :
  16 ≤ sz → a < p ∨ p + sz ≤ a → freed_mem dbg p sz fl m a = m a.
Proof.
  intros Hsz Ha. unfold freed_mem. rewrite !wr64_other by lia. destruct dbg; [|done].
  rewrite memset_fill by lia. unfold mem_fill. case_test; [lia|done].
Qed.

Lemma freed_mem_words dbg p sz fl m :
  u64_ok fl → rd64 (freed_mem dbg p sz fl m) p = fl ∧
              rd64 (freed_mem dbg p sz fl m) (p + 8) = FREE_MAGIC.
Proof.
  intros Hfl. unfold freed_mem. split; [|by apply rd64_wr64].
  rewrite (rd64_ext (wr64 (if dbg then memset m p 0x6b sz else m) p fl)); [by apply rd64_wr64|].
  intros a Ha. apply wr64_other. lia.
Qed.

(** The heap with the object linked back, before the page is looked at. *)
Definition put_heap (dbg : bool) (K : kheap) (ci : nat) (x p : Z) : kheap :=
  let c := classes K ci in
  let pg := kpage K x in
  KHeap (set_page (set_ram (pa K) (freed_mem dbg p (sc_size c) (freelist pg) (kram K))) x
           (set_slab pg (slab_class pg) (wrap32 (slab_inuse pg - 1)) p))
    (if freelist pg =? 0
     then <[ci := SlabCache (sc_size c) (x :: partial c) (sc_pages c)]> (classes K) else classes K)
    (bytes_in_use K ⊕ - sc_size c).

Section Put.

Context (dbg : bool) (K : kheap) (ci : nat) (x p : Z) (objs : list Z).
Hypothesis HK : kok K.
Hypothesis Hci : (ci < NR_CLASSES)%nat.
Hypothesis Hv : valid (pa K) x.
Hypothesis Hs : has (flags (kpage K x)) PG_SLAB = true.
Hypothesis Hcl : slab_class (kpage K x) = ci.
Hypothesis Hok : slab_ok K x objs.
Hypothesis Hp : slot x ci p.
Hypothesis Hnew : p ∉ objs.

Let K' := put_heap dbg K ci x p.

Lemma put_xr : 0 ≤ x < 2 ^ 26.
Proof. eapply valid_range; [apply (wf_geom _ (ok_wf _ (k_buddy K HK)))|done]. Qed.

Lemma put_fl : u64_ok (freelist (kpage K x)) ∧ (freelist (kpage K x) = 0 ↔ objs = []).
Proof.
  pose proof put_xr as Hxr. pose proof (slab_nonzero K x objs Hxr Hok) as Hnz.
  destruct Hok as [_ Hl _ Hsl _ _ _]. rewrite Hcl in Hsl.
  destruct objs as [|o rest]; simpl in Hl; [by rewrite Hl|].
  destruct Hl as [-> _]. apply Forall_cons in Hsl as [Ho _], Hnz as [Hnz _].
  split; [by apply (slot_u64 x ci o)|done].
Qed.

Lemma put_page y : y ≠ x → kpage K' y = kpage K y.
Proof. intros Hne. unfold K', put_heap, kpage. simpl. by rewrite fn_lookup_insert_ne. Qed.

Lemma put_page_x :
  kpage K' x = set_slab (kpage K x) ci (wrap32 (slab_inuse (kpage K x) - 1)) p.
Proof. unfold K', put_heap, kpage. simpl. by rewrite fn_lookup_insert, <-Hcl. Qed.

Lemma put_kram a : a < p ∨ p + csz ci ≤ a → kram K' a = kram K a.
Proof.
  intros Ha. unfold K', put_heap, kram. simpl. rewrite (k_size K HK) by done.
  apply freed_mem_out; [|done]. by apply csz_bounds.
Qed.

Lemma put_part ci' y :
  y ∈ partial (classes K' ci') ↔ y ∈ partial (classes K ci') ∨ (ci' = ci ∧ y = x).
Proof.
  destruct put_fl as [_ Hfl]. pose proof (sl_part _ _ _ Hok) as Hpt. rewrite Hcl in Hpt.
  unfold K', put_heap. simpl. destruct (freelist (kpage K x) =? 0) eqn:E; zbool.
  - destruct (decide (ci = ci')) as [<-|].
    + rewrite fn_lookup_insert. simpl. rewrite elem_of_cons. naive_solver.
    + rewrite fn_lookup_insert_ne by done. naive_solver.
  - split; [by left|]. intros [?|[-> ->]]; [done|]. apply Hpt. intros ->. by apply E, Hfl.
Qed.

Lemma put_nodup ci' : (ci' < NR_CLASSES)%nat → NoDup (partial (classes K' ci')).
Proof.
  intros Hci'. pose proof (k_nodup K HK ci' Hci') as Hnd. destruct put_fl as [_ Hfl].
  pose proof (sl_part _ _ _ Hok) as Hpt. rewrite Hcl in Hpt. unfold K', put_heap. simpl.
  destruct (freelist (kpage K x) =? 0) eqn:E; zbool; [|done].
  destruct (decide (ci = ci')) as [<-|]; [|by rewrite fn_lookup_insert_ne].
  rewrite fn_lookup_insert. simpl. apply NoDup_cons. split; [|done]. intros Hx%Hpt. by apply Hx, Hfl.
Qed.

Lemma put_length : Z.of_nat (length (p :: objs)) ≤ cap ci.
Proof.
  apply (slots_length x ci); [done|apply NoDup_cons; split; [done|apply Hok]|].
  apply Forall_cons. split; [done|]. pose proof (sl_slots _ _ _ Hok) as Hsl. by rewrite Hcl in Hsl.
Qed.

Lemma put_slab : slab_ok K' x (p :: objs).
Proof.
  pose proof (csz_bounds ci Hci) as Hsz. destruct put_fl as [Hu _].
  pose proof put_length as Hlen. simpl length in Hlen.
  pose proof Hok as [_ Hl Hnd Hsl Hmg Hin Hpt]. rewrite Hcl in *.
  assert (∀ o, o ∈ objs → ∀ d, d = 0 ∨ d = 8 → rd64 (kram K') (o + d) = rd64 (kram K) (o + d)) as Hw.
  { intros o Ho d Hd. apply rd64_ext. intros a Ha. apply put_kram.
    rewrite Forall_forall in Hsl.
    destruct (slot_apart x ci p o Hci Hp (Hsl o Ho)) as [?|?]; [congruence|lia..]. }
  destruct (freed_mem_words dbg p (csz ci) (freelist (kpage K x)) (kram K) Hu) as [Hw0 Hw8].
  assert (kram K' = freed_mem dbg p (csz ci) (freelist (kpage K x)) (kram K)) as Hkr
    by (unfold K', put_heap, kram; simpl; by rewrite (k_size K HK)).
  split; rewrite ?put_page_x; cbn [set_slab slab_class freelist slab_inuse]; try done.
  - split; [done|]. rewrite Hkr, Hw0. eapply flist_frame; [|done]. rewrite <-Hkr. intros o Ho.
    rewrite <-(Z.add_0_r o). apply Hw; auto.
  - by apply NoDup_cons.
  - by apply Forall_cons.
  - apply Forall_cons. split; [by rewrite Hkr|]. rewrite Forall_forall in *. intros o Ho.
    rewrite Hw by auto. by apply Hmg.
  - rewrite Hin. simpl length. unfold wrap32. rewrite Z.mod_small by (unfold U32; lia). lia.
  - rewrite put_part. naive_solver.
Qed.

Lemma put_flags : flags (kpage K' x) = flags (kpage K x).
Proof. by rewrite put_page_x. Qed.

Lemma put_quiet : quiet (pa K) (pa K').
Proof.
  destruct (k_slab K HK x Hv Hs) as [Hmk _].
  assert (¬ is_free (pa K) x) as Hnf by (apply (mk_used _ _ _ _ Hmk); auto with olux).
  unfold K', put_heap. simpl.
  eapply quiet_trans; [|apply quiet_set_page].
  - apply quiet_set_ram, quiet_refl.
  - done.
  - simpl. apply used_unmarked; [apply HK|done|done].
Qed.

Lemma put_change :
  kok K' ∧
  (∀ a n, live K' a n ↔ live_in K' x a n ∨ (∃ y, valid (pa K) y ∧ y ≠ x ∧ live_in K y a n)) ∧
  (∀ y a n b, valid (pa K) y → y ≠ x → live_in K y a n → a ≤ b < a + n → kram K' b = kram K b).
Proof.
  apply slab_change; [done|done|done|apply put_page|apply put_flags|apply put_quiet|..].
  - intros a Ha. apply put_kram. destruct (slot_range x ci p Hci Hp). unfold pgb in Ha. lia.
  - intros ci' _. unfold K', put_heap. simpl. case_test; [|done].
    destruct (decide (ci = ci')) as [<-|]; [by rewrite fn_lookup_insert|by rewrite fn_lookup_insert_ne].
  - intros ci' y _ Hne. rewrite put_part. naive_solver.
  - intros ci' Hci' [Hx|[-> _]]%put_part; rewrite put_page_x; simpl; [|done].
    by destruct (k_part K HK ci' x Hci' Hx) as (_ & _ & <-).
  - apply put_nodup.
  - exists (p :: objs). apply put_slab.
Qed.

Lemma put_marks : has (flags (kpage K x)) PG_COMPOUND = false.
Proof.
  destruct (k_slab K HK x Hv Hs) as [Hmk _].
  destruct (marked_flags _ _ _ _ ltac:(by left) Hmk) as (_ & Hnc & _). by apply Hnc.
Qed.

(** The live objects of the page after the object has been put back. *)
Lemma put_live_in a n : live_in K' x a n ↔ live_in K x a n ∧ a ≠ p.
Proof.
  pose proof put_xr as Hxr. pose proof put_marks as Hnc.
  rewrite (live_in_slab K' x (p :: objs)), (live_in_slab K x objs); rewrite ?put_flags; try done;
    [|apply put_slab]. rewrite put_page_x. simpl. rewrite Hcl, not_elem_of_cons. naive_solver.
Qed.

(** An object at [p] is the freed one. *)
Lemma put_at y a n : valid (pa K) y → live_in K y a n → y ≠ x → a ≠ p.
Proof.
  intros Hy Hl Hne ->. apply Hne. pose proof put_xr as Hxr.
  eapply pgb_unique; [eapply valid_range; [apply (wf_geom _ (ok_wf _ (k_buddy K HK)))|done]|done| |].
  - by eapply live_in_pgb.
  - eapply slot_pgb; [done|done|]. pose proof (csz_bounds ci Hci). lia.
Qed.

Lemma put_shrunk : shrunk K K' p (csz ci).
Proof.
  destruct put_change as (Hok' & Hlive & Hbytes). pose proof put_xr as Hxr.
  pose proof put_marks as Hnc. split; [done| | |].
  - intros a k. rewrite Hlive, put_live_in. unfold live. split.
    + intros [[? ?]|(y & Hy & Hne & Hl)]; [split; [by exists x|done]|].
      split; [by exists y|by eapply put_at].
    + intros [(y & Hy & Hl) Hne]. destruct (decide (y = x)) as [->|]; [by left|right; by exists y].
  - intros a k b (y & Hy & Hl) Hne Hb. destruct (decide (y = x)) as [->|]; [|by eapply Hbytes].
    apply (live_in_slab K x objs) in Hl as (Hsl & _ & ->); try done. rewrite Hcl in *.
    apply put_kram. destruct (slot_apart x ci a p Hci Hsl Hp Hne); lia.
  - unfold K', put_heap. simpl. by rewrite (k_size K HK), sub64_add.
Qed.

(** When the last object of the page is gone, every slot is on the list. *)
Lemma put_empty : wrap32 (slab_inuse (kpage K x) - 1) = 0 → ∀ a n, ¬ live_in K' x a n.
Proof.
  intros H0 a n Hl. pose proof put_xr as Hxr. pose proof put_slab as Hsl.
  apply (live_in_slab K' x (p :: objs)) in Hl as (Ha & Hn & _); rewrite ?put_flags; try done;
    [|apply put_marks].
  assert (Z.of_nat (length (p :: objs)) = cap ci) as Hlen.
  { pose proof (sl_inuse _ _ _ Hsl) as Hin. rewrite put_page_x in Hin.
    cbn [set_slab slab_class slab_inuse] in Hin. lia. }
  rewrite put_page_x in Ha. simpl in Ha. pose proof (csz_bounds ci Hci).
  assert (a :: p :: objs ⊆ objects (page_address x) (csz ci) (Z.to_nat (cap ci))) as Hsub.
  { destruct (objects_slots x ci Hci) as [_ Hobj]. pose proof (sl_slots _ _ _ Hsl) as Hall.
    rewrite put_page_x in Hall. simpl in Hall. rewrite Forall_forall in Hall.
    intros b [->|Hb]%elem_of_cons; apply Hobj; [done|by apply Hall]. }
  assert (NoDup (a :: p :: objs)) as Hnd by (apply NoDup_cons; split; [done|apply Hsl]).
  pose proof (submseteq_length _ _ (NoDup_submseteq _ _ Hnd Hsub)) as Hl.
  unfold objects in Hl. rewrite length_fmap, length_seqZ in Hl. simpl in Hl, Hlen. lia.
Qed.

End Put.

(** The page goes back to the page allocator. *)
Section Return.

Context (dbg : bool) (K K1 : kheap) (ci : nat) (x : Z).
Hypothesis HK1 : kok K1.
Hypothesis Hci : (ci < NR_CLASSES)%nat.
Hypothesis Hv : valid (pa K1) x.
Hypothesis Hs : has (flags (kpage K1 x)) PG_SLAB = true.
Hypothesis Hcl : slab_class (kpage K1 x) = ci.
Hypothesis Hempty : ∀ a n, ¬ live_in K1 x a n.

Let c := classes K1 ci.
Let s1 := set_page (pa K1) x (unflag PG_SLAB (mem_map (pa K1) x)).

Lemma return_page :
  ∃ s2, free_pages dbg s1 (Some x) 0 = Ok s2 ∧
    let K2 := KHeap s2 (<[ci := SlabCache (sc_size c) (lremove x (partial c)) (sc_pages c ⊖ 1)]>
                          (classes K1)) (bytes_in_use K1) in
    kok K2 ∧ same_live K1 K2.
Proof.
  pose proof (k_buddy K1 HK1) as Hok. pose proof (wf_geom _ (ok_wf _ Hok)) as Hg.
  pose proof (valid_range _ _ Hg Hv) as Hxr.
  destruct (k_slab K1 HK1 x Hv Hs) as [Hmk _].
  destruct (unmark_in_use (pa K1) x 0 PG_SLAB ltac:(by left) Hok Hmk) as [Hq Hin]. fold s1 in Hq, Hin.
  destruct (free_pages_spec dbg s1 x 0 (quiet_ok _ _ Hok Hq) Hin) as (s2 & Hrun & Hrel).
  exists s2. split; [done|]. intros K2.
  assert (∀ y, blk x 0 y ↔ y = x) as Hone
    by (intros y; change (blk x 0 y) with (x ≤ y < x + 1); lia).
  assert (∀ ci' y, (ci' < NR_CLASSES)%nat →
    y ∈ partial (classes K2 ci') ↔ y ∈ partial (classes K1 ci') ∧ y ≠ x) as Hpart.
  { intros ci' y Hci'. unfold K2. simpl. destruct (decide (ci = ci')) as [<-|Hne].
    - rewrite fn_lookup_insert. simpl. by rewrite elem_of_lremove.
    - rewrite fn_lookup_insert_ne by done. split; [|tauto]. intros Hy. split; [done|]. intros ->.
      destruct (k_part K1 HK1 ci' x Hci' Hy) as (_ & _ & ?). congruence. }
  destruct (free_update K1 K2 x 0 HK1 (rel_ok _ _ _ _ Hrel)) as (Hok' & Hlive & Hbytes).
  - transitivity s1; [by apply quiet_geom|apply Hrel].
  - intros ci' _. unfold K2. simpl. destruct (decide (ci = ci')) as [<-|].
    + by rewrite fn_lookup_insert.
    + by rewrite fn_lookup_insert_ne.
  - intros y. change (pa K2) with s2. by rewrite (rel_set _ _ _ _ Hrel), (quiet_free (pa K1)) by done.
  - intros y Hvy Hnf Hnb. rewrite Hone in Hnb. split_and!.
    + change (kpage K2 y) with (mem_map s2 y). rewrite (rel_kept _ _ _ _ Hrel);
        [|by rewrite (quiet_free (pa K1))|by rewrite Hone].
      unfold s1. simpl. by rewrite fn_lookup_insert_ne.
    + intros a Ha. change (kram K2 a) with (ram s2 a). rewrite (rel_ram _ _ _ _ Hrel); [done|].
      intros Hbb. apply Hnb, Hone. eapply block_bytes_pgb; [done|by eapply valid_range|done|done].
    + intros ci' Hci'. rewrite Hpart by done. tauto.
  - intros y z Hvy _ Hcy Hz ->%Hone. destruct (large_block K1 y x HK1 Hvy Hcy Hz) as (_ & _ & Hns & _).
    congruence.
  - intros ci' y Hci' Hy%Hpart; [|done]. by rewrite Hone.
  - intros ci' Hci'. pose proof (k_nodup K1 HK1 ci' Hci'). unfold K2. simpl.
    destruct (decide (ci = ci')) as [<-|]; [|by rewrite fn_lookup_insert_ne].
    rewrite fn_lookup_insert. by apply lremove_NoDup.
  - split; [done|]. split_and!; [| |done].
    + intros a n. rewrite Hlive. unfold live. setoid_rewrite Hone. split; [naive_solver|].
      intros (y & Hy & Hl). exists y. split_and!; [done| |done]. intros ->. by eapply Hempty.
    + intros a n b (y & Hy & Hl). eapply Hbytes; [done| |done]. rewrite Hone. intros ->.
      by eapply Hempty.
Qed.

End Return.

Lemma put_object_eq dbg K ci x p :
  16 ≤ sc_size (classes K ci) →
  put_object dbg K ci x p =
  let K1 := put_heap dbg K ci x p in
  let c := classes K1 ci in
  if (wrap32 (slab_inuse (kpage K x) - 1) =? 0) && (1 <? sc_pages c) then
    let! s := free_pages dbg (set_page (pa K1) x (unflag PG_SLAB (mem_map (pa K1) x))) (Some x) 0 in
    Ok (KHeap s (<[ci := SlabCache (sc_size c) (lremove x (partial c)) (sc_pages c ⊖ 1)]>
                   (classes K1)) (bytes_in_use K1))
  else Ok K1.
Proof.
  intros Hsz. unfold put_object. replace (16 <=? sc_size (classes K ci)) with true by lia.
  unfold put_heap. cbv zeta.
  assert (∀ m, kpage (set_kram K m) x = kpage K x) as Hkp by done.
  destruct dbg; rewrite ?Hkp; by destruct (freelist (kpage K x) =? 0).
Qed.

Lemma shrunk_after K K1 K' p n : shrunk K K1 p n → kok K' → same_live K1 K' → shrunk K K' p n.
Proof.
  intros [H1 H2 H3 H4] HK' (Hl & Hb & Hc). split; [done|..].
  - intros a k. by rewrite Hl, H2.
  - intros a k b Ha Hne Hb'. rewrite (Hb a k b), (H3 a k b); [done..|by apply H2|done].
  - by rewrite Hc, H4.
Qed.

Lemma put_object_spec dbg K ci x p objs :
  kok K → (ci < NR_CLASSES)%nat → valid (pa K) x → has (flags (kpage K x)) PG_SLAB = true →
  slab_class (kpage K x) = ci → slab_ok K x objs → slot x ci p → p ∉ objs →
  ∃ K', put_object dbg K ci x p = Ok K' ∧ shrunk K K' p (csz ci).
Proof.
  intros HK Hci Hv Hs Hcl Hok Hp Hnew.
  pose proof (put_shrunk dbg K ci x p objs HK Hci Hv Hs Hcl Hok Hp Hnew) as Hsh.
  pose proof (csz_bounds ci Hci) as Hsz. rewrite put_object_eq by (rewrite (k_size K HK); lia).
  set (K1 := put_heap dbg K ci x p) in *. cbv zeta.
  destruct (_ && _) eqn:Hret; zbool; [|by exists K1].
  pose proof (put_flags dbg K ci x p Hcl) as Hfl. fold K1 in Hfl.
  destruct (return_page dbg K1 ci x) as (s2 & -> & Hok2 & Hsame).
  - apply Hsh.
  - done.
  - apply (same_geom_valid (pa K)); [|done]. apply quiet_geom. by apply put_quiet.
  - by rewrite Hfl.
  - unfold K1. by rewrite put_page_x.
  - by apply (put_empty dbg K ci x p objs).
  - eexists. split; [done|]. by eapply shrunk_after.
Qed.

Lemma kfree_slab dbg ko K x p :
  kok K → valid (pa K) x → has (flags (kpage K x)) PG_SLAB = true →
  slot x (slab_class (kpage K x)) p → (∀ objs, slab_ok K x objs → p ∉ objs) →
  ∃ K', kfree dbg ko K p = Some (Ok K') ∧ shrunk K K' p (csz (slab_class (kpage K x))).
Proof.
  intros HK Hv Hs Hp Hnot. pose proof (wf_geom _ (ok_wf _ (k_buddy K HK))) as Hg.
  pose proof (valid_range _ _ Hg Hv) as Hxr. destruct (k_slab K HK x Hv Hs) as [Hmk [objs Hok]].
  destruct (marked_flags _ _ _ _ ltac:(by left) Hmk) as (_ & Hnc & _). specialize (Hnc eq_refl).
  pose proof (sl_ci _ _ _ Hok) as Hci. set (ci := slab_class (kpage K x)) in *.
  pose proof (csz_bounds ci Hci) as Hsz. specialize (Hnot objs Hok).
  destruct (slot_u64 x ci p Hci Hxr Hp) as [_ Hp0].
  destruct (put_object_spec dbg K ci x p objs HK Hci Hv Hs eq_refl Hok Hp Hnot) as (K' & Hrun & Hsh).
  exists K'. split; [|done]. unfold kfree. replace (p =? 0) with false by lia.
  rewrite (virt_to_page_pgb ko x p) by (done || (eapply slot_pgb; [done|done|lia])).
  unfold kpage in Hnc. unfold kpage at 1. rewrite Hnc, Hs. cbn [negb]. fold ci.
  rewrite (k_size K HK) by done. rewrite (slot_aligned x ci p) by done.
  change (negb (0 =? 0)) with false. cbv iota. rewrite Hrun. destruct ((16 <=? csz ci) && (rd64 (kram K) (p + 8) =? FREE_MAGIC)); [|done].
  rewrite (on_freelist_flist 257 _ _ objs) by first [apply Hok|by eapply slab_nonzero|
    pose proof (slots_length x ci objs Hci (sl_nodup _ _ _ Hok) (sl_slots _ _ _ Hok)); lia].
  by rewrite bool_decide_false.
Qed.

(** The loop of [kmalloc] that looks for the order of a large request
    has an exit exactly for sizes up to 2^63: above that, [PAGE_SIZE << order]
    is smaller than the size for every order, because it wraps to 0. *)
Lemma kmalloc_ends K size gfp :
  kok K → 0 ≤ size < U64 → (is_Some (kmalloc K size gfp) ↔ size ≤ 2 ^ 63).
Proof.
  intros HK Hsize. split.
  - intros [r Hr]. destruct (decide (size ≤ 2 ^ 63)) as [|Hgt]; [done|exfalso].
    unfold kmalloc in Hr. replace (size =? 0) with false in Hr by lia.
    pose proof (size_class_spec K size HK) as Hcl. destruct (size_class K size) as [ci|].
    + destruct Hcl as (Hci & ? & _). pose proof (csz_bounds ci Hci). lia.
    + by rewrite order_for_none in Hr by lia.
  - intros Hle. destruct (decide (size = 0)) as [->|]; [done|].
    destruct (kmalloc_spec K size gfp HK ltac:(lia)) as (K' & p & -> & _). done.
Qed.

(** C8.  [kmalloc] returns exactly for sizes up to 2^63; above that the loop
    that looks for the order of a large request has no exit, because
    [PAGE_SIZE << order] wraps to 0.  It returns an address of a fresh
    object of at least [size] bytes that overlaps no live object, with the
    bytes of all live objects kept and, under GFP_ZERO, its own [size] bytes
    zero; the live objects are then the old ones and the new one.  It returns
    NULL, changing nothing, only when the page allocator has no page (for a
    new slab) or no block (for a large object) to give. *)
Theorem kmalloc_correct K size gfp :
  kok K → 0 ≤ size < U64 →
  (is_Some (kmalloc K size gfp) ↔ size ≤ 2 ^ 63) ∧
  (0 < size ≤ 2 ^ 63 → ∃ K' p, kmalloc K size gfp = Some (Ok (K', p)) ∧
    ((p = 0 ∧ K' = K ∧ exhausted K size gfp) ∨
     (p ≠ 0 ∧ kok K' ∧
      ∃ n, size ≤ n ∧
        (∀ a k, live K a k → a + k ≤ p ∨ p + n ≤ a) ∧
        (∀ a k, live K' a k ↔ live K a k ∨ (a = p ∧ k = n)) ∧
        (∀ a k b, live K a k → a ≤ b < a + k → kram K' b = kram K b) ∧
        (has gfp GFP_ZERO = true → ∀ b, p ≤ b < p + size → kram K' b = 0) ∧
        bytes_in_use K' = bytes_in_use K ⊕ n))).
Proof.
  intros HK Hs. split; [by apply kmalloc_ends|]. intros Hsize. destruct (kmalloc_spec K size gfp HK Hsize) as (K' & p & Hrun & H).
  exists K', p. split; [done|]. destruct H as [?|(n & Hp & Hn & [G1 G2 G3 G4 G5] & Hz)]; [by left|right].
  split_and!; [done..|]. exists n. split_and!; try done.
  intros a k Ha. destruct (live_disjoint K' a k p n G1) as [[-> ->]|?]; try done.
  - rewrite G2. by left.
  - rewrite G2. by right.
  - by destruct (G3 n).
Qed.

(** Double frees are detected: [kfree] of a slab object that is already
    on the free list of its page panics, and does not corrupt the list. *)
Lemma kfree_double_free dbg ko K x objs p :
  kok K → valid (pa K) x → has (flags (kpage K x)) PG_SLAB = true →
  slab_ok K x objs → p ∈ objs → kfree dbg ko K p = Some Panic.
Proof.
  intros HK Hv Hs Hok Hin. pose proof (wf_geom _ (ok_wf _ (k_buddy K HK))) as Hg.
  pose proof (valid_range _ _ Hg Hv) as Hxr. destruct (k_slab K HK x Hv Hs) as [Hmk _].
  destruct (marked_flags _ _ _ _ ltac:(by left) Hmk) as (_ & Hnc & _). specialize (Hnc eq_refl).
  pose proof Hok as [Hci Hl Hnd Hsl Hmg _ _]. rewrite Forall_forall in Hsl, Hmg.
  set (ci := slab_class (kpage K x)) in *. pose proof (Hsl p Hin) as Hp.
  pose proof (csz_bounds ci Hci) as Hsz. destruct (slot_u64 x ci p Hci Hxr Hp) as [_ Hp0].
  unfold kfree. replace (p =? 0) with false by lia.
  rewrite (virt_to_page_pgb ko x p) by (done || (eapply slot_pgb; [done|done|lia])).
  unfold kpage in Hnc. unfold kpage at 1. rewrite Hnc, Hs. cbn [negb]. fold ci.
  rewrite (k_size K HK) by done. rewrite (slot_aligned x ci p) by done.
  change (negb (0 =? 0)) with false. cbv iota. rewrite (Hmg p Hin), Z.eqb_refl.
  replace (16 <=? csz ci) with true by lia. cbn [andb].
  rewrite (on_freelist_flist 257 _ _ objs) by first [done|by eapply slab_nonzero|
    pose proof (slots_length x ci objs Hci Hnd (sl_slots _ _ _ Hok)); lia].
  by rewrite bool_decide_true.
Qed.

(** C9.  [kfree] of a live object returns normally, removes exactly that
    object from the live set, keeps the bytes of all the others and gives its
    bytes back to the count, whether the object was a slab object (its page
    then goes back to the page allocator when it was the last) or a block of
    pages.  Freeing a slab object that is already on the free list of its page
    is detected: it panics and does not corrupt the list. *)
Theorem kfree_correct dbg ko K p :
  kok K →
  (∀ n, live K p n →
    ∃ K', kfree dbg ko K p = Some (Ok K') ∧ kok K' ∧
      (∀ a k, live K' a k ↔ live K a k ∧ a ≠ p) ∧
      (∀ a k b, live K a k → a ≠ p → a ≤ b < a + k → kram K' b = kram K b) ∧
      bytes_in_use K' = bytes_in_use K ⊖ n) ∧
  (∀ x objs, valid (pa K) x → has (flags (kpage K x)) PG_SLAB = true → slab_ok K x objs → p ∈ objs →
    kfree dbg ko K p = Some Panic).
Proof.
  intros HK. split; [|intros x objs Hv Hs Hok Hin; by eapply kfree_double_free]. intros n (x & Hv & Hl).
  assert (∃ K', kfree dbg ko K p = Some (Ok K') ∧ shrunk K K' p n) as (K' & Hrun & [H1 H2 H3 H4]).
  { pose proof (valid_range _ _ (wf_geom _ (ok_wf _ (k_buddy K HK))) Hv) as Hxr.
    destruct Hl as [(Hs & objs & Hok & Hsl & Hni & ->)|(Hc & -> & ->)].
    - apply kfree_slab; try done. intros objs' Hok'. replace objs' with objs; [done|].
      eapply flist_fun; [by eapply slab_nonzero|by eapply slab_nonzero|apply Hok|apply Hok'].
    - by apply kfree_large. }
  exists K'. by split_and!.
Qed.

(** ** Witnesses *)

(** [kmalloc_init] over a page allocator no page of which carries a mark. *)
Lemma kmalloc_init_ok s cl b :
  buddy_ok s →
  (∀ x, valid s x → has (flags (mem_map s x)) PG_SLAB = false ∧
                    has (flags (mem_map s x)) PG_COMPOUND = false) →
  kok (kmalloc_init (KHeap s cl b)).
Proof.
  intros Hok Hno. split; simpl; try done.
  - intros ci Hci. unfold NR_CLASSES in Hci. unfold csz.
    do 8 (destruct ci as [|ci]; [by vm_compute|]). lia.
  - intros x Hv Hs. destruct (Hno x Hv). unfold kpage in Hs. simpl in Hs. congruence.
  - intros x Hv Hc. destruct (Hno x Hv). unfold kpage in Hc. simpl in Hc. congruence.
  - intros ci x _ Hx. by apply not_elem_of_nil in Hx.
  - intros. apply NoDup_nil_2.
Qed.

(** The heap over the example RAM of BuddyInit, before the first request. *)
Definition ex_heap : kheap := kmalloc_init (KHeap ex_alloc (λ _, SlabCache 0 [] 0) 0).

Definition unmarked (s : pagealloc) (x : Z) : bool :=
  negb (has (flags (mem_map s x)) PG_SLAB) && negb (has (flags (mem_map s x)) PG_COMPOUND).

Lemma unmarked_all s b n :
  mem_map_base_pfn s = b → mem_map_pfns s = n → forallb (unmarked s) (seqZ b n) = true →
  ∀ x, valid s x → has (flags (mem_map s x)) PG_SLAB = false ∧
                   has (flags (mem_map s x)) PG_COMPOUND = false.
Proof.
  unfold valid. intros -> -> Hall x Hx. rewrite forallb_forall in Hall.
  specialize (Hall x ltac:(apply list_elem_of_In, elem_of_seqZ; lia)).
  by apply andb_prop in Hall as [?%negb_true_iff ?%negb_true_iff].
Qed.

Lemma ex_heap_ok : kok ex_heap.
Proof.
  apply kmalloc_init_ok; [exact ex_alloc_ok|].
  apply (unmarked_all ex_alloc 16 16); vm_compute; reflexivity.
Qed.

Lemma kmalloc_witness :
  ∃ K' p, kmalloc ex_heap 100 GFP_ZERO = Some (Ok (K', p)) ∧ p ≠ 0 ∧ kok K' ∧
    (∀ b, p ≤ b < p + 100 → kram K' b = 0) ∧ ¬ is_Some (kmalloc ex_heap (2 ^ 63 + 1) 0).
Proof.
  destruct (kmalloc_correct ex_heap 100 GFP_ZERO ex_heap_ok ltac:(unfold U64; lia)) as [_ H].
  destruct (H ltac:(lia)) as (K' & p & Hrun & H'). clear H. rename H' into H.
  exists K', p. split; [exact Hrun|].
  destruct H as [(Hp & _)|(Hp & HK & n & Hn & _ & _ & _ & Hz & _)].
  - exfalso. assert (match kmalloc ex_heap 100 GFP_ZERO with
                     | Some (Ok (_, p)) => p =? 0 | _ => true end = false) as Hne by (vm_compute; reflexivity).
    rewrite Hrun, Hp in Hne. exact (diff_true_false Hne).
  - split_and!; [exact Hp|exact HK|apply Hz; reflexivity|].
    rewrite (proj1 (kmalloc_correct ex_heap (2 ^ 63 + 1) 0 ex_heap_ok ltac:(unfold U64; lia))). lia.
Defined.

(** An object is freed; the first object of a fresh slab page is free, and
    freeing it is a double free. *)
Lemma kfree_witness :
  (∃ K1 p K', kmalloc ex_heap 100 0 = Some (Ok (K1, p)) ∧ kfree true 0 K1 p = Some (Ok K') ∧ kok K') ∧
  (∃ K x o, new_slab ex_heap 3 = Ok (K, Some x) ∧ freelist (kpage K x) = o ∧ kfree false 0 K o = Some Panic).
Proof.
  split.
  { destruct (kmalloc_spec ex_heap 100 0 ex_heap_ok ltac:(lia)) as (K1 & p & Hrun & H).
  destruct H as [(Hp & _)|(n & Hp & Hn & Hg & _)].
  - exfalso. assert (match kmalloc ex_heap 100 0 with
                     | Some (Ok (_, p)) => p =? 0 | _ => true end = false) as Hne by (vm_compute; reflexivity).
    rewrite Hrun, Hp in Hne. exact (diff_true_false Hne).
  - destruct (kfree_correct true 0 K1 p) as [Hf _]; [apply Hg|].
    destruct (Hf n) as (K' & Hfree & HK' & _); [apply Hg; right; split; reflexivity|].
    exists K1, p, K'. split_and!; assumption. }
  assert (3 < NR_CLASSES)%nat as Hci by (unfold NR_CLASSES; lia).
  pose proof (new_slab_spec ex_heap 3 ex_heap_ok Hci) as Hspec.
  destruct (new_slab ex_heap 3) as [[K [x|]]|] eqn:Hrun.
  - destruct Hspec as (HK & _ & Hx). destruct (k_part K HK 3%nat x Hci Hx) as (Hv & Hs & Hcl).
    destruct (k_slab K HK x Hv Hs) as [_ [objs Hok]]. destruct objs as [|o rest].
    + exfalso. apply (sl_part _ _ _ Hok); [by rewrite Hcl|reflexivity].
    + exists K, x, o. split_and!; [reflexivity|apply (sl_list _ _ _ Hok)|].
      destruct (kfree_correct false 0 K o HK) as [_ Hd]. apply (Hd x (o :: rest)); [assumption..|apply list_elem_of_here].
  - exfalso. assert (match new_slab ex_heap 3 with Ok (_, None) => true | _ => false end = false) as Hne
      by (vm_compute; reflexivity). rewrite Hrun in Hne. exact (diff_true_false Hne).
  - destruct Hspec.
Defined.
