(* ===== verification/PageTable.v ===== *)
(** * User page tables: the first half of src/mm/vm.c

    Three levels of 512 entries (39-bit addresses, 4 KiB pages).  A table is
    a function of its index; an entry of the upper two levels is [None] when
    it is not valid and otherwise the table that it points to.  The reference
    counts of pages are the function [refs] on page frame numbers
    ([page_get] and [page_put] of Buddy, whose freeing of a page with no
    references left is not repeated here). *)

From stdpp Require Import functions.
From S2P Require Import Prelude CString DList Memblock Buddy.

(** ** Descriptors: asm/pgtable.h *)

Definition bit (n : Z) : Z := Z.shiftl 1 n.
Definition PTE_VALID : Z := bit 0.
Definition PTE_PAGE : Z := bit 1.
Definition PTE_ATTRINDX (n : Z) : Z := Z.shiftl n 2.
Notation PTE_ATTRINDX_MASK := (Z.shiftl 7 2)%Z (only parsing).
Notation PTE_USER := (bit 6)%Z (only parsing).
Definition PTE_RDONLY : Z := bit 7.
Notation PTE_SH_INNER := (Z.shiftl 3 8)%Z (only parsing).
Notation PTE_AF := (bit 10)%Z (only parsing).
Notation PTE_NG := (bit 11)%Z (only parsing).
Notation PTE_PXN := (bit 53)%Z (only parsing).
Definition PTE_UXN : Z := bit 54.
Definition PTE_SW_COW : Z := bit 55.
Definition PTE_SW_SHARED : Z := bit 56.
Notation PTE_SW_WRITE := (bit 57)%Z (only parsing).
Definition PTE_ADDR_MASK : Z := 0x0000fffffffff000.
Notation MT_DEVICE_nGnRE := 3%Z (only parsing).
Notation MT_NORMAL := 1%Z (only parsing).
Notation MT_NORMAL_NC := 2%Z (only parsing).

Definition PROT_USER_BASE : Z :=
  Z.lor PTE_VALID (Z.lor PTE_PAGE (Z.lor (PTE_ATTRINDX MT_NORMAL) (Z.lor PTE_SH_INNER
    (Z.lor PTE_AF (Z.lor PTE_NG (Z.lor PTE_USER PTE_PXN)))))).

Definition L1_SHIFT : Z := 30.
Definition L2_SHIFT : Z := 21.
Notation L3_SHIFT := 12%Z (only parsing).
Definition L1_SIZE : Z := bit L1_SHIFT.
Definition L2_SIZE : Z := bit L2_SHIFT.
Definition PT_ENTRIES : Z := 512.
Definition L1_INDEX (va : Z) : Z := Z.land (Z.shiftr va L1_SHIFT) (PT_ENTRIES - 1).
Definition L2_INDEX (va : Z) : Z := Z.land (Z.shiftr va L2_SHIFT) (PT_ENTRIES - 1).
Definition L3_INDEX (va : Z) : Z := Z.land (Z.shiftr va L3_SHIFT) (PT_ENTRIES - 1).

Definition pte_addr (p : Z) : Z := Z.land p PTE_ADDR_MASK.
Definition pte_valid (p : Z) : bool := has p PTE_VALID.

(** VMA flags (include/olux/vm.h). *)
Notation VM_READ := 0x1%Z (only parsing).
Definition VM_WRITE : Z := 0x2.
Definition VM_EXEC : Z := 0x4.
Definition VM_SHARED : Z := 0x8.
Definition VM_IO : Z := 0x10.
Definition VM_GROWSDOWN : Z := 0x20.
Notation VM_NC := 0x40%Z (only parsing).

Definition pte_prot (flags : Z) : Z :=
  let p := PROT_USER_BASE in
  let p := if has flags VM_IO
           then Z.lor (Z.land p (not64 PTE_ATTRINDX_MASK))
                  (if has flags VM_NC then PTE_ATTRINDX MT_NORMAL_NC else PTE_ATTRINDX MT_DEVICE_nGnRE)
           else p in
  let p := if negb (has flags VM_WRITE) then Z.lor p PTE_RDONLY else p in
  let p := if negb (has flags VM_EXEC) then Z.lor p PTE_UXN else p in
  if has flags VM_WRITE then Z.lor p PTE_SW_WRITE else p.

(** ** Tables *)

Notation l3_table := (Z → Z) (only parsing).
Notation l2_table := (Z → option l3_table) (only parsing).
Notation pg_dir := (Z → option l2_table) (only parsing).

Definition empty_l3 : l3_table := λ _, 0.
Definition empty_l2 : l2_table := λ _, None.
Definition empty_pgd : pg_dir := λ _, None.

(** The part of an address space that page-table code touches: the tables,
    the resident count, and the reference counts of pages. *)
Record space : Type := Space {
  pgd : pg_dir;
  rss : Z;
  refs : Z → Z;
}.

Definition set_pgd (s : space) (p : pg_dir) : space := Space p (rss s) (refs s).

Definition ref_get (s : space) (pfn : Z) : space :=
  Space (pgd s) (rss s) (<[pfn := refs s pfn + 1]> (refs s)).
(** The count that a call of [page_put] leaves.  The call panics on a count below
    1, which no entry's page has ([put_counted] of VmaSpec), and gives a page with
    no references left to the allocator, whose side is [page_put] of Buddy. *)
Definition ref_put (s : space) (pfn : Z) : space :=
  Space (pgd s) (rss s) (<[pfn := refs s pfn - 1]> (refs s)).
Definition add_rss (s : space) (n : Z) : space := Space (pgd s) (rss s ⊕ n) (refs s).

(** [user_pte(mm, va, false)]: the entry for [va], [None] without tables. *)
Definition user_pte (p : pg_dir) (va : Z) : option Z :=
  match p (L1_INDEX va) with
  | None => None
  | Some l2 => match l2 (L2_INDEX va) with None => None | Some l3 => Some (l3 (L3_INDEX va)) end
  end.

(** [user_pte(mm, va, true)]: missing tables are allocated; the list says
    whether each allocation succeeds, and [None] is a failure. *)
Definition table_alloc (oom : list bool) : bool * list bool :=
  match oom with [] => (true, []) | b :: oom => (b, oom) end.

Definition pt_next {A} (e : option A) (fresh : A) (oom : list bool) : option A * list bool :=
  match e with
  | Some t => (Some t, oom)
  | None => let '(ok, oom) := table_alloc oom in (if ok then Some fresh else None, oom)
  end.

Definition user_pte_alloc (p : pg_dir) (va : Z) (oom : list bool) : pg_dir * bool * list bool :=
  let '(l2, oom) := pt_next (p (L1_INDEX va)) empty_l2 oom in
  match l2 with
  | None => (p, false, oom)
  | Some l2 =>
      let p := <[L1_INDEX va := Some l2]> p in
      let '(l3, oom) := pt_next (l2 (L2_INDEX va)) empty_l3 oom in
      match l3 with
      | None => (p, false, oom)
      | Some l3 => (<[L1_INDEX va := Some (<[L2_INDEX va := Some l3]> l2)]> p, true, oom)
      end
  end.

(** [set_pte] through the pointer that [user_pte] gave. *)
Definition set_pte (p : pg_dir) (va v : Z) : pg_dir :=
  match p (L1_INDEX va) with
  | None => p
  | Some l2 =>
      match l2 (L2_INDEX va) with
      | None => p
      | Some l3 => <[L1_INDEX va := Some (<[L2_INDEX va := Some (<[L3_INDEX va := v]> l3)]> l2)]> p
      end
  end.

Definition release_pte (s : space) (v : Z) : space :=
  if negb (pte_valid v) then s
  else if negb (has v PTE_SW_SHARED)
  then add_rss (ref_put s (phys_to_page (pte_addr v))) (-1)
  else s.

(** The loop of [zap_range]; it takes at most one round per page
    ([zap_range_spec]). *)
Fixpoint zap_loop (fuel : nat) (s : space) (va e : Z) : space :=
  match fuel with
  | O => s
  | S fuel =>
      if va <? e then
        match pgd s (L1_INDEX va) with
        | None => zap_loop fuel s (ALIGN_DOWN va L1_SIZE ⊕ L1_SIZE) e
        | Some l2 =>
            match l2 (L2_INDEX va) with
            | None => zap_loop fuel s (ALIGN_DOWN va L2_SIZE ⊕ L2_SIZE) e
            | Some l3 =>
                let v := l3 (L3_INDEX va) in
                let s := if pte_valid v
                         then release_pte (set_pgd s (set_pte (pgd s) va 0)) v else s in
                zap_loop fuel s (va ⊕ PAGE_SIZE) e
            end
        end
      else s
  end.

Definition zap_range (s : space) (start e : Z) : space :=
  zap_loop (S (Z.to_nat ((e - start) / PAGE_SIZE))) s start e.

(** [free_tables]: every entry of every table is released; the tables
    themselves go back to the page allocator. *)
Definition for_entries (f : space → Z → space) (s : space) : space :=
  foldl f s (seqZ 0 PT_ENTRIES).

Definition free_tables (s : space) : space :=
  for_entries (λ s i,
    match pgd s i with
    | None => s
    | Some l2 =>
        for_entries (λ s j,
          match l2 j with
          | None => s
          | Some l3 => for_entries (λ s k, release_pte s (l3 k)) s
          end) s
    end) s.

(** ** Indices

    Below 2^39 the three indices are the digits of the page number. *)

Definition USER_VA_END : Z := 2 ^ 39.

Definition pte_at (p : pg_dir) (va : Z) : Z := default 0 (user_pte p va).

Lemma index_div va k :
  0 ≤ va → 0 ≤ k → Z.land (Z.shiftr va k) (PT_ENTRIES - 1) = (va / 2 ^ k) `mod` 512.
Proof.
  intros. change (PT_ENTRIES - 1) with (Z.ones 9). rewrite Z.land_ones by lia.
  by rewrite Z.shiftr_div_pow2 by lia.
Qed.

Lemma L1_INDEX_div va : 0 ≤ va → L1_INDEX va = (va / 2 ^ 30) `mod` 512.
Proof. intros. by apply index_div. Qed.
Lemma L2_INDEX_div va : 0 ≤ va → L2_INDEX va = (va / 2 ^ 21) `mod` 512.
Proof. intros. by apply index_div. Qed.
Lemma L3_INDEX_div va : 0 ≤ va → L3_INDEX va = (va / 2 ^ 12) `mod` 512.
Proof. intros. by apply index_div. Qed.

Definition same_page (a b : Z) : Prop := a / PAGE_SIZE = b / PAGE_SIZE.
#[export] Instance same_page_dec a b : Decision (same_page a b).
Proof. unfold same_page. apply _. Defined.

Lemma same_page_index a b :
  0 ≤ a < USER_VA_END → 0 ≤ b < USER_VA_END →
  L1_INDEX a = L1_INDEX b → L2_INDEX a = L2_INDEX b → L3_INDEX a = L3_INDEX b →
  same_page a b.
Proof.
  unfold USER_VA_END, same_page, PAGE_SIZE. intros Ha Hb.
  rewrite !L1_INDEX_div, !L2_INDEX_div, !L3_INDEX_div by lia.
  intros H1 H2 H3.
  rewrite !(Z.mod_small _ 512) in H1 by (split; [apply Z.div_pos|apply Z.div_lt_upper_bound]; lia).
  change 4096 with (2 ^ 12).
  change (2 ^ 30) with (2 ^ 12 * 512 * 512) in H1. change (2 ^ 21) with (2 ^ 12 * 512) in H2.
  rewrite <-!Z.div_div in H1 by lia. rewrite <-!Z.div_div in H2 by lia.
  set (x := a / 2 ^ 12) in *. set (y := b / 2 ^ 12) in *.
  pose proof (Z.div_mod x 512 ltac:(lia)). pose proof (Z.div_mod y 512 ltac:(lia)).
  pose proof (Z.div_mod (x / 512) 512 ltac:(lia)). pose proof (Z.div_mod (y / 512) 512 ltac:(lia)).
  lia.
Qed.

Lemma index_same_page a b :
  0 ≤ a → 0 ≤ b → same_page a b →
  L1_INDEX a = L1_INDEX b ∧ L2_INDEX a = L2_INDEX b ∧ L3_INDEX a = L3_INDEX b.
Proof.
  unfold same_page, PAGE_SIZE. intros Ha Hb E.
  rewrite !L1_INDEX_div, !L2_INDEX_div, !L3_INDEX_div by lia.
  change (2 ^ 30) with (4096 * 2 ^ 18). change (2 ^ 21) with (4096 * 2 ^ 9). change (2 ^ 12) with 4096.
  rewrite <-!Z.div_div by lia. by rewrite E.
Qed.

(** An aligned block of the size of one upper-level entry shares its index. *)
Lemma block_div va va' k :
  0 ≤ va → 0 ≤ k → va ≤ va' < va / 2 ^ k * 2 ^ k + 2 ^ k → va' / 2 ^ k = va / 2 ^ k.
Proof.
  intros Hva Hk H. assert (0 < 2 ^ k) by (apply Z.pow_pos_nonneg; lia).
  pose proof (Z.mul_div_le va (2 ^ k) ltac:(lia)).
  symmetry. apply (Z.div_unique_pos _ _ _ (va' - va / 2 ^ k * 2 ^ k)); lia.
Qed.

(** ** Lookup and update *)

Lemma user_pte_same_page p a b :
  0 ≤ a → 0 ≤ b → same_page a b → user_pte p a = user_pte p b.
Proof. intros Ha Hb H. destruct (index_same_page a b Ha Hb H) as (E1 & E2 & E3). unfold user_pte. by rewrite E1, E2, E3. Qed.

Lemma user_pte_set p a b v :
  0 ≤ a < USER_VA_END → 0 ≤ b < USER_VA_END →
  user_pte (set_pte p a v) b =
    if bool_decide (same_page a b) then (λ _, v) <$> user_pte p b else user_pte p b.
Proof.
  intros Ha Hb. case_bool_decide as Hs.
  - rewrite <-!(user_pte_same_page _ a b) by (done || lia). unfold user_pte, set_pte.
    destruct (p (L1_INDEX a)) as [l2|] eqn:E1; [|by rewrite E1].
    destruct (l2 (L2_INDEX a)) as [l3|] eqn:E2; [|by rewrite E1, E2].
    by rewrite fn_lookup_insert, fn_lookup_insert, fn_lookup_insert.
  - unfold user_pte, set_pte.
    destruct (p (L1_INDEX a)) as [l2|] eqn:E1; [|done].
    destruct (l2 (L2_INDEX a)) as [l3|] eqn:E2; [|done].
    destruct (decide (L1_INDEX a = L1_INDEX b)) as [H1|]; [|by rewrite fn_lookup_insert_ne].
    rewrite <-H1, fn_lookup_insert, E1.
    destruct (decide (L2_INDEX a = L2_INDEX b)) as [H2|]; [|by rewrite fn_lookup_insert_ne].
    rewrite <-H2, fn_lookup_insert, E2. rewrite fn_lookup_insert_ne; [done|].
    intros H3. apply Hs. by apply same_page_index.
Qed.

Lemma pte_at_set p a b v :
  0 ≤ a < USER_VA_END → 0 ≤ b < USER_VA_END → is_Some (user_pte p a) →
  pte_at (set_pte p a v) b = if bool_decide (same_page a b) then v else pte_at p b.
Proof.
  intros Ha Hb [w Hw]. unfold pte_at. rewrite user_pte_set by done.
  case_bool_decide as Hs; [|done].
  by rewrite <-(user_pte_same_page p a b), Hw by (done || lia).
Qed.

(** An entry that is set is below a table. *)
Lemma pte_valid_user p va : pte_valid (pte_at p va) = true → is_Some (user_pte p va).
Proof. unfold pte_at. by destruct (user_pte p va). Qed.

(** ** The reference for [zap_range]: page by page, no skipping *)

Definition zap_page (s : space) (va : Z) : space :=
  let v := pte_at (pgd s) va in
  if pte_valid v then release_pte (set_pgd s (set_pte (pgd s) va 0)) v else s.

Fixpoint sweep (n : nat) (s : space) (va : Z) : space :=
  match n with
  | O => s
  | S n => sweep n (zap_page s va) (va + PAGE_SIZE)
  end.

Lemma sweep_skip k n s va :
  (∀ i, 0 ≤ i < Z.of_nat k → pte_at (pgd s) (va + i * PAGE_SIZE) = 0) →
  sweep n s va = sweep (n - k) s (va + Z.of_nat k * PAGE_SIZE).
Proof.
  revert n s va. induction k as [|k IH]; intros n s va Hz.
  - rewrite Nat.sub_0_r. f_equal. lia.
  - destruct n as [|n]; [done|]. simpl sweep.
    assert (zap_page s va = s) as ->.
    { unfold zap_page. specialize (Hz 0). rewrite Z.mul_0_l, Z.add_0_r in Hz. rewrite Hz by lia. done. }
    rewrite (IH n s (va + PAGE_SIZE)).
    + f_equal. lia.
    + intros i Hi. replace (va + PAGE_SIZE + i * PAGE_SIZE) with (va + (i + 1) * PAGE_SIZE) by lia.
      apply Hz. lia.
Qed.

(** The two jumps of the loop, over the pages that an absent table covers. *)
Lemma sweep_jump k s va e :
  12 ≤ k ≤ 30 → 0 ≤ va < USER_VA_END → (PAGE_SIZE | va) → (PAGE_SIZE | e) → va < e →
  (∀ va', va' / 2 ^ k = va / 2 ^ k → 0 ≤ va' → pte_at (pgd s) va' = 0) →
  let va' := ALIGN_DOWN va (bit k) ⊕ bit k in
  va < va' ∧ va' ≤ USER_VA_END + 2 ^ 30 ∧ (PAGE_SIZE | va') ∧
  sweep (Z.to_nat ((e - va) / PAGE_SIZE)) s va = sweep (Z.to_nat ((e - va') / PAGE_SIZE)) s va'.
Proof.
  intros Hk Hva [q Hq] [r Hr] Hlt Hz. unfold bit. rewrite Z.shiftl_1_l.
  assert (2 ^ k = PAGE_SIZE * 2 ^ (k - 12)) as Hpk.
  { change PAGE_SIZE with (2 ^ 12). rewrite <-Z.pow_add_r by lia. f_equal. lia. }
  assert (1 ≤ 2 ^ (k - 12)) by (pose proof (Z.pow_pos_nonneg 2 (k - 12)); lia).
  assert (2 ^ k ≤ 2 ^ 30) by (apply Z.pow_le_mono_r; lia).
  unfold USER_VA_END in *.
  rewrite ALIGN_DOWN_div by ((exists k; lia) || (unfold u64_ok, U64; lia)).
  pose proof (Z.mul_div_le va (2 ^ k) ltac:(lia)).
  pose proof (Z.mul_succ_div_gt va (2 ^ k) ltac:(lia)).
  pose proof (Z.div_pos va (2 ^ k) ltac:(lia) ltac:(lia)).
  rewrite add64_small by (unfold U64; lia). set (va' := va / 2 ^ k * 2 ^ k + 2 ^ k).
  set (c := (va / 2 ^ k + 1) * 2 ^ (k - 12)).
  assert (va' = c * PAGE_SIZE) as Hva' by (unfold va', c; rewrite Hpk; lia).
  cbn zeta. split_and!; [lia|lia|by exists c|].
  rewrite Hva', Hr, Hq, <-!Z.mul_sub_distr_r, !Z.div_mul by done.
  assert (q < c) by (unfold PAGE_SIZE in *; lia).
  rewrite (sweep_skip (Z.to_nat (c - q))).
  - f_equal; lia.
  - intros i Hi. rewrite <-Hq. apply Hz; [|unfold PAGE_SIZE; lia].
    apply block_div; [lia..|]. fold va'. unfold PAGE_SIZE in *. lia.
Qed.

Lemma zap_loop_sweep fuel s va e :
  0 ≤ va → (PAGE_SIZE | va) → (PAGE_SIZE | e) → e ≤ USER_VA_END →
  (Z.to_nat ((e - va) / PAGE_SIZE) < fuel)%nat →
  zap_loop fuel s va e = sweep (Z.to_nat ((e - va) / PAGE_SIZE)) s va.
Proof.
  revert s va. induction fuel as [|fuel IH]; intros s va Hva Ha He Hend Hf; [lia|].
  cbn [zap_loop]. destruct (va <? e) eqn:Hlt; zbool; swap 1 2.
  { assert ((e - va) / PAGE_SIZE ≤ 0) by (apply Z.div_le_upper_bound; unfold PAGE_SIZE; lia).
    by rewrite to_nat_nonpos. }
  assert (∀ va', va < va' → (PAGE_SIZE | va') →
    (Z.to_nat ((e - va') / PAGE_SIZE) < Z.to_nat ((e - va) / PAGE_SIZE))%nat) as Hless.
  { intros va' Hlt' [r ->]. destruct Ha as [q ->], He as [t ->].
    rewrite <-!Z.mul_sub_distr_r, !Z.div_mul by done. unfold PAGE_SIZE in *. lia. }
  destruct (pgd s (L1_INDEX va)) as [l2|] eqn:E1; swap 1 2.
  { destruct (sweep_jump L1_SHIFT s va e) as (H1 & H2 & H3 & ->); [done|lia|done..| |].
    { intros va' E Hp. unfold pte_at, user_pte. unfold L1_SHIFT in *.
      by rewrite L1_INDEX_div, E, <-L1_INDEX_div, E1 by lia. }
    pose proof (Hless _ H1 H3). apply IH; (done || lia). }
  destruct (l2 (L2_INDEX va)) as [l3|] eqn:E2; swap 1 2.
  { destruct (sweep_jump L2_SHIFT s va e) as (H1 & H2 & H3 & ->); [done|lia|done..| |].
    { intros va' E Hp. unfold pte_at, user_pte. unfold L2_SHIFT in *.
      assert (L1_INDEX va' = L1_INDEX va) as ->.
      { rewrite !L1_INDEX_div by lia. change (2 ^ 30) with (2 ^ 21 * 2 ^ 9).
        by rewrite <-!Z.div_div, E by lia. }
      by rewrite L2_INDEX_div, E, <-L2_INDEX_div, E1, E2 by lia. }
    pose proof (Hless _ H1 H3). apply IH; (done || lia). }
  assert (l3 (L3_INDEX va) = pte_at (pgd s) va) as -> by (unfold pte_at, user_pte; by rewrite E1, E2).
  assert (PAGE_SIZE | va + PAGE_SIZE) as Hd by (apply Z.divide_add_r; [done|apply Z.divide_refl]).
  pose proof (Hless (va + PAGE_SIZE) ltac:(unfold PAGE_SIZE; lia) Hd).
  change (if pte_valid _ then _ else s) with (zap_page s va).
  rewrite add64_small by (unfold USER_VA_END, U64, PAGE_SIZE in *; lia).
  rewrite IH by (done || unfold PAGE_SIZE in *; lia).
  replace (e - va) with (e - (va + PAGE_SIZE) + 1 * PAGE_SIZE) by lia.
  rewrite Z.div_add by done. pose proof (divide_gap PAGE_SIZE va e ltac:(done) Ha He Hlt).
  pose proof (Z.div_pos (e - (va + PAGE_SIZE)) PAGE_SIZE ltac:(lia) ltac:(done)).
  rewrite Z.add_1_r, Z2Nat.inj_succ by lia. done.
Qed.

Lemma zap_range_sweep s start e :
  0 ≤ start → (PAGE_SIZE | start) → (PAGE_SIZE | e) → e ≤ USER_VA_END →
  zap_range s start e = sweep (Z.to_nat ((e - start) / PAGE_SIZE)) s start.
Proof. intros. apply zap_loop_sweep; (done || lia). Qed.

(** ** What a sweep does *)

(** A page that this address space holds a reference to. *)
Definition owned (v : Z) : bool := pte_valid v && negb (has v PTE_SW_SHARED).

Definition own (x v : Z) : Z := if owned v && (phys_to_page (pte_addr v) =? x) then 1 else 0.
Definition own_any (v : Z) : Z := if owned v then 1 else 0.

(** The sum of [g] over the entries of [n] pages from [va]. *)
Fixpoint sum_ptes (g : Z → Z) (n : nat) (p : pg_dir) (va : Z) : Z :=
  match n with
  | O => 0
  | S n => g (pte_at p va) + sum_ptes g n p (va + PAGE_SIZE)
  end.

Lemma sum_ptes_ext g n p p' va :
  (∀ i, 0 ≤ i < Z.of_nat n → pte_at p' (va + i * PAGE_SIZE) = pte_at p (va + i * PAGE_SIZE)) →
  sum_ptes g n p' va = sum_ptes g n p va.
Proof.
  revert va. induction n as [|n IH]; intros va H; [done|]. simpl.
  pose proof (H 0 ltac:(lia)) as H0. rewrite Z.mul_0_l, Z.add_0_r in H0. rewrite H0, IH; [done|].
  intros i Hi. replace (va + PAGE_SIZE + i * PAGE_SIZE) with (va + (i + 1) * PAGE_SIZE) by lia.
  apply H. lia.
Qed.

Lemma page_step_ne va i :
  (PAGE_SIZE | va) → 0 ≤ i → ¬ same_page va (va + PAGE_SIZE + i * PAGE_SIZE).
Proof.
  intros [q ->] Hi. unfold same_page, PAGE_SIZE.
  rewrite <-Z.mul_succ_l, <-Z.mul_add_distr_r, !Z.div_mul by done. lia.
Qed.

(** Storing an entry changes a sum by the difference it makes. *)
Lemma sum_ptes_set g n p va a v :
  0 ≤ va → (PAGE_SIZE | va) → va + Z.of_nat n * PAGE_SIZE ≤ USER_VA_END →
  0 ≤ a < USER_VA_END → (PAGE_SIZE | a) → is_Some (user_pte p a) →
  sum_ptes g n (set_pte p a v) va =
    sum_ptes g n p va + (if bool_decide (va ≤ a < va + Z.of_nat n * PAGE_SIZE) then g v - g (pte_at p a) else 0).
Proof.
  intros Hva0 Hal He Ha Haa Hs. revert va Hva0 Hal He. induction n as [|n IH]; intros va Hva Hal He.
  { rewrite bool_decide_false by lia. simpl. lia. }
  cbn [sum_ptes]. assert (PAGE_SIZE | va + PAGE_SIZE) as Hd by (by apply Z.divide_add_r, Z.divide_refl).
  rewrite IH by (done || unfold PAGE_SIZE in *; lia).
  rewrite pte_at_set by (done || unfold PAGE_SIZE in *; lia).
  destruct (decide (va = a)) as [->|Hne].
  - rewrite bool_decide_true, bool_decide_false, bool_decide_true by (done || unfold PAGE_SIZE; lia). lia.
  - rewrite (bool_decide_false (same_page a va)).
    + rewrite (bool_decide_ext (va + PAGE_SIZE ≤ a < _) (va ≤ a < va + Z.of_nat (S n) * PAGE_SIZE)); [lia|].
      split; [unfold PAGE_SIZE; lia|]. intros ?.
      pose proof (divide_gap PAGE_SIZE va a ltac:(done) Hal Haa ltac:(lia)). unfold PAGE_SIZE in *. lia.
    + destruct Hal as [q ->], Haa as [r ->]. unfold same_page. rewrite !Z.div_mul by done.
      intros E. apply Hne. by rewrite E.
Qed.

Lemma zap_page_pgd s va :
  pgd (zap_page s va) = if pte_valid (pte_at (pgd s) va) then set_pte (pgd s) va 0 else pgd s.
Proof. unfold zap_page, release_pte. by repeat case_test. Qed.

Lemma zap_page_pte s va b :
  0 ≤ va < USER_VA_END → 0 ≤ b < USER_VA_END →
  pte_at (pgd (zap_page s va)) b =
    if bool_decide (same_page va b) && pte_valid (pte_at (pgd s) b) then 0 else pte_at (pgd s) b.
Proof.
  intros Hva Hb. rewrite zap_page_pgd. destruct (pte_valid (pte_at (pgd s) va)) eqn:Hv.
  - rewrite pte_at_set by (done || by apply pte_valid_user). case_bool_decide as Hs; [|done].
    unfold pte_at in Hv. rewrite (user_pte_same_page _ va b) in Hv by (done || lia).
    unfold pte_at. by rewrite Hv.
  - case_bool_decide as Hs; [|done]. unfold pte_at in Hv.
    rewrite (user_pte_same_page _ va b) in Hv by (done || lia). unfold pte_at. by rewrite Hv.
Qed.

Lemma zap_page_count s va x :
  refs (zap_page s va) x = refs s x - own x (pte_at (pgd s) va) ∧
  (u64_ok (rss s) → rss (zap_page s va) = wrap64 (rss s - own_any (pte_at (pgd s) va))).
Proof.
  unfold zap_page, release_pte, own, own_any, owned.
  destruct (pte_valid _) eqn:Hv; simpl; [|split; [lia|intros; rewrite wrap64_small; unfold u64_ok in *; lia]].
  destruct (has _ PTE_SW_SHARED) eqn:Hs; simpl.
  { split; [lia|intros; rewrite wrap64_small; unfold u64_ok in *; lia]. }
  split; [|done]. destruct (phys_to_page _ =? x) eqn:E; zbool; [subst; by rewrite fn_lookup_insert|].
  rewrite fn_lookup_insert_ne by done. lia.
Qed.

Lemma page_between va b n :
  (PAGE_SIZE | va) → 0 ≤ n →
  va ≤ b < va + n * PAGE_SIZE + PAGE_SIZE ↔ same_page va b ∨ va + PAGE_SIZE ≤ b < va + PAGE_SIZE + n * PAGE_SIZE.
Proof.
  intros [q ->] Hn. unfold same_page, PAGE_SIZE in *. rewrite Z.div_mul by done.
  pose proof (Z.div_mod b 4096 ltac:(lia)). pose proof (Z.mod_pos_bound b 4096 ltac:(lia)).
  split; [|intros [?|?]; nia]. intros H'. destruct (decide (q = b / 4096)); [by left|right]. nia.
Qed.

Lemma sweep_pte n s va b :
  0 ≤ va → (PAGE_SIZE | va) → va + Z.of_nat n * PAGE_SIZE ≤ USER_VA_END → 0 ≤ b < USER_VA_END →
  pte_at (pgd (sweep n s va)) b =
    if bool_decide (va ≤ b < va + Z.of_nat n * PAGE_SIZE) && pte_valid (pte_at (pgd s) b)
    then 0 else pte_at (pgd s) b.
Proof.
  revert s va. induction n as [|n IH]; intros s va Hva Ha He Hb.
  { rewrite bool_decide_false by lia. done. }
  cbn [sweep]. rewrite IH; [|unfold PAGE_SIZE in *; lia|by apply Z.divide_add_r, Z.divide_refl|lia|done].
  rewrite zap_page_pte by (unfold PAGE_SIZE in *; lia).
  rewrite (bool_decide_ext (va ≤ b < va + Z.of_nat (S n) * PAGE_SIZE)
    (same_page va b ∨ va + PAGE_SIZE ≤ b < va + PAGE_SIZE + Z.of_nat n * PAGE_SIZE))
    by (rewrite <-page_between by (done || lia); unfold PAGE_SIZE; lia).
  rewrite bool_decide_or.
  by destruct (bool_decide (same_page va b)), (bool_decide (va + PAGE_SIZE ≤ b < _)),
    (pte_valid (pte_at (pgd s) b)) eqn:E; simpl; rewrite ?E.
Qed.

Lemma sweep_count n s va x :
  0 ≤ va → (PAGE_SIZE | va) → va + Z.of_nat n * PAGE_SIZE ≤ USER_VA_END → u64_ok (rss s) →
  refs (sweep n s va) x = refs s x - sum_ptes (own x) n (pgd s) va ∧
  rss (sweep n s va) = wrap64 (rss s - sum_ptes own_any n (pgd s) va).
Proof.
  revert s va. induction n as [|n IH]; intros s va Hva Ha He Hr.
  { simpl. split; [lia|]. rewrite wrap64_small; unfold u64_ok in *; lia. }
  destruct (zap_page_count s va x) as [H1 H2]. specialize (H2 Hr).
  assert (PAGE_SIZE | va + PAGE_SIZE) as Hd by (by apply Z.divide_add_r, Z.divide_refl).
  destruct (IH (zap_page s va) (va + PAGE_SIZE)) as [I1 I2];
    [unfold PAGE_SIZE; lia|done|lia|rewrite H2; apply wrap64_range|].
  assert (∀ g, sum_ptes g n (pgd (zap_page s va)) (va + PAGE_SIZE) = sum_ptes g n (pgd s) (va + PAGE_SIZE)) as E.
  { intros g. apply sum_ptes_ext. intros i Hi. rewrite zap_page_pte by (unfold PAGE_SIZE in *; lia).
    by rewrite bool_decide_false by (apply page_step_ne; (done || lia)). }
  rewrite E in I1, I2.
  cbn [sweep sum_ptes]. rewrite I1, I2, H1, H2. split; [lia|].
  unfold wrap64. rewrite Zminus_mod_idemp_l. f_equal. lia.
Qed.

(** The number of pages of an aligned range. *)
Lemma pages_exact start e :
  start ≤ e → (PAGE_SIZE | start) → (PAGE_SIZE | e) →
  start + Z.of_nat (Z.to_nat ((e - start) / PAGE_SIZE)) * PAGE_SIZE = e.
Proof.
  intros H [q ->] [r ->]. rewrite <-Z.mul_sub_distr_r, Z.div_mul by done.
  unfold PAGE_SIZE in *. lia.
Qed.

Lemma pages_step va e :
  va < e → (PAGE_SIZE | va) → (PAGE_SIZE | e) →
  Z.to_nat ((e - va) / PAGE_SIZE) = S (Z.to_nat ((e - (va + PAGE_SIZE)) / PAGE_SIZE)).
Proof.
  intros Hlt [q ->] [r ->]. rewrite <-Z.mul_succ_l, <-!Z.mul_sub_distr_r, !Z.div_mul by done.
  unfold PAGE_SIZE in *. lia.
Qed.

Lemma zap_range_spec s start e :
  0 ≤ start ≤ e → e ≤ USER_VA_END → (PAGE_SIZE | start) → (PAGE_SIZE | e) → u64_ok (rss s) →
  let s' := zap_range s start e in
  let n := Z.to_nat ((e - start) / PAGE_SIZE) in
  (∀ va, 0 ≤ va < USER_VA_END → pte_at (pgd s') va =
     if bool_decide (start ≤ va < e) && pte_valid (pte_at (pgd s) va) then 0 else pte_at (pgd s) va) ∧
  (∀ x, refs s' x = refs s x - sum_ptes (own x) n (pgd s) start) ∧
  rss s' = wrap64 (rss s - sum_ptes own_any n (pgd s) start).
Proof.
  intros Hs He Ha Hb Hr. cbn zeta. rewrite zap_range_sweep by (done || lia).
  pose proof (pages_exact start e ltac:(lia) Ha Hb) as Hn.
  set (n := Z.to_nat _) in *. split_and!.
  - intros va Hva. rewrite sweep_pte by (done || lia). by rewrite Hn.
  - intros x. apply sweep_count; (done || lia).
  - apply (sweep_count n s start 0); (done || lia).
Qed.

(** C10.  [zap_range] over whole pages of the user half clears exactly the
    valid entries of the range, whatever tables are missing, drops one
    reference for each page that the address space owned there and subtracts
    their number from the resident count; it touches nothing else. *)
Theorem zap_range_correct s start e :
  0 ≤ start ≤ e → e ≤ USER_VA_END → (PAGE_SIZE | start) → (PAGE_SIZE | e) → u64_ok (rss s) →
  let s' := zap_range s start e in
  let n := Z.to_nat ((e - start) / PAGE_SIZE) in
  (∀ va, 0 ≤ va < USER_VA_END → pte_at (pgd s') va =
     if bool_decide (start ≤ va < e) && pte_valid (pte_at (pgd s) va) then 0 else pte_at (pgd s) va) ∧
  (∀ x, refs s' x = refs s x - sum_ptes (own x) n (pgd s) start) ∧
  rss s' = wrap64 (rss s - sum_ptes own_any n (pgd s) start).
Proof. intros. by apply zap_range_spec. Qed.

(** A page at 5 GiB and one at 4 KiB in tables of their own, both zapped. *)
Definition ex_space : space :=
  let p1 := (user_pte_alloc empty_pgd 0x140000000 []).1.1 in
  let p2 := (user_pte_alloc p1 0x1000 []).1.1 in
  let v x := Z.lor (page_to_phys x) (pte_prot (Z.lor VM_READ VM_WRITE)) in
  Space (set_pte (set_pte p2 0x140000000 (v 7)) 0x1000 (v 8)) 2 (λ _, 1).

Lemma zap_range_witness :
  let s' := zap_range ex_space 0x1000 0x140001000 in
  (pte_valid (pte_at (pgd ex_space) 0x140000000) = true ∧ pte_at (pgd s') 0x140000000 = 0) ∧
  refs s' 7 = refs ex_space 7 - sum_ptes (own 7) (Z.to_nat ((0x140001000 - 0x1000) / PAGE_SIZE)) (pgd ex_space) 0x1000.
Proof.
  destruct (zap_range_correct ex_space 0x1000 0x140001000) as (H1 & H2 & _).
  - lia.
  - unfold USER_VA_END. lia.
  - by exists 1.
  - by exists 0x140001.
  - unfold u64_ok, U64. cbn [rss ex_space]. lia.
  - split; [split|apply H2].
    + vm_compute. reflexivity.
    + rewrite H1 by (unfold USER_VA_END; lia). rewrite bool_decide_true by lia.
      vm_compute. reflexivity.
Defined.

(** ** Exact reference counts

    [held x p] is the number of entries of [p] that own frame [x], [total p]
    the number of owned entries.  [balanced] steps keep the references that
    others hold, [refs - held], and the error of the resident count. *)

Definition NPAGES : nat := Z.to_nat (USER_VA_END / PAGE_SIZE).
Definition held (x : Z) (p : pg_dir) : Z := sum_ptes (own x) NPAGES p 0.
Definition total (p : pg_dir) : Z := sum_ptes own_any NPAGES p 0.

Lemma NPAGES_end : 0 + Z.of_nat NPAGES * PAGE_SIZE = USER_VA_END.
Proof. unfold NPAGES, USER_VA_END, PAGE_SIZE. rewrite Z2Nat.id; [done|by vm_compute]. Qed.

#[global] Opaque NPAGES.

Record balanced (s s' : space) : Prop := {
  bal_refs x : refs s' x - held x (pgd s') = refs s x - held x (pgd s);
  bal_rss : wrap64 (rss s' - total (pgd s')) = wrap64 (rss s - total (pgd s));
  bal_ok : u64_ok (rss s) → u64_ok (rss s');
}.

#[export] Instance balanced_refl : Reflexive balanced.
Proof. by split. Qed.
#[export] Instance balanced_trans : Transitive balanced.
Proof.
  intros a b c [H1 H2 H3] [K1 K2 K3]. split; [intros x; by rewrite K1, H1|by rewrite K2, H2|by auto].
Qed.

Lemma sum_all_set g p a v :
  0 ≤ a < USER_VA_END → (PAGE_SIZE | a) → is_Some (user_pte p a) →
  sum_ptes g NPAGES (set_pte p a v) 0 = sum_ptes g NPAGES p 0 + (g v - g (pte_at p a)).
Proof.
  intros Ha Hd Hs. rewrite sum_ptes_set; [|done|by exists 0|by rewrite NPAGES_end|done..].
  by rewrite bool_decide_true by (by rewrite NPAGES_end).
Qed.

Lemma sum_all_ext g p p' :
  (∀ a, 0 ≤ a < USER_VA_END → (PAGE_SIZE | a) → pte_at p' a = pte_at p a) →
  sum_ptes g NPAGES p' 0 = sum_ptes g NPAGES p 0.
Proof.
  intros H. apply sum_ptes_ext. intros i Hi. pose proof NPAGES_end. apply H; [unfold PAGE_SIZE in *; lia|].
  by apply Z.divide_factor_r.
Qed.

(** A step that leaves every entry alone and touches no count. *)
Lemma balanced_same s s' :
  (∀ a, 0 ≤ a < USER_VA_END → (PAGE_SIZE | a) → pte_at (pgd s') a = pte_at (pgd s) a) →
  (∀ x, refs s' x = refs s x) → rss s' = rss s → balanced s s'.
Proof.
  intros Hp Hr Hs. split; [intros x; unfold held|unfold total|by rewrite Hs];
    rewrite (sum_all_ext _ _ _ Hp), ?Hr, ?Hs; done.
Qed.

(** Storing [v] at [a], when the counts move with it. *)
Lemma balanced_set s s' a v :
  0 ≤ a < USER_VA_END → (PAGE_SIZE | a) → is_Some (user_pte (pgd s) a) →
  pgd s' = set_pte (pgd s) a v →
  (∀ x, refs s' x = refs s x + (own x v - own x (pte_at (pgd s) a))) →
  wrap64 (rss s') = wrap64 (rss s + (own_any v - own_any (pte_at (pgd s) a))) →
  (u64_ok (rss s) → u64_ok (rss s')) →
  balanced s s'.
Proof.
  intros Ha Hd Hs Hp Hr Hrss Hok. split; [| |done].
  - intros x. unfold held. rewrite Hp, sum_all_set, Hr by done. lia.
  - unfold total. rewrite Hp, sum_all_set by done. unfold wrap64 in *.
    rewrite <-(Zminus_mod_idemp_l (rss s')), Hrss, Zminus_mod_idemp_l. f_equal. lia.
Qed.

Lemma zap_page_balanced s va :
  0 ≤ va < USER_VA_END → (PAGE_SIZE | va) → balanced s (zap_page s va).
Proof.
  intros Hva Hd. destruct (pte_valid (pte_at (pgd s) va)) eqn:Hv; swap 1 2.
  { unfold zap_page. by rewrite Hv. }
  apply (balanced_set s _ va 0); [done..|by apply pte_valid_user|by rewrite zap_page_pgd, Hv| | |].
  - intros x. destruct (zap_page_count s va x) as [-> _]. change (own x 0) with 0. lia.
  - unfold zap_page, release_pte, own_any, owned. rewrite Hv. cbn [negb andb].
    change (pte_valid 0) with false. cbn [andb]. case_test; simpl; swap 1 2; [f_equal; lia|].
    unfold add64, wrap64. by rewrite Z.mod_mod by done.
  - intros Hok. destruct (zap_page_count s va 0) as [_ H]. rewrite H by done. apply wrap64_range.
Qed.

Lemma zap_range_balanced s start e :
  0 ≤ start ≤ e → e ≤ USER_VA_END → (PAGE_SIZE | start) → (PAGE_SIZE | e) →
  balanced s (zap_range s start e).
Proof.
  intros Hs He Ha Hb. rewrite zap_range_sweep by (done || lia).
  pose proof (pages_exact start e ltac:(lia) Ha Hb) as Hn. set (n := Z.to_nat _) in *. clearbody n.
  subst e. clear Hb. revert s start Hs He Ha. induction n as [|n IH]; intros s va Hva He Ha; [done|].
  cbn [sweep]. etrans; [apply (zap_page_balanced s va); [unfold PAGE_SIZE in *; lia|done]|].
  apply IH; [unfold PAGE_SIZE in *; lia..|by apply Z.divide_add_r, Z.divide_refl].
Qed.

(** Allocating the tables for an entry changes no entry. *)
Definition l2_val (l2 : l2_table) (a : Z) : Z :=
  match l2 (L2_INDEX a) with None => 0 | Some l3 => l3 (L3_INDEX a) end.

Lemma pte_at_l2 p a : pte_at p a = match p (L1_INDEX a) with None => 0 | Some l2 => l2_val l2 a end.
Proof. unfold pte_at, user_pte, l2_val. by repeat case_match. Qed.

Lemma pte_at_insert p i l2 a :
  (∀ a, L1_INDEX a = i → l2_val l2 a = pte_at p a) → pte_at (<[i := Some l2]> p) a = pte_at p a.
Proof.
  intros H. rewrite (pte_at_l2 (<[i := Some l2]> p)).
  destruct (decide (i = L1_INDEX a)) as [->|]; [rewrite fn_lookup_insert; by apply H|].
  by rewrite fn_lookup_insert_ne, <-pte_at_l2 by done.
Qed.

Lemma l2_val_insert l2 j l3 a :
  (l2 j = None → l3 = empty_l3) → (∀ t, l2 j = Some t → l3 = t) →
  l2_val (<[j := Some l3]> l2) a = l2_val l2 a.
Proof.
  intros H1 H2. unfold l2_val. destruct (decide (j = L2_INDEX a)) as [->|];
    [|by rewrite fn_lookup_insert_ne by done].
  rewrite fn_lookup_insert. destruct (l2 (L2_INDEX a)) as [t|] eqn:E; [by rewrite (H2 t)|by rewrite H1].
Qed.

Lemma pt_next_spec {A} (e : option A) fresh oom t oom' :
  pt_next e fresh oom = (Some t, oom') → (e = None → t = fresh) ∧ (∀ u, e = Some u → t = u).
Proof. unfold pt_next. destruct e; [|destruct (table_alloc oom) as [[] ?]]; naive_solver. Qed.

Lemma user_pte_alloc_spec p va oom p' ok oom' :
  user_pte_alloc p va oom = (p', ok, oom') →
  (∀ a, pte_at p' a = pte_at p a) ∧ (ok = true → is_Some (user_pte p' va)).
Proof.
  unfold user_pte_alloc. intros H.
  destruct (pt_next (p (L1_INDEX va)) empty_l2 oom) as [[l2|] oom1] eqn:E1; [|by simplify_eq].
  apply pt_next_spec in E1 as [N1 S1].
  assert (∀ a, L1_INDEX a = L1_INDEX va → l2_val l2 a = pte_at p a) as Hl2.
  { intros a Ea. rewrite pte_at_l2, Ea. destruct (p (L1_INDEX va)) as [t|]; [by rewrite (S1 t)|by rewrite N1]. }
  destruct (pt_next (l2 (L2_INDEX va)) empty_l3 oom1) as [[l3|] oom2] eqn:E2; simplify_eq.
  - apply pt_next_spec in E2 as [N2 S2]. split.
    + intros a. rewrite pte_at_insert; [by apply pte_at_insert|].
      intros b Hb. rewrite (pte_at_insert p) by done. rewrite <-Hl2 by done. by apply l2_val_insert.
    + intros _. unfold user_pte. rewrite fn_lookup_insert, fn_lookup_insert. by eexists.
  - split; [intros a; by apply pte_at_insert|done].
Qed.

(** *** Lower bounds of [held] *)

Lemma own_nonneg x v : 0 ≤ own x v.
Proof. unfold own. case_test; lia. Qed.

Lemma sum_ptes_mono g g' n p p' va :
  (∀ i, 0 ≤ i < Z.of_nat n → g (pte_at p (va + i * PAGE_SIZE)) ≤ g' (pte_at p' (va + i * PAGE_SIZE))) →
  sum_ptes g n p va ≤ sum_ptes g' n p' va.
Proof.
  revert va. induction n as [|n IH]; intros va H; [done|]. simpl.
  pose proof (H 0 ltac:(lia)) as H0. rewrite Z.mul_0_l, Z.add_0_r in H0.
  enough (sum_ptes g n p (va + PAGE_SIZE) ≤ sum_ptes g' n p' (va + PAGE_SIZE)) by lia.
  apply IH. intros i Hi. replace (va + PAGE_SIZE + i * PAGE_SIZE) with (va + (i + 1) * PAGE_SIZE) by lia.
  apply H. lia.
Qed.

Lemma held_mono x p p' :
  (∀ a, (PAGE_SIZE | a) → 0 ≤ a < USER_VA_END → own x (pte_at p a) ≤ own x (pte_at p' a)) →
  held x p ≤ held x p'.
Proof.
  intros H. unfold held. apply sum_ptes_mono. intros i Hi. pose proof NPAGES_end.
  apply H; [by apply Z.divide_factor_r|unfold PAGE_SIZE in *; lia].
Qed.

Lemma held_nonneg x p : 0 ≤ held x p.
Proof.
  unfold held. generalize NPAGES, 0 at 2. intros n. induction n as [|n IH]; intros va; simpl; [done|].
  pose proof (own_nonneg x (pte_at p va)). specialize (IH (va + PAGE_SIZE)). lia.
Qed.

Lemma held_empty x : held x empty_pgd = 0.
Proof.
  unfold held. generalize NPAGES, 0 at 1. intros n. induction n as [|n IH]; intros va; simpl; [done|].
  by rewrite IH.
Qed.

Lemma own_user x p a : own x (pte_at p a) = 1 → is_Some (user_pte p a).
Proof.
  unfold own, owned. intros H. apply pte_valid_user. by destruct (pte_valid (pte_at p a)).
Qed.

Lemma held_drop x p a :
  (PAGE_SIZE | a) → 0 ≤ a < USER_VA_END → own x (pte_at p a) = 1 →
  held x p = held x (set_pte p a 0) + 1.
Proof.
  intros Hd Ha Ho. unfold held. rewrite sum_all_set by (done || by eapply own_user).
  rewrite Ho. change (own x 0) with 0. lia.
Qed.

Lemma held_ge1 x p a :
  (PAGE_SIZE | a) → 0 ≤ a < USER_VA_END → own x (pte_at p a) = 1 → 1 ≤ held x p.
Proof. intros. rewrite (held_drop x p a) by done. pose proof (held_nonneg x (set_pte p a 0)). lia. Qed.

Lemma held_ge2 x p a b :
  (PAGE_SIZE | a) → 0 ≤ a < USER_VA_END → (PAGE_SIZE | b) → 0 ≤ b < USER_VA_END → a ≠ b →
  own x (pte_at p a) = 1 → own x (pte_at p b) = 1 → 2 ≤ held x p.
Proof.
  intros Hd Ha Hdb Hb Hne H1 H2. rewrite (held_drop x p a) by done.
  enough (1 ≤ held x (set_pte p a 0)) by lia. apply (held_ge1 _ _ b); [done..|].
  rewrite pte_at_set by (done || by eapply own_user). rewrite bool_decide_false; [done|].
  destruct Hd as [q ->], Hdb as [r ->]. unfold same_page. rewrite !Z.div_mul by done. naive_solver.
Qed.

(** ** The bits of entries *)

Lemma has_bit v n : 0 ≤ n → has v (bit n) = Z.testbit v n.
Proof.
  intros Hn. unfold has, bit. rewrite Z.shiftl_1_l.
  assert (Z.land v (2 ^ n) = if Z.testbit v n then 2 ^ n else 0) as ->.
  { apply Z.bits_inj'. intros i Hi. rewrite Z.land_spec, Z.pow2_bits_eqb by done.
    destruct (Z.eqb_spec n i) as [->|Hne].
    - destruct (Z.testbit v i) eqn:E; [by rewrite Z.pow2_bits_true|by rewrite Z.bits_0].
    - rewrite andb_false_r. destruct (Z.testbit v n); [by rewrite Z.pow2_bits_false|by rewrite Z.bits_0]. }
  pose proof (Z.pow_pos_nonneg 2 n ltac:(lia) Hn). destruct (Z.testbit v n); [|done].
  apply negb_true_iff, Z.eqb_neq. lia.
Qed.

Lemma has_or a b c : has (Z.lor a b) c = has a c || has b c.
Proof.
  unfold has. rewrite Z.land_lor_distr_l.
  destruct (Z.land a c =? 0) eqn:E1, (Z.land b c =? 0) eqn:E2; zbool; simpl;
    try (apply negb_true_iff, Z.eqb_neq; intros [? ?]%Z.lor_eq_0_iff; done).
  by rewrite E1, E2.
Qed.

Lemma pte_prot_spec f :
  pte_valid (pte_prot f) = true ∧ has (pte_prot f) PTE_RDONLY = negb (has f VM_WRITE) ∧
  has (pte_prot f) PTE_UXN = negb (has f VM_EXEC) ∧ has (pte_prot f) PTE_SW_SHARED = false ∧
  has (pte_prot f) PTE_SW_COW = false ∧ pte_addr (pte_prot f) = 0.
Proof.
  unfold pte_prot. destruct (has f VM_IO), (has f VM_NC), (has f VM_WRITE), (has f VM_EXEC);
    vm_compute; split_and!; reflexivity.
Qed.

(** A frame number that fits the address field. *)
Definition frame_ok (x : Z) : Prop := 0 ≤ x < 2 ^ 36.

Lemma frame_phys x : frame_ok x → page_to_phys x = Z.shiftl x 12.
Proof.
  intros Hx. unfold page_to_phys, PAGE_SHIFT. apply wrap64_small. rewrite Z.shiftl_mul_pow2 by lia.
  unfold frame_ok, U64 in *. lia.
Qed.

Lemma frame_bit x n : frame_ok x → 0 ≤ n < 12 ∨ 48 ≤ n → has (page_to_phys x) (bit n) = false.
Proof.
  intros Hx Hn. rewrite frame_phys, has_bit by (done || lia). rewrite Z.shiftl_spec by lia.
  destruct Hn; [by rewrite Z.testbit_neg_r by lia|].
  destruct (decide (x = 0)) as [->|]; [apply Z.bits_0|]. apply Z.bits_above_log2; [apply Hx|].
  assert (Z.log2 x < 36) by (apply Z.log2_lt_pow2; unfold frame_ok in *; lia). lia.
Qed.

Lemma frame_addr x w : frame_ok x → pte_addr w = 0 → pte_addr (Z.lor (page_to_phys x) w) = page_to_phys x.
Proof.
  intros Hx Hw. unfold pte_addr in *. rewrite Z.land_lor_distr_l, Hw, Z.lor_0_r.
  apply Z.bits_inj'. intros i Hi. rewrite Z.land_spec.
  destruct (decide (i < 12 ∨ 48 ≤ i)) as [Hc|Hc].
  - rewrite <-has_bit, frame_bit by (done || lia). done.
  - assert (Z.testbit PTE_ADDR_MASK i = true) as ->; [|apply andb_true_r].
    change PTE_ADDR_MASK with (Z.shiftl (Z.ones 36) 12). rewrite Z.shiftl_spec by lia.
    apply Z.ones_spec_low. lia.
Qed.

Lemma phys_frame x : frame_ok x → phys_to_page (page_to_phys x) = x.
Proof.
  intros Hx. rewrite frame_phys by done. unfold phys_to_page, PAGE_SHIFT.
  rewrite Z.shiftr_div_pow2, Z.shiftl_mul_pow2, Z.div_mul by lia. done.
Qed.

(** The entry that a fault installs. *)
Lemma fresh_pte x f :
  frame_ok x →
  let v := Z.lor (page_to_phys x) (pte_prot f) in
  pte_valid v = true ∧ has v PTE_RDONLY = negb (has f VM_WRITE) ∧ has v PTE_UXN = negb (has f VM_EXEC) ∧
  has v PTE_SW_SHARED = false ∧ has v PTE_SW_COW = false ∧ phys_to_page (pte_addr v) = x.
Proof.
  intros Hx. cbn zeta. destruct (pte_prot_spec f) as (H1 & H2 & H3 & H4 & H5 & H6).
  unfold pte_valid in *. rewrite !has_or, H1, H2, H3, H4, H5, frame_addr, phys_frame by done.
  unfold PTE_RDONLY, PTE_UXN, PTE_SW_SHARED, PTE_SW_COW. rewrite !frame_bit by (done || lia).
  by rewrite orb_true_r.
Qed.

Lemma held_sum x p : held x p = sum_ptes (own x) NPAGES p 0.
Proof. done. Qed.

#[global] Opaque held total.
