(* ===== verification/KernelPt.v ===== *)
(** * Kernel page tables: src/arch/arm64/mmu.c

    A table is a function of its index.  An entry is a descriptor, or the
    table that a table descriptor points to; an upper-level descriptor with the
    low bits of a table descriptor that is not [Tbl] would be a wild pointer,
    and following it is [Panic].  Barriers and TLB maintenance have no effect on
    the tables. *)

From stdpp Require Import functions.
From S2P Require Import Prelude CString DList Memblock Buddy PageSource PageTable.

Definition PROT_KERNEL_RW : Z :=
  Z.lor PTE_VALID (Z.lor PTE_PAGE (Z.lor (PTE_ATTRINDX MT_NORMAL) (Z.lor PTE_SH_INNER (Z.lor PTE_AF (Z.lor PTE_PXN PTE_UXN))))).
Definition PROT_KERNEL_RO : Z := Z.lor PROT_KERNEL_RW PTE_RDONLY.
Definition PROT_KERNEL_RX : Z :=
  Z.lor PTE_VALID (Z.lor PTE_PAGE (Z.lor (PTE_ATTRINDX MT_NORMAL) (Z.lor PTE_SH_INNER (Z.lor PTE_AF (Z.lor PTE_RDONLY PTE_UXN))))).
Notation EARLY_PT_PAGES := 64%Z (only parsing).

Definition pte_is_block (p : Z) : bool := Z.land p 3 =? 1.

Inductive entry : Type := Desc (w : Z) | Tbl (t : Z → entry).

Section tables.
Context {Src : Type} `{!PageSource Src}.

(** [pages] is the page allocator, which table pages come from. *)
Record kpt : Type := Kpt { swapper_pg_dir : Z → entry; early_pt_used : Z; page_alloc_ready : bool; pages : Src }.

Definition set_root (k : kpt) (t : Z → entry) : kpt := Kpt t (early_pt_used k) (page_alloc_ready k) (pages k).

(** An entry is named by the indices that lead to it. *)
Fixpoint get (t : Z → entry) (p : list Z) : entry :=
  match p with
  | [] => Desc 0
  | [i] => t i
  | i :: p => match t i with Tbl t' => get t' p | Desc _ => Desc 0 end
  end.
Fixpoint put (t : Z → entry) (p : list Z) (v : entry) : Z → entry :=
  match p with
  | [] => t
  | [i] => <[i := v]> t
  | i :: p => match t i with Tbl t' => <[i := Tbl (put t' p v)]> t | Desc _ => t end
  end.

Definition zero_table : Z → entry := λ _, Desc 0.

(** Counts the page; the new table is [zero_table]. *)
Definition pt_alloc (k : kpt) : outcome kpt :=
  if page_alloc_ready k then
    match ps_alloc (pages k) GFP_ZERO 0 with
    | Ok (s, Some _) => Ok (Kpt (swapper_pg_dir k) (early_pt_used k) true s)
    | _ => Panic
    end
  else if early_pt_used k =? EARLY_PT_PAGES then Panic
  else Ok (Kpt (swapper_pg_dir k) (early_pt_used k + 1) false (pages k)).

Definition split_table (blk level : Z) : Z → entry :=
  let step := if level =? 1 then L2_SIZE else PAGE_SIZE in
  let attrs := Z.land blk (not64 PTE_ADDR_MASK) in
  let attrs := if level =? 2 then Z.lor attrs PTE_PAGE else attrs in
  λ i, Desc (Z.lor (pte_addr blk ⊕ wrap64 (i * step)) attrs).
Definition split_block (k : kpt) (p : list Z) (blk level : Z) : outcome kpt :=
  let! k := pt_alloc k in Ok (set_root k (put (swapper_pg_dir k) p (Tbl (split_table blk level)))).

Definition shift_of (lvl : Z) : Z := if lvl =? 1 then L1_SHIFT else if lvl =? 2 then L2_SHIFT else L3_SHIFT.
Definition index (va lvl : Z) : Z := Z.land (Z.shiftr va (shift_of lvl)) (PT_ENTRIES - 1).

(** The levels from [lvl] on, [n] of them before the last; [p] leads to the
    table. *)
Fixpoint walk_from (n : nat) (k : kpt) (p : list Z) (va lvl : Z) (alloc : bool) : outcome (kpt * option (list Z)) :=
  let e := p ++ [index va lvl] in
  match n with
  | O => Ok (k, Some e)
  | S n =>
      match get (swapper_pg_dir k) e with
      | Tbl _ => walk_from n k e va (lvl + 1) alloc
      | Desc w =>
          if negb (pte_valid w) then
            if negb alloc then Ok (k, None)
            else
              let! k := pt_alloc k in
              walk_from n (set_root k (put (swapper_pg_dir k) e (Tbl zero_table))) e va (lvl + 1) alloc
          else if pte_is_block w then
            if negb alloc then Ok (k, Some e)
            else let! k := split_block k e w lvl in walk_from n k e va (lvl + 1) alloc
          else Panic
      end
  end.
Definition walk (k : kpt) (va level : Z) (alloc : bool) : outcome (kpt * option (list Z)) :=
  walk_from (Z.to_nat (level - 1)) k [] va 1 alloc.

Definition store (k : kpt) (p : list Z) (w : Z) : kpt := set_root k (put (swapper_pg_dir k) p (Desc w)).

(** [*walk(...) = w] *)
Definition walk_store (k : kpt) (va level w : Z) : outcome kpt :=
  let! r := walk k va level true in
  match r with (k, Some p) => Ok (store k p w) | (_, None) => Panic end.

Definition IS_ALIGNED (x a : Z) : bool := Z.land x (a - 1) =? 0.

Fixpoint map_range (fuel : nat) (k : kpt) (va pa size prot : Z) : option (outcome kpt) :=
  match fuel with
  | O => None
  | S fuel =>
      if size =? 0 then Some (Ok k)
      else
        let block_prot := Z.land prot (not64 PTE_PAGE) in
        let '(step, r) :=
          if IS_ALIGNED (Z.lor va pa) L1_SIZE && (L1_SIZE <=? size) then (L1_SIZE, walk_store k va 1 (Z.lor pa block_prot))
          else if IS_ALIGNED (Z.lor va pa) L2_SIZE && (L2_SIZE <=? size) then (L2_SIZE, walk_store k va 2 (Z.lor pa block_prot))
          else (PAGE_SIZE, walk_store k va 3 (Z.lor pa prot)) in
        match r with
        | Panic => Some Panic
        | Ok k => map_range fuel k (va ⊕ step) (pa ⊕ step) (size ⊖ step) prot
        end
  end.

Definition map_kernel_page (k : kpt) (va pa prot : Z) : outcome kpt :=
  walk_store k va 3 (Z.lor (Z.land pa PTE_ADDR_MASK) prot).

Definition entry_word (e : entry) : Z := match e with Desc w => w | Tbl _ => 3 end.

Definition unmap_kernel_page (k : kpt) (va : Z) : outcome kpt :=
  let! r := walk k va 3 false in
  match r with
  | (k, None) => Ok k
  | (k, Some p) =>
      let w := entry_word (get (swapper_pg_dir k) p) in
      if pte_valid w && negb (pte_is_block w) then Ok (store k p 0) else Ok k
  end.

(** The levels from [lvl] on; [t] is the table of this level. *)
Fixpoint va_to_phys (n : nat) (t : Z → entry) (va lvl : Z) : outcome Z :=
  match n with
  | O => Ok 0
  | S n =>
      match t (index va lvl) with
      | Tbl t' => va_to_phys n t' va (lvl + 1)
      | Desc w =>
          if negb (pte_valid w) then Ok 0
          else if (lvl =? 3) || pte_is_block w then Ok (pte_addr w ⊕ Z.land va (bit (shift_of lvl) - 1))
          else Panic
      end
  end.
Definition kernel_va_to_phys (k : kpt) (va : Z) : outcome Z := va_to_phys 3 (swapper_pg_dir k) va 1.

Fixpoint protect_kimage (fuel : nat) (k : kpt) (va e prot : Z) : option (outcome kpt) :=
  match fuel with
  | O => None
  | S fuel =>
      if va <? e then
        match walk k va 3 false with
        | Panic => Some Panic
        | Ok (k, None) => protect_kimage fuel k (va ⊕ PAGE_SIZE) e prot
        | Ok (k, Some p) =>
            let w := entry_word (get (swapper_pg_dir k) p) in
            let k := if pte_valid w then store k p (Z.lor (pte_addr w) prot) else k in
            protect_kimage fuel k (va ⊕ PAGE_SIZE) e prot
        end
      else Some (Ok k)
  end.

Definition page_count (size : Z) : nat := S (Z.to_nat (size / PAGE_SIZE)).

Fixpoint map_ram (k : kpt) (l : list memblock_region) : option (outcome kpt) :=
  match l with
  | [] => Some (Ok k)
  | r :: l =>
      if LINEAR_MAP_SIZE <? r_base r ⊕ r_size r then Some Panic
      else
        match map_range (page_count (r_size r)) k (PAGE_OFFSET ⊕ r_base r) (r_base r) (r_size r) PROT_KERNEL_RW with
        | Some (Ok k) => map_ram k l
        | x => x
        end
  end.

(** The linker symbols are the arguments. *)
Definition mmu_init (k : kpt) (mb : memblock) (text etext srodata erodata end_ : Z) : option (outcome kpt) :=
  match map_ram k (memory mb) with
  | Some (Ok k) =>
      match protect_kimage (page_count (etext - text)) k text etext PROT_KERNEL_RX with
      | Some (Ok k) =>
          match protect_kimage (page_count (erodata - srodata)) k srodata erodata PROT_KERNEL_RO with
          | Some (Ok k) =>
              let e := ALIGN_UP end_ PAGE_SIZE in
              protect_kimage (page_count (e - erodata)) k erodata e PROT_KERNEL_RW
          | x => x
          end
      | x => x
      end
  | x => x
  end.

Definition mmu_page_alloc_ready (k : kpt) : kpt := Kpt (swapper_pg_dir k) (early_pt_used k) true (pages k).

(** ** What the tables mean

    The level-3 descriptor that a walk finds for an address, or would find
    after splitting the block it lies in; 0 when nothing is mapped. *)

Definition l3_val (e : entry) : Z := match e with Desc w => w | Tbl _ => 0 end.
Definition pte_l2 (e : entry) (x : Z) : Z :=
  match e with
  | Tbl t => l3_val (t (index x 3))
  | Desc w => if pte_valid w then l3_val (split_table w 2 (index x 3)) else 0
  end.
Definition pte_l1 (e : entry) (x : Z) : Z :=
  match e with
  | Tbl t => pte_l2 (t (index x 2)) x
  | Desc w => if pte_valid w then pte_l2 (split_table w 1 (index x 2)) x else 0
  end.
Definition kpte (k : kpt) (x : Z) : Z := pte_l1 (swapper_pg_dir k (index x 1)) x.

Definition same_slot (x y : Z) : Prop := index x 1 = index y 1 ∧ index x 2 = index y 2 ∧ index x 3 = index y 3.
#[export] Instance same_slot_dec x y : Decision (same_slot x y) := _.

(** A valid upper-level descriptor is an aligned block. *)
Definition up_ok (lvl w : Z) : Prop :=
  u64_ok w ∧ (pte_valid w = true → pte_is_block w = true ∧ (bit (shift_of lvl) | pte_addr w)).
Definition l3_ok (t : Z → entry) : Prop := ∀ i, 0 ≤ i < 512 → ∃ w, t i = Desc w.
Definition e2_ok (e : entry) : Prop := match e with Desc w => up_ok 2 w | Tbl t => l3_ok t end.
Definition l2_ok (t : Z → entry) : Prop := ∀ i, 0 ≤ i < 512 → e2_ok (t i).
Definition e1_ok (e : entry) : Prop := match e with Desc w => up_ok 1 w | Tbl t => l2_ok t end.
Definition kpt_ok (k : kpt) : Prop := ∀ i, 0 ≤ i < 512 → e1_ok (swapper_pg_dir k i).

(** At least [n] more table pages can be had. *)
Definition avail (k : kpt) (n : nat) : Prop :=
  if page_alloc_ready k then can_alloc n (pages k) else early_pt_used k + Z.of_nat n ≤ EARLY_PT_PAGES.

Lemma index_range x lvl : 0 ≤ index x lvl < 512.
Proof. unfold index. change (PT_ENTRIES - 1) with (Z.ones 9). rewrite Z.land_ones by lia. apply Z.mod_pos_bound. lia. Qed.

Lemma avail_le k n n' : (n' ≤ n)%nat → avail k n → avail k n'.
Proof.
  unfold avail. destruct (page_alloc_ready k); [|lia]. apply can_alloc_le.
Qed.

Lemma pt_alloc_spec k :
  (∃ k', pt_alloc k = Ok k' ∧ swapper_pg_dir k' = swapper_pg_dir k ∧ ∀ n, avail k (S n) → avail k' n) ∨ (pt_alloc k = Panic ∧ ¬ avail k 1).
Proof.
  unfold avail, pt_alloc. destruct (page_alloc_ready k).
  - cbn [can_alloc]. destruct (ps_alloc (pages k) GFP_ZERO 0) as [[s [x|]]|]; [|by right; split; [|intros []]..]. left. eexists. done.
  - case_match eqn:E; zbool; [right; split; [done|lia]|]. left. eexists. split; [done|]. split; [done|]. intros n. cbn [page_alloc_ready early_pt_used]. lia.
Qed.

(** *** Descriptors *)

Definition ATTR_MASK : Z := not64 PTE_ADDR_MASK.

Lemma addr_fix a : (PAGE_SIZE | a) → 0 ≤ a < 2 ^ 48 → pte_addr a = a.
Proof.
  intros [q ->] Ha. unfold pte_addr. apply Z.bits_inj'. intros i Hi. rewrite Z.land_spec.
  change PTE_ADDR_MASK with (Z.ldiff (Z.ones 48) (Z.ones 12)). rewrite Z.ldiff_spec. change PAGE_SIZE with (2 ^ 12).
  destruct (decide (i < 12)); [by rewrite Z.mul_pow2_bits_low|]. rewrite (Z.ones_spec_high 12) by lia.
  destruct (decide (i < 48)); [by rewrite Z.ones_spec_low, !andb_true_r by lia|].
  rewrite (Z.ones_spec_high 48) by lia. cbn [andb negb]. rewrite andb_false_r. symmetry. change PAGE_SIZE with (2 ^ 12) in Ha.
  destruct (decide (q * 2 ^ 12 = 0)) as [->|]; [apply Z.bits_0|]. apply Z.bits_above_log2; [lia|].
  apply (Z.lt_le_trans _ 48); [apply Z.log2_lt_pow2; lia|lia].
Qed.

Lemma pte_addr_range w : 0 ≤ w → 0 ≤ pte_addr w < 2 ^ 48 ∧ (PAGE_SIZE | pte_addr w).
Proof.
  intros Hw. unfold pte_addr. assert (Z.land w PTE_ADDR_MASK = (Z.land w (Z.ones 48)) / 2 ^ 12 * 2 ^ 12) as ->.
  { rewrite <-Z.shiftr_div_pow2, <-Z.shiftl_mul_pow2, <-Z.ldiff_ones_r by lia. apply Z.bits_inj'. intros i Hi.
    change PTE_ADDR_MASK with (Z.ldiff (Z.ones 48) (Z.ones 12)). rewrite !Z.land_spec, !Z.ldiff_spec, Z.land_spec. by rewrite andb_assoc. }
  rewrite Z.land_ones by lia. pose proof (Z.mod_pos_bound w (2 ^ 48) ltac:(lia)).
  split; [|by exists (w mod 2 ^ 48 / 2 ^ 12)]. Z.to_euclidean_division_equations. lia.
Qed.

Lemma attr_bits w : Z.land (Z.land w ATTR_MASK) PTE_ADDR_MASK = 0.
Proof. rewrite <-Z.land_assoc. change (Z.land ATTR_MASK PTE_ADDR_MASK) with 0. apply Z.land_0_r. Qed.

(** An address and attributes side by side. *)
Lemma lor_addr a b : (PAGE_SIZE | a) → 0 ≤ a < 2 ^ 48 → Z.land b PTE_ADDR_MASK = 0 → pte_addr (Z.lor a b) = a.
Proof. intros Ha Hr Hb. unfold pte_addr. rewrite Z.land_lor_distr_l, Hb, Z.lor_0_r. by apply addr_fix. Qed.

Lemma addr_attr a : (PAGE_SIZE | a) → 0 ≤ a < 2 ^ 48 → Z.land a ATTR_MASK = 0.
Proof.
  intros Hd Hr. rewrite <-(addr_fix a Hd Hr). unfold pte_addr. rewrite <-Z.land_assoc. change (Z.land PTE_ADDR_MASK ATTR_MASK) with 0. apply Z.land_0_r.
Qed.

Lemma low_bits a b m : (PAGE_SIZE | a) → 0 ≤ a < 2 ^ 48 → Z.land ATTR_MASK m = m → Z.land (Z.lor a b) m = Z.land b m.
Proof.
  intros Hd Hr Hm. rewrite Z.land_lor_distr_l, <-Hm at 1. rewrite (Z.land_assoc a), addr_attr by done. by rewrite Z.land_0_l, Z.lor_0_l.
Qed.

Definition step_of (lvl : Z) : Z := if lvl =? 1 then L2_SIZE else PAGE_SIZE.

Lemma split_addr blk lvl i :
  lvl = 1 ∨ lvl = 2 → u64_ok blk → (bit (shift_of lvl) | pte_addr blk) → 0 ≤ i < 512 →
  let a := pte_addr blk ⊕ wrap64 (i * step_of lvl) in
  a = pte_addr blk + i * step_of lvl ∧ 0 ≤ a < 2 ^ 48 ∧ (step_of lvl | a) ∧ (PAGE_SIZE | a).
Proof.
  intros Hl [Hw _] Hd Hi. cbn zeta. destruct (pte_addr_range blk Hw) as [Hr Hp].
  assert (bit (shift_of lvl) = 512 * step_of lvl ∧ 0 < step_of lvl ≤ 2 ^ 21 ∧ (PAGE_SIZE | step_of lvl)) as (Hs & Hs' & Hs'').
  { destruct Hl as [-> | ->]; (split; [done|]); (split; [done|]); [by exists 512|by exists 1]. }
  rewrite Hs in Hd. destruct Hd as [q Hq]. assert (pte_addr blk + i * step_of lvl < 2 ^ 48 ∧ 0 ≤ i * step_of lvl < 2 ^ 30) as [Hlt Hi'].
  { destruct Hl as [-> | ->]; [change (step_of 1) with 2097152 in *|change (step_of 2) with 4096 in *]; lia. }
  rewrite wrap64_small by (unfold U64; lia). rewrite add64_small by (unfold U64; lia). split_and!; [done|lia|done| |].
  - rewrite Hq. exists (q * 512 + i). lia.
  - apply Z.divide_add_r; [done|]. by apply Z.divide_mul_r.
Qed.

Lemma lor_u64 a b : u64_ok a → u64_ok b → u64_ok (Z.lor a b).
Proof.
  unfold u64_ok, U64. intros Ha Hb. assert (Z.lor a b = Z.lor a b `mod` 2 ^ 64) as ->; [|by apply Z.mod_pos_bound].
  rewrite <-Z.land_ones, Z.land_lor_distr_l, !Z.land_ones, !Z.mod_small by lia. done.
Qed.
Lemma land_u64 a b : u64_ok a → 0 ≤ b → u64_ok (Z.land a b).
Proof.
  unfold u64_ok, U64. intros Ha Hb. assert (Z.land a b = Z.land b a `mod` 2 ^ 64) as ->; [|by apply Z.mod_pos_bound].
  rewrite <-Z.land_ones, <-Z.land_assoc, Z.land_ones, Z.mod_small by lia. apply Z.land_comm.
Qed.

Lemma attr_low w m : Z.land ATTR_MASK m = m → Z.land (Z.land w ATTR_MASK) m = Z.land w m.
Proof. intros Hm. by rewrite <-Z.land_assoc, Hm. Qed.

Lemma split1_ok blk : up_ok 1 blk → pte_valid blk = true → l2_ok (split_table blk 1).
Proof.
  intros [Hu Hb] Hv i Hi. destruct (Hb Hv) as [Hbl Hd]. unfold split_table. cbn [e2_ok]. change (1 =? 1) with true. change (1 =? 2) with false. cbn iota. change (not64 PTE_ADDR_MASK) with ATTR_MASK.
  destruct (split_addr blk 1 i) as (_ & Hr & Hd2 & Hp); [by left|done..|]. change (step_of 1) with L2_SIZE in *. set (a := pte_addr blk ⊕ _) in *.
  split; [apply lor_u64; [unfold u64_ok, U64; lia|apply land_u64; done]|]. intros _. unfold pte_is_block.
  rewrite low_bits by done. rewrite attr_low by done. split; [done|]. rewrite lor_addr by (done || apply attr_bits). done.
Qed.

Lemma split2_ok blk : l3_ok (split_table blk 2).
Proof. intros i _. unfold split_table. eexists. done. Qed.

Lemma zero_l2_ok : l2_ok zero_table.
Proof. intros i _. split; done. Qed.

(** Replacing an entry of the top level. *)
Lemma kpte_root k i e x :
  kpte (set_root k (<[i := e]> (swapper_pg_dir k))) x = if decide (index x 1 = i) then pte_l1 e x else kpte k x.
Proof. unfold kpte, set_root. cbn [swapper_pg_dir]. case_decide as E; [rewrite E; by rewrite fn_lookup_insert|by rewrite fn_lookup_insert_ne]. Qed.

Lemma kpt_ok_root k i e : kpt_ok k → e1_ok e → kpt_ok (set_root k (<[i := e]> (swapper_pg_dir k))).
Proof.
  intros Hk He j Hj. unfold set_root. cbn [swapper_pg_dir]. destruct (decide (j = i)) as [->|]; [by rewrite fn_lookup_insert|].
  rewrite fn_lookup_insert_ne by done. by apply Hk.
Qed.

(** The table of the last level for an address. *)
Definition l3_at (k : kpt) (va : Z) (t3 : Z → entry) : Prop :=
  ∃ t2, swapper_pg_dir k (index va 1) = Tbl t2 ∧ t2 (index va 2) = Tbl t3.

(** The walk goes down and leaves the same mappings, with at most [c] tables
    more. *)
Record down (k k' : kpt) (c : nat) : Prop := {
  dn_ok : kpt_ok k';
  dn_avail n : avail k (c + n) → avail k' n;
  dn_pte x : kpte k' x = kpte k x;
  dn_l3 x t : l3_at k x t → ∃ t', l3_at k' x t';
}.

Lemma down_refl k : kpt_ok k → down k k 0.
Proof. intros Hk. split; [done..|]. intros x t Ht. by exists t. Qed.

(** The tables that the walk for an address has to add. *)
Definition is_tbl (e : entry) : bool := match e with Tbl _ => true | Desc _ => false end.
Definition need1 (k : kpt) (va : Z) : nat := if is_tbl (swapper_pg_dir k (index va 1)) then 0 else 1.
Definition need2 (k : kpt) (va : Z) : nat :=
  match swapper_pg_dir k (index va 1) with Tbl t2 => if is_tbl (t2 (index va 2)) then 0 else 1 | Desc _ => 1 end.

Lemma walk_l1 m k va :
  kpt_ok k →
  (∃ k' t2, walk_from (S m) k [] va 1 true = walk_from m k' [index va 1] va 2 true ∧ down k k' (need1 k va) ∧
    swapper_pg_dir k' (index va 1) = Tbl t2 ∧ (need2 k' va ≤ need2 k va)%nat) ∨
  (walk_from (S m) k [] va 1 true = Panic ∧ ¬ avail k (need1 k va)).
Proof.
  intros Hk. unfold need1. set (i := index va 1). pose proof (Hk i (index_range va 1)) as He. cbn [walk_from app get]. fold i.
  destruct (swapper_pg_dir k i) as [w|t2] eqn:Ei; cbn [is_tbl]; [|left; exists k, t2; split; [done|]; split; [by apply down_refl|done]].
  destruct (pt_alloc_spec k) as [(k1 & E & Er & Ha1)|[E Hna]].
  2: { right. destruct (pte_valid w) eqn:Ev; cbn [negb]; [destruct (proj2 He Ev) as [Hb _]; rewrite Hb; unfold split_block|]; by rewrite E. }
  left. assert (kpt_ok k1) as Hk1 by (intros j; rewrite Er; apply Hk).
  assert (∀ t2, l2_ok t2 → (∀ x, pte_l1 (Tbl t2) x = pte_l1 (Desc w) x) →
    let k' := set_root k1 (put (swapper_pg_dir k1) [i] (Tbl t2)) in
    down k k' 1 ∧ swapper_pg_dir k' i = Tbl t2 ∧ (need2 k' va ≤ need2 k va)%nat) as Hnew.
  { intros t2 Ht2 Hx. cbn zeta. split; [split; [by apply kpt_ok_root|apply Ha1| |]|].
    - intros x. cbn [put]. rewrite kpte_root. unfold kpte. rewrite Er. case_decide as Ex; [|done]. by rewrite Ex, Ei, Hx.
    - intros x t (u & U1 & U2). exists t, u. split; [|done]. unfold set_root. cbn [swapper_pg_dir put]. rewrite fn_lookup_insert_ne, Er; [done|].
      intros Ex. by rewrite <-Ex, Ei in U1.
    - unfold set_root, need2. cbn [swapper_pg_dir put]. fold i. rewrite fn_lookup_insert, Ei. split; [done|]. case_match; lia. }
  destruct (pte_valid w) eqn:Ev; cbn [negb].
  - destruct (proj2 He Ev) as [Hb _]. rewrite Hb. unfold split_block. rewrite E. cbn [obind]. eexists _, _. split; [done|].
    apply Hnew; [by apply split1_ok|]. intros x. cbn [pte_l1]. by rewrite Ev.
  - rewrite E. cbn [obind]. eexists _, _. split; [done|]. apply Hnew; [apply zero_l2_ok|]. intros x. cbn [pte_l1]. by rewrite Ev.
Qed.

(** Replacing an entry of the second level. *)
Lemma kpte_l2 k i j t2 e x :
  swapper_pg_dir k i = Tbl t2 →
  kpte (set_root k (put (swapper_pg_dir k) [i; j] e)) x =
    if decide (index x 1 = i) then if decide (index x 2 = j) then pte_l2 e x else kpte k x else kpte k x.
Proof.
  intros Hi. cbn [put]. rewrite Hi, kpte_root. case_decide as E1; [|done]. unfold kpte. rewrite E1, Hi. cbn [pte_l1].
  case_decide as E2; [rewrite E2; by rewrite fn_lookup_insert|by rewrite fn_lookup_insert_ne].
Qed.

Lemma kpt_ok_l2 k i j t2 e :
  kpt_ok k → swapper_pg_dir k i = Tbl t2 → 0 ≤ i < 512 → e2_ok e → kpt_ok (set_root k (put (swapper_pg_dir k) [i; j] e)).
Proof.
  intros Hk Hi Hr He. cbn [put]. rewrite Hi. apply kpt_ok_root; [done|]. pose proof (Hk i Hr) as Ht. rewrite Hi in Ht. intros j' Hj'.
  destruct (decide (j' = j)) as [->|]; [by rewrite fn_lookup_insert|]. rewrite fn_lookup_insert_ne by done. by apply Ht.
Qed.

Lemma walk_l2 m k va t2 :
  kpt_ok k → swapper_pg_dir k (index va 1) = Tbl t2 →
  (∃ k' t2' t3, walk_from (S m) k [index va 1] va 2 true = walk_from m k' [index va 1; index va 2] va 3 true ∧ down k k' (need2 k va) ∧
    swapper_pg_dir k' (index va 1) = Tbl t2' ∧ t2' (index va 2) = Tbl t3) ∨
  (walk_from (S m) k [index va 1] va 2 true = Panic ∧ ¬ avail k (need2 k va)).
Proof.
  intros Hk Hi. unfold need2. set (i := index va 1) in *. set (j := index va 2). pose proof (Hk i (index_range va 1)) as He. rewrite Hi in He.
  specialize (He j (index_range va 2)). cbn [walk_from app get]. fold i j. rewrite Hi.
  destruct (t2 j) as [w|t3] eqn:Ej; cbn [is_tbl]; [|left; exists k, t2, t3; split; [done|]; split; [by apply down_refl|done]].
  destruct (pt_alloc_spec k) as [(k1 & E & Er & Ha1)|[E Hna]].
  2: { right. destruct (pte_valid w) eqn:Ev; cbn [negb]; [destruct (proj2 He Ev) as [Hb _]; rewrite Hb; unfold split_block|]; by rewrite E. }
  left. assert (kpt_ok k1) as Hk1 by (intros x; rewrite Er; apply Hk). assert (swapper_pg_dir k1 i = Tbl t2) as Hi1 by by rewrite Er.
  assert (∀ t3, l3_ok t3 → (∀ x, pte_l2 (Tbl t3) x = pte_l2 (Desc w) x) →
    let k' := set_root k1 (put (swapper_pg_dir k1) [i; j] (Tbl t3)) in
    down k k' 1 ∧ ∃ t2', swapper_pg_dir k' i = Tbl t2' ∧ t2' j = Tbl t3) as Hnew.
  { intros t3 Ht3 Hx. cbn zeta. split; [split; [apply (kpt_ok_l2 k1 i j t2); [done|done|apply index_range|done]|apply Ha1| |]|].
    - intros x. rewrite (kpte_l2 _ _ _ _ _ _ Hi1). unfold kpte. rewrite Er. case_decide as E1; [|done]. case_decide as E2; [|done].
      rewrite Hx, E1, Hi. cbn [pte_l1]. by rewrite E2, Ej.
    - intros x t (u & U1 & U2). unfold set_root, l3_at. cbn [swapper_pg_dir put]. rewrite Hi1. destruct (decide (index x 1 = i)) as [Ex|].
      + rewrite Ex, fn_lookup_insert. rewrite Ex, Hi in U1. injection U1 as ->. eexists t, _. split; [done|]. rewrite fn_lookup_insert_ne; [done|].
        intros Ey. by rewrite <-Ey, Ej in U2.
      + exists t, u. by rewrite fn_lookup_insert_ne, Er.
    - cbn [put]. rewrite Hi1. eexists. unfold set_root. cbn [swapper_pg_dir]. split; apply fn_lookup_insert. }
  destruct (pte_valid w) eqn:Ev; cbn [negb].
  - destruct (proj2 He Ev) as [Hb _]. rewrite Hb. unfold split_block. rewrite E. cbn [obind].
    destruct (Hnew (split_table w 2) (split2_ok w)) as (Hd & t2' & H1 & H2); [intros x; cbn [pte_l2]; by rewrite Ev|].
    eexists _, t2', _. split; [done|]. done.
  - rewrite E. cbn [obind].
    destruct (Hnew zero_table) as (Hd & t2' & H1 & H2); [intros y _; by eexists|intros x; cbn [pte_l2]; by rewrite Ev|].
    eexists _, t2', _. split; [done|]. done.
Qed.

Definition need (k : kpt) (va : Z) : nat := need1 k va + need2 k va.

Lemma walk_alloc k va :
  kpt_ok k →
  (∃ k' t3, walk k va 3 true = Ok (k', Some [index va 1; index va 2; index va 3]) ∧ down k k' (need k va) ∧ l3_at k' va t3) ∨
  (walk k va 3 true = Panic ∧ ¬ avail k (need k va)).
Proof.
  intros Hk. unfold walk, need. change (Z.to_nat (3 - 1)) with 2%nat.
  destruct (walk_l1 1 k va Hk) as [(k1 & t2 & -> & [O1 A1 P1 T1] & H1 & Hle)|[-> Hn]].
  2: { right; split; [done|]; intros Hx; apply Hn. eapply avail_le; [|done]; lia. }
  destruct (walk_l2 0 k1 va t2 O1 H1) as [(k2 & t2' & t3 & -> & [O2 A2 P2 T2] & H2 & H3)|[-> Hn]]; [left|right; split; [done|]].
  - exists k2, t3. split; [done|]. split; [|by exists t2']. split; [done| |intros x; by rewrite P2, P1|].
    + intros n Hn. apply A2, A1. eapply avail_le; [|done]. lia.
    + intros x t [t' Ht]%T1. by apply (T2 _ t').
  - intros Hx. apply Hn. eapply avail_le; [|by apply A1]. done.
Qed.

(** Storing a descriptor at the last level. *)
Lemma store_l3 k va t3 w :
  kpt_ok k → l3_at k va t3 →
  let k' := store k [index va 1; index va 2; index va 3] w in
  kpt_ok k' ∧ (∀ n, avail k n → avail k' n) ∧ (∀ x, kpte k' x = if decide (same_slot x va) then w else kpte k x) ∧ (∀ x t, l3_at k x t → ∃ t', l3_at k' x t').
Proof.
  intros Hk (t2 & H1 & H2). cbn zeta. set (i := index va 1) in *. set (j := index va 2) in *. set (l := index va 3) in *.
  assert (store k [i; j; l] w = set_root k (put (swapper_pg_dir k) [i; j] (Tbl (<[l := Desc w]> t3)))) as ->.
  { unfold store. cbn [put]. by rewrite H1, H2. }
  assert (e2_ok (Tbl (<[l := Desc w]> t3))) as He.
  { pose proof (Hk i (index_range va 1)) as Ht. rewrite H1 in Ht. specialize (Ht j (index_range va 2)). rewrite H2 in Ht.
    intros y Hy. destruct (decide (y = l)) as [->|]; [rewrite fn_lookup_insert; by exists w|]. rewrite fn_lookup_insert_ne by done. by apply Ht. }
  split; [apply (kpt_ok_l2 k i j t2); [done|done|apply index_range|done]|]. split; [done|]. split.
  - intros x. rewrite (kpte_l2 _ _ _ _ _ _ H1). unfold same_slot. fold i j l. destruct (decide (index x 1 = i)) as [E1|]; [|by rewrite decide_False by tauto].
    destruct (decide (index x 2 = j)) as [E2|]; [|by rewrite decide_False by tauto]. cbn [pte_l2].
    destruct (decide (index x 3 = l)) as [E3|]; [rewrite decide_True by done; by rewrite E3, fn_lookup_insert|].
    rewrite decide_False by tauto. rewrite fn_lookup_insert_ne by done. unfold kpte. by rewrite E1, H1; cbn [pte_l1]; rewrite E2, H2.
  - intros x t (u & U1 & U2). unfold l3_at. cbn [put]. rewrite H1. unfold set_root. cbn [swapper_pg_dir].
    destruct (decide (index x 1 = i)) as [E1|]; [|rewrite fn_lookup_insert_ne by done; by exists t, u].
    rewrite E1, fn_lookup_insert. rewrite E1, H1 in U1. injection U1 as ->.
    destruct (decide (index x 2 = j)) as [E2|]; [eexists _, _; split; [done|]; rewrite E2; apply fn_lookup_insert|].
    eexists _, _. split; [done|]. rewrite fn_lookup_insert_ne by done. done.
Qed.

(** ** The operations *)

(** A page descriptor is stored; with the tables it needs to be had it does not panic. *)
Lemma store_page k va w :
  kpt_ok k →
  (∃ k' t3, walk_store k va 3 w = Ok k' ∧ kpt_ok k' ∧ (∀ n, avail k (need k va + n) → avail k' n) ∧ l3_at k' va t3 ∧
     (∀ x t, l3_at k x t → ∃ t', l3_at k' x t') ∧ ∀ x, kpte k' x = if decide (same_slot x va) then w else kpte k x) ∨
  (walk_store k va 3 w = Panic ∧ ¬ avail k (need k va)).
Proof.
  intros Hk. unfold walk_store. destruct (walk_alloc k va Hk) as [(k1 & t3 & -> & [O1 A1 P1 T1] & H1)|[-> Hn]]; [left|right; done]. cbn [obind].
  destruct (store_l3 k1 va t3 w O1 H1) as (O2 & A2 & P2 & L2). destruct (L2 _ _ H1) as [t3' H3].
  eexists _, _. split; [done|]. split; [done|]. split; [intros n Hn; by apply A2, A1|]. split; [done|].
  split; [intros x t [t' Ht]%T1; by apply (L2 _ t')|]. intros x. rewrite P2. case_decide; [done|apply P1].
Qed.

Lemma walk_noalloc k va t3 : l3_at k va t3 → walk k va 3 false = Ok (k, Some [index va 1; index va 2; index va 3]).
Proof.
  intros (t2 & H1 & H2). unfold walk. change (Z.to_nat (3 - 1)) with 2%nat. cbn [walk_from app get].
  rewrite H1. change (1 + 1) with 2. rewrite H2. done.
Qed.

Lemma get_l3 k va t3 : kpt_ok k → l3_at k va t3 → get (swapper_pg_dir k) [index va 1; index va 2; index va 3] = Desc (kpte k va).
Proof.
  intros Hk (t2 & H1 & H2). cbn [get]. rewrite H1, H2. unfold kpte. rewrite H1. cbn [pte_l1]. rewrite H2. cbn [pte_l2].
  pose proof (Hk _ (index_range va 1)) as Ht. rewrite H1 in Ht. specialize (Ht _ (index_range va 2)). rewrite H2 in Ht.
  destruct (Ht _ (index_range va 3)) as [w ->]. done.
Qed.

Lemma kpte_same k x y : same_slot x y → kpte k x = kpte k y.
Proof. intros (E1 & E2 & E3). unfold kpte, pte_l1, pte_l2. by rewrite E1, E2, E3. Qed.

(** A page with a last-level table is unmapped, and nothing else is. *)
Lemma unmap_kernel_page_spec k va t3 :
  kpt_ok k → l3_at k va t3 → Z.land (kpte k va) 3 = 3 ∨ kpte k va = 0 →
  ∃ k', unmap_kernel_page k va = Ok k' ∧ kpt_ok k' ∧ pages k' = pages k ∧ page_alloc_ready k' = page_alloc_ready k ∧
    (∀ x, kpte k' x = if decide (same_slot x va) then 0 else kpte k x) ∧ (∀ x t, l3_at k x t → ∃ t', l3_at k' x t').
Proof.
  intros Hk H Hw. unfold unmap_kernel_page. rewrite (walk_noalloc _ _ _ H). cbn [obind]. rewrite (get_l3 _ _ _ Hk H). cbn [entry_word].
  destruct (store_l3 k va t3 0 Hk H) as (O & A & P & L). destruct Hw as [Hw|Hw].
  - assert (pte_valid (kpte k va) = true) as ->.
    { unfold pte_valid, has. change PTE_VALID with (Z.land 3 1). by rewrite Z.land_assoc, Hw. }
    unfold pte_is_block. rewrite Hw. cbn [andb negb Z.eqb]. eexists. split; [done|]. done.
  - rewrite Hw. exists k. split; [done|]. split_and!; try done; [|intros x t Hx; by exists t]. intros x. case_decide as E; [|done].
    by rewrite (kpte_same _ _ _ E).
Qed.

(** *** Addresses of the kernel half *)

Definition KBASE : Z := PAGE_OFFSET.
Definition kva (x : Z) : Prop := KBASE ≤ x < U64.
Definition page_base (x : Z) : Z := x / PAGE_SIZE * PAGE_SIZE.

Lemma index_eq x lvl : kva x → index x lvl = ((x - KBASE) / bit (shift_of lvl)) `mod` 512.
Proof.
  intros Hx. unfold index, kva, KBASE, PAGE_OFFSET, U64 in *. change (PT_ENTRIES - 1) with (Z.ones 9). rewrite Z.land_ones, Z.shiftr_div_pow2 by (unfold shift_of; repeat case_match; done).
  unfold bit. rewrite Z.shiftl_1_l. change (2 ^ 9) with 512.
  assert (∃ s, 2 ^ 39 = 512 * 2 ^ shift_of lvl * s ∧ 0 < 2 ^ shift_of lvl) as (s & Hs & Hp).
  { unfold shift_of. repeat case_match; [exists 1|exists 512|exists (512 * 512)]; done. }
  replace x with (x - 0xffffff8000000000 + (2 ^ 25 - 1) * 512 * s * 2 ^ shift_of lvl) at 1 by (replace 0xffffff8000000000 with ((2 ^ 25 - 1) * 2 ^ 39) by done; rewrite Hs; lia).
  rewrite Z.div_add by lia. replace ((2 ^ 25 - 1) * 512 * s) with ((2 ^ 25 - 1) * s * 512) by lia. by rewrite Z.mod_add by lia.
Qed.

Lemma index_sum x : kva x →
  x - KBASE = index x 1 * 2 ^ 30 + index x 2 * 2 ^ 21 + index x 3 * 2 ^ 12 + x `mod` 2 ^ 12 ∧ 0 ≤ x `mod` 2 ^ 12 < 2 ^ 12.
Proof.
  intros Hx. rewrite !index_eq by done. unfold kva, KBASE, PAGE_OFFSET, U64 in *.
  change (bit (shift_of 1)) with (2 ^ 30). change (bit (shift_of 2)) with (2 ^ 21). change (bit (shift_of 3)) with (2 ^ 12).
  Z.to_euclidean_division_equations. lia.
Qed.

Lemma same_slot_eq x y : kva x → kva y → same_slot x y ↔ page_base x = page_base y.
Proof.
  intros Hx Hy. pose proof (index_sum x Hx). pose proof (index_sum y Hy). pose proof (index_range x 2). pose proof (index_range y 2).
  pose proof (index_range x 3). pose proof (index_range y 3). unfold page_base, same_slot, PAGE_SIZE in *. change 4096 with (2 ^ 12).
  pose proof (Z.div_mod x (2 ^ 12) ltac:(lia)). pose proof (Z.div_mod y (2 ^ 12) ltac:(lia)). lia.
Qed.

(** *** Mapping a range *)

(** Page attributes: valid, a page, and no address bits. *)
Definition prot_ok (prot : Z) : Prop := u64_ok prot ∧ Z.land prot PTE_ADDR_MASK = 0 ∧ Z.land prot 3 = 3.
Definition block_prot (prot : Z) : Z := Z.land prot (not64 PTE_PAGE).

Lemma block_prot_page prot : prot_ok prot → Z.lor (block_prot prot) PTE_PAGE = prot.
Proof.
  intros (Hu & _ & H3). unfold block_prot, u64_ok in *. assert (Z.testbit prot 1 = true) as H1.
  { assert (Z.testbit (Z.land prot 3) 1 = true) as Ht by by rewrite H3. by rewrite Z.land_spec, andb_true_r in Ht. }
  apply Z.bits_inj'. intros i Hi. rewrite Z.lor_spec, Z.land_spec. change PTE_PAGE with (2 ^ 1). rewrite Z.pow2_bits_eqb by lia.
  change (not64 (2 ^ 1)) with (Z.ldiff (Z.ones 64) (2 ^ 1)). rewrite Z.ldiff_spec, Z.pow2_bits_eqb by lia.
  destruct (Z.eqb_spec 1 i) as [<-|]; [by rewrite H1, orb_true_r|]. cbn [negb]. rewrite andb_true_r, orb_false_r.
  destruct (decide (i < 64)); [by rewrite Z.ones_spec_low, andb_true_r by lia|]. rewrite Z.ones_spec_high by lia. rewrite andb_false_r.
  symmetry. destruct (decide (prot = 0)) as [->|]; [apply Z.bits_0|]. apply Z.bits_above_log2; [lia|].
  apply (Z.lt_le_trans _ 64); [apply Z.log2_lt_pow2; unfold U64 in Hu; lia|lia].
Qed.

Lemma block_prot_bits prot : prot_ok prot →
  u64_ok (block_prot prot) ∧ Z.land (block_prot prot) PTE_ADDR_MASK = 0 ∧ Z.land (block_prot prot) 3 = 1.
Proof.
  intros (Hu & Ha & H3). unfold block_prot. split; [by apply land_u64|]. rewrite <-!Z.land_assoc, !(Z.land_comm (not64 PTE_PAGE)), !Z.land_assoc.
  by rewrite Ha, H3.
Qed.

Lemma attr_only p : u64_ok p → Z.land p PTE_ADDR_MASK = 0 → Z.land p ATTR_MASK = p.
Proof.
  intros Hp Ha. unfold ATTR_MASK. change (not64 PTE_ADDR_MASK) with (Z.lxor (Z.ones 64) PTE_ADDR_MASK). apply Z.bits_inj'. intros i Hi.
  rewrite Z.land_spec, Z.lxor_spec. assert (Z.testbit (Z.land p PTE_ADDR_MASK) i = false) as Hb by (rewrite Ha; apply Z.bits_0).
  rewrite Z.land_spec in Hb. destruct (decide (i < 64)).
  - rewrite Z.ones_spec_low by lia. destruct (Z.testbit p i), (Z.testbit PTE_ADDR_MASK i); done.
  - assert (Z.testbit p i = false) as ->; [|done]. unfold u64_ok, U64 in Hp. destruct (decide (p = 0)) as [->|]; [apply Z.bits_0|].
    apply Z.bits_above_log2; [lia|]. apply (Z.lt_le_trans _ 64); [apply Z.log2_lt_pow2; lia|lia].
Qed.

Section block.
Variables (prot : Z) (Hprot : prot_ok prot).

Lemma block_desc lvl pa :
  (bit (shift_of lvl) | pa) → 0 ≤ pa < 2 ^ 48 →
  let w := Z.lor pa (block_prot prot) in
  up_ok lvl w ∧ pte_valid w = true ∧ pte_addr w = pa ∧ Z.land w ATTR_MASK = block_prot prot.
Proof.
  intros Hd Hr. cbn zeta. destruct (block_prot_bits prot Hprot) as (Hu & Ha & H3).
  assert (PAGE_SIZE | pa) as Hp.
  { etransitivity; [|done]. unfold shift_of. repeat case_match; [by exists (2 ^ 18)|by exists 512|by exists 1]. }
  assert (Z.land (Z.lor pa (block_prot prot)) 3 = 1) as E3 by by rewrite low_bits.
  assert (pte_valid (Z.lor pa (block_prot prot)) = true) as Hv.
  { unfold pte_valid, has. change PTE_VALID with (Z.land 3 1). by rewrite Z.land_assoc, E3. }
  assert (pte_addr (Z.lor pa (block_prot prot)) = pa) as Hpa by by apply lor_addr.
  split_and!; [| |done|].
  - split; [apply lor_u64; [unfold u64_ok, U64; lia|done]|]. intros _. rewrite Hpa. split; [|done]. unfold pte_is_block. by rewrite E3.
  - done.
  - rewrite low_bits by done. by apply attr_only.
Qed.

Lemma block_l2 pa x :
  (L2_SIZE | pa) → 0 ≤ pa < 2 ^ 48 → pte_l2 (Desc (Z.lor pa (block_prot prot))) x = Z.lor (pa + index x 3 * PAGE_SIZE) prot.
Proof.
  intros Hd Hr. destruct (block_desc 2 pa Hd Hr) as ([Hu Hb] & Hv & Hpa & Hat). cbn [pte_l2]. rewrite Hv. destruct (Hb Hv) as [_ Hdv].
  destruct (split_addr _ 2 (index x 3) (or_intror eq_refl) Hu Hdv (index_range x 3)) as (E & _). unfold split_table. cbn [l3_val].
  change (2 =? 1) with false. change (2 =? 2) with true. cbn iota. change (not64 PTE_ADDR_MASK) with ATTR_MASK.
  change (step_of 2) with PAGE_SIZE in E. by rewrite E, Hat, Hpa, block_prot_page.
Qed.

Lemma block_l1 pa x :
  (L1_SIZE | pa) → 0 ≤ pa < 2 ^ 48 →
  pte_l1 (Desc (Z.lor pa (block_prot prot))) x = Z.lor (pa + index x 2 * L2_SIZE + index x 3 * PAGE_SIZE) prot.
Proof.
  intros Hd Hr. destruct (block_desc 1 pa Hd Hr) as ([Hu Hb] & Hv & Hpa & Hat). cbn [pte_l1]. rewrite Hv. destruct (Hb Hv) as [_ Hdv].
  destruct (split_addr _ 1 (index x 2) (or_introl eq_refl) Hu Hdv (index_range x 2)) as (E & Hr' & Hd' & _). unfold split_table.
  change (1 =? 1) with true. change (1 =? 2) with false. cbn iota. change (not64 PTE_ADDR_MASK) with ATTR_MASK.
  change (step_of 1) with L2_SIZE in *. rewrite E in Hr', Hd' |- *. rewrite Hat, Hpa in *. by apply block_l2.
Qed.
End block.

(** [size] bytes from [va] now map to those from [pa], and nothing else
    changed. *)
Definition maps (k k' : kpt) (va pa size prot : Z) : Prop :=
  ∀ x, kva x → kpte k' x = if decide (va ≤ x < va + size) then Z.lor (pa + (page_base x - va)) prot else kpte k x.

Lemma page_base_sum x : kva x → page_base x = KBASE + index x 1 * 2 ^ 30 + index x 2 * 2 ^ 21 + index x 3 * 2 ^ 12.
Proof.
  intros Hx. pose proof (index_sum x Hx) as [E _]. unfold page_base, PAGE_SIZE. pose proof (Z.div_mod x (2 ^ 12) ltac:(lia)).
  change 4096 with (2 ^ 12). lia.
Qed.

(** Slots of aligned addresses. *)
Lemma slot1 va : kva va → (L1_SIZE | va) → va = KBASE + index va 1 * 2 ^ 30.
Proof.
  intros Hv [q Hq]. rewrite index_eq by done. change (bit (shift_of 1)) with (2 ^ 30). change L1_SIZE with (2 ^ 30) in Hq.
  unfold kva, KBASE, PAGE_OFFSET, U64 in *. Z.to_euclidean_division_equations. lia.
Qed.
Lemma slot2 va : kva va → (L2_SIZE | va) → va = KBASE + index va 1 * 2 ^ 30 + index va 2 * 2 ^ 21.
Proof.
  intros Hv [q Hq]. rewrite !index_eq by done. change (bit (shift_of 1)) with (2 ^ 30). change (bit (shift_of 2)) with (2 ^ 21).
  change L2_SIZE with (2 ^ 21) in Hq. unfold kva, KBASE, PAGE_OFFSET, U64 in *. Z.to_euclidean_division_equations. lia.
Qed.
Lemma slot3 va : kva va → (PAGE_SIZE | va) → va = page_base va.
Proof. intros _ [q ->]. unfold page_base. by rewrite Z.div_mul by done. Qed.

Ltac slots x va :=
  pose proof (index_sum x ltac:(done)); pose proof (index_range x 1); pose proof (index_range x 2); pose proof (index_range x 3);
  pose proof (index_range va 1); pose proof (index_range va 2); pose proof (index_range va 3).

Lemma in_slot1 x va : kva x → kva va → (L1_SIZE | va) → index x 1 = index va 1 ↔ va ≤ x < va + L1_SIZE.
Proof. intros Hx Hv Hd. pose proof (slot1 va Hv Hd). slots x va. change L1_SIZE with (2 ^ 30). lia. Qed.
Lemma in_slot2 x va : kva x → kva va → (L2_SIZE | va) → index x 1 = index va 1 ∧ index x 2 = index va 2 ↔ va ≤ x < va + L2_SIZE.
Proof. intros Hx Hv Hd. pose proof (slot2 va Hv Hd). slots x va. change L2_SIZE with (2 ^ 21). lia. Qed.
Lemma in_slot3 x va : kva x → kva va → (PAGE_SIZE | va) → same_slot x va ↔ va ≤ x < va + PAGE_SIZE.
Proof.
  intros Hx Hv Hd. rewrite same_slot_eq by done. rewrite <-(slot3 va) by done. unfold page_base. destruct Hd as [q ->].
  unfold PAGE_SIZE. Z.to_euclidean_division_equations. lia.
Qed.

Section range.
Variables (prot : Z) (Hprot : prot_ok prot).

Lemma store_block1 k va pa :
  kpt_ok k → kva va → (L1_SIZE | va) → (L1_SIZE | pa) → 0 ≤ pa < 2 ^ 48 →
  ∃ k', walk_store k va 1 (Z.lor pa (block_prot prot)) = Ok k' ∧ kpt_ok k' ∧ (∀ n, avail k n → avail k' n) ∧ maps k k' va pa L1_SIZE prot.
Proof.
  intros Hk Hv Hdv Hdp Hp. eexists. split; [done|]. cbn [walk_from Z.to_nat Z.sub app]. unfold store. cbn [put].
  destruct (block_desc prot Hprot 1 pa Hdp Hp) as (Hup & _). split; [by apply kpt_ok_root|]. split; [done|].
  intros x Hx. rewrite kpte_root. pose proof (in_slot1 x va Hx Hv Hdv) as Hin.
  destruct (decide (index x 1 = index va 1)) as [E|]; [rewrite decide_True by tauto|by rewrite decide_False by tauto].
  rewrite block_l1 by done. f_equal. rewrite page_base_sum by done. pose proof (slot1 va Hv Hdv).
  change L2_SIZE with (2 ^ 21). change PAGE_SIZE with (2 ^ 12). rewrite E. lia.
Qed.

Lemma store_block2 k va pa :
  kpt_ok k → kva va → (L2_SIZE | va) → (L2_SIZE | pa) → 0 ≤ pa < 2 ^ 48 →
  (∃ k', walk_store k va 2 (Z.lor pa (block_prot prot)) = Ok k' ∧ kpt_ok k' ∧ (∀ n, avail k (need1 k va + n) → avail k' n) ∧
     need1 k' va = 0%nat ∧ maps k k' va pa L2_SIZE prot) ∨
  (walk_store k va 2 (Z.lor pa (block_prot prot)) = Panic ∧ ¬ avail k (need1 k va)).
Proof.
  intros Hk Hv Hdv Hdp Hp. unfold walk_store, walk. change (Z.to_nat (2 - 1)) with 1%nat.
  destruct (walk_l1 0 k va Hk) as [(k1 & t2 & -> & [O1 A1 P1 T1] & H1 & _)|[-> Hn]]; [left|by right]. cbn [walk_from obind app].
  eexists. split; [done|]. unfold store. destruct (block_desc prot Hprot 2 pa Hdp Hp) as (Hup & _).
  split; [eapply kpt_ok_l2; [done|done|apply index_range|done]|]. split; [apply A1|]. split.
  { unfold need1, set_root. cbn [put swapper_pg_dir]. rewrite H1. by rewrite fn_lookup_insert. }
  intros x Hx. rewrite (kpte_l2 _ _ _ _ _ _ H1), P1. pose proof (in_slot2 x va Hx Hv Hdv) as Hin.
  destruct (decide (index x 1 = index va 1)) as [E|]; [|by rewrite decide_False by tauto].
  destruct (decide (index x 2 = index va 2)) as [E2|]; [rewrite decide_True by tauto|by rewrite decide_False by tauto].
  rewrite block_l2 by done. f_equal. rewrite page_base_sum by done. pose proof (slot2 va Hv Hdv). change PAGE_SIZE with (2 ^ 12). rewrite E, E2. lia.
Qed.

Lemma store_block3 k va pa :
  kpt_ok k → kva va → (PAGE_SIZE | va) →
  (∃ k', walk_store k va 3 (Z.lor pa prot) = Ok k' ∧ kpt_ok k' ∧ (∀ n, avail k (need k va + n) → avail k' n) ∧
     need k' va = 0%nat ∧ maps k k' va pa PAGE_SIZE prot) ∨
  (walk_store k va 3 (Z.lor pa prot) = Panic ∧ ¬ avail k (need k va)).
Proof.
  intros Hk Hv Hdv. destruct (store_page k va (Z.lor pa prot) Hk) as [(k' & t3 & E & Ok' & A & (t2 & H1 & H2) & _ & P)|?]; [left|by right].
  exists k'. split_and!; [done..| |].
  - unfold need, need1, need2. by rewrite H1, H2.
  - intros x Hx. rewrite P. pose proof (in_slot3 x va Hx Hv Hdv). pose proof (same_slot_eq x va Hx Hv) as Heq. pose proof (slot3 va Hv Hdv).
    destruct (decide (same_slot x va)) as [Es|]; [rewrite decide_True by tauto|by rewrite decide_False by tauto]. f_equal. apply Heq in Es. lia.
Qed.
End range.

(** The tables that mapping the offsets from [o] to [e] can take: an unaligned
    head and tail take one of each lower level, a gigabyte block takes none. *)
Definition budget (o e : Z) (b1 b2 : nat) : nat :=
  if o =? e then 0
  else if (o `mod` L1_SIZE =? 0) && (L1_SIZE <=? e - o) then 2
  else if (o `mod` L2_SIZE =? 0) && (L2_SIZE <=? e - o) then b1 + (if o / L1_SIZE =? e / L1_SIZE then 1 else 2)
  else b1 + b2 + (if o / L1_SIZE =? e / L1_SIZE then if o / L2_SIZE =? e / L2_SIZE then 0 else 1 else 2).

Lemma budget_le o e b1 b2 : (b1 ≤ 1)%nat → (b2 ≤ 1)%nat → (budget o e b1 b2 ≤ 4)%nat.
Proof. intros. unfold budget. repeat case_match; lia. Qed.

Lemma budget_tail o e b1 b2 :
  o `mod` L1_SIZE = 0 → o ≤ e → (b1 ≤ 1)%nat → (b2 ≤ 1)%nat → (budget o e b1 b2 ≤ 2)%nat.
Proof.
  intros Ho He H1 H2. unfold budget. change L1_SIZE with (2 ^ 30) in *. change L2_SIZE with (2 ^ 21) in *.
  destruct (Z.eqb_spec o e); [lia|]. rewrite Ho. cbn [Z.eqb andb]. destruct (Z.leb_spec (2 ^ 30) (e - o)); [lia|].
  assert (o / 2 ^ 30 = e / 2 ^ 30) as -> by (Z.to_euclidean_division_equations; lia). rewrite Z.eqb_refl.
  assert (o `mod` 2 ^ 21 = 0) as -> by (Z.to_euclidean_division_equations; lia). cbn [Z.eqb andb].
  destruct (Z.leb_spec (2 ^ 21) (e - o)); [lia|]. assert (o / 2 ^ 21 = e / 2 ^ 21) as -> by (Z.to_euclidean_division_equations; lia).
  rewrite Z.eqb_refl. lia.
Qed.

Lemma budget_l2 o e b1 b2 :
  o `mod` L2_SIZE = 0 → L2_SIZE ≤ e - o → (b1 ≤ 1)%nat → (b2 ≤ 1)%nat → ((o + L2_SIZE) / L1_SIZE = o / L1_SIZE → b1 = 0%nat) →
  (budget (o + L2_SIZE) e b1 b2 ≤ if (o / L1_SIZE =? e / L1_SIZE)%Z then 1 else 2)%nat.
Proof.
  intros Ho He H1 H2 Hb. destruct (decide ((o + L2_SIZE) `mod` L1_SIZE = 0)) as [Ha|Ha].
  - destruct (Z.eqb_spec (o + L2_SIZE) e) as [Ee|]; [unfold budget; rewrite Ee, Z.eqb_refl; lia|].
    pose proof (budget_tail (o + L2_SIZE) e b1 b2 Ha ltac:(lia) H1 H2). destruct (Z.eqb_spec (o / L1_SIZE) (e / L1_SIZE)) as [E|]; [|done].
    change L1_SIZE with (2 ^ 30) in *. change L2_SIZE with (2 ^ 21) in *. exfalso. clear -Ho Ha E He n. Z.to_euclidean_division_equations. lia.
  - assert ((o + L2_SIZE) / L1_SIZE = o / L1_SIZE) as E1.
    { change L1_SIZE with (2 ^ 30) in *. change L2_SIZE with (2 ^ 21) in *. clear -Ho Ha. Z.to_euclidean_division_equations. lia. }
    assert ((o + L2_SIZE) `mod` L2_SIZE = 0) as E2.
    { change L2_SIZE with (2 ^ 21) in *. clear -Ho. Z.to_euclidean_division_equations. lia. }
    rewrite (Hb E1). unfold budget. rewrite E1, E2. rewrite (proj2 (Z.eqb_neq _ _) Ha). cbn [Z.eqb andb].
    destruct (Z.eqb_spec (o + L2_SIZE) e); [lia|]. destruct (Z.leb_spec L2_SIZE (e - (o + L2_SIZE))); [lia|].
    assert (o / L1_SIZE = e / L1_SIZE ∧ (o + L2_SIZE) / L2_SIZE = e / L2_SIZE) as [-> ->].
    { change L1_SIZE with (2 ^ 30) in *. change L2_SIZE with (2 ^ 21) in *. clear -Ho Ha E1 He H n. Z.to_euclidean_division_equations. lia. }
    rewrite !Z.eqb_refl. lia.
Qed.

Lemma budget_l3 o e b1 b2 :
  o `mod` PAGE_SIZE = 0 → e `mod` PAGE_SIZE = 0 → o < e → ¬ (o `mod` L2_SIZE = 0 ∧ L2_SIZE ≤ e - o) → (b1 ≤ 1)%nat → (b2 ≤ 1)%nat →
  ((o + PAGE_SIZE) / L1_SIZE = o / L1_SIZE → b1 = 0%nat) → ((o + PAGE_SIZE) / L2_SIZE = o / L2_SIZE → b2 = 0%nat) →
  (budget (o + PAGE_SIZE) e b1 b2 ≤ if (o / L1_SIZE =? e / L1_SIZE)%Z then if (o / L2_SIZE =? e / L2_SIZE)%Z then 0 else 1 else 2)%nat.
Proof.
  intros Ho He Hlt Hn H1 H2 Hb1 Hb2. destruct (Z.eqb_spec (o + PAGE_SIZE) e) as [Ee|Ne]; [unfold budget; rewrite Ee, Z.eqb_refl; lia|].
  assert (o + PAGE_SIZE < e) as Hlt' by (clear -Ho He Hlt Ne; unfold PAGE_SIZE in *; Z.to_euclidean_division_equations; lia).
  destruct (decide ((o + PAGE_SIZE) `mod` L1_SIZE = 0)) as [Ha|Ha].
  { pose proof (budget_tail (o + PAGE_SIZE) e b1 b2 Ha ltac:(lia) H1 H2). destruct (Z.eqb_spec (o / L1_SIZE) (e / L1_SIZE)) as [E|]; [|done].
    exfalso. unfold PAGE_SIZE in *. change L1_SIZE with (2 ^ 30) in *. clear -Ha E Hlt'. Z.to_euclidean_division_equations. lia. }
  assert ((o + PAGE_SIZE) / L1_SIZE = o / L1_SIZE) as E1.
  { unfold PAGE_SIZE in *. change L1_SIZE with (2 ^ 30) in *. clear -Ho Ha. Z.to_euclidean_division_equations. lia. }
  unfold budget. rewrite (Hb1 E1), E1, (proj2 (Z.eqb_neq _ _) Ne), (proj2 (Z.eqb_neq _ _) Ha). cbn [Z.eqb andb].
  destruct (decide ((o + PAGE_SIZE) `mod` L2_SIZE = 0)) as [Hc|Hc].
  - rewrite Hc. cbn [Z.eqb andb].
    assert (o / L2_SIZE ≠ e / L2_SIZE) as E2.
    { unfold PAGE_SIZE in *. change L2_SIZE with (2 ^ 21) in *. clear -Hc Hlt'. Z.to_euclidean_division_equations. lia. }
    rewrite (proj2 (Z.eqb_neq _ _) E2). destruct (Z.leb_spec L2_SIZE (e - (o + PAGE_SIZE))) as [|Hs]; [case_match; lia|].
    assert (o / L1_SIZE = e / L1_SIZE ∧ (o + PAGE_SIZE) / L2_SIZE = e / L2_SIZE) as [-> ->].
    { unfold PAGE_SIZE in *. change L2_SIZE with (2 ^ 21) in *. change L1_SIZE with (2 ^ 30) in *. clear -Ho Ha Hc E1 Hs Hlt'. Z.to_euclidean_division_equations. lia. }
    rewrite !Z.eqb_refl. lia.
  - rewrite (proj2 (Z.eqb_neq _ _) Hc). cbn [andb]. assert ((o + PAGE_SIZE) / L2_SIZE = o / L2_SIZE) as E2.
    { unfold PAGE_SIZE in *. change L2_SIZE with (2 ^ 21) in *. clear -Ho Hc. Z.to_euclidean_division_equations. lia. }
    rewrite (Hb2 E2), E2. lia.
Qed.

(** An address of the linear map and its offset are aligned alike. *)
Lemma linear_aligned o s : 0 ≤ s ≤ 30 → IS_ALIGNED (Z.lor (KBASE + o) o) (2 ^ s) = (o `mod` 2 ^ s =? 0).
Proof.
  intros Hs. unfold IS_ALIGNED. change (2 ^ s - 1) with (Z.pred (2 ^ s)). rewrite <-Z.ones_equiv, Z.land_lor_distr_l, !Z.land_ones by lia.
  replace (KBASE + o) with (o + (2 ^ 34 - 2 ^ 9) * 2 ^ (30 - s) * 2 ^ s).
  2: { rewrite <-Z.mul_assoc, <-Z.pow_add_r by lia. replace (30 - s + s) with 30 by lia. unfold KBASE, PAGE_OFFSET. lia. }
  rewrite Z.mod_add by lia. by rewrite Z.lor_diag.
Qed.

Lemma kva_linear o : 0 ≤ o < LINEAR_MAP_SIZE → kva (KBASE + o).
Proof. unfold kva, KBASE, PAGE_OFFSET, LINEAR_MAP_SIZE, U64. lia. Qed.

Lemma need1_eq k o o' : 0 ≤ o < LINEAR_MAP_SIZE → o' / L1_SIZE = o / L1_SIZE → need1 k (KBASE + o') = need1 k (KBASE + o).
Proof.
  intros H E. assert (0 ≤ o' < LINEAR_MAP_SIZE).
  { unfold LINEAR_MAP_SIZE in *. change L1_SIZE with (2 ^ 30) in E. Z.to_euclidean_division_equations. lia. }
  unfold need1. rewrite !index_eq by by apply kva_linear. replace (KBASE + o - KBASE) with o by lia.
  replace (KBASE + o' - KBASE) with o' by lia. change (bit (shift_of 1)) with L1_SIZE. by rewrite E.
Qed.
Lemma need2_eq k o o' : 0 ≤ o < LINEAR_MAP_SIZE → o' / L2_SIZE = o / L2_SIZE → need2 k (KBASE + o') = need2 k (KBASE + o).
Proof.
  intros H E. assert (0 ≤ o' < LINEAR_MAP_SIZE).
  { unfold LINEAR_MAP_SIZE in *. change L2_SIZE with (2 ^ 21) in E. Z.to_euclidean_division_equations. lia. }
  unfold need2. rewrite !index_eq by by apply kva_linear. replace (KBASE + o - KBASE) with o by lia.
  replace (KBASE + o' - KBASE) with o' by lia. change (bit (shift_of 1)) with (L2_SIZE * 512). change (bit (shift_of 2)) with L2_SIZE.
  rewrite <-!Z.div_div by done. by rewrite E.
Qed.
Lemma need_le k va : (need1 k va ≤ 1 ∧ need2 k va ≤ 1)%nat.
Proof. unfold need1, need2. repeat case_match; lia. Qed.

Lemma maps_app k k1 k' va pa s size prot :
  0 ≤ s ≤ size → maps k k1 va pa s prot → maps k1 k' (va + s) (pa + s) (size - s) prot → maps k k' va pa size prot.
Proof.
  intros Hs M1 M2 x Hx. rewrite M2, M1 by done. destruct (decide (va + s ≤ x < va + s + (size - s))).
  - rewrite decide_True by lia. f_equal. lia.
  - destruct (decide (va ≤ x < va + s)); [by rewrite decide_True by lia|by rewrite decide_False by lia].
Qed.

(** *** Slots of the top level that are left alone *)

Definition same_root (k k' : kpt) (P : Z → Prop) : Prop := ∀ i, P i → swapper_pg_dir k' i = swapper_pg_dir k i.

Lemma put_root t i p v j : j ≠ i → put t (i :: p) v j = t j.
Proof. intros Hj. destruct p as [|i' p]; cbn [put]; [by rewrite fn_lookup_insert_ne|]. case_match; [done|]. by rewrite fn_lookup_insert_ne. Qed.

Lemma pt_alloc_root k k' : pt_alloc k = Ok k' → swapper_pg_dir k' = swapper_pg_dir k.
Proof. destruct (pt_alloc_spec k) as [(k1 & E & Er & _)|[E _]]; rewrite E; [by intros [= <-]|done]. Qed.

Lemma walk_from_root n k p va lvl alloc k' q h :
  head (p ++ [index va lvl]) = Some h → walk_from n k p va lvl alloc = Ok (k', Some q) → head q = Some h ∧ same_root k k' (λ i, i ≠ h).
Proof.
  revert k p lvl. induction n as [|n IH]; intros k p lvl Hh; cbn [walk_from]; [by intros [= <- <-]|].
  destruct (p ++ [index va lvl]) as [|h' e] eqn:Ee; [done|]. injection Hh as ->.
  assert (∀ lvl', head ((h :: e) ++ [index va lvl']) = Some h) as Hh' by done.
  assert (∀ k1 v, pt_alloc k = Ok k1 → same_root k (set_root k1 (put (swapper_pg_dir k1) (h :: e) v)) (λ i, i ≠ h)) as Hput.
  { intros k1 v E%pt_alloc_root i Hi. unfold set_root. cbn [swapper_pg_dir]. by rewrite put_root, E. }
  destruct (get _ _) as [w|t]; [|by apply IH]. destruct (pte_valid w); cbn [negb].
  - destruct (pte_is_block w); [|done]. destruct alloc; cbn [negb]; [|by intros [= <- <-]]. unfold split_block.
    destruct (pt_alloc k) as [k1|] eqn:E; [|done]. cbn [obind]. intros [Hq Hr]%IH; [|done]. split; [done|]. intros i Hi. rewrite Hr by done. by apply Hput.
  - destruct alloc; [|done]. cbn [negb]. destruct (pt_alloc k) as [k1|] eqn:E; [|done]. cbn [obind]. intros [Hq Hr]%IH; [|done].
    split; [done|]. intros i Hi. rewrite Hr by done. by apply Hput.
Qed.

Lemma walk_store_root k va lvl w k' : walk_store k va lvl w = Ok k' → same_root k k' (λ i, i ≠ index va 1).
Proof.
  unfold walk_store, walk. destruct (walk_from _ k [] va 1 true) as [[k1 [q|]]|] eqn:E; cbn [obind]; [|done..].
  apply (walk_from_root _ _ _ _ _ _ _ _ (index va 1)) in E as [Hq Hr]; [|done]. destruct q as [|h q]; [done|]. injection Hq as ->.
  intros [= <-] i Hi. unfold store, set_root. cbn [swapper_pg_dir]. rewrite put_root by done. by apply Hr.
Qed.

(** Table pages come from the allocator, and only they. *)
Definition grab (s s' : Src) : Prop := ∃ p, ps_alloc s GFP_ZERO 0 = Ok (s', Some p).
Definition more_tables (k k' : kpt) : Prop := page_alloc_ready k' = page_alloc_ready k ∧ rtc grab (pages k) (pages k').

Lemma pt_alloc_pages k k' : pt_alloc k = Ok k' → more_tables k k'.
Proof.
  unfold pt_alloc. destruct (page_alloc_ready k) eqn:Er.
  - destruct (ps_alloc (pages k) GFP_ZERO 0) as [[s [x|]]|] eqn:E; intros [= <-]. split; [done|]. cbn [pages]. apply rtc_once. by exists x.
  - case_match; intros [= <-]. split; [done|]. apply rtc_refl.
Qed.

Lemma more_tables_trans k1 k2 k3 : more_tables k1 k2 → more_tables k2 k3 → more_tables k1 k3.
Proof. intros [E1 R1] [E2 R2]. split; [congruence|]. by etransitivity. Qed.

Lemma walk_from_pages n k p va lvl alloc k' q : walk_from n k p va lvl alloc = Ok (k', q) → more_tables k k'.
Proof.
  revert k p lvl. induction n as [|n IH]; intros k p lvl; cbn [walk_from]; [intros [= <- <-]; split; [done|apply rtc_refl]|].
  destruct (get _ _) as [w|t]; [|by apply IH]. destruct (pte_valid w); cbn [negb].
  - destruct (pte_is_block w); [|done]. destruct alloc; cbn [negb]; [|intros [= <- <-]; split; [done|apply rtc_refl]]. unfold split_block.
    destruct (pt_alloc k) as [k1|] eqn:E; [|done]. cbn [obind]. intros ?%IH. apply pt_alloc_pages in E. by apply (more_tables_trans _ k1).
  - destruct alloc; cbn [negb]; [|intros [= <- <-]; split; [done|apply rtc_refl]].
    destruct (pt_alloc k) as [k1|] eqn:E; [|done]. cbn [obind]. intros ?%IH. apply pt_alloc_pages in E. by apply (more_tables_trans _ k1).
Qed.

Lemma walk_store_pages k va lvl w k' : walk_store k va lvl w = Ok k' → more_tables k k'.
Proof.
  unfold walk_store, walk. destruct (walk_from _ k [] va 1 true) as [[k1 [q|]]|] eqn:E; cbn [obind]; [|done..].
  apply walk_from_pages in E. by intros [= <-].
Qed.

Lemma linear_slot o : 0 ≤ o < LINEAR_MAP_SIZE → index (KBASE + o) 1 < 256.
Proof.
  intros Ho. rewrite index_eq by by apply kva_linear. change (bit (shift_of 1)) with (2 ^ 30). unfold LINEAR_MAP_SIZE in *.
  replace (KBASE + o - KBASE) with o by lia. Z.to_euclidean_division_equations. lia.
Qed.

(** What a run of [map_range] from offset [o] to [e] gives. *)
Definition range_result (k : kpt) (o e prot : Z) (r : outcome kpt) : Prop :=
  let b := budget o e (need1 k (KBASE + o)) (need2 k (KBASE + o)) in
  match r with
  | Ok k' => kpt_ok k' ∧ same_root k k' (Z.le 256) ∧ (∀ n, avail k (b + n) → avail k' n) ∧ maps k k' (KBASE + o) o (e - o) prot
  | Panic => ¬ avail k b
  end.

(** One step of it and the rest. *)
Lemma range_step k k1 o e s c prot r :
  0 ≤ s ≤ e - o → same_root k k1 (Z.le 256) → (∀ n, avail k (c + n) → avail k1 n) → maps k k1 (KBASE + o) o s prot →
  (c + budget (o + s) e (need1 k1 (KBASE + (o + s))) (need2 k1 (KBASE + (o + s))) ≤ budget o e (need1 k (KBASE + o)) (need2 k (KBASE + o)))%nat →
  range_result k1 (o + s) e prot r → range_result k o e prot r.
Proof.
  intros Hs R1 A1 M1 Hb. unfold range_result. destruct r as [k'|]; cbn zeta.
  - intros (Hk' & R2 & A2 & M2). split; [done|]. split; [intros i Hi; by rewrite R2, R1|]. split; [intros n Hn; apply A2, A1; eapply avail_le; [|done]; lia|].
    apply (maps_app _ k1 _ _ _ s); [done..|]. rewrite Z.add_assoc in M2. by replace (e - o - s) with (e - (o + s)) by lia.
  - intros Hn Ha. apply Hn, A1. eapply avail_le; [|done]. lia.
Qed.

Lemma linear_add o s e :
  0 ≤ o → 0 ≤ s ≤ e - o → e ≤ LINEAR_MAP_SIZE →
  (KBASE + o) ⊕ s = KBASE + (o + s) ∧ o ⊕ s = o + s ∧ (e - o) ⊖ s = e - (o + s).
Proof.
  intros. unfold LINEAR_MAP_SIZE, KBASE, PAGE_OFFSET in *. rewrite !add64_small, sub64_small by (unfold U64; lia). lia.
Qed.

(** A step of [s] bytes leaves tables enough for the rest. *)
Definition step_result (k : kpt) (o e s prot : Z) (r : outcome kpt) : Prop :=
  let b := budget o e (need1 k (KBASE + o)) (need2 k (KBASE + o)) in
  match r with
  | Ok k1 =>
      kpt_ok k1 ∧ maps k k1 (KBASE + o) o s prot ∧
      ∃ c, (∀ n, avail k (c + n) → avail k1 n) ∧ (c + budget (o + s) e (need1 k1 (KBASE + (o + s))) (need2 k1 (KBASE + (o + s))) ≤ b)%nat
  | Panic => ¬ avail k b
  end.

Section steps.
Variables (prot : Z) (Hprot : prot_ok prot) (k : kpt) (Hk : kpt_ok k) (o e : Z) (Hoe : 0 ≤ o < e) (HeL : e ≤ LINEAR_MAP_SIZE).

Lemma linear_divide s : (s | KBASE) → 0 < s → o `mod` s = 0 → (s | KBASE + o) ∧ (s | o).
Proof. intros Hs H0 Ho. apply Z.mod_divide in Ho; [|lia]. split; [by apply Z.divide_add_r|done]. Qed.

Lemma pa_range : 0 ≤ o < 2 ^ 48.
Proof. unfold LINEAR_MAP_SIZE in HeL. lia. Qed.

Lemma step1 :
  o `mod` L1_SIZE = 0 → L1_SIZE ≤ e - o → step_result k o e L1_SIZE prot (walk_store k (KBASE + o) 1 (Z.lor o (block_prot prot))).
Proof.
  intros Ho He. destruct (linear_divide L1_SIZE) as [D1 D2]; [by exists (2 ^ 34 - 2 ^ 9)|done..|].
  destruct (store_block1 prot Hprot k (KBASE + o) o Hk) as (k1 & -> & Ok1 & A1 & M1); [apply kva_linear; lia|done|done|apply pa_range|].
  split; [done|]. split; [done|]. exists 0%nat. split; [done|]. unfold budget at 2. rewrite (proj2 (Z.eqb_neq o e)), Ho by lia.
  rewrite (proj2 (Z.leb_le _ _) He). cbn [Z.eqb andb]. destruct (need_le k1 (KBASE + (o + L1_SIZE))). apply budget_tail; [|lia..].
  change L1_SIZE with (2 ^ 30) in *. clear -Ho. Z.to_euclidean_division_equations. lia.
Qed.

Lemma step2 :
  ¬ (o `mod` L1_SIZE = 0 ∧ L1_SIZE ≤ e - o) → o `mod` L2_SIZE = 0 → L2_SIZE ≤ e - o →
  step_result k o e L2_SIZE prot (walk_store k (KBASE + o) 2 (Z.lor o (block_prot prot))).
Proof.
  intros Hn Ho He. destruct (linear_divide L2_SIZE) as [D1 D2]; [by exists (2 ^ 43 - 2 ^ 18)|done..|].
  assert (budget o e (need1 k (KBASE + o)) (need2 k (KBASE + o)) = need1 k (KBASE + o) + (if (o / L1_SIZE =? e / L1_SIZE)%Z then 1 else 2))%nat as Hb.
  { unfold budget. rewrite (proj2 (Z.eqb_neq o e)) by lia. destruct ((o `mod` L1_SIZE =? 0) && _) eqn:C; zbool; [tauto|].
    rewrite Ho, (proj2 (Z.leb_le _ _) He). done. }
  unfold step_result. rewrite Hb.
  destruct (store_block2 prot Hprot k (KBASE + o) o Hk) as [(k1 & -> & Ok1 & A1 & N1 & M1)|[-> Hna]]; [apply kva_linear; lia|done|done|apply pa_range| |].
  - split; [done|]. split; [done|]. eexists. split; [done|]. destruct (need_le k1 (KBASE + (o + L2_SIZE))). apply Nat.add_le_mono_l, budget_l2; [done..|].
    intros E. rewrite (need1_eq _ o) by (done || lia). done.
  - intros Ha. apply Hna. eapply avail_le; [|done]. lia.
Qed.

Lemma step3 :
  o `mod` PAGE_SIZE = 0 → e `mod` PAGE_SIZE = 0 → ¬ (o `mod` L2_SIZE = 0 ∧ L2_SIZE ≤ e - o) →
  step_result k o e PAGE_SIZE prot (walk_store k (KBASE + o) 3 (Z.lor o prot)).
Proof.
  intros Ho He Hn. destruct (linear_divide PAGE_SIZE) as [D1 D2]; [by exists (2 ^ 52 - 2 ^ 27)|done..|].
  assert (budget o e (need1 k (KBASE + o)) (need2 k (KBASE + o)) =
    need k (KBASE + o) + (if (o / L1_SIZE =? e / L1_SIZE)%Z then if (o / L2_SIZE =? e / L2_SIZE)%Z then 0 else 1 else 2))%nat as Hb.
  { unfold budget. rewrite (proj2 (Z.eqb_neq o e)) by lia. destruct ((o `mod` L1_SIZE =? 0) && _) eqn:C.
    - exfalso. apply Hn. apply andb_true_iff in C as [H%Z.eqb_eq H'%Z.leb_le]. change L1_SIZE with (2 ^ 30) in *. change L2_SIZE with (2 ^ 21) in *. split; [|lia].
      clear -H. Z.to_euclidean_division_equations. lia.
    - destruct ((o `mod` L2_SIZE =? 0) && _) eqn:C2; zbool; [tauto|done]. }
  unfold step_result. rewrite Hb.
  destruct (store_block3 prot k (KBASE + o) o Hk) as [(k1 & -> & Ok1 & A1 & N1 & M1)|[-> Hna]]; [apply kva_linear; lia|done| |].
  - split; [done|]. split; [done|]. eexists. split; [done|]. destruct (need_le k1 (KBASE + (o + PAGE_SIZE))). unfold need in N1.
    apply Nat.add_le_mono_l, budget_l3; [done|done|lia|done..| |]; intros E; [rewrite (need1_eq _ o) by (done || lia)|rewrite (need2_eq _ o) by (done || lia)]; lia.
  - intros Ha. apply Hna. eapply avail_le; [|done]. lia.
Qed.
End steps.

Lemma map_range_spec prot fuel k o e :
  prot_ok prot → kpt_ok k → o `mod` PAGE_SIZE = 0 → e `mod` PAGE_SIZE = 0 → 0 ≤ o ≤ e → e ≤ LINEAR_MAP_SIZE → (e - o) / PAGE_SIZE < Z.of_nat fuel →
  ∃ r, map_range fuel k (KBASE + o) o (e - o) prot = Some r ∧ range_result k o e prot r.
Proof.
  intros Hp. revert k o. induction fuel as [|fuel IH]; intros k o Hk Ho He Hoe HeL Hf; [unfold PAGE_SIZE in *; Z.to_euclidean_division_equations; lia|].
  cbn [map_range]. destruct (Z.eqb_spec (e - o) 0) as [E|E].
  { eexists. split; [done|]. unfold range_result. split; [done|]. split; [done|]. assert (o = e) as -> by lia. unfold budget. rewrite Z.eqb_refl. split; [done|].
    intros x _. by rewrite decide_False by lia. }
  assert (∀ s c k1, (s = L1_SIZE ∨ s = L2_SIZE ∨ s = PAGE_SIZE) → s ≤ e - o → kpt_ok k1 → same_root k k1 (Z.le 256) → (∀ n, avail k (c + n) → avail k1 n) → maps k k1 (KBASE + o) o s prot →
    (c + budget (o + s) e (need1 k1 (KBASE + (o + s))) (need2 k1 (KBASE + (o + s))) ≤ budget o e (need1 k (KBASE + o)) (need2 k (KBASE + o)))%nat →
    ∃ r, map_range fuel k1 ((KBASE + o) ⊕ s) (o ⊕ s) ((e - o) ⊖ s) prot = Some r ∧ range_result k o e prot r) as Hstep.
  { intros s c k1 Hs Hse Hk1 R1 A1 M1 Hb. assert (0 < s ∧ s `mod` PAGE_SIZE = 0 ∧ PAGE_SIZE ≤ s) as (Hs0 & Hs1 & Hs2) by by destruct Hs as [-> |[-> | ->]].
    destruct (linear_add o s e) as (-> & -> & ->); [lia..|]. destruct (IH k1 (o + s) Hk1) as (r & Er & Hr).
    - clear -Ho Hs1. unfold PAGE_SIZE in *. Z.to_euclidean_division_equations. lia.
    - done.
    - lia.
    - done.
    - clear -Hf Hs2 Hse. unfold PAGE_SIZE in *. Z.to_euclidean_division_equations. lia.
    - exists r. split; [done|]. apply (range_step k k1 o e s c); [lia|done..]. }
  assert (∀ s lvl w, let x := walk_store k (KBASE + o) lvl w in (s = L1_SIZE ∨ s = L2_SIZE ∨ s = PAGE_SIZE) → s ≤ e - o → step_result k o e s prot x →
    ∃ r, match x with Panic => Some Panic | Ok k1 => map_range fuel k1 ((KBASE + o) ⊕ s) (o ⊕ s) ((e - o) ⊖ s) prot end = Some r ∧ range_result k o e prot r) as Hfin.
  { intros s lvl w x Hs Hle H. destruct x as [k1|] eqn:Ex; [|by exists Panic]. destruct H as (H1 & H2 & c & H3 & H4). apply (Hstep s c); try done.
    apply walk_store_root in Ex. pose proof (linear_slot o ltac:(lia)). intros i Hi. apply Ex. lia. }
  change L1_SIZE with (2 ^ 30) at 1. change L2_SIZE with (2 ^ 21) at 1. rewrite !linear_aligned by lia. change (2 ^ 30) with L1_SIZE. change (2 ^ 21) with L2_SIZE.
  fold (block_prot prot).
  destruct ((o `mod` L1_SIZE =? 0) && (L1_SIZE <=? e - o)) eqn:C1; [|destruct ((o `mod` L2_SIZE =? 0) && (L2_SIZE <=? e - o)) eqn:C2]; zbool.
  - apply Hfin; [tauto|tauto|]. apply step1; tauto || lia.
  - apply Hfin; [tauto|tauto|]. apply step2; tauto || lia.
  - apply Hfin; [tauto|unfold PAGE_SIZE in *; clear -Ho He E Hoe; Z.to_euclidean_division_equations; lia|]. apply step3; tauto || lia.
Qed.

(** ** [mmu_init] *)

(** The banks of RAM are whole pages below the limit of the linear map. *)
Definition bank_ok (r : memblock_region) : Prop :=
  region_ok r ∧ (PAGE_SIZE | r_base r) ∧ (PAGE_SIZE | r_size r) ∧ r_base r + r_size r ≤ LINEAR_MAP_SIZE.

#[export] Instance covers_dec l pa : Decision (covers l pa).
Proof. refine (cast_if (decide (Exists (λ r, r_base r ≤ pa < r_base r + r_size r) l))); unfold covers; rewrite <-Exists_exists; done. Defined.

Lemma map_ram_spec l k n :
  kpt_ok k → Forall bank_ok l → avail k (4 * length l + n) →
  ∃ k', map_ram k l = Some (Ok k') ∧ kpt_ok k' ∧ same_root k k' (Z.le 256) ∧ avail k' n ∧
    ∀ x, kva x → kpte k' x = if decide (covers l (x - KBASE)) then Z.lor (page_base x - KBASE) PROT_KERNEL_RW else kpte k x.
Proof.
  revert k. induction l as [|r l IH]; intros k Hk Hl Ha.
  { exists k. split; [done|]. split; [done|]. split; [done|]. split; [done|]. intros x _. rewrite decide_False by apply covers_nil. done. }
  apply Forall_cons in Hl as [((Hb0 & Hs0 & Hlt) & Hdb & Hds & Hlim) Hl]. cbn [map_ram]. rewrite add64_small by lia.
  rewrite (proj2 (Z.ltb_ge _ _)) by done. set (o := r_base r) in *. set (e := o + r_size r).
  replace (PAGE_OFFSET ⊕ o) with (KBASE + o) by (unfold KBASE; rewrite add64_small; unfold PAGE_OFFSET, LINEAR_MAP_SIZE, U64 in *; lia).
  replace (r_size r) with (e - o) by lia. destruct (map_range_spec PROT_KERNEL_RW (page_count (e - o)) k o e) as (x & -> & Hx).
  1-2: done.
  1: by apply Z.mod_divide.
  1: apply Z.mod_divide; [done|]; by apply Z.divide_add_r.
  1-2: lia.
  1: unfold page_count, PAGE_SIZE; Z.to_euclidean_division_equations; lia.
  destruct (need_le k (KBASE + o)) as [N1 N2]. pose proof (budget_le o e _ _ N1 N2) as Hbud. cbn [length] in Ha. destruct x as [k1|].
  2: { exfalso. apply Hx. eapply avail_le; [|done]. lia. }
  destruct Hx as (Hk1 & R1 & A1 & M1). destruct (IH k1 Hk1 Hl) as (k' & -> & Hk' & R2 & A2 & M2).
  { apply A1. eapply avail_le; [|done]. lia. }
  exists k'. split; [done|]. split; [done|]. split; [intros i Hi; by rewrite R2, R1|]. split; [done|].
  intros x Hx. rewrite M2, M1 by done. pose proof (covers_cons r l (x - KBASE)) as Hc. fold o e in Hc.
  destruct (decide (covers l (x - KBASE))); [by rewrite decide_True by tauto|]. case_decide as Hd.
  - rewrite decide_True by (apply Hc; left; lia). f_equal. lia.
  - rewrite decide_False; [done|]. intros [?|?]%Hc; [lia|done].
Qed.

Definition reprot (w prot : Z) : Z := if pte_valid w then Z.lor (pte_addr w) prot else w.

Lemma protect_kimage_spec prot fuel k va e :
  kpt_ok k → (PAGE_SIZE | va) → (PAGE_SIZE | e) → KBASE ≤ va ≤ e → e < U64 → (e - va) / PAGE_SIZE < Z.of_nat fuel →
  (∀ x, va ≤ x < e → ∃ t, l3_at k x t) →
  ∃ k', protect_kimage fuel k va e prot = Some (Ok k') ∧ kpt_ok k' ∧ (∀ x t, l3_at k x t → ∃ t', l3_at k' x t') ∧
    ∀ x, kva x → kpte k' x = if decide (va ≤ x < e) then reprot (kpte k x) prot else kpte k x.
Proof.
  revert k va. induction fuel as [|fuel IH]; intros k va Hk Hdv Hde Hve He Hf Hl; [unfold PAGE_SIZE in *; Z.to_euclidean_division_equations; lia|].
  cbn [protect_kimage]. destruct (Z.ltb_spec va e) as [Hlt|].
  2: { exists k. split; [done|]. split; [done|]. split; [intros x t Ht; by exists t|]. intros x _. by rewrite decide_False by lia. }
  assert (va + PAGE_SIZE ≤ e) as Hstep by by apply page_gap. assert (kva va) as Hva by (unfold kva; lia).
  destruct (Hl va) as [t3 H3]; [lia|]. rewrite (walk_noalloc _ _ _ H3), (get_l3 _ _ _ Hk H3). cbn [entry_word].
  assert (va ⊕ PAGE_SIZE = va + PAGE_SIZE) as -> by (apply add64_small; unfold KBASE, PAGE_OFFSET, PAGE_SIZE in *; lia).
  set (k1 := if pte_valid _ then _ else k).
  assert (kpt_ok k1 ∧ (∀ x t, l3_at k x t → ∃ t', l3_at k1 x t') ∧ ∀ x, kva x → kpte k1 x = if decide (va ≤ x < va + PAGE_SIZE) then reprot (kpte k x) prot else kpte k x) as (O1 & L1 & P1).
  { destruct (store_l3 k va t3 (Z.lor (pte_addr (kpte k va)) prot) Hk H3) as (O & _ & P & L). unfold k1, reprot. destruct (pte_valid (kpte k va)) eqn:Ev.
    - split; [done|]. split; [done|]. intros x Hx. rewrite P. pose proof (in_slot3 x va Hx Hva Hdv) as Hin.
      destruct (decide (same_slot x va)) as [Es|]; [|by rewrite decide_False by tauto]. rewrite decide_True by tauto. by rewrite (kpte_same _ _ _ Es), Ev.
    - split; [done|]. split; [intros x t Ht; by exists t|]. intros x Hx. case_decide as Hd; [|done].
      apply (in_slot3 x va Hx Hva Hdv) in Hd. by rewrite (kpte_same _ _ _ Hd), Ev. }
  destruct (IH k1 (va + PAGE_SIZE) O1) as (k' & -> & O' & L' & P'); [by apply Z.divide_add_r| |unfold PAGE_SIZE in *; lia|done| | |].
  - done.
  - unfold PAGE_SIZE in *. clear -Hf. Z.to_euclidean_division_equations. lia.
  - intros x Hx. destruct (Hl x) as [t Ht]; [unfold PAGE_SIZE in *; lia|]. by apply (L1 _ t).
  - exists k'. split; [done|]. split; [done|]. split; [intros x t [t' Ht']%L1; by apply (L' _ t')|].
    intros x Hx. rewrite P', P1 by done. unfold PAGE_SIZE in *. destruct (decide (va + 4096 ≤ x < e)).
    + rewrite decide_False, decide_True by lia. done.
    + destruct (decide (va ≤ x < va + 4096)); [by rewrite decide_True by lia|by rewrite decide_False by lia].
Qed.

(** *** Translation *)

Lemma pte_addr_nonneg w : 0 ≤ pte_addr w < 2 ^ 48 ∧ (PAGE_SIZE | pte_addr w).
Proof.
  replace (pte_addr w) with (pte_addr (Z.land w (Z.ones 48))); [apply pte_addr_range, Z.land_nonneg; by right|].
  unfold pte_addr. rewrite <-Z.land_assoc. done.
Qed.

Lemma block_low w a lvl i :
  lvl = 1 ∨ lvl = 2 → pte_valid w = true → up_ok lvl w → 0 ≤ i < 512 → split_table w lvl i = Desc a →
  pte_valid a = true ∧ pte_addr a = pte_addr w + i * step_of lvl.
Proof.
  intros Hl Hv [Hu Hb] Hi. destruct (Hb Hv) as [_ Hd]. destruct (split_addr w lvl i Hl Hu Hd Hi) as (E & Hr & _ & Hp). unfold split_table.
  fold (step_of lvl). change (not64 PTE_ADDR_MASK) with ATTR_MASK. intros [= <-]. set (at_ := if lvl =? 2 then _ else _).
  assert (Z.land at_ PTE_ADDR_MASK = 0 ∧ Z.land at_ 1 = Z.land w 1) as [Ha H1].
  { unfold at_. case_match; [rewrite !Z.land_lor_distr_l; change (Z.land PTE_PAGE _) with 0; change (Z.land PTE_PAGE 1) with 0; rewrite !Z.lor_0_r|];
      (split; [apply attr_bits|by apply attr_low]). }
  rewrite lor_addr by done. split; [|done]. unfold pte_valid, has in *. change PTE_VALID with 1 in *. rewrite low_bits by done. by rewrite H1.
Qed.

Lemma low_part x s : 0 ≤ s → Z.land x (bit s - 1) = x `mod` 2 ^ s.
Proof. intros Hs. unfold bit. rewrite Z.shiftl_1_l. change (2 ^ s - 1) with (Z.pred (2 ^ s)). by rewrite <-Z.ones_equiv, Z.land_ones. Qed.

Lemma low_parts x : kva x →
  x `mod` 2 ^ 21 = index x 3 * 2 ^ 12 + x `mod` 2 ^ 12 ∧ x `mod` 2 ^ 30 = index x 2 * 2 ^ 21 + index x 3 * 2 ^ 12 + x `mod` 2 ^ 12.
Proof.
  intros Hx. destruct (index_sum x Hx) as [E Hl]. pose proof (index_range x 1). pose proof (index_range x 2). pose proof (index_range x 3).
  unfold KBASE, PAGE_OFFSET in E. set (l := x `mod` 2 ^ 12) in *. clearbody l. split; symmetry.
  - apply (Z.mod_unique x (2 ^ 21) ((2 ^ 34 - 2 ^ 9 + index x 1) * 512 + index x 2)); lia.
  - apply (Z.mod_unique x (2 ^ 30) (2 ^ 34 - 2 ^ 9 + index x 1)); lia.
Qed.

Lemma kernel_va_to_phys_spec k x :
  kpt_ok k → kva x →
  kernel_va_to_phys k x = Ok (if pte_valid (kpte k x) then pte_addr (kpte k x) + x `mod` PAGE_SIZE else 0).
Proof.
  intros Hk Hx. unfold kernel_va_to_phys, kpte. cbn [va_to_phys]. change (1 + 1) with 2. change (2 + 1) with 3.
  assert (∀ w m, 0 ≤ m < 2 ^ 30 → pte_addr w ⊕ m = pte_addr w + m) as Hadd.
  { intros w m Hm. destruct (pte_addr_nonneg w). apply add64_small; unfold U64; lia. }
  rewrite !low_part by (unfold shift_of; repeat case_match; done). destruct (low_parts x Hx) as [E2 E1]. change PAGE_SIZE with (2 ^ 12).
  pose proof (index_range x 2) as R2. pose proof (index_range x 3) as R3. pose proof (Z.mod_pos_bound x (2 ^ 12) ltac:(lia)).
  pose proof (Hk _ (index_range x 1)) as H1. destruct (swapper_pg_dir k (index x 1)) as [w|t2]; cbn [pte_l1].
  - destruct (pte_valid w) eqn:Ev; [|done]. destruct (proj2 H1 Ev) as [Hb _]. rewrite Hb. cbn [negb orb]. change ((1 =? 3) || true) with true. cbn iota.
    change (2 ^ shift_of 1) with (2 ^ 30). rewrite E1. pose proof (split1_ok w H1 Ev _ R2) as H2.
    destruct (split_table w 1 (index x 2)) as [w2|] eqn:E; [|done]. destruct (block_low w w2 1 _ ltac:(by left) Ev H1 R2 E) as [Ev2 Ea2].
    cbn [pte_l2]. rewrite Ev2. destruct (split_table w2 2 (index x 3)) as [w3|] eqn:E'; [|done].
    destruct (block_low w2 w3 2 _ ltac:(by right) Ev2 H2 R3 E') as [Ev3 Ea3]. cbn [l3_val]. rewrite Ev3, Ea3, Ea2, Hadd by lia.
    change (step_of 1) with (2 ^ 21). change (step_of 2) with (2 ^ 12). f_equal. lia.
  - pose proof (H1 _ R2) as H2. destruct (t2 (index x 2)) as [w2|t3]; cbn [pte_l2].
    + destruct (pte_valid w2) eqn:Ev2; [|done]. destruct (proj2 H2 Ev2) as [Hb _]. rewrite Hb. cbn [negb]. rewrite orb_true_r.
      change (2 ^ shift_of 2) with (2 ^ 21). rewrite E2. destruct (split_table w2 2 (index x 3)) as [w3|] eqn:E'; [|done].
      destruct (block_low w2 w3 2 _ ltac:(by right) Ev2 H2 R3 E') as [Ev3 Ea3]. cbn [l3_val]. rewrite Ev3, Ea3, Hadd by lia.
      change (step_of 2) with (2 ^ 12). f_equal. lia.
    + destruct (H2 _ R3) as [w ->]. cbn [l3_val]. destruct (pte_valid w); [|done]. change (3 =? 3) with true. cbn [negb orb].
      change (2 ^ shift_of 3) with (2 ^ 12). by rewrite Hadd by lia.
Qed.

Section mmu.
Context (text etext srodata erodata end_ : Z).

(** The boot code maps the image with pages. *)
Record image_ok (k : kpt) : Prop := {
  im_order : KIMAGE_VADDR ≤ text ≤ etext ∧ etext ≤ srodata ≤ erodata ∧ erodata ≤ end_ < U64;
  im_aligned a : a ∈ [text; etext; srodata; erodata; end_] → (PAGE_SIZE | a);
  im_pages x : text ≤ x < end_ → ∃ t, l3_at k x t;
}.

Definition kimage_prot (x : Z) : option Z :=
  if decide (text ≤ x < etext) then Some PROT_KERNEL_RX
  else if decide (srodata ≤ x < erodata) then Some PROT_KERNEL_RO
  else if decide (erodata ≤ x < end_) then Some PROT_KERNEL_RW
  else None.

Lemma im_align k : image_ok k → ALIGN_UP end_ PAGE_SIZE = end_.
Proof.
  intros [Ho Ha _]. destruct (Ha end_) as [q Hq]; [set_solver|]. unfold KIMAGE_VADDR, U64, PAGE_SIZE in *.
  apply ALIGN_UP_id; [apply pow2_align_page|unfold U64; lia..|by exists q].
Qed.

Lemma image_frame k k' : (∀ x t, l3_at k x t → ∃ t', l3_at k' x t') → image_ok k → image_ok k'.
Proof. intros H [H1 H2 H3]. split; [done..|]. intros x Hx. destruct (H3 x Hx) as [t Ht]. by apply (H _ t). Qed.

Lemma image_root k k' : same_root k k' (Z.le 256) → image_ok k → image_ok k'.
Proof.
  intros H [H1 H2 H3]. split; [done..|]. intros x Hx. destruct (H3 x Hx) as (t & t2 & E1 & E2). exists t, t2. split; [|done]. rewrite H; [done|].
  unfold kva, KIMAGE_VADDR in *. rewrite index_eq by (unfold kva, KBASE, PAGE_OFFSET; lia). change (bit (shift_of 1)) with (2 ^ 30).
  unfold KBASE, PAGE_OFFSET, U64 in *. Z.to_euclidean_division_equations. lia.
Qed.

(** One call of [protect_kimage] on a part of the image. *)
Lemma protect_part k a b prot :
  kpt_ok k → image_ok k → a ∈ [text; etext; srodata; erodata; end_] → b ∈ [text; etext; srodata; erodata; end_] → a ≤ b →
  ∃ k', protect_kimage (page_count (b - a)) k a b prot = Some (Ok k') ∧ kpt_ok k' ∧ image_ok k' ∧
    ∀ x, kva x → kpte k' x = if decide (a ≤ x < b) then reprot (kpte k x) prot else kpte k x.
Proof.
  intros Hk Him Ha Hb Hab. pose proof Him as [Ho Hal Hp].
  assert (text ≤ a ∧ b ≤ end_) as [Hta Hbe] by (rewrite !elem_of_cons in Ha, Hb; destruct_or!; subst; set_solver by lia).
  destruct (protect_kimage_spec prot (page_count (b - a)) k a b) as (k' & E & O & L & P); [done|by apply Hal|by apply Hal| | | | |].
  - unfold KIMAGE_VADDR, KBASE, PAGE_OFFSET in *. lia.
  - lia.
  - unfold page_count, PAGE_SIZE. Z.to_euclidean_division_equations. lia.
  - intros x Hx. apply Hp. lia.
  - exists k'. split; [done|]. split; [done|]. split; [|done]. by apply (image_frame k).
Qed.

(** The descriptors after [mmu_init]. *)
Definition mmu_pte (k : kpt) (l : list memblock_region) (x : Z) : Z :=
  match kimage_prot x with
  | Some prot => reprot (kpte k x) prot
  | None => if decide (covers l (x - PAGE_OFFSET)) then Z.lor (page_base x - PAGE_OFFSET) PROT_KERNEL_RW else kpte k x
  end.

Lemma bank_covers l pa : Forall bank_ok l → covers l pa → 0 ≤ pa < LINEAR_MAP_SIZE.
Proof. rewrite Forall_forall. intros Hl (r & Hr & Hpa). destruct (Hl r Hr) as ((? & ? & ?) & _ & _ & ?). lia. Qed.

Lemma ram_not_image k l x : image_ok k → Forall bank_ok l → text ≤ x → ¬ covers l (x - PAGE_OFFSET).
Proof.
  intros [Ho _ _] Hl Hx Hc%bank_covers; [|done]. unfold KIMAGE_VADDR, PAGE_OFFSET, LINEAR_MAP_SIZE in *. lia.
Qed.

Lemma ram_desc x prot :
  kva x → x - PAGE_OFFSET < 2 ^ 48 → prot_ok prot → let w := Z.lor (page_base x - PAGE_OFFSET) prot in
  pte_valid w = true ∧ pte_addr w = page_base x - PAGE_OFFSET ∧ ∀ m, Z.land ATTR_MASK m = m → Z.land w m = Z.land prot m.
Proof.
  intros Hx Hlt (Hu & Ha & H3). cbn zeta. assert ((PAGE_SIZE | page_base x - PAGE_OFFSET) ∧ 0 ≤ page_base x - PAGE_OFFSET < 2 ^ 48) as [Hd Hr].
  { split; [apply Z.divide_sub_r; [by exists (x / PAGE_SIZE)|by exists (2 ^ 52 - 2 ^ 27)]|].
    unfold kva, KBASE, PAGE_OFFSET, page_base, PAGE_SIZE in *. Z.to_euclidean_division_equations. lia. }
  split; [|split; [by apply lor_addr|intros m Hm; by apply low_bits]]. unfold pte_valid, has. change PTE_VALID with (Z.land 3 1).
  rewrite low_bits, Z.land_assoc, H3 by done. done.
Qed.

(** No writable page can be executed. *)
Lemma mmu_wx k l x :
  Forall bank_ok l → kva x → is_Some (kimage_prot x) ∨ covers l (x - PAGE_OFFSET) → pte_valid (mmu_pte k l x) = true →
  has (mmu_pte k l x) PTE_RDONLY = true ∨ has (mmu_pte k l x) PTE_PXN = true.
Proof.
  intros Hl Hx Hin. unfold mmu_pte, has.
  assert (∀ w prot m, Z.land ATTR_MASK m = m → pte_valid (reprot w prot) = true → Z.land (reprot w prot) m = Z.land prot m) as Hre.
  { intros w prot m Hm. unfold reprot. destruct (pte_valid w) eqn:E; [|by rewrite E]. intros _. destruct (pte_addr_nonneg w). by apply low_bits. }
  destruct (kimage_prot x) as [prot|] eqn:Ep.
  - intros Hv. rewrite !Hre by done. revert Ep. unfold kimage_prot. repeat case_decide; intros [= <-]; [by left|by left|by right].
  - destruct Hin as [[? ?]|Hc]; [done|]. rewrite decide_True by done. intros _. right. apply bank_covers in Hc; [|done]. unfold LINEAR_MAP_SIZE in Hc.
    destruct (ram_desc x PROT_KERNEL_RW) as (_ & _ & H); [done|lia|done|]. by rewrite H.
Qed.

Lemma linear_translation k k' l pa :
  image_ok k → Forall bank_ok l → kpt_ok k' → (∀ x, kva x → kpte k' x = mmu_pte k l x) → covers l pa → kernel_va_to_phys k' (PAGE_OFFSET + pa) = Ok pa.
Proof.
  intros Him Hl Hk' Hall Hc. pose proof (bank_covers l pa Hl Hc) as Hr. pose proof (kva_linear pa Hr) as Hx. change KBASE with PAGE_OFFSET in Hx.
  rewrite kernel_va_to_phys_spec, Hall by done. set (x := PAGE_OFFSET + pa) in *. assert (x - PAGE_OFFSET = pa) as Ex by (unfold x; lia).
  assert (mmu_pte k l x = Z.lor (page_base x - PAGE_OFFSET) PROT_KERNEL_RW) as ->.
  { unfold mmu_pte, kimage_prot. pose proof (im_order k Him). assert (¬ text ≤ x).
    { intros Hn. by apply (ram_not_image k l x Him Hl Hn); rewrite Ex. }
    rewrite !decide_False by lia. rewrite decide_True by by rewrite Ex. done. }
  destruct (ram_desc x PROT_KERNEL_RW) as (-> & -> & _); [done|unfold LINEAR_MAP_SIZE in Hr; lia|done|]. f_equal.
  unfold page_base. pose proof (Z.div_mod x PAGE_SIZE ltac:(done)). lia.
Qed.

(** C24. [mmu_init] ends without a panic when four table pages per bank of RAM can
    be had, however large the banks are: then every page of RAM is mapped
    writable and not executable at its address of the linear map, the text of
    the image is read-only and executable, its constants are read-only, its
    data are writable and not executable, and no other mapping changes.  The
    translation of a linear address is its physical address.  No page of RAM or
    of the image is both writable and executable (the test of [RDONLY] and
    [PXN]). *)
Theorem mmu_init_correct k mb :
  kpt_ok k → Forall bank_ok (memory mb) → avail k (4 * length (memory mb)) → image_ok k →
  ∃ k', mmu_init k mb text etext srodata erodata end_ = Some (Ok k') ∧ kpt_ok k' ∧
    (∀ x, kva x → kpte k' x = mmu_pte k (memory mb) x) ∧
    (∀ pa, covers (memory mb) pa → kernel_va_to_phys k' (PAGE_OFFSET + pa) = Ok pa) ∧
    (∀ x, kva x → is_Some (kimage_prot x) ∨ covers (memory mb) (x - PAGE_OFFSET) → pte_valid (kpte k' x) = true →
       has (kpte k' x) PTE_RDONLY = true ∨ has (kpte k' x) PTE_PXN = true).
Proof.
  intros Hk Hb Ha Him. destruct (map_ram_spec (memory mb) k 0 Hk Hb) as (k1 & E1 & O1 & R1 & _ & P1); [by rewrite Nat.add_0_r|].
  pose proof (image_root _ _ R1 Him) as I1. pose proof Him as [Ho _ _]. unfold mmu_init. rewrite E1, (im_align k Him).
  destruct (protect_part k1 text etext PROT_KERNEL_RX O1 I1) as (k2 & -> & O2 & I2 & P2); [set_solver..|lia|].
  destruct (protect_part k2 srodata erodata PROT_KERNEL_RO O2 I2) as (k3 & -> & O3 & I3 & P3); [set_solver..|lia|].
  destruct (protect_part k3 erodata end_ PROT_KERNEL_RW O3 I3) as (k4 & -> & O4 & I4 & P4); [set_solver..|lia|].
  assert (∀ x, kva x → kpte k4 x = mmu_pte k (memory mb) x) as Hall.
  { intros x Hx. rewrite P4, P3, P2, P1 by done. unfold mmu_pte, kimage_prot. change KBASE with PAGE_OFFSET.
    destruct (decide (text ≤ x)) as [Ht|]; [|repeat case_decide; done || lia].
    pose proof (ram_not_image k _ x Him Hb Ht) as Hnc. repeat case_decide; done || lia. }
  exists k4. split; [done|]. split; [done|]. split; [done|]. split; [intros pa; by apply (linear_translation k)|].
  intros x Hx Hin. rewrite Hall by done. by apply mmu_wx.
Qed.
End mmu.
End tables.
Arguments kpt : clear implicits.

(** An image of three pages and a bank of a gigabyte and two megabytes. *)
Definition ex_l3 : Z → entry := λ i, if i <? 3 then Desc (Z.lor (0x40000000 + i * 4096) 0x703) else Desc 0.
#[local] Instance ex_source : PageSource pagealloc := buddy_source false.
Definition ex_kpt : kpt pagealloc :=
  Kpt (<[510 := Tbl (<[0 := Tbl ex_l3]> zero_table)]> zero_table) 0 false (PageAlloc zones0 (λ _, Page 0 0 0 0 0 0) 0 0 (λ _, 0)).
Definition ex_bank : memblock := Memblock [Region 0x40000000 0x40200000] [].

Lemma ex_kpt_ok : kpt_ok ex_kpt.
Proof.
  intros i _. unfold ex_kpt. cbn [swapper_pg_dir]. destruct (decide (i = 510)) as [->|]; [rewrite fn_lookup_insert|by rewrite fn_lookup_insert_ne].
  intros j _. destruct (decide (j = 0)) as [->|]; [rewrite fn_lookup_insert|by rewrite fn_lookup_insert_ne]. intros l _. unfold ex_l3. case_match; eauto.
Qed.

Lemma ex_image_ok :
  image_ok 0xffffffff80000000 0xffffffff80001000 0xffffffff80001000 0xffffffff80002000 0xffffffff80003000 ex_kpt.
Proof.
  split; [done| |].
  - intros a Ha. apply Z.mod_divide; [done|]. rewrite !elem_of_cons, elem_of_nil in Ha. by destruct_or!; subst.
  - intros x Hx. assert (kva x) by (unfold kva, KBASE, PAGE_OFFSET, U64; lia). exists ex_l3, (<[0 := Tbl ex_l3]> zero_table).
    assert (index x 1 = 510 ∧ index x 2 = 0) as [-> ->]; [|by rewrite !fn_lookup_insert]. rewrite !index_eq by done.
    change (bit (shift_of 1)) with (2 ^ 30). change (bit (shift_of 2)) with (2 ^ 21). unfold KBASE, PAGE_OFFSET. Z.to_euclidean_division_equations. lia.
Qed.

Lemma ex_bank_ok : Forall bank_ok (memory ex_bank).
Proof. repeat constructor; cbn; try done; apply Z.mod_divide; done. Qed.

Lemma mmu_init_witness :
  ∃ k', mmu_init ex_kpt ex_bank 0xffffffff80000000 0xffffffff80001000 0xffffffff80001000 0xffffffff80002000 0xffffffff80003000 = Some (Ok k') ∧
    kernel_va_to_phys k' 0xffffff8080123456 = Ok 0x80123456 ∧ kpte k' 0xffffff8080123456 = Z.lor 0x80123000 PROT_KERNEL_RW ∧
    kpte k' 0xffffffff80000000 = Z.lor 0x40000000 PROT_KERNEL_RX ∧ kpte k' 0xffffffff80001000 = Z.lor 0x40001000 PROT_KERNEL_RO.
Proof.
  destruct (mmu_init_correct 0xffffffff80000000 0xffffffff80001000 0xffffffff80001000 0xffffffff80002000 0xffffffff80003000 ex_kpt ex_bank)
    as (k' & E & _ & Hp & Ht & _); [exact ex_kpt_ok|exact ex_bank_ok|done|exact ex_image_ok|].
  exists k'. split; [exact E|]. split.
  - apply (Ht 0x80123456). exists (Region 0x40000000 0x40200000). split; [apply list_elem_of_here|cbn; lia].
  - rewrite !Hp by (split; [by apply Z.leb_le|by apply Z.ltb_lt]). split; [|split]; vm_compute; reflexivity.
Defined.
