(* ===== verification/Vmalloc.v ===== *)
(** * Kernel virtual areas: src/mm/vmalloc.c

    The list of areas is a list in address order, the page tables are those of
    [KernelPt], and pages come from any [PageSource].  The nodes of the list
    come from kmalloc; [nodes] says for each coming request whether there is
    one.  The locks and the cache maintenance have no effect on this state. *)

From S2P Require Import Prelude Memblock Buddy BuddyInit PageSource PageTable KernelPt.

Definition VMALLOC_START : Z := 0xffffffc000000000.
Definition VMALLOC_END : Z := 0xffffffff00000000.
Definition PROT_DEVICE : Z :=
  Z.lor PTE_VALID (Z.lor PTE_PAGE (Z.lor (PTE_ATTRINDX MT_DEVICE_nGnRE) (Z.lor PTE_AF (Z.lor PTE_PXN PTE_UXN)))).
Definition PROT_NORMAL_NC : Z :=
  Z.lor PTE_VALID (Z.lor PTE_PAGE (Z.lor (PTE_ATTRINDX MT_NORMAL_NC) (Z.lor PTE_SH_INNER (Z.lor PTE_AF (Z.lor PTE_PXN PTE_UXN))))).

Record vm_area : Type := Area { a_start : Z; a_size : Z; owns_pages : bool }.
#[export] Instance vm_area_eq_dec : EqDecision vm_area.
Proof. solve_decision. Defined.

(** The scan of [va_alloc] from a node on, with the candidate so far: the
    address it ends with and the list with the new area in its place. *)
Fixpoint va_place (l : list vm_area) (cand size : Z) (owns : bool) : Z * list vm_area :=
  match l with
  | [] => (cand, [Area cand size owns])
  | a :: l' =>
      if cand ⊕ size <=? a_start a then (cand, Area cand size owns :: l)
      else let '(c, r) := va_place l' (a_start a ⊕ a_size a) size owns in (c, a :: r)
  end.

Definition va_lookup (l : list vm_area) (start : Z) : option vm_area := List.find (λ a, a_start a =? start) l.

Fixpoint va_remove (l : list vm_area) (start : Z) : list vm_area :=
  match l with
  | [] => []
  | a :: l => if a_start a =? start then l else a :: va_remove l start
  end.

Section vmalloc.
Context {Src : Type} `{!PageSource Src}.

Record vstate : Type := VState { kp : kpt Src; areas : list vm_area; nodes : list bool }.
Definition set_kp (v : vstate) (k : kpt Src) : vstate := VState k (areas v) (nodes v).
Definition set_areas (v : vstate) (l : list vm_area) : vstate := VState (kp v) l (nodes v).
Definition set_pages (k : kpt Src) (s : Src) : kpt Src := Kpt (swapper_pg_dir k) (early_pt_used k) (page_alloc_ready k) s.

Definition va_alloc (v : vstate) (size : Z) (owns : bool) : vstate * Z :=
  let '(ok, nodes) := table_alloc (nodes v) in
  let v := VState (kp v) (areas v) nodes in
  if negb ok then (v, 0)
  else
    let '(cand, l) := va_place (areas v) VMALLOC_START size owns in
    if VMALLOC_END <? cand ⊕ size then (v, 0) else (set_areas v l, cand).

(** A page is unmapped and given back. *)
Definition drop_page (k : kpt Src) (va : Z) (give : Z → bool) : outcome (kpt Src) :=
  let! pa := kernel_va_to_phys k va in
  let! k := unmap_kernel_page k va in
  if give pa then let! s := ps_free (pages k) (Some (phys_to_page pa)) 0 in Ok (set_pages k s) else Ok k.

(** [for (; va < e; va += PAGE_SIZE)] around it. *)
Fixpoint drop_loop (fuel : nat) (k : kpt Src) (va e : Z) (give : Z → bool) : option (outcome (kpt Src)) :=
  match fuel with
  | O => None
  | S fuel =>
      if va <? e then
        match drop_page k va give with Panic => Some Panic | Ok k => drop_loop fuel k (va ⊕ PAGE_SIZE) e give end
      else Some (Ok k)
  end.

(** The loop of [vmap_pages] from offset [off] on, with the undo loop. *)
Fixpoint vmap_loop (fuel : nat) (k : kpt Src) (va off size prot : Z) : option (outcome (kpt Src * bool)) :=
  match fuel with
  | O => None
  | S fuel =>
      if off <? size then
        match ps_alloc (pages k) GFP_ZERO 0 with
        | Panic => Some Panic
        | Ok (s, None) =>
            match drop_loop (page_count off) (set_pages k s) va (va ⊕ off) (λ _, true) with
            | Some (Ok k) => Some (Ok (k, false))
            | Some Panic => Some Panic
            | None => None
            end
        | Ok (s, Some p) =>
            match map_kernel_page (set_pages k s) (va ⊕ off) (page_to_phys p) prot with
            | Panic => Some Panic
            | Ok k => vmap_loop fuel k va (off ⊕ PAGE_SIZE) size prot
            end
        end
      else Some (Ok (k, true))
  end.

Definition vmap_pages (v : vstate) (size prot : Z) : option (outcome (vstate * Z)) :=
  let size := ALIGN_UP size PAGE_SIZE in
  let '(v, base) := va_alloc v (size ⊕ PAGE_SIZE) true in
  if base =? 0 then Some (Ok (v, 0))
  else
    let va := base ⊕ PAGE_SIZE in
    match vmap_loop (page_count size) (kp v) va 0 size prot with
    | Some (Ok (k, true)) => Some (Ok (set_kp v k, va))
    | Some (Ok (k, false)) => Some (Ok (set_areas (set_kp v k) (va_remove (areas v) base), 0))
    | Some Panic => Some Panic
    | None => None
    end.

Definition vmalloc (v : vstate) (size : Z) : option (outcome (vstate * Z)) := vmap_pages v size PROT_KERNEL_RW.

Definition vfree (v : vstate) (ptr : Z) : option (outcome vstate) :=
  if ptr =? 0 then Some (Ok v)
  else
    let base := ptr ⊖ PAGE_SIZE in
    match va_lookup (areas v) base with
    | None => Some Panic
    | Some a =>
        match drop_loop (page_count (a_size a)) (kp v) (base ⊕ PAGE_SIZE) (a_start a ⊕ a_size a) (λ pa, owns_pages a && negb (pa =? 0)) with
        | Some (Ok k) => Some (Ok (set_areas (set_kp v k) (va_remove (areas v) base)))
        | Some Panic => Some Panic
        | None => None
        end
    end.

(** The top of the stack. *)
Definition vmap_stack (v : vstate) (size : Z) : option (outcome (vstate * Z)) :=
  match vmap_pages v size PROT_KERNEL_RW with
  | Some (Ok (v, base)) => Some (Ok (v, if base =? 0 then 0 else base ⊕ ALIGN_UP size PAGE_SIZE))
  | x => x
  end.

Definition vfree_stack (v : vstate) (top size : Z) : option (outcome vstate) :=
  if top =? 0 then Some (Ok v) else vfree v (top ⊖ ALIGN_UP size PAGE_SIZE).

Fixpoint ioremap_loop (fuel : nat) (k : kpt Src) (va pa off len prot : Z) : option (outcome (kpt Src)) :=
  match fuel with
  | O => None
  | S fuel =>
      if off <? len then
        match map_kernel_page k (va ⊕ off) (pa ⊕ off) prot with
        | Panic => Some Panic
        | Ok k => ioremap_loop fuel k va pa (off ⊕ PAGE_SIZE) len prot
        end
      else Some (Ok k)
  end.

Definition ioremap_prot (v : vstate) (pa size prot : Z) : option (outcome (vstate * Z)) :=
  let base_pa := ALIGN_DOWN pa PAGE_SIZE in
  let len := ALIGN_UP (pa ⊕ size) PAGE_SIZE ⊖ base_pa in
  let '(v, base) := va_alloc v (len ⊕ PAGE_SIZE) false in
  if base =? 0 then Some (Ok (v, 0))
  else
    match ioremap_loop (page_count len) (kp v) (base ⊕ PAGE_SIZE) base_pa 0 len prot with
    | Some (Ok k) => Some (Ok (set_kp v k, base ⊕ PAGE_SIZE ⊕ (pa ⊖ base_pa)))
    | Some Panic => Some Panic
    | None => None
    end.

Definition ioremap (v : vstate) (pa size : Z) : option (outcome (vstate * Z)) := ioremap_prot v pa size PROT_DEVICE.

Definition iounmap (v : vstate) (va : Z) : option (outcome vstate) :=
  if va =? 0 then Some (Ok v) else vfree v (ALIGN_DOWN va PAGE_SIZE).

(** [while ((PAGE_SIZE << order) < size) order++] *)
Fixpoint dma_order (n o : nat) (size : Z) : option nat :=
  match n with
  | O => None
  | S n => if wrap64 (Z.shiftl PAGE_SIZE (Z.of_nat o)) <? size then dma_order n (S o) size else Some o
  end.

(** The address and [*dma]. *)
Definition dma_alloc_coherent (v : vstate) (size gfp : Z) : option (outcome (vstate * Z * Z)) :=
  match dma_order 64 0 size with
  | None => None
  | Some o =>
      match ps_alloc (pages (kp v)) (Z.lor gfp GFP_ZERO) o with
      | Panic => Some Panic
      | Ok (s, None) => Some (Ok (set_kp v (set_pages (kp v) s), 0, 0))
      | Ok (s, Some p) =>
          match ioremap_prot (set_kp v (set_pages (kp v) s)) (page_to_phys p) (wrap64 (Z.shiftl PAGE_SIZE (Z.of_nat o))) PROT_NORMAL_NC with
          | Some (Ok (v, va)) =>
              if va =? 0 then
                match ps_free (pages (kp v)) (Some p) o with
                | Ok s => Some (Ok (set_kp v (set_pages (kp v) s), 0, 0))
                | Panic => Some Panic
                end
              else Some (Ok (v, va, page_to_phys p))
          | Some Panic => Some Panic
          | None => None
          end
      end
  end.

Definition dma_free_coherent (v : vstate) (va size : Z) : option (outcome vstate) :=
  if va =? 0 then Some (Ok v)
  else
    match dma_order 64 0 size, kernel_va_to_phys (kp v) va with
    | Some o, Ok pa =>
        match iounmap v va with
        | Some (Ok v) =>
            match ps_free (pages (kp v)) (Some (phys_to_page pa)) o with
            | Ok s => Some (Ok (set_kp v (set_pages (kp v) s)))
            | Panic => Some Panic
            end
        | x => x
        end
    | _, Panic => Some Panic
    | None, _ => None
    end.
End vmalloc.
Arguments vstate : clear implicits.

(** ** The list of areas *)

(** In address order from [lo] on, of whole pages, one at least each. *)
Fixpoint areas_ok (lo : Z) (l : list vm_area) : Prop :=
  match l with
  | [] => lo ≤ VMALLOC_END
  | a :: l => lo ≤ a_start a ∧ (PAGE_SIZE | a_start a) ∧ (PAGE_SIZE | a_size a) ∧ PAGE_SIZE ≤ a_size a ∧ areas_ok (a_start a + a_size a) l
  end.

Definition in_area (a : vm_area) (x : Z) : Prop := a_start a ≤ x < a_start a + a_size a.

(** The size fits at [c] clear of the areas. *)
Definition fits_at (l : list vm_area) (c size : Z) : Prop :=
  c + size ≤ VMALLOC_END ∧ ∀ a, a ∈ l → c + size ≤ a_start a ∨ a_start a + a_size a ≤ c.

Lemma areas_ok_end lo l : areas_ok lo l → lo ≤ VMALLOC_END.
Proof. revert lo. induction l as [|a l IH]; intros lo; [done|]. cbn. intros (? & _ & _ & ? & H%IH). unfold PAGE_SIZE in *. lia. Qed.

Lemma areas_ok_le lo lo' l : lo' ≤ lo → areas_ok lo l → areas_ok lo' l.
Proof. destruct l as [|a l]; cbn; [lia|]. intros ? (? & ?). split; [lia|done]. Qed.

Lemma areas_ok_in lo l a : areas_ok lo l → a ∈ l →
  lo ≤ a_start a ∧ a_start a + a_size a ≤ VMALLOC_END ∧ (PAGE_SIZE | a_start a) ∧ (PAGE_SIZE | a_size a) ∧ PAGE_SIZE ≤ a_size a.
Proof.
  revert lo. induction l as [|b l IH]; intros lo; [by intros _ ?%elem_of_nil|]. cbn. intros (H1 & H2 & H3 & H4 & H5) [->|Hin]%elem_of_cons.
  - split_and!; [done|by apply areas_ok_end in H5|done..].
  - destruct (IH _ H5 Hin) as (? & ? & ? & ? & ?). split_and!; [unfold PAGE_SIZE in *; lia|done..].
Qed.

Lemma areas_ok_disjoint lo l a b x : areas_ok lo l → a ∈ l → b ∈ l → in_area a x → in_area b x → a = b.
Proof.
  revert lo. induction l as [|c l IH]; intros lo; [by intros _ ?%elem_of_nil|]. cbn. intros (H1 & H2 & H3 & H4 & H5) Ha Hb Hax Hbx.
  rewrite elem_of_cons in Ha, Hb. unfold in_area in *. destruct Ha as [->|Ha], Hb as [->|Hb]; [done| | |by apply (IH _ H5)].
  - destruct (areas_ok_in _ _ _ H5 Hb) as (? & _). lia.
  - destruct (areas_ok_in _ _ _ H5 Ha) as (? & _). lia.
Qed.

(** First fit: the lowest address where the size fits. *)
Lemma va_place_spec l lo size owns c r :
  areas_ok lo l → VMALLOC_START ≤ lo → (PAGE_SIZE | lo) → (PAGE_SIZE | size) → PAGE_SIZE ≤ size < U64 - VMALLOC_END → va_place l lo size owns = (c, r) →
  lo ≤ c ≤ VMALLOC_END ∧ (PAGE_SIZE | c) ∧ c ⊕ size = c + size ∧ (∀ a, a ∈ r ↔ a = Area c size owns ∨ a ∈ l) ∧
  (∀ c', lo ≤ c' < c → ¬ fits_at l c' size) ∧ (∀ a, a ∈ l → c + size ≤ a_start a ∨ a_start a + a_size a ≤ c) ∧
  (c + size ≤ VMALLOC_END → areas_ok lo r).
Proof.
  revert lo c r. induction l as [|a l IH]; intros lo c r Hok Hlo Hdl Hds Hs; cbn [va_place].
  - intros [= <- <-]. cbn in Hok. rewrite add64_small by (unfold VMALLOC_START, U64, VMALLOC_END, PAGE_SIZE in *; lia).
    split_and!; [lia..|done|done| | | |].
    + intros a. by rewrite list_elem_of_singleton, elem_of_nil; tauto.
    + lia.
    + by intros a ?%elem_of_nil.
    + intros He. cbn. split_and!; [lia|done|done|lia|lia].
  - pose proof (areas_ok_end _ _ Hok) as Hle. cbn in Hok. destruct Hok as (H1 & H2 & H3 & H4 & H5). pose proof (areas_ok_end _ _ H5).
    assert (∀ y, lo ≤ y ≤ VMALLOC_END → y ⊕ size = y + size) as Hadd.
    { intros y Hy. apply add64_small. unfold VMALLOC_START, U64, VMALLOC_END, PAGE_SIZE in *. lia. }
    rewrite Hadd by lia. case_match eqn:E; zbool.
    + intros [= <- <-]. rewrite Hadd by lia. split_and!; [lia..|done|done| | | |].
      * intros b. rewrite !elem_of_cons. tauto.
      * lia.
      * intros b [->|Hb]%elem_of_cons; [by left|]. left. destruct (areas_ok_in _ _ _ H5 Hb). unfold PAGE_SIZE in *. lia.
      * intros _. cbn. split_and!; [lia|done|done|lia|lia|done..].
    + assert (a_start a ⊕ a_size a = a_start a + a_size a) as ->.
      { apply add64_small. unfold VMALLOC_START, U64, VMALLOC_END, PAGE_SIZE in *. lia. }
      destruct (va_place l _ size owns) as [c1 r1] eqn:Er. intros [= <- <-].
      destruct (IH _ _ _ H5 ltac:(unfold PAGE_SIZE in *; lia) ltac:(by apply Z.divide_add_r) Hds Hs Er) as (I1 & I2 & I3 & I4 & I5 & I6 & I7).
      split_and!; [unfold PAGE_SIZE in *; lia|lia|done|done| | | |].
      * intros b. rewrite !elem_of_cons, I4. tauto.
      * intros c' Hc' [Hf1 Hf2]. destruct (decide (a_start a + a_size a ≤ c')) as [Hd|Hd].
        -- apply (I5 c'); [lia|]. split; [done|]. intros b Hb. apply Hf2. by right.
        -- destruct (Hf2 a ltac:(by left)); lia.
      * intros b [->|Hb]%elem_of_cons; [right; lia|by apply I6].
      * intros He. cbn. split_and!; [done..|]. by apply I7.
Qed.

Lemma areas_ok_start lo l a b : areas_ok lo l → a ∈ l → b ∈ l → a_start a = a_start b → a = b.
Proof.
  intros Hok Ha Hb E. apply (areas_ok_disjoint lo l a b (a_start a)); [done..| |]; unfold in_area;
    [destruct (areas_ok_in _ _ _ Hok Ha) as (_ & _ & _ & _ & H)|destruct (areas_ok_in _ _ _ Hok Hb) as (_ & _ & _ & _ & H)]; unfold PAGE_SIZE in H; lia.
Qed.

Lemma va_lookup_Some l s a : va_lookup l s = Some a → a ∈ l ∧ a_start a = s.
Proof. intros [Hin Ha]%List.find_some. zbool. split; [by apply list_elem_of_In|done]. Qed.

Lemma va_lookup_in lo l a : areas_ok lo l → a ∈ l → va_lookup l (a_start a) = Some a.
Proof.
  intros Hok Ha. destruct (va_lookup l (a_start a)) as [b|] eqn:E.
  - apply va_lookup_Some in E as [Hb Es]. f_equal. by apply (areas_ok_start lo l).
  - apply list_elem_of_In in Ha. pose proof (List.find_none _ _ E _ Ha) as H. cbn in H. zbool. done.
Qed.

Lemma va_remove_spec lo l a :
  areas_ok lo l → a ∈ l → areas_ok lo (va_remove l (a_start a)) ∧ ∀ b, b ∈ va_remove l (a_start a) ↔ b ∈ l ∧ b ≠ a.
Proof.
  revert lo. induction l as [|c l IH]; intros lo Hok Ha; [by apply elem_of_nil in Ha|]. pose proof Hok as (H1 & H2 & H3 & H4 & H5). cbn [va_remove].
  destruct (Z.eqb_spec (a_start c) (a_start a)) as [E|E].
  - assert (c = a) as -> by (by apply (areas_ok_start lo (c :: l)); [done|left|done|]).
    split; [apply (areas_ok_le (a_start a + a_size a)); [unfold PAGE_SIZE in *; lia|done]|].
    intros b. rewrite elem_of_cons. split; [|naive_solver]. intros Hb. split; [by right|]. intros ->.
    destruct (areas_ok_in _ _ _ H5 Hb) as (? & _). unfold PAGE_SIZE in *. lia.
  - apply elem_of_cons in Ha as [->|Ha]; [done|]. destruct (IH _ H5 Ha) as [I1 I2]. split; [by repeat split|].
    intros b. rewrite !elem_of_cons, I2. naive_solver.
Qed.

Lemma va_place_remove l lo size owns c r :
  areas_ok lo l → VMALLOC_START ≤ lo → (PAGE_SIZE | lo) → (PAGE_SIZE | size) → PAGE_SIZE ≤ size < U64 - VMALLOC_END → va_place l lo size owns = (c, r) → va_remove r c = l.
Proof.
  revert lo c r. induction l as [|a l IH]; intros lo c r Hok Hlo Hdl Hds Hs; cbn [va_place]; [intros [= <- <-]; cbn; by rewrite Z.eqb_refl|].
  pose proof (areas_ok_end _ _ Hok) as Hle. destruct Hok as (H1 & H2 & H3 & H4 & H5). pose proof (areas_ok_end _ _ H5).
  case_match eqn:E; [intros [= <- <-]; cbn; by rewrite Z.eqb_refl|].
  assert (a_start a ⊕ a_size a = a_start a + a_size a) as ->.
  { apply add64_small. unfold VMALLOC_START, U64, VMALLOC_END, PAGE_SIZE in *. lia. }
  destruct (va_place l _ size owns) as [c1 r1] eqn:Er. intros [= <- <-]. cbn [va_remove].
  assert (VMALLOC_START ≤ a_start a + a_size a) as Hlo' by (unfold PAGE_SIZE in *; lia). assert (PAGE_SIZE | a_start a + a_size a) as Hd' by by apply Z.divide_add_r.
  destruct (va_place_spec _ _ _ _ _ _ H5 Hlo' Hd' Hds Hs Er) as (Hc & _).
  rewrite (proj2 (Z.eqb_neq _ _)) by (unfold PAGE_SIZE in *; lia). f_equal. by apply (IH _ _ _ H5).
Qed.

(** ** The invariant *)

Section invariant.
Context {Src : Type} `{!PageSource Src} `{!PageSourceLaws Src}.

(** The mapped part of an area: all but its first page, the guard. *)
Definition body (a : vm_area) (x : Z) : Prop := a_start a + PAGE_SIZE ≤ x < a_start a + a_size a.
Definition frame (k : kpt Src) (x : Z) : Z := phys_to_page (pte_addr (kpte k x)).
Definition mapped (k : kpt Src) (x : Z) : Prop := (∃ t, l3_at k x t) ∧ Z.land (kpte k x) 3 = 3.

Record vinv (v : vstate Src) : Prop := {
  vi_kpt : kpt_ok (kp v);
  vi_ready : page_alloc_ready (kp v) = true;
  vi_src : ps_ok (pages (kp v));
  vi_areas : areas_ok VMALLOC_START (areas v);
  (** every page of an area is mapped *)
  vi_body a x : a ∈ areas v → body a x → mapped (kp v) x;
  (** an area that owns its pages maps pages in use, each of them once *)
  vi_owned a x : a ∈ areas v → owns_pages a = true → body a x → ps_used (pages (kp v)) (frame (kp v) x) 0;
  vi_once a b x y : a ∈ areas v → b ∈ areas v → owns_pages a = true → owns_pages b = true → body a x → body b y →
    frame (kp v) x = frame (kp v) y → page_base x = page_base y;
  (** nothing else is mapped here, the guard pages included *)
  vi_rest x : VMALLOC_START ≤ x < VMALLOC_END → (∀ a, a ∈ areas v → ¬ body a x) → kpte (kp v) x = 0;
}.

Lemma vmalloc_kva x : VMALLOC_START ≤ x < VMALLOC_END → kva x.
Proof. unfold kva, KBASE, PAGE_OFFSET, VMALLOC_START, VMALLOC_END, U64. lia. Qed.

Lemma apart_page p q : apart p 0 q 0 ↔ p ≠ q.
Proof. unfold apart. change (bsize 0) with 1. lia. Qed.

(** Table pages only take from the allocator what nobody holds. *)
Lemma grabs_ok s s' : ps_ok s → rtc grab s s' → ps_ok s' ∧ ∀ q o, ps_used s q o → ps_used s' q o.
Proof.
  intros Hs H. revert Hs. induction H as [s|s s1 s' [p Hp] _ IH]; intros Hs; [done|].
  pose proof (ps_alloc_law s GFP_ZERO 0 Hs) as L. rewrite Hp in L. destruct L as (H1 & _ & _ & H2). destruct (IH H1) as [H3 H4].
  split; [done|]. intros q o Hq. by apply H4, H2.
Qed.

(** The descriptor of a page. *)
Lemma page_desc p prot : 0 < p → p + 1 ≤ 2 ^ 26 → prot_ok prot →
  let w := Z.lor (Z.land (page_to_phys p) PTE_ADDR_MASK) prot in Z.land w 3 = 3 ∧ phys_to_page (pte_addr w) = p ∧ pte_valid w = true ∧ w = Z.lor (p * PAGE_SIZE) prot.
Proof.
  intros H0 H1 (Hu & Ha & H3). cbn zeta. unfold page_to_phys, PAGE_SHIFT. rewrite Z.shiftl_mul_pow2 by lia. change (2 ^ 12) with PAGE_SIZE.
  assert ((PAGE_SIZE | p * PAGE_SIZE) ∧ 0 ≤ p * PAGE_SIZE < 2 ^ 48) as [Hd Hr] by (split; [by exists p|unfold PAGE_SIZE; lia]).
  rewrite wrap64_small by (unfold U64, PAGE_SIZE in *; lia). fold (pte_addr (p * PAGE_SIZE)). rewrite addr_fix by done.
  assert (Z.land (Z.lor (p * PAGE_SIZE) prot) 3 = 3) as E by by rewrite low_bits.
  split_and!; [done|rewrite lor_addr by done| |done].
  - unfold phys_to_page, PAGE_SHIFT. rewrite Z.shiftr_div_pow2 by lia. apply Z.div_mul. done.
  - unfold pte_valid, has. change PTE_VALID with (Z.land 3 1). by rewrite Z.land_assoc, E.
Qed.

Lemma mapped_valid k x : mapped k x → pte_valid (kpte k x) = true.
Proof. intros [_ E]. unfold pte_valid, has. change PTE_VALID with (Z.land 3 1). by rewrite Z.land_assoc, E. Qed.

Lemma drop_page_spec k va give :
  kpt_ok k → ps_ok (pages k) → kva va → (PAGE_SIZE | va) → mapped k va →
  let b := give (pte_addr (kpte k va)) in (b = true → ps_used (pages k) (frame k va) 0) →
  ∃ k', drop_page k va give = Ok k' ∧ kpt_ok k' ∧ page_alloc_ready k' = page_alloc_ready k ∧ ps_ok (pages k') ∧
    (∀ x, kpte k' x = if decide (same_slot x va) then 0 else kpte k x) ∧ (∀ x t, l3_at k x t → ∃ t', l3_at k' x t') ∧
    (∀ q o, ps_used (pages k) q o → (b = true → apart (frame k va) 0 q o) → ps_used (pages k') q o) ∧
    ps_count (pages k') = if b then ps_count (pages k) ⊕ 1 else ps_count (pages k).
Proof.
  intros Hk Hs Hva Hd Hm b Hb. pose proof (mapped_valid k va Hm) as Hv. destruct Hm as [[t Ht] H3]. unfold drop_page.
  rewrite kernel_va_to_phys_spec, Hv by done. rewrite (proj2 (Z.mod_divide va PAGE_SIZE ltac:(done)) Hd), Z.add_0_r. cbn [obind].
  destruct (unmap_kernel_page_spec k va t Hk Ht ltac:(by left)) as (k1 & -> & O1 & Ep & Er & P1 & L1). cbn [obind]. fold b.
  destruct b; [|exists k1; rewrite Ep; split_and!; try done; by intros q o Hq _].
  rewrite Ep. destruct (ps_free_law _ _ _ Hs (Hb eq_refl)) as (s' & Ef & Hs' & Hc & Hu). unfold frame in Ef. rewrite Ef. cbn [obind].
  exists (set_pages k1 s'). split_and!; try done. intros q o Hq Ha. apply Hu; [done|]. by apply Ha.
Qed.

Lemma add64_add x m n : x ⊕ m ⊕ n = x ⊕ (m + n).
Proof. unfold add64, wrap64. rewrite Zplus_mod_idemp_l. f_equal. lia. Qed.

Definition dropped (b : bool) (s : Src) (n : Z) : Z := if b then ps_count s ⊕ n else ps_count s.

Lemma drop_loop_spec b give fuel k va e :
  kpt_ok k → ps_ok (pages k) → (PAGE_SIZE | va) → (PAGE_SIZE | e) → VMALLOC_START ≤ va ≤ e → e ≤ VMALLOC_END → (e - va) / PAGE_SIZE < Z.of_nat fuel →
  (∀ x, va ≤ x < e → mapped k x ∧ give (pte_addr (kpte k x)) = b ∧ (b = true → ps_used (pages k) (frame k x) 0)) →
  (b = true → ∀ x y, va ≤ x < e → va ≤ y < e → frame k x = frame k y → page_base x = page_base y) →
  ∃ k', drop_loop fuel k va e give = Some (Ok k') ∧ kpt_ok k' ∧ page_alloc_ready k' = page_alloc_ready k ∧ ps_ok (pages k') ∧
    (∀ x, kva x → kpte k' x = if decide (va ≤ x < e) then 0 else kpte k x) ∧ (∀ x t, l3_at k x t → ∃ t', l3_at k' x t') ∧
    (∀ q o, ps_used (pages k) q o → (b = true → ∀ x, va ≤ x < e → apart (frame k x) 0 q o) → ps_used (pages k') q o) ∧
    ps_count (pages k') = dropped b (pages k) ((e - va) / PAGE_SIZE).
Proof.
  revert k va. induction fuel as [|fuel IH]; intros k va Hk Hs Hdv Hde Hve He Hf Hx Hinj; [unfold PAGE_SIZE in *; Z.to_euclidean_division_equations; lia|].
  cbn [drop_loop]. destruct (Z.ltb_spec va e) as [Hlt|].
  2: { assert (e = va) as -> by lia. exists k. rewrite Z.sub_diag. split; [done|]. split; [done|]. split; [done|]. split; [done|]. split; [|split; [|split]].
    - intros x _. by rewrite decide_False by lia.
    - intros x t Ht. by exists t.
    - by intros q o Hq _.
    - unfold dropped. destruct b; [|done]. pose proof (ps_count_range (pages k)). unfold u64_ok in *. rewrite Z.div_0_l by done. by rewrite add64_small, Z.add_0_r by lia. }
  assert (va + PAGE_SIZE ≤ e) as Hstep by by apply page_gap. assert (∀ x, va ≤ x < e → kva x) as Hkva by (intros x ?; apply vmalloc_kva; lia).
  assert (kva va) as Hva by (apply Hkva; lia). destruct (Hx va ltac:(lia)) as (Hm & Hg & Hu).
  destruct (drop_page_spec k va give Hk Hs Hva Hdv Hm) as (k1 & -> & O1 & R1 & S1 & P1 & L1 & U1 & C1); [by rewrite Hg|]. rewrite Hg in *.
  assert (va ⊕ PAGE_SIZE = va + PAGE_SIZE) as -> by (apply add64_small; unfold VMALLOC_START, VMALLOC_END, U64, PAGE_SIZE in *; lia).
  assert (∀ x, va + PAGE_SIZE ≤ x < e → kpte k1 x = kpte k x) as Hsame.
  { intros x Hr. rewrite P1, decide_False; [done|]. intros Hin. apply in_slot3 in Hin; [lia|apply Hkva; unfold PAGE_SIZE in *; lia|done..]. }
  assert (∀ x, va + PAGE_SIZE ≤ x < e → va ≤ x < e) as Hsub by (unfold PAGE_SIZE; lia).
  destruct (IH k1 (va + PAGE_SIZE) O1 S1) as (k' & -> & O' & R' & S' & P' & L' & U' & C').
  - by apply Z.divide_add_r.
  - done.
  - unfold PAGE_SIZE in *. lia.
  - done.
  - unfold PAGE_SIZE in *. clear -Hf. Z.to_euclidean_division_equations. lia.
  - intros x Hr. destruct (Hx x (Hsub x Hr)) as ([[t Ht] H3] & Hgx & Hux). unfold mapped, frame. rewrite (Hsame x Hr). split_and!; [by apply (L1 _ t)|done..|].
    intros Eb. apply U1; [by apply Hux|]. intros _. apply apart_page. intros E. apply (Hinj Eb) in E; [|lia|by apply Hsub].
    pose proof (slot3 va Hva Hdv). assert (page_base va ≤ va) by lia. clear -E Hr Hdv H. destruct Hdv as [q ->]. unfold page_base, PAGE_SIZE in *. Z.to_euclidean_division_equations. lia.
  - intros Eb x y Hrx Hry. unfold frame. rewrite !Hsame by done. apply (Hinj Eb); by apply Hsub.
  - exists k'. split_and!; [done|done|congruence|done| | | |].
    + intros x Hkx. rewrite P' by done. destruct (decide (va + PAGE_SIZE ≤ x < e)); [by rewrite decide_True by (by apply Hsub)|].
      rewrite P1. pose proof (in_slot3 x va Hkx Hva Hdv) as Hin. destruct (decide (same_slot x va)) as [Hc|Hc]; [apply Hin in Hc; by rewrite decide_True by lia|].
      rewrite decide_False; [done|]. intros ?. apply Hc, Hin. lia.
    + intros x t [t' Ht']%L1. by apply (L' _ t').
    + intros q o Hq Ha. apply U'; [apply U1; [done|intros Eb; apply (Ha Eb); lia]|]. intros Eb x Hr. unfold frame. rewrite (Hsame x Hr). by apply (Ha Eb), Hsub.
    + rewrite C'. unfold dropped. destruct b; [|done]. rewrite C1, add64_add. f_equal. unfold PAGE_SIZE. clear -Hve. Z.to_euclidean_division_equations. lia.
Qed.

Lemma grabs_count s s' : ps_ok s → rtc grab s s' → ∃ t, 0 ≤ t ∧ ps_count s' = ps_count s ⊖ t.
Proof.
  intros Hs H. revert Hs. induction H as [s|s s1 s' [p Hp] _ IH]; intros Hs.
  - exists 0. split; [done|]. pose proof (ps_count_range s). unfold u64_ok in *. by rewrite sub64_small, Z.sub_0_r by lia.
  - pose proof (ps_alloc_law s GFP_ZERO 0 Hs) as L. rewrite Hp in L. destruct L as (H1 & _ & Hc & _). destruct (IH H1) as (t & Ht & ->).
    exists (t + 1). split; [lia|]. rewrite Hc. change (bsize 0) with 1. unfold sub64, wrap64. rewrite Zminus_mod_idemp_l. f_equal. lia.
Qed.

Section loop.
Variables (k0 : kpt Src) (va size prot : Z).
Hypotheses (Hk0 : kpt_ok k0) (Hr0 : page_alloc_ready k0 = true) (Hs0 : ps_ok (pages k0)).
Hypotheses (Hdv : (PAGE_SIZE | va)) (Hds : (PAGE_SIZE | size)) (Hva : VMALLOC_START ≤ va) (Hsz : 0 ≤ size) (Hend : va + size ≤ VMALLOC_END).
Hypothesis (Hprot : prot_ok prot).
Hypothesis (Hempty : ∀ x, va ≤ x < va + size → kpte k0 x = 0).

(** What both ends of the loop have in common: what others hold is left to
    them, and what is gone from the allocator besides [n] pages are tables. *)
Record vkeep (k : kpt Src) (n : Z) : Prop := {
  vk_ok : kpt_ok k;
  vk_ready : page_alloc_ready k = true;
  vk_src : ps_ok (pages k);
  vk_used q o : ps_used (pages k0) q o → ps_used (pages k) q o;
  vk_l3 x t : l3_at k0 x t → ∃ t', l3_at k x t';
  vk_count : ∃ t, 0 ≤ t ∧ ps_count (pages k) = ps_count (pages k0) ⊖ (n + t);
}.

(** The pages up to [off] are mapped, to pages that were free. *)
Record vloop (k : kpt Src) (off : Z) : Prop := {
  vl_keep : vkeep k (off / PAGE_SIZE);
  vl_page x : va ≤ x < va + off → (∃ t, l3_at k x t) ∧ ps_used (pages k) (frame k x) 0 ∧ kpte k x = Z.lor (frame k x * PAGE_SIZE) prot ∧
    ∀ q o, ps_used (pages k0) q o → apart (frame k x) 0 q o;
  vl_once x y : va ≤ x < va + off → va ≤ y < va + off → frame k x = frame k y → page_base x = page_base y;
  vl_rest x : kva x → ¬ va ≤ x < va + off → kpte k x = kpte k0 x;
  vl_avail m : can_alloc (3 * Z.to_nat (off / PAGE_SIZE) + m) (pages k0) → can_alloc m (pages k);
}.

Lemma vloop_start : vloop k0 0.
Proof.
  split; [split; try done| |lia|done|done].
  - intros x t Ht. by exists t.
  - exists 0. split; [done|]. pose proof (ps_count_range (pages k0)). unfold u64_ok in *. change (0 / PAGE_SIZE + 0) with 0. by rewrite sub64_small, Z.sub_0_r by lia.
  - intros x Hx. lia.
Qed.

(** The next page is mapped to a page that was free. *)
Lemma vloop_extend k k' off p w t3 :
  vloop k off → (PAGE_SIZE | off) → 0 ≤ off → va + off + PAGE_SIZE ≤ va + size → w = Z.lor (p * PAGE_SIZE) prot → phys_to_page (pte_addr w) = p →
  kpt_ok k' → page_alloc_ready k' = true → ps_ok (pages k') → ps_used (pages k') p 0 →
  (∀ q o, ps_used (pages k) q o → ps_used (pages k') q o ∧ apart p 0 q o) →
  (∃ t, 0 ≤ t ∧ ps_count (pages k') = ps_count (pages k) ⊖ (1 + t)) → l3_at k' (va + off) t3 → (∀ x t, l3_at k x t → ∃ t', l3_at k' x t') →
  (∀ m, can_alloc (3 + m) (pages k) → can_alloc m (pages k')) →
  (∀ x, kva x → kpte k' x = if decide (va + off ≤ x < va + off + PAGE_SIZE) then w else kpte k x) → vloop k' (off + PAGE_SIZE).
Proof.
  intros [[Hk Hr Hs Hu Hl (t & Ht0 & Hc)] Hp Ho Hrest Hav] Hdo Hoff Hgap Ew Ef Hk' Hr' Hs' Hpu Hothers (t' & Ht' & Hc') Hl3 Hll Hav' Hpte.
  assert ((off + PAGE_SIZE) / PAGE_SIZE = off / PAGE_SIZE + 1) as Ed by (unfold PAGE_SIZE; Z.to_euclidean_division_equations; lia).
  assert (∀ x, va ≤ x < va + off + PAGE_SIZE → kva x) as Hkva by (intros x Hx; apply vmalloc_kva; unfold PAGE_SIZE in *; lia).
  assert (∀ x, va ≤ x < va + off → kpte k' x = kpte k x) as Hold by (intros x Hx; rewrite Hpte, decide_False by (lia || apply Hkva; unfold PAGE_SIZE; lia); done).
  assert (∀ x, va + off ≤ x < va + off + PAGE_SIZE → kpte k' x = w ∧ frame k' x = p ∧ page_base x = va + off) as Hnew.
  { intros x Hx. unfold frame. rewrite Hpte, decide_True by (done || apply Hkva; lia). split_and!; [done..|].
    assert (PAGE_SIZE | va + off) as [q Hq] by by apply Z.divide_add_r. unfold page_base. rewrite Hq in *. unfold PAGE_SIZE in *. Z.to_euclidean_division_equations. lia. }
  assert (∀ x, va ≤ x < va + off → frame k' x = frame k x) as Hfold by (intros x Hx; unfold frame; by rewrite Hold).
  assert (∀ x, va ≤ x < va + (off + PAGE_SIZE) → va ≤ x < va + off ∨ va + off ≤ x < va + off + PAGE_SIZE) as Hcase by lia.
  split; [split|..].
  - done.
  - done.
  - done.
  - intros q o Hq. by apply Hothers, Hu.
  - intros x u [u' Hu']%Hl. by apply (Hll _ u').
  - exists (t + t'). split; [lia|]. rewrite Hc', Hc, Ed. unfold sub64, wrap64. rewrite Zminus_mod_idemp_l. f_equal. lia.
  - intros x [Hx|Hx]%Hcase.
    + destruct (Hp x Hx) as ([u Hu'] & H1 & H2 & H3). rewrite Hfold, Hold by done. split_and!; [by apply (Hll _ u)|by apply Hothers|done..].
    + destruct (Hnew x Hx) as (E1 & E2 & E3). rewrite E1, E2. split_and!; [|done..|intros q o Hq; by apply Hothers, Hu].
      exists t3. assert (same_slot x (va + off)) as (S1 & S2 & _).
      { apply in_slot3; [apply Hkva; lia|apply Hkva; unfold PAGE_SIZE; lia|by apply Z.divide_add_r|done]. }
      unfold l3_at. by rewrite S1, S2.
  - intros x y [Hx|Hx]%Hcase [Hy|Hy]%Hcase E.
    + rewrite !Hfold in E by done. by apply Ho.
    + destruct (Hnew y Hy) as (_ & E2 & _). rewrite E2, Hfold in E by done. destruct (Hp x Hx) as (_ & H1 & _). destruct (Hothers _ _ H1) as [_ Hap]. apply apart_page in Hap. congruence.
    + destruct (Hnew x Hx) as (_ & E2 & _). rewrite E2, Hfold in E by done. destruct (Hp y Hy) as (_ & H1 & _). destruct (Hothers _ _ H1) as [_ Hap]. apply apart_page in Hap. congruence.
    + destruct (Hnew x Hx) as (_ & _ & ->), (Hnew y Hy) as (_ & _ & ->). done.
  - intros x Hx Hn. rewrite Hpte, decide_False by (done || lia). apply Hrest; [done|]. unfold PAGE_SIZE in *. lia.
  - intros m Hm. apply Hav', Hav. eapply can_alloc_le; [|done]. rewrite Ed. assert (0 ≤ off / PAGE_SIZE) by (apply Z.div_pos; done || lia). lia.
Qed.

(** One more page. *)
Lemma vloop_step k off s p :
  vloop k off → (PAGE_SIZE | off) → 0 ≤ off < size → ps_alloc (pages k) GFP_ZERO 0 = Ok (s, Some p) →
  match map_kernel_page (set_pages k s) (va ⊕ off) (page_to_phys p) prot with
  | Ok k' => vloop k' (off + PAGE_SIZE)
  | Panic => ¬ can_alloc (3 * Z.to_nat (off / PAGE_SIZE) + 3) (pages k0)
  end.
Proof.
  intros Hv Hdo Hoff Ha. pose proof Hv as [[Hk Hr Hs Hu Hl Hc] Hp Ho Hrest Hav]. pose proof (ps_alloc_law _ GFP_ZERO 0%nat Hs) as L. rewrite Ha in L. destruct L as (Hs' & Hpu & Hcs & Hothers).
  assert (va ⊕ off = va + off) as -> by (apply add64_small; unfold VMALLOC_START, VMALLOC_END, U64 in *; lia).
  destruct (ps_range _ _ _ Hs' Hpu) as (Hp0 & Hp1 & _). change (bsize 0) with 1 in Hp1. destruct (page_desc p prot Hp0 Hp1 Hprot) as (D3 & Df & Dv & Dw).
  unfold map_kernel_page. set (w := Z.lor _ prot) in *. assert (kpt_ok (set_pages k s)) as Hks by exact Hk.
  destruct (store_page (set_pages k s) (va + off) w Hks) as [(k' & t3 & E & O' & A' & L3 & T' & P')|[E Hn]]; rewrite E.
  2: { intros Hcan. apply Hn. apply (avail_le _ 2); [unfold need; pose proof (need_le (set_pages k s) (va + off)); lia|].
    unfold avail. cbn [page_alloc_ready set_pages pages]. rewrite Hr. apply Hav in Hcan. cbn [can_alloc] in Hcan. by rewrite Ha in Hcan. }
  destruct (walk_store_pages _ _ _ _ _ E) as [Er Hg]. cbn [set_pages page_alloc_ready pages] in Er, Hg. destruct (grabs_ok _ _ Hs' Hg) as [Sk Uk].
  assert (va + off + PAGE_SIZE ≤ va + size) as Hgap by (rewrite <-Z.add_assoc; apply Z.add_le_mono_l, page_gap; done || lia).
  assert (∀ x, va ≤ x < va + off + PAGE_SIZE → kva x) as Hkva by (intros x Hx; apply vmalloc_kva; unfold PAGE_SIZE in *; lia).
  assert (∀ x, kva x → kpte k' x = if decide (va + off ≤ x < va + off + PAGE_SIZE) then w else kpte k x) as Hpte.
  { intros x Hx. rewrite P'. pose proof (in_slot3 x (va + off) Hx ltac:(apply Hkva; unfold PAGE_SIZE; lia) ltac:(by apply Z.divide_add_r)) as Hin.
    destruct (decide (same_slot x (va + off))) as [Hc'|Hc']; [by rewrite decide_True by (by apply Hin)|]. rewrite decide_False; [done|]. intros ?. by apply Hc', Hin. }
  apply (vloop_extend k k' off p w t3); [exact Hv|done|lia|done| |done|done| |done|by apply Uk| | |done| | |done].
  - exact Dw.
  - by rewrite Er.
  - intros q o Hq. destruct (Hothers q o Hq). split; [by apply Uk|done].
  - destruct (grabs_count _ _ Hs' Hg) as (t & Ht & ->). exists t. split; [done|]. rewrite Hcs. change (bsize 0) with 1. unfold sub64, wrap64. rewrite Zminus_mod_idemp_l. f_equal. lia.
  - intros x t Ht. by apply (T' x t).
  - intros m Hm. cbn [can_alloc Nat.add] in Hm. rewrite Ha in Hm. specialize (A' m). unfold avail in A'. rewrite Er in A'. cbn [set_pages page_alloc_ready pages] in A'. rewrite Hr in A'.
    apply A'. eapply (can_alloc_le (2 + m)); [|done]. unfold need. pose proof (need_le (set_pages k s) (va + off)). lia.
Qed.

(** The undo loop. *)
Lemma vloop_undo k off :
  vloop k off → (PAGE_SIZE | off) → 0 ≤ off ≤ size →
  ∃ k', drop_loop (page_count off) (set_pages k (pages k)) va (va ⊕ off) (λ _, true) = Some (Ok k') ∧ vkeep k' 0 ∧ ∀ x, kva x → kpte k' x = kpte k0 x.
Proof.
  intros [[Hk Hr Hs Hu Hl (t & Ht & Hc)] Hp Ho Hrest Hav] Hdo Hoff. assert (set_pages k (pages k) = k) as -> by by destruct k.
  assert (va ⊕ off = va + off) as -> by (apply add64_small; unfold VMALLOC_START, VMALLOC_END, U64 in *; lia).
  destruct (drop_loop_spec true (λ _, true) (page_count off) k va (va + off)) as (k' & -> & O' & R' & S' & P' & L' & U' & C');
    [done|done|done|by apply Z.divide_add_r|lia|lia| | | |].
  - unfold page_count, PAGE_SIZE. clear -Hoff. Z.to_euclidean_division_equations. lia.
  - intros x Hx. destruct (Hp x Hx) as (H1 & H2 & H3 & _). split_and!; [split; [done|]|done..]. rewrite H3. destruct (ps_range _ _ _ Hs H2) as (G1 & G2 & _). change (bsize 0) with 1 in G2.
    destruct (page_desc (frame k x) prot G1 G2 Hprot) as (D & _ & _ & Ew). by rewrite <-Ew.
  - intros _ x y Hx Hy. by apply Ho.
  - exists k'. split; [done|]. split.
    + split; [done|congruence|done| | |].
      * intros q o Hq. apply U'; [by apply Hu|]. intros _ x Hx. by apply (Hp x Hx).
      * intros x u [u' Hu']%Hl. by apply (L' _ u').
      * exists t. split; [done|]. rewrite C'. unfold dropped. rewrite Hc. replace (va + off - va) with off by lia. unfold add64, sub64, wrap64. rewrite Zplus_mod_idemp_l. f_equal. lia.
    + intros x Hx. rewrite P' by done. case_decide as Hd; [symmetry; apply Hempty; lia|by apply Hrest].
Qed.

Lemma vmap_loop_spec fuel k off :
  vloop k off → (PAGE_SIZE | off) → 0 ≤ off ≤ size → (size - off) / PAGE_SIZE < Z.of_nat fuel →
  let need := (3 * Z.to_nat (size / PAGE_SIZE))%nat in
  ∃ r, vmap_loop fuel k va off size prot = Some r ∧
    match r with
    | Ok (k', true) => vloop k' size
    | Ok (k', false) => vkeep k' 0 ∧ (∀ x, kva x → kpte k' x = kpte k0 x) ∧ ¬ can_alloc need (pages k0)
    | Panic => ¬ can_alloc need (pages k0)
    end.
Proof.
  revert k off. induction fuel as [|fuel IH]; intros k off Hv Hdo Hoff Hf need; [unfold PAGE_SIZE in *; Z.to_euclidean_division_equations; lia|].
  cbn [vmap_loop]. destruct (Z.ltb_spec off size) as [Hlt|]; [|assert (off = size) as -> by lia; by eexists].
  assert (off + PAGE_SIZE ≤ size) as Hgap by by apply page_gap.
  assert (∀ m, (m ≤ 3)%nat → (3 * Z.to_nat (off / PAGE_SIZE) + m ≤ need)%nat) as Hneed.
  { intros m Hm. unfold need. unfold PAGE_SIZE in *. clear -Hm Hgap Hoff. Z.to_euclidean_division_equations. lia. }
  pose proof (vk_src _ _ (vl_keep _ _ Hv)) as Hs. pose proof (ps_alloc_law _ GFP_ZERO 0%nat Hs) as L.
  destruct (ps_alloc (pages k) GFP_ZERO 0) as [[s [p|]]|] eqn:Ea; [| |done].
  - pose proof (vloop_step k off s p Hv Hdo ltac:(lia) Ea) as Hstep. destruct (map_kernel_page _ _ _ _) as [k'|].
    + assert (off ⊕ PAGE_SIZE = off + PAGE_SIZE) as -> by (apply add64_small; unfold VMALLOC_START, VMALLOC_END, U64, PAGE_SIZE in *; lia).
      apply IH; [done|by apply Z.divide_add_r|unfold PAGE_SIZE in *; lia|]. unfold PAGE_SIZE in *. clear -Hf. Z.to_euclidean_division_equations. lia.
    + eexists. split; [done|]. cbn. intros Hc. apply Hstep. eapply can_alloc_le; [|done]. by apply Hneed.
  - subst s. destruct (vloop_undo k off Hv Hdo Hoff) as (k' & -> & Hk' & Hp'). eexists. split; [done|]. cbn. split_and!; [done..|].
    intros Hc. pose proof (vl_avail _ _ Hv 1) as Hav. cbn [can_alloc] in Hav. rewrite Ea in Hav. apply Hav. eapply can_alloc_le; [|done]. apply Hneed. lia.
Qed.
End loop.

(** A new area goes to the lowest address where it fits. *)
Record placed (v v' : vstate Src) (base size : Z) (owns : bool) : Prop := {
  pl_range : VMALLOC_START ≤ base ∧ base + size ≤ VMALLOC_END;
  pl_aligned : (PAGE_SIZE | base);
  pl_ok : areas_ok VMALLOC_START (areas v');
  pl_areas a : a ∈ areas v' ↔ a = Area base size owns ∨ a ∈ areas v;
  pl_fits : fits_at (areas v) base size;
  pl_lowest c : VMALLOC_START ≤ c < base → ¬ fits_at (areas v) c size;
  pl_remove : va_remove (areas v') base = areas v;
}.

Definition no_room (v : vstate Src) (size : Z) : Prop :=
  head (nodes v) = Some false ∨ ∀ c, VMALLOC_START ≤ c → ¬ fits_at (areas v) c size.

Lemma va_alloc_spec v size owns v' base :
  areas_ok VMALLOC_START (areas v) → (PAGE_SIZE | size) → PAGE_SIZE ≤ size < U64 - VMALLOC_END → va_alloc v size owns = (v', base) →
  kp v' = kp v ∧ ((base = 0 ∧ areas v' = areas v ∧ no_room v size) ∨ (base ≠ 0 ∧ placed v v' base size owns)).
Proof.
  intros Hok Hd Hs. unfold va_alloc, no_room. destruct (table_alloc (nodes v)) as [ok nd] eqn:En. destruct ok; cbn [negb].
  2: { intros [= <- <-]. split; [done|]. left. split; [done|]. split; [done|]. left. unfold table_alloc in En. destruct (nodes v); [done|]. by injection En as -> ->. }
  cbn [areas]. destruct (va_place (areas v) VMALLOC_START size owns) as [c r] eqn:E. assert (PAGE_SIZE | VMALLOC_START) as Hds by by apply Z.mod_divide.
  destruct (va_place_spec _ _ _ _ _ _ Hok ltac:(done) Hds Hd Hs E) as (I1 & I2 & I3 & I4 & I5 & I6 & I7). rewrite I3.
  destruct (Z.ltb_spec VMALLOC_END (c + size)) as [Hlt|Hle]; intros [= <- <-]; (split; [done|]); [left|right].
  - split; [done|]. split; [done|]. right. intros c' Hc' Hf. destruct (decide (c' < c)); [by apply (I5 c')|]. destruct Hf as [Hf _]. lia.
  - split; [unfold VMALLOC_START in *; lia|]. split; cbn [areas set_areas]; [lia|done|by apply I7|done|done|intros c' Hc'; by apply I5|].
    by apply (va_place_remove _ _ _ _ _ _ Hok ltac:(done) Hds Hd Hs E).
Qed.

(** Bodies of other areas are clear of a new one. *)
Lemma placed_clear v v' base size owns a x :
  placed v v' base size owns → a ∈ areas v → body a x → ¬ base ≤ x < base + size.
Proof. intros [_ _ _ _ [_ Hf] _ _] Ha Hb. destruct (Hf a Ha); unfold body, PAGE_SIZE in *; lia. Qed.

(** The invariant after a new area was filled, by pages of its own or not. *)
Lemma vinv_extend v v' k' base size owns :
  vinv v → placed v v' base size owns → PAGE_SIZE ≤ size → (PAGE_SIZE | size) →
  kpt_ok k' → page_alloc_ready k' = true → ps_ok (pages k') →
  (∀ q o, ps_used (pages (kp v)) q o → ps_used (pages k') q o) → (∀ x t, l3_at (kp v) x t → ∃ t', l3_at k' x t') →
  (∀ x, kva x → ¬ base + PAGE_SIZE ≤ x < base + size → kpte k' x = kpte (kp v) x) →
  (∀ x, base + PAGE_SIZE ≤ x < base + size → mapped k' x) →
  (owns = true → ∀ x, base + PAGE_SIZE ≤ x < base + size → ps_used (pages k') (frame k' x) 0 ∧ ∀ q o, ps_used (pages (kp v)) q o → apart (frame k' x) 0 q o) →
  (owns = true → ∀ x y, base + PAGE_SIZE ≤ x < base + size → base + PAGE_SIZE ≤ y < base + size → frame k' x = frame k' y → page_base x = page_base y) →
  vinv (set_kp v' k').
Proof.
  intros [Ik Ir Is Ia Ib Io Ion Irest] Hpl Hsz Hds Hk' Hr' Hs' Hu Hl Hout Hin Hown Honce. pose proof Hpl as [Pr Pa Pok Pin Pf Plow Prm].
  assert (∀ a x, a ∈ areas v → body a x → kpte k' x = kpte (kp v) x) as Hsame.
  { intros a x Ha Hb. destruct (areas_ok_in _ _ _ Ia Ha) as (? & ? & _). apply Hout; [apply vmalloc_kva; unfold body, PAGE_SIZE in *; lia|].
    pose proof (placed_clear _ _ _ _ _ _ _ Hpl Ha Hb). unfold PAGE_SIZE. lia. }
  assert (∀ a x, a ∈ areas v → body a x → frame k' x = frame (kp v) x) as Hfr by (intros a x Ha Hb; unfold frame; by rewrite (Hsame a x)).
  split; cbn [kp areas set_kp]; [done|done|done|done|..].
  - intros a x [->|Ha]%Pin Hb; [by apply Hin|]. destruct (Ib a x Ha Hb) as [[t Ht] H3]. split; [by apply (Hl _ t)|]. by rewrite (Hsame a x).
  - intros a x [->|Ha]%Pin Ho Hb; [by apply (Hown Ho)|]. rewrite (Hfr a x) by done. by apply Hu, (Io a).
  - intros a b x y [->|Ha]%Pin [->|Hb]%Pin Hoa Hob Hba Hbb E.
    + by apply (Honce Hoa).
    + rewrite (Hfr b y) in E by done. destruct (Hown Hoa x Hba) as [_ Hap]. specialize (Hap _ _ (Io b y Hb Hob Hbb)). apply apart_page in Hap. congruence.
    + rewrite (Hfr a x) in E by done. destruct (Hown Hob y Hbb) as [_ Hap]. specialize (Hap _ _ (Io a x Ha Hoa Hba)). apply apart_page in Hap. congruence.
    + rewrite (Hfr a x), (Hfr b y) in E by done. by apply (Ion a b).
  - intros x Hx Hn. rewrite Hout; [|by apply vmalloc_kva|intros Hb; by apply (Hn (Area base size owns)); [apply Pin; left|]].
    apply Irest; [done|]. intros a Ha. apply Hn, Pin. by right.
Qed.

(** What a request gives when an area is made: the pages of its body. *)
Record filled (v v' : vstate Src) (va n prot : Z) : Prop := {
  fl_placed : placed v v' (va - PAGE_SIZE) (n + PAGE_SIZE) true;
  fl_page x : va ≤ x < va + n →
    kpte (kp v') x = Z.lor (frame (kp v') x * PAGE_SIZE) prot ∧
    kernel_va_to_phys (kp v') x = Ok (frame (kp v') x * PAGE_SIZE + x `mod` PAGE_SIZE) ∧
    ∀ q o, ps_used (pages (kp v)) q o → apart (frame (kp v') x) 0 q o;
  fl_rest x : kva x → ¬ va ≤ x < va + n → kpte (kp v') x = kpte (kp v) x;
}.

(** [n] pages and some tables are gone from the allocator, and none that
    somebody held. *)
Definition consumed (v v' : vstate Src) (n : Z) : Prop :=
  (∀ q o, ps_used (pages (kp v)) q o → ps_used (pages (kp v')) q o) ∧
  ∃ t, 0 ≤ t ∧ ps_count (pages (kp v')) = ps_count (pages (kp v)) ⊖ (n + t).

Lemma consumed_refl v v' : kp v' = kp v → consumed v v' 0.
Proof.
  intros E. unfold consumed. rewrite E. split; [done|]. exists 0. split; [done|]. pose proof (ps_count_range (pages (kp v))). unfold u64_ok in *.
  change (0 + 0) with 0. by rewrite sub64_small, Z.sub_0_r by lia.
Qed.

Lemma vinv_same v v' k :
  vinv v → areas v' = areas v → vkeep (kp v) k 0 → (∀ x, kva x → kpte k x = kpte (kp v) x) → vinv (set_kp v' k).
Proof.
  intros [Ik Ir Is Ia Ib Io Ion Irest] Ea [Ko Kr Ks Ku Kl _] Hp.
  assert (∀ a x, a ∈ areas v → body a x → kva x) as Hkva.
  { intros a x Ha Hb. destruct (areas_ok_in _ _ _ Ia Ha) as (? & ? & _). apply vmalloc_kva. unfold body, PAGE_SIZE in *. lia. }
  assert (∀ a x, a ∈ areas v → body a x → frame k x = frame (kp v) x) as Hfr by (intros a x Ha Hb; unfold frame; by rewrite Hp by by apply (Hkva a)).
  split; cbn [kp areas set_kp]; rewrite ?Ea; [done|done|done|done|..].
  - intros a x Ha Hb. destruct (Ib a x Ha Hb) as [[t Ht] H3]. split; [by apply (Kl _ t)|]. by rewrite Hp by by apply (Hkva a).
  - intros a x Ha Ho Hb. rewrite (Hfr a x) by done. by apply Ku, (Io a).
  - intros a b x y Ha Hb Hoa Hob Hba Hbb. rewrite (Hfr a x), (Hfr b y) by done. by apply (Ion a b).
  - intros x Hx Hn. rewrite Hp by by apply vmalloc_kva. by apply Irest.
Qed.

Lemma vkeep_refl k : kpt_ok k → page_alloc_ready k = true → ps_ok (pages k) → vkeep k k 0.
Proof.
  intros Hk Hr Hs. split; [done..| |].
  - intros x t Ht. by exists t.
  - exists 0. split; [done|]. pose proof (ps_count_range (pages k)). unfold u64_ok in *. change (0 + 0) with 0. by rewrite sub64_small, Z.sub_0_r by lia.
Qed.

(** The area that a complete loop leaves. *)
Lemma filled_ok v v1 k' base n prot :
  vinv v → placed v v1 base (n + PAGE_SIZE) true → prot_ok prot → 0 ≤ n → (PAGE_SIZE | n) → vloop (kp v) (base + PAGE_SIZE) prot k' n →
  vinv (set_kp v1 k') ∧
  (base + PAGE_SIZE = 0 ∧ areas (set_kp v1 k') = areas v ∧ (∀ x, kva x → kpte k' x = kpte (kp v) x) ∧ consumed v (set_kp v1 k') 0 ∧
     (no_room v (n + PAGE_SIZE) ∨ ¬ can_alloc (3 * Z.to_nat (n / PAGE_SIZE)) (pages (kp v))) ∨
   base + PAGE_SIZE ≠ 0 ∧ filled v (set_kp v1 k') (base + PAGE_SIZE) n prot ∧ consumed v (set_kp v1 k') (n / PAGE_SIZE)).
Proof.
  intros Hv Hpl Hp Hn Hdn [[Ko Kr Ks Ku Kl Kc] Hpage Honce Hrest _]. pose proof Hpl as [[P1 P2] _ _ _ _ _ _].
  assert (∀ x, base + PAGE_SIZE ≤ x < base + (n + PAGE_SIZE) → base + PAGE_SIZE ≤ x < base + PAGE_SIZE + n) as Hb by lia.
  assert (∀ x, base + PAGE_SIZE ≤ x < base + PAGE_SIZE + n → mapped k' x ∧ pte_addr (kpte k' x) = frame k' x * PAGE_SIZE) as Hm.
  { intros x Hx. destruct (Hpage x Hx) as (Hl3 & Hu & Hw & _). destruct (ps_range _ _ _ Ks Hu) as (G1 & G2 & _). change (bsize 0) with 1 in G2.
    destruct (page_desc (frame k' x) prot G1 G2 Hp) as (D & _ & _ & Ew). unfold mapped. rewrite Hw, <-Ew. split; [done|]. rewrite Ew. destruct Hp as (_ & Ha & _).
    apply lor_addr; [by exists (frame k' x)|unfold PAGE_SIZE in *; lia|done]. }
  split; [apply (vinv_extend v v1 k' base (n + PAGE_SIZE) true); try done|right].
  - unfold PAGE_SIZE. lia.
  - by apply Z.divide_add_r.
  - intros x Hx Hnx. apply Hrest; [done|]. lia.
  - intros x Hx%Hb. by apply Hm.
  - intros _ x Hx%Hb. by destruct (Hpage x Hx) as (_ & ? & _ & ?).
  - intros _ x y Hx%Hb Hy%Hb. by apply Honce.
  - split; [unfold VMALLOC_START, PAGE_SIZE in *; lia|]. split; [|by split]. split; cbn [kp areas set_kp].
    + replace (base + PAGE_SIZE - PAGE_SIZE) with base by lia. by destruct Hpl.
    + intros x Hx. destruct (Hpage x Hx) as (_ & _ & Hw & Hap). destruct (Hm x Hx) as [Hmx Ha]. split_and!; [done| |done].
      rewrite kernel_va_to_phys_spec, (mapped_valid _ _ Hmx), Ha; [done|done|]. apply vmalloc_kva. unfold PAGE_SIZE in *. lia.
    + intros x Hx Hnx. by apply Hrest.
Qed.

Lemma vmap_pages_spec v size prot :
  vinv v → prot_ok prot → 0 ≤ size → size + 2 * PAGE_SIZE ≤ U64 - VMALLOC_END →
  let n := ALIGN_UP size PAGE_SIZE in let need := (3 * Z.to_nat (n / PAGE_SIZE))%nat in
  ∃ r, vmap_pages v size prot = Some r ∧
    match r with
    | Panic => ¬ can_alloc need (pages (kp v))
    | Ok (v', va) =>
        vinv v' ∧
        (va = 0 ∧ areas v' = areas v ∧ (∀ x, kva x → kpte (kp v') x = kpte (kp v) x) ∧ consumed v v' 0 ∧
           (no_room v (n + PAGE_SIZE) ∨ ¬ can_alloc need (pages (kp v))) ∨
         va ≠ 0 ∧ filled v v' va n prot ∧ consumed v v' (n / PAGE_SIZE))
    end.
Proof.
  intros Hv Hp Hs0 Hs1 n need. destruct (ALIGN_UP_spec size PAGE_SIZE) as [Hdn Hn].
  { auto with olux. } { done. } { unfold U64, VMALLOC_END, PAGE_SIZE in *. lia. }
  fold n in Hdn, Hn. unfold vmap_pages. fold n. pose proof Hv as [Ik Ir Is Ia Ib Io Ion Irest].
  assert (n ⊕ PAGE_SIZE = n + PAGE_SIZE) as -> by (apply add64_small; unfold U64, VMALLOC_END, PAGE_SIZE in *; lia).
  destruct (va_alloc v (n + PAGE_SIZE) true) as [v1 base] eqn:Ea.
  assert (PAGE_SIZE | n + PAGE_SIZE) as Hdn' by (by apply Z.divide_add_r).
  destruct (va_alloc_spec _ _ _ _ _ Ia Hdn' ltac:(unfold U64, VMALLOC_END, PAGE_SIZE in *; lia) Ea) as [Ek [(-> & Ear & Hno)|(Hb & Hpl)]].
  - eexists. split; [done|]. assert (v1 = set_kp v1 (kp v)) as -> by (destruct v1; by cbn in Ek; subst).
    split; [apply (vinv_same v); [done|done|by apply vkeep_refl|done]|]. left. split_and!; [done|done|done|by apply consumed_refl|by left].
  - rewrite (proj2 (Z.eqb_neq _ _) Hb). pose proof Hpl as [[P1 P2] Pa _ _ _ _ Prm].
    assert (base ⊕ PAGE_SIZE = base + PAGE_SIZE) as -> by (apply add64_small; unfold VMALLOC_START, U64, VMALLOC_END, PAGE_SIZE in *; lia).
    set (va := base + PAGE_SIZE) in *. assert (∀ x, va ≤ x < va + n → kpte (kp v) x = 0) as Hempty.
    { intros x Hx. apply Irest; [unfold va, PAGE_SIZE in *; lia|]. intros a Ha Hbd. apply (placed_clear _ _ _ _ _ _ _ Hpl Ha Hbd). unfold va, PAGE_SIZE in *. lia. }
    rewrite Ek. destruct (vmap_loop_spec (kp v) va n prot ltac:(by apply Z.divide_add_r) Hdn ltac:(unfold va, PAGE_SIZE in *; lia)
      ltac:(unfold va, PAGE_SIZE in *; lia) Hp Hempty (page_count n) (kp v) 0) as (r & -> & Hr).
    + by apply vloop_start.
    + by exists 0.
    + unfold va, PAGE_SIZE in *. lia.
    + unfold page_count, PAGE_SIZE. Z.to_euclidean_division_equations. lia.
    + destruct r as [[k' []]|]; eexists; (split; [done|]).
      * apply (filled_ok v v1 k' base n prot); [done|done|done|lia|done|done].
      * destruct Hr as (Hkeep & Hsame & Hcan). assert (set_areas (set_kp v1 k') (va_remove (areas v1) base) = set_kp (set_areas v1 (areas v)) k') as ->
          by (by rewrite Prm). split; [by apply (vinv_same v)|]. left. split_and!; [done|done|done|split; [apply Hkeep|apply Hkeep]|by right].
      * done.
Qed.

#[local] Instance body_dec a x : Decision (body a x) := _.

(** What [vfree] of an area leaves. *)
Record unmapped (v v' : vstate Src) (a : vm_area) : Prop := {
  um_areas b : b ∈ areas v' ↔ b ∈ areas v ∧ b ≠ a;
  um_pte x : kva x → kpte (kp v') x = if decide (body a x) then 0 else kpte (kp v) x;
  um_used q o : ps_used (pages (kp v)) q o → (owns_pages a = true → ∀ x, body a x → apart (frame (kp v) x) 0 q o) → ps_used (pages (kp v')) q o;
  um_count : ps_count (pages (kp v')) = dropped (owns_pages a) (pages (kp v)) ((a_size a - PAGE_SIZE) / PAGE_SIZE);
}.

Lemma vinv_remove v k' l a :
  vinv v → a ∈ areas v → areas_ok VMALLOC_START l → (∀ b, b ∈ l ↔ b ∈ areas v ∧ b ≠ a) →
  kpt_ok k' → page_alloc_ready k' = true → ps_ok (pages k') → (∀ x t, l3_at (kp v) x t → ∃ t', l3_at k' x t') →
  (∀ x, kva x → kpte k' x = if decide (body a x) then 0 else kpte (kp v) x) →
  (∀ q o, ps_used (pages (kp v)) q o → (owns_pages a = true → ∀ x, body a x → apart (frame (kp v) x) 0 q o) → ps_used (pages k') q o) →
  vinv (VState k' l (nodes v)).
Proof.
  intros [Ik Ir Is Ia Ib Io Ion Irest] Ha Hl Hin Hk' Hr' Hs' Hll Hp Hu.
  assert (∀ b x, b ∈ areas v → b ≠ a → body b x → ¬ body a x ∧ kva x) as Hout.
  { intros b x Hb Hne Hbx. destruct (areas_ok_in _ _ _ Ia Hb) as (? & ? & _). split; [|apply vmalloc_kva; unfold body, PAGE_SIZE in *; lia].
    intros Hax. apply Hne. apply (areas_ok_disjoint _ _ _ _ x Ia); [done..| |]; unfold body, in_area, PAGE_SIZE in *; lia. }
  assert (∀ b x, b ∈ areas v → b ≠ a → body b x → kpte k' x = kpte (kp v) x) as Hsame.
  { intros b x Hb Hne Hbx. destruct (Hout b x Hb Hne Hbx). by rewrite Hp, decide_False. }
  split; cbn [kp areas]; [done..| | | |].
  - intros b x [Hb Hne]%Hin Hbx. destruct (Ib b x Hb Hbx) as [[t Ht] H3]. split; [by apply (Hll _ t)|]. by rewrite (Hsame b x).
  - intros b x [Hb Hne]%Hin Ho Hbx. unfold frame. rewrite (Hsame b x) by done. apply Hu; [by apply (Io b)|]. intros Hoa y Hy. apply apart_page. intros E.
    apply (Ion a b y x Ha Hb Hoa Ho Hy Hbx) in E. destruct (Hout b x Hb Hne Hbx) as [Hnx _]. apply Hnx.
    destruct (areas_ok_in _ _ _ Ia Ha) as (_ & _ & [q1 D1] & [q2 D2] & _). unfold body, page_base, PAGE_SIZE in *. rewrite D1, D2 in *. clear -E Hy. Z.to_euclidean_division_equations. lia.
  - intros b c x y [Hb Hnb]%Hin [Hc Hnc]%Hin Hob Hoc Hbx Hcy. unfold frame. rewrite (Hsame b x), (Hsame c y) by done. by apply (Ion b c).
  - intros x Hx Hn. rewrite Hp by by apply vmalloc_kva. case_decide as Hd; [done|]. apply Irest; [done|]. intros b Hb Hbx.
    destruct (decide (b = a)) as [->|]; [done|]. apply (Hn b); [by apply Hin|done].
Qed.

Lemma vfree_spec v a :
  vinv v → a ∈ areas v → ∃ v', vfree v (a_start a + PAGE_SIZE) = Some (Ok v') ∧ vinv v' ∧ unmapped v v' a.
Proof.
  intros Hv Ha. pose proof Hv as [Ik Ir Is Ia Ib Io Ion Irest]. destruct (areas_ok_in _ _ _ Ia Ha) as (B1 & B2 & B3 & B4 & B5). unfold vfree.
  rewrite (proj2 (Z.eqb_neq _ _)) by (unfold VMALLOC_START, PAGE_SIZE in *; lia).
  assert (a_start a + PAGE_SIZE ⊖ PAGE_SIZE = a_start a) as -> by (rewrite sub64_small; unfold VMALLOC_START, VMALLOC_END, U64, PAGE_SIZE in *; lia).
  rewrite (va_lookup_in _ _ _ Ia Ha). rewrite !add64_small by (unfold VMALLOC_START, VMALLOC_END, U64, PAGE_SIZE in *; lia).
  destruct (drop_loop_spec (owns_pages a) (λ pa, owns_pages a && negb (pa =? 0)) (page_count (a_size a)) (kp v) (a_start a + PAGE_SIZE) (a_start a + a_size a))
    as (k' & -> & O' & R' & S' & P' & L' & U' & C'); [done|done|by apply Z.divide_add_r|by apply Z.divide_add_r|unfold PAGE_SIZE in *; lia|done| | | |].
  - unfold page_count, PAGE_SIZE. clear. Z.to_euclidean_division_equations. lia.
  - intros x Hx. split; [by apply (Ib a)|]. destruct (owns_pages a) eqn:Eo; [|done]. cbn [andb]. pose proof (Io a x Ha Eo Hx) as Hu. split; [|done].
    destruct (ps_range _ _ _ Is Hu) as [G1 _]. apply negb_true_iff, Z.eqb_neq. intros E. unfold frame in G1. rewrite E in G1. done.
  - intros Eo x y Hx Hy. by apply (Ion a a).
  - eexists. split; [done|]. destruct (va_remove_spec _ _ _ Ia Ha) as [Rok Rin]. split.
    + apply (vinv_remove v k' _ a); [done..|congruence|done|done| |done]. intros x Hx. by apply P'.
    + split; cbn [kp areas set_areas set_kp]; [done| |done|].
      * intros x Hx. by apply P'.
      * rewrite C'. f_equal. f_equal. lia.
Qed.

(** *** Device memory *)

Section ioloop.
Variables (k0 : kpt Src) (va pa len prot : Z).
Hypotheses (Hdv : (PAGE_SIZE | va)) (Hds : (PAGE_SIZE | len)) (Hdp : (PAGE_SIZE | pa)) (Hva : VMALLOC_START ≤ va) (Hend : va + len ≤ VMALLOC_END).
Hypotheses (Hprot : prot_ok prot) (Hpa : 0 ≤ pa) (Hpe : pa + len ≤ 2 ^ 48).

Record ioloop (k : kpt Src) (off : Z) : Prop := {
  il_keep : vkeep k0 k 0;
  il_page x : va ≤ x < va + off → (∃ t, l3_at k x t) ∧ kpte k x = Z.lor (pa + (page_base x - va)) prot;
  il_rest x : kva x → ¬ va ≤ x < va + off → kpte k x = kpte k0 x;
  il_avail m : can_alloc (2 * Z.to_nat (off / PAGE_SIZE) + m) (pages k0) → can_alloc m (pages k);
}.

Lemma ioloop_step k off :
  ioloop k off → (PAGE_SIZE | off) → 0 ≤ off < len →
  match map_kernel_page k (va ⊕ off) (pa ⊕ off) prot with
  | Ok k' => ioloop k' (off + PAGE_SIZE)
  | Panic => ¬ can_alloc (2 * Z.to_nat (off / PAGE_SIZE) + 2) (pages k0)
  end.
Proof.
  intros [[Hk Hr Hs Hu Hl (t0 & Ht0 & Hc)] Hp Hrest Hav] Hdo Hoff.
  assert (va ⊕ off = va + off ∧ pa ⊕ off = pa + off) as [-> ->] by (split; apply add64_small; unfold VMALLOC_START, VMALLOC_END, U64 in *; lia).
  assert (off + PAGE_SIZE ≤ len) as Hgap by (apply page_gap; done || lia). unfold map_kernel_page. fold (pte_addr (pa + off)).
  rewrite addr_fix by (lia || by apply Z.divide_add_r). pose proof (need_le k (va + off)) as Hn2.
  destruct (store_page k (va + off) (Z.lor (pa + off) prot) Hk) as [(k' & t3 & E & O' & A' & L3 & T' & P')|[E Hn]]; rewrite E.
  2: { intros Hcan. apply Hn. apply (avail_le _ 2); [unfold need; lia|]. unfold avail. rewrite Hr. by apply Hav. }
  destruct (walk_store_pages _ _ _ _ _ E) as [Er Hg]. destruct (grabs_ok _ _ Hs Hg) as [Sk Uk]. destruct (grabs_count _ _ Hs Hg) as (t & Ht & Hct).
  assert (∀ x, va ≤ x < va + off + PAGE_SIZE → kva x) as Hkva by (intros x Hx; apply vmalloc_kva; unfold PAGE_SIZE in *; lia).
  assert (kva (va + off)) as Hkvo by (apply Hkva; unfold PAGE_SIZE; lia). assert (PAGE_SIZE | va + off) as Hdvo by by apply Z.divide_add_r.
  assert (∀ x, kva x → same_slot x (va + off) ↔ va + off ≤ x < va + off + PAGE_SIZE) as Hin by (intros x Hx; by apply in_slot3).
  split; [split| | |].
  - done.
  - by rewrite Er.
  - done.
  - intros q o Hq. by apply Uk, Hu.
  - intros x u [u' Hu']%Hl. by apply (T' _ u').
  - exists (t0 + t). split; [lia|]. rewrite Hct, Hc. unfold sub64, wrap64. rewrite Zminus_mod_idemp_l. f_equal. lia.
  - intros x Hx. assert (kva x) as Hkx by (apply Hkva; lia). rewrite P'. case_decide as Hd.
    + pose proof Hd as (S1 & S2 & _). apply (same_slot_eq x _ Hkx Hkvo) in Hd. rewrite <-(slot3 (va + off)) in Hd by done.
      split; [exists t3; unfold l3_at; by rewrite S1, S2|]. f_equal. lia.
    + destruct (Hp x) as [[u Hu'] Hw]; [|split; [by apply (T' _ u)|done]]. rewrite (Hin x Hkx) in Hd. lia.
  - intros x Hx Hnx. rewrite P', decide_False; [|rewrite (Hin x Hx); lia]. apply Hrest; [done|]. unfold PAGE_SIZE in *. lia.
  - intros m Hm. specialize (A' m). unfold avail in A'. rewrite Er, Hr in A'. apply A'. eapply (can_alloc_le (2 + m)); [unfold need; lia|]. apply Hav. eapply can_alloc_le; [|done].
    assert ((off + PAGE_SIZE) / PAGE_SIZE = off / PAGE_SIZE + 1) as -> by (unfold PAGE_SIZE; clear; Z.to_euclidean_division_equations; lia).
    assert (0 ≤ off / PAGE_SIZE) by (apply Z.div_pos; done || lia). lia.
Qed.

Lemma ioremap_loop_spec fuel k off :
  ioloop k off → (PAGE_SIZE | off) → 0 ≤ off ≤ len → (len - off) / PAGE_SIZE < Z.of_nat fuel →
  ∃ r, ioremap_loop fuel k va pa off len prot = Some r ∧
    match r with Ok k' => ioloop k' len | Panic => ¬ can_alloc (2 * Z.to_nat (len / PAGE_SIZE)) (pages k0) end.
Proof.
  revert k off. induction fuel as [|fuel IH]; intros k off Hv Hdo Hoff Hf; [unfold PAGE_SIZE in *; Z.to_euclidean_division_equations; lia|].
  cbn [ioremap_loop]. destruct (Z.ltb_spec off len) as [Hlt|]; [|assert (off = len) as -> by lia; by eexists].
  assert (off + PAGE_SIZE ≤ len) as Hgap by by apply page_gap. pose proof (ioloop_step k off Hv Hdo ltac:(lia)) as Hstep. destruct (map_kernel_page _ _ _ _) as [k'|].
  - assert (off ⊕ PAGE_SIZE = off + PAGE_SIZE) as -> by (apply add64_small; unfold VMALLOC_START, VMALLOC_END, U64, PAGE_SIZE in *; lia).
    apply IH; [done|by apply Z.divide_add_r|unfold PAGE_SIZE in *; lia|]. unfold PAGE_SIZE in *. clear -Hf. Z.to_euclidean_division_equations. lia.
  - eexists. split; [done|]. cbn. intros Hc. apply Hstep. eapply can_alloc_le; [|done]. unfold PAGE_SIZE in *. clear -Hgap Hoff. Z.to_euclidean_division_equations. lia.
Qed.
End ioloop.

(** The window of device memory that [ioremap_prot] makes. *)
Record io_mapped (v v' : vstate Src) (va pa size prot : Z) : Prop := {
  io_placed : placed v v' (va - pa `mod` PAGE_SIZE - PAGE_SIZE) (ALIGN_UP (pa + size) PAGE_SIZE - ALIGN_DOWN pa PAGE_SIZE + PAGE_SIZE) false;
  io_phys i : 0 ≤ i < size → kernel_va_to_phys (kp v') (va + i) = Ok (pa + i);
  io_pte x : va - pa `mod` PAGE_SIZE ≤ x < va + size → kpte (kp v') x = Z.lor (ALIGN_DOWN pa PAGE_SIZE + (page_base x - (va - pa `mod` PAGE_SIZE))) prot;
  io_rest x : kva x → ¬ va - pa `mod` PAGE_SIZE ≤ x < va - pa `mod` PAGE_SIZE + (ALIGN_UP (pa + size) PAGE_SIZE - ALIGN_DOWN pa PAGE_SIZE) →
    kpte (kp v') x = kpte (kp v) x;
}.

Lemma io_window pa size :
  0 ≤ pa → 0 ≤ size → pa + size + PAGE_SIZE ≤ 2 ^ 48 →
  let lo := ALIGN_DOWN pa PAGE_SIZE in let hi := ALIGN_UP (pa + size) PAGE_SIZE in
  (PAGE_SIZE | lo) ∧ (PAGE_SIZE | hi) ∧ lo = pa - pa `mod` PAGE_SIZE ∧ pa + size ≤ hi ≤ pa + size + (PAGE_SIZE - 1) ∧ 0 ≤ lo ≤ pa ∧ 0 ≤ pa `mod` PAGE_SIZE < PAGE_SIZE.
Proof.
  intros H0 H1 H2. cbn zeta. destruct (ALIGN_UP_spec (pa + size) PAGE_SIZE) as [U1 U2]; [auto with olux|lia|unfold PAGE_SIZE, U64 in *; lia|].
  rewrite ALIGN_DOWN_div by (auto with olux || unfold u64_ok, U64, PAGE_SIZE in *; lia). pose proof (Z.mod_pos_bound pa PAGE_SIZE ltac:(done)) as Hm.
  pose proof (Z.div_mod pa PAGE_SIZE ltac:(done)). split_and!; [by exists (pa / PAGE_SIZE)|done|lia|lia|lia| |lia|lia|lia].
  apply Z.mul_nonneg_nonneg; [apply Z.div_pos; done|done].
Qed.

Lemma ioloop_start k va pa prot : kpt_ok k → page_alloc_ready k = true → ps_ok (pages k) → ioloop k va pa prot k 0.
Proof. intros Hk Hr Hs. split; [by apply vkeep_refl|lia|done|done]. Qed.

Lemma io_filled v v1 k' base pa size prot :
  vinv v → prot_ok prot → 0 ≤ pa → 0 ≤ size → pa + size + PAGE_SIZE ≤ 2 ^ 48 →
  let len := ALIGN_UP (pa + size) PAGE_SIZE - ALIGN_DOWN pa PAGE_SIZE in
  placed v v1 base (len + PAGE_SIZE) false → ioloop (kp v) (base + PAGE_SIZE) (ALIGN_DOWN pa PAGE_SIZE) prot k' len →
  vinv (set_kp v1 k') ∧ io_mapped v (set_kp v1 k') (base + PAGE_SIZE + pa `mod` PAGE_SIZE) pa size prot.
Proof.
  intros Hv Hp Hpa0 Hs0 Hpe len Hpl [[Ko Kr Ks Ku Kl Kc] Hpage Hrest _]. destruct (io_window pa size) as (D1 & D2 & Elo & Ehi & Hlo & Hm); [done..|].
  set (lo := ALIGN_DOWN pa PAGE_SIZE) in *. pose proof Hpl as [[P1 P2] Pa _ _ _ _ _]. set (w := base + PAGE_SIZE) in *.
  assert (PAGE_SIZE | len) as Hdl by by apply Z.divide_sub_r. assert (PAGE_SIZE | w) as Hdw by by apply Z.divide_add_r.
  assert (∀ x, base + PAGE_SIZE ≤ x < base + (len + PAGE_SIZE) → w ≤ x < w + len) as Hb by (unfold w; lia).
  assert (∀ x, w ≤ x < w + len → kva x) as Hkva by (intros x Hx; apply vmalloc_kva; unfold w, PAGE_SIZE in *; lia).
  assert (∀ x, w ≤ x < w + len → mapped k' x ∧ pte_addr (kpte k' x) = lo + (page_base x - w)) as Hmap.
  { intros x Hx. destruct (Hpage x Hx) as [Hl3 Hw]. unfold mapped. rewrite Hw.
    assert ((PAGE_SIZE | lo + (page_base x - w)) ∧ 0 ≤ lo + (page_base x - w) < 2 ^ 48) as [Hd Hr].
    { split; [apply Z.divide_add_r; [done|]; apply Z.divide_sub_r; [by exists (x / PAGE_SIZE)|done]|].
      destruct Hdw as [q Hq]. unfold page_base, len in *. rewrite Hq in *. unfold PAGE_SIZE in *. clear -Hx Hlo Ehi Hpe. Z.to_euclidean_division_equations. lia. }
    destruct Hp as (_ & Ha & H3). split; [split; [done|]; by rewrite low_bits|by apply lor_addr]. }
  split; [apply (vinv_extend v v1 k' base (len + PAGE_SIZE) false); try done|].
  - unfold len, PAGE_SIZE in *. lia.
  - by apply Z.divide_add_r.
  - intros x Hx Hnx. apply Hrest; [done|]. unfold w in *. lia.
  - intros x Hx%Hb. by apply Hmap.
  - split; cbn [kp areas set_kp]; fold lo; fold len; rewrite ?Z.add_simpl_r.
    + replace (w - PAGE_SIZE) with base by (unfold w; lia). by destruct Hpl.
    + intros i Hi. assert (w ≤ w + pa `mod` PAGE_SIZE + i < w + len) as Hx by (unfold len; lia). destruct (Hmap _ Hx) as [Hmx Ha].
      rewrite kernel_va_to_phys_spec, (mapped_valid _ _ Hmx), Ha by (done || by apply Hkva). f_equal.
      unfold page_base. pose proof (Z.div_mod (w + pa `mod` PAGE_SIZE + i) PAGE_SIZE ltac:(done)). lia.
    + intros x Hx. apply Hpage. unfold len. lia.
    + intros x Hx Hnx. by apply Hrest.
Qed.

Lemma ioremap_prot_spec v pa size prot :
  vinv v → prot_ok prot → 0 ≤ pa → 0 ≤ size → pa + size + PAGE_SIZE ≤ 2 ^ 48 → size + 4 * PAGE_SIZE ≤ U64 - VMALLOC_END →
  let len := ALIGN_UP (pa + size) PAGE_SIZE - ALIGN_DOWN pa PAGE_SIZE in
  ∃ r, ioremap_prot v pa size prot = Some r ∧
    match r with
    | Panic => ¬ can_alloc (2 * Z.to_nat (len / PAGE_SIZE)) (pages (kp v))
    | Ok (v', va) =>
        vinv v' ∧ consumed v v' 0 ∧
        (va = 0 ∧ kp v' = kp v ∧ areas v' = areas v ∧ no_room v (len + PAGE_SIZE) ∨ va ≠ 0 ∧ io_mapped v v' va pa size prot)
    end.
Proof.
  intros Hv Hp Hpa0 Hs0 Hpe Hsz len. destruct (io_window pa size) as (D1 & D2 & Elo & Ehi & Hlo & Hm); [done..|].
  unfold ioremap_prot. rewrite (add64_small pa size) by (unfold U64, PAGE_SIZE in *; lia).
  rewrite (sub64_small (ALIGN_UP _ _)) by (unfold U64, PAGE_SIZE in *; lia). fold len. set (lo := ALIGN_DOWN pa PAGE_SIZE) in *. pose proof Hv as [Ik Ir Is Ia Ib Io Ion Irest].
  assert (PAGE_SIZE | len) as Hdl by by apply Z.divide_sub_r. assert (PAGE_SIZE | len + PAGE_SIZE) as Hdl' by by apply Z.divide_add_r.
  assert (len ⊕ PAGE_SIZE = len + PAGE_SIZE) as -> by (apply add64_small; unfold len, U64, VMALLOC_END, PAGE_SIZE in *; lia).
  destruct (va_alloc v (len + PAGE_SIZE) false) as [v1 base] eqn:Ea.
  destruct (va_alloc_spec _ _ _ _ _ Ia Hdl' ltac:(unfold len, U64, VMALLOC_END, PAGE_SIZE in *; lia) Ea) as [Ek [(-> & Ear & Hno)|(Hb & Hpl)]].
  { eexists. split; [done|]. assert (v1 = set_kp v1 (kp v)) as -> by (destruct v1; by cbn in Ek; subst).
    split; [apply (vinv_same v); [done|done|by apply vkeep_refl|done]|]. split; [by apply consumed_refl|]. by left. }
  rewrite (proj2 (Z.eqb_neq _ _) Hb). pose proof Hpl as [[P1 P2] Pa _ _ _ _ Prm].
  assert (base ⊕ PAGE_SIZE = base + PAGE_SIZE) as -> by (apply add64_small; unfold VMALLOC_START, U64, VMALLOC_END, len, PAGE_SIZE in *; lia).
  rewrite (sub64_small pa) by (unfold U64 in *; lia). rewrite (add64_small _ (pa - lo)) by (unfold VMALLOC_START, U64, VMALLOC_END, len, PAGE_SIZE in *; lia). rewrite Ek.
  destruct (ioremap_loop_spec (kp v) (base + PAGE_SIZE) lo len prot) with (fuel := page_count len) (k := kp v) (off := 0) as (r & -> & Hr).
  - by apply Z.divide_add_r.
  - done.
  - done.
  - unfold PAGE_SIZE in *. lia.
  - unfold PAGE_SIZE in *. lia.
  - lia.
  - unfold len, PAGE_SIZE in *. lia.
  - by apply ioloop_start.
  - by exists 0.
  - unfold len, PAGE_SIZE in *. lia.
  - unfold page_count, len, PAGE_SIZE. Z.to_euclidean_division_equations. lia.
  - destruct r as [k'|]; eexists; (split; [done|]); [|done]. destruct (io_filled v v1 k' base pa size prot) as [H1 H2]; [done..|].
    fold lo in H2. replace (pa `mod` PAGE_SIZE) with (pa - lo) in H2 by lia. split; [done|]. split; [split; apply Hr|]. right. split; [|done].
    unfold VMALLOC_START, PAGE_SIZE in *. lia.
Qed.

(** ** The theorems *)

(** A body that is given back leaves what was there before it was made. *)
Lemma unmap_restores v v' v'' base size owns :
  vinv v → placed v v' base size owns → unmapped v' v'' (Area base size owns) →
  (∀ x, kva x → ¬ base + PAGE_SIZE ≤ x < base + size → kpte (kp v') x = kpte (kp v) x) →
  (∀ a, a ∈ areas v'' ↔ a ∈ areas v) ∧ ∀ x, kva x → kpte (kp v'') x = kpte (kp v) x.
Proof.
  intros [Ik Ir Is Ia Ib Io Ion Irest] Hpl [Ua Up _ _] Hrest. pose proof Hpl as [[P1 P2] _ _ Pin [_ Pf] _ _]. split.
  - intros a. rewrite Ua, Pin. split; [tauto|]. intros Ha. split; [by right|]. intros ->. destruct (Pf _ Ha) as [H|H]; cbn in H;
      destruct (areas_ok_in _ _ _ Ia Ha) as (_ & _ & _ & _ & H'); cbn in H'; unfold PAGE_SIZE in *; lia.
  - intros x Hx. rewrite Up by done. case_decide as Hd; [|by apply Hrest]. symmetry. unfold body in Hd. cbn in Hd. apply Irest; [unfold PAGE_SIZE in *; lia|].
    intros a Ha Hb. apply (placed_clear _ _ _ _ _ _ _ Hpl Ha Hb). unfold PAGE_SIZE in *. lia.
Qed.

(** [vmalloc] on a well-formed state ends.  When it succeeds, its area lies at the
    lowest address where it fits, behind an unmapped guard page; each page of it maps,
    writable and not executable, a page that nobody held and no other address
    maps; nothing else changes and the invariant holds.  [vfree] of the result
    then brings back the mappings, the areas and the pages, page tables
    apart.  When it fails it has given back every page, and there was no node,
    no room, or not enough memory; with three pages per page asked for to be
    had it does not panic. *)
Theorem vmalloc_correct v size :
  vinv v → 0 ≤ size → size + 2 * PAGE_SIZE ≤ U64 - VMALLOC_END →
  let n := ALIGN_UP size PAGE_SIZE in let need := (3 * Z.to_nat (n / PAGE_SIZE))%nat in
  ∃ r, vmalloc v size = Some r ∧
    match r with
    | Panic => ¬ can_alloc need (pages (kp v))
    | Ok (v', va) =>
        vinv v' ∧
        (va = 0 ∧ areas v' = areas v ∧ (∀ x, kva x → kpte (kp v') x = kpte (kp v) x) ∧ consumed v v' 0 ∧
           (no_room v (n + PAGE_SIZE) ∨ ¬ can_alloc need (pages (kp v))) ∨
         va ≠ 0 ∧ filled v v' va n PROT_KERNEL_RW ∧ consumed v v' (n / PAGE_SIZE) ∧
           ∃ v'', vfree v' va = Some (Ok v'') ∧ vinv v'' ∧ (∀ a, a ∈ areas v'' ↔ a ∈ areas v) ∧
             (∀ x, kva x → kpte (kp v'') x = kpte (kp v) x) ∧ consumed v v'' 0)
    end.
Proof.
  intros Hv Hs0 Hs1 n need. destruct (vmap_pages_spec v size PROT_KERNEL_RW Hv) as (r & E & Hr); [done..|]. exists r. split; [done|].
  destruct r as [[v' va]|]; [|done]. destruct Hr as [Hv' [Hr|(Hne & Hf & Hc)]]; (split; [done|]); [by left|]. right. split; [done|]. split; [done|]. split; [done|].
  fold n in Hf, Hc. pose proof Hf as [Hpl Hpg Hrest]. set (a := Area (va - PAGE_SIZE) (n + PAGE_SIZE) true).
  assert (a ∈ areas v') as Ha by (apply Hpl; by left). destruct (vfree_spec v' a Hv' Ha) as (v'' & Ev & Hv'' & Hum).
  cbn [a_start a] in Ev. replace (va - PAGE_SIZE + PAGE_SIZE) with va in Ev by lia. exists v''. split; [done|]. split; [done|].
  destruct (unmap_restores v v' v'' _ _ _ Hv Hpl Hum) as [H1 H2]; [intros x Hx Hnx; apply Hrest; [done|]; lia|]. split; [done|]. split; [done|].
  destruct Hc as [Hu (t & Ht & Hct)]. destruct Hum as [_ _ Uu Uc]. split.
  - intros q o Hq. apply Uu; [by apply Hu|]. intros _ x Hx. unfold body in Hx. cbn in Hx. apply Hpg; [lia|done].
  - exists t. split; [done|]. rewrite Uc. unfold dropped. cbn. rewrite Hct. replace (n + PAGE_SIZE - PAGE_SIZE) with n by lia.
    unfold add64, sub64, wrap64. rewrite Zplus_mod_idemp_l. f_equal. lia.
Qed.

(** [vfree] ignores a null pointer, panics on an address that is not the
    start of an area, and for an area unmaps exactly its pages and forgets it;
    it gives back the pages that the area owns, each once, and leaves those of a
    device mapping alone; the invariant holds again. *)
Theorem vfree_correct v ptr :
  vinv v → u64_ok ptr →
  vfree v 0 = Some (Ok v) ∧
  (∀ a, a ∈ areas v → ptr = a_start a + PAGE_SIZE → ∃ v', vfree v ptr = Some (Ok v') ∧ vinv v' ∧ unmapped v v' a) ∧
  (ptr ≠ 0 → (∀ a, a ∈ areas v → ptr ≠ a_start a + PAGE_SIZE) → vfree v ptr = Some Panic).
Proof.
  intros Hv Hp. split; [done|]. split; [intros a Ha ->; by apply vfree_spec|]. intros Hne Hn. unfold vfree. rewrite (proj2 (Z.eqb_neq _ _) Hne).
  destruct (va_lookup (areas v) (ptr ⊖ PAGE_SIZE)) as [a|] eqn:E; [|done]. apply va_lookup_Some in E as [Ha Es]. exfalso. apply (Hn a Ha).
  rewrite Es. destruct (areas_ok_in _ _ _ (vi_areas v Hv) Ha) as (Hs & He & _ & _ & Hsz). rewrite Es in *.
  unfold u64_ok, sub64, wrap64, U64, VMALLOC_START, VMALLOC_END, PAGE_SIZE in *. clear -Hp Hs He Hsz. Z.to_euclidean_division_equations. lia.
Qed.

Lemma iounmap_spec v v' va pa size prot :
  vinv v → vinv v' → consumed v v' 0 → 0 ≤ pa → 0 ≤ size → pa + size + PAGE_SIZE ≤ 2 ^ 48 → va ≠ 0 → io_mapped v v' va pa size prot →
  ∃ v'', iounmap v' va = Some (Ok v'') ∧ vinv v'' ∧ (∀ a, a ∈ areas v'' ↔ a ∈ areas v) ∧ (∀ x, kva x → kpte (kp v'') x = kpte (kp v) x) ∧ consumed v v'' 0.
Proof.
  intros Hv Hv' [Hu (t & Ht & Hct)] H0 H1 H2 Hne [Hpl _ _ Hrest]. destruct (io_window pa size) as (_ & _ & _ & Ehi & Hlo & Hm); [done..|].
  set (base := va - pa `mod` PAGE_SIZE - PAGE_SIZE) in *. set (len := ALIGN_UP (pa + size) PAGE_SIZE - ALIGN_DOWN pa PAGE_SIZE) in *. set (a := Area base (len + PAGE_SIZE) false).
  assert (a ∈ areas v') as Ha by (apply Hpl; by left). destruct (vfree_spec v' a Hv' Ha) as (v'' & Ev & Hv'' & Hum). pose proof Hpl as [[P1 P2] [q Pa] _ _ _ _ _].
  assert (ALIGN_DOWN va PAGE_SIZE = base + PAGE_SIZE) as Ed.
  { rewrite ALIGN_DOWN_div by (auto with olux || unfold base, len, u64_ok, U64, VMALLOC_START, VMALLOC_END, PAGE_SIZE in *; lia).
    replace va with (pa `mod` PAGE_SIZE + (q + 1) * PAGE_SIZE) by (unfold base in Pa; lia). rewrite Z.div_add by done. rewrite Z.div_small by done. lia. }
  exists v''. unfold iounmap. rewrite (proj2 (Z.eqb_neq _ _) Hne), Ed. split; [done|]. split; [done|].
  destruct (unmap_restores v v' v'' _ _ _ Hv Hpl Hum) as [R1 R2]; [intros x Hx Hnx; apply Hrest; [done|]; unfold base in *; lia|]. split; [done|]. split; [done|].
  destruct Hum as [_ _ Uu Uc]. split; [intros q' o Hq; apply Uu; [by apply Hu|done]|]. exists t. split; [done|]. rewrite Uc. exact Hct.
Qed.

(** [ioremap] ends, and without a panic when two table pages per page can
    be had.  It fails only for want of a node or room and then changes
    nothing; else every byte of the window it returns translates to the byte of
    device memory asked for, with the device attributes and behind a guard page,
    nothing else changes and the invariant holds.  [iounmap] of the result
    brings back the areas and the mappings, and gives no page to the
    allocator. *)
Theorem ioremap_correct v pa size :
  vinv v → 0 ≤ pa → 0 ≤ size → pa + size + PAGE_SIZE ≤ 2 ^ 48 → size + 4 * PAGE_SIZE ≤ U64 - VMALLOC_END →
  let len := ALIGN_UP (pa + size) PAGE_SIZE - ALIGN_DOWN pa PAGE_SIZE in
  ∃ r, ioremap v pa size = Some r ∧
    match r with
    | Panic => ¬ can_alloc (2 * Z.to_nat (len / PAGE_SIZE)) (pages (kp v))
    | Ok (v', va) =>
        vinv v' ∧ consumed v v' 0 ∧
        (va = 0 ∧ kp v' = kp v ∧ areas v' = areas v ∧ no_room v (len + PAGE_SIZE) ∨
         va ≠ 0 ∧ io_mapped v v' va pa size PROT_DEVICE ∧
           ∃ v'', iounmap v' va = Some (Ok v'') ∧ vinv v'' ∧ (∀ a, a ∈ areas v'' ↔ a ∈ areas v) ∧
             (∀ x, kva x → kpte (kp v'') x = kpte (kp v) x) ∧ consumed v v'' 0)
    end.
Proof.
  intros Hv H0 H1 H2 H3 len. destruct (ioremap_prot_spec v pa size PROT_DEVICE Hv) as (r & E & Hr); [done..|]. exists r. split; [done|].
  destruct r as [[v' va]|]; [|done]. destruct Hr as (Hv' & Hc & [Hr|[Hne Hio]]); (split; [done|]); (split; [done|]); [by left|]. right. split; [done|]. split; [done|].
  by apply (iounmap_spec v v' va pa size PROT_DEVICE).
Qed.

(** *** Coherent memory *)

Lemma dma_order_spec n o size :
  0 ≤ size ≤ 2 ^ 62 → (o + n = 64)%nat → (o ≤ 50)%nat → ∃ o', dma_order n o size = Some o' ∧ size ≤ PAGE_SIZE * bsize o'.
Proof.
  intros Hs. revert o. induction n as [|n IH]; intros o Hn Ho; [lia|]. cbn [dma_order].
  assert (wrap64 (Z.shiftl PAGE_SIZE (Z.of_nat o)) = PAGE_SIZE * bsize o) as ->.
  { rewrite bsize_pow, Z.shiftl_mul_pow2 by lia. pose proof (Z.pow_le_mono_r 2 (Z.of_nat o) 50). pose proof (Z.pow_pos_nonneg 2 (Z.of_nat o)).
    apply wrap64_small. unfold U64, PAGE_SIZE. lia. }
  destruct (Z.ltb_spec (PAGE_SIZE * bsize o) size) as [Hlt|]; [|by exists o]. apply IH; [lia|]. destruct (decide (o = 50%nat)) as [->|]; [|lia].
  exfalso. rewrite bsize_pow in Hlt. change (2 ^ Z.of_nat 50) with 1125899906842624 in Hlt. unfold PAGE_SIZE in Hlt. lia.
Qed.

(** The allocator moves on and leaves the areas what they hold. *)
Lemma vinv_pages v s :
  vinv v → ps_ok s → (∀ a x, a ∈ areas v → owns_pages a = true → body a x → ps_used s (frame (kp v) x) 0) → vinv (set_kp v (set_pages (kp v) s)).
Proof. intros [Ik Ir Is Ia Ib Io Ion Irest] Hs Hu. split; cbn [kp areas set_kp]; try done. Qed.

(** What [dma_alloc_coherent] hands out: a physically contiguous block, and a
    window on it. *)
Record coherent (v v' : vstate Src) (va dma p : Z) (o : nat) : Prop := {
  co_dma : dma = p * PAGE_SIZE;
  co_used : ps_used (pages (kp v')) p o;
  co_others q o' : ps_used (pages (kp v)) q o' → ps_used (pages (kp v')) q o' ∧ apart p o q o';
  co_phys i : 0 ≤ i < PAGE_SIZE * bsize o → kernel_va_to_phys (kp v') (va + i) = Ok (dma + i);
  co_pte x : va ≤ x < va + PAGE_SIZE * bsize o → kpte (kp v') x = Z.lor (dma + (page_base x - va)) PROT_NORMAL_NC;
}.

(** Everything but page tables is as in [v] again. *)
Definition restored (v v' : vstate Src) : Prop :=
  (∀ a, a ∈ areas v' ↔ a ∈ areas v) ∧ (∀ x, kva x → kpte (kp v') x = kpte (kp v) x) ∧ consumed v v' 0.

(** A block that is taken and given back. *)
Lemma give_back v v1 s p o t :
  (∀ q o', ps_used (pages (kp v)) q o' → ps_used (pages (kp v1)) q o' ∧ apart p o q o') → ps_used (pages (kp v1)) p o → ps_ok (pages (kp v1)) →
  ps_count (pages (kp v1)) = ps_count (pages (kp v)) ⊖ (bsize o + t) → 0 ≤ t → ps_free (pages (kp v1)) (Some p) o = Ok s →
  ps_ok s ∧ (∀ q o', ps_used (pages (kp v)) q o' → ps_used s q o') ∧ ∃ t, 0 ≤ t ∧ ps_count s = ps_count (pages (kp v)) ⊖ (0 + t).
Proof.
  intros Ho Hu Hs Hc Ht E. destruct (ps_free_law _ _ _ Hs Hu) as (s' & E' & Hs' & Hc' & Hu'). rewrite E in E'. injection E' as <-.
  split; [done|]. split; [intros q o' Hq; destruct (Ho q o' Hq); by apply Hu'|]. exists t. split; [done|].
  rewrite Hc', Hc. unfold add64, sub64, wrap64. rewrite Zplus_mod_idemp_l. f_equal. lia.
Qed.

(** The block of a device mapping is given back after the window is gone. *)
Lemma dma_free_spec v v1 v2 va p o size :
  vinv v → vinv v1 → vinv v2 → kp v1 = set_pages (kp v) (pages (kp v1)) → areas v1 = areas v → consumed v1 v2 0 → dma_order 64 0 size = Some o →
  ps_used (pages (kp v1)) p o → (∀ q o', ps_used (pages (kp v)) q o' → ps_used (pages (kp v1)) q o' ∧ apart p o q o') →
  ps_count (pages (kp v1)) = ps_count (pages (kp v)) ⊖ bsize o → va ≠ 0 → io_mapped v1 v2 va (p * PAGE_SIZE) (PAGE_SIZE * bsize o) PROT_NORMAL_NC →
  ∃ v'', dma_free_coherent v2 va size = Some (Ok v'') ∧ vinv v'' ∧ restored v v''.
Proof.
  intros Hv Hv1 Hv2 Ek Ear Hcon Eo Hu Hothers Hc Hne Hio. destruct (ps_range _ _ _ (vi_src _ Hv1) Hu) as (G1 & G2 & G3).
  pose proof (bsize_pos o). assert (p * PAGE_SIZE + PAGE_SIZE * bsize o + PAGE_SIZE ≤ 2 ^ 48) as Hb by (unfold PAGE_SIZE; lia).
  destruct (iounmap_spec v1 v2 va (p * PAGE_SIZE) (PAGE_SIZE * bsize o) PROT_NORMAL_NC Hv1 Hv2 Hcon ltac:(unfold PAGE_SIZE; lia) ltac:(unfold PAGE_SIZE; lia) Hb Hne Hio)
    as (v3 & Ei & Hv3 & Ra & Rp & [Ru (t & Ht & Hct)]).
  unfold dma_free_coherent. rewrite (proj2 (Z.eqb_neq _ _) Hne), Eo. pose proof (io_phys _ _ _ _ _ _ Hio 0 ltac:(unfold PAGE_SIZE; lia)) as Eph.
  rewrite !Z.add_0_r in Eph. rewrite Eph, Ei. assert (phys_to_page (p * PAGE_SIZE) = p) as ->.
  { unfold phys_to_page, PAGE_SHIFT. rewrite Z.shiftr_div_pow2 by lia. by apply Z.div_mul. }
  destruct (ps_free_law _ _ _ (vi_src _ Hv3) (Ru _ _ Hu)) as (s & Ef & _). rewrite Ef.
  destruct (give_back v v3 s p o t) as (S1 & S2 & S3); [|by apply Ru|by apply Hv3| |done|done|].
  { intros q o' Hq. destruct (Hothers q o' Hq). split; [by apply Ru|done]. }
  { rewrite Hct, Hc. unfold sub64, wrap64. rewrite Zminus_mod_idemp_l. f_equal. lia. }
  assert (∀ x, kva x → kpte (kp v3) x = kpte (kp v) x) as Hpte by (intros x Hx; rewrite Rp by done; by rewrite Ek).
  assert (∀ a, a ∈ areas v3 ↔ a ∈ areas v) as Har by (intros a; rewrite Ra; by rewrite Ear).
  eexists. split; [done|]. split; [|by split].
  apply vinv_pages; [done|done|]. intros a x Ha Ho Hbx. apply Har in Ha. apply S2. unfold frame. destruct (areas_ok_in _ _ _ (vi_areas v Hv) Ha) as (? & ? & _).
  rewrite Hpte by (apply vmalloc_kva; unfold body, PAGE_SIZE in *; lia). by apply (vi_owned v Hv a).
Qed.

Section dma.
Variables (v v1 : vstate Src) (p : Z) (o : nat).
Hypotheses (Hv : vinv v) (Hv1 : vinv v1) (Ek : kp v1 = set_pages (kp v) (pages (kp v1))) (Ear : areas v1 = areas v).
Hypotheses (Hu : ps_used (pages (kp v1)) p o) (Hc : ps_count (pages (kp v1)) = ps_count (pages (kp v)) ⊖ bsize o).
Hypothesis (Hothers : ∀ q o', ps_used (pages (kp v)) q o' → ps_used (pages (kp v1)) q o' ∧ apart p o q o').

(** No window: the block is given back. *)
Lemma dma_fail v2 :
  vinv v2 → kp v2 = kp v1 → areas v2 = areas v1 →
  ∃ s, ps_free (pages (kp v2)) (Some p) o = Ok s ∧ vinv (set_kp v2 (set_pages (kp v2) s)) ∧ restored v (set_kp v2 (set_pages (kp v2) s)).
Proof.
  intros Hv2 E2 Ea2. rewrite E2. destruct (ps_free_law _ _ _ (vi_src _ Hv1) Hu) as (s & Ef & _). exists s. split; [done|].
  destruct (give_back v v1 s p o 0) as (S1 & S2 & S3); [done|done|by apply Hv1|by rewrite Z.add_0_r|done|done|]. rewrite <-E2. split.
  - apply vinv_pages; [done|done|]. rewrite Ea2, Ear, E2, Ek. intros a x Ha Ho Hb. by apply S2, (vi_owned v Hv a).
  - split; [by cbn; rewrite Ea2, Ear|]. split; [by cbn; rewrite E2, Ek|]. split; [done|done].
Qed.

Lemma dma_block : 0 ≤ p * PAGE_SIZE ∧ 0 < PAGE_SIZE * bsize o ≤ 2 ^ 22 ∧ p * PAGE_SIZE + PAGE_SIZE * bsize o + PAGE_SIZE ≤ 2 ^ 48 ∧
  ALIGN_DOWN (p * PAGE_SIZE) PAGE_SIZE = p * PAGE_SIZE ∧ (p * PAGE_SIZE) `mod` PAGE_SIZE = 0 ∧
  ALIGN_UP (p * PAGE_SIZE + PAGE_SIZE * bsize o) PAGE_SIZE = p * PAGE_SIZE + PAGE_SIZE * bsize o.
Proof.
  destruct (ps_range _ _ _ (vi_src _ Hv1) Hu) as (G1 & G2 & G3). pose proof (bsize_pos o). assert (bsize o ≤ 2 ^ 10) as Hb10.
  { rewrite bsize_pow. apply (Z.pow_le_mono_r 2 (Z.of_nat o) 10); unfold MAX_ORDER in *; lia. }
  split_and!; [unfold PAGE_SIZE; lia..| |by apply Z.mod_mul|].
  - rewrite ALIGN_DOWN_div by (auto with olux || unfold u64_ok, U64, PAGE_SIZE; lia). by rewrite Z.div_mul by done.
  - apply ALIGN_UP_id; [auto with olux|unfold U64, PAGE_SIZE; lia..|]. exists (p + bsize o). lia.
Qed.

Lemma dma_window v2 va :
  consumed v1 v2 0 → io_mapped v1 v2 va (p * PAGE_SIZE) (PAGE_SIZE * bsize o) PROT_NORMAL_NC → coherent v v2 va (p * PAGE_SIZE) p o.
Proof.
  intros [Cu _] [_ Iph Ipte _]. destruct dma_block as (_ & _ & _ & Ed & Em & _). rewrite Ed, Em, Z.sub_0_r in Ipte. split; [done|by apply Cu| |done|done].
  intros q o' Hq. destruct (Hothers q o' Hq). split; [by apply Cu|done].
Qed.
End dma.

(** [dma_alloc_coherent] ends.  It hands out a block of physically contiguous
    pages of at least the size asked for that nobody held, with a window on it that is
    not cached and translates byte for byte to it; [dma_free_coherent] of the
    window brings back the areas, the mappings and the pages, page tables
    apart.  When it fails it has given the block back; it panics only when
    the tables cannot be had. *)
Theorem dma_coherent_correct v size gfp :
  vinv v → 0 ≤ size ≤ 2 ^ 62 →
  ∃ r, dma_alloc_coherent v size gfp = Some r ∧
    match r with
    | Panic => ∃ s p o, ps_alloc (pages (kp v)) (Z.lor gfp GFP_ZERO) o = Ok (s, Some p) ∧ ¬ can_alloc (2 * Z.to_nat (bsize o)) s
    | Ok (v', va, dma) =>
        vinv v' ∧
        (va = 0 ∧ restored v v' ∨
         va ≠ 0 ∧ ∃ p o, size ≤ PAGE_SIZE * bsize o ∧ coherent v v' va dma p o ∧
           ∃ v'', dma_free_coherent v' va size = Some (Ok v'') ∧ vinv v'' ∧ restored v v'')
    end.
Proof.
  intros Hv Hs. destruct (dma_order_spec 64 0 size Hs) as (o & Eo & Hso); [lia..|]. unfold dma_alloc_coherent. rewrite Eo.
  pose proof (ps_alloc_law (pages (kp v)) (Z.lor gfp GFP_ZERO) o (vi_src v Hv)) as L.
  destruct (ps_alloc (pages (kp v)) (Z.lor gfp GFP_ZERO) o) as [[s [p|]]|] eqn:Ea; [| |done].
  2: { subst s. eexists. split; [done|]. assert (set_kp v (set_pages (kp v) (pages (kp v))) = v) as -> by (by destruct v as [[] ? ?]).
    split; [done|]. left. split; [done|]. split; [done|]. split; [done|by apply consumed_refl]. }
  destruct L as (Hs' & Hu & Hc & Hothers). set (v1 := set_kp v (set_pages (kp v) s)).
  assert (vinv v1) as Hv1 by (apply vinv_pages; [done|done|]; intros a x Ha Ho Hb; by apply Hothers, (vi_owned v Hv a)).
  destruct (dma_block v1 p o Hv1 Hu) as (B0 & B1 & B2 & Ed & Em & Eu).
  assert (page_to_phys p = p * PAGE_SIZE ∧ wrap64 (Z.shiftl PAGE_SIZE (Z.of_nat o)) = PAGE_SIZE * bsize o) as [-> ->].
  { unfold page_to_phys, PAGE_SHIFT. rewrite bsize_pow in *. rewrite !Z.shiftl_mul_pow2 by lia. change (2 ^ 12) with PAGE_SIZE. split; apply wrap64_small; unfold U64, PAGE_SIZE in *; lia. }
  destruct (ioremap_prot_spec v1 (p * PAGE_SIZE) (PAGE_SIZE * bsize o) PROT_NORMAL_NC Hv1) as (r & -> & Hr); [done|done|lia|done|unfold U64, VMALLOC_END, PAGE_SIZE in *; lia|].
  rewrite Ed, Eu, Z.add_simpl_l, (Z.mul_comm PAGE_SIZE), Z.div_mul in Hr by done. rewrite (Z.mul_comm _ PAGE_SIZE) in Hr.
  destruct r as [[v2 va]|]; [|eexists; split; [done|]; by exists s, p, o]. destruct Hr as (Hv2 & Hcon & [(-> & Ek & Ear & _)|[Hne Hio]]).
  - destruct (dma_fail v v1 p o) with (v2 := v2) as (s2 & E2 & I2 & R2); [done..|]. rewrite E2. eexists. split; [done|]. split; [done|]. by left.
  - rewrite (proj2 (Z.eqb_neq _ _) Hne). eexists. split; [done|]. split; [done|]. right. split; [done|]. exists p, o. split; [done|].
    split; [by apply (dma_window v v1)|]. by apply (dma_free_spec v v1 v2 va p o size).
Qed.
End invariant.

(** A request of 256 GiB and more at an empty list is granted: the end of the
    area wraps around. *)
Lemma va_alloc_wraps {Src} (v : vstate Src) :
  areas v = [] → nodes v = [] →
  (va_alloc v 0x4000001000 true).2 = VMALLOC_START ∧ VMALLOC_START + 0x4000001000 = U64 + 0x1000.
Proof. intros Ea En. unfold va_alloc. rewrite En. cbn [table_alloc negb areas]. rewrite Ea. by vm_compute. Qed.

(** ** Witnesses *)

#[local] Instance ex_pages : PageSource pagealloc := buddy_source false.
Definition ex_v : vstate pagealloc := VState (Kpt zero_table 0 true ex_alloc) [] [].

Lemma ex_v_ok : vinv ex_v.
Proof.
  split.
  - intros i _. by split.
  - reflexivity.
  - split; [apply ex_alloc_ok|]. assert (mem_map_base_pfn ex_alloc = 16) as E by by vm_compute. unfold page0_reserved, valid. cbn [pages kp ex_v]. rewrite E. lia.
  - cbn. unfold VMALLOC_START, VMALLOC_END. lia.
  - intros a x Ha. by apply elem_of_nil in Ha.
  - intros a x Ha. by apply elem_of_nil in Ha.
  - intros a b x y Ha. by apply elem_of_nil in Ha.
  - intros x _ _. reflexivity.
Qed.

Lemma vmalloc_witness :
  ∃ v', vmalloc ex_v 5000 = Some (Ok (v', 0xffffffc000001000)) ∧ vinv v' ∧ filled ex_v v' 0xffffffc000001000 8192 PROT_KERNEL_RW.
Proof.
  destruct (vmalloc_correct ex_v 5000 ex_v_ok) as (r & E & H); [done|done|].
  assert (match vmalloc ex_v 5000 with Some (Ok (_, va)) => va | _ => 0 end = 0xffffffc000001000) as Ev by (vm_compute; reflexivity).
  rewrite E in Ev. destruct r as [[v' va]|]; [|discriminate Ev]. subst va. destruct H as [Hv [(H0 & _)|(_ & Hf & _)]]; [discriminate H0|]. exists v'. split; [exact E|]. split; [exact Hv|exact Hf].
Defined.

(** The state after it. *)
Definition ex_v1 : vstate pagealloc := match vmap_pages ex_v 5000 PROT_KERNEL_RW with Some (Ok (v, _)) => v | _ => ex_v end.

Lemma ex_v1_ok : vinv ex_v1 ∧ areas ex_v1 = [Area 0xffffffc000000000 12288 true].
Proof.
  destruct (vmap_pages_spec ex_v 5000 PROT_KERNEL_RW ex_v_ok) as (r & E & H); [done..|]. unfold ex_v1.
  assert (match vmap_pages ex_v 5000 PROT_KERNEL_RW with Some (Ok (v, _)) => areas v | _ => [] end = [Area 0xffffffc000000000 12288 true]) as Ev by (vm_compute; reflexivity).
  rewrite E in Ev |- *. destruct r as [[v' va]|]; [|discriminate Ev]. split; [apply H|exact Ev].
Qed.

Lemma vfree_witness :
  (∃ v', vfree ex_v1 0xffffffc000001000 = Some (Ok v') ∧ vinv v' ∧ unmapped ex_v1 v' (Area 0xffffffc000000000 12288 true)) ∧
  vfree ex_v1 0xffffffc000002000 = Some Panic.
Proof.
  destruct ex_v1_ok as [Hv Ha]. split.
  - destruct (vfree_correct ex_v1 0xffffffc000001000 Hv ltac:(unfold u64_ok, U64; lia)) as (_ & H & _). apply H; [rewrite Ha; apply list_elem_of_here|reflexivity].
  - destruct (vfree_correct ex_v1 0xffffffc000002000 Hv ltac:(unfold u64_ok, U64; lia)) as (_ & _ & H). apply H; [discriminate|]. intros a Hin. rewrite Ha in Hin. apply list_elem_of_singleton in Hin as ->. discriminate.
Defined.

Lemma ioremap_witness :
  ∃ v', ioremap ex_v 0xfe201000 0x200 = Some (Ok (v', 0xffffffc000001000)) ∧ io_mapped ex_v v' 0xffffffc000001000 0xfe201000 0x200 PROT_DEVICE.
Proof.
  destruct (ioremap_correct ex_v 0xfe201000 0x200 ex_v_ok) as (r & E & H); [done..|].
  assert (match ioremap ex_v 0xfe201000 0x200 with Some (Ok (_, va)) => va | _ => 0 end = 0xffffffc000001000) as Ev by (vm_compute; reflexivity).
  rewrite E in Ev. destruct r as [[v' va]|]; [|discriminate Ev]. subst va. destruct H as (_ & _ & [(H0 & _)|(_ & Hf & _)]); [discriminate H0|]. exists v'. split; [exact E|exact Hf].
Defined.

Lemma dma_coherent_witness :
  ∃ v' dma p o, dma_alloc_coherent ex_v 4096 0 = Some (Ok (v', 0xffffffc000001000, dma)) ∧ coherent ex_v v' 0xffffffc000001000 dma p o.
Proof.
  destruct (dma_coherent_correct ex_v 4096 0 ex_v_ok) as (r & E & H); [done|].
  assert (match dma_alloc_coherent ex_v 4096 0 with Some (Ok (_, va, _)) => va | _ => 0 end = 0xffffffc000001000) as Ev by (vm_compute; reflexivity).
  rewrite E in Ev. destruct r as [[[v' va] dma]|]; [|discriminate Ev]. subst va. destruct H as (_ & [(H0 & _)|(_ & p & o & _ & Hf & _)]); [discriminate H0|]. exists v', dma, p, o. split; [exact E|exact Hf].
Defined.
