(* ===== verification/Vma.v ===== *)
(** * User address spaces: the second half of src/mm/vm.c

    A [struct mm] is the record [mm]: the page tables and page reference
    counts ([space] of PageTable), the VMA list in list order, the fields
    that the mmap family reads, the reference counts of files and the bytes
    of page frames.  [allocs] and [supply] script the environment: whether
    each coming [kmalloc] or table allocation succeeds, and the frame that
    each coming [alloc_page] returns ([None] when it fails). *)

From stdpp Require Import functions.
From S2P Require Import Prelude CString DList Memblock Buddy PageTable.

Record vma : Type := Vma {
  v_start : Z;
  v_end : Z;
  v_flags : Z;
  v_file : option Z;
  file_off : Z;
  file_bytes : Z;
  io_base : Z;
}.

Record mm : Type := Mm {
  sp : space;
  vmas : list vma;
  brk_start : Z;
  brk : Z;
  mmap_base : Z;
  stack_top : Z;
  frefs : Z → Z;
  frames : Z → Z → Z;
  allocs : list bool;
  supply : list (option Z);
}.

Definition set_sp (m : mm) (s : space) : mm :=
  Mm s (vmas m) (brk_start m) (brk m) (mmap_base m) (stack_top m) (frefs m) (frames m) (allocs m) (supply m).
Definition set_vmas (m : mm) (l : list vma) : mm :=
  Mm (sp m) l (brk_start m) (brk m) (mmap_base m) (stack_top m) (frefs m) (frames m) (allocs m) (supply m).
Definition set_brk (m : mm) (b : Z) : mm :=
  Mm (sp m) (vmas m) (brk_start m) b (mmap_base m) (stack_top m) (frefs m) (frames m) (allocs m) (supply m).
Definition set_frefs (m : mm) (f : Z → Z) : mm :=
  Mm (sp m) (vmas m) (brk_start m) (brk m) (mmap_base m) (stack_top m) f (frames m) (allocs m) (supply m).
Definition set_frames (m : mm) (f : Z → Z → Z) : mm :=
  Mm (sp m) (vmas m) (brk_start m) (brk m) (mmap_base m) (stack_top m) (frefs m) f (allocs m) (supply m).
Definition set_allocs (m : mm) (l : list bool) : mm :=
  Mm (sp m) (vmas m) (brk_start m) (brk m) (mmap_base m) (stack_top m) (frefs m) (frames m) l (supply m).
Definition set_supply (m : mm) (l : list (option Z)) : mm :=
  Mm (sp m) (vmas m) (brk_start m) (brk m) (mmap_base m) (stack_top m) (frefs m) (frames m) (allocs m) l.

Definition set_v_start (v : vma) (a : Z) : vma :=
  Vma a (v_end v) (v_flags v) (v_file v) (file_off v) (file_bytes v) (io_base v).
Definition set_v_end (v : vma) (a : Z) : vma :=
  Vma (v_start v) a (v_flags v) (v_file v) (file_off v) (file_bytes v) (io_base v).
Definition set_v_flags (v : vma) (f : Z) : vma :=
  Vma (v_start v) (v_end v) f (v_file v) (file_off v) (file_bytes v) (io_base v).
Definition set_io_base (v : vma) (p : Z) : vma :=
  Vma (v_start v) (v_end v) (v_flags v) (v_file v) (file_off v) (file_bytes v) p.

(** ** The environment *)

Definition kalloc (m : mm) : mm * bool :=
  let '(ok, l) := table_alloc (allocs m) in (set_allocs m l, ok).

Definition alloc_page (m : mm) : mm * option Z :=
  match supply m with
  | [] => (m, None)
  | None :: l => (set_supply m l, None)
  | Some x :: l => (set_sp (set_supply m l) (Space (pgd (sp m)) (rss (sp m)) (<[x := 1]> (refs (sp m)))), Some x)
  end.

Definition file_get (m : mm) (f : option Z) : mm :=
  match f with None => m | Some f => set_frefs m (<[f := frefs m f + 1]> (frefs m)) end.
Definition file_put (m : mm) (f : option Z) : mm :=
  match f with None => m | Some f => set_frefs m (<[f := frefs m f - 1]> (frefs m)) end.

(** ** VMAs

    A found VMA is its index in the list, which stands for the pointer. *)

Fixpoint vma_find_from (i : nat) (l : list vma) (addr : Z) : option nat :=
  match l with
  | [] => None
  | v :: l =>
      if addr <? v_start v then None
      else if addr <? v_end v then Some i else vma_find_from (S i) l addr
  end.
Definition vma_find (l : list vma) (addr : Z) : option nat := vma_find_from 0 l addr.

Fixpoint vma_find_intersect_from (i : nat) (l : list vma) (start e : Z) : option nat :=
  match l with
  | [] => None
  | v :: l =>
      if e <=? v_start v then None
      else if start <? v_end v then Some i else vma_find_intersect_from (S i) l start e
  end.
Definition vma_find_intersect (l : list vma) (start e : Z) : option nat :=
  vma_find_intersect_from 0 l start e.

Fixpoint vma_insert (l : list vma) (nv : vma) : list vma :=
  match l with
  | [] => [nv]
  | v :: l' => if v_start nv <? v_start v then nv :: l else v :: vma_insert l' nv
  end.

Definition vma_free (m : mm) (v : vma) : mm := file_put m (v_file v).

Definition vma_clone (m : mm) (v : vma) : mm * bool :=
  let '(m, ok) := kalloc m in
  if ok then (file_get m (v_file v), true) else (m, false).

(** The two VMAs that [vma_split] leaves. *)
Definition split_lo (v : vma) (addr : Z) : vma :=
  let delta := addr ⊖ v_start v in
  Vma (v_start v) addr (v_flags v) (v_file v) (file_off v) (Z.min (file_bytes v) delta) (io_base v).
Definition split_hi (v : vma) (addr : Z) : vma :=
  let delta := addr ⊖ v_start v in
  Vma addr (v_end v) (v_flags v) (v_file v) (file_off v ⊕ delta)
    (if delta <? file_bytes v then file_bytes v ⊖ delta else 0)
    (if has (v_flags v) VM_IO then io_base v ⊕ delta else io_base v).
Definition vma_split (m : mm) (v : vma) (addr : Z) : mm * option (vma * vma) :=
  let '(m, ok) := vma_clone m v in
  if ok then (m, Some (split_lo v addr, split_hi v addr)) else (m, None).

Definition map_vma (m : mm) (start e flags : Z) (file : option Z) (off bytes : Z) : mm * Z :=
  let '(m, ok) := kalloc m in
  if negb ok then (m, - ENOMEM)
  else
    let m := file_get m file in
    (set_vmas m (vma_insert (vmas m) (Vma start e flags file off bytes 0)), 0).

(** [v->io_base = pa] and the like, through a pointer into the list. *)
Definition set_vma (m : mm) (i : nat) (f : vma → vma) : mm := set_vmas m (alter f i (vmas m)).

Definition map_io (m : mm) (start len pa flags : Z) : mm * outcome Z :=
  let '(m, r) := map_vma m start (start ⊕ len) (Z.lor flags VM_IO) None 0 0 in
  if negb (r =? 0) then (m, Ok r)
  else match vma_find (vmas m) start with
       | None => (m, Panic)
       | Some i => (set_vma m i (λ v, set_io_base v pa), Ok 0)
       end.

Definition USER_STACK_MAX : Z := Z.shiftl 8 20.
Notation USER_MMAP_GAP := (Z.shiftl 256 20)%Z (only parsing).
Definition USER_MIN_ADDR : Z := 0x10000.

(** The loop of [mm_get_unmapped_area]; [None] is not reached
    ([unmapped_area_spec]). *)
Fixpoint unmapped_loop (fuel : nat) (m : mm) (len top : Z) : option Z :=
  match fuel with
  | O => None
  | S fuel =>
      if top <? len ⊕ USER_MIN_ADDR then Some 0
      else
        let cand := top ⊖ len in
        match vma_find_intersect (vmas m) cand top with
        | Some i =>
            match vmas m !! i with
            | Some v => unmapped_loop fuel m len (v_start v)
            | None => None
            end
        | None =>
            if (cand <? brk m ⊕ USER_MMAP_GAP / 4) && (brk_start m <? top) then
              if brk_start m <=? brk m then Some 0 else unmapped_loop fuel m len (brk_start m)
            else Some cand
        end
  end.

Definition mm_get_unmapped_area (m : mm) (len : Z) : option Z :=
  unmapped_loop (length (vmas m) + 3) m (ALIGN_UP len PAGE_SIZE) (mmap_base m).

(** ** Faults *)

Definition set_pgd_of (m : mm) (p : pg_dir) : mm := set_sp m (set_pgd (sp m) p).
Definition pte_of (m : mm) (va : Z) : Z := pte_at (pgd (sp m)) va.
Definition store_pte (m : mm) (va v : Z) : mm := set_pgd_of m (set_pte (pgd (sp m)) va v).

(** [user_pte(mm, va, true)] on the state. *)
Definition user_pte_get (m : mm) (va : Z) : mm * bool :=
  let '(p, ok, l) := user_pte_alloc (pgd (sp m)) va (allocs m) in
  (set_allocs (set_pgd_of m p) l, ok).

Definition zero_page : Z → Z := λ _, 0.

Notation PROT_READ := 1%Z (only parsing).
Notation PROT_WRITE := 2%Z (only parsing).
Notation PROT_EXEC := 4%Z (only parsing).
Definition MAP_SHARED : Z := 1.
Definition MAP_PRIVATE : Z := 2.
Notation MAP_TYPE := 0x0f%Z (only parsing).
Definition MAP_FIXED : Z := 0x10.
Notation MAP_ANONYMOUS := 0x20%Z (only parsing).
Notation MAP_POPULATE := 0x8000%Z (only parsing).
Notation MAP_FIXED_NOREPLACE := 0x100000%Z (only parsing).
Notation MREMAP_MAYMOVE := 1%Z (only parsing).
Notation MREMAP_FIXED := 2%Z (only parsing).

Section Faults.

(** [kernel_pread(file, page, n, off)] of the file system: the bytes of the
    page afterwards and the result. *)
Variable kernel_pread : Z → Z → Z → (Z → Z) → (Z → Z) * Z.

Definition fill_page (v : vma) (va : Z) (page : Z → Z) : (Z → Z) * Z :=
  let delta := va ⊖ v_start v in
  match v_file v with
  | None => (page, 0)
  | Some f =>
      if file_bytes v <=? delta then (page, 0)
      else
        let n := Z.min PAGE_SIZE (file_bytes v ⊖ delta) in
        let '(page, r) := kernel_pread f (file_off v ⊕ delta) n page in
        (page, if r <? 0 then r else 0)
  end.

(** [fault_in] once the tables are there, and the whole. *)
Definition fault_pte (m : mm) (v : vma) (va : Z) (write : bool) : mm * Z :=
  let old := pte_of m va in
  if negb (pte_valid old) then
    if has (v_flags v) VM_IO then
      (store_pte m va (Z.lor (Z.lor (io_base v ⊕ (va ⊖ v_start v)) (pte_prot (v_flags v))) PTE_SW_SHARED), 0)
    else
      let '(m, p) := alloc_page m in
      match p with
      | None => (m, - ENOMEM)
      | Some p =>
          let '(page, r) := fill_page v va zero_page in
          let m := set_frames m (<[p := page]> (frames m)) in
          if negb (r =? 0) then
            (set_sp m (Space (pgd (sp m)) (rss (sp m)) (<[p := 0]> (refs (sp m)))), r)
          else
            let m := store_pte m va (Z.lor (page_to_phys p) (pte_prot (v_flags v))) in
            (set_sp m (add_rss (sp m) 1), 0)
      end
  else if write && has old PTE_RDONLY then
    if negb (has (v_flags v) VM_WRITE) then (m, - EACCES)
    else
      let p := phys_to_page (pte_addr old) in
      if negb (has old PTE_SW_SHARED) && (refs (sp m) p =? 1) then
        (store_pte m va (Z.lor (Z.land old (not64 (Z.lor PTE_RDONLY PTE_SW_COW))) PTE_SW_WRITE), 0)
      else
        let '(m, np) := alloc_page m in
        match np with
        | None => (m, - ENOMEM)
        | Some np =>
            let m := set_frames m (<[np := frames m p]> (frames m)) in
            let m := store_pte m va (Z.lor (page_to_phys np) (pte_prot (v_flags v))) in
            if negb (has old PTE_SW_SHARED) then (set_sp m (ref_put (sp m) p), 0)
            else (set_sp m (add_rss (sp m) 1), 0)
        end
  else (m, 0).

Definition fault_in (m : mm) (v : vma) (va : Z) (write : bool) : mm * Z :=
  let '(m, ok) := user_pte_get m va in
  if negb ok then (m, - ENOMEM) else fault_pte m v va write.

(** The VMA that a fault at page [va] is about, after growing the stack. *)
Definition fault_vma (m : mm) (va : Z) : mm * option vma :=
  match vma_find (vmas m) va with
  | Some i => (m, vmas m !! i)
  | None =>
      match vma_find_intersect (vmas m) va USER_VA_END with
      | None => (m, None)
      | Some i =>
          match vmas m !! i with
          | None => (m, None)
          | Some s =>
              if negb (has (v_flags s) VM_GROWSDOWN) || (USER_STACK_MAX <? v_start s ⊖ va)
                 || (USER_STACK_MAX <? stack_top m ⊖ va)
              then (m, None)
              else (set_vma m i (λ v, set_v_start v va), Some (set_v_start s va))
          end
      end
  end.

Definition handle_mm_fault (m : mm) (addr : Z) (write exec : bool) : mm * Z :=
  if USER_VA_END <=? addr then (m, - EFAULT)
  else
    let va := ALIGN_DOWN addr PAGE_SIZE in
    let '(m, v) := fault_vma m va in
    match v with
    | None => (m, - EFAULT)
    | Some v =>
        if write && negb (has (v_flags v) VM_WRITE) then (m, - EACCES)
        else if exec && negb (has (v_flags v) VM_EXEC) then (m, - EACCES)
        else if negb write && negb exec
                && negb (has (v_flags v) (Z.lor VM_READ (Z.lor VM_EXEC VM_WRITE))) then (m, - EACCES)
        else fault_in m v va write
    end.

(** [None] is a loop that does not end. *)
Fixpoint populate_loop (fuel : nat) (m : mm) (va e : Z) (write : bool) : option (mm * Z) :=
  match fuel with
  | O => None
  | S fuel =>
      if va <? e then
        let '(m, r) := handle_mm_fault m va write false in
        if negb (r =? 0) then Some (m, r) else populate_loop fuel m (va ⊕ PAGE_SIZE) e write
      else Some (m, 0)
  end.

Definition mm_populate (m : mm) (addr len : Z) (write : bool) : option (mm * Z) :=
  let va := ALIGN_DOWN addr PAGE_SIZE in
  populate_loop (Z.to_nat (len / PAGE_SIZE) + 3) m va (addr ⊕ len) write.

Definition mm_user_page (m : mm) (addr : Z) (write : bool) : mm * option Z :=
  let '(m, r) := handle_mm_fault m addr write false in
  if negb (r =? 0) then (m, None)
  else
    match user_pte (pgd (sp m)) addr with
    | None => (m, None)
    | Some e =>
        if negb (pte_valid e) then (m, None)
        else
          let '(m, r) := if write && has e PTE_RDONLY then handle_mm_fault m addr true false else (m, 0) in
          if negb (r =? 0) then (m, None)
          else (m, Some (phys_to_virt (pte_addr (pte_of m addr)) ⊕ Z.land addr (PAGE_SIZE - 1)))
    end.

(** ** The mmap family *)


Definition prot_to_vm (prot : Z) : Z :=
  let f := if has prot PROT_READ then VM_READ else 0 in
  let f := if has prot PROT_WRITE then Z.lor f (Z.lor VM_WRITE VM_READ) else f in
  if has prot PROT_EXEC then Z.lor f (Z.lor VM_EXEC VM_READ) else f.

(** The walk of [unmap_region]: [pre] is behind the cursor, [rest] starts at
    it.  [None] is not reached ([unmap_loop_spec]). *)
Fixpoint unmap_loop (fuel : nat) (m : mm) (pre rest : list vma) (start e : Z) : option (mm * Z) :=
  match fuel, rest with
  | O, _ => None
  | _, [] => Some (set_vmas m pre, 0)
  | S fuel, v :: rest' =>
      if v_end v <=? start then unmap_loop fuel m (pre ++ [v]) rest' start e
      else if e <=? v_start v then Some (set_vmas m (pre ++ rest), 0)
      else if v_start v <? start then
        let '(m, s) := vma_split m v start in
        match s with
        | None => Some (set_vmas m (pre ++ rest), - ENOMEM)
        | Some (lo, hi) => unmap_loop fuel m (pre ++ [lo]) (hi :: rest') start e
        end
      else
        let '(m, s) := if e <? v_end v then
                         let '(m, s) := vma_split m v e in
                         (m, match s with None => None | Some (lo, hi) => Some (lo, hi :: rest') end)
                       else (m, Some (v, rest')) in
        match s with
        | None => Some (set_vmas m (pre ++ rest), - ENOMEM)
        | Some (v, rest'') =>
            let m := set_sp m (zap_range (sp m) (v_start v) (v_end v)) in
            unmap_loop fuel (vma_free m v) pre rest'' start e
        end
  end.

Definition unmap_region (m : mm) (start e : Z) : option (mm * Z) :=
  unmap_loop (S (3 * length (vmas m))) m [] (vmas m) start e.

(** What [do_mmap] reads of a [struct file]: its identity, the [mmap]
    operation of a device (which may change the VMA), and the size of a
    regular file's inode. *)
Record mfile : Type := MFile {
  mf_id : Z;
  mf_mmap : option (vma → Z → vma * Z);
  mf_size : option Z;
}.

(** The part of [do_mmap] up to the choice of the address: [inr] is an early
    return, [None] a loop that does not end. *)
Definition mmap_addr (m : mm) (addr alen flags : Z) : option (mm * (Z + Z)) :=
  if has flags (Z.lor MAP_FIXED MAP_FIXED_NOREPLACE) then
    if negb (Z.land addr (PAGE_SIZE - 1) =? 0) then Some (m, inr (- EINVAL))
    else if (addr <? USER_MIN_ADDR) || (USER_VA_END <? addr ⊕ alen) then Some (m, inr (- ENOMEM))
    else match vma_find_intersect (vmas m) addr (addr ⊕ alen) with
         | None => Some (m, inl addr)
         | Some _ =>
             if has flags MAP_FIXED_NOREPLACE then Some (m, inr (- EEXIST))
             else match unmap_region m addr (addr ⊕ alen) with
                  | None => None
                  | Some (m, r) => Some (m, if negb (r =? 0) then inr r else inl addr)
                  end
         end
  else
    let addr := ALIGN_DOWN addr PAGE_SIZE in
    let a := if (addr =? 0) || (addr <? USER_MIN_ADDR) || (USER_VA_END <? addr ⊕ alen)
                || bool_decide (is_Some (vma_find_intersect (vmas m) addr (addr ⊕ alen)))
             then mm_get_unmapped_area m alen else Some addr in
    match a with
    | None => None
    | Some a => Some (m, if a =? 0 then inr (- ENOMEM) else inl a)
    end.

(** The part of [do_mmap] that makes the VMA; [inr] is a return that skips
    the populate step, and [Panic] the device operation called on NULL. *)
Definition mmap_map (m : mm) (addr alen prot flags : Z) (file : option mfile) (off : Z) :
    option (mm * outcome (Z + Z)) :=
  let type := Z.land flags MAP_TYPE in
  let vmf := if type =? MAP_SHARED then Z.lor (prot_to_vm prot) VM_SHARED else prot_to_vm prot in
  let finish '(m, r) := Some (m, Ok (if negb (r =? 0) then inr r else inl addr)) in
  match file with
  | Some f =>
      if has flags MAP_ANONYMOUS then finish (map_vma m addr (addr ⊕ alen) vmf None 0 0)
      else match mf_mmap f with
      | Some dev =>
          let '(m, r) := map_vma m addr (addr ⊕ alen) vmf None 0 0 in
          if negb (r =? 0) then Some (m, Ok (inr r))
          else match vma_find (vmas m) addr ≫= (λ i, v ← vmas m !! i; Some (i, v)) with
               | None => Some (m, Panic)
               | Some (i, v) =>
                   let '(v, r) := dev v off in
                   let m := set_vma m i (λ _, v) in
                   if negb (r =? 0) then
                     match unmap_region m addr (addr ⊕ alen) with
                     | None => None
                     | Some (m, _) => Some (m, Ok (inr r))
                     end
                   else Some (m, Ok (inr addr))
               end
      | None =>
          match mf_size f with
          | None => Some (m, Ok (inr (- ENODEV)))
          | Some fsize =>
              if (type =? MAP_SHARED) && has prot PROT_WRITE then Some (m, Ok (inr (- EOPNOTSUPP)))
              else
                let fbytes := if fsize <=? off then 0 else Z.min alen (fsize ⊖ off) in
                finish (map_vma m addr (addr ⊕ alen) (Z.land vmf (not32 VM_SHARED)) (Some (mf_id f)) off fbytes)
          end
      end
  | None => finish (map_vma m addr (addr ⊕ alen) vmf None 0 0)
  end.

Definition do_mmap (m : mm) (addr len prot flags : Z) (file : option mfile) (off : Z) :
    option (mm * outcome Z) :=
  if len =? 0 then Some (m, Ok (- EINVAL))
  else if negb (Z.land off (PAGE_SIZE - 1) =? 0) then Some (m, Ok (- EINVAL))
  else
    let alen := ALIGN_UP len PAGE_SIZE in
    if (alen <? len) || (USER_VA_END <? alen) then Some (m, Ok (- ENOMEM))
    else
      let type := Z.land flags MAP_TYPE in
      if negb (type =? MAP_SHARED) && negb (type =? MAP_PRIVATE) then Some (m, Ok (- EINVAL))
      else match mmap_addr m addr alen flags with
           | None => None
           | Some (m, inr r) => Some (m, Ok r)
           | Some (m, inl addr) =>
               match mmap_map m addr alen prot flags file off with
               | None => None
               | Some (m, Panic) => Some (m, Panic)
               | Some (m, Ok (inr r)) => Some (m, Ok r)
               | Some (m, Ok (inl addr)) =>
                   if has flags MAP_POPULATE then
                     match mm_populate m addr alen (has prot PROT_WRITE) with
                     | None => None
                     | Some (m, _) => Some (m, Ok addr)
                     end
                   else Some (m, Ok addr)
               end
           end.

Definition do_munmap (m : mm) (addr len : Z) : option (mm * Z) :=
  if negb (Z.land addr (PAGE_SIZE - 1) =? 0) || (len =? 0) then Some (m, - EINVAL)
  else
    let e := addr ⊕ ALIGN_UP len PAGE_SIZE in
    if (USER_VA_END <? e) || (e <? addr) then Some (m, - EINVAL)
    else unmap_region m addr e.

(** *** mprotect *)

(** [Some r] is the check's early return or 0. *)
Fixpoint mapped_loop (fuel : nat) (l : list vma) (a e : Z) : option Z :=
  match fuel with
  | O => None
  | S fuel =>
      if a <? e then
        match vma_find l a with
        | None => Some (- ENOMEM)
        | Some i => match l !! i with None => None | Some v => mapped_loop fuel l (v_end v) e end
        end
      else Some 0
  end.

Definition page_is_shared (s : space) (v : Z) : bool :=
  if has v PTE_SW_SHARED then false else 1 <? refs s (phys_to_page (pte_addr v)).

Definition protect_pte (s : space) (flags old : Z) : Z :=
  let nv := Z.lor (Z.lor (Z.land old PTE_ADDR_MASK) (pte_prot flags))
                  (Z.land old (Z.lor PTE_SW_SHARED PTE_SW_COW)) in
  if has old PTE_SW_COW || (negb (has flags VM_SHARED) && page_is_shared s old)
  then Z.lor nv (Z.lor PTE_RDONLY PTE_SW_COW) else nv.

(** The loop over the pages of one VMA, [n] of them. *)
Definition protect_page (s : space) (flags va : Z) : space :=
  match user_pte (pgd s) va with
  | None => s
  | Some old =>
      if negb (pte_valid old) then s
      else set_pgd s (set_pte (pgd s) va (protect_pte s flags old))
  end.

Fixpoint protect_pages (n : nat) (s : space) (flags va : Z) : space :=
  match n with
  | O => s
  | S n => protect_pages n (protect_page s flags va) flags (va ⊕ PAGE_SIZE)
  end.

(** [for (va = start; va < end; va += PAGE_SIZE)] runs this often when
    [start] and [end] are multiples of the page size. *)
Definition page_count (start e : Z) : nat := Z.to_nat ((e - start + (PAGE_SIZE - 1)) / PAGE_SIZE).

Fixpoint protect_loop (fuel : nat) (m : mm) (pre rest : list vma) (start e prot : Z) : option (mm * Z) :=
  match fuel, rest with
  | O, _ => None
  | _, [] => Some (set_vmas m pre, 0)
  | S fuel, v :: rest' =>
      if v_end v <=? start then protect_loop fuel m (pre ++ [v]) rest' start e prot
      else if e <=? v_start v then Some (set_vmas m (pre ++ rest), 0)
      else if v_start v <? start then
        let '(m, s) := vma_split m v start in
        match s with
        | None => Some (set_vmas m (pre ++ rest), - ENOMEM)
        | Some (lo, hi) => protect_loop fuel m (pre ++ [lo]) (hi :: rest') start e prot
        end
      else
        let '(m, s) := if e <? v_end v then
                         let '(m, s) := vma_split m v e in
                         (m, match s with None => None | Some (lo, hi) => Some (lo, hi :: rest') end)
                       else (m, Some (v, rest')) in
        match s with
        | None => Some (set_vmas m (pre ++ rest), - ENOMEM)
        | Some (v, rest'') =>
            let keep := Z.land (v_flags v) (not32 (Z.lor VM_READ (Z.lor VM_WRITE VM_EXEC))) in
            let v := set_v_flags v (Z.lor keep (prot_to_vm prot)) in
            let m := set_sp m (protect_pages (page_count (v_start v) (v_end v)) (sp m) (v_flags v) (v_start v)) in
            protect_loop fuel m (pre ++ [v]) rest'' start e prot
        end
  end.

Definition do_mprotect (m : mm) (addr len prot : Z) : option (mm * Z) :=
  if negb (Z.land addr (PAGE_SIZE - 1) =? 0) then Some (m, - EINVAL)
  else
    let e := addr ⊕ ALIGN_UP len PAGE_SIZE in
    if e <? addr then Some (m, - EINVAL)
    else match mapped_loop (length (vmas m) + 2) (vmas m) addr e with
         | None => None
         | Some r =>
             if negb (r =? 0) then Some (m, r)
             else protect_loop (S (3 * length (vmas m))) m [] (vmas m) addr e prot
         end.

(** *** brk and mremap *)

Definition do_brk (m : mm) (nbrk : Z) : option (mm * Z) :=
  if nbrk <? brk_start m then Some (m, brk m)
  else
    let old_end := ALIGN_UP (brk m) PAGE_SIZE in
    let new_end := ALIGN_UP nbrk PAGE_SIZE in
    if old_end <? new_end then
      if bool_decide (is_Some (vma_find_intersect (vmas m) old_end (new_end ⊕ PAGE_SIZE))) then Some (m, brk m)
      else
        let grow v := bool_decide (v_end v = old_end) && bool_decide (v_file v = None)
                        && (v_flags v =? Z.lor VM_READ VM_WRITE) in
        let fresh := let '(m, r) := map_vma m old_end new_end (Z.lor VM_READ VM_WRITE) None 0 0 in
                     if negb (r =? 0) then Some (m, brk m) else Some (set_brk m nbrk, nbrk) in
        match (if brk_start m <? old_end then vma_find (vmas m) (old_end ⊖ PAGE_SIZE) else None) with
        | Some i =>
            match vmas m !! i with
            | Some v => if grow v then Some (set_brk (set_vma m i (λ v, set_v_end v new_end)) nbrk, nbrk) else fresh
            | None => fresh
            end
        | None => fresh
        end
    else if new_end <? old_end then
      match unmap_region m new_end old_end with
      | None => None
      | Some (m, _) => Some (set_brk m nbrk, nbrk)
      end
    else Some (set_brk m nbrk, nbrk).

(** The loop of [do_mremap] that moves the entries, [n] pages. *)
Fixpoint move_ptes (n : nat) (m : mm) (old dst off : Z) : mm * bool :=
  match n with
  | O => (m, true)
  | S n =>
      match user_pte (pgd (sp m)) (old ⊕ off) with
      | None => move_ptes n m old dst (off ⊕ PAGE_SIZE)
      | Some se =>
          if negb (pte_valid se) then move_ptes n m old dst (off ⊕ PAGE_SIZE)
          else
            let '(m, ok) := user_pte_get m (dst ⊕ off) in
            if negb ok then (m, false)
            else
              let m := store_pte m (dst ⊕ off) (pte_of m (old ⊕ off)) in
              move_ptes n (store_pte m (old ⊕ off) 0) old dst (off ⊕ PAGE_SIZE)
      end
  end.

Definition do_mremap (m : mm) (old old_len new_len flags : Z) : option (mm * Z) :=
  if negb (Z.land old (PAGE_SIZE - 1) =? 0) || (new_len =? 0) then Some (m, - EINVAL)
  else
    let old_len := ALIGN_UP old_len PAGE_SIZE in
    let new_len := ALIGN_UP new_len PAGE_SIZE in
    match vma_find (vmas m) old ≫= (λ i, v ← vmas m !! i; Some (i, v)) with
    | None => Some (m, - EFAULT)
    | Some (i, v) =>
            if (v_end v <? old ⊕ old_len) || has (v_flags v) VM_IO then Some (m, - EFAULT)
            else if has flags MREMAP_FIXED then Some (m, - EINVAL)
            else if new_len <=? old_len then
              if new_len <? old_len then
                match do_munmap m (old ⊕ new_len) (old_len ⊖ new_len) with
                | None => None
                | Some (m, _) => Some (m, old)
                end
              else Some (m, old)
            else if (old ⊕ old_len =? v_end v)
                    && bool_decide (vma_find_intersect (vmas m) (v_end v) (old ⊕ new_len) = None)
                    && (old ⊕ new_len <=? USER_VA_END) then
              Some (set_vma m i (λ v, set_v_end v (old ⊕ new_len)), old)
            else if negb (has flags MREMAP_MAYMOVE) then Some (m, - ENOMEM)
            else match mm_get_unmapped_area m new_len with
                 | None => None
                 | Some dst =>
                     if dst =? 0 then Some (m, - ENOMEM)
                     else
                       let d := old ⊖ v_start v in
                       let '(m, r) := map_vma m dst (dst ⊕ new_len) (v_flags v) (v_file v) (file_off v ⊕ d)
                                        (if d <? file_bytes v then file_bytes v ⊖ d else 0) in
                       if negb (r =? 0) then Some (m, r)
                       else
                         let '(m, ok) := move_ptes (Z.to_nat (old_len / PAGE_SIZE)) m old dst 0 in
                         if negb ok then Some (m, - ENOMEM)
                         else match unmap_region m old (old ⊕ old_len) with
                              | None => None
                              | Some (m, _) => Some (m, dst)
                              end
                 end
    end.

End Faults.

(** ** fork

    During the copy the global state (reference counts, frames, scripts) is
    in the child [c]; of the parent only the tables [pp] change. *)

Definition dup_page (pp : pg_dir) (c : mm) (flags va : Z) : pg_dir * mm * bool :=
  match user_pte pp va with
  | None => (pp, c, true)
  | Some pv =>
      if negb (pte_valid pv) then (pp, c, true)
      else
        let '(c, ok) := user_pte_get c va in
        if negb ok then (pp, c, false)
        else if has pv PTE_SW_SHARED then (pp, store_pte c va pv, true)
        else
          let c := set_sp c (add_rss (ref_get (sp c) (phys_to_page (pte_addr pv))) 1) in
          if negb (has flags VM_SHARED) then
            let pv := Z.lor pv (Z.lor PTE_RDONLY PTE_SW_COW) in
            (set_pte pp va pv, store_pte c va pv, true)
          else (pp, store_pte c va pv, true)
  end.

Fixpoint dup_pages (n : nat) (pp : pg_dir) (c : mm) (flags va : Z) : pg_dir * mm * bool :=
  match n with
  | O => (pp, c, true)
  | S n =>
      let '(pp, c, ok) := dup_page pp c flags va in
      if negb ok then (pp, c, false) else dup_pages n pp c flags (va ⊕ PAGE_SIZE)
  end.

Fixpoint dup_vmas (l : list vma) (pp : pg_dir) (c : mm) : pg_dir * mm * bool :=
  match l with
  | [] => (pp, c, true)
  | v :: l =>
      let '(c, ok) := vma_clone c v in
      if negb ok then (pp, c, false)
      else
        let c := set_vmas c (vmas c ++ [v]) in
        let '(pp, c, ok) := dup_pages (page_count (v_start v) (v_end v)) pp c (v_flags v) (v_start v) in
        if negb ok then (pp, c, false) else dup_vmas l pp c
  end.

(** [mm_put] of the last reference. *)
Definition mm_free (m : mm) : mm :=
  set_vmas (foldl vma_free (set_sp m (free_tables (sp m))) (vmas m)) [].

(** The parent with the global state of [c]. *)
Definition sync (m : mm) (pp : pg_dir) (c : mm) : mm :=
  Mm (Space pp (rss (sp m)) (refs (sp c))) (vmas m) (brk_start m) (brk m) (mmap_base m) (stack_top m)
     (frefs c) (frames c) (allocs c) (supply c).

(** ** Address-space identifiers: src/arch/arm64/context.c *)

(** The bitmap as 64-bit words; [asid_wide] is what ID_AA64MMFR0_EL1 says of the
    machine, and the limit is set by the first allocation. *)
Record asids : Type := Asids { asid_map : Z → Z; asid_limit : Z; asid_next : Z; asid_wide : bool }.

Notation MAX_ASIDS := 65536%Z (only parsing).

Definition asid_used (A : asids) (a : Z) : bool := Z.testbit (asid_map A (a / 64)) (a `mod` 64).

Fixpoint asid_scan (n : nat) (A : asids) : asids * Z :=
  match n with
  | O => (A, -1)
  | S n =>
      let a := asid_next A in
      let A := Asids (asid_map A) (asid_limit A) (if asid_limit A <=? a + 1 then 1 else a + 1) (asid_wide A) in
      if asid_used A a then asid_scan n A
      else (Asids (<[a / 64 := Z.setbit (asid_map A (a / 64)) (a `mod` 64)]> (asid_map A)) (asid_limit A) (asid_next A) (asid_wide A), a)
  end.

Definition asid_alloc (A : asids) : asids * Z :=
  let A := if asid_limit A =? 0
           then Asids (<[0 := Z.lor (asid_map A 0) 1]> (asid_map A)) (if asid_wide A then MAX_ASIDS else 256) (asid_next A) (asid_wide A)
           else A in
  asid_scan (Z.to_nat (asid_limit A)) A.

Definition asid_free (A : asids) (a : Z) : asids :=
  if a =? 0 then A
  else Asids (<[a / 64 := Z.clearbit (asid_map A (a / 64)) (a `mod` 64)]> (asid_map A)) (asid_limit A) (asid_next A) (asid_wide A).

(** [mm_create] allocates the struct, the top table and an identifier; when the
    table is missing the identifier stays allocated. *)
Definition mm_create (m : mm) (A : asids) : mm * asids * option Z :=
  let '(m, ok1) := kalloc m in
  if negb ok1 then (m, A, None)
  else
    let '(m, ok2) := kalloc m in
    let '(A, a) := asid_alloc A in
    if negb ok2 || (a <? 0) then (m, A, None) else (m, A, Some a).

(** The child comes with its identifier. *)
Definition mm_dup (m : mm) (A : asids) : mm * asids * option (mm * Z) :=
  let '(m, A, o) := mm_create m A in
  match o with
  | None => (m, A, None)
  | Some a =>
      let c := Mm (Space empty_pgd 0 (refs (sp m))) [] (brk_start m) (brk m) (mmap_base m) (stack_top m)
                  (frefs m) (frames m) (allocs m) (supply m) in
      let '(pp, c, ok) := dup_vmas (vmas m) (pgd (sp m)) c in
      if ok then (sync m pp c, A, Some (c, a))
      else let c := mm_free c in (sync m pp c, asid_free A a, None)
  end.
