(* ===== verification/VmaSpec.v ===== *)
(** * Address spaces: what the VMA list means, and the mmap family

    A VMA list denotes a partial map [den] from page addresses to what a
    fault there would find: the flags, the file position and the number of
    file bytes of the page, the device address.  The operations of Vma are
    specified by what they do to this map, to the page table entries and to
    the reference counts of pages and files. *)

From stdpp Require Import functions.
From S2P Require Import Prelude CString DList Memblock Buddy PageTable Vma.

(** ** Well-formed lists *)

Record vma_wf (v : vma) : Prop := {
  wf_start : (PAGE_SIZE | v_start v);
  wf_end : (PAGE_SIZE | v_end v);
  wf_pos : 0 ≤ v_start v;
  wf_lt : v_start v < v_end v;
  wf_top : v_end v ≤ USER_VA_END;
  wf_bytes : u64_ok (file_bytes v);
  wf_stack : has (v_flags v) VM_GROWSDOWN = true → v_file v = None ∧ has (v_flags v) VM_IO = false;
}.

(** Sorted, disjoint, and everything from [lo] on. *)
Fixpoint vmas_wf (lo : Z) (l : list vma) : Prop :=
  match l with
  | [] => True
  | v :: l => lo ≤ v_start v ∧ vma_wf v ∧ vmas_wf (v_end v) l
  end.

Lemma vmas_wf_weaken lo lo' l : lo' ≤ lo → vmas_wf lo l → vmas_wf lo' l.
Proof. destruct l; simpl; [done|]. intros ? (?&?&?). split_and!; (done || lia). Qed.

Lemma vmas_wf_lookup lo l i v : vmas_wf lo l → l !! i = Some v → vma_wf v ∧ lo ≤ v_start v.
Proof.
  revert lo i. induction l as [|w l IH]; intros lo [|i] H E; simplify_eq/=; destruct H as (H1 & H2 & H3); [done|].
  destruct (IH _ _ H3 E) as [? ?]. split; [done|]. destruct H2. lia.
Qed.

(** ** The denotation *)

Record attr : Type := Attr {
  at_flags : Z;
  at_file : option (Z * Z * Z);
  at_io : option Z;
}.

(** The file bytes that [fill_page] reads into the page at [start + delta]. *)
Definition page_bytes (bytes delta : Z) : Z := Z.max 0 (Z.min PAGE_SIZE (bytes - delta)).

Definition attr_of (v : vma) (a : Z) : attr :=
  let delta := a - v_start v in
  Attr (v_flags v)
       ((λ f, (f, wrap64 (file_off v + delta), page_bytes (file_bytes v) delta)) <$> v_file v)
       (if has (v_flags v) VM_IO then Some (wrap64 (io_base v + delta)) else None).

Fixpoint den (l : list vma) (a : Z) : option attr :=
  match l with
  | [] => None
  | v :: l => if bool_decide (v_start v ≤ a < v_end v) then Some (attr_of v a) else den l a
  end.

Lemma den_below lo l a : vmas_wf lo l → a < lo → den l a = None.
Proof.
  revert lo. induction l as [|v l IH]; intros lo H Ha; [done|]. destruct H as (H1 & H2 & H3). simpl.
  destruct H2. rewrite bool_decide_false by lia. apply (IH (v_end v)); [done|lia].
Qed.

Lemma den_after lo v l a : vmas_wf lo (v :: l) → v_start v ≤ a < v_end v → den l a = None.
Proof. intros (_ & _ & H) Ha. apply (den_below (v_end v)); [done|lia]. Qed.

Lemma den_top lo l a : vmas_wf lo l → is_Some (den l a) → lo ≤ a < USER_VA_END.
Proof.
  revert lo. induction l as [|v l IH]; intros lo H Hs; [by destruct Hs|]. destruct H as (H1 & [] & H3). simpl in Hs.
  case_bool_decide; [lia|]. specialize (IH _ H3 Hs). lia.
Qed.

(** *** Searches *)

Lemma vma_find_spec lo l a :
  vmas_wf lo l →
  match vma_find l a with
  | Some i => ∃ v, l !! i = Some v ∧ v_start v ≤ a < v_end v ∧ den l a = Some (attr_of v a)
  | None => den l a = None
  end.
Proof.
  unfold vma_find. assert (∀ i0, vmas_wf lo l → match vma_find_from i0 l a with
    | Some i => ∃ j v, i = (i0 + j)%nat ∧ l !! j = Some v ∧ v_start v ≤ a < v_end v ∧ den l a = Some (attr_of v a)
    | None => den l a = None end) as H.
  { revert lo. induction l as [|v l IH]; intros lo i0 Hwf; simpl; [done|]. pose proof Hwf as (H1 & H2 & H3).
    case_test; [rewrite bool_decide_false by lia; apply (den_below (v_end v)); [done|destruct H2; lia]|].
    case_test; [rewrite bool_decide_true by lia; exists 0%nat, v; split_and!; (done || lia)|].
    rewrite bool_decide_false by lia. specialize (IH (v_end v) (S i0) H3).
    destruct (vma_find_from (S i0) l a); [|done]. destruct IH as (j & w & -> & ? & ? & ?).
    exists (S j), w. split_and!; (done || lia). }
  intros Hwf. specialize (H 0%nat Hwf). destruct (vma_find_from 0 l a); [|done]. naive_solver.
Qed.

Lemma vma_find_intersect_spec l start e :
  match vma_find_intersect l start e with
  | Some i => ∃ v, l !! i = Some v ∧ v_start v < e ∧ start < v_end v ∧
                   ∀ k w, (k < i)%nat → l !! k = Some w → v_end w ≤ start
  | None => ∀ lo, vmas_wf lo l → Forall (λ w, v_end w ≤ start ∨ e ≤ v_start w) l
  end.
Proof.
  unfold vma_find_intersect. assert (∀ i0, match vma_find_intersect_from i0 l start e with
    | Some i => ∃ j v, i = (i0 + j)%nat ∧ l !! j = Some v ∧ v_start v < e ∧ start < v_end v ∧
                       ∀ k w, (k < j)%nat → l !! k = Some w → v_end w ≤ start
    | None => ∀ lo, vmas_wf lo l → Forall (λ w, v_end w ≤ start ∨ e ≤ v_start w) l end) as H.
  { induction l as [|v l IH]; intros i0; simpl; [by intros; constructor|]. case_test.
    { intros lo (H1 & H2 & H3). constructor; [by right|]. clear IH. revert H3. destruct H2.
      assert (e ≤ v_end v) as Hle by lia. revert Hle. generalize (v_end v).
      induction l as [|w l IH]; intros z Hz Hwf; [constructor|]. destruct Hwf as (? & [] & ?).
      constructor; [right; lia|]. apply (IH (v_end w)); (done || lia). }
    case_test.
    { exists 0%nat, v. split_and!; try (done || lia). }
    specialize (IH (S i0)). destruct (vma_find_intersect_from (S i0) l start e).
    - destruct IH as (j & w & -> & ? & ? & ? & Hk). exists (S j), w. split_and!; try (done || lia).
      intros [|k] u Hlt Hu; simplify_eq/=; [done|]. apply (Hk k); (done || lia).
    - intros lo (_ & _ & H3). constructor; [by left|]. by eapply IH. }
  specialize (H 0%nat). destruct (vma_find_intersect_from 0 l start e); [|done]. naive_solver.
Qed.

(** A hole of the list is a hole of the denotation. *)
Lemma den_hole l start e a :
  Forall (λ w, v_end w ≤ start ∨ e ≤ v_start w) l → start ≤ a < e → den l a = None.
Proof.
  induction 1 as [|w l Hw Hl IH]; intros Ha; [done|]. simpl. rewrite bool_decide_false by lia. by apply IH.
Qed.

Lemma den_in l i w a : l !! i = Some w → v_start w ≤ a < v_end w → den l a ≠ None.
Proof.
  revert i. induction l as [|v l IH]; intros [|i] Hi Ha; simplify_eq/=; case_bool_decide; try done. by eapply IH.
Qed.

Lemma den_none_hole lo l start e :
  vmas_wf lo l → (PAGE_SIZE | start) → start < e → (∀ a, (PAGE_SIZE | a) → start ≤ a < e → den l a = None) →
  Forall (λ w, v_end w ≤ start ∨ e ≤ v_start w) l.
Proof.
  intros Hwf Hs Hlt Hn. apply Forall_lookup. intros i w Hw. destruct (vmas_wf_lookup _ _ _ _ Hwf Hw) as [[] _].
  destruct (decide (v_end w ≤ start)); [by left|]. destruct (decide (e ≤ v_start w)); [by right|exfalso].
  apply (den_in l i w (Z.max start (v_start w))); [done|lia|]. apply Hn; [|lia].
  by destruct (Z.max_spec start (v_start w)) as [[_ ->]|[_ ->]].
Qed.

(** *** Splitting changes nothing *)

Lemma wrap64_add_l x y : wrap64 (wrap64 x + y) = wrap64 (x + y).
Proof. apply Zplus_mod_idemp_l. Qed.

Lemma split_wf v addr :
  vma_wf v → (PAGE_SIZE | addr) → v_start v < addr < v_end v →
  vma_wf (split_lo v addr) ∧ vma_wf (split_hi v addr).
Proof.
  intros [H1 H2 H3 H4 H5 H6 H7] Hd Ha. unfold USER_VA_END, u64_ok, U64 in *.
  split; split; simpl; try done; unfold USER_VA_END; try lia.
  - rewrite sub64_small by (unfold U64; lia). unfold u64_ok, U64. lia.
  - unfold u64_ok, U64. rewrite sub64_small by (unfold U64; lia). case_test; [|lia].
    rewrite sub64_small by (unfold U64; lia). lia.
Qed.

Lemma split_attr v addr a :
  vma_wf v → (PAGE_SIZE | addr) → v_start v < addr < v_end v → (PAGE_SIZE | a) →
  (v_start v ≤ a < addr → attr_of (split_lo v addr) a = attr_of v a) ∧
  (addr ≤ a < v_end v → attr_of (split_hi v addr) a = attr_of v a).
Proof.
  intros [H1 H2 H3 H4 H5 H6 H7] Hd Ha Hda. unfold USER_VA_END, u64_ok, U64 in *.
  unfold attr_of, split_lo, split_hi. cbn [v_start v_flags v_file file_off file_bytes io_base].
  rewrite sub64_small by (unfold U64; lia). set (d := addr - v_start v). split; intros Hr.
  - pose proof (divide_gap PAGE_SIZE a addr ltac:(done) Hda Hd ltac:(lia)).
    replace (page_bytes (Z.min (file_bytes v) d) (a - v_start v)) with (page_bytes (file_bytes v) (a - v_start v))
      by (unfold page_bytes; lia). done.
  - f_equal.
    + destruct (v_file v) as [f|]; [|done]. simpl. unfold add64. rewrite wrap64_add_l.
      replace (file_off v + d + (a - addr)) with (file_off v + (a - v_start v)) by lia.
      do 2 f_equal. unfold page_bytes. case_test; [rewrite sub64_small by (unfold U64; lia)|]; unfold PAGE_SIZE; lia.
    + case_test; [|done]. unfold add64. rewrite wrap64_add_l. do 2 f_equal. lia.
Qed.

Lemma split_den v addr l a :
  vma_wf v → (PAGE_SIZE | addr) → v_start v < addr < v_end v → (PAGE_SIZE | a) →
  den (split_lo v addr :: split_hi v addr :: l) a = den (v :: l) a.
Proof.
  intros Hwf Hd Ha Hda. destruct (split_attr v addr a Hwf Hd Ha Hda) as [Hlo Hhi]. simpl.
  repeat case_bool_decide; try lia; [by rewrite Hlo|by rewrite Hhi|done].
Qed.

Lemma split_list lo v addr l :
  vmas_wf lo (v :: l) → (PAGE_SIZE | addr) → v_start v < addr < v_end v →
  vmas_wf lo (split_lo v addr :: split_hi v addr :: l).
Proof.
  intros (H1 & H2 & H3) Hd Ha. destruct (split_wf v addr H2 Hd Ha) as [Hl Hh]. simpl.
  split_and!; (done || lia).
Qed.

(** ** References to files *)

Definition one (f : Z) (o : option Z) : Z := if bool_decide (o = Some f) then 1 else 0.
Fixpoint nfile (f : Z) (l : list vma) : Z :=
  match l with [] => 0 | v :: l => one f (v_file v) + nfile f l end.

Lemma file_get_refs m o f : frefs (file_get m o) f = frefs m f + one f o.
Proof.
  unfold one. destruct o as [g|]; cbn [file_get file_put set_frefs frefs]; [|rewrite bool_decide_false by done; lia].
  destruct (decide (g = f)) as [->|]; [rewrite fn_lookup_insert, bool_decide_true by done; lia|].
  rewrite fn_lookup_insert_ne, bool_decide_false by congruence. lia.
Qed.

Lemma file_put_refs m o f : frefs (file_put m o) f = frefs m f - one f o.
Proof.
  unfold one. destruct o as [g|]; cbn [file_get file_put set_frefs frefs]; [|rewrite bool_decide_false by done; lia].
  destruct (decide (g = f)) as [->|]; [rewrite fn_lookup_insert, bool_decide_true by done; lia|].
  rewrite fn_lookup_insert_ne, bool_decide_false by congruence. lia.
Qed.

(** ** Steps of the walks

    [same_env] is the part of the state that the list walks leave alone. *)

Definition plenty (m : mm) : Prop := Forall (eq true) (allocs m).

Record same_env (m m' : mm) : Prop := {
  se_brk_start : brk_start m' = brk_start m;
  se_brk : brk m' = brk m;
  se_base : mmap_base m' = mmap_base m;
  se_top : stack_top m' = stack_top m;
  se_frames : frames m' = frames m;
  se_supply : supply m' = supply m;
  se_plenty : plenty m → plenty m';
}.

#[export] Instance same_env_refl : Reflexive same_env.
Proof. by split. Qed.
#[export] Instance same_env_trans : Transitive same_env.
Proof. intros a b c [] []. split; (congruence || auto). Qed.

Lemma kalloc_spec m m' ok :
  kalloc m = (m', ok) →
  same_env m m' ∧ sp m' = sp m ∧ vmas m' = vmas m ∧ frefs m' = frefs m ∧ (plenty m → ok = true).
Proof.
  unfold kalloc, table_alloc, plenty. intros H.
  destruct (allocs m) as [|b l] eqn:E; simplify_eq/=; split_and!; try done; try (split; try done); unfold plenty; simpl;
    rewrite ?E; intros Hp; inversion Hp; subst; done.
Qed.

Lemma vma_split_spec m v addr m' s :
  vma_split m v addr = (m', s) →
  same_env m m' ∧ sp m' = sp m ∧
  match s with
  | None => ¬ plenty m ∧ frefs m' = frefs m
  | Some (lo, hi) => lo = split_lo v addr ∧ hi = split_hi v addr ∧
                     ∀ f, frefs m' f = frefs m f + one f (v_file v)
  end.
Proof.
  unfold vma_split, vma_clone. destruct (kalloc m) as [m1 ok] eqn:E.
  apply kalloc_spec in E as (Hse & Hsp & _ & Hf & Hp). intros H.
  destruct ok; simplify_eq; [|split_and!; [done..| |done]; intros ?; by discriminate Hp].
  split_and!; [destruct (v_file v); [by destruct Hse; split|done]|by destruct (v_file v)|done|done|].
  intros f. by rewrite file_get_refs, Hf.
Qed.

Section Walk.
Context (start e : Z) (Hstart : (PAGE_SIZE | start)) (He : (PAGE_SIZE | e)) (Hse : 0 ≤ start ≤ e).

(** The list [l] with state [m] has lost some VMAs of the range. *)
Record carved (m : mm) (l : list vma) (m' : mm) (l' : list vma) : Prop := {
  cv_in a : (PAGE_SIZE | a) → den l' a = None ∨ den l' a = den l a;
  cv_out a : (PAGE_SIZE | a) → ¬ (start ≤ a < e) → den l' a = den l a;
  cv_gone a : (PAGE_SIZE | a) → 0 ≤ a < USER_VA_END → is_Some (den l a) → den l' a = None →
    pte_valid (pte_of m' a) = false;
  cv_kept a : (PAGE_SIZE | a) → 0 ≤ a < USER_VA_END → den l a = None ∨ is_Some (den l' a) →
    pte_of m' a = pte_of m a;
  cv_bal : balanced (sp m) (sp m');
  cv_files f : frefs m' f - nfile f l' = frefs m f - nfile f l;
  cv_env : same_env m m';
}.

Lemma carved_refl m l : carved m l m l.
Proof. split; try done; [by right|]. intros a _ _ [? ?] ?. congruence. Qed.

Lemma carved_trans m l m1 l1 m2 l2 : carved m l m1 l1 → carved m1 l1 m2 l2 → carved m l m2 l2.
Proof.
  intros [I1 O1 G1 K1 B1 F1 E1] [I2 O2 G2 K2 B2 F2 E2]. split.
  - intros a Hd. destruct (I2 a Hd) as [?| ->]; [by left|by apply I1].
  - intros a Hd Ha. by rewrite O2, O1.
  - intros a Hd Ha Hs Hn. destruct (den l1 a) eqn:E; [by apply G2|].
    rewrite K2 by (done || by left). by apply G1.
  - intros a Hd Ha H. rewrite K2, K1; try done.
    + destruct H as [?|Hs]; [by left|right]. destruct (I2 a Hd) as [Hn|E]; [rewrite Hn in Hs; by destruct Hs|].
      by rewrite <-E.
    + destruct H as [Hn|?]; [left|by right]. destruct (I1 a Hd) as [?| ->]; done.
  - by etrans.
  - intros f. by rewrite F2, F1.
  - by etrans.
Qed.

Lemma carved_cons c v m l m' l' :
  vmas_wf c (v :: l) → carved m l m' l' → carved m (v :: l) m' (v :: l').
Proof.
  intros Hwf [I O G K B F E]. split; try done; simpl.
  - intros a Hd. case_bool_decide; [by right|by apply I].
  - intros a Hd Ha. case_bool_decide; [done|by apply O].
  - intros a Hd Ha. case_bool_decide; [done|by apply G].
  - intros a Hd Ha H. case_bool_decide as Hv; [|by apply K].
    apply K; [done..|left]. by apply (den_after c v).
  - intros f. specialize (F f). lia.
Qed.

(** A list with other cuts, but the same pages. *)
Record resplit (m : mm) (l : list vma) (m' : mm) (l' : list vma) : Prop := {
  rs_den a : (PAGE_SIZE | a) → den l' a = den l a;
  rs_sp : sp m' = sp m;
  rs_files f : frefs m' f - nfile f l' = frefs m f - nfile f l;
  rs_env : same_env m m';
}.

Lemma resplit_split v addr l m m' :
  vma_wf v → (PAGE_SIZE | addr) → v_start v < addr < v_end v →
  vma_split m v addr = (m', Some (split_lo v addr, split_hi v addr)) →
  resplit m (v :: l) m' (split_lo v addr :: split_hi v addr :: l).
Proof.
  intros Hwf Hd Ha H. apply vma_split_spec in H as (Henv & Hsp & _ & _ & Hf).
  split; [intros; by apply split_den|done| |done]. intros f. rewrite Hf. simpl. lia.
Qed.

Lemma resplit_carved m l m' l' : resplit m l m' l' → carved m l m' l'.
Proof.
  intros [E Hsp Hf Henv]. split; try done.
  - intros a ?. right. by apply E.
  - intros a ? _. by apply E.
  - intros a ? _ [x Hx] Hn. rewrite E in Hn by done. congruence.
  - intros a _ _ _. unfold pte_of. by rewrite Hsp.
  - by rewrite Hsp.
Qed.

Lemma carved_zap c v l m :
  vmas_wf c (v :: l) → start ≤ v_start v → v_end v ≤ e → u64_ok (rss (sp m)) →
  carved m (v :: l) (vma_free (set_sp m (zap_range (sp m) (v_start v) (v_end v))) v) l.
Proof.
  intros Hwf Hlo Hhi Hr. pose proof Hwf as (_ & [H1 H2 H3 H4 H5 H6 H7] & _).
  destruct (zap_range_spec (sp m) (v_start v) (v_end v)) as (Hp & _ & _); [lia|done..|].
  set (m1 := set_sp m _). assert (sp (vma_free m1 v) = sp m1) as Esp by (by destruct (v_file v) eqn:E; unfold vma_free; rewrite E).
  assert (∀ a, 0 ≤ a < USER_VA_END → pte_of (vma_free m1 v) a =
    if bool_decide (v_start v ≤ a < v_end v) && pte_valid (pte_of m a) then 0 else pte_of m a) as Hpte.
  { intros a Ha. unfold pte_of. rewrite Esp. by apply Hp. }
  split; simpl.
  - intros a Hd. case_bool_decide; [left; by apply (den_after c v)|by right].
  - intros a Hd Ha. rewrite bool_decide_false by lia. done.
  - intros a Hd Ha [x Hx] Hn. rewrite Hpte by done. case_bool_decide; [|congruence]. simpl.
    by destruct (pte_valid (pte_of m a)) eqn:E.
  - intros a Hd Ha H. rewrite Hpte by done. case_bool_decide as Hv; [|done].
    destruct H as [?|[x Hx]]; [done|]. rewrite (den_after c v) in Hx by done. done.
  - rewrite Esp. apply zap_range_balanced; (done || lia).
  - intros f. unfold vma_free. rewrite file_put_refs. simpl. lia.
  - unfold vma_free. destruct (v_file v); by split.
Qed.

(** The rounds of the walk: one per VMA and one per split. *)
Definition straddles (a : Z) (v : vma) : nat :=
  if (v_start v <? a) && (a <? v_end v) then 1%nat else 0%nat.
Fixpoint cost (l : list vma) : nat :=
  match l with [] => 0 | v :: l => 1 + straddles start v + straddles e v + cost l end%nat.

Lemma cost_le l : (cost l ≤ 3 * length l)%nat.
Proof. induction l as [|v l IH]; simpl; [lia|]. unfold straddles. repeat case_test; lia. Qed.

(** A split at one edge leaves fewer rounds. *)
Lemma cost_hi_start v l :
  v_start v < start → start < v_end v → (cost (split_hi v start :: l) < cost (v :: l))%nat.
Proof. intros. unfold cost; fold cost. unfold straddles, split_hi. cbn [v_start v_end]. repeat case_test; zsplit; lia. Qed.

Lemma cost_hi_end v l :
  start ≤ v_start v → v_start v < e → e < v_end v → (cost (split_hi v e :: l) < cost (v :: l))%nat.
Proof. intros. unfold cost; fold cost. unfold straddles, split_hi. cbn [v_start v_end]. repeat case_test; zsplit; lia. Qed.

(** A VMA that one of the edges cuts. *)
Definition cut (l : list vma) : Prop :=
  Exists (λ v, v_start v < start < v_end v ∨ v_start v < e < v_end v) l.

(** Success, or a failed allocation for a split. *)
Definition unmap_result (m : mm) (l l' : list vma) (r : Z) : Prop :=
  (r = 0 ∧ ∀ a, (PAGE_SIZE | a) → start ≤ a < e → den l' a = None) ∨ (r = - ENOMEM ∧ ¬ plenty m ∧ cut l).

Lemma unmap_result_cons v m m' l1 l l' r :
  v_end v ≤ start → same_env m m' → (cut l1 → cut l) → unmap_result m' l1 l' r → unmap_result m l (v :: l') r.
Proof.
  intros Hv Henv Hl [[-> H]|(-> & H & Hc)]; [left|right; split_and!; [done| |by apply Hl]].
  - split; [done|]. intros a Hd Ha. simpl. rewrite bool_decide_false by lia. by apply H.
  - intros Hp. by apply H, Henv.
Qed.

Lemma unmap_result_env m m' l1 l l' r :
  same_env m m' → (cut l1 → cut l) → unmap_result m' l1 l' r → unmap_result m l l' r.
Proof.
  intros Henv Hl [H|(-> & H & Hc)]; [by left|right; split_and!; [done| |by apply Hl]]. intros Hp. by apply H, Henv.
Qed.

Lemma cut_tail v l : cut l → cut (v :: l).
Proof. apply Exists_cons_tl. Qed.

Lemma cut_hi v addr l : v_start v < addr → addr ≤ e → cut (split_hi v addr :: l) → cut (v :: l) ∨ addr < start.
Proof.
  intros Hlt Hle [H|H]%Exists_cons; [|left; by apply cut_tail]. simpl in H.
  destruct (decide (addr < start)); [by right|left]. apply Exists_cons_hd. lia.
Qed.

(** The head of the list with everything from [e] on split off. *)
Lemma unmap_tail v l m c :
  vmas_wf c (v :: l) → start ≤ v_start v → v_start v < e →
  let '(m', s) := if e <? v_end v then
                    let '(m, s) := vma_split m v e in
                    (m, match s with None => None | Some (lo, hi) => Some (lo, hi :: l) end)
                  else (m, Some (v, l)) in
  same_env m m' ∧ sp m' = sp m ∧
  match s with
  | None => ¬ plenty m ∧ frefs m' = frefs m ∧ cut (v :: l)
  | Some (w, l') => resplit m (v :: l) m' (w :: l') ∧ vmas_wf c (w :: l') ∧ (cost l' < cost (v :: l))%nat ∧
                    v_start w = v_start v ∧ v_end w ≤ e ∧ (cut l' → cut (v :: l))
  end.
Proof.
  intros Hwf Hs Hlt. destruct (e <? v_end v) eqn:Hend; zbool; swap 1 2.
  { split_and!; [done..|by split|done|simpl; lia|done|lia|apply cut_tail]. }
  destruct (vma_split m v e) as [m' s] eqn:E. pose proof E as E'.
  apply vma_split_spec in E as (Henv & Hsp & H). destruct s as [[lo hi]|].
  2:{ destruct H. split_and!; try done. apply Exists_cons_hd. lia. }
  destruct H as (-> & -> & Hf). split_and!; [done..|apply resplit_split; [apply Hwf|done|lia|done]| | |done|done|].
  - by apply split_list.
  - apply cost_hi_end; (done || lia).
  - intros Hc. apply cut_hi in Hc as [?|?]; (done || lia).
Qed.

Lemma unmap_loop_spec fuel m pre l c :
  vmas_wf c l → u64_ok (rss (sp m)) → (cost l < fuel)%nat →
  ∃ m' l' r, unmap_loop fuel m pre l start e = Some (set_vmas m' (pre ++ l'), r) ∧
    carved m l m' l' ∧ vmas_wf c l' ∧ unmap_result m l l' r.
Proof.
  revert m pre l c. induction fuel as [|fuel IH]; intros m pre l c Hwf Hr Hfuel; [lia|].
  destruct l as [|v l]; cbn [unmap_loop].
  { exists m, [], 0. rewrite app_nil_r. split_and!; [done|apply carved_refl|done|]. by left. }
  pose proof Hwf as (Hc & Hv & Hl). destruct (v_end v <=? start) eqn:Hend; zbool.
  { destruct (IH m (pre ++ [v]) l _ Hl Hr) as (m' & l' & r & Hrun & Hcv & Hwf' & Hres); [simpl in Hfuel; lia|].
    exists m', (v :: l'), r. rewrite <-app_assoc in Hrun. split_and!; [done|by eapply carved_cons|done|].
    eapply unmap_result_cons; [done|done|apply cut_tail|done]. }
  destruct (e <=? v_start v) eqn:Hbr; zbool.
  { exists m, (v :: l), 0. split_and!; [done|apply carved_refl|done|]. left. split; [done|].
    intros a Hd Ha. apply (den_below (v_start v)); [|lia]. by split_and!. }
  destruct (v_start v <? start) eqn:Hst; zbool.
  { destruct (vma_split m v start) as [m1 s] eqn:E. pose proof E as E'.
    apply vma_split_spec in E as (Henv & Hsp & H). destruct s as [[lo hi]|].
    - destruct H as (-> & -> & Hf).
      pose proof (split_list c v start l Hwf Hstart ltac:(lia)) as Hwf1.
      destruct (IH m1 (pre ++ [split_lo v start]) (split_hi v start :: l) start)
        as (m' & l' & r & Hrun & Hcv & Hwf' & Hres); [apply Hwf1|by rewrite Hsp| |].
      { pose proof (cost_hi_start v l Hst Hend). lia. }
      exists m', (split_lo v start :: l'), r. rewrite <-app_assoc in Hrun. split_and!; [done| | |].
      + eapply carved_trans; [apply resplit_carved, (resplit_split v start); [done|done|lia|done]|]. by eapply carved_cons.
      + split_and!; [apply Hwf1|apply Hwf1|done].
      + eapply unmap_result_cons; [done|done| |done]. intros Hcc. apply cut_hi in Hcc as [?|?]; (done || lia).
    - exists m1, (v :: l), (- ENOMEM).
      split_and!; [done| |done|right; split_and!; [done|apply H|apply Exists_cons_hd; lia]].
      split; try done; [by right|intros a _ _ [? ?] ?; congruence|intros; unfold pte_of; by rewrite Hsp|by rewrite Hsp|].
      intros f. by rewrite (proj2 H). }
  pose proof (unmap_tail v l m c Hwf Hst Hbr) as Ht.
  destruct (if e <? v_end v then _ else _) as [m1 s] eqn:E. destruct Ht as (Henv & Hsp & Ht).
  destruct s as [[w l1]|].
  - destruct Ht as (Hcv1 & Hwf1 & Hcost & Hws & Hwe & Hcut).
    pose proof (carved_zap c w l1 m1 Hwf1 ltac:(lia) Hwe ltac:(by rewrite Hsp)) as Hz.
    set (m2 := vma_free _ w) in *.
    destruct (IH m2 pre l1 c) as (m' & l' & r & Hrun & Hcv & Hwf' & Hres).
    { destruct Hwf1 as (Hc1 & [] & Hwf1). eapply vmas_wf_weaken; [|done]. lia. }
    { apply (cv_bal _ _ _ _ Hz). by rewrite Hsp. }
    { lia. }
    exists m', l', r. split_and!; [done| |done|].
    + eapply carved_trans; [by apply resplit_carved|]. by eapply carved_trans.
    + eapply unmap_result_env; [|done|done]. etrans; [done|apply Hz].
  - destruct Ht as (Hp & Hf & Hcc). exists m1, (v :: l), (- ENOMEM). split_and!; [done| |done|by right].
    split; try done; [by right|intros a _ _ [? ?] ?; congruence|intros; unfold pte_of; by rewrite Hsp|by rewrite Hsp|].
    intros f. by rewrite Hf.
Qed.

End Walk.

(** ** The invariant of an address space

    The VMA list is well formed, every valid entry lies in a VMA, no entry
    gives user code more than the flags of its VMA, every owned entry has a
    reference, and a page that is mapped writable and private has no other
    reference. *)

Definition allowed (flags v : Z) : Prop :=
  (has v PTE_RDONLY = false → has flags VM_WRITE = true) ∧
  (has v PTE_UXN = false → has flags VM_EXEC = true).

Definition pte_frame (v : Z) : Z := phys_to_page (pte_addr v).

(** A page that its process can write without a fault and should not share. *)
Definition exclusive (flags v : Z) : Prop :=
  has flags VM_SHARED = false ∧ owned v = true ∧ has v PTE_RDONLY = false.

Record mm_ok (m : mm) : Prop := {
  ok_vmas : vmas_wf 0 (vmas m);
  ok_ptes a : (PAGE_SIZE | a) → 0 ≤ a < USER_VA_END → pte_valid (pte_of m a) = true →
    ∃ t, den (vmas m) a = Some t ∧ allowed (at_flags t) (pte_of m a) ∧
      (exclusive (at_flags t) (pte_of m a) → refs (sp m) (pte_frame (pte_of m a)) = 1);
  ok_held x : held x (pgd (sp m)) ≤ refs (sp m) x;
  ok_rss : u64_ok (rss (sp m));
}.

Lemma own_frame v : owned v = true → own (pte_frame v) v = 1.
Proof. intros H. unfold own, pte_frame. by rewrite H, Z.eqb_refl. Qed.

(** Every page that an entry owns is counted, so that [page_put] on it does not
    panic; operations that are [balanced] keep it so at every step. *)
Lemma put_counted s a :
  (∀ x, held x (pgd s) ≤ refs s x) → (PAGE_SIZE | a) → 0 ≤ a < USER_VA_END → owned (pte_at (pgd s) a) = true → 1 ≤ refs s (pte_frame (pte_at (pgd s) a)).
Proof. intros H Hd Ha Ho. pose proof (held_ge1 _ (pgd s) a Hd Ha (own_frame _ Ho)). specialize (H (pte_frame (pte_at (pgd s) a))). lia. Qed.
Lemma balanced_counted s s' : balanced s s' → (∀ x, held x (pgd s) ≤ refs s x) → ∀ x, held x (pgd s') ≤ refs s' x.
Proof. intros Hb H x. pose proof (bal_refs _ _ Hb x). specialize (H x). lia. Qed.

(** A frame with one reference, which is an entry that stays, keeps it when
    no other entry can appear. *)
Lemma exclusive_kept s s' a :
  balanced s s' → (PAGE_SIZE | a) → 0 ≤ a < USER_VA_END → owned (pte_at (pgd s') a) = true →
  let x := pte_frame (pte_at (pgd s') a) in
  held x (pgd s') ≤ held x (pgd s) → held x (pgd s) ≤ refs s x → refs s x = 1 → refs s' x = 1.
Proof.
  intros Hb Hd Ha Ho x Hle Hh Hr. pose proof (bal_refs _ _ Hb x).
  pose proof (held_ge1 x (pgd s') a Hd Ha (own_frame _ Ho)). lia.
Qed.

(** An entry after carving is the old one, still mapped as before, or invalid. *)
Lemma carved_entry start e m l m' a :
  carved start e m (vmas m) m' l → mm_ok m → (PAGE_SIZE | a) → 0 ≤ a < USER_VA_END →
  (is_Some (den l a) ∧ den l a = den (vmas m) a ∧ pte_of m' a = pte_of m a) ∨ pte_valid (pte_of m' a) = false.
Proof.
  intros Hcv Hok Hd Ha. destruct (den l a) as [t|] eqn:E.
  - left. split_and!; [by eexists|destruct (cv_in _ _ _ _ _ _ Hcv a Hd); congruence|].
    apply Hcv; (done || (right; by eexists)).
  - right. destruct (den (vmas m) a) as [t|] eqn:E'; [apply Hcv; (done || by eexists)|].
    rewrite (cv_kept _ _ _ _ _ _ Hcv a) by (done || by left).
    destruct (pte_valid (pte_of m a)) eqn:Hv; [|done].
    destruct (ok_ptes m Hok a Hd Ha Hv) as (t & Ht & _). congruence.
Qed.

Lemma carved_held start e m l m' x :
  carved start e m (vmas m) m' l → mm_ok m → held x (pgd (sp m')) ≤ held x (pgd (sp m)).
Proof.
  intros Hcv Hok. apply held_mono. intros a Hd Ha.
  destruct (carved_entry _ _ _ _ _ a Hcv Hok Hd Ha) as [(_ & _ & E)|Hv]; unfold pte_of in *; [by rewrite E|].
  unfold own at 1, owned. rewrite Hv. apply own_nonneg.
Qed.

Lemma carved_ok start e m l m' :
  carved start e m (vmas m) m' l → vmas_wf 0 l → mm_ok m → mm_ok (set_vmas m' l).
Proof.
  intros Hcv Hwf Hok. pose proof Hok as [H1 H2 H3 H4]. pose proof (cv_bal _ _ _ _ _ _ Hcv) as Hb.
  split; [done| | |by apply Hb].
  - intros a Hd Ha Hv. change (pte_of (set_vmas m' l) a) with (pte_of m' a) in *. cbn [vmas set_vmas sp].
    destruct (carved_entry _ _ _ _ _ a Hcv Hok Hd Ha) as [(_ & E & Ep)|?]; [|congruence].
    rewrite Ep in Hv. destruct (H2 a Hd Ha Hv) as (t & Ht & Hal & Hex). exists t.
    split_and!; [by rewrite E|by rewrite Ep|]. intros Hx.
    eapply (exclusive_kept (sp m) (sp m') a); [done..|apply Hx|by eapply carved_held|apply H3|].
    change (pte_at (pgd (sp m')) a) with (pte_of m' a). rewrite Ep in *. by apply Hex.
  - intros x. cbn [set_vmas sp]. pose proof (bal_refs _ _ Hb x). specialize (H3 x). lia.
Qed.

Lemma mm_ok_eq m m' : vmas m' = vmas m → sp m' = sp m → mm_ok m → mm_ok m'.
Proof. intros Hv Hs [H1 H2 H3 H4]. split; unfold pte_of; rewrite ?Hv, ?Hs; assumption. Qed.

(** An address space without pages. *)
Lemma fresh_mm_ok m :
  pgd (sp m) = empty_pgd → vmas_wf 0 (vmas m) → (∀ x, 0 ≤ refs (sp m) x) → u64_ok (rss (sp m)) → mm_ok m.
Proof.
  intros Hp Hwf Hr Hs. split; [done| | |done].
  - intros a _ _. unfold pte_of, pte_at. by rewrite Hp.
  - intros x. rewrite Hp, held_empty. apply Hr.
Qed.

(** What removing [start, e) does; [r] is 0 or, when an allocation for a
    split fails, -ENOMEM with only part of the range gone. *)
Record unmapped (start e : Z) (m m' : mm) (r : Z) : Prop := {
  um_carved : carved start e m (vmas m) m' (vmas m');
  um_ok : mm_ok m';
  um_result : unmap_result start e m (vmas m) (vmas m') r;
}.

Lemma unmap_region_spec m start e :
  mm_ok m → (PAGE_SIZE | start) → (PAGE_SIZE | e) → 0 ≤ start ≤ e →
  ∃ m' r, unmap_region m start e = Some (m', r) ∧ unmapped start e m m' r.
Proof.
  intros Hok Hs He Hse. pose proof Hok as [H1 _ _ H3].
  pose proof (cost_le start e (vmas m)).
  destruct (unmap_loop_spec start e Hs He Hse (S (3 * length (vmas m))) m [] (vmas m) 0 H1 H3)
    as (m' & l' & r & Hrun & Hcv & Hwf & Hres); [lia|].
  exists (set_vmas m' l'), r. split; [done|]. split; [|by eapply carved_ok|done].
  destruct Hcv as [? ? ? ? ? ? []]. by split.
Qed.

Lemma page_mask a : u64_ok a → (Z.land a (PAGE_SIZE - 1) =? 0) = bool_decide ((PAGE_SIZE | a)).
Proof.
  intros Ha. change (PAGE_SIZE - 1) with (Z.ones 12). rewrite Z.land_ones by lia.
  case_bool_decide as H; [apply Z.eqb_eq; by apply Z.mod_divide in H|].
  apply Z.eqb_neq. intros E. apply H. by apply Z.mod_divide.
Qed.

Lemma ALIGN_UP_page len :
  u64_ok len → (PAGE_SIZE | ALIGN_UP len PAGE_SIZE) ∧ 0 ≤ ALIGN_UP len PAGE_SIZE ≤ U64 - PAGE_SIZE ∧
  (len ≤ U64 - PAGE_SIZE → len ≤ ALIGN_UP len PAGE_SIZE < len + PAGE_SIZE) ∧
  (U64 - PAGE_SIZE < len → ALIGN_UP len PAGE_SIZE = 0).
Proof.
  intros [H0 H1]. destruct (decide (len ≤ U64 - PAGE_SIZE)).
  - destruct (ALIGN_UP_spec len PAGE_SIZE) as [Hd Hr]; [auto with olux|lia|lia|].
    split_and!; try (done || lia).
    assert (PAGE_SIZE | U64 - PAGE_SIZE) as Hu by (by exists (2 ^ 52 - 1)).
    destruct (decide (ALIGN_UP len PAGE_SIZE ≤ U64 - PAGE_SIZE)); [done|].
    pose proof (divide_gap PAGE_SIZE _ _ ltac:(done) Hu Hd ltac:(lia)). lia.
  - rewrite ALIGN_UP_wraps by lia. split_and!; try (done || lia). by apply Z.divide_0_r.
Qed.

(** C11.  [do_munmap] refuses an unaligned address, an empty length and a
    range that leaves the user half, changing nothing.  Otherwise it removes
    from the mapping exactly the pages of the rounded range: all of them on
    success, possibly fewer on -ENOMEM, which needs a failed allocation.
    Pages outside keep what they map (flags, file position, device address)
    and their entries; no entry of a removed page stays valid; the page and
    file reference counts move by exactly the entries and VMAs removed; and
    the invariant of the address space is kept. *)
Theorem do_munmap_correct m addr len :
  mm_ok m → u64_ok addr → u64_ok len →
  let e := addr + ALIGN_UP len PAGE_SIZE in
  ∃ m' r, do_munmap m addr len = Some (m', r) ∧ mm_ok m' ∧
    (if bool_decide ((PAGE_SIZE | addr) ∧ len ≠ 0 ∧ e ≤ USER_VA_END) then
       (r = 0 ∨ (r = - ENOMEM ∧ ¬ plenty m)) ∧
       (∀ a, (PAGE_SIZE | a) →
          (addr ≤ a < e → den (vmas m') a = None ∨ r ≠ 0 ∧ den (vmas m') a = den (vmas m) a) ∧
          (¬ addr ≤ a < e → den (vmas m') a = den (vmas m) a)) ∧
       (∀ a, (PAGE_SIZE | a) → 0 ≤ a < USER_VA_END →
          (den (vmas m') a = None → pte_valid (pte_of m' a) = false) ∧
          (is_Some (den (vmas m') a) → pte_of m' a = pte_of m a)) ∧
       balanced (sp m) (sp m') ∧
       (∀ f, frefs m' f - nfile f (vmas m') = frefs m f - nfile f (vmas m)) ∧
       same_env m m'
     else r = - EINVAL ∧ m' = m).
Proof.
  intros Hok Ha Hl. cbn zeta. destruct (ALIGN_UP_page len Hl) as (Hd & Hr & _ & _).
  set (n := ALIGN_UP len PAGE_SIZE) in *. unfold do_munmap. fold n. rewrite page_mask by done.
  destruct (bool_decide (PAGE_SIZE | addr)) eqn:E1; swap 1 2.
  { exists m, (- EINVAL). split_and!; [done|done|]. rewrite bool_decide_false; [done|].
    intros [? _]. by apply bool_decide_eq_false in E1. }
  apply bool_decide_eq_true in E1. simpl. destruct (len =? 0) eqn:E2; zbool.
  { exists m, (- EINVAL). split_and!; [done|done|]. rewrite bool_decide_false; [done|]. naive_solver. }
  assert (((USER_VA_END <? addr ⊕ n) || (addr ⊕ n <? addr)) = negb (bool_decide (addr + n ≤ USER_VA_END))) as ->.
  { unfold u64_ok, add64, wrap64, U64, USER_VA_END, PAGE_SIZE in *. case_bool_decide.
    - rewrite Z.mod_small by lia. lia.
    - destruct (decide (addr + n < 2 ^ 64)); [rewrite Z.mod_small by lia; lia|].
      rewrite <-(Z.mod_unique_pos (addr + n) (2 ^ 64) 1 (addr + n - 2 ^ 64)) by lia. lia. }
  case_bool_decide as Hb; simpl; swap 1 2.
  { exists m, (- EINVAL). split_and!; [done|done|]. rewrite bool_decide_false by naive_solver. done. }
  rewrite bool_decide_true by done. rewrite add64_small by (unfold u64_ok, USER_VA_END, U64 in *; lia).
  destruct (unmap_region_spec m addr (addr + n) Hok E1) as (m' & r & Hrun & [Hcv Hok' Hres]);
    [by apply Z.divide_add_r|unfold u64_ok in *; lia|].
  exists m', r. split_and!; [done..| | | |apply Hcv|apply Hcv|apply Hcv].
  - destruct Hres as [[-> _]|(? & ? & _)]; [by left|by right].
  - intros a Hda. split; [|by apply Hcv]. intros Hin. destruct Hres as [[-> Hres]|[-> _]]; [left; by apply Hres|].
    destruct (cv_in _ _ _ _ _ _ Hcv a Hda); [by left|by right].
  - intros a Hda Hra. split; [|intros; apply Hcv; (done || by right)].
    intros Hn. destruct (pte_valid (pte_of m' a)) eqn:E; [|done].
    destruct (ok_ptes _ Hok' a Hda Hra E) as (t & Ht & _). congruence.
Qed.

(** *** Examples *)

Definition rw_vma (start e : Z) : vma := Vma start e (Z.lor VM_READ VM_WRITE) None 0 0 0.

(** Two mappings and a hole; two free frames. *)
Definition ex_mm : mm :=
  Mm (Space empty_pgd 0 (λ _, 0)) [rw_vma 0x10000 0x14000; rw_vma 0x20000 0x21000]
     0x40000 0x40000 0x7000000000 0x7ff0000000 (λ _, 0) (λ _ _, 0) [] [Some 5; Some 6].

Lemma rw_vma_wf q n : 0 ≤ q → 0 < n → (q + n) * PAGE_SIZE ≤ USER_VA_END → vma_wf (rw_vma (q * PAGE_SIZE) ((q + n) * PAGE_SIZE)).
Proof.
  intros. split; simpl; try (by apply Z.divide_factor_r); try (unfold PAGE_SIZE in *; lia); [|done].
  unfold u64_ok, U64. lia.
Qed.

Lemma ex_mm_ok : mm_ok ex_mm.
Proof.
  apply fresh_mm_ok; [done| |done|unfold u64_ok, U64; simpl; lia].
  split_and!; [done|apply (rw_vma_wf 16 4); unfold USER_VA_END, PAGE_SIZE; lia|].
  split_and!; [done|apply (rw_vma_wf 32 1); unfold USER_VA_END, PAGE_SIZE; lia|done].
Qed.

Lemma do_munmap_witness :
  ∃ m', do_munmap ex_mm 0x11000 0x800 = Some (m', 0) ∧ mm_ok m' ∧
        den (vmas m') 0x11000 = None ∧ den (vmas m') 0x12000 = den (vmas ex_mm) 0x12000.
Proof.
  destruct (do_munmap_correct ex_mm 0x11000 0x800 ex_mm_ok) as (m' & r & Hrun & Hok & H);
    [unfold u64_ok, U64; lia|unfold u64_ok, U64; lia|].
  assert (r = 0) as ->.
  { assert (match do_munmap ex_mm 0x11000 0x800 with Some (_, r) => r =? 0 | None => false end = true) as Hr
      by (vm_compute; reflexivity). rewrite Hrun in Hr. by apply Z.eqb_eq. }
  exists m'. split; [exact Hrun|]. split; [exact Hok|].
  rewrite bool_decide_true in H by (split_and!; [by exists 0x11|done|by vm_compute]).
  destruct H as (_ & Hden & _). split.
  - destruct (Hden 0x11000 ltac:(by exists 0x11)) as [Hin _]. destruct Hin as [?|[? _]]; [by vm_compute|done|done].
  - destruct (Hden 0x12000 ltac:(by exists 0x12)) as [_ Hout]. apply Hout. vm_compute. intros [_ H]. discriminate H.
Defined.
