(* ===== verification/Fault.v ===== *)
(** * Page faults of src/mm/vm.c: demand paging and copy on write

    [fault_in] and [handle_mm_fault] keep the invariant of the address space
    ([mm_ok] of VmaSpec), give the access that the VMA allows and no more,
    and change no byte of a frame that anyone refers to. *)

From stdpp Require Import functions.
From S2P Require Import Prelude CString DList Memblock Buddy PageTable Vma VmaSpec.

(** The frames that [alloc_page] will return are distinct and unreferenced
    (alloc_pages takes free pages only). *)
Record supply_ok (m : mm) : Prop := {
  sup_nodup : NoDup (omap id (supply m));
  sup_free x : Some x ∈ supply m → frame_ok x ∧ refs (sp m) x = 0;
}.

(** ** Stores *)

(** Storing one entry keeps the invariant when the new entry is right and
    takes no frame that another entry has for itself. *)
Lemma store_ok m m' va :
  mm_ok m → vmas m' = vmas m → (PAGE_SIZE | va) → 0 ≤ va < USER_VA_END →
  (∀ a, (PAGE_SIZE | a) → 0 ≤ a < USER_VA_END → a ≠ va → pte_of m' a = pte_of m a) →
  balanced (sp m) (sp m') →
  (∀ x, own x (pte_of m' va) = 1 → own x (pte_of m va) = 1 ∨ refs (sp m) x = 0) →
  (pte_valid (pte_of m' va) = true → ∃ t, den (vmas m) va = Some t ∧ allowed (at_flags t) (pte_of m' va) ∧
     (exclusive (at_flags t) (pte_of m' va) → refs (sp m') (pte_frame (pte_of m' va)) = 1)) →
  mm_ok m'.
Proof.
  intros [H1 H2 H3 H4] Hvm Hd Hva Hoth Hbal Hown Hnew. split; [by rewrite Hvm| | |by apply Hbal].
  - intros a Hda Ha Hv. rewrite Hvm. destruct (decide (a = va)) as [->|Hne]; [by apply Hnew|].
    assert (pte_of m' a = pte_of m a) as E by (by apply Hoth). rewrite E in Hv.
    destruct (H2 a Hda Ha Hv) as (t & Ht & Hal & Hex). exists t. rewrite E. split_and!; [done..|].
    intros Hx. specialize (Hex Hx). rewrite <-E. change (pte_of m' a) with (pte_at (pgd (sp m')) a).
    rewrite <-E in Hex. apply (exclusive_kept (sp m)); [done..|rewrite <-E in Hx; apply Hx| |apply H3|apply Hex].
    apply held_mono. intros b Hdb Hb. destruct (decide (b = va)) as [->|Hneb]; swap 1 2.
    { change (pte_at (pgd (sp m')) b) with (pte_of m' b). by rewrite Hoth. }
    fold (pte_of m' va) (pte_of m va). unfold own at 1. case_test; [|apply own_nonneg].
    destruct (Hown (pte_frame (pte_of m' a))) as [Ho|Ho].
    + unfold own. replace (_ && _) with true by (symmetry; apply andb_true_iff; split; [done|by apply Z.eqb_eq]). done.
    + change (pte_at (pgd (sp m')) a) with (pte_of m' a). lia.
    + lia.
  - intros x. pose proof (bal_refs _ _ Hbal x). specialize (H3 x). lia.
Qed.

Lemma pte_of_store m va v a :
  (PAGE_SIZE | va) → 0 ≤ va < USER_VA_END → is_Some (user_pte (pgd (sp m)) va) →
  (PAGE_SIZE | a) → 0 ≤ a < USER_VA_END →
  pte_of (store_pte m va v) a = if decide (a = va) then v else pte_of m a.
Proof.
  intros Hd Hva Hs Hda Ha. unfold pte_of, store_pte, set_pgd_of, set_sp, set_pgd. cbn [sp pgd].
  rewrite pte_at_set by done. destruct Hd as [q Hq], Hda as [r Hr].
  case_bool_decide as Hp; case_decide; try done; exfalso.
  - unfold same_page in Hp. rewrite Hq, Hr, !(Z.div_mul _ PAGE_SIZE) in Hp by done. congruence.
  - apply Hp. unfold same_page. congruence.
Qed.

(** Making the tables for an address changes no entry. *)
Record same_view (m m' : mm) : Prop := {
  sv_pte a : pte_of m' a = pte_of m a;
  sv_refs : refs (sp m') = refs (sp m);
  sv_rss : rss (sp m') = rss (sp m);
  sv_vmas : vmas m' = vmas m;
  sv_frefs : frefs m' = frefs m;
  sv_frames : frames m' = frames m;
  sv_supply : supply m' = supply m;
  sv_top : stack_top m' = stack_top m;
  sv_brk : brk m' = brk m;
  sv_brk_start : brk_start m' = brk_start m;
  sv_base : mmap_base m' = mmap_base m;
}.

Lemma same_view_balanced m m' : same_view m m' → balanced (sp m) (sp m').
Proof. intros []. apply balanced_same; [intros; apply sv_pte0|by rewrite sv_refs0|done]. Qed.

Lemma same_view_ok m m' : same_view m m' → mm_ok m → mm_ok m'.
Proof.
  intros Hs [H1 H2 H3 H4]. pose proof (same_view_balanced _ _ Hs) as Hb. destruct Hs. split.
  - by rewrite sv_vmas0.
  - intros a. rewrite sv_vmas0, sv_pte0, sv_refs0. apply H2.
  - intros x. pose proof (bal_refs _ _ Hb x). specialize (H3 x). lia.
  - by rewrite sv_rss0.
Qed.

Lemma same_view_supply m m' : same_view m m' → supply_ok m → supply_ok m'.
Proof. intros [] []. split; [by rewrite sv_supply0|]. by rewrite sv_supply0, sv_refs0. Qed.

Lemma user_pte_get_spec m va m' ok :
  user_pte_get m va = (m', ok) →
  same_view m m' ∧ (ok = true → is_Some (user_pte (pgd (sp m')) va)).
Proof.
  unfold user_pte_get. destruct (user_pte_alloc _ _ _) as [[p ok'] l] eqn:E. intros; simplify_eq.
  apply user_pte_alloc_spec in E as [H1 H2]. split; [by split|done].
Qed.

Lemma alloc_page_spec m m' p :
  supply_ok m → alloc_page m = (m', p) →
  pgd (sp m') = pgd (sp m) ∧ rss (sp m') = rss (sp m) ∧ vmas m' = vmas m ∧ frames m' = frames m ∧
  match p with
  | None => refs (sp m') = refs (sp m)
  | Some x => frame_ok x ∧ refs (sp m) x = 0 ∧ refs (sp m') = <[x := 1]> (refs (sp m)) ∧ Some x ∉ supply m'
  end ∧ NoDup (omap id (supply m')) ∧ (∀ y, Some y ∈ supply m' → Some y ∈ supply m).
Proof.
  intros [Hnd Hf]. unfold alloc_page. destruct (supply m) as [|[x|] l] eqn:E; intros; simplify_eq/=.
  - by rewrite E.
  - destruct (Hf x ltac:(by left)) as [? ?]. apply NoDup_cons in Hnd as [Hx ?].
    split_and!; try done; [|intros; by right].
    intros Hin. apply Hx, list_elem_of_omap. by exists (Some x).
  - split_and!; try done. intros; by right.
Qed.

(** ** [fault_in] *)

Section Fault.
Variable kernel_pread : Z → Z → Z → (Z → Z) → (Z → Z) * Z.

(** What a fault at page [va] of VMA [v] does. *)
Record faulted (v : vma) (va : Z) (write : bool) (m m' : mm) (r : Z) : Prop := {
  fi_ok : mm_ok m';
  fi_supply : supply_ok m';
  fi_vmas : vmas m' = vmas m;
  fi_other a : (PAGE_SIZE | a) → 0 ≤ a < USER_VA_END → a ≠ va → pte_of m' a = pte_of m a;
  fi_bal : balanced (sp m) (sp m');
  fi_frames x : refs (sp m) x ≠ 0 → frames m' x = frames m x;
  fi_done : r = 0 → pte_valid (pte_of m' va) = true;
  fi_write : r = 0 → write = true → has (v_flags v) VM_IO = false → has (pte_of m' va) PTE_RDONLY = false;
  fi_fail : r ≠ 0 → pte_of m' va = pte_of m va;
  fi_view : owned (pte_of m va) = true → frames m' (pte_frame (pte_of m' va)) = frames m (pte_frame (pte_of m va));
  fi_fresh : r = 0 → pte_valid (pte_of m va) = false → has (v_flags v) VM_IO = false →
    fill_page kernel_pread v va zero_page = (frames m' (pte_frame (pte_of m' va)), 0);
}.

(** The bits of the entry that a sole owner gets back. *)
Lemma reown_pte old :
  let v := Z.lor (Z.land old (not64 (Z.lor PTE_RDONLY PTE_SW_COW))) PTE_SW_WRITE in
  pte_valid v = pte_valid old ∧ has v PTE_RDONLY = false ∧ has v PTE_UXN = has old PTE_UXN ∧
  has v PTE_SW_SHARED = has old PTE_SW_SHARED ∧ pte_addr v = pte_addr old.
Proof.
  cbn zeta. unfold pte_valid, PTE_VALID, PTE_UXN, PTE_SW_SHARED. rewrite !has_or.
  assert (∀ n, 0 ≤ n → has (Z.land old (not64 (Z.lor PTE_RDONLY PTE_SW_COW))) (bit n) =
                       has old (bit n) && Z.testbit (not64 (Z.lor PTE_RDONLY PTE_SW_COW)) n) as H.
  { intros n Hn. by rewrite !has_bit, Z.land_spec by done. }
  change (has ?w PTE_RDONLY) with (has w (bit 7)). rewrite !H by done. split_and!.
  - rewrite andb_true_r. apply orb_false_r.
  - change (Z.testbit _ 7) with false. by rewrite andb_false_r.
  - rewrite andb_true_r. apply orb_false_r.
  - rewrite andb_true_r. apply orb_false_r.
  - unfold pte_addr. rewrite Z.land_lor_distr_l, <-Z.land_assoc. by rewrite Z.lor_0_r.
Qed.

Section OneFault.
Context (m : mm) (v : vma) (va : Z).
Hypothesis Hok : mm_ok m.
Hypothesis Hsup : supply_ok m.
Hypothesis Hd : (PAGE_SIZE | va).
Hypothesis Hva : 0 ≤ va < USER_VA_END.
Hypothesis Hden : ∃ t, den (vmas m) va = Some t ∧ at_flags t = v_flags v.

Lemma own_eq x w : own x w = if owned w && (pte_frame w =? x) then 1 else 0.
Proof. done. Qed.

Lemma invalid_own w x : pte_valid w = false → own x w = 0 ∧ own_any w = 0.
Proof. unfold own, own_any, owned. by intros ->. Qed.

Hypothesis Htab : is_Some (user_pte (pgd (sp m)) va).

(** A frame of the supply, installed with the protection of the VMA. *)
Let fresh (x : Z) : Z := Z.lor (page_to_phys x) (pte_prot (v_flags v)).

Lemma fresh_own x y : frame_ok x → own y (fresh x) = (if x =? y then 1 else 0) ∧ own_any (fresh x) = 1.
Proof.
  intros Hx. destruct (fresh_pte x (v_flags v) Hx) as (H1 & _ & _ & H4 & _ & H6).
  unfold own_any. rewrite own_eq. unfold owned, fresh, pte_frame. by rewrite H1, H4, H6.
Qed.

(** The two cases that install a new frame: [m'] has it at [va], and the old
    entry's reference, if it had one, is gone. *)
Lemma install_spec m' x :
  frame_ok x → refs (sp m) x = 0 → vmas m' = vmas m →
  pgd (sp m') = set_pte (pgd (sp m)) va (fresh x) →
  (∀ y, refs (sp m') y = refs (sp m) y + ((if x =? y then 1 else 0) - own y (pte_of m va))) →
  rss (sp m') = rss (sp m) ⊕ (1 - own_any (pte_of m va)) →
  mm_ok m' ∧ balanced (sp m) (sp m') ∧ pte_of m' va = fresh x ∧
  (∀ a, (PAGE_SIZE | a) → 0 ≤ a < USER_VA_END → a ≠ va → pte_of m' a = pte_of m a).
Proof.
  intros Hx Hx0 Hvm Hp Hr Hrss.
  assert (∀ a, (PAGE_SIZE | a) → 0 ≤ a < USER_VA_END →
    pte_of m' a = if decide (a = va) then fresh x else pte_of m a) as Hpte.
  { intros a Hda Ha. rewrite <-(pte_of_store m va (fresh x)) by done. unfold pte_of. by rewrite Hp. }
  assert (pte_of m' va = fresh x) as E by (by rewrite Hpte, decide_True).
  assert (∀ a, (PAGE_SIZE | a) → 0 ≤ a < USER_VA_END → a ≠ va → pte_of m' a = pte_of m a) as Hoth.
  { intros a ? ? ?. by rewrite Hpte, decide_False. }
  assert (balanced (sp m) (sp m')) as Hb.
  { apply (balanced_set _ _ va (fresh x)); try done.
    - intros y. rewrite Hr. by rewrite (proj1 (fresh_own x y Hx)).
    - rewrite Hrss. unfold add64. rewrite (proj2 (fresh_own x 0 Hx)). unfold wrap64. by rewrite Z.mod_mod.
    - intros _. rewrite Hrss. apply add64_ok. }
  destruct Hden as (t & Ht & Hfl). destruct (fresh_pte x (v_flags v) Hx) as (H1 & H2 & H3 & H4 & H5 & H6).
  split; [|by split]. eapply (store_ok m m' va); [done..| |].
  - intros y. rewrite E, (proj1 (fresh_own x y Hx)). case_test; [|done]. subst y. by right.
  - intros _. exists t. rewrite E, Hfl. split_and!; [done|split|].
    + unfold fresh. rewrite H2. by destruct (has _ VM_WRITE).
    + unfold fresh. rewrite H3. by destruct (has _ VM_EXEC).
    + intros _. unfold fresh, pte_frame. rewrite H6, Hr, Z.eqb_refl, Hx0.
      assert (own x (pte_of m va) = 0) as ->; [|done].
      pose proof (ok_held m Hok x). destruct (decide (own x (pte_of m va) = 1)) as [Ho|Ho].
      * pose proof (held_ge1 x (pgd (sp m)) va Hd Hva Ho). lia.
      * revert Ho. unfold own. by case_test.
Qed.

Lemma owned_refs : owned (pte_of m va) = true → refs (sp m) (pte_frame (pte_of m va)) ≠ 0.
Proof.
  intros Ho. pose proof (ok_held m Hok (pte_frame (pte_of m va))).
  pose proof (held_ge1 _ (pgd (sp m)) va Hd Hva (own_frame _ Ho)). unfold pte_of in *. lia.
Qed.

(** A fault that fails changes no entry and no count. *)
Lemma failed_spec write m' r :
  pgd (sp m') = pgd (sp m) → (∀ y, refs (sp m') y = refs (sp m) y) → rss (sp m') = rss (sp m) →
  vmas m' = vmas m → supply_ok m' → (∀ x, refs (sp m) x ≠ 0 → frames m' x = frames m x) → r ≠ 0 →
  faulted v va write m m' r.
Proof.
  intros Hp Hr Hrss Hvm Hs Hf Hne.
  assert (∀ a, pte_of m' a = pte_of m a) as E by (intros; unfold pte_of; by rewrite Hp).
  assert (balanced (sp m) (sp m')) as Hb by (by apply balanced_same; [intros; by rewrite Hp|..]).
  assert (mm_ok m') as Hok'.
  { destruct Hok as [H1 H2 H3 H4]. split; [by rewrite Hvm| |by intros x; rewrite Hp, Hr; apply H3|by rewrite Hrss].
    intros a. rewrite Hvm, E, Hr. apply H2. }
  split; [exact Hok'|done..| |done].
  - intros Hv. rewrite E. by apply Hf, owned_refs.
Qed.

Lemma own_zero x : refs (sp m) x = 0 → own x (pte_of m va) = 0.
Proof.
  intros Hx. pose proof (ok_held m Hok x). destruct (decide (own x (pte_of m va) = 1)) as [Ho|Ho].
  - pose proof (held_ge1 x (pgd (sp m)) va Hd Hva Ho). lia.
  - revert Ho. unfold own. by case_test.
Qed.

Lemma supply_after m' x :
  NoDup (omap id (supply m')) → (∀ y, Some y ∈ supply m' → Some y ∈ supply m) → Some x ∉ supply m' →
  (∀ y, refs (sp m') y = refs (sp m) y + ((if x =? y then 1 else 0) - own y (pte_of m va))) →
  supply_ok m'.
Proof.
  intros Hnd Hsub Hx Hr. split; [done|]. intros y Hy. destruct (sup_free m Hsup y (Hsub y Hy)) as [Hf H0].
  split; [done|]. rewrite Hr, own_zero, H0 by done. case_test; [by subst|done].
Qed.

(** The two cases that install the frame [x], with the bytes of [m'] there. *)
Lemma fault_new_spec write m' x :
  (write = true → has (v_flags v) VM_WRITE = true) →
  frame_ok x → refs (sp m) x = 0 → vmas m' = vmas m →
  pgd (sp m') = set_pte (pgd (sp m)) va (fresh x) →
  (∀ y, refs (sp m') y = refs (sp m) y + ((if x =? y then 1 else 0) - own y (pte_of m va))) →
  rss (sp m') = rss (sp m) ⊕ (1 - own_any (pte_of m va)) →
  NoDup (omap id (supply m')) → (∀ y, Some y ∈ supply m' → Some y ∈ supply m) → Some x ∉ supply m' →
  (∀ y, y ≠ x → frames m' y = frames m y) →
  (owned (pte_of m va) = true → frames m' x = frames m (pte_frame (pte_of m va))) →
  (pte_valid (pte_of m va) = false → fill_page kernel_pread v va zero_page = (frames m' x, 0)) →
  faulted v va write m m' 0.
Proof.
  intros Hw Hx Hx0 Hvm Hp Hr Hrss Hnd Hsub Hxs Hfr Hview Hfill.
  destruct (install_spec m' x Hx Hx0 Hvm Hp Hr Hrss) as (Hok' & Hb & E & Hoth).
  destruct (fresh_pte x (v_flags v) Hx) as (H1 & H2 & H3 & H4 & H5 & H6).
  assert (pte_frame (fresh x) = x) as Ex by apply H6.
  split; rewrite ?E, ?Ex; [exact Hok'|by eapply supply_after|done..| | | |done|done|intros; by apply Hfill].
  - intros y Hy. apply Hfr. intros ->. done.
  - intros _. exact H1.
  - intros _ Hwr _. unfold fresh. rewrite H2, Hw by done. done.
Qed.

Lemma fault_reown_spec write :
  owned (pte_of m va) = true → has (v_flags v) VM_WRITE = true → refs (sp m) (pte_frame (pte_of m va)) = 1 →
  let w := Z.lor (Z.land (pte_of m va) (not64 (Z.lor PTE_RDONLY PTE_SW_COW))) PTE_SW_WRITE in
  faulted v va write m (store_pte m va w) 0.
Proof.
  intros Ho Hw Hr w. destruct (reown_pte (pte_of m va)) as (H1 & H2 & H3 & H4 & H5). fold w in H1, H2, H3, H4, H5.
  assert (pte_frame w = pte_frame (pte_of m va)) as Hf by (unfold pte_frame; by rewrite H5).
  assert (owned w = true) as Hwo by (unfold owned in *; by rewrite H1, H4).
  assert (∀ x, own x w = own x (pte_of m va)) as Hown by (intros; by rewrite !own_eq, Hf, Hwo, Ho).
  assert (own_any w = own_any (pte_of m va)) as Hany by (unfold own_any; by rewrite Hwo, Ho).
  assert (pte_valid (pte_of m va) = true) as Hv by (unfold owned in Ho; by destruct (pte_valid _)).
  assert (∀ a, (PAGE_SIZE | a) → 0 ≤ a < USER_VA_END →
    pte_of (store_pte m va w) a = if decide (a = va) then w else pte_of m a) as Hpte by (intros; by apply pte_of_store).
  assert (pte_of (store_pte m va w) va = w) as E by (by rewrite Hpte, decide_True).
  assert (∀ a, (PAGE_SIZE | a) → 0 ≤ a < USER_VA_END → a ≠ va → pte_of (store_pte m va w) a = pte_of m a) as Hoth
    by (intros; by rewrite Hpte, decide_False).
  assert (balanced (sp m) (sp (store_pte m va w))) as Hb.
  { unfold pte_of in Hown, Hany. apply (balanced_set _ _ va w); [done..| | |done].
    - intros x. rewrite Hown. simpl. unfold pte_of. lia.
    - rewrite Hany. simpl. f_equal. unfold pte_of. lia. }
  destruct Hden as (t & Ht & Hfl).
  assert (mm_ok (store_pte m va w)) as Hok'.
  { eapply (store_ok m _ va); [done..| |].
    - intros x. rewrite E, Hown. by left.
    - intros _. exists t. rewrite E, Hfl. split_and!; [done|split; [done|]|].
      + rewrite H3. destruct (ok_ptes m Hok va Hd Hva Hv) as (t' & Ht' & [_ Hx] & _). rewrite <-Hfl. rewrite Ht in Ht'. injection Ht' as <-. done.
      + intros _. by rewrite Hf. }
  split; [exact Hok'|by destruct Hsup|done..| | | | |]; rewrite ?E; try congruence.
  by rewrite Hf.
Qed.

Lemma fault_io_spec write :
  pte_valid (pte_of m va) = false → has (v_flags v) VM_IO = true →
  (write = true → has (v_flags v) VM_WRITE = true) →
  let w := Z.lor (Z.lor (io_base v ⊕ (va ⊖ v_start v)) (pte_prot (v_flags v))) PTE_SW_SHARED in
  faulted v va write m (store_pte m va w) 0.
Proof.
  intros Hv Hio Hw w. destruct (pte_prot_spec (v_flags v)) as (H1 & H2 & H3 & H4 & H5 & H6).
  assert (owned w = false) as Ho.
  { unfold owned, w. rewrite (has_or (Z.lor _ _) PTE_SW_SHARED). change (has PTE_SW_SHARED PTE_SW_SHARED) with true.
    by rewrite orb_true_r, andb_false_r. }
  assert (pte_valid w = true) as Hwv.
  { unfold pte_valid, w in *. rewrite !has_or, H1. by rewrite orb_true_r. }
  assert (∀ x, own x w = 0) as Hown by (intros; rewrite own_eq; by rewrite Ho).
  assert (own_any w = 0) as Hany by (unfold own_any; by rewrite Ho).
  assert (∀ a, (PAGE_SIZE | a) → 0 ≤ a < USER_VA_END →
    pte_of (store_pte m va w) a = if decide (a = va) then w else pte_of m a) as Hpte by (intros; by apply pte_of_store).
  assert (pte_of (store_pte m va w) va = w) as E by (by rewrite Hpte, decide_True).
  assert (∀ a, (PAGE_SIZE | a) → 0 ≤ a < USER_VA_END → a ≠ va → pte_of (store_pte m va w) a = pte_of m a) as Hoth
    by (intros; by rewrite Hpte, decide_False).
  assert (balanced (sp m) (sp (store_pte m va w))) as Hb.
  { destruct (invalid_own (pte_of m va) 0 Hv) as [_ Ha0]. unfold pte_of in Ha0.
    apply (balanced_set _ _ va w); [done..| | |done].
    - intros x. destruct (invalid_own (pte_of m va) x Hv) as [Hx _]. unfold pte_of in Hx. rewrite Hown, Hx. simpl. lia.
    - rewrite Hany, Ha0. simpl. f_equal. lia. }
  destruct Hden as (t & Ht & Hfl).
  assert (mm_ok (store_pte m va w)) as Hok'.
  { eapply (store_ok m _ va); [done..| |].
    - intros x. by rewrite E, Hown.
    - intros _. exists t. rewrite E, Hfl. split_and!; [done|split|intros (_ & ? & _); congruence].
      + unfold w. rewrite !has_or, H2. by destruct (has _ VM_WRITE); [|rewrite orb_true_r].
      + unfold w. rewrite !has_or, H3. by destruct (has _ VM_EXEC); [|rewrite orb_true_r]. }
  split; [exact Hok'|by destruct Hsup|done..| | | | |]; rewrite ?E; try congruence.
  unfold owned. by rewrite Hv.
Qed.

Lemma fault_fresh_spec write m' r :
  (write = true → has (v_flags v) VM_WRITE = true) →
  pte_valid (pte_of m va) = false → has (v_flags v) VM_IO = false →
  fault_pte kernel_pread m v va write = (m', r) → faulted v va write m m' r.
Proof.
  intros Hw Hv Hio. unfold fault_pte. rewrite Hv, Hio. cbn [negb].
  destruct (alloc_page m) as [m1 p] eqn:Ea. destruct (alloc_page_spec m m1 p Hsup Ea) as (E1 & E2 & E3 & E4 & E5 & E6 & E7).
  destruct p as [x|].
  2:{ intros; simplify_eq. apply failed_spec; [done|by intros; rewrite E5|done..| | |done].
      - split; [done|]. intros y Hy. rewrite E5. by apply Hsup, E7.
      - by rewrite E4. }
  destruct E5 as (Hx & Hx0 & Hr & Hxs). destruct (invalid_own (pte_of m va) 0 Hv) as [_ Hany].
  destruct (fill_page kernel_pread v va zero_page) as [page r0] eqn:Ef.
  destruct (r0 =? 0) eqn:Er; zbool; cbn [negb]; intros; simplify_eq.
  - apply (fault_new_spec write _ x); try done; cbn [sp pgd refs rss store_pte set_pgd_of set_frames set_sp add_rss set_pgd frames supply].
    + by rewrite E1.
    + intros y. rewrite Hr, (proj1 (invalid_own _ y Hv)). case_test.
      * subst y. rewrite fn_lookup_insert. lia.
      * rewrite fn_lookup_insert_ne by done. lia.
    + by rewrite E2, Hany.
    + intros y Hy. by rewrite E4, fn_lookup_insert_ne by done.
    + unfold owned. by rewrite Hv.
    + intros _. by rewrite E4, fn_lookup_insert.
  - assert (∀ y, refs (sp m) y = <[x:=0]> (refs (sp m1)) y) as Hrr.
    { intros y. destruct (decide (x = y)) as [->|]; [by rewrite fn_lookup_insert|].
      by rewrite fn_lookup_insert_ne, Hr, fn_lookup_insert_ne by done. }
    apply failed_spec; try done; cbn [sp pgd refs rss set_frames set_sp frames supply].
    + split; [done|]. cbn [sp refs supply set_sp set_frames]. intros y Hy.
      destruct (sup_free m Hsup y (E7 y Hy)) as [? H0]. by rewrite <-Hrr.
    + intros y Hy. rewrite E4, fn_lookup_insert_ne; [done|]. intros ->. done.
Qed.

Lemma fault_copy_spec write m' r :
  (write = true → has (v_flags v) VM_WRITE = true) →
  pte_valid (pte_of m va) = true → write && has (pte_of m va) PTE_RDONLY = true →
  has (v_flags v) VM_WRITE = true →
  fault_pte kernel_pread m v va write = (m', r) → faulted v va write m m' r.
Proof.
  intros Hw Hv Hwr Hvw. unfold fault_pte. rewrite Hv, Hwr, Hvw. cbn [negb]. fold (pte_frame (pte_of m va)).
  set (old := pte_of m va) in *. set (p := pte_frame old).
  destruct (negb (has old PTE_SW_SHARED) && (refs (sp m) p =? 1)) eqn:Hsole.
  { apply andb_true_iff in Hsole as [Hs ?]. zbool. intros; simplify_eq.
    apply fault_reown_spec; [unfold owned; fold old; by rewrite Hv, Hs|done|done]. }
  destruct (alloc_page m) as [m1 np] eqn:Ea. destruct (alloc_page_spec m m1 np Hsup Ea) as (E1 & E2 & E3 & E4 & E5 & E6 & E7).
  destruct np as [x|].
  2:{ intros; simplify_eq. apply failed_spec; [done|by intros; rewrite E5|done..| | |done].
      - split; [done|]. intros y Hy. rewrite E5. by apply Hsup, E7.
      - by rewrite E4. }
  destruct E5 as (Hx & Hx0 & Hr & Hxs).
  assert (x =? x = true) as Exx by apply Z.eqb_refl.
  destruct (has old PTE_SW_SHARED) eqn:Hs; cbn [negb] in *; intros; simplify_eq;
    apply (fault_new_spec write _ x); try done;
    cbn [sp pgd refs rss store_pte set_pgd_of set_frames set_sp add_rss ref_put set_pgd frames supply]; fold old; fold p.
  - by rewrite E1.
  - intros y. assert (own y old = 0) as -> by (unfold own, owned; by rewrite Hs, andb_false_r).
    rewrite Hr. case_test; [subst; rewrite fn_lookup_insert; lia|rewrite fn_lookup_insert_ne by done; lia].
  - assert (own_any old = 0) as -> by (unfold own_any, owned; by rewrite Hs, andb_false_r). by rewrite E2.
  - intros y Hy. by rewrite E4, fn_lookup_insert_ne by done.
  - unfold owned. by rewrite Hs, andb_false_r.
  - by rewrite Hv.
  - by rewrite E1.
  - assert (owned old = true) as Ho by (unfold owned; by rewrite Hv, Hs).
    assert (x ≠ p) as Hxp by (intros ->; by apply (owned_refs Ho)).
    intros y. rewrite own_eq, Ho, Hr. fold p. cbn [andb].
    destruct (decide (p = y)) as [<-|Hpy].
    + rewrite fn_lookup_insert, fn_lookup_insert_ne by done. rewrite Z.eqb_refl.
      replace (x =? p) with false by lia. lia.
    + rewrite (fn_lookup_insert_ne _ p) by done. replace (p =? y) with false by lia.
      case_test; [subst; rewrite fn_lookup_insert; lia|rewrite fn_lookup_insert_ne by done; lia].
  - assert (own_any old = 1) as -> by (unfold own_any, owned; by rewrite Hv, Hs). rewrite E2.
    unfold add64. replace (rss (sp m) + (1 - 1)) with (rss (sp m)) by lia. symmetry. apply wrap64_small, (ok_rss m Hok).
  - intros y Hy. by rewrite E4, fn_lookup_insert_ne by done.
  - intros _. rewrite fn_lookup_insert. by rewrite E4.
  - by rewrite Hv.
Qed.

Lemma fault_pte_spec write m' r :
  (write = true → has (v_flags v) VM_WRITE = true) →
  fault_pte kernel_pread m v va write = (m', r) → faulted v va write m m' r.
Proof.
  intros Hw Hrun. destruct (pte_valid (pte_of m va)) eqn:Hv.
  - destruct (write && has (pte_of m va) PTE_RDONLY) eqn:Hwr.
    + apply fault_copy_spec; try done. apply Hw. by destruct write.
    + unfold fault_pte in Hrun. rewrite Hv, Hwr in Hrun. cbn [negb] in Hrun. simplify_eq.
      split; try done; [intros _ -> _; done|]. by rewrite Hv.
  - destruct (has (v_flags v) VM_IO) eqn:Hio; [|by apply fault_fresh_spec].
    unfold fault_pte in Hrun. rewrite Hv, Hio in Hrun. cbn [negb] in Hrun. simplify_eq. by apply fault_io_spec.
Qed.

End OneFault.

Lemma fault_in_spec m v va write m' r :
  mm_ok m → supply_ok m → (PAGE_SIZE | va) → 0 ≤ va < USER_VA_END →
  (∃ t, den (vmas m) va = Some t ∧ at_flags t = v_flags v) →
  (write = true → has (v_flags v) VM_WRITE = true) →
  fault_in kernel_pread m v va write = (m', r) → faulted v va write m m' r.
Proof.
  intros Hok Hsup Hd Hva Hden Hw. unfold fault_in.
  destruct (user_pte_get m va) as [m1 ok] eqn:E. apply user_pte_get_spec in E as [Hsv Htab].
  pose proof (same_view_ok _ _ Hsv Hok) as Hok1. pose proof (same_view_supply _ _ Hsv Hsup) as Hsup1.
  pose proof (same_view_balanced _ _ Hsv) as Hb. pose proof Hsv as [P1 P2 P3 P4 P5 P6 P7 _ _ _ _].
  destruct ok; cbn [negb]; intros Hrun.
  - destruct (fault_pte_spec m1 v va Hok1 Hsup1 Hd Hva) with (write := write) (m' := m') (r := r)
      as [Q1 Q2 Q3 Q4 Q5 Q6 Q7 Q8 Q9 Q10 Q11]; [by rewrite P4|by apply Htab|done..|].
    split; rewrite <-?P1, <-?P4, <-?P6; [exact Q1|done..| | | |done|done|done|done|done].
    + intros a ? ? ?. rewrite <-P1. by apply Q4.
    + by etrans.
    + intros x. rewrite <-P2. apply Q6.
  - simplify_eq. split; rewrite ?P1, ?P4, ?P6; try done; exact Hok1.
Qed.

(** ** [handle_mm_fault] *)

(** Growing the stack down over a hole maps the hole and nothing else. *)
Lemma grow_list lo l i s va :
  vmas_wf lo l → l !! i = Some s → has (v_flags s) VM_GROWSDOWN = true → (PAGE_SIZE | va) →
  0 ≤ va → lo ≤ va < v_start s → (∀ k w, (k < i)%nat → l !! k = Some w → v_end w ≤ va) →
  let l' := alter (λ v, set_v_start v va) i l in
  vmas_wf lo l' ∧ (∀ f, nfile f l' = nfile f l) ∧
  ∀ a, den l' a = if bool_decide (va ≤ a < v_start s) then Some (Attr (v_flags s) None None) else den l a.
Proof.
  cbn zeta. revert lo i. induction l as [|v l IH]; intros lo [|i] Hwf Hi Hg Hd H0 Hva Hk; simplify_eq/=.
  - destruct Hwf as (H1 & [W1 W2 W3 W4 W5 W6 W7] & H3). destruct (W7 Hg) as [Wf Wio].
    split_and!; [lia|split; simpl; (done || lia)|done|done|]. intros a.
    assert (∀ b, attr_of (set_v_start s b) a = Attr (v_flags s) None None) as E
      by (intros; unfold attr_of; simpl; by rewrite Wf, Wio).
    specialize (E va) as Ea. specialize (E (v_start s)). replace (set_v_start s (v_start s)) with s in E by (by destruct s).
    rewrite Ea, E. repeat case_bool_decide; (done || lia).
  - destruct Hwf as (H1 & H2 & H3). pose proof (Hk 0%nat v ltac:(lia) eq_refl).
    destruct (IH (v_end v) i) as (I1 & I2 & I3); [done..|lia|intros k w ? ?; apply (Hk (S k)); (done || lia)|].
    split_and!; [done..|intros f; by rewrite I2|]. intros a. rewrite I3. destruct H2.
    repeat case_bool_decide; (done || lia).
Qed.

Lemma grow_ok m i s va :
  mm_ok m → vmas m !! i = Some s → has (v_flags s) VM_GROWSDOWN = true → (PAGE_SIZE | va) →
  0 ≤ va < v_start s → (∀ k w, (k < i)%nat → vmas m !! k = Some w → v_end w ≤ va) →
  den (vmas m) va = None →
  let m' := set_vma m i (λ v, set_v_start v va) in
  mm_ok m' ∧ den (vmas m') va = Some (Attr (v_flags s) None None) ∧
  (∀ a, is_Some (den (vmas m) a) → den (vmas m') a = den (vmas m) a) ∧
  (∀ a, den (vmas m') a = den (vmas m) a ∨ va ≤ a < v_start s).
Proof.
  intros Hok Hi Hg Hd Hva Hk Hn. cbn zeta.
  destruct (grow_list 0 (vmas m) i s va (ok_vmas m Hok) Hi Hg Hd) as (H1 & H2 & H3); [lia|lia|done|].
  assert (∀ a, va ≤ a < v_start s → den (vmas m) a = None) as Hhole.
  { intros a Ha. pose proof (vma_find_spec 0 (vmas m) a (ok_vmas m Hok)) as Hf.
    destruct (vma_find (vmas m) a) as [j|]; [exfalso|done]. destruct Hf as (w & Hw & Hr & _).
    destruct (decide (j < i)%nat); [pose proof (Hk j w ltac:(lia) Hw); lia|].
    assert (∀ lo l i j s w, vmas_wf lo l → l !! i = Some s → l !! j = Some w → (i ≤ j)%nat → v_start s ≤ v_start w) as Hmono.
    { clear. intros lo l. revert lo. induction l as [|v l IH]; intros lo [|i] [|j] s w Hwf Hs Hw Hij; simplify_eq/=; try lia.
      - destruct Hwf as (_ & [] & Hl). pose proof (vmas_wf_lookup _ _ _ _ Hl Hw) as [_ ?]. lia.
      - destruct Hwf as (_ & _ & Hl). eapply (IH _ i j); [done..|lia]. }
    pose proof (Hmono 0 (vmas m) i j s w (ok_vmas m Hok) Hi Hw ltac:(lia)). lia. }
  split_and!.
  - destruct Hok as [K1 K2 K3 K4]. split; [done| |exact K3|exact K4].
    intros a Hda Ha Hv. destruct (K2 a Hda Ha Hv) as (t & Ht & Hr). exists t. split; [|done].
    cbn [vmas set_vma set_vmas]. rewrite H3, bool_decide_false; [done|]. intros Hin. by rewrite Hhole in Ht.
  - cbn [vmas set_vma set_vmas]. by rewrite H3, bool_decide_true by lia.
  - intros a [t Ht]. cbn [vmas set_vma set_vmas]. rewrite H3, bool_decide_false; [done|]. intros Hin. by rewrite Hhole in Ht.
  - intros a. cbn [vmas set_vma set_vmas]. rewrite H3. case_bool_decide; [by right|by left].
Qed.

(** The page [va] is below the stack of [m] and within its limit. *)
Definition in_stack (m : mm) (a va : Z) : Prop :=
  va ≤ a ∧ stack_top m - va ≤ USER_STACK_MAX.

Lemma fault_vma_spec m va m1 ov :
  mm_ok m → (PAGE_SIZE | va) → 0 ≤ va < USER_VA_END → u64_ok (stack_top m) → fault_vma m va = (m1, ov) →
  mm_ok m1 ∧ (∃ l, m1 = set_vmas m l) ∧ (is_Some (den (vmas m) va) → m1 = m) ∧
  (∀ a, is_Some (den (vmas m) a) → den (vmas m1) a = den (vmas m) a) ∧
  (∀ a, den (vmas m1) a = den (vmas m) a ∨ in_stack m a va) ∧
  match ov with
  | Some v => ∃ t, den (vmas m1) va = Some t ∧ at_flags t = v_flags v
  | None => m1 = m ∧ den (vmas m) va = None
  end.
Proof.
  intros Hok Hd Hva Htop. unfold fault_vma. pose proof (vma_find_spec 0 (vmas m) va (ok_vmas m Hok)) as Hf.
  assert (∃ l, m = set_vmas m l) as Hself by (exists (vmas m); by destruct m).
  destruct (vma_find (vmas m) va) as [i|].
  { destruct Hf as (v & Hv & _ & Hden). rewrite Hv. intros; simplify_eq.
    split; [exact Hok|]. split_and!; [done|done|done|by left|]. by eexists. }
  assert (∀ m1 : mm, is_Some (den (vmas m) va) → m1 = m) as Hno by (intros ? [? ?]; congruence).
  pose proof (vma_find_intersect_spec (vmas m) va USER_VA_END) as Hi.
  destruct (vma_find_intersect (vmas m) va USER_VA_END) as [i|].
  2:{ intros; simplify_eq. split; [exact Hok|]. split_and!; [done|done|done|by left|done|done]. }
  destruct Hi as (s & Hs & Hlt & Hgt & Hk). rewrite Hs.
  destruct (_ || _) eqn:Ht; intros; simplify_eq.
  { split; [exact Hok|]. split_and!; [done|done|done|by left|done|done]. }
  apply orb_false_iff in Ht as [Ht Ht3]. apply orb_false_iff in Ht as [Hg Ht2]. zbool.
  assert (va < v_start s) as Hlow.
  { destruct (decide (va < v_start s)); [done|exfalso].
    by apply (den_in (vmas m) i s va); [|lia|]. }
  destruct (grow_ok m i s va Hok Hs Hg Hd ltac:(lia) Hk Hf) as (G1 & G2 & G3 & G4).
  split; [exact G1|]. split_and!; [by eexists|apply Hno|done| |by eexists].
  intros a. destruct (G4 a) as [?|[? _]]; [by left|right]. split; [done|].
  unfold sub64, wrap64, u64_ok, U64, USER_STACK_MAX, USER_VA_END in *.
  destruct (decide (0 ≤ stack_top m - va)); [rewrite Z.mod_small in Ht3 by lia; lia|].
  change (Z.shiftl 8 20) with 8388608. lia.
Qed.

(** What no fault touches. *)
Definition same_layout (m m' : mm) : Prop :=
  stack_top m' = stack_top m ∧ brk m' = brk m ∧ brk_start m' = brk_start m ∧ mmap_base m' = mmap_base m ∧
  frefs m' = frefs m.

Lemma alloc_page_layout m : same_layout m (alloc_page m).1.
Proof. unfold alloc_page. by destruct (supply m) as [|[]]. Qed.

Lemma fault_pte_layout m v va write : same_layout m (fault_pte kernel_pread m v va write).1.
Proof.
  unfold fault_pte. pose proof (alloc_page_layout m) as Ha. destruct (alloc_page m) as [m1 p]. simpl in Ha.
  destruct (fill_page kernel_pread v va zero_page). repeat case_match; done.
Qed.

Lemma handle_mm_fault_layout m addr write exec : same_layout m (handle_mm_fault kernel_pread m addr write exec).1.
Proof.
  unfold handle_mm_fault. case_test; [done|]. set (va := ALIGN_DOWN _ _).
  assert (same_layout m (fault_vma m va).1) as H1 by (unfold fault_vma; by repeat case_match).
  destruct (fault_vma m va) as [m1 [v|]]; simpl in H1; [|done]. repeat case_test; [done..|].
  unfold fault_in. destruct (user_pte_get m1 va) as [m2 ok] eqn:E. apply user_pte_get_spec in E as [Hsv _].
  assert (same_layout m m2) as H2 by (destruct Hsv, H1 as (? & ? & ? & ? & ?); split_and!; congruence).
  case_test; [done|]. pose proof (fault_pte_layout m2 v va write) as (? & ? & ? & ? & ?).
  destruct H2 as (? & ? & ? & ? & ?). split_and!; congruence.
Qed.

(** The access that the flags of a VMA permit. *)
Definition permits (flags : Z) (write exec : bool) : bool :=
  if write then has flags VM_WRITE && (negb exec || has flags VM_EXEC)
  else if exec then has flags VM_EXEC
  else has flags (Z.lor VM_READ (Z.lor VM_EXEC VM_WRITE)).

(** The two steps of [handle_mm_fault] below the user limit. *)
Lemma handle_steps m addr write exec :
  addr < USER_VA_END →
  handle_mm_fault kernel_pread m addr write exec =
    let '(m1, ov) := fault_vma m (ALIGN_DOWN addr PAGE_SIZE) in
    match ov with
    | None => (m1, - EFAULT)
    | Some v => if permits (v_flags v) write exec
                then fault_in kernel_pread m1 v (ALIGN_DOWN addr PAGE_SIZE) write else (m1, - EACCES)
    end.
Proof.
  intros Ha. unfold handle_mm_fault, permits. replace (USER_VA_END <=? addr) with false by lia.
  destruct (fault_vma m (ALIGN_DOWN addr PAGE_SIZE)) as [m1 [v|]]; [|done].
  by destruct write, exec, (has (v_flags v) VM_WRITE), (has (v_flags v) VM_EXEC), (has (v_flags v) (Z.lor _ _)).
Qed.

Definition page_of (addr : Z) : Z := ALIGN_DOWN addr PAGE_SIZE.

Lemma handle_mm_fault_spec m addr write exec m' r :
  mm_ok m → supply_ok m → u64_ok addr → u64_ok (stack_top m) →
  handle_mm_fault kernel_pread m addr write exec = (m', r) →
  let va := page_of addr in
  mm_ok m' ∧ supply_ok m' ∧ balanced (sp m) (sp m') ∧
  (∀ x, refs (sp m) x ≠ 0 → frames m' x = frames m x) ∧
  (∀ a, is_Some (den (vmas m) a) → den (vmas m') a = den (vmas m) a) ∧
  (∀ a, den (vmas m') a = den (vmas m) a ∨ in_stack m a va) ∧
  (is_Some (den (vmas m) va) → vmas m' = vmas m) ∧
  (∀ a, (PAGE_SIZE | a) → 0 ≤ a < USER_VA_END → a ≠ va → pte_of m' a = pte_of m a) ∧
  (r = 0 → addr < USER_VA_END ∧ ∃ t, den (vmas m') va = Some t ∧ permits (at_flags t) write exec = true ∧
     pte_valid (pte_of m' va) = true ∧
     (write = true → has (at_flags t) VM_IO = false → has (pte_of m' va) PTE_RDONLY = false)) ∧
  (r ≠ 0 → 0 ≤ va < USER_VA_END → pte_of m' va = pte_of m va) ∧
  (0 ≤ va < USER_VA_END → owned (pte_of m va) = true →
     frames m' (pte_frame (pte_of m' va)) = frames m (pte_frame (pte_of m va))) ∧
  (USER_VA_END ≤ addr → r = - EFAULT ∧ m' = m) ∧
  (∀ t, den (vmas m) va = Some t → permits (at_flags t) write exec = false → r = - EACCES ∧ m' = m).
Proof.
  intros Hok Hsup Ha Htop. destruct (decide (addr < USER_VA_END)) as [Hlt|Hge]; cbn zeta.
  2:{ unfold handle_mm_fault. replace (USER_VA_END <=? addr) with true by lia. intros; simplify_eq.
      split; [exact Hok|]. split_and!; try done; [by left|].
      intros t Ht. pose proof (den_top _ _ _ (ok_vmas m' Hok) (mk_is_Some _ _ Ht)).
      unfold page_of in *. destruct (ALIGN_DOWN_spec addr PAGE_SIZE) as (_ & _ & ?); [auto with olux|done|].
      pose proof (ALIGN_DOWN_greatest addr PAGE_SIZE USER_VA_END ltac:(auto with olux) Ha ltac:(by exists (2 ^ 27)) ltac:(lia)). lia. }
  destruct (ALIGN_DOWN_spec addr PAGE_SIZE) as (Hd & Hr & _); [auto with olux|done|].
  rewrite handle_steps by done. fold (page_of addr) in *. set (va := page_of addr) in *.
  destruct (fault_vma m va) as [m1 ov] eqn:E.
  apply fault_vma_spec in E as (Hok1 & Hl & Hsame & Hden & Hgrow & Hov); [|done|done|lia|done].
  assert (supply_ok m1 ∧ sp m1 = sp m ∧ frames m1 = frames m) as (Hsup1 & Esp & Efr)
    by (destruct Hl as [l ->]; destruct Hsup; by split_and!).
  assert (∀ a, pte_of m1 a = pte_of m a) as Epte by (intros; unfold pte_of; by rewrite Esp).
  destruct ov as [v|]; swap 1 2.
  { destruct Hov as [-> Hn]. intros; simplify_eq. split; [exact Hok|].
    split_and!; try done. intros t Ht. congruence. }
  destruct Hov as (t & Ht & Hfl). destruct (permits (v_flags v) write exec) eqn:Hp; swap 1 2.
  { intros; simplify_eq. split; [exact Hok1|]. rewrite Esp, Efr. split_and!; try done; [by intros ->%Hsame|by rewrite Epte|lia|].
    intros t' Ht' _. split; [done|]. apply Hsame. by eexists. }
  intros Hrun. apply fault_in_spec in Hrun as [F1 F2 F3 F4 F5 F6 F7 F8 F9 F10 F11];
    [|done|done|done|lia|by eexists|by intros ->; unfold permits in Hp; apply andb_true_iff in Hp as [? ?]].
  rewrite Esp, ?Epte, ?Efr in *. split; [exact F1|]. rewrite F3. split_and!; try done.
  - by intros ->%Hsame.
  - intros a ? ? ?. rewrite <-Epte. by apply F4.
  - intros Hr0. split; [done|]. exists t. rewrite Hfl. split_and!; try done; [by apply F7|]. intros; by apply F8.
  - intros Hne _. by apply F9.
  - intros; exfalso; lia.
  - intros t' Ht' Hp'. rewrite Hden in Ht by (by eexists). simplify_eq. congruence.
Qed.

End Fault.

(** C12.  A page fault keeps the invariant of the address space.  It is
    resolved only below the user limit, in a VMA that permits the access, and
    then the entry is valid, and writable after a write (device pages keep
    their own protection).  It maps nothing new except stack pages within the
    stack limit, touches the entry of no other page, changes no byte of a
    referenced frame, keeps the contents of the faulting page if it had any,
    and moves the reference counts with the entries.  An access outside the
    user half is -EFAULT and one that the VMA forbids -EACCES, without
    effect. *)
Theorem handle_mm_fault_correct kernel_pread m addr write exec m' r :
  mm_ok m → supply_ok m → u64_ok addr → u64_ok (stack_top m) →
  handle_mm_fault kernel_pread m addr write exec = (m', r) →
  let va := page_of addr in
  mm_ok m' ∧ supply_ok m' ∧ balanced (sp m) (sp m') ∧
  (∀ x, refs (sp m) x ≠ 0 → frames m' x = frames m x) ∧
  (∀ a, is_Some (den (vmas m) a) → den (vmas m') a = den (vmas m) a) ∧
  (∀ a, den (vmas m') a = den (vmas m) a ∨ in_stack m a va) ∧
  (is_Some (den (vmas m) va) → vmas m' = vmas m) ∧
  (∀ a, (PAGE_SIZE | a) → 0 ≤ a < USER_VA_END → a ≠ va → pte_of m' a = pte_of m a) ∧
  (r = 0 → addr < USER_VA_END ∧ ∃ t, den (vmas m') va = Some t ∧ permits (at_flags t) write exec = true ∧
     pte_valid (pte_of m' va) = true ∧
     (write = true → has (at_flags t) VM_IO = false → has (pte_of m' va) PTE_RDONLY = false)) ∧
  (r ≠ 0 → 0 ≤ va < USER_VA_END → pte_of m' va = pte_of m va) ∧
  (0 ≤ va < USER_VA_END → owned (pte_of m va) = true →
     frames m' (pte_frame (pte_of m' va)) = frames m (pte_frame (pte_of m va))) ∧
  (USER_VA_END ≤ addr → r = - EFAULT ∧ m' = m) ∧
  (∀ t, den (vmas m) va = Some t → permits (at_flags t) write exec = false → r = - EACCES ∧ m' = m).
Proof. intros. by apply (handle_mm_fault_spec kernel_pread m addr write exec). Qed.

Lemma ex_supply_ok : supply_ok ex_mm.
Proof.
  split; simpl.
  - repeat constructor; set_solver.
  - intros x Hx. split; [|done]. unfold frame_ok. apply elem_of_cons in Hx as [Hx|Hx]; [simplify_eq; lia|].
    apply elem_of_cons in Hx as [Hx|Hx]; [simplify_eq; lia|by apply elem_of_nil in Hx].
Qed.

Lemma handle_mm_fault_witness :
  let m' := (handle_mm_fault (λ _ _ _ p, (p, 0)) ex_mm 0x10008 true false).1 in
  mm_ok m' ∧ pte_valid (pte_of m' 0x10000) = true ∧ refs (sp m') 5 = 1.
Proof.
  cbn zeta. destruct (handle_mm_fault (λ _ _ _ p, (p, 0)) ex_mm 0x10008 true false) as [m' r] eqn:E.
  assert (r = 0) as ->.
  { change r with ((m', r).2). rewrite <-E. vm_compute. reflexivity. }
  assert (refs (sp m') 5 = 1) as Hr by (change m' with ((m', 0).1); rewrite <-E; vm_compute; reflexivity).
  destruct (handle_mm_fault_correct (λ _ _ _ p, (p, 0)) ex_mm 0x10008 true false m' 0 ex_mm_ok ex_supply_ok)
    as (Hok & _ & _ & _ & _ & _ & _ & _ & H0 & _);
    [unfold u64_ok, U64; lia|unfold u64_ok, U64; simpl; lia|exact E|].
  destruct (H0 eq_refl) as (_ & t & _ & _ & Hv & _). split; [exact Hok|]. split; [exact Hv|exact Hr].
Defined.
