(* ===== verification/Mmap.v ===== *)
(** * mmap of src/mm/vm.c

    [do_mmap] in terms of the denotation [den] of VmaSpec, and the hints near
    2^64 for which its range check wraps. *)

From stdpp Require Import functions.
From S2P Require Import Prelude CString DList Memblock Buddy PageTable Vma VmaSpec Fault.

(** ** Inserting a VMA *)

Definition hole (l : list vma) (start e : Z) : Prop :=
  Forall (λ w, v_end w ≤ start ∨ e ≤ v_start w) l.

Lemma vma_insert_spec lo l nv :
  vmas_wf lo l → vma_wf nv → lo ≤ v_start nv → hole l (v_start nv) (v_end nv) →
  vmas_wf lo (vma_insert l nv) ∧
  (∀ a, den (vma_insert l nv) a =
     if bool_decide (v_start nv ≤ a < v_end nv) then Some (attr_of nv a) else den l a) ∧
  (∀ f, nfile f (vma_insert l nv) = one f (v_file nv) + nfile f l).
Proof.
  revert lo. induction l as [|v l IH]; intros lo Hwf Hnv Hlo Hh; [done|].
  pose proof Hwf as (H1 & H2 & H3). apply Forall_cons in Hh as [Hv Hl]. simpl. case_test.
  - assert (v_end nv ≤ v_start v) by (destruct Hnv, H2; lia). split_and!; [|done|done].
    split_and!; [done|done|]. by split_and!.
  - destruct (IH (v_end v)) as (I1 & I2 & I3); [done..|destruct Hnv, H2; lia|done|].
    split_and!; [by split_and!| |intros f; simpl; rewrite I3; lia].
    intros a. simpl. rewrite I2. repeat case_bool_decide; try done; exfalso; destruct Hnv, H2; lia.
Qed.

(** [m'] is [m] with the VMA [nv] added in a hole. *)
Record mapped (m m' : mm) (nv : vma) : Prop := {
  mp_ok : mm_ok m';
  mp_den a : den (vmas m') a =
    if bool_decide (v_start nv ≤ a < v_end nv) then Some (attr_of nv a) else den (vmas m) a;
  mp_files f : frefs m' f - nfile f (vmas m') = frefs m f - nfile f (vmas m);
  mp_sp : sp m' = sp m;
  mp_env : same_env m m';
}.

Lemma map_vma_spec m start e flags file off bytes m' r :
  mm_ok m → let nv := Vma start e flags file off bytes 0 in
  vma_wf nv → hole (vmas m) start e →
  map_vma m start e flags file off bytes = (m', r) →
  (r = 0 ∧ mapped m m' nv) ∨
  (r = - ENOMEM ∧ ¬ plenty m ∧ mm_ok m' ∧ vmas m' = vmas m ∧ sp m' = sp m ∧ frefs m' = frefs m ∧ same_env m m').
Proof.
  intros Hok nv Hnv Hh. unfold map_vma. destruct (kalloc m) as [m1 ok] eqn:E.
  apply kalloc_spec in E as (Henv & Hsp & Hvm & Hf & Hp).
  destruct ok; cbn [negb]; intros; simplify_eq; [left|right].
  - assert (vmas (file_get m1 file) = vmas m ∧ sp (file_get m1 file) = sp m) as [Ev Es] by (by destruct file).
    fold nv. rewrite Ev. split; [done|].
    destruct (vma_insert_spec 0 (vmas m) nv (ok_vmas m Hok) Hnv) as (H1 & H2 & H3); [apply Hnv|done|].
    assert (sp (set_vmas (file_get m1 file) (vma_insert (vmas m) nv)) = sp m) as Esp by done.
    split; [|done| |done|].
    + destruct Hok as [K1 K2 K3 K4].
      split; unfold pte_of; rewrite ?Esp; [done| |exact K3|exact K4]. intros a Hd Ha Hv.
      destruct (K2 a Hd Ha Hv) as (t & Ht & Hr). exists t. split; [|done]. cbn [vmas set_vmas].
      rewrite H2, bool_decide_false; [done|]. intros Hin. by rewrite (den_hole _ start e a Hh) in Ht.
    + intros f. cbn [vmas set_vmas frefs]. rewrite H3, file_get_refs, Hf. simpl. lia.
    + destruct file; [|by destruct Henv]. by destruct Henv.
  - split_and!; [done|intros Hpl; by specialize (Hp Hpl)|by apply (mm_ok_eq m)|done..].
Qed.

Lemma map_vma_list m start e flags file off bytes m' :
  map_vma m start e flags file off bytes = (m', 0) →
  vmas m' = vma_insert (vmas m) (Vma start e flags file off bytes 0).
Proof.
  unfold map_vma. destruct (kalloc m) as [m1 ok] eqn:E. apply kalloc_spec in E as (_ & _ & Hv & _).
  destruct ok; cbn [negb]; intros; simplify_eq. cbn [vmas set_vmas]. by destruct file; simpl; rewrite Hv.
Qed.

(** ** [mm_get_unmapped_area] *)

Fixpoint nbelow (top : Z) (l : list vma) : nat :=
  match l with [] => 0%nat | v :: l => ((if (v_start v <? top)%Z then 1 else 0) + nbelow top l)%nat end.

Lemma nbelow_mono l a b : a ≤ b → (nbelow a l ≤ nbelow b l)%nat.
Proof. intros. induction l; simpl; [lia|]. repeat case_test; lia. Qed.

Lemma nbelow_lt l i v top :
  l !! i = Some v → v_start v < top → (nbelow (v_start v) l < nbelow top l)%nat.
Proof.
  revert i. induction l as [|w l IH]; intros [|i] Hi Hlt; simplify_eq/=.
  - pose proof (nbelow_mono l (v_start v) top ltac:(lia)). repeat case_test; lia.
  - specialize (IH i Hi Hlt). repeat case_test; lia.
Qed.

Lemma nbelow_length l top : (nbelow top l ≤ length l)%nat.
Proof. induction l; simpl; [lia|]. case_test; lia. Qed.

(** The fields that [mm_create] and exec set up. *)
Record layout_ok (m : mm) : Prop := {
  lay_base : (PAGE_SIZE | mmap_base m);
  lay_range : 0 ≤ mmap_base m ≤ USER_VA_END;
  lay_brk : brk_start m ≤ brk m;
  lay_top : u64_ok (stack_top m);
}.

Lemma unmapped_loop_spec fuel m len top :
  mm_ok m → layout_ok m → (PAGE_SIZE | len) → 0 < len ≤ USER_VA_END →
  (PAGE_SIZE | top) → 0 ≤ top ≤ mmap_base m → (nbelow top (vmas m) < fuel)%nat →
  ∃ x, unmapped_loop fuel m len top = Some x ∧
    (x = 0 ∨ ((PAGE_SIZE | x) ∧ USER_MIN_ADDR ≤ x ∧ x + len ≤ mmap_base m ∧ hole (vmas m) x (x + len))).
Proof.
  intros Hok Hlay Hdl Hlen. pose proof (lay_range m Hlay) as Hbase. revert top.
  induction fuel as [|fuel IH]; intros top Hdt Htop Hf; [lia|]. cbn [unmapped_loop].
  unfold USER_VA_END, USER_MIN_ADDR in *.
  rewrite (add64_small len) by (unfold U64; lia). case_test; [exists 0; by split; [|left]|].
  rewrite sub64_small by (unfold U64; lia).
  pose proof (vma_find_intersect_spec (vmas m) (top - len) top) as Hfi.
  destruct (vma_find_intersect (vmas m) (top - len) top) as [i|].
  - destruct Hfi as (v & Hv & Hlt & _ & _). rewrite Hv.
    destruct (vmas_wf_lookup 0 _ _ _ (ok_vmas m Hok) Hv) as [[] _].
    apply IH; [done|lia|]. pose proof (nbelow_lt (vmas m) i v top Hv Hlt). lia.
  - case_test.
    + pose proof (lay_brk m Hlay). replace (brk_start m <=? brk m) with true by lia. exists 0. by split; [|left].
    + exists (top - len). split; [done|right]. split_and!; [by apply Z.divide_sub_r|lia|lia|].
      replace (top - len + len) with top by lia. apply (Hfi 0), Hok.
Qed.

Lemma unmapped_area_spec m len :
  mm_ok m → layout_ok m → (PAGE_SIZE | len) → 0 < len ≤ USER_VA_END →
  ∃ x, mm_get_unmapped_area m len = Some x ∧
    (x = 0 ∨ ((PAGE_SIZE | x) ∧ USER_MIN_ADDR ≤ x ∧ x + len ≤ mmap_base m ∧ hole (vmas m) x (x + len))).
Proof.
  intros Hok Hlay Hd Hlen. unfold mm_get_unmapped_area.
  rewrite ALIGN_UP_id by (auto with olux || (unfold USER_VA_END, U64, PAGE_SIZE in *; lia) || done).
  destruct Hlay as [L1 L2 L3 L4]. pose proof (nbelow_length (vmas m) (mmap_base m)).
  apply unmapped_loop_spec; (done || lia).
Qed.

(** ** [do_mmap] *)

Lemma same_env_layout m m' : same_env m m' → layout_ok m → layout_ok m'.
Proof. intros [] []. split; congruence. Qed.

Lemma supply_carved start e m m' l :
  carved start e m (vmas m) m' l → mm_ok m → supply_ok m → supply_ok m'.
Proof.
  intros Hcv Hok [H1 H2]. pose proof (cv_env _ _ _ _ _ _ Hcv) as Henv. split; [by rewrite (se_supply _ _ Henv)|].
  intros x. rewrite (se_supply _ _ Henv). intros Hx. destruct (H2 x Hx) as [Hf H0]. split; [done|].
  pose proof (bal_refs _ _ (cv_bal _ _ _ _ _ _ Hcv) x). pose proof (carved_held _ _ _ _ _ x Hcv Hok).
  pose proof (ok_held m Hok x). pose proof (held_nonneg x (pgd (sp m'))). lia.
Qed.

Lemma mmap_addr_spec m addr alen flags :
  mm_ok m → layout_ok m → u64_ok addr → (PAGE_SIZE | alen) → 0 < alen ≤ USER_VA_END → addr + alen < U64 →
  ∃ m1 res, mmap_addr m addr alen flags = Some (m1, res) ∧ mm_ok m1 ∧
    carved addr (addr + alen) m (vmas m) m1 (vmas m1) ∧
    (has flags MAP_FIXED_NOREPLACE = true ∨ has flags (Z.lor MAP_FIXED MAP_FIXED_NOREPLACE) = false → m1 = m) ∧
    match res with
    | inr r => r < 0
    | inl x => (PAGE_SIZE | x) ∧ USER_MIN_ADDR ≤ x ∧ x + alen ≤ USER_VA_END ∧ hole (vmas m1) x (x + alen) ∧
               (has flags (Z.lor MAP_FIXED MAP_FIXED_NOREPLACE) = true → x = addr)
    end.
Proof.
  intros Hok Hlay Ha Hd Hal Hw. assert (USER_MIN_ADDR = 65536) as Hmin by done.
  pose proof (carved_refl addr (addr + alen) m (vmas m)) as Hrefl.
  unfold mmap_addr. rewrite page_mask by done.
  rewrite add64_small by (unfold u64_ok in *; lia). destruct (has flags (Z.lor _ _)) eqn:Hfix.
  - destruct (bool_decide (PAGE_SIZE | addr)) eqn:Hda; cbn [negb];
      [apply bool_decide_eq_true in Hda|by exists m, (inr (- EINVAL))].
    case_test; [by exists m, (inr (- ENOMEM))|].
    pose proof (vma_find_intersect_spec (vmas m) addr (addr + alen)) as Hfi.
    destruct (vma_find_intersect (vmas m) addr (addr + alen)) as [i|]; swap 1 2.
    { exists m, (inl addr). split_and!; try done. apply (Hfi 0), Hok. }
    case_test; [by exists m, (inr (- EEXIST))|].
    destruct (unmap_region_spec m addr (addr + alen) Hok Hda) as (m1 & r & Hrun & [Hcv Hok1 Hres]);
      [by apply Z.divide_add_r|unfold u64_ok in *; lia|].
    rewrite Hrun. destruct Hres as [[-> Hres]|(-> & _ & _)];
      [|exists m1, (inr (- ENOMEM)); split_and!; [done|exact Hok1|done|by intros [?|?]; congruence|done]].
    exists m1, (inl addr). split_and!; [done|exact Hok1|done|by intros [?|?]; congruence|done|lia|lia| |done].
    eapply den_none_hole; [apply Hok1|done|lia|done].
  - destruct (ALIGN_DOWN_spec addr PAGE_SIZE) as (Hdd & Hdr & _); [auto with olux|done|].
    set (a0 := ALIGN_DOWN addr PAGE_SIZE) in *.
    destruct (unmapped_area_spec m alen Hok Hlay Hd Hal) as (x & Hx & Hxp).
    pose proof (lay_range m Hlay).
    assert (∃ y, (if (a0 =? 0) || (a0 <? USER_MIN_ADDR) || (USER_VA_END <? a0 ⊕ alen)
                || bool_decide (is_Some (vma_find_intersect (vmas m) a0 (a0 ⊕ alen)))
             then mm_get_unmapped_area m alen else Some a0) = Some y ∧
       (y = 0 ∨ (PAGE_SIZE | y) ∧ USER_MIN_ADDR ≤ y ∧ y + alen ≤ USER_VA_END ∧ hole (vmas m) y (y + alen))) as (y & -> & Hy).
    { case_test; [exists x; split; [done|]; naive_solver lia|].
      rewrite add64_small in * by (unfold u64_ok in *; lia).
      exists a0. split; [done|right]. split_and!; [done|lia|lia|].
      pose proof (vma_find_intersect_spec (vmas m) a0 (a0 + alen)) as Hfi.
      destruct (vma_find_intersect (vmas m) a0 (a0 + alen)); [done|]. apply (Hfi 0), Hok. }
    exists m. destruct (y =? 0) eqn:Hy0; zbool; [by exists (inr (- ENOMEM))|].
    exists (inl y). split_and!; try done; naive_solver.
Qed.

(** *** The VMA in place *)

Lemma vma_insert_elem l nv : ∃ j, vma_insert l nv !! j = Some nv.
Proof.
  induction l as [|v l [j IH]]; simpl; [by exists 0%nat|]. case_test; [by exists 0%nat|by exists (S j)].
Qed.

Lemma wf_unique lo l i j v w a :
  vmas_wf lo l → l !! i = Some v → l !! j = Some w → v_start v ≤ a < v_end v → v_start w ≤ a < v_end w → v = w.
Proof.
  revert lo i j. induction l as [|u l IH]; intros lo i j Hwf Hi Hj Hv Hw; [done|]. destruct Hwf as (H1 & H2 & H3).
  destruct i as [|i], j as [|j]; simplify_eq/=; [done| | |by eapply IH].
  - destruct (vmas_wf_lookup _ _ _ _ H3 Hj). lia.
  - destruct (vmas_wf_lookup _ _ _ _ H3 Hi). lia.
Qed.

Lemma replace_list lo l i v v' :
  vmas_wf lo l → l !! i = Some v → v_start v' = v_start v → v_end v' = v_end v → vma_wf v' →
  let l' := alter (λ _, v') i l in
  vmas_wf lo l' ∧
  (∀ a, den l' a = if bool_decide (v_start v ≤ a < v_end v) then Some (attr_of v' a) else den l a) ∧
  (∀ f, nfile f l' - one f (v_file v') = nfile f l - one f (v_file v)) ∧
  (∀ s e, cut s e l' → cut s e l).
Proof.
  cbn zeta. revert lo i. induction l as [|u l IH]; intros lo i Hwf Hi Hs He Hv'; [done|].
  destruct Hwf as (H1 & H2 & H3). destruct i as [|i]; simplify_eq/=.
  - rewrite Hs, He. split_and!; [done..|intros a; by case_bool_decide|intros f; lia|].
    intros s e [H|H]%Exists_cons; [apply Exists_cons_hd; lia|by apply Exists_cons_tl].
  - destruct (IH (v_end u) i H3 Hi Hs He Hv') as (I1 & I2 & I3 & I4).
    destruct (vmas_wf_lookup _ _ _ _ H3 Hi) as [_ ?].
    split_and!; [done..| |intros f; specialize (I3 f); lia|].
    + intros a. rewrite I2. repeat case_bool_decide; (done || lia).
    + intros s e [H'|H']%Exists_cons; [by apply Exists_cons_hd|]. by apply Exists_cons_tl, I4.
Qed.

(** A range that is one VMA, or a hole, cuts nothing. *)
Lemma insert_uncut l nv :
  v_start nv < v_end nv → hole l (v_start nv) (v_end nv) → ¬ cut (v_start nv) (v_end nv) (vma_insert l nv).
Proof.
  intros Hlt. induction l as [|v l IH]; intros Hh; simpl.
  - intros [H|H]%Exists_cons; [lia|by apply Exists_nil in H].
  - apply Forall_cons in Hh as [Hv Hl]. case_test; intros [H|H]%Exists_cons; try lia; [|by apply IH].
    apply Exists_cons in H as [H|H]; [lia|]. apply Exists_exists in H as (w & Hw & H).
    rewrite Forall_forall in Hl. specialize (Hl w Hw). simpl in Hl. lia.
Qed.

(** *** What is mapped *)

(** A device's [mmap] sets flags and the device address of the VMA only, and
    returns 0 or an error; it does not make the VMA a stack. *)
Definition dev_ok (dev : vma → Z → vma * Z) : Prop :=
  ∀ v off, let '(v', r) := dev v off in
    v_start v' = v_start v ∧ v_end v' = v_end v ∧ v_file v' = v_file v ∧ file_bytes v' = file_bytes v ∧
    has (v_flags v') VM_GROWSDOWN = has (v_flags v) VM_GROWSDOWN ∧ r ≤ 0.

Definition file_ok (f : mfile) : Prop :=
  (∀ dev, mf_mmap f = Some dev → dev_ok dev) ∧ (∀ sz, mf_size f = Some sz → u64_ok sz).

Definition mmap_flags (prot flags : Z) : Z :=
  if Z.land flags MAP_TYPE =? MAP_SHARED then Z.lor (prot_to_vm prot) VM_SHARED else prot_to_vm prot.

(** The VMA of a mapping without a device operation. *)
Definition mmap_vma (addr alen prot flags : Z) (file : option mfile) (off : Z) : vma :=
  let anon := Vma addr (addr + alen) (mmap_flags prot flags) None 0 0 0 in
  match file with
  | Some f =>
      if has flags MAP_ANONYMOUS then anon
      else match mf_size f with
           | Some sz => Vma addr (addr + alen) (Z.land (mmap_flags prot flags) (not32 VM_SHARED))
                          (Some (mf_id f)) off (if sz <=? off then 0 else Z.min alen (sz - off)) 0
           | None => anon
           end
  | None => anon
  end.

Lemma mmap_flags_stack prot flags :
  has (mmap_flags prot flags) VM_GROWSDOWN = false ∧
  has (Z.land (mmap_flags prot flags) (not32 VM_SHARED)) VM_GROWSDOWN = false.
Proof. unfold mmap_flags, prot_to_vm. by repeat case_test. Qed.

Lemma mmap_vma_wf addr alen flags file off bytes io :
  (PAGE_SIZE | addr) → (PAGE_SIZE | alen) → 0 ≤ addr → 0 < alen → addr + alen ≤ USER_VA_END → u64_ok bytes →
  has flags VM_GROWSDOWN = false → vma_wf (Vma addr (addr + alen) flags file off bytes io).
Proof. intros. split; simpl; try done; [by apply Z.divide_add_r|lia|congruence]. Qed.

(** The new mapping, or an error without effect on the mapping. *)
Definition mmap_result (m m' : mm) (addr alen : Z) (nv : vma) (dev : Prop) (res : Z + Z) : Prop :=
  match res with
  | inl x => x = addr ∧ mapped m m' nv
  | inr r => (r < 0 ∧ mm_ok m' ∧ ∀ a, (PAGE_SIZE | a) → den (vmas m') a = den (vmas m) a) ∨
             (dev ∧ r = addr ∧ ∃ w, v_start w = addr ∧ v_end w = addr + alen ∧ mapped m m' w)
  end.

Section Map.
Context (m : mm) (addr alen : Z).
Hypothesis Hok : mm_ok m.
Hypothesis Hda : (PAGE_SIZE | addr).
Hypothesis Hdl : (PAGE_SIZE | alen).
Hypothesis Haddr : USER_MIN_ADDR ≤ addr.
Hypothesis Halen : 0 < alen.
Hypothesis Hend : addr + alen ≤ USER_VA_END.
Hypothesis Hhole : hole (vmas m) addr (addr + alen).

Lemma map_finish flags file off bytes dev :
  u64_ok bytes → has flags VM_GROWSDOWN = false →
  ∃ m' res, (let '(m, r) := map_vma m addr (addr + alen) flags file off bytes in
             Some (m, Ok (if negb (r =? 0) then inr r else inl addr))) = Some (m', Ok res) ∧
    mmap_result m m' addr alen (Vma addr (addr + alen) flags file off bytes 0) dev res.
Proof.
  intros Hb Hg. destruct (map_vma m addr (addr + alen) flags file off bytes) as [m' r] eqn:E.
  apply map_vma_spec in E as [[-> Hm]|(-> & _ & Hok' & Hv & _)]; [| |done|apply mmap_vma_wf; (done || lia || (unfold USER_MIN_ADDR in *; lia))|done].
  - by exists m', (inl addr).
  - exists m', (inr (- ENOMEM)). split; [done|]. left. split_and!; [done|exact Hok'|]. by rewrite Hv.
Qed.

(** The device operation on the VMA that was just made. *)
Lemma map_device m1 flags dev off i v v' r :
  mapped m m1 (Vma addr (addr + alen) flags None 0 0 0) → dev_ok dev → has flags VM_GROWSDOWN = false →
  vmas m1 = vma_insert (vmas m) (Vma addr (addr + alen) flags None 0 0 0) →
  vmas m1 !! i = Some v → v_start v ≤ addr < v_end v → dev v off = (v', r) →
  let m2 := set_vma m1 i (λ _, v') in
  v = Vma addr (addr + alen) flags None 0 0 0 ∧ r ≤ 0 ∧ mapped m m2 v' ∧ v_start v' = addr ∧ v_end v' = addr + alen ∧
  ¬ cut addr (addr + alen) (vmas m2).
Proof.
  set (nv := Vma _ _ _ _ _ _ _). intros [M1 M2 M3 M4 M5] Hdev Hg Hvm Hi Hv Hrun. cbn zeta.
  assert (vma_wf nv) as Hnv by (apply mmap_vma_wf; (done || (unfold u64_ok, U64; lia) || (unfold USER_MIN_ADDR in *; lia))).
  assert (v = nv) as ->.
  { destruct (vma_insert_elem (vmas m) nv) as [j Hj]. rewrite <-Hvm in Hj.
    eapply (wf_unique 0 (vmas m1) i j v nv addr); [apply M1|done..|simpl; lia]. }
  specialize (Hdev nv off). rewrite Hrun in Hdev. destruct Hdev as (D1 & D2 & D3 & D4 & D5 & D6).
  assert (vma_wf v') as Hv'.
  { destruct Hnv. split; rewrite ?D1, ?D2, ?D3, ?D4; try done. rewrite D5. simpl. congruence. }
  destruct (replace_list 0 (vmas m1) i nv v' (ok_vmas _ M1) Hi D1 D2 Hv') as (R1 & R2 & R3 & R4).
  split_and!; [done|done| |by rewrite D1|by rewrite D2|].
  - split; [| |intros f; specialize (R3 f); specialize (M3 f); cbn [vmas set_vma set_vmas frefs]; rewrite D3 in R3; lia|exact M4|by destruct M5].
    + destruct M1 as [K1 K2 K3 K4]. split; [done| |exact K3|exact K4]. intros a Hd Ha Hpv.
      destruct (K2 a Hd Ha Hpv) as (t & Ht & Hr). exists t. split; [|done]. cbn [vmas set_vma set_vmas].
      rewrite R2, bool_decide_false; [done|]. intros Hin. rewrite M2, bool_decide_true in Ht by done.
      unfold pte_of in Hpv. cbn [sp set_vma set_vmas] in Hpv. rewrite M4 in Hpv.
      destruct (ok_ptes m Hok a Hd Ha Hpv) as (t' & Ht' & _).
      by rewrite (den_hole _ addr (addr + alen) a Hhole) in Ht'.
    + intros a. cbn [vmas set_vma set_vmas]. rewrite R2, M2, D1, D2. by case_bool_decide.
  - cbn [vmas set_vma set_vmas]. intros Hc%R4. rewrite Hvm in Hc. revert Hc. apply (insert_uncut (vmas m) nv); [simpl; lia|done].
Qed.

Lemma mmap_map_spec prot flags file off :
  (∀ f, file = Some f → file_ok f) → u64_ok off →
  ∃ m' res, mmap_map m addr alen prot flags file off = Some (m', Ok res) ∧
    mmap_result m m' addr alen (mmap_vma addr alen prot flags file off) (file ≫= mf_mmap ≠ None) res.
Proof.
  intros Hfile Hoff. unfold mmap_map, mmap_vma. fold (mmap_flags prot flags).
  destruct (mmap_flags_stack prot flags) as [Hg1 Hg2].
  assert (u64_ok 0) as H0 by (unfold u64_ok, U64; lia).
  assert (USER_MIN_ADDR = 65536) as Hmin by done.
  rewrite add64_small by (unfold USER_VA_END, U64 in *; lia).
  destruct file as [f|]; [|by apply map_finish]. destruct (has flags MAP_ANONYMOUS); [by apply map_finish|].
  destruct (Hfile f eq_refl) as [Hdev Hsz]. destruct (mf_mmap f) as [dev|] eqn:Ed.
  - specialize (Hdev dev eq_refl). clear Hsz.
    destruct (map_vma m addr (addr + alen) (mmap_flags prot flags) None 0 0) as [m1 r] eqn:E. pose proof E as E'.
    apply map_vma_spec in E as [[-> Hm]|(-> & _ & Hok' & Hv & _)];
      [| |done|apply mmap_vma_wf; (done || lia)|done]; cbn [Z.eqb negb].
    2:{ exists m1, (inr (- ENOMEM)). split; [done|]. left. split_and!; [done|exact Hok'|]. by rewrite Hv. }
    apply map_vma_list in E'. pose proof (vma_find_spec 0 (vmas m1) addr (ok_vmas _ (mp_ok _ _ _ Hm))) as Hf.
    destruct (vma_find (vmas m1) addr) as [i|]; swap 1 2.
    { rewrite (mp_den _ _ _ Hm), bool_decide_true in Hf by (simpl; lia). done. }
    destruct Hf as (v & Hi & Hv & _). simpl. rewrite Hi. simpl. destruct (dev v off) as [v' r] eqn:Hrun.
    destruct (map_device m1 _ dev off i v v' r Hm Hdev Hg1 E' Hi Hv Hrun) as (-> & Hr & Hm2 & S1 & S2 & Hcut).
    destruct (r =? 0) eqn:Er; zbool; cbn [negb].
    { eexists _, (inr addr). split; [done|]. right. simpl. rewrite Ed. split_and!; [done..|]. by exists v'. }
    destruct (unmap_region_spec (set_vma m1 i (λ _, v')) addr (addr + alen) (mp_ok _ _ _ Hm2) Hda)
      as (m3 & r3 & -> & [Hcv Hok3 Hres]); [by apply Z.divide_add_r|lia|].
    exists m3, (inr r). split; [done|]. left. split_and!; [lia|exact Hok3|]. intros a Hd.
    destruct Hres as [[_ Hn]|(_ & _ & ?)]; [|done]. destruct (decide (addr ≤ a < addr + alen)) as [Hin|Hout].
    + rewrite Hn by done. by rewrite (den_hole _ addr (addr + alen) a Hhole).
    + rewrite (cv_out _ _ _ _ _ _ Hcv) by done. rewrite (mp_den _ _ _ Hm2), bool_decide_false by lia. done.
  - destruct (mf_size f) as [sz|] eqn:Es.
    + specialize (Hsz sz eq_refl). case_test.
      { exists m, (inr (- EOPNOTSUPP)). split; [done|]. left. split_and!; [done|exact Hok|done]. }
      assert ((if sz <=? off then 0 else Z.min alen (sz ⊖ off)) = (if sz <=? off then 0 else Z.min alen (sz - off))) as ->.
      { case_test; [done|]. rewrite sub64_small; [done|unfold u64_ok in *; lia]. }
      apply map_finish; [|done]. case_test; [done|]. unfold u64_ok, USER_VA_END, U64 in *. lia.
    + exists m, (inr (- ENODEV)). split; [done|]. left. split_and!; [done|exact Hok|done].
Qed.

End Map.

(** *** Populating *)

Lemma populate_loop_spec kernel_pread fuel m va e write :
  mm_ok m → supply_ok m → u64_ok (stack_top m) → (PAGE_SIZE | va) → (PAGE_SIZE | e) → 0 ≤ va → e ≤ USER_VA_END →
  (∀ a, va ≤ a < e → is_Some (den (vmas m) a)) → (Z.to_nat ((e - va) / PAGE_SIZE) < fuel)%nat →
  ∃ m' r, populate_loop kernel_pread fuel m va e write = Some (m', r) ∧ mm_ok m' ∧ vmas m' = vmas m.
Proof.
  revert m va. induction fuel as [|fuel IH]; intros m va Hok Hsup Htop Hd Hde H0 He Hden Hf; [lia|].
  cbn [populate_loop]. case_test; [|exists m, 0; split; [done|split; [exact Hok|done]]].
  destruct (handle_mm_fault kernel_pread m va write false) as [m1 r] eqn:E. pose proof E as E'.
  assert (page_of va = va) as Eva.
  { unfold page_of. rewrite ALIGN_DOWN_div by (auto with olux || (unfold u64_ok, USER_VA_END, U64 in *; lia)).
    destruct Hd as [q ->]. by rewrite Z.div_mul. }
  apply handle_mm_fault_spec in E as (Hok1 & Hsup1 & _ & _ & _ & _ & Hvm & _);
    [|done|done|unfold u64_ok, USER_VA_END, U64 in *; lia|done].
  rewrite Eva in Hvm. specialize (Hvm (Hden va ltac:(lia))).
  pose proof (handle_mm_fault_layout kernel_pread m va write false) as (Et & _). rewrite E' in Et. simpl in Et.
  case_test; [exists m1, r; split; [done|split; [exact Hok1|done]]|].
  pose proof (divide_gap PAGE_SIZE va e ltac:(done) Hd Hde ltac:(lia)).
  rewrite add64_small by (unfold USER_VA_END, U64, PAGE_SIZE in *; lia).
  destruct (IH m1 (va + PAGE_SIZE)) as (m' & r' & Hrun & Hok' & Hvm'); try done.
  - by rewrite Et.
  - by apply Z.divide_add_r, Z.divide_refl.
  - unfold PAGE_SIZE; lia.
  - intros a Ha. rewrite Hvm. apply Hden. unfold PAGE_SIZE in *; lia.
  - rewrite (pages_step va e) in Hf by (done || lia). lia.
  - exists m', r'. split; [done|]. split; [exact Hok'|congruence].
Qed.

Lemma mm_populate_spec kernel_pread m addr alen write :
  mm_ok m → supply_ok m → u64_ok (stack_top m) → (PAGE_SIZE | addr) → (PAGE_SIZE | alen) →
  0 ≤ addr → 0 < alen → addr + alen ≤ USER_VA_END → (∀ a, addr ≤ a < addr + alen → is_Some (den (vmas m) a)) →
  ∃ m' r, mm_populate kernel_pread m addr alen write = Some (m', r) ∧ mm_ok m' ∧ vmas m' = vmas m.
Proof.
  intros Hok Hsup Htop Hd Hl H0 Hlen He Hden. unfold mm_populate.
  rewrite ALIGN_DOWN_div by (auto with olux || (unfold u64_ok, USER_VA_END, U64 in *; lia)).
  assert (addr / PAGE_SIZE * PAGE_SIZE = addr) as -> by (destruct Hd as [q ->]; by rewrite Z.div_mul).
  rewrite add64_small by (unfold USER_VA_END, U64 in *; lia).
  apply populate_loop_spec; try done; [by apply Z.divide_add_r|].
  replace (addr + alen - addr) with alen by lia. lia.
Qed.

(** The result of [do_mmap]: an error that changed the mapping at most by
    making room for a MAP_FIXED request, or the new VMA in its place. *)
Definition mmap_outcome (m m' : mm) (addr alen prot flags : Z) (file : option mfile) (off r : Z) : Prop :=
  (r < 0 ∧ ∀ a, (PAGE_SIZE | a) → den (vmas m') a = den (vmas m) a ∨
     (den (vmas m') a = None ∧ addr ≤ a < addr + alen ∧
      has flags (Z.lor MAP_FIXED MAP_FIXED_NOREPLACE) = true ∧ has flags MAP_FIXED_NOREPLACE = false)) ∨
  ((PAGE_SIZE | r) ∧ USER_MIN_ADDR ≤ r ∧ r + alen ≤ USER_VA_END ∧
   (has flags (Z.lor MAP_FIXED MAP_FIXED_NOREPLACE) = true → r = addr) ∧
   (has flags (Z.lor MAP_FIXED MAP_FIXED_NOREPLACE) = false ∨ has flags MAP_FIXED_NOREPLACE = true →
    hole (vmas m) r (r + alen)) ∧
   ∃ nv, v_start nv = r ∧ v_end nv = r + alen ∧
     (file ≫= mf_mmap = None → nv = mmap_vma r alen prot flags file off) ∧
     ∀ a, (PAGE_SIZE | a) → den (vmas m') a =
       if bool_decide (r ≤ a < r + alen) then Some (attr_of nv a) else den (vmas m) a).

Lemma do_mmap_tail kernel_pread m m1 x addr alen prot flags file off :
  mm_ok m → layout_ok m → supply_ok m → (∀ f, file = Some f → file_ok f) → u64_ok off → (PAGE_SIZE | alen) → 0 < alen →
  mm_ok m1 → carved addr (addr + alen) m (vmas m) m1 (vmas m1) →
  (has flags MAP_FIXED_NOREPLACE = true ∨ has flags (Z.lor MAP_FIXED MAP_FIXED_NOREPLACE) = false → m1 = m) →
  (PAGE_SIZE | x) → USER_MIN_ADDR ≤ x → x + alen ≤ USER_VA_END → hole (vmas m1) x (x + alen) →
  (has flags (Z.lor MAP_FIXED MAP_FIXED_NOREPLACE) = true → x = addr) →
  ∃ m' r, match mmap_map m1 x alen prot flags file off with
          | None => None
          | Some (m, Panic) => Some (m, Panic)
          | Some (m, Ok (inr r)) => Some (m, Ok r)
          | Some (m, Ok (inl addr)) =>
              if has flags MAP_POPULATE then
                match mm_populate kernel_pread m addr alen (has prot PROT_WRITE) with
                | None => None
                | Some (m, _) => Some (m, Ok addr)
                end
              else Some (m, Ok addr)
          end = Some (m', Ok r) ∧ mm_ok m' ∧ mmap_outcome m m' addr alen prot flags file off r.
Proof.
  intros Hok Hlay Hsup Hfile Hoff Hdl Hlen Hok1 Hcv Hm1 Hx Hmin Htop Hhole Hfix.
  assert (∀ a, (PAGE_SIZE | a) → ¬ (x ≤ a < x + alen) → den (vmas m1) a = den (vmas m) a) as Hout.
  { intros a Hd Ha. destruct (has flags (Z.lor _ _)) eqn:Ef; [rewrite Hfix in Ha by done; by apply Hcv|].
    by rewrite Hm1 by (by right). }
  assert (∀ m' nv, v_start nv = x → v_end nv = x + alen → (file ≫= mf_mmap = None → nv = mmap_vma x alen prot flags file off) →
    (∀ a, den (vmas m') a = if bool_decide (v_start nv ≤ a < v_end nv) then Some (attr_of nv a) else den (vmas m1) a) →
    mmap_outcome m m' addr alen prot flags file off x) as Hdone.
  { intros m' nv S1 S2 Hnv Hden. right. split_and!; try done; [intros Hn; rewrite <-Hm1; [done|tauto]|].
    exists nv. split_and!; try done. intros a Hd. rewrite Hden, S1, S2. case_bool_decide; [done|by apply Hout]. }
  destruct (mmap_map_spec m1 x alen Hok1 Hx Hdl Hmin Hlen Htop Hhole prot flags file off Hfile Hoff)
    as (m2 & res & -> & Hres).
  destruct res as [y|r]; simpl in Hres.
  - destruct Hres as [-> Hmp]. pose proof Hmp as [P1 P2 P3 P4 P5].
    assert (v_start (mmap_vma x alen prot flags file off) = x ∧ v_end (mmap_vma x alen prot flags file off) = x + alen)
      as [S1 S2] by (unfold mmap_vma; by repeat case_match).
    assert (∀ m', vmas m' = vmas m2 → mmap_outcome m m' addr alen prot flags file off x) as Hm'.
    { intros m' E. apply (Hdone m' (mmap_vma x alen prot flags file off)); [done..|]. intros a. rewrite E. apply P2. }
    case_test; [|exists m2, x; split; [done|split; [exact P1|by apply Hm']]].
    destruct (mm_populate_spec kernel_pread m2 x alen (has prot PROT_WRITE)) as (m3 & r & -> & Hok3 & Hv3); try done.
    + pose proof (supply_carved _ _ _ _ _ Hcv Hok Hsup) as [Q1 Q2]. split; rewrite (se_supply _ _ P5), ?P4; done.
    + apply (same_env_layout _ _ P5), (same_env_layout m m1); [apply Hcv|done].
    + unfold USER_MIN_ADDR in *; lia.
    + intros a Ha. rewrite P2, S1, S2, bool_decide_true by done. by eexists.
    + exists m3, x. split; [done|]. split; [exact Hok3|by apply Hm'].
  - destruct Hres as [(Hneg & Hok2 & Hden)|(Hdev & -> & nv & S1 & S2 & Hmp)].
    + exists m2, r. split; [done|]. split; [exact Hok2|]. left. split; [done|]. intros a Hd. rewrite Hden by done.
      destruct (has flags (Z.lor _ _)) eqn:Ef; [|left; by rewrite Hm1 by (by right)].
      destruct (has flags MAP_FIXED_NOREPLACE) eqn:En; [left; by rewrite Hm1 by (by left)|].
      destruct (decide (addr ≤ a < addr + alen)); [|left; by apply Hcv].
      destruct (cv_in _ _ _ _ _ _ Hcv a Hd); [by right|by left].
    + exists m2, x. split; [done|]. split; [apply Hmp|]. by apply (Hdone m2 nv S1 S2); [|apply Hmp].
Qed.


Lemma ex_layout : layout_ok ex_mm.
Proof. split; [by exists 0x7000000|vm_compute; split; discriminate|done|]. unfold u64_ok, U64. simpl. lia. Qed.


(** ** Requests near 2^64 *)

Lemma vmas_wf_bounds l v : vmas_wf 0 l → v ∈ l → v_start v < v_end v.
Proof. intros Hwf [i Hi]%list_elem_of_lookup. destruct (vmas_wf_lookup _ _ _ _ Hwf Hi) as [[] _]. done. Qed.

(** The range checks of [do_mmap] let a range through that ends exactly
    at 2^64: in every well-formed address space a plain anonymous request with
    such a hint succeeds at that address, far outside the user half, and
    leaves a VMA whose end (0) is below its start. *)
Lemma do_mmap_wraps kernel_pread m alen prot :
  mm_ok m → plenty m → (PAGE_SIZE | alen) → 0 < alen ≤ USER_VA_END →
  let addr := U64 - alen in
  ∃ m' v, do_mmap kernel_pread m addr alen prot (Z.lor MAP_PRIVATE MAP_ANONYMOUS) None 0 = Some (m', Ok addr) ∧
    USER_VA_END ≤ addr ∧ v ∈ vmas m' ∧ v_start v = addr ∧ v_end v = 0 ∧ ¬ mm_ok m'.
Proof.
  intros Hok Hp Hd Hlen addr.
  assert (USER_VA_END + USER_VA_END < U64) as Hbig by done.
  assert (USER_MIN_ADDR < USER_VA_END) as Hmin by done.
  assert (PAGE_SIZE | addr) as Hda by (apply Z.divide_sub_r; [by exists (2 ^ 52)|done]).
  assert (addr ⊕ alen = 0) as Hwrap.
  { unfold add64, wrap64, addr. replace (U64 - alen + alen) with U64 by lia. by apply Z.mod_same. }
  unfold do_mmap. replace (alen =? 0) with false by lia. change (negb (Z.land 0 (PAGE_SIZE - 1) =? 0)) with false.
  rewrite ALIGN_UP_id by (auto with olux || (unfold USER_VA_END, U64, PAGE_SIZE in *; lia) || done).
  replace ((alen <? alen) || (USER_VA_END <? alen)) with false by lia.
  change (Z.land (Z.lor MAP_PRIVATE MAP_ANONYMOUS) MAP_TYPE) with MAP_PRIVATE. cbn [negb andb].
  unfold mmap_addr. change (has (Z.lor MAP_PRIVATE MAP_ANONYMOUS) (Z.lor MAP_FIXED MAP_FIXED_NOREPLACE)) with false.
  change (negb (MAP_PRIVATE =? MAP_SHARED) && negb (MAP_PRIVATE =? MAP_PRIVATE)) with false. cbv iota.
  rewrite ALIGN_DOWN_div by (auto with olux || (unfold u64_ok; lia)).
  assert (addr / PAGE_SIZE * PAGE_SIZE = addr) as -> by (destruct Hda as [q ->]; by rewrite Z.div_mul).
  rewrite Hwrap.
  assert (vma_find_intersect (vmas m) addr 0 = None) as ->.
  { unfold vma_find_intersect. destruct (vmas m) as [|v l] eqn:E; [done|]. simpl.
    assert (0 ≤ v_start v) by (destruct Hok as [Hwf _ _ _]; rewrite E in Hwf; apply Hwf). by replace (0 <=? v_start v) with true by lia. }
  rewrite bool_decide_false by (by intros [? ?]).
  replace ((addr =? 0) || (addr <? USER_MIN_ADDR) || (USER_VA_END <? 0) || false) with false by lia.
  replace (addr =? 0) with false by lia. unfold mmap_map. rewrite Hwrap. cbn zeta. unfold map_vma.
  destruct (kalloc m) as [m1 ok] eqn:E. apply kalloc_spec in E as (_ & _ & Hv & _ & ->); [|done]. cbn [negb file_get Z.eqb].
  change (has (Z.lor MAP_PRIVATE MAP_ANONYMOUS) MAP_POPULATE) with false. cbv iota.
  set (nv := Vma addr 0 _ _ _ _ _). exists (set_vmas m1 (vma_insert (vmas m1) nv)), nv.
  destruct (vma_insert_elem (vmas m1) nv) as [j Hj]. apply list_elem_of_lookup_2 in Hj.
  split_and!; [done|lia|done..|]. intros [Hwf _ _ _]. apply vmas_wf_bounds with (v := nv) in Hwf; [|done].
  simpl in Hwf. lia.
Qed.

