(* ===== verification/Brk.v ===== *)
(** * brk and mremap of src/mm/vm.c

    [do_brk] moves the end of the heap and nothing else, for break values in
    the user half; for values within a page of 2^64 the rounding wraps and it
    unmaps everything below the heap.  [do_mremap] has the same wrap in its
    new length. *)

From stdpp Require Import functions.
From S2P Require Import Prelude CString DList Memblock Buddy PageTable Vma VmaSpec Fault Mmap.

Definition RW : Z := Z.lor VM_READ VM_WRITE.

(** ** Growing a VMA upwards *)

Lemma extend_list lo l i v e :
  vmas_wf lo l → l !! i = Some v → v_file v = None → has (v_flags v) VM_IO = false →
  (PAGE_SIZE | e) → v_end v < e ≤ USER_VA_END → hole l (v_end v) e →
  let l' := alter (λ v, set_v_end v e) i l in
  vmas_wf lo l' ∧ (∀ f, nfile f l' = nfile f l) ∧
  ∀ a, den l' a = if bool_decide (v_end v ≤ a < e) then Some (Attr (v_flags v) None None) else den l a.
Proof.
  cbn zeta. revert lo i. induction l as [|u l IH]; intros lo i Hwf Hi Hf Hio Hd He Hh; [done|].
  destruct Hwf as (H1 & H2 & H3). apply Forall_cons in Hh as [Hu Hl]. destruct i as [|i]; simplify_eq/=.
  - pose proof H2 as [W1 W2 W3 W4 W5 W6 W7].
    assert (vmas_wf e l) as H4.
    { destruct l as [|w l]; [done|]. destruct H3 as (K1 & K2 & K3). apply Forall_cons in Hl as [Hw _].
      split_and!; [destruct K2; lia|done|done]. }
    split_and!; [lia| |done|done|].
    + constructor; cbn [v_start v_end v_flags v_file file_bytes set_v_end]; (done || lia).
    + intros a. assert (∀ b, attr_of (set_v_end v b) a = Attr (v_flags v) None None) as E
        by (intros; unfold attr_of; simpl; by rewrite Hf, Hio).
      specialize (E e) as Ea. specialize (E (v_end v)). replace (set_v_end v (v_end v)) with v in E by (by destruct v).
      rewrite Ea, E. repeat case_bool_decide; (done || lia).
  - destruct (IH (v_end u) i) as (I1 & I2 & I3); [done..|].
    split_and!; [done..|intros f; by rewrite I2|]. intros a. rewrite I3.
    destruct (vmas_wf_lookup _ _ _ _ H3 Hi) as [[] ?]. repeat case_bool_decide; (done || lia).
Qed.

Lemma hole_no_pte m start e a :
  mm_ok m → hole (vmas m) start e → (PAGE_SIZE | a) → 0 ≤ a < USER_VA_END → start ≤ a < e →
  pte_valid (pte_of m a) = false.
Proof.
  intros Hok Hh Hd Ha Hin. destruct (pte_valid (pte_of m a)) eqn:E; [|done].
  destruct (ok_ptes m Hok a Hd Ha E) as (t & Ht & _). by rewrite (den_hole _ start e) in Ht.
Qed.

Lemma extend_ok m i v e :
  mm_ok m → vmas m !! i = Some v → v_file v = None → has (v_flags v) VM_IO = false →
  (PAGE_SIZE | e) → v_end v < e ≤ USER_VA_END → hole (vmas m) (v_end v) e →
  mm_ok (set_vma m i (λ v, set_v_end v e)).
Proof.
  intros Hok Hi Hf Hio Hd He Hh. pose proof Hok as [K1 K2 K3 K4].
  destruct (extend_list 0 (vmas m) i v e K1 Hi Hf Hio Hd He Hh) as (E1 & E2 & E3).
  split; [done| |exact K3|exact K4]. intros a Hda Ha Hv. destruct (K2 a Hda Ha Hv) as (t & Ht & Hr).
  exists t. split; [|done]. cbn [vmas set_vma set_vmas]. rewrite E3, bool_decide_false; [done|].
  intros Hin. change (pte_of (set_vma m i (λ v, set_v_end v e)) a) with (pte_of m a) in Hv.
  by rewrite (hole_no_pte m (v_end v) e) in Hv.
Qed.

(** ** [do_brk] *)

Lemma hole_weaken l start e e' : e' ≤ e → hole l start e → hole l start e'.
Proof. intros He H. eapply Forall_impl; [exact H|]. intros w [?|?]; [by left|right; lia]. Qed.

(** The heap between [old_end] and [new_end] is new, and was free. *)
Definition heap_grown (m m' : mm) (old_end new_end : Z) : Prop :=
  (∀ a, old_end ≤ a < new_end → den (vmas m) a = None) ∧
  ∀ a, den (vmas m') a = if bool_decide (old_end ≤ a < new_end) then Some (Attr RW None None) else den (vmas m) a.

Lemma brk_grow m nbrk old_end new_end :
  mm_ok m → (PAGE_SIZE | old_end) → (PAGE_SIZE | new_end) → 0 ≤ old_end < new_end → new_end ≤ USER_VA_END - PAGE_SIZE →
  hole (vmas m) old_end (new_end + PAGE_SIZE) → brk_start m ≤ old_end →
  let fresh := let '(m, r) := map_vma m old_end new_end RW None 0 0 in
               if negb (r =? 0) then Some (m, brk m) else Some (set_brk m nbrk, nbrk) in
  ∃ m' r, match (if brk_start m <? old_end then vma_find (vmas m) (old_end ⊖ PAGE_SIZE) else None) with
          | Some i =>
              match vmas m !! i with
              | Some v => if bool_decide (v_end v = old_end) && bool_decide (v_file v = None) && (v_flags v =? RW)
                          then Some (set_brk (set_vma m i (λ v, set_v_end v new_end)) nbrk, nbrk) else fresh
              | None => fresh
              end
          | None => fresh
          end = Some (m', r) ∧ mm_ok m' ∧
    ((r = nbrk ∧ brk m' = nbrk ∧ heap_grown m m' old_end new_end) ∨
     (r = brk m ∧ brk m' = brk m ∧ ¬ plenty m ∧ vmas m' = vmas m)).
Proof.
  intros Hok Hd1 Hd2 Hlt Htop Hh Hbs fresh.
  assert (hole (vmas m) old_end new_end) as Hh' by (eapply hole_weaken; [|done]; unfold PAGE_SIZE; lia).
  assert (∃ m' r, fresh = Some (m', r) ∧ mm_ok m' ∧
    ((r = nbrk ∧ brk m' = nbrk ∧ heap_grown m m' old_end new_end) ∨
     (r = brk m ∧ brk m' = brk m ∧ ¬ plenty m ∧ vmas m' = vmas m))) as Hfresh.
  { subst fresh. destruct (map_vma m old_end new_end RW None 0 0) as [m1 r] eqn:E.
    apply map_vma_spec in E as [[-> [M1 M2 M3 M4 M5]]|(-> & Hp & Hok' & Hv & _ & _ & Henv)]; [| |done| |done].
    - eexists _, _. split; [done|]. split; [by apply (mm_ok_eq m1)|]. left. split_and!; try done. split; [intros a Ha; by eapply den_hole|done].
    - eexists _, _. split; [done|]. split; [exact Hok'|]. right. destruct Henv. by split_and!.
    - split; simpl; try done; try lia; try (unfold PAGE_SIZE in *; lia). }
  destruct (brk_start m <? old_end) eqn:Hb; [|exact Hfresh].
  pose proof (vma_find_spec 0 (vmas m) (old_end ⊖ PAGE_SIZE) (ok_vmas m Hok)) as Hf.
  destruct (vma_find (vmas m) (old_end ⊖ PAGE_SIZE)) as [i|]; [|exact Hfresh].
  destruct Hf as (v & Hi & Hv & _). rewrite Hi.
  destruct (bool_decide (v_end v = old_end) && bool_decide (v_file v = None) && (v_flags v =? RW)) eqn:Eg; [|exact Hfresh].
  apply andb_true_iff in Eg as [Eg G3]. apply andb_true_iff in Eg as [G1 G2].
  apply bool_decide_eq_true in G1, G2. apply Z.eqb_eq in G3. subst old_end.
  assert (has (v_flags v) VM_IO = false) as Hio by (by rewrite G3).
  eexists _, _. split; [done|]. split.
  - apply (mm_ok_eq (set_vma m i (λ v, set_v_end v new_end))); [done|done|].
    apply (extend_ok m i v); (done || (unfold PAGE_SIZE in *; lia)).
  - left. split_and!; [done|done|]. split; [intros a Ha; by apply (den_hole _ (v_end v) new_end)|].
    destruct (extend_list 0 (vmas m) i v new_end (ok_vmas m Hok) Hi G2 Hio Hd2) as (_ & _ & E3); [unfold PAGE_SIZE in *; lia|done|].
    intros a. cbn [vmas set_vma set_vmas set_brk]. by rewrite E3, G3.
Qed.

(** [do_brk] to a value below the last two pages of the user half
    refuses a break below the start of the heap; otherwise it grows the heap
    over free pages only, mapping exactly the pages between the old and the
    new end readable and writable, or gives up without any change of the
    mapping; or it unmaps exactly the pages between the new and the old end.
    The break it returns is the one it has set. *)
Theorem do_brk_correct m nbrk :
  mm_ok m → 0 ≤ brk_start m ≤ brk m → brk m ≤ USER_VA_END - 2 * PAGE_SIZE →
  0 ≤ nbrk ≤ USER_VA_END - 2 * PAGE_SIZE →
  let old_end := ALIGN_UP (brk m) PAGE_SIZE in
  let new_end := ALIGN_UP nbrk PAGE_SIZE in
  ∃ m' r, do_brk m nbrk = Some (m', r) ∧ mm_ok m' ∧ brk m' = r ∧
    ((r = brk m ∧ ∀ a, (PAGE_SIZE | a) → den (vmas m') a = den (vmas m) a) ∨
     (r = nbrk ∧ brk_start m ≤ nbrk ∧ old_end ≤ new_end ∧ heap_grown m m' old_end new_end) ∨
     (r = nbrk ∧ brk_start m ≤ nbrk ∧ new_end < old_end ∧ ∀ a, (PAGE_SIZE | a) →
        (new_end ≤ a < old_end → den (vmas m') a = None ∨ ¬ plenty m) ∧
        (¬ new_end ≤ a < old_end → den (vmas m') a = den (vmas m) a))).
Proof.
  intros Hok Hbs Hb Hn. cbn zeta. unfold do_brk.
  assert (USER_VA_END + USER_VA_END < U64) as Hbig by done. assert (PAGE_SIZE < USER_VA_END) by done.
  assert (PAGE_SIZE = 4096) as HP by done.
  case_test. { exists m, (brk m). split; [done|]. split; [exact Hok|]. split; [done|]. by left. }
  destruct (ALIGN_UP_spec (brk m) PAGE_SIZE) as [Hd1 Hr1]; [auto with olux|lia|lia|].
  destruct (ALIGN_UP_spec nbrk PAGE_SIZE) as [Hd2 Hr2]; [auto with olux|lia|lia|].
  set (old_end := ALIGN_UP (brk m) PAGE_SIZE) in *. set (new_end := ALIGN_UP nbrk PAGE_SIZE) in *.
  destruct (old_end <? new_end) eqn:Hlt; zbool.
  - rewrite (add64_small new_end) by lia.
    pose proof (vma_find_intersect_spec (vmas m) old_end (new_end + PAGE_SIZE)) as Hfi.
    destruct (vma_find_intersect (vmas m) old_end (new_end + PAGE_SIZE)) as [i|].
    { rewrite bool_decide_true by done. exists m, (brk m). split; [done|]. split; [exact Hok|]. split; [done|]. by left. }
    rewrite bool_decide_false by (by intros [? ?]).
    destruct (brk_grow m nbrk old_end new_end Hok Hd1 Hd2) as (m' & r & Hrun & Hok' & Hres); [lia|lia|apply (Hfi 0), Hok|lia|].
    exists m', r. split; [exact Hrun|]. split; [exact Hok'|].
    destruct Hres as [(-> & E & Hg)|(-> & E & Hp & Hv)]; [split; [done|]; right; left; split_and!; (done || lia)|].
    split; [done|]. left. split; [done|]. by rewrite Hv.
  - destruct (new_end <? old_end) eqn:Hgt; zbool.
    + destruct (unmap_region_spec m new_end old_end Hok Hd2 Hd1) as (m1 & r & -> & [Hcv Hok1 Hres]); [lia|].
      exists (set_brk m1 nbrk), nbrk. split; [done|]. split; [by apply (mm_ok_eq m1)|]. split; [done|].
      right. right. split_and!; [done|lia|done|]. intros a Hd. split; [|by apply Hcv].
      intros Hin. destruct Hres as [[_ Hres]|(_ & ? & _)]; [left; by apply Hres|by right].
    + exists (set_brk m nbrk), nbrk. split; [done|]. split; [by apply (mm_ok_eq m)|]. split; [done|].
      right. left. split_and!; [done|lia|lia|]. split.
      * intros a Ha. lia.
      * intros a. by rewrite bool_decide_false by lia.
Qed.

Lemma do_brk_witness :
  ∃ m', do_brk ex_mm 0x41234 = Some (m', 0x41234) ∧ mm_ok m' ∧ den (vmas m') 0x41000 = Some (Attr RW None None).
Proof.
  destruct (do_brk_correct ex_mm 0x41234 ex_mm_ok) as (m' & r & Hrun & Hok & _).
  - simpl. lia.
  - unfold USER_VA_END, PAGE_SIZE. simpl. lia.
  - unfold USER_VA_END, PAGE_SIZE. simpl. lia.
  - exists m'.
    assert (match do_brk ex_mm 0x41234 with Some (m, r) => (r, den (vmas m) 0x41000) | None => (0, None) end
            = (0x41234, Some (Attr RW None None))) as Hc by (vm_compute; reflexivity).
    rewrite Hrun in Hc. injection Hc as -> Hd. split; [exact Hrun|]. split; [exact Hok|exact Hd].
Defined.

(** ** Wrap-around *)

(** [brk] with a value in the last page below 2^64 rounds up to 0 and so
    counts as a shrink: it reports success and, unless an allocation fails,
    unmaps every page below the end of the heap, the text and data of the
    program included. *)
Lemma do_brk_wraps m nbrk :
  mm_ok m → 0 ≤ brk_start m ≤ brk m → 0 < brk m ≤ USER_VA_END → U64 - PAGE_SIZE < nbrk < U64 →
  ∃ m', do_brk m nbrk = Some (m', nbrk) ∧ brk m' = nbrk ∧
    (plenty m → ∀ a, (PAGE_SIZE | a) → 0 ≤ a < brk m → den (vmas m') a = None).
Proof.
  intros Hok Hbs Hb Hn. assert (USER_VA_END + USER_VA_END < U64) as Hbig by done.
  assert (PAGE_SIZE < USER_VA_END) by done.
  destruct (ALIGN_UP_spec (brk m) PAGE_SIZE) as [Hd1 Hr1]; [auto with olux|lia|lia|].
  unfold do_brk. replace (nbrk <? brk_start m) with false by lia. rewrite (ALIGN_UP_wraps nbrk Hn).
  set (old_end := ALIGN_UP (brk m) PAGE_SIZE) in *.
  replace (old_end <? 0) with false by lia. replace (0 <? old_end) with true by lia.
  destruct (unmap_region_spec m 0 old_end Hok) as (m1 & r & -> & [Hcv Hok1 Hres]);
    [apply Z.divide_0_r|done|lia|].
  exists (set_brk m1 nbrk). split_and!; [done..|]. intros Hp a Hd Ha.
  destruct Hres as [[_ Hres]|(_ & ? & _)]; [|done]. apply Hres; [done|lia].
Qed.

(** [mremap] with a new length in the last page below 2^64 rounds it to
    0: for a mapped range that is not device memory it unmaps the whole range
    and returns its address as if the mapping had been resized. *)
Lemma do_mremap_wraps m i v old old_len new_len flags :
  mm_ok m → vma_find (vmas m) old = Some i → vmas m !! i = Some v → has (v_flags v) VM_IO = false →
  (PAGE_SIZE | old) → (PAGE_SIZE | old_len) → 0 < old_len → 0 ≤ old → old + old_len ≤ v_end v →
  U64 - PAGE_SIZE < new_len < U64 → has flags MREMAP_FIXED = false →
  ∃ m', do_mremap m old old_len new_len flags = Some (m', old) ∧
    (plenty m → ∀ a, (PAGE_SIZE | a) → old ≤ a < old + old_len → den (vmas m') a = None).
Proof.
  intros Hok Hf Hv Hio Hd Hdl Hl H0 He Hn Hfl. assert (USER_VA_END + USER_VA_END < U64) as Hbig by done.
  assert (PAGE_SIZE = 4096) by done. assert (4096 < USER_VA_END) by done.
  destruct (vmas_wf_lookup 0 _ _ _ (ok_vmas m Hok) Hv) as [[W1 W2 W3 W4 W5 W6 W7] _].
  unfold do_mremap. rewrite page_mask by (unfold u64_ok; lia). rewrite bool_decide_true by done.
  replace (new_len =? 0) with false by lia. cbn [negb orb]. rewrite (ALIGN_UP_wraps new_len Hn).
  rewrite (ALIGN_UP_id old_len) by (auto with olux || lia || done).
  rewrite Hf. simpl. rewrite Hv. simpl. rewrite (add64_small old old_len) by lia.
  replace (v_end v <? old + old_len) with false by lia. rewrite Hio, Hfl. cbn [orb].
  replace (0 <=? old_len) with true by lia. replace (0 <? old_len) with true by lia.
  rewrite (add64_small old 0), (sub64_small old_len 0), Z.add_0_r, Z.sub_0_r by lia.
  unfold do_munmap. rewrite page_mask by (unfold u64_ok; lia). rewrite bool_decide_true by done.
  replace (old_len =? 0) with false by lia. cbn [negb orb].
  rewrite (ALIGN_UP_id old_len) by (auto with olux || lia || done). rewrite (add64_small old old_len) by lia.
  replace ((USER_VA_END <? old + old_len) || (old + old_len <? old)) with false by lia.
  destruct (unmap_region_spec m old (old + old_len) Hok Hd) as (m1 & r & -> & [Hcv Hok1 Hres]);
    [by apply Z.divide_add_r|lia|].
  exists m1. split; [done|]. intros Hp a Hda Ha. destruct Hres as [[_ Hres]|(_ & ? & _)]; [|done]. by apply Hres.
Qed.

(**  The page rounding of the system calls wraps at 2^64, and no check
    notices it.  In every well-formed address space: an anonymous [mmap] with a
    hint whose range ends exactly at 2^64 succeeds there, outside the user
    half, and leaves a VMA whose end (0) is below its start; [brk] with a value
    in the last page counts as a shrink, reports success and, unless an
    allocation fails, unmaps every page below the end of the heap, the text and
    data of the program included; [mremap] to a length in the last page unmaps
    the whole range and returns its address as if it had been resized. *)
Theorem vm_wraps m :
  mm_ok m →
  (∀ kernel_pread alen prot, plenty m → (PAGE_SIZE | alen) → 0 < alen ≤ USER_VA_END →
     ∃ m' v, do_mmap kernel_pread m (U64 - alen) alen prot (Z.lor MAP_PRIVATE MAP_ANONYMOUS) None 0 = Some (m', Ok (U64 - alen)) ∧
       USER_VA_END ≤ U64 - alen ∧ v ∈ vmas m' ∧ v_start v = U64 - alen ∧ v_end v = 0 ∧ ¬ mm_ok m') ∧
  (∀ nbrk, 0 ≤ brk_start m ≤ brk m → 0 < brk m ≤ USER_VA_END → U64 - PAGE_SIZE < nbrk < U64 →
     ∃ m', do_brk m nbrk = Some (m', nbrk) ∧ brk m' = nbrk ∧
       (plenty m → ∀ a, (PAGE_SIZE | a) → 0 ≤ a < brk m → den (vmas m') a = None)) ∧
  (∀ i v old old_len new_len flags, vma_find (vmas m) old = Some i → vmas m !! i = Some v → has (v_flags v) VM_IO = false →
     (PAGE_SIZE | old) → (PAGE_SIZE | old_len) → 0 < old_len → 0 ≤ old → old + old_len ≤ v_end v →
     U64 - PAGE_SIZE < new_len < U64 → has flags MREMAP_FIXED = false →
     ∃ m', do_mremap m old old_len new_len flags = Some (m', old) ∧
       (plenty m → ∀ a, (PAGE_SIZE | a) → old ≤ a < old + old_len → den (vmas m') a = None)).
Proof.
  intros Hok. split_and!.
  - intros kernel_pread alen prot Hp Hd Hl. by apply do_mmap_wraps.
  - intros nbrk H1 H2 H3. by apply do_brk_wraps.
  - intros i v old old_len new_len flags Hf Hv Hio Hd Hdl Hl H0 He Hn Hfl. by eapply do_mremap_wraps.
Qed.

Lemma vm_wraps_witness :
  (∃ m' v, do_mmap (λ _ _ _ p, (p, 0)) ex_mm 0xffffffffffffe000 0x2000 PROT_READ (Z.lor MAP_PRIVATE MAP_ANONYMOUS) None 0
             = Some (m', Ok 0xffffffffffffe000) ∧ v ∈ vmas m' ∧ v_end v < v_start v) ∧
  (∃ m', do_brk ex_mm 0xffffffffffffffff = Some (m', 0xffffffffffffffff) ∧
         is_Some (den (vmas ex_mm) 0x10000) ∧ den (vmas m') 0x10000 = None) ∧
  (∃ m', do_mremap ex_mm 0x10000 0x4000 0xffffffffffffffff MREMAP_MAYMOVE = Some (m', 0x10000) ∧ den (vmas m') 0x10000 = None).
Proof.
  destruct (vm_wraps ex_mm ex_mm_ok) as (H1 & H2 & H3). split; [|split].
  - destruct (H1 (λ _ _ _ p, (p, 0)) 0x2000 PROT_READ) as (m' & v & Hrun & _ & Hin & Hs & He & _); [constructor|by exists 2|unfold USER_VA_END; lia|].
    exists m', v. split; [exact Hrun|]. split; [exact Hin|]. rewrite Hs, He. reflexivity.
  - destruct (H2 0xffffffffffffffff) as (m' & Hrun & _ & H); [simpl; lia|unfold USER_VA_END; simpl; lia|unfold U64, PAGE_SIZE; lia|].
    exists m'. split; [exact Hrun|]. split; [vm_compute; eexists; reflexivity|]. apply H; [constructor|by exists 0x10|simpl; lia].
  - destruct (H3 0%nat (rw_vma 0x10000 0x14000) 0x10000 0x4000 0xffffffffffffffff MREMAP_MAYMOVE) as (m' & Hrun & H);
      try (reflexivity || (simpl; unfold U64, PAGE_SIZE; lia)).
    + by exists 0x10.
    + by exists 4.
    + exists m'. split; [exact Hrun|]. apply H; [constructor|by exists 0x10|lia].
Defined.
