(* ===== verification/Mprotect.v ===== *)
(** * mprotect of src/mm/vm.c

    [do_mprotect] changes the access flags of exactly the pages of its range
    and rewrites their entries so that they grant no more, keeping
    copy-on-write pages read-only. *)

From stdpp Require Import functions.
From S2P Require Import Prelude CString DList Memblock Buddy PageTable Vma VmaSpec Fault Mmap.

(** ** The whole range must be mapped *)

Fixpoint nabove (a : Z) (l : list vma) : nat :=
  match l with [] => 0%nat | v :: l => ((if (a <? v_end v)%Z then 1 else 0) + nabove a l)%nat end.

Lemma nabove_mono l a b : a ≤ b → (nabove b l ≤ nabove a l)%nat.
Proof. intros. induction l; simpl; [lia|]. repeat case_test; lia. Qed.

Lemma nabove_lt l i v a : l !! i = Some v → a < v_end v → (nabove (v_end v) l < nabove a l)%nat.
Proof.
  revert i. induction l as [|w l IH]; intros [|i] Hi Hlt; simplify_eq/=.
  - pose proof (nabove_mono l a (v_end v) ltac:(lia)). repeat case_test; lia.
  - specialize (IH i Hi Hlt). repeat case_test; lia.
Qed.

Lemma nabove_length l a : (nabove a l ≤ length l)%nat.
Proof. induction l; simpl; [lia|]. case_test; lia. Qed.

Lemma mapped_loop_spec fuel l a e :
  vmas_wf 0 l → (nabove a l < fuel)%nat →
  ∃ r, mapped_loop fuel l a e = Some r ∧
    ((r = 0 ∧ ∀ x, a ≤ x < e → is_Some (den l x)) ∨ (r = - ENOMEM ∧ ∃ x, a ≤ x < e ∧ den l x = None)).
Proof.
  intros Hwf. revert a. induction fuel as [|fuel IH]; intros a Hf; [lia|]. cbn [mapped_loop]. case_test.
  2:{ exists 0. split; [done|left]. split; [done|]. lia. }
  pose proof (vma_find_spec 0 l a Hwf) as Hs. destruct (vma_find l a) as [i|].
  2:{ exists (- ENOMEM). split; [done|right]. split; [done|]. exists a. split; [lia|done]. }
  destruct Hs as (v & Hi & Hv & Hd). rewrite Hi.
  destruct (IH (v_end v)) as (r & Hr & H); [pose proof (nabove_lt l i v a Hi ltac:(lia)); lia|].
  exists r. split; [done|]. destruct H as [[-> H]|(-> & x & Hx & Hn)].
  - left. split; [done|]. intros x Hx. destruct (decide (v_end v ≤ x)); [apply H; lia|].
    pose proof (den_in l i v x Hi ltac:(lia)). by apply not_eq_None_Some.
  - right. split; [done|]. exists x. split; [lia|done].
Qed.

(** ** Entries *)

(** The new entry keeps the frame and grants at most the new flags. *)
Lemma protect_pte_spec s flags old :
  let v := protect_pte s flags old in
  pte_valid v = true ∧ pte_addr v = pte_addr old ∧ has v PTE_SW_SHARED = has old PTE_SW_SHARED ∧
  allowed flags v ∧
  (has v PTE_RDONLY = false → has old PTE_SW_COW = false ∧ (has flags VM_SHARED = false → page_is_shared s old = false)).
Proof.
  destruct (pte_prot_spec flags) as (P1 & P2 & P3 & P4 & P5 & P6). cbn zeta. unfold protect_pte.
  set (soft := Z.land old (Z.lor PTE_SW_SHARED PTE_SW_COW)).
  set (base := Z.lor (Z.lor (Z.land old PTE_ADDR_MASK) (pte_prot flags)) soft).
  assert (∀ k n, 0 ≤ n → has (Z.land old k) (bit n) = has old (bit n) && Z.testbit k n) as Hland
    by (intros; by rewrite !has_bit, Z.land_spec).
  assert (∀ n, 0 ≤ n → has base (bit n) =
    has old (bit n) && Z.testbit PTE_ADDR_MASK n || has (pte_prot flags) (bit n)
    || has old (bit n) && Z.testbit (Z.lor PTE_SW_SHARED PTE_SW_COW) n) as Hbit.
  { intros n Hn. unfold base, soft. by rewrite !has_or, !Hland. }
  assert (pte_valid base = true) as B1.
  { unfold pte_valid, PTE_VALID in *. rewrite Hbit, P1 by done. by rewrite orb_true_r. }
  assert (has base PTE_RDONLY = negb (has flags VM_WRITE)) as B2.
  { unfold PTE_RDONLY in *. rewrite Hbit, P2 by done. change (Z.testbit PTE_ADDR_MASK 7) with false.
    change (Z.testbit (Z.lor PTE_SW_SHARED PTE_SW_COW) 7) with false. by rewrite !andb_false_r, orb_false_r. }
  assert (has base PTE_UXN = negb (has flags VM_EXEC)) as B3.
  { unfold PTE_UXN in *. rewrite Hbit, P3 by done. change (Z.testbit PTE_ADDR_MASK 54) with false.
    change (Z.testbit (Z.lor PTE_SW_SHARED PTE_SW_COW) 54) with false. by rewrite !andb_false_r, orb_false_r. }
  assert (has base PTE_SW_SHARED = has old PTE_SW_SHARED) as B4.
  { unfold PTE_SW_SHARED at 1 2. rewrite Hbit by done. fold PTE_SW_SHARED. rewrite P4.
    change (Z.testbit PTE_ADDR_MASK 56) with false.
    change (Z.testbit (Z.lor PTE_SW_SHARED PTE_SW_COW) 56) with true. by rewrite andb_false_r, andb_true_r. }
  assert (pte_addr base = pte_addr old) as B5.
  { unfold pte_addr, base, soft in *. rewrite !Z.land_lor_distr_l, P6, <-!Z.land_assoc.
    change (Z.land (Z.lor PTE_SW_SHARED PTE_SW_COW) PTE_ADDR_MASK) with 0.
    rewrite Z.land_diag, Z.land_0_r. by rewrite !Z.lor_0_r. }
  case_test.
  - split_and!.
    + unfold pte_valid in *. by rewrite has_or, B1.
    + unfold pte_addr in *. rewrite Z.land_lor_distr_l, B5. change (Z.land (Z.lor PTE_RDONLY PTE_SW_COW) PTE_ADDR_MASK) with 0.
      by rewrite Z.lor_0_r.
    + rewrite has_or, B4. change (has (Z.lor PTE_RDONLY PTE_SW_COW) PTE_SW_SHARED) with false. by rewrite orb_false_r.
    + split; [rewrite has_or; by rewrite orb_true_r|]. rewrite has_or, B3.
      change (has (Z.lor PTE_RDONLY PTE_SW_COW) PTE_UXN) with false. by destruct (has flags VM_EXEC).
    + rewrite has_or. by rewrite orb_true_r.
  - split_and!; [done..| |].
    + split; rewrite ?B2, ?B3; [by destruct (has flags VM_WRITE)|by destruct (has flags VM_EXEC)].
    + intros _. split; [done|]. intros Hsh. rewrite Hsh in *. done.
Qed.

Lemma protect_pte_refs s s' flags old : refs s' = refs s → protect_pte s' flags old = protect_pte s flags old.
Proof. unfold protect_pte, page_is_shared. by intros ->. Qed.

Lemma protect_own s flags old x :
  pte_valid old = true → own x (protect_pte s flags old) = own x old ∧ own_any (protect_pte s flags old) = own_any old.
Proof.
  intros Hv. destruct (protect_pte_spec s flags old) as (H1 & H2 & H3 & _).
  unfold own, own_any, owned. by rewrite H1, H2, H3, Hv.
Qed.

Lemma page_count_end v :
  vma_wf v → v_start v + Z.of_nat (page_count (v_start v) (v_end v)) * PAGE_SIZE = v_end v.
Proof.
  intros [W1 W2 W3 W4 _ _ _]. unfold page_count. destruct W1 as [q Hq], W2 as [r Hr].
  rewrite Hq, Hr, <-Z.mul_sub_distr_r. rewrite Z.div_add_l by done.
  change ((PAGE_SIZE - 1) / PAGE_SIZE) with 0. unfold PAGE_SIZE in *. lia.
Qed.

(** The entries after the loop over the pages of a VMA. *)
Definition protected (s : space) (flags start e : Z) (p : pg_dir) (a : Z) : Z :=
  let old := pte_at p a in
  if bool_decide (start ≤ a < e) && pte_valid old then protect_pte s flags old else old.

Lemma protect_pages_spec n s flags va :
  0 ≤ va → (PAGE_SIZE | va) → va + Z.of_nat n * PAGE_SIZE ≤ USER_VA_END →
  let s' := protect_pages n s flags va in
  refs s' = refs s ∧ rss s' = rss s ∧ balanced s s' ∧
  ∀ a, (PAGE_SIZE | a) → 0 ≤ a < USER_VA_END →
    pte_at (pgd s') a = protected s flags va (va + Z.of_nat n * PAGE_SIZE) (pgd s) a.
Proof.
  cbn zeta. revert s va. induction n as [|n IH]; intros s va H0 Hd He.
  { split_and!; [done..|]. intros a _ _. unfold protected. by rewrite bool_decide_false by lia. }
  cbn [protect_pages]. set (s1 := protect_page s flags va).
  assert (0 ≤ va < USER_VA_END) as Hva by (unfold PAGE_SIZE in *; lia).
  assert (refs s1 = refs s ∧ rss s1 = rss s ∧ balanced s s1 ∧
    ∀ a, (PAGE_SIZE | a) → 0 ≤ a < USER_VA_END →
      pte_at (pgd s1) a = protected s flags va (va + PAGE_SIZE) (pgd s) a) as (S1 & S2 & S3 & S4).
  { subst s1. unfold protect_page. assert (∀ a, (PAGE_SIZE | a) → va ≤ a < va + PAGE_SIZE ↔ a = va) as Hone.
    { intros a Hda. split; [|unfold PAGE_SIZE; lia]. intros Ha. destruct (decide (a = va)); [done|].
      pose proof (divide_gap PAGE_SIZE va a ltac:(done) Hd Hda ltac:(lia)). lia. }
    destruct (user_pte (pgd s) va) as [old|] eqn:E; [destruct (pte_valid old) eqn:Hv|]; cbn [negb].
    - assert (pte_at (pgd s) va = old) as Eo by (unfold pte_at; by rewrite E).
      split_and!; [done..| |].
      + destruct (protect_own s flags old 0 Hv) as [_ Hany].
        apply (balanced_set _ _ va (protect_pte s flags old)); [done|done|by rewrite E|done| | |done].
        * intros x. destruct (protect_own s flags old x Hv) as [Hx _]. rewrite Eo, Hx. simpl. lia.
        * rewrite Eo, Hany. simpl. f_equal. lia.
      + intros a Hda Ha. cbn [pgd set_pgd]. rewrite pte_at_set by (done || by rewrite E). unfold protected.
        destruct (decide (a = va)) as [->|Hne].
        * rewrite !bool_decide_true by (done || (unfold PAGE_SIZE; lia)). by rewrite Eo, Hv.
        * rewrite (bool_decide_false (va ≤ a < _)) by (by rewrite Hone). rewrite bool_decide_false; [done|].
          destruct Hd as [q ->], Hda as [r ->]. unfold same_page. rewrite !Z.div_mul by done. congruence.
    - split_and!; [done..|]. intros a Hda Ha. unfold protected. case_bool_decide as Hin; [|done].
      apply Hone in Hin as ->; [|done]. unfold pte_at. rewrite E. simpl. by rewrite Hv.
    - split_and!; [done..|]. intros a Hda Ha. unfold protected. case_bool_decide as Hin; [|done].
      apply Hone in Hin as ->; [|done]. unfold pte_at. by rewrite E. }
  rewrite add64_small by (unfold USER_VA_END, U64, PAGE_SIZE in *; lia).
  destruct (IH s1 (va + PAGE_SIZE)) as (I1 & I2 & I3 & I4);
    [unfold PAGE_SIZE; lia|by apply Z.divide_add_r, Z.divide_refl|lia|].
  split_and!; [by rewrite I1|by rewrite I2|by etrans|].
  intros a Hda Ha. rewrite I4 by done. unfold protected. rewrite S4 by done. unfold protected.
  repeat case_bool_decide; try (exfalso; unfold PAGE_SIZE in *; lia); cbn [andb]; try done.
  by rewrite (protect_pte_refs s s1).
Qed.

(** ** The walk *)

Definition ACCESS : Z := Z.lor VM_READ (Z.lor VM_WRITE VM_EXEC).
Definition new_flags (prot flags : Z) : Z := Z.lor (Z.land flags (not32 ACCESS)) (prot_to_vm prot).
Definition reflag (prot : Z) (t : attr) : attr := Attr (new_flags prot (at_flags t)) (at_file t) (at_io t).

Lemma new_flags_keep prot flags :
  has (new_flags prot flags) VM_IO = has flags VM_IO ∧ has (new_flags prot flags) VM_SHARED = has flags VM_SHARED ∧
  has (new_flags prot flags) VM_GROWSDOWN = has flags VM_GROWSDOWN.
Proof.
  unfold new_flags. change VM_IO with (bit 4). change VM_SHARED with (bit 3). change VM_GROWSDOWN with (bit 5).
  assert (∀ n, n = 3 ∨ n = 4 ∨ n = 5 → has (Z.lor (Z.land flags (not32 ACCESS)) (prot_to_vm prot)) (bit n) = has flags (bit n)) as H.
  { intros n Hn. rewrite has_or. assert (has (prot_to_vm prot) (bit n) = false) as ->.
    { destruct Hn as [->|[->| ->]]; unfold prot_to_vm; by repeat case_test. }
    rewrite !has_bit, Z.land_spec by lia. rewrite orb_false_r.
    assert (Z.testbit (not32 ACCESS) n = true) as -> by (destruct Hn as [->|[->| ->]]; reflexivity). apply andb_true_r. }
  split_and!; apply H; lia.
Qed.

Lemma reflag_attr prot v a : attr_of (set_v_flags v (new_flags prot (v_flags v))) a = reflag prot (attr_of v a).
Proof.
  unfold attr_of, reflag. simpl. by rewrite (proj1 (new_flags_keep prot (v_flags v))).
Qed.

Section Walk.
Context (start e prot : Z).

(** The page [a] has its new protection. *)
Definition page_done (m : mm) (l : list vma) (m' : mm) (l' : list vma) (a : Z) : Prop :=
  ∃ t, den l a = Some t ∧ den l' a = Some (reflag prot t) ∧
    pte_of m' a = if pte_valid (pte_of m a) then protect_pte (sp m) (new_flags prot (at_flags t)) (pte_of m a)
                  else pte_of m a.

(** Some of the pages of the range have their new protection. *)
Record reprot (m : mm) (l : list vma) (m' : mm) (l' : list vma) : Prop := {
  rp_page a : (PAGE_SIZE | a) → 0 ≤ a < USER_VA_END →
    (den l' a = den l a ∧ pte_of m' a = pte_of m a) ∨ (start ≤ a < e ∧ page_done m l m' l' a);
  rp_refs : refs (sp m') = refs (sp m);
  rp_rss : rss (sp m') = rss (sp m);
  rp_bal : balanced (sp m) (sp m');
  rp_files f : frefs m' f - nfile f l' = frefs m f - nfile f l;
  rp_env : same_env m m';
}.

Lemma reprot_refl m l : reprot m l m l.
Proof. split; try done. intros; by left. Qed.

(** A step that changes no page, before. *)
Lemma page_done_resplit m l m1 l1 m' l' a :
  resplit m l m1 l1 → (PAGE_SIZE | a) → page_done m1 l1 m' l' a → page_done m l m' l' a.
Proof.
  intros [E Hs _ _] Hd (t & H1 & H2 & H3). exists t. rewrite <-E by done. unfold pte_of in *. by rewrite <-Hs.
Qed.

Lemma reprot_resplit m l m1 l1 m' l' : resplit m l m1 l1 → reprot m1 l1 m' l' → reprot m l m' l'.
Proof.
  intros Hrs [P1 P2 P3 P4 P5 P6]. pose proof Hrs as [Hd Hs Hf Henv]. rewrite Hs in *.
  split; [|done|done|done|intros f; by rewrite P5|by etrans].
  intros a Hda Ha. destruct (P1 a Hda Ha) as [[H1 H2]|[Hin H]]; [left|right].
  - rewrite H1, H2, Hd by done. unfold pte_of. by rewrite Hs.
  - split; [done|]. by eapply page_done_resplit.
Qed.

Lemma reprot_cons c v m l m' l' : vmas_wf c (v :: l) → reprot m l m' l' → reprot m (v :: l) m' (v :: l').
Proof.
  intros Hwf [P1 P2 P3 P4 P5 P6]. split; try done; [|intros f; specialize (P5 f); simpl; lia].
  intros a Hda Ha. unfold page_done. simpl. case_bool_decide as Hv; [|by apply P1]. left. split; [done|].
  destruct (P1 a Hda Ha) as [[_ ?]|(_ & t & Ht & _)]; [done|]. by rewrite (den_after c v) in Ht.
Qed.

(** The VMA [w], inside the range, gets its new flags; then the rest. *)
Section Head.
Context (c : Z) (w : vma) (l : list vma) (m m' : mm) (l' : list vma).
Hypothesis Hwf : vmas_wf c (w :: l).
Hypothesis Hs : start ≤ v_start w.
Hypothesis Hwe : v_end w ≤ e.
Let w' := set_v_flags w (new_flags prot (v_flags w)).
Let m1 := set_sp m (protect_pages (page_count (v_start w) (v_end w)) (sp m) (v_flags w') (v_start w)).
Hypothesis Hrp : reprot m1 l m' l'.

Lemma head_pages :
  refs (sp m1) = refs (sp m) ∧ rss (sp m1) = rss (sp m) ∧ balanced (sp m) (sp m1) ∧
  ∀ a, (PAGE_SIZE | a) → 0 ≤ a < USER_VA_END →
    pte_of m1 a = protected (sp m) (v_flags w') (v_start w) (v_end w) (pgd (sp m)) a.
Proof.
  destruct Hwf as (_ & Hww & _). destruct (Hww) as [W1 W2 W3 W4 W5 W6 W7].
  pose proof (page_count_end _ Hww) as Hn. rewrite <-Hn. apply protect_pages_spec; [done|done|lia].
Qed.

Lemma head_done a :
  (PAGE_SIZE | a) → 0 ≤ a < USER_VA_END → v_start w ≤ a < v_end w → page_done m (w :: l) m' (w' :: l') a.
Proof.
  intros Hda Ha Hv. destruct head_pages as (Q1 & Q2 & Q3 & Q4). exists (attr_of w a). cbn [den].
  change (v_start w') with (v_start w). change (v_end w') with (v_end w). rewrite bool_decide_true by done.
  split_and!; [done|f_equal; apply reflag_attr|].
  destruct (rp_page _ _ _ _ Hrp a Hda Ha) as [[_ ->]|(_ & t & Ht & _)]; [|by rewrite (den_after c w) in Ht].
  rewrite Q4 by done. unfold protected. by rewrite bool_decide_true by done.
Qed.

Lemma tail_done a :
  (PAGE_SIZE | a) → 0 ≤ a < USER_VA_END → ¬ (v_start w ≤ a < v_end w) →
  pte_of m1 a = pte_of m a ∧ (page_done m1 l m' l' a → page_done m (w :: l) m' (w' :: l') a).
Proof.
  intros Hda Ha Hv. destruct head_pages as (Q1 & Q2 & Q3 & Q4).
  assert (pte_of m1 a = pte_of m a) as E by (rewrite Q4 by done; unfold protected; by rewrite bool_decide_false by done).
  split; [done|]. intros (t & T1 & T2 & T3). exists t. cbn [den].
  change (v_start w') with (v_start w). change (v_end w') with (v_end w). rewrite bool_decide_false by done.
  split_and!; [done..|]. rewrite T3, E. by rewrite (protect_pte_refs (sp m) (sp m1)).
Qed.

Lemma reprot_head : reprot m (w :: l) m' (w' :: l').
Proof.
  destruct head_pages as (Q1 & Q2 & Q3 & Q4). pose proof Hrp as [P1 P2 P3 P4 P5 P6].
  split; [|by rewrite P2|by rewrite P3|by etrans; [exact Q3|]| |].
  - intros a Hda Ha. destruct (decide (v_start w ≤ a < v_end w)) as [Hv|Hv].
    + right. split; [lia|]. by apply head_done.
    + destruct (tail_done a Hda Ha Hv) as [E Ht]. destruct (P1 a Hda Ha) as [[H1 H2]|[Hin H]]; [left|right; by auto].
      cbn [den]. change (v_start w') with (v_start w). change (v_end w') with (v_end w).
      rewrite bool_decide_false by done. by rewrite H1, H2, E.
  - intros f. specialize (P5 f). simpl in *. lia.
  - etrans; [|exact P6]. by split.
Qed.

End Head.

Context (Hstart : (PAGE_SIZE | start)) (He : (PAGE_SIZE | e)) (Hse : 0 ≤ start ≤ e).

Definition protect_result (m : mm) (l : list vma) (m' : mm) (l' : list vma) (r : Z) : Prop :=
  (r = 0 ∧ ∀ a, (PAGE_SIZE | a) → 0 ≤ a < USER_VA_END → start ≤ a < e → is_Some (den l a) → page_done m l m' l' a) ∨
  (r = - ENOMEM ∧ ¬ plenty m).

Lemma protect_result_resplit m l m1 l1 m' l' r :
  resplit m l m1 l1 → protect_result m1 l1 m' l' r → protect_result m l m' l' r.
Proof.
  intros Hrs [[-> H]|[-> H]]; [left|right].
  - split; [done|]. intros a Hd Ha Hin Ht. eapply page_done_resplit; [done..|]. apply H; try done. by rewrite (rs_den _ _ _ _ Hrs).
  - split; [done|]. intros Hp. by apply H, Hrs.
Qed.

Lemma protect_result_skip v m l m' l' r :
  v_end v ≤ start → protect_result m l m' l' r → protect_result m (v :: l) m' (v :: l') r.
Proof.
  intros Hv [[-> H]|?]; [left|by right]. split; [done|]. intros a Hd Ha Hin. unfold page_done. simpl.
  rewrite bool_decide_false by lia. by apply H.
Qed.

Lemma reflag_wf c w l :
  vmas_wf c (w :: l) → vmas_wf c (set_v_flags w (new_flags prot (v_flags w)) :: l).
Proof.
  intros (H1 & [] & H3). split_and!; [done| |done]. destruct (new_flags_keep prot (v_flags w)) as (K1 & _ & K3).
  split; simpl; try done. by rewrite K1, K3.
Qed.

(** A failed allocation leaves the list as it was. *)
Lemma reprot_stop m m1 l : same_env m m1 → sp m1 = sp m → frefs m1 = frefs m → reprot m l m1 l.
Proof.
  intros Henv Hsp Hf. split; rewrite ?Hsp; try done; [|intros f; by rewrite Hf].
  intros a _ _. left. split; [done|]. unfold pte_of. by rewrite Hsp.
Qed.

Lemma protect_loop_spec fuel m pre l c :
  vmas_wf c l → (cost start e l < fuel)%nat →
  ∃ m' l' r, protect_loop fuel m pre l start e prot = Some (set_vmas m' (pre ++ l'), r) ∧
    reprot m l m' l' ∧ vmas_wf c l' ∧ protect_result m l m' l' r.
Proof.
  revert m pre l c. induction fuel as [|fuel IH]; intros m pre l c Hwf Hfuel; [lia|].
  destruct l as [|v l]; cbn [protect_loop].
  { exists m, [], 0. rewrite app_nil_r. split_and!; [done|apply reprot_refl|done|left; split; [done|]; by intros a _ _ _ [? ?]]. }
  pose proof Hwf as (Hc & Hv & Hl). destruct (v_end v <=? start) eqn:Hend; zbool.
  { destruct (IH m (pre ++ [v]) l _ Hl) as (m' & l' & r & Hrun & Hrp & Hwf' & Hres); [simpl in Hfuel; lia|].
    exists m', (v :: l'), r. rewrite <-app_assoc in Hrun.
    split_and!; [done|by eapply reprot_cons|done|by apply protect_result_skip]. }
  destruct (e <=? v_start v) eqn:Hbr; zbool.
  { exists m, (v :: l), 0. split_and!; [done|apply reprot_refl|done|]. left. split; [done|].
    intros a Hd Ha Hin [t Ht]. rewrite (den_below (v_start v)) in Ht; [done|by split_and!|lia]. }
  destruct (v_start v <? start) eqn:Hst; zbool.
  { destruct (vma_split m v start) as [m1 s] eqn:E. pose proof E as E'.
    apply vma_split_spec in E as (Henv & Hsp & H). destruct s as [[lo hi]|].
    - destruct H as (-> & -> & Hf).
      pose proof (split_list c v start l Hwf Hstart ltac:(lia)) as Hwf1.
      pose proof (resplit_split v start l m m1 Hv Hstart ltac:(lia) E') as Hrs.
      destruct (IH m1 (pre ++ [split_lo v start]) (split_hi v start :: l) start)
        as (m' & l' & r & Hrun & Hrp & Hwf' & Hres); [apply Hwf1| |].
      { pose proof (cost_hi_start start e v l Hst Hend). lia. }
      exists m', (split_lo v start :: l'), r. rewrite <-app_assoc in Hrun. split_and!; [done| | |].
      + eapply reprot_resplit; [done|]. by eapply reprot_cons.
      + split_and!; [apply Hwf1|apply Hwf1|done].
      + eapply protect_result_resplit; [done|]. by apply protect_result_skip.
    - exists m1, (v :: l), (- ENOMEM). split_and!; [done|by apply reprot_stop; [..|apply H]|done|]. right. by split; [|apply H]. }
  pose proof (unmap_tail start e He Hse v l m c Hwf Hst Hbr) as Ht.
  destruct (if e <? v_end v then _ else _) as [m1 s] eqn:E. destruct Ht as (Henv & Hsp & Ht).
  destruct s as [[w l1]|].
  - destruct Ht as (Hrs & Hwf1 & Hcost & Hws & Hwe & _).
    set (w' := set_v_flags w _). set (m2 := set_sp m1 _).
    destruct (IH m2 (pre ++ [w']) l1 (v_end w)) as (m' & l' & r & Hrun & Hrp & Hwf' & Hres); [apply Hwf1|lia|].
    exists m', (w' :: l'), r. rewrite <-app_assoc in Hrun. split_and!; [exact Hrun| | |].
    + eapply reprot_resplit; [done|]. apply (reprot_head c w l1 m1 m' l'); [done|lia|done|exact Hrp].
    + destruct (reflag_wf c w l1 Hwf1) as (R1 & R2 & _). by split_and!.
    + eapply protect_result_resplit; [done|]. destruct Hres as [[-> H]|[-> H]]; [left|by right].
      split; [done|]. intros a Hd Ha Hin. destruct (decide (v_start w ≤ a < v_end w)) as [Hw|Hw].
      * intros _. by apply (head_done c w l1 m1 m' l').
      * cbn [den]. rewrite bool_decide_false by done. intros Hx.
        apply (tail_done c w l1 m1 m' l' Hwf1); [done..|]. by apply H.
  - destruct Ht as (Hp & Hf & _). exists m1, (v :: l), (- ENOMEM).
    split_and!; [done|by apply reprot_stop|done|by right].
Qed.

End Walk.

(** ** The theorem *)

Lemma reprot_ok start e prot m m' l' :
  reprot start e prot m (vmas m) m' l' → vmas_wf 0 l' → mm_ok m → mm_ok (set_vmas m' l').
Proof.
  intros [P1 P2 P3 P4 P5 P6] Hwf [H1 H2 H3 H4]. split; [done| | |cbn [set_vmas sp]; by rewrite P3].
  - intros a Hd Ha. change (pte_of (set_vmas m' l') a) with (pte_of m' a). cbn [vmas set_vmas sp]. rewrite P2.
    destruct (P1 a Hd Ha) as [[-> ->]|(Hin & t & T1 & -> & ->)]; [by apply H2|].
    destruct (pte_valid (pte_of m a)) eqn:Hv; [|by rewrite Hv]. intros _.
    destruct (H2 a Hd Ha Hv) as (t' & T1' & _). rewrite T1 in T1'. injection T1' as <-.
    destruct (protect_pte_spec (sp m) (new_flags prot (at_flags t)) (pte_of m a)) as (Q1 & Q2 & Q3 & Q4 & Q5).
    eexists. split_and!; [done|done|]. intros (E1 & E2 & E3). destruct (Q5 E3) as [_ Q6]. specialize (Q6 E1).
    unfold pte_frame. rewrite Q2. fold (pte_frame (pte_of m a)).
    assert (owned (pte_of m a) = true) as Ho by (unfold owned in *; by rewrite Q1, Q3 in E2; rewrite Hv).
    unfold page_is_shared in Q6. unfold owned in Ho. rewrite Hv in Ho. cbn [andb] in Ho. apply negb_true_iff in Ho as Hs.
    rewrite Hs in Q6. fold (pte_frame (pte_of m a)) in Q6. apply Z.ltb_ge in Q6.
    pose proof (held_ge1 (pte_frame (pte_of m a)) (pgd (sp m)) a Hd Ha (own_frame _ ltac:(unfold owned; by rewrite Hv, Hs))).
    specialize (H3 (pte_frame (pte_of m a))). lia.
  - intros x. cbn [set_vmas sp]. pose proof (bal_refs _ _ P4 x). specialize (H3 x). lia.
Qed.

(** [do_mprotect] refuses an unaligned address, and a range with an
    unmapped page, without effect.  Otherwise it gives
    exactly the pages of the rounded range the new access flags, keeping their
    other flags and their backing, and rewrites their valid entries to match;
    other pages keep flags and entries.  When an allocation for a split fails,
    part of the range may have been changed.  No frame, reference count or
    file reference changes, and the invariant of the address space is kept:
    in particular no copy-on-write page becomes writable. *)
Theorem do_mprotect_correct m addr len prot :
  mm_ok m → u64_ok addr → u64_ok len → addr + ALIGN_UP len PAGE_SIZE ≤ USER_VA_END →
  let e := addr + ALIGN_UP len PAGE_SIZE in
  ∃ m' r, do_mprotect m addr len prot = Some (m', r) ∧ mm_ok m' ∧
    refs (sp m') = refs (sp m) ∧ frames m' = frames m ∧
    (r = - EINVAL ∧ m' = m ∧ ¬ (PAGE_SIZE | addr) ∨
     r = - ENOMEM ∧ m' = m ∧ (∃ x, addr ≤ x < e ∧ den (vmas m) x = None) ∨
     (r = 0 ∨ r = - ENOMEM ∧ ¬ plenty m) ∧
     ∀ a, (PAGE_SIZE | a) → 0 ≤ a < USER_VA_END →
       (¬ addr ≤ a < e ∨ r ≠ 0) ∧ den (vmas m') a = den (vmas m) a ∧ pte_of m' a = pte_of m a ∨
       addr ≤ a < e ∧ page_done prot m (vmas m) m' (vmas m') a).
Proof.
  intros Hok Ha Hl He. cbn zeta. destruct (ALIGN_UP_page len Hl) as (Hd & Hr & _ & _).
  set (n := ALIGN_UP len PAGE_SIZE) in *. unfold do_mprotect. fold n. rewrite page_mask by done.
  case_bool_decide as Hda; cbn [negb]; swap 1 2.
  { exists m, (- EINVAL). split; [done|]. split; [exact Hok|]. split_and!; [done..|]. left. by split_and!. }
  rewrite add64_small by (unfold u64_ok, USER_VA_END, U64 in *; lia).
  replace (addr + n <? addr) with false by lia.
  destruct (mapped_loop_spec (length (vmas m) + 2) (vmas m) addr (addr + n) (ok_vmas m Hok)) as (r & -> & Hr');
    [pose proof (nabove_length (vmas m) addr); lia|].
  destruct Hr' as [[-> Hall]|(-> & Hx)]; cbn [Z.eqb negb]; swap 1 2.
  { exists m, (- ENOMEM). split; [done|]. split; [exact Hok|]. split_and!; [done..|]. right. left. by split_and!. }
  pose proof (cost_le addr (addr + n) (vmas m)).
  destruct (protect_loop_spec addr (addr + n) prot Hda ltac:(by apply Z.divide_add_r) ltac:(unfold u64_ok in *; lia)
    (S (3 * length (vmas m))) m [] (vmas m) 0 (ok_vmas m Hok)) as (m' & l' & r & -> & Hrp & Hwf & Hres); [lia|].
  exists (set_vmas m' l'), r. split; [done|]. split; [by eapply reprot_ok|].
  split_and!; [apply Hrp|apply (rp_env _ _ _ _ _ _ _ Hrp)|]. right. right. split.
  { destruct Hres as [[-> _]|[-> ?]]; [by left|by right]. }
  intros a Hda' Hra. destruct (decide (addr ≤ a < addr + n)) as [Hin|Hout].
  - destruct Hres as [[-> Hall']|[-> _]].
    + right. split; [done|]. apply Hall'; [done..|by apply Hall].
    + destruct (rp_page _ _ _ _ _ _ _ Hrp a Hda' Hra) as [[E1 E2]|[_ T]]; [left|by right]. split_and!; [by right|done|done].
  - left. destruct (rp_page _ _ _ _ _ _ _ Hrp a Hda' Hra) as [[E1 E2]|[? _]]; [|done]. split_and!; [by left|done|done].
Qed.

Lemma do_mprotect_witness :
  ∃ m', do_mprotect ex_mm 0x11000 0x1000 PROT_READ = Some (m', 0) ∧ mm_ok m' ∧
        at_flags <$> den (vmas m') 0x11000 = Some VM_READ ∧ den (vmas m') 0x12000 = den (vmas ex_mm) 0x12000.
Proof.
  destruct (do_mprotect_correct ex_mm 0x11000 0x1000 PROT_READ ex_mm_ok) as (m' & r & Hrun & Hok & _).
  - unfold u64_ok, U64. lia.
  - unfold u64_ok, U64. lia.
  - vm_compute. intros H. discriminate H.
  - assert (match do_mprotect ex_mm 0x11000 0x1000 PROT_READ with
            | Some (m, r) => (r, at_flags <$> den (vmas m) 0x11000, den (vmas m) 0x12000)
            | None => (1, None, None) end = (0, Some VM_READ, den (vmas ex_mm) 0x12000)) as Hc by (vm_compute; reflexivity).
    rewrite Hrun in Hc. injection Hc as -> H1 H2. exists m'. split; [exact Hrun|]. split; [exact Hok|]. split; [exact H1|exact H2].
Defined.
