(* ===== verification/Fork.v ===== *)
(** * fork of src/mm/vm.c: copying an address space, copy on write

    [mm_dup] gives the child the pages of the parent; private pages become
    read-only and marked on both sides.  Afterwards the two address spaces
    keep their invariants, see the same bytes, and own no page together that
    either can write without a fault. *)

From stdpp Require Import functions.
From S2P Require Import Prelude CString DList Memblock Buddy PageTable Vma VmaSpec Fault Mmap Mprotect.

(** ** Releasing all entries: [free_tables] *)

Fixpoint sum_to (h : Z → Z) (n : nat) : Z :=
  match n with O => 0 | S n => sum_to h n + h (Z.of_nat n) end.

Lemma sum_to_ext h h' n : (∀ i, 0 ≤ i < Z.of_nat n → h i = h' i) → sum_to h n = sum_to h' n.
Proof. induction n as [|n IH]; intros H; simpl; [done|]. rewrite IH by (intros; apply H; lia). f_equal. apply H. lia. Qed.

Lemma sum_to_zero h n : (∀ i, h i = 0) → sum_to h n = 0.
Proof. intros H. induction n as [|n IH]; simpl; [done|]. by rewrite IH, H. Qed.

Lemma sum_ptes_app g n k p va :
  sum_ptes g (n + k) p va = sum_ptes g n p va + sum_ptes g k p (va + Z.of_nat n * PAGE_SIZE).
Proof.
  revert va. induction n as [|n IH]; intros va; simpl.
  - rewrite Z.mul_0_l, Z.add_0_r. done.
  - rewrite IH. replace (va + PAGE_SIZE + Z.of_nat n * PAGE_SIZE) with (va + Z.of_nat (S n) * PAGE_SIZE) by lia.
    simpl. lia.
Qed.

Lemma sum_ptes_rows g n k p va :
  sum_ptes g (n * k) p va = sum_to (λ i, sum_ptes g k p (va + i * (Z.of_nat k * PAGE_SIZE))) n.
Proof.
  induction n as [|n IH]; [done|]. replace (S n * k)%nat with (n * k + k)%nat by lia.
  rewrite sum_ptes_app, IH. simpl. f_equal. f_equal. lia.
Qed.

Lemma sum_ptes_sum_to g n p va : sum_ptes g n p va = sum_to (λ i, g (pte_at p (va + i * PAGE_SIZE))) n.
Proof.
  replace n with (n * 1)%nat at 1 by lia. rewrite sum_ptes_rows. apply sum_to_ext. intros i _.
  change (Z.of_nat 1) with 1. rewrite Z.mul_1_l. cbn [sum_ptes]. apply Z.add_0_r.
Qed.

Definition ENTRIES : nat := Z.to_nat PT_ENTRIES.

Lemma NPAGES_entries : NPAGES = (ENTRIES * (ENTRIES * ENTRIES))%nat.
Proof.
  pose proof NPAGES_end as H. apply Nat2Z.inj. rewrite !Nat2Z.inj_mul. unfold ENTRIES. rewrite Z2Nat.id by done.
  unfold USER_VA_END, PAGE_SIZE, PT_ENTRIES in *. lia.
Qed.

(** The entry at the three indices. *)
Lemma pte_at_digits p i j k :
  0 ≤ i < 512 → 0 ≤ j < 512 → 0 ≤ k < 512 →
  pte_at p (((i * 512 + j) * 512 + k) * PAGE_SIZE) =
    match p i with None => 0 | Some l2 => match l2 j with None => 0 | Some l3 => l3 k end end.
Proof.
  intros Hi Hj Hk. unfold pte_at, user_pte. set (a := _ * PAGE_SIZE).
  assert (0 ≤ a) by (unfold a, PAGE_SIZE; lia).
  assert (a / 2 ^ 12 = (i * 512 + j) * 512 + k) as E3 by (apply Z.div_mul; done).
  assert (L3_INDEX a = k) as ->.
  { rewrite L3_INDEX_div, E3 by done. rewrite Z.add_comm, Z.mod_add by done. apply Z.mod_small. lia. }
  assert (a / 2 ^ 21 = i * 512 + j) as E2.
  { change (2 ^ 21) with (2 ^ 12 * 512). rewrite <-Z.div_div, E3 by lia. rewrite Z.div_add_l, (Z.div_small k) by lia. lia. }
  assert (L2_INDEX a = j) as ->.
  { rewrite L2_INDEX_div, E2 by done. rewrite Z.add_comm, Z.mod_add by done. apply Z.mod_small. lia. }
  assert (L1_INDEX a = i) as ->.
  { rewrite L1_INDEX_div by done. change (2 ^ 30) with (2 ^ 21 * 512). rewrite <-Z.div_div, E2 by lia.
    rewrite Z.div_add_l, (Z.div_small j), Z.add_0_r by lia. apply Z.mod_small. lia. }
  destruct (p i) as [l2|]; [|done]. by destruct (l2 j).
Qed.

(** A loop whose step takes [h i] from the count of [x] and keeps the tables. *)
Lemma for_entries_refs (f : space → Z → space) (h : Z → Z) s x :
  (∀ s i, 0 ≤ i < PT_ENTRIES → pgd (f s i) = pgd s) →
  (∀ s' i, 0 ≤ i < PT_ENTRIES → pgd s' = pgd s → refs (f s' i) x = refs s' x - h i) →
  pgd (for_entries f s) = pgd s ∧ refs (for_entries f s) x = refs s x - sum_to h ENTRIES.
Proof.
  intros Hp Hr. unfold for_entries, ENTRIES.
  assert (∀ n, (n ≤ 512)%nat → pgd (foldl f s (seqZ 0 (Z.of_nat n))) = pgd s ∧
    refs (foldl f s (seqZ 0 (Z.of_nat n))) x = refs s x - sum_to h n) as H; [|apply (H (Z.to_nat PT_ENTRIES)); unfold PT_ENTRIES; lia].
  induction n as [|n IH]; intros Hn; [simpl; split; [done|lia]|].
  rewrite seqZ_S, foldl_app. destruct IH as [I1 I2]; [lia|]. cbn [foldl sum_to].
  rewrite Hp, Hr, I1, I2 by (done || unfold PT_ENTRIES; lia). split; [done|]. rewrite Z.add_0_l. lia.
Qed.

Lemma release_pte_own s v x : pgd (release_pte s v) = pgd s ∧ refs (release_pte s v) x = refs s x - own x v.
Proof.
  unfold release_pte, own, owned. destruct (pte_valid v); simpl; [|split; [done|lia]].
  destruct (has v PTE_SW_SHARED); simpl; [split; [done|lia]|]. split; [done|].
  destruct (phys_to_page (pte_addr v) =? x) eqn:E; zbool; [subst; by rewrite fn_lookup_insert|].
  rewrite fn_lookup_insert_ne by done. lia.
Qed.

Lemma free_tables_refs s x : refs (free_tables s) x = refs s x - held x (pgd s).
Proof.
  set (h3 := λ l3 : l3_table, sum_to (λ k, own x (l3 k)) ENTRIES).
  set (h2 := λ l2 : l2_table, sum_to (λ j, match l2 j with None => 0 | Some l3 => h3 l3 end) ENTRIES).
  assert (∀ s l3, pgd (for_entries (λ s k, release_pte s (l3 k)) s) = pgd s ∧
    refs (for_entries (λ s k, release_pte s (l3 k)) s) x = refs s x - h3 l3) as H3.
  { intros s' l3. apply for_entries_refs; intros; apply release_pte_own. exact 0. }
  set (f2 := λ (l2 : l2_table) s j, match l2 j with None => s | Some l3 => for_entries (λ s k, release_pte s (l3 k)) s end).
  assert (∀ s l2, pgd (for_entries (f2 l2) s) = pgd s ∧ refs (for_entries (f2 l2) s) x = refs s x - h2 l2) as H2.
  { intros s' l2. apply for_entries_refs; intros; unfold f2; destruct (l2 i); try done; try lia; apply H3. }
  destruct (for_entries_refs (λ s i, match pgd s i with None => s | Some l2 => for_entries (f2 l2) s end)
    (λ i, match pgd s i with None => 0 | Some l2 => h2 l2 end) s x) as [_ H].
  { intros s' i _. destruct (pgd s' i); [apply H2|done]. }
  { intros s' i _ E. rewrite E. destruct (pgd s i); [apply H2|lia]. }
  unfold free_tables. fold f2. etrans; [exact H|]. f_equal. f_equal.
  rewrite held_sum, NPAGES_entries, sum_ptes_rows. apply sum_to_ext. intros i Hi. rewrite sum_ptes_rows.
  assert (Z.of_nat ENTRIES = 512) as HE by done. rewrite HE in Hi.
  transitivity (sum_to (λ j, match (match pgd s i with None => None | Some l2 => l2 j end) with
                             | None => 0 | Some l3 => h3 l3 end) ENTRIES).
  { destruct (pgd s i); [done|]. symmetry. by apply sum_to_zero. }
  apply sum_to_ext. intros j Hj. rewrite HE in Hj. rewrite sum_ptes_sum_to.
  transitivity (sum_to (λ k, own x (match (match pgd s i with None => None | Some l2 => l2 j end) with
                             | None => 0 | Some l3 => l3 k end)) ENTRIES).
  { destruct (pgd s i) as [l2|]; [destruct (l2 j); [done|]|]; symmetry; by apply sum_to_zero. }
  apply sum_to_ext. intros k Hk. rewrite HE in Hk. f_equal.
  replace (0 + i * (Z.of_nat (ENTRIES * ENTRIES) * PAGE_SIZE) + j * (Z.of_nat ENTRIES * PAGE_SIZE) + k * PAGE_SIZE)
    with (((i * 512 + j) * 512 + k) * PAGE_SIZE) by (rewrite Nat2Z.inj_mul, HE; lia).
  rewrite pte_at_digits by done. by destruct (pgd s i) as [l2|].
Qed.

(** ** The copied entries *)

Definition cow (v : Z) : Z := Z.lor v (Z.lor PTE_RDONLY PTE_SW_COW).

Lemma cow_spec v :
  pte_valid (cow v) = pte_valid v ∧ pte_addr (cow v) = pte_addr v ∧
  has (cow v) PTE_SW_SHARED = has v PTE_SW_SHARED ∧ has (cow v) PTE_UXN = has v PTE_UXN ∧
  has (cow v) PTE_RDONLY = true ∧ has (cow v) PTE_SW_COW = true.
Proof.
  unfold cow. rewrite !has_or. split_and!.
  - unfold pte_valid. rewrite has_or. by rewrite orb_false_r.
  - unfold pte_addr. rewrite Z.land_lor_distr_l. by rewrite Z.lor_0_r.
  - by rewrite orb_false_r.
  - by rewrite orb_false_r.
  - by rewrite orb_true_r.
  - by rewrite orb_true_r.
Qed.

Lemma cow_own v : (∀ x, own x (cow v) = own x v) ∧ own_any (cow v) = own_any v.
Proof. destruct (cow_spec v) as (H1 & H2 & H3 & _). unfold own, own_any, owned. by rewrite H1, H2, H3. Qed.

(** The two entries that an entry [v] of the parent becomes. *)
Definition forked (flags v vp vc : Z) : Prop :=
  if negb (pte_valid v) then vp = v ∧ vc = 0
  else if owned v && negb (has flags VM_SHARED) then vp = cow v ∧ vc = cow v
  else vp = v ∧ vc = v.

Definition fresh_at (c : mm) (a : Z) : Prop := pte_of c a = 0.

(** The child takes the entry [w] at a page it has no entry for. *)
Lemma child_store c c1 c2 va w :
  same_view c c1 → is_Some (user_pte (pgd (sp c1)) va) → (PAGE_SIZE | va) → 0 ≤ va < USER_VA_END → fresh_at c va →
  pgd (sp c2) = pgd (sp c1) → (∀ x, refs (sp c2) x = refs (sp c1) x + own x w) →
  rss (sp c2) = wrap64 (rss (sp c1) + own_any w) ∨ own_any w = 0 ∧ rss (sp c2) = rss (sp c1) →
  balanced (sp c) (sp (store_pte c2 va w)) ∧
  ∀ a, (PAGE_SIZE | a) → 0 ≤ a < USER_VA_END → pte_of (store_pte c2 va w) a = if decide (a = va) then w else pte_of c a.
Proof.
  intros Hsv Htab Hd Hva Hf Hp Hr Hs. unfold fresh_at in Hf. split.
  - etrans; [by apply same_view_balanced|].
    assert (pte_at (pgd (sp c1)) va = 0) as H0 by (rewrite <-Hf; apply (sv_pte _ _ Hsv)).
    apply (balanced_set _ _ va w); try done.
    + cbn [sp pgd store_pte set_pgd_of set_sp set_pgd]. by rewrite Hp.
    + intros x. cbn [sp refs store_pte set_pgd_of set_sp set_pgd]. rewrite H0, Hr. change (own x 0) with 0. lia.
    + cbn [sp rss store_pte set_pgd_of set_sp set_pgd]. rewrite H0. change (own_any 0) with 0. rewrite Z.sub_0_r.
      destruct Hs as [->|[-> ->]]; [apply wrap64_small, wrap64_range|]. by rewrite Z.add_0_r.
    + cbn [sp rss store_pte set_pgd_of set_sp set_pgd]. destruct Hs as [->|[_ ->]]; [intros _; apply wrap64_range|done].
  - intros a Hda Ha. rewrite pte_of_store by (done || by rewrite Hp). case_decide; [done|].
    rewrite <-(sv_pte _ _ Hsv). unfold pte_of. by rewrite Hp.
Qed.

Definition dup_frame (c c' : mm) : Prop :=
  frames c' = frames c ∧ supply c' = supply c ∧ vmas c' = vmas c ∧ frefs c' = frefs c ∧
  brk_start c' = brk_start c ∧ brk c' = brk c ∧ mmap_base c' = mmap_base c ∧ stack_top c' = stack_top c.

Lemma dup_frame_sv c c1 : same_view c c1 → dup_frame c c1.
Proof. intros []. unfold dup_frame. by split_and!. Qed.

Record page_dup (flags va : Z) (pp : pg_dir) (c : mm) (pp' : pg_dir) (c' : mm) (ok : bool) : Prop := {
  pd_other a : (PAGE_SIZE | a) → 0 ≤ a < USER_VA_END → a ≠ va → pte_at pp' a = pte_at pp a ∧ pte_of c' a = pte_of c a;
  pd_here : if ok then forked flags (pte_at pp va) (pte_at pp' va) (pte_of c' va)
            else pte_at pp' va = pte_at pp va ∧ pte_of c' va = pte_of c va;
  pd_bal : balanced (sp c) (sp c');
  pd_frame : dup_frame c c';
}.

Lemma pte_at_store p va v a :
  (PAGE_SIZE | va) → 0 ≤ va < USER_VA_END → is_Some (user_pte p va) → (PAGE_SIZE | a) → 0 ≤ a < USER_VA_END →
  pte_at (set_pte p va v) a = if decide (a = va) then v else pte_at p a.
Proof.
  intros. apply (pte_of_store (Mm (Space p 0 (λ _, 0)) [] 0 0 0 0 (λ _, 0) (λ _ _, 0) [] []) va v a); done.
Qed.

(** The child gets [w], the parent keeps its entry or gets [w] too. *)
Lemma page_dup_store flags pp pp' pv w c c1 c2 va :
  user_pte pp va = Some pv → pte_valid pv = true →
  same_view c c1 → is_Some (user_pte (pgd (sp c1)) va) → (PAGE_SIZE | va) → 0 ≤ va < USER_VA_END → fresh_at c va →
  pgd (sp c2) = pgd (sp c1) → (∀ x, refs (sp c2) x = refs (sp c1) x + own x w) →
  rss (sp c2) = wrap64 (rss (sp c1) + own_any w) ∨ own_any w = 0 ∧ rss (sp c2) = rss (sp c1) →
  dup_frame c1 c2 →
  (if owned pv && negb (has flags VM_SHARED) then w = cow pv ∧ pp' = set_pte pp va w else w = pv ∧ pp' = pp) →
  page_dup flags va pp c pp' (store_pte c2 va w) true.
Proof.
  intros Hpv Hv Hsv Htab Hd Hva Hf Hp Hr Hs Hfr Hw. destruct (child_store c c1 c2 va w) as [Hb Hpt]; [done..|].
  assert (pte_at pp va = pv) as Hat by (unfold pte_at; by rewrite Hpv).
  assert (∀ a, (PAGE_SIZE | a) → 0 ≤ a < USER_VA_END → pte_at pp' a = if decide (a = va) then w else pte_at pp a) as Hpp.
  { intros a Hda Ha. destruct (owned pv && _); destruct Hw as [-> ->]; [apply pte_at_store; (done || by rewrite Hpv)|].
    case_decide; [by subst|done]. }
  split; [intros a Hda Ha Hne; by rewrite Hpp, Hpt, !decide_False by done| |done|].
  - rewrite Hpp, Hpt, !decide_True by done. unfold forked. rewrite Hat, Hv. simpl.
    destruct (owned pv && _); by destruct Hw as [-> _].
  - destruct (dup_frame_sv _ _ Hsv) as (F1 & F2 & F3 & F4 & F5 & F6 & F7 & F8).
    destruct Hfr as (G1 & G2 & G3 & G4 & G5 & G6 & G7 & G8). unfold dup_frame.
    cbn [store_pte set_pgd_of set_sp frames supply vmas frefs brk_start brk mmap_base stack_top]. split_and!; congruence.
Qed.

Lemma dup_page_spec pp c flags va pp' c' ok :
  dup_page pp c flags va = (pp', c', ok) →
  (PAGE_SIZE | va) → 0 ≤ va < USER_VA_END → fresh_at c va → page_dup flags va pp c pp' c' ok.
Proof.
  unfold dup_page. intros H Hd Hva Hf.
  assert (pte_valid (pte_at pp va) = false → page_dup flags va pp c pp c true) as Hnone.
  { intros Hn. split; [done| |done|by unfold dup_frame]. unfold forked. rewrite Hn. done. }
  destruct (user_pte pp va) as [pv|] eqn:Epv; [|simplify_eq; apply Hnone; unfold pte_at; by rewrite Epv].
  destruct (pte_valid pv) eqn:Hv; simpl in H; [|simplify_eq; apply Hnone; unfold pte_at; by rewrite Epv].
  destruct (user_pte_get c va) as [c1 ok1] eqn:E. apply user_pte_get_spec in E as [Hsv Htab].
  destruct ok1; simpl in H; [specialize (Htab eq_refl)|].
  2:{ simplify_eq. split; [intros; by rewrite (sv_pte _ _ Hsv)|by rewrite (sv_pte _ _ Hsv)|by apply same_view_balanced|].
      by apply dup_frame_sv. }
  destruct (has pv PTE_SW_SHARED) eqn:Hsh.
  { simplify_eq. assert (owned pv = false) as Ho by (unfold owned; by rewrite Hv, Hsh).
    apply (page_dup_store flags pp' pp' pv pv c c1 c1 va); try done.
    - intros x. unfold own. rewrite Ho. simpl. lia.
    - right. unfold own_any. by rewrite Ho.
    - by rewrite Ho. }
  assert (owned pv = true) as Ho by (unfold owned; by rewrite Hv, Hsh).
  assert (∀ w, (∀ x, own x w = own x pv) → own_any w = own_any pv →
    (if negb (has flags VM_SHARED) then w = cow pv ∧ pp' = set_pte pp va w else w = pv ∧ pp' = pp) →
    page_dup flags va pp c pp' (store_pte (set_sp c1 (add_rss (ref_get (sp c1) (phys_to_page (pte_addr pv))) 1)) va w) true) as Hgo.
  { intros w Hx Ha Hw. apply (page_dup_store flags pp pp' pv w c c1 _ va); try done; [| |by rewrite Ho].
    - intros x. rewrite Hx. cbn [sp refs set_sp add_rss ref_get]. unfold own. rewrite Ho. simpl.
      destruct (_ =? x) eqn:Ex; zbool; [subst; by rewrite fn_lookup_insert|]. rewrite fn_lookup_insert_ne by done. lia.
    - left. rewrite Ha. unfold own_any. by rewrite Ho. }
  destruct (has flags VM_SHARED); simpl in H; injection H as <- <- <-; apply Hgo; try done; apply cow_own.
Qed.

Lemma user_pte_get_plenty m va m' ok : user_pte_get m va = (m', ok) → plenty m → ok = true ∧ plenty m'.
Proof.
  assert (∀ A (t : option A) e l t' l', pt_next t e l = (t', l') → Forall (eq true) l → is_Some t' ∧ Forall (eq true) l') as Hnext.
  { intros A t e l t' l' H Hl. unfold pt_next, table_alloc in H.
    destruct t; [by simplify_eq|]. destruct l as [|b l]; [by simplify_eq|]. inversion Hl; subst. by simplify_eq. }
  unfold user_pte_get, user_pte_alloc, plenty. intros H Hp.
  destruct (pt_next (pgd (sp m) _) _ _) as [t1 l1] eqn:E1. destruct (Hnext _ _ _ _ _ _ E1 Hp) as [[l2 ->] Hp1].
  destruct (pt_next (l2 _) _ _) as [t2 l3] eqn:E2. destruct (Hnext _ _ _ _ _ _ E2 Hp1) as [[l3' ->] Hp2].
  pose proof (f_equal snd H) as H1. apply (f_equal fst) in H. cbn [fst snd] in H, H1. rewrite <-H, <-H1.
  split; [reflexivity|exact Hp2].
Qed.

Lemma dup_page_plenty pp c flags va pp' c' ok :
  dup_page pp c flags va = (pp', c', ok) → plenty c → ok = true ∧ plenty c'.
Proof.
  unfold dup_page. intros H Hp. destruct (user_pte pp va) as [pv|]; [|by simplify_eq].
  destruct (pte_valid pv); simpl in H; [|by simplify_eq].
  destruct (user_pte_get c va) as [c1 ok1] eqn:E. apply user_pte_get_plenty in E as [-> Hp1]; [|done]. simpl in H.
  destruct (has pv PTE_SW_SHARED); [|destruct (has flags VM_SHARED)]; simpl in H; injection H as <- <- <-;
    (split; [reflexivity|exact Hp1]).
Qed.

(** ** Ranges of pages

    [D] gives the flags of the pages to copy.  After a failure a page is
    either copied or untouched. *)

Record fork_step (D : Z → option Z) (pp : pg_dir) (c : mm) (pp' : pg_dir) (c' : mm) (ok : bool) : Prop := {
  fk_page a : (PAGE_SIZE | a) → 0 ≤ a < USER_VA_END →
    (pte_at pp' a = pte_at pp a ∧ pte_of c' a = pte_of c a) ∨
    ∃ f, D a = Some f ∧ forked f (pte_at pp a) (pte_at pp' a) (pte_of c' a);
  fk_done a f : (PAGE_SIZE | a) → 0 ≤ a < USER_VA_END → ok = true → D a = Some f →
    forked f (pte_at pp a) (pte_at pp' a) (pte_of c' a);
  fk_bal : balanced (sp c) (sp c');
  fk_env : same_env c c';
}.

Lemma fork_step_out D pp c pp' c' ok a :
  fork_step D pp c pp' c' ok → (PAGE_SIZE | a) → 0 ≤ a < USER_VA_END → D a = None →
  pte_at pp' a = pte_at pp a ∧ pte_of c' a = pte_of c a.
Proof. intros H Hd Ha HD. destruct (fk_page _ _ _ _ _ _ H a Hd Ha) as [?|(f & Hf & _)]; [done|congruence]. Qed.

Lemma fork_step_app D1 D2 D pp c pp1 c1 pp2 c2 ok :
  fork_step D1 pp c pp1 c1 true → fork_step D2 pp1 c1 pp2 c2 ok →
  (∀ a, D a = match D1 a with Some f => Some f | None => D2 a end) → (∀ a, is_Some (D1 a) → D2 a = None) →
  fork_step D pp c pp2 c2 ok.
Proof.
  intros H1 H2 HD Hdis. assert (∀ a f, (PAGE_SIZE | a) → 0 ≤ a < USER_VA_END → D1 a = Some f →
    forked f (pte_at pp a) (pte_at pp2 a) (pte_of c2 a)) as Hfirst.
  { intros a f Hd Ha Hf. destruct (fork_step_out _ _ _ _ _ _ a H2 Hd Ha) as [-> ->]; [by apply Hdis|].
    by apply (fk_done _ _ _ _ _ _ H1). }
  split; [| |etrans; [apply H1|apply H2]|etrans; [apply H1|apply H2]].
  - intros a Hd Ha. rewrite HD. destruct (D1 a) as [f|] eqn:E1; [right; exists f; split; [done|by apply Hfirst]|].
    destruct (fork_step_out _ _ _ _ _ _ a H1 Hd Ha E1) as [<- <-]. by apply (fk_page _ _ _ _ _ _ H2).
  - intros a f Hd Ha Hok. rewrite HD. destruct (D1 a) as [f'|] eqn:E1; [intros; simplify_eq; by apply Hfirst|].
    destruct (fork_step_out _ _ _ _ _ _ a H1 Hd Ha E1) as [<- _]. by apply (fk_done _ _ _ _ _ _ H2).
Qed.

Lemma fork_step_fail D D' pp c pp' c' :
  fork_step D pp c pp' c' false → (∀ a, is_Some (D a) → D' a = D a) → fork_step D' pp c pp' c' false.
Proof.
  intros [H1 H2 H3 H4] HD. split; [|done|done|done].
  intros a Hd Ha. destruct (H1 a Hd Ha) as [?|(f & Hf & ?)]; [by left|]. right. exists f. by rewrite HD.
Qed.

Lemma fork_step_none D pp c c' ok :
  (∀ a, pte_of c' a = pte_of c a) → refs (sp c') = refs (sp c) → rss (sp c') = rss (sp c) → same_env c c' →
  (ok = true → ∀ a, D a = None) → fork_step D pp c pp c' ok.
Proof.
  intros Hp Hr Hs He HD. split; [| | |done].
  - intros. left. by rewrite Hp.
  - intros a f _ _ Hok. by rewrite HD.
  - apply balanced_same; [intros; apply Hp|by rewrite Hr|done].
Qed.

Definition range (start e flags : Z) (a : Z) : option Z := if bool_decide (start ≤ a < e) then Some flags else None.

Lemma dup_pages_spec n pp c flags va pp' c' ok :
  dup_pages n pp c flags va = (pp', c', ok) →
  0 ≤ va → (PAGE_SIZE | va) → va + Z.of_nat n * PAGE_SIZE ≤ USER_VA_END →
  (∀ a, (PAGE_SIZE | a) → va ≤ a < va + Z.of_nat n * PAGE_SIZE → fresh_at c a) →
  fork_step (range va (va + Z.of_nat n * PAGE_SIZE) flags) pp c pp' c' ok ∧
  vmas c' = vmas c ∧ frefs c' = frefs c ∧ (plenty c → ok = true).
Proof.
  revert pp c va. induction n as [|n IH]; intros pp c va H H0 Hd He Hf.
  { simplify_eq/=. split_and!; try done. apply fork_step_none; try done. intros _ a. unfold range.
    rewrite bool_decide_false by lia. done. }
  simpl in H. destruct (dup_page pp c flags va) as [[pp1 c1] ok1] eqn:E. pose proof (dup_page_plenty _ _ _ _ _ _ _ E) as Hpl.
  assert (0 ≤ va < USER_VA_END) as Hva by (unfold PAGE_SIZE in *; lia).
  apply dup_page_spec in E as [P1 P2 P3 P4]; [|done|done|apply Hf; [done|unfold PAGE_SIZE; lia]].
  destruct P4 as (F1 & F2 & F3 & F4 & F5 & F6 & F7 & F8).
  assert (fork_step (range va (va + PAGE_SIZE) flags) pp c pp1 c1 ok1) as Hstep.
  { assert (∀ a, (PAGE_SIZE | a) → range va (va + PAGE_SIZE) flags a = if decide (a = va) then Some flags else None) as HD.
    { intros a [q ->]. destruct Hd as [r ->]. unfold range. unfold PAGE_SIZE in *. case_decide; case_bool_decide; (done || lia). }
    split; [| |exact P3|split; (assumption || intros; by apply Hpl)].
    - intros a Hda Ha. rewrite HD by done. case_decide as Ea; [subst a; destruct ok1; [right; by exists flags|by left]|left; by apply P1].
    - intros a f Hda Ha -> Hfa. rewrite HD in Hfa by done. case_decide; [by simplify_eq|done]. }
  destruct ok1; simpl in H.
  2:{ simplify_eq. split_and!; [|done|done|intros Hp; by destruct (Hpl Hp)].
      apply (fork_step_fail _ _ _ _ _ _ Hstep). intros a [f Hfa]. unfold range in *. unfold PAGE_SIZE in *.
      repeat case_bool_decide; (done || lia). }
  rewrite add64_small in H by (unfold USER_VA_END, PAGE_SIZE, U64 in *; lia).
  apply IH in H as (I1 & I2 & I3 & I4); [|unfold PAGE_SIZE; lia|by apply Z.divide_add_r|lia|].
  - split_and!; [|congruence|congruence|intros Hp; by apply I4, Hpl].
    apply (fork_step_app _ _ _ _ _ _ _ _ _ _ Hstep I1).
    + intros a. unfold range. unfold PAGE_SIZE in *. repeat case_bool_decide; (done || lia).
    + intros a [f Hfa]. unfold range in *. unfold PAGE_SIZE in *. repeat case_bool_decide; (done || lia).
  - intros a Hda Ha. unfold fresh_at. destruct (P1 a) as [_ ->]; [done|unfold PAGE_SIZE in *; lia|unfold PAGE_SIZE in *; lia|].
    apply Hf; [done|]. unfold PAGE_SIZE in *; lia.
Qed.

(** ** The VMAs *)

Definition vma_flags_at (l : list vma) (a : Z) : option Z := at_flags <$> den l a.

Lemma vma_clone_spec c v c' ok :
  vma_clone c v = (c', ok) →
  same_env c c' ∧ sp c' = sp c ∧ vmas c' = vmas c ∧ (plenty c → ok = true) ∧
  ∀ f, frefs c' f = frefs c f + (if ok then one f (v_file v) else 0).
Proof.
  unfold vma_clone. destruct (kalloc c) as [c1 ok1] eqn:E. apply kalloc_spec in E as (K1 & K2 & K3 & K4 & K5).
  intros H. destruct ok1; simplify_eq; [|split_and!; try done; intros f; rewrite K4; lia].
  split_and!; [by destruct K1, (v_file v); split|by destruct (v_file v)|by destruct (v_file v)|done|].
  intros f. by rewrite file_get_refs, K4.
Qed.

Lemma nfile_app f l k : nfile f (l ++ k) = nfile f l + nfile f k.
Proof. induction l as [|v l IH]; simpl; [done|]. rewrite IH. lia. Qed.

Lemma dup_vmas_spec l lo pp c pp' c' ok :
  dup_vmas l pp c = (pp', c', ok) → vmas_wf lo l → 
  (∀ a, (PAGE_SIZE | a) → is_Some (den l a) → fresh_at c a) →
  fork_step (vma_flags_at l) pp c pp' c' ok ∧ (plenty c → ok = true) ∧
  ∃ k, vmas c' = vmas c ++ k ∧ (ok = true → k = l) ∧ ∀ f, frefs c' f = frefs c f + nfile f k.
Proof.
  revert lo pp c. induction l as [|v l IH]; intros lo pp c H Hwf Hf.
  { simplify_eq/=. split_and!; [by apply fork_step_none|done|]. exists []. rewrite app_nil_r. split_and!; try done. simpl. lia. }
  simpl in H. destruct (vma_clone c v) as [c1 ok1] eqn:E. apply vma_clone_spec in E as (K1 & K2 & K3 & K4 & K5).
  destruct ok1; simpl in H.
  2:{ simplify_eq. split_and!; [apply fork_step_none; try (unfold pte_of; by rewrite K2); done|done|].
      exists []. rewrite app_nil_r. split_and!; [done|done|]. intros f. rewrite K5. done. }
  set (c2 := set_vmas c1 (vmas c1 ++ [v])) in *.
  destruct (dup_pages _ pp c2 _ _) as [[pp3 c3] ok3] eqn:E3.
  pose proof Hwf as (Hlo & Hv & Hl). pose proof (page_count_end _ Hv) as Hn.
  assert (∀ a, pte_of c2 a = pte_of c a) as Hpt by (intros a; unfold pte_of, c2; cbn [set_vmas sp]; by rewrite K2).
  assert (∀ a, v_start v ≤ a < v_end v → is_Some (den (v :: l) a)) as Hin.
  { intros a Ha. cbn [den]. rewrite bool_decide_true by done. eauto. }
  apply dup_pages_spec in E3 as (S1 & S2 & S3 & S4); [|apply Hv|apply Hv|rewrite Hn; apply Hv|].
  2:{ intros a Hd Ha. rewrite Hn in Ha. unfold fresh_at. rewrite Hpt. apply Hf; auto. }
  rewrite Hn in S1.
  assert (fork_step (range (v_start v) (v_end v) (v_flags v)) pp c pp3 c3 ok3) as Hstep.
  { destruct S1 as [T1 T2 T3 T4]. split.
    - intros a Hd Ha. specialize (T1 a Hd Ha). by rewrite Hpt in T1.
    - done.
    - unfold c2 in T3. cbn [set_vmas sp] in T3. by rewrite K2 in T3.
    - etrans; [exact K1|]. etrans; [|exact T4]. by split. }
  assert (∀ f, frefs c3 f = frefs c f + one f (v_file v)) as Hfr by (intros f; rewrite S3; apply K5).
  assert (vmas c3 = vmas c ++ [v]) as Hvm by (rewrite S2; unfold c2; cbn [set_vmas vmas]; by rewrite K3).
  assert (∀ a, vma_flags_at (v :: l) a =
    match range (v_start v) (v_end v) (v_flags v) a with Some f => Some f | None => vma_flags_at l a end) as HD.
  { intros a. unfold vma_flags_at, range. cbn [den]. case_bool_decide; done. }
  assert (plenty c → plenty c2) as Hp2 by (intros Hp; exact (se_plenty _ _ K1 Hp)).
  destruct ok3; simpl in H.
  2:{ simplify_eq. split_and!; [|auto|].
      - apply (fork_step_fail _ _ _ _ _ _ Hstep). intros a Hs. rewrite HD. by destruct (range _ _ _ a); [|destruct Hs].
      - exists [v]. split_and!; [done|done|]. intros f. rewrite Hfr. simpl. lia. }
  apply (IH (v_end v)) in H as (I1 & I2 & k & I3 & I4 & I5); [|done|].
  - split_and!.
    + apply (fork_step_app _ _ _ _ _ _ _ _ _ _ Hstep I1 HD). intros a [f Hs]. unfold vma_flags_at.
      rewrite (den_after _ _ _ _ Hwf); [done|]. unfold range in Hs. by case_bool_decide.
    + intros Hp. apply I2, (se_plenty _ _ (fk_env _ _ _ _ _ _ Hstep)), Hp.
    + exists (v :: k). rewrite I3, Hvm, <-app_assoc. split_and!; [done|intros Hok; by rewrite I4|].
      intros f. rewrite I5, Hfr. simpl. lia.
  - intros a Hd Hs. unfold fresh_at. pose proof (den_top _ _ _ Hl Hs) as Ht.
    assert (v_start v < v_end v ∧ 0 ≤ v_start v) as [? ?] by (split; apply Hv).
    destruct (fork_step_out _ _ _ _ _ _ a Hstep Hd) as [_ ->]; [lia|unfold range; rewrite bool_decide_false by lia; done|].
    apply Hf; [done|]. cbn [den]. rewrite bool_decide_false by lia. done.
Qed.

Lemma mm_free_frefs (c : mm) l f :
  sp (foldl vma_free c l) = sp c ∧ same_env c (foldl vma_free c l) ∧ frefs (foldl vma_free c l) f = frefs c f - nfile f l.
Proof.
  revert c. induction l as [|v l IH]; intros c; simpl; [split_and!; [done|done|lia]|].
  destruct (IH (vma_free c v)) as (-> & H2 & ->). unfold vma_free. split_and!; [by destruct (v_file v)| |].
  - etrans; [|exact H2]. unfold vma_free. destruct (v_file v); [by split|done].
  - rewrite file_put_refs. lia.
Qed.

(** ** [mm_dup] *)

Lemma forked_spec flags v vp vc :
  forked flags v vp vc →
  (∀ x, own x vp = own x v) ∧ ¬ exclusive flags vp ∧ ¬ exclusive flags vc ∧
  (pte_valid vp = true → pte_valid v = true) ∧ (pte_valid vc = true → pte_valid v = true ∧ vc = vp) ∧
  (allowed flags v → allowed flags vp).
Proof.
  unfold forked, exclusive. intros H. destruct (pte_valid v) eqn:Hv; simpl in H.
  2:{ destruct H as [-> ->]. split_and!; [done| |by intros (_ & ? & _)|congruence|done|done].
      intros (_ & Ho & _). unfold owned in Ho. by rewrite Hv in Ho. }
  destruct (cow_spec v) as (C1 & C2 & C3 & C4 & C5 & C6). destruct (cow_own v) as [C7 _].
  destruct (owned v) eqn:Ho, (has flags VM_SHARED) eqn:Hs; simpl in H; destruct H as [-> ->];
    split_and!; try done; try (intros (? & ? & ?); congruence).
  intros [A1 A2]. split; [by rewrite C5|by rewrite C4].
Qed.

(** The entry of a page after the fork, on either side. *)
Definition fork_pte (flags v : Z) : Z := if owned v && negb (has flags VM_SHARED) then cow v else v.

Lemma forked_ptes flags v vp vc :
  forked flags v vp vc → vp = fork_pte flags v ∧ vc = if pte_valid v then fork_pte flags v else 0.
Proof.
  unfold forked, fork_pte. destruct (pte_valid v) eqn:Hv; simpl; [by destruct (owned v && _)|].
  intros [-> ->]. unfold owned. by rewrite Hv.
Qed.

(** What an address space needs to be a side of a fork of [m]. *)
Lemma side_ok m m' :
  mm_ok m → vmas m' = vmas m → u64_ok (rss (sp m')) → (∀ x, held x (pgd (sp m')) ≤ refs (sp m') x) →
  (∀ a, (PAGE_SIZE | a) → 0 ≤ a < USER_VA_END → pte_valid (pte_of m' a) = true →
    (pte_of m' a = pte_of m a ∧ ∀ x, refs (sp m') x = refs (sp m) x) ∨
    ∃ t, den (vmas m) a = Some t ∧ allowed (at_flags t) (pte_of m' a) ∧ ¬ exclusive (at_flags t) (pte_of m' a)) →
  mm_ok m'.
Proof.
  intros [H1 H2 H3 H4] Hv Hs Hh Hp. split; [by rewrite Hv| |done|done]. intros a Hd Ha Hval. rewrite Hv.
  destruct (Hp a Hd Ha Hval) as [[E Hr]|(t & Ht & Hal & Hex)]; [rewrite E in *; rewrite Hr; by apply H2|].
  exists t. split_and!; [done|done|]. intros E. by destruct Hex.
Qed.

Lemma held_fork D pp c pp' c' ok x : fork_step D pp c pp' c' ok → held x pp' = held x pp.
Proof.
  intros H. apply Z.le_antisymm; apply held_mono; intros a Hd Ha;
    (destruct (fk_page _ _ _ _ _ _ H a Hd Ha) as [[-> _]|(f & _ & Hf)]; [done|]);
    destruct (forked_spec _ _ _ _ Hf) as [-> _]; done.
Qed.

(** ** Address-space identifiers *)

Record asids_ok (A : asids) : Prop := {
  ao_limit : asid_limit A = 0 ∨ 2 ≤ asid_limit A;
  ao_next : 1 ≤ asid_next A ∧ (asid_limit A ≠ 0 → asid_next A < asid_limit A) ∧ (asid_limit A = 0 → asid_next A = 1);
  ao_bits w : 0 ≤ asid_map A w;
}.
Definition limit_of (A : asids) : Z := if asid_limit A =? 0 then if asid_wide A then MAX_ASIDS else 256 else asid_limit A.

Lemma word_index a b : a / 64 = b / 64 → a `mod` 64 = b `mod` 64 → a = b.
Proof. intros H1 H2. rewrite (Z.div_mod a 64), (Z.div_mod b 64) by done. congruence. Qed.

Lemma asid_set (A : asids) a l n w b (set : bool) :
  asid_used (Asids (<[a / 64 := (if set then Z.setbit else Z.clearbit) (asid_map A (a / 64)) (a `mod` 64)]> (asid_map A)) l n w) b =
  if bool_decide (b = a) then set else asid_used A b.
Proof.
  pose proof (Z.mod_pos_bound a 64 ltac:(done)). pose proof (Z.mod_pos_bound b 64 ltac:(done)). unfold asid_used. cbn [asid_map].
  destruct (decide (a / 64 = b / 64)) as [E|E].
  - rewrite <-E, fn_lookup_insert. case_bool_decide as Hb.
    + subst b. destruct set; [apply Z.setbit_eq; lia|apply Z.clearbit_eq].
    + assert (a `mod` 64 ≠ b `mod` 64) by (intros ?; apply Hb; symmetry; by apply word_index).
      destruct set; [rewrite Z.setbit_neq by lia|rewrite Z.clearbit_neq by lia]; done.
  - rewrite fn_lookup_insert_ne by done. rewrite bool_decide_false; [done|]. intros ->. done.
Qed.

(** The scan tries all identifiers from [asid_next] on, once around. *)
Definition tried (L n0 b : Z) (k : nat) : Prop := ∃ i, 0 ≤ i < Z.of_nat k ∧ b = 1 + (n0 - 1 + i) `mod` (L - 1).

Lemma asid_scan_spec k : ∀ A, 2 ≤ asid_limit A → 1 ≤ asid_next A < asid_limit A → (∀ w, 0 ≤ asid_map A w) →
  let '(A', r) := asid_scan k A in asids_ok A' ∧ asid_limit A' = asid_limit A ∧ asid_wide A' = asid_wide A ∧
    ((1 ≤ r < asid_limit A ∧ asid_used A r = false ∧ ∀ b, asid_used A' b = if bool_decide (b = r) then true else asid_used A b) ∨
     (r = -1 ∧ asid_map A' = asid_map A ∧ ∀ b, tried (asid_limit A) (asid_next A) b k → asid_used A b = true)).
Proof.
  induction k as [|k IH]; intros A HL Hn Hb; cbn [asid_scan].
  { split; [split; [by right|split; [lia|split; lia]|done]|]. split; [done|]. split; [done|]. right. split; [done|]. split; [done|]. intros b (i & Hi & _). lia. }
  set (nx := if asid_limit A <=? asid_next A + 1 then 1 else asid_next A + 1). set (A1 := Asids (asid_map A) (asid_limit A) nx (asid_wide A)).
  assert (1 ≤ nx < asid_limit A) as Hnx by (unfold nx; case_test; lia). change (asid_used A1 (asid_next A)) with (asid_used A (asid_next A)).
  destruct (asid_used A (asid_next A)) eqn:Eu.
  - specialize (IH A1 HL Hnx Hb). destruct (asid_scan k A1) as [A' r]. destruct IH as (I1 & I2 & I3 & I4). split; [done|]. split; [done|]. split; [done|].
    destruct I4 as [?|(-> & I5 & I6)]; [by left|right]. split; [done|]. split; [done|]. intros b (i & Hi & ->).
    set (m := asid_limit A - 1) in *. destruct (decide (i = 0)) as [->|Hi0].
    { rewrite Z.add_0_r, Z.mod_small by lia. by replace (1 + (asid_next A - 1)) with (asid_next A) by lia. }
    apply (I6 (1 + (asid_next A - 1 + i) `mod` m)). exists (i - 1). split; [lia|]. cbn [asid_limit asid_next A1]. fold m. f_equal. unfold nx. case_test.
    + assert (asid_next A = m) as -> by lia. replace (m - 1 + i) with ((1 - 1 + (i - 1)) + 1 * m) by lia. by rewrite Z.mod_add by lia.
    + f_equal. lia.
  - split; [|split; [done|split; [done|left]]].
    + split; [by right|unfold A1; cbn [asid_next asid_limit]; split; [lia|split; lia]|]. intros w. cbn [asid_map A1]. destruct (decide (asid_next A / 64 = w)) as [<-|Hw]; [|by rewrite fn_lookup_insert_ne].
      rewrite fn_lookup_insert. unfold Z.setbit. apply Z.lor_nonneg. split; [apply Hb|]. apply Z.shiftl_nonneg. lia.
    + split; [lia|]. split; [done|]. intros b. exact (asid_set A1 (asid_next A) (asid_limit A) nx (asid_wide A) b true).
Qed.

(** An identifier that was free, or none because all are used. *)
Lemma asid_alloc_spec A : asids_ok A →
  let '(A', r) := asid_alloc A in asids_ok A' ∧ limit_of A' = limit_of A ∧
    ((1 ≤ r < limit_of A ∧ asid_used A r = false ∧ ∀ b, 1 ≤ b → asid_used A' b = if bool_decide (b = r) then true else asid_used A b) ∨
     (r = -1 ∧ (∀ b, 1 ≤ b → asid_used A' b = asid_used A b) ∧ ∀ b, 1 ≤ b < limit_of A → asid_used A b = true)).
Proof.
  intros [H1 H2 H3]. unfold asid_alloc. set (A1 := if asid_limit A =? 0 then _ else A).
  assert (asid_limit A1 = limit_of A ∧ 2 ≤ asid_limit A1 ∧ asid_next A1 = asid_next A ∧ asid_next A1 < asid_limit A1 ∧ (∀ w, 0 ≤ asid_map A1 w) ∧ ∀ b, 1 ≤ b → asid_used A1 b = asid_used A b) as (L1 & L2 & L3 & L4 & L5 & L6).
  { unfold A1, limit_of. destruct (Z.eqb_spec (asid_limit A) 0) as [E|E]; [|split_and!; try done; lia]. cbn [asid_limit asid_next asid_map]. split; [done|]. split; [by destruct (asid_wide A)|]. split; [done|].
    split; [destruct H2 as (_ & _ & ->); [|done]; by destruct (asid_wide A)|]. split.
    - intros w. destruct (decide (0 = w)) as [<-|Hw]; [rewrite fn_lookup_insert|by rewrite fn_lookup_insert_ne]. apply Z.lor_nonneg. by split.
    - intros b Hb. unfold asid_used. cbn [asid_map]. destruct (decide (0 = b / 64)) as [E'|Hw]; [|by rewrite fn_lookup_insert_ne]. rewrite <-E', fn_lookup_insert, Z.lor_spec.
      rewrite (Z.mod_eq b 64), <-E' by done. replace (Z.testbit 1 (b - 64 * 0)) with false; [by rewrite orb_false_r|]. symmetry. apply Z.bits_above_log2; simpl; lia. }
  pose proof (asid_scan_spec (Z.to_nat (asid_limit A1)) A1 L2 ltac:(lia) L5) as Hs. destruct (asid_scan _ A1) as [A' r]. destruct Hs as (S1 & S2 & S3 & S4). split; [done|].
  assert (limit_of A' = limit_of A) as EL by (unfold limit_of at 1; rewrite S2; destruct (Z.eqb_spec (asid_limit A1) 0); lia). split; [done|].
  destruct S4 as [(R1 & R2 & R3)|(-> & R2 & R3)]; [left|right].
  - rewrite <-L1. split; [done|]. split; [rewrite <-L6 by lia; done|]. intros b Hb. rewrite R3. case_bool_decide; [done|by apply L6].
  - split; [done|]. split; [intros b Hb; rewrite <-L6 by done; unfold asid_used; by rewrite R2|]. intros b Hb. rewrite <-L6 by lia. apply R3. set (m := asid_limit A1 - 1).
    exists ((b - asid_next A1) `mod` m). pose proof (Z.mod_pos_bound (b - asid_next A1) m ltac:(lia)). split; [lia|]. fold m. rewrite Zplus_mod_idemp_r.
    replace (asid_next A1 - 1 + (b - asid_next A1)) with (b - 1) by lia. rewrite Z.mod_small by lia. lia.
Qed.

Lemma asid_free_spec A r b : asids_ok A → 1 ≤ r → asids_ok (asid_free A r) ∧ limit_of (asid_free A r) = limit_of A ∧
  asid_used (asid_free A r) b = if bool_decide (b = r) then false else asid_used A b.
Proof.
  intros [H1 H2 H3] Hr. unfold asid_free. destruct (Z.eqb_spec r 0); [lia|]. split; [|split; [done|exact (asid_set A r (asid_limit A) (asid_next A) (asid_wide A) b false)]].
  split; [done|done|]. intros w. cbn [asid_map]. destruct (decide (r / 64 = w)) as [<-|Hw]; [rewrite fn_lookup_insert|by rewrite fn_lookup_insert_ne]. unfold Z.clearbit. apply Z.ldiff_nonneg. by left.
Qed.

(** The struct is there but not the top table. *)
Definition no_table (m : mm) : Prop := (kalloc m).2 = true ∧ (kalloc (kalloc m).1).2 = false.

(** [A'] differs from [A] in the identifier [a] alone. *)
Definition asid_taken (A A' : asids) (a : Z) : Prop :=
  1 ≤ a < limit_of A ∧ asid_used A a = false ∧ ∀ b, 1 ≤ b → asid_used A' b = if bool_decide (b = a) then true else asid_used A b.
Definition asids_same (A A' : asids) : Prop := ∀ b, 1 ≤ b → asid_used A' b = asid_used A b.

Lemma mm_create_spec m A m1 A1 o :
  mm_create m A = (m1, A1, o) → asids_ok A →
  (same_env m m1 ∧ sp m1 = sp m ∧ vmas m1 = vmas m ∧ frefs m1 = frefs m) ∧ asids_ok A1 ∧ limit_of A1 = limit_of A ∧
  (plenty m → (∃ b, 1 ≤ b < limit_of A ∧ asid_used A b = false) → is_Some o) ∧
  match o with Some a => asid_taken A A1 a | None => asids_same A A1 ∨ no_table m ∧ ∃ a, asid_taken A A1 a end.
Proof.
  unfold mm_create, no_table. destruct (kalloc m) as [k1 b1] eqn:E1. pose proof E1 as (K1 & K2 & K3 & K4 & K5)%kalloc_spec.
  destruct b1; cbn [negb]; [|intros [= <- <- <-] HA; split_and!; try done; [intros Hp; by specialize (K5 Hp)|by left]].
  cbn [fst]. destruct (kalloc k1) as [k2 b2] eqn:E2. pose proof E2 as (B1 & B2 & B3 & B4 & B5)%kalloc_spec.
  intros H HA. pose proof (asid_alloc_spec A HA) as Hs. destruct (asid_alloc A) as [A2 a]. destruct Hs as (S1 & S2 & S3).
  assert (same_env m k2 ∧ sp k2 = sp m ∧ vmas k2 = vmas m ∧ frefs k2 = frefs m) as Henv by (split; [by etrans|split_and!; congruence]).
  assert (m1 = k2 ∧ A1 = A2) as [-> ->] by (destruct (negb b2 || (a <? 0)); by injection H). split; [exact Henv|]. split; [exact S1|]. split; [exact S2|].
  destruct b2; cbn [negb orb snd] in *.
  - destruct S3 as [(R1 & R2 & R3)|(-> & R2 & R3)].
    + destruct (Z.ltb_spec a 0); [lia|]. injection H as <-. split; [eauto|]. by split.
    + injection H as <-. split; [|by left]. intros _ (b & Hb & Hf). rewrite R3 in Hf by done. done.
  - injection H as <-. split; [intros Hp; assert (false = true); [apply B5; by apply K1|done]|].
    destruct S3 as [?|(-> & R2 & R3)]; [right; split; [done|by exists a]|by left].
Qed.

(** The state when the loop of [mm_dup] is over. *)
Record dup_loop (m : mm) (pp : pg_dir) (c : mm) (ok : bool) : Prop := {
  dl_step a : (PAGE_SIZE | a) → 0 ≤ a < USER_VA_END →
    (pte_at pp a = pte_of m a ∧ pte_of c a = 0) ∨
    ∃ t, den (vmas m) a = Some t ∧ forked (at_flags t) (pte_of m a) (pte_at pp a) (pte_of c a);
  dl_done a t : (PAGE_SIZE | a) → 0 ≤ a < USER_VA_END → ok = true → den (vmas m) a = Some t →
    forked (at_flags t) (pte_of m a) (pte_at pp a) (pte_of c a);
  dl_held x : held x pp = held x (pgd (sp m));
  dl_refs x : refs (sp c) x = refs (sp m) x + held x (pgd (sp c));
  dl_rss : u64_ok (rss (sp c));
  dl_env : same_env m c;
  dl_vmas : ok = true → vmas c = vmas m;
  dl_files f : frefs c f = frefs m f + nfile f (vmas c);
}.

Lemma mm_dup_loop m m1 pp c ok :
  mm_ok m → same_env m m1 → sp m1 = sp m → vmas m1 = vmas m → frefs m1 = frefs m →
  dup_vmas (vmas m1) (pgd (sp m1))
    (Mm (Space empty_pgd 0 (refs (sp m1))) [] (brk_start m1) (brk m1) (mmap_base m1) (stack_top m1)
        (frefs m1) (frames m1) (allocs m1) (supply m1)) = (pp, c, ok) →
  dup_loop m pp c ok ∧ (plenty m → ok = true).
Proof.
  intros Hok He Hsp Hv Hf H. rewrite Hsp, Hv, Hf in H. 
  apply (dup_vmas_spec _ 0) in H as (S1 & S2 & k & S3 & S4 & S5); [|apply Hok|done].
  simpl in S3, S5. split; [|intros Hp; apply S2; exact (se_plenty _ _ He Hp)].
  destruct S1 as [T1 T2 T3 T4] eqn:ES1. split.
  - intros a Hd Ha. destruct (T1 a Hd Ha) as [?|(f & Hfa & Hfk)]; [by left|right].
    unfold vma_flags_at in Hfa. destruct (den (vmas m) a) as [t|]; simplify_eq/=. by exists t.
  - intros a t Hd Ha Ht Hden. apply T2; [done..|]. unfold vma_flags_at. by rewrite Hden.
  - intros x. apply (held_fork _ _ _ _ _ _ x S1).
  - intros x. pose proof (bal_refs _ _ T3 x) as Hb. cbn [refs sp pgd] in Hb. rewrite held_empty in Hb. lia.
  - apply (bal_ok _ _ T3). simpl. unfold u64_ok, U64. lia.
  - etrans; [exact He|]. destruct T4; by split.
  - intros E. rewrite S3. by apply S4.
  - intros f. rewrite S5, S3. done.
Qed.

Lemma parent_ok m pp c ok r f :
  mm_ok m → dup_loop m pp c ok → r = sync m pp f → (∀ x, refs (sp m) x ≤ refs (sp f) x) →
  (ok = true ∨ ∀ x, refs (sp f) x = refs (sp m) x) → mm_ok r.
Proof.
  intros Hok [T1 T2 T3 T4 T5 T6 T7 T8] -> Hle Hor. apply (side_ok m); [done|done|apply Hok| |].
  - intros x. cbn [sync sp pgd refs]. rewrite T3. specialize (Hle x). pose proof (ok_held _ Hok x). lia.
  - intros a Hd Ha Hv. unfold sync, pte_of in *. cbn [sp pgd refs] in *.
    assert (∀ t, den (vmas m) a = Some t → forked (at_flags t) (pte_of m a) (pte_at pp a) (pte_of c a) →
      ∃ t, den (vmas m) a = Some t ∧ allowed (at_flags t) (pte_at pp a) ∧ ¬ exclusive (at_flags t) (pte_at pp a)) as Hgo.
    { intros t Ht Hfk. destruct (forked_spec _ _ _ _ Hfk) as (_ & E1 & _ & E2 & _ & E3).
      destruct (ok_ptes _ Hok a Hd Ha (E2 Hv)) as (t' & Ht' & Hal & _). rewrite Ht in Ht'. injection Ht' as <-. exists t. auto. }
    destruct (T1 a Hd Ha) as [[E _]|(t & Ht & Hfk)]; [|right; by apply (Hgo t)].
    destruct Hor as [->|Hr]; [right|left; split; [exact E|done]].
    assert (pte_valid (pte_of m a) = true) as Hvm by (unfold pte_of in *; by rewrite <-E).
    destruct (ok_ptes _ Hok a Hd Ha Hvm) as (t & Ht & _). apply (Hgo t Ht). by apply T2.
Qed.

Lemma child_ok m pp c : mm_ok m → dup_loop m pp c true → mm_ok c.
Proof.
  intros Hok [T1 T2 T3 T4 T5 T6 T7 T8]. apply (side_ok m); [done|by apply T7|done| |].
  - intros x. rewrite T4. pose proof (ok_held _ Hok x). pose proof (held_nonneg x (pgd (sp m))). lia.
  - intros a Hd Ha Hv. right. destruct (T1 a Hd Ha) as [[_ E]|(t & Ht & Hfk)]; [by rewrite E in Hv|].
    destruct (forked_spec _ _ _ _ Hfk) as (_ & _ & E1 & _ & E2 & E3). destruct (E2 Hv) as [Hvm Evc].
    destruct (ok_ptes _ Hok a Hd Ha Hvm) as (t' & Ht' & Hal & _). rewrite Ht in Ht'. injection Ht' as <-. exists t.
    split_and!; [done|rewrite Evc; auto|done].
Qed.

Lemma failed_child m pp c : dup_loop m pp c false → let c' := mm_free c in
  (∀ x, refs (sp c') x = refs (sp m) x) ∧ (∀ f, frefs c' f = frefs m f) ∧ same_env m c'.
Proof.
  intros [T1 T2 T3 T4 T5 T6 T7 T8]. cbn zeta. unfold mm_free. cbn [set_vmas sp frefs].
  destruct (mm_free_frefs (set_sp c (free_tables (sp c))) (vmas c) 0) as (E1 & E2 & _). rewrite E1. split_and!.
  - intros x. cbn [set_sp sp]. rewrite free_tables_refs, T4. lia.
  - intros f. destruct (mm_free_frefs (set_sp c (free_tables (sp c))) (vmas c) f) as (_ & _ & ->).
    cbn [set_sp frefs]. rewrite T8. lia.
  - etrans; [exact T6|]. etrans; [|destruct E2; by split]. destruct (foldl vma_free _ _); by split.
Qed.

(** C14.  [mm_dup] gives a child with the parent's mappings and an identifier of
    its own that nobody used.  Both address spaces keep the invariant, so
    neither can write a private page that the other maps; the reference counts
    cover the entries of both.  Every page of the parent is mapped in both at
    its old frame, and a private page is read-only and marked copy-on-write on
    both sides.  Without memory the child is freed again: the references of the
    pages and of the files are those from before, the parent is still
    well-formed, and the identifiers in use are those from before, unless the
    page for the top table was missing, when one identifier may stay taken.
    With memory and a free identifier it succeeds. *)
Theorem mm_dup_correct m A m' A' oc :
  mm_ok m → asids_ok A → mm_dup m A = (m', A', oc) →
  mm_ok m' ∧ vmas m' = vmas m ∧ frames m' = frames m ∧ asids_ok A' ∧
  (plenty m → (∃ b, 1 ≤ b < limit_of A ∧ asid_used A b = false) → is_Some oc) ∧
  match oc with
  | None => (∀ x, refs (sp m') x = refs (sp m) x) ∧ (∀ f, frefs m' f = frefs m f) ∧
      (asids_same A A' ∨ no_table m ∧ ∃ a, asid_taken A A' a)
  | Some (c, a) =>
      asid_taken A A' a ∧
      mm_ok c ∧ vmas c = vmas m ∧ brk c = brk m ∧ brk_start c = brk_start m ∧
      refs (sp m') = refs (sp c) ∧ frames c = frames m ∧
      (∀ x, refs (sp c) x = refs (sp m) x + held x (pgd (sp c))) ∧
      (∀ x, held x (pgd (sp m')) + held x (pgd (sp c)) ≤ refs (sp c) x) ∧
      (∀ f, frefs c f = frefs m f + nfile f (vmas m)) ∧
      (∀ a t, (PAGE_SIZE | a) → 0 ≤ a < USER_VA_END → den (vmas m) a = Some t →
         pte_of m' a = fork_pte (at_flags t) (pte_of m a) ∧
         pte_of c a = if pte_valid (pte_of m a) then fork_pte (at_flags t) (pte_of m a) else 0)
  end.
Proof.
  intros Hok HA. unfold mm_dup. destruct (mm_create m A) as [[m1 A1] o] eqn:E1.
  apply mm_create_spec in E1 as ((A2 & A3 & A4 & A5) & B1 & B2 & B3 & B4); [|done]. destruct o as [a|].
  2:{ intros [= <- <- <-]. split; [exact (mm_ok_eq m m1 A4 A3 Hok)|]. split; [exact A4|]. split; [apply A2|].
      split; [done|]. split; [intros Hp Hb; by destruct (B3 Hp Hb)|]. split; [by rewrite A3|]. split; [by rewrite A5|exact B4]. }
  destruct (dup_vmas _ _ _) as [[pp c] ok] eqn:E. apply (mm_dup_loop m) in E as [Hl Hp]; try assumption.
  assert (∀ c', sync m1 pp c' = sync m pp c') as Hsync.
  { intros c'. destruct A2. unfold sync. congruence. }
  rewrite !Hsync. destruct ok; intros [= <- <- <-].
  - pose proof Hl as [T1 T2 T3 T4 T5 T6 T7 T8].
    split; [apply (parent_ok m pp c true _ c Hok Hl eq_refl); [intros x; rewrite T4; pose proof (held_nonneg x (pgd (sp c))); lia|by left]|].
    split; [done|]. split; [apply T6|]. split; [done|]. split; [eauto|]. split; [done|]. split; [exact (child_ok m pp c Hok Hl)|].
    split; [by apply T7|]. split; [apply T6|]. split; [apply T6|]. split; [done|]. split; [apply T6|]. split; [exact T4|].
    split; [|split; [intros f; rewrite T8; by rewrite T7|]].
    + intros x. cbn [sync sp pgd]. rewrite T3, T4. pose proof (ok_held _ Hok x). lia.
    + intros a' t Hd Ha Ht. apply forked_ptes. by apply T2.
  - destruct (failed_child m pp c Hl) as (F1 & F2 & F3). destruct B4 as (C1 & C2 & C3).
    split; [apply (parent_ok m pp c false _ (mm_free c) Hok Hl eq_refl); [intros x; by rewrite F1|by right]|].
    split; [done|]. split; [apply F3|]. split; [by apply (asid_free_spec A1 a 0 B1 ltac:(lia))|]. split; [intros Hpl; by apply Hp in Hpl|]. split; [exact F1|]. split; [exact F2|].
    left. intros b Hb. destruct (asid_free_spec A1 a b B1 ltac:(lia)) as (_ & _ & ->). case_bool_decide as Eb; [by subst|]. rewrite C3 by done. by rewrite bool_decide_false.
Qed.

(** A process that wrote one page, and its fork. *)
Definition ex_written : mm := (handle_mm_fault (λ _ _ _ p, (p, 0)) ex_mm 0x10008 true false).1.

Lemma ex_written_ok : mm_ok ex_written.
Proof.
  unfold ex_written. destruct (handle_mm_fault _ _ _ _ _) as [m' r] eqn:E. simpl.
  apply (handle_mm_fault_spec (λ _ _ _ p, (p, 0)) ex_mm 0x10008 true false m' r ex_mm_ok ex_supply_ok);
    [unfold u64_ok, U64; lia|unfold u64_ok, U64; simpl; lia|exact E].
Qed.

Definition ex_asids : asids := Asids (λ _, 0) 0 1 false.

Lemma ex_asids_ok : asids_ok ex_asids.
Proof. split; [by left|done|done]. Qed.

Lemma mm_dup_witness :
  match (mm_dup ex_written ex_asids).2 with
  | None => False
  | Some (c, a) => a = 1 ∧ mm_ok c ∧ refs (sp c) 5 = 2 ∧ has (pte_of c 0x10000) PTE_RDONLY = true ∧
              pte_frame (pte_of c 0x10000) = 5
  end.
Proof.
  destruct (mm_dup ex_written ex_asids) as [[m' A'] oc] eqn:E.
  destruct (mm_dup_correct ex_written ex_asids m' A' oc ex_written_ok ex_asids_ok E) as (_ & _ & _ & _ & _ & H).
  assert (match (mm_dup ex_written ex_asids).2 with
          | None => (0, 0, false, 0)
          | Some (c, a) => (a, refs (sp c) 5, has (pte_of c 0x10000) PTE_RDONLY, pte_frame (pte_of c 0x10000))
          end = (1, 2, true, 5)) as Hc by (vm_compute; reflexivity).
  rewrite E in Hc. cbn [snd] in *. destruct oc as [[c a]|]; [|discriminate Hc].
  injection Hc as H0 H1 H2 H3. split; [exact H0|]. split; [apply H|]. split; [exact H1|]. split; [exact H2|exact H3].
Defined.

(** A fork that finds no page for the top table loses an identifier. *)
Theorem asid_leaked :
  let m := set_allocs ex_written [true; false] in
  (mm_dup m ex_asids).2 = None ∧ asid_used ex_asids 1 = false ∧ asid_used (mm_dup m ex_asids).1.2 1 = true.
Proof. vm_compute. done. Qed.
