(* ===== verification/Sched.v ===== *)
(** * Scheduler: src/kernel/sched.c

    Each CPU has a FIFO queue per priority level and a bitmap of the levels
    with threads.  Threads and CPUs are records in memory, addressed by number;
    a queue is the list of its threads.  A section under a run-queue lock with
    masked interrupts is one step of the system.  A wake-up has two of them,
    [wake_locked] under the lock of the thread's old queue and [activate_on]
    under that of the queue it goes to; in between other CPUs may do anything.
    [try_to_wake_up] and [activate] are the functions when nothing comes
    between.  The registers that a switch saves and loads, and the kernel lock, which a
    sleeping thread gives up and takes again, are not part of the state. *)

From stdpp Require Import functions.
From S2P Require Import Prelude.

Definition TASK_RUNNING : Z := 0.
Notation TASK_INTERRUPTIBLE := 1%Z (only parsing).
Notation TASK_UNINTERRUPTIBLE := 2%Z (only parsing).
Notation TASK_STOPPED := 4%Z (only parsing).
Notation TASK_DEAD := 16%Z (only parsing).
Definition NR_PRIO : Z := 32.
Definition PRIO_RT_LOWEST : Z := 23.
Definition PRIO_NORMAL : Z := 27.
Definition PRIO_IDLE : Z := 31.
Notation SCHED_OTHER := 0%Z (only parsing).
Notation SCHED_FIFO := 1%Z (only parsing).
Notation SCHED_RR := 2%Z (only parsing).
Notation SCHED_BATCH := 3%Z (only parsing).
Notation SCHED_IDLE := 5%Z (only parsing).
Definition RR_TIMESLICE_TICKS : Z := 5.
Notation HZ := 250%Z (only parsing).
Definition TICK_NSEC : Z := 1000000000 / HZ.
Notation NULL := 0%Z (only parsing).

(** Times and switch counts of a thread. *)
Record account : Type := Account { utime : Z; stime : Z; last_switch : Z; nvcsw : Z; nivcsw : Z }.

Record thread : Type := Thread {
  state : Z;
  on_cpu : bool;
  on_rq : bool;
  t_cpu : Z;
  cpus_allowed : Z;
  policy : Z;
  prio : Z;
  rt_priority : Z;
  nice : Z;
  timeslice : Z;
  refcount : Z;
  acct : account;
}.

Record cpu : Type := Cpu {
  online : bool;
  curr : Z;
  idle : Z;
  runqueue : Z → list Z;
  rq_bitmap : Z;
  nr_running : Z;
  need_resched : bool;
  ticks : Z;
  idle_ticks : Z;
  ctx_switches : Z;
}.

Definition set_state (v : Z) (t : thread) : thread :=
  Thread v (on_cpu t) (on_rq t) (t_cpu t) (cpus_allowed t) (policy t) (prio t) (rt_priority t) (nice t) (timeslice t) (refcount t) (acct t).
Definition set_on_cpu (v : bool) (t : thread) : thread :=
  Thread (state t) v (on_rq t) (t_cpu t) (cpus_allowed t) (policy t) (prio t) (rt_priority t) (nice t) (timeslice t) (refcount t) (acct t).
Definition set_on_rq (v : bool) (t : thread) : thread :=
  Thread (state t) (on_cpu t) v (t_cpu t) (cpus_allowed t) (policy t) (prio t) (rt_priority t) (nice t) (timeslice t) (refcount t) (acct t).
Definition set_t_cpu (v : Z) (t : thread) : thread :=
  Thread (state t) (on_cpu t) (on_rq t) v (cpus_allowed t) (policy t) (prio t) (rt_priority t) (nice t) (timeslice t) (refcount t) (acct t).
Definition set_policy (v : Z) (t : thread) : thread :=
  Thread (state t) (on_cpu t) (on_rq t) (t_cpu t) (cpus_allowed t) v (prio t) (rt_priority t) (nice t) (timeslice t) (refcount t) (acct t).
Definition set_prio (v : Z) (t : thread) : thread :=
  Thread (state t) (on_cpu t) (on_rq t) (t_cpu t) (cpus_allowed t) (policy t) v (rt_priority t) (nice t) (timeslice t) (refcount t) (acct t).
Definition set_rt_priority (v : Z) (t : thread) : thread :=
  Thread (state t) (on_cpu t) (on_rq t) (t_cpu t) (cpus_allowed t) (policy t) (prio t) v (nice t) (timeslice t) (refcount t) (acct t).
Definition set_nice (v : Z) (t : thread) : thread :=
  Thread (state t) (on_cpu t) (on_rq t) (t_cpu t) (cpus_allowed t) (policy t) (prio t) (rt_priority t) v (timeslice t) (refcount t) (acct t).
Definition set_timeslice (v : Z) (t : thread) : thread :=
  Thread (state t) (on_cpu t) (on_rq t) (t_cpu t) (cpus_allowed t) (policy t) (prio t) (rt_priority t) (nice t) v (refcount t) (acct t).
Definition set_refcount (v : Z) (t : thread) : thread :=
  Thread (state t) (on_cpu t) (on_rq t) (t_cpu t) (cpus_allowed t) (policy t) (prio t) (rt_priority t) (nice t) (timeslice t) v (acct t).
Definition set_acct (v : account) (t : thread) : thread :=
  Thread (state t) (on_cpu t) (on_rq t) (t_cpu t) (cpus_allowed t) (policy t) (prio t) (rt_priority t) (nice t) (timeslice t) (refcount t) v.

Definition set_curr (v : Z) (c : cpu) : cpu :=
  Cpu (online c) v (idle c) (runqueue c) (rq_bitmap c) (nr_running c) (need_resched c) (ticks c) (idle_ticks c) (ctx_switches c).
Definition set_runqueue (v : Z → list Z) (c : cpu) : cpu :=
  Cpu (online c) (curr c) (idle c) v (rq_bitmap c) (nr_running c) (need_resched c) (ticks c) (idle_ticks c) (ctx_switches c).
Definition set_rq_bitmap (v : Z) (c : cpu) : cpu :=
  Cpu (online c) (curr c) (idle c) (runqueue c) v (nr_running c) (need_resched c) (ticks c) (idle_ticks c) (ctx_switches c).
Definition set_nr_running (v : Z) (c : cpu) : cpu :=
  Cpu (online c) (curr c) (idle c) (runqueue c) (rq_bitmap c) v (need_resched c) (ticks c) (idle_ticks c) (ctx_switches c).
Definition set_need_resched (v : bool) (c : cpu) : cpu :=
  Cpu (online c) (curr c) (idle c) (runqueue c) (rq_bitmap c) (nr_running c) v (ticks c) (idle_ticks c) (ctx_switches c).
Definition set_ticks (v : Z) (c : cpu) : cpu :=
  Cpu (online c) (curr c) (idle c) (runqueue c) (rq_bitmap c) (nr_running c) (need_resched c) v (idle_ticks c) (ctx_switches c).
Definition set_idle_ticks (v : Z) (c : cpu) : cpu :=
  Cpu (online c) (curr c) (idle c) (runqueue c) (rq_bitmap c) (nr_running c) (need_resched c) (ticks c) v (ctx_switches c).
Definition set_ctx_switches (v : Z) (c : cpu) : cpu :=
  Cpu (online c) (curr c) (idle c) (runqueue c) (rq_bitmap c) (nr_running c) (need_resched c) (ticks c) (idle_ticks c) v.

Record sys : Type := Sys {
  thr : Z → thread;
  cpus : Z → cpu;
  nr_cpus_possible : Z;
  load_avg : Z * Z * Z;
  all_threads : list Z;
}.

Definition upd_thr (s : sys) (t : Z) (f : thread → thread) : sys :=
  Sys (<[t := f (thr s t)]> (thr s)) (cpus s) (nr_cpus_possible s) (load_avg s) (all_threads s).
Definition upd_cpu (s : sys) (c : Z) (f : cpu → cpu) : sys :=
  Sys (thr s) (<[c := f (cpus s c)]> (cpus s)) (nr_cpus_possible s) (load_avg s) (all_threads s).

Definition wrap32 (x : Z) : Z := x `mod` 2 ^ 32.

(** ** Run queues *)

Definition enqueue (s : sys) (c t : Z) (head : bool) : sys :=
  let p := prio (thr s t) in
  let s := upd_cpu s c (λ r,
    let q := runqueue r p in
    set_nr_running (wrap32 (nr_running r + 1))
      (set_rq_bitmap (Z.lor (rq_bitmap r) (Z.shiftl 1 p))
         (set_runqueue (<[p := if head then t :: q else q ++ [t]]> (runqueue r)) r))) in
  upd_thr s t (λ t, set_t_cpu c (set_on_rq true t)).

Definition list_del (t : Z) (l : list Z) : list Z := filter (λ x, x ≠ t) l.

Definition dequeue (s : sys) (c t : Z) : sys :=
  let p := prio (thr s t) in
  let s := upd_cpu s c (λ r, set_runqueue (λ k, list_del t (runqueue r k)) r) in
  let s := upd_cpu s c (λ r,
    match runqueue r p with [] => set_rq_bitmap (Z.ldiff (rq_bitmap r) (Z.shiftl 1 p)) r | _ => r end) in
  let s := upd_cpu s c (λ r, set_nr_running (wrap32 (nr_running r - 1)) r) in
  upd_thr s t (set_on_rq false).

(** The lowest bit set of a 32-bit word other than 0. *)
Definition ctz (w : Z) : Z :=
  match filter (λ p, Z.testbit w p = true) (seqZ 0 32) with p :: _ => p | [] => 32 end.

(** The first entry of an empty queue is not a thread: [Panic]. *)
Definition pick_next (s : sys) (c : Z) : outcome (sys * option Z) :=
  let r := cpus s c in
  if rq_bitmap r =? 0 then Ok (s, None)
  else
    match runqueue r (ctz (rq_bitmap r)) with
    | [] => Panic
    | t :: _ => Ok (dequeue s c t, Some t)
    end.

Definition curr_prio (s : sys) (c : Z) : Z :=
  let r := cpus s c in
  if (curr r =? NULL) || (curr r =? idle r) then NR_PRIO else prio (thr s (curr r)).

(** Another CPU is also interrupted; the flag is what its handler acts on. *)
Definition resched_cpu (s : sys) (c : Z) : sys := upd_cpu s c (set_need_resched true).

Definition may_run (s : sys) (t c : Z) : bool := negb (Z.land (cpus_allowed (thr s t)) (Z.shiftl 1 c) =? 0).

Definition is_free (r : cpu) : bool := (curr r =? idle r) && (nr_running r =? 0).

Fixpoint select_loop (s : sys) (t : Z) (l : list Z) (best : option Z) : option Z :=
  match l with
  | [] => best
  | i :: l =>
      let c := cpus s i in
      if negb (online c) || negb (may_run s t i) then select_loop s t l best
      else if is_free c then Some i
      else select_loop s t l
             (match best with
              | None => Some i
              | Some b => if nr_running c <? nr_running (cpus s b) then Some i else best
              end)
  end.

Definition select_cpu (s : sys) (t : Z) : Z :=
  let prev := t_cpu (thr s t) in
  if online (cpus s prev) && may_run s t prev && is_free (cpus s prev) then prev
  else default prev (select_loop s t (seqZ 0 (nr_cpus_possible s)) None).

(** The section of [activate]; [target] was selected without a lock. *)
Definition activate_on (s : sys) (t target : Z) : sys :=
  let s := enqueue s target t false in
  if prio (thr s t) <? curr_prio s target then resched_cpu s target else s.

Definition activate (s : sys) (t : Z) : sys := activate_on s t (select_cpu s t).

(** The first section: the result, and whether the thread is to be activated. *)
Definition wake_locked (s : sys) (t state_mask : Z) : sys * bool * bool :=
  if Z.land (state (thr s t)) state_mask =? 0 then (s, false, false)
  else
    let s := upd_thr s t (set_state TASK_RUNNING) in
    (s, true, negb (on_rq (thr s t) || on_cpu (thr s t))).

Definition try_to_wake_up (s : sys) (t state_mask : Z) : sys * bool :=
  let '(s, woken, more) := wake_locked s t state_mask in
  (if more : bool then activate s t else s, woken).

Definition wake_up_thread (s : sys) (t : Z) : sys :=
  (try_to_wake_up s t (Z.lor (Z.lor TASK_INTERRUPTIBLE TASK_UNINTERRUPTIBLE) TASK_STOPPED)).1.

Definition sched_add_new (s : sys) (t : Z) : sys := activate (upd_thr s t (set_state TASK_RUNNING)) t.

(** ** Context switch *)

Definition thread_free (s : sys) (t : Z) : sys :=
  Sys (thr s) (cpus s) (nr_cpus_possible s) (load_avg s) (list_del t (all_threads s)).

Definition thread_put (s : sys) (t : Z) : sys :=
  let s := upd_thr s t (λ r, set_refcount (refcount r - 1) r) in
  if refcount (thr s t) =? 0 then thread_free s t else s.

Definition finish_switch (s : sys) (prev : Z) : sys :=
  let s := upd_thr s prev (set_on_cpu false) in
  if state (thr s prev) =? TASK_DEAD then thread_put s prev else s.

Definition switched_out (now : Z) (t : thread) : thread :=
  let a := acct t in
  set_acct (if state t =? TASK_RUNNING then Account (utime a) (stime a) now (nvcsw a) (nivcsw a ⊕ 1)
            else Account (utime a) (stime a) now (nvcsw a ⊕ 1) (nivcsw a)) t.
Definition switched_in (now c : Z) (t : thread) : thread :=
  let a := acct t in
  set_t_cpu c (set_on_cpu true (set_acct (Account (utime a) (stime a) now (nvcsw a) (nivcsw a)) t)).

(** The previous thread goes back to its queue. *)
Definition requeue_prev (s : sys) (c : Z) : sys :=
  let prev := curr (cpus s c) in
  if (state (thr s prev) =? TASK_RUNNING) && negb (prev =? idle (cpus s c)) then
    let s := enqueue s c prev (policy (thr s prev) =? SCHED_FIFO) in
    if timeslice (thr s prev) <=? 0 then upd_thr s prev (set_timeslice RR_TIMESLICE_TICKS) else s
  else s.

Definition switch_to (s : sys) (c prev next now : Z) : sys :=
  let s := upd_thr s prev (switched_out now) in
  let s := upd_thr s next (switched_in now c) in
  let s := upd_cpu s c (λ r, set_curr next (set_ctx_switches (ctx_switches r ⊕ 1) r)) in
  finish_switch s prev.

Definition schedule (s : sys) (c now : Z) : outcome sys :=
  let prev := curr (cpus s c) in
  let s := upd_cpu s c (set_need_resched false) in
  let s := requeue_prev s c in
  let! r := pick_next s c in
  let '(s, next) := r in
  let next := default (idle (cpus s c)) next in
  if next =? prev then Ok s else Ok (switch_to s c prev next now).

Definition yield (s : sys) (c now : Z) : outcome sys :=
  schedule (upd_thr s (curr (cpus s c)) (set_timeslice 0)) c now.

Definition cond_resched (s : sys) (c now : Z) : outcome sys :=
  if need_resched (cpus s c) then schedule s c now else Ok s.

(** ** Ticks *)

Definition nr_running_total (s : sys) : Z :=
  foldl (λ n i, let r := cpus s i in
           n ⊕ wrap32 (nr_running r + (if negb (curr r =? idle r) && online r then 1 else 0)))
        0 (seqZ 0 (nr_cpus_possible s)).

Definition load_step (avg n e : Z) : Z := Z.shiftr (wrap64 (avg * e) ⊕ wrap64 (n * (65536 - e))) 16.

Definition calc_load (s : sys) : sys :=
  let n := wrap64 (Z.shiftl (nr_running_total s) 16) in
  let '(a, b, c) := load_avg s in
  Sys (thr s) (cpus s) (nr_cpus_possible s)
      (load_step a n 60410, load_step b n 64453, load_step c n 65173) (all_threads s).

Definition charge_tick (user : bool) (t : thread) : thread :=
  let a := acct t in
  set_acct (if user then Account (utime a ⊕ TICK_NSEC) (stime a) (last_switch a) (nvcsw a) (nivcsw a)
            else Account (utime a) (stime a ⊕ TICK_NSEC) (last_switch a) (nvcsw a) (nivcsw a)) t.

(** [user]: the interrupted frame is one of user mode. *)
Definition scheduler_tick (s : sys) (c : Z) (user : bool) : sys :=
  let s := if (c =? 0) && (ticks (cpus s c) `mod` (5 * HZ) =? 0) then calc_load s else s in
  let t := curr (cpus s c) in
  let s := upd_cpu s c (λ r, set_ticks (ticks r ⊕ 1) r) in
  if t =? idle (cpus s c) then
    let s := upd_cpu s c (λ r, set_idle_ticks (idle_ticks r ⊕ 1) r) in
    if negb (nr_running (cpus s c) =? 0) then upd_cpu s c (set_need_resched true) else s
  else
    let s := upd_thr s t (charge_tick user) in
    if negb (policy (thr s t) =? SCHED_FIFO) then
      let s := upd_thr s t (λ r, set_timeslice (timeslice r - 1) r) in
      if timeslice (thr s t) <=? 0 then
        let s := upd_thr s t (set_timeslice 0) in
        let b := rq_bitmap (cpus s c) in
        if negb (b =? 0) && (ctz b <=? prio (thr s t)) then upd_cpu s c (set_need_resched true)
        else upd_thr s t (set_timeslice RR_TIMESLICE_TICKS)
      else s
    else s.

(** ** Policy *)

Definition CLAMP (x lo hi : Z) : Z := if x <? lo then lo else if hi <? x then hi else x.

Definition compute_prio (policy rt_prio nice : Z) : Z :=
  if (policy =? SCHED_FIFO) || (policy =? SCHED_RR)
  then PRIO_RT_LOWEST - Z.quot ((rt_prio - 1) * PRIO_RT_LOWEST) 98
  else if policy =? SCHED_IDLE then PRIO_IDLE
  else CLAMP (PRIO_NORMAL + Z.quot nice 7) (PRIO_RT_LOWEST + 1) (PRIO_IDLE - 1).


Definition policy_error (policy prio : Z) : bool :=
  if (policy =? SCHED_FIFO) || (policy =? SCHED_RR) then (prio <? 1) || (99 <? prio)
  else if (policy =? SCHED_OTHER) || (policy =? SCHED_BATCH) || (policy =? SCHED_IDLE) then negb (prio =? 0)
  else true.

Definition set_sched (pol rt : Z) (t : thread) : thread :=
  set_prio (compute_prio pol rt (nice t)) (set_rt_priority rt (set_policy pol t)).

Definition sched_setscheduler (s : sys) (t pol rt : Z) : sys * Z :=
  if policy_error pol rt then (s, - EINVAL)
  else
    let c := t_cpu (thr s t) in
    let queued := on_rq (thr s t) in
    let s := if queued then dequeue s c t else s in
    let s := upd_thr s t (set_sched pol rt) in
    let s := if queued then enqueue s c t false else s in
    (if queued && (prio (thr s t) <? curr_prio s c) then resched_cpu s c else s, 0).

Definition sched_set_nice (s : sys) (t n : Z) : sys :=
  let s := upd_thr s t (set_nice (CLAMP n (-20) 19)) in
  let pol := policy (thr s t) in
  if (pol =? SCHED_OTHER) || (pol =? SCHED_BATCH) then (sched_setscheduler s t pol 0).1 else s.

Definition thread_find (s : sys) (tid : Z → Z) (id : Z) : option Z :=
  head (filter (λ t, tid t = id ∧ state (thr s t) ≠ TASK_DEAD) (all_threads s)).

(** ** Initialisation *)

Definition rq_init (r : cpu) : cpu :=
  set_nr_running 0 (set_rq_bitmap 0 (set_runqueue (λ _, []) r)).

Definition idle_thread (c : Z) : thread :=
  Thread TASK_RUNNING true false c (wrap64 (Z.shiftl 1 c)) 0 NR_PRIO 0 0 0 1 (Account 0 0 0 0 0).

(** [idle] is the fresh record that [kzalloc] returns. *)
Definition sched_cpu_init (s : sys) (c new : Z) : sys :=
  let s := upd_cpu s c rq_init in
  let s := upd_thr s new (λ _, idle_thread c) in
  upd_cpu s c (λ r, Cpu (online r) new new (runqueue r) (rq_bitmap r) (nr_running r) (need_resched r)
                        (ticks r) (idle_ticks r) (ctx_switches r)).

(** A CPU that has started: src/kernel/smp.c. *)
Definition set_online (r : cpu) : cpu :=
  Cpu true (curr r) (idle r) (runqueue r) (rq_bitmap r) (nr_running r) (need_resched r) (ticks r) (idle_ticks r) (ctx_switches r).

(** A new thread: [thread_alloc] on CPU [c]. *)
Definition new_thread (c : Z) : thread :=
  Thread TASK_UNINTERRUPTIBLE false false c (2 ^ 64 - 1) SCHED_OTHER PRIO_NORMAL 0 0 RR_TIMESLICE_TICKS 1
    (Account 0 0 0 0 0).

Definition thread_alloc (s : sys) (c new : Z) : sys :=
  let s := upd_thr s new (λ _, new_thread c) in
  Sys (thr s) (cpus s) (nr_cpus_possible s) (load_avg s) (all_threads s ++ [new]).
