(* ===== verification/SchedSpec.v ===== *)
(** * The scheduler's invariant and its promises

    [sched_ok]: the queues hold exactly the threads marked as queued, the
    bitmap shows the levels in use, and a thread that has a CPU is its
    current thread.  Every operation keeps it.  [schedule] then always
    gives the CPU to the first thread of the best level. *)

From Stdlib Require Import Sorting.Sorted.
From stdpp Require Import functions.
From S2P Require Import Prelude Sched.

Notation queue s c := (runqueue (cpus s c)).

Definition valid_cpu (s : sys) (c : Z) : Prop := 0 ≤ c < nr_cpus_possible s.
Definition valid_prio (p : Z) : Prop := 0 ≤ p < NR_PRIO.

Definition queue_len (q : Z → list Z) : Z :=
  foldr (λ p n, Z.of_nat (length (q p)) + n) 0 (seqZ 0 NR_PRIO).

(** The queues of a CPU. *)
Record rq_ok (s : sys) (c : Z) : Prop := {
  rq_mem p t : t ∈ queue s c p → prio (thr s t) = p ∧ on_rq (thr s t) = true ∧ t_cpu (thr s t) = c;
  rq_in t : on_rq (thr s t) = true → t_cpu (thr s t) = c → t ∈ queue s c (prio (thr s t)) ∧ valid_prio (prio (thr s t));
  rq_nodup p : NoDup (queue s c p);
  rq_bit p : valid_prio p → Z.testbit (rq_bitmap (cpus s c)) p = bool_decide (queue s c p ≠ []);
  rq_bits : 0 ≤ rq_bitmap (cpus s c) < 2 ^ 32;
  rq_nr : nr_running (cpus s c) = wrap32 (queue_len (queue s c));
}.

Definition is_idle (s : sys) (t : Z) : Prop := ∃ c, valid_cpu s c ∧ idle (cpus s c) = t.

Record run_ok (s : sys) : Prop := {
  run_curr c : valid_cpu s c → on_cpu (thr s (curr (cpus s c))) = true ∧ t_cpu (thr s (curr (cpus s c))) = c;
  run_on t : on_cpu (thr s t) = true → on_rq (thr s t) = false ∧ curr (cpus s (t_cpu (thr s t))) = t;
  run_idle c : valid_cpu s c → state (thr s (idle (cpus s c))) = TASK_RUNNING ∧
    on_rq (thr s (idle (cpus s c))) = false ∧ t_cpu (thr s (idle (cpus s c))) = c;
  run_state t : on_rq (thr s t) = true → state (thr s t) = TASK_RUNNING;
  run_prio t : ¬ is_idle s t → valid_prio (prio (thr s t));
  run_cpu t : valid_cpu s (t_cpu (thr s t));
}.

Record sched_ok (s : sys) : Prop := {
  so_rq c : valid_cpu s c → rq_ok s c;
  so_run : run_ok s;
}.

(** ** Bits and lists *)

Lemma testbit_set w p k : 0 ≤ p → 0 ≤ k → Z.testbit (Z.lor w (Z.shiftl 1 p)) k = Z.testbit w k || (p =? k).
Proof. intros. rewrite Z.lor_spec, Z.shiftl_1_l, Z.pow2_bits_eqb by done. done. Qed.

Lemma testbit_clear w p k : 0 ≤ p → 0 ≤ k → Z.testbit (Z.ldiff w (Z.shiftl 1 p)) k = Z.testbit w k && negb (p =? k).
Proof. intros. rewrite Z.ldiff_spec, Z.shiftl_1_l, Z.pow2_bits_eqb by done. done. Qed.

Lemma bits_lt w n : 0 ≤ w → 0 ≤ n → (∀ k, n ≤ k → Z.testbit w k = false) → w < 2 ^ n.
Proof.
  intros Hw Hn H. destruct (decide (w = 0)) as [->|]; [lia|].
  destruct (Z.lt_ge_cases w (2 ^ n)) as [?|Hge]; [done|]. exfalso.
  assert (n ≤ Z.log2 w) by (apply Z.log2_le_pow2; lia).
  pose proof (Z.bit_log2 w ltac:(lia)) as Hb. rewrite H in Hb; done.
Qed.

Lemma bits_above w n k : 0 ≤ w < 2 ^ n → n ≤ k → Z.testbit w k = false.
Proof.
  intros Hw Hk. destruct (decide (w = 0)) as [->|]; [apply Z.testbit_0_l|].
  apply Z.bits_above_log2; [lia|]. apply Z.log2_lt_pow2; [lia|].
  eapply Z.lt_le_trans; [apply Hw|]. apply Z.pow_le_mono_r; lia.
Qed.

Lemma range_set w p : valid_prio p → 0 ≤ w < 2 ^ 32 → 0 ≤ Z.lor w (Z.shiftl 1 p) < 2 ^ 32.
Proof.
  unfold valid_prio, NR_PRIO. intros Hp Hw. assert (0 ≤ Z.lor w (Z.shiftl 1 p)).
  { apply Z.lor_nonneg. split; [lia|]. rewrite Z.shiftl_1_l. apply Z.pow_nonneg. lia. }
  split; [done|]. apply bits_lt; [done..|]. intros k Hk. rewrite testbit_set by lia.
  rewrite (bits_above w 32) by lia. simpl. lia.
Qed.

Lemma range_clear w p : valid_prio p → 0 ≤ w < 2 ^ 32 → 0 ≤ Z.ldiff w (Z.shiftl 1 p) < 2 ^ 32.
Proof.
  unfold valid_prio, NR_PRIO. intros Hp Hw. assert (0 ≤ Z.ldiff w (Z.shiftl 1 p)) by (apply Z.ldiff_nonneg; lia).
  split; [done|]. apply bits_lt; [done..|]. intros k Hk. rewrite testbit_clear by lia.
  by rewrite (bits_above w 32) by lia.
Qed.

Lemma levels_sorted : StronglySorted Z.lt (seqZ 0 NR_PRIO).
Proof. vm_compute. repeat (constructor; [|repeat constructor; done]). constructor. Qed.

Lemma ctz_spec w : 0 < w < 2 ^ 32 →
  valid_prio (ctz w) ∧ Z.testbit w (ctz w) = true ∧ ∀ k, 0 ≤ k < ctz w → Z.testbit w k = false.
Proof.
  intros Hw. unfold ctz, valid_prio, NR_PRIO.
  assert (∀ l lo, (∀ x, x ∈ l → lo ≤ x) → StronglySorted Z.lt l →
    match filter (λ p, Z.testbit w p = true) l with
    | [] => ∀ x, x ∈ l → Z.testbit w x = false
    | p :: _ => p ∈ l ∧ Z.testbit w p = true ∧ ∀ k, k ∈ l → k < p → Z.testbit w k = false end) as H.
  { induction l as [|x l IH]; intros lo Hlo Hs; [by intros x Hx%elem_of_nil|].
    apply StronglySorted_inv in Hs as [Hs Hall]. rewrite Forall_forall in Hall.
    specialize (IH x ltac:(intros y Hy; specialize (Hall y Hy); lia) Hs). rewrite filter_cons.
    case_decide as Hx; [split_and!; [by left|done|]|].
    - intros k [->|Hk]%elem_of_cons Hlt; [lia|]. specialize (Hall k Hk). lia.
    - destruct (filter _ l) as [|p l']; [intros y [->|Hy]%elem_of_cons; [by apply not_true_is_false|by apply IH]|].
      destruct IH as (I1 & I2 & I3). split_and!; [by right|done|].
      intros k [->|Hk]%elem_of_cons Hlt; [by apply not_true_is_false|by apply I3]. }
  specialize (H (seqZ 0 32) 0).
  assert (∀ x, x ∈ seqZ 0 32 → 0 ≤ x) as H0 by (intros x Hx%elem_of_seqZ; lia).
  pose proof levels_sorted as Hs.
  specialize (H H0 Hs). destruct (filter _ _) as [|p l'].
  - exfalso. pose proof (Z.bit_log2 w ltac:(lia)) as Hb. rewrite H in Hb; [done|].
    apply elem_of_seqZ. split; [apply Z.log2_nonneg|]. apply Z.log2_lt_pow2; lia.
  - destruct H as (H1 & H2 & H3). apply elem_of_seqZ in H1. split_and!; [lia|lia|done|].
    intros k Hk. apply H3; [apply elem_of_seqZ; lia|lia].
Qed.

Lemma queue_len_ext q q' : (∀ p, valid_prio p → length (q p) = length (q' p)) → queue_len q = queue_len q'.
Proof.
  intros H. unfold queue_len. assert (∀ l, (∀ p, p ∈ l → valid_prio p) →
    foldr (λ p n, Z.of_nat (length (q p)) + n) 0 l = foldr (λ p n, Z.of_nat (length (q' p)) + n) 0 l) as G.
  { induction l as [|p l IH]; intros Hl; simpl; [done|]. rewrite IH, H by (set_solver). done. }
  apply G. intros p Hp%elem_of_seqZ. unfold valid_prio. lia.
Qed.

Lemma queue_len_change q q' p0 d :
  valid_prio p0 → (∀ p, p ≠ p0 → length (q' p) = length (q p)) →
  Z.of_nat (length (q' p0)) = Z.of_nat (length (q p0)) + d → queue_len q' = queue_len q + d.
Proof.
  intros Hp Ho Hd. unfold queue_len.
  assert (∀ l, NoDup l → foldr (λ p n, Z.of_nat (length (q' p)) + n) 0 l =
    foldr (λ p n, Z.of_nat (length (q p)) + n) 0 l + (if bool_decide (p0 ∈ l) then d else 0)) as G.
  { induction l as [|p l IH]; intros Hl; simpl; [done|]. apply NoDup_cons in Hl as [Hn Hl]. rewrite IH by done.
    destruct (decide (p = p0)) as [->|Hne].
    - rewrite Hd, (bool_decide_false (p0 ∈ l)), (bool_decide_true (p0 ∈ p0 :: l)) by (done || by left). lia.
    - rewrite Ho by done. rewrite (bool_decide_ext (p0 ∈ p :: l) (p0 ∈ l)); [lia|]. rewrite elem_of_cons. naive_solver. }
  rewrite G by apply NoDup_seqZ. rewrite bool_decide_true; [done|]. apply elem_of_seqZ. unfold valid_prio in Hp. lia.
Qed.

Lemma list_del_in t l x : x ∈ list_del t l ↔ x ∈ l ∧ x ≠ t.
Proof. unfold list_del. rewrite list_elem_of_filter. naive_solver. Qed.

Lemma list_del_notin t l : t ∉ l → list_del t l = l.
Proof.
  unfold list_del. induction l as [|x l IH]; intros H; [done|]. rewrite filter_cons_True by (intros ->; apply H; by left).
  rewrite IH; [done|]. intros Hx. apply H. by right.
Qed.

Lemma list_del_length t l : NoDup l → t ∈ l → Z.of_nat (length (list_del t l)) = Z.of_nat (length l) - 1.
Proof.
  induction l as [|x l IH]; intros Hn Ht; [by apply elem_of_nil in Ht|]. apply NoDup_cons in Hn as [Hx Hn].
  unfold list_del. destruct (decide (x = t)) as [->|Hne].
  - rewrite filter_cons_False by naive_solver. fold (list_del t l). rewrite list_del_notin by done. simpl. lia.
  - rewrite filter_cons_True by done. fold (list_del t l). simpl length. rewrite Nat2Z.inj_succ, IH; [lia|done|].
    apply elem_of_cons in Ht. naive_solver.
Qed.

Lemma list_del_nodup t l : NoDup l → NoDup (list_del t l).
Proof. apply NoDup_filter. Qed.

Lemma wrap32_add x y : wrap32 (wrap32 x + y) = wrap32 (x + y).
Proof. unfold wrap32. by rewrite Zplus_mod_idemp_l. Qed.

(** ** Frames *)

Lemma thr_upd s t f u : thr (upd_thr s t f) u = if decide (u = t) then f (thr s t) else thr s u.
Proof.
  unfold upd_thr. cbn [thr]. case_decide as E; [subst; by rewrite fn_lookup_insert|by rewrite fn_lookup_insert_ne].
Qed.

Lemma cpus_upd s c f d : cpus (upd_cpu s c f) d = if decide (d = c) then f (cpus s c) else cpus s d.
Proof.
  unfold upd_cpu. cbn [cpus]. case_decide as E; [subst; by rewrite fn_lookup_insert|by rewrite fn_lookup_insert_ne].
Qed.

(** The queue of [d] is the same and the queued threads look the same. *)
Lemma rq_ok_frame s s' d :
  queue s' d = queue s d → rq_bitmap (cpus s' d) = rq_bitmap (cpus s d) → nr_running (cpus s' d) = nr_running (cpus s d) →
  (∀ u, on_rq (thr s' u) = on_rq (thr s u) ∧
        (on_rq (thr s u) = true → prio (thr s' u) = prio (thr s u) ∧ t_cpu (thr s' u) = t_cpu (thr s u))) →
  rq_ok s d → rq_ok s' d.
Proof.
  intros Hq Hb Hn Hu [H1 H2 H3 H4 H5 H6]. split; rewrite ?Hq, ?Hb, ?Hn; try done.
  - intros p t Ht. destruct (H1 p t Ht) as (E1 & E2 & E3). destruct (Hu t) as [-> F]. destruct (F E2) as [-> ->]. done.
  - intros t. destruct (Hu t) as [-> F]. intros E2. destruct (F E2) as [-> ->]. by apply H2.
Qed.

Section Enqueue.

Context (s : sys) (c t : Z) (head : bool).
Hypothesis Hoff : on_rq (thr s t) = false.
Hypothesis Hprio : valid_prio (prio (thr s t)).
Let s' := enqueue s c t head.
Let p := prio (thr s t).

Lemma enqueue_thr u : thr s' u = if decide (u = t) then set_t_cpu c (set_on_rq true (thr s t)) else thr s u.
Proof. unfold s', enqueue. by rewrite thr_upd. Qed.

Lemma enqueue_cpus d : d ≠ c → cpus s' d = cpus s d.
Proof. intros. unfold s', enqueue, upd_thr. cbn [cpus]. by rewrite cpus_upd, decide_False. Qed.

Lemma enqueue_queue k : queue s' c k = if decide (k = p) then (if head then t :: queue s c p else queue s c p ++ [t]) else queue s c k.
Proof.
  unfold s', enqueue, upd_thr. cbn [cpus]. rewrite cpus_upd, decide_True by done. cbn [set_nr_running set_rq_bitmap set_runqueue runqueue].
  case_decide as E; [subst k; by rewrite fn_lookup_insert|by rewrite fn_lookup_insert_ne].
Qed.

Lemma enqueue_cpu :
  rq_bitmap (cpus s' c) = Z.lor (rq_bitmap (cpus s c)) (Z.shiftl 1 p) ∧
  nr_running (cpus s' c) = wrap32 (nr_running (cpus s c) + 1) ∧
  curr (cpus s' c) = curr (cpus s c) ∧ idle (cpus s' c) = idle (cpus s c) ∧ online (cpus s' c) = online (cpus s c).
Proof. unfold s', enqueue, upd_thr. cbn [cpus]. rewrite cpus_upd, decide_True by done. done. Qed.

Lemma enqueue_mem k x : x ∈ queue s' c k ↔ x ∈ queue s c k ∨ (x = t ∧ k = p).
Proof.
  rewrite enqueue_queue. case_decide as E; [|naive_solver]. subst k.
  destruct head; rewrite ?elem_of_cons, ?elem_of_app, ?elem_of_cons, ?elem_of_nil; naive_solver.
Qed.

Lemma enqueue_rq_here : rq_ok s c → rq_ok s' c.
Proof.
  intros [H1 H2 H3 H4 H5 H6]. destruct enqueue_cpu as (B1 & B2 & _).
  assert (∀ k, t ∉ queue s c k) as Hnot by (intros k Hk; destruct (H1 k t Hk) as (_ & ? & _); congruence).
  split.
  - intros k u. rewrite enqueue_mem, enqueue_thr. intros [Hu|[-> ->]]; [|by rewrite decide_True].
    rewrite decide_False; [by apply H1|]. intros ->. by apply (Hnot k).
  - intros u. rewrite enqueue_thr. case_decide as E; [subst u; intros _ _|].
    + split; [|done]. apply enqueue_mem. by right.
    + intros E1 E2. destruct (H2 u E1 E2) as [? ?]. split; [apply enqueue_mem; by left|done].
  - intros k. rewrite enqueue_queue. case_decide as E; [subst k|done].
    destruct head; [by apply NoDup_cons|]. rewrite app_Permutation_comm. by apply NoDup_cons.
  - intros k Hk. rewrite B1, testbit_set, H4 by (done || apply Hk || apply Hprio). rewrite enqueue_queue.
    case_decide as E; [subst k; rewrite Z.eqb_refl, orb_true_r; symmetry; apply bool_decide_true|].
    + destruct head; [done|]. by destruct (queue s c p).
    + replace (p =? k) with false by lia. by rewrite orb_false_r.
  - rewrite B1. by apply range_set.
  - rewrite B2, H6, wrap32_add. f_equal. symmetry. apply (queue_len_change _ _ p); [done| |].
    + intros k Hk. by rewrite enqueue_queue, decide_False.
    + rewrite enqueue_queue, decide_True by done. destruct head; [simpl; lia|]. rewrite length_app. simpl. lia.
Qed.

Lemma enqueue_rq d : rq_ok s d → rq_ok s' d.
Proof.
  intros H. destruct (decide (d = c)) as [->|Hne]; [by apply enqueue_rq_here|].
  destruct H as [H1 H2 H3 H4 H5 H6]. split; rewrite ?enqueue_cpus by done; try done.
  - intros k u Hu. rewrite enqueue_thr. destruct (H1 k u Hu) as (E1 & E2 & E3).
    rewrite decide_False; [done|]. intros ->. congruence.
  - intros u. rewrite enqueue_thr. case_decide as E; [|apply H2]. cbn [set_t_cpu t_cpu]. congruence.
Qed.

End Enqueue.

Section Dequeue.

Context (s : sys) (c t : Z).
Hypothesis Hon : on_rq (thr s t) = true.
Hypothesis Hcpu : t_cpu (thr s t) = c.
Hypothesis Hrq : rq_ok s c.
Let s' := dequeue s c t.
Let p := prio (thr s t).

Lemma dequeue_thr u : thr s' u = if decide (u = t) then set_on_rq false (thr s t) else thr s u.
Proof. unfold s', dequeue. by rewrite thr_upd. Qed.

Lemma dequeue_cpus d : d ≠ c → cpus s' d = cpus s d.
Proof. intros. unfold s', dequeue, upd_thr. cbn [cpus]. by rewrite !cpus_upd, !decide_False. Qed.

Lemma dequeue_cpu :
  queue s' c = (λ k, list_del t (queue s c k)) ∧
  rq_bitmap (cpus s' c) = (if decide (list_del t (queue s c p) = []) then Z.ldiff (rq_bitmap (cpus s c)) (Z.shiftl 1 p)
                           else rq_bitmap (cpus s c)) ∧
  nr_running (cpus s' c) = wrap32 (nr_running (cpus s c) - 1) ∧
  curr (cpus s' c) = curr (cpus s c) ∧ idle (cpus s' c) = idle (cpus s c).
Proof.
  unfold s', dequeue, upd_thr. cbn [cpus thr upd_cpu]. rewrite !fn_lookup_insert.
  cbn [set_runqueue runqueue]. fold p. destruct (list_del t (queue s c p)); done.
Qed.

Lemma dequeue_other k : k ≠ p → list_del t (queue s c k) = queue s c k.
Proof. intros Hk. apply list_del_notin. intros Hin. apply Hk. by destruct (rq_mem _ _ Hrq k t Hin). Qed.

Lemma dequeue_rq_here : rq_ok s' c.
Proof.
  destruct (rq_in _ _ Hrq t Hon Hcpu) as [Hin Hp]. fold p in Hin, Hp.
  destruct dequeue_cpu as (Q1 & Q2 & Q3 & _). destruct (Hrq) as [H1 H2 H3 H4 H5 H6]. split.
  - intros k u. rewrite Q1, list_del_in, dequeue_thr. intros [Hu Hne]. rewrite decide_False by done. by apply H1.
  - intros u. rewrite dequeue_thr, Q1. destruct (decide (u = t)) as [->|E]; [done|]. intros E1 E2. rewrite list_del_in.
    destruct (H2 u E1 E2). done.
  - intros k. rewrite Q1. by apply list_del_nodup.
  - intros k Hk. rewrite Q1, Q2. destruct (decide (k = p)) as [->|Hne].
    + case_decide as E.
      * rewrite testbit_clear by apply Hp. rewrite Z.eqb_refl, andb_false_r, E. by rewrite bool_decide_false by naive_solver.
      * rewrite H4 by done. assert (queue s c p ≠ []) by (intros Hx; rewrite Hx in Hin; by apply elem_of_nil in Hin). by rewrite !bool_decide_true.
    + rewrite (dequeue_other k) by done. case_decide; [|by apply H4].
      rewrite testbit_clear, H4 by (done || apply Hp || apply Hk). replace (p =? k) with false by lia. by rewrite andb_true_r.
  - rewrite Q2. case_decide; [by apply range_clear|done].
  - rewrite Q3, Q1, H6. change (wrap32 ?a - 1) with (wrap32 a + -1). rewrite wrap32_add. f_equal. symmetry.
    apply (queue_len_change _ _ p); [done| |].
    + intros k Hk. by rewrite dequeue_other.
    + by rewrite list_del_length.
Qed.

Lemma dequeue_rq d : rq_ok s d → rq_ok s' d.
Proof.
  intros H. destruct (decide (d = c)) as [->|Hne]; [by apply dequeue_rq_here|].
  destruct H as [H1 H2 H3 H4 H5 H6]. split; rewrite ?dequeue_cpus by done; try done.
  - intros k u Hu. rewrite dequeue_thr. destruct (H1 k u Hu) as (E1 & E2 & E3). rewrite decide_False; [done|].
    intros ->. congruence.
  - intros u. rewrite dequeue_thr. destruct (decide (u = t)) as [->|E]; [done|apply H2].
Qed.

End Dequeue.

(** Steps that leave the queues and the current threads alone. *)
Record frame (s s' : sys) : Prop := {
  fr_nr : nr_cpus_possible s' = nr_cpus_possible s;
  fr_cpu c : queue s' c = queue s c ∧ rq_bitmap (cpus s' c) = rq_bitmap (cpus s c) ∧
    nr_running (cpus s' c) = nr_running (cpus s c) ∧ curr (cpus s' c) = curr (cpus s c) ∧ idle (cpus s' c) = idle (cpus s c);
  fr_thr u : on_rq (thr s' u) = on_rq (thr s u) ∧ on_cpu (thr s' u) = on_cpu (thr s u) ∧
    (t_cpu (thr s' u) = t_cpu (thr s u) ∨
     on_rq (thr s u) = false ∧ on_cpu (thr s u) = false ∧ ¬ is_idle s u ∧ valid_cpu s (t_cpu (thr s' u))) ∧
    (on_rq (thr s u) = true → prio (thr s' u) = prio (thr s u) ∧ state (thr s' u) = state (thr s u)) ∧
    (is_idle s u → state (thr s' u) = state (thr s u)) ∧
    (valid_prio (prio (thr s u)) → valid_prio (prio (thr s' u)));
}.

Lemma frame_idle s s' t : frame s s' → is_idle s' t ↔ is_idle s t.
Proof.
  intros [F1 F2 _]. unfold is_idle, valid_cpu. split; intros (c & Hc & <-); exists c;
    destruct (F2 c) as (_ & _ & _ & _ & E); rewrite ?E, ?F1 in *; done.
Qed.

Lemma frame_ok s s' : frame s s' → sched_ok s → sched_ok s'.
Proof.
  intros HF [Hrq [R1 R2 R3 R4 R5 R6]]. pose proof HF as [F1 F2 F3].
  assert (∀ c, valid_cpu s' c ↔ valid_cpu s c) as Hv by (intros c; unfold valid_cpu; by rewrite F1).
  split; [intros c Hc%Hv|split].
  - destruct (F2 c) as (E1 & E2 & E3 & _). apply (rq_ok_frame s); auto. intros u. destruct (F3 u) as (-> & _ & T & G & _).
    split; [done|]. intros Hu. destruct (G Hu) as [-> _]. split; [done|]. destruct T as [->|(? & _)]; [done|congruence].
  - intros c Hc%Hv. destruct (F2 c) as (_ & _ & _ & -> & _). destruct (F3 (curr (cpus s c))) as (_ & -> & T & _).
    destruct (R1 c Hc). split; [done|]. destruct T as [->|(_ & ? & _)]; [done|congruence].
  - intros t. destruct (F3 t) as (-> & -> & T & _). intros Ho. destruct (R2 t Ho) as [? E]. split; [done|].
    destruct T as [->|(_ & ? & _)]; [|congruence]. destruct (F2 (t_cpu (thr s t))) as (_ & _ & _ & -> & _). done.
  - intros c Hc%Hv. destruct (F2 c) as (_ & _ & _ & _ & ->). destruct (F3 (idle (cpus s c))) as (-> & _ & T & _ & G & _).
    assert (is_idle s (idle (cpus s c))) as Hid by (by exists c). rewrite G by done.
    destruct T as [->|(_ & _ & ? & _)]; [auto|done].
  - intros t. destruct (F3 t) as (-> & _ & _ & G & _). intros Ht. destruct (G Ht) as [_ ->]. auto.
  - intros t Ht. destruct (F3 t) as (_ & _ & _ & _ & _ & G). apply G, R5. by rewrite <-(frame_idle s s').
  - intros t. apply Hv. destruct (F3 t) as (_ & _ & T & _). destruct T as [->|(_ & _ & _ & ?)]; auto.
Qed.

Lemma frame_upd_cpu s c f :
  (∀ r, runqueue (f r) = runqueue r ∧ rq_bitmap (f r) = rq_bitmap r ∧ nr_running (f r) = nr_running r ∧
        curr (f r) = curr r ∧ idle (f r) = idle r) →
  frame s (upd_cpu s c f).
Proof.
  intros Hf. split; [done| |by intros u; split_and!; auto].
  intros d. rewrite cpus_upd. case_decide; [subst; apply Hf|done].
Qed.

Lemma frame_upd_thr s t f :
  (on_rq (f (thr s t)) = on_rq (thr s t) ∧ on_cpu (f (thr s t)) = on_cpu (thr s t) ∧ t_cpu (f (thr s t)) = t_cpu (thr s t)) →
  (on_rq (thr s t) = true → prio (f (thr s t)) = prio (thr s t) ∧ state (f (thr s t)) = state (thr s t)) →
  (is_idle s t → state (f (thr s t)) = state (thr s t)) →
  (valid_prio (prio (thr s t)) → valid_prio (prio (f (thr s t)))) →
  frame s (upd_thr s t f).
Proof.
  intros (H1 & H2 & H3) H4 H5 H6. split; [done|by intros c; split_and!|].
  intros u. rewrite thr_upd. case_decide; [subst; split_and!; auto|split_and!; auto].
Qed.

(** ** Waking *)

Lemma select_loop_in s t l best c :
  select_loop s t l best = Some c → c ∈ l ∨ best = Some c.
Proof.
  revert best. induction l as [|i l IH]; intros best H; simpl in H; [by right|].
  destruct (_ || _); [destruct (IH _ H); [left; by right|by right]|].
  destruct (is_free _); [simplify_eq; left; by left|].
  destruct (IH _ H) as [?|Hb]; [left; by right|]. destruct best as [b|]; [destruct (_ <? _); [|by right]|];
    simplify_eq; left; by left.
Qed.

Lemma select_cpu_valid s t : run_ok s → valid_cpu s (select_cpu s t).
Proof.
  intros H. unfold select_cpu. destruct (_ && _); [apply (run_cpu _ H)|].
  destruct (select_loop _ _ _ _) as [c|] eqn:E; simpl; [|apply (run_cpu _ H)].
  apply select_loop_in in E as [E%elem_of_seqZ|]; [|done]. unfold valid_cpu. lia.
Qed.

Lemma enqueue_run s c t h :
  sched_ok s → valid_cpu s c → on_rq (thr s t) = false → on_cpu (thr s t) = false → state (thr s t) = TASK_RUNNING →
  ¬ is_idle s t → sched_ok (enqueue s c t h).
Proof.
  intros [Hrq [R1 R2 R3 R4 R5 R6]] Hc Hr Ho Hst Hi. pose proof (R5 t Hi) as Hp.
  assert (∀ d, curr (cpus (enqueue s c t h) d) = curr (cpus s d) ∧ idle (cpus (enqueue s c t h) d) = idle (cpus s d)) as Hci.
  { intros d. destruct (decide (d = c)) as [->|]; [destruct (enqueue_cpu s c t h) as (_ & _ & -> & -> & _); done|].
    by rewrite enqueue_cpus. }
  split; [intros d Hd; apply enqueue_rq; auto|]. split.
  - intros d Hd. destruct (Hci d) as [-> _]. rewrite enqueue_thr. destruct (R1 d Hd).
    rewrite decide_False by (intros E; rewrite E in *; congruence). done.
  - intros u. rewrite enqueue_thr. destruct (decide (u = t)) as [->|]; [cbn [set_t_cpu set_on_rq on_cpu]; congruence|].
    destruct (Hci (t_cpu (thr s u))) as [-> _]. auto.
  - intros d Hd. destruct (Hci d) as [_ ->]. rewrite enqueue_thr. rewrite decide_False; [auto|].
    intros E. apply Hi. by exists d.
  - intros u. rewrite enqueue_thr. destruct (decide (u = t)) as [->|]; [done|auto].
  - intros u Hu. rewrite enqueue_thr. destruct (decide (u = t)) as [->|]; [done|]. apply R5. intros (d & Hd & E). apply Hu.
    exists d. split; [done|]. by destruct (Hci d) as [_ ->].
  - intros u. rewrite enqueue_thr. destruct (decide (u = t)) as [->|]; [done|apply R6].
Qed.

Lemma resched_ok s c : sched_ok s → sched_ok (resched_cpu s c).
Proof. apply frame_ok, frame_upd_cpu. done. Qed.

Lemma activate_on_ok s t c :
  sched_ok s → on_rq (thr s t) = false → on_cpu (thr s t) = false → state (thr s t) = TASK_RUNNING → ¬ is_idle s t → valid_cpu s c →
  sched_ok (activate_on s t c) ∧ on_rq (thr (activate_on s t c) t) = true ∧ state (thr (activate_on s t c) t) = TASK_RUNNING.
Proof.
  intros H Hr Ho Hst Hi Hc. unfold activate_on.
  assert (sched_ok (enqueue s c t false)) as H' by (apply enqueue_run; auto).
  assert (thr (enqueue s c t false) t = set_t_cpu c (set_on_rq true (thr s t))) as E by (rewrite enqueue_thr; by rewrite decide_True).
  case_match; [split; [by apply resched_ok|]|split; [done|]]; unfold resched_cpu, upd_cpu; cbn [thr]; rewrite E; done.
Qed.

Lemma activate_ok s t :
  sched_ok s → on_rq (thr s t) = false → on_cpu (thr s t) = false → state (thr s t) = TASK_RUNNING → ¬ is_idle s t →
  sched_ok (activate s t) ∧ on_rq (thr (activate s t) t) = true ∧ state (thr (activate s t) t) = TASK_RUNNING.
Proof. intros H Hr Ho Hst Hi. apply activate_on_ok; try done. apply select_cpu_valid, H. Qed.

(** [activate] sees to it that a better thread than the current one runs. *)
Lemma activate_preempts s t : on_rq (thr s t) = false →
  let s' := activate s t in let c := t_cpu (thr s' t) in
  prio (thr s' t) < curr_prio s' c → need_resched (cpus s' c) = true.
Proof.
  intros Hr. cbn zeta. unfold activate, activate_on. set (c := select_cpu s t). set (s1 := enqueue s c t false).
  assert (t_cpu (thr s1 t) = c) as E by (unfold s1; rewrite enqueue_thr, decide_True by done; done).
  case_match eqn:Hlt.
  - intros _. unfold resched_cpu. rewrite cpus_upd. change (thr (upd_cpu s1 c _)) with (thr s1). by rewrite E, decide_True.
  - rewrite E. lia.
Qed.

Lemma wake_state_ok s t :
  sched_ok s → state (thr s t) ≠ TASK_RUNNING → sched_ok (upd_thr s t (set_state TASK_RUNNING)) ∧ ¬ is_idle s t.
Proof.
  intros H Hst. assert (¬ is_idle s t) as Hi.
  { intros (c & Hc & <-). by destruct (run_idle _ (so_run _ H) c Hc). }
  split; [|done]. apply (frame_ok s); [|done]. apply frame_upd_thr; try done.
  intros Hr. by apply (run_state _ (so_run _ H)) in Hr.
Qed.

(** Both sections of a wake-up with nothing between them. *)
Lemma try_to_wake_up_eq s t mask : try_to_wake_up s t mask =
  if Z.land (state (thr s t)) mask =? 0 then (s, false)
  else if on_rq (thr (upd_thr s t (set_state TASK_RUNNING)) t) || on_cpu (thr (upd_thr s t (set_state TASK_RUNNING)) t)
  then (upd_thr s t (set_state TASK_RUNNING), true) else (activate (upd_thr s t (set_state TASK_RUNNING)) t, true).
Proof. unfold try_to_wake_up, wake_locked. destruct (_ =? 0); [done|]. cbn zeta. by destruct (_ || _). Qed.

Lemma try_to_wake_up_spec s t mask s' b :
  sched_ok s → try_to_wake_up s t mask = (s', b) →
  sched_ok s' ∧ b = negb (Z.land (state (thr s t)) mask =? 0) ∧ (b = false → s' = s) ∧
  (b = true → state (thr s' t) = TASK_RUNNING ∧ on_rq (thr s' t) || on_cpu (thr s' t) = true).
Proof.
  intros H. rewrite try_to_wake_up_eq. destruct (Z.land _ _ =? 0) eqn:E; [intros; by simplify_eq|].
  assert (state (thr s t) ≠ TASK_RUNNING) as Hst by (intros Hx; by rewrite Hx in E).
  destruct (wake_state_ok s t H Hst) as [H1 Hi]. set (s1 := upd_thr s t _) in *.
  assert (thr s1 t = set_state TASK_RUNNING (thr s t)) as E1 by (unfold s1; by rewrite thr_upd, decide_True).
  destruct (on_rq (thr s1 t) || on_cpu (thr s1 t)) eqn:Eo; intros; simplify_eq.
  - split_and!; [done..|]. intros _. split; [by rewrite E1|done].
  - apply orb_false_iff in Eo as [Er Eo]. destruct (activate_ok s1 t) as (A1 & A2 & A3); [done..|by rewrite E1|done|].
    split_and!; [done..|]. intros _. by rewrite A2, A3.
Qed.

(** ** Switching

    [ready] is the queue with the previous thread back in its place, [best]
    the first thread of the best level. *)

Definition runnable (s : sys) (c : Z) : bool :=
  (state (thr s (curr (cpus s c))) =? TASK_RUNNING) && negb (curr (cpus s c) =? idle (cpus s c)).

Definition ready (s : sys) (c : Z) (k : Z) : list Z :=
  let prev := curr (cpus s c) in
  if runnable s c && (k =? prio (thr s prev)) then
    if policy (thr s prev) =? SCHED_FIFO then prev :: queue s c k else queue s c k ++ [prev]
  else queue s c k.

Definition best (q : Z → list Z) : option Z := head (mjoin (q <$> seqZ 0 NR_PRIO)).

Lemma best_none q : (∀ p, valid_prio p → q p = []) → best q = None.
Proof.
  intros H. unfold best. assert (∀ l, (∀ p, p ∈ l → q p = []) → mjoin (q <$> l) = []) as G.
  { induction l as [|p l IH]; intros Hl; [done|]. simpl. rewrite (Hl p) by (by left). apply IH. intros k Hk. apply Hl. by right. }
  rewrite G; [done|]. intros p Hp%elem_of_seqZ. apply H. unfold valid_prio. lia.
Qed.

Lemma best_first q p t l :
  valid_prio p → q p = t :: l → (∀ k, 0 ≤ k < p → q k = []) → best q = Some t.
Proof.
  intros Hp Hq Hl. unfold best. replace NR_PRIO with (p + (NR_PRIO - p)) by lia.
  rewrite (seqZ_app 0 p) by (unfold valid_prio in Hp; lia). rewrite fmap_app.
  assert (∀ l, (∀ k, k ∈ l → q k = []) → mjoin (q <$> l) = []) as G.
  { induction l0 as [|k l0 IH]; intros Hl0; [done|]. simpl. rewrite (Hl0 k) by (by left). apply IH. intros j Hj. apply Hl0. by right. }
  assert (∀ a b : list (list Z), mjoin (a ++ b) = mjoin a ++ mjoin b) as Hj by (intros a b; apply join_app).
  rewrite Hj, (G (seqZ 0 p)) by (intros k Hk%elem_of_seqZ; apply Hl; lia).
  rewrite Z.add_0_l, seqZ_cons by (unfold valid_prio in Hp; lia). simpl. by rewrite Hq.
Qed.

Lemma best_least q k t : valid_prio k → t ∈ q k → ∃ b p l, best q = Some b ∧ q p = b :: l ∧ p ≤ k.
Proof.
  intros Hk Ht. unfold best. assert (∀ l, k ∈ l → StronglySorted Z.lt l →
    ∃ b p r, head (mjoin (q <$> l)) = Some b ∧ q p = b :: r ∧ p ≤ k) as G.
  { induction l as [|x l IH]; intros Hkl Hs; [by apply elem_of_nil in Hkl|]. apply StronglySorted_inv in Hs as [Hs Hall].
    rewrite Forall_forall in Hall. simpl. destruct (q x) as [|b r] eqn:Ex; simpl.
    - apply elem_of_cons in Hkl as [->|Hkl]; [rewrite Ex in Ht; by apply elem_of_nil in Ht|by apply IH].
    - exists b, x, r. split_and!; [done|done|]. apply elem_of_cons in Hkl as [->|Hkl]; [lia|]. specialize (Hall k Hkl). lia. }
  apply G; [apply elem_of_seqZ; unfold valid_prio in Hk; lia|apply levels_sorted].
Qed.

(** What the scheduler decides by. *)
Definition vw (t : thread) : bool * bool * Z * Z * Z := (on_rq t, on_cpu t, t_cpu t, state t, prio t).

Section Schedule.

Context (s : sys) (c : Z).
Hypothesis Hok : sched_ok s.
Hypothesis Hc : valid_cpu s c.
Let prev := curr (cpus s c).
Let s2 := requeue_prev (upd_cpu s c (set_need_resched false)) c.

Lemma prev_facts : on_cpu (thr s prev) = true ∧ t_cpu (thr s prev) = c ∧ on_rq (thr s prev) = false.
Proof.
  destruct (run_curr _ (so_run _ Hok) c Hc) as [H1 H2]. destruct (run_on _ (so_run _ Hok) prev H1). done.
Qed.

Lemma prev_idle : runnable s c = true → ¬ is_idle s prev.
Proof.
  unfold runnable. intros [_ Hn]%andb_true_iff (d & Hd & E). destruct prev_facts as (_ & E2 & _).
  destruct (run_idle _ (so_run _ Hok) d Hd) as (_ & _ & E3). rewrite E in E3. assert (d = c) as -> by congruence.
  fold prev in Hn. rewrite E in Hn. by rewrite Z.eqb_refl in Hn.
Qed.

Lemma requeue_fields :
  nr_cpus_possible s2 = nr_cpus_possible s ∧ need_resched (cpus s2 c) = false ∧
  (∀ u, vw (thr s2 u) = if bool_decide (u = prev) && runnable s c then (true, true, c, state (thr s prev), prio (thr s prev))
                        else vw (thr s u)) ∧
  (∀ k, queue s2 c k = ready s c k) ∧
  (∀ d, curr (cpus s2 d) = curr (cpus s d) ∧ idle (cpus s2 d) = idle (cpus s d) ∧ (d ≠ c → cpus s2 d = cpus s d)).
Proof.
  destruct prev_facts as (P1 & P2 & P3). unfold s2, requeue_prev, ready. set (s1 := upd_cpu s c (set_need_resched false)).
  assert (cpus s1 c = set_need_resched false (cpus s c)) as Ec by (unfold s1; by rewrite cpus_upd, decide_True).
  assert (∀ d, d ≠ c → cpus s1 d = cpus s d) as Ed by (intros; unfold s1; by rewrite cpus_upd, decide_False).
  rewrite Ec. cbn [curr idle set_need_resched]. change (thr s1) with (thr s). fold prev.
  change ((state (thr s prev) =? TASK_RUNNING) && negb (prev =? idle (cpus s c))) with (runnable s c).
  destruct (runnable s c) eqn:Er; simpl negb; cbn [andb]; cbn iota.
  2:{ split_and!; [done|by rewrite Ec|intros u; by rewrite andb_false_r|intros; by rewrite Ec|].
      intros d. destruct (decide (d = c)) as [->|]; [by rewrite Ec|by rewrite Ed]. }
  set (s3 := enqueue s1 c prev (policy (thr s prev) =? SCHED_FIFO)).
  assert (∀ u, vw (thr s3 u) = if bool_decide (u = prev) then (true, true, c, state (thr s prev), prio (thr s prev)) else vw (thr s u)) as Hv.
  { intros u. unfold s3. rewrite enqueue_thr. case_decide as Eu; [subst u; rewrite bool_decide_true by done|by rewrite bool_decide_false].
    unfold vw. cbn [set_t_cpu set_on_rq on_rq on_cpu t_cpu state prio]. change (thr s1) with (thr s). by rewrite P1. }
  assert (∀ k, queue s3 c k = ready s c k) as Hq.
  { intros k. unfold s3, ready. rewrite enqueue_queue. change (thr s1) with (thr s). fold prev. rewrite Er, Ec. simpl.
    case_decide as Ek; [subst k; by rewrite Z.eqb_refl|]. by replace (k =? _) with false by lia. }
  destruct (enqueue_cpu s1 c prev (policy (thr s prev) =? SCHED_FIFO)) as (_ & _ & C1 & C2 & _). fold s3 in C1, C2.
  assert (need_resched (cpus s3 c) = false) as C3.
  { unfold s3, enqueue, upd_thr. cbn [cpus]. rewrite cpus_upd, decide_True by done. cbn [set_nr_running set_rq_bitmap set_runqueue need_resched]. by rewrite Ec. }
  unfold ready in Hq. fold prev in Hq. rewrite Er in Hq. cbn [andb] in Hq.
  destruct (timeslice (thr s3 prev) <=? 0); (split_and!; [done|exact C3| |exact Hq|]).
  - intros u. rewrite andb_true_r, <-Hv, thr_upd. destruct (decide (u = prev)) as [->|]; done.
  - intros d. cbn [upd_thr cpus]. destruct (decide (d = c)) as [->|Hd]; [by rewrite C1, C2, Ec|].
    unfold s3. rewrite enqueue_cpus, Ed by done. done.
  - intros u. by rewrite andb_true_r.
  - intros d. destruct (decide (d = c)) as [->|Hd]; [by rewrite C1, C2, Ec|].
    unfold s3. rewrite enqueue_cpus, Ed by done. done.
Qed.

Lemma requeue_rq d : valid_cpu s d → rq_ok s2 d.
Proof.
  intros Hd. destruct prev_facts as (P1 & P2 & P3). set (s1 := upd_cpu s c (set_need_resched false)).
  assert (rq_ok s1 d) as H1.
  { apply (so_rq s1); [|done]. apply (frame_ok s); [by apply frame_upd_cpu|done]. }
  unfold s2, requeue_prev. fold s1.
  assert (curr (cpus s1 c) = prev ∧ idle (cpus s1 c) = idle (cpus s c)) as [-> ->] by (unfold s1; by rewrite cpus_upd, decide_True).
  change (thr s1) with (thr s).
  change ((state (thr s prev) =? TASK_RUNNING) && negb (prev =? idle (cpus s c))) with (runnable s c).
  destruct (runnable s c) eqn:Er; [|done].
  assert (∀ h, rq_ok (enqueue s1 c prev h) d) as H2.
  { intros h. apply enqueue_rq; [done| |done]. apply (run_prio _ (so_run _ Hok)). by apply prev_idle. }
  destruct (timeslice _ <=? 0); [|apply H2]. apply (rq_ok_frame (enqueue s1 c prev (policy (thr s prev) =? SCHED_FIFO))); try done.
  intros u. rewrite thr_upd. case_decide as E; [rewrite E; done|done].
Qed.

Lemma ready_on_rq k t : t ∈ ready s c k → on_rq (thr s2 t) = true ∧ t_cpu (thr s2 t) = c ∧ prio (thr s2 t) = k.
Proof.
  destruct requeue_fields as (_ & _ & _ & Q & _). rewrite <-Q. intros Ht.
  destruct (rq_mem _ _ (requeue_rq c Hc) k t Ht) as (? & ? & ?). done.
Qed.

Lemma pick_spec : ∃ s3 o, pick_next s2 c = Ok (s3, o) ∧ o = best (ready s c) ∧
  match o with
  | None => s3 = s2 ∧ ∀ k, ready s c k = []
  | Some t => s3 = dequeue s2 c t ∧ on_rq (thr s2 t) = true ∧ t_cpu (thr s2 t) = c
  end.
Proof.
  destruct requeue_fields as (_ & _ & _ & Q & _). pose proof (requeue_rq c Hc) as Hrq.
  assert (∀ k, ready s c k ≠ [] → valid_prio k) as Hval.
  { intros k Hk. rewrite <-Q in Hk. destruct (queue s2 c k) as [|t l] eqn:E; [done|].
    destruct (rq_mem _ _ Hrq k t) as (E1 & E2 & E3); [rewrite E; by left|]. destruct (rq_in _ _ Hrq t E2 E3). congruence. }
  unfold pick_next. destruct (rq_bitmap (cpus s2 c) =? 0) eqn:Eb.
  - exists s2, None. assert (∀ k, ready s c k = []) as He.
    { intros k. destruct (decide (ready s c k = [])) as [?|Hk]; [done|]. exfalso.
      pose proof (rq_bit _ _ Hrq k (Hval k Hk)) as Hb. rewrite Q in Hb. apply Z.eqb_eq in Eb. rewrite Eb, Z.testbit_0_l in Hb.
      by rewrite bool_decide_true in Hb. }
    split_and!; [done|by rewrite best_none|done|done].
  - apply Z.eqb_neq in Eb. pose proof (rq_bits _ _ Hrq) as Hb32.
    destruct (ctz_spec (rq_bitmap (cpus s2 c))) as (Z1 & Z2 & Z3); [lia|]. rewrite Q.
    rewrite (rq_bit _ _ Hrq) in Z2 by done. rewrite Q in Z2. apply bool_decide_eq_true in Z2.
    destruct (ready s c (ctz _)) as [|t l] eqn:El; [done|]. exists (dequeue s2 c t), (Some t). split_and!; [done| |done| |].
    + symmetry. apply (best_first _ (ctz (rq_bitmap (cpus s2 c))) t l); [done|done|]. intros k Hk.
      specialize (Z3 k Hk). unfold valid_prio in Z1. rewrite (rq_bit _ _ Hrq), Q in Z3 by (unfold valid_prio; lia).
      by apply bool_decide_eq_false, dec_stable in Z3.
    + apply (ready_on_rq (ctz (rq_bitmap (cpus s2 c)))). rewrite El. by left.
    + apply (ready_on_rq (ctz (rq_bitmap (cpus s2 c)))). rewrite El. by left.
Qed.

Let next := default (idle (cpus s c)) (best (ready s c)).

(** Everything the decision depends on afterwards. *)
Record switched (s' : sys) : Prop := {
  sw_nr : nr_cpus_possible s' = nr_cpus_possible s;
  sw_thr u : vw (thr s' u) =
    if decide (u = next) then (false, true, c, state (thr s next), prio (thr s next))
    else if decide (u = prev) then (runnable s c, false, c, state (thr s prev), prio (thr s prev))
    else vw (thr s u);
  sw_other d : d ≠ c → cpus s' d = cpus s d;
  sw_here : curr (cpus s' c) = next ∧ idle (cpus s' c) = idle (cpus s c) ∧ need_resched (cpus s' c) = false;
  sw_queue k : queue s' c k = list_del next (ready s c k);
  sw_rq d : valid_cpu s d → rq_ok s' d;
}.

(** After [pick_next]: [next] is off the queues. *)
Lemma picked : ∃ s3 o, pick_next s2 c = Ok (s3, o) ∧ default (idle (cpus s3 c)) o = next ∧
  nr_cpus_possible s3 = nr_cpus_possible s ∧
  (∀ u, vw (thr s3 u) =
     if decide (u = next) then (false, on_cpu (thr s next), c, state (thr s next), prio (thr s next))
     else if decide (u = prev) then (runnable s c, true, c, state (thr s prev), prio (thr s prev))
     else vw (thr s u)) ∧
  (∀ d, d ≠ c → cpus s3 d = cpus s d) ∧
  (curr (cpus s3 c) = prev ∧ idle (cpus s3 c) = idle (cpus s c) ∧ need_resched (cpus s3 c) = false) ∧
  (∀ k, queue s3 c k = list_del next (ready s c k)) ∧ (∀ d, valid_cpu s d → rq_ok s3 d).
Proof.
  destruct requeue_fields as (F1 & F2 & F3 & F4 & F5). destruct pick_spec as (s3 & o & Hp & Ho & Hs3).
  destruct prev_facts as (P1 & P2 & P3). destruct (F5 c) as (C1 & C2 & _).
  destruct (run_idle _ (so_run _ Hok) c Hc) as (I1 & I2 & I3).
  exists s3, o. split; [done|]. unfold next. rewrite <-Ho. destruct o as [t|]; simpl.
  - destruct Hs3 as (-> & T1 & T2). destruct (dequeue_cpu s2 c t) as (D1 & _ & _ & D2 & D3).
    assert (need_resched (cpus (dequeue s2 c t) c) = false) as D4.
    { unfold dequeue, upd_thr. cbn [cpus thr upd_cpu]. rewrite !fn_lookup_insert. cbn [set_nr_running need_resched].
      destruct (runqueue (set_runqueue _ _) _); exact F2. }
    split_and!; [done|done| | |by rewrite D2|by rewrite D3|done| |].
    + intros u. rewrite dequeue_thr. specialize (F3 t) as Ft.
      destruct (decide (u = t)) as [->|Hne].
      * unfold vw in Ft |- *. cbn [set_on_rq on_rq on_cpu t_cpu state prio].
        destruct (decide (t = prev)) as [->|Hne]; [rewrite bool_decide_true in Ft by done|rewrite bool_decide_false in Ft by done];
          [destruct (runnable s c)|]; simpl in Ft; injection Ft as E1 E2 E3 E4 E5; congruence.
      * rewrite F3. destruct (decide (u = prev)) as [->|]; [|by rewrite bool_decide_false].
        rewrite bool_decide_true by done. simpl. destruct (runnable s c); [done|]. unfold vw. by rewrite P1, P2, P3.
    + intros d Hd. rewrite dequeue_cpus by done. by apply F5.
    + intros k. rewrite D1. by rewrite F4.
    + intros d Hd. apply dequeue_rq; auto. by apply requeue_rq. by apply requeue_rq.
  - destruct Hs3 as [-> He]. split_and!; [done|done| | |done|done|done| |].
    + assert (runnable s c = false) as Er.
      { destruct (runnable s c) eqn:Er; [|done]. specialize (He (prio (thr s prev))). unfold ready in He.
        fold prev in He. rewrite Er, Z.eqb_refl in He. simpl in He. destruct (policy _ =? _); [done|]. by destruct (queue s c _). }
      intros u. rewrite F3, Er, andb_false_r. destruct (decide (u = idle (cpus s c))) as [->|]; [unfold vw; by rewrite I2, I3|].
      destruct (decide (u = prev)) as [->|]; [unfold vw; by rewrite P1, P2, P3|done].
    + intros d Hd. by apply F5.
    + intros k. by rewrite F4, He.
    + intros d. apply requeue_rq.
Qed.

Lemma finish_thr s0 t u : vw (thr (finish_switch s0 t) u) =
  if decide (u = t) then vw (set_on_cpu false (thr s0 t)) else vw (thr s0 u).
Proof.
  unfold finish_switch, thread_put, thread_free. destruct (_ =? TASK_DEAD); [|rewrite thr_upd; by case_decide].
  destruct (_ =? 0); cbn [thr]; rewrite !thr_upd; case_decide; try done; by rewrite decide_True.
Qed.

Lemma finish_cpus s0 t : cpus (finish_switch s0 t) = cpus s0 ∧ nr_cpus_possible (finish_switch s0 t) = nr_cpus_possible s0.
Proof. unfold finish_switch, thread_put. destruct (_ =? TASK_DEAD); [|done]. by destruct (_ =? 0). Qed.

Lemma switch_thr s0 a b now u : a ≠ b →
  vw (thr (switch_to s0 c a b now) u) =
    if decide (u = b) then (on_rq (thr s0 b), true, c, state (thr s0 b), prio (thr s0 b))
    else if decide (u = a) then (on_rq (thr s0 a), false, t_cpu (thr s0 a), state (thr s0 a), prio (thr s0 a))
    else vw (thr s0 u).
Proof.
  intros Hne. unfold switch_to. rewrite finish_thr. cbn [upd_cpu thr]. rewrite !thr_upd.
  destruct (decide (u = a)) as [->|]; [rewrite !(decide_False (P := a = b)), !decide_True by done; done|].
  destruct (decide (u = b)) as [->|]; [rewrite !decide_False by done; done|done].
Qed.

Lemma vw_inj t o1 o2 d st p : vw t = (o1, o2, d, st, p) →
  on_rq t = o1 ∧ on_cpu t = o2 ∧ t_cpu t = d ∧ state t = st ∧ prio t = p.
Proof. unfold vw. intros [=]. done. Qed.

Lemma schedule_switched now : ∃ s', schedule s c now = Ok s' ∧ switched s'.
Proof.
  destruct picked as (s3 & o & Hp & Hn & F1 & F2 & F3 & (F4 & F5 & F6) & F7 & F8).
  unfold schedule. fold prev. fold s2. rewrite Hp. cbn [obind]. rewrite Hn. 
  destruct (next =? prev) eqn:E.
  - apply Z.eqb_eq in E. exists s3. split; [done|]. destruct prev_facts as (P1 & P2 & P3). split; auto.
    + intros u. rewrite F2. destruct (decide (u = next)); [by rewrite E, P1|]. by rewrite !decide_False by congruence.
    + by rewrite E.
  - apply Z.eqb_neq in E. eexists. split; [done|].
    pose proof (F2 next) as Fn. rewrite decide_True in Fn by done. apply vw_inj in Fn as (N1 & N2 & N3 & N4 & N5).
    pose proof (F2 prev) as Fp. rewrite decide_False, decide_True in Fp by done. apply vw_inj in Fp as (O1 & O2 & O3 & O4 & O5).
    destruct (finish_cpus (upd_cpu (upd_thr (upd_thr s3 prev (switched_out now)) next (switched_in now c)) c
      (λ r, set_curr next (set_ctx_switches (ctx_switches r ⊕ 1) r))) prev) as [G1 G2].
    assert (∀ d, cpus (switch_to s3 c prev next now) d =
      if decide (d = c) then set_curr next (set_ctx_switches (ctx_switches (cpus s3 c) ⊕ 1) (cpus s3 c)) else cpus s3 d) as Hcp.
    { intros d. unfold switch_to. rewrite G1, cpus_upd. done. }
    assert (∀ u, vw (thr (switch_to s3 c prev next now) u) =
      if decide (u = next) then (false, true, c, state (thr s next), prio (thr s next))
      else if decide (u = prev) then (runnable s c, false, c, state (thr s prev), prio (thr s prev)) else vw (thr s u)) as Hth.
    { intros u. rewrite switch_thr by done. rewrite N1, N4, N5, O1, O3, O4, O5, F2.
      destruct (decide (u = next)); [done|]. destruct (decide (u = prev)); done. }
    split.
    + unfold switch_to. by rewrite G2.
    + exact Hth.
    + intros d Hd. rewrite Hcp, decide_False by done. auto.
    + rewrite Hcp, decide_True by done. done.
    + intros k. rewrite Hcp, decide_True by done. apply F7.
    + intros d Hd. apply (rq_ok_frame s3); [| | | |auto].
      1-3: rewrite Hcp; case_decide as Ed; [by rewrite Ed|done].
      intros u. pose proof (F2 u) as Fu. pose proof (Hth u) as Hu.
      destruct (decide (u = next)) as [->|]; [|destruct (decide (u = prev)) as [->|]].
      * apply vw_inj in Fu as (-> & _). apply vw_inj in Hu as (-> & _). done.
      * apply vw_inj in Fu as (-> & _ & -> & _ & ->). apply vw_inj in Hu as (-> & _ & -> & _ & ->). done.
      * rewrite <-Fu in Hu. apply vw_inj in Hu as (-> & _ & -> & _ & ->). done.
Qed.

Lemma next_facts : t_cpu (thr s next) = c ∧ (next = idle (cpus s c) ∨ ¬ is_idle s next ∧ state (thr s next) = TASK_RUNNING).
Proof.
  destruct (run_idle _ (so_run _ Hok) c Hc) as (I1 & I2 & I3). destruct prev_facts as (P1 & P2 & P3).
  destruct requeue_fields as (_ & _ & F3 & _). destruct pick_spec as (s3 & o & Hp & Ho & Hs3).
  unfold next. rewrite <-Ho. destruct o as [t|]; simpl; [|split; [done|by left]].
  destruct Hs3 as (_ & T1 & T2). pose proof (F3 t) as Ft.
  destruct (decide (t = prev)) as [->|Hne].
  - split; [done|]. destruct (runnable s c) eqn:Er; [right; split; [by apply prev_idle|]|].
    + unfold runnable in Er. apply andb_true_iff in Er as [Er _]. by apply Z.eqb_eq in Er.
    + rewrite bool_decide_true in Ft by done. simpl in Ft. unfold vw in Ft. injection Ft as E1 _ _ _ _. congruence.
  - rewrite bool_decide_false in Ft by done. simpl in Ft. unfold vw in Ft. injection Ft as E1 _ E3 _ _.
    split; [congruence|right]. split; [|apply (run_state _ (so_run _ Hok)); congruence].
    intros (d & Hd & E). destruct (run_idle _ (so_run _ Hok) d Hd) as (_ & J & _). rewrite E in J. congruence.
Qed.

Lemma switched_ok s' : switched s' → sched_ok s'.
Proof.
  intros [S1 S2 S3 (S4 & S5 & S6) S7 S8]. destruct (Hok) as [_ [R1 R2 R3 R4 R5 R6]].
  destruct prev_facts as (P1 & P2 & P3). destruct next_facts as [N1 N2].
  assert (∀ d, valid_cpu s' d ↔ valid_cpu s d) as Hv by (intros d; unfold valid_cpu; by rewrite S1).
  assert (∀ d, idle (cpus s' d) = idle (cpus s d)) as Hidle.
  { intros d. destruct (decide (d = c)) as [->|]; [done|by rewrite S3]. }
  assert (∀ u, t_cpu (thr s' u) = t_cpu (thr s u) ∧ state (thr s' u) = state (thr s u) ∧ prio (thr s' u) = prio (thr s u)) as Hsame.
  { intros u. pose proof (S2 u) as Hu. destruct (decide (u = next)) as [->|]; [|destruct (decide (u = prev)) as [->|]];
      apply vw_inj in Hu as (_ & _ & -> & -> & ->); done. }
  split; [intros d Hd%Hv; by apply S8|]. split.
  - intros d Hd%Hv. destruct (decide (d = c)) as [->|Hd'].
    + rewrite S4. pose proof (S2 next) as Hu. rewrite decide_True in Hu by done. apply vw_inj in Hu as (_ & -> & -> & _). done.
    + rewrite S3 by done. destruct (R1 d Hd) as [E1 E2]. pose proof (S2 (curr (cpus s d))) as Hu.
      rewrite !decide_False in Hu by congruence. by apply vw_inj in Hu as (_ & -> & -> & _).
  - intros u. destruct (Hsame u) as (-> & _ & _). pose proof (S2 u) as Hu.
    destruct (decide (u = next)) as [->|]; [apply vw_inj in Hu as (-> & -> & _); rewrite N1; done|].
    destruct (decide (u = prev)) as [->|]; [by apply vw_inj in Hu as (_ & -> & _)|].
    apply vw_inj in Hu as (-> & -> & _). intros Ho. destruct (R2 u Ho) as [E1 E2]. split; [done|].
    rewrite S3; [done|]. intros E. rewrite E in E2. done.
  - intros d Hd%Hv. rewrite Hidle. destruct (Hsame (idle (cpus s d))) as (-> & -> & _). destruct (R3 d Hd) as (E1 & E2 & E3).
    split_and!; [done| |done]. pose proof (S2 (idle (cpus s d))) as Hu.
    destruct (decide (_ = next)); [by apply vw_inj in Hu as (-> & _)|].
    destruct (decide (idle (cpus s d) = prev)) as [E|]; [|by apply vw_inj in Hu as (-> & _)].
    apply vw_inj in Hu as (-> & _). destruct (runnable s c) eqn:Er; [|done]. exfalso. apply (prev_idle Er). by exists d.
  - intros u. destruct (Hsame u) as (_ & -> & _). pose proof (S2 u) as Hu.
    destruct (decide (u = next)) as [->|]; [by apply vw_inj in Hu as (-> & _)|].
    destruct (decide (u = prev)) as [->|]; apply vw_inj in Hu as (-> & _); [|auto].
    unfold runnable. intros [E%Z.eqb_eq _]%andb_true_iff. done.
  - intros u Hu. destruct (Hsame u) as (_ & _ & ->). apply R5. intros (d & Hd & E). apply Hu. exists d. by rewrite Hv, Hidle.
  - intros u. destruct (Hsame u) as (-> & _). apply Hv, R6.
Qed.

End Schedule.

Lemma schedule_spec s c now :
  sched_ok s → valid_cpu s c → ∃ s', schedule s c now = Ok s' ∧ sched_ok s' ∧ switched s c s'.
Proof.
  intros H Hc. destruct (schedule_switched s c H Hc now) as (s' & Hs & Hsw). exists s'.
  split_and!; [done|by apply (switched_ok s c)|done].
Qed.

(** ** The other operations *)

Lemma set_timeslice_ok s t v : sched_ok s → sched_ok (upd_thr s t (set_timeslice v)).
Proof. apply frame_ok. by apply frame_upd_thr. Qed.

Lemma tick_ok s c user : sched_ok s → sched_ok (scheduler_tick s c user).
Proof.
  intros H. unfold scheduler_tick.
  set (s1 := if (c =? 0) && (ticks (cpus s c) `mod` (5 * HZ) =? 0) then calc_load s else s). assert (sched_ok s1) as H1.
  { unfold s1. destruct (_ && _); [|done]. apply (frame_ok s); [|done].
    unfold calc_load. destruct (load_avg s) as [[? ?] ?]. split; [done..|]. intros u. split_and!; auto. }
  clearbody s1. set (s2 := upd_cpu s1 c _). assert (sched_ok s2) as H2 by (by apply (frame_ok s1), H1; apply frame_upd_cpu).
  clearbody s2. destruct (_ =? idle _).
  - assert (∀ f, (∀ r, runqueue (f r) = runqueue r ∧ rq_bitmap (f r) = rq_bitmap r ∧ nr_running (f r) = nr_running r ∧
        curr (f r) = curr r ∧ idle (f r) = idle r) → ∀ x, sched_ok x → sched_ok (upd_cpu x c f)) as Hf
      by (intros f Hf x Hx; apply (frame_ok x); [by apply frame_upd_cpu|done]).
    destruct (negb _); [apply Hf; [done|]|]; by apply Hf.
  - set (s3 := upd_thr s2 _ _). assert (sched_ok s3) as H3 by (apply (frame_ok s2), H2; by apply frame_upd_thr).
    clearbody s3. destruct (negb _); [|done]. set (s4 := upd_thr s3 _ _).
    assert (sched_ok s4) as H4 by (apply (frame_ok s3), H3; by apply frame_upd_thr). clearbody s4.
    destruct (_ <=? 0); [|done]. destruct (_ && _); [|by apply set_timeslice_ok, set_timeslice_ok].
    apply (frame_ok (upd_thr s4 (curr (cpus s1 c)) (set_timeslice 0))); [by apply frame_upd_cpu|by apply set_timeslice_ok].
Qed.

Lemma compute_prio_valid pol rt nice : policy_error pol rt = false → valid_prio (compute_prio pol rt nice).
Proof.
  unfold policy_error, compute_prio, valid_prio, NR_PRIO, CLAMP, PRIO_RT_LOWEST, PRIO_IDLE, PRIO_NORMAL.
  destruct (_ || _); [|repeat case_match; lia]. intros H. zbool.
  assert (0 ≤ Z.quot ((rt - 1) * 23) 98 ≤ 23); [|lia].
  rewrite Z.quot_div_nonneg by lia. split; [apply Z.div_pos; lia|]. apply Z.div_le_upper_bound; lia.
Qed.

Lemma dequeue_ok s t :
  sched_ok s → on_rq (thr s t) = true → sched_ok (dequeue s (t_cpu (thr s t)) t).
Proof.
  intros [Hrq [R1 R2 R3 R4 R5 R6]] Hon. set (c := t_cpu (thr s t)). pose proof (R6 t) as Hc. fold c in Hc.
  assert (∀ d, curr (cpus (dequeue s c t) d) = curr (cpus s d) ∧ idle (cpus (dequeue s c t) d) = idle (cpus s d)) as Hci.
  { intros d. destruct (decide (d = c)) as [->|]; [by destruct (dequeue_cpu s c t) as (_ & _ & _ & -> & ->)|by rewrite dequeue_cpus]. }
  assert (∀ u, thr (dequeue s c t) u = if decide (u = t) then set_on_rq false (thr s t) else thr s u) as Ht by apply dequeue_thr.
  assert (∀ u, on_cpu (thr (dequeue s c t) u) = on_cpu (thr s u) ∧ t_cpu (thr (dequeue s c t) u) = t_cpu (thr s u) ∧
    state (thr (dequeue s c t) u) = state (thr s u) ∧ prio (thr (dequeue s c t) u) = prio (thr s u) ∧
    (on_rq (thr (dequeue s c t) u) = true → on_rq (thr s u) = true)) as Hs.
  { intros u. rewrite Ht. destruct (decide (u = t)) as [->|]; done. }
  split; [intros d Hd; apply dequeue_rq; auto|]. split.
  - intros d Hd. destruct (Hci d) as [-> _]. destruct (Hs (curr (cpus s d))) as (-> & -> & _). auto.
  - intros u. destruct (Hs u) as (-> & -> & _ & _ & G). destruct (Hci (t_cpu (thr s u))) as [-> _]. intros Ho.
    destruct (R2 u Ho) as [E ?]. split; [|done]. destruct (on_rq (thr (dequeue s c t) u)); [|done]. rewrite G in E; done.
  - intros d Hd. destruct (Hci d) as [_ ->]. destruct (Hs (idle (cpus s d))) as (_ & -> & -> & _ & G).
    destruct (R3 d Hd) as (E1 & E2 & E3). split_and!; [done| |done].
    destruct (on_rq (thr (dequeue s c t) _)); [|done]. rewrite G in E2; done.
  - intros u. destruct (Hs u) as (_ & _ & -> & _ & G). auto.
  - intros u Hu. destruct (Hs u) as (_ & _ & _ & -> & _). apply R5. intros (d & Hd & E). apply Hu. exists d.
    destruct (Hci d) as [_ ->]. done.
  - intros u. destruct (Hs u) as (_ & -> & _). apply R6.
Qed.

Lemma sched_setscheduler_spec s t pol rt s' r :
  sched_ok s → ¬ is_idle s t → sched_setscheduler s t pol rt = (s', r) →
  sched_ok s' ∧ (r = 0 ∨ r = - EINVAL ∧ s' = s) ∧
  (r = 0 → policy (thr s' t) = pol ∧ prio (thr s' t) = compute_prio pol rt (nice (thr s t)) ∧ on_rq (thr s' t) = on_rq (thr s t)).
Proof.
  intros H Hi. unfold sched_setscheduler. destruct (policy_error pol rt) eqn:Epe.
  { intros; simplify_eq. split_and!; [done|by right|done]. }
  set (c := t_cpu (thr s t)). destruct (on_rq (thr s t)) eqn:Eon; cbn [andb].
  - pose proof (dequeue_ok s t H Eon) as H1. fold c in H1. set (s1 := dequeue s c t) in *.
    assert (thr s1 t = set_on_rq false (thr s t)) as E1 by (unfold s1; rewrite dequeue_thr; by rewrite decide_True).
    set (s2 := upd_thr s1 t (set_sched pol rt)).
    assert (thr s2 t = set_sched pol rt (set_on_rq false (thr s t))) as E2 by (unfold s2; by rewrite thr_upd, decide_True, E1).
    assert (sched_ok s2) as H2.
    { apply (frame_ok s1); [|done]. apply frame_upd_thr; [done|by rewrite E1|done|]. intros _. by apply compute_prio_valid. }
    assert (¬ is_idle s2 t) as Hi2.
    { intros (d & Hd & E). apply Hi. exists d. split; [done|]. rewrite <-E. unfold s2, s1, upd_thr. cbn [cpus].
      destruct (decide (d = c)) as [->|]; [by destruct (dequeue_cpu s c t) as (_ & _ & _ & _ & ->)|by rewrite dequeue_cpus]. }
    assert (sched_ok (enqueue s2 c t false)) as H3.
    { apply enqueue_run; try done; [exact (run_cpu _ (so_run _ H) t)| | |]; rewrite E2; try done.
      - unfold set_sched. cbn [set_prio set_rt_priority set_policy set_on_rq on_cpu].
        destruct (on_cpu (thr s t)) eqn:Eo; [|done]. destruct (run_on _ (so_run _ H) t Eo). congruence.
      - exact (run_state _ (so_run _ H) t Eon). }
    assert (thr (enqueue s2 c t false) t = set_t_cpu c (set_on_rq true (thr s2 t))) as E3 by (rewrite enqueue_thr; by rewrite decide_True).
    intros [= <- <-]. split; [case_match; [by apply resched_ok|done]|]. split; [by left|]. intros _.
    case_match; unfold resched_cpu, upd_cpu; cbn [thr]; rewrite E3, E2; done.
  - intros [= <- <-]. assert (frame s (upd_thr s t (set_sched pol rt))) as Hf.
    { apply frame_upd_thr; [done|congruence|done|]. intros _. by apply compute_prio_valid. }
    split; [by apply (frame_ok s)|]. split; [by left|]. intros _. rewrite thr_upd, decide_True by done. done.
Qed.

Lemma sched_set_nice_ok s t n : sched_ok s → ¬ is_idle s t → sched_ok (sched_set_nice s t n).
Proof.
  intros H Hi. unfold sched_set_nice. set (s1 := upd_thr s t _).
  assert (frame s s1) as Hf by (by apply frame_upd_thr). assert (sched_ok s1) as H1 by (by apply (frame_ok s)).
  case_match; [|done]. destruct (sched_setscheduler s1 t _ 0) as [s' r] eqn:E.
  apply sched_setscheduler_spec in E as (? & _); [done|done|]. by rewrite (frame_idle s s1).
Qed.

Lemma thread_alloc_ok s c new :
  sched_ok s → valid_cpu s c → on_rq (thr s new) = false → on_cpu (thr s new) = false → ¬ is_idle s new →
  sched_ok (thread_alloc s c new).
Proof.
  intros H Hc Hr Ho Hi. apply (frame_ok s); [|done]. split; [done|done|]. intros u. unfold thread_alloc. cbn [thr].
  rewrite thr_upd. case_decide as E; [|split_and!; auto]. rewrite E. split_and!; try done; [right; done|congruence].
Qed.

(** ** Start *)

Definition zero_thread : thread := Thread 0 false false 0 0 0 0 0 0 0 0 (Account 0 0 0 0 0).
Definition zero_cpu : cpu := Cpu false 0 0 (λ _, []) 0 0 false 0 0 0.

(** [n] CPUs after [sched_cpu_init] on each; the idle thread of [c] is at [c + 1]. *)
Definition boot (n : Z) : sys :=
  foldl (λ s c, sched_cpu_init s c (c + 1)) (Sys (λ _, zero_thread) (λ _, zero_cpu) n (0, 0, 0) []) (seqZ 0 n).

Lemma boot_fields n :
  0 ≤ n → nr_cpus_possible (boot n) = n ∧
  (∀ c, 0 ≤ c < n → cpus (boot n) c = Cpu false (c + 1) (c + 1) (λ _, []) 0 0 false 0 0 0) ∧
  (∀ u, thr (boot n) u = if decide (1 ≤ u ≤ n) then idle_thread (u - 1) else zero_thread).
Proof.
  intros Hn. unfold boot. assert (∀ k, (k ≤ Z.to_nat n)%nat →
    let s := foldl (λ s c, sched_cpu_init s c (c + 1)) (Sys (λ _, zero_thread) (λ _, zero_cpu) n (0, 0, 0) []) (seqZ 0 (Z.of_nat k)) in
    nr_cpus_possible s = n ∧
    (∀ c, cpus s c = if decide (0 ≤ c < Z.of_nat k) then Cpu false (c + 1) (c + 1) (λ _, []) 0 0 false 0 0 0 else zero_cpu) ∧
    (∀ u, thr s u = if decide (1 ≤ u ≤ Z.of_nat k) then idle_thread (u - 1) else zero_thread)) as H.
  { induction k as [|k IH]; intros Hk; cbn zeta.
    { split_and!; [done|intros c|intros u]; cbn [seqZ foldl seq fmap cpus thr]; rewrite decide_False by lia; done. }
    rewrite seqZ_S, foldl_app, Z.add_0_l. cbn [foldl]. destruct IH as (I1 & I2 & I3); [lia|].
    set (s := foldl _ _ _) in *. clearbody s. unfold sched_cpu_init. split_and!; [done| |].
    - intros c. rewrite cpus_upd. cbn [upd_thr cpus]. rewrite !cpus_upd. destruct (decide (c = Z.of_nat k)) as [->|Hne].
      + rewrite !decide_True, I2, decide_False by lia. done.
      + rewrite I2. repeat case_decide; try lia; done.
    - intros u. cbn [upd_cpu thr]. rewrite thr_upd. cbn [upd_cpu thr]. rewrite I3.
      repeat case_decide; subst; try lia; try done. by rewrite Z.add_simpl_r. }
  destruct (H (Z.to_nat n)) as (H1 & H2 & H3); [done|]. rewrite Z2Nat.id in H1, H2, H3 by done.
  split_and!; [done|intros c Hc; rewrite H2; by rewrite decide_True|done].
Qed.

Lemma boot_ok n : 0 < n → sched_ok (boot n).
Proof.
  intros Hn. destruct (boot_fields n) as (B1 & B2 & B3); [lia|].
  assert (∀ c, valid_cpu (boot n) c ↔ 0 ≤ c < n) as Hv by (intros c; unfold valid_cpu; by rewrite B1).
  assert (∀ u, on_rq (thr (boot n) u) = false) as Hr by (intros u; rewrite B3; by case_decide).
  split; [intros c Hc%Hv|split].
  - split; rewrite ?B2 by done; cbn [runqueue rq_bitmap nr_running];
      [by intros p t ?%elem_of_nil|by intros t; rewrite Hr|intros; apply NoDup_nil_2|intros; apply Z.testbit_0_l|done|done].
  - intros c Hc%Hv. rewrite B2 by done. cbn [curr]. rewrite B3, decide_True by lia. cbn. split; [done|lia].
  - intros t. rewrite Hr. rewrite B3. case_decide; [|done]. intros _. split; [done|]. cbn [t_cpu idle_thread].
    rewrite B2 by lia. cbn [curr]. lia.
  - intros c Hc%Hv. rewrite B2 by done. cbn [idle]. rewrite B3, decide_True by lia. cbn. split_and!; [done..|lia].
  - intros t. by rewrite Hr.
  - intros t Ht. rewrite B3. case_decide; [|by split]. exfalso. apply Ht. exists (t - 1). split; [apply Hv; lia|].
    rewrite B2 by lia. cbn [idle]. lia.
  - intros t. apply Hv. rewrite B3. case_decide; cbn; lia.
Qed.

(** ** Steps of the system

    What the kernel does to the scheduler, by the sections under a lock: both
    halves of a wake-up, a new thread, a switch or a tick on a CPU, a change of
    policy, a CPU that starts, and the current thread of a CPU setting its own
    state before it blocks or exits.  [W] holds the threads that are between the
    two halves: they are runnable, but neither queued nor on a CPU.  The CPU
    that such a thread goes to was selected at some earlier time.  A change of
    policy is one step, which it is unless the thread is in [W]: then the lock
    that it takes is not that of the second half ([setscheduler_race]). *)

Definition waking (s : sys) (t : Z) : Prop :=
  state (thr s t) = TASK_RUNNING ∧ on_rq (thr s t) = false ∧ on_cpu (thr s t) = false ∧ ¬ is_idle s t.

Inductive sched_step : sys * gset Z → sys * gset Z → Prop :=
  | step_wake s W t mask s' b more : wake_locked s t mask = (s', b, more) →
      sched_step (s, W) (s', if more then {[t]} ∪ W else W)
  | step_activate s W t c : t ∈ W → valid_cpu s c → sched_step (s, W) (activate_on s t c, W ∖ {[t]})
  | step_alloc s W c t : valid_cpu s c → on_rq (thr s t) = false → on_cpu (thr s t) = false → ¬ is_idle s t → t ∉ W →
      sched_step (s, W) (thread_alloc s c t, W)
  | step_new s W t : on_rq (thr s t) = false → on_cpu (thr s t) = false → ¬ is_idle s t → t ∉ W →
      sched_step (s, W) (upd_thr s t (set_state TASK_RUNNING), {[t]} ∪ W)
  | step_schedule s W c now s' : valid_cpu s c → schedule s c now = Ok s' → sched_step (s, W) (s', W)
  | step_yield s W c now s' : valid_cpu s c → yield s c now = Ok s' → sched_step (s, W) (s', W)
  | step_tick s W c user : sched_step (s, W) (scheduler_tick s c user, W)
  | step_setscheduler s W t pol rt : ¬ is_idle s t → t ∉ W → sched_step (s, W) ((sched_setscheduler s t pol rt).1, W)
  | step_nice s W t n : ¬ is_idle s t → t ∉ W → sched_step (s, W) (sched_set_nice s t n, W)
  | step_online s W c : sched_step (s, W) (upd_cpu s c set_online, W)
  | step_block s W c st : valid_cpu s c → curr (cpus s c) ≠ idle (cpus s c) →
      sched_step (s, W) (upd_thr s (curr (cpus s c)) (set_state st), W).

Lemma sched_add_new_ok s t :
  sched_ok s → on_rq (thr s t) = false → on_cpu (thr s t) = false → ¬ is_idle s t → sched_ok (sched_add_new s t).
Proof.
  intros H Hr Ho Hi. unfold sched_add_new. set (s1 := upd_thr s t _).
  assert (thr s1 t = set_state TASK_RUNNING (thr s t)) as E by (unfold s1; by rewrite thr_upd, decide_True).
  apply activate_ok; try (by rewrite E); [|done]. apply (frame_ok s); [|done]. apply frame_upd_thr; try done. congruence.
Qed.

Lemma curr_not_idle s c : sched_ok s → valid_cpu s c → curr (cpus s c) ≠ idle (cpus s c) → ¬ is_idle s (curr (cpus s c)).
Proof.
  intros H Hc Hne (d & Hd & E). destruct (run_curr _ (so_run _ H) c Hc) as [_ E1].
  destruct (run_idle _ (so_run _ H) d Hd) as (_ & _ & E2). rewrite E in E2. congruence.
Qed.

(** ** Threads between the halves of a wake-up *)

(** The state of [u] is the same and so are the idle threads. *)
Definition leaves (s s' : sys) (u : Z) : Prop :=
  state (thr s' u) = state (thr s u) ∧ on_rq (thr s' u) = on_rq (thr s u) ∧ on_cpu (thr s' u) = on_cpu (thr s u) ∧
  nr_cpus_possible s' = nr_cpus_possible s ∧ ∀ c, idle (cpus s' c) = idle (cpus s c).

Lemma leaves_waking s s' u : leaves s s' u → waking s u → waking s' u.
Proof.
  intros (K1 & K2 & K3 & K4 & K5) (W1 & W2 & W3 & W4). split_and!; try congruence. intros (c & Hc & E). apply W4.
  exists c. unfold valid_cpu in *. rewrite <-K4. split; [done|congruence].
Qed.
Lemma leaves_trans s1 s2 s3 u : leaves s1 s2 u → leaves s2 s3 u → leaves s1 s3 u.
Proof. intros (?&?&?&?&E) (?&?&?&?&E'). split_and!; try congruence. Qed.
Lemma leaves_upd_cpu s c f u : (∀ r, idle (f r) = idle r) → leaves s (upd_cpu s c f) u.
Proof. intros Hf. split_and!; try done. intros d. rewrite cpus_upd. case_decide as E; [by rewrite E, Hf|done]. Qed.
Lemma leaves_upd_thr s t f u :
  (u = t → state (f (thr s t)) = state (thr s t) ∧ on_rq (f (thr s t)) = on_rq (thr s t) ∧ on_cpu (f (thr s t)) = on_cpu (thr s t)) →
  leaves s (upd_thr s t f) u.
Proof. intros Hf. unfold leaves. rewrite thr_upd. case_decide as E; [subst; destruct Hf as (?&?&?); done|done]. Qed.
Lemma leaves_other s t f u : u ≠ t → leaves s (upd_thr s t f) u.
Proof. intros Hu. by apply leaves_upd_thr. Qed.
Lemma leaves_enqueue s c t h u : u ≠ t → leaves s (enqueue s c t h) u.
Proof. intros Hu. unfold enqueue. eapply leaves_trans; [|by apply leaves_other]. by apply leaves_upd_cpu. Qed.
Lemma leaves_activate s t c u : u ≠ t → leaves s (activate_on s t c) u.
Proof. intros Hu. unfold activate_on. case_match; [|by apply leaves_enqueue]. eapply leaves_trans; [by apply leaves_enqueue|]. by apply leaves_upd_cpu. Qed.
Lemma leaves_dequeue s c t u : u ≠ t → leaves s (dequeue s c t) u.
Proof.
  intros Hu. unfold dequeue. eapply leaves_trans; [|by apply leaves_other]. eapply leaves_trans; [|by apply leaves_upd_cpu].
  eapply leaves_trans; [|apply leaves_upd_cpu; intros r; by case_match]. by apply leaves_upd_cpu.
Qed.
Lemma leaves_setscheduler s t pol rt u : u ≠ t → leaves s (sched_setscheduler s t pol rt).1 u.
Proof.
  intros Hu. unfold sched_setscheduler. destruct (policy_error pol rt); [done|]. cbn [fst]. set (c := t_cpu _).
  destruct (on_rq (thr s t)); cbn [andb]; [|by apply leaves_other].
  assert (leaves s (enqueue (upd_thr (dequeue s c t) t (set_sched pol rt)) c t false) u) as H.
  { eapply leaves_trans; [by apply leaves_dequeue|]. eapply leaves_trans; [by apply leaves_other|by apply leaves_enqueue]. }
  case_match; [|done]. eapply leaves_trans; [exact H|by apply leaves_upd_cpu].
Qed.
Lemma leaves_nice s t n u : u ≠ t → leaves s (sched_set_nice s t n) u.
Proof.
  intros Hu. unfold sched_set_nice. case_match; [|by apply leaves_other].
  eapply leaves_trans; [by apply leaves_other|by apply leaves_setscheduler].
Qed.
Lemma leaves_tick s c user u : leaves s (scheduler_tick s c user) u.
Proof.
  unfold scheduler_tick. set (s1 := if _ && _ then calc_load s else s).
  assert (leaves s s1 u) as K1 by (unfold s1, calc_load; destruct (load_avg s) as [[? ?] ?]; by destruct (_ && _)). clearbody s1.
  eapply leaves_trans; [exact K1|]. eapply leaves_trans; [by apply (leaves_upd_cpu s1 c (λ r, set_ticks (ticks r ⊕ 1) r))|]. set (s2 := upd_cpu s1 c _). clearbody s2.
  set (t := curr (cpus s1 c)). clearbody t. destruct (t =? idle (cpus s2 c)).
  - eapply leaves_trans; [by apply (leaves_upd_cpu s2 c (λ r, set_idle_ticks (idle_ticks r ⊕ 1) r))|]. case_match; [by apply leaves_upd_cpu|done].
  - eapply leaves_trans; [by apply (leaves_upd_thr s2 t (charge_tick user))|]. set (s3 := upd_thr s2 t _). clearbody s3. case_match; [|done].
    eapply leaves_trans; [by apply (leaves_upd_thr s3 t (λ r, set_timeslice (timeslice r - 1) r))|]. set (s4 := upd_thr s3 t _). clearbody s4. case_match; [|done].
    eapply leaves_trans; [by apply (leaves_upd_thr s4 t (set_timeslice 0))|]. case_match; [by apply leaves_upd_cpu|by apply leaves_upd_thr].
Qed.

(** A switch does not touch a thread that is neither queued nor on a CPU. *)
Lemma leaves_schedule s c now s' u : sched_ok s → valid_cpu s c → schedule s c now = Ok s' → waking s u → leaves s s' u.
Proof.
  intros H Hc Hs (W1 & W2 & W3 & W4). destruct (schedule_spec s c now H Hc) as (s2 & E & _ & Hsw). rewrite Hs in E. injection E as <-.
  pose proof Hsw as [S1 S2 S3 (S4 & S5 & _) S6 S7]. destruct (prev_facts s c H Hc) as (P1 & _). pose proof (S2 u) as Hu.
  assert (u ≠ curr (cpus s c)) as N1 by (intros ->; congruence).
  assert (u ≠ default (idle (cpus s c)) (best (ready s c))) as N2.
  { intros En. destruct (next_facts s c H Hc) as [_ Hn]. rewrite <-En in Hn. destruct Hn as [->|_]; [apply W4; by exists c|].
    destruct (best (ready s c)) as [b|] eqn:Eb; simpl in En; [|apply W4; by exists c]. subst b.
    destruct (pick_spec s c H Hc) as (s3 & o & _ & Ho & Hp). rewrite Eb in Ho. subst o. destruct Hp as (_ & Hr & _).
    destruct (requeue_fields s c H Hc) as (_ & _ & F3 & _). pose proof (F3 u) as Fu. rewrite bool_decide_false in Fu by done. cbn [andb] in Fu.
    unfold vw in Fu. injection Fu as Fr _ _ _ _. congruence. }
  rewrite !decide_False in Hu by done. unfold vw in Hu. injection Hu as U1 U2 _ U4 _. split_and!; try done.
  intros d. destruct (decide (d = c)) as [->|Hd]; [done|by rewrite S3].
Qed.

Definition wsys_ok (x : sys * gset Z) : Prop := sched_ok x.1 ∧ ∀ t, t ∈ x.2 → waking x.1 t.

Lemma wake_step_ok s W t mask s' b more :
  wake_locked s t mask = (s', b, more) → wsys_ok (s, W) → wsys_ok (s', if more then {[t]} ∪ W else W).
Proof.
  unfold wake_locked. intros E [H HW]. cbn [fst snd] in H, HW. destruct (Z.land _ _ =? 0) eqn:El; [by injection E as <- <- <-|].
  injection E as <- <- <-. assert (state (thr s t) ≠ TASK_RUNNING) as Hst by (intros Hx; by rewrite Hx in El).
  destruct (wake_state_ok s t H Hst) as [H1 Hi]. split; [done|]. set (s1 := upd_thr s t _).
  assert (thr s1 t = set_state TASK_RUNNING (thr s t)) as E1 by (unfold s1; by rewrite thr_upd, decide_True). rewrite fn_lookup_insert.
  cbn [set_state on_rq on_cpu fst snd]. assert (∀ u, u ∈ W → waking s1 u) as HW1.
  { intros u Hu. apply (leaves_waking s); [|by apply HW]. apply leaves_other. intros ->. by destruct (HW t Hu) as (? & _). }
  destruct (on_rq (thr s t)) eqn:Er; [done|]. destruct (on_cpu (thr s t)) eqn:Eo; [done|]. cbn [orb negb]. intros u [->%elem_of_singleton|Hu]%elem_of_union; [|by apply HW1].
  unfold waking. rewrite E1. split_and!; try done.
Qed.

Lemma step_ok x y : sched_step x y → wsys_ok x → wsys_ok y.
Proof.
  intros Hst [H HW].
  destruct Hst as [s W t mask s' b more E|s W t c Ht Hc|s W c t Hc Hr Ho Hi Ht|s W t Hr Ho Hi Ht|s W c now s' Hc Hs|s W c now s' Hc Hs|s W c user|s W t pol rt Hi Ht|s W t n Hi Ht|s W c|s W c st Hc Hne]; unfold wsys_ok; cbn [fst snd] in H, HW |- *.
  - by apply (wake_step_ok s W t mask s' b).
  - destruct (HW t Ht) as (W1 & W2 & W3 & W4). split; [by apply activate_on_ok|]. intros u [Hu Hne%not_elem_of_singleton]%elem_of_difference.
    apply (leaves_waking s); [by apply leaves_activate|by apply HW].
  - split; [by apply thread_alloc_ok|]. intros u Hu. apply (leaves_waking s); [|by apply HW]. unfold thread_alloc.
    eapply leaves_trans; [apply (leaves_other s t (λ _, new_thread c)); intros ->; done|done].
  - assert (sched_ok (upd_thr s t (set_state TASK_RUNNING))) as H1 by (apply (frame_ok s); [|done]; apply frame_upd_thr; try done; congruence).
    split; [done|]. intros u [->%elem_of_singleton|Hu]%elem_of_union.
    + unfold waking. rewrite thr_upd, decide_True by done. done.
    + apply (leaves_waking s); [|by apply HW]. apply leaves_other. intros ->. done.
  - destruct (schedule_spec s c now H Hc) as (s2 & E & ? & _). rewrite Hs in E. injection E as <-. split; [done|]. intros u Hu.
    apply (leaves_waking s); [by apply (leaves_schedule s c now); auto|by apply HW].
  - unfold yield in Hs. set (s1 := upd_thr s _ _) in Hs. pose proof (set_timeslice_ok s (curr (cpus s c)) 0 H) as H1. fold s1 in H1.
    destruct (schedule_spec s1 c now H1 Hc) as (s2 & E & ? & _). rewrite Hs in E. injection E as <-. split; [done|]. intros u Hu.
    assert (waking s1 u) as Hw1 by (apply (leaves_waking s); [by apply leaves_upd_thr|by apply HW]). apply (leaves_waking s1); [by apply (leaves_schedule s1 c now)|done].
  - split; [by apply tick_ok|]. intros u Hu. apply (leaves_waking s); [apply leaves_tick|by apply HW].
  - destruct (sched_setscheduler s t pol rt) as [s' r] eqn:E. pose proof E as (? & _)%sched_setscheduler_spec; [|done..]. split; [done|]. intros u Hu.
    apply (leaves_waking s); [|by apply HW]. change s' with ((s', r).1). rewrite <-E. apply leaves_setscheduler. intros ->. done.
  - split; [by apply sched_set_nice_ok|]. intros u Hu. apply (leaves_waking s); [apply leaves_nice; intros ->; done|by apply HW].
  - split; [apply (frame_ok s); [by apply frame_upd_cpu|done]|]. intros u Hu. apply (leaves_waking s); [by apply leaves_upd_cpu|by apply HW].
  - destruct (run_curr _ (so_run _ H) c Hc) as [Ho _]. split.
    + apply (frame_ok s); [|done]. apply frame_upd_thr; try done.
      * intros Hr. destruct (run_on _ (so_run _ H) _ Ho). congruence.
      * intros Hi. by apply curr_not_idle in Hne.
    + intros u Hu. apply (leaves_waking s); [|by apply HW]. apply leaves_other. intros ->. destruct (HW _ Hu) as (_ & _ & ? & _). congruence.
Qed.

Lemma steps_ok x y : rtc sched_step x y → wsys_ok x → wsys_ok y.
Proof. induction 1 as [|s s1 s2 Hst _ IH]; [done|]. intros H. apply IH. by apply (step_ok s). Qed.

Lemma wsys_sched s W : wsys_ok (s, W) → sched_ok s.
Proof. by intros [H _]. Qed.
Lemma boot_wsys_ok n : 0 < n → wsys_ok (boot n, ∅).
Proof. intros Hn. split; [by apply boot_ok|]. intros t Ht. by apply not_elem_of_empty in Ht. Qed.

(** C15.  From start-up on, in every order of the sections under a run-queue
    lock (both halves of wake-ups and of starting new threads, switches, yields,
    ticks, changes of policy, CPUs that start, threads that block), as long as a
    change of policy of a thread does not fall between the halves of its wake-up:
    the queues of a CPU hold exactly the threads marked as queued there, each at
    its priority and once; the bitmap has the bits of the non-empty levels; the
    count is the number of queued threads; queued threads are runnable and have
    no CPU; a thread that has a CPU is its current thread; and a thread that was
    woken but is not queued yet is runnable, off the queues and without a CPU. *)
Theorem sched_invariant n s W :
  0 < n → rtc sched_step (boot n, ∅) (s, W) → sched_ok s ∧ ∀ t, t ∈ W → waking s t.
Proof. intros Hn H. exact (steps_ok _ _ H (boot_wsys_ok n Hn)). Qed.

Definition ex_sched : sys := sched_add_new (thread_alloc (boot 2) 0 10) 10.

Lemma ex_not_idle : ¬ is_idle (boot 2) 10.
Proof.
  destruct (boot_fields 2) as (B1 & B2 & _); [lia|]. intros (c & Hc & E). unfold valid_cpu in Hc. rewrite B1 in Hc.
  rewrite B2 in E by done. cbn [idle] in E. lia.
Qed.

Lemma ex_steps : rtc sched_step (boot 2, ∅) (ex_sched, ∅).
Proof.
  destruct (boot_fields 2) as (B1 & _ & B3); [lia|].
  assert (thr (boot 2) 10 = zero_thread) as E by (rewrite B3; by rewrite decide_False by lia).
  set (s1 := thread_alloc (boot 2) 0 10). assert (thr s1 10 = new_thread 0) as E1 by (unfold s1, thread_alloc; cbn [thr]; by rewrite thr_upd, decide_True).
  assert (valid_cpu s1 0) as Hv by (unfold valid_cpu; change (nr_cpus_possible s1) with (nr_cpus_possible (boot 2)); rewrite B1; lia).
  apply (rtc_l _ _ (s1, ∅)); [apply step_alloc; [exact Hv|by rewrite E|by rewrite E|exact ex_not_idle|set_solver]|].
  apply (rtc_l _ _ (upd_thr s1 10 (set_state TASK_RUNNING), {[10]} ∪ ∅)).
  { apply step_new; [by rewrite E1..|exact ex_not_idle|set_solver]. }
  assert (ex_sched = activate_on (upd_thr s1 10 (set_state TASK_RUNNING)) 10 0) as -> by (vm_compute; reflexivity).
  replace (∅ : gset Z) with (({[10]} ∪ ∅) ∖ {[10]} : gset Z) at 2 by set_solver. apply rtc_once, step_activate; [set_solver|exact Hv].
Qed.

Lemma sched_invariant_witness : sched_ok ex_sched ∧ queue ex_sched 0 PRIO_NORMAL = [10].
Proof.
  split; [apply (sched_invariant 2 ex_sched ∅); [lia|exact ex_steps]|vm_compute; reflexivity].
Defined.

(** C16.  [schedule] never finds an empty queue at the level of the bitmap.
    It gives the CPU to the first thread of the best level, the previous
    thread included at its place, and to the idle thread only when nothing
    is runnable; no runnable thread of the CPU has a better priority; the
    other threads keep their order, and the other CPUs are untouched. *)
Theorem schedule_correct s c now :
  sched_ok s → valid_cpu s c → ∃ s', schedule s c now = Ok s' ∧ sched_ok s' ∧
  let next := curr (cpus s' c) in
  next = default (idle (cpus s c)) (best (ready s c)) ∧
  (∀ k, queue s' c k = list_del next (ready s c k)) ∧
  (∀ k t, t ∈ ready s c k → next ≠ idle (cpus s c) ∧ prio (thr s next) ≤ prio (thr s t)) ∧
  need_resched (cpus s' c) = false ∧ (∀ d, d ≠ c → cpus s' d = cpus s d).
Proof.
  intros H Hc. destruct (schedule_spec s c now H Hc) as (s' & E & Hok' & [S1 S2 S3 (S4 & S5 & S6) S7 S8]).
  exists s'. split; [done|]. split; [done|]. cbn zeta. rewrite S4. split; [done|]. split; [done|]. split; [|done].
  intros k t Ht. destruct (requeue_fields s c H Hc) as (_ & _ & F3 & Q & _).
  assert (∀ u, prio (thr (requeue_prev (upd_cpu s c (set_need_resched false)) c) u) = prio (thr s u)) as Hpr.
  { intros u. pose proof (F3 u) as Hu. destruct (bool_decide (u = _) && _) eqn:Eb; apply vw_inj in Hu as (_ & _ & _ & _ & ->); [|done].
    by apply andb_true_iff in Eb as [->%bool_decide_eq_true _]. }
  pose proof (ready_on_rq s c H Hc k t Ht) as (T1 & T2 & Hkt).
  destruct (rq_in _ _ (requeue_rq s c H Hc c Hc) t T1 T2) as [_ Hval]. rewrite Hkt in Hval. rewrite Hpr in Hkt.
  destruct (best_least (ready s c) k t Hval Ht) as (b & p & l & Eb & Ep & Hle). rewrite Eb. simpl.
  assert (b ∈ ready s c p) as Hin by (rewrite Ep; by left).
  pose proof (ready_on_rq s c H Hc p b Hin) as (U1 & _ & Hpb). rewrite Hpr in Hpb. split; [|lia].
  intros ->. destruct (run_idle _ (so_run _ H) c Hc) as (_ & I2 & _). pose proof (F3 (idle (cpus s c))) as Hu.
  destruct (bool_decide _ && _) eqn:Eb'; [|apply vw_inj in Hu as (E1 & _); congruence].
  apply andb_true_iff in Eb' as [E1%bool_decide_eq_true E2]. unfold runnable in E2. rewrite E1, Z.eqb_refl, andb_false_r in E2. done.
Qed.

(** An idle CPU with one thread to run. *)
Lemma ex_sched_ok : sched_ok ex_sched.
Proof.
  exact (wsys_sched _ _ (steps_ok _ _ ex_steps (boot_wsys_ok 2 ltac:(lia)))).
Qed.

Lemma schedule_witness : ∃ s', schedule ex_sched 0 7 = Ok s' ∧ sched_ok s' ∧ curr (cpus s' 0) = 10 ∧ queue s' 0 PRIO_NORMAL = [].
Proof.
  destruct (schedule_correct ex_sched 0 7 ex_sched_ok) as (s' & E & Hok & Hn & Hq & _).
  - unfold valid_cpu. change (nr_cpus_possible ex_sched) with 2. lia.
  - assert (match schedule ex_sched 0 7 with Ok s => (curr (cpus s 0), queue s 0 PRIO_NORMAL) | Panic => (0, []) end = (10, []))
      as Hc by (vm_compute; reflexivity).
    rewrite E in Hc. injection Hc as H1 H2. exists s'. split; [exact E|]. split; [exact Hok|]. split; [exact H1|exact H2].
Defined.

(** A wake-up is not lost.  [try_to_wake_up] reports whether the thread
    was in one of the states of the mask and otherwise does nothing; a woken
    thread is runnable, and it is queued or still has its CPU.  A thread that
    [activate] queues ahead of the current one of its CPU has that CPU
    reschedule. *)
Theorem try_to_wake_up_correct s t mask s' b :
  sched_ok s → try_to_wake_up s t mask = (s', b) →
  sched_ok s' ∧ b = negb (Z.land (state (thr s t)) mask =? 0) ∧ (b = false → s' = s) ∧
  (b = true → state (thr s' t) = TASK_RUNNING ∧
     (on_rq (thr s' t) = true ∧ t ∈ queue s' (t_cpu (thr s' t)) (prio (thr s' t)) ∧
        (on_rq (thr s t) = false → prio (thr s' t) < curr_prio s' (t_cpu (thr s' t)) →
           need_resched (cpus s' (t_cpu (thr s' t))) = true)
      ∨ on_cpu (thr s' t) = true ∧ curr (cpus s' (t_cpu (thr s' t))) = t)).
Proof.
  intros H Hw. destruct (try_to_wake_up_spec s t mask s' b H Hw) as (H1 & H2 & H3 & H4).
  split; [done|]. split; [done|]. split; [done|]. intros ->. destruct (H4 eq_refl) as [Hst Hor]. split; [done|].
  pose proof (so_run _ H1) as HR. apply orb_true_iff in Hor as [Hr|Ho]; [left|right].
  - split; [done|]. split; [by apply (rq_in _ _ (so_rq _ H1 _ (run_cpu _ HR t)))|].
    intros Hoff. rewrite try_to_wake_up_eq in Hw. destruct (_ =? 0); [done|].
    set (s1 := upd_thr s t (set_state TASK_RUNNING)) in *.
    assert (on_rq (thr s1 t) = false) as E1 by (unfold s1; by rewrite thr_upd, decide_True).
    destruct (on_rq (thr s1 t) || on_cpu (thr s1 t)); injection Hw as <- ; [congruence|]. by apply activate_preempts.
  - split; [done|]. by apply (run_on _ HR).
Qed.

Lemma try_to_wake_up_witness :
  sched_ok (thread_alloc (boot 2) 0 10) ∧
  (try_to_wake_up (thread_alloc (boot 2) 0 10) 10 TASK_UNINTERRUPTIBLE).2 = true ∧
  need_resched (cpus (try_to_wake_up (thread_alloc (boot 2) 0 10) 10 TASK_UNINTERRUPTIBLE).1 0) = true.
Proof.
  assert (sched_ok (thread_alloc (boot 2) 0 10)) as H.
  { destruct (boot_fields 2) as (B1 & _ & B3); [lia|]. apply thread_alloc_ok; [apply boot_ok; lia|unfold valid_cpu; rewrite B1; lia| | |exact ex_not_idle];
      rewrite B3; by rewrite decide_False by lia. }
  destruct (try_to_wake_up (thread_alloc (boot 2) 0 10) 10 TASK_UNINTERRUPTIBLE) as [s' b] eqn:E.
  destruct (try_to_wake_up_correct _ _ _ _ _ H E) as (_ & Hb & _ & Hw).
  assert (b = true) as -> by (rewrite Hb; vm_compute; reflexivity).
  split; [exact H|]. split; [reflexivity|]. cbn [fst]. change s' with ((s', true).1). rewrite <-E. vm_compute. reflexivity.
Defined.
