(* ===== verification/SchedLive.v ===== *)
(** * Time slices, and a race of two locks

    Threads of one level that are time-sliced take turns: every waiting
    thread gets the CPU after one slice for each thread before it.  The last
    part shows what happens when a change of policy meets a wake-up. *)

From stdpp Require Import functions.
From S2P Require Import Prelude Sched SchedSpec.

(** One slice: the ticks of a full slice, then the switch they ask for. *)
Fixpoint run_ticks (n : nat) (s : sys) (c : Z) (user : bool) : sys :=
  match n with O => s | S n => run_ticks n (scheduler_tick s c user) c user end.

Definition slice (s : sys) (c now : Z) (user : bool) : outcome sys :=
  cond_resched (run_ticks (Z.to_nat RR_TIMESLICE_TICKS) s c user) c now.

Fixpoint slices (n : nat) (s : sys) (c now : Z) (user : bool) : outcome sys :=
  match n with O => Ok s | S n => let! s := slice s c now user in slices n s c now user end.

(** A thread that takes turns. *)
Definition sharing (s : sys) (p t : Z) : Prop :=
  prio (thr s t) = p ∧ state (thr s t) = TASK_RUNNING ∧ policy (thr s t) ≠ SCHED_FIFO ∧
  timeslice (thr s t) ≤ RR_TIMESLICE_TICKS.

(** [cur] runs on [c] and [q] waits at its level; nothing better waits. *)
Record turn (s : sys) (c p cur : Z) (q : list Z) : Prop := {
  tn_ok : sched_ok s;
  tn_cpu : valid_cpu s c;
  tn_curr : curr (cpus s c) = cur;
  tn_busy : cur ≠ idle (cpus s c);
  tn_queue : queue s c p = q;
  tn_best k : 0 ≤ k < p → queue s c k = [];
  tn_share t : t ∈ cur :: q → sharing s p t;
}.

Lemma cpus_upd_thr s t f : cpus (upd_thr s t f) = cpus s.
Proof. done. Qed.
Lemma thr_upd_cpu s c f : thr (upd_cpu s c f) = thr s.
Proof. done. Qed.
Lemma cpus_upd_eq s c f : cpus (upd_cpu s c f) c = f (cpus s c).
Proof. by rewrite cpus_upd, decide_True. Qed.
Lemma thr_upd_eq s t f : thr (upd_thr s t f) t = f (thr s t).
Proof. by rewrite thr_upd, decide_True. Qed.
Lemma thr_upd_ne s t f u : u ≠ t → thr (upd_thr s t f) u = thr s u.
Proof. intros. by rewrite thr_upd, decide_False. Qed.

(** A tick while another thread of the level waits. *)
Lemma tick_effect s c user cur :
  curr (cpus s c) = cur → cur ≠ idle (cpus s c) → policy (thr s cur) ≠ SCHED_FIFO →
  rq_bitmap (cpus s c) ≠ 0 → ctz (rq_bitmap (cpus s c)) ≤ prio (thr s cur) →
  let s' := scheduler_tick s c user in
  (∀ u, u ≠ cur → thr s' u = thr s u) ∧ nr_cpus_possible s' = nr_cpus_possible s ∧
  curr (cpus s' c) = cur ∧ idle (cpus s' c) = idle (cpus s c) ∧ queue s' c = queue s c ∧
  prio (thr s' cur) = prio (thr s cur) ∧ state (thr s' cur) = state (thr s cur) ∧ policy (thr s' cur) = policy (thr s cur) ∧
  if decide (timeslice (thr s cur) ≤ 1) then need_resched (cpus s' c) = true ∧ timeslice (thr s' cur) = 0
  else need_resched (cpus s' c) = need_resched (cpus s c) ∧ timeslice (thr s' cur) = timeslice (thr s cur) - 1.
Proof.
  intros Hcur Hne Hpol Hb0 Hctz. cbn zeta. unfold scheduler_tick.
  set (s1 := if (c =? 0) && (ticks (cpus s c) `mod` (5 * HZ) =? 0) then calc_load s else s).
  assert (thr s1 = thr s ∧ cpus s1 = cpus s ∧ nr_cpus_possible s1 = nr_cpus_possible s) as (E1 & E2 & E3).
  { unfold s1. destruct (_ && _); [|done]. unfold calc_load. by destruct (load_avg s) as [[? ?] ?]. }
  clearbody s1. rewrite E2, Hcur. set (s2 := upd_cpu s1 c _).
  assert (cpus s2 c = set_ticks (ticks (cpus s c) ⊕ 1) (cpus s c)) as F1 by (unfold s2; by rewrite cpus_upd, decide_True, E2).
  assert (thr s2 = thr s ∧ nr_cpus_possible s2 = nr_cpus_possible s) as [F2 F3] by (unfold s2, upd_cpu; cbn [thr nr_cpus_possible]; by rewrite E1, E3).
  clearbody s2. rewrite F1. cbn [set_ticks idle]. replace (cur =? idle (cpus s c)) with false by (symmetry; by apply Z.eqb_neq).
  rewrite ?cpus_upd_thr, ?thr_upd_eq, F2. cbn [charge_tick set_acct policy timeslice set_timeslice prio].
  replace (policy (thr s cur) =? SCHED_FIFO) with false by (symmetry; by apply Z.eqb_neq). cbn [negb].
  destruct (decide (timeslice (thr s cur) ≤ 1)) as [Hts|Hts].
  - replace (timeslice (thr s cur) - 1 <=? 0) with true by lia.
    rewrite F1. cbn [set_ticks rq_bitmap]. replace (rq_bitmap (cpus s c) =? 0) with false by lia.
    replace (ctz (rq_bitmap (cpus s c)) <=? prio (thr s cur)) with true by lia. cbn [negb andb].
    rewrite ?cpus_upd_eq, ?cpus_upd_thr, ?thr_upd_cpu, ?thr_upd_eq, F1, F2. split_and!; try done.
    intros u Hu. by rewrite !thr_upd_ne, F2.
  - replace (timeslice (thr s cur) - 1 <=? 0) with false by lia.
    rewrite ?cpus_upd_thr, ?thr_upd_eq, F1, F2. split_and!; try done. intros u Hu. by rewrite !thr_upd_ne, F2.
Qed.

Lemma tick_turn s c user p cur q :
  turn s c p cur q → q ≠ [] → let s' := scheduler_tick s c user in
  turn s' c p cur q ∧
  (need_resched (cpus s c) = true ∨ timeslice (thr s cur) ≤ 1 → need_resched (cpus s' c) = true) ∧
  (1 < timeslice (thr s cur) → timeslice (thr s' cur) = timeslice (thr s cur) - 1).
Proof.
  intros [T1 T2 T3 T4 T5 T6 T7] Hq. destruct (T7 cur ltac:(by left)) as (C1 & C2 & C3 & C4).
  pose proof (so_rq _ T1 c T2) as Hrq. pose proof (rq_bits _ _ Hrq) as Hb32.
  assert (valid_prio p) as Hp.
  { destruct q as [|x q]; [done|]. destruct (rq_mem _ _ Hrq p x) as (E1 & E2 & E3); [rewrite T5; by left|].
    destruct (rq_in _ _ Hrq x E2 E3) as [_ ?]. congruence. }
  assert (Z.testbit (rq_bitmap (cpus s c)) p = true) as Hbit.
  { rewrite (rq_bit _ _ Hrq) by done. rewrite T5. by apply bool_decide_true. }
  assert (rq_bitmap (cpus s c) ≠ 0) as Hb0 by (intros E; by rewrite E, Z.testbit_0_l in Hbit).
  assert (ctz (rq_bitmap (cpus s c)) ≤ prio (thr s cur)) as Hctz.
  { destruct (ctz_spec (rq_bitmap (cpus s c))) as (Z1 & Z2 & Z3); [lia|]. rewrite C1.
    destruct (Z.le_gt_cases (ctz (rq_bitmap (cpus s c))) p); [done|]. rewrite Z3 in Hbit; [done|]. unfold valid_prio in Hp. lia. }
  cbn zeta. pose proof (tick_ok s c user T1) as Hok'.
  destruct (tick_effect s c user cur T3 T4 C3 Hb0 Hctz) as (F1 & F2 & F3 & F4 & F5 & F6 & F7 & F8 & F9).
  set (s' := scheduler_tick s c user) in *. split; [|case_decide; destruct F9 as [-> ->]; split; (done || lia || tauto)].
  split; [done|unfold valid_cpu; by rewrite F2|done|by rewrite F4|by rewrite F5|intros; by rewrite F5; apply T6|].
  intros t Ht. unfold sharing. destruct (decide (t = cur)) as [->|Hne].
  - rewrite F6, F7, F8. split_and!; [done..|]. case_decide; destruct F9 as [_ ->]; unfold RR_TIMESLICE_TICKS in *; lia.
  - rewrite F1 by done. by apply T7.
Qed.

Lemma run_ticks_turn n s c user p cur q :
  turn s c p cur q → q ≠ [] → let s' := run_ticks n s c user in
  turn s' c p cur q ∧ (need_resched (cpus s c) = true ∨ (0 < n)%nat ∧ timeslice (thr s cur) ≤ Z.of_nat n → need_resched (cpus s' c) = true).
Proof.
  revert s. induction n as [|n IH]; intros s HT Hq; cbn zeta.
  { split; [done|]. intros [?|[? _]]; [done|lia]. }
  cbn [run_ticks]. destruct (tick_turn s c user p cur q HT Hq) as (H1 & H2 & H3).
  destruct (IH _ H1 Hq) as [I1 I2]. split; [done|]. intros Hor. apply I2.
  destruct (decide (timeslice (thr s cur) ≤ 1)); [left; tauto|]. destruct Hor as [?|[_ ?]]; [left; tauto|].
  right. rewrite H3 by lia. lia.
Qed.

(** A switch keeps policies and starts no slice longer than a full one. *)
Definition keeps (s s' : sys) : Prop :=
  ∀ u, policy (thr s' u) = policy (thr s u) ∧
       (timeslice (thr s u) ≤ RR_TIMESLICE_TICKS → timeslice (thr s' u) ≤ RR_TIMESLICE_TICKS).

#[export] Instance keeps_refl : Reflexive keeps.
Proof. by intros s u. Qed.
#[export] Instance keeps_trans : Transitive keeps.
Proof. intros a b c H1 H2 u. destruct (H1 u), (H2 u). split; [congruence|auto]. Qed.

Lemma keeps_upd_thr s t f :
  policy (f (thr s t)) = policy (thr s t) ∧
  (timeslice (thr s t) ≤ RR_TIMESLICE_TICKS → timeslice (f (thr s t)) ≤ RR_TIMESLICE_TICKS) → keeps s (upd_thr s t f).
Proof. intros H u. rewrite thr_upd. case_decide; [by subst|done]. Qed.

Lemma keeps_finish s t : keeps s (finish_switch s t).
Proof.
  unfold finish_switch. set (s1 := upd_thr s t _). assert (keeps s s1) as H1 by (by apply keeps_upd_thr).
  destruct (_ =? TASK_DEAD); [|done]. etrans; [exact H1|]. unfold thread_put.
  assert (keeps s1 (upd_thr s1 t (λ r, set_refcount (refcount r - 1) r))) as H2 by (by apply keeps_upd_thr).
  by destruct (_ =? 0).
Qed.

Lemma keeps_enqueue s c t h : keeps s (enqueue s c t h).
Proof. intros u. rewrite enqueue_thr. case_decide; [by subst|done]. Qed.

Lemma keeps_dequeue s c t : keeps s (dequeue s c t).
Proof. intros u. rewrite dequeue_thr. case_decide; [by subst|done]. Qed.

Lemma keeps_switch s c a b now : keeps s (switch_to s c a b now).
Proof.
  unfold switch_to. etrans; [|apply keeps_finish]. set (s1 := upd_thr s a _).
  assert (keeps s s1) as H1 by (apply keeps_upd_thr; unfold switched_out; by destruct (_ =? _)).
  assert (keeps s1 (upd_thr s1 b (switched_in now c))) as H2 by (by apply keeps_upd_thr). by etrans.
Qed.

Lemma schedule_keeps s c now s' : schedule s c now = Ok s' → keeps s s'.
Proof.
  unfold schedule. set (prev := curr (cpus s c)). set (s1 := upd_cpu s c _). intros H.
  assert (keeps s1 (requeue_prev s1 c)) as H2.
  { unfold requeue_prev. destruct (_ && _); [|done]. set (s2 := enqueue _ _ _ _).
    assert (keeps s1 s2) as H2 by apply keeps_enqueue. destruct (_ <=? 0); [|done]. etrans; [exact H2|].
    apply keeps_upd_thr. done. }
  set (s2 := requeue_prev s1 c) in *. change (keeps s1 s'). etrans; [exact H2|]. clear H2.
  unfold pick_next in H. destruct (_ =? 0).
  - cbn [obind] in H. destruct (_ =? prev); [by simplify_eq|]. injection H as <-.
    apply keeps_switch.
  - destruct (runqueue _ _) as [|t l]; [done|]. cbn [obind] in H.
    assert (keeps s2 (dequeue s2 c t)) as H3 by apply keeps_dequeue.
    destruct (_ =? prev); [by simplify_eq|]. injection H as <-.
    etrans; [exact H3|]. apply keeps_switch.
Qed.

(** A slice: the next thread runs and the old one goes to the back. *)
Lemma slice_turn s c now user p cur x q :
  turn s c p cur (x :: q) → ∃ s', slice s c now user = Ok s' ∧ turn s' c p x (q ++ [cur]).
Proof.
  intros HT. unfold slice, cond_resched.
  destruct (run_ticks_turn (Z.to_nat RR_TIMESLICE_TICKS) s c user p cur (x :: q) HT ltac:(done)) as [H1 H2].
  rewrite H2 by (right; split; [vm_compute; lia|]; destruct (tn_share _ _ _ _ _ HT cur ltac:(by left)) as (_ & _ & _ & ?);
    unfold RR_TIMESLICE_TICKS in *; lia).
  clear H2 HT. set (s1 := run_ticks _ s c user) in *. clearbody s1.
  destruct H1 as [T1 T2 T3 T4 T5 T6 T7]. destruct (T7 cur ltac:(by left)) as (C1 & C2 & C3 & C4).
  pose proof (so_rq _ T1 c T2) as Hrq.
  destruct (rq_mem _ _ Hrq p x) as (X1 & X2 & X3); [rewrite T5; by left|].
  destruct (rq_in _ _ Hrq x X2 X3) as [_ Hp]. rewrite X1 in Hp.
  assert (runnable s1 c = true) as Hrun.
  { unfold runnable. rewrite T3, C2. cbn. apply negb_true_iff, Z.eqb_neq, T4. }
  assert (∀ k, ready s1 c k = if decide (k = p) then x :: q ++ [cur] else queue s1 c k) as Hready.
  { intros k. unfold ready. rewrite Hrun, T3, C1. replace (policy _ =? SCHED_FIFO) with false by (symmetry; by apply Z.eqb_neq).
    case_decide as Ek; [subst k; rewrite Z.eqb_refl, T5; done|]. by replace (k =? p) with false by lia. }
  assert (best (ready s1 c) = Some x) as Hbest.
  { apply (best_first _ p x (q ++ [cur])); [done|by rewrite Hready, decide_True|]. intros k Hk.
    rewrite Hready, decide_False by lia. by apply T6. }
  destruct (schedule_spec s1 c now T1 T2) as (s' & Hs & Hok' & [S1 S2 S3 (S4 & S5 & S6) S7 S8]).
  exists s'. split; [done|]. rewrite Hbest in S4, S7, S2. change (default (idle (cpus s1 c)) (Some x)) with x in *.
  assert (on_rq (thr s1 cur) = false) as Hoff.
  { destruct (run_curr _ (so_run _ T1) c T2) as [Ho _]. rewrite T3 in Ho. by destruct (run_on _ (so_run _ T1) cur Ho). }
  assert (x ≠ cur) as Hxc by congruence. pose proof (rq_nodup _ _ Hrq p) as Hnd. rewrite T5 in Hnd. apply NoDup_cons in Hnd as [Hxq Hnd].
  split; [done|unfold valid_cpu; by rewrite S1|done| | | |].
  - rewrite S5. intros E. destruct (run_idle _ (so_run _ T1) c T2) as (_ & I & _). congruence.
  - rewrite S7, Hready, decide_True by done. unfold list_del. rewrite filter_cons_False by naive_solver.
    fold (list_del x (q ++ [cur])). apply list_del_notin. rewrite elem_of_app, list_elem_of_singleton. naive_solver.
  - intros k Hk. rewrite S7, Hready, decide_False, T6 by lia. done.
  - intros t Ht. assert (t ∈ cur :: x :: q) as Ht' by (revert Ht; rewrite !elem_of_cons, elem_of_app, list_elem_of_singleton; naive_solver).
    destruct (T7 t Ht') as (G1 & G2 & G3 & G4). destruct (schedule_keeps _ _ _ _ Hs t) as [K1 K2]. unfold sharing. rewrite K1.
    pose proof (S2 t) as Hv. rewrite T3 in Hv.
    assert (state (thr s' t) = state (thr s1 t) ∧ prio (thr s' t) = prio (thr s1 t)) as [-> ->]; [|by auto].
    destruct (decide (t = x)) as [->|]; [|destruct (decide (t = cur)) as [->|]]; apply vw_inj in Hv as (_ & _ & _ & -> & ->); done.
Qed.

Lemma slices_turn i s c now user p cur q x :
  turn s c p cur q → q !! i = Some x → ∃ s', slices (S i) s c now user = Ok s' ∧ curr (cpus s' c) = x.
Proof.
  revert s cur q. induction i as [|i IH]; intros s cur [|y q] HT Hi; try done;
    destruct (slice_turn s c now user p cur y q HT) as (s1 & E1 & H1); cbn [slices]; rewrite E1; cbn [obind].
  - simplify_eq/=. exists s1. split; [done|apply H1].
  - simpl in Hi. apply (IH s1 y (q ++ [cur]) H1). rewrite lookup_app_l; [done|]. by eapply lookup_lt_Some.
Qed.

(** C17.  Round robin: while the threads of the running thread's level stay
    runnable, are time-sliced and nothing better waits, the thread that waits
    at place [i] of that level has the CPU after [i + 1] slices of at most
    [RR_TIMESLICE_TICKS] ticks each. *)
Theorem round_robin i s c now user p cur q x :
  turn s c p cur q → q !! i = Some x →
  ∃ s', slices (S i) s c now user = Ok s' ∧ curr (cpus s' c) = x.
Proof. apply slices_turn. Qed.

(** Threads 10 and 11 on CPU 0: the first runs, the second waits. *)
Definition ex_two : sys :=
  match schedule (sched_add_new (thread_alloc ex_sched 0 11) 11) 0 7 with Ok s => s | Panic => ex_sched end.

Lemma thread_alloc_idle s c new t : is_idle (thread_alloc s c new) t ↔ is_idle s t.
Proof. done. Qed.

Lemma ex_two_ok : sched_ok ex_two.
Proof.
  assert (nr_cpus_possible ex_sched = 2) as Hn by (vm_compute; reflexivity).
  assert (valid_cpu ex_sched 0) as Hv by (unfold valid_cpu; rewrite Hn; lia).
  assert (¬ is_idle ex_sched 11) as Hi.
  { intros (c & Hc & E). unfold valid_cpu in Hc. rewrite Hn in Hc.
    assert (c = 0 ∨ c = 1) as [->| ->] by lia; vm_compute in E; discriminate E. }
  assert (sched_ok (sched_add_new (thread_alloc ex_sched 0 11) 11)) as H.
  { apply sched_add_new_ok; [|vm_compute; reflexivity|vm_compute; reflexivity|rewrite thread_alloc_idle; exact Hi].
    apply thread_alloc_ok; [exact ex_sched_ok|exact Hv|vm_compute; reflexivity|vm_compute; reflexivity|exact Hi]. }
  assert (valid_cpu (sched_add_new (thread_alloc ex_sched 0 11) 11) 0) as Hv2.
  { unfold valid_cpu. assert (nr_cpus_possible (sched_add_new (thread_alloc ex_sched 0 11) 11) = 2) as E by (vm_compute; reflexivity).
    rewrite E. lia. }
  unfold ex_two. destruct (schedule_spec _ 0 7 H Hv2) as (s' & E & Hok & _). rewrite E. exact Hok.
Qed.

Lemma ex_two_turn : turn ex_two 0 PRIO_NORMAL 10 [11].
Proof.
  assert (valid_cpu ex_two 0) as Hv.
  { unfold valid_cpu. assert (nr_cpus_possible ex_two = 2) as -> by (vm_compute; reflexivity). lia. }
  split; [exact ex_two_ok|exact Hv|vm_compute; reflexivity|vm_compute; intros E; discriminate E|vm_compute; reflexivity| |].
  - intros k Hk. pose proof (rq_bit _ _ (so_rq _ ex_two_ok 0 Hv) k) as Hb.
    assert (rq_bitmap (cpus ex_two 0) = 2 ^ 27) as E by (vm_compute; reflexivity).
    unfold PRIO_NORMAL in Hk. rewrite E, Z.pow2_bits_eqb in Hb by lia. replace (27 =? k) with false in Hb by lia.
    specialize (Hb ltac:(unfold valid_prio, NR_PRIO; lia)). symmetry in Hb. by apply bool_decide_eq_false, dec_stable in Hb.
  - intros t Ht. apply elem_of_cons in Ht as [->|Ht]; [|apply list_elem_of_singleton in Ht as ->];
      (split; [vm_compute; reflexivity|]; split; [vm_compute; reflexivity|]; split; [vm_compute; intros E; discriminate E|]);
      vm_compute; intros E; discriminate E.
Qed.

Lemma round_robin_witness : ∃ s', slices 1 ex_two 0 9 true = Ok s' ∧ curr (cpus s' 0) = 11.
Proof. apply (round_robin 0 ex_two 0 9 true PRIO_NORMAL 10 [11] 11 ex_two_turn). reflexivity. Defined.

(** ** A change of policy during a wake-up

    [try_to_wake_up] gives up the lock of the thread's old queue before
    [activate] takes the lock of the new one.  A [sched_setscheduler] that
    holds the old queue's lock in between sees a thread that is not queued,
    and then changes the priority of a thread that is. *)

Lemma setscheduler_unqueued s t pol rt :
  policy_error pol rt = false → on_rq (thr s t) = false →
  sched_setscheduler s t pol rt = (upd_thr s t (set_sched pol rt), 0).
Proof. intros H1 H2. unfold sched_setscheduler. by rewrite H1, H2. Qed.

(** Two CPUs on line; thread 10 last ran on CPU 1, which is busy with 11,
    and sleeps. *)
Definition ex_race : sys :=
  let s := upd_cpu (upd_cpu (boot 2) 0 set_online) 1 set_online in
  let s := thread_alloc (thread_alloc s 1 11) 1 10 in
  match schedule (sched_add_new s 11) 1 0 with Ok s => s | Panic => s end.

(** The two functions, with the sections of the wake-up around the test of
    [on_rq] and the assignment to [prio] of the change of policy. *)
Definition race (s : sys) (t pol rt : Z) : sys :=
  let s := (wake_locked s t TASK_UNINTERRUPTIBLE).1.1 in (* wake-up, first section *)
  let queued := on_rq (thr s t) in                 (* sched_setscheduler *)
  let s := activate s t in                         (* wake-up, second section *)
  if queued then s else upd_thr s t (set_sched pol rt).

Definition block_then_schedule (s : sys) (c now : Z) : outcome sys :=
  schedule (upd_thr s (curr (cpus s c)) (set_state TASK_INTERRUPTIBLE)) c now.

Definition ex_online : sys := upd_cpu (upd_cpu (boot 2) 0 set_online) 1 set_online.

Lemma ex_online_ok : sched_ok ex_online ∧ valid_cpu ex_online 1 ∧ (∀ t, 3 ≤ t → ¬ is_idle ex_online t ∧ thr ex_online t = zero_thread).
Proof.
  destruct (boot_fields 2) as (B1 & B2 & B3); [lia|].
  assert (frame (boot 2) ex_online) as Hf.
  { unfold ex_online. assert (∀ s c, frame s (upd_cpu s c set_online)) as Hu by (intros; by apply frame_upd_cpu).
    pose proof (Hu (boot 2) 0) as [F1 F2 F3]. pose proof (Hu (upd_cpu (boot 2) 0 set_online) 1) as [G1 G2 G3].
    split; [congruence| |]; [intros c; destruct (F2 c) as (?&?&?&?&?), (G2 c) as (?&?&?&?&?); split_and!; congruence|].
    intros u. split_and!; auto. }
  split; [apply (frame_ok _ _ Hf), boot_ok; lia|]. split; [unfold valid_cpu; rewrite (fr_nr _ _ Hf), B1; lia|].
  intros t Ht. split.
  - rewrite (frame_idle _ _ _ Hf). intros (c & Hc & E). unfold valid_cpu in Hc. rewrite B1 in Hc.
    rewrite B2 in E by done. cbn [idle] in E. lia.
  - change (thr (boot 2) t = zero_thread). rewrite B3. by rewrite decide_False by lia.
Qed.

Lemma ex_race_ok : sched_ok ex_race.
Proof.
  destruct ex_online_ok as (O1 & O2 & O3). unfold ex_race. fold ex_online.
  destruct (O3 11) as [I11 Z11]; [lia|]. destruct (O3 10) as [I10 Z10]; [lia|].
  assert (sched_ok (thread_alloc ex_online 1 11)) as H1 by (apply thread_alloc_ok; (done || by rewrite Z11)).
  assert (sched_ok (thread_alloc (thread_alloc ex_online 1 11) 1 10)) as H2.
  { apply thread_alloc_ok; [exact H1|exact O2|vm_compute; reflexivity|vm_compute; reflexivity|].
    rewrite thread_alloc_idle. exact I10. }
  set (s := thread_alloc (thread_alloc ex_online 1 11) 1 10) in *.
  assert (sched_ok (sched_add_new s 11)) as H3.
  { apply sched_add_new_ok; [exact H2|vm_compute; reflexivity|vm_compute; reflexivity|].
    unfold s. rewrite !thread_alloc_idle. exact I11. }
  assert (valid_cpu (sched_add_new s 11) 1) as Hv.
  { unfold valid_cpu. assert (nr_cpus_possible (sched_add_new s 11) = 2) as E by (vm_compute; reflexivity). rewrite E. lia. }
  destruct (schedule_spec _ 1 0 H3 Hv) as (s' & E & Hok & _). rewrite E. exact Hok.
Qed.

(** The invariant does not survive a [sched_setscheduler] between the
    two sections of a wake-up on another CPU.  From the well-formed state
    [ex_race], thread 10 is queued at its old level with a new priority: it
    runs, the bit of its old level stays set, and the next [schedule] takes
    the head of an empty queue for a thread. *)
Theorem setscheduler_race :
  sched_ok ex_race ∧ on_rq (thr ex_race 10) = false ∧ select_cpu ex_race 10 ≠ t_cpu (thr ex_race 10) ∧
  (try_to_wake_up ex_race 10 TASK_UNINTERRUPTIBLE).1 = activate (upd_thr ex_race 10 (set_state TASK_RUNNING)) 10 ∧
  ∃ s, schedule (race ex_race 10 SCHED_FIFO 50) 0 1 = Ok s ∧ curr (cpus s 0) = 10 ∧
       block_then_schedule s 0 2 = Panic.
Proof.
  split; [exact ex_race_ok|]. split; [vm_compute; reflexivity|]. split; [vm_compute; intros E; discriminate E|].
  split.
  { rewrite try_to_wake_up_eq. assert (Z.land (state (thr ex_race 10)) TASK_UNINTERRUPTIBLE =? 0 = false) as -> by (vm_compute; reflexivity).
    set (s := upd_thr _ _ _). assert (on_rq (thr s 10) || on_cpu (thr s 10) = false) as -> by (vm_compute; reflexivity). reflexivity. }
  destruct (schedule (race ex_race 10 SCHED_FIFO 50) 0 1) as [s|] eqn:E.
  - exists s. assert (match schedule (race ex_race 10 SCHED_FIFO 50) 0 1 with
      | Ok s => (curr (cpus s 0), match block_then_schedule s 0 2 with Ok _ => false | Panic => true end)
      | Panic => (0, false) end = (10, true)) as Hc by (vm_compute; reflexivity).
    rewrite E in Hc. injection Hc as H1 H2. split; [reflexivity|]. split; [exact H1|].
    destruct (block_then_schedule s 0 2); [discriminate H2|reflexivity].
  - exfalso. assert (match schedule (race ex_race 10 SCHED_FIFO 50) 0 1 with Ok _ => true | Panic => false end = true) as Hc
      by (vm_compute; reflexivity). rewrite E in Hc. discriminate Hc.
Qed.
