(* ===== verification/Futex.v ===== *)
(** * Futexes: src/kernel/futex.c

    Waiters are records in memory that hang in one of 64 buckets.  Waking
    goes through the scheduler of [Sched].  [futex_wait] is two steps: up to
    the point where the thread sleeps, and from where it runs again; the
    spinlock makes each one atomic. *)

From stdpp Require Import functions.
From S2P Require Import Prelude Sched SchedSpec.

Notation FUTEX_WAIT := 0%Z (only parsing).
Notation FUTEX_WAKE := 1%Z (only parsing).
Notation FUTEX_REQUEUE := 3%Z (only parsing).
Notation FUTEX_CMP_REQUEUE := 4%Z (only parsing).
Notation FUTEX_WAIT_BITSET := 9%Z (only parsing).
Notation FUTEX_WAKE_BITSET := 10%Z (only parsing).
Notation FUTEX_PRIVATE_FLAG := 128%Z (only parsing).
Notation FUTEX_CLOCK_REALTIME := 256%Z (only parsing).
Notation FUTEX_BITSET_MATCH_ANY := 0xffffffff%Z (only parsing).
Notation NBUCKETS := 64%Z (only parsing).

Record futex_waiter : Type := FutexWaiter { w_t : Z; key_a : Z; key_b : Z; bitset : Z; woken : bool }.

Record futex : Type := Futex { fsys : sys; buckets : Z → list Z; wtr : Z → futex_waiter }.

Definition set_bucket (s : futex) (i : Z) (l : list Z) : futex := Futex (fsys s) (<[i := l]> (buckets s)) (wtr s).
Definition set_waiter (s : futex) (w : Z) (v : futex_waiter) : futex := Futex (fsys s) (buckets s) (<[w := v]> (wtr s)).
Definition set_fsys (s : futex) (y : sys) : futex := Futex y (buckets s) (wtr s).

(** [futex_init]; the callers test [futex_ready] first. *)
Definition futex_init (y : sys) (m : Z → futex_waiter) : futex := Futex y (λ _, []) m.

Definition hash (a b : Z) : Z := Z.lxor (Z.lxor (Z.shiftr a 4) (Z.shiftr b 2)) (Z.shiftr b 12) `mod` NBUCKETS.

Section Futex.

(** The address space of the caller, the physical address behind a user
    address ([mm_user_page], 0 when it faults), and a word of user memory. *)
Context (mm : Z) (user_page : Z → Z) (get_user : Z → option Z).

Definition make_key (uaddr : Z) (private : bool) : Z + Z * Z :=
  if negb (Z.land uaddr 3 =? 0) then inl (- EINVAL)
  else if private then inr (mm, uaddr)
  else if user_page uaddr =? 0 then inl (- EFAULT)
  else inr (0, user_page uaddr).

(** Up to the sleep: the error, or the state with the waiter in its bucket. *)
Definition futex_wait_enter (s : futex) (me w uaddr val bits : Z) (private : bool) : futex * Z :=
  if bits =? 0 then (s, - EINVAL)
  else
    match make_key uaddr private with
    | inl e => (s, e)
    | inr (ka, kb) =>
        let s := set_waiter s w (FutexWaiter me ka kb bits false) in
        match get_user uaddr with
        | None => (s, - EFAULT)
        | Some cur =>
            if negb (cur =? val) then (s, - EAGAIN)
            else
              let s := set_bucket s (hash ka kb) (buckets s (hash ka kb) ++ [w]) in
              (set_fsys s (upd_thr (fsys s) me (set_state TASK_INTERRUPTIBLE)), 0)
        end
    end.

(** From the wake-up on.  [pending0] and [pending] say whether a signal was
    pending before the sleep and now, [expired] whether the timeout ran out. *)
Definition futex_wait_exit (s : futex) (me w timeout : Z) (pending0 expired pending : bool) : futex * Z :=
  let ret := if pending0 then 0
             else if 0 <=? timeout then if (timeout =? 0) || expired then - ETIMEDOUT else 0
             else 0 in
  let s := set_fsys s (upd_thr (fsys s) me (set_state TASK_RUNNING)) in
  let v := wtr s w in
  if woken v then (s, 0)
  else
    let i := hash (key_a v) (key_b v) in
    let s := set_bucket s i (list_del w (buckets s i)) in
    let ret := if ret =? 0 then if pending then - EINTR else 0 else ret in
    (s, if (ret =? 0) && negb (woken v) then - EAGAIN else ret).

Definition matches (v : futex_waiter) (ka kb bits : Z) : bool :=
  (key_a v =? ka) && (key_b v =? kb) && negb (Z.land (bitset v) bits =? 0).

Definition wake_waiter (s : futex) (i w : Z) : futex :=
  let s := set_bucket s i (list_del w (buckets s i)) in
  let v := wtr s w in
  let s := set_waiter s w (FutexWaiter (w_t v) (key_a v) (key_b v) (bitset v) true) in
  set_fsys s (wake_up_thread (fsys s) (w_t v)).

Fixpoint wake_loop (l : list Z) (s : futex) (i ka kb n bits count : Z) : futex * Z :=
  match l with
  | [] => (s, count)
  | w :: l =>
      if n <=? count then (s, count)
      else if negb (matches (wtr s w) ka kb bits) then wake_loop l s i ka kb n bits count
      else wake_loop l (wake_waiter s i w) i ka kb n bits (count + 1)
  end.

Definition wake_key (s : futex) (ka kb n bits : Z) : futex * Z :=
  let i := hash ka kb in wake_loop (buckets s i) s i ka kb n bits 0.

Definition futex_wake_bitset (s : futex) (uaddr n bits : Z) (private : bool) : futex * Z :=
  if bits =? 0 then (s, - EINVAL)
  else
    match make_key uaddr private with
    | inl e => (s, e)
    | inr (ka, kb) => wake_key s ka kb n bits
    end.

Definition futex_wake (s : futex) (uaddr n : Z) : futex * Z :=
  let '(s, a) := futex_wake_bitset s uaddr n FUTEX_BITSET_MATCH_ANY true in
  let '(s, b) := futex_wake_bitset s uaddr n FUTEX_BITSET_MATCH_ANY false in
  (s, (if 0 <? a then a else 0) + (if 0 <? b then b else 0)).

Definition rekey (v : futex_waiter) (ka kb : Z) : futex_waiter := FutexWaiter (w_t v) ka kb (bitset v) (woken v).

(** The walk that moves waiters: [done] was passed, [rest] starts at the
    cursor.  The next entry is fixed before the body runs; a waiter that goes
    to the end of the same bucket is met again unless it was the last. *)
Fixpoint requeue_loop (fuel : nat) (s : futex) (i ka kb i2 ka2 kb2 n moved : Z) (done rest : list Z) : option (futex * Z) :=
  match fuel with
  | O => None
  | S fuel =>
      match rest with
      | [] => Some (s, moved)
      | w :: rest =>
          if n <=? moved then Some (s, moved)
          else if negb ((key_a (wtr s w) =? ka) && (key_b (wtr s w) =? kb))
          then requeue_loop fuel s i ka kb i2 ka2 kb2 n moved (done ++ [w]) rest
          else
            let s := set_waiter s w (rekey (wtr s w) ka2 kb2) in
            let s := set_bucket s i (done ++ rest) in
            let s := set_bucket s i2 (buckets s i2 ++ [w]) in
            let rest := match rest with [] => [] | _ => if i =? i2 then rest ++ [w] else rest end in
            requeue_loop fuel s i ka kb i2 ka2 kb2 n (moved + 1) done rest
      end
  end.

(** Enough steps: each one passes a waiter or moves one of at most [n]. *)
Definition requeue_fuel (s : futex) (i n : Z) : nat := S (length (buckets s i) + Z.to_nat n).

Definition futex_requeue (s : futex) (uaddr nwake uaddr2 nrequeue : Z) (cmp : bool) (cmpval : Z) (private : bool)
  : option (futex * Z) :=
  match make_key uaddr private, make_key uaddr2 private with
  | inl e, _ => Some (s, e)
  | _, inl e => Some (s, e)
  | inr (ka, kb), inr (ka2, kb2) =>
      let go :=
        let '(s, count) := wake_key s ka kb nwake FUTEX_BITSET_MATCH_ANY in
        let i := hash ka kb in
        match requeue_loop (requeue_fuel s i nrequeue) s i ka kb (hash ka2 kb2) ka2 kb2 nrequeue 0 [] (buckets s i) with
        | None => None
        | Some (s, moved) => Some (s, count + moved)
        end in
      if cmp then
        match get_user uaddr with
        | None => Some (s, - EFAULT)
        | Some cur => if negb (cur =? cmpval) then Some (s, - EAGAIN) else go
        end
      else go
  end.

End Futex.

(** ** The system call *)

Inductive futex_call : Type :=
  | CallWait (uaddr val timeout bits : Z) (private : bool)
  | CallWake (uaddr n bits : Z) (private : bool)
  | CallRequeue (uaddr nwake uaddr2 nrequeue : Z) (cmp : bool) (cmpval : Z) (private : bool)
  | CallError (e : Z).

Notation NSEC_PER_SEC := 1000000000%Z (only parsing).

(** A 64-bit word as a signed int. *)
Definition to_int (x : Z) : Z := (x + 2 ^ 31) `mod` 2 ^ 32 - 2 ^ 31.
Definition to_u32 (x : Z) : Z := x `mod` 2 ^ 32.

(** [ts] is the timespec at [utime], [None] when the copy faults. *)
Definition futex_timeout (cmd op utime : Z) (ts : option (Z * Z)) (now now_real : Z) : Z + Z :=
  if ((cmd =? FUTEX_WAIT) || (cmd =? FUTEX_WAIT_BITSET)) && negb (utime =? 0) then
    match ts with
    | None => inl (- EFAULT)
    | Some (sec, nsec) =>
        if (sec <? 0) || (nsec <? 0) || (NSEC_PER_SEC <=? nsec) then inl (- EINVAL)
        else
          let ns := if 1000000000 <? sec then 2 ^ 62 else sec * NSEC_PER_SEC + nsec in
          if cmd =? FUTEX_WAIT_BITSET then
            let now := if negb (Z.land op FUTEX_CLOCK_REALTIME =? 0) then now_real else now in
            inr (if now <? ns then ns - now else 0)
          else inr ns
    end
  else inr (-1).

Definition sys_futex (uaddr op val utime uaddr2 val3 : Z) (ts : option (Z * Z)) (now now_real : Z) : futex_call :=
  let private := negb (Z.land op FUTEX_PRIVATE_FLAG =? 0) in
  let cmd := to_int (Z.ldiff op (Z.lor FUTEX_PRIVATE_FLAG FUTEX_CLOCK_REALTIME)) in
  match futex_timeout cmd op utime ts now now_real with
  | inl e => CallError e
  | inr timeout =>
      if cmd =? FUTEX_WAIT then CallWait uaddr (to_u32 val) timeout FUTEX_BITSET_MATCH_ANY private
      else if cmd =? FUTEX_WAIT_BITSET then CallWait uaddr (to_u32 val) timeout (to_u32 val3) private
      else if cmd =? FUTEX_WAKE then CallWake uaddr (to_int val) FUTEX_BITSET_MATCH_ANY private
      else if cmd =? FUTEX_WAKE_BITSET then CallWake uaddr (to_int val) (to_u32 val3) private
      else if cmd =? FUTEX_REQUEUE then CallRequeue uaddr (to_int val) uaddr2 (to_int utime) false 0 private
      else if cmd =? FUTEX_CMP_REQUEUE then CallRequeue uaddr (to_int val) uaddr2 (to_int utime) true (to_u32 val3) private
      else CallError (- ENOSYS)
  end.

(** ** Invariant *)

Record futex_ok (s : futex) : Prop := {
  fx_mem i w : w ∈ buckets s i → hash (key_a (wtr s w)) (key_b (wtr s w)) = i ∧ woken (wtr s w) = false;
  fx_nodup i : NoDup (buckets s i);
}.

Lemma futex_init_ok y m : futex_ok (futex_init y m).
Proof. split; [intros i w H; by apply elem_of_nil in H|intros; apply NoDup_nil_2]. Qed.

(** ** Waking

    The first [n] waiters of the key, in the order they came. *)

Definition selected (s : futex) (l : list Z) (ka kb n bits : Z) : list Z :=
  take (Z.to_nat n) (filter (λ w, matches (wtr s w) ka kb bits = true) l).

Definition wake_threads (y : sys) (l : list Z) : sys := foldl wake_up_thread y l.

Lemma bucket_wake s i w k :
  buckets (wake_waiter s i w) k = if decide (k = i) then list_del w (buckets s i) else buckets s k.
Proof. cbn. case_decide as E; [subst; by rewrite fn_lookup_insert|by rewrite fn_lookup_insert_ne]. Qed.

Lemma wtr_wake s i w u :
  wtr (wake_waiter s i w) u =
    if decide (u = w) then FutexWaiter (w_t (wtr s w)) (key_a (wtr s w)) (key_b (wtr s w)) (bitset (wtr s w)) true else wtr s u.
Proof. cbn. case_decide as E; [subst; by rewrite fn_lookup_insert|by rewrite fn_lookup_insert_ne]. Qed.

Lemma matches_wake s i w u ka kb bits : matches (wtr (wake_waiter s i w) u) ka kb bits = matches (wtr s u) ka kb bits.
Proof. rewrite wtr_wake. case_decide; [by subst|done]. Qed.

Lemma selected_wake s i w l ka kb n bits :
  selected (wake_waiter s i w) l ka kb n bits = selected s l ka kb n bits.
Proof.
  unfold selected. f_equal. apply list_filter_iff. intros u. by rewrite matches_wake.
Qed.

Lemma list_del_comm a b l : list_del a (list_del b l) = list_del b (list_del a l).
Proof. unfold list_del. rewrite !list_filter_filter. apply list_filter_iff. naive_solver. Qed.

Lemma filter_notin_nil (l : list Z) : filter (λ w, w ∉ []) l = l.
Proof. induction l as [|x l IH]; [done|]. rewrite filter_cons_True; [by rewrite IH|]. apply not_elem_of_nil. Qed.

Lemma list_del_filter w (sel l : list Z) : filter (λ x, x ∉ sel) (list_del w l) = filter (λ x, x ∉ w :: sel) l.
Proof.
  unfold list_del. rewrite list_filter_filter. apply list_filter_iff. intros x. rewrite not_elem_of_cons. naive_solver.
Qed.

(** What waking the waiters [sel] of bucket [i] does. *)
Record woke (s s' : futex) (i : Z) (sel : list Z) : Prop := {
  wk_buckets k : buckets s' k = if decide (k = i) then filter (λ x, x ∉ sel) (buckets s i) else buckets s k;
  wk_wtr u : w_t (wtr s' u) = w_t (wtr s u) ∧ key_a (wtr s' u) = key_a (wtr s u) ∧ key_b (wtr s' u) = key_b (wtr s u) ∧
    bitset (wtr s' u) = bitset (wtr s u) ∧ woken (wtr s' u) = woken (wtr s u) || bool_decide (u ∈ sel);
  wk_sys : fsys s' = wake_threads (fsys s) ((λ w, w_t (wtr s w)) <$> sel);
}.

Lemma woke_nil s i : woke s s i [].
Proof.
  split; [|intros u; split_and!; try done|done].
  - intros k. case_decide; [subst; by rewrite filter_notin_nil|done].
  - rewrite bool_decide_false by apply not_elem_of_nil. by rewrite orb_false_r.
Qed.

Lemma woke_cons s s' i w sel : woke (wake_waiter s i w) s' i sel → woke s s' i (w :: sel).
Proof.
  intros [H1 H2 H3]. split.
  - intros k. rewrite H1, !bucket_wake. case_decide; [|done]. rewrite decide_True by done. apply list_del_filter.
  - intros u. destruct (H2 u) as (E1 & E2 & E3 & E4 & E5). rewrite wtr_wake in E1, E2, E3, E4, E5.
    destruct (decide (u = w)) as [->|Hne]; cbn in *.
    + split_and!; try done. rewrite E5. rewrite (bool_decide_true (w ∈ w :: sel)) by (by left). by rewrite orb_true_r.
    + split_and!; try done. rewrite E5. f_equal. apply bool_decide_ext. rewrite elem_of_cons. naive_solver.
  - rewrite H3. cbn [fmap list_fmap wake_threads foldl]. unfold wake_threads. f_equal.
    apply list_fmap_ext. intros j x _. rewrite wtr_wake. case_decide; [by subst|done].
Qed.

Lemma wake_loop_spec l s i ka kb n bits count s' r :
  wake_loop l s i ka kb n bits count = (s', r) → 0 ≤ count →
  let sel := selected s l ka kb (n - count) bits in
  woke s s' i sel ∧ r = count + Z.of_nat (length sel).
Proof.
  revert s count. induction l as [|w l IH]; intros s count H Hc; cbn zeta; simpl in H.
  { simplify_eq. unfold selected. rewrite filter_nil, take_nil. split; [apply woke_nil|simpl; lia]. }
  destruct (n <=? count) eqn:En.
  { simplify_eq. unfold selected. replace (Z.to_nat (n - r)) with 0%nat by lia. split; [apply woke_nil|simpl; lia]. }
  unfold selected. destruct (matches (wtr s w) ka kb bits) eqn:Em; simpl in H.
  - apply IH in H as [H1 H2]; [|lia]. rewrite selected_wake in H1, H2.
    rewrite filter_cons_True by done. replace (Z.to_nat (n - count)) with (S (Z.to_nat (n - (count + 1)))) by lia.
    cbn [take firstn]. fold (selected s l ka kb (n - (count + 1)) bits). split; [by apply woke_cons|]. rewrite H2. simpl. lia.
  - rewrite filter_cons_False by (by rewrite Em). by apply IH in H.
Qed.

(** ** Woken threads stay awake *)

Definition awake (y : sys) (t : Z) : Prop :=
  state (thr y t) = TASK_RUNNING ∧ on_rq (thr y t) || on_cpu (thr y t) = true.

Lemma wake_other y t u mask : u ≠ t → thr (try_to_wake_up y t mask).1 u = thr y u.
Proof.
  intros Hne. rewrite try_to_wake_up_eq. destruct (_ =? 0); [done|]. destruct (_ || _); cbn [fst]; [by rewrite thr_upd, decide_False|].
  unfold activate, activate_on. case_match; unfold resched_cpu, upd_cpu; cbn [thr]; rewrite enqueue_thr, decide_False by done;
    by rewrite thr_upd, decide_False.
Qed.

Lemma wake_up_thread_awake y t :
  sched_ok y → sched_ok (wake_up_thread y t) ∧
  (Z.land (state (thr y t)) 7 ≠ 0 → awake (wake_up_thread y t) t) ∧
  (∀ u, awake y u → awake (wake_up_thread y t) u).
Proof.
  intros H. unfold wake_up_thread. set (mask := Z.lor _ _). assert (mask = 7) as Em by done. clearbody mask. subst mask.
  destruct (try_to_wake_up y t 7) as [y' b] eqn:E. pose proof (try_to_wake_up_spec y t 7 y' b H E) as (H1 & H2 & H3 & H4).
  simpl. split_and!; [done| |].
  - intros Hs. apply H4. rewrite H2. by apply negb_true_iff, Z.eqb_neq.
  - intros u Hu. destruct (decide (u = t)) as [->|Hne].
    + rewrite H3; [done|]. rewrite H2. destruct Hu as [-> _]. done.
    + unfold awake. change y' with ((y', b).1). rewrite <-E, wake_other by done. done.
Qed.

Lemma wake_threads_awake l y t :
  sched_ok y → (t ∈ l ∧ Z.land (state (thr y t)) 7 ≠ 0 ∨ awake y t) → sched_ok (wake_threads y l) ∧ awake (wake_threads y l) t.
Proof.
  revert y. induction l as [|x l IH]; intros y H Ht; simpl.
  { split; [done|]. destruct Ht as [[Ht _]|?]; [by apply elem_of_nil in Ht|done]. }
  destruct (wake_up_thread_awake y x H) as (W1 & W2 & W3). apply IH; [done|].
  destruct Ht as [[[->|Ht]%elem_of_cons Hs]|Ha]; [by right; apply W2| |by right; apply W3].
  destruct (decide (t = x)) as [->|Hne]; [by right; apply W2|left]. split; [done|].
  unfold wake_up_thread. by rewrite wake_other.
Qed.

Lemma wake_threads_ok l y : sched_ok y → sched_ok (wake_threads y l).
Proof. revert y. induction l as [|x l IH]; intros y H; simpl; [done|]. apply IH. by apply wake_up_thread_awake. Qed.

Lemma woke_ok s s' i sel : (∀ w, w ∈ sel → w ∈ buckets s i) → woke s s' i sel → futex_ok s → futex_ok s'.
Proof.
  intros Hsel [K1 K2 _] [H1 H2].
  assert (∀ k w, w ∈ buckets s' k → w ∈ buckets s k ∧ (k = i → w ∉ sel)) as Hin.
  { intros k w. rewrite K1. case_decide as Ek; [subst k; rewrite list_elem_of_filter; naive_solver|naive_solver]. }
  split.
  - intros k w Hw. destruct (Hin k w Hw) as [Hb Hn]. destruct (K2 w) as (_ & -> & -> & _ & ->).
    destruct (H1 k w Hb) as [E ->]. split; [done|]. simpl. apply bool_decide_false. intros Hs.
    apply Hn; [|done]. destruct (H1 i w (Hsel w Hs)). congruence.
  - intros k. rewrite K1. case_decide; [apply NoDup_filter|]; apply H2.
Qed.

Lemma selected_in s l ka kb n bits w : w ∈ selected s l ka kb n bits → w ∈ l ∧ matches (wtr s w) ka kb bits = true.
Proof. unfold selected. intros Hw%elem_of_take. destruct Hw as (j & Hj & _). apply list_elem_of_lookup_2, list_elem_of_filter in Hj. naive_solver. Qed.

(** ** Requeueing *)

Definition has_key (s : futex) (ka kb w : Z) : bool := (key_a (wtr s w) =? ka) && (key_b (wtr s w) =? kb).

Definition moving (s : futex) (l : list Z) (ka kb n : Z) : list Z :=
  take (Z.to_nat n) (filter (λ w, has_key s ka kb w = true) l).

Definition move_waiter (s : futex) (i i2 ka2 kb2 w : Z) (l : list Z) : futex :=
  let s := set_waiter s w (rekey (wtr s w) ka2 kb2) in
  let s := set_bucket s i l in set_bucket s i2 (buckets s i2 ++ [w]).

Lemma bucket_move s i i2 ka2 kb2 w l k :
  buckets (move_waiter s i i2 ka2 kb2 w l) k =
    if decide (k = i2) then (if decide (i2 = i) then l else buckets s i2) ++ [w]
    else if decide (k = i) then l else buckets s k.
Proof.
  unfold move_waiter, set_bucket, set_waiter. cbn [buckets].
  destruct (decide (k = i2)) as [->|]; [rewrite fn_lookup_insert; f_equal|rewrite fn_lookup_insert_ne by done];
    case_decide as E; (subst; by rewrite fn_lookup_insert) || by rewrite fn_lookup_insert_ne.
Qed.

Lemma has_key_move s i i2 ka2 kb2 w l ka kb u :
  has_key (move_waiter s i i2 ka2 kb2 w l) ka kb u = if decide (u = w) then (ka2 =? ka) && (kb2 =? kb) else has_key s ka kb u.
Proof.
  unfold has_key, move_waiter. cbn. case_decide as E; [subst; by rewrite fn_lookup_insert|by rewrite fn_lookup_insert_ne].
Qed.

Lemma moving_move s i i2 ka2 kb2 w b l ka kb n :
  w ∉ l → moving (move_waiter s i i2 ka2 kb2 w b) l ka kb n = moving s l ka kb n.
Proof.
  intros Hw. unfold moving. f_equal. induction l as [|x l IH]; [done|]. apply not_elem_of_cons in Hw as [Hne Hw].
  rewrite !filter_cons, has_key_move, (decide_False (P := x = w)) by done. by rewrite IH.
Qed.

(** The waiters [mv] are moved. *)
Record requeued (s s' : futex) (i i2 ka2 kb2 : Z) (mv : list Z) : Prop := {
  rq_wtr u : wtr s' u = if bool_decide (u ∈ mv) then rekey (wtr s u) ka2 kb2 else wtr s u;
  rq_sys : fsys s' = fsys s;
  rq_others k : k ≠ i → k ≠ i2 → buckets s' k = buckets s k;
  rq_target : i ≠ i2 → buckets s' i2 = buckets s i2 ++ mv;
}.

Section Requeue.

Context (i ka kb i2 ka2 kb2 n : Z).
Hypothesis Hdiff : (ka2 =? ka) && (kb2 =? kb) = false.

Lemma requeued_step s s' w l mv :
  w ∉ mv → requeued (move_waiter s i i2 ka2 kb2 w l) s' i i2 ka2 kb2 mv → requeued s s' i i2 ka2 kb2 (w :: mv).
Proof.
  intros Hw [R1 R2 R3 R4]. split; [|done| |].
  - intros u. rewrite R1. cbn [move_waiter set_bucket set_waiter wtr]. destruct (decide (u = w)) as [->|Hne].
    + rewrite bool_decide_false, bool_decide_true, fn_lookup_insert by (done || by left). done.
    + rewrite fn_lookup_insert_ne by done. rewrite (bool_decide_ext (u ∈ w :: mv) (u ∈ mv)); [done|].
      rewrite elem_of_cons. naive_solver.
  - intros k K1 K2. rewrite R3 by done. by rewrite bucket_move, !decide_False.
  - intros Hne. rewrite R4, bucket_move, decide_True, decide_False by done. by rewrite <-app_assoc.
Qed.

Lemma requeued_nil s : requeued s s i i2 ka2 kb2 [].
Proof.
  split; [|done|done|intros; by rewrite app_nil_r]. intros u. rewrite bool_decide_false; [done|apply not_elem_of_nil].
Qed.

(** The loop from [moved], with [done] behind, [rest] ahead and then [mvd],
    waiters moved to the end of the same bucket. *)
Definition loop_post (fuel : nat) (s : futex) (moved : Z) (done rest mvd : list Z) : Prop :=
  let mv := moving s rest ka kb (n - moved) in
  ∃ s', requeue_loop fuel s i ka kb i2 ka2 kb2 n moved done (rest ++ mvd) = Some (s', moved + Z.of_nat (length mv)) ∧
        requeued s s' i i2 ka2 kb2 mv ∧
        buckets s' i = done ++ filter (λ x, x ∉ mv) rest ++ mvd ++ (if i =? i2 then mv else []).

Record loop_pre (fuel : nat) (s : futex) (moved : Z) (done rest mvd : list Z) : Prop := {
  lp_nodup : NoDup (done ++ rest ++ mvd);
  lp_mvd w : w ∈ mvd → has_key s ka kb w = false;
  lp_other : i ≠ i2 → mvd = [];
  lp_bucket : buckets s i = done ++ rest ++ mvd;
  lp_moved : 0 ≤ moved;
  lp_fuel : (length (rest ++ mvd) + Z.to_nat (n - moved) < fuel)%nat;
}.

Lemma loop_stay fuel s moved done rest mvd :
  requeue_loop fuel s i ka kb i2 ka2 kb2 n moved done (rest ++ mvd) = Some (s, moved) →
  buckets s i = done ++ rest ++ mvd → moving s rest ka kb (n - moved) = [] → loop_post fuel s moved done rest mvd.
Proof.
  intros He Hb Hm. unfold loop_post. cbn zeta. rewrite Hm, He. exists s. split_and!.
  - simpl. by rewrite Z.add_0_r.
  - apply requeued_nil.
  - rewrite filter_notin_nil, Hb. by destruct (i =? i2); rewrite app_nil_r.
Qed.

Lemma moving_in s l k w : w ∈ moving s l ka kb k → w ∈ l ∧ has_key s ka kb w = true.
Proof.
  unfold moving. intros Hin%elem_of_take. destruct Hin as (j & Hj & _).
  apply list_elem_of_lookup_2, list_elem_of_filter in Hj. naive_solver.
Qed.

(** A waiter of another key is passed. *)
Lemma loop_skip fuel s moved done w rest mvd :
  has_key s ka kb w = false → moved < n →
  loop_post fuel s moved (done ++ [w]) rest mvd → loop_post (S fuel) s moved done (w :: rest) mvd.
Proof.
  intros Hk Hn (s' & E & R & B). unfold loop_post. cbn zeta.
  assert (moving s (w :: rest) ka kb (n - moved) = moving s rest ka kb (n - moved)) as ->.
  { unfold moving. by rewrite filter_cons_False by (by rewrite Hk). }
  exists s'. cbn [app requeue_loop]. replace (n <=? moved) with false by lia.
  fold (has_key s ka kb w). rewrite Hk. split_and!; [done|done|].
  rewrite B, filter_cons_True, <-app_assoc; [done|]. intros [_ Hin]%moving_in. congruence.
Qed.

Lemma loop_skip_moved fuel s moved done w mvd :
  has_key s ka kb w = false → moved < n →
  loop_post fuel s moved (done ++ [w]) [] mvd → loop_post (S fuel) s moved done [] (w :: mvd).
Proof.
  intros Hk Hn (s' & E & R & B). unfold loop_post. cbn zeta. exists s'. cbn [app requeue_loop].
  replace (n <=? moved) with false by lia. fold (has_key s ka kb w). rewrite Hk. split_and!; [done|done|].
  by rewrite B, filter_nil, <-app_assoc.
Qed.

(** A waiter of the key is moved. *)
Lemma loop_move fuel s moved done w rest mvd :
  loop_pre (S fuel) s moved done (w :: rest) mvd → has_key s ka kb w = true → moved < n → (0 < fuel)%nat →
  let s1 := move_waiter s i i2 ka2 kb2 w (done ++ rest ++ mvd) in
  let mvd1 := if i =? i2 then mvd ++ [w] else mvd in
  (rest ++ mvd ≠ [] → loop_post fuel s1 (moved + 1) done rest mvd1) → loop_post (S fuel) s moved done (w :: rest) mvd.
Proof.
  intros [P1 P2 P3 P4 P5 P6] Hk Hn Hfuel s1 mvd1 Hpost. unfold loop_post. cbn zeta.
  assert (w ∉ rest) as Hwr.
  { apply NoDup_app in P1 as (_ & _ & D). cbn [app] in D. apply NoDup_cons in D as [D _]. rewrite not_elem_of_app in D. naive_solver. }
  assert (moving s (w :: rest) ka kb (n - moved) = w :: moving s rest ka kb (n - (moved + 1))) as ->.
  { unfold moving. rewrite filter_cons_True by done. by replace (Z.to_nat (n - moved)) with (S (Z.to_nat (n - (moved + 1)))) by lia. }
  set (mv := moving s rest ka kb (n - (moved + 1))) in *.
  assert (w ∉ mv) as Hwmv by (intros [? _]%moving_in; done).
  assert (filter (λ x, x ∉ w :: mv) (w :: rest) = filter (λ x, x ∉ mv) rest) as Hfil.
  { rewrite filter_cons_False by (rewrite not_elem_of_cons; naive_solver). rewrite <-list_del_filter. by rewrite list_del_notin. }
  rewrite Hfil. cbn [app requeue_loop]. replace (n <=? moved) with false by lia.
  fold (has_key s ka kb w). rewrite Hk. cbn [negb]. fold (move_waiter s i i2 ka2 kb2 w (done ++ rest ++ mvd)). fold s1.
  destruct (rest ++ mvd) as [|x r] eqn:Er.
  - apply app_eq_nil in Er as [-> ->]. destruct fuel as [|fuel]; [lia|]. cbn [requeue_loop]. exists s1.
    assert (mv = []) as -> by (unfold mv, moving; by rewrite filter_nil, take_nil). split_and!; [done| |].
    + apply (requeued_step _ _ w (done ++ [])); [apply not_elem_of_nil|apply requeued_nil].
    + rewrite filter_nil. unfold s1. rewrite bucket_move. destruct (i =? i2) eqn:Eii; zbool.
      * rewrite !decide_True by done. by rewrite app_nil_r.
      * by rewrite decide_False, decide_True.
  - destruct Hpost as (s' & E & R & B); [done|]. unfold mvd1 in *.
    assert (moving s1 rest ka kb (n - (moved + 1)) = mv) as Emv by (by apply moving_move). rewrite Emv in E, R, B.
    exists s'. split_and!.
    + replace (if i =? i2 then (x :: r) ++ [w] else x :: r) with (rest ++ (if i =? i2 then mvd ++ [w] else mvd))
        by (rewrite <-Er; by destruct (i =? i2); rewrite ?app_assoc).
      rewrite E. f_equal. f_equal. simpl. lia.
    + by apply (requeued_step _ _ w (done ++ x :: r)).
    + rewrite B. f_equal. f_equal. destruct (i =? i2); [by rewrite <-app_assoc|done].
Qed.
Lemma requeue_loop_spec fuel s moved done rest mvd :
  loop_pre fuel s moved done rest mvd → loop_post fuel s moved done rest mvd.
Proof.
  revert s moved done rest mvd. induction fuel as [|fuel IH]; intros s moved done rest mvd H; pose proof H as [P1 P2 P3 P4 P5 P6]; [lia|].
  destruct (Z.le_gt_cases n moved) as [Hn|Hn].
  { apply loop_stay; [|done|].
    - cbn [requeue_loop]. replace (n <=? moved) with true by lia. by destruct (rest ++ mvd).
    - unfold moving. by replace (Z.to_nat (n - moved)) with 0%nat by lia. }
  destruct rest as [|w rest].
  { destruct mvd as [|x mvd]; [apply loop_stay; [done|done|unfold moving; by rewrite filter_nil, take_nil]|].
    apply loop_skip_moved; [apply P2; by left|done|]. apply IH. split; rewrite <-?app_assoc; try done.
    - intros u Hu. apply P2. by right.
    - intros Hne. by specialize (P3 Hne).
    - simpl in P6 |- *. lia. }
  destruct (has_key s ka kb w) eqn:Hk.
  - apply loop_move; [done|done|done|simpl in P6; lia|]. cbn zeta. intros _. apply IH.
    assert (w ∉ rest ∧ w ∉ mvd ∧ NoDup (done ++ rest ++ mvd) ∧ NoDup (done ++ rest ++ mvd ++ [w])) as (Hwr & Hwm & Hnd & Hnd').
    { assert (done ++ (w :: rest) ++ mvd ≡ₚ w :: done ++ rest ++ mvd) as Hperm by (symmetry; apply Permutation_middle).
      rewrite Hperm in P1. apply NoDup_cons in P1 as [D1 D2]. rewrite !not_elem_of_app in D1. destruct D1 as (D0 & D1 & D3).
      split_and!; [done..|]. rewrite !app_assoc, app_Permutation_comm. simpl. apply NoDup_cons. rewrite <-!app_assoc, !not_elem_of_app. done. }
    split.
    + by destruct (i =? i2).
    + intros u Hu. rewrite has_key_move. case_decide as Eu; [done|]. apply P2. destruct (i =? i2); [|done].
      apply elem_of_app in Hu as [?|Hu]; [done|]. by apply list_elem_of_singleton in Hu.
    + intros Hne. replace (i =? i2) with false by lia. by apply P3.
    + rewrite bucket_move. destruct (i =? i2) eqn:Eii; zbool.
      * rewrite !decide_True by done. by rewrite <-!app_assoc.
      * by rewrite decide_False, decide_True.
    + lia.
    + rewrite length_app in *. simpl in P6. destruct (i =? i2); rewrite ?length_app; simpl; lia.
  - apply loop_skip; [done|done|]. apply IH. split; rewrite <-?app_assoc; try done. simpl in P6. lia.
Qed.

End Requeue.

(** ** Requeueing onto the same key

    A moved waiter has the key again and is met again: the walk goes round
    until the limit. *)

Definition same_keys (s s1 : futex) : Prop := ∀ u, key_a (wtr s1 u) = key_a (wtr s u) ∧ key_b (wtr s1 u) = key_b (wtr s u).

Definition key_count (s : futex) (ka kb : Z) (l : list Z) : nat := length (filter (λ w, has_key s ka kb w = true) l).

Lemma key_count_same s s1 ka kb l : same_keys s s1 → key_count s1 ka kb l = key_count s ka kb l.
Proof.
  intros H. unfold key_count. f_equal. apply list_filter_iff. intros w. unfold has_key. destruct (H w) as [-> ->]. done.
Qed.

Lemma requeue_same_key fuel s i ka kb n moved done rest :
  (2 ≤ key_count s ka kb rest)%nat → moved ≤ n → (length rest + Z.to_nat (n - moved) < fuel)%nat →
  ∃ s', requeue_loop fuel s i ka kb i ka kb n moved done rest = Some (s', n).
Proof.
  revert s moved done rest. induction fuel as [|fuel IH]; intros s moved done rest Hc Hm Hf; [lia|].
  destruct rest as [|w rest]; [unfold key_count in Hc; rewrite filter_nil in Hc; simpl in Hc; lia|]. cbn [requeue_loop].
  destruct (n <=? moved) eqn:En; [exists s; f_equal; f_equal; lia|].
  fold (has_key s ka kb w). destruct (has_key s ka kb w) eqn:Ek; cbn [negb].
  - set (s1 := set_bucket _ _ _). assert (same_keys s s1) as Hsame.
    { intros u. cbn. destruct (decide (u = w)) as [->|Hne]; [|by rewrite fn_lookup_insert_ne].
      rewrite fn_lookup_insert. cbn. unfold has_key in Ek. apply andb_true_iff in Ek as [E1%Z.eqb_eq E2%Z.eqb_eq]. done. }
    unfold key_count in Hc. rewrite filter_cons_True in Hc by done. simpl in Hc. fold (key_count s ka kb rest) in Hc.
    destruct rest as [|x rest]; [unfold key_count in Hc; rewrite filter_nil in Hc; simpl in Hc; lia|].
    rewrite Z.eqb_refl. apply IH; [|lia|].
    + rewrite (key_count_same s) by done. unfold key_count. rewrite filter_app, length_app, (filter_cons_True _ w []) by done.
      fold (key_count s ka kb (x :: rest)). simpl. lia.
    + rewrite length_app. simpl in Hf |- *. lia.
  - apply IH; [|done|simpl in Hf; lia]. unfold key_count in Hc. rewrite filter_cons_False in Hc by (by rewrite Ek). done.
Qed.

(** ** The calls *)

Section Calls.

Context (mm : Z) (user_page : Z → Z) (get_user : Z → option Z).

(**  FUTEX_WAKE: the first [n] waiters of the key whose bitset meets
    [bits], in the order they came, leave the bucket and are marked; all other
    waiters, other keys in the same bucket included, stay in order.  The
    result is their number.  The scheduler's invariant holds, and every one
    of their threads that was asleep is runnable and queued (or still has
    its CPU).  A bad address or an empty bitset changes nothing. *)
Theorem futex_wake_correct s uaddr n bits private s' r :
  futex_ok s → sched_ok (fsys s) → futex_wake_bitset mm user_page s uaddr n bits private = (s', r) →
  futex_ok s' ∧ sched_ok (fsys s') ∧
  match make_key mm user_page uaddr private with
  | inl e => s' = s ∧ r = (if bits =? 0 then - EINVAL else e)
  | inr (ka, kb) =>
      if bits =? 0 then s' = s ∧ r = - EINVAL
      else
        let i := hash ka kb in let sel := selected s (buckets s i) ka kb n bits in
        r = Z.of_nat (length sel) ∧
        (∀ k, buckets s' k = if decide (k = i) then filter (λ x, x ∉ sel) (buckets s i) else buckets s k) ∧
        (∀ w, w ∈ sel → woken (wtr s' w) = true ∧
           (Z.land (state (thr (fsys s) (w_t (wtr s w)))) 7 ≠ 0 → awake (fsys s') (w_t (wtr s w))))
  end.
Proof.
  intros Hok Hs. unfold futex_wake_bitset. destruct (bits =? 0) eqn:Eb.
  { intros [= <- <-]. split; [done|]. split; [done|]. by destruct (make_key _ _ _ _) as [e|[ka kb]]. }
  destruct (make_key _ _ _ _) as [e|[ka kb]]; [by intros [= <- <-]|]. unfold wake_key. intros H.
  apply wake_loop_spec in H as [H1 H2]; [|done]. rewrite Z.sub_0_r in H1, H2. set (sel := selected _ _ _ _ _ _) in *.
  split; [apply (woke_ok _ _ _ _ (λ w Hw, proj1 (selected_in _ _ _ _ _ _ _ Hw)) H1 Hok)|].
  split; [rewrite (wk_sys _ _ _ _ H1); by apply wake_threads_ok|]. cbn zeta. split; [done|]. split; [apply H1|].
  intros w Hw. destruct (wk_wtr _ _ _ _ H1 w) as (_ & _ & _ & _ & ->). split; [by rewrite bool_decide_true, orb_true_r|].
  intros Hst. rewrite (wk_sys _ _ _ _ H1). apply wake_threads_awake; [done|]. left. split; [|done].
  apply list_elem_of_fmap. by exists w.
Qed.

(** C18.  FUTEX_REQUEUE to another key always returns.  After the wake-ups it
    moves the next [nrequeue] waiters of the key, in order, to the end of the
    bucket of the second key and gives them that key; also when both keys
    share a bucket.  All others stay in order.  The result is the number of
    threads woken and moved. *)
Theorem futex_requeue_correct s uaddr nwake uaddr2 nrequeue private ka kb ka2 kb2 :
  futex_ok s → make_key mm user_page uaddr private = inr (ka, kb) → make_key mm user_page uaddr2 private = inr (ka2, kb2) →
  (ka2, kb2) ≠ (ka, kb) →
  let i := hash ka kb in let i2 := hash ka2 kb2 in
  let s1 := (wake_key s ka kb nwake FUTEX_BITSET_MATCH_ANY).1 in
  let mv := moving s1 (buckets s1 i) ka kb nrequeue in
  ∃ s', futex_requeue mm user_page get_user s uaddr nwake uaddr2 nrequeue false 0 private =
          Some (s', (wake_key s ka kb nwake FUTEX_BITSET_MATCH_ANY).2 + Z.of_nat (length mv)) ∧
    requeued s1 s' i i2 ka2 kb2 mv ∧
    buckets s' i = filter (λ x, x ∉ mv) (buckets s1 i) ++ (if i =? i2 then mv else []).
Proof.
  intros Hok K1 K2 Hne. cbn zeta. unfold futex_requeue. rewrite K1, K2.
  destruct (wake_key s ka kb nwake FUTEX_BITSET_MATCH_ANY) as [s1 r1] eqn:E1. cbn [fst snd].
  assert (futex_ok s1) as Hok1.
  { unfold wake_key in E1. apply wake_loop_spec in E1 as [H1 _]; [|done].
    apply (woke_ok _ _ _ _ (λ w Hw, proj1 (selected_in _ _ _ _ _ _ _ Hw)) H1 Hok). }
  destruct (requeue_loop_spec (hash ka kb) ka kb (hash ka2 kb2) ka2 kb2 nrequeue) with
    (fuel := requeue_fuel s1 (hash ka kb) nrequeue) (s := s1) (moved := 0) (done := @nil Z) (rest := buckets s1 (hash ka kb)) (mvd := @nil Z)
    as (s' & E & R & B).
  - apply not_true_is_false. intros [H1 H2]%andb_true_iff. apply Hne. f_equal; by apply Z.eqb_eq.
  - split; rewrite ?app_nil_r; [apply Hok1|intros w Hw; by apply elem_of_nil in Hw|done|done|done|].
    unfold requeue_fuel. rewrite Z.sub_0_r. lia.
  - rewrite app_nil_r in E. rewrite Z.sub_0_r in E, R, B. exists s'. rewrite E. split_and!; [done|done|exact B].
Qed.

(** FUTEX_REQUEUE onto the same key with two waiters left moves waiters
    round and round, holding the futex lock, until it has counted [nrequeue]
    moves, and reports as many: more than there are waiters. *)
Theorem futex_requeue_same_key s uaddr nwake nrequeue private ka kb :
  make_key mm user_page uaddr private = inr (ka, kb) → 0 ≤ nrequeue →
  let s1 := (wake_key s ka kb nwake FUTEX_BITSET_MATCH_ANY).1 in
  (2 ≤ key_count s1 ka kb (buckets s1 (hash ka kb)))%nat →
  ∃ s', futex_requeue mm user_page get_user s uaddr nwake uaddr nrequeue false 0 private =
          Some (s', (wake_key s ka kb nwake FUTEX_BITSET_MATCH_ANY).2 + nrequeue).
Proof.
  intros K1 Hn. cbn zeta. unfold futex_requeue. rewrite K1.
  destruct (wake_key s ka kb nwake FUTEX_BITSET_MATCH_ANY) as [s1 r1]. cbn [fst snd]. intros Hc.
  destruct (requeue_same_key (requeue_fuel s1 (hash ka kb) nrequeue) s1 (hash ka kb) ka kb nrequeue 0 [] (buckets s1 (hash ka kb)))
    as (s' & E); [done|done|unfold requeue_fuel; rewrite Z.sub_0_r; lia|]. exists s'. by rewrite E.
Qed.

End Calls.

(** Three waiters on one word, all of thread 10, which sleeps. *)
Definition ex_futex : futex :=
  Futex (thread_alloc (boot 2) 0 10) (<[16 := [100; 101; 102]]> (λ _, [])) (λ _, FutexWaiter 10 1 64 FUTEX_BITSET_MATCH_ANY false).

Lemma ex_futex_ok : futex_ok ex_futex ∧ sched_ok (fsys ex_futex).
Proof.
  assert (∀ i, buckets ex_futex i = if decide (i = 16) then [100; 101; 102] else []) as Hb.
  { intros i. cbn [ex_futex buckets]. case_decide as E; [subst; by rewrite fn_lookup_insert|by rewrite fn_lookup_insert_ne]. }
  split.
  - split; intros i; rewrite Hb; case_decide as E; try (intros w Hw; by apply elem_of_nil in Hw); try apply NoDup_nil_2.
    + intros w _. subst i. split; [vm_compute; reflexivity|done].
    + apply NoDup_ListNoDup. repeat constructor; simpl; lia.
  - destruct (boot_fields 2) as (B1 & _ & B3); [lia|]. cbn [ex_futex fsys].
    apply thread_alloc_ok; [apply boot_ok; lia|unfold valid_cpu; rewrite B1; lia| | |exact ex_not_idle];
      rewrite B3; by rewrite decide_False by lia.
Qed.

Lemma futex_wake_witness :
  ∃ s', futex_wake_bitset 1 (λ _, 0) ex_futex 64 2 FUTEX_BITSET_MATCH_ANY true = (s', 2) ∧ futex_ok s' ∧
        sched_ok (fsys s') ∧ awake (fsys s') 10.
Proof.
  destruct ex_futex_ok as [H1 H2].
  destruct (futex_wake_bitset 1 (λ _, 0) ex_futex 64 2 FUTEX_BITSET_MATCH_ANY true) as [s' r] eqn:E.
  destruct (futex_wake_correct 1 (λ _, 0) ex_futex 64 2 FUTEX_BITSET_MATCH_ANY true s' r H1 H2 E) as (A & B & C).
  destruct C as (C1 & _ & C3).
  assert (selected ex_futex (buckets ex_futex (hash 1 64)) 1 64 2 FUTEX_BITSET_MATCH_ANY = [100; 101]) as Hsel by (vm_compute; reflexivity).
  rewrite Hsel in C1, C3. exists s'. split; [by rewrite C1|].
  split; [exact A|]. split; [exact B|]. apply (C3 100); [by left|].
  vm_compute. intros X. discriminate X.
Defined.

Lemma futex_requeue_witness :
  match futex_requeue 1 (λ _, 0) (λ _, None) ex_futex 64 1 128 5 false 0 true with
  | Some (s', r) => r = 3 ∧ buckets s' 16 = [] ∧ buckets s' 32 = [101; 102]
  | None => False
  end.
Proof.
  destruct ex_futex_ok as [H1 _].
  destruct (futex_requeue_correct 1 (λ _, 0) (λ _, None) ex_futex 64 1 128 5 true 1 64 1 128 H1 eq_refl eq_refl)
    as (s' & E & R & B); [intros X; discriminate X|].
  rewrite E. split; [vm_compute; reflexivity|]. split; [change 16 with (hash 1 64); rewrite B; vm_compute; reflexivity|].
  change 32 with (hash 1 128). rewrite (rq_target _ _ _ _ _ _ _ R); [vm_compute; reflexivity|].
  vm_compute. intros X. discriminate X.
Defined.

Lemma futex_requeue_same_key_witness :
  ∃ s', futex_requeue 1 (λ _, 0) (λ _, None) ex_futex 64 1 64 1000 false 0 true = Some (s', 1001).
Proof.
  destruct (futex_requeue_same_key 1 (λ _, 0) (λ _, None) ex_futex 64 1 1000 true 1 64 eq_refl) as (s' & E);
    [lia|vm_compute; lia|].
  exists s'. rewrite E. f_equal.
Defined.
