(* ===== verification/Pipe.v ===== *)
(** * Pipes and FIFOs: src/fs/pipe.c

    A ring of 64 KiB with free-running 64-bit positions.  A call that has to
    wait ends as [RBlock] or [WBlock] and is made again, from its progress,
    when it is woken.  A copy from or to user memory fails as the list of
    [faults] says, one entry per copy. *)

From stdpp Require Import functions.
From S2P Require Import Prelude.

Definition PIPE_SIZE : Z := 64 * 1024.
Definition PIPE_BUF : Z := 4096.
Notation ENXIO := 6%Z (only parsing).
Notation FMODE_READ := 1%Z (only parsing).
Notation FMODE_WRITE := 2%Z (only parsing).
Notation POLLIN := 1%Z (only parsing).
Notation POLLOUT := 4%Z (only parsing).
Notation POLLERR := 8%Z (only parsing).
Notation POLLHUP := 16%Z (only parsing).
Notation POLLRDNORM := 64%Z (only parsing).
Notation POLLWRNORM := 256%Z (only parsing).
Notation FIONREAD := 0x541b%Z (only parsing).

Record pipe : Type := Pipe {
  buf : Z → Z;
  head : Z;
  tail : Z;
  readers : Z;
  writers : Z;
  w_counter : Z;
}.

Definition pipe_alloc : pipe := Pipe (λ _, 0) 0 0 0 0 0.

Definition pipe_used (p : pipe) : Z := head p ⊖ tail p.

Definition next_fault (faults : list bool) : bool * list bool :=
  match faults with [] => (false, []) | b :: l => (b, l) end.

(** ** Reading *)

Inductive read_res : Type :=
  | RBlock
  | RRet (p : pipe) (out : list Z) (r : Z).

Definition bytes_at (b : Z → Z) (off n : Z) : list Z := (λ k, b (off + k)) <$> seqZ 0 n.

Fixpoint read_loop (fuel : nat) (p : pipe) (len done : Z) (out : list Z) (faults : list bool) : option read_res :=
  match fuel with
  | O => None
  | S fuel =>
      if (done <? len) && negb (pipe_used p =? 0) then
        let off := tail p `mod` PIPE_SIZE in
        let n := Z.min (Z.min (len - done) (pipe_used p)) (PIPE_SIZE - off) in
        let '(fault, faults) := next_fault faults in
        if fault then Some (RRet p out (if done =? 0 then - EFAULT else done))
        else
          let out := out ++ bytes_at (buf p) off n in
          let p := Pipe (buf p) (head p) (tail p ⊕ n) (readers p) (writers p) (w_counter p) in
          read_loop fuel p len (done + n) out faults
      else Some (RRet p out done)
  end.

(** At most two copies: up to the end of the ring and from its start. *)
Definition pipe_read (p : pipe) (nonblock : bool) (len : Z) (faults : list bool) : option read_res :=
  if pipe_used p =? 0 then
    if writers p =? 0 then Some (RRet p [] 0)
    else if nonblock then Some (RRet p [] (- EAGAIN)) else Some RBlock
  else read_loop 3 p len 0 [] faults.

(** ** Writing *)

Inductive write_res : Type :=
  | WBlock (p : pipe) (done : Z)
  | WRet (p : pipe) (done r : Z) (sigpipe : bool).

Definition store_bytes (b : Z → Z) (off : Z) (l : list Z) : Z → Z :=
  λ j, if (off <=? j) && (j <? off + Z.of_nat (length l)) then l !!! Z.to_nat (j - off) else b j.

Fixpoint pipe_write (fuel : nat) (p : pipe) (nonblock : bool) (data : list Z) (done : Z) (faults : list bool) : option write_res :=
  match fuel with
  | O => None
  | S fuel =>
      let len := Z.of_nat (length data) in
      if len <=? done then Some (WRet p done done false)
      else if readers p =? 0 then Some (WRet p done (if done =? 0 then - EPIPE else done) true)
      else
        let space := PIPE_SIZE ⊖ pipe_used p in
        let want := len - done in
        if (space =? 0) || ((want <=? PIPE_BUF) && (space <? want)) then
          if nonblock then Some (WRet p done (if done =? 0 then - EAGAIN else done) false) else Some (WBlock p done)
        else
          let off := head p `mod` PIPE_SIZE in
          let n := Z.min (Z.min want space) (PIPE_SIZE - off) in
          let '(fault, faults) := next_fault faults in
          if fault then Some (WRet p done (if done =? 0 then - EFAULT else done) false)
          else
            let b := store_bytes (buf p) off (take (Z.to_nat n) (drop (Z.to_nat done) data)) in
            let p := Pipe b (head p ⊕ n) (tail p) (readers p) (writers p) (w_counter p) in
            pipe_write fuel p nonblock data (done + n) faults
  end.

(** Two copies and the test that ends the loop. *)
Definition WRITE_FUEL : nat := 4.

(** ** The other operations *)

Definition pipe_poll (p : pipe) (mode : Z) : Z :=
  let m := 0 in
  let m := if negb (Z.land mode FMODE_READ =? 0) then
    let m := if negb (pipe_used p =? 0) then Z.lor m (Z.lor POLLIN POLLRDNORM) else m in
    if (writers p =? 0) && negb (w_counter p =? 0) then Z.lor m POLLHUP else m
  else m in
  if negb (Z.land mode FMODE_WRITE =? 0) then
    let m := if PIPE_BUF <=? PIPE_SIZE ⊖ pipe_used p then Z.lor m (Z.lor POLLOUT POLLWRNORM) else m in
    if readers p =? 0 then Z.lor m POLLERR else m
  else m.

(** The result and the value that is copied out. *)
Definition pipe_ioctl (p : pipe) (cmd : Z) : Z + Z :=
  if cmd =? FIONREAD then inr (pipe_used p) else inl (- ENOTTY).

Definition set_readers (p : pipe) (n : Z) : pipe := Pipe (buf p) (head p) (tail p) n (writers p) (w_counter p).
Definition set_writers (p : pipe) (n c : Z) : pipe := Pipe (buf p) (head p) (tail p) (readers p) n c.

(** [None]: the last user is gone and the pipe was freed. *)
Definition pipe_release (p : pipe) (mode : Z) : option pipe :=
  let p := if negb (Z.land mode FMODE_READ =? 0) then set_readers p (readers p - 1) else p in
  let p := if negb (Z.land mode FMODE_WRITE =? 0) then set_writers p (writers p - 1) (w_counter p) else p in
  if (readers p =? 0) && (writers p =? 0) then None else Some p.

(** [alloc]: one object more unless it fails, with the objects alive. *)
Definition alloc (ok : bool) (live : Z) : bool * Z := (ok, if ok then live + 1 else live).

Definition pipe_new (a_pipe a_buf : bool) (live : Z) : option pipe * Z :=
  let '(ok, live) := alloc a_pipe live in
  if negb ok then (None, live)
  else
    let '(ok, live) := alloc a_buf live in
    if negb ok then (None, live - 1) else (Some pipe_alloc, live).

(** A pair: inode, pipe, buffer and two files; the arguments say which
    allocations succeed.  [kfree(NULL)] frees nothing. *)
Definition pipe_create_pair (a_inode a_pipe a_buf a_r a_w : bool) (live : Z) : option pipe * Z :=
  let '(ok, live) := alloc a_inode live in
  if negb ok then (None, live)
  else
    let '(p, live) := pipe_new a_pipe a_buf live in
    match p with
    | None => (None, live - 1)
    | Some p =>
        let '(r, live) := alloc a_r live in
        let '(w, live) := alloc a_w live in
        if negb r || negb w then
          let live := if r then live - 1 else live in
          let live := if w then live - 1 else live in
          (None, live - 2 - 1)
        else (Some (set_writers (set_readers p 1) 1 1), live)
    end.

(** [fifo_open]: the state, and the condition it waits for, if it does. *)
Inductive open_res : Type :=
  | OpenRet (p : option pipe) (r : Z)
  | OpenWaitWriter (p : pipe) (c : Z)
  | OpenWaitReader (p : pipe).

Definition fifo_open_write (p : pipe) (mode : Z) (nonblock : bool) : open_res :=
  if negb (Z.land mode FMODE_WRITE =? 0) then
    let rd := negb (Z.land mode FMODE_READ =? 0) in
    if negb rd && nonblock && (readers p =? 0) then OpenRet (Some p) (- ENXIO)
    else
      let p := set_writers p (writers p + 1) (w_counter p + 1) in
      if negb rd && (readers p =? 0) then OpenWaitReader p else OpenRet (Some p) 0
  else OpenRet (Some p) 0.

Definition fifo_open (p : option pipe) (mode : Z) (nonblock alloc : bool) : open_res :=
  match (match p with Some p => Some p | None => if alloc then Some pipe_alloc else None end) with
  | None => OpenRet None (- ENOMEM)
  | Some p =>
      if negb (Z.land mode FMODE_READ =? 0) then
        let p := set_readers p (readers p + 1) in
        if (Z.land mode FMODE_WRITE =? 0) && negb nonblock && (writers p =? 0) then OpenWaitWriter p (w_counter p)
        else fifo_open_write p mode nonblock
      else fifo_open_write p mode nonblock
  end.

(** After the wait: [r] is its result, 0 when the condition came true. *)
Definition fifo_open_reader_woken (p : pipe) (mode r : Z) (nonblock : bool) : open_res :=
  if negb (r =? 0) then OpenRet (Some (set_readers p (readers p - 1))) r else fifo_open_write p mode nonblock.
Definition fifo_open_writer_woken (p : pipe) (r : Z) : open_res :=
  if negb (r =? 0) then OpenRet (Some (set_writers p (writers p - 1) (w_counter p))) r else OpenRet (Some p) 0.

(** ** The queue of bytes *)

Record pipe_ok (p : pipe) : Prop := {
  po_head : u64_ok (head p);
  po_tail : u64_ok (tail p);
  po_used : pipe_used p ≤ PIPE_SIZE;
}.

Definition contents (p : pipe) : list Z := (λ k, buf p ((tail p + k) `mod` PIPE_SIZE)) <$> seqZ 0 (pipe_used p).

Lemma used_range p : 0 ≤ pipe_used p < U64.
Proof. apply wrap64_range. Qed.

Lemma contents_length p : Z.of_nat (length (contents p)) = pipe_used p.
Proof. unfold contents. rewrite length_fmap, length_seqZ, Z2Nat.id by apply used_range. done. Qed.

Lemma mod_add64 x y : (x ⊕ y) `mod` PIPE_SIZE = (x + y) `mod` PIPE_SIZE.
Proof.
  unfold add64, wrap64. change U64 with (PIPE_SIZE * 2 ^ 48). rewrite Z.rem_mul_r by done.
  rewrite Z.mul_comm, Z.mod_add by done. by rewrite Z.mod_mod by done.
Qed.

Lemma used_tail p n : 0 ≤ n ≤ pipe_used p → head p ⊖ (tail p ⊕ n) = pipe_used p - n.
Proof.
  intros Hn. pose proof (used_range p) as Hu. unfold pipe_used, sub64, add64 in *. unfold wrap64 in *.
  rewrite Zminus_mod_idemp_r. replace (head p - (tail p + n)) with (head p - tail p - n) by lia.
  rewrite <-Zminus_mod_idemp_l. apply Z.mod_small. lia.
Qed.

Lemma used_head p n : 0 ≤ n → pipe_used p + n ≤ PIPE_SIZE → (head p ⊕ n) ⊖ tail p = pipe_used p + n.
Proof.
  intros Hn Hs. pose proof (used_range p) as Hu. unfold pipe_used, sub64, add64 in *. unfold wrap64 in *.
  rewrite Zminus_mod_idemp_l. replace (head p + n - tail p) with (head p - tail p + n) by lia.
  rewrite <-Zplus_mod_idemp_l. apply Z.mod_small. unfold PIPE_SIZE, U64 in *. lia.
Qed.

(** A run of bytes that does not cross the end of the ring. *)
Lemma run_mod x k : 0 ≤ k < PIPE_SIZE - x `mod` PIPE_SIZE → x `mod` PIPE_SIZE + k = (x + k) `mod` PIPE_SIZE.
Proof.
  intros Hk. rewrite <-Zplus_mod_idemp_l. symmetry. apply Z.mod_small.
  pose proof (Z.mod_pos_bound x PIPE_SIZE ltac:(done)). lia.
Qed.

Definition advance (p : pipe) (n : Z) : pipe := Pipe (buf p) (head p) (tail p ⊕ n) (readers p) (writers p) (w_counter p).

Lemma advance_spec p n :
  pipe_ok p → 0 ≤ n ≤ pipe_used p → n ≤ PIPE_SIZE - tail p `mod` PIPE_SIZE →
  pipe_ok (advance p n) ∧ pipe_used (advance p n) = pipe_used p - n ∧
  contents p = bytes_at (buf p) (tail p `mod` PIPE_SIZE) n ++ contents (advance p n).
Proof.
  intros [H1 H2 H3] Hn Hw. assert (pipe_used (advance p n) = pipe_used p - n) as Hu by exact (used_tail p n Hn).
  split; [split; [done|apply add64_ok|rewrite Hu; lia]|]. split; [done|]. unfold contents, bytes_at. rewrite Hu.
  replace (pipe_used p) with (n + (pipe_used p - n)) at 1 by lia. rewrite seqZ_app, fmap_app by lia. f_equal.
  - apply list_fmap_ext. intros j k Hk. apply list_elem_of_lookup_2, elem_of_seqZ in Hk. f_equal. symmetry. apply run_mod. lia.
  - cbn [advance buf tail]. apply list_eq. intros j. rewrite !list_lookup_fmap.
    destruct (decide (Z.of_nat j < pipe_used p - n)).
    + rewrite !lookup_seqZ_lt by lia. simpl. f_equal. f_equal. rewrite <-(Zplus_mod_idemp_l (tail p ⊕ n)), mod_add64, Zplus_mod_idemp_l. f_equal. lia.
    + rewrite !lookup_seqZ_ge by lia. done.
Qed.

Definition same_ends (p p' : pipe) : Prop := readers p' = readers p ∧ writers p' = writers p ∧ w_counter p' = w_counter p.

(** Copies left to make. *)
Definition copies (pos want : Z) : nat :=
  if want <=? 0 then 0 else if want <=? PIPE_SIZE - pos `mod` PIPE_SIZE then 1 else 2.

Lemma copies_step x want n :
  0 < want ≤ PIPE_SIZE → n = Z.min want (PIPE_SIZE - x `mod` PIPE_SIZE) →
  0 < n ∧ (copies (x ⊕ n) (want - n) < copies x want)%nat.
Proof.
  intros Hw ->. pose proof (Z.mod_pos_bound x PIPE_SIZE ltac:(done)) as Hx. split; [lia|].
  unfold copies at 2. replace (want <=? 0) with false by lia. destruct (want <=? _) eqn:E; zbool.
  - unfold copies. replace (want - _ <=? 0) with true by lia. lia.
  - rewrite Z.min_r by lia.
    assert ((x ⊕ (PIPE_SIZE - x `mod` PIPE_SIZE)) `mod` PIPE_SIZE = 0) as Hz.
    { rewrite mod_add64. pose proof (Z.div_mod x PIPE_SIZE ltac:(done)).
      replace (x + (PIPE_SIZE - x `mod` PIPE_SIZE)) with ((x / PIPE_SIZE + 1) * PIPE_SIZE) by lia. by apply Z.mod_mul. }
    unfold copies. rewrite Hz. destruct (_ <=? 0); [lia|]. replace (want - _ <=? _) with true by lia. lia.
Qed.

Lemma next_fault_nil faults fault faults' :
  next_fault faults = (fault, faults') → faults = [] → fault = false ∧ faults' = [].
Proof. intros H ->. by injection H as <- <-. Qed.

Lemma read_loop_spec fuel p len done out faults :
  pipe_ok p → 0 ≤ done ≤ len → (copies (tail p) (Z.min (len - done) (pipe_used p)) < fuel)%nat →
  ∃ p' out' r, read_loop fuel p len done out faults = Some (RRet p' (out ++ out') r) ∧
    pipe_ok p' ∧ same_ends p p' ∧ contents p = out' ++ contents p' ∧
    (r = done + Z.of_nat (length out') ∨ r = - EFAULT ∧ done = 0 ∧ out' = []) ∧
    (faults = [] → r = done + Z.min (len - done) (pipe_used p)).
Proof.
  revert p done out faults. induction fuel as [|fuel IH]; intros p done out faults Hok Hd Hf; [lia|]. cbn [read_loop].
  pose proof (used_range p) as Hu. destruct ((done <? len) && negb (pipe_used p =? 0)) eqn:Ec.
  2:{ exists p, [], done. rewrite app_nil_r. split_and!; try done; [left; simpl; lia|]. intros _. zbool. lia. }
  zbool. set (off := tail p `mod` PIPE_SIZE) in *. set (n := Z.min (Z.min _ _) _).
  destruct (next_fault faults) as [fault faults'] eqn:Ef. pose proof (next_fault_nil _ _ _ Ef) as Hnil.
  destruct fault.
  { exists p, [], (if done =? 0 then - EFAULT else done). rewrite app_nil_r. split_and!; try done; [|intros Hx; by destruct (Hnil Hx)].
    destruct (done =? 0) eqn:E0; zbool; [right; done|left; simpl; lia]. }
  destruct (copies_step (tail p) (Z.min (len - done) (pipe_used p)) n) as [Hn Hcp]; [destruct Hok; lia|done|]. fold (advance p n).
  destruct (advance_spec p n Hok) as (A1 & A2 & A3); [lia|lia|].
  destruct (IH (advance p n) (done + n) (out ++ bytes_at (buf p) off n) faults') as (p' & out' & r & R1 & R2 & R3 & R4 & R5 & R6);
    [done|lia| |].
  { rewrite A2. cbn [advance tail].
    replace (Z.min (len - (done + n)) (pipe_used p - n)) with (Z.min (len - done) (pipe_used p) - n) by lia. lia. }
  assert (Z.of_nat (length (bytes_at (buf p) off n)) = n) as Hlen by (unfold bytes_at; rewrite length_fmap, length_seqZ; lia).
  exists p', (bytes_at (buf p) off n ++ out'), r. rewrite app_assoc, length_app. split_and!; try done.
  - by rewrite <-app_assoc, <-R4.
  - destruct R5 as [->|(_ & ? & _)]; [left; lia|lia].
  - intros Hf0. destruct (Hnil Hf0) as [_ ->]. rewrite R6, A2 by done. lia.
Qed.

(** Storing bytes behind the head. *)
Definition append (p : pipe) (l : list Z) : pipe :=
  Pipe (store_bytes (buf p) (head p `mod` PIPE_SIZE) l) (head p ⊕ Z.of_nat (length l)) (tail p) (readers p) (writers p) (w_counter p).

Lemma append_spec p l :
  let n := Z.of_nat (length l) in
  pipe_ok p → pipe_used p + n ≤ PIPE_SIZE → n ≤ PIPE_SIZE - head p `mod` PIPE_SIZE →
  pipe_ok (append p l) ∧ pipe_used (append p l) = pipe_used p + n ∧ contents (append p l) = contents p ++ l.
Proof.
  cbn zeta. set (n := Z.of_nat (length l)). intros [H1 H2 H3] Hs Hw. pose proof (used_range p) as Hu.
  assert (pipe_used (append p l) = pipe_used p + n) as Hu' by (apply (used_head p n); lia).
  split; [split; [apply add64_ok|done|rewrite Hu'; lia]|]. split; [done|].
  assert (head p `mod` PIPE_SIZE = (tail p + pipe_used p) `mod` PIPE_SIZE) as Hhd.
  { rewrite <-mod_add64. f_equal. unfold pipe_used, add64, sub64, wrap64. rewrite Zplus_mod_idemp_r.
    replace (tail p + (head p - tail p)) with (head p) by lia. symmetry. apply Z.mod_small. done. }
  apply list_eq. intros j. unfold contents at 1. rewrite Hu', list_lookup_fmap.
  destruct (decide (Z.of_nat j < pipe_used p)) as [Hj|Hj]; [|destruct (decide (Z.of_nat j < pipe_used p + n)) as [Hj2|Hj2]].
  - rewrite lookup_seqZ_lt by lia. rewrite lookup_app_l by (pose proof (contents_length p); lia). unfold contents.
    rewrite list_lookup_fmap, lookup_seqZ_lt by lia. simpl. f_equal. unfold store_bytes.
    destruct ((_ <=? _) && _) eqn:E; [|done]. exfalso. zbool.
    set (k := (tail p + (0 + Z.of_nat j)) `mod` PIPE_SIZE - head p `mod` PIPE_SIZE).
    assert (head p `mod` PIPE_SIZE + k = (tail p + Z.of_nat j) `mod` PIPE_SIZE) as Hk by (unfold k; rewrite Z.add_0_l; lia).
    assert (((tail p + pipe_used p + k) - (tail p + Z.of_nat j)) `mod` PIPE_SIZE = 0) as Hz.
    { rewrite Zminus_mod, <-(run_mod (tail p + pipe_used p) k) by (rewrite <-Hhd; unfold k; lia).
      by rewrite <-Hhd, Hk, Z.sub_diag. }
    apply Z.mod_divide in Hz as [q Hq]; [|done]. assert (0 < pipe_used p + k - Z.of_nat j < PIPE_SIZE) by (unfold k in *; lia).
    assert (q * PIPE_SIZE = pipe_used p + k - Z.of_nat j) by lia. unfold PIPE_SIZE in *. lia.
  - rewrite lookup_seqZ_lt by lia. rewrite lookup_app_r by (pose proof (contents_length p); lia). simpl.
    replace (j - length (contents p))%nat with (Z.to_nat (Z.of_nat j - pipe_used p)) by (pose proof (contents_length p); lia).
    set (k := Z.of_nat j - pipe_used p). cbn [append buf tail].
    assert ((tail p + (0 + Z.of_nat j)) `mod` PIPE_SIZE = head p `mod` PIPE_SIZE + k) as ->.
    { rewrite Hhd, run_mod by (rewrite <-Hhd; unfold k; lia). f_equal. unfold k. lia. }
    unfold store_bytes. replace ((_ <=? _) && _) with true by (symmetry; fold n; unfold k; lia).
    replace (head p `mod` PIPE_SIZE + k - head p `mod` PIPE_SIZE) with k by lia.
    symmetry. apply list_lookup_lookup_total_lt. unfold k. lia.
  - rewrite lookup_seqZ_ge by lia. symmetry. apply lookup_ge_None_2. rewrite length_app. pose proof (contents_length p). lia.
Qed.

Definition res_pipe (w : write_res) : pipe := match w with WBlock p _ => p | WRet p _ _ _ => p end.
Definition res_done (w : write_res) : Z := match w with WBlock _ d => d | WRet _ d _ _ => d end.

(** What a write from [done] on may return. *)
Record wrote (p : pipe) (nonblock : bool) (data : list Z) (done : Z) (faults : list bool) (w : write_res) : Prop := {
  wr_ok : pipe_ok (res_pipe w);
  wr_ends : same_ends p (res_pipe w);
  wr_range : done ≤ res_done w ≤ Z.of_nat (length data);
  wr_contents : contents (res_pipe w) = contents p ++ take (Z.to_nat (res_done w - done)) (drop (Z.to_nat done) data);
  wr_result : match w with
    | WBlock _ d => nonblock = false ∧ d < Z.of_nat (length data) ∧ readers p ≠ 0
    | WRet _ d r sig => (r = d ∨ d = 0 ∧ (r = - EPIPE ∧ sig = true ∨ r = - EAGAIN ∧ nonblock = true ∨ r = - EFAULT ∧ faults ≠ [])) ∧
                        (sig = true → readers p = 0)
    end;
  wr_all : faults = [] → readers p ≠ 0 → Z.of_nat (length data) - done ≤ PIPE_SIZE - pipe_used p →
    res_done w = Z.of_nat (length data);
  wr_none : Z.of_nat (length data) - done ≤ PIPE_BUF → PIPE_SIZE - pipe_used p < Z.of_nat (length data) - done →
    res_done w = done;
}.

Lemma wrote_stay p nonblock data done faults w :
  pipe_ok p → res_pipe w = p → res_done w = done → done ≤ Z.of_nat (length data) →
  match w with
  | WBlock _ d => nonblock = false ∧ d < Z.of_nat (length data) ∧ readers p ≠ 0
  | WRet _ d r sig => (r = d ∨ d = 0 ∧ (r = - EPIPE ∧ sig = true ∨ r = - EAGAIN ∧ nonblock = true ∨ r = - EFAULT ∧ faults ≠ [])) ∧
                      (sig = true → readers p = 0)
  end →
  (faults = [] → readers p ≠ 0 → Z.of_nat (length data) - done ≤ PIPE_SIZE - pipe_used p → done = Z.of_nat (length data)) →
  wrote p nonblock data done faults w.
Proof.
  intros Hok Hp Hd Hle Hr Ha. split; rewrite ?Hp, ?Hd; [done|done|lia| |done|done|done].
  rewrite Z.sub_diag. by rewrite app_nil_r.
Qed.

Lemma wrote_step p n nonblock data done faults faults' w :
  let l := take (Z.to_nat n) (drop (Z.to_nat done) data) in
  0 ≤ done → 0 < n ≤ Z.of_nat (length data) - done → pipe_used (append p l) = pipe_used p + n →
  contents (append p l) = contents p ++ l → (faults = [] → faults' = []) →
  (PIPE_BUF < Z.of_nat (length data) - done ∨ Z.of_nat (length data) - done ≤ PIPE_SIZE - pipe_used p) → faults' = [] ∨ faults ≠ [] →
  wrote (append p l) nonblock data (done + n) faults' w → wrote p nonblock data done faults w.
Proof.
  cbn zeta. intros H0 Hn Hu Hc Hf Hs Hff [W1 W2 W3 W4 W5 W6 W7]. split; [done|done|lia| | |intros ? ? ?; apply W6; (auto || lia)|lia].
  - rewrite W4, Hc, <-app_assoc. f_equal. replace (Z.to_nat (done + n)) with (Z.to_nat done + Z.to_nat n)%nat by lia.
    rewrite <-drop_drop, take_take_drop. f_equal. lia.
  - destruct w as [p' d|p' d r sig]; [done|]. cbn [res_done] in W3. destruct W5 as [[?|(? & _)] ?]; [by split; [left|]|lia].
Qed.

Lemma pipe_write_spec fuel p nonblock data done faults :
  pipe_ok p → 0 ≤ done ≤ Z.of_nat (length data) →
  (copies (head p) (Z.min (Z.of_nat (length data) - done) (PIPE_SIZE - pipe_used p)) < fuel)%nat →
  ∃ w, pipe_write fuel p nonblock data done faults = Some w ∧ wrote p nonblock data done faults w.
Proof.
  revert p done faults. induction fuel as [|fuel IH]; intros p done faults Hok Hd Hf; [lia|]. cbn [pipe_write].
  pose proof (used_range p) as Hu. pose proof (po_used _ Hok) as Hmax. set (len := Z.of_nat (length data)) in *.
  destruct (len <=? done) eqn:E1; zbool.
  { eexists. split; [done|]. apply wrote_stay; try done; [lia|by split; [left|]|]. fold len. lia. }
  destruct (readers p =? 0) eqn:E2; zbool.
  { eexists. split; [done|]. apply wrote_stay; try done; [lia|]. split; [|done]. destruct (done =? 0) eqn:E0; zbool; [right|by left].
    split; [done|by left]. }
  assert (PIPE_SIZE ⊖ pipe_used p = PIPE_SIZE - pipe_used p) as -> by (apply sub64_small; unfold PIPE_SIZE, U64 in *; lia).
  set (space := PIPE_SIZE - pipe_used p) in *. set (want := len - done) in *.
  destruct ((space =? 0) || ((want <=? PIPE_BUF) && (space <? want))) eqn:E3.
  { assert (∀ f : list bool, f = [] → readers p ≠ 0 → len - done ≤ PIPE_SIZE - pipe_used p → done = len) as Hx.
    { intros f _ _ Hx. apply orb_true_iff in E3 as [E3|E3]; zbool; unfold space, want in *; lia. }
    destruct nonblock; eexists; (split; [done|]); apply wrote_stay; try done; try (fold len; lia).
    split; [|done]. destruct (done =? 0) eqn:E0; zbool; [right|by left]. split; [done|]. right. by left. }
  apply orb_false_iff in E3 as [E3 E4]. zbool. set (n := Z.min (Z.min want space) _).
  destruct (next_fault faults) as [fault faults'] eqn:Ef. pose proof (next_fault_nil _ _ _ Ef) as Hnil. destruct fault.
  { assert (faults ≠ []) as Hne by (intros Hx; by destruct (Hnil Hx)).
    eexists. split; [done|]. apply wrote_stay; try done; [fold len; lia|]. split; [|done].
    destruct (done =? 0) eqn:E0; zbool; [right|by left]. split; [done|]. right. by right. }
  destruct (copies_step (head p) (Z.min want space) n) as [Hn Hcp]; [unfold space, want; lia|done|].
  set (l := take (Z.to_nat n) (drop (Z.to_nat done) data)).
  assert (Z.of_nat (length l) = n) as Hl.
  { unfold l. rewrite length_take, length_drop. unfold n, want, len in *. lia. }
  destruct (append_spec p l Hok) as (A1 & A2 & A3); [unfold space in *; lia|lia|]. rewrite Hl in A2.
  assert (append p l = Pipe (store_bytes (buf p) (head p `mod` PIPE_SIZE) l) (head p ⊕ n) (tail p) (readers p) (writers p) (w_counter p)) as <-
    by (unfold append; by rewrite Hl).
  destruct (IH (append p l) (done + n) faults') as (w & Hw & W); [done|unfold want in *; fold len; lia| |].
  { fold len. rewrite A2. cbn [append head]. rewrite Hl.
    replace (Z.min (len - (done + n)) (PIPE_SIZE - (pipe_used p + n))) with (Z.min want space - n) by (unfold want, space; lia). lia. }
  exists w. split; [done|]. apply (wrote_step p n nonblock data done faults faults'); try done.
  - lia.
  - fold len. fold want. lia.
  - intros Hx. by destruct (Hnil Hx).
  - fold len. fold want. fold space. destruct (want <=? PIPE_BUF) eqn:E5; zbool; [right; simpl in E4; lia|left; lia].
  - destruct faults; [left; by apply Hnil|by right].
Qed.

Lemma pipe_read_spec p nonblock len faults :
  pipe_ok p → 0 ≤ len →
  pipe_read p nonblock len faults = Some RBlock ∧ nonblock = false ∧ pipe_used p = 0 ∧ writers p ≠ 0 ∨
  ∃ p' out r, pipe_read p nonblock len faults = Some (RRet p' out r) ∧ pipe_ok p' ∧ same_ends p p' ∧ contents p = out ++ contents p'.
Proof.
  intros Hok Hl. unfold pipe_read. destruct (pipe_used p =? 0) eqn:E; zbool.
  - destruct (writers p =? 0) eqn:Ew; zbool; [right; by eexists _, _, _|]. destruct nonblock; [right; by eexists _, _, _|by left].
  - right. destruct (read_loop_spec 3 p len 0 [] faults Hok) as (p' & out & r & H1 & H2 & H3 & H4 & _); [lia| |by eexists _, _, _].
    unfold copies. repeat case_match; lia.
Qed.

(** ** Histories *)

Inductive pipe_op : Type :=
  | ORead (nonblock : bool) (len : Z) (faults : list bool)
  | OWrite (nonblock : bool) (data : list Z) (done : Z) (faults : list bool)
  | OReaders (n : Z)
  | OWriters (n c : Z).

Definition op_ok (o : pipe_op) : Prop :=
  match o with
  | ORead _ len _ => 0 ≤ len
  | OWrite _ data done _ => 0 ≤ done ≤ Z.of_nat (length data)
  | _ => True
  end.

(** The pipe, all bytes accepted and all bytes handed out so far. *)
Definition pipe_do (p : pipe) (win rout : list Z) (o : pipe_op) : option (pipe * list Z * list Z) :=
  match o with
  | ORead nonblock len faults =>
      match pipe_read p nonblock len faults with
      | None => None
      | Some RBlock => Some (p, win, rout)
      | Some (RRet p' out _) => Some (p', win, rout ++ out)
      end
  | OWrite nonblock data done faults =>
      match pipe_write WRITE_FUEL p nonblock data done faults with
      | None => None
      | Some w => Some (res_pipe w, win ++ take (Z.to_nat (res_done w - done)) (drop (Z.to_nat done) data), rout)
      end
  | OReaders n => Some (set_readers p n, win, rout)
  | OWriters n c => Some (set_writers p n c, win, rout)
  end.

Fixpoint pipe_run (p : pipe) (win rout : list Z) (ops : list pipe_op) : option (pipe * list Z * list Z) :=
  match ops with
  | [] => Some (p, win, rout)
  | o :: ops => match pipe_do p win rout o with None => None | Some (p, win, rout) => pipe_run p win rout ops end
  end.

Lemma pipe_do_spec p win rout o :
  pipe_ok p → win = rout ++ contents p → op_ok o →
  ∃ p' win' rout', pipe_do p win rout o = Some (p', win', rout') ∧ pipe_ok p' ∧ win' = rout' ++ contents p'.
Proof.
  intros Hok Hw Ho. destruct o as [nb len faults|nb data done faults|n|n c]; cbn [pipe_do op_ok] in Ho |- *.
  - destruct (pipe_read_spec p nb len faults Hok Ho) as [(-> & _)|(p' & out & r & -> & H1 & _ & H2)]; [by eexists _, _, _|].
    eexists _, _, _. split_and!; [done|done|]. by rewrite Hw, H2, app_assoc.
  - destruct (pipe_write_spec WRITE_FUEL p nb data done faults Hok Ho) as (w & -> & [W1 W2 W3 W4 _ _ _]);
      [unfold copies, WRITE_FUEL; repeat case_match; lia|].
    eexists _, _, _. split_and!; [done|done|]. by rewrite Hw, W4, app_assoc.
  - eexists _, _, _. split_and!; [done|by destruct Hok; split|done].
  - eexists _, _, _. split_and!; [done|by destruct Hok; split|done].
Qed.

Lemma pipe_alloc_ok : pipe_ok pipe_alloc.
Proof. split; [unfold u64_ok, U64; simpl; lia..|]. vm_compute. intros X. discriminate X. Qed.

(** One round of a write whose remaining bytes fit. *)
Lemma pipe_write_fits fuel p nonblock data done faults :
  let len := Z.of_nat (length data) in
  let n := Z.min (len - done) (PIPE_SIZE - head p `mod` PIPE_SIZE) in
  let l := take (Z.to_nat n) (drop (Z.to_nat done) data) in
  pipe_ok p → readers p ≠ 0 → 0 ≤ done < len → len - done ≤ PIPE_SIZE - pipe_used p →
  pipe_used (append p l) = pipe_used p + n ∧ pipe_ok (append p l) ∧
  pipe_write (S fuel) p nonblock data done faults =
    let '(fault, faults) := next_fault faults in
    if fault then Some (WRet p done (if done =? 0 then - EFAULT else done) false)
    else pipe_write fuel (append p l) nonblock data (done + n) faults.
Proof.
  cbn zeta. set (len := Z.of_nat (length data)). set (n := Z.min _ _). set (l := take _ _). intros Hok Hr Hd Hs.
  pose proof (used_range p) as Hu. pose proof (po_used _ Hok) as Hmax.
  pose proof (Z.mod_pos_bound (head p) PIPE_SIZE ltac:(done)) as Hh.
  assert (Z.of_nat (length l) = n) as Hl by (unfold l; rewrite length_take, length_drop; unfold n, len in *; lia).
  destruct (append_spec p l Hok) as (A1 & A2 & _); [lia|lia|]. split; [by rewrite Hl in A2|]. split; [done|].
  cbn [pipe_write]. fold len. replace (len <=? done) with false by lia. replace (readers p =? 0) with false by lia.
  rewrite (sub64_small PIPE_SIZE) by (unfold PIPE_SIZE, U64 in *; lia).
  replace (_ || _) with false by (symmetry; apply orb_false_iff; split; [|apply andb_false_iff; right]; lia).
  rewrite (Z.min_l (len - done) (PIPE_SIZE - pipe_used p)) by lia. fold n l.
  destruct (next_fault faults) as [[] faults']; [done|]. unfold append. by rewrite Hl.
Qed.

(** The bytes a write of at most [PIPE_BUF] bytes appends when they fit: none
    if the first copy faults, those up to the end of the ring if it wraps and the
    second copy faults, all otherwise. *)
Definition accepted (p : pipe) (data : list Z) (faults : list bool) : Z :=
  let room := PIPE_SIZE - head p `mod` PIPE_SIZE in
  if (next_fault faults).1 then 0
  else if (room <? Z.of_nat (length data)) && (next_fault (next_fault faults).2).1 then room
  else Z.of_nat (length data).

Lemma pipe_write_accepted p nonblock data faults :
  let d := accepted p data faults in
  pipe_ok p → readers p ≠ 0 → 0 < Z.of_nat (length data) ≤ PIPE_SIZE - pipe_used p →
  ∃ p', pipe_write WRITE_FUEL p nonblock data 0 faults = Some (WRet p' d (if d =? 0 then - EFAULT else d) false).
Proof.
  cbn zeta. intros Hok Hr Hl. unfold accepted, WRITE_FUEL. set (len := Z.of_nat (length data)) in *.
  pose proof (Z.mod_pos_bound (head p) PIPE_SIZE ltac:(done)) as Hh.
  destruct (pipe_write_fits 3 p nonblock data 0 faults Hok Hr) as (U & A & ->); [fold len; lia..|]. fold len in U, A |- *.
  rewrite Z.sub_0_r, !Z.add_0_l in *. destruct (next_fault faults) as [[] fs]; cbn [fst snd]; [by exists p|].
  destruct (PIPE_SIZE - head p `mod` PIPE_SIZE <? len) eqn:E; zbool; cbn [andb].
  2:{ rewrite Z.min_l by lia. cbn [pipe_write]. fold len. replace (len <=? len) with true by lia.
      replace (len =? 0) with false by lia. by eexists. }
  rewrite Z.min_r in * by lia. set (room := PIPE_SIZE - head p `mod` PIPE_SIZE) in *. set (q := append p _) in *.
  assert (head q `mod` PIPE_SIZE = 0) as Hz.
  { unfold q. cbn [append head]. rewrite length_take, length_drop, mod_add64. rewrite Nat.min_l by (unfold len, room in *; lia).
    pose proof (Z.div_mod (head p) PIPE_SIZE ltac:(done)). rewrite Z2Nat.id by (unfold room; lia).
    replace (head p + room) with ((head p / PIPE_SIZE + 1) * PIPE_SIZE) by (unfold room; lia). by apply Z.mod_mul. }
  destruct (pipe_write_fits 2 q nonblock data room fs A Hr) as (U2 & A2 & ->); [fold len; lia..|]. fold len.
  destruct (next_fault fs) as [[] fs2]; cbn [fst snd].
  { replace (room =? 0) with false by lia. by eexists. }
  rewrite Hz, Z.sub_0_r, Z.min_l by (pose proof (used_range p); lia). replace (room + (len - room)) with len by lia.
  cbn [pipe_write]. fold len. replace (len <=? len) with true by lia. replace (len =? 0) with false by lia. by eexists.
Qed.

(** A write of at most [PIPE_BUF] bytes to a pipe with a reader: if the bytes
    fit it appends the bytes [accepted] in one piece, and if they do not the pipe is
    unchanged and the call waits, or fails with EAGAIN when it must not. *)
Lemma pipe_write_atomic p nonblock data faults :
  pipe_ok p → readers p ≠ 0 → 0 < Z.of_nat (length data) ≤ PIPE_BUF →
  ∃ w, pipe_write WRITE_FUEL p nonblock data 0 faults = Some w ∧
    if decide (Z.of_nat (length data) ≤ PIPE_SIZE - pipe_used p)
    then ∃ p', w = WRet p' (accepted p data faults) (if accepted p data faults =? 0 then - EFAULT else accepted p data faults) false ∧
               contents p' = contents p ++ take (Z.to_nat (accepted p data faults)) data
    else contents (res_pipe w) = contents p ∧
         if nonblock then ∃ p', w = WRet p' 0 (- EAGAIN) false else ∃ p', w = WBlock p' 0.
Proof.
  intros Hok Hr Hl. destruct (pipe_write_spec WRITE_FUEL p nonblock data 0 faults Hok) as (w & E & [W1 W2 W3 W4 W5 W6 W7]);
    [lia|unfold copies, WRITE_FUEL; repeat case_match; lia|].
  exists w. split; [done|]. rewrite Z.sub_0_r in *. case_decide as Hs.
  - destruct (pipe_write_accepted p nonblock data faults Hok Hr) as [p' Hp']; [lia|]. rewrite E in Hp'. injection Hp' as ->.
    exists p'. split; [done|]. exact W4.
  - rewrite W7 in W4 by lia. rewrite app_nil_r in W4. split; [done|].
    assert (res_done w = 0) as Hd by (apply W7; lia). cbn [pipe_write WRITE_FUEL] in E.
    replace (Z.of_nat (length data) <=? 0) with false in E by lia. replace (readers p =? 0) with false in E by lia.
    pose proof (used_range p). pose proof (po_used _ Hok). rewrite (sub64_small PIPE_SIZE) in E by (unfold PIPE_SIZE, U64 in *; lia).
    rewrite Z.sub_0_r in E. replace (_ || _) with true in E by (symmetry; apply orb_true_iff; right; lia).
    destruct nonblock; injection E as <-; eauto.
Qed.

(** The comment "writes <= PIPE_BUF are atomic" does not hold of a write that
    wraps the ring and whose second copy faults: the bytes of the first copy stay,
    and the call returns their number. *)
Theorem faulting_write_partial :
  let p := Pipe (λ _, 0) (PIPE_SIZE - 1) (PIPE_SIZE - 1) 1 1 1 in
  match pipe_write WRITE_FUEL p false [1; 2] 0 [false; true] with
  | Some (WRet p' d r _) => contents p' = [1] ∧ d = 1 ∧ r = 1
  | _ => False
  end.
Proof. vm_compute. auto. Qed.

(** C19.  A pipe is a queue of bytes.  Over any sequence of reads and writes,
    also of calls that block, are continued, fail half-way at a bad address
    or find an end closed, and over any wrap of the ring and of its 64-bit
    positions: no call runs out of steps, the bytes accepted are the bytes
    handed out followed by the contents, and at most 64 KiB are held.  In every
    state that is reached, a write of at most [PIPE_BUF] bytes to a pipe with a
    reader appends all its bytes in one piece if they fit and no copy from user
    memory faults; if the first copy faults it appends nothing and returns -EFAULT;
    if it wraps the ring and the second copy faults, it has appended exactly the
    bytes up to the end of the ring and returns their number.  If the bytes do not
    fit nothing is appended and the call waits, or fails with EAGAIN when it must
    not wait. *)
Theorem pipe_fifo ops :
  Forall op_ok ops → ∃ p win rout, pipe_run pipe_alloc [] [] ops = Some (p, win, rout) ∧
    win = rout ++ contents p ∧ Z.of_nat (length (contents p)) ≤ PIPE_SIZE ∧
    ∀ nonblock data faults, readers p ≠ 0 → 0 < Z.of_nat (length data) ≤ PIPE_BUF →
      ∃ w, pipe_write WRITE_FUEL p nonblock data 0 faults = Some w ∧
        if decide (Z.of_nat (length data) ≤ PIPE_SIZE - pipe_used p)
        then ∃ p', w = WRet p' (accepted p data faults) (if accepted p data faults =? 0 then - EFAULT else accepted p data faults) false ∧
                   contents p' = contents p ++ take (Z.to_nat (accepted p data faults)) data
        else contents (res_pipe w) = contents p ∧
             if nonblock then ∃ p', w = WRet p' 0 (- EAGAIN) false else ∃ p', w = WBlock p' 0.
Proof.
  assert (∀ p win rout, pipe_ok p → win = rout ++ contents p → Forall op_ok ops →
    ∃ p' win' rout', pipe_run p win rout ops = Some (p', win', rout') ∧ pipe_ok p' ∧ win' = rout' ++ contents p') as H.
  { induction ops as [|o ops IH]; intros p win rout Hok Hw Ho; simpl; [by eexists _, _, _|].
    apply Forall_cons in Ho as [Ho Hos]. destruct (pipe_do_spec p win rout o Hok Hw Ho) as (p1 & w1 & r1 & -> & H1 & H2).
    by apply IH. }
  intros Ho. destruct (H pipe_alloc [] [] pipe_alloc_ok eq_refl Ho) as (p & win & rout & E & Hok & Hw).
  exists p, win, rout. split; [done|]. split; [done|]. split; [rewrite contents_length; apply Hok|].
  intros nonblock data faults. by apply pipe_write_atomic.
Qed.

Lemma pipe_fifo_witness :
  ∃ p, pipe_run pipe_alloc [] [] [OReaders 1; OWriters 1 1; OWrite true [1; 2; 3] 0 []; ORead true 2 []] = Some (p, [1; 2; 3], [1; 2]) ∧
       contents p = [3].
Proof.
  destruct (pipe_fifo [OReaders 1; OWriters 1 1; OWrite true [1; 2; 3] 0 []; ORead true 2 []]) as (p & win & rout & E & Hw & _).
  - apply Forall_cons. split; [exact I|]. apply Forall_cons. split; [exact I|]. apply Forall_cons. split; [simpl; lia|].
    apply Forall_cons. split; [simpl; lia|apply Forall_nil_2].
  - assert (match pipe_run pipe_alloc [] [] [OReaders 1; OWriters 1 1; OWrite true [1; 2; 3] 0 []; ORead true 2 []] with
            | Some (_, w, r) => (w, r) | None => ([], []) end = ([1; 2; 3], [1; 2])) as Hc by (vm_compute; reflexivity).
    rewrite E in Hc. injection Hc as -> ->. exists p. split; [exact E|]. by injection Hw.
Defined.
