(* ===== verification/FdTable.v ===== *)
(** * Open files and descriptor tables: src/fs/file.c

    A file is its number; [frc] holds the reference counts.  The last
    [file_put] frees the file: [freed] lists the files freed so far, and the
    file's own release operation is a step of its own. *)

From stdpp Require Import functions.
From S2P Require Import Prelude.


(** [cloexec] is an array of 64-bit words, one bit per descriptor. *)
Record fdtable : Type := Fdtable { t_max : Z; t_fd : list (option Z); t_cloexec : list Z }.

Record files : Type := Files { frc : Z → Z; freed : list Z; table : fdtable; rlim_nofile : Z }.

Definition set_frc (s : files) (f n : Z) : files := Files (<[f := n]> (frc s)) (freed s) (table s) (rlim_nofile s).
Definition set_table (s : files) (t : fdtable) : files := Files (frc s) (freed s) t (rlim_nofile s).

Definition file_alloc (s : files) (new : Z) : files := set_frc s new 1.
Definition file_get (s : files) (f : Z) : files := set_frc s f (frc s f + 1).

Definition file_put (s : files) (f : Z) : files :=
  let s := set_frc s f (frc s f - 1) in
  if 0 <? frc s f then s else Files (frc s) (freed s ++ [f]) (table s) (rlim_nofile s).

(** [file_put] of a pointer that may be null. *)
Definition file_put_opt (s : files) (f : option Z) : files := match f with None => s | Some f => file_put s f end.

Definition DIV_ROUND_UP (n d : Z) : Z := (n + d - 1) / d.

Definition fdtable_alloc (max : Z) (a_t a_fd a_cloexec : bool) : option fdtable :=
  if negb a_t then None
  else if negb a_fd || negb a_cloexec then None
  else Some (Fdtable max (replicate (Z.to_nat max) None) (replicate (Z.to_nat (DIV_ROUND_UP max 64)) 0)).

(** The new table shares every open file. *)
Definition fdtable_dup (s : files) (a_t a_fd a_cloexec : bool) : files * option fdtable :=
  let src := table s in
  match fdtable_alloc (t_max src) a_t a_fd a_cloexec with
  | None => (s, None)
  | Some t => (foldl (λ s e, match e with None => s | Some f => file_get s f end) s (t_fd src),
               Some (Fdtable (t_max t) (t_fd src) (t_cloexec src)))
  end.

(** The last reference to a table. *)
Definition fdtable_put (s : files) (t : fdtable) : files := foldl file_put_opt s (t_fd t).

(** ** The bits *)

Definition word (w : list Z) (i : Z) : Z := w !!! Z.to_nat (i / 64).
Definition get_bit (w : list Z) (i : Z) : bool := negb (Z.land (word w i) (Z.shiftl 1 (i `mod` 64)) =? 0).
Definition set_bit (w : list Z) (i : Z) : list Z :=
  <[Z.to_nat (i / 64) := Z.lor (word w i) (Z.shiftl 1 (i `mod` 64))]> w.
Definition clear_bit (w : list Z) (i : Z) : list Z :=
  <[Z.to_nat (i / 64) := Z.ldiff (word w i) (Z.shiftl 1 (i `mod` 64))]> w.

Definition entry (t : fdtable) (i : Z) : option Z := t_fd t !!! Z.to_nat i.
Definition set_entry (t : fdtable) (i : Z) (f : option Z) : fdtable :=
  Fdtable (t_max t) (<[Z.to_nat i := f]> (t_fd t)) (t_cloexec t).
Definition set_cloexec (t : fdtable) (w : list Z) : fdtable := Fdtable (t_max t) (t_fd t) w.

Definition close_one (s : files) (i : Z) : files :=
  let t := table s in
  match entry t i with
  | Some f =>
      if get_bit (t_cloexec t) i then
        let s := file_put s f in
        set_table s (set_cloexec (set_entry t i None) (clear_bit (t_cloexec t) i))
      else s
  | None => s
  end.

Definition fdtable_close_on_exec (s : files) : files := foldl close_one s (seqZ 0 (t_max (table s))).

(** ** Descriptors of the current process *)

Definition fget (s : files) (fd : Z) : files * option Z :=
  let t := table s in
  if (fd <? 0) || (t_max t <=? fd) then (s, None)
  else match entry t fd with None => (s, None) | Some f => (file_get s f, Some f) end.

(** The first free descriptor of the [n] from [i] on. *)
Fixpoint free_fd (n : nat) (t : fdtable) (i : Z) : option Z :=
  match n with
  | O => None
  | S n => match entry t i with None => Some i | Some _ => free_fd n t (i + 1) end
  end.

Definition fd_limit (s : files) : Z := if rlim_nofile s <? t_max (table s) then rlim_nofile s else t_max (table s).

Definition fd_install (s : files) (f min_fd : Z) (cloexec : bool) : files * Z :=
  let t := table s in
  match free_fd (Z.to_nat (fd_limit s - min_fd)) t min_fd with
  | None => (s, - EMFILE)
  | Some i =>
      let t := set_entry t i (Some f) in
      (set_table s (set_cloexec t (if cloexec then set_bit (t_cloexec t) i else clear_bit (t_cloexec t) i)), i)
  end.

Definition fd_close (s : files) (fd : Z) : files * Z :=
  let t := table s in
  if (fd <? 0) || (t_max t <=? fd) then (s, - EBADF)
  else
    match entry t fd with
    | None => (s, - EBADF)
    | Some f =>
        let t := set_entry t fd None in
        let s := set_table s (set_cloexec t (clear_bit (t_cloexec t) fd)) in
        (file_put s f, 0)
    end.

(** ** Invariant *)

Record table_ok (t : fdtable) : Prop := {
  to_max : 0 ≤ t_max t;
  to_fd : Z.of_nat (length (t_fd t)) = t_max t;
  to_words : Z.of_nat (length (t_cloexec t)) = DIV_ROUND_UP (t_max t) 64;
}.

Lemma fdtable_alloc_ok max a b c t : 0 ≤ max → fdtable_alloc max a b c = Some t → table_ok t.
Proof.
  intros Hm. unfold fdtable_alloc. repeat case_match; intros; simplify_eq. split; cbn; rewrite ?length_replicate; [lia|lia|].
  rewrite Z2Nat.id; [done|]. unfold DIV_ROUND_UP. apply Z.div_pos; lia.
Qed.

Lemma word_lt t i : table_ok t → 0 ≤ i < t_max t → (Z.to_nat (i / 64) < length (t_cloexec t))%nat.
Proof.
  intros [_ _ H] Hi. apply Nat2Z.inj_lt. rewrite H, Z2Nat.id by (apply Z.div_pos; lia). unfold DIV_ROUND_UP.
  apply Z.div_lt_upper_bound; [lia|]. pose proof (Z.mod_pos_bound (t_max t + 64 - 1) 64 ltac:(lia)).
  pose proof (Z.div_mod (t_max t + 64 - 1) 64 ltac:(lia)). lia.
Qed.

Lemma get_bit_testbit w i : get_bit w i = Z.testbit (word w i) (i `mod` 64).
Proof.
  unfold get_bit. pose proof (Z.mod_pos_bound i 64 ltac:(lia)) as Hm. rewrite Z.shiftl_1_l.
  assert (Z.land (word w i) (2 ^ (i `mod` 64)) = if Z.testbit (word w i) (i `mod` 64) then 2 ^ (i `mod` 64) else 0) as ->.
  { apply Z.bits_inj'. intros k Hk. rewrite Z.land_spec, Z.pow2_bits_eqb by lia.
    destruct (i `mod` 64 =? k) eqn:E; zbool.
    - rewrite <-E. destruct (Z.testbit _ _); [|by rewrite Z.testbit_0_l]. by rewrite Z.pow2_bits_true by lia.
    - rewrite andb_false_r. destruct (Z.testbit _ (i `mod` 64)); [|by rewrite Z.testbit_0_l]. by rewrite Z.pow2_bits_false by lia. }
  destruct (Z.testbit _ _); [|done]. pose proof (Z.pow_pos_nonneg 2 (i `mod` 64)). lia.
Qed.

Lemma bit_update (w : list Z) i j v :
  (Z.to_nat (i / 64) < length w)%nat → 0 ≤ i → 0 ≤ j →
  (∀ k, 0 ≤ k → Z.testbit v k = if i `mod` 64 =? k then Z.testbit v (i `mod` 64) else Z.testbit (word w i) k) →
  get_bit (<[Z.to_nat (i / 64) := v]> w) j = if decide (j = i) then Z.testbit v (i `mod` 64) else get_bit w j.
Proof.
  intros Hlt Hi Hj Hv. rewrite !get_bit_testbit. unfold word at 1. pose proof (Z.div_mod i 64 ltac:(lia)) as Ei.
  pose proof (Z.div_mod j 64 ltac:(lia)) as Ej. pose proof (Z.mod_pos_bound j 64 ltac:(lia)).
  destruct (decide (j / 64 = i / 64)) as [Eq|Hne].
  - rewrite Eq, list_lookup_total_insert_eq by done. rewrite Hv by lia. destruct (decide (j = i)) as [->|Hji].
    + by rewrite Z.eqb_refl.
    + replace (i `mod` 64 =? j `mod` 64) with false by lia. unfold word. by rewrite Eq.
  - rewrite list_lookup_total_insert_ne.
    + rewrite decide_False; [done|]. congruence.
    + intros E. apply Hne. apply Z2Nat.inj in E; [done|apply Z.div_pos; lia..].
Qed.

Lemma set_bit_spec t i j : table_ok t → 0 ≤ i < t_max t → 0 ≤ j →
  get_bit (set_bit (t_cloexec t) i) j = if decide (j = i) then true else get_bit (t_cloexec t) j.
Proof.
  intros Ht Hi Hj. pose proof (Z.mod_pos_bound i 64 ltac:(lia)) as Hm. unfold set_bit. rewrite bit_update; try lia.
  - case_decide; [|done]. rewrite Z.lor_spec, Z.shiftl_1_l, Z.pow2_bits_true by lia. by rewrite orb_true_r.
  - by apply word_lt.
  - intros k Hk. rewrite !Z.lor_spec, !Z.shiftl_1_l, !Z.pow2_bits_eqb by lia. rewrite Z.eqb_refl.
    destruct (i `mod` 64 =? k) eqn:E; zbool; [by rewrite !orb_true_r|by rewrite orb_false_r].
Qed.

Lemma clear_bit_spec t i j : table_ok t → 0 ≤ i < t_max t → 0 ≤ j →
  get_bit (clear_bit (t_cloexec t) i) j = if decide (j = i) then false else get_bit (t_cloexec t) j.
Proof.
  intros Ht Hi Hj. pose proof (Z.mod_pos_bound i 64 ltac:(lia)) as Hm. unfold clear_bit. rewrite bit_update; try lia.
  - case_decide; [|done]. rewrite Z.ldiff_spec, Z.shiftl_1_l, Z.pow2_bits_true by lia. by rewrite andb_false_r.
  - by apply word_lt.
  - intros k Hk. rewrite !Z.ldiff_spec, !Z.shiftl_1_l, !Z.pow2_bits_eqb by lia. rewrite Z.eqb_refl.
    destruct (i `mod` 64 =? k) eqn:E; zbool; [by rewrite !andb_false_r|by rewrite andb_true_r].
Qed.

(** ** Entries *)

Lemma entry_set t i j f : table_ok t → 0 ≤ i < t_max t → 0 ≤ j → entry (set_entry t i f) j = if decide (j = i) then f else entry t j.
Proof.
  intros [_ H _] Hi Hj. unfold entry, set_entry. cbn [t_fd]. case_decide as E.
  - subst. rewrite list_lookup_total_insert_eq; [done|lia].
  - rewrite list_lookup_total_insert_ne; [done|lia].
Qed.

Lemma set_entry_ok t i f w : table_ok t → length w = length (t_cloexec t) → table_ok (set_cloexec (set_entry t i f) w).
Proof. intros [H1 H2 H3] Hw. split; cbn; [done|by rewrite length_insert|by rewrite Hw]. Qed.

Lemma free_fd_spec n t i :
  match free_fd n t i with
  | None => ∀ j, i ≤ j < i + Z.of_nat n → entry t j ≠ None
  | Some r => i ≤ r < i + Z.of_nat n ∧ entry t r = None ∧ ∀ j, i ≤ j < r → entry t j ≠ None
  end.
Proof.
  revert i. induction n as [|n IH]; intros i; cbn [free_fd]; [intros j Hj; lia|].
  destruct (entry t i) as [f|] eqn:E; [|split_and!; [lia|lia|done|intros; lia]].
  specialize (IH (i + 1)). destruct (free_fd n t (i + 1)) as [r|].
  - destruct IH as (I1 & I2 & I3). split_and!; [lia|lia|done|]. intros j Hj. destruct (decide (j = i)) as [->|]; [congruence|apply I3; lia].
  - intros j Hj. destruct (decide (j = i)) as [->|]; [congruence|apply IH; lia].
Qed.

(** References that the table holds to [f]. *)
Definition is_file (f : Z) (e : option Z) : Z := if bool_decide (e = Some f) then 1 else 0.
Definition count (f : Z) (l : list (option Z)) : Z := foldr (λ e n, is_file f e + n) 0 l.
Definition held (s : files) (f : Z) : Z := count f (t_fd (table s)).

Lemma count_insert f l i e : (i < length l)%nat → count f (<[i := e]> l) = count f l - is_file f (l !!! i) + is_file f e.
Proof.
  revert i. induction l as [|x l IH]; intros i Hi; [simpl in Hi; lia|]. destruct i as [|i]; [simpl; lia|].
  simpl in *. rewrite IH by lia. lia.
Qed.

Lemma held_set s t i e :
  table_ok (table s) → 0 ≤ i < t_max (table s) → t_fd t = <[Z.to_nat i := e]> (t_fd (table s)) →
  ∀ f, held (set_table s t) f = held s f - is_file f (entry (table s) i) + is_file f e.
Proof. intros [_ H _] Hi Ht f. unfold held. cbn [set_table table]. rewrite Ht, count_insert by lia. done. Qed.

Lemma file_put_spec s f : (∀ g, frc (file_put s f) g = frc s g - is_file g (Some f)) ∧ table (file_put s f) = table s ∧
  rlim_nofile (file_put s f) = rlim_nofile s.
Proof.
  assert (∀ g, frc (set_frc s f (frc s f - 1)) g = frc s g - is_file g (Some f)) as H.
  { intros g. unfold set_frc, is_file. cbn [frc]. destruct (decide (g = f)) as [->|Hne].
    - rewrite fn_lookup_insert, bool_decide_true by done. done.
    - rewrite fn_lookup_insert_ne, bool_decide_false by congruence. lia. }
  unfold file_put. destruct (0 <? _); done.
Qed.

Lemma file_get_spec s f : (∀ g, frc (file_get s f) g = frc s g + is_file g (Some f)) ∧ table (file_get s f) = table s.
Proof.
  split; [|done]. intros g. unfold file_get, set_frc, is_file. cbn [frc]. destruct (decide (g = f)) as [->|Hne].
  - rewrite fn_lookup_insert, bool_decide_true by done. done.
  - rewrite fn_lookup_insert_ne, bool_decide_false by congruence. lia.
Qed.

Lemma fget_spec s fd s' o :
  fget s fd = (s', o) → table s' = table s ∧ rlim_nofile s' = rlim_nofile s ∧
  (∀ g, frc s' g = frc s g + (match o with None => 0 | Some f => is_file g (Some f) end)).
Proof.
  unfold fget. destruct (_ || _); [intros; simplify_eq; split_and!; try done; intros; lia|].
  destruct (entry _ _) as [f|]; intros; simplify_eq; split_and!; try done; [apply file_get_spec|intros; lia].
Qed.

Lemma fd_limit_range s : fd_limit s ≤ t_max (table s).
Proof. unfold fd_limit. case_match; lia. Qed.

Lemma fd_install_spec s f min_fd ce s' r :
  table_ok (table s) → 0 ≤ min_fd → fd_install s f min_fd ce = (s', r) →
  table_ok (table s') ∧ frc s' = frc s ∧ freed s' = freed s ∧ rlim_nofile s' = rlim_nofile s ∧
  (r = - EMFILE ∧ s' = s ∧ (∀ j, min_fd ≤ j < fd_limit s → entry (table s) j ≠ None) ∨
   min_fd ≤ r < fd_limit s ∧ entry (table s) r = None ∧ (∀ j, min_fd ≤ j < r → entry (table s) j ≠ None) ∧
   (∀ j, 0 ≤ j → entry (table s') j = if decide (j = r) then Some f else entry (table s) j) ∧
   (∀ j, 0 ≤ j → get_bit (t_cloexec (table s')) j = if decide (j = r) then ce else get_bit (t_cloexec (table s)) j) ∧
   (∀ g, held s' g = held s g + is_file g (Some f))).
Proof.
  intros Ht Hmin. unfold fd_install. pose proof (free_fd_spec (Z.to_nat (fd_limit s - min_fd)) (table s) min_fd) as Hf.
  pose proof (fd_limit_range s) as Hl.
  destruct (free_fd _ _ _) as [i|]; intros [= <- <-].
  - destruct Hf as (F1 & F2 & F3). assert (0 ≤ i < t_max (table s)) as Hi by lia.
    split; [apply set_entry_ok; [done|]; destruct ce; apply length_insert|]. split_and!; try done. right.
    split_and!; [lia|lia|done|done| | |].
    + intros j Hj. cbn [set_table table]. by apply (entry_set (table s)).
    + intros j Hj. cbn [set_table table set_cloexec t_cloexec set_entry]. destruct ce; [by apply set_bit_spec|by apply clear_bit_spec].
    + intros g. rewrite (held_set s _ i (Some f)) by done. rewrite F2. unfold is_file at 1. rewrite bool_decide_false by done. lia.
  - split_and!; try done. left. split_and!; [done|done|]. intros j Hj. apply Hf. lia.
Qed.

Lemma fd_close_spec s fd s' r :
  table_ok (table s) → fd_close s fd = (s', r) →
  table_ok (table s') ∧ rlim_nofile s' = rlim_nofile s ∧
  (r = - EBADF ∧ s' = s ∨ r = 0 ∧ 0 ≤ fd < t_max (table s) ∧ ∃ f, entry (table s) fd = Some f ∧ entry (table s') fd = None ∧
     (∀ g, held s' g = held s g - is_file g (Some f)) ∧ (∀ g, frc s' g = frc s g - is_file g (Some f))).
Proof.
  intros Ht. unfold fd_close. destruct (_ || _) eqn:E; [intros; simplify_eq; split_and!; try done; by left|]. zbool.
  destruct (entry (table s) fd) as [f|] eqn:Ef; intros; simplify_eq; [|split_and!; try done; by left].
  destruct (file_put_spec (set_table s (set_cloexec (set_entry (table s) fd None) (clear_bit (t_cloexec (set_entry (table s) fd None)) fd))) f)
    as (P1 & P2 & P3). rewrite P2, P3. split; [apply set_entry_ok; [done|apply length_insert]|]. split; [done|]. right.
  split; [done|]. split; [lia|]. exists f. split_and!; [done| | |done].
  - change (entry (set_entry (table s) fd None) fd = None). rewrite (entry_set (table s) fd fd None Ht) by lia. by rewrite decide_True.
  - intros g. unfold held at 1. rewrite P2.
    pose proof (held_set s (set_cloexec (set_entry (table s) fd None) (clear_bit (t_cloexec (table s)) fd)) fd None Ht ltac:(lia) eq_refl g) as Hh.
    unfold held at 1 in Hh. rewrite Ef in Hh. unfold is_file at 2 in Hh. rewrite bool_decide_false in Hh by done.
    etrans; [exact Hh|]. lia.
Qed.

(**  [fd_install] takes the lowest free descriptor from [min_fd] on
    below the limits of the table and of the process, sets its close-on-exec
    bit as asked, and touches no other descriptor or bit; [fget] then finds
    the file there, and [fd_close] gives the slot and the reference back.
    Without a free descriptor it fails with EMFILE and changes nothing. *)
Theorem fd_install_correct s f min_fd ce s' r :
  table_ok (table s) → 0 ≤ min_fd → fd_install s f min_fd ce = (s', r) →
  table_ok (table s') ∧ frc s' = frc s ∧
  (r = - EMFILE ∧ s' = s ∧ (∀ j, min_fd ≤ j < fd_limit s → entry (table s) j ≠ None) ∨
   min_fd ≤ r < fd_limit s ∧ entry (table s) r = None ∧ (∀ j, min_fd ≤ j < r → entry (table s) j ≠ None) ∧
   (∀ j, 0 ≤ j → entry (table s') j = if decide (j = r) then Some f else entry (table s) j) ∧
   (∀ j, 0 ≤ j → get_bit (t_cloexec (table s')) j = if decide (j = r) then ce else get_bit (t_cloexec (table s)) j) ∧
   fget s' r = (file_get s' f, Some f) ∧
   ∃ s2, fd_close s' r = (s2, 0) ∧ (∀ g, held s2 g = held s g) ∧ ∀ g, frc s2 g = frc s g - is_file g (Some f)).
Proof.
  intros Ht Hm H. destruct (fd_install_spec s f min_fd ce s' r Ht Hm H) as (H1 & H2 & _ & H2' & Hor).
  split; [done|]. split; [done|]. destruct Hor as [?|(A1 & A2 & A3 & A4 & A5 & A6)]; [by left|right].
  assert (0 ≤ r < t_max (table s')) as Hr.
  { pose proof (fd_limit_range s). split; [lia|]. unfold fd_install in H. destruct (free_fd _ _ _); simplify_eq; cbn; lia. }
  assert (entry (table s') r = Some f) as Er by (rewrite A4 by lia; by rewrite decide_True).
  do 5 (split; [done|]). split.
  - unfold fget. replace (_ || _) with false by (symmetry; apply orb_false_iff; lia). by rewrite Er.
  - destruct (fd_close s' r) as [s2 r2] eqn:Ec. destruct (fd_close_spec s' r s2 r2 H1 Ec) as (_ & _ & [(-> & ->)|(-> & _ & f' & Ef & _ & C1 & C2)]).
    + exfalso. unfold fd_close in Ec. replace (_ || _) with false in Ec by (symmetry; apply orb_false_iff; lia). rewrite Er in Ec.
      injection Ec as _ Ec. unfold EBADF in Ec. lia.
    + assert (f' = f) as -> by congruence. exists s2. split_and!; [done| |].
      * intros g. rewrite C1, A6. lia.
      * intros g. by rewrite C2, H2.
Qed.

Definition ex_files : files := Files (λ _, 1) [] (Fdtable 3 [Some 7; None; None] [0]) 1024.

Lemma fd_install_witness : ∃ s', fd_install ex_files 9 0 true = (s', 1) ∧ table_ok (table s') ∧ entry (table s') 1 = Some 9.
Proof.
  destruct (fd_install ex_files 9 0 true) as [s' r] eqn:E.
  destruct (fd_install_correct ex_files 9 0 true s' r) as (H1 & _ & [(H & _)|(_ & _ & _ & H4 & _)]);
    [split; vm_compute; (reflexivity || intros X; discriminate X)|lia|exact E| |].
  - vm_compute in E. injection E as _ <-. vm_compute in H. discriminate H.
  - assert (r = 1) as -> by (change r with ((s', r).2); rewrite <-E; vm_compute; reflexivity).
    exists s'. split; [reflexivity|]. split; [exact H1|]. rewrite H4 by lia. reflexivity.
Defined.
