(* ===== verification/Channel.v ===== *)
(** * IPC channels: src/kernel/channel.c

    Two ends, called [false] (side 0) and [true] (side 1), each with a queue
    of messages to receive.  Messages carry bytes, the identity of the sender
    and references to files.  A call that has to wait ends as [CWait] or
    [VWait] with the references it took, and goes on in [resume] or [resume_recv]
    when it is woken. *)

From stdpp Require Import functions.
From S2P Require Import Prelude FdTable.

Notation CHAN_MAX_QUEUED := 256%Z (only parsing).
Notation CHAN_MAX_BYTES := (1024 * 1024)%Z (only parsing).
Definition OLUX_MSG_MAX : Z := 64 * 1024.
Definition OLUX_MSG_MAX_FDS : Z := 8.
Notation POLLIN := 1%Z (only parsing).
Notation POLLOUT := 4%Z (only parsing).
Notation POLLHUP := 16%Z (only parsing).
Notation POLLRDNORM := 64%Z (only parsing).
Notation POLLWRNORM := 256%Z (only parsing).

Record chan_msg : Type := ChanMsg {
  m_data : list Z;
  m_files : list Z;
  m_pid : Z;
  m_uid : Z;
  m_gid : Z;
}.

Definition m_len (m : chan_msg) : Z := Z.of_nat (length (m_data m)).

Record chan : Type := Chan {
  q : bool → list chan_msg;
  nq : bool → Z;
  bytes : bool → Z;
  closed : bool → bool;
  refs : Z;
}.

(** The channel, the files and the descriptors of the caller; [end_of] gives
    the side of a file that is an end, [nonblock] its O_NONBLOCK flag. *)
Record chsys : Type := Chsys { fs : files; ch : chan; end_of : Z → option bool; nonblock : Z → bool }.

Definition set_fs (s : chsys) (f : files) : chsys := Chsys f (ch s) (end_of s) (nonblock s).
Definition set_ch (s : chsys) (c : chan) : chsys := Chsys (fs s) c (end_of s) (nonblock s).

Definition put_files (s : files) (l : list Z) : files := foldl file_put s l.
Definition free_msg (s : files) (m : chan_msg) : files := put_files s (m_files m).

(** The end [me] is closed; both ends closed free the channel. *)
Definition chan_release (s : chsys) (me : bool) : chsys * bool :=
  let c := ch s in
  let dropped := q c me in
  let c := Chan (<[me := []]> (q c)) (<[me := 0]> (nq c)) (<[me := 0]> (bytes c)) (<[me := true]> (closed c)) (refs c - 1) in
  (set_fs (set_ch s c) (foldl free_msg (fs s) dropped), refs c =? 0).

Definition has_room (c : chan) (peer : bool) (len : Z) : bool :=
  (nq c peer <? CHAN_MAX_QUEUED) && (bytes c peer + len <=? CHAN_MAX_BYTES).

Definition chan_poll (c : chan) (me : bool) : Z :=
  let peer := negb me in
  let m := if negb (nq c me =? 0) then Z.lor POLLIN POLLRDNORM else 0 in
  if closed c peer then Z.lor m POLLHUP
  else if (nq c peer <? CHAN_MAX_QUEUED) && (bytes c peer <? CHAN_MAX_BYTES) then Z.lor m (Z.lor POLLOUT POLLWRNORM)
  else m.

Definition is_channel (s : chsys) (f : Z) : bool := match end_of s f with Some _ => true | None => false end.

(** All five objects or none. *)
Definition chan_create_pair (s : files) (fa fb : Z) (a_c a_ea a_eb a_fa a_fb : bool) : (files * chan) + Z :=
  if negb a_c || negb a_ea || negb a_eb || negb a_fa || negb a_fb then inr (- ENOMEM)
  else inl (file_alloc (file_alloc s fa) fb, Chan (λ _, []) (λ _, 0) (λ _, 0) (λ _, false) 2).

(** ** Sending *)

Inductive send_res : Type :=
  | SRet (s : chsys) (r : Z) (sigpipe : bool)
  | SWait (s : chsys) (m : chan_msg).

(** One pass of the loop with the message made. *)
Definition chan_try (s : chsys) (side : bool) (m : chan_msg) (from_kernel nb : bool) : send_res :=
  let c := ch s in
  let peer := negb side in
  if closed c peer then SRet (set_fs s (free_msg (fs s) m)) (- EPIPE) (negb from_kernel)
  else if has_room c peer (m_len m) then
    SRet (set_ch s (Chan (<[peer := q c peer ++ [m]]> (q c)) (<[peer := nq c peer + 1]> (nq c))
                         (<[peer := bytes c peer + m_len m]> (bytes c)) (closed c) (refs c))) 0 false
  else if nb then SRet s (- EAGAIN) false
  else SWait s m.

(** [a_msg]: the allocation; [fault]: the copy from user memory fails;
    [cred]: pid, uid and gid of the sender, zero for the kernel. *)
Definition chan_send (s : chsys) (f : Z) (side : bool) (data : list Z) (got : list Z) (a_msg fault from_kernel : bool)
    (cred : Z * Z * Z) : send_res :=
  let len := Z.of_nat (length data) in
  if OLUX_MSG_MAX <? len then SRet s (- EMSGSIZE) false
  else if negb a_msg then SRet s (- ENOMEM) false
  else if negb from_kernel && negb (len =? 0) && fault then SRet s (- EFAULT) false
  else
    let '(pid, uid, gid) := if from_kernel then (0, 0, 0) else cred in
    chan_try s side (ChanMsg data got pid uid gid) from_kernel (nonblock s f).

Definition chan_send_kernel (s : chsys) (f : Z) (data : list Z) (a_msg : bool) : send_res :=
  match end_of s f with
  | None => SRet s (- EINVAL) false
  | Some side => chan_send s f side data [] a_msg false true (0, 0, 0)
  end.

(** The descriptors to pass: [None] is a word that cannot be read. *)
Fixpoint gather (s : files) (fds : list (option Z)) (got : list Z) : files * list Z * Z :=
  match fds with
  | [] => (s, got, 0)
  | None :: _ => (s, got, - EFAULT)
  | Some xfd :: fds =>
      let '(s, o) := fget s xfd in
      match o with None => (s, got, - EBADF) | Some f => gather s fds (got ++ [f]) end
  end.

Definition send_finish (s : chsys) (f : Z) (got : list Z) (r : Z) : chsys :=
  let t := if negb (r =? 0) then put_files (fs s) got else fs s in
  set_fs s (file_put t f).

Inductive call_res : Type :=
  | CRet (s : chsys) (r : Z) (sigpipe : bool)
  | CWait (s : chsys) (f : Z) (side : bool) (got : list Z) (m : chan_msg).

Definition send_return (f : Z) (side : bool) (got : list Z) (x : send_res) : call_res :=
  match x with
  | SRet s r sig => CRet (send_finish s f got r) r sig
  | SWait s m => CWait s f side got m
  end.

Definition sys_olux_msg_send (s : chsys) (fd : Z) (data : list Z) (fds : list (option Z)) (a_msg fault : bool)
    (cred : Z * Z * Z) : call_res :=
  if OLUX_MSG_MAX_FDS <? Z.of_nat (length fds) then CRet s (- EINVAL) false
  else
    let '(t, o) := fget (fs s) fd in
    let s := set_fs s t in
    match o with
    | None => CRet s (- EBADF) false
    | Some f =>
        match end_of s f with
        | None => CRet (set_fs s (file_put (fs s) f)) (- ENOTSOCK) false
        | Some side =>
            let '(t, got, r) := gather (fs s) fds [] in
            let s := set_fs s t in
            if r =? 0 then send_return f side got (chan_send s f side data got a_msg fault false cred)
            else CRet (send_finish s f got r) r false
        end
    end.

(** The sender is woken: [wr] is the result of the wait. *)
Definition resume (s : chsys) (f : Z) (side : bool) (got : list Z) (m : chan_msg) (wr : Z) : call_res :=
  if negb (wr =? 0) then CRet (send_finish s f got wr) wr false
  else send_return f side got (chan_try s side m false (nonblock s f)).

(** ** Receiving *)

Inductive recv_res : Type :=
  | RcMsg (s : chsys) (m : chan_msg)
  | RcErr (e need : Z)
  | RcWait.

(** With [nq] other than 0 the queue is not empty, see [chan_ok]. *)
Definition chan_recv (s : chsys) (f : Z) (me : bool) (maxlen : Z) : recv_res :=
  let c := ch s in
  if negb (nq c me =? 0) then
    match q c me with
    | [] => RcWait
    | m :: l =>
        if maxlen <? m_len m then RcErr (- EMSGSIZE) (m_len m)
        else RcMsg (set_ch s (Chan (<[me := l]> (q c)) (<[me := nq c me - 1]> (nq c)) (<[me := bytes c me - m_len m]> (bytes c))
                                   (closed c) (refs c))) m
    end
  else if closed c (negb me) then RcErr (- EPIPE) 0
  else if nonblock s f then RcErr (- EAGAIN) 0
  else RcWait.

(** Result, bytes and sender; [None] while it waits. *)
Definition chan_recv_kernel (s : chsys) (f : Z) (maxlen : Z) : option (chsys * Z * list Z * Z) :=
  match end_of s f with
  | None => Some (s, - EINVAL, [], 0)
  | Some me =>
      match chan_recv s f me maxlen with
      | RcWait => None
      | RcErr e _ => Some (s, e, [], 0)
      | RcMsg s m => Some (set_fs s (free_msg (fs s) m), m_len m, m_data m, m_pid m)
      end
  end.

Definition chan_peer_closed (s : chsys) (side : bool) : bool := closed (ch s) (negb side).

(** The files of a message become descriptors, until one cannot. *)
Fixpoint install_files (s : files) (l : list Z) (want : bool) (fds : list Z) : files * list Z * list Z :=
  match l with
  | [] => (s, fds, [])
  | f :: l' =>
      if negb want then (s, fds, l)
      else
        let '(s', nfd) := fd_install s f 0 false in
        if nfd <? 0 then (s', fds, l) else install_files s' l' want (fds ++ [nfd])
  end.

(** Result, message and new descriptors; [want_fds]: the caller gave an array
    for descriptors; the faults are those of the three copies to user memory. *)
Definition recv_deliver (s : chsys) (m : chan_msg) (want_fds fault_buf fault_fds want_info fault_info : bool)
  : chsys * Z * list Z :=
  let r := if fault_buf then - EFAULT else m_len m in
  let '(t, fds, rest, r) :=
    if 0 <=? r then
      let '(t, fds, rest) := install_files (fs s) (m_files m) want_fds [] in
      let r := if negb (match fds with [] => true | _ => false end) && fault_fds then - EFAULT else r in
      let r := if want_info && fault_info then - EFAULT else r in
      (t, fds, rest, r)
    else (fs s, [], m_files m, r) in
  (set_fs s (put_files t rest), r, fds).

(** A receiver that waits, [VWait], keeps its reference to the end [f]. *)
Inductive recv_call : Type :=
  | VRet (s : chsys) (r : Z) (fds : list Z)
  | VWait (s : chsys) (f : Z) (me : bool).

Definition recv_return (s : chsys) (f : Z) (me : bool) (maxlen : Z) (want_fds fault_buf fault_fds want_info fault_info : bool)
  : recv_call :=
  match chan_recv s f me maxlen with
  | RcWait => VWait s f me
  | RcErr e _ => VRet (set_fs s (file_put (fs s) f)) (if e =? - EPIPE then 0 else e) []
  | RcMsg s m =>
      let '(s, r, fds) := recv_deliver (set_fs s (file_put (fs s) f)) m want_fds fault_buf fault_fds want_info fault_info in
      VRet s r fds
  end.

Definition sys_olux_msg_recv (s : chsys) (fd maxlen : Z) (want_fds fault_buf fault_fds want_info fault_info : bool)
  : recv_call :=
  let '(t, o) := fget (fs s) fd in
  let s := set_fs s t in
  match o with
  | None => VRet s (- EBADF) []
  | Some f =>
      match end_of s f with
      | None => VRet (set_fs s (file_put (fs s) f)) (- ENOTSOCK) []
      | Some me => recv_return s f me maxlen want_fds fault_buf fault_fds want_info fault_info
      end
  end.

(** The receiver is woken, by a signal or not. *)
Definition resume_recv (s : chsys) (f : Z) (me : bool) (maxlen : Z) (sig want_fds fault_buf fault_fds want_info fault_info : bool)
  : recv_call :=
  if sig then VRet (set_fs s (file_put (fs s) f)) (- ERESTARTSYS) []
  else recv_return s f me maxlen want_fds fault_buf fault_fds want_info fault_info.

(** ** Creating a channel *)

Notation O_NONBLOCK := 0x800%Z (only parsing).
Notation O_CLOEXEC := 0x80000%Z (only parsing).

(** The new ends are the files [fa] and [fb]; [fault]: the descriptors cannot
    be stored.  A file put for the last time releases its end. *)
Definition sys_olux_channel (s : files) (fa fb flags : Z) (a_c a_ea a_eb a_fa a_fb fault : bool)
  : files * Z * option (chan * Z * Z) :=
  if negb (Z.ldiff flags (Z.lor O_CLOEXEC O_NONBLOCK) =? 0) then (s, - EINVAL, None)
  else
    match chan_create_pair s fa fb a_c a_ea a_eb a_fa a_fb with
    | inr e => (s, e, None)
    | inl (s, c) =>
        let ce := negb (Z.land flags O_CLOEXEC =? 0) in
        let '(s, da) := fd_install s fa 0 ce in
        if da <? 0 then (file_put (file_put s fa) fb, da, None)
        else
          let '(s, db) := fd_install s fb 0 ce in
          if db <? 0 then (file_put (fd_close s da).1 fb, db, None)
          else if fault then ((fd_close (fd_close s da).1 db).1, - EFAULT, None)
          else (s, 0, Some (c, da, db))
    end.

(** ** Invariant *)

Definition total_len (l : list chan_msg) : Z := foldr (λ m n, m_len m + n) 0 l.

Record chan_ok (c : chan) : Prop := {
  co_nq b : nq c b = Z.of_nat (length (q c b));
  co_bytes b : bytes c b = total_len (q c b);
  co_room b : nq c b ≤ CHAN_MAX_QUEUED ∧ bytes c b ≤ CHAN_MAX_BYTES;
  co_closed b : closed c b = true → q c b = [];
}.

(** References of a list of files, and of the messages of a channel. *)
Definition refs_to (g : Z) (l : list Z) : Z := foldr (λ f n, is_file g (Some f) + n) 0 l.
Definition queued (g : Z) (l : list chan_msg) : Z := foldr (λ m n, refs_to g (m_files m) + n) 0 l.
Definition in_chan (c : chan) (g : Z) : Z := queued g (q c false) + queued g (q c true).

(** The references that neither the descriptors nor the messages account for. *)
Definition owed (s : chsys) (g : Z) : Z := frc (fs s) g - held (fs s) g - in_chan (ch s) g.

Record chsys_ok (s : chsys) : Prop := {
  cs_chan : chan_ok (ch s);
  cs_table : table_ok (table (fs s));
}.

Lemma refs_to_app g l k : refs_to g (l ++ k) = refs_to g l + refs_to g k.
Proof. induction l as [|f l IH]; simpl; [done|]. rewrite IH. lia. Qed.
Lemma queued_app g l k : queued g (l ++ k) = queued g l + queued g k.
Proof. induction l as [|m l IH]; simpl; [done|]. rewrite IH. lia. Qed.
Lemma total_len_app l k : total_len (l ++ k) = total_len l + total_len k.
Proof. induction l as [|m l IH]; simpl; [done|]. rewrite IH. lia. Qed.

Lemma side_set {A} (f : bool → A) p v b : (<[p := v]> f) b = if decide (b = p) then v else f b.
Proof. case_decide; [subst; by rewrite fn_lookup_insert|by rewrite fn_lookup_insert_ne]. Qed.

Lemma in_chan_set c b l n x y z g :
  in_chan (Chan (<[b := l]> (q c)) n x y z) g = in_chan c g - queued g (q c b) + queued g l.
Proof. unfold in_chan. cbn [q]. rewrite !side_set. destruct b; repeat case_decide; (done || lia). Qed.

Lemma put_files_spec s l :
  (∀ g, frc (put_files s l) g = frc s g - refs_to g l) ∧ table (put_files s l) = table s.
Proof.
  revert s. induction l as [|f l IH]; intros s; simpl; [split; [intros; lia|done]|].
  destruct (IH (file_put s f)) as [H1 H2], (file_put_spec s f) as (P1 & P2 & _). split; [|congruence].
  intros g. rewrite H1, P1. lia.
Qed.

Lemma free_msgs_spec s l :
  (∀ g, frc (foldl free_msg s l) g = frc s g - queued g l) ∧ table (foldl free_msg s l) = table s.
Proof.
  revert s. induction l as [|m l IH]; intros s; simpl; [split; [intros; lia|done]|].
  destruct (IH (free_msg s m)) as [H1 H2], (put_files_spec s (m_files m)) as [P1 P2]. split; [|by rewrite H2].
  intros g. rewrite H1. unfold free_msg. rewrite P1. lia.
Qed.

Lemma gather_spec s fds got s' got' r :
  gather s fds got = (s', got', r) →
  table s' = table s ∧ ∃ l, got' = got ++ l ∧ ∀ g, frc s' g = frc s g + refs_to g l.
Proof.
  revert s got. induction fds as [|[xfd|] fds IH]; intros s got H; simpl in H.
  - simplify_eq. split; [done|]. exists []. rewrite app_nil_r. split; [done|]. intros. simpl. lia.
  - destruct (fget s xfd) as [s1 o] eqn:E. destruct (fget_spec _ _ _ _ E) as (F1 & _ & F2). destruct o as [f|].
    + destruct (IH _ _ H) as (I1 & l & -> & I2). split; [congruence|]. exists (f :: l). rewrite <-app_assoc. split; [done|].
      intros g. rewrite I2, F2. simpl. lia.
    + simplify_eq. split; [done|]. exists []. rewrite app_nil_r. split; [done|]. intros g. rewrite F2. simpl. lia.
  - simplify_eq. split; [done|]. exists []. rewrite app_nil_r. split; [done|]. intros. simpl. lia.
Qed.

(** A pass of the send loop. *)
Lemma chan_try_spec s side m k nb :
  chsys_ok s → match chan_try s side m k nb with
  | SWait s' m' => s' = s ∧ m' = m ∧ nb = false
  | SRet s' r sig => chsys_ok s' ∧ table (fs s') = table (fs s) ∧ end_of s' = end_of s ∧ nonblock s' = nonblock s ∧
      (r = 0 ∧ fs s' = fs s ∧ (∀ b, q (ch s') b = if decide (b = negb side) then q (ch s) b ++ [m] else q (ch s) b) ∧
         (∀ g, in_chan (ch s') g = in_chan (ch s) g + refs_to g (m_files m))
       ∨ r = - EPIPE ∧ ch s' = ch s ∧ closed (ch s) (negb side) = true ∧ (∀ g, frc (fs s') g = frc (fs s) g - refs_to g (m_files m))
       ∨ r = - EAGAIN ∧ s' = s)
  end.
Proof.
  intros [Hc Ht]. unfold chan_try. set (peer := negb side). destruct (closed (ch s) peer) eqn:Ecl.
  { destruct (put_files_spec (fs s) (m_files m)) as [P1 P2]. split; [by split; [|unfold free_msg; cbn; rewrite P2]|].
    split; [done|]. split; [done|]. split; [done|]. right. left. done. }
  destruct (has_room (ch s) peer (m_len m)) eqn:Er; [|by destruct nb; [split_and!; try done; right; right|]].
  unfold has_room in Er. apply andb_true_iff in Er as [E1 E2]. zbool. destruct Hc as [C1 C2 C3 C4].
  split; [split; [split|done]|split_and!; try done; left; split_and!; try done].
  - intros b. cbn [set_ch ch q nq bytes closed]. rewrite !side_set. case_decide; [rewrite length_app, C1; subst; simpl; lia|apply C1].
  - intros b. cbn [set_ch ch q nq bytes closed]. rewrite !side_set. case_decide; [rewrite total_len_app, C2; subst; simpl; lia|apply C2].
  - intros b. cbn [set_ch ch q nq bytes closed]. rewrite !side_set. case_decide; [lia|apply C3].
  - intros b. cbn [set_ch ch q nq bytes closed]. rewrite !side_set. case_decide; [subst; congruence|apply C4].
  - intros b. cbn [set_ch ch q nq bytes closed]. rewrite side_set. case_decide; [by subst|done].
  - intros g. cbn [set_ch ch]. rewrite in_chan_set, queued_app. simpl. lia.
Qed.

Lemma send_finish_spec s f got r :
  (∀ g, frc (fs (send_finish s f got r)) g = frc (fs s) g - is_file g (Some f) - (if r =? 0 then 0 else refs_to g got)) ∧
  table (fs (send_finish s f got r)) = table (fs s) ∧ ch (send_finish s f got r) = ch s.
Proof.
  unfold send_finish. destruct (file_put_spec (if negb (r =? 0) then put_files (fs s) got else fs s) f) as (P1 & P2 & _).
  destruct (put_files_spec (fs s) got) as [Q1 Q2]. cbn [set_fs fs ch]. split_and!; [|rewrite P2; by destruct (r =? 0)|done].
  intros g. rewrite P1. destruct (r =? 0); simpl; [lia|]. rewrite Q1. lia.
Qed.

(** The references of a call under way: its channel and its files. *)
Definition carried (f : Z) (got : list Z) (g : Z) : Z := is_file g (Some f) + refs_to g got.

Lemma owed_table s s' g : table (fs s') = table (fs s) → owed s' g - owed s g = frc (fs s') g - frc (fs s) g - in_chan (ch s') g + in_chan (ch s) g.
Proof. intros H. unfold owed, held. rewrite H. lia. Qed.

(** The end of a send, from a state where the call carries its references. *)
Lemma send_return_spec s f side got m x :
  chsys_ok s → m_files m = got → x = chan_try s side m false (nonblock s f) →
  match send_return f side got x with
  | CRet s' r _ => chsys_ok s' ∧ (r = - EPIPE → closed (ch s) (negb side) = true) ∧
      ∀ g, owed s' g = owed s g - carried f got g - (if r =? - EPIPE then refs_to g got else 0)
  | CWait s' f' side' got' m' => s' = s ∧ f' = f ∧ side' = side ∧ got' = got ∧ m' = m
  end.
Proof.
  intros Hok Hm ->. pose proof (chan_try_spec s side m false (nonblock s f) Hok) as Ht.
  destruct (chan_try _ _ _ _ _) as [s1 r sig|s1 m1]; simpl; [|naive_solver].
  destruct Ht as ([C1 C2] & Htab & _ & _ & Hor). destruct (send_finish_spec s1 f got r) as (F1 & F2 & F3).
  split; [split; [by rewrite F3|by rewrite F2]|].
  assert (∀ g, owed (send_finish s1 f got r) g - owed s g =
    frc (fs (send_finish s1 f got r)) g - frc (fs s) g - in_chan (ch s1) g + in_chan (ch s) g) as Ho.
  { intros g. rewrite owed_table by congruence. by rewrite F3. }
  destruct Hor as [(-> & Hfs & _ & Hin)|[(-> & Hch & Hcl & Hfr)|(-> & ->)]].
  - split; [done|]. intros g. specialize (Ho g). rewrite F1, Hfs, Hin, Hm in Ho. unfold carried. simpl in *. lia.
  - split; [done|]. intros g. specialize (Ho g). rewrite F1, Hfr, Hch, Hm in Ho. unfold carried. simpl in *. lia.
  - split; [done|]. intros g. specialize (Ho g). rewrite F1 in Ho. unfold carried. simpl in *. lia.
Qed.

Lemma chan_send_try s f side data got a_msg fault cred :
  (∃ e, chan_send s f side data got a_msg fault false cred = SRet s e false ∧ e ≠ 0 ∧ e ≠ - EPIPE) ∨
  ∃ m, chan_send s f side data got a_msg fault false cred = chan_try s side m false (nonblock s f) ∧ m_files m = got ∧
       m_data m = data ∧ (m_pid m, m_uid m, m_gid m) = cred.
Proof.
  unfold chan_send. destruct (_ <? _); [left; by eexists|]. destruct (negb a_msg); [left; by eexists|].
  destruct (_ && fault); [left; by eexists|]. right. destruct cred as [[pid uid] gid]. by eexists.
Qed.

Lemma msg_send_spec s fd data fds a_msg fault cred :
  chsys_ok s → match sys_olux_msg_send s fd data fds a_msg fault cred with
  | CRet s' r _ => chsys_ok s' ∧ (r ≠ - EPIPE ∨ fds = [] → ∀ g, owed s' g = owed s g)
  | CWait s' f side got m => chsys_ok s' ∧ m_files m = got ∧ (∀ g, owed s' g = owed s g + carried f got g)
  end.
Proof.
  intros Hok. unfold sys_olux_msg_send. destruct (_ <? _); [done|].
  destruct (fget (fs s) fd) as [t o] eqn:Ef. destruct (fget_spec _ _ _ _ Ef) as (F1 & _ & F2). set (s1 := set_fs s t).
  assert (chsys_ok s1) as Hok1 by (destruct Hok as [? ?]; split; [done|cbn; by rewrite F1]).
  assert (∀ g, owed s1 g = owed s g + (match o with None => 0 | Some f => is_file g (Some f) end)) as Ho1.
  { intros g. unfold owed, held, s1. cbn [set_fs fs ch]. rewrite F1, F2. lia. }
  clearbody s1. destruct o as [f|]; [|split; [done|intros _ g; rewrite Ho1; lia]].
  destruct (end_of s1 f) as [side|] eqn:Ee.
  2:{ destruct (file_put_spec (fs s1) f) as (P1 & P2 & _). destruct Hok1 as [H1 H2].
      split; [split; [done|cbn [set_fs fs]; by rewrite P2]|]. intros _ g. pose proof (Ho1 g) as H.
      unfold owed, held in *. cbn [set_fs fs ch] in *. rewrite P1, P2. lia. }
  destruct (gather (fs s1) fds []) as [[t2 got] r] eqn:Eg. destruct (gather_spec _ _ _ _ _ _ Eg) as (G1 & l & El & G2).
  simpl in El. subst l. set (s2 := set_fs s1 t2).
  assert (chsys_ok s2) as Hok2 by (destruct Hok1 as [? ?]; split; [done|cbn; by rewrite G1]).
  assert (∀ g, owed s2 g = owed s g + carried f got g) as Ho2.
  { intros g. pose proof (Ho1 g) as H. unfold owed, held, s2, carried in *. cbn [set_fs fs ch] in *. rewrite G1, G2. lia. }
  clearbody s2.
  assert (fds = [] → got = []) as Hgot by (intros ->; simpl in Eg; by simplify_eq).
  destruct (r =? 0) eqn:Er.
  - destruct (chan_send_try s2 f side data got a_msg fault cred) as [(e & -> & He & Hne)|(m & -> & Hm & _)].
    + cbn [send_return]. destruct (send_finish_spec s2 f got e) as (K1 & K2 & K3). destruct Hok2 as [H1 H2].
      split; [split; [by rewrite K3|by rewrite K2]|]. intros _ g. pose proof (owed_table s2 (send_finish s2 f got e) g K2) as H.
      rewrite K1, K3, Ho2 in H. replace (e =? 0) with false in H by lia. unfold carried in *. lia.
    + pose proof (send_return_spec s2 f side got m _ Hok2 Hm eq_refl) as Hs.
      destruct (send_return _ _ _ _) as [s' r' sig|s' f' side' got' m'].
      * destruct Hs as (H1 & H2 & H3). split; [done|]. intros Hor g. rewrite H3, Ho2.
        destruct (r' =? - EPIPE) eqn:E; zbool; [|lia]. destruct Hor as [|Hfd]; [done|]. rewrite (Hgot Hfd). simpl. lia.
      * destruct Hs as (-> & -> & -> & -> & ->). done.
  - zbool. destruct (send_finish_spec s2 f got r) as (K1 & K2 & K3). destruct Hok2 as [H1 H2].
    split; [split; [by rewrite K3|by rewrite K2]|]. intros _ g. pose proof (owed_table s2 (send_finish s2 f got r) g K2) as H.
    rewrite K1, K3, Ho2 in H. replace (r =? 0) with false in H by lia. unfold carried in *. lia.
Qed.

Lemma install_files_spec s l want fds s' fds' rest :
  table_ok (table s) → install_files s l want fds = (s', fds', rest) →
  table_ok (table s') ∧ frc s' = frc s ∧ ∃ k, l = k ++ rest ∧ ∀ g, held s' g = held s g + refs_to g k.
Proof.
  revert s fds. induction l as [|f l IH]; intros s fds Ht H; simpl in H.
  { simplify_eq. split_and!; [done|done|]. exists []. split; [done|]. intros. simpl. lia. }
  destruct (negb want); [simplify_eq; split_and!; [done|done|]; exists []; split; [done|]; intros; simpl; lia|].
  destruct (fd_install s f 0 false) as [s1 nfd] eqn:E.
  destruct (fd_install_spec s f 0 false s1 nfd Ht ltac:(done) E) as (F1 & F2 & _ & _ & Hor).
  destruct (nfd <? 0) eqn:En; zbool.
  - simplify_eq. split_and!; [done|done|]. exists []. split; [done|]. intros g. destruct Hor as [(_ & -> & _)|(? & _)]; [simpl; lia|lia].
  - destruct Hor as [(-> & _)|(_ & _ & _ & _ & _ & Hh)]; [unfold EMFILE in *; lia|].
    destruct (IH s1 _ F1 H) as (I1 & I2 & k & -> & I3). split_and!; [done|congruence|]. exists (f :: k). split; [done|].
    intros g. rewrite I3, Hh. simpl. lia.
Qed.

Lemma recv_deliver_spec s m a b c d e s' r fds :
  table_ok (table (fs s)) → recv_deliver s m a b c d e = (s', r, fds) →
  table_ok (table (fs s')) ∧ ch s' = ch s ∧
  ∀ g, frc (fs s') g - held (fs s') g = frc (fs s) g - held (fs s) g - refs_to g (m_files m).
Proof.
  intros Ht. unfold recv_deliver. set (r0 := if b then - EFAULT else m_len m).
  assert (∀ t rest r1 fds1, table_ok (table t) →
    (∀ g, frc t g - held t g - refs_to g rest = frc (fs s) g - held (fs s) g - refs_to g (m_files m)) →
    (set_fs s (put_files t rest), r1, fds1) = (s', r, fds) →
    table_ok (table (fs s')) ∧ ch s' = ch s ∧
    ∀ g, frc (fs s') g - held (fs s') g = frc (fs s) g - held (fs s) g - refs_to g (m_files m)) as Hgo.
  { intros t rest r1 fds1 Htt Hr [= <- <- <-]. destruct (put_files_spec t rest) as [P1 P2]. unfold held in *. cbn [set_fs fs ch].
    rewrite P2. split_and!; [done|done|]. intros g. rewrite P1. specialize (Hr g). lia. }
  destruct (0 <=? r0); [|apply Hgo; [done|done]].
  destruct (install_files (fs s) (m_files m) a []) as [[t fds0] rest] eqn:E.
  destruct (install_files_spec _ _ _ _ _ _ _ Ht E) as (I1 & I2 & k & Hk & I3). apply Hgo; [done|].
  intros g. rewrite I2, I3, Hk, refs_to_app. lia.
Qed.

Lemma chan_recv_spec s f me maxlen :
  chsys_ok s → match chan_recv s f me maxlen with
  | RcMsg s' m => ∃ l, q (ch s) me = m :: l ∧ m_len m ≤ maxlen ∧ chsys_ok s' ∧ fs s' = fs s ∧
      (∀ b, q (ch s') b = if decide (b = me) then l else q (ch s) b) ∧
      (∀ g, in_chan (ch s') g = in_chan (ch s) g - refs_to g (m_files m))
  | RcErr e need => e = - EMSGSIZE ∧ (∃ m l, q (ch s) me = m :: l ∧ maxlen < m_len m ∧ need = m_len m) ∨
      q (ch s) me = [] ∧ (e = - EPIPE ∧ closed (ch s) (negb me) = true ∨ e = - EAGAIN ∧ nonblock s f = true)
  | RcWait => q (ch s) me = [] ∧ closed (ch s) (negb me) = false ∧ nonblock s f = false
  end.
Proof.
  intros [[C1 C2 C3 C4] Ht]. unfold chan_recv. pose proof (C1 me) as Hn.
  destruct (nq (ch s) me =? 0) eqn:E; zbool.
  { assert (q (ch s) me = []) as Hq by (destruct (q (ch s) me); [done|simpl in Hn; lia]). cbn [negb].
    destruct (closed (ch s) (negb me)) eqn:Ec; [right; split; [done|by left]|].
    destruct (nonblock s f); [right; split; [done|by right]|done]. }
  cbn [negb]. destruct (q (ch s) me) as [|m l] eqn:Eq; [simpl in Hn; lia|].
  destruct (maxlen <? m_len m) eqn:El; zbool; [left; split; [done|]; by exists m, l|].
  assert (0 ≤ m_len m) as Hm0 by (unfold m_len; lia).
  exists l. split; [done|]. split; [lia|]. split; [split; [split|done]|split_and!; try done].
  - intros b. cbn [set_ch ch q nq]. rewrite !side_set. case_decide; [simpl in Hn; lia|apply C1].
  - intros b. cbn [set_ch ch q bytes]. rewrite !side_set. case_decide; [rewrite (C2 me), Eq; simpl; lia|apply C2].
  - intros b. cbn [set_ch ch nq bytes]. rewrite !side_set. pose proof (C3 me). case_decide; [lia|apply C3].
  - intros b. cbn [set_ch ch q closed]. rewrite !side_set. case_decide; [|apply C4]. subst. intros Hx. rewrite (C4 me Hx) in Eq. done.
  - intros b. cbn [set_ch ch q]. by rewrite side_set.
  - intros g. cbn [set_ch ch]. rewrite in_chan_set, Eq. simpl. lia.
Qed.

Lemma recv_put_spec s f s' :
  chsys_ok s → ch s' = ch s → fs s' = file_put (fs s) f → chsys_ok s' ∧ ∀ g, owed s' g = owed s g - is_file g (Some f).
Proof.
  intros [H1 H2] Hc Hf. destruct (file_put_spec (fs s) f) as (P1 & P2 & _).
  split; [split; [by rewrite Hc|by rewrite Hf, P2]|]. intros g. unfold owed, held. rewrite Hc, Hf, P1, P2. lia.
Qed.

(** A pass of the receive loop, from a state where the call holds its end. *)
Lemma recv_return_spec s f me maxlen a b c d e :
  chsys_ok s → match recv_return s f me maxlen a b c d e with
  | VRet s' _ _ => chsys_ok s' ∧ ∀ g, owed s' g = owed s g - is_file g (Some f)
  | VWait s' f' _ => s' = s ∧ f' = f
  end.
Proof.
  intros Hok. unfold recv_return. pose proof (chan_recv_spec s f me maxlen Hok) as Hr.
  destruct (chan_recv s f me maxlen) as [s2 m|e0 need|]; [|by apply (recv_put_spec s)|done].
  destruct Hr as (l & Hq & Hl & [K1 K2] & Hfs & _ & Hin). destruct (file_put_spec (fs s2) f) as (P1 & P2 & _).
  destruct (recv_deliver _ m a b c d e) as [[s' r] fds] eqn:E. apply recv_deliver_spec in E as (D1 & D2 & D3);
    [|cbn [set_fs fs]; by rewrite P2].
  cbn [set_fs fs ch] in D2, D3. split; [split; [by rewrite D2|done]|]. intros g. specialize (D3 g).
  unfold owed, held in *. rewrite P1, P2, Hfs in D3. rewrite D2, Hin. lia.
Qed.

Lemma msg_recv_spec s fd maxlen a b c d e :
  chsys_ok s → match sys_olux_msg_recv s fd maxlen a b c d e with
  | VRet s' _ _ => chsys_ok s' ∧ ∀ g, owed s' g = owed s g
  | VWait s' f _ => chsys_ok s' ∧ ∀ g, owed s' g = owed s g + is_file g (Some f)
  end.
Proof.
  intros Hok. unfold sys_olux_msg_recv. destruct (fget (fs s) fd) as [t o] eqn:Ef. destruct (fget_spec _ _ _ _ Ef) as (F1 & _ & F2).
  set (s1 := set_fs s t). assert (chsys_ok s1) as Hok1 by (destruct Hok as [? ?]; split; [done|cbn; by rewrite F1]).
  assert (∀ g, owed s1 g = owed s g + (match o with None => 0 | Some f => is_file g (Some f) end)) as Ho1.
  { intros g. unfold owed, held, s1. cbn [set_fs fs ch]. rewrite F1, F2. lia. }
  clearbody s1. destruct o as [f|]; [|split; [done|intros g; rewrite Ho1; lia]].
  destruct (end_of s1 f) as [me|].
  - pose proof (recv_return_spec s1 f me maxlen a b c d e Hok1) as H. destruct (recv_return _ _ _ _ _ _ _ _ _).
    + destruct H as [H1 H2]. split; [done|]. intros g. rewrite H2, Ho1. lia.
    + by destruct H as [-> ->].
  - destruct (recv_put_spec s1 f (set_fs s1 (file_put (fs s1) f)) Hok1 eq_refl eq_refl) as [H1 H2]. split; [done|].
    intros g. rewrite H2, Ho1. lia.
Qed.

Lemma chan_release_spec s me : chsys_ok s → let s' := (chan_release s me).1 in
  chsys_ok s' ∧ closed (ch s') me = true ∧ ∀ g, owed s' g = owed s g.
Proof.
  intros [[C1 C2 C3 C4] Ht]. cbn zeta. unfold chan_release. cbn [fst].
  destruct (free_msgs_spec (fs s) (q (ch s) me)) as [F1 F2]. split; [split; [split|cbn [set_fs fs]; by rewrite F2]|split].
  - intros b. cbn [set_fs set_ch ch q nq]. rewrite !side_set. case_decide; [done|apply C1].
  - intros b. cbn [set_fs set_ch ch q bytes]. rewrite !side_set. case_decide; [done|apply C2].
  - intros b. cbn [set_fs set_ch ch nq bytes]. rewrite !side_set. case_decide; [by split|apply C3].
  - intros b. cbn [set_fs set_ch ch q closed]. rewrite !side_set. case_decide; [done|apply C4].
  - cbn [set_fs set_ch ch closed]. by rewrite side_set, decide_True.
  - intros g. unfold owed, held. cbn [set_fs set_ch fs ch]. rewrite in_chan_set, F1, F2. simpl. lia.
Qed.

(** ** Histories

    The channel with the calls that wait, and the descriptor tables of the
    processes that do not run, each with the process's limit.  A send that finds the
    peer closed while it carries files is left out: see [msg_send_double_put]. *)

Record conf : Type := Conf {
  cs : chsys;
  senders : list (Z * bool * list Z * chan_msg);
  receivers : list (Z * bool);
  others : list (fdtable * Z);
}.

(** Another process runs. *)
Definition switch_to (s : chsys) (t : fdtable * Z) : chsys := set_fs s (Files (frc (fs s)) (freed (fs s)) t.1 t.2).

Inductive chan_step : conf → conf → Prop :=
  | st_send s w v o fd data fds a_msg fault cred s' r sig :
      sys_olux_msg_send s fd data fds a_msg fault cred = CRet s' r sig → r ≠ - EPIPE ∨ fds = [] →
      chan_step (Conf s w v o) (Conf s' w v o)
  | st_send_wait s w v o fd data fds a_msg fault cred s' f side got m :
      sys_olux_msg_send s fd data fds a_msg fault cred = CWait s' f side got m →
      chan_step (Conf s w v o) (Conf s' (w ++ [(f, side, got, m)]) v o)
  | st_resume s w1 w2 v o f side got m wr s' r sig :
      resume s f side got m wr = CRet s' r sig → r ≠ - EPIPE ∨ got = [] →
      chan_step (Conf s (w1 ++ (f, side, got, m) :: w2) v o) (Conf s' (w1 ++ w2) v o)
  | st_recv s w v o fd maxlen a b c d e s' r fds :
      sys_olux_msg_recv s fd maxlen a b c d e = VRet s' r fds → chan_step (Conf s w v o) (Conf s' w v o)
  | st_recv_wait s w v o fd maxlen a b c d e s' f me :
      sys_olux_msg_recv s fd maxlen a b c d e = VWait s' f me → chan_step (Conf s w v o) (Conf s' w (v ++ [(f, me)]) o)
  | st_recv_resume s w v1 v2 o f me maxlen sig a b c d e s' r fds :
      resume_recv s f me maxlen sig a b c d e = VRet s' r fds →
      chan_step (Conf s w (v1 ++ (f, me) :: v2) o) (Conf s' w (v1 ++ v2) o)
  | st_release s w v o me : chan_step (Conf s w v o) (Conf (chan_release s me).1 w v o)
  | st_close s w v o fd : chan_step (Conf s w v o) (Conf (set_fs s (fd_close (fs s) fd).1) w v o)
  | st_switch s w v o1 t o2 :
      chan_step (Conf s w v (o1 ++ t :: o2)) (Conf (switch_to s t) w v (o1 ++ (table (fs s), rlim_nofile (fs s)) :: o2)).

(** The references of the calls that wait and of the other tables. *)
Definition sending (w : list (Z * bool * list Z * chan_msg)) (g : Z) : Z :=
  foldr (λ '(f, _, got, _) n, carried f got g + n) 0 w.
Definition receiving (v : list (Z * bool)) (g : Z) : Z := foldr (λ '(f, _) n, is_file g (Some f) + n) 0 v.
Definition elsewhere (o : list (fdtable * Z)) (g : Z) : Z := foldr (λ t n, count g (t_fd t.1) + n) 0 o.

Record conf_ok (c : conf) : Prop := {
  cf_sys : chsys_ok (cs c);
  cf_wait : Forall (λ '(_, _, got, m), m_files m = got) (senders c);
  cf_others : Forall (λ t, table_ok t.1) (others c);
  cf_exact g : frc (fs (cs c)) g =
    held (fs (cs c)) g + elsewhere (others c) g + in_chan (ch (cs c)) g + sending (senders c) g + receiving (receivers c) g;
}.

Lemma sending_app w1 w2 g : sending (w1 ++ w2) g = sending w1 g + sending w2 g.
Proof. induction w1 as [|[[[f b] l] m] w1 IH]; simpl; [done|]. rewrite IH. lia. Qed.
Lemma receiving_app v1 v2 g : receiving (v1 ++ v2) g = receiving v1 g + receiving v2 g.
Proof. induction v1 as [|[f b] v1 IH]; simpl; [done|]. rewrite IH. lia. Qed.
Lemma elsewhere_app o1 o2 g : elsewhere (o1 ++ o2) g = elsewhere o1 g + elsewhere o2 g.
Proof. induction o1 as [|t o1 IH]; simpl; [done|]. rewrite IH. lia. Qed.

(** A step that moves references between the channel and the calls. *)
Lemma conf_ok_step s w v o s' w' v' :
  conf_ok (Conf s w v o) → chsys_ok s' → Forall (λ '(_, _, got, m), m_files m = got) w' →
  (∀ g, owed s' g = owed s g - sending w g - receiving v g + sending w' g + receiving v' g) → conf_ok (Conf s' w' v' o).
Proof.
  intros [H1 H2 H3 H4] Hs Hw Ho. split; [done|done|done|]. cbn [cs senders receivers others] in *. intros g.
  specialize (H4 g). specialize (Ho g). unfold owed in Ho. lia.
Qed.

Lemma resume_spec s f side got m wr s' r sig :
  chsys_ok s → m_files m = got → resume s f side got m wr = CRet s' r sig → r ≠ - EPIPE ∨ got = [] →
  chsys_ok s' ∧ ∀ g, owed s' g = owed s g - carried f got g.
Proof.
  intros Hok Hm H Hor. unfold resume in H. destruct (wr =? 0) eqn:E; simpl in H; zbool.
  - pose proof (send_return_spec s f side got m _ Hok Hm eq_refl) as Hs. rewrite H in Hs. destruct Hs as (S1 & _ & S2).
    split; [done|]. intros g. rewrite S2. destruct (r =? - EPIPE) eqn:Er; zbool; [|lia]. destruct Hor as [?|Hg]; [done|]. rewrite Hg. simpl. lia.
  - simplify_eq. destruct (send_finish_spec s f (m_files m) r) as (F1 & F2 & F3). destruct Hok as [C1 C2].
    split; [split; [by rewrite F3|by rewrite F2]|]. intros g.
    pose proof (owed_table s (send_finish s f (m_files m) r) g F2) as Ho. rewrite F1, F3 in Ho.
    replace (r =? 0) with false in Ho by lia. unfold carried. lia.
Qed.

Lemma resume_recv_spec s f me maxlen sig a b c d e s' r fds :
  chsys_ok s → resume_recv s f me maxlen sig a b c d e = VRet s' r fds →
  chsys_ok s' ∧ ∀ g, owed s' g = owed s g - is_file g (Some f).
Proof.
  intros Hok. unfold resume_recv. destruct sig; [intros; simplify_eq; by apply (recv_put_spec s)|].
  intros H. pose proof (recv_return_spec s f me maxlen a b c d e Hok) as Hr. by rewrite H in Hr.
Qed.

Lemma chan_step_ok c c' : chan_step c c' → conf_ok c → conf_ok c'.
Proof.
  intros Hst Hc. pose proof (cf_sys _ Hc) as Hok. pose proof (cf_wait _ Hc) as Hw.
  destruct Hst; cbn [cs senders receivers others] in *.
  - pose proof (msg_send_spec s fd data fds a_msg fault cred Hok) as H1. rewrite H in H1. destruct H1 as [H1 H2].
    apply (conf_ok_step _ _ _ _ _ _ _ Hc H1 Hw). intros g. rewrite H2 by done. lia.
  - pose proof (msg_send_spec s fd data fds a_msg fault cred Hok) as H1. rewrite H in H1. destruct H1 as (H1 & H2 & H3).
    apply (conf_ok_step _ _ _ _ _ _ _ Hc H1); [rewrite Forall_app, Forall_singleton; done|].
    intros g. rewrite sending_app, H3. simpl. lia.
  - apply Forall_app in Hw as [Hw1 [Hm Hw2]%Forall_cons]. destruct (resume_spec _ _ _ _ _ _ _ _ _ Hok Hm H H0) as [H1 H2].
    apply (conf_ok_step _ _ _ _ _ _ _ Hc H1); [by apply Forall_app|]. intros g. rewrite H2, !sending_app. simpl. lia.
  - pose proof (msg_recv_spec s fd maxlen a b c d e Hok) as H1. rewrite H in H1. destruct H1 as [H1 H2].
    apply (conf_ok_step _ _ _ _ _ _ _ Hc H1 Hw). intros g. rewrite H2. lia.
  - pose proof (msg_recv_spec s fd maxlen a b c d e Hok) as H1. rewrite H in H1. destruct H1 as [H1 H2].
    apply (conf_ok_step _ _ _ _ _ _ _ Hc H1 Hw). intros g. rewrite H2, receiving_app. simpl. lia.
  - destruct (resume_recv_spec _ _ _ _ _ _ _ _ _ _ _ _ _ Hok H) as [H1 H2].
    apply (conf_ok_step _ _ _ _ _ _ _ Hc H1 Hw). intros g. rewrite H2, !receiving_app. simpl. lia.
  - destruct (chan_release_spec s me Hok) as (H1 & _ & H2). apply (conf_ok_step _ _ _ _ _ _ _ Hc H1 Hw). intros g. rewrite H2. lia.
  - destruct (fd_close (fs s) fd) as [t r] eqn:E. destruct Hok as [C1 C2]. destruct (fd_close_spec _ _ _ _ C2 E) as (F1 & _ & Hor).
    apply (conf_ok_step s w v o _ w v Hc); [by split|done|]. intros g. unfold owed. cbn [set_fs fs ch fst].
    destruct Hor as [(_ & ->)|(_ & _ & f & _ & _ & Hh & Hf)]; [lia|]. rewrite Hh, Hf. lia.
  - destruct Hc as [_ _ Ho Hx]. cbn [cs senders receivers others] in *. apply Forall_app in Ho as [Ho1 [Ht Ho2]%Forall_cons].
    destruct Hok as [C1 C2]. split; [by split|done|apply Forall_app; by split; [|constructor]|]. cbn [cs senders receivers others]. intros g.
    specialize (Hx g). rewrite elsewhere_app in Hx |- *. unfold held in *. cbn [elsewhere foldr switch_to set_fs fs ch table frc fst] in *. lia.
Qed.

(** The channel that [sys_olux_channel] made. *)
Definition new_channel (s : files) (c : chan) (fa fb flags : Z) : chsys :=
  Chsys s c (λ f, if f =? fa then Some false else if f =? fb then Some true else None)
    (λ f, ((f =? fa) || (f =? fb)) && negb (Z.land flags O_NONBLOCK =? 0)).

Lemma file_alloc_exact s f (x : Z → Z) :
  frc s f = 0 → (∀ g, frc s g = held s g + x g) →
  ∀ g, frc (file_alloc s f) g = held (file_alloc s f) g + x g + is_file g (Some f).
Proof.
  intros H0 Hx g. unfold file_alloc, held, is_file. cbn [set_frc table frc]. destruct (decide (g = f)) as [->|Hne].
  - rewrite fn_lookup_insert, bool_decide_true by done. specialize (Hx f). unfold held in Hx. lia.
  - rewrite fn_lookup_insert_ne, bool_decide_false by congruence. specialize (Hx g). unfold held in Hx. lia.
Qed.

Lemma fd_install_exact s f ce s' r (x : Z → Z) :
  table_ok (table s) → fd_install s f 0 ce = (s', r) → 0 ≤ r →
  (∀ g, frc s g = held s g + x g + is_file g (Some f)) → table_ok (table s') ∧ ∀ g, frc s' g = held s' g + x g.
Proof.
  intros Ht E Hr Hx. destruct (fd_install_spec s f 0 ce s' r Ht ltac:(done) E) as (F1 & F2 & _ & _ & Hor).
  split; [done|]. intros g. rewrite F2, Hx. destruct Hor as [(-> & _)|(_ & _ & _ & _ & _ & Hh)]; [unfold EMFILE in *; lia|].
  rewrite Hh. lia.
Qed.

Lemma new_channel_ok s fa fb flags a1 a2 a3 a4 a5 fault s' c da db o :
  table_ok (table s) → Forall (λ t, table_ok t.1) o → (∀ g, frc s g = held s g + elsewhere o g) →
  fa ≠ fb → frc s fa = 0 → frc s fb = 0 →
  sys_olux_channel s fa fb flags a1 a2 a3 a4 a5 fault = (s', 0, Some (c, da, db)) →
  conf_ok (Conf (new_channel s' c fa fb flags) [] [] o).
Proof.
  intros Ht Ho Hx Hne Ha Hb. unfold sys_olux_channel, chan_create_pair. destruct (negb _); [done|]. destruct (negb a1 || _ || _ || _ || _); [done|].
  set (sa := file_alloc s fa).
  assert (∀ g, frc sa g = held sa g + (elsewhere o g + is_file g (Some fa))) as Hxa.
  { intros g. rewrite Z.add_assoc. by apply (file_alloc_exact s fa (elsewhere o)). }
  assert (frc sa fb = 0) as Hb'. { unfold sa, file_alloc, set_frc. cbn [frc]. by rewrite fn_lookup_insert_ne. }
  assert (table_ok (table (file_alloc sa fb))) as Htb by done. pose proof (file_alloc_exact sa fb _ Hb' Hxa) as Hxb.
  destruct (fd_install (file_alloc sa fb) fa 0 _) as [s1 da'] eqn:E1. destruct (da' <? 0) eqn:N1; [done|]. zbool.
  destruct (fd_install_exact _ _ _ _ _ (λ g, elsewhere o g + is_file g (Some fb)) Htb E1 ltac:(lia)) as [T1 X1].
  { intros g. rewrite Hxb. lia. }
  destruct (fd_install s1 fb 0 _) as [s2 db'] eqn:E2. destruct (db' <? 0) eqn:N2; [done|]. zbool. destruct fault; [done|].
  destruct (fd_install_exact _ _ _ _ _ (elsewhere o) T1 E2 ltac:(lia)) as [T2 X2]. { intros g. rewrite X1. lia. }
  intros [= -> <- <- <-]. split; [split; [by split|done]|apply Forall_nil_2|done|]. intros g.
  cbn [cs senders receivers others new_channel fs ch]. rewrite X2. unfold in_chan. simpl. lia.
Qed.

(** C20.  References to files through a channel.  The channel starts as
    [sys_olux_channel] made it, in a system where every file has as many references
    as the descriptor tables of its processes name it.  Over any sequence, by any
    of these processes, of sends and receives with any faults of user memory, waits
    and wake-ups of senders and receivers, closes of ends and of descriptors: the
    queues stay within their limits with exact counts, a closed end holds nothing,
    and the count of every file is exactly the number of its places in the tables,
    in queued messages, with blocked senders (the end they send on and the files
    they pass) and with blocked receivers (the end they read).  One kind of step is
    left out, a send that carries files and finds the peer closed. *)
Theorem chan_refs_conserved s fa fb flags a1 a2 a3 a4 a5 fault s0 ch0 da db o c :
  table_ok (table s) → Forall (λ t, table_ok t.1) o → (∀ g, frc s g = held s g + elsewhere o g) →
  fa ≠ fb → frc s fa = 0 → frc s fb = 0 →
  sys_olux_channel s fa fb flags a1 a2 a3 a4 a5 fault = (s0, 0, Some (ch0, da, db)) →
  rtc chan_step (Conf (new_channel s0 ch0 fa fb flags) [] [] o) c →
  chan_ok (ch (cs c)) ∧ ∀ g, frc (fs (cs c)) g =
    held (fs (cs c)) g + elsewhere (others c) g + in_chan (ch (cs c)) g + sending (senders c) g + receiving (receivers c) g.
Proof.
  intros Ht Ho Hx Hne Ha Hb E Hst. pose proof (new_channel_ok _ _ _ _ _ _ _ _ _ _ _ _ _ _ _ Ht Ho Hx Hne Ha Hb E) as Hc.
  revert Hc. induction Hst as [c|c c1 c2 H1 _ IH]; intros Hc; [|by apply IH, (chan_step_ok c)].
  split; [apply Hc|apply (cf_exact _ Hc)].
Qed.

(** Two processes; file 7 is open in the first. *)
Definition ex_tables : files := Files (λ g, if g =? 7 then 1 else 0) [] (Fdtable 4 [Some 7; None; None; None] [0]) 1024.
Definition ex_other : fdtable * Z := (Fdtable 2 [None; None] [0], 1024).
Definition ex_new : files * Z * option (chan * Z * Z) := sys_olux_channel ex_tables 1 2 O_NONBLOCK true true true true true false.

(** The first process sends file 7 and closes it, then receives it again. *)
Definition ex_run : option (chsys * Z * list Z) :=
  match ex_new with
  | (s, _, Some (c, da, db)) =>
      match sys_olux_msg_send (new_channel s c 1 2 O_NONBLOCK) da [5; 6] [Some 0] true false (100, 0, 0) with
      | CRet s _ _ =>
          match sys_olux_msg_recv (set_fs s (fd_close (fs s) 0).1) db 16 true false false false false with
          | VRet s r fds => Some (s, r, fds)
          | _ => None
          end
      | _ => None
      end
  | _ => None
  end.

Lemma chan_refs_conserved_witness :
  match ex_run with
  | Some (s, r, fds) => r = 2 ∧ fds = [0] ∧ chan_ok (ch s) ∧ frc (fs s) 7 = 1
  | None => False
  end.
Proof.
  assert (match ex_run with Some (s, r, fds) => (r, fds, frc (fs s) 7) | None => (0, [], 0) end = (2, [0], 1)) as Hv
    by (vm_compute; reflexivity).
  unfold ex_run in *. destruct ex_new as [[s0 r0] [[[c0 da] db]|]] eqn:E0; [|discriminate Hv].
  destruct (sys_olux_msg_send _ _ _ _ _ _ _) as [s1 r1 sig1|] eqn:E1; [|discriminate Hv].
  destruct (sys_olux_msg_recv _ _ _ _ _ _ _ _) as [s2 r2 fds|] eqn:E2; [|discriminate Hv].
  injection Hv as -> -> H7. split; [reflexivity|]. split; [reflexivity|]. split; [|exact H7].
  assert (r0 = 0) as -> by (vm_compute in E0; congruence).
  destruct (chan_refs_conserved ex_tables 1 2 O_NONBLOCK true true true true true false s0 c0 da db [ex_other] (Conf s2 [] [] [ex_other]))
    as [H _]; [..|exact H].
  - split; vm_compute; (reflexivity || intros X; discriminate X).
  - apply Forall_singleton. split; vm_compute; (reflexivity || intros X; discriminate X).
  - intros g. unfold held, ex_tables, ex_other, is_file, count. cbn [frc table t_fd foldr elsewhere fst]. unfold is_file. cbn.
    destruct (g =? 7) eqn:E; zbool; [subst; reflexivity|]. rewrite !bool_decide_false by congruence. reflexivity.
  - lia.
  - reflexivity.
  - reflexivity.
  - exact E0.
  - eapply rtc_l; [eapply st_send; [exact E1|left; intros ->; vm_compute in E0; injection E0 as <- <- <- <-; vm_compute in E1; discriminate E1]|].
    eapply rtc_l; [apply (st_close s1 _ _ _ 0)|]. eapply rtc_l; [eapply st_recv; exact E2|apply rtc_refl].
Defined.

(** Descriptor 0 is an end of the channel, file 1; descriptor 1 is file 7. *)
Definition ex_chsys : chsys :=
  Chsys (Files (λ _, 1) [] (Fdtable 4 [Some 1; Some 7; None; Some 2] [0]) 1024)
        (Chan (λ _, []) (λ _, 0) (λ _, 0) (λ _, false) 2) (λ f, if f =? 1 then Some false else if f =? 2 then Some true else None)
        (λ _, true).

Lemma fget_entry s fd f : 0 ≤ fd < t_max (table s) → entry (table s) fd = Some f → fget s fd = (file_get s f, Some f).
Proof. intros H E. unfold fget. replace (_ || _) with false by (symmetry; apply orb_false_iff; lia). by rewrite E. Qed.

Lemma file_put_freed s f : frc s f ≤ 1 → freed (file_put s f) = freed s ++ [f].
Proof.
  intros H. unfold file_put. replace (0 <? _) with false; [done|]. symmetry. apply Z.ltb_ge.
  unfold set_frc. cbn [frc]. rewrite fn_lookup_insert. lia.
Qed.

Lemma file_put_freed_mono s f g : g ∈ freed s → g ∈ freed (file_put s f).
Proof. intros H. unfold file_put. destruct (0 <? _); [done|]. cbn [freed set_frc]. apply elem_of_app. by left. Qed.

(** A send of a file on a channel whose other end is closed gives the
    reference back twice: [chan_send] frees the message with its files and
    reports EPIPE, and the system call puts the files again.  A file that
    only the sender's descriptor table holds is freed while the descriptor
    still refers to it. *)
Theorem msg_send_double_put s fd xfd f g side data cred :
  (data = [] ∨ Z.of_nat (length data) ≤ OLUX_MSG_MAX) → 0 ≤ fd < t_max (table (fs s)) → 0 ≤ xfd < t_max (table (fs s)) →
  entry (table (fs s)) fd = Some f → entry (table (fs s)) xfd = Some g → f ≠ g → frc (fs s) g = 1 →
  end_of s f = Some side → closed (ch s) (negb side) = true →
  ∃ s', sys_olux_msg_send s fd data [Some xfd] true false cred = CRet s' (- EPIPE) true ∧
    frc (fs s') g = 0 ∧ g ∈ freed (fs s') ∧ entry (table (fs s')) xfd = Some g.
Proof.
  intros Hd Hfd Hx Ef Eg Hne Hrc Hend Hcl. unfold sys_olux_msg_send. cbn [length]. change (OLUX_MSG_MAX_FDS <? Z.of_nat 1) with false. cbn iota.
  rewrite (fget_entry _ _ f) by done. cbn [set_fs end_of fs gather]. rewrite Hend.
  rewrite (fget_entry (file_get (fs s) f) xfd g) by done.
  cbn [app]. change (0 =? 0) with true. cbn iota. unfold chan_send.
  replace (OLUX_MSG_MAX <? Z.of_nat (length data)) with false by (unfold OLUX_MSG_MAX in *; destruct Hd as [->|Hd]; [done|simpl; lia]).
  cbn [negb andb]. rewrite !andb_false_r. destruct cred as [[pid uid] gid]. unfold chan_try. cbn [set_fs ch]. rewrite Hcl.
  eexists. split; [reflexivity|]. set (t1 := file_get (file_get (fs s) f) g).
  assert (frc t1 g = 2) as E1.
  { unfold t1. destruct (file_get_spec (file_get (fs s) f) g) as [-> _], (file_get_spec (fs s) f) as [-> _].
    unfold is_file. rewrite bool_decide_false, bool_decide_true by congruence. lia. }
  assert (table t1 = table (fs s)) as T1 by done. clearbody t1.
  unfold send_finish, free_msg, put_files. cbn [m_files foldl set_fs fs].
  change (negb (- EPIPE =? 0)) with true. cbn iota.
  destruct (file_put_spec t1 g) as (P1 & P2 & _). destruct (file_put_spec (file_put t1 g) g) as (P3 & P4 & _).
  destruct (file_put_spec (file_put (file_put t1 g) g) f) as (P5 & P6 & _).
  assert (is_file g (Some g) = 1) as G1 by (unfold is_file; by rewrite bool_decide_true).
  assert (is_file g (Some f) = 0) as G2 by (unfold is_file; rewrite bool_decide_false by congruence; done).
  split_and!.
  - rewrite P5, P3, P1, E1, G1, G2. done.
  - apply file_put_freed_mono. rewrite file_put_freed; [apply elem_of_app; right; by left|]. rewrite P1, E1, G1. done.
  - by rewrite P6, P4, P2, T1.
Qed.

Lemma msg_send_double_put_witness :
  let s := (chan_release ex_chsys true).1 in
  ∃ s', sys_olux_msg_send s 0 [] [Some 1] true false (100, 0, 0) = CRet s' (- EPIPE) true ∧
        7 ∈ freed (fs s') ∧ entry (table (fs s')) 1 = Some 7.
Proof.
  cbn zeta. destruct (msg_send_double_put (chan_release ex_chsys true).1 0 1 1 7 false [] (100, 0, 0)) as (s' & H1 & _ & H3 & H4).
  - by left.
  - vm_compute. split; [intros X; discriminate X|reflexivity].
  - vm_compute. split; [intros X; discriminate X|reflexivity].
  - vm_compute. reflexivity.
  - vm_compute. reflexivity.
  - lia.
  - vm_compute. reflexivity.
  - vm_compute. reflexivity.
  - vm_compute. reflexivity.
  - exists s'. split; [exact H1|]. split; [exact H3|exact H4].
Defined.
