(* ===== verification/Timer.v ===== *)
(** * Clock and timers: src/kernel/time.c

    Every CPU has a list of pending timers sorted by expiry and a periodic
    tick; its compare register is set to whichever comes first.  The wall
    clock is the monotonic clock plus an offset that is slewed. *)

From Stdlib Require Import Sorting.Sorted.
From stdpp Require Import functions.
From S2P Require Import Prelude Sched.

(** ** Timers *)

Record ktimer : Type := Ktimer { expires : Z; pending : bool; k_cpu : Z }.

(** [queue] and [next_tick] are [cpu_timers]; [programmed] is the compare
    register of each CPU. *)
Record timers : Type := Timers {
  ktimers : Z → ktimer;
  queue : Z → list Z;
  next_tick : Z → Z;
  programmed : Z → Z;
  jiffies : Z;
}.

Definition set_timer (s : timers) (t : Z) (v : ktimer) : timers :=
  Timers (<[t := v]> (ktimers s)) (queue s) (next_tick s) (programmed s) (jiffies s).
Definition set_queue (s : timers) (c : Z) (l : list Z) : timers :=
  Timers (ktimers s) (<[c := l]> (queue s)) (next_tick s) (programmed s) (jiffies s).
Definition set_next_tick (s : timers) (c n : Z) : timers :=
  Timers (ktimers s) (queue s) (<[c := n]> (next_tick s)) (programmed s) (jiffies s).

Definition next_event (s : timers) (c : Z) : Z :=
  match queue s c with
  | [] => next_tick s c
  | t :: _ => if expires (ktimers s t) <? next_tick s c then expires (ktimers s t) else next_tick s c
  end.

Definition reprogram (s : timers) (c : Z) : timers :=
  Timers (ktimers s) (queue s) (next_tick s) (<[c := next_event s c]> (programmed s)) (jiffies s).

Definition ktimer_init (s : timers) (t : Z) : timers := set_timer s t (Ktimer (expires (ktimers s t)) false (-1)).

Definition ktimer_cancel (s : timers) (t : Z) : timers * bool :=
  let v := ktimers s t in
  let c := k_cpu v in
  if c <? 0 then (s, false)
  else
    let s := if pending v then set_queue s c (list_del t (queue s c)) else s in
    (set_timer s t (Ktimer (expires v) false (-1)), pending v).

(** The place before the first timer that expires later. *)
Fixpoint insert_timer (m : Z → ktimer) (l : list Z) (t e : Z) : list Z :=
  match l with
  | [] => [t]
  | x :: l' => if e <? expires (m x) then t :: l else x :: insert_timer m l' t e
  end.

Definition ktimer_start (s : timers) (c t e : Z) : timers :=
  let s := (ktimer_cancel s t).1 in
  let s := set_timer s t (Ktimer e true c) in
  let l := insert_timer (ktimers s) (queue s c) t e in
  let s := set_queue s c l in
  if bool_decide (head l = Some t) then reprogram s c else s.

(** ** The timer interrupt

    The function of a timer may start the timer again: [again t] is the new
    expiry.  [fired] collects the timers whose functions ran. *)

Definition expire (again : Z → option Z) (s : timers) (c t : Z) : timers :=
  let s := set_queue s c (list_del t (queue s c)) in
  let v := ktimers s t in
  let s := set_timer s t (Ktimer (expires v) false (k_cpu v)) in
  match again t with None => s | Some e => ktimer_start s c t e end.

Fixpoint expire_loop (fuel : nat) (again : Z → option Z) (s : timers) (c now : Z) (fired : list Z) : option (timers * list Z) :=
  match fuel with
  | O => None
  | S fuel =>
      match queue s c with
      | [] => Some (s, fired)
      | t :: _ =>
          if now <? expires (ktimers s t) then Some (s, fired)
          else expire_loop fuel again (expire again s c t) c now (fired ++ [t])
      end
  end.

(** Missed ticks are skipped. *)
Definition tick_due (s : timers) (c now : Z) : bool := next_tick s c <=? now.
Definition skip_ticks (s : timers) (c now : Z) : timers :=
  if tick_due s c now then
    let missed := (now - next_tick s c) / TICK_NSEC in
    set_next_tick s c (next_tick s c ⊕ wrap64 ((missed + 1) * TICK_NSEC))
  else s.

(** The state, the timers that fired, and whether the scheduler's tick runs. *)
Definition timer_interrupt (fuel : nat) (again : Z → option Z) (s : timers) (c now : Z) : option (timers * list Z * bool) :=
  let tick := tick_due s c now in
  let s := skip_ticks s c now in
  match expire_loop fuel again s c now [] with
  | None => None
  | Some (s, fired) =>
      let s := reprogram s c in
      let s := if tick && (c =? 0) then Timers (ktimers s) (queue s) (next_tick s) (programmed s) (jiffies s ⊕ 1) else s in
      Some (s, fired, tick)
  end.

Definition time_cpu_init (s : timers) (c now : Z) : timers :=
  reprogram (set_next_tick (set_queue s c []) c (now ⊕ TICK_NSEC)) c.

(** ** The wall clock

    Signed 64-bit arithmetic; the corrections are bounded by the system call
    that sets them, so that no product overflows. *)

Record wall : Type := Wall {
  realtime_offset : Z;
  disc_last : Z;
  slew_left : Z;
  freq_ppb : Z;
  freq_rem : Z;
  slew_rem : Z;
}.

Definition MAX_SLEW_PPM : Z := 500.
Definition LONG_GAP : Z := 1000000000000.

Definition to_s64 (x : Z) : Z := (x + 2 ^ 63) `mod` 2 ^ 64 - 2 ^ 63.

(** The frequency correction: the offset and the carry. *)
Definition fold_freq (w : wall) (elapsed : Z) : Z * Z :=
  if freq_ppb w =? 0 then (realtime_offset w, freq_rem w)
  else if elapsed <? LONG_GAP then
    let rem := freq_rem w + elapsed * freq_ppb w in
    (realtime_offset w + Z.quot rem 1000000000, Z.rem rem 1000000000)
  else (realtime_offset w + Z.quot (Z.quot elapsed 1000 * freq_ppb w) 1000000, freq_rem w).

(** The slew: how far it may go, and the carry. *)
Definition slew_max (w : wall) (elapsed : Z) : Z * Z :=
  if elapsed <? LONG_GAP then
    let rem := slew_rem w + elapsed * MAX_SLEW_PPM in (Z.quot rem 1000000, Z.rem rem 1000000)
  else (Z.quot elapsed 1000000 * MAX_SLEW_PPM, slew_rem w).

Definition fold (w : wall) (now : Z) : wall :=
  let last := if disc_last w =? 0 then now else disc_last w in
  let elapsed := to_s64 (now ⊖ last) in
  if elapsed <=? 0 then Wall (realtime_offset w) now (slew_left w) (freq_ppb w) (freq_rem w) (slew_rem w)
  else
    let '(off, frem) := fold_freq w elapsed in
    if negb (slew_left w =? 0) then
      let '(max, srem) := slew_max w elapsed in
      let step := if 0 <? slew_left w then Z.min (slew_left w) max else Z.max (slew_left w) (- max) in
      Wall (off + step) now (slew_left w - step) (freq_ppb w) frem srem
    else Wall off now (slew_left w) (freq_ppb w) frem 0.

Definition ktime_realtime_ns (w : wall) (now : Z) : wall * Z :=
  let w := fold w now in (w, wrap64 (now + realtime_offset w)).

Definition set_realtime_ns (w : wall) (now ns : Z) : wall :=
  let w := fold w now in
  Wall (to_s64 (to_s64 ns - to_s64 now)) (disc_last w) 0 (freq_ppb w) (freq_rem w) (slew_rem w).

(** The new values are given as options; the result is the slew left and the
    frequency. *)
Definition realtime_adjust (w : wall) (now : Z) (step slew freq : option Z) : wall * Z * Z :=
  let w := fold w now in
  let off := match step with None => realtime_offset w | Some d => realtime_offset w + d end in
  let left := match slew with None => slew_left w | Some d => d end in
  let ppb := match freq with None => freq_ppb w | Some d => d end in
  (Wall off (disc_last w) left ppb (freq_rem w) (slew_rem w), left, ppb).

(** ** Invariant *)

Definition by_expiry (s : timers) (a b : Z) : Prop := expires (ktimers s a) ≤ expires (ktimers s b).

(** The lists hold the pending timers, sorted; no compare register is set
    later than the next event of its CPU. *)
Record timers_ok (s : timers) : Prop := {
  tm_mem c t : t ∈ queue s c → pending (ktimers s t) = true ∧ k_cpu (ktimers s t) = c;
  tm_in t : pending (ktimers s t) = true → t ∈ queue s (k_cpu (ktimers s t)) ∧ 0 ≤ k_cpu (ktimers s t);
  tm_nodup c : NoDup (queue s c);
  tm_sorted c : StronglySorted (by_expiry s) (queue s c);
  tm_prog c : programmed s c ≤ next_event s c;
}.

Lemma sorted_weaken {A} (R R' : A → A → Prop) l :
  (∀ a b, a ∈ l → b ∈ l → R a b → R' a b) → StronglySorted R l → StronglySorted R' l.
Proof.
  induction l as [|x l IH]; intros H Hs; [constructor|]. apply StronglySorted_inv in Hs as [Hs Hall]. constructor.
  - apply IH; [|done]. intros a b Ha Hb. apply H; by right.
  - rewrite Forall_forall in *. intros b Hb. apply H; [by left|by right|by apply Hall].
Qed.

Lemma sorted_list_del R t l : StronglySorted R l → StronglySorted R (list_del t l).
Proof.
  induction l as [|x l IH]; intros Hs; [constructor|]. apply StronglySorted_inv in Hs as [Hs Hall]. unfold list_del.
  rewrite filter_cons. case_decide; fold (list_del t l); [|by apply IH]. constructor; [by apply IH|].
  rewrite Forall_forall in *. intros b Hb. apply Hall. unfold list_del in Hb. by apply list_elem_of_filter in Hb as [_ ?].
Qed.

Lemma insert_timer_perm m l t e : insert_timer m l t e ≡ₚ t :: l.
Proof. induction l as [|x l IH]; simpl; [done|]. case_match; [done|]. rewrite IH. constructor. Qed.

Lemma insert_timer_sorted (m : Z → ktimer) l t e :
  expires (m t) = e → StronglySorted (λ a b, expires (m a) ≤ expires (m b)) l →
  StronglySorted (λ a b, expires (m a) ≤ expires (m b)) (insert_timer m l t e).
Proof.
  intros He. induction l as [|x l IH]; intros Hs; simpl; [repeat constructor|].
  pose proof Hs as Hs0. apply StronglySorted_inv in Hs as [Hs Hall]. destruct (e <? expires (m x)) eqn:E; zbool.
  - constructor; [done|]. rewrite Forall_forall in *. intros b Hb. rewrite He. apply elem_of_cons in Hb as [->|Hb]; [lia|].
    specialize (Hall b Hb). lia.
  - constructor; [by apply IH|]. rewrite Forall_forall in *. intros b Hb. rewrite insert_timer_perm in Hb.
    apply elem_of_cons in Hb as [->|Hb]; [lia|by apply Hall].
Qed.

Lemma queue_set s c l d : queue (set_queue s c l) d = if decide (d = c) then l else queue s d.
Proof. unfold set_queue. cbn [queue]. case_decide; [subst; by rewrite fn_lookup_insert|by rewrite fn_lookup_insert_ne]. Qed.
Lemma timer_set s t v u : ktimers (set_timer s t v) u = if decide (u = t) then v else ktimers s u.
Proof. unfold set_timer. cbn [ktimers]. case_decide; [subst; by rewrite fn_lookup_insert|by rewrite fn_lookup_insert_ne]. Qed.

Lemma list_del_elem t l x : x ∈ list_del t l ↔ x ∈ l ∧ x ≠ t.
Proof. unfold list_del. rewrite list_elem_of_filter. naive_solver. Qed.

(** The next event does not come earlier when a timer leaves a sorted list. *)
Lemma next_event_del s s' c t :
  (∀ u, u ≠ t → expires (ktimers s' u) = expires (ktimers s u)) → next_tick s' c = next_tick s c →
  queue s' c = list_del t (queue s c) → StronglySorted (by_expiry s) (queue s c) → next_event s c ≤ next_event s' c.
Proof.
  intros Hk Hn Hq Hs. unfold next_event. rewrite Hq, Hn. destruct (list_del t (queue s c)) as [|y l] eqn:El.
  - destruct (queue s c); [lia|]. case_match; lia.
  - assert (y ∈ list_del t (queue s c)) as Hy by (rewrite El; by left). apply list_del_elem in Hy as [Hy Hne].
    rewrite Hk by done. destruct (queue s c) as [|x q] eqn:Eq; [by apply elem_of_nil in Hy|].
    apply StronglySorted_inv in Hs as [_ Hall]. rewrite Forall_forall in Hall. apply elem_of_cons in Hy as [->|Hy]; [lia|].
    specialize (Hall y Hy). unfold by_expiry in Hall. repeat case_match; lia.
Qed.

(** [t] is taken out and is not pending any more. *)
Lemma remove_ok s s' t :
  timers_ok s → (∀ u, u ≠ t → ktimers s' u = ktimers s u) → pending (ktimers s' t) = false →
  (∀ c, queue s' c = list_del t (queue s c)) → (∀ c, next_tick s' c = next_tick s c) → (∀ c, programmed s' c = programmed s c) →
  timers_ok s'.
Proof.
  intros [H1 H2 H3 H4 H5] Hk Hp Hq Hn Hg. split.
  - intros c u. rewrite Hq, list_del_elem. intros [Hu Hne]. rewrite Hk by done. by apply H1.
  - intros u Hu. destruct (decide (u = t)) as [->|Hne]; [congruence|]. rewrite Hk in * by done. destruct (H2 u Hu).
    split; [|done]. by rewrite Hq, list_del_elem.
  - intros c. rewrite Hq. by apply NoDup_filter.
  - intros c. rewrite Hq. apply (sorted_weaken (by_expiry s)); [|apply sorted_list_del, H4].
    intros a b [_ Ha]%list_del_elem [_ Hb]%list_del_elem. unfold by_expiry. by rewrite !Hk.
  - intros c. rewrite Hg. etrans; [apply H5|]. apply (next_event_del s s' c t); auto. intros u Hu. by rewrite Hk.
Qed.

Lemma list_del_absent t l : t ∉ l → list_del t l = l.
Proof.
  unfold list_del. induction l as [|x l IH]; intros H; [done|]. rewrite filter_cons_True by (intros ->; apply H; by left).
  rewrite IH; [done|]. intros Hx. apply H. by right.
Qed.

Lemma not_queued s c t : timers_ok s → (pending (ktimers s t) = true → c ≠ k_cpu (ktimers s t)) → t ∉ queue s c.
Proof. intros Hok Hp Ht. destruct (tm_mem _ Hok c t Ht) as [E1 E2]. by apply (Hp E1). Qed.

Lemma ktimer_cancel_spec s t :
  timers_ok s → let s' := (ktimer_cancel s t).1 in
  timers_ok s' ∧ pending (ktimers s' t) = false ∧ (∀ u, u ≠ t → ktimers s' u = ktimers s u) ∧
  (∀ c, queue s' c = list_del t (queue s c)) ∧ (ktimer_cancel s t).2 = pending (ktimers s t) ∧
  next_tick s' = next_tick s ∧ programmed s' = programmed s ∧ jiffies s' = jiffies s.
Proof.
  intros Hok. cbn zeta. unfold ktimer_cancel. set (v := ktimers s t). destruct (k_cpu v <? 0) eqn:Ec; zbool.
  { assert (pending v = false) as Hp. { destruct (pending v) eqn:Ep; [|done]. destruct (tm_in _ Hok t Ep). fold v in H0. lia. }
    cbn [fst snd]. split_and!; try done. intros c. rewrite list_del_absent; [done|]. apply (not_queued _ _ _ Hok). fold v. congruence. }
  cbn [fst snd]. set (s1 := if pending v then _ else s).
  assert (∀ u, ktimers s1 u = ktimers s u) as E1 by (unfold s1; by destruct (pending v)).
  assert (∀ c, queue s1 c = list_del t (queue s c)) as E2.
  { intros c. unfold s1. destruct (pending v) eqn:Ep.
    - rewrite queue_set. case_decide; [by subst|]. rewrite list_del_absent; [done|]. apply (not_queued _ _ _ Hok). fold v. congruence.
    - rewrite list_del_absent; [done|]. apply (not_queued _ _ _ Hok). fold v. congruence. }
  assert (next_tick s1 = next_tick s ∧ programmed s1 = programmed s ∧ jiffies s1 = jiffies s) as (E3 & E4 & E5) by (unfold s1; by destruct (pending v)).
  assert (∀ u, ktimers (set_timer s1 t (Ktimer (expires v) false (-1))) u = if decide (u = t) then Ktimer (expires v) false (-1) else ktimers s u) as E6
    by (intros u; rewrite timer_set; case_decide; [done|apply E1]).
  split_and!; try done.
  - apply (remove_ok s _ t); try done; [intros u Hu; by rewrite E6, decide_False|by rewrite E6, decide_True|intros c; by rewrite <-E3|intros c; by rewrite <-E4].
  - by rewrite E6, decide_True.
  - intros u Hu. by rewrite E6, decide_False.
Qed.

Lemma queue_start s c t e d :
  queue (ktimer_start s c t e) d =
    let s1 := (ktimer_cancel s t).1 in
    if decide (d = c) then insert_timer (<[t := Ktimer e true c]> (ktimers s1)) (queue s1 c) t e else queue s1 d.
Proof. unfold ktimer_start. cbn zeta. case_match; [unfold reprogram; cbn [queue]|]; by rewrite queue_set. Qed.

Lemma ktimers_start s c t e u :
  ktimers (ktimer_start s c t e) u = if decide (u = t) then Ktimer e true c else ktimers (ktimer_cancel s t).1 u.
Proof. unfold ktimer_start. case_match; apply timer_set. Qed.

Lemma next_event_min s c x l : queue s c = x :: l → next_event s c = Z.min (expires (ktimers s x)) (next_tick s c).
Proof. intros E. unfold next_event. rewrite E. case_match; zbool; lia. Qed.

(** After a start the compare register of every CPU is early enough. *)
Lemma start_programmed s s1 c t e d :
  s1 = (ktimer_cancel s t).1 → timers_ok s1 → pending (ktimers s1 t) = false →
  programmed (ktimer_start s c t e) d ≤ next_event (ktimer_start s c t e) d.
Proof.
  intros Es Hok Hf. assert (∀ c', t ∉ queue s1 c') as Ht by (intros c'; apply (not_queued _ _ _ Hok); congruence).
  pose proof (tm_prog _ Hok d) as Hp. unfold ktimer_start. rewrite <-Es. cbn zeta.
  set (m := <[t := Ktimer e true c]> (ktimers s1)). change (ktimers (set_timer s1 t _)) with m.
  change (queue (set_timer s1 t _) c) with (queue s1 c). set (l := insert_timer m (queue s1 c) t e).
  set (s2 := set_queue _ c l). assert (queue s2 c = l) as E2 by (unfold s2; by rewrite queue_set, decide_True).
  assert (d ≠ c → next_event s2 d = next_event s1 d) as Hd.
  { intros Hne. unfold next_event. assert (queue s2 d = queue s1 d) as -> by (unfold s2; by rewrite queue_set, decide_False).
    change (next_tick s2 d) with (next_tick s1 d). destruct (queue s1 d) as [|x q] eqn:Eq; [done|].
    assert (ktimers s2 x = ktimers s1 x) as ->; [|done]. unfold s2. change (ktimers (set_queue _ _ _)) with m.
    apply fn_lookup_insert_ne. intros ->. destruct (tm_mem _ Hok d x) as [Ha Hb]; [rewrite Eq; by left|].
    congruence. }
  case_match eqn:Eh.
  - change (next_event (reprogram s2 c) d) with (next_event s2 d). unfold reprogram. cbn [programmed].
    destruct (decide (d = c)) as [->|Hne]; [by rewrite fn_lookup_insert|]. rewrite fn_lookup_insert_ne by done. rewrite Hd by done. done.
  - apply bool_decide_eq_false in Eh. change (programmed s2 d) with (programmed s1 d). destruct (decide (d = c)) as [->|Hne]; [|by rewrite Hd].
    destruct (queue s1 c) as [|x q] eqn:Eq; [by destruct Eh|]. unfold l in *. simpl in *. destruct (e <? expires (m x)) eqn:Ee; [by destruct Eh|].
    rewrite (next_event_min s2 _ _ _ E2). rewrite (next_event_min _ _ _ _ Eq) in Hp.
    change (next_tick s2 c) with (next_tick s1 c). change (ktimers s2 x) with (m x). unfold m.
    rewrite fn_lookup_insert_ne; [done|]. intros ->. apply (Ht c). rewrite Eq. by left.
Qed.

(** Starting a timer takes it from wherever it is pending and queues it on
    the running CPU, after the timers that expire no later. *)
Lemma ktimer_start_spec s c t e :
  timers_ok s → 0 ≤ c → let s' := ktimer_start s c t e in
  timers_ok s' ∧ ktimers s' t = Ktimer e true c ∧ (∀ u, u ≠ t → ktimers s' u = ktimers s u) ∧
  queue s' c ≡ₚ t :: list_del t (queue s c) ∧ (∀ d, d ≠ c → queue s' d = list_del t (queue s d)) ∧
  next_tick s' = next_tick s ∧ jiffies s' = jiffies s.
Proof.
  intros Hok Hc. cbn zeta. destruct (ktimer_cancel_spec s t Hok) as (Hok1 & Hp & Hk & Hq & _ & Hn & _ & Hj).
  pose proof (queue_start s c t e) as Eq. pose proof (ktimers_start s c t e) as Ek. cbn zeta in Eq.
  assert (∀ d, programmed (ktimer_start s c t e) d ≤ next_event (ktimer_start s c t e) d) as Hg by (intros d; by eapply start_programmed).
  assert (next_tick (ktimer_start s c t e) = next_tick s ∧ jiffies (ktimer_start s c t e) = jiffies s) as [En Ej].
  { unfold ktimer_start. rewrite <-Hn, <-Hj. by case_match. }
  set (s1 := (ktimer_cancel s t).1) in *. set (s' := ktimer_start s c t e) in *. set (m := <[t := Ktimer e true c]> (ktimers s1)) in *.
  assert (∀ u, ktimers s' u = m u) as Em.
  { intros u. rewrite Ek. unfold m. case_decide; [subst; by rewrite fn_lookup_insert|by rewrite fn_lookup_insert_ne]. }
  assert (∀ d, t ∉ queue s1 d) as Ht by (intros d; apply (not_queued _ _ _ Hok1); congruence).
  assert (∀ d, d = c → queue s' d ≡ₚ t :: queue s1 c) as Ep by (intros d ->; rewrite Eq, decide_True by done; apply insert_timer_perm).
  assert (∀ d u, u ∈ queue s' d ↔ (d = c ∧ u = t) ∨ u ∈ queue s1 d) as Hm.
  { intros d u. destruct (decide (d = c)) as [->|Hd]; [rewrite (Ep c eq_refl), elem_of_cons; naive_solver|].
    rewrite Eq, decide_False by done. naive_solver. }
  split_and!; try done; [split|by rewrite Ek, decide_True|intros u Hu; rewrite Ek, decide_False by done; by apply Hk| |].
  - intros d u [[-> ->]|Hu]%Hm; rewrite Ek; [by rewrite decide_True|].
    rewrite decide_False by (intros ->; by apply (Ht d)). by apply (tm_mem _ Hok1).
  - intros u. rewrite Ek. case_decide as Hu; cbn [pending k_cpu]; [intros _; split; [apply Hm; left; done|done]|].
    intros Hpu. destruct (tm_in _ Hok1 u Hpu). split; [apply Hm; by right|done].
  - intros d. destruct (decide (d = c)) as [->|Hd]; [rewrite (Ep c eq_refl); constructor; [apply Ht|apply (tm_nodup _ Hok1)]|].
    rewrite Eq, decide_False by done. apply (tm_nodup _ Hok1).
  - assert (∀ d, StronglySorted (λ a b, expires (m a) ≤ expires (m b)) (queue s1 d)) as Hs.
    { intros d. apply (sorted_weaken (by_expiry s1)); [|apply (tm_sorted _ Hok1)]. intros a b Ha Hb. unfold by_expiry, m.
      rewrite !fn_lookup_insert_ne; [done|intros ->; by apply (Ht d)..]. }
    intros d. apply (sorted_weaken (λ a b, expires (m a) ≤ expires (m b))); [intros a b _ _; unfold by_expiry; by rewrite !Em|].
    rewrite Eq. case_decide; [|apply Hs]. apply insert_timer_sorted; [unfold m; by rewrite fn_lookup_insert|apply Hs].
  - intros d. by apply Hg.
  - rewrite (Ep c eq_refl). by rewrite Hq.
  - intros d Hd. rewrite Eq, decide_False by done. apply Hq.
Qed.

(** ** The interrupt *)

Definition due (m : Z → ktimer) (now : Z) (l : list Z) : list Z := filter (λ t, expires (m t) ≤ now) l.

Lemma due_ext m m' now l : (∀ x, x ∈ l → m x = m' x) → due m now l = due m' now l.
Proof.
  induction l as [|x l IH]; intros H; [done|]. unfold due. rewrite !filter_cons, (H x) by by left.
  fold (due m now l) (due m' now l). by rewrite IH by (intros y Hy; apply H; by right).
Qed.

Lemma due_insert m now l t e : expires (m t) = e → now < e → due m now (insert_timer m l t e) = due m now l.
Proof.
  intros He Hn. unfold due. induction l as [|x l IH]; cbn [insert_timer]; [by rewrite filter_cons_False by lia|].
  case_match; [by rewrite filter_cons_False by lia|]. rewrite !filter_cons, IH. done.
Qed.

(** A sorted list whose first timer is not due has none that is. *)
Lemma due_none s now l x : StronglySorted (by_expiry s) (x :: l) → now < expires (ktimers s x) → due (ktimers s) now (x :: l) = [].
Proof.
  intros Hs Hx. apply StronglySorted_inv in Hs as [_ Hall]. rewrite Forall_forall in Hall. unfold due.
  rewrite filter_cons_False by lia. apply elem_of_nil_inv. intros y [Hy1 Hy2]%list_elem_of_filter.
  specialize (Hall y Hy2). unfold by_expiry in Hall. lia.
Qed.

(** What the function of a fired timer leaves of it. *)
Definition refired (again : Z → option Z) (c t : Z) (v : ktimer) : ktimer :=
  match again t with None => Ktimer (expires v) false (k_cpu v) | Some e => Ktimer e true c end.

Lemma expire_spec again s c t q now :
  timers_ok s → 0 ≤ c → queue s c = t :: q → (∀ e, again t = Some e → now < e) →
  let s' := expire again s c t in
  timers_ok s' ∧ ktimers s' t = refired again c t (ktimers s t) ∧ (∀ u, u ≠ t → ktimers s' u = ktimers s u) ∧
  (∀ u, u ∈ queue s' c ↔ (u = t ∧ is_Some (again t)) ∨ u ∈ q) ∧ due (ktimers s') now (queue s' c) = due (ktimers s) now q ∧
  (∀ d, d ≠ c → queue s' d = queue s d) ∧ next_tick s' = next_tick s ∧ jiffies s' = jiffies s.
Proof.
  intros Hok Hc Eq Hag. cbn zeta. pose proof (tm_nodup _ Hok c) as Hnd. rewrite Eq in Hnd. apply NoDup_cons in Hnd as [Htq Hnd].
  assert (list_del t (queue s c) = q) as El.
  { rewrite Eq. unfold list_del. rewrite filter_cons_False by naive_solver. by apply list_del_absent. }
  destruct (tm_mem _ Hok c t) as [Hp Hk]; [rewrite Eq; by left|].
  assert (∀ d, d ≠ c → list_del t (queue s d) = queue s d) as Eo.
  { intros d Hd. apply list_del_absent, (not_queued _ _ _ Hok). congruence. }
  unfold expire, refired. rewrite El. change (ktimers (set_queue s c q) t) with (ktimers s t).
  set (s1 := set_timer (set_queue s c q) t _).
  assert (∀ d, queue s1 d = list_del t (queue s d)) as Q1.
  { intros d. unfold s1. change (queue (set_timer ?s _ _)) with (queue s). rewrite queue_set. case_decide; [by subst|by rewrite Eo]. }
  assert (∀ u, ktimers s1 u = if decide (u = t) then Ktimer (expires (ktimers s t)) false (k_cpu (ktimers s t)) else ktimers s u) as K1
    by (intros u; unfold s1; by rewrite timer_set).
  assert (timers_ok s1) as Hok1.
  { apply (remove_ok s _ t); try done; [intros u Hu; by rewrite K1, decide_False|by rewrite K1, decide_True]. }
  assert (∀ x, x ∈ q → x ≠ t) as Hne by (intros x Hx ->; done).
  destruct (again t) as [e|] eqn:Ea; cycle 1.
  { split_and!; try done; [by rewrite K1, decide_True|intros u Hu; by rewrite K1, decide_False| | |intros d Hd; rewrite Q1; by apply Eo].
    - intros u. rewrite Q1, El. split; [by right|]. intros [[_ [? ?]]|?]; done.
    - rewrite Q1, El. apply due_ext. intros x Hx. by rewrite K1, decide_False by by apply Hne. }
  destruct (ktimer_start_spec s1 c t e Hok1 Hc) as (Hok2 & K2 & K2' & Q2 & Q2' & Hn & Hj).
  assert (∀ d, list_del t (queue s1 d) = queue s1 d) as E1.
  { intros d. apply list_del_absent. rewrite Q1, list_del_elem. naive_solver. }
  split_and!; try done.
  - intros u Hu. by rewrite K2', K1, decide_False.
  - intros u. rewrite Q2, E1, elem_of_cons, Q1, El. naive_solver.
  - destruct (ktimer_cancel_spec s1 t Hok1) as (_ & _ & KC & QC & _).
    rewrite queue_start, decide_True, QC, E1, Q1, El by done. set (m := <[t := _]> _).
    rewrite (due_ext (ktimers (ktimer_start s1 c t e)) m).
    + rewrite due_insert; [|unfold m; by rewrite fn_lookup_insert|by apply Hag]. apply due_ext. intros x Hx. specialize (Hne x Hx).
      unfold m. rewrite fn_lookup_insert_ne by done. by rewrite KC, K1, decide_False.
    + intros x _. rewrite ktimers_start. unfold m. case_decide; [subst; by rewrite fn_lookup_insert|by rewrite fn_lookup_insert_ne].
  - intros d Hd. rewrite Q2', E1, Q1 by done. by apply Eo.
Qed.

Definition later (again : Z → option Z) (now : Z) : Prop := ∀ t e, again t = Some e → now < e.

(** What the interrupt leaves of the timers [s], the timers [l] having fired. *)
Record fired_all (again : Z → option Z) (c now : Z) (s s' : timers) (l : list Z) : Prop := {
  fa_none t : t ∈ queue s' c → now < expires (ktimers s' t);
  fa_mem t : t ∈ queue s' c ↔ (t ∈ l ∧ is_Some (again t)) ∨ (t ∈ queue s c ∧ t ∉ l);
  fa_fired t : t ∈ l → ktimers s' t = refired again c t (ktimers s t);
  fa_other t : t ∉ l → ktimers s' t = ktimers s t;
  fa_queue d : d ≠ c → queue s' d = queue s d;
}.

Lemma fired_none again c now s : (∀ t, t ∈ queue s c → now < expires (ktimers s t)) → fired_all again c now s s [].
Proof.
  intros H. split; try done; intros t; pose proof (not_elem_of_nil t) as Hn; [|done]. split; [by right|]. intros [[? _]|[? _]]; done.
Qed.

Lemma expire_loop_spec fuel again s c now fired :
  timers_ok s → 0 ≤ c → later again now → (length (due (ktimers s) now (queue s c)) < fuel)%nat →
  ∃ s', expire_loop fuel again s c now fired = Some (s', fired ++ due (ktimers s) now (queue s c)) ∧
    timers_ok s' ∧ fired_all again c now s s' (due (ktimers s) now (queue s c)) ∧ next_tick s' = next_tick s ∧ jiffies s' = jiffies s.
Proof.
  revert s fired. induction fuel as [|fuel IH]; intros s fired Hok Hc Hl Hf; [lia|]. cbn [expire_loop].
  destruct (queue s c) as [|t q] eqn:Eq.
  { assert (∀ t, t ∈ queue s c → now < expires (ktimers s t)) by (intros t Ht; rewrite Eq in Ht; by apply elem_of_nil in Ht).
    change (due (ktimers s) now []) with (@nil Z). exists s. rewrite app_nil_r. split_and!; try done. by apply fired_none. }
  pose proof (tm_sorted _ Hok c) as Hs. rewrite Eq in Hs. destruct (now <? expires (ktimers s t)) eqn:E; zbool.
  { rewrite (due_none s) in * by done. exists s. rewrite app_nil_r. split_and!; try done. apply fired_none. rewrite Eq. intros u Hu.
    apply StronglySorted_inv in Hs as [_ Hall]. rewrite Forall_forall in Hall. unfold by_expiry in Hall.
    apply elem_of_cons in Hu as [->|Hu]; [done|]. specialize (Hall u Hu). lia. }
  destruct (expire_spec again s c t q now Hok Hc Eq (Hl t)) as (Hok1 & K & K' & Q & D & Qo & Hn & Hj).
  pose proof (tm_nodup _ Hok c) as Hnd. rewrite Eq in Hnd. apply NoDup_cons in Hnd as [Htq Hnd].
  assert (due (ktimers s) now (t :: q) = t :: due (ktimers s) now q) as Ed by (unfold due; by rewrite filter_cons_True by lia).
  assert (∀ u, u ∈ due (ktimers s) now q → u ≠ t) as Hdt by (intros u [_ Hu]%list_elem_of_filter ->; done).
  rewrite Ed in *. simpl in Hf. destruct (IH (expire again s c t) (fired ++ [t])) as (s' & -> & Hok' & [F1 F2 F3 F4 F5] & Hn' & Hj'); try done.
  { rewrite D. lia. }
  exists s'. rewrite D in *. split_and!; [by rewrite <-app_assoc|done| |congruence..]. split; [done|..].
  - intros u. rewrite F2, Q, elem_of_cons, Eq, elem_of_cons. destruct (decide (u = t)) as [->|]; [|naive_solver].
    assert (t ∉ due (ktimers s) now q) by naive_solver. naive_solver.
  - intros u [->|Hu]%elem_of_cons; [rewrite F4 by naive_solver; done|]. rewrite F3 by done. by rewrite K' by naive_solver.
  - intros u Hu. rewrite F4 by (intros ?; apply Hu; by right). apply K'. intros ->. apply Hu. by left.
  - intros d Hd. by rewrite F5, Qo.
Qed.

(** The tick after [now], on the grid of the ticks before it. *)
Lemma skip_ticks_spec s c now :
  timers_ok s → 0 ≤ next_tick s c → 0 ≤ now → now + TICK_NSEC < U64 → next_tick s c < U64 →
  let s' := skip_ticks s c now in
  timers_ok s' ∧ ktimers s' = ktimers s ∧ queue s' = queue s ∧ jiffies s' = jiffies s ∧ now < next_tick s' c ∧
  (next_tick s c ≤ now → next_tick s' c ≤ now + TICK_NSEC) ∧ (now < next_tick s c → next_tick s' c = next_tick s c) ∧
  (∃ k, 0 ≤ k ∧ next_tick s' c = next_tick s c + k * TICK_NSEC) ∧ (∀ d, d ≠ c → next_tick s' d = next_tick s d).
Proof.
  intros Hok Hn Hw Hm Hn'. cbn zeta. unfold skip_ticks, tick_due. destruct (next_tick s c <=? now) eqn:E; zbool.
  2: { split_and!; try done; [intros; lia|exists 0; lia]. }
  set (k := (now - next_tick s c) / TICK_NSEC). assert (TICK_NSEC > 0) as HT by done.
  pose proof (Z.div_mod (now - next_tick s c) TICK_NSEC ltac:(lia)) as Hdm. fold k in Hdm.
  pose proof (Z.mod_pos_bound (now - next_tick s c) TICK_NSEC ltac:(lia)) as Hmb.
  assert (0 ≤ k) as Hk by (apply Z.div_pos; lia).
  assert (next_tick s c ⊕ wrap64 ((k + 1) * TICK_NSEC) = next_tick s c + (k + 1) * TICK_NSEC) as Ew.
  { rewrite wrap64_small by nia. apply add64_small; nia. }
  assert (next_tick (set_next_tick s c (next_tick s c ⊕ wrap64 ((k + 1) * TICK_NSEC))) c = next_tick s c + (k + 1) * TICK_NSEC) as En.
  { unfold set_next_tick. cbn [next_tick]. by rewrite fn_lookup_insert. }
  split_and!; try done; [|rewrite En; nia..|lia|exists (k + 1); split; [lia|done]|].
  - destruct Hok as [H1 H2 H3 H4 H5]. split; try done. intros d. etrans; [apply H5|]. unfold next_event.
    change (queue (set_next_tick s _ _)) with (queue s). change (ktimers (set_next_tick s _ _)) with (ktimers s).
    destruct (decide (d = c)) as [->|Hd]; [rewrite En; repeat case_match; zbool; nia|].
    unfold set_next_tick. cbn [next_tick]. by rewrite fn_lookup_insert_ne.
  - intros d Hd. unfold set_next_tick. cbn [next_tick]. by rewrite fn_lookup_insert_ne.
Qed.

Lemma reprogram_ok s c : timers_ok s → timers_ok (reprogram s c).
Proof.
  intros [H1 H2 H3 H4 H5]. split; try done. intros d. change (next_event (reprogram s c) d) with (next_event s d). unfold reprogram. cbn [programmed].
  destruct (decide (d = c)) as [->|Hd]; [by rewrite fn_lookup_insert|by rewrite fn_lookup_insert_ne].
Qed.

(** C21. The timer interrupt on CPU [c] at time [now], when the functions of
    the timers restart them for later: the loop ends; it fires exactly the
    timers of the CPU that are due, in the order of their expiry; a timer that
    is restarted is pending for its new expiry and every other fired timer is
    idle; the other timers and the other CPUs' lists are as before; no pending
    timer of the CPU is due any more.  The lists stay sorted and agree with the
    pending flags, and no compare register is later than its CPU's next event:
    no timer is missed.  The next tick is after [now], on the old grid of
    ticks, and at most one period away when a tick was due; the compare
    register is set to the next event, which is after [now]. *)
Theorem timer_interrupt_correct fuel again s c now :
  timers_ok s → 0 ≤ c → later again now → 0 ≤ next_tick s c < U64 → 0 ≤ now → now + TICK_NSEC < U64 →
  (length (queue s c) < fuel)%nat →
  ∃ s', timer_interrupt fuel again s c now = Some (s', due (ktimers s) now (queue s c), tick_due s c now) ∧
    timers_ok s' ∧ fired_all again c now s s' (due (ktimers s) now (queue s c)) ∧
    now < next_tick s' c ∧ (next_tick s c ≤ now → next_tick s' c ≤ now + TICK_NSEC) ∧
    (now < next_tick s c → next_tick s' c = next_tick s c) ∧ (∃ k, 0 ≤ k ∧ next_tick s' c = next_tick s c + k * TICK_NSEC) ∧
    programmed s' c = next_event s' c ∧ now < programmed s' c ∧
    jiffies s' = (if tick_due s c now && (c =? 0) then jiffies s ⊕ 1 else jiffies s).
Proof.
  intros Hok Hc Hl Hn Hw Hm Hf. destruct (skip_ticks_spec s c now) as (Hok1 & K & Q & J & T1 & T2 & T3 & T4 & _); try done; [lia..|].
  destruct (expire_loop_spec fuel again (skip_ticks s c now) c now []) as (s1 & E & Hok2 & HF & Hn2 & Hj2); try done.
  { unfold due. pose proof (length_filter (λ t, expires (ktimers s t) ≤ now) (queue s c)). rewrite K, Q. lia. }
  unfold timer_interrupt. rewrite E, K, Q in *. cbn [app]. eexists. split; [done|]. set (s2 := if _ && _ then _ else _).
  assert (ktimers s2 = ktimers s1 ∧ queue s2 = queue s1 ∧ next_tick s2 = next_tick s1 ∧ programmed s2 = programmed (reprogram s1 c)) as (E1 & E2 & E3 & E4)
    by (unfold s2; by destruct (tick_due s c now && (c =? 0))).
  assert (∀ d, next_event s2 d = next_event s1 d) as E5 by (intros d; unfold next_event; by rewrite E1, E2, E3).
  assert (programmed s2 c = next_event s2 c) as E6. { rewrite E4, E5. unfold reprogram. cbn [programmed]. apply fn_lookup_insert. }
  rewrite E6, E5, E3, Hn2. split_and!; try done.
  - pose proof (reprogram_ok _ c Hok2) as [H1 H2 H3 H4 H5]. split; rewrite ?E1, ?E2; try done.
    + intros d. pose proof (H4 d) as Hs. apply (sorted_weaken (by_expiry (reprogram s1 c))); [|done]. intros a b _ _. unfold by_expiry. by rewrite E1.
    + intros d. rewrite E4, E5. apply H5.
  - destruct HF as [F1 F2 F3 F4 F5]. rewrite K in F3, F4. rewrite Q in F2, F5. split; rewrite ?E1, ?E2; done.
  - unfold next_event. rewrite Hn2. destruct (queue s1 c) as [|x l] eqn:Eq; [done|]. case_match; [|done].
    apply (fa_none _ _ _ _ _ _ HF). rewrite Eq. by left.
  - unfold s2. rewrite <-J, <-Hj2. by destruct (tick_due s c now && (c =? 0)).
Qed.

(** Two timers on CPU 0, one due and restarted, one not due; a tick is due. *)
Definition example_timers : timers :=
  let s := Timers (λ _, Ktimer 0 false (-1)) (λ _, []) (λ _, 4000000) (λ _, 0) 7 in
  ktimer_start (ktimer_start s 0 1 3000000) 0 2 9000000.
Definition example_again (t : Z) : option Z := if t =? 1 then Some 8500000 else None.

Lemma example_timers_ok : timers_ok example_timers.
Proof.
  unfold example_timers. apply ktimer_start_spec; [|done]. apply ktimer_start_spec; [|done]. split; cbn [queue ktimers pending programmed]; try done.
  - intros c t H. by apply elem_of_nil in H.
  - intros _. constructor.
  - intros _. constructor.
Qed.

Lemma timer_interrupt_witness :
  ∃ s', timer_interrupt 3 example_again example_timers 0 8100000 = Some (s', [1], true) ∧
    queue s' 0 = [1; 2] ∧ next_tick s' 0 = 12000000 ∧ programmed s' 0 = 8500000 ∧ jiffies s' = 8.
Proof.
  destruct (timer_interrupt_correct 3 example_again example_timers 0 8100000) as (s' & E & _).
  - exact example_timers_ok.
  - done.
  - intros t e. unfold example_again. case_match; [|done]. intros [= <-]. done.
  - done.
  - done.
  - done.
  - vm_compute. lia.
  - eexists. split; [exact E|]. revert E. vm_compute. intros [= <-]. done.
Defined.

(** ** Slewing the wall clock *)

(** With no frequency correction, a fold moves the offset by exactly what it
    takes from the slew that is left, towards the target and never past it, at
    no more than [MAX_SLEW_PPM]; the wall clock does not go back. *)
Lemma fold_slew w now :
  freq_ppb w = 0 → 0 ≤ slew_rem w < 1000000 → 0 < disc_last w ≤ now → now < 2 ^ 63 →
  let w' := fold w now in
  realtime_offset w' + slew_left w' = realtime_offset w + slew_left w ∧ Z.abs (slew_left w') ≤ Z.abs (slew_left w) ∧
  0 ≤ slew_left w' * slew_left w ∧ disc_last w' = now ∧ 0 ≤ slew_rem w' < 1000000 ∧
  Z.abs (realtime_offset w' - realtime_offset w) * 1000000 ≤ (now - disc_last w) * MAX_SLEW_PPM + slew_rem w ∧
  disc_last w + realtime_offset w ≤ now + realtime_offset w'.
Proof.
  intros Hf Hr Hd Hn. cbn zeta. unfold fold, fold_freq. rewrite Hf, (proj2 (Z.eqb_neq (disc_last w) 0)) by lia. cbn [Z.eqb].
  assert (to_s64 (now ⊖ disc_last w) = now - disc_last w) as ->.
  { rewrite sub64_small by (unfold U64; lia). unfold to_s64. rewrite Z.mod_small by lia. lia. }
  set (el := now - disc_last w). destruct (el <=? 0) eqn:E0; zbool; cbn [realtime_offset slew_left disc_last slew_rem]; [unfold MAX_SLEW_PPM; split_and!; (lia || nia)|].
  assert (∃ max srem, slew_max w el = (max, srem) ∧ 0 ≤ max ∧ 0 ≤ srem < 1000000 ∧ max * 1000000 ≤ el * MAX_SLEW_PPM + slew_rem w)
    as (max & srem & Em & H1 & H2 & H3).
  { unfold slew_max. unfold MAX_SLEW_PPM. case_match; eexists _, _; (split; [done|]); rewrite ?Z.quot_div_nonneg, ?Z.rem_mod_nonneg by nia.
    - pose proof (Z.div_mod (slew_rem w + el * 500) 1000000 ltac:(lia)). pose proof (Z.mod_pos_bound (slew_rem w + el * 500) 1000000 ltac:(lia)).
      assert (0 ≤ (slew_rem w + el * 500) / 1000000) by (apply Z.div_pos; lia). lia.
    - pose proof (Z.div_mod el 1000000 ltac:(lia)). pose proof (Z.mod_pos_bound el 1000000 ltac:(lia)).
      assert (0 ≤ el / 1000000) by (apply Z.div_pos; lia). lia. }
  destruct (slew_left w =? 0) eqn:E1; zbool; cbn [negb]; [cbn [realtime_offset slew_left disc_last slew_rem]; unfold MAX_SLEW_PPM; split_and!; lia|].
  rewrite Em. cbn [realtime_offset slew_left disc_last slew_rem]. unfold MAX_SLEW_PPM in *. destruct (0 <? slew_left w) eqn:E2; zbool; split_and!; (lia || nia).
Qed.
