(* ===== verification/Fdt.v ===== *)
(** * Flattened device trees: src/lib/fdt.c

    The blob is the list of its bytes and a pointer into it is an index.
    Every access is checked: a read outside the blob, a use of the token
    variable before [next_token] has set it, and a write outside the stack of
    [fdt_parent] are undefined behaviour and end a run with [Undef].  Loops
    run on fuel and end with [Out] when it is used up. *)

From Stdlib Require Import Ascii String.
From S2P Require Import Prelude.

Inductive run (A : Type) : Type := Ret (a : A) | Undef | Out.
Arguments Ret {A} a.
Arguments Undef {A}.
Arguments Out {A}.

#[export] Instance run_ret : MRet run := λ A a, Ret a.
#[export] Instance run_bind : MBind run := λ A B f m,
  match m with Ret a => f a | Undef => Undef | Out => Out end.

(** The bytes of a literal. *)
Fixpoint str (s : string) : list Z :=
  match s with
  | EmptyString => []
  | String c s => Z.of_N (N_of_ascii c) :: str s
  end.

Definition FDT_BEGIN_NODE : Z := 1.
Notation FDT_END_NODE := 2%Z (only parsing).
Definition FDT_PROP : Z := 3.
Notation FDT_NOP := 4%Z (only parsing).
Notation FDT_END := 9%Z (only parsing).
Definition FDT_MAGIC : Z := 0xd00dfeed.
Notation FDT_ERR_NOTFOUND := (-1)%Z (only parsing).
Notation FDT_ERR_BADBLOB := (-2)%Z (only parsing).

Definition to_s32 (x : Z) : Z := (x + 2 ^ 31) `mod` 2 ^ 32 - 2 ^ 31.
(** [ALIGN_UP] at type [u32]. *)
Definition ALIGN_UP32 (x a : Z) : Z := Z.land (wrap32 (x + (a - 1))) (U32 - 1 - (a - 1)).

Record fdt : Type := Fdt {
  blob : list Z;
  dt_struct : Z;
  dt_strings : Z;
  struct_size : Z;
  strings_size : Z;
}.

(** ** Reading the blob *)

Definition rd8 (b : list Z) (a : Z) : run Z :=
  if a <? 0 then Undef else match b !! Z.to_nat a with None => Undef | Some x => Ret x end.

Definition rd32 (b : list Z) (a : Z) : run Z :=
  x0 ← rd8 b a; x1 ← rd8 b (a + 1); x2 ← rd8 b (a + 2); x3 ← rd8 b (a + 3);
  Ret (Z.lor (Z.lor (Z.lor (Z.shiftl x0 24) (Z.shiftl x1 16)) (Z.shiftl x2 8)) x3).

(** The routines of lib/string.c on a string of the blob and, for the
    comparisons, a C string given by its bytes before the terminator. *)
Fixpoint strnlen (b : list Z) (a : Z) (max : nat) : run Z :=
  match max with
  | O => Ret 0
  | S max => x ← rd8 b a; if x =? 0 then Ret 0 else (n ← strnlen b (a + 1) max; Ret (n + 1))
  end.

Fixpoint strncmp (b : list Z) (a : Z) (s : list Z) (n : nat) : run Z :=
  match n with
  | O => Ret 0
  | S n =>
      x ← rd8 b a;
      if negb (x =? hd 0 s) then Ret (x - hd 0 s)
      else if x =? 0 then Ret 0
      else strncmp b (a + 1) (tl s) n
  end.

Fixpoint strcmp (b : list Z) (a : Z) (s : list Z) : run Z :=
  match s with
  | [] => rd8 b a
  | c :: s => x ← rd8 b a; if negb (x =? 0) && (x =? c) then strcmp b (a + 1) s else Ret (x - c)
  end.

(** The C string at [a]. *)
Fixpoint cstring (fuel : nat) (b : list Z) (a : Z) : run (list Z) :=
  match fuel with
  | O => Out
  | S fuel => x ← rd8 b a; if x =? 0 then Ret [] else (s ← cstring fuel b (a + 1); Ret (x :: s))
  end.

Definition fdt_totalsize (b : list Z) : run Z := rd32 b 4.

(** The offsets of the fields of [struct fdt_header]. *)
Definition H_totalsize : Z := 4.
Definition H_off_dt_struct : Z := 8.
Definition H_off_dt_strings : Z := 12.
Notation H_off_mem_rsvmap := 16%Z (only parsing).
Definition H_version : Z := 20.
Definition H_last_comp_version : Z := 24.
Definition H_size_dt_strings : Z := 32.
Definition H_size_dt_struct : Z := 36.

(** The error, or the new value of the static variables. *)
Definition fdt_init (ob : option (list Z)) : run (Z + fdt) :=
  match ob with
  | None => Ret (inl FDT_ERR_BADBLOB)
  | Some b =>
      magic ← rd32 b 0;
      if negb (magic =? FDT_MAGIC) then Ret (inl FDT_ERR_BADBLOB) else
      version ← rd32 b H_version; last ← rd32 b H_last_comp_version;
      if (version <? 16) || (17 <? last) then Ret (inl FDT_ERR_BADBLOB) else
      total ← rd32 b H_totalsize;
      so ← rd32 b H_off_dt_struct; ss ← rd32 b H_size_dt_struct;
      to ← rd32 b H_off_dt_strings; ts ← rd32 b H_size_dt_strings;
      if (total <? wrap32 (so + ss)) || (total <? wrap32 (to + ts)) || (wrap32 (so + ss) <? so) || (wrap32 (to + ts) <? to)
      then Ret (inl FDT_ERR_BADBLOB)
      else Ret (inr (Fdt b so to ss ts))
  end.

(** ** Tokens

    [tag] is the caller's variable, [None] while it is not set. *)

Definition next_token (d : fdt) (off : Z) (tag : option Z) : run (option Z * Z) :=
  if (off <? 0) || (struct_size d <? wrap32 (wrap32 off + 4)) then Ret (tag, -1) else
  t ← rd32 (blob d) (dt_struct d + off);
  let off := off + 4 in
  if t =? FDT_BEGIN_NODE then
    let max := wrap32 (struct_size d - off) in
    len ← strnlen (blob d) (dt_struct d + off) (Z.to_nat max);
    if len =? max then Ret (Some t, -1) else Ret (Some t, to_s32 (off + ALIGN_UP (len + 1) 4))
  else if t =? FDT_PROP then
    if struct_size d <? wrap32 (wrap32 off + 8) then Ret (Some t, -1) else
    len ← rd32 (blob d) (dt_struct d + off);
    if wrap32 (struct_size d - off - 8) <? len then Ret (Some t, -1)
    else Ret (Some t, to_s32 (wrap32 (off + wrap32 (8 + ALIGN_UP32 len 4))))
  else if (t =? FDT_END_NODE) || (t =? FDT_NOP) || (t =? FDT_END) then Ret (Some t, off)
  else Ret (Some t, -1).

Definition the_tag (tag : option Z) : run Z := match tag with None => Undef | Some t => Ret t end.

(** A loop that walks the tokens makes at most one step for every byte. *)
Definition FUEL (d : fdt) : nat := S (S (Z.to_nat (struct_size d))).

(** ** Nodes *)

Fixpoint root_loop (fuel : nat) (d : fdt) (off : Z) (tag : option Z) : run Z :=
  match fuel with
  | O => Out
  | S fuel =>
      if off <? 0 then Ret FDT_ERR_BADBLOB else
      '(tag, n) ← next_token d off tag; t ← the_tag tag;
      if t =? FDT_BEGIN_NODE then Ret off
      else if negb (t =? FDT_NOP) then Ret FDT_ERR_BADBLOB
      else root_loop fuel d n tag
  end.
Definition fdt_root (d : fdt) : run Z := root_loop (FUEL d) d 0 None.

(** The address of the name; [None] is the empty literal. *)
Definition fdt_node_name (d : fdt) (node : Z) : option Z := if node <? 0 then None else Some (dt_struct d + node + 4).

Fixpoint props_loop (fuel : nat) (d : fdt) (off : Z) (tag : option Z) : run (Z * option Z) :=
  match fuel with
  | O => Out
  | S fuel =>
      if off <? 0 then Ret (-1, tag) else
      '(tag, n) ← next_token d off tag; t ← the_tag tag;
      if negb (t =? FDT_PROP) && negb (t =? FDT_NOP) then Ret (off, tag)
      else props_loop fuel d n tag
  end.
Definition skip_props (d : fdt) (node : Z) : run (Z * option Z) :=
  '(tag, off) ← next_token d node None; props_loop (FUEL d) d off tag.

Fixpoint skip_loop (fuel : nat) (d : fdt) (depth off : Z) (tag : option Z) : run Z :=
  match fuel with
  | O => Out
  | S fuel =>
      if off <? 0 then Ret (-1) else
      '(tag, n) ← next_token d off tag; t ← the_tag tag;
      if t =? FDT_BEGIN_NODE then skip_loop fuel d (depth + 1) n tag
      else if t =? FDT_END_NODE then
        if depth - 1 =? 0 then Ret n else skip_loop fuel d (depth - 1) n tag
      else if t =? FDT_END then Ret (-1)
      else skip_loop fuel d depth n tag
  end.
Definition skip_node (d : fdt) (node : Z) : run Z := skip_loop (FUEL d) d 0 node None.

Definition fdt_first_child (d : fdt) (node : Z) : run Z :=
  '(off, tag) ← skip_props d node;
  if off <? 0 then Ret FDT_ERR_NOTFOUND else
  t ← the_tag tag;
  if negb (t =? FDT_BEGIN_NODE) then Ret FDT_ERR_NOTFOUND else Ret off.

Fixpoint sibling_loop (fuel : nat) (d : fdt) (off : Z) (tag : option Z) : run Z :=
  match fuel with
  | O => Out
  | S fuel =>
      if off <? 0 then Ret FDT_ERR_NOTFOUND else
      '(tag, n) ← next_token d off tag; t ← the_tag tag;
      if t =? FDT_BEGIN_NODE then Ret off
      else if negb (t =? FDT_NOP) then Ret FDT_ERR_NOTFOUND
      else sibling_loop fuel d n tag
  end.
Definition fdt_next_sibling (d : fdt) (node : Z) : run Z :=
  off ← skip_node d node; sibling_loop (FUEL d) d off None.

(** [stack] holds the offsets at [0..depth]; a write below it is undefined. *)
Definition STACK_SIZE : Z := 32.
Fixpoint parent_loop (fuel : nat) (d : fdt) (node : Z) (stack : list Z) (depth off : Z) (tag : option Z) : run Z :=
  match fuel with
  | O => Out
  | S fuel =>
      if off <? 0 then Ret FDT_ERR_NOTFOUND else
      '(tag, n) ← next_token d off tag; t ← the_tag tag;
      if t =? FDT_BEGIN_NODE then
        if off =? node then Ret (if 0 <=? depth then stack !!! Z.to_nat depth else FDT_ERR_NOTFOUND) else
        if STACK_SIZE <=? depth + 1 then Ret FDT_ERR_BADBLOB else
        if depth + 1 <? 0 then Undef else
        parent_loop fuel d node (<[Z.to_nat (depth + 1) := off]> stack) (depth + 1) n tag
      else if t =? FDT_END_NODE then parent_loop fuel d node stack (depth - 1) n tag
      else if t =? FDT_END then Ret FDT_ERR_NOTFOUND
      else parent_loop fuel d node stack depth n tag
  end.
Definition fdt_parent (d : fdt) (node : Z) : run Z :=
  parent_loop (FUEL d) d node (replicate (Z.to_nat STACK_SIZE) 0) (-1) 0 None.

(** ** Properties *)

(** The address and the length of the value. *)
Fixpoint getprop_loop (fuel : nat) (d : fdt) (name : list Z) (off : Z) (tag : option Z) : run (option (Z * Z)) :=
  match fuel with
  | O => Out
  | S fuel =>
      if off <? 0 then Ret None else
      '(tag, n) ← next_token d off tag;
      if n <? 0 then Ret None else
      t ← the_tag tag;
      if t =? FDT_PROP then
        len ← rd32 (blob d) (dt_struct d + off + 4);
        nameoff ← rd32 (blob d) (dt_struct d + off + 8);
        if nameoff <? strings_size d then
          c ← strncmp (blob d) (dt_strings d + nameoff) name (Z.to_nat (strings_size d - nameoff));
          if (c =? 0) && (Z.of_nat (length name) <? strings_size d - nameoff)
          then Ret (Some (dt_struct d + off + 12, to_s32 len))
          else getprop_loop fuel d name n tag
        else getprop_loop fuel d name n tag
      else if negb (t =? FDT_NOP) then Ret None
      else getprop_loop fuel d name n tag
  end.
Definition fdt_getprop (d : fdt) (node : Z) (name : list Z) : run (option (Z * Z)) :=
  if node <? 0 then Ret None else
  '(tag, off) ← next_token d node None; getprop_loop (FUEL d) d name off tag.

Definition fdt_getprop_u32 (d : fdt) (node : Z) (name : list Z) : run (option Z) :=
  p ← fdt_getprop d node name;
  match p with
  | None => Ret None
  | Some (a, len) => if len <? 4 then Ret None else (v ← rd32 (blob d) a; Ret (Some v))
  end.

Definition fdt_getprop_str (d : fdt) (node : Z) (name : list Z) : run (option Z) :=
  p ← fdt_getprop d node name;
  match p with
  | None => Ret None
  | Some (a, len) =>
      if len <=? 0 then Ret None else
      c ← rd8 (blob d) (a + len - 1);
      if negb (c =? 0) then Ret None else Ret (Some a)
  end.

Fixpoint compat_loop (fuel : nat) (d : fdt) (compat : list Z) (p len : Z) : run bool :=
  match fuel with
  | O => Out
  | S fuel =>
      if len <=? 0 then Ret false else
      l ← strnlen (blob d) p (Z.to_nat len);
      c ← strcmp (blob d) p compat;
      if c =? 0 then Ret true else compat_loop fuel d compat (p + l + 1) (to_s32 (len - (l + 1)))
  end.
Definition fdt_is_compatible (d : fdt) (node : Z) (compat : list Z) : run bool :=
  p ← fdt_getprop d node (str "compatible");
  match p with
  | None => Ret false
  | Some (a, len) => compat_loop (S (Z.to_nat len)) d compat a len
  end.

Definition fdt_is_available (d : fdt) (node : Z) : run bool :=
  s ← fdt_getprop_str d node (str "status");
  match s with
  | None => Ret true
  | Some a =>
      c ← strcmp (blob d) a (str "okay");
      if c =? 0 then Ret true else (c ← strcmp (blob d) a (str "ok"); Ret (c =? 0))
  end.

Fixpoint compatible_loop (fuel : nat) (d : fdt) (compat : list Z) (off : Z) (tag : option Z) : run Z :=
  match fuel with
  | O => Out
  | S fuel =>
      if off <? 0 then Ret FDT_ERR_NOTFOUND else
      '(tag, n) ← next_token d off tag; t ← the_tag tag;
      found ← (if t =? FDT_BEGIN_NODE then fdt_is_compatible d off compat else Ret false);
      if (found : bool) then Ret off
      else if t =? FDT_END then Ret FDT_ERR_NOTFOUND
      else compatible_loop fuel d compat n tag
  end.
Definition fdt_find_compatible (d : fdt) (from : Z) (compat : list Z) : run Z :=
  '(tag, off) ← (if from <? 0 then Ret (None, 0) else next_token d from None);
  compatible_loop (FUEL d) d compat off tag.

Definition has_phandle (d : fdt) (off ph : Z) : run bool :=
  v ← fdt_getprop_u32 d off (str "phandle");
  match v with
  | Some v => Ret (v =? ph)
  | None => v ← fdt_getprop_u32 d off (str "linux,phandle"); Ret (match v with Some v => v =? ph | None => false end)
  end.
Fixpoint phandle_loop (fuel : nat) (d : fdt) (ph off : Z) (tag : option Z) : run Z :=
  match fuel with
  | O => Out
  | S fuel =>
      if off <? 0 then Ret FDT_ERR_NOTFOUND else
      '(tag, n) ← next_token d off tag; t ← the_tag tag;
      found ← (if t =? FDT_BEGIN_NODE then has_phandle d off ph else Ret false);
      if (found : bool) then Ret off
      else if t =? FDT_END then Ret FDT_ERR_NOTFOUND
      else phandle_loop fuel d ph n tag
  end.
Definition fdt_node_by_phandle (d : fdt) (ph : Z) : run Z := phandle_loop (FUEL d) d ph 0 None.

(** ** Paths *)

Definition SLASH : Z := 47.
Definition AT : Z := 64.
Fixpoint skip_slashes (path : list Z) : list Z :=
  match path with c :: p => if c =? SLASH then skip_slashes p else path | [] => [] end.
(** The length of the first component. *)
Fixpoint component (path : list Z) : nat :=
  match path with [] => 0 | c :: p => if c =? SLASH then 0 else S (component p) end.

Definition name_matches (d : fdt) (child : Z) (path : list Z) (len : nat) : run bool :=
  let nm := dt_struct d + child + 4 in
  c ← strncmp (blob d) nm path len;
  if negb (c =? 0) then Ret false else
  x ← rd8 (blob d) (nm + Z.of_nat len);
  Ret ((x =? 0) || ((x =? AT) && bool_decide (AT ∉ take len path))).

Fixpoint child_loop (fuel : nat) (d : fdt) (path : list Z) (len : nat) (child : Z) : run Z :=
  match fuel with
  | O => Out
  | S fuel =>
      if child <? 0 then Ret child else
      b ← name_matches d child path len;
      if (b : bool) then Ret child else (c ← fdt_next_sibling d child; child_loop fuel d path len c)
  end.

Fixpoint path_loop (fuel : nat) (d : fdt) (path : list Z) (node : Z) : run Z :=
  match fuel with
  | O => Out
  | S fuel =>
      match path with
      | [] => Ret node
      | _ =>
          if node <? 0 then Ret node else
          let len := component path in
          c ← fdt_first_child d node;
          node ← child_loop (FUEL d) d path len c;
          path_loop fuel d (skip_slashes (drop len path)) node
      end
  end.

(** An alias may name another alias: [fuel] bounds the recursion. *)
Fixpoint fdt_path_offset (fuel : nat) (d : fdt) (path : list Z) : run Z :=
  match fuel with
  | O => Out
  | S fuel =>
      node ← fdt_root d;
      if negb (hd 0 path =? SLASH) then
        aliases ← fdt_path_offset fuel d (str "/aliases");
        p ← (if 0 <=? aliases then fdt_getprop_str d aliases path else Ret None);
        match p with
        | None => Ret FDT_ERR_NOTFOUND
        | Some a => s ← cstring (length (blob d)) (blob d) a; fdt_path_offset fuel d s
        end
      else path_loop (S (length path)) d (skip_slashes path) node
  end.

(** ** Addresses *)

Definition cells_of (d : fdt) (parent : Z) (prop : list Z) (dflt : Z) : run Z :=
  if parent <? 0 then Ret dflt else
  v ← fdt_getprop_u32 d parent prop;
  Ret (match v with Some v => if v <=? 4 then v else dflt | None => dflt end).

Definition fdt_address_cells (d : fdt) (node : Z) : run Z := p ← fdt_parent d node; cells_of d p (str "#address-cells") 2.
Definition fdt_size_cells (d : fdt) (node : Z) : run Z := p ← fdt_parent d node; cells_of d p (str "#size-cells") 1.

(** [n] cells at [c] after the value [v]. *)
Fixpoint read_cells (b : list Z) (c : Z) (n : nat) (v : Z) : run Z :=
  match n with
  | O => Ret v
  | S n => x ← rd32 b c; read_cells b (c + 4) n (Z.lor (wrap64 (Z.shiftl v 32)) x)
  end.
Definition fdt_read_cells (d : fdt) (c n : Z) : run Z := read_cells (blob d) c (Z.to_nat n) 0.

(** The entry of [ranges] that holds the address. *)
Fixpoint ranges_loop (fuel : nat) (d : fdt) (r len ca pa cs i addr : Z) : run (option Z) :=
  match fuel with
  | O => Out
  | S fuel =>
      let entry := ca + pa + cs in
      if len <? (i + 1) * entry * 4 then Ret None else
      let e := r + i * entry * 4 in
      child ← fdt_read_cells d e ca;
      paddr ← fdt_read_cells d (e + ca * 4) pa;
      size ← fdt_read_cells d (e + (ca + pa) * 4) cs;
      if (child <=? addr) && (addr - child <? size) then Ret (Some (wrap64 (addr - child + paddr)))
      else ranges_loop fuel d r len ca pa cs (i + 1) addr
  end.

(** [None]: not translatable. *)
Fixpoint translate (fuel : nat) (d : fdt) (bus addr : Z) : run (option Z) :=
  match fuel with
  | O => Out
  | S fuel =>
      if bus <? 0 then Ret (Some addr) else
      parent ← fdt_parent d bus;
      if parent <? 0 then Ret (Some addr) else
      p ← fdt_getprop d bus (str "ranges");
      match p with
      | None => Ret None
      | Some (r, len) =>
          if len =? 0 then translate fuel d parent addr else
          ca ← cells_of d bus (str "#address-cells") 2;
          cs ← cells_of d bus (str "#size-cells") 1;
          pa ← cells_of d parent (str "#address-cells") 2;
          x ← ranges_loop (S (Z.to_nat len)) d r len ca pa cs 0 addr;
          match x with None => Ret None | Some addr => translate fuel d parent addr end
      end
  end.

Definition fdt_get_reg (d : fdt) (node idx : Z) : run (Z + Z * Z) :=
  parent ← fdt_parent d node;
  ac ← cells_of d parent (str "#address-cells") 2;
  sc ← cells_of d parent (str "#size-cells") 1;
  p ← fdt_getprop d node (str "reg");
  let entry := (ac + sc) * 4 in
  match p with
  | None => Ret (inl (- ENOENT))
  | Some (reg, len) =>
      if (entry =? 0) || (len <? (idx + 1) * entry) then Ret (inl (- ENOENT)) else
      let e := reg + idx * (ac + sc) * 4 in
      a ← fdt_read_cells d e ac;
      s ← fdt_read_cells d (e + ac * 4) sc;
      t ← translate (FUEL d) d parent a;
      match t with None => Ret (inl (- EINVAL)) | Some a => Ret (inr (a, s)) end
  end.

(** ** Interrupts *)

Fixpoint irq_parent (fuel : nat) (d : fdt) (n : Z) : run Z :=
  match fuel with
  | O => Out
  | S fuel =>
      if n <? 0 then Ret FDT_ERR_NOTFOUND else
      ph ← fdt_getprop_u32 d n (str "interrupt-parent");
      match ph with
      | Some ph => fdt_node_by_phandle d ph
      | None => p ← fdt_parent d n; irq_parent fuel d p
      end
  end.

(** The interrupt number and the flags. *)
Definition fdt_gic_spec_to_irq (d : fdt) (spec cells : Z) : run (Z + Z * Z) :=
  if cells <? 3 then Ret (inl (- EINVAL)) else
  type ← rd32 (blob d) spec; num ← rd32 (blob d) (spec + 4); flags ← rd32 (blob d) (spec + 8);
  Ret (inr (if type =? 1 then wrap32 (num + 16) else wrap32 (num + 32), flags)).

Fixpoint extended_loop (fuel : nat) (d : fdt) (ext len idx pos i : Z) : run (Z + Z * Z) :=
  match fuel with
  | O => Out
  | S fuel =>
      if len <=? pos * 4 then Ret (inl (- ENOENT)) else
      ph ← rd32 (blob d) (ext + pos * 4);
      ctrl ← fdt_node_by_phandle d ph;
      if ctrl <? 0 then Ret (inl (- EINVAL)) else
      c ← fdt_getprop_u32 d ctrl (str "#interrupt-cells");
      match c with
      | None => Ret (inl (- EINVAL))
      | Some cells =>
          if i =? idx then fdt_gic_spec_to_irq d (ext + (pos + 1) * 4) cells
          else extended_loop fuel d ext len idx (to_s32 (wrap32 (pos + wrap32 (1 + cells)))) (i + 1)
      end
  end.

Definition fdt_get_irq (d : fdt) (node idx : Z) : run (Z + Z * Z) :=
  p ← fdt_getprop d node (str "interrupts-extended");
  match p with
  | Some (ext, len) => extended_loop (S (Z.to_nat len)) d ext len idx 0 0
  | None =>
      p ← fdt_getprop d node (str "interrupts");
      match p with
      | None => Ret (inl (- ENOENT))
      | Some (ints, len) =>
          ctrl ← irq_parent (FUEL d) d node;
          if ctrl <? 0 then Ret (inl (- EINVAL)) else
          c ← fdt_getprop_u32 d ctrl (str "#interrupt-cells");
          match c with
          | None => Ret (inl (- EINVAL))
          | Some cells =>
              if cells =? 0 then Ret (inl (- EINVAL)) else
              if len <? (idx + 1) * to_s32 cells * 4 then Ret (inl (- ENOENT))
              else fdt_gic_spec_to_irq d (ints + wrap32 (idx * cells) * 4) cells
          end
      end
  end.

(** ** Memory *)

(** Entry [idx] of the reservation map; [None] at its end. *)
Definition fdt_mem_rsv (d : fdt) (idx : Z) : run (option (Z * Z)) :=
  o ← rd32 (blob d) H_off_mem_rsvmap;
  total ← rd32 (blob d) H_totalsize;
  let p := o + idx * 16 in
  if total <? p + 16 then Ret None else
  a1 ← rd32 (blob d) p; a0 ← rd32 (blob d) (p + 4); s1 ← rd32 (blob d) (p + 8); s0 ← rd32 (blob d) (p + 12);
  let addr := Z.lor (Z.shiftl a1 32) a0 in
  let size := Z.lor (Z.shiftl s1 32) s0 in
  if negb (addr =? 0) || negb (size =? 0) then Ret (Some (addr, size)) else Ret None.

(** The regions that the callback is called with, in order. *)
Fixpoint for_each_reg (fuel : nat) (d : fdt) (node i : Z) : run (list (Z * Z)) :=
  match fuel with
  | O => Out
  | S fuel =>
      r ← fdt_get_reg d node i;
      match r with
      | inl _ => Ret []
      | inr (a, s) => l ← for_each_reg fuel d node (i + 1); Ret (if s =? 0 then l else (a, s) :: l)
      end
  end.

Fixpoint memory_loop (fuel : nat) (d : fdt) (n : Z) : run (list (Z * Z)) :=
  match fuel with
  | O => Out
  | S fuel =>
      if n <? 0 then Ret [] else
      t ← fdt_getprop_str d n (str "device_type");
      m ← match t with None => Ret false | Some a => c ← strcmp (blob d) a (str "memory"); Ret (c =? 0) end;
      ok ← (if (m : bool) then fdt_is_available d n else Ret false);
      l ← (if (ok : bool) then for_each_reg (FUEL d) d n 0 else Ret []);
      s ← fdt_next_sibling d n;
      l' ← memory_loop fuel d s;
      Ret (l ++ l')
  end.
Definition fdt_for_each_memory (d : fdt) : run (list (Z * Z)) :=
  root ← fdt_root d; n ← fdt_first_child d root; memory_loop (FUEL d) d n.

Fixpoint reserved_loop (fuel : nat) (d : fdt) (n : Z) : run (list (Z * Z)) :=
  match fuel with
  | O => Out
  | S fuel =>
      if n <? 0 then Ret [] else
      ok ← fdt_is_available d n;
      l ← (if (ok : bool) then for_each_reg (FUEL d) d n 0 else Ret []);
      s ← fdt_next_sibling d n;
      l' ← reserved_loop fuel d s;
      Ret (l ++ l')
  end.
Definition fdt_for_each_reserved (d : fdt) : run (list (Z * Z)) :=
  rm ← fdt_path_offset 1 d (str "/reserved-memory");
  if rm <? 0 then Ret [] else n ← fdt_first_child d rm; reserved_loop (FUEL d) d n.

Definition fdt_bootargs (d : fdt) : run (option Z) :=
  c ← fdt_path_offset 1 d (str "/chosen"); if 0 <=? c then fdt_getprop_str d c (str "bootargs") else Ret None.

Definition fdt_initrd (d : fdt) : run (option (Z * Z)) :=
  c ← fdt_path_offset 1 d (str "/chosen");
  s ← fdt_getprop d c (str "linux,initrd-start");
  e ← fdt_getprop d c (str "linux,initrd-end");
  match s, e with
  | Some (s, l1), Some (e, l2) =>
      if c <? 0 then Ret None else
      start ← fdt_read_cells d s (Z.quot l1 4); end_ ← fdt_read_cells d e (Z.quot l2 4);
      if start <? end_ then Ret (Some (start, end_)) else Ret None
  | _, _ => Ret None
  end.
