(* ===== verification/FdtSpec.v ===== *)
(** * Device trees: what the functions of Fdt.v find in an encoded tree

    A tree is flattened to tokens and the tokens to bytes as the format says;
    the functions of src/lib/fdt.c are then shown to find in the bytes what is
    in the tree. *)

From Stdlib Require Import Ascii String.
From S2P Require Import Prelude Fdt.

(** ** Trees and their encoding *)

(** [Nop] stands for a token that was blanked out between nodes, [None] for
    one between properties. *)
#[local] Unset Elimination Schemes.
Inductive dnode : Type :=
| Nop
| Node (name : list Z) (props : list (option (list Z * list Z))) (kids : list dnode).
#[local] Set Elimination Schemes.

Lemma dnode_ind (P : dnode → Prop) :
  P Nop → (∀ nm ps ks, Forall P ks → P (Node nm ps ks)) → ∀ n, P n.
Proof.
  intros H0 H1. fix IH 1. intros [|nm ps ks]; [exact H0|]. apply H1. induction ks as [|k ks IHk]; constructor; [apply IH|exact IHk].
Qed.

Inductive tok : Type :=
| TBegin (nm : list Z)
| TProp (nm v : list Z)
| TEnd
| TNop
| TFinish.

Definition ptok (p : option (list Z * list Z)) : tok := match p with None => TNop | Some (n, v) => TProp n v end.

Fixpoint flatten (n : dnode) : list tok :=
  match n with
  | Nop => [TNop]
  | Node nm ps ks => TBegin nm :: (ptok <$> ps) ++ flat_map flatten ks ++ [TEnd]
  end.

Definition tag_of (t : tok) : Z :=
  match t with
  | TBegin _ => FDT_BEGIN_NODE
  | TProp _ _ => FDT_PROP
  | TEnd => FDT_END_NODE
  | TNop => FDT_NOP
  | TFinish => FDT_END
  end.

Definition be32 (v : Z) : list Z := [(v / 2 ^ 24) `mod` 256; (v / 2 ^ 16) `mod` 256; (v / 2 ^ 8) `mod` 256; v `mod` 256].
Definition len (l : list Z) : Z := Z.of_nat (length l).
Definition pad (l : list Z) : list Z := l ++ replicate (Z.to_nat ((- len l) `mod` 4)) 0.

(** The offset of a string in a table of strings that end in NUL. *)
Fixpoint soff (tab : list (list Z)) (nm : list Z) : Z :=
  match tab with
  | [] => 0
  | x :: tab => if bool_decide (x = nm) then 0 else len x + 1 + soff tab nm
  end.
Definition enc_tab (tab : list (list Z)) : list Z := flat_map (λ x, x ++ [0]) tab.

Section encoding.
  Context (tab : list (list Z)).

Definition enc_tok (t : tok) : list Z :=
  be32 (tag_of t) ++
  match t with
  | TBegin nm => pad (nm ++ [0])
  | TProp nm v => be32 (len v) ++ be32 (soff tab nm) ++ pad v
  | _ => []
  end.
Definition enc (ts : list tok) : list Z := flat_map enc_tok ts.

End encoding.

Definition tok_size (t : tok) : Z :=
  match t with
  | TBegin nm => 4 + (len nm + 4) / 4 * 4
  | TProp _ v => 12 + (len v + 3) / 4 * 4
  | _ => 4
  end.
Definition size (ts : list tok) : Z := foldr (λ t n, tok_size t + n) 0 ts.

(** Bytes, strings without NUL, and names that are in the table. *)
Definition bytes (l : list Z) : Prop := Forall (λ x, 0 ≤ x < 256) l.
Definition cstr (l : list Z) : Prop := Forall (λ x, 0 < x < 256) l.
Definition tok_ok (tab : list (list Z)) (t : tok) : Prop :=
  match t with
  | TBegin nm => cstr nm
  | TProp nm v => nm ∈ tab ∧ bytes v
  | _ => True
  end.

(** The bytes [k] are at [a] in [b]. *)
Definition at_ (b : list Z) (a : Z) (k : list Z) : Prop := ∃ l r, b = l ++ k ++ r ∧ len l = a.

(** [d] holds the tokens [ts], with their names in [tab]. *)
Record holds (d : fdt) (tab : list (list Z)) (ts : list tok) : Prop := {
  h_tab : Forall cstr tab;
  h_toks : Forall (tok_ok tab) ts;
  h_size : struct_size d = size ts;
  h_small : struct_size d + 8 < 2 ^ 31;
  h_strs : strings_size d = len (enc_tab tab);
  h_small' : strings_size d < 2 ^ 32;
  h_struct : at_ (blob d) (dt_struct d) (enc tab ts);
  h_strings : at_ (blob d) (dt_strings d) (enc_tab tab);
}.

(** ** Reading encoded values *)

Lemma len_app l k : len (l ++ k) = len l + len k.
Proof. unfold len. rewrite length_app. lia. Qed.
Lemma len_nonneg l : 0 ≤ len l.
Proof. unfold len. lia. Qed.

Lemma at_app b a k1 k2 : at_ b a (k1 ++ k2) → at_ b a k1 ∧ at_ b (a + len k1) k2.
Proof.
  intros (l & r & -> & <-). split; [exists l, (k2 ++ r)|exists (l ++ k1), r]; rewrite ?len_app; split; try done; by rewrite <-!(assoc_L (++)).
Qed.

Lemma rd8_at b a k i x : at_ b a k → 0 ≤ i → k !! Z.to_nat i = Some x → rd8 b (a + i) = Ret x.
Proof.
  intros (l & r & -> & <-) Hi Hx. pose proof (lookup_lt_Some _ _ _ Hx). unfold rd8, len in *.
  destruct (Z.of_nat (length l) + i <? 0) eqn:E; zbool; [lia|].
  rewrite lookup_app_r by lia. replace (Z.to_nat (Z.of_nat (length l) + i) - length l)%nat with (Z.to_nat i) by lia.
  by rewrite (lookup_app_l_Some _ _ _ _ Hx).
Qed.

Lemma rd8_here b a x k : at_ b a (x :: k) → rd8 b a = Ret x.
Proof. intros H. rewrite <-(Z.add_0_r a). by apply (rd8_at b a (x :: k)). Qed.

Lemma at_cons b a x k : at_ b a (x :: k) → at_ b (a + 1) k.
Proof. intros H. by apply (at_app b a [x] k). Qed.

Lemma bits_high b n i : 0 ≤ b < 2 ^ n → 0 ≤ n ≤ i → Z.testbit b i = false.
Proof.
  intros Hb Hi. destruct (decide (b = 0)) as [->|]; [apply Z.bits_0|]. apply Z.bits_above_log2; [lia|].
  apply (Z.lt_le_trans _ n); [apply Z.log2_lt_pow2; lia|lia].
Qed.

Lemma lor_high a b n : 0 ≤ n → 0 ≤ b < 2 ^ n → Z.lor (Z.shiftl a n) b = a * 2 ^ n + b.
Proof.
  intros Hn Hb. pose proof (Z.add_lor_land (Z.shiftl a n) b) as E.
  assert (Z.land (Z.shiftl a n) b = 0) as E0; [|rewrite E0, Z.add_0_r in E; by rewrite E, Z.shiftl_mul_pow2 by lia]. apply Z.bits_inj'. intros i Hi. rewrite Z.land_spec, Z.bits_0.
  destruct (decide (i < n)); [by rewrite Z.shiftl_spec_low|]. rewrite (bits_high b n i) by lia.
  apply andb_false_r.
Qed.

Lemma rd32_at b a v : at_ b a (be32 v) → 0 ≤ v < 2 ^ 32 → rd32 b a = Ret v.
Proof.
  intros H Hv. unfold rd32, mbind, run_bind. rewrite (rd8_here _ _ _ _ H), (rd8_at b a _ 1 _ H), (rd8_at b a _ 2 _ H), (rd8_at b a _ 3 _ H) by done.
  assert (∀ x, 0 ≤ x `mod` 256 < 256) as Hb by (intros x; by apply Z.mod_pos_bound).
  f_equal. pose proof (Hb (v / 2 ^ 24)). pose proof (Hb (v / 2 ^ 16)). pose proof (Hb (v / 2 ^ 8)). pose proof (Hb v).
  set (x0 := (v / 2 ^ 24) `mod` 256) in *. set (x1 := (v / 2 ^ 16) `mod` 256) in *. set (x2 := (v / 2 ^ 8) `mod` 256) in *.
  rewrite lor_high by (rewrite ?Z.shiftl_mul_pow2; lia). rewrite (Z.shiftl_mul_pow2 x1) by lia.
  replace (x0 * 2 ^ 24 + x1 * 2 ^ 16) with (Z.shiftl (x0 * 256 + x1) 16) by (rewrite Z.shiftl_mul_pow2; lia).
  rewrite lor_high by (rewrite ?Z.shiftl_mul_pow2; lia). rewrite (Z.shiftl_mul_pow2 x2) by lia.
  replace ((x0 * 256 + x1) * 2 ^ 16 + x2 * 2 ^ 8) with (Z.shiftl ((x0 * 256 + x1) * 256 + x2) 8) by (rewrite Z.shiftl_mul_pow2; lia).
  rewrite lor_high by lia. unfold x0, x1, x2.
  rewrite (Z.mod_small (v / 2 ^ 24)) by (split; [apply Z.div_pos; lia|apply Z.div_lt_upper_bound; lia]).
  change (2 ^ 24) with (2 ^ 8 * 2 ^ 8 * 2 ^ 8) . change (2 ^ 16) with (2 ^ 8 * 2 ^ 8). rewrite <-!Z.div_div by lia.
  change 256 with (2 ^ 8). pose proof (Z.div_mod v (2 ^ 8)). pose proof (Z.div_mod (v / 2 ^ 8) (2 ^ 8)). pose proof (Z.div_mod (v / 2 ^ 8 / 2 ^ 8) (2 ^ 8)). lia.
Qed.

Lemma strnlen_at b a nm max k : at_ b a (nm ++ 0 :: k) → cstr nm → len nm < Z.of_nat max → strnlen b a max = Ret (len nm).
Proof.
  revert a max. induction nm as [|x nm IH]; intros a max H Hc Hm; destruct max as [|max].
  1, 3: unfold len in Hm; simpl in Hm; lia.
  all: cbn [strnlen]; unfold mbind, run_bind; rewrite (rd8_here _ _ _ _ H).
  { done. }
  apply Forall_cons in Hc as [Hx Hc]. destruct (x =? 0) eqn:E; zbool; [lia|].
  rewrite IH; [f_equal; unfold len; simpl; lia|by apply at_cons in H|done|unfold len in *; simpl in *; lia].
Qed.

(** ** Sizes *)

Lemma len_pad l : len (pad l) = (len l + 3) / 4 * 4.
Proof.
  unfold pad. rewrite len_app. unfold len at 2. rewrite length_replicate.
  pose proof (Z.mod_pos_bound (- len l) 4 ltac:(lia)). rewrite Z2Nat.id by lia. clear. Z.to_euclidean_division_equations. lia.
Qed.

Lemma len_enc_tok tab t : len (enc_tok tab t) = tok_size t.
Proof.
  destruct t; unfold enc_tok; rewrite ?len_app, ?len_pad, ?len_app; try done; unfold tok_size, be32, len; cbn [length]; Z.to_euclidean_division_equations; lia.
Qed.

Lemma len_enc tab ts : len (enc tab ts) = size ts.
Proof. induction ts as [|t ts IH]; [done|]. cbn [enc flat_map size foldr]. fold (enc tab ts). by rewrite len_app, len_enc_tok, IH. Qed.

Lemma size_app ts ts' : size (ts ++ ts') = size ts + size ts'.
Proof. induction ts as [|t ts IH]; [done|]. cbn [app size foldr]. fold (size (ts ++ ts')) (size ts). lia. Qed.
Lemma size_cons t ts : size (t :: ts) = tok_size t + size ts.
Proof. done. Qed.

Lemma tok_size_pos t : 4 ≤ tok_size t.
Proof. destruct t; unfold tok_size; try done; unfold len; Z.to_euclidean_division_equations; lia. Qed.

Lemma size_length ts : 4 * Z.of_nat (length ts) ≤ size ts.
Proof. induction ts as [|t ts IH]; [done|]. rewrite size_cons. pose proof (tok_size_pos t). cbn [length]. lia. Qed.

Lemma ALIGN_UP_4 x : 0 ≤ x < 2 ^ 32 → ALIGN_UP x 4 = (x + 3) / 4 * 4.
Proof. intros H. rewrite ALIGN_UP_div; [done|by exists 2|lia|unfold U64; lia]. Qed.

Lemma ALIGN_UP32_4 x : 0 ≤ x < 2 ^ 32 - 3 → ALIGN_UP32 x 4 = (x + 3) / 4 * 4.
Proof.
  intros H. unfold ALIGN_UP32, wrap32, U32. rewrite Z.mod_small by lia. change (2 ^ 32 - 1 - (4 - 1)) with (Z.ldiff (Z.ones 32) (Z.ones 2)).
  change (4 - 1) with 3. transitivity (Z.ldiff (x + 3) (Z.ones 2)).
  - apply Z.bits_inj'. intros i Hi. rewrite Z.land_spec, !Z.ldiff_spec. destruct (decide (i < 32)).
    + rewrite (Z.ones_spec_low 32) by lia. done.
    + rewrite (bits_high (x + 3) 32) by lia. done.
  - rewrite Z.ldiff_ones_r, Z.shiftl_mul_pow2, Z.shiftr_div_pow2 by lia. done.
Qed.

(** ** Walking the tokens *)

Section walk.
  Context (d : fdt) (tab : list (list Z)) (full : list tok) (H : holds d tab full).

(** [rest] are the tokens from [off] on. *)
Definition suffix (off : Z) (rest : list tok) : Prop := ∃ before, full = before ++ rest ∧ off = size before.

Lemma size_nonneg ts : 0 ≤ size ts.
Proof. pose proof (size_length ts). lia. Qed.

Lemma suffix_step off t rest : suffix off (t :: rest) → suffix (off + tok_size t) rest.
Proof.
  intros (b & E & ->). exists (b ++ [t]). rewrite <-(assoc_L (++)), size_app, size_cons. split; [done|]. cbn [size foldr]. lia.
Qed.

Lemma suffix_app off ts rest : suffix off (ts ++ rest) → suffix (off + size ts) rest.
Proof. intros (b & E & ->). exists (b ++ ts). by rewrite <-(assoc_L (++)), size_app. Qed.

Lemma suffix_range off rest : suffix off rest → 0 ≤ off ∧ off + size rest = struct_size d ∧ off + size rest + 8 < 2 ^ 31.
Proof.
  intros (b & E & ->). pose proof (h_size _ _ _ H) as Hs. pose proof (h_small _ _ _ H). rewrite E, size_app in Hs. pose proof (size_nonneg b). lia.
Qed.

Lemma suffix_tok off t rest :
  suffix off (t :: rest) → tok_ok tab t ∧ at_ (blob d) (dt_struct d + off) (enc_tok tab t).
Proof.
  intros (b & E & ->). destruct H as [_ Ht _ _ _ _ Ha _]. rewrite E in Ht, Ha. apply Forall_app in Ht as [_ Ht]. apply Forall_cons in Ht as [Ht _].
  split; [done|]. unfold enc in Ha. rewrite flat_map_app in Ha. apply at_app in Ha as [_ Ha]. fold (enc tab b) in Ha. rewrite len_enc in Ha.
  cbn [flat_map] in Ha. by apply at_app in Ha as [Ha _].
Qed.

Lemma to_s32_small x : - 2 ^ 31 ≤ x < 2 ^ 31 → to_s32 x = x.
Proof. intros Hx. unfold to_s32. rewrite Z.mod_small by lia. lia. Qed.
Lemma wrap32_small x : 0 ≤ x < 2 ^ 32 → wrap32 x = x.
Proof. apply Z.mod_small. Qed.

Lemma next_token_tag off t rest tag :
  suffix off (t :: rest) → next_token d off tag =
    if tag_of t =? FDT_BEGIN_NODE then
      len ← strnlen (blob d) (dt_struct d + (off + 4)) (Z.to_nat (struct_size d - (off + 4)));
      if len =? struct_size d - (off + 4) then Ret (Some (tag_of t), -1) else Ret (Some (tag_of t), to_s32 (off + 4 + ALIGN_UP (len + 1) 4))
    else if tag_of t =? FDT_PROP then
      if struct_size d <? off + 12 then Ret (Some (tag_of t), -1) else
      len ← rd32 (blob d) (dt_struct d + (off + 4));
      if struct_size d - (off + 12) <? len then Ret (Some (tag_of t), -1)
      else Ret (Some (tag_of t), to_s32 (wrap32 (off + 4 + wrap32 (8 + ALIGN_UP32 len 4))))
    else Ret (Some (tag_of t), off + 4).
Proof.
  intros Hs. destruct (suffix_range _ _ Hs) as (R1 & R2 & R3). rewrite size_cons in R2, R3. pose proof (tok_size_pos t). pose proof (size_nonneg rest).
  destruct (suffix_tok _ _ _ Hs) as [_ Ha]. unfold enc_tok in Ha. apply at_app in Ha as [Ha _].
  unfold next_token. cbv zeta. rewrite (wrap32_small off), (wrap32_small (off + 4)), (wrap32_small (off + 4 + 8)), (wrap32_small (struct_size d - (off + 4))) by lia.
  destruct (off <? 0) eqn:E1; zbool; [lia|]. destruct (struct_size d <? off + 4) eqn:E2; zbool; [lia|]. cbn [orb].
  rewrite (rd32_at _ _ _ Ha) by (destruct t; done). unfold mbind at 1, run_bind at 1.
  destruct t; cbn [tag_of Z.eqb FDT_BEGIN_NODE FDT_PROP]; try done.
  replace (off + 4 + 8) with (off + 12) by lia. change ((3 =? 1)%positive) with false. change ((3 =? 3)%positive) with true. cbn iota. destruct (struct_size d <? off + 12) eqn:E3; zbool; [done|].
  unfold mbind, run_bind. case_match; [|done..]. rewrite (wrap32_small (struct_size d - (off + 4) - 8)) by lia. by replace (struct_size d - (off + 4) - 8) with (struct_size d - (off + 12)) by lia.
Qed.

Lemma next_token_at off t rest tag :
  suffix off (t :: rest) → next_token d off tag = Ret (Some (tag_of t), off + tok_size t).
Proof.
  intros Hs. rewrite (next_token_tag _ _ _ _ Hs). destruct (suffix_range _ _ Hs) as (R1 & R2 & R3). rewrite size_cons in R2, R3.
  pose proof (size_nonneg rest). pose proof (suffix_tok _ _ _ Hs) as [Hok Ha]. unfold enc_tok in Ha. apply at_app in Ha as [_ Ha].
  change (len (be32 (tag_of t))) with 4 in Ha. destruct t as [nm|nm v| | |]; try done; cbn [tag_of tok_ok tok_size] in *.
  - pose proof (len_nonneg nm). change (FDT_BEGIN_NODE =? FDT_BEGIN_NODE) with true. cbn iota. unfold pad in Ha. rewrite <-(assoc_L (++)) in Ha.
    assert (len nm + 4 ≤ (len nm + 4) / 4 * 4 + 3) by (Z.to_euclidean_division_equations; lia).
    rewrite Z.add_assoc. unfold mbind, run_bind. rewrite (strnlen_at _ _ _ _ _ Ha Hok) by lia.
    destruct (len nm =? _) eqn:E; zbool; [lia|]. rewrite ALIGN_UP_4 by lia.
    replace (len nm + 1 + 3) with (len nm + 4) by lia. rewrite to_s32_small by lia. do 2 f_equal. lia.
  - pose proof (len_nonneg v). change (FDT_PROP =? FDT_BEGIN_NODE) with false. change (FDT_PROP =? FDT_PROP) with true. cbn iota.
    assert (len v ≤ (len v + 3) / 4 * 4 ≤ len v + 3) by (Z.to_euclidean_division_equations; lia).
    destruct (struct_size d <? off + 12) eqn:E; zbool; [lia|]. rewrite Z.add_assoc. apply at_app in Ha as [Ha _].
    rewrite (rd32_at _ _ _ Ha) by lia. unfold mbind, run_bind. destruct (_ <? len v) eqn:E2; zbool; [lia|].
    rewrite ALIGN_UP32_4 by lia. rewrite !wrap32_small by (rewrite ?wrap32_small by lia; lia). rewrite to_s32_small by lia. do 2 f_equal. lia.
Qed.

Ltac walk_step Hs :=
  let R := fresh in
  pose proof (proj1 (suffix_range _ _ Hs)) as R;
  match goal with |- context [?o <? 0] => rewrite (proj2 (Z.ltb_ge o 0)) by exact R end;
  rewrite (next_token_at _ _ _ _ Hs); unfold mbind at 1, run_bind at 1; cbn [the_tag]; unfold mbind at 1, run_bind at 1; clear R.

Lemma fuel_enough off rest : suffix off rest → (S (length rest) < FUEL d)%nat.
Proof. intros Hs. destruct (suffix_range _ _ Hs) as (R1 & R2 & _). pose proof (size_length rest). unfold FUEL. lia. Qed.

(** Every offset and node of a list of nodes that starts at [off]. *)
Fixpoint kids_at (off : Z) (ks : list dnode) : list (Z * dnode) :=
  match ks with
  | [] => []
  | Nop :: ks => kids_at (off + 4) ks
  | k :: ks => (off, k) :: kids_at (off + size (flatten k)) ks
  end.
Definition kids (off : Z) (n : dnode) : list (Z * dnode) :=
  match n with Nop => [] | Node nm ps ks => kids_at (off + size (TBegin nm :: (ptok <$> ps))) ks end.
Definition first_off (l : list (Z * dnode)) : Z := match l with [] => FDT_ERR_NOTFOUND | (o, _) :: _ => o end.

Definition closes (t : tok) : Prop := t = TEnd ∨ t = TFinish.

Lemma props_loop_kids ks fuel off tag t rest :
  suffix off (flat_map flatten ks ++ t :: rest) → closes t → (length (flat_map flatten ks) < fuel)%nat →
  ∃ o tg, props_loop fuel d off tag = Ret (o, Some tg) ∧ 0 ≤ o ∧
    match kids_at off ks with [] => tg = FDT_END_NODE ∨ tg = FDT_END | (o', _) :: _ => o = o' ∧ tg = FDT_BEGIN_NODE end.
Proof.
  revert fuel off tag. induction ks as [|[|nm ps kk] ks IH]; intros [|fuel] off tag Hs Ht Hf; try lia; cbn [props_loop flat_map app kids_at] in *.
  - walk_step Hs. destruct (suffix_range _ _ Hs) as [? _]. exists off, (tag_of t). destruct Ht as [-> | ->]; (split; [done|split; [done|by auto]]).
  - walk_step Hs. cbn [negb andb tag_of]. apply IH; [by apply suffix_step in Hs|done|simpl in Hf; lia].
  - walk_step Hs. destruct (suffix_range _ _ Hs) as [? _]. by exists off, FDT_BEGIN_NODE.
Qed.

Lemma props_loop_props ps fuel off tag rest :
  suffix off ((ptok <$> ps) ++ rest) → ∃ tag', props_loop (length ps + fuel) d off tag = props_loop fuel d (off + size (ptok <$> ps)) tag'.
Proof.
  revert off tag. induction ps as [|p ps IH]; intros off tag Hs; [exists tag; by rewrite Z.add_0_r|]. rewrite fmap_cons in *. cbn [app length Nat.add props_loop] in *.
  walk_step Hs. destruct (IH (off + tok_size (ptok p)) (Some (tag_of (ptok p)))) as (tag' & E); [by apply suffix_step in Hs|].
  exists tag'. rewrite size_cons, Z.add_assoc, <-E. by destruct p as [[]|].
Qed.

Lemma fdt_first_child_at off nm ps ks rest :
  suffix off (flatten (Node nm ps ks) ++ rest) → fdt_first_child d off = Ret (first_off (kids off (Node nm ps ks))).
Proof.
  intros Hs. pose proof (fuel_enough _ _ Hs) as Hf. cbn [flatten app] in Hs, Hf. rewrite <-!(assoc_L (++)) in Hs, Hf. cbn [app] in Hs, Hf.
  unfold fdt_first_child, skip_props. rewrite (next_token_at _ _ _ _ Hs). unfold mbind, run_bind.
  pose proof (suffix_step _ _ _ Hs) as Hs1. pose proof (suffix_app _ _ _ Hs1) as Hs2. cbn [length] in Hf. rewrite !length_app, length_fmap in Hf.
  replace (FUEL d) with (length ps + (FUEL d - length ps))%nat by lia.
  destruct (props_loop_props ps (FUEL d - length ps) _ (Some (tag_of (TBegin nm))) _ Hs1) as (tag' & ->).
  destruct (props_loop_kids ks (FUEL d - length ps) _ tag' _ _ Hs2) as (o & tg & -> & Ho & Hk); [by left|lia|].
  destruct (o <? 0) eqn:E; zbool; [lia|]. cbn [the_tag]. unfold kids. rewrite size_cons, Z.add_assoc.
  destruct (kids_at _ ks) as [|[o' k'] l]; cbn [first_off]; [by destruct Hk as [-> | ->]|]. by destruct Hk as [-> ->].
Qed.

Lemma sibling_loop_kids ks fuel off tag t rest :
  suffix off (flat_map flatten ks ++ t :: rest) → closes t → (length (flat_map flatten ks) < fuel)%nat →
  sibling_loop fuel d off tag = Ret (first_off (kids_at off ks)).
Proof.
  revert fuel off tag. induction ks as [|[|nm ps kk] ks IH]; intros [|fuel] off tag Hs Ht Hf; try lia; cbn [sibling_loop flat_map flatten app kids_at] in *;
    walk_step Hs.
  - by destruct Ht as [-> | ->].
  - cbn [tag_of]. apply IH; [by apply suffix_step in Hs|done|simpl in Hf; lia].
  - done.
Qed.

(** The walk over whole nodes and properties keeps the depth. *)
Definition skips (ts : list tok) : Prop := ∀ fuel depth off tag rest,
  1 ≤ depth → suffix off (ts ++ rest) →
  ∃ tag', skip_loop (length ts + fuel) d depth off tag = skip_loop fuel d depth (off + size ts) tag'.

Lemma skips_app ts ts' : skips ts → skips ts' → skips (ts ++ ts').
Proof.
  intros H1 H2 fuel depth off tag rest Hd Hs. rewrite <-(assoc_L (++)) in Hs. rewrite length_app, <-Nat.add_assoc, size_app, Z.add_assoc.
  destruct (H1 (length ts' + fuel)%nat depth off tag _ Hd Hs) as (tag1 & ->). apply (H2 _ _ _ _ rest); [done|by apply suffix_app in Hs].
Qed.

Lemma skips_props ps : skips (ptok <$> ps).
Proof.
  induction ps as [|p ps IH]; intros fuel depth off tag rest Hd Hs; [exists tag; by rewrite Z.add_0_r|]. rewrite fmap_cons in *.
  cbn [app length Nat.add skip_loop] in *. walk_step Hs.
  destruct (IH fuel depth (off + tok_size (ptok p)) (Some (tag_of (ptok p))) rest Hd) as (tag' & E); [by apply suffix_step in Hs|].
  exists tag'. rewrite size_cons, Z.add_assoc, <-E. by destruct p as [[]|].
Qed.

Lemma skips_nodes ks : Forall (λ k, skips (flatten k)) ks → skips (flat_map flatten ks).
Proof.
  induction 1 as [|k ks Hk _ IH]; [intros fuel depth off tag rest _ _; exists tag; by rewrite Z.add_0_r|]. cbn [flat_map]. by apply skips_app.
Qed.

Lemma skip_loop_end fuel depth off tag rest :
  suffix off (TEnd :: rest) →
  skip_loop (S fuel) d depth off tag = if depth - 1 =? 0 then Ret (off + 4) else skip_loop fuel d (depth - 1) (off + 4) (Some FDT_END_NODE).
Proof. intros Hs. cbn [skip_loop]. by walk_step Hs. Qed.

Lemma skip_loop_begin fuel depth off tag nm rest :
  suffix off (TBegin nm :: rest) →
  skip_loop (S fuel) d depth off tag = skip_loop fuel d (depth + 1) (off + tok_size (TBegin nm)) (Some FDT_BEGIN_NODE).
Proof. intros Hs. cbn [skip_loop]. by walk_step Hs. Qed.

Lemma skips_flatten n : skips (flatten n).
Proof.
  induction n as [|nm ps ks IH] using dnode_ind; intros fuel depth off tag rest Hd Hs.
  { cbn [flatten app length Nat.add skip_loop] in *. walk_step Hs. by exists (Some FDT_NOP). }
  cbn [flatten] in *. rewrite !(assoc_L (++)) in *. set (body := (ptok <$> ps) ++ flat_map flatten ks) in *.
  assert (skips body) as Hb by (apply skips_app; [apply skips_props|by apply skips_nodes]).
  cbn [app length Nat.add] in *. rewrite (skip_loop_begin _ _ _ _ _ _ Hs). rewrite length_app, <-Nat.add_assoc.
  pose proof (suffix_step _ _ _ Hs) as Hs1. rewrite <-(assoc_L (++)) in Hs1.
  destruct (Hb (length [TEnd] + fuel)%nat (depth + 1) _ (Some FDT_BEGIN_NODE) _ ltac:(lia) Hs1) as (tag' & ->).
  cbn [length Nat.add]. rewrite (skip_loop_end _ _ _ _ _ (suffix_app _ _ _ Hs1)). destruct (depth + 1 - 1 =? 0) eqn:E; zbool; [lia|].
  exists (Some FDT_END_NODE). rewrite size_cons, size_app. cbn [size foldr tok_size]. f_equal; lia.
Qed.

Lemma skip_node_at off nm ps ks rest :
  suffix off (flatten (Node nm ps ks) ++ rest) → skip_node d off = Ret (off + size (flatten (Node nm ps ks))).
Proof.
  intros Hs. pose proof (fuel_enough _ _ Hs) as Hf. cbn [flatten] in *. rewrite !(assoc_L (++)) in *. set (body := (ptok <$> ps) ++ flat_map flatten ks) in *.
  assert (skips body) as Hb by (apply skips_app; [apply skips_props|by apply skips_nodes, Forall_forall; intros k _; apply skips_flatten]).
  cbn [app length] in *. rewrite !length_app in Hf. cbn [length] in Hf. unfold skip_node.
  replace (FUEL d) with (S (length body + S (FUEL d - length body - 2)))%nat by lia.
  rewrite (skip_loop_begin _ _ _ _ _ _ Hs). pose proof (suffix_step _ _ _ Hs) as Hs1. rewrite <-(assoc_L (++)) in Hs1.
  destruct (Hb (S (FUEL d - length body - 2)) (0 + 1) _ (Some FDT_BEGIN_NODE) _ ltac:(lia) Hs1) as (tag' & ->).
  rewrite (skip_loop_end _ _ _ _ _ (suffix_app _ _ _ Hs1)). change (0 + 1 - 1 =? 0) with true. cbn iota.
  f_equal. rewrite size_cons, size_app. cbn [size foldr tok_size]. lia.
Qed.

(** The node after [k] in the list [ks] that starts at [o]. *)
Lemma fdt_next_sibling_at o nm ps kk ks t rest :
  suffix o (flatten (Node nm ps kk) ++ flat_map flatten ks ++ t :: rest) → closes t →
  fdt_next_sibling d o = Ret (first_off (kids_at (o + size (flatten (Node nm ps kk))) ks)).
Proof.
  intros Hs Ht. unfold fdt_next_sibling. rewrite (skip_node_at _ _ _ _ _ Hs). unfold mbind, run_bind.
  pose proof (suffix_app _ _ _ Hs) as Hs1. apply (sibling_loop_kids ks _ _ _ t rest); [done|done|].
  pose proof (fuel_enough _ _ Hs1) as Hf. rewrite length_app in Hf. lia.
Qed.

(** *** Properties *)

Lemma strncmp_at b a nm k name n :
  at_ b a (nm ++ 0 :: k) → cstr nm → cstr name → len nm < Z.of_nat n → ∃ c, strncmp b a name n = Ret c ∧ (c = 0 ↔ nm = name).
Proof.
  revert a name n. induction nm as [|x nm IH]; intros a name n Ha Hc Hn Hl; destruct n as [|n].
  1, 3: unfold len in Hl; simpl in Hl; lia.
  all: cbn [strncmp]; unfold mbind at 1, run_bind at 1; rewrite (rd8_here _ _ _ _ Ha).
  - destruct name as [|c name]; cbn [hd tl]; [by exists 0|]. apply Forall_cons in Hn as [Hn _]. destruct (0 =? c) eqn:E; zbool; [lia|].
    eexists. split; [done|]. split; [lia|done].
  - apply Forall_cons in Hc as [Hx Hc]. destruct name as [|c name]; cbn [hd tl].
    { destruct (x =? 0) eqn:E; zbool; [lia|]. eexists. split; [done|]. split; [lia|done]. }
    apply Forall_cons in Hn as [Hn Hn']. destruct (x =? c) eqn:E; zbool; cbn [negb].
    + destruct (x =? 0) eqn:E2; zbool; [lia|]. destruct (IH (a + 1) name n) as (r & -> & Hr); [by apply at_cons in Ha|done|done|unfold len in *; simpl in *; lia|].
      exists r. split; [done|]. rewrite Hr, E. split; [by intros ->|by intros [= ->]].
    + eexists. split; [done|]. split; [lia|]. intros [= -> _]. done.
Qed.

Lemma soff_at nm tb b a :
  nm ∈ tb → at_ b a (enc_tab tb) → ∃ k, at_ b (a + soff tb nm) (nm ++ 0 :: k) ∧ 0 ≤ soff tb nm ∧ soff tb nm + len nm < len (enc_tab tb).
Proof.
  revert a. induction tb as [|x tb IH]; intros a Hin Ha; [by apply elem_of_nil in Hin|]. cbn [soff enc_tab flat_map] in *. fold (enc_tab tb) in *.
  rewrite !len_app. change (len [0]) with 1. pose proof (len_nonneg (enc_tab tb)). case_bool_decide as E.
  - subst x. exists (enc_tab tb). rewrite Z.add_0_r. rewrite <-(assoc_L (++)) in Ha. split_and!; [done|lia|lia].
  - apply elem_of_cons in Hin as [->|Hin]; [done|]. apply at_app in Ha as [_ Ha]. rewrite len_app in Ha. change (len [0]) with 1 in Ha.
    destruct (IH _ Hin Ha) as (k & Hk & H1 & H2). exists k. pose proof (len_nonneg x).
    replace (a + (len x + 1 + soff tb nm)) with (a + (len x + 1) + soff tb nm) by lia. split_and!; [done|lia|lia].
Qed.

(** The value of the first property with a name. *)
Fixpoint prop_value (ps : list (option (list Z * list Z))) (name : list Z) : option (list Z) :=
  match ps with
  | [] => None
  | Some (n, v) :: ps => if bool_decide (n = name) then Some v else prop_value ps name
  | None :: ps => prop_value ps name
  end.

Definition prop_found (v : option (list Z)) (r : run (option (Z * Z))) : Prop :=
  match v with
  | None => r = Ret None
  | Some v => ∃ a, r = Ret (Some (a, len v)) ∧ at_ (blob d) a v
  end.

Lemma getprop_loop_nop fuel name off tag rest :
  suffix off (TNop :: rest) → getprop_loop (S fuel) d name off tag = getprop_loop fuel d name (off + 4) (Some FDT_NOP).
Proof.
  intros Hs. cbn [getprop_loop]. destruct (suffix_range _ _ Hs) as [R _]. rewrite (proj2 (Z.ltb_ge off 0)) by done.
  rewrite (next_token_at _ _ _ _ Hs). unfold mbind at 1, run_bind at 1. cbn [tok_size]. rewrite (proj2 (Z.ltb_ge (off + 4) 0)) by lia. done.
Qed.

Lemma getprop_loop_stop fuel name off tag t rest :
  suffix off (t :: rest) → tag_of t ≠ FDT_PROP → tag_of t ≠ FDT_NOP → getprop_loop (S fuel) d name off tag = Ret None.
Proof.
  intros Hs H1 H2. cbn [getprop_loop]. destruct (suffix_range _ _ Hs) as [R _]. rewrite (proj2 (Z.ltb_ge off 0)) by done.
  rewrite (next_token_at _ _ _ _ Hs). unfold mbind at 1, run_bind at 1. pose proof (tok_size_pos t). rewrite (proj2 (Z.ltb_ge _ 0)) by lia.
  cbn [the_tag]. unfold mbind at 1, run_bind at 1. by rewrite (proj2 (Z.eqb_neq _ _) H1), (proj2 (Z.eqb_neq _ _) H2).
Qed.

Lemma getprop_loop_kids ks fuel name off tag t rest :
  suffix off (flat_map flatten ks ++ t :: rest) → closes t → (length (flat_map flatten ks) < fuel)%nat →
  getprop_loop fuel d name off tag = Ret None.
Proof.
  revert fuel off tag. induction ks as [|[|nm ps kk] ks IH]; intros [|fuel] off tag Hs Ht Hf; try lia; cbn [flat_map flatten app] in *.
  - by destruct Ht as [-> | ->]; apply (getprop_loop_stop _ _ _ _ _ _ Hs).
  - rewrite (getprop_loop_nop _ _ _ _ _ Hs). apply IH; [by apply suffix_step in Hs|done|simpl in Hf; lia].
  - by apply (getprop_loop_stop _ _ _ _ _ _ Hs).
Qed.

Lemma getprop_loop_prop fuel name off tag nm v rest :
  suffix off (TProp nm v :: rest) → cstr name →
  getprop_loop (S fuel) d name off tag =
    if bool_decide (nm = name) then Ret (Some (dt_struct d + off + 12, len v))
    else getprop_loop fuel d name (off + tok_size (TProp nm v)) (Some FDT_PROP).
Proof.
  intros Hs Hn. destruct (suffix_range _ _ Hs) as (R & R2 & R3). destruct (suffix_tok _ _ _ Hs) as [[Hin Hv] Ha].
  rewrite size_cons in R2, R3. pose proof (size_nonneg rest). pose proof (tok_size_pos (TProp nm v)).
  assert (12 + len v ≤ tok_size (TProp nm v)) by (unfold tok_size; Z.to_euclidean_division_equations; lia). pose proof (len_nonneg v).
  unfold enc_tok in Ha. apply at_app in Ha as [_ Ha]. apply at_app in Ha as [Ha1 Ha]. apply at_app in Ha as [Ha2 _].
  change (len (be32 _)) with 4 in Ha1, Ha2. destruct (soff_at nm tab _ _ Hin (h_strings _ _ _ H)) as (k & Hk & S1 & S2).
  rewrite <-(h_strs _ _ _ H) in S2. pose proof (h_small' _ _ _ H). pose proof (len_nonneg nm). change (len (be32 (len v))) with 4 in Ha2.
  cbn [getprop_loop]. rewrite (proj2 (Z.ltb_ge off 0)) by done. rewrite (next_token_at _ _ _ _ Hs). unfold mbind at 1, run_bind at 1.
  rewrite (proj2 (Z.ltb_ge (off + _) 0)) by lia. cbn [the_tag tag_of]. unfold mbind at 1, run_bind at 1. change (FDT_PROP =? FDT_PROP) with true. cbn iota.
  rewrite (rd32_at _ _ _ Ha1) by lia. unfold mbind at 1, run_bind at 1.
  replace (dt_struct d + off + 8) with (dt_struct d + off + 4 + 4) by lia. rewrite (rd32_at _ _ _ Ha2) by lia. unfold mbind at 1, run_bind at 1.
  rewrite (proj2 (Z.ltb_lt _ _)) by lia.
  pose proof (h_tab _ _ _ H) as Ht. rewrite Forall_forall in Ht.
  destruct (strncmp_at _ _ _ _ name (Z.to_nat (strings_size d - soff tab nm)) Hk (Ht _ Hin) Hn) as (c & -> & Hc); [lia|].
  unfold mbind, run_bind. case_bool_decide as E.
  - rewrite (proj2 (Z.eqb_eq c 0)) by by apply Hc. subst name. fold (len nm). rewrite (proj2 (Z.ltb_lt (len nm) _)) by lia. cbn [andb].
    by rewrite to_s32_small by lia.
  - rewrite (proj2 (Z.eqb_neq c 0)) by (intros ?; by apply E, Hc). done.
Qed.

Lemma getprop_loop_at ps ks fuel name off tag t rest :
  suffix off ((ptok <$> ps) ++ flat_map flatten ks ++ t :: rest) → closes t → cstr name →
  (length ps + length (flat_map flatten ks) < fuel)%nat → prop_found (prop_value ps name) (getprop_loop fuel d name off tag).
Proof.
  revert fuel off tag. induction ps as [|[[nm v]|] ps IH]; intros fuel off tag Hs Ht Hn Hf.
  { by apply (getprop_loop_kids ks _ _ _ _ t rest). }
  all: (destruct fuel as [|fuel]; [lia|]); cbn [length] in Hf; rewrite fmap_cons in Hs; cbn [ptok app prop_value] in *.
  - rewrite (getprop_loop_prop _ _ _ _ _ _ _ Hs Hn). case_bool_decide as E.
    + eexists. split; [done|]. destruct (suffix_tok _ _ _ Hs) as [_ Ha]. unfold enc_tok in Ha.
      do 3 apply at_app in Ha as [_ Ha]. unfold pad in Ha. apply at_app in Ha as [Ha _].
      change (len (be32 (tag_of (TProp nm v)))) with 4 in Ha. change (len (be32 (len v))) with 4 in Ha. change (len (be32 (soff tab nm))) with 4 in Ha.
      by replace (dt_struct d + off + 12) with (dt_struct d + off + 4 + 4 + 4) by lia.
    + apply IH; [by apply suffix_step in Hs|done..|lia].
  - rewrite (getprop_loop_nop _ _ _ _ _ Hs). apply IH; [by apply suffix_step in Hs|done..|lia].
Qed.

Lemma fdt_getprop_at off nm ps ks rest name :
  suffix off (flatten (Node nm ps ks) ++ rest) → cstr name → prop_found (prop_value ps name) (fdt_getprop d off name).
Proof.
  intros Hs Hn. pose proof (fuel_enough _ _ Hs) as Hf. cbn [flatten app] in Hs, Hf. rewrite <-!(assoc_L (++)) in Hs, Hf. cbn [app] in Hs, Hf.
  unfold fdt_getprop. destruct (suffix_range _ _ Hs) as [R _]. rewrite (proj2 (Z.ltb_ge off 0)) by done.
  rewrite (next_token_at _ _ _ _ Hs). unfold mbind, run_bind. cbn [length] in Hf. rewrite !length_app, length_fmap in Hf.
  eapply (getprop_loop_at ps ks _ _ _ _ TEnd); [by apply suffix_step in Hs|by left|done|]. lia.
Qed.

(** *** Parents *)

Definition agree (depth : Z) (s s' : list Z) : Prop :=
  length s' = length s ∧ ∀ i, 0 ≤ i ≤ depth → s' !!! Z.to_nat i = s !!! Z.to_nat i.

(** The walk passes the tokens [ts], whose nodes are nested [h] deep, without
    meeting [node], and is then at the same depth. *)
Definition passes (node : Z) (ts : list tok) (h : Z) : Prop := ∀ fuel stack depth off tag rest,
  -1 ≤ depth → depth + h < STACK_SIZE → Z.of_nat (length stack) = STACK_SIZE → suffix off (ts ++ rest) →
  node < off ∨ off + size ts ≤ node →
  ∃ stack' tag', agree depth stack stack' ∧
    parent_loop (length ts + fuel) d node stack depth off tag = parent_loop fuel d node stack' depth (off + size ts) tag'.

Lemma agree_trans depth s1 s2 s3 : agree depth s1 s2 → agree depth s2 s3 → agree depth s1 s3.
Proof. intros [L1 A1] [L2 A2]. split; [congruence|]. intros i Hi. by rewrite A2, A1. Qed.

Lemma passes_nil node h : passes node [] h.
Proof. intros fuel stack depth off tag rest _ _ _ _ _. exists stack, tag. by rewrite Z.add_0_r. Qed.

Lemma passes_app node ts ts' h : passes node ts h → passes node ts' h → passes node (ts ++ ts') h.
Proof.
  intros H1 H2 fuel stack depth off tag rest Hd Hh Hl Hs Hap. rewrite <-(assoc_L (++)) in Hs. rewrite length_app, <-Nat.add_assoc, size_app, Z.add_assoc in *.
  pose proof (size_nonneg ts). pose proof (size_nonneg ts').
  destruct (H1 (length ts' + fuel)%nat stack depth off tag _ Hd Hh Hl Hs ltac:(lia)) as (s1 & t1 & A1 & ->).
  destruct (H2 fuel s1 depth (off + size ts) t1 rest Hd Hh) as (s2 & t2 & A2 & ->);
    [by rewrite (proj1 A1)|by apply suffix_app in Hs|lia|]. exists s2, t2. split; [by eapply agree_trans|done].
Qed.

Lemma passes_props node ps h : passes node (ptok <$> ps) h.
Proof.
  induction ps as [|p ps IH]; [apply passes_nil|]. rewrite fmap_cons. apply (passes_app node [ptok p]); [|done].
  intros fuel stack depth off tag rest Hd Hh Hl Hs Hap. cbn [app length Nat.add parent_loop size foldr] in *. walk_step Hs.
  exists stack, (Some (tag_of (ptok p))). rewrite Z.add_0_r. split; [done|]. by destruct p as [[]|].
Qed.

Fixpoint height (n : dnode) : Z :=
  match n with Nop => 0 | Node _ _ ks => 1 + foldr Z.max 0 (map height ks) end.

Lemma height_kid k ks : k ∈ ks → height k ≤ foldr Z.max 0 (map height ks).
Proof.
  induction ks as [|x ks IH]; intros Hk; [by apply elem_of_nil in Hk|]. apply elem_of_cons in Hk as [->|Hk]; simpl; [lia|]. specialize (IH Hk). lia.
Qed.

Lemma parent_loop_begin fuel node stack depth off tag nm rest :
  suffix off (TBegin nm :: rest) → off ≠ node → -1 ≤ depth → depth + 1 < STACK_SIZE →
  parent_loop (S fuel) d node stack depth off tag =
    parent_loop fuel d node (<[Z.to_nat (depth + 1) := off]> stack) (depth + 1) (off + tok_size (TBegin nm)) (Some FDT_BEGIN_NODE).
Proof.
  intros Hs Hne Hd Hh. cbn [parent_loop]. walk_step Hs. cbn [tag_of]. change (FDT_BEGIN_NODE =? FDT_BEGIN_NODE) with true. cbn iota.
  rewrite (proj2 (Z.eqb_neq off node)) by done. rewrite (proj2 (Z.leb_gt STACK_SIZE _)) by lia. by rewrite (proj2 (Z.ltb_ge (depth + 1) 0)) by lia.
Qed.

Lemma agree_insert depth s x : agree depth s (<[Z.to_nat (depth + 1) := x]> s).
Proof. split; [apply length_insert|]. intros i Hi. rewrite list_lookup_total_insert_ne; [done|lia]. Qed.

Lemma passes_flatten node n : passes node (flatten n) (height n).
Proof.
  induction n as [|nm ps ks IH] using dnode_ind; intros fuel stack depth off tag rest Hd Hh Hl Hs Hap.
  { cbn [flatten app length Nat.add parent_loop] in *. walk_step Hs. by exists stack, (Some FDT_NOP). }
  cbn [flatten height] in *. rewrite !(assoc_L (++)) in *. set (body := (ptok <$> ps) ++ flat_map flatten ks) in *.
  set (h := foldr Z.max 0 (map height ks)) in *.
  assert (passes node (flat_map flatten ks) h) as Hk.
  { assert (∀ k, k ∈ ks → height k ≤ h) as Hle by (intros k; apply height_kid). clearbody h. clear - IH Hle H. induction IH as [|k ks Hk _ IHks]; [apply passes_nil|].
    cbn [flat_map]. apply passes_app; [|apply IHks; intros k' Hk'; apply Hle; by right].
    intros fuel stack depth off tag rest Hd Hh. apply Hk; [done|]. specialize (Hle k ltac:(by left)). lia. }
  assert (passes node body h) as Hb by (apply passes_app; [apply passes_props|done]).
  assert (0 ≤ h) by (unfold h; clear; induction ks; simpl; lia).
  cbn [app length Nat.add] in *. rewrite size_cons, size_app in *. pose proof (tok_size_pos (TBegin nm)). pose proof (size_nonneg body).
  pose proof (size_nonneg [TEnd]). rewrite (parent_loop_begin _ _ _ _ _ _ _ _ Hs) by lia. rewrite length_app, <-Nat.add_assoc.
  pose proof (suffix_step _ _ _ Hs) as Hs1. rewrite <-(assoc_L (++)) in Hs1. set (s1 := <[_ := off]> stack).
  destruct (Hb (length [TEnd] + fuel)%nat s1 (depth + 1) (off + tok_size (TBegin nm)) (Some FDT_BEGIN_NODE) ([TEnd] ++ rest))
    as (s2 & t2 & A2 & ->); [lia|lia|unfold s1; by rewrite length_insert|exact Hs1|lia|].
  cbn [length Nat.add parent_loop]. pose proof (suffix_app _ _ _ Hs1) as Hs2. walk_step Hs2. cbn [tag_of].
  exists s2, (Some FDT_END_NODE). split; [|cbn [size foldr tok_size]; f_equal; lia].
  apply (agree_trans _ _ s1); [apply agree_insert|]. destruct A2 as [L2 A2]. split; [done|]. intros i Hi. apply A2. lia.
Qed.

(** [n'] is the node at [o'] of the tree [n] at [o]; [p] and [p'] are the
    offsets of the nodes above them. *)
Inductive sub : Z → dnode → option Z → Z → dnode → option Z → Prop :=
| sub_here o n p : n ≠ Nop → sub o n p o n p
| sub_kid o n p ok k o' n' p' : (ok, k) ∈ kids o n → sub ok k (Some o) o' n' p' → sub o n p o' n' p'.

Lemma kids_at_split off ks o k :
  (o, k) ∈ kids_at off ks → ∃ ks1 ks2, ks = ks1 ++ k :: ks2 ∧ o = off + size (flat_map flatten ks1) ∧ k ≠ Nop.
Proof.
  revert off. induction ks as [|x ks IH]; intros off Hk; [by apply elem_of_nil in Hk|]. destruct x as [|nm ps kk]; cbn [kids_at] in Hk.
  - destruct (IH _ Hk) as (k1 & k2 & -> & -> & Hn). exists (Nop :: k1), k2. split_and!; [done| |done]. cbn [flat_map flatten app]. rewrite size_cons. cbn [tok_size]. lia.
  - apply elem_of_cons in Hk as [[= -> ->]|Hk]; [exists [], ks; split_and!; [done|cbn [flat_map size foldr]; lia|done]|].
    destruct (IH _ Hk) as (k1 & k2 & -> & -> & Hn). exists (Node nm ps kk :: k1), k2. split_and!; [done| |done]. cbn [flat_map]. rewrite size_app. lia.
Qed.

Lemma kids_split off n o k :
  (o, k) ∈ kids off n → ∃ nm ps ks1 ks2, n = Node nm ps (ks1 ++ k :: ks2) ∧ k ≠ Nop ∧
    o = off + size (TBegin nm :: (ptok <$> ps) ++ flat_map flatten ks1).
Proof.
  destruct n as [|nm ps ks]; [intros Hk; by apply elem_of_nil in Hk|]. intros (k1 & k2 & -> & -> & Hn)%kids_at_split. exists nm, ps, k1, k2.
  split_and!; [done|done|]. rewrite !size_cons, size_app. lia.
Qed.

Lemma flatten_split nm ps ks1 k ks2 rest :
  flatten (Node nm ps (ks1 ++ k :: ks2)) ++ rest =
    (TBegin nm :: (ptok <$> ps) ++ flat_map flatten ks1) ++ flatten k ++ flat_map flatten ks2 ++ TEnd :: rest.
Proof. cbn [flatten app]. rewrite flat_map_app. cbn [flat_map]. by rewrite <-!(assoc_L (++)). Qed.

Lemma sub_range o n p o' n' p' : sub o n p o' n' p' → o ≤ o' ∧ o' + size (flatten n') ≤ o + size (flatten n) ∧ n' ≠ Nop.
Proof.
  induction 1 as [o n p Hn|o n p ok k o' n' p' Hk _ IH]; [lia || (split_and!; [lia|lia|done])|].
  destruct (kids_split _ _ _ _ Hk) as (nm & ps & k1 & k2 & -> & _ & ->). pose proof (flatten_split nm ps k1 k k2 []) as E. rewrite app_nil_r in E.
  rewrite E, size_app, size_app, size_app. pose proof (size_nonneg (flat_map flatten k2)). pose proof (size_nonneg [TEnd]).
  pose proof (size_nonneg (TBegin nm :: (ptok <$> ps) ++ flat_map flatten k1)). destruct IH as (? & ? & ?). split_and!; [lia|lia|done].
Qed.

Lemma node_size n : n ≠ Nop → 8 ≤ size (flatten n).
Proof.
  destruct n as [|nm ps ks]; [done|]. intros _. cbn [flatten]. rewrite size_cons, !size_app. pose proof (tok_size_pos (TBegin nm)).
  pose proof (size_nonneg (ptok <$> ps)). pose proof (size_nonneg (flat_map flatten ks)). cbn [size foldr tok_size] in *. lia.
Qed.

Lemma passes_kids node ks h : (∀ k, k ∈ ks → height k ≤ h) → passes node (flat_map flatten ks) h.
Proof.
  induction ks as [|k ks IH]; intros Hle; [apply passes_nil|]. cbn [flat_map]. apply passes_app; [|apply IH; intros k' Hk'; apply Hle; by right].
  intros fuel stack depth off tag rest Hd Hh. apply passes_flatten; [done|]. specialize (Hle k ltac:(by left)). lia.
Qed.

Definition top (stack : list Z) (depth : Z) : Z := if 0 <=? depth then stack !!! Z.to_nat depth else FDT_ERR_NOTFOUND.

Lemma parent_loop_found o n p o' n' p' : sub o n p o' n' p' → ∀ fuel stack depth tag rest,
  -1 ≤ depth → depth + height n < STACK_SIZE → Z.of_nat (length stack) = STACK_SIZE → suffix o (flatten n ++ rest) →
  default FDT_ERR_NOTFOUND p = top stack depth → (length (flatten n) < fuel)%nat →
  parent_loop fuel d o' stack depth o tag = Ret (default FDT_ERR_NOTFOUND p').
Proof.
  induction 1 as [o n p Hn|o n p ok k o' n' p' Hk Hsub IH]; intros fuel stack depth tag rest Hd Hh Hl Hs Hp Hf; (destruct fuel as [|fuel]; [lia|]).
  { destruct n as [|nm ps ks]; [done|]. cbn [parent_loop flatten app] in *. walk_step Hs. cbn [tag_of]. change (FDT_BEGIN_NODE =? FDT_BEGIN_NODE) with true.
    cbn iota. rewrite Z.eqb_refl, Hp. done. }
  destruct (sub_range _ _ _ _ _ _ Hsub) as (R1 & R2 & R3). pose proof (node_size _ R3).
  destruct (kids_split _ _ _ _ Hk) as (nm & ps & k1 & k2 & -> & Hkn & Eok). pose proof (flatten_split nm ps k1 k k2 []) as Ef.
  rewrite app_nil_r in Ef. rewrite flatten_split in Hs. rewrite Ef, !length_app in Hf. set (body := (ptok <$> ps) ++ flat_map flatten k1) in *.
  cbn [height] in Hh. set (h := foldr Z.max 0 _) in Hh.
  assert (∀ x, x ∈ k1 ++ k :: k2 → height x ≤ h) as Hle by (intros x; apply height_kid).
  assert (passes o' body h) as Hb by (apply passes_app; [apply passes_props|apply passes_kids; intros x Hx; apply Hle, elem_of_app; by left]).
  assert (0 ≤ h) by (unfold h; clear; induction (map height (k1 ++ k :: k2)); simpl; lia). assert (height k ≤ h) by (apply Hle, elem_of_app; right; by left).
  rewrite size_cons in Eok. pose proof (tok_size_pos (TBegin nm)). pose proof (size_nonneg body). cbn [app length] in Hs, Hf.
  rewrite (parent_loop_begin _ _ _ _ _ _ _ _ Hs) by lia. set (s1 := <[_ := o]> stack).
  replace fuel with (length body + (fuel - length body))%nat by lia. pose proof (suffix_step _ _ _ Hs) as Hs1.
  destruct (Hb (fuel - length body)%nat s1 (depth + 1) _ (Some FDT_BEGIN_NODE) _ ltac:(lia) ltac:(lia) ltac:(unfold s1; by rewrite length_insert) Hs1)
    as (s2 & t2 & [L2 A2] & ->); [lia|]. replace (o + tok_size (TBegin nm) + size body) with ok by lia.
  apply (IH _ _ _ _ (flat_map flatten k2 ++ TEnd :: rest)); [lia|lia|rewrite L2; unfold s1; by rewrite length_insert| | |lia].
  - pose proof (suffix_app _ _ _ Hs1) as Hs2. by replace (o + tok_size (TBegin nm) + size body) with ok in Hs2 by lia.
  - unfold top. rewrite (proj2 (Z.leb_le 0 (depth + 1))) by lia. rewrite A2 by lia. unfold s1. rewrite list_lookup_total_insert_eq; [done|unfold STACK_SIZE in *; lia].
Qed.

(** *** Paths *)

Lemma strncmp_prefix b a nm k path n :
  at_ b a (nm ++ 0 :: k) → cstr nm → cstr path → (n ≤ length path)%nat →
  ∃ c, strncmp b a path n = Ret c ∧ (c = 0 ↔ take n path `prefix_of` nm).
Proof.
  revert a nm path. induction n as [|n IH]; intros a nm path Ha Hc Hp Hl; [exists 0; split; [done|split; [intros _; apply prefix_nil|done]]|].
  destruct path as [|y path]; [simpl in Hl; lia|]. apply Forall_cons in Hp as [Hy Hp]. cbn [strncmp hd tl take]. unfold mbind, run_bind.
  destruct nm as [|x nm]; rewrite (rd8_here _ _ _ _ Ha).
  - destruct (0 =? y) eqn:E; zbool; [lia|]. eexists. split; [done|]. split; [lia|]. intros Hpre. by apply prefix_nil_not in Hpre.
  - apply Forall_cons in Hc as [Hx Hc]. destruct (x =? y) eqn:E; zbool; cbn [negb].
    + subst y. destruct (x =? 0) eqn:E2; zbool; [lia|].
      destruct (IH (a + 1) nm path) as (c & -> & Hcc); [by apply at_cons in Ha|done|done|simpl in Hl; lia|].
      exists c. split; [done|]. rewrite Hcc. split; [apply prefix_cons|apply prefix_cons_inv_2].
    + eexists. split; [done|]. split; [lia|]. intros Hpre. by apply prefix_cons_inv_1 in Hpre.
Qed.

(** A component names a node by its whole name or by the part before the
    unit address. *)
Definition matches (nm comp : list Z) : bool :=
  bool_decide (comp `prefix_of` nm) &&
  ((bool_decide (length nm = length comp)) || (bool_decide (nm !! length comp = Some AT) && bool_decide (AT ∉ comp))).

Lemma name_matches_at off nm ps ks rest path n :
  suffix off (flatten (Node nm ps ks) ++ rest) → cstr path → (n ≤ length path)%nat →
  name_matches d off path n = Ret (matches nm (take n path)).
Proof.
  intros Hs Hp Hl. cbn [flatten app] in Hs. destruct (suffix_tok _ _ _ Hs) as [Hok Ha]. unfold enc_tok in Ha. apply at_app in Ha as [_ Ha].
  change (len (be32 _)) with 4 in Ha. unfold pad in Ha. rewrite <-!(assoc_L (++)) in Ha. cbn [app tok_ok] in *.
  destruct (strncmp_prefix _ _ _ _ path n Ha Hok Hp Hl) as (c & E & Hc). unfold name_matches. rewrite E. unfold mbind at 1, run_bind at 1. unfold matches.
  rewrite length_take_le by done. destruct (bool_decide_reflect (take n path `prefix_of` nm)) as [Hpre|Hpre]; cycle 1.
  { rewrite (proj2 (Z.eqb_neq c 0)) by (intros ?; by apply Hpre, Hc). done. }
  rewrite (proj2 (Z.eqb_eq c 0)) by by apply Hc. cbn [negb andb]. pose proof (prefix_length _ _ Hpre) as Hlen. rewrite length_take_le in Hlen by done.
  assert ((nm ++ 0 :: replicate (Z.to_nat ((- len (nm ++ [0])) `mod` 4)) 0) !! n = Some (if decide (length nm = n) then 0 else nm !!! n)) as Hx.
  { case_decide as En; [subst n; rewrite lookup_app_r, Nat.sub_diag by done; done|]. rewrite lookup_app_l by lia. apply list_lookup_lookup_total_lt. lia. }
  rewrite (rd8_at _ _ _ (Z.of_nat n) _ Ha ltac:(lia) ltac:(rewrite Nat2Z.id; exact Hx)). unfold mbind, run_bind. f_equal.
  case_decide as En; [by rewrite (bool_decide_true (length nm = n))|]. rewrite (bool_decide_false (length nm = n)) by done. cbn [orb].
  assert (nm !! n = Some (nm !!! n)) as Hn by (apply list_lookup_lookup_total_lt; lia).
  assert (0 < nm !!! n < 256) as Hr by (eapply (Forall_lookup_1 _ _ _ _ Hok), Hn). rewrite (proj2 (Z.eqb_neq (nm !!! n) 0)) by lia. cbn [orb].
  f_equal. rewrite Hn. destruct (nm !!! n =? AT) eqn:Ea; zbool; [rewrite Ea; by rewrite (bool_decide_true (Some AT = _))|].
  rewrite (bool_decide_false (Some _ = Some AT)); [done|by intros [= ?]].
Qed.

Definition node_name (n : dnode) : list Z := match n with Nop => [] | Node nm _ _ => nm end.
Fixpoint find_kid (comp : list Z) (l : list (Z * dnode)) : option (Z * dnode) :=
  match l with [] => None | (o, k) :: l => if matches (node_name k) comp then Some (o, k) else find_kid comp l end.

Lemma child_loop_at ks fuel off path n t rest :
  suffix off (flat_map flatten ks ++ t :: rest) → closes t → cstr path → (n ≤ length path)%nat → (length ks < fuel)%nat →
  child_loop fuel d path n (first_off (kids_at off ks)) =
    Ret (match find_kid (take n path) (kids_at off ks) with None => FDT_ERR_NOTFOUND | Some (o, _) => o end).
Proof.
  revert fuel off. induction ks as [|[|nm ps kk] ks IH]; intros [|fuel] off Hs Ht Hp Hl Hf; try (simpl in Hf; lia).
  - done.
  - cbn [flat_map flatten app kids_at] in *. apply IH; [by apply suffix_step in Hs|done..|simpl in Hf; lia].
  - cbn [flat_map kids_at first_off find_kid node_name child_loop] in *. rewrite <-(assoc_L (++)) in Hs.
    destruct (suffix_range _ _ Hs) as [R _]. rewrite (proj2 (Z.ltb_ge off 0)) by done.
    rewrite (name_matches_at _ _ _ _ _ _ _ Hs Hp Hl). unfold mbind, run_bind. case_match; [done|].
    rewrite (fdt_next_sibling_at _ _ _ _ _ _ _ Hs Ht). apply IH; [by apply suffix_app in Hs|done..|simpl in Hf; lia].
Qed.

(** The path with these components. *)
Definition join (comps : list (list Z)) : list Z := flat_map (λ c, SLASH :: c) comps.
Definition comp_ok (c : list Z) : Prop := c ≠ [] ∧ cstr c ∧ SLASH ∉ c.
Fixpoint lookup_path (comps : list (list Z)) (o : Z) (n : dnode) : Z :=
  match comps with
  | [] => o
  | c :: comps => match find_kid c (kids o n) with None => FDT_ERR_NOTFOUND | Some (o', k) => lookup_path comps o' k end
  end.

Lemma skip_slashes_join c cs : comp_ok c → skip_slashes (join (c :: cs)) = c ++ join cs.
Proof.
  intros (Hn & _ & Hs). cbn [join flat_map app skip_slashes]. rewrite Z.eqb_refl. destruct c as [|x c]; [done|]. cbn [app skip_slashes].
  destruct (x =? SLASH) eqn:E; zbool; [|done]. destruct Hs. rewrite E. by left.
Qed.

Lemma component_join c cs : SLASH ∉ c → component (c ++ join cs) = length c.
Proof.
  induction c as [|x c IH]; intros Hs; [by destruct cs; cbn; rewrite ?Z.eqb_refl|]. cbn [app component length].
  destruct (x =? SLASH) eqn:E; zbool; [destruct Hs; rewrite E; by left|]. f_equal. apply IH. intros Hx. apply Hs. by right.
Qed.

Lemma length_join cs : (length cs ≤ length (join cs))%nat.
Proof. unfold join. induction cs as [|c cs IH]; cbn [flat_map app length]; rewrite ?length_app; lia. Qed.

Lemma length_flatten ks : (length ks ≤ length (flat_map flatten ks))%nat.
Proof. induction ks as [|[] ks IH]; cbn [flat_map flatten app length]; rewrite ?length_app; lia. Qed.

Lemma find_kid_in c l o k : find_kid c l = Some (o, k) → (o, k) ∈ l.
Proof.
  induction l as [|[o' k'] l IH]; [done|]. cbn [find_kid]. case_match; [intros [= <- <-]; by left|]. intros Hf. right. by apply IH.
Qed.

Lemma cstr_join cs : Forall comp_ok cs → cstr (join cs).
Proof. induction 1 as [|c cs (_ & Hc & _) _ IH]; [constructor|]. cbn [join flat_map app]. constructor; [done|]. by apply Forall_app. Qed.

Lemma path_loop_at comps fuel o n rest :
  suffix o (flatten n ++ rest) → n ≠ Nop → Forall comp_ok comps → (length comps < fuel)%nat →
  path_loop fuel d (skip_slashes (join comps)) o = Ret (lookup_path comps o n).
Proof.
  revert fuel o n rest. induction comps as [|c cs IH]; intros [|fuel] o n rest Hs Hn Hc Hf; try (simpl in Hf; lia); [done|].
  destruct n as [|nm ps ks]; [done|]. apply Forall_cons in Hc as [Hc Hcs]. rewrite skip_slashes_join by done. destruct Hc as (Hne & Hc & Hsl).
  destruct c as [|x c]; [done|]. cbn [app path_loop]. destruct (suffix_range _ _ Hs) as [R _]. rewrite (proj2 (Z.ltb_ge o 0)) by done. cbn [lookup_path].
  change (x :: c ++ join cs) with ((x :: c) ++ join cs). rewrite (component_join (x :: c)) by done. set (cc := x :: c) in *.
  rewrite (fdt_first_child_at _ _ _ _ _ Hs). unfold mbind at 1, run_bind at 1. pose proof Hs as Hs'. pose proof (fuel_enough _ _ Hs) as Hfu.
  cbn [flatten app] in Hs'. rewrite <-!(assoc_L (++)) in Hs'. apply suffix_step, suffix_app in Hs'. cbn [app] in Hs'. rewrite <-Z.add_assoc, <-size_cons in Hs'.
  assert (length ks < FUEL d)%nat as Hk.
  { pose proof (length_flatten ks). cbn [flatten app length] in Hfu. rewrite !length_app in Hfu. lia. }
  unfold kids. rewrite (child_loop_at ks _ _ _ _ _ _ Hs'); [|by left|apply Forall_app; split; [done|by apply cstr_join]|rewrite length_app; lia|done].
  unfold mbind, run_bind. rewrite drop_app_length, take_app_length. destruct (find_kid cc _) as [[o' k]|] eqn:Ef.
  - pose proof (find_kid_in _ _ _ _ Ef) as Hin. destruct (kids_at_split _ _ _ _ Hin) as (k1 & k2 & -> & -> & Hkn).
    rewrite flat_map_app, <-(assoc_L (++)) in Hs'. apply suffix_app in Hs'. cbn [flat_map] in Hs'. rewrite <-(assoc_L (++)) in Hs'.
    apply (IH _ _ _ _ Hs'); [done|done|simpl in Hf; lia].
  - destruct fuel as [|fuel]; [simpl in Hf; lia|]. cbn [path_loop]. destruct (skip_slashes (join cs)); done.
Qed.

End walk.

(** ** Blobs *)

Definition tokens (root : dnode) : list tok := flatten root ++ [TFinish].

(** The header, an empty reservation map, the structure and the strings. *)
Definition encode (tab : list (list Z)) (root : dnode) : list Z :=
  let st := enc tab (tokens root) in
  let ss := enc_tab tab in
  be32 FDT_MAGIC ++ be32 (56 + len st + len ss) ++ be32 56 ++ be32 (56 + len st) ++ be32 40 ++ be32 17 ++ be32 16 ++ be32 0 ++
  be32 (len ss) ++ be32 (len st) ++ replicate 16 0 ++ st ++ ss.

Record tree_ok (tab : list (list Z)) (root : dnode) : Prop := {
  t_root : root ≠ Nop;
  t_tab : Forall cstr tab;
  t_toks : Forall (tok_ok tab) (tokens root);
  t_size : size (tokens root) + len (enc_tab tab) + 64 < 2 ^ 31;
  t_height : height root ≤ STACK_SIZE;
}.

Lemma fdt_init_encode tab root :
  tree_ok tab root →
  ∃ d, fdt_init (Some (encode tab root)) = Ret (inr d) ∧ holds d tab (tokens root) ∧ blob d = encode tab root.
Proof.
  intros [Hr Ht Hk Hz Hh]. set (st := enc tab (tokens root)). set (ss := enc_tab tab) in *.
  assert (len st = size (tokens root)) as El by apply len_enc. pose proof (len_nonneg st). pose proof (len_nonneg ss).
  set (b := encode tab root).
  assert (∀ pre v post, b = pre ++ be32 v ++ post → 0 ≤ v < 2 ^ 32 → rd32 b (len pre) = Ret v) as Hrd.
  { intros pre v post E Hv. apply rd32_at; [|done]. exists pre, post. by rewrite E. }
  pose proof (Hrd [] FDT_MAGIC _ eq_refl ltac:(done)) as R0.
  pose proof (Hrd (be32 FDT_MAGIC) (56 + len st + len ss) _ eq_refl ltac:(lia)) as R1.
  pose proof (Hrd (be32 FDT_MAGIC ++ be32 (56 + len st + len ss)) 56 _ eq_refl ltac:(lia)) as R2.
  pose proof (Hrd (be32 FDT_MAGIC ++ be32 (56 + len st + len ss) ++ be32 56) (56 + len st) _ eq_refl ltac:(lia)) as R3.
  set (pre3 := be32 FDT_MAGIC ++ be32 (56 + len st + len ss) ++ be32 56 ++ be32 (56 + len st)).
  pose proof (Hrd (pre3 ++ be32 40) 17 _ eq_refl ltac:(lia)) as R5. pose proof (Hrd (pre3 ++ be32 40 ++ be32 17) 16 _ eq_refl ltac:(lia)) as R6.
  pose proof (Hrd (pre3 ++ be32 40 ++ be32 17 ++ be32 16 ++ be32 0) (len ss) _ eq_refl ltac:(lia)) as R8.
  pose proof (Hrd (pre3 ++ be32 40 ++ be32 17 ++ be32 16 ++ be32 0 ++ be32 (len ss)) (len st) _ eq_refl ltac:(lia)) as R9.
  exists (Fdt b 56 (56 + len st) (len st) (len ss)). split_and!; [|split|done].
  - unfold fdt_init. change 0 with (len []) at 1. rewrite R0. unfold mbind, run_bind. change (FDT_MAGIC =? FDT_MAGIC) with true. cbn [negb].
    change H_version with 20. change (rd32 b 20 = Ret 17) in R5. change (rd32 b 24 = Ret 16) in R6. change (rd32 b 4 = Ret (56 + len st + len ss)) in R1.
    change (rd32 b 8 = Ret 56) in R2. change (rd32 b 12 = Ret (56 + len st)) in R3. change (rd32 b 32 = Ret (len ss)) in R8. change (rd32 b 36 = Ret (len st)) in R9.
    change H_last_comp_version with 24. change H_totalsize with 4. change H_off_dt_struct with 8. change H_off_dt_strings with 12.
    change H_size_dt_strings with 32. change H_size_dt_struct with 36. rewrite R5, R6. cbn [Z.ltb Z.compare orb]. rewrite R1, R2, R9, R3, R8.
    rewrite !wrap32_small by lia. by rewrite !(proj2 (Z.ltb_ge _ _)) by lia.
  - done.
  - done.
  - done.
  - cbn [struct_size]. lia.
  - done.
  - cbn [strings_size]. lia.
  - cbn [blob dt_struct]. exists (pre3 ++ be32 40 ++ be32 17 ++ be32 16 ++ be32 0 ++ be32 (len ss) ++ be32 (len st) ++ replicate 16 0), ss. done.
  - cbn [blob dt_strings]. exists (pre3 ++ be32 40 ++ be32 17 ++ be32 16 ++ be32 0 ++ be32 (len ss) ++ be32 (len st) ++ replicate 16 0 ++ st), [].
    rewrite app_nil_r. split; [unfold b, encode; by rewrite <-?(assoc_L (++))|]. unfold pre3. rewrite !len_app. change (len (replicate 16 0)) with 16.
    unfold be32, len. cbn [length]. lia.
Qed.

Lemma sub_suffix d tab full o n p o' n' p' rest :
  sub o n p o' n' p' → holds d tab full → suffix full o (flatten n ++ rest) → ∃ rest', suffix full o' (flatten n' ++ rest').
Proof.
  intros Hsub H. revert rest. induction Hsub as [o n p Hn|o n p ok k o' n' p' Hk _ IH]; intros rest Hs; [by exists rest|].
  destruct (kids_split _ _ _ _ Hk) as (nm & ps & k1 & k2 & -> & _ & ->). rewrite flatten_split in Hs. apply suffix_app in Hs. by eapply IH.
Qed.

Lemma fdt_parent_at d tab root o n p :
  tree_ok tab root → holds d tab (tokens root) → sub 0 root None o n p → fdt_parent d o = Ret (default FDT_ERR_NOTFOUND p).
Proof.
  intros Hok H Hsub. unfold fdt_parent. assert (suffix (tokens root) 0 (flatten root ++ [TFinish])) as Hs by by exists [].
  pose proof (t_height _ _ Hok). pose proof (fuel_enough _ _ _ H _ _ Hs) as Hf. rewrite length_app in Hf.
  eapply (parent_loop_found d tab (tokens root) H _ _ _ _ _ _ Hsub _ _ _ _ [TFinish]); [lia|lia|by rewrite length_replicate|done|done|lia].
Qed.

(** The node after the [i]'th child of a node. *)
Lemma next_sibling_kids d tab full o n rest i ok k :
  holds d tab full → suffix full o (flatten n ++ rest) → kids o n !! i = Some (ok, k) →
  fdt_next_sibling d ok = Ret (first_off (drop (S i) (kids o n))).
Proof.
  intros H. destruct n as [|nm ps ks]; [done|]. cbn [flatten app kids]. rewrite <-!(assoc_L (++)). intros Hs. apply suffix_step, suffix_app in Hs.
  rewrite <-Z.add_assoc, <-size_cons in Hs. cbn [app] in Hs. revert i Hs. generalize (o + size (TBegin nm :: (ptok <$> ps))) as off.
  induction ks as [|[|nm' ps' kk] ks IH]; intros off i Hs Hi; cbn [kids_at flat_map flatten app] in *; [done| |].
  - apply suffix_step in Hs. by apply (IH (off + 4)).
  - change (TBegin nm' :: ?l) with ([TBegin nm'] ++ l) in Hs. change (suffix full off ((flatten (Node nm' ps' kk) ++ flat_map flatten ks) ++ TEnd :: rest)) in Hs.
    rewrite <-(assoc_L (++)) in Hs. destruct i as [|i]; cbn [lookup list_lookup drop] in *.
    + injection Hi as <- _. rewrite drop_0. apply (fdt_next_sibling_at d tab full H _ _ _ _ _ _ _ Hs). by left.
    + apply suffix_app in Hs. by apply IH.
Qed.

(** C22. The functions of fdt.c read back the tree that a blob encodes, for
    every tree of at most [STACK_SIZE] levels, with NOP tokens anywhere between
    properties and nodes: [fdt_init] accepts the blob; [fdt_root] is the root;
    and for every node of the tree, [fdt_parent] gives the node above it, the
    name is at [fdt_node_name], [fdt_first_child] and [fdt_next_sibling]
    enumerate its children in order, and [fdt_getprop] finds the value of the
    first property with a name or finds that there is none.  A path leads to
    the node that its components lead to in the tree, a component without a
    unit address matching also a name with one.  No read leaves the blob and no
    loop runs out of its fuel. *)
Theorem fdt_tree_correct tab root :
  tree_ok tab root → ∃ d, fdt_init (Some (encode tab root)) = Ret (inr d) ∧ fdt_root d = Ret 0 ∧
    (∀ o n p, sub 0 root None o n p → ∃ nm ps ks, n = Node nm ps ks ∧
       fdt_parent d o = Ret (default FDT_ERR_NOTFOUND p) ∧
       (∃ a, fdt_node_name d o = Some a ∧ at_ (encode tab root) a (nm ++ [0])) ∧
       fdt_first_child d o = Ret (first_off (kids o n)) ∧
       (∀ i ok k, kids o n !! i = Some (ok, k) → fdt_next_sibling d ok = Ret (first_off (drop (S i) (kids o n)))) ∧
       (∀ name, cstr name → prop_found d (prop_value ps name) (fdt_getprop d o name))) ∧
    (∀ comps, comps ≠ [] → Forall comp_ok comps → fdt_path_offset 1 d (join comps) = Ret (lookup_path comps 0 root)).
Proof.
  intros Hok. destruct (fdt_init_encode tab root Hok) as (d & Ed & H & Eb). exists d. split; [done|].
  assert (suffix (tokens root) 0 (flatten root ++ [TFinish])) as Hs by by exists [].
  assert (fdt_root d = Ret 0) as Er.
  { pose proof (t_root _ _ Hok). destruct root as [|nm ps ks]; [done|]. unfold fdt_root. destruct (FUEL d) eqn:Ef; [done|]. cbn [root_loop].
    rewrite (proj2 (Z.ltb_ge 0 0)) by done. cbn [flatten app] in Hs. by rewrite (next_token_at _ _ _ H _ _ _ _ Hs). }
  split; [done|split].
  - intros o n p Hsub. destruct (sub_range _ _ _ _ _ _ Hsub) as (R & _ & Hn). destruct (sub_suffix _ _ _ _ _ _ _ _ _ _ Hsub H Hs) as (rest & Hs').
    destruct n as [|nm ps ks]; [done|]. exists nm, ps, ks. split_and!; [done| | | | |].
    + by eapply fdt_parent_at.
    + unfold fdt_node_name. rewrite (proj2 (Z.ltb_ge o 0)) by done. eexists. split; [done|]. rewrite <-Eb. cbn [flatten app] in Hs'.
      destruct (suffix_tok _ _ _ H _ _ _ Hs') as [_ Ha]. unfold enc_tok in Ha. apply at_app in Ha as [_ Ha]. unfold pad in Ha. by apply at_app in Ha as [Ha _].
    + by eapply fdt_first_child_at.
    + intros i ok k Hi. by eapply next_sibling_kids.
    + intros name Hname. by eapply fdt_getprop_at.
  - intros comps Hne Hc. cbn [fdt_path_offset]. rewrite Er. unfold mbind, run_bind. destruct comps as [|c cs]; [done|].
    change (hd 0 (join (c :: cs))) with SLASH. rewrite Z.eqb_refl. cbn [negb]. apply (path_loop_at d tab _ H _ _ _ _ _ Hs (t_root _ _ Hok) Hc).
    pose proof (length_join (c :: cs)). lia.
Qed.

(** A small tree: a root with a memory node and a chosen node that has a NOP
    among its properties. *)
Definition ex_tab : list (list Z) := [str "#size-cells"; str "reg"; str "bootargs"; str "device_type"].
Definition ex_tree : dnode :=
  Node [] [Some (str "#size-cells", be32 2)]
    [Node (str "memory@40000000") [Some (str "device_type", str "memory" ++ [0]); Some (str "reg", be32 0 ++ be32 0x40000000 ++ be32 0 ++ be32 0x8000000)] [];
     Nop;
     Node (str "chosen") [None; Some (str "bootargs", str "quiet" ++ [0])] []].

Lemma ex_tree_ok : tree_ok ex_tab ex_tree.
Proof.
  assert (∀ l : list Z, forallb (λ x, (0 <? x) && (x <? 256)) l = true → cstr l) as Hc.
  { intros l Hl. apply Forall_forall. intros x Hx. rewrite forallb_forall in Hl. specialize (Hl x (proj1 (list_elem_of_In _ _) Hx)). zbool. lia. }
  assert (∀ l : list Z, forallb (λ x, (0 <=? x) && (x <? 256)) l = true → bytes l) as Hb.
  { intros l Hl. apply Forall_forall. intros x Hx. rewrite forallb_forall in Hl. specialize (Hl x (proj1 (list_elem_of_In _ _) Hx)). zbool. lia. }
  split; [done| | |done|done].
  - repeat constructor; by apply Hc.
  - repeat (apply Forall_cons; split); try exact I; try (by apply Hc); try constructor; try (by apply Hb); set_solver.
Qed.

Definition ex_fdt : fdt := match fdt_init (Some (encode ex_tab ex_tree)) with Ret (inr d) => d | _ => Fdt [] 0 0 0 0 end.

Lemma fdt_tree_witness :
  fdt_init (Some (encode ex_tab ex_tree)) = Ret (inr ex_fdt) ∧
    fdt_path_offset 1 ex_fdt (join [str "memory"]) = Ret 24 ∧ fdt_parent ex_fdt 24 = Ret 0 ∧
    fdt_for_each_memory ex_fdt = Ret [(0x40000000, 0x8000000)] ∧
    (∃ a, fdt_bootargs ex_fdt = Ret (Some a) ∧ cstring 10 (blob ex_fdt) a = Ret (str "quiet")).
Proof.
  destruct (fdt_tree_correct ex_tab ex_tree ex_tree_ok) as (d & E & _ & _ & Hp).
  assert (fdt_init (Some (encode ex_tab ex_tree)) = Ret (inr ex_fdt)) as E' by (vm_compute; reflexivity).
  rewrite E' in E. injection E as <-. split; [exact E'|]. split.
  { rewrite (Hp [str "memory"]); [vm_compute; reflexivity|done|]. constructor; [|constructor]. split; [done|].
    split; [repeat constructor|]. apply (bool_decide_unpack (SLASH ∉ str "memory")). vm_compute. done. }
  split; [vm_compute; reflexivity|]. split; [vm_compute; reflexivity|]. eexists. split; vm_compute; reflexivity.
Defined.

(** A blob with an empty string table and the structure block [st]. *)
Definition truncated (st : list Z) : list Z :=
  be32 FDT_MAGIC ++ be32 (40 + len st) ++ be32 40 ++ be32 40 ++ be32 40 ++ be32 17 ++ be32 16 ++ be32 0 ++ be32 0 ++ be32 (len st) ++ st.

(** [next_token] leaves the caller's token variable alone when it fails,
    and the loops look at the variable without testing the result.  With a
    structure block that ends right after the name of the root, a blob that
    [fdt_init] accepts, [fdt_first_child] takes the root's own token for that
    of a child and returns the end of the block as a node, and a path lookup
    reads the child's name outside the blob; with an empty structure block
    [fdt_root] uses a variable that was never set. *)
Theorem fdt_truncated_unsafe :
  ∃ d d0, fdt_init (Some (truncated (be32 FDT_BEGIN_NODE ++ [0; 0; 0; 0]))) = Ret (inr d) ∧ fdt_init (Some (truncated [])) = Ret (inr d0) ∧
    fdt_root d = Ret 0 ∧ fdt_first_child d 0 = Ret (struct_size d) ∧ fdt_path_offset 1 d (str "/chosen") = Undef ∧ fdt_root d0 = Undef.
Proof. eexists _, _. split; [vm_compute; reflexivity|]. split; [vm_compute; reflexivity|]. repeat split; vm_compute; reflexivity. Qed.
