(* ===== verification/Wait.v ===== *)
(** * Wait queues, completions and mutexes: src/kernel/wait.c

    What this code needs of the scheduler is the class [Scheduler]; the
    scheduler of Sched.v is an instance.  The loop of the [wait_event] macros of
    include/olux/wait.h around a mutex is a machine with one action for every
    step of a thread between two points where other threads may run. *)

From stdpp Require Import functions.
From S2P Require Import Prelude Sched SchedSpec.

(** ** What wait queues need of the scheduler *)

Class Scheduler (S : Type) := {
  st : S → Z → Z;
  set_st : S → Z → Z → S;
  wake : S → Z → Z → S * bool;
  st_set s t v u : st (set_st s t v) u = if decide (u = t) then v else st s u;
  wake_result s t m : (wake s t m).2 = negb (Z.land (st s t) m =? 0);
  st_wake s t m u : st (wake s t m).1 u = if decide (u = t ∧ (wake s t m).2 = true) then TASK_RUNNING else st s u;
}.

Lemma state_activate s t u : state (thr (activate s t) u) = state (thr s u).
Proof.
  unfold activate, activate_on. set (s1 := enqueue _ _ _ _). assert (state (thr s1 u) = state (thr s u)) as E.
  { unfold s1, enqueue. rewrite thr_upd. case_decide; [subst; done|done]. }
  by case_match.
Qed.

Lemma state_set s t v u : state (thr (upd_thr s t (set_state v)) u) = if decide (u = t) then v else state (thr s u).
Proof. rewrite thr_upd. by case_decide. Qed.

Lemma wake_flag s t m : (try_to_wake_up s t m).2 = negb (Z.land (state (thr s t)) m =? 0).
Proof. rewrite try_to_wake_up_eq. case_match; [done|]. cbn zeta. by case_match. Qed.

Lemma state_wake s t m u :
  state (thr (try_to_wake_up s t m).1 u) = if decide (u = t ∧ (try_to_wake_up s t m).2 = true) then TASK_RUNNING else state (thr s u).
Proof.
  rewrite try_to_wake_up_eq. destruct (_ =? 0); cbn [fst snd]; [by rewrite decide_False by naive_solver|]. set (s1 := upd_thr s t _).
  assert (state (thr s1 u) = if decide (u = t) then TASK_RUNNING else state (thr s u)) as E by apply state_set.
  destruct (_ || _); cbn [fst snd]; rewrite ?state_activate, E; repeat case_decide; naive_solver.
Qed.

#[export] Instance sched_scheduler : Scheduler sys := {|
  st s t := state (thr s t);
  set_st s t v := upd_thr s t (set_state v);
  wake := try_to_wake_up;
  st_set := state_set;
  wake_result := wake_flag;
  st_wake := state_wake;
|}.

Definition WAKE_MASK : Z := Z.lor TASK_INTERRUPTIBLE TASK_UNINTERRUPTIBLE.

Section wait.
  Context {S : Type} `{!Scheduler S}.

(** ** Wait queues: the threads of the waiters, in order

    A waiter belongs to the call of the thread that waits, so the thread stands
    for it. *)

Definition prepare_to_wait (s : S) (q : list Z) (t v : Z) : S * list Z :=
  (set_st s t v, if bool_decide (t ∈ q) then q else q ++ [t]).

Definition finish_wait (s : S) (q : list Z) (t : Z) : S * list Z :=
  (set_st s t TASK_RUNNING, list_del t q).

Definition wake_up (s : S) (q : list Z) : S := foldl (λ s t, (wake s t WAKE_MASK).1) s q.

Fixpoint wake_up_one (s : S) (q : list Z) : S :=
  match q with
  | [] => s
  | t :: q => let '(s, b) := wake s t WAKE_MASK in if (b : bool) then s else wake_up_one s q
  end.

Definition wq_has_waiters (q : list Z) : bool := match q with [] => false | _ => true end.

(** ** Completions: the counter and the queue *)

Definition COMPLETED : Z := 2 ^ 30.
Definition init_completion : Z * list Z := (0, []).
Definition complete (s : S) (done : Z) (q : list Z) : S * Z := (wake_up_one s q, Prelude.wrap32 (done + 1)).
Definition complete_all (s : S) (q : list Z) : S * Z := (wake_up s q, COMPLETED).
Definition try_consume (done : Z) : Z * bool :=
  if 0 <? done then (if done <? COMPLETED then done - 1 else done, true) else (done, false).

(** ** Mutexes *)

(** Where a thread is.  The flag of the first ones says whether the call is
    [mutex_lock_interruptible]; that of [Fin] whether it got the mutex. *)
Inductive point : Type :=
| Idle
| Prep (int : bool)
| Test (int : bool)
| Check
| Block (int : bool)
| Fin (ok : bool)
| Held
| Wake.

Record msys : Type := Msys { sch : S; wq : list Z; owner : option Z; at_ : Z → point }.

Definition mutex_init (s : S) : msys := Msys s [] None (λ _, Idle).

Definition mutex_try (o : option Z) (t : Z) : option Z * bool := match o with None => (Some t, true) | Some _ => (o, false) end.

(** [Sig] reads whether a signal is pending; [Signal] is the wake-up that the
    sender of a signal does. *)
Inductive action : Type :=
| ALock (t : Z) (int : bool)
| APrepare (t : Z)
| ATest (t : Z)
| ASig (t : Z) (pending : bool)
| AResume (t : Z)
| AFinish (t : Z)
| AUnlock (t : Z)
| AWakeup (t : Z)
| ASignal (t : Z).

Definition sleep_state (int : bool) : Z := if int then TASK_INTERRUPTIBLE else TASK_UNINTERRUPTIBLE.

Definition goto (x : msys) (t : Z) (p : point) : msys := Msys (sch x) (wq x) (owner x) (<[t := p]> (at_ x)).

Definition act (x : msys) (a : action) : option msys :=
  match a with
  | ALock t int => match at_ x t with Idle => Some (goto x t (Prep int)) | _ => None end
  | APrepare t =>
      match at_ x t with
      | Prep int => let '(s, q) := prepare_to_wait (sch x) (wq x) t (sleep_state int) in Some (goto (Msys s q (owner x) (at_ x)) t (Test int))
      | _ => None
      end
  | ATest t =>
      match at_ x t with
      | Test int =>
          let '(o, ok) := mutex_try (owner x) t in
          Some (goto (Msys (sch x) (wq x) o (at_ x)) t (if (ok : bool) then Fin true else if (int : bool) then Check else Block false))
      | _ => None
      end
  | ASig t pending => match at_ x t with Check => Some (goto x t (if (pending : bool) then Fin false else Block true)) | _ => None end
  | AResume t => match at_ x t with Block int => if st (sch x) t =? TASK_RUNNING then Some (goto x t (Prep int)) else None | _ => None end
  | AFinish t =>
      match at_ x t with
      | Fin ok => let '(s, q) := finish_wait (sch x) (wq x) t in Some (goto (Msys s q (owner x) (at_ x)) t (if (ok : bool) then Held else Idle))
      | _ => None
      end
  | AUnlock t => match at_ x t with Held => Some (goto (Msys (sch x) (wq x) None (at_ x)) t Wake) | _ => None end
  | AWakeup t => match at_ x t with Wake => Some (goto (Msys (wake_up_one (sch x) (wq x)) (wq x) (owner x) (at_ x)) t Idle) | _ => None end
  | ASignal t => Some (Msys (wake (sch x) t TASK_INTERRUPTIBLE).1 (wq x) (owner x) (at_ x))
  end.

Fixpoint acts (x : msys) (l : list action) : option msys :=
  match l with [] => Some x | a :: l => match act x a with None => None | Some x => acts x l end end.

(** ** Invariant *)

Definition queued (p : point) : bool := match p with Test _ | Check | Block _ | Fin _ => true | _ => false end.
Definition owns (p : point) : bool := match p with Fin true | Held => true | _ => false end.

Record mutex_ok (x : msys) : Prop := {
  mo_owner t : owner x = Some t ↔ owns (at_ x t) = true;
  mo_queued t : queued (at_ x t) = true → t ∈ wq x;
  mo_points t : t ∈ wq x → queued (at_ x t) = true ∨ ∃ int, at_ x t = Prep int;
  mo_nodup : NoDup (wq x);
  mo_running t : queued (at_ x t) = false → st (sch x) t = TASK_RUNNING;
  mo_states t : st (sch x) t = TASK_RUNNING ∨ ∃ int, st (sch x) t = sleep_state int;
}.

(** A thread that is about to test the mutex or to wake up another one. *)
Definition will_act (x : msys) (t : Z) : Prop :=
  at_ x t = Wake ∨ (∃ int, at_ x t = Prep int ∨ at_ x t = Test int ∨ (at_ x t = Block int ∧ st (sch x) t = TASK_RUNNING)).
Definition asleep (x : msys) (t : Z) : Prop := (∃ int, at_ x t = Block int) ∧ st (sch x) t ≠ TASK_RUNNING.
Definition not_lost (x : msys) : Prop := owner x = None → (∃ t, asleep x t) → ∃ u, will_act x u.
(** All calls are [mutex_lock]. *)
Definition plain_point (p : point) : bool := match p with Prep true | Test true | Check | Block true | Fin false => false | _ => true end.
Definition plain (x : msys) : Prop := ∀ t, plain_point (at_ x t) = true.
Definition plain_action (a : action) : Prop := match a with ALock _ true => False | _ => True end.

(** *** Preservation *)

Lemma at_goto x t p u : at_ (goto x t p) u = if decide (u = t) then p else at_ x u.
Proof. unfold goto. cbn [at_]. case_decide; [subst; by rewrite fn_lookup_insert|by rewrite fn_lookup_insert_ne]. Qed.

(** The first waiter that sleeps is woken, or none sleeps. *)
Lemma wake_up_one_spec s q :
  ((∀ t, t ∈ q → Z.land (st s t) WAKE_MASK = 0) ∧ ∀ u, st (wake_up_one s q) u = st s u) ∨
  (∃ t, t ∈ q ∧ Z.land (st s t) WAKE_MASK ≠ 0 ∧ ∀ u, st (wake_up_one s q) u = if decide (u = t) then TASK_RUNNING else st s u).
Proof.
  revert s. induction q as [|t q IH]; intros s; cbn [wake_up_one]; [left; split; [intros t Ht; by apply elem_of_nil in Ht|done]|].
  pose proof (wake_result s t WAKE_MASK) as Hr. pose proof (st_wake s t WAKE_MASK) as Hw. destruct (wake s t WAKE_MASK) as [s' b]. cbn [fst snd] in *.
  destruct b.
  - right. exists t. split; [by left|]. split; [destruct (_ =? 0) eqn:E; [done|by apply Z.eqb_neq]|]. intros u. rewrite Hw. repeat case_decide; naive_solver.
  - assert (∀ u, st s' u = st s u) as Hw' by (intros u; rewrite Hw; by rewrite decide_False by naive_solver).
    assert (Z.land (st s t) WAKE_MASK = 0) as H0 by (destruct (_ =? 0) eqn:E; [by apply Z.eqb_eq|done]).
    destruct (IH s') as [[H1 H2]|(x & Hx & H1 & H2)].
    + left. split; [|intros u; by rewrite H2, Hw']. intros u [->|Hu]%elem_of_cons; [done|]. rewrite <-Hw'. by apply H1.
    + right. exists x. split; [by right|]. rewrite <-Hw'. split; [done|]. intros u. by rewrite H2, Hw'.
Qed.

(** Waking a thread keeps the invariant. *)
Lemma mutex_ok_woken x s' v :
  mutex_ok x → (∀ u, st s' u = st (sch x) u ∨ (u = v ∧ st s' u = TASK_RUNNING)) → mutex_ok (Msys s' (wq x) (owner x) (at_ x)).
Proof.
  intros [H1 H2 H3 H4 H5 H6] Hw. split; cbn [sch wq owner at_]; try done.
  - intros t Ht. destruct (Hw t) as [-> |[_ ->]]; [by apply H5|done].
  - intros t. destruct (Hw t) as [-> |[_ ->]]; [by apply H6|by left].
Qed.

(** A thread moves between points of the same kind. *)
Lemma mutex_ok_goto x t p :
  mutex_ok x → owns p = owns (at_ x t) → (queued p = true → t ∈ wq x) → (t ∈ wq x → queued p = true ∨ ∃ int, p = Prep int) →
  (queued p = false → st (sch x) t = TASK_RUNNING) → mutex_ok (goto x t p).
Proof.
  intros [H1 H2 H3 H4 H5 H6] Ho Hq Hp Hs. split; try done; intros u; rewrite ?at_goto; cbn [goto sch wq owner] in *; case_decide as E; try (subst u); auto.
  rewrite Ho. apply H1.
Qed.

Lemma prepare_ok x t int :
  mutex_ok x → at_ x t = Prep int →
  mutex_ok (goto (Msys (set_st (sch x) t (sleep_state int)) (if bool_decide (t ∈ wq x) then wq x else wq x ++ [t]) (owner x) (at_ x)) t (Test int)).
Proof.
  intros [H1 H2 H3 H4 H5 H6] Ht. set (q := if bool_decide _ then _ else _).
  assert (∀ u, u ∈ q ↔ u = t ∨ u ∈ wq x) as Hq.
  { intros u. unfold q. case_bool_decide; [split; [by right|by intros [->|?]]|]. rewrite elem_of_app, list_elem_of_singleton. tauto. }
  split; try intros u; rewrite ?at_goto; cbn [goto sch wq owner]; rewrite ?st_set, ?Hq.
  - case_decide as E; [subst u|by apply H1]. rewrite H1, Ht. done.
  - case_decide as E; [by left|]. intros Hu. right. by apply H2.
  - case_decide as E; [by left|]. intros [->|Hu]; [done|by apply H3].
  - unfold q. case_bool_decide as E; [done|]. apply NoDup_app. split; [done|]. split; [|apply NoDup_singleton].
    intros u Hu Hu'. apply list_elem_of_singleton in Hu' as ->. done.
  - case_decide as E; [done|]. by apply H5.
  - case_decide as E; [right; by exists int|]. by apply H6.
Qed.

Lemma finish_ok x t ok :
  mutex_ok x → at_ x t = Fin ok →
  mutex_ok (goto (Msys (set_st (sch x) t TASK_RUNNING) (list_del t (wq x)) (owner x) (at_ x)) t (if ok then Held else Idle)).
Proof.
  intros [H1 H2 H3 H4 H5 H6] Ht. assert (∀ u, u ∈ list_del t (wq x) ↔ u ∈ wq x ∧ u ≠ t) as Hq.
  { intros u. unfold list_del. rewrite list_elem_of_filter. tauto. }
  split; try intros u; rewrite ?at_goto; cbn [goto sch wq owner]; rewrite ?st_set, ?Hq.
  - case_decide as E; [subst u|by apply H1]. rewrite H1, Ht. by destruct ok.
  - case_decide as E; [by destruct ok|]. intros Hu. split; [by apply H2|done].
  - intros [Hu Hne]. rewrite decide_False by done. by apply H3.
  - by apply NoDup_filter.
  - case_decide as E; [done|]. by apply H5.
  - case_decide as E; [by left|]. by apply H6.
Qed.

Lemma owner_ok x t o p :
  mutex_ok x → queued p = queued (at_ x t) → (∀ int, at_ x t ≠ Prep int) →
  (o = Some t ∧ owner x = None ∧ owns p = true ∨ o = None ∧ owner x = Some t ∧ owns p = false) →
  mutex_ok (goto (Msys (sch x) (wq x) o (at_ x)) t p).
Proof.
  intros [H1 H2 H3 H4 H5 H6] Hq Hnp Ho. split; try intros u; rewrite ?at_goto; cbn [goto sch wq owner]; try done.
  - case_decide as E; [subst u; by destruct Ho as [(-> & _ & ->)|(-> & _ & ->)]|]. pose proof (H1 u) as Hu. destruct Ho as [(-> & Ho & _)|(-> & Ho & _)]; rewrite Ho in Hu.
    + split; [intros [= ->]; done|]. intros Hx. by apply Hu in Hx.
    + split; [done|]. intros Hx. apply Hu in Hx as [= ->]. done.
  - case_decide as E; [subst u; rewrite Hq|]; apply H2.
  - intros Hu. destruct (H3 u Hu) as [Hx|[int Hx]]; case_decide as E; [subst u; left; by rewrite Hq|by left|subst u; by destruct (Hnp int)|right; by exists int].
  - case_decide as E; [subst u; rewrite Hq|]; apply H5.
Qed.

Lemma act_ok x a x' : mutex_ok x → act x a = Some x' → mutex_ok x'.
Proof.
  intros H Ha. pose proof (mo_queued _ H) as Hq. pose proof (mo_points _ H) as Hp. pose proof (mo_running _ H) as Hr. pose proof (mo_owner _ H) as Ho.
  destruct a as [t int|t|t|t pending|t|t|t|t|t]; cbn [act] in Ha.
  - destruct (at_ x t) eqn:E; try done. injection Ha as <-. apply mutex_ok_goto; rewrite ?E; [done|done|done|intros _; right; by exists int|intros _; apply Hr; by rewrite E].
  - destruct (at_ x t) as [|int| | | | | |] eqn:E; try done. injection Ha as <-. by apply prepare_ok.
  - destruct (at_ x t) as [| |int| | | | |] eqn:E; try done. unfold mutex_try in Ha. destruct (owner x) as [o|] eqn:Eo; injection Ha as <-.
    + assert (Msys (sch x) (wq x) (Some o) (at_ x) = x) as -> by (destruct x; cbn in *; by subst).
      apply mutex_ok_goto; rewrite ?E; try done; destruct int; try done; intros _; try (by left); apply Hq; by rewrite E.
    + apply owner_ok; rewrite ?E; try done. by left.
  - destruct (at_ x t) eqn:E; try done. injection Ha as <-. apply mutex_ok_goto; rewrite ?E; try done; destruct pending; try done; intros _; try (by left); apply Hq; by rewrite E.
  - destruct (at_ x t) as [| | | |int| | |] eqn:E; try done. destruct (st (sch x) t =? TASK_RUNNING) eqn:Es; [|done]. injection Ha as <-. zbool.
    apply mutex_ok_goto; rewrite ?E; [done|done|done|intros _; right; by exists int|done].
  - destruct (at_ x t) as [| | | | |ok| |] eqn:E; try done. injection Ha as <-. by apply finish_ok.
  - destruct (at_ x t) eqn:E; try done. injection Ha as <-. apply owner_ok; rewrite ?E; try done. right. split_and!; try done. apply Ho. by rewrite E.
  - destruct (at_ x t) eqn:E; try done. injection Ha as <-. apply mutex_ok_goto; cbn [at_ wq sch]; rewrite ?E; try done.
    + destruct (wake_up_one_spec (sch x) (wq x)) as [[_ Hw]|(v & _ & _ & Hw)].
      * apply (mutex_ok_woken x _ 0 H). intros u. left. apply Hw.
      * apply (mutex_ok_woken x _ v H). intros u. rewrite Hw. case_decide; [by right|by left].
    + intros Hin. apply Hp in Hin. rewrite E in Hin. by destruct Hin as [?|[? ?]].
    + intros _. assert (st (sch x) t = TASK_RUNNING) as Hrt by (apply Hr; by rewrite E).
      destruct (wake_up_one_spec (sch x) (wq x)) as [[_ Hw]|(v & _ & _ & Hw)]; rewrite Hw; [done|]. by case_decide.
  - injection Ha as <-. apply (mutex_ok_woken x _ t H). intros u. rewrite st_wake. case_decide; [right; naive_solver|by left].
Qed.

(** *** Wake-ups are not lost *)

Lemma act_plain x a x' : plain x → plain_action a → act x a = Some x' → plain x'.
Proof.
  intros H Hp Ha u. pose proof (H u) as Hu. assert (∀ y t p, at_ y = at_ x → plain_point p = true → plain_point (at_ (goto y t p) u) = true) as Hg.
  { intros y t p Ey Hpp. rewrite at_goto, Ey. by case_decide. }
  destruct a as [t int|t|t|t pending|t|t|t|t|t]; cbn [act] in Ha; [pose proof (H t) as Ht; destruct (at_ x t) as [|i|i| |i|ok| |] eqn:E; try done..|].
  - injection Ha as <-. apply Hg; [done|]. by destruct int.
  - injection Ha as <-. apply Hg; [done|]. by destruct i.
  - unfold mutex_try in Ha. destruct (owner x), i; injection Ha as <-; by apply Hg.
  - destruct (_ =? _); [|done]. injection Ha as <-. apply Hg; [done|]. by destruct i.
  - injection Ha as <-. apply Hg; [done|]. by destruct ok.
  - injection Ha as <-. by apply Hg.
  - injection Ha as <-. by apply Hg.
  - by injection Ha as <-.
Qed.

Lemma wakes_one x t :
  mutex_ok x → plain x → owner x = None → at_ x t = Wake → (∃ v, asleep x v) →
  let x' := goto (Msys (wake_up_one (sch x) (wq x)) (wq x) (owner x) (at_ x)) t Idle in ∃ u, will_act x' u.
Proof.
  intros H Hp Ho Ht (v & [int Hv] & Hs). cbn zeta. destruct (wake_up_one_spec (sch x) (wq x)) as [[H0 _]|(u & Hu & Hl & Hw)].
  - exfalso. assert (v ∈ wq x) as Hin by (apply (mo_queued _ H); by rewrite Hv). specialize (H0 v Hin).
    destruct (mo_states _ H v) as [E|[i E]]; [done|]. rewrite E in H0. by destruct i.
  - exists u. assert (queued (at_ x u) = true) as Hq.
    { destruct (queued (at_ x u)) eqn:E; [done|]. rewrite (mo_running _ H u E) in Hl. done. }
    assert (u ≠ t) as Hne by (intros ->; by rewrite Ht in Hq). unfold will_act. rewrite at_goto, decide_False by done. cbn [at_ goto sch].
    rewrite Hw, decide_True by done. right. pose proof (Hp u) as Hpu. destruct (at_ x u) as [| |i| |i|[]| |] eqn:E; try done.
    + exists i. by right; left.
    + exists i. by right; right.
    + assert (owner x = Some u) by (apply (mo_owner _ H); by rewrite E). congruence.
Qed.

Lemma act_not_lost x a x' : mutex_ok x → plain x → not_lost x → act x a = Some x' → not_lost x'.
Proof.
  intros H Hp Hl Ha Ho [v Hv]. destruct a as [t int|t|t|t pending|t|t|t|t|t]; cbn [act] in Ha.
  - destruct (at_ x t) eqn:E; try done. injection Ha as <-. exists t. right. exists int. left. by rewrite at_goto, decide_True.
  - destruct (at_ x t) as [|int| | | | | |] eqn:E; try done. injection Ha as <-. exists t. right. exists int. right. left. by rewrite at_goto, decide_True.
  - destruct (at_ x t) as [| |int| | | | |] eqn:E; try done. unfold mutex_try in Ha. by destruct (owner x) as [o|] eqn:Eo; injection Ha as <-.
  - pose proof (Hp t) as Hpt. by destruct (at_ x t) eqn:E.
  - destruct (at_ x t) as [| | | |int| | |] eqn:E; try done. destruct (_ =? _); [|done]. injection Ha as <-.
    exists t. right. exists int. left. by rewrite at_goto, decide_True.
  - pose proof (Hp t) as Hpt. destruct (at_ x t) as [| | | | |[]| |] eqn:E; try done. injection Ha as <-. cbn [goto owner] in Ho.
    assert (owner x = Some t) by (apply (mo_owner _ H); by rewrite E). congruence.
  - destruct (at_ x t) eqn:E; try done. injection Ha as <-. exists t. left. by rewrite at_goto, decide_True.
  - destruct (at_ x t) eqn:E; try done. injection Ha as <-. apply wakes_one; try done. exists v.
    destruct Hv as [[int Hv] Hs]. rewrite at_goto in Hv. destruct (decide (v = t)) as [->|Hne]; [done|]. split; [by exists int|].
    intros Hr. apply Hs. cbn [goto sch]. destruct (wake_up_one_spec (sch x) (wq x)) as [[_ Hw]|(u & _ & _ & Hw)]; rewrite Hw; [done|by case_decide].
  - injection Ha as <-. assert (∀ u, st (sch x) u = TASK_RUNNING → st (wake (sch x) t TASK_INTERRUPTIBLE).1 u = TASK_RUNNING) as Hr
      by (intros u Hu; rewrite st_wake; by case_decide).
    destruct Hl as [u Hu]; [done|exists v; split; [apply Hv|intros Hx; by apply (proj2 Hv), Hr]|].
    exists u. destruct Hu as [Hu|[int [Hu|[Hu|[Hu Hs]]]]]; [by left|right; exists int..]; cbn [at_ sch]; auto.
Qed.

Lemma acts_ok x l x' : mutex_ok x → acts x l = Some x' → mutex_ok x'.
Proof.
  revert x. induction l as [|a l IH]; intros x H Hl; cbn [acts] in Hl; [by injection Hl as <-|].
  destruct (act x a) as [y|] eqn:E; [|done]. apply (IH y); [by apply (act_ok x a)|done].
Qed.

Lemma acts_not_lost x l x' :
  mutex_ok x → plain x → not_lost x → Forall plain_action l → acts x l = Some x' → not_lost x'.
Proof.
  revert x. induction l as [|a l IH]; intros x H Hp Hn Hf Hl; cbn [acts] in Hl; [by injection Hl as <-|].
  apply Forall_cons in Hf as [Hfa Hf]. destruct (act x a) as [y|] eqn:E; [|done].
  apply (IH y); [by apply (act_ok x a)|by apply (act_plain x a)|by apply (act_not_lost x a)|done|done].
Qed.

Lemma mutex_init_ok s : (∀ t, st s t = TASK_RUNNING) → mutex_ok (mutex_init s).
Proof.
  intros Hs. split; cbn [mutex_init owner at_ wq sch]; try done.
  - intros t Ht. by apply elem_of_nil in Ht.
  - constructor.
  - intros t. by left.
Qed.
End wait.

(** C23. A mutex over any scheduler that wakes threads as [Scheduler] says,
    for any interleaving of the steps of any number of threads, starting with
    all of them running: the mutex is owned by at most one thread, exactly the
    one between the success of its test and its unlock; every thread that waits
    is in the queue, once.  When all calls are [mutex_lock], no wake-up is
    lost: whenever the mutex is free while a thread sleeps on it, some thread is
    about to test the mutex or to wake one up. *)
Theorem mutex_correct {S} `{!Scheduler S} (s : S) l x :
  (∀ t, st s t = TASK_RUNNING) → acts (mutex_init s) l = Some x →
  (∀ t u, owns (at_ x t) = true → owns (at_ x u) = true → t = u) ∧
  (∀ t, owner x = Some t ↔ owns (at_ x t) = true) ∧
  NoDup (wq x) ∧ (∀ t, queued (at_ x t) = true → t ∈ wq x) ∧
  (Forall plain_action l → owner x = None → (∃ t, asleep x t) → ∃ u, will_act x u).
Proof.
  intros Hs Hl. pose proof (mutex_init_ok s Hs) as H0. pose proof (acts_ok _ _ _ H0 Hl) as H. split_and!.
  - intros t u Ht Hu. apply (mo_owner _ H) in Ht. apply (mo_owner _ H) in Hu. congruence.
  - apply (mo_owner _ H).
  - apply (mo_nodup _ H).
  - apply (mo_queued _ H).
  - intros Hf. apply (acts_not_lost (mutex_init s) l); try done. intros _ [t [[int Ht] _]]. done.
Qed.

(** Two CPUs and three runnable threads; threads 10 and 11 take the mutex in
    turn while 12 waits. *)
Definition ex_sys : sys := foldl (λ s t, sched_add_new (thread_alloc s 0 t) t) (boot 2) [10; 11; 12].
Definition ex_lock : list action :=
  [ALock 10 false; APrepare 10; ATest 10; AFinish 10; ALock 12 false; APrepare 12; ATest 12; AUnlock 10; AWakeup 10; AResume 12].

Lemma ex_sys_running t : st ex_sys t = TASK_RUNNING.
Proof.
  assert (∀ s u, (∀ v, state (thr s v) = TASK_RUNNING) → ∀ v, state (thr (sched_add_new (thread_alloc s 0 u) u) v) = TASK_RUNNING) as Hstep.
  { intros s u Hs v. unfold sched_add_new. rewrite state_activate, state_set. case_decide as E; [done|]. unfold thread_alloc. cbn [thr].
    rewrite thr_upd, decide_False by done. apply Hs. }
  destruct (boot_fields 2) as (_ & _ & Hb); [lia|]. change (state (thr ex_sys t) = TASK_RUNNING). unfold ex_sys. cbn [foldl].
  do 3 apply Hstep. intros v. rewrite Hb. by case_decide.
Qed.

Lemma mutex_witness : ∃ x, acts (mutex_init ex_sys) ex_lock = Some x ∧ owner x = None ∧ at_ x 12 = Prep false ∧ wq x = [12] ∧ NoDup (wq x).
Proof.
  destruct (acts (mutex_init ex_sys) ex_lock) as [x|] eqn:E.
  - destruct (mutex_correct ex_sys ex_lock x ex_sys_running E) as (_ & _ & H & _). exists x. split; [reflexivity|].
    assert (match acts (mutex_init ex_sys) ex_lock with Some x => (owner x, at_ x 12, wq x) | None => (None, Idle, []) end = (None, Prep false, [12]))
      as Hc by (vm_compute; reflexivity).
    rewrite E in Hc. injection Hc as H1 H2 H3. split; [exact H1|]. split; [exact H2|]. split; [exact H3|exact H].
  - exfalso. assert (match acts (mutex_init ex_sys) ex_lock with Some _ => true | None => false end = true) as Hc by (vm_compute; reflexivity).
    rewrite E in Hc. exact (diff_false_true Hc).
Defined.

Definition actor (a : action) : Z :=
  match a with ALock t _ | APrepare t | ATest t | ASig t _ | AResume t | AFinish t | AUnlock t | AWakeup t | ASignal t => t end.

Lemma acts_other {S} `{!Scheduler S} (x : msys (S := S)) l x' t :
  acts x l = Some x' → Forall (λ a, actor a ≠ t) l → at_ x' t = at_ x t.
Proof.
  revert x. induction l as [|a l IH]; intros x Hl Hf; cbn [acts] in Hl; [by injection Hl as <-|]. apply Forall_cons in Hf as [Ha Hf].
  destruct (act x a) as [y|] eqn:E; [|done]. rewrite (IH y Hl Hf). clear - E Ha.
  destruct a as [u int|u|u|u pending|u|u|u|u|u]; cbn [act actor] in *; [destruct (at_ x u) eqn:Eu; try done..|by injection E as <-].
  all: unfold mutex_try in E; repeat case_match; simplify_eq; by rewrite at_goto, decide_False by done.
Qed.

Definition ex_lost : list action :=
  [ALock 10 false; APrepare 10; ATest 10; AFinish 10;
   ALock 11 true; APrepare 11; ATest 11; ASig 11 false; ALock 12 false; APrepare 12; ATest 12;
   ASignal 11; AResume 11; APrepare 11; ATest 11; AUnlock 10; AWakeup 10; ASig 11 true; AFinish 11].

(** With [mutex_lock_interruptible] a wake-up can be lost.  Thread 10
    holds the mutex, 11 waits interruptibly and 12 waits behind it; a signal
    wakes 11, which queues itself as sleeping again and fails the test; 10
    unlocks and its wake-up goes to 11, the first sleeping waiter; 11 then sees
    the signal and leaves without the mutex.  The mutex is free, 12 sleeps, and
    no thread is left to wake it. *)
Theorem mutex_wakeup_lost :
  ∃ x, acts (mutex_init ex_sys) ex_lost = Some x ∧ owner x = None ∧ asleep x 12 ∧ ∀ t, t ≠ 12 → at_ x t = Idle.
Proof.
  assert (match acts (mutex_init ex_sys) ex_lost with
          | Some x => (owner x, at_ x 10, at_ x 11, at_ x 12, st (sch x) 12)
          | None => (Some 0, Idle, Idle, Idle, 0)
          end = (None, Idle, Idle, Block false, TASK_UNINTERRUPTIBLE)) as Hc by (vm_compute; reflexivity).
  destruct (acts (mutex_init ex_sys) ex_lost) as [x|] eqn:E; [|discriminate]. injection Hc as H1 H2 H3 H4 H5. exists x. split; [reflexivity|].
  split; [exact H1|]. split; [split; [by exists false|]; change (state (thr (sch x) 12) ≠ TASK_RUNNING); rewrite H5; discriminate|]. intros t Ht.
  destruct (decide (t = 10)) as [->|]; [exact H2|]. destruct (decide (t = 11)) as [->|]; [exact H3|].
  rewrite (acts_other _ _ _ t E); [reflexivity|]. unfold ex_lost. repeat (apply Forall_cons; split; [cbn [actor]; congruence|]). constructor.
Qed.
