(* ===== verification/Signal.v ===== *)
(** * Signals: src/kernel/signal.c

    Threads, processes and signal tables are objects named by numbers; a
    process names its table, which others may share.  [action] has [NSIG]
    entries, and an access past its end is [None], undefined behaviour.  The
    floating-point state of a thread is the live one of its registers, so that
    [fpsimd_save] and [fpsimd_load] are the identity.  [allocs] holds the
    outcomes of the allocations to come; [can_write] says which user memory can
    be written; what a copy from user memory gives is an argument.
    [try_to_wake_up] is what the scheduler promises: it makes a thread runnable
    that sleeps in one of the states of the mask.  [child_wait] holds the threads
    on the wait queue of each process. *)

From stdpp Require Import functions.
From S2P Require Import Prelude.

Notation NSIG := 64%Z (only parsing).
Notation SIGQUIT := 3%Z (only parsing).
Notation SIGILL := 4%Z (only parsing).
Notation SIGTRAP := 5%Z (only parsing).
Notation SIGABRT := 6%Z (only parsing).
Notation SIGBUS := 7%Z (only parsing).
Notation SIGFPE := 8%Z (only parsing).
Notation SIGKILL := 9%Z (only parsing).
Notation SIGSEGV := 11%Z (only parsing).
Notation SIGCHLD := 17%Z (only parsing).
Notation SIGCONT := 18%Z (only parsing).
Notation SIGSTOP := 19%Z (only parsing).
Notation SIGTSTP := 20%Z (only parsing).
Notation SIGTTIN := 21%Z (only parsing).
Notation SIGTTOU := 22%Z (only parsing).
Notation SIGURG := 23%Z (only parsing).
Notation SIGXCPU := 24%Z (only parsing).
Notation SIGXFSZ := 25%Z (only parsing).
Notation SIGWINCH := 28%Z (only parsing).
Notation SIGSYS := 31%Z (only parsing).
Notation SIG_DFL := 0%Z (only parsing).
Notation SIG_IGN := 1%Z (only parsing).
Notation SA_NOCLDSTOP := 0x1%Z (only parsing).
Notation SA_ONSTACK := 0x08000000%Z (only parsing).
Notation SA_RESTART := 0x10000000%Z (only parsing).
Notation SA_NODEFER := 0x40000000%Z (only parsing).
Notation SA_RESETHAND := 0x80000000%Z (only parsing).
Notation SA_RESTORER := 0x04000000%Z (only parsing).
Notation SS_ONSTACK := 1%Z (only parsing).
Notation SS_DISABLE := 2%Z (only parsing).
Notation SI_USER := 0%Z (only parsing).
Notation SI_KERNEL := 0x80%Z (only parsing).
Notation SI_TKILL := (-6)%Z (only parsing).
Notation CLD_STOPPED := 5%Z (only parsing).
Notation PROC_ZOMBIE := 1%Z (only parsing).
Notation TASK_RUNNING := 0%Z (only parsing).
Notation TASK_INTERRUPTIBLE := 1%Z (only parsing).
Notation TASK_UNINTERRUPTIBLE := 2%Z (only parsing).
Notation TASK_STOPPED := 4%Z (only parsing).
Notation TASK_DEAD := 16%Z (only parsing).
Notation SIG_BLOCK := 0%Z (only parsing).
Notation SIG_UNBLOCK := 1%Z (only parsing).
Notation SIG_SETMASK := 2%Z (only parsing).
Notation FPSIMD_MAGIC := 0x46508001%Z (only parsing).
Notation ESRCH := 3%Z (only parsing).
Notation ERESTARTNOHAND := 514%Z (only parsing).

Definition sigmask (sig : Z) : Z := Z.shiftl 1 (sig - 1).
Definition SIG_KERNEL_ONLY : Z := Z.lor (sigmask SIGKILL) (sigmask SIGSTOP).

Record k_sigaction : Type := KSigaction { handler : Z; sa_flags : Z; restorer : Z; sa_mask : Z }.
Record stack_t : Type := StackT { ss_sp : Z; ss_flags : Z; ss_size : Z }.
(** [si_word] is the first word of the union ([fault.addr], or [pid] and
    [uid]), [si_status] is [chld.status]. *)
Record siginfo_t : Type := SigInfo { si_signo : Z; si_code : Z; si_word : Z; si_status : Z }.
Definition ids (pid uid : Z) : Z := wrap32 pid + wrap32 uid * 2 ^ 32.

Record pt_regs : Type := PtRegs { regs : Z → Z; r_sp : Z; r_pc : Z; r_pstate : Z; orig_x0 : Z; syscallno : Z }.
(** Status, control and vector registers. *)
Record fpsimd_state : Type := Fpsimd { fpsr : Z; fpcr : Z; vregs : Z → Z }.

Record rt_sigframe : Type := RtSigframe {
  f_info : siginfo_t; f_stack : stack_t; f_sigmask : Z;
  sc_regs : Z → Z; sc_sp : Z; sc_pc : Z; sc_pstate : Z; sc_fault : Z;
  fc_magic : Z; fc_size : Z; fc_state : fpsimd_state;
}.

(** The fields of a thread and of a process that signals use. *)
Record thread : Type := Thread {
  proc : option Z; state : Z;
  sig_blocked : Z; sig_waiting : Z; sig_pending : Z; sig_info : Z → siginfo_t;
  saved_sigmask : Z; restore_sigmask : bool; sigaltstack : stack_t;
  user_regs : pt_regs; fpsimd : fpsimd_state; tid : Z;
}.

Record process : Type := Process {
  pid : Z; pgid : Z; sid : Z; parent : option Z; threads : list Z; uid : Z; euid : Z; sighand : Z;
  shared_pending : Z; shared_info : Z → siginfo_t; p_state : Z; exiting : bool;
  group_stop : bool; stop_reported : bool; cont_reported : bool; stop_sig : Z; sigtramp : Z;
}.

Record sys : Type := Sys {
  thr : Z → thread; prc : Z → process; action : Z → list k_sigaction;
  all_processes : list Z; all_threads : list Z; init_process : Z; allocs : list bool;
  child_wait : Z → list Z;
}.

(** *** Updates *)

Definition upd_thr (s : sys) (t : Z) (f : thread → thread) : sys :=
  Sys (<[t := f (thr s t)]> (thr s)) (prc s) (action s) (all_processes s) (all_threads s) (init_process s) (allocs s) (child_wait s).
Definition upd_prc (s : sys) (p : Z) (f : process → process) : sys :=
  Sys (thr s) (<[p := f (prc s p)]> (prc s)) (action s) (all_processes s) (all_threads s) (init_process s) (allocs s) (child_wait s).
Definition set_actions (s : sys) (h : Z) (l : list k_sigaction) : sys :=
  Sys (thr s) (prc s) (<[h := l]> (action s)) (all_processes s) (all_threads s) (init_process s) (allocs s) (child_wait s).

Definition set_state (x : Z) (t : thread) : thread :=
  Thread (proc t) x (sig_blocked t) (sig_waiting t) (sig_pending t) (sig_info t) (saved_sigmask t) (restore_sigmask t) (sigaltstack t) (user_regs t) (fpsimd t) (tid t).
Definition set_blocked (x : Z) (t : thread) : thread :=
  Thread (proc t) (state t) x (sig_waiting t) (sig_pending t) (sig_info t) (saved_sigmask t) (restore_sigmask t) (sigaltstack t) (user_regs t) (fpsimd t) (tid t).
Definition set_waiting (x : Z) (t : thread) : thread :=
  Thread (proc t) (state t) (sig_blocked t) x (sig_pending t) (sig_info t) (saved_sigmask t) (restore_sigmask t) (sigaltstack t) (user_regs t) (fpsimd t) (tid t).
Definition set_pending (x : Z) (i : Z → siginfo_t) (t : thread) : thread :=
  Thread (proc t) (state t) (sig_blocked t) (sig_waiting t) x i (saved_sigmask t) (restore_sigmask t) (sigaltstack t) (user_regs t) (fpsimd t) (tid t).
Definition set_saved (x : Z) (b : bool) (t : thread) : thread :=
  Thread (proc t) (state t) (sig_blocked t) (sig_waiting t) (sig_pending t) (sig_info t) x b (sigaltstack t) (user_regs t) (fpsimd t) (tid t).
Definition set_altstack (x : stack_t) (t : thread) : thread :=
  Thread (proc t) (state t) (sig_blocked t) (sig_waiting t) (sig_pending t) (sig_info t) (saved_sigmask t) (restore_sigmask t) x (user_regs t) (fpsimd t) (tid t).
Definition set_regs (r : pt_regs) (t : thread) : thread :=
  Thread (proc t) (state t) (sig_blocked t) (sig_waiting t) (sig_pending t) (sig_info t) (saved_sigmask t) (restore_sigmask t) (sigaltstack t) r (fpsimd t) (tid t).
Definition set_fpsimd (x : fpsimd_state) (t : thread) : thread :=
  Thread (proc t) (state t) (sig_blocked t) (sig_waiting t) (sig_pending t) (sig_info t) (saved_sigmask t) (restore_sigmask t) (sigaltstack t) (user_regs t) x (tid t).

Definition set_shared (x : Z) (i : Z → siginfo_t) (p : process) : process :=
  Process (pid p) (pgid p) (sid p) (parent p) (threads p) (uid p) (euid p) (sighand p) x i (p_state p) (exiting p) (group_stop p) (stop_reported p) (cont_reported p) (stop_sig p) (sigtramp p).
Definition set_stop (g sr cr : bool) (sg : Z) (p : process) : process :=
  Process (pid p) (pgid p) (sid p) (parent p) (threads p) (uid p) (euid p) (sighand p) (shared_pending p) (shared_info p) (p_state p) (exiting p) g sr cr sg (sigtramp p).

(** ** Sending *)

Inductive sig_act : Type := SIG_ACT_TERM | SIG_ACT_CORE | SIG_ACT_IGN | SIG_ACT_STOP | SIG_ACT_CONT.
#[export] Instance sig_act_eq_dec : EqDecision sig_act.
Proof. solve_decision. Defined.

Definition default_action (sig : Z) : sig_act :=
  if bool_decide (sig ∈ [SIGCHLD; SIGURG; SIGWINCH]) then SIG_ACT_IGN
  else if sig =? SIGCONT then SIG_ACT_CONT
  else if bool_decide (sig ∈ [SIGSTOP; SIGTSTP; SIGTTIN; SIGTTOU]) then SIG_ACT_STOP
  else if bool_decide (sig ∈ [SIGQUIT; SIGILL; SIGTRAP; SIGABRT; SIGBUS; SIGFPE; SIGSEGV; SIGXCPU; SIGXFSZ; SIGSYS]) then SIG_ACT_CORE
  else SIG_ACT_TERM.

Definition act (s : sys) (p sig : Z) : option k_sigaction := action s (sighand (prc s p)) !! Z.to_nat sig.

Definition sig_ignored (s : sys) (p sig : Z) : option bool :=
  if (sig =? SIGKILL) || (sig =? SIGSTOP) then Some false
  else
    ka ← act s p sig;
    Some ((handler ka =? SIG_IGN) || ((handler ka =? SIG_DFL) && bool_decide (default_action sig = SIG_ACT_IGN))).

Definition signal_pending (s : sys) (t : Z) : bool :=
  match proc (thr s t) with
  | None => false
  | Some p =>
      negb (Z.land (Z.lor (sig_pending (thr s t)) (shared_pending (prc s p))) (not64 (sig_blocked (thr s t))) =? 0) ||
      exiting (prc s p) || group_stop (prc s p)
  end.

Definition try_to_wake_up (s : sys) (t mask : Z) : sys :=
  if Z.land (state (thr s t)) mask =? 0 then s else upd_thr s t (set_state TASK_RUNNING).

Definition signal_wake (s : sys) (t : Z) : sys := try_to_wake_up s t TASK_INTERRUPTIBLE.

Definition wake_stopped (s : sys) (p : Z) : sys := fold_left (λ s t, try_to_wake_up s t TASK_STOPPED) (threads (prc s p)) s.

(** Wake the threads that wait for children of [p]. *)
Definition wake_children (s : sys) (p : Z) : sys :=
  fold_left (λ s t, try_to_wake_up s t (Z.lor TASK_INTERRUPTIBLE TASK_UNINTERRUPTIBLE)) (child_wait s p) s.
Definition wake_parent (s : sys) (p : Z) : sys :=
  match parent (prc s p) with Some pp => wake_children s pp | None => s end.

Definition kernel_info (sig : Z) : siginfo_t := SigInfo sig SI_KERNEL 0 0.

Definition queue_signal (set : Z) (infos : Z → siginfo_t) (sig : Z) (info : option siginfo_t) : Z * (Z → siginfo_t) :=
  let infos :=
    if Z.land set (sigmask sig) =? 0 then
      let i := match info with Some i => i | None => kernel_info sig end in
      <[sig - 1 := SigInfo sig (si_code i) (si_word i) (si_status i)]> infos
    else infos in
  (Z.lor set (sigmask sig), infos).

Definition stops : Z := Z.lor (sigmask SIGSTOP) (Z.lor (sigmask SIGTSTP) (Z.lor (sigmask SIGTTIN) (sigmask SIGTTOU))).

(** [p->shared_pending &= ~m] and [t->sig_pending &= ~m] for every thread. *)
Definition clear_shared (s : sys) (p m : Z) : sys := upd_prc s p (λ q, set_shared (Z.land (shared_pending q) (not64 m)) (shared_info q) q).
Definition clear_threads (s : sys) (p m : Z) : sys :=
  fold_left (λ s t, upd_thr s t (λ x, set_pending (Z.land (sig_pending x) (not64 m)) (sig_info x) x)) (threads (prc s p)) s.

Definition prepare_signal (s : sys) (p sig : Z) : sys :=
  if (sig =? SIGCONT) || (sig =? SIGKILL) then
    let s := clear_threads (clear_shared s p stops) p stops in
    if group_stop (prc s p) then
      wake_parent (wake_stopped (upd_prc s p (λ q, set_stop false (stop_reported q) false (stop_sig q) q)) p) p
    else s
  else if bool_decide (default_action sig = SIG_ACT_STOP) then clear_shared s p (sigmask SIGCONT)
  else s.

Definition queue_thread (s : sys) (t sig : Z) (info : option siginfo_t) : sys :=
  upd_thr s t (λ x, let '(set, i) := queue_signal (sig_pending x) (sig_info x) sig info in set_pending set i x).
Definition queue_process (s : sys) (p sig : Z) (info : option siginfo_t) : sys :=
  upd_prc s p (λ q, let '(set, i) := queue_signal (shared_pending q) (shared_info q) sig info in set_shared set i q).

Definition send_signal_thread (s : sys) (t sig : Z) (info : option siginfo_t) : option (sys * Z) :=
  if (sig <=? 0) || (NSIG <? sig) then Some (s, - EINVAL)
  else
    match proc (thr s t) with
    | None => Some (s, - ESRCH)
    | Some p =>
        let s := prepare_signal s p sig in
        ign ← sig_ignored s p sig;
        let s :=
          if negb ign || negb (Z.land (Z.lor (sig_blocked (thr s t)) (sig_waiting (thr s t))) (sigmask sig) =? 0)
          then queue_thread s t sig info else s in
        Some (signal_wake s t, 0)
    end.

(** Some thread blocks the signal or waits for it. *)
Definition wanted (s : sys) (p sig : Z) : bool :=
  existsb (λ t, negb (Z.land (Z.lor (sig_blocked (thr s t)) (sig_waiting (thr s t))) (sigmask sig) =? 0)) (threads (prc s p)).

(** The last loop of [send_signal_process]. *)
Fixpoint wake_taker (s : sys) (l : list Z) (sig : Z) : sys :=
  match l with
  | [] => s
  | t :: l =>
      if (sig =? SIGKILL) || (Z.land (sig_blocked (thr s t)) (sigmask sig) =? 0) then
        let s := signal_wake s t in
        if sig =? SIGKILL then wake_taker s l sig else s
      else wake_taker s l sig
  end.

Definition send_signal_process (s : sys) (p sig : Z) (info : option siginfo_t) : option (sys * Z) :=
  if (sig <? 0) || (NSIG <? sig) then Some (s, - EINVAL)
  else if sig =? 0 then Some (s, 0)
  else if p_state (prc s p) =? PROC_ZOMBIE then Some (s, 0)
  else
    let s := prepare_signal s p sig in
    ign ← sig_ignored s p sig;
    if (ign : bool) && negb (wanted s p sig) then Some (s, 0)
    else
      let s := queue_process s p sig info in
      Some (wake_taker s (threads (prc s p)) sig, 0).

Fixpoint kill_each (s : sys) (l : list Z) (pg sig : Z) (info : option siginfo_t) (found : Z) : option (sys * Z) :=
  match l with
  | [] => Some (s, found)
  | p :: l =>
      if (pgid (prc s p) =? pg) && negb (p_state (prc s p) =? PROC_ZOMBIE) then
        r ← send_signal_process s p sig info; kill_each r.1 l pg sig info (found + 1)
      else kill_each s l pg sig info found
  end.
Definition kill_pgrp (s : sys) (pg sig : Z) (info : option siginfo_t) : option (sys * Z) :=
  r ← kill_each s (all_processes s) pg sig info 0; Some (r.1, if r.2 =? 0 then - ESRCH else 0).

Definition set_handler (h : Z) (ka : k_sigaction) : k_sigaction := KSigaction h (sa_flags ka) (restorer ka) (sa_mask ka).
(** [action[sig] = ka] through a pointer into the table of [p]. *)
Definition put_act (s : sys) (p sig : Z) (ka : k_sigaction) : sys :=
  set_actions s (sighand (prc s p)) (<[Z.to_nat sig := ka]> (action s (sighand (prc s p)))).

(** [t] is the current thread and has a process. *)
Definition force_sig_fault (s : sys) (t p sig code addr : Z) : option sys :=
  ka ← act s p sig;
  let s :=
    if negb (Z.land (sig_blocked (thr s t)) (sigmask sig) =? 0) || (handler ka =? SIG_IGN)
    then put_act (upd_thr s t (λ x, set_blocked (Z.land (sig_blocked x) (not64 (sigmask sig))) x)) p sig (set_handler SIG_DFL ka)
    else s in
  Some (queue_thread s t sig (Some (SigInfo sig code addr 0))).

(** ** Dequeueing *)

(** [__builtin_ctzll] of a set that is not empty. *)
Fixpoint ctz_from (n : nat) (i x : Z) : Z :=
  match n with O => i | S n => if Z.testbit x i then i else ctz_from n (i + 1) x end.
Definition ctzll (x : Z) : Z := ctz_from 64 0 x.

Definition sync_signals : list Z := [SIGSEGV; SIGBUS; SIGILL; SIGTRAP; SIGFPE; SIGSYS].

Definition pick (pend : Z) : Z :=
  match List.find (λ g, negb (Z.land pend (sigmask g) =? 0)) sync_signals with Some g => g | None => ctzll pend + 1 end.

Definition dequeue_signal (s : sys) (t p : Z) : sys * option (Z * siginfo_t) :=
  let pend := Z.land (sig_pending (thr s t)) (not64 (sig_blocked (thr s t))) in
  if negb (pend =? 0) then
    let sig := pick pend in
    (upd_thr s t (λ x, set_pending (Z.land (sig_pending x) (not64 (sigmask sig))) (sig_info x) x), Some (sig, sig_info (thr s t) (sig - 1)))
  else
    let pend := Z.land (shared_pending (prc s p)) (not64 (sig_blocked (thr s t))) in
    if negb (pend =? 0) then
      let sig := ctzll pend + 1 in
      (clear_shared s p (sigmask sig), Some (sig, shared_info (prc s p) (sig - 1)))
    else (s, None).

Definition process_stop_all (s : sys) (cur p sig : Z) : option sys :=
  if group_stop (prc s p) then Some s
  else
    let s := upd_prc s p (λ q, set_stop true false (cont_reported q) sig q) in
    let s := fold_left (λ s t, if t =? cur then s else signal_wake s t) (threads (prc s p)) s in
    match parent (prc s p) with
    | None => Some s
    | Some pp =>
        ka ← act s pp SIGCHLD;
        s ← (if (Z.land (sa_flags ka) SA_NOCLDSTOP =? 0) && negb (handler ka =? SIG_IGN) then
               r ← send_signal_process s pp SIGCHLD (Some (SigInfo SIGCHLD CLD_STOPPED (ids (pid (prc s p)) 0) sig)); Some r.1
             else Some s);
        Some (wake_children s pp)
    end.

Definition process_continue (s : sys) (p : Z) : sys := prepare_signal s p SIGCONT.

(** ** Frames *)

(** The sizes of [struct rt_sigframe], [struct frame_record] and
    [struct fpsimd_context], and the offset of [uc]. *)
Notation FRAME_SIZE := 4688%Z (only parsing).
Notation RECORD_SIZE := 16%Z (only parsing).
Notation FPSIMD_SIZE := 528%Z (only parsing).
Notation UC_OFFSET := 128%Z (only parsing).

Definition on_sig_stack (t : thread) (sp : Z) : bool :=
  negb (ss_size (sigaltstack t) =? 0) && (ss_sp (sigaltstack t) <? sp) && (sp ⊖ ss_sp (sigaltstack t) <=? ss_size (sigaltstack t)).

(** The outcome of an allocation; memory is there when nothing else is said. *)
Definition kmem (s : sys) : bool * sys :=
  match allocs s with
  | [] => (true, s)
  | b :: l => (b, Sys (thr s) (prc s) (action s) (all_processes s) (all_threads s) (init_process s) l (child_wait s))
  end.

Definition altstack_flags (t : thread) : Z :=
  if on_sig_stack t (r_sp (user_regs t)) then SS_ONSTACK else if ss_size (sigaltstack t) =? 0 then SS_DISABLE else 0.

Definition frame_base (t : thread) (ka : k_sigaction) : Z :=
  let sp := r_sp (user_regs t) in
  let sp :=
    if negb (Z.land (sa_flags ka) SA_ONSTACK =? 0) && negb (ss_size (sigaltstack t) =? 0) &&
       (Z.land (ss_flags (sigaltstack t)) SS_DISABLE =? 0) && negb (on_sig_stack t sp)
    then ss_sp (sigaltstack t) ⊕ ss_size (sigaltstack t) else sp in
  ALIGN_DOWN (sp ⊖ FRAME_SIZE ⊖ RECORD_SIZE) 16.

Definition make_frame (t : thread) (info : siginfo_t) (oldmask : Z) : rt_sigframe :=
  let r := user_regs t in
  RtSigframe info (StackT (ss_sp (sigaltstack t)) (altstack_flags t) (ss_size (sigaltstack t))) oldmask
    (regs r) (r_sp r) (r_pc r) (r_pstate r) (si_word info) FPSIMD_MAGIC FPSIMD_SIZE (fpsimd t).

(** The registers with which the handler starts. *)
Definition handler_regs (r : pt_regs) (sig frame_addr lr pc : Z) : pt_regs :=
  let rec_addr := frame_addr ⊕ FRAME_SIZE in
  PtRegs (<[30 := lr]> (<[29 := rec_addr]> (<[2 := frame_addr ⊕ UC_OFFSET]> (<[1 := frame_addr]> (<[0 := sig]> (regs r))))))
    frame_addr pc (Z.land (r_pstate r) (not64 (Z.shiftl 1 21))) (orig_x0 r) (syscallno r).

Section user_memory.
Context (can_write : Z → Z → bool).

(** On success the address and contents of the frame and the frame record that were written. *)
Definition setup_frame (s : sys) (t p sig : Z) (ka : k_sigaction) (info : siginfo_t) (oldmask : Z) : sys * (Z + Z * rt_sigframe * (Z * Z)) :=
  let x := thr s t in
  let frame_addr := frame_base x ka in
  let rec_addr := frame_addr ⊕ FRAME_SIZE in
  let '(ok, s) := kmem s in
  if negb ok then (s, inl (- ENOMEM))
  else
    let f := make_frame x info oldmask in
    let rec := (regs (user_regs x) 29, regs (user_regs x) 30) in
    if negb (can_write frame_addr FRAME_SIZE) || negb (can_write rec_addr RECORD_SIZE) then (s, inl (- EFAULT))
    else
      let lr := if negb (Z.land (sa_flags ka) SA_RESTORER =? 0) then restorer ka else sigtramp (prc s p) in
      (upd_thr s t (set_regs (handler_regs (user_regs x) sig frame_addr lr (handler ka))), inr (frame_addr, f, rec)).

(** [user] is what a copy of a frame from user memory gives. *)
Definition sys_rt_sigreturn (s : sys) (t p : Z) (user : Z → option rt_sigframe) : option (sys * Z) :=
  let r := user_regs (thr s t) in
  let frame_addr := r_sp r in
  let '(ok, s) := kmem s in
  match (if ok && (Z.land frame_addr 15 =? 0) then user frame_addr else None) with
  | None => s ← force_sig_fault s t p SIGSEGV SI_KERNEL frame_addr; Some (s, 0)
  | Some f =>
      let pstate := Z.land (sc_pstate f) (Z.shiftl 0xf 28) in
      let s := upd_thr s t (set_regs (PtRegs (sc_regs f) (sc_sp f) (sc_pc f) pstate (orig_x0 r) (-1))) in
      let s := if (fc_magic f =? FPSIMD_MAGIC) && (FPSIMD_SIZE <=? fc_size f) then upd_thr s t (set_fpsimd (fc_state f)) else s in
      let s := upd_thr s t (set_blocked (Z.land (f_sigmask f) (not64 SIG_KERNEL_ONLY))) in
      let s :=
        if (Z.land (ss_flags (f_stack f)) SS_DISABLE =? 0) && (2048 <=? ss_size (f_stack f)) && negb (on_sig_stack (thr s t) (sc_sp f))
        then upd_thr s t (λ x, set_altstack (StackT (ss_sp (f_stack f)) (ss_flags (sigaltstack x)) (ss_size (f_stack f))) x) else s in
      Some (s, sc_regs f 0)
  end.

(** ** Delivery *)

Definition handle_restart (r : pt_regs) (ka : option k_sigaction) : pt_regs :=
  let set_x0 v pc := PtRegs (<[0 := v]> (regs r)) (r_sp r) pc (r_pstate r) (orig_x0 r) (syscallno r) in
  let restart := set_x0 (orig_x0 r) (r_pc r ⊖ 4) in
  if syscallno r <? 0 then r
  else if regs r 0 =? wrap64 (- ERESTARTNOHAND) then
    match ka with Some _ => set_x0 (wrap64 (- EINTR)) (r_pc r) | None => restart end
  else if regs r 0 =? wrap64 (- ERESTARTSYS) then
    match ka with
    | Some a => if Z.land (sa_flags a) SA_RESTART =? 0 then set_x0 (wrap64 (- EINTR)) (r_pc r) else restart
    | None => restart
    end
  else r.

Definition is_orphaned_pgrp (s : sys) (pg : Z) : bool :=
  forallb (λ p,
    negb (pgid (prc s p) =? pg) || (p_state (prc s p) =? PROC_ZOMBIE) ||
    match parent (prc s p) with
    | Some pp => (pgid (prc s pp) =? pg) || negb (sid (prc s pp) =? sid (prc s p))
    | None => true
    end) (all_processes s).

(** How [do_signal] ends: it returns to user space, with the frame of a handler
    or none; the thread stops; it exits; the process exits.  [More] is a loop
    that has not ended within the fuel. *)
Inductive verdict : Type :=
| Returned (f : option (Z * rt_sigframe * (Z * Z)))
| Stopped
| Exited (code : Z)
| GroupExited (code : Z)
| More.

(** After the loop, with no handler to run. *)
Definition no_handler (s : sys) (t : Z) : sys :=
  let s := upd_thr s t (λ x, set_regs (handle_restart (user_regs x) None) x) in
  if restore_sigmask (thr s t) then upd_thr s t (λ x, set_blocked (saved_sigmask x) (set_saved (saved_sigmask x) false x)) else s.

(** The mask and the table once the frame of a handler is written. *)
Definition enter_handler (s : sys) (t p sig : Z) (ka : k_sigaction) : sys :=
  let s := upd_thr s t (λ x, set_blocked (Z.lor (sig_blocked x) (Z.land (sa_mask ka) (not64 SIG_KERNEL_ONLY))) x) in
  let s := if Z.land (sa_flags ka) SA_NODEFER =? 0 then upd_thr s t (λ x, set_blocked (Z.lor (sig_blocked x) (sigmask sig)) x) else s in
  if negb (Z.land (sa_flags ka) SA_RESETHAND =? 0) then put_act s p sig (set_handler SIG_DFL ka) else s.

Fixpoint signal_loop (fuel : nat) (s : sys) (t p : Z) : option (sys * verdict) :=
  match fuel with
  | O => Some (s, More)
  | S fuel =>
      if exiting (prc s p) then Some (s, Exited 0)
      else if group_stop (prc s p) then Some (upd_thr s t (set_state TASK_STOPPED), Stopped)
      else
        match dequeue_signal s t p with
        | (s, None) => Some (no_handler s t, Returned None)
        | (s, Some (sig, info)) =>
            ka ← act s p sig;
            if handler ka =? SIG_IGN then signal_loop fuel s t p
            else if handler ka =? SIG_DFL then
              let a := default_action sig in
              if bool_decide (a = SIG_ACT_IGN ∨ a = SIG_ACT_CONT) then signal_loop fuel s t p
              else if (p =? init_process s) && negb (sig =? SIGKILL) then signal_loop fuel s t p
              else if bool_decide (a = SIG_ACT_STOP) then
                if negb (sig =? SIGSTOP) && is_orphaned_pgrp s (pgid (prc s p)) then signal_loop fuel s t p
                else s ← process_stop_all s t p sig; signal_loop fuel s t p
              else Some (s, GroupExited sig)
            else
              let s := upd_thr s t (λ x, set_regs (handle_restart (user_regs x) (Some ka)) x) in
              let x := thr s t in
              let old := if restore_sigmask x then saved_sigmask x else sig_blocked x in
              let s := upd_thr s t (set_saved (saved_sigmask x) false) in
              match setup_frame s t p sig ka info old with
              | (s, inl _) => s ← force_sig_fault s t p SIGSEGV SI_KERNEL (r_sp (user_regs (thr s t))); signal_loop fuel s t p
              | (s, inr f) => Some (enter_handler s t p sig ka, Returned (Some f))
              end
        end
  end.

(** At most one pass per pending signal, one after a stop, one for a forced SIGSEGV. *)
Definition SIGNAL_FUEL : nat := 140.

Definition do_signal (s : sys) (t : Z) : option (sys * verdict) :=
  match proc (thr s t) with None => Some (s, Returned None) | Some p => signal_loop SIGNAL_FUEL s t p end.
End user_memory.

(** A thread that was stopped runs on in the loop. *)
Definition do_signal_resumed (cw : Z → Z → bool) (s : sys) (t : Z) : option (sys * verdict) :=
  do_signal cw (upd_thr s t (set_state TASK_RUNNING)) t.

(** ** System calls

    A copy to user memory is returned beside the result; [n] is what the copy
    from user memory gives, [None] when it faults. *)

Definition sys_rt_sigaction (s : sys) (p sig act_ptr : Z) (n : option k_sigaction) (oact : Z) (oact_ok : bool) (size : Z) :
    option (sys * Z * option k_sigaction) :=
  if (sig <? 1) || (NSIG <? sig) || negb (size =? 8) then Some (s, - EINVAL, None)
  else
    old ← act s p sig;
    let finish s := if (oact =? 0) then (s, 0, None) else if oact_ok then (s, 0, Some old) else (s, - EFAULT, None) in
    if act_ptr =? 0 then Some (finish s)
    else
      match n with
      | None => Some (s, - EFAULT, None)
      | Some n =>
          if (sig =? SIGKILL) || (sig =? SIGSTOP) then Some (s, - EINVAL, None)
          else
            let n := KSigaction (handler n) (sa_flags n) (restorer n) (Z.land (sa_mask n) (not64 SIG_KERNEL_ONLY)) in
            let s := put_act s p sig n in
            ign ← sig_ignored s p sig;
            let s := if (ign : bool) then clear_threads (clear_shared s p (sigmask sig)) p (sigmask sig) else s in
            Some (finish s)
      end.

Definition sys_rt_sigprocmask (s : sys) (t how set : Z) (n : option Z) (oset : Z) (oset_ok : bool) (size : Z) : sys * Z * option Z :=
  if negb (size =? 8) then (s, - EINVAL, None)
  else
    let old := sig_blocked (thr s t) in
    let finish s := if oset =? 0 then (s, 0, None) else if oset_ok then (s, 0, Some old) else (s, - EFAULT, None) in
    if set =? 0 then finish s
    else
      match n with
      | None => (s, - EFAULT, None)
      | Some x =>
          let x := Z.land x (not64 SIG_KERNEL_ONLY) in
          if how =? SIG_BLOCK then finish (upd_thr s t (set_blocked (Z.lor old x)))
          else if how =? SIG_UNBLOCK then finish (upd_thr s t (set_blocked (Z.land old (not64 x))))
          else if how =? SIG_SETMASK then finish (upd_thr s t (set_blocked x))
          else (s, - EINVAL, None)
      end.

Definition sys_rt_sigpending (s : sys) (t p : Z) (set_ok : bool) : Z * option Z :=
  let x := Z.land (Z.lor (sig_pending (thr s t)) (shared_pending (prc s p))) (sig_blocked (thr s t)) in
  if set_ok then (0, Some x) else (- EFAULT, None).

(** The loop of [sys_rt_sigsuspend]: it returns, or the thread sleeps and runs
    it again when it is woken. *)
Definition sigsuspend_wait (s : sys) (t : Z) : sys * option Z :=
  let s := upd_thr s t (set_state TASK_RUNNING) in
  if signal_pending s t then (s, Some (- ERESTARTNOHAND)) else (upd_thr s t (set_state TASK_INTERRUPTIBLE), None).

Definition sys_rt_sigsuspend (s : sys) (t : Z) (n : option Z) (size : Z) : sys * option Z :=
  if negb (size =? 8) then (s, Some (- EINVAL))
  else
    match n with
    | None => (s, Some (- EFAULT))
    | Some x =>
        let s := upd_thr s t (λ y, set_saved (sig_blocked y) true y) in
        sigsuspend_wait (upd_thr s t (set_blocked (Z.land x (not64 SIG_KERNEL_ONLY)))) t
    end.

(** The local variables of [sys_rt_sigtimedwait]: [timeout] is signed. *)
Record twait : Type := TWait { tw_set : Z; tw_saved : Z; tw_timeout : Z; tw_deadline : Z }.

Definition to_s64 (x : Z) : Z := if wrap64 x <? 2 ^ 63 then wrap64 x else wrap64 x - U64.

(** One pass of its loop, at the time [now]: a result, or the thread sleeps.
    [uinfo_ok]: no information is asked for, or it can be written. *)
Definition timedwait_pass (s : sys) (t p : Z) (w : twait) (uinfo_ok : bool) (now : Z) : sys * option (Z * option siginfo_t) :=
  let leave s r := (upd_thr s t (set_waiting 0), Some r) in
  let '(s, d) := dequeue_signal (upd_thr s t (set_blocked (not64 (tw_set w)))) t p in
  let s := upd_thr s t (set_blocked (tw_saved w)) in
  match d with
  | Some (sig, info) => leave s (if uinfo_ok then (sig, Some info) else (- EFAULT, None))
  | None =>
      if signal_pending s t then leave s (- EINTR, None)
      else if tw_timeout w =? 0 then leave s (- EAGAIN, None)
      else if negb (tw_timeout w <? 0) && (tw_deadline w <=? now) then leave s (- EAGAIN, None)
      else (upd_thr s t (λ x, set_state TASK_INTERRUPTIBLE (set_blocked (Z.land (tw_saved w) (not64 (tw_set w))) x)), None)
  end.

(** Once woken, the mask is restored and the loop goes on. *)
Definition timedwait_resume (s : sys) (t p : Z) (w : twait) (uinfo_ok : bool) (now : Z) : sys * option (Z * option siginfo_t) :=
  timedwait_pass (upd_thr s t (λ x, set_state TASK_RUNNING (set_blocked (tw_saved w) x))) t p w uinfo_ok now.

Definition sys_rt_sigtimedwait (s : sys) (t p : Z) (n : option Z) (uts : Z) (ts : option (Z * Z)) (size : Z) (uinfo_ok : bool) (now : Z) :
    sys * twait * option (Z * option siginfo_t) :=
  let none := TWait 0 0 0 0 in
  if negb (size =? 8) then (s, none, Some (- EINVAL, None))
  else
    match n, (if uts =? 0 then Some (-1) else '(sec, nsec) ← ts; Some (to_s64 (sec * 1000000000 + nsec))) with
    | Some x, Some timeout =>
        let x := Z.land x (not64 SIG_KERNEL_ONLY) in
        let w := TWait x (sig_blocked (thr s t)) timeout (if timeout <? 0 then 0 else now ⊕ timeout) in
        let '(s, r) := timedwait_pass (upd_thr s t (set_waiting x)) t p w uinfo_ok now in (s, w, r)
    | _, _ => (s, none, Some (- EFAULT, None))
    end.

Definition sys_sigaltstack (s : sys) (t uss : Z) (n : option stack_t) (uoss : Z) (uoss_ok : bool) : sys * Z * option stack_t :=
  let x := thr s t in
  let old := StackT (ss_sp (sigaltstack x)) (altstack_flags x) (ss_size (sigaltstack x)) in
  let finish s := if uoss =? 0 then (s, 0, None) else if uoss_ok then (s, 0, Some old) else (s, - EFAULT, None) in
  if uss =? 0 then finish s
  else
    match n with
    | None => (s, - EFAULT, None)
    | Some n =>
        if on_sig_stack x (r_sp (user_regs x)) then (s, - EPERM, None)
        else if negb (Z.land (ss_flags n) SS_DISABLE =? 0) then finish (upd_thr s t (set_altstack (StackT 0 SS_DISABLE 0)))
        else if negb (Z.ldiff (ss_flags n) SS_ONSTACK =? 0) then (s, - EINVAL, None)
        else if ss_size n <? 2048 then (s, - ENOMEM, None)
        else finish (upd_thr s t (set_altstack (StackT (ss_sp n) 0 (ss_size n))))
    end.

(** [c] is the process of the current thread. *)
Definition check_kill_perm (s : sys) (c p sig : Z) : Z :=
  if (euid (prc s c) =? 0) || (euid (prc s c) =? uid (prc s p)) || (uid (prc s c) =? uid (prc s p)) then 0
  else if (sig =? SIGCONT) && (sid (prc s p) =? sid (prc s c)) then 0
  else - EPERM.

Definition process_find (s : sys) (id : Z) : option Z := List.find (λ p, pid (prc s p) =? id) (all_processes s).
Definition thread_find (s : sys) (id : Z) : option Z :=
  List.find (λ t, (tid (thr s t) =? id) && negb (state (thr s t) =? TASK_DEAD)) (all_threads s).

Definition to_s32 (x : Z) : Z := if wrap32 x <? 2 ^ 31 then wrap32 x else wrap32 x - U32.

(** The loop over all processes of [sys_kill], with its [count] and [err]. *)
Fixpoint kill_loop (s : sys) (l : list Z) (c id pg sig : Z) (info : siginfo_t) (count err : Z) : option (sys * Z) :=
  match l with
  | [] => Some (s, if count =? 0 then err else 0)
  | p :: l =>
      if p_state (prc s p) =? PROC_ZOMBIE then kill_loop s l c id pg sig info count err
      else if (if id =? -1 then (pid (prc s p) =? 1) || (p =? c) else negb (pgid (prc s p) =? pg))
      then kill_loop s l c id pg sig info count err
      else if negb (check_kill_perm s c p sig =? 0) then kill_loop s l c id pg sig info count (- EPERM)
      else r ← send_signal_process s p sig (Some info); kill_loop r.1 l c id pg sig info (count + 1) err
  end.

Definition sys_kill (s : sys) (c upid sig : Z) : option (sys * Z) :=
  let id := to_s32 upid in
  if NSIG <? sig then Some (s, - EINVAL)
  else
    let info := SigInfo sig SI_USER (ids (pid (prc s c)) (uid (prc s c))) 0 in
    if 0 <? id then
      match process_find s id with
      | None => Some (s, - ESRCH)
      | Some p =>
          if p_state (prc s p) =? PROC_ZOMBIE then Some (s, - ESRCH)
          else
            let r := check_kill_perm s c p sig in
            if negb (r =? 0) then Some (s, r) else send_signal_process s p sig (Some info)
      end
    else
      let pg := if id =? 0 then pgid (prc s c) else if id =? -1 then 0 else to_s32 (- id) in
      kill_loop s (all_processes s) c id pg sig info 0 (- ESRCH).

Definition sys_tgkill (s : sys) (c tgid id sig : Z) : option (sys * Z) :=
  if NSIG <? sig then Some (s, - EINVAL)
  else
    match thread_find s (to_s32 id) with
    | None => Some (s, - ESRCH)
    | Some t =>
        match proc (thr s t) with
        | None => Some (s, - ESRCH)
        | Some p =>
            if (0 <? to_s32 tgid) && negb (pid (prc s p) =? to_s32 tgid) then Some (s, - ESRCH)
            else if sig =? 0 then Some (s, 0)
            else send_signal_thread s t sig (Some (SigInfo sig SI_TKILL (ids (pid (prc s c)) 0) 0))
        end
    end.

Definition sys_tkill (s : sys) (c id sig : Z) : option (sys * Z) := sys_tgkill s c 0 id sig.
