(* ===== verification/SignalSpec.v ===== *)
(** * Properties of signals

    Signal sets as sets of numbers, the order in which signals are delivered,
    the invariant of masks, pending sets and tables, delivery and return from a
    handler. *)

From stdpp Require Import functions.
From S2P Require Import Prelude Signal.

(** ** Signal sets *)

Definition sig_ok (g : Z) : Prop := 1 ≤ g ≤ NSIG.
Definition sin (x g : Z) : bool := Z.testbit x (g - 1).

Lemma sin_high x g : u64_ok x → 64 < g → sin x g = false.
Proof.
  intros [H0 H1] Hg. unfold sin. destruct (decide (x = 0)) as [->|]; [apply Z.bits_0|]. apply Z.bits_above_log2; [done|].
  assert (Z.log2 x < 64) by (apply Z.log2_lt_pow2; unfold U64 in *; lia). lia.
Qed.

Lemma sin_lor x y g : sin (Z.lor x y) g = sin x g || sin y g.
Proof. apply Z.lor_spec. Qed.
Lemma sin_land x y g : sin (Z.land x y) g = sin x g && sin y g.
Proof. apply Z.land_spec. Qed.
Lemma sin_sigmask a g : sig_ok a → sig_ok g → sin (sigmask a) g = (g =? a).
Proof.
  intros Ha Hg. unfold sin, sigmask, sig_ok in *. rewrite Z.shiftl_1_l, Z.pow2_bits_eqb by lia.
  destruct (Z.eqb_spec (a - 1) (g - 1)), (Z.eqb_spec g a); lia || done.
Qed.
Lemma not64_ldiff x : u64_ok x → not64 x = Z.ldiff (Z.ones 64) x.
Proof.
  intros Hx. rewrite <-land_not64 by (done || by unfold u64_ok). change (Z.ones 64) with (U64 - 1).
  assert (u64_ok (not64 x)) as Hn by (unfold u64_ok, not64 in *; lia). change (U64 - 1) with (Z.ones 64).
  rewrite Z.land_comm, Z.land_ones by lia. change (2 ^ 64) with U64. symmetry. by apply Z.mod_small.
Qed.
Lemma sin_not64 x g : u64_ok x → sig_ok g → sin (not64 x) g = negb (sin x g).
Proof.
  intros Hx Hg. unfold sin, sig_ok in *. rewrite not64_ldiff by done. rewrite Z.ldiff_spec, Z.testbit_ones by lia.
  by replace ((0 <=? g - 1) && (g - 1 <? 64)) with true by lia.
Qed.
Lemma sin_0 g : sin 0 g = false.
Proof. apply Z.bits_0. Qed.

Lemma sset_ext x y : u64_ok x → u64_ok y → (∀ g, sig_ok g → sin x g = sin y g) → x = y.
Proof.
  intros Hx Hy H. apply Z.bits_inj'. intros n Hn. destruct (decide (n < 64)).
  - specialize (H (n + 1)). unfold sin, sig_ok in H. rewrite Z.add_simpl_r in H. apply H. lia.
  - pose proof (sin_high x (n + 1) Hx) as A. pose proof (sin_high y (n + 1) Hy) as B. unfold sin in *. rewrite Z.add_simpl_r in *. rewrite A, B; lia || done.
Qed.

Lemma u64_bits x : 0 ≤ x → (∀ n, 64 ≤ n → Z.testbit x n = false) → u64_ok x.
Proof.
  intros Hx H. split; [done|]. destruct (decide (x = 0)) as [->|]; [done|]. apply Z.log2_lt_pow2; [lia|].
  destruct (decide (Z.log2 x < 64)); [done|]. exfalso. specialize (H (Z.log2 x) ltac:(lia)). rewrite Z.bit_log2 in H; [done|lia].
Qed.
Lemma u64_high x n : u64_ok x → 64 ≤ n → Z.testbit x n = false.
Proof. intros Hx Hn. pose proof (sin_high x (n + 1) Hx) as A. unfold sin in A. rewrite Z.add_simpl_r in A. apply A. lia. Qed.
Lemma u64_lor x y : u64_ok x → u64_ok y → u64_ok (Z.lor x y).
Proof.
  intros Hx Hy. apply u64_bits; [apply Z.lor_nonneg; unfold u64_ok in *; lia|]. intros n Hn. by rewrite Z.lor_spec, !u64_high.
Qed.
Lemma u64_land x y : u64_ok x → u64_ok y → u64_ok (Z.land x y).
Proof.
  intros Hx Hy. apply u64_bits; [apply Z.land_nonneg; unfold u64_ok in *; lia|]. intros n Hn. by rewrite Z.land_spec, u64_high.
Qed.
Lemma u64_not x : u64_ok x → u64_ok (not64 x).
Proof. unfold u64_ok, not64. lia. Qed.
Lemma u64_sigmask g : sig_ok g → u64_ok (sigmask g).
Proof.
  intros Hg. unfold sigmask, sig_ok in *. rewrite Z.shiftl_1_l. split; [lia|]. apply Z.pow_lt_mono_r; lia.
Qed.
Lemma u64_0 : u64_ok 0.
Proof. done. Qed.
Lemma u64_kernel_only : u64_ok SIG_KERNEL_ONLY.
Proof. done. Qed.
Lemma u64_stops : u64_ok stops.
Proof. done. Qed.
#[export] Hint Resolve u64_lor u64_land u64_not u64_sigmask u64_0 u64_kernel_only u64_stops : olux.

(** The tests of the code. *)
Lemma sset_empty x : u64_ok x → (x =? 0) = true ↔ ∀ g, sig_ok g → sin x g = false.
Proof.
  intros Hx. rewrite Z.eqb_eq. split; [intros -> g _; apply sin_0|]. intros H. apply sset_ext; [done..|]. intros g Hg. by rewrite H, sin_0.
Qed.
Lemma land_sigmask x g : u64_ok x → sig_ok g → (Z.land x (sigmask g) =? 0) = negb (sin x g).
Proof.
  intros Hx Hg. destruct (sin x g) eqn:E.
  - destruct (Z.land x (sigmask g) =? 0) eqn:F; [|done]. assert (u64_ok (Z.land x (sigmask g))) as Hu by auto with olux.
    rewrite (sset_empty _ Hu) in F. specialize (F g Hg). rewrite sin_land, E, sin_sigmask, Z.eqb_refl in F by done. done.
  - rewrite sset_empty by auto with olux. intros h Hh. rewrite sin_land, sin_sigmask by done. destruct (Z.eqb_spec h g) as [->|]; [by rewrite E|apply andb_false_r].
Qed.
Lemma sin_kernel_only g : sig_ok g → sin SIG_KERNEL_ONLY g = (g =? SIGKILL) || (g =? SIGSTOP).
Proof. intros. unfold SIG_KERNEL_ONLY. rewrite sin_lor, !sin_sigmask; done || unfold sig_ok; lia. Qed.
Lemma sin_stops g : sig_ok g → sin stops g = bool_decide (default_action g = SIG_ACT_STOP).
Proof.
  intros Hg. assert (forallb (λ g, Bool.eqb (sin stops g) (bool_decide (default_action g = SIG_ACT_STOP))) (seqZ 1 64) = true) as H by (vm_compute; reflexivity).
  rewrite forallb_forall in H. apply eqb_prop, H, list_elem_of_In, elem_of_seqZ. unfold sig_ok in Hg. lia.
Qed.

#[export] Hint Rewrite sin_lor sin_land sin_0 : olux_sig.
#[export] Hint Rewrite sin_not64 sin_sigmask sin_kernel_only using (solve [auto with olux | done | unfold sig_ok in *; lia]) : olux_sig.

(** ** The order of delivery *)

Definition prio_list : list Z := sync_signals ++ List.filter (λ g, negb (existsb (Z.eqb g) sync_signals)) (seqZ 1 64).
Definition deliverable (s : sys) (t x : Z) : Z := Z.land x (not64 (sig_blocked (thr s t))).
(** What [t] can take of its own signals and of those of its process, in the
    order in which it takes them; [true] marks its own. *)
Definition queue (s : sys) (t p : Z) : list (bool * Z) :=
  map (pair true) (List.filter (sin (deliverable s t (sig_pending (thr s t)))) prio_list) ++
  map (pair false) (List.filter (sin (deliverable s t (shared_pending (prc s p)))) (seqZ 1 64)).

Definition take (s : sys) (t p : Z) (d : bool * Z) : sys :=
  if d.1 then upd_thr s t (λ x, set_pending (Z.land (sig_pending x) (not64 (sigmask d.2))) (sig_info x) x)
  else clear_shared s p (sigmask d.2).
Definition info_of (s : sys) (t p : Z) (d : bool * Z) : siginfo_t :=
  if d.1 then sig_info (thr s t) (d.2 - 1) else shared_info (prc s p) (d.2 - 1).

Lemma ctz_from_find n i x :
  ctz_from n i x = match List.find (Z.testbit x) (seqZ i (Z.of_nat n)) with Some j => j | None => i + Z.of_nat n end.
Proof.
  revert i. induction n as [|n IH]; intros i; [rewrite seqZ_nil by lia; cbn; lia|]. rewrite seqZ_cons by lia. cbn [ctz_from List.find].
  destruct (Z.testbit x i); [done|]. rewrite IH. replace (Z.pred (Z.of_nat (S n))) with (Z.of_nat n) by lia. replace (Z.succ i) with (i + 1) by lia.
  destruct (List.find _ _); [done|lia].
Qed.

Lemma find_ext {A} (f g : A → bool) l : (∀ x, x ∈ l → f x = g x) → List.find f l = List.find g l.
Proof.
  induction l as [|x l IH]; intros H; [done|]. cbn. rewrite (H x) by apply list_elem_of_here. destruct (g x); [done|]. apply IH. intros y Hy. apply H. by right.
Qed.
Lemma find_head {A} (f : A → bool) l : List.find f l = head (List.filter f l).
Proof. induction l as [|x l IH]; [done|]. cbn. by destruct (f x). Qed.
Lemma find_map {A B} (h : A → B) f l : List.find f (map h l) = h <$> List.find (λ x, f (h x)) l.
Proof. induction l as [|x l IH]; [done|]. cbn. by destruct (f (h x)). Qed.

Lemma ctz_head x : u64_ok x → x ≠ 0 → Some (ctzll x + 1) = head (List.filter (sin x) (seqZ 1 64)).
Proof.
  intros Hx Hne. rewrite <-find_head. unfold ctzll. rewrite ctz_from_find.
  assert (seqZ 1 64 = map (Z.add 1) (seqZ 0 64)) as -> by (vm_compute; reflexivity).
  rewrite find_map. rewrite (find_ext (λ y, sin x (1 + y)) (Z.testbit x)) by (intros y _; unfold sin; f_equal; lia).
  change (Z.of_nat 64) with 64. destruct (List.find (Z.testbit x) (seqZ 0 64)) as [j|] eqn:E; [cbn; f_equal; lia|].
  exfalso. apply Hne. apply Z.eqb_eq, (sset_empty x Hx). intros g Hg. unfold sin. apply (find_none _ _ E).
  apply list_elem_of_In, elem_of_seqZ. unfold sig_ok in Hg. lia.
Qed.

Lemma find_filter {A} (f g : A → bool) l : (∀ x, x ∈ l → f x = true → g x = true) → List.find f (List.filter g l) = List.find f l.
Proof.
  induction l as [|x l IH]; intros H; [done|]. cbn. assert (List.find f (List.filter g l) = List.find f l) as E by (apply IH; intros y Hy; apply H; by right).
  destruct (g x) eqn:G; cbn; [by rewrite E|]. destruct (f x) eqn:F; [|done]. rewrite (H x) in G; [done|apply list_elem_of_here|done].
Qed.

Lemma find_app {A} (f : A → bool) l k : List.find f (l ++ k) = match List.find f l with Some x => Some x | None => List.find f k end.
Proof. induction l as [|x l IH]; [done|]. cbn. by destruct (f x). Qed.

Lemma pick_head x : u64_ok x → x ≠ 0 → Some (pick x) = head (List.filter (sin x) prio_list).
Proof.
  intros Hx Hne. rewrite <-find_head. unfold pick, prio_list. rewrite find_app.
  rewrite (find_ext (λ g, negb (Z.land x (sigmask g) =? 0)) (sin x)).
  2:{ intros g Hg. rewrite land_sigmask, negb_involutive; [done..|]. unfold sync_signals, sig_ok in *. set_solver by lia. }
  destruct (List.find (sin x) sync_signals) as [g|] eqn:E; [done|]. rewrite ctz_head by done. rewrite <-find_head. symmetry. apply find_filter.
  intros g _ Hs. destruct (existsb (Z.eqb g) sync_signals) eqn:F; [|done]. apply existsb_exists in F as (h & Hh & ->%Z.eqb_eq).
  by rewrite (find_none _ _ E h Hh) in Hs.
Qed.

Lemma filter_remove (f g : Z → bool) l x r :
  NoDup l → List.filter f l = x :: r → (∀ y, y ∈ l → g y = f y && negb (y =? x)) → List.filter g l = r.
Proof.
  induction l as [|y l IH]; intros Hd E H; [done|]. apply NoDup_cons in Hd as [Hy Hd]. cbn in *. rewrite (H y) by apply list_elem_of_here.
  destruct (f y) eqn:F.
  - injection E as -> <-. rewrite Z.eqb_refl. cbn. apply filter_ext_in. intros z Hz%list_elem_of_In. rewrite H by by right.
    destruct (Z.eqb_spec z x) as [->|]; [done|apply andb_true_r].
  - cbn. apply IH; [done..|]. intros z Hz. apply H. by right.
Qed.

Lemma NoDup_prio : NoDup prio_list.
Proof. apply (bool_decide_unpack _). vm_compute. exact I. Qed.
Lemma prio_sig g : g ∈ prio_list → sig_ok g.
Proof.
  unfold prio_list. rewrite elem_of_app. intros [H|H].
  - unfold sync_signals, sig_ok in *. set_solver by lia.
  - apply list_elem_of_In, filter_In in H as [H%list_elem_of_In%elem_of_seqZ _]. unfold sig_ok. lia.
Qed.
Lemma seq_sig g : g ∈ seqZ 1 64 ↔ sig_ok g.
Proof. rewrite elem_of_seqZ. unfold sig_ok. lia. Qed.

Lemma prio_all g : sig_ok g → g ∈ prio_list.
Proof.
  intros Hg%seq_sig. unfold prio_list. rewrite elem_of_app. destruct (existsb (Z.eqb g) sync_signals) eqn:E.
  - left. apply existsb_exists in E as (h & Hh & ->%Z.eqb_eq). by apply list_elem_of_In.
  - right. apply list_elem_of_In, filter_In. rewrite <-list_elem_of_In. by rewrite E.
Qed.

(** The sets of a thread and its process are 64-bit words. *)
Definition words (s : sys) (t p : Z) : Prop :=
  u64_ok (sig_blocked (thr s t)) ∧ u64_ok (sig_pending (thr s t)) ∧ u64_ok (shared_pending (prc s p)).

Lemma sin_take x g h : u64_ok x → sig_ok g → sig_ok h → sin (Z.land x (not64 (sigmask g))) h = sin x h && negb (h =? g).
Proof. intros. autorewrite with olux_sig. done. Qed.

Lemma deliverable_take s t s' x x' g h :
  u64_ok (sig_blocked (thr s t)) → u64_ok x → sig_ok g → sig_ok h → sig_blocked (thr s' t) = sig_blocked (thr s t) → x' = Z.land x (not64 (sigmask g)) →
  sin (deliverable s' t x') h = sin (deliverable s t x) h && negb (h =? g).
Proof.
  intros Hb Hx Hg Hh E ->. unfold deliverable. rewrite E. autorewrite with olux_sig. destruct (sin x h), (sin (sig_blocked (thr s t)) h); cbn; done || by rewrite andb_comm.
Qed.

Lemma queue_sig s t p d : d ∈ queue s t p → sig_ok d.2.
Proof.
  unfold queue. rewrite list_elem_of_In, in_app_iff, !in_map_iff. intros [(g & <- & [H _]%filter_In)|(g & <- & [H _]%filter_In)]; apply list_elem_of_In in H;
    [by apply prio_sig|by apply seq_sig].
Qed.

(** [dequeue_signal] takes the first of the queue. *)
Lemma dequeue_spec s t p :
  words s t p →
  dequeue_signal s t p = match queue s t p with [] => (s, None) | d :: _ => (take s t p d, Some (d.2, info_of s t p d)) end.
Proof.
  intros (Hb & Hp & Hs). unfold dequeue_signal, queue. fold (deliverable s t (sig_pending (thr s t))) (deliverable s t (shared_pending (prc s p))).
  assert (∀ x, u64_ok x → u64_ok (deliverable s t x)) as Hd by (intros; unfold deliverable; auto with olux).
  destruct (Z.eqb_spec (deliverable s t (sig_pending (thr s t))) 0) as [E|E]; cbn [negb].
  - assert (∀ l, List.filter (sin 0) l = []) as Hn by (induction l as [|? ? IH]; cbn; [done|by rewrite sin_0]).
    rewrite E, Hn. cbn [map app]. destruct (Z.eqb_spec (deliverable s t (shared_pending (prc s p))) 0) as [E'|E']; cbn [negb]; [by rewrite E', Hn|].
    pose proof (ctz_head _ (Hd _ Hs) E') as Hh. destruct (List.filter _ (seqZ 1 64)) as [|g r]; [done|]. injection Hh as ->. done.
  - pose proof (pick_head _ (Hd _ Hp) E) as Hh. destruct (List.filter _ prio_list) as [|g r]; [done|]. injection Hh as ->. done.
Qed.

Lemma tagged_cons (A B : list Z) d r :
  map (pair true) A ++ map (pair false) B = d :: r →
  (∃ g l, A = g :: l ∧ d = (true, g) ∧ r = map (pair true) l ++ map (pair false) B) ∨
  (A = [] ∧ ∃ g l, B = g :: l ∧ d = (false, g) ∧ r = map (pair true) [] ++ map (pair false) l).
Proof.
  destruct A as [|g A]; cbn.
  - intros E. right. split; [done|]. destruct B as [|h B]; [done|]. injection E as <- <-. by exists h, B.
  - intros [= <- <-]. left. by exists g, A.
Qed.

Lemma deliverable_eq s s' t x : sig_blocked (thr s' t) = sig_blocked (thr s t) → deliverable s' t x = deliverable s t x.
Proof. intros E. unfold deliverable. by rewrite E. Qed.

Lemma take_fields s t p d :
  sig_blocked (thr (take s t p d) t) = sig_blocked (thr s t) ∧
  sig_pending (thr (take s t p d) t) = (if d.1 then Z.land (sig_pending (thr s t)) (not64 (sigmask d.2)) else sig_pending (thr s t)) ∧
  shared_pending (prc (take s t p d) p) = (if d.1 then shared_pending (prc s p) else Z.land (shared_pending (prc s p)) (not64 (sigmask d.2))).
Proof. unfold take, clear_shared. destruct d.1; cbn; rewrite fn_lookup_insert; done. Qed.

Lemma queue_take s t p d r : words s t p → queue s t p = d :: r → queue (take s t p d) t p = r ∧ words (take s t p d) t p.
Proof.
  intros (Hb & Hp & Hs) E. assert (sig_ok d.2) as Hg by (apply (queue_sig s t p); rewrite E; apply list_elem_of_here).
  destruct (take_fields s t p d) as (Eb & Ep & Es). split.
  2:{ unfold words. rewrite Eb, Ep, Es. destruct d.1; split_and!; auto with olux. }
  assert (∀ x, deliverable (take s t p d) t x = deliverable s t x) as Ed by (intros; by apply deliverable_eq).
  unfold queue. rewrite Ep, Es, !Ed. clear Ed. apply tagged_cons in E as [(g & l & F & -> & ->)|(F & g & l & G & -> & ->)]; cbn [fst snd] in *.
  - assert (List.filter (sin (deliverable s t (Z.land (sig_pending (thr s t)) (not64 (sigmask g))))) prio_list = l) as ->; [|reflexivity].
    apply (filter_remove _ _ _ _ _ NoDup_prio F). intros y Hy%prio_sig. by apply deliverable_take.
  - rewrite F. assert (List.filter (sin (deliverable s t (Z.land (shared_pending (prc s p)) (not64 (sigmask g))))) (seqZ 1 64) = l) as ->; [|reflexivity].
    apply (filter_remove _ _ _ _ _ (NoDup_seqZ _ _) G). intros y Hy%seq_sig. by apply deliverable_take.
Qed.

(** ** What a signal does *)

Inductive effect : Type := Skip | Stop | Kill | Catch.
#[export] Instance effect_eq_dec : EqDecision effect.
Proof. solve_decision. Defined.

Definition effect_of (s : sys) (p g : Z) (ka : k_sigaction) : effect :=
  if handler ka =? SIG_IGN then Skip
  else if handler ka =? SIG_DFL then
    match default_action g with
    | SIG_ACT_IGN | SIG_ACT_CONT => Skip
    | a =>
        if (p =? init_process s) && negb (g =? SIGKILL) then Skip
        else if bool_decide (a = SIG_ACT_STOP) then
          if negb (g =? SIGSTOP) && is_orphaned_pgrp s (pgid (prc s p)) then Skip else Stop
        else Kill
    end
  else Catch.

Definition has_effect (s : sys) (p g : Z) (e : effect) : Prop := ∃ ka, act s p g = Some ka ∧ effect_of s p g ka = e.
Definition skipped (s : sys) (p : Z) (d : bool * Z) : Prop := has_effect s p d.2 Skip.

(** What decides the effect of a signal is the same in two states. *)
Record same_rules (s s' : sys) : Prop := {
  sr_act : action s' = action s;
  sr_init : init_process s' = init_process s;
  sr_all : all_processes s' = all_processes s;
  sr_prc q : pgid (prc s' q) = pgid (prc s q) ∧ sid (prc s' q) = sid (prc s q) ∧ parent (prc s' q) = parent (prc s q) ∧
             p_state (prc s' q) = p_state (prc s q) ∧ sighand (prc s' q) = sighand (prc s q);
}.

Lemma same_rules_effect s s' p g ka : same_rules s s' → effect_of s' p g ka = effect_of s p g ka.
Proof.
  intros [Ha Hi Hl Hq]. unfold effect_of. rewrite Hi. destruct (Hq p) as (-> & _).
  assert (is_orphaned_pgrp s' (pgid (prc s p)) = is_orphaned_pgrp s (pgid (prc s p))) as ->; [|done].
  unfold is_orphaned_pgrp. rewrite Hl. clear Hl. induction (all_processes s) as [|q l IH]; [done|]. cbn. rewrite IH.
  destruct (Hq q) as (-> & -> & -> & -> & _). destruct (parent (prc s q)) as [pp|]; [|done]. by destruct (Hq pp) as (-> & -> & _).
Qed.
Lemma same_rules_act s s' p g : same_rules s s' → act s' p g = act s p g.
Proof. intros [Ha _ _ Hq]. unfold act. destruct (Hq p) as (_ & _ & _ & _ & ->). by rewrite Ha. Qed.
Lemma same_rules_has s s' p g e : same_rules s s' → has_effect s p g e → has_effect s' p g e.
Proof. intros H (ka & Ha & He). exists ka. by rewrite (same_rules_act s s'), (same_rules_effect s s'). Qed.

#[export] Instance same_rules_refl : Reflexive same_rules.
Proof. by split. Qed.
#[export] Instance same_rules_trans : Transitive same_rules.
Proof.
  intros a b c [A1 A2 A3 A4] [B1 B2 B3 B4]. split; [by rewrite B1|by rewrite B2|by rewrite B3|]. intros q.
  destruct (A4 q) as (<- & <- & <- & <- & <-). apply B4.
Qed.
Lemma same_rules_thr s t f : same_rules s (upd_thr s t f).
Proof. done. Qed.
Lemma same_rules_prc s p f :
  (∀ q, pgid (f q) = pgid q ∧ sid (f q) = sid q ∧ parent (f q) = parent q ∧ p_state (f q) = p_state q ∧ sighand (f q) = sighand q) → same_rules s (upd_prc s p f).
Proof.
  intros H. split; [done..|]. intros q. cbn. destruct (decide (p = q)) as [->|]; [rewrite fn_lookup_insert; apply H|by rewrite fn_lookup_insert_ne].
Qed.
Lemma same_rules_take s t p d : same_rules s (take s t p d).
Proof. unfold take. destruct d.1; [apply same_rules_thr|by apply same_rules_prc]. Qed.

(** Between two states the signals [l] were taken, and nothing else happened to
    the pending sets of [t] and [p]. *)
Definition taken (s s' : sys) (t p : Z) (l : list (bool * Z)) : Prop :=
  ∀ g, sig_ok g →
    sin (sig_pending (thr s' t)) g = sin (sig_pending (thr s t)) g && negb (bool_decide ((true, g) ∈ l)) ∧
    sin (shared_pending (prc s' p)) g = sin (shared_pending (prc s p)) g && negb (bool_decide ((false, g) ∈ l)).

Lemma taken_nil s t p : taken s s t p [].
Proof. intros g _. by rewrite !bool_decide_false, !andb_true_r by apply not_elem_of_nil. Qed.
Lemma taken_take s t p d : words s t p → sig_ok d.2 → taken s (take s t p d) t p [d].
Proof.
  intros (Hb & Hp & Hs) Hd g Hg. destruct d as [[] h]; cbn in Hd; unfold take, clear_shared; cbn; rewrite fn_lookup_insert; cbn; rewrite sin_take by done.
  - rewrite (bool_decide_false ((false, g) ∈ [(true, h)])) by set_solver. rewrite andb_true_r. split; [|done]. f_equal. f_equal.
    destruct (Z.eqb_spec g h) as [->|]; symmetry; [apply bool_decide_true|apply bool_decide_false]; set_solver.
  - rewrite (bool_decide_false ((true, g) ∈ [(false, h)])) by set_solver. rewrite andb_true_r. split; [done|]. f_equal. f_equal.
    destruct (Z.eqb_spec g h) as [->|]; symmetry; [apply bool_decide_true|apply bool_decide_false]; set_solver.
Qed.
Lemma taken_app s1 s2 s3 t p l k : taken s1 s2 t p l → taken s2 s3 t p k → taken s1 s3 t p (l ++ k).
Proof.
  intros A B g Hg. destruct (A g Hg) as [A1 A2], (B g Hg) as [-> ->]. rewrite A1, A2, <-!andb_assoc, <-!negb_orb, <-!bool_decide_or.
  split; do 2 f_equal; apply bool_decide_ext; by rewrite elem_of_app.
Qed.

(** ** Waking *)

(** Between two states some threads were made runnable, and nothing else. *)
Record awake (s s' : sys) : Prop := {
  aw_prc : prc s' = prc s;
  aw_action : action s' = action s;
  aw_all : all_processes s' = all_processes s ∧ all_threads s' = all_threads s ∧ init_process s' = init_process s ∧ allocs s' = allocs s;
  aw_thr u : thr s' u = thr s u ∨ thr s' u = set_state TASK_RUNNING (thr s u);
  aw_queue : child_wait s' = child_wait s;
}.

#[export] Instance awake_refl : Reflexive awake.
Proof. split; auto. Qed.
#[export] Instance awake_trans : Transitive awake.
Proof.
  intros a b c [A1 A2 (A3 & A4 & A5 & A6) A7 A8] [B1 B2 (B3 & B4 & B5 & B6) B7 B8]. split; [congruence..| | |congruence]; [split_and!; congruence|].
  intros u. destruct (A7 u) as [E|E], (B7 u) as [F|F]; rewrite F, E; auto.
Qed.

Lemma awake_wake s t m : awake s (try_to_wake_up s t m).
Proof.
  unfold try_to_wake_up. destruct (_ =? 0); [done|]. split; [done..| |done]. intros u. cbn. destruct (decide (t = u)) as [->|]; [rewrite fn_lookup_insert|rewrite fn_lookup_insert_ne by done]; auto.
Qed.
Lemma awake_fold {A} (f : sys → A → sys) l s : (∀ s x, awake s (f s x)) → awake s (fold_left f l s).
Proof. intros H. revert s. induction l as [|x l IH]; intros s; [done|]. cbn. etrans; [apply H|apply IH]. Qed.
Lemma awake_taker l s g : awake s (wake_taker s l g).
Proof.
  revert s. induction l as [|u l IH]; intros s; [done|]. cbn. destruct (_ || _); [|done].
  destruct (g =? SIGKILL); [etrans; [apply awake_wake|apply IH]|apply awake_wake].
Qed.

Lemma awake_children s p : awake s (wake_children s p).
Proof. apply awake_fold. intros. apply awake_wake. Qed.
Lemma awake_parent s p : awake s (wake_parent s p).
Proof. unfold wake_parent. destruct (parent _); [apply awake_children|done]. Qed.

Lemma awake_stopped s p : awake s (wake_parent (wake_stopped s p) p).
Proof. etrans; [|apply awake_parent]. apply awake_fold. intros. apply awake_wake. Qed.

Lemma awake_rules s s' : awake s s' → same_rules s s'.
Proof. intros [E1 E2 (E3 & _ & E4 & _) _]. split; [done..|]. intros q. by rewrite E1. Qed.

(** ** Delivery *)

Section delivery.
Context (cw : Z → Z → bool).

(** The part of the loop that runs a handler. *)
Definition catch (fuel : nat) (s : sys) (t p g : Z) (ka : k_sigaction) (info : siginfo_t) : option (sys * verdict) :=
  let s := upd_thr s t (λ x, set_regs (handle_restart (user_regs x) (Some ka)) x) in
  let x := thr s t in
  let old := if restore_sigmask x then saved_sigmask x else sig_blocked x in
  let s := upd_thr s t (set_saved (saved_sigmask x) false) in
  match setup_frame cw s t p g ka info old with
  | (s, inl _) => s ← force_sig_fault s t p SIGSEGV SI_KERNEL (r_sp (user_regs (thr s t))); signal_loop cw fuel s t p
  | (s, inr f) => Some (enter_handler s t p g ka, Returned (Some f))
  end.

Lemma loop_step fuel s t p d r ka :
  words s t p → exiting (prc s p) = false → group_stop (prc s p) = false → queue s t p = d :: r → act s p d.2 = Some ka →
  signal_loop cw (S fuel) s t p =
    match effect_of s p d.2 ka with
    | Skip => signal_loop cw fuel (take s t p d) t p
    | Stop => s' ← process_stop_all (take s t p d) t p d.2; signal_loop cw fuel s' t p
    | Kill => Some (take s t p d, GroupExited d.2)
    | Catch => catch fuel (take s t p d) t p d.2 ka (info_of s t p d)
    end.
Proof.
  intros Hw He Hg Hq Ha. cbn [signal_loop]. rewrite He, Hg, dequeue_spec, Hq by done.
  pose proof (same_rules_take s t p d) as Hr. rewrite (same_rules_act s _ _ _ Hr), Ha. cbn [mbind option_bind]. rewrite <-(same_rules_effect s _ p d.2 ka Hr). unfold effect_of.
  destruct (handler ka =? SIG_IGN); [done|]. destruct (handler ka =? SIG_DFL); [|done].
  destruct (default_action d.2); cbn; (destruct ((p =? init_process (take s t p d)) && negb (d.2 =? 9)); [done|]); try done; by destruct (_ && _).
Qed.

Lemma loop_end fuel s t p :
  words s t p → exiting (prc s p) = false → group_stop (prc s p) = false → queue s t p = [] →
  signal_loop cw (S fuel) s t p = Some (no_handler s t, Returned None).
Proof. intros Hw He Hg Hq. cbn [signal_loop]. by rewrite He, Hg, dequeue_spec, Hq. Qed.

Definition take_all (s : sys) (t p : Z) (l : list (bool * Z)) : sys := fold_left (λ s d, take s t p d) l s.

(** What taking signals leaves alone. *)
Record only_taken (s s' : sys) (t p : Z) (l : list (bool * Z)) : Prop := {
  ot_rules : same_rules s s';
  ot_taken : taken s s' t p l;
  ot_words : words s' t p;
  ot_exiting : exiting (prc s' p) = exiting (prc s p);
  ot_stop : group_stop (prc s' p) = group_stop (prc s p);
  ot_sigtramp : sigtramp (prc s' p) = sigtramp (prc s p);
  ot_allocs : allocs s' = allocs s;
  ot_thr u : ∃ x, thr s' u = set_pending x (sig_info (thr s u)) (thr s u);
  ot_info : shared_info (prc s' p) = shared_info (prc s p);
}.

Lemma only_taken_nil s t p : words s t p → only_taken s s t p [].
Proof. intros Hw. split; try done; [apply taken_nil|]. intros u. exists (sig_pending (thr s u)). by destruct (thr s u). Qed.

Lemma only_taken_one s t p d r : words s t p → queue s t p = d :: r → only_taken s (take s t p d) t p [d].
Proof.
  intros Hw E. assert (sig_ok d.2) as Hg by (apply (queue_sig s t p); rewrite E; apply list_elem_of_here).
  split; [apply same_rules_take|by apply taken_take|by eapply queue_take|..]; unfold take, clear_shared; destruct d.1; cbn; rewrite ?fn_lookup_insert; try done.
  - intros u. destruct (decide (t = u)) as [->|]; [rewrite fn_lookup_insert; by eexists|rewrite fn_lookup_insert_ne by done].
    exists (sig_pending (thr s u)). by destruct (thr s u).
  - intros u. exists (sig_pending (thr s u)). by destruct (thr s u).
Qed.

Lemma only_taken_trans s1 s2 s3 t p l k : only_taken s1 s2 t p l → only_taken s2 s3 t p k → only_taken s1 s3 t p (l ++ k).
Proof.
  intros [A1 A2 A3 A4 A5 A6 A7 A8 A9] [B1 B2 B3 B4 B5 B6 B7 B8 B9]. split; [by etrans|by eapply taken_app|done|by rewrite B4|by rewrite B5|by rewrite B6|by rewrite B7| |by rewrite B9].
  intros u. destruct (A8 u) as [x Hx], (B8 u) as [y Hy]. exists y. rewrite Hy, Hx. done.
Qed.

Lemma take_all_spec pre rest s t p :
  words s t p → queue s t p = pre ++ rest → only_taken s (take_all s t p pre) t p pre ∧ queue (take_all s t p pre) t p = rest.
Proof.
  revert s. induction pre as [|d pre IH]; intros s Hw E; [split; [by apply only_taken_nil|done]|].
  destruct (queue_take s t p d (pre ++ rest) Hw E) as [E' Hw']. destruct (IH _ Hw' E') as [Ho Hq]. split; [|done].
  apply (only_taken_trans s (take s t p d) _ t p [d] pre); [by eapply only_taken_one|done].
Qed.

Lemma signal_loop_skip fuel pre rest s t p :
  words s t p → exiting (prc s p) = false → group_stop (prc s p) = false → queue s t p = pre ++ rest → Forall (skipped s p) pre →
  signal_loop cw (length pre + fuel) s t p = signal_loop cw fuel (take_all s t p pre) t p.
Proof.
  revert s. induction pre as [|d pre IH]; intros s Hw He Hg E Hs; [done|]. apply Forall_cons in Hs as [(ka & Ha & Hk) Hs]. cbn [length Nat.add].
  rewrite (loop_step _ _ _ _ d (pre ++ rest) ka) by done. rewrite Hk. destruct (only_taken_one s t p d _ Hw E) as [Hr _ Hw' He' Hg' _ _ _ _].
  apply IH; [done|by rewrite He'|by rewrite Hg'|by apply queue_take|]. eapply Forall_impl; [done|]. intros d'. by apply same_rules_has.
Qed.

(** *** Stopping *)

(** The notice to a parent changes the parent's pending signals and wakes threads. *)
Lemma notify_spec s pp info ka :
  act s pp SIGCHLD = Some ka →
  ∃ s', send_signal_process s pp SIGCHLD info = Some (s', 0) ∧ (∀ q, q ≠ pp → prc s' q = prc s q) ∧
    (∀ u, thr s' u = thr s u ∨ thr s' u = set_state TASK_RUNNING (thr s u)).
Proof.
  intros Ha. unfold send_signal_process. change ((SIGCHLD <? 0) || (NSIG <? SIGCHLD)) with false. change (SIGCHLD =? 0) with false. cbn iota.
  destruct (p_state (prc s pp) =? PROC_ZOMBIE); [exists s; auto|]. change (prepare_signal s pp SIGCHLD) with s.
  unfold sig_ignored. change ((SIGCHLD =? SIGKILL) || (SIGCHLD =? SIGSTOP)) with false. cbn iota. rewrite Ha. cbn [mbind option_bind].
  destruct (_ && negb (wanted s pp SIGCHLD)); [exists s; auto|]. eexists. split; [reflexivity|].
  destruct (awake_taker (threads (prc (queue_process s pp SIGCHLD info) pp)) (queue_process s pp SIGCHLD info) SIGCHLD) as [E _ _ Ht].
  split; [|exact Ht]. intros q Hq. rewrite E. cbn. by rewrite fn_lookup_insert_ne.
Qed.

Lemma stop_spec s t p g :
  (∀ pp, parent (prc s p) = Some pp → pp ≠ p ∧ ∃ ka, act s pp SIGCHLD = Some ka) → group_stop (prc s p) = false →
  ∃ s', process_stop_all s t p g = Some s' ∧ prc s' p = set_stop true false (cont_reported (prc s p)) g (prc s p) ∧
    (∀ u, thr s' u = thr s u ∨ thr s' u = set_state TASK_RUNNING (thr s u)).
Proof.
  intros Hp Hg. unfold process_stop_all. rewrite Hg. set (s1 := upd_prc s p _). set (s2 := fold_left _ _ _).
  assert (awake s1 s2) as Haw by (apply awake_fold; intros a x; destruct (x =? t); [done|apply awake_wake]).
  assert (prc s1 p = set_stop true false (cont_reported (prc s p)) g (prc s p)) as E1 by (cbn; by rewrite fn_lookup_insert).
  assert (same_rules s s2) as Hr by (transitivity s1; [by apply same_rules_prc|by apply awake_rules]).
  pose proof Haw as [Ep _ _ Ht]. rewrite Ep, E1. cbn [parent set_stop]. destruct (parent (prc s p)) as [pp|]; [|exists s2; rewrite Ep; auto].
  destruct (Hp pp eq_refl) as (Hne & ka & Ha). rewrite (same_rules_act s s2) by done. rewrite Ha. cbn [mbind option_bind].
  set (notice := if _ && _ then _ else _). assert (∃ s3, notice = Some s3 ∧ prc s3 p = prc s2 p ∧ ∀ u, thr s3 u = thr s2 u ∨ thr s3 u = set_state TASK_RUNNING (thr s2 u)) as (s3 & E3 & Hq & Hu).
  { unfold notice. destruct (_ && _); [|exists s2; auto].
    destruct (notify_spec s2 pp (Some (SigInfo SIGCHLD CLD_STOPPED (ids (pid (set_stop true false (cont_reported (prc s p)) g (prc s p))) 0) g)) ka) as (s3 & E3 & Hq & Hu);
      [by rewrite (same_rules_act s)|]. rewrite E3. exists s3. auto. }
  rewrite E3. destruct (awake_children s3 pp) as [Ew _ _ Hw _]. eexists. split; [reflexivity|]. split; [rewrite Ew, Hq, Ep; done|].
  intros u. destruct (Ht u) as [A|A], (Hu u) as [B|B], (Hw u) as [C|C]; rewrite C, B, A; auto.
Qed.

(** *** Running a handler *)

(** The frame for [ka] can be written. *)
Definition frame_ok (s : sys) (t : Z) (ka : k_sigaction) : bool :=
  (kmem s).1 && cw (frame_base (thr s t) ka) FRAME_SIZE && cw (frame_base (thr s t) ka ⊕ FRAME_SIZE) RECORD_SIZE.
(** A forced SIGSEGV ends the process. *)
Definition segv_kills (s : sys) (t p : Z) : Prop :=
  p ≠ init_process s ∧ ∃ ks, act s p SIGSEGV = Some ks ∧ (sin (sig_blocked (thr s t)) SIGSEGV = true ∨ handler ks = SIG_IGN ∨ handler ks = SIG_DFL).

Definition restart_regs (s : sys) (t : Z) (ka : option k_sigaction) : pt_regs := handle_restart (user_regs (thr s t)) ka.
(** The mask to come back to. *)
Definition old_mask (s : sys) (t : Z) : Z := if restore_sigmask (thr s t) then saved_sigmask (thr s t) else sig_blocked (thr s t).

Record caught (s s' : sys) (t p : Z) (d : bool * Z) (ka : k_sigaction) (f : Z * rt_sigframe * (Z * Z)) : Prop := {
  ca_frame : f = (frame_base (thr s t) ka, make_frame (set_regs (restart_regs s t (Some ka)) (thr s t)) (info_of s t p d) (old_mask s t),
                  (regs (restart_regs s t (Some ka)) 29, regs (restart_regs s t (Some ka)) 30));
  ca_regs : user_regs (thr s' t) =
    handler_regs (restart_regs s t (Some ka)) d.2 (frame_base (thr s t) ka)
      (if negb (Z.land (sa_flags ka) SA_RESTORER =? 0) then restorer ka else sigtramp (prc s p)) (handler ka);
  ca_mask g : sig_ok g → u64_ok (sa_mask ka) →
    sin (sig_blocked (thr s' t)) g =
      sin (sig_blocked (thr s t)) g || (sin (sa_mask ka) g && negb ((g =? SIGKILL) || (g =? SIGSTOP))) ||
      ((Z.land (sa_flags ka) SA_NODEFER =? 0) && (g =? d.2));
  ca_restore : restore_sigmask (thr s' t) = false;
  ca_rest : sigaltstack (thr s' t) = sigaltstack (thr s t) ∧ fpsimd (thr s' t) = fpsimd (thr s t);
  ca_table : ∀ g, act s' p g = if (g =? d.2) && negb (Z.land (sa_flags ka) SA_RESETHAND =? 0) then Some (set_handler SIG_DFL ka) else act s p g;
}.

Lemma restart_sp r ka : r_sp (handle_restart r ka) = r_sp r.
Proof. unfold handle_restart. repeat case_match; done. Qed.

Lemma frame_base_eq x y ka : r_sp (user_regs y) = r_sp (user_regs x) → sigaltstack y = sigaltstack x → frame_base y ka = frame_base x ka.
Proof. intros E1 E2. unfold frame_base, on_sig_stack. by rewrite E1, E2. Qed.

Lemma kmem_thr s : thr (kmem s).2 = thr s ∧ prc (kmem s).2 = prc s ∧ action (kmem s).2 = action s ∧ all_processes (kmem s).2 = all_processes s ∧ init_process (kmem s).2 = init_process s.
Proof. unfold kmem. by destruct (allocs s). Qed.
Lemma kmem_eq s s' : allocs s' = allocs s → (kmem s').1 = (kmem s).1.
Proof. unfold kmem. intros ->. by destruct (allocs s). Qed.

Lemma enter_handler_fields s t p g ka :
  sig_ok g → act s p g = Some ka →
  let s' := enter_handler s t p g ka in
  sig_blocked (thr s' t) = (let b := Z.lor (sig_blocked (thr s t)) (Z.land (sa_mask ka) (not64 SIG_KERNEL_ONLY)) in
                            if Z.land (sa_flags ka) SA_NODEFER =? 0 then Z.lor b (sigmask g) else b) ∧
  thr s' t = set_blocked (sig_blocked (thr s' t)) (thr s t) ∧ prc s' = prc s ∧
  ∀ h, act s' p h = if (h =? g) && negb (Z.land (sa_flags ka) SA_RESETHAND =? 0) then Some (set_handler SIG_DFL ka) else act s p h.
Proof.
  intros Hg Ha. unfold enter_handler. set (s1 := upd_thr s t _). set (s2 := if _ =? 0 then _ else _). cbn zeta.
  assert (action s2 = action s ∧ prc s2 = prc s ∧ sig_blocked (thr s2 t) = (let b := Z.lor (sig_blocked (thr s t)) (Z.land (sa_mask ka) (not64 SIG_KERNEL_ONLY)) in
            if Z.land (sa_flags ka) SA_NODEFER =? 0 then Z.lor b (sigmask g) else b) ∧ thr s2 t = set_blocked (sig_blocked (thr s2 t)) (thr s t)) as (E1 & E2 & E3 & E4).
  { unfold s2, s1. destruct (_ =? 0); cbn; rewrite !fn_lookup_insert; done. }
  destruct (negb _).
  - split; [done|]. split; [done|]. split; [done|]. intros h. unfold act, put_act. cbn. rewrite E1, E2, fn_lookup_insert, andb_true_r.
    destruct (Z.eqb_spec h g) as [->|Hne]; [apply list_lookup_insert_eq; by apply lookup_lt_Some in Ha|].
    rewrite list_lookup_insert_ne; [done|]. unfold sig_ok in Hg. lia.
  - split; [done|]. split; [done|]. split; [done|]. intros h. rewrite andb_false_r. unfold act. by rewrite E1, E2.
Qed.

Lemma catch_ok fuel s t p d ka :
  words s t p → sig_ok d.2 → act s p d.2 = Some ka → frame_ok s t ka = true →
  ∃ s' f, catch fuel s t p d.2 ka (info_of s t p d) = Some (s', Returned (Some f)) ∧ caught s s' t p d ka f ∧
    sig_pending (thr s' t) = sig_pending (thr s t) ∧ prc s' = prc s.
Proof.
  intros (Hb & _ & _) Hg Ha Hf. unfold catch. set (s1 := upd_thr s t (λ x, _)). set (s2 := upd_thr s1 t _).
  assert (thr s1 t = set_regs (restart_regs s t (Some ka)) (thr s t)) as E1 by (cbn; by rewrite fn_lookup_insert).
  assert (thr s2 t = set_saved (saved_sigmask (thr s t)) false (thr s1 t)) as E2 by (cbn; rewrite !fn_lookup_insert; done).
  assert (frame_base (thr s2 t) ka = frame_base (thr s t) ka) as Eb by (apply frame_base_eq; rewrite E2, E1; [apply restart_sp|done]).
  unfold frame_ok in Hf. apply andb_true_iff in Hf as [[Hk W1]%andb_true_iff W2].
  assert ((kmem s2).1 = true) as Hk2 by (by rewrite (kmem_eq s)). destruct (kmem_thr s2) as (T1 & T2 & T3 & _).
  unfold setup_frame. rewrite Eb. destruct (kmem s2) as [ok s3] eqn:K. cbn in Hk2, T1, T2, T3. subst ok. cbn [negb]. rewrite W1, W2. cbn [negb orb].
  set (s4 := upd_thr s3 t _). assert (act s4 p d.2 = Some ka) as Ha4 by (unfold act in *; cbn; by rewrite T2, T3).
  destruct (enter_handler_fields s4 t p d.2 ka Hg Ha4) as (F1 & F2 & F3 & F4). cbn zeta in *.
  eexists _, _. split; [reflexivity|].
  assert (thr s4 t = set_regs (handler_regs (user_regs (thr s2 t)) d.2 (frame_base (thr s t) ka)
     (if negb (Z.land (sa_flags ka) SA_RESTORER =? 0) then restorer ka else sigtramp (prc s p)) (handler ka)) (thr s2 t)) as E4 by (cbn; rewrite fn_lookup_insert, T1, T2; done).
  split; [split|].
  - rewrite E2, E1. done.
  - rewrite F2, E4, E2, E1. done.
  - intros g Hgg Hm. rewrite F1, E4, E2, E1. cbn [sig_blocked set_regs set_saved].
    destruct (Z.land (sa_flags ka) SA_NODEFER =? 0); autorewrite with olux_sig; cbn [andb]; by rewrite ?orb_false_r.
  - rewrite F2, E4, E2. done.
  - rewrite F2, E4, E2, E1. done.
  - intros g. rewrite F4. assert (act s4 p g = act s p g) as -> by (unfold act; cbn; by rewrite T2, T3). done.
  - split; [rewrite F2, E4, E2, E1; done|]. rewrite F3. cbn. by rewrite T2.
Qed.

Lemma queue_segv s t p : sin (deliverable s t (sig_pending (thr s t))) SIGSEGV = true → ∃ r, queue s t p = (true, SIGSEGV) :: r.
Proof.
  intros H. unfold queue. assert (prio_list = SIGSEGV :: tail prio_list) as -> by (vm_compute; reflexivity). cbn [List.filter]. rewrite H. by eexists.
Qed.

(** A forced signal is pending, not blocked and not ignored. *)
Lemma force_spec s t p g code addr ka :
  words s t p → sig_ok g → act s p g = Some ka →
  ∃ s' ka', force_sig_fault s t p g code addr = Some s' ∧ words s' t p ∧ sin (deliverable s' t (sig_pending (thr s' t))) g = true ∧
    act s' p g = Some ka' ∧
    handler ka' = (if sin (sig_blocked (thr s t)) g || (handler ka =? SIG_IGN) then SIG_DFL else handler ka) ∧
    prc s' = prc s ∧ init_process s' = init_process s ∧ all_processes s' = all_processes s.
Proof.
  intros (Hb & Hp & Hs) Hg Ha. unfold force_sig_fault. rewrite Ha. cbn [mbind option_bind]. rewrite land_sigmask, negb_involutive by done.
  set (s1 := if _ || _ then _ else _). set (b := sin (sig_blocked (thr s t)) g || (handler ka =? SIG_IGN)) in *.
  assert (prc s1 = prc s ∧ init_process s1 = init_process s ∧ all_processes s1 = all_processes s ∧ sig_pending (thr s1 t) = sig_pending (thr s t) ∧
    u64_ok (sig_blocked (thr s1 t)) ∧ sin (sig_blocked (thr s1 t)) g = false ∧ ∃ ka', act s1 p g = Some ka' ∧ handler ka' = if b then SIG_DFL else handler ka) as (E1 & E2 & E3 & E4 & E5 & E6 & ka' & E7 & E8).
  { unfold s1. destruct b eqn:Eb.
    - split_and!; try done; cbn; rewrite ?fn_lookup_insert; cbn; [done|auto with olux|rewrite sin_take by done; by rewrite Z.eqb_refl, andb_false_r|].
      exists (set_handler SIG_DFL ka). split; [|done]. unfold act. cbn. rewrite fn_lookup_insert. apply list_lookup_insert_eq. by apply lookup_lt_Some in Ha.
    - apply orb_false_iff in Eb as [Eb _]. split_and!; try done. by exists ka. }
  eexists _, ka'. split; [reflexivity|]. unfold queue_thread, words, deliverable. cbn [prc upd_thr thr init_process all_processes]. rewrite fn_lookup_insert.
  unfold queue_signal. cbn [sig_blocked set_pending sig_pending]. rewrite E1, E4. split_and!; auto with olux.
  autorewrite with olux_sig. by rewrite E6, Z.eqb_refl, orb_true_r.
Qed.

Lemma setup_frame_fail s t p g ka info old :
  frame_ok s t ka = false → ∃ e, setup_frame cw s t p g ka info old = ((kmem s).2, inl e).
Proof.
  unfold frame_ok, setup_frame. destruct (kmem s) as [ok s']. cbn [fst snd]. destruct ok; cbn [negb andb]; [|by eexists].
  destruct (cw _ FRAME_SIZE); cbn [negb andb orb]; [intros ->|]; by eexists.
Qed.

Lemma catch_fail fuel s t p g ka info :
  words s t p → exiting (prc s p) = false → group_stop (prc s p) = false → frame_ok s t ka = false → segv_kills s t p →
  ∃ s', catch (S fuel) s t p g ka info = Some (s', GroupExited SIGSEGV).
Proof.
  intros Hw He Hgs Hf (Hi & ks & Ha & Hks). unfold catch. set (s1 := upd_thr s t (λ x, _)). set (s2 := upd_thr s1 t _).
  assert (thr s1 t = set_regs (restart_regs s t (Some ka)) (thr s t)) as E1 by (cbn; by rewrite fn_lookup_insert).
  assert (thr s2 t = set_saved (saved_sigmask (thr s t)) false (thr s1 t)) as E2 by (cbn; rewrite !fn_lookup_insert; done).
  assert (frame_base (thr s2 t) ka = frame_base (thr s t) ka) as Eb by (apply frame_base_eq; rewrite E2, E1; [apply restart_sp|done]).
  assert (frame_ok s2 t ka = false) as Hf2 by (unfold frame_ok in *; by rewrite Eb, (kmem_eq s)).
  destruct (kmem_thr s2) as (T1 & T2 & T3 & T4 & T5). destruct (setup_frame_fail s2 t p g ka info (if restore_sigmask (thr s1 t) then saved_sigmask (thr s1 t) else sig_blocked (thr s1 t)) Hf2) as [e ->].
  set (s3 := (kmem s2).2) in *. change (prc s2) with (prc s) in T2. change (action s2) with (action s) in T3. change (init_process s2) with (init_process s) in T5.
  assert (words s3 t p) as Hw3 by (unfold words in *; rewrite T1, T2, E2, E1; done).
  assert (act s3 p SIGSEGV = Some ks) as Ha3 by (unfold act in *; by rewrite T2, T3).
  destruct (force_spec s3 t p SIGSEGV SI_KERNEL (r_sp (user_regs (thr s3 t))) ks) as (s4 & k4 & -> & Hw4 & Hd & Ha4 & Hh & P4 & I4 & _); [done|done|done|].
  cbn [mbind option_bind]. destruct (queue_segv s4 t p Hd) as [r Hr].
  rewrite (loop_step fuel s4 t p (true, SIGSEGV) r k4); [|done|by rewrite P4, T2|by rewrite P4, T2|done|done].
  assert (handler k4 = SIG_DFL) as Hd4. { rewrite Hh, T1, E2, E1. cbn [sig_blocked set_regs set_saved]. destruct Hks as [E|[E|E]]; rewrite E; [reflexivity|destruct (sin (sig_blocked (thr s t)) SIGSEGV); reflexivity..]. }
  unfold effect_of. rewrite Hd4, I4, T5. cbn. rewrite (proj2 (Z.eqb_neq _ _) Hi). cbn. by eexists.
Qed.

(** *** A loop that does not end *)

(** SIGSEGV is pending and has a handler whose frame cannot be written. *)
Record stuck (s : sys) (t p : Z) (ka : k_sigaction) : Prop := {
  sk_words : words s t p;
  sk_live : exiting (prc s p) = false ∧ group_stop (prc s p) = false;
  sk_act : act s p SIGSEGV = Some ka;
  sk_handler : handler ka ≠ SIG_IGN ∧ handler ka ≠ SIG_DFL;
  sk_pending : sin (deliverable s t (sig_pending (thr s t))) SIGSEGV = true;
  sk_frame : cw (frame_base (thr s t) ka) FRAME_SIZE = false;
}.

Lemma catch_stuck fuel s t p ka info :
  words s t p → exiting (prc s p) = false ∧ group_stop (prc s p) = false → act s p SIGSEGV = Some ka → handler ka ≠ SIG_IGN ∧ handler ka ≠ SIG_DFL →
  sin (sig_blocked (thr s t)) SIGSEGV = false → cw (frame_base (thr s t) ka) FRAME_SIZE = false →
  ∃ s', catch fuel s t p SIGSEGV ka info = signal_loop cw fuel s' t p ∧ stuck s' t p ka ∧ prc s' = prc s.
Proof.
  intros (Hb & Hp & Hs) Hlive Ha [Hi Hd] Hnb Hf. unfold catch. set (s1 := upd_thr s t (λ x, _)). set (s2 := upd_thr s1 t _).
  assert (thr s2 t = set_saved (saved_sigmask (thr s t)) false (set_regs (restart_regs s t (Some ka)) (thr s t))) as E2 by (cbn; rewrite !fn_lookup_insert; done).
  assert (frame_base (thr s2 t) ka = frame_base (thr s t) ka) as Eb by (apply frame_base_eq; rewrite E2; [apply restart_sp|done]).
  assert (frame_ok s2 t ka = false) as Hf2 by (unfold frame_ok; rewrite Eb, Hf, andb_false_r; done).
  destruct (setup_frame_fail s2 t p SIGSEGV ka info (if restore_sigmask (thr s1 t) then saved_sigmask (thr s1 t) else sig_blocked (thr s1 t)) Hf2) as [e ->].
  destruct (kmem_thr s2) as (T1 & T2 & T3 & _). set (s3 := (kmem s2).2) in *. change (prc s2) with (prc s) in T2. change (action s2) with (action s) in T3.
  assert (act s3 p SIGSEGV = Some ka) as Ha3 by (unfold act in *; by rewrite T2, T3). assert (sig_ok SIGSEGV) as Hok by (unfold sig_ok; lia).
  unfold force_sig_fault. rewrite Ha3. cbn [mbind option_bind]. rewrite T1, E2. cbn [sig_blocked set_saved set_regs user_regs].
  rewrite land_sigmask, Hnb by done. rewrite (proj2 (Z.eqb_neq _ _) Hi). cbn [negb orb]. eexists. split; [reflexivity|].
  unfold queue_thread. set (s4 := upd_thr s3 t _).
  assert (sig_blocked (thr s4 t) = sig_blocked (thr s t) ∧ sig_pending (thr s4 t) = Z.lor (sig_pending (thr s t)) (sigmask SIGSEGV) ∧ frame_base (thr s4 t) ka = frame_base (thr s t) ka) as (B1 & B2 & B3).
  { cbn. rewrite fn_lookup_insert, T1, E2. cbn. split; [done|]. split; [done|]. by apply frame_base_eq; [apply restart_sp|]. }
  split; [|exact T2]. split; [| |exact Ha3|by split| |by rewrite B3].
  - unfold words. rewrite B1, B2. change (prc s4) with (prc s3). rewrite T2. split_and!; auto with olux.
  - change (prc s4) with (prc s3). by rewrite T2.
  - unfold deliverable. rewrite B1, B2. autorewrite with olux_sig. by rewrite Hnb, Z.eqb_refl, orb_true_r.
Qed.

Lemma stuck_step fuel s t p ka : stuck s t p ka → ∃ s', signal_loop cw (S fuel) s t p = signal_loop cw fuel s' t p ∧ stuck s' t p ka ∧ prc s' = prc s.
Proof.
  intros [Hw [He Hg] Ha [Hi Hd] Hp Hf]. destruct (queue_segv s t p Hp) as [r Hr]. rewrite (loop_step fuel s t p (true, SIGSEGV) r ka) by done.
  unfold effect_of. rewrite (proj2 (Z.eqb_neq _ _) Hi), (proj2 (Z.eqb_neq _ _) Hd). cbn [snd]. pose proof (only_taken_one s t p (true, SIGSEGV) r Hw Hr) as [Hru _ Hw' He' Hg' _ _ Ht _].
  destruct (Ht t) as [x Ex]. assert (sin (sig_blocked (thr s t)) SIGSEGV = false) as Hnb.
  { unfold deliverable in Hp. destruct Hw as (Hb & _). assert (sig_ok SIGSEGV) by (unfold sig_ok; lia). rewrite sin_land, sin_not64 in Hp by done. by apply andb_true_iff in Hp as [_ ?%negb_true_iff]. }
  destruct (catch_stuck fuel (take s t p (true, SIGSEGV)) t p ka (info_of s t p (true, SIGSEGV))) as (s' & E & Hs' & Hp'); [done|by rewrite He', Hg'|by rewrite (same_rules_act s)|done|by rewrite Ex|by rewrite Ex|].
  exists s'. split; [exact E|]. split; [done|]. by rewrite Hp'.
Qed.

(** [do_signal] does not end when SIGSEGV has a handler and the frame for it cannot
    be written, for instance because the stack has overflowed: it forces
    another SIGSEGV each time.  The pending signals of the process, SIGKILL
    among them, stay where they are. *)
Theorem do_signal_loops s t p ka : stuck s t p ka → ∀ fuel, ∃ s', signal_loop cw fuel s t p = Some (s', More) ∧ prc s' = prc s.
Proof.
  intros Hs fuel. revert s Hs. induction fuel as [|fuel IH]; intros s Hs; [by exists s|].
  destruct (stuck_step fuel s t p ka Hs) as (s' & -> & Hs' & Ep). destruct (IH s' Hs') as (s2 & E & Ep2). exists s2. split; [exact E|]. by rewrite Ep2.
Qed.

(** The state in which a thread looks at its signals: its sets are words, the
    tables it reads have their entries, and a handler can be run or the failure
    to do so ends the process. *)
Record can_deliver (s : sys) (t p : Z) : Prop := {
  cd_proc : proc (thr s t) = Some p;
  cd_words : words s t p;
  cd_live : exiting (prc s p) = false ∧ group_stop (prc s p) = false;
  cd_table d : d ∈ queue s t p → is_Some (act s p d.2);
  cd_parent pp : parent (prc s p) = Some pp → pp ≠ p ∧ ∃ ka, act s pp SIGCHLD = Some ka;
  cd_frame d ka : d ∈ queue s t p → act s p d.2 = Some ka → effect_of s p d.2 ka = Catch → frame_ok s t ka = true ∨ segv_kills s t p;
}.

(** What the first signal that is not skipped does. *)
Definition acted (s s' : sys) (t p : Z) (l : list (bool * Z)) (d : bool * Z) (ka : k_sigaction) (v : verdict) : Prop :=
  match effect_of s p d.2 ka with
  | Skip => False
  | Stop => v = Stopped ∧ taken s s' t p l ∧ state (thr s' t) = TASK_STOPPED ∧
            group_stop (prc s' p) = true ∧ stop_sig (prc s' p) = d.2 ∧ stop_reported (prc s' p) = false
  | Kill => v = GroupExited d.2 ∧ taken s s' t p l
  | Catch =>
      if frame_ok s t ka then ∃ f, v = Returned (Some f) ∧ taken s s' t p l ∧ caught s s' t p d ka f
      else v = GroupExited SIGSEGV
  end.

Lemma queue_length s t p : (length (queue s t p) ≤ 128)%nat.
Proof.
  unfold queue. rewrite length_app, !length_map. pose proof (filter_length_le (sin (deliverable s t (sig_pending (thr s t)))) prio_list) as A.
  pose proof (filter_length_le (sin (deliverable s t (shared_pending (prc s p)))) (seqZ 1 64)) as B.
  assert (length prio_list = 64%nat) as E by (vm_compute; reflexivity). rewrite length_seqZ in B. lia.
Qed.

Lemma queue_split s t p :
  can_deliver s t p →
  Forall (skipped s p) (queue s t p) ∨
  ∃ pre d post ka, queue s t p = pre ++ d :: post ∧ Forall (skipped s p) pre ∧ act s p d.2 = Some ka ∧ effect_of s p d.2 ka ≠ Skip.
Proof.
  intros [_ _ _ Ht _ _]. revert Ht. induction (queue s t p) as [|d l IH]; intros Ht; [by left|].
  destruct (Ht d) as [ka Ha]; [apply list_elem_of_here|]. destruct (decide (effect_of s p d.2 ka = Skip)) as [E|E].
  - destruct IH as [H|(pre & d' & post & ka' & -> & H & Hr)]; [intros d' Hd'; apply Ht; by right|left|right].
    + constructor; [by exists ka|done].
    + exists (d :: pre), d', post, ka'. split; [done|]. split; [|done]. constructor; [by exists ka|done].
  - right. by exists [], d, l, ka.
Qed.

Lemma info_taken s s' t p l d : only_taken s s' t p l → info_of s' t p d = info_of s t p d.
Proof. intros [_ _ _ _ _ _ _ Ht Hi]. unfold info_of. destruct (Ht t) as [x ->]. by rewrite Hi. Qed.

Lemma frame_taken s s' t p l ka : only_taken s s' t p l → frame_ok s' t ka = frame_ok s t ka.
Proof. intros [_ _ _ _ _ _ Hl Ht _]. unfold frame_ok. rewrite (kmem_eq s) by done. by destruct (Ht t) as [x ->]. Qed.

Lemma caught_taken s s1 s' t p l d ka f : only_taken s s1 t p l → caught s1 s' t p d ka f → caught s s' t p d ka f.
Proof.
  intros Ho [C1 C2 C3 C4 C5 C6]. rewrite (info_taken _ _ _ _ _ d Ho) in C1. pose proof Ho as [Hr _ _ _ _ Hs _ Ht _]. destruct (Ht t) as [x E]. rewrite Hs in C2.
  unfold restart_regs, old_mask in C1, C2. rewrite E in C1, C2. split; [exact C1|exact C2| |exact C4| |].
  - intros g Hg Hm. rewrite (C3 g Hg Hm). by rewrite E.
  - rewrite E in C5. exact C5.
  - intros g. rewrite C6, (same_rules_act s s1) by done. done.
Qed.

Lemma taken_frame s s1 s' t p l :
  taken s s1 t p l → sig_pending (thr s' t) = sig_pending (thr s1 t) → shared_pending (prc s' p) = shared_pending (prc s1 p) → taken s s' t p l.
Proof. intros H E1 E2 g Hg. rewrite E1, E2. by apply H. Qed.

Lemma act_one n s t p pre d post ka :
  can_deliver s t p → queue s t p = pre ++ d :: post → act s p d.2 = Some ka → effect_of s p d.2 ka ≠ Skip →
  ∃ s' v, signal_loop cw (S (S n)) (take_all s t p pre) t p = Some (s', v) ∧ acted s s' t p (pre ++ [d]) d ka v.
Proof.
  intros [_ Hw [He Hg] _ Hpar Hf] Hq Ha Hk. assert (d ∈ queue s t p) as Hin by (rewrite Hq; apply elem_of_app; right; apply list_elem_of_here).
  assert (sig_ok d.2) as Hd by (by apply (queue_sig s t p)).
  destruct (take_all_spec pre (d :: post) s t p Hw Hq) as [H1 Hq1]. set (s1 := take_all s t p pre) in *.
  pose proof (only_taken_one s1 t p d post (ot_words _ _ _ _ _ H1) Hq1) as H2. pose proof (only_taken_trans _ _ _ _ _ _ _ H1 H2) as H3.
  set (s2 := take s1 t p d) in *. pose proof H3 as [Hr Htk Hw2 He2 Hg2 _ _ Ht2 _]. pose proof (ot_rules _ _ _ _ _ H1) as Hr1.
  rewrite (loop_step _ s1 t p d post ka); [|apply H1|by rewrite (ot_exiting _ _ _ _ _ H1)|by rewrite (ot_stop _ _ _ _ _ H1)|done|by rewrite (same_rules_act s)].
  rewrite (same_rules_effect s s1) by done. fold s2. unfold acted. destruct (effect_of s p d.2 ka) eqn:Ek; [done|..].
  - destruct (stop_spec s2 t p d.2) as (s3 & -> & Hp3 & Ht3); [|by rewrite Hg2|].
    { intros pp. destruct (sr_prc _ _ Hr p) as (_ & _ & -> & _). intros Hpp. rewrite (same_rules_act s) by done. by apply Hpar. }
    cbn [mbind option_bind signal_loop]. rewrite Hp3. cbn [exiting group_stop set_stop]. rewrite He2, He. eexists _, _. split; [reflexivity|].
    cbn. rewrite fn_lookup_insert, Hp3. cbn. split_and!; try done. apply (taken_frame s s2); [done|..]; cbn; [rewrite fn_lookup_insert|by rewrite Hp3].
    destruct (Ht3 t) as [E|E]; rewrite E; done.
  - by exists s2, (GroupExited d.2).
  - rewrite <-(info_taken _ _ _ _ _ d H2). destruct (frame_ok s t ka) eqn:Fk.
    + destruct (catch_ok (S n) s2 t p d ka) as (s' & f & -> & Hc & Ep & Eq); [done|done|by rewrite (same_rules_act s)|by rewrite (frame_taken s _ _ _ _ _ H3)|].
      eexists _, _. split; [done|]. exists f. split; [done|]. split; [apply (taken_frame s s2); [done..|by rewrite Eq]|by eapply caught_taken].
    + destruct (Hf d ka Hin Ha Ek) as [?|(Hi & ks & Hks & Hor)]; [congruence|].
      destruct (catch_fail n s2 t p d.2 ka (info_of s2 t p d)) as (s' & ->); [done|by rewrite He2|by rewrite Hg2|by rewrite (frame_taken s _ _ _ _ _ H3)| |by eexists _, _].
      split; [by rewrite (sr_init _ _ Hr)|]. exists ks. rewrite (same_rules_act s) by done. split; [done|]. by destruct (Ht2 t) as [x ->].
Qed.
End delivery.

(** After [do_signal] without a handler. *)
Record quiet (s s' : sys) (t p : Z) (l : list (bool * Z)) : Prop := {
  qu_taken : taken s s' t p l;
  qu_regs : user_regs (thr s' t) = restart_regs s t None;
  qu_mask : sig_blocked (thr s' t) = old_mask s t ∧ restore_sigmask (thr s' t) = false;
}.

Lemma no_handler_spec s s1 t p l : only_taken s s1 t p l → quiet s (no_handler s1 t) t p l.
Proof.
  intros [_ Htk _ _ _ _ _ Ht _]. destruct (Ht t) as [x E].
  assert (user_regs (thr (no_handler s1 t) t) = restart_regs s t None ∧ sig_blocked (thr (no_handler s1 t) t) = old_mask s t ∧
    restore_sigmask (thr (no_handler s1 t) t) = false ∧ sig_pending (thr (no_handler s1 t) t) = sig_pending (thr s1 t) ∧ prc (no_handler s1 t) = prc s1) as (F1 & F2 & F3 & F4 & F5).
  { unfold no_handler, old_mask, restart_regs. cbn [thr upd_thr]. rewrite fn_lookup_insert, E. cbn [restore_sigmask set_regs set_pending].
    destruct (restore_sigmask (thr s t)) eqn:R; cbn; rewrite ?fn_lookup_insert; cbn; rewrite ?E; done. }
  split; [|done..]. eapply taken_frame; [exact Htk|exact F4|by rewrite F5].
Qed.

Lemma do_signal_spec cw s t p :
  can_deliver cw s t p →
  ∃ s' v, do_signal cw s t = Some (s', v) ∧
    ((Forall (skipped s p) (queue s t p) ∧ v = Returned None ∧ quiet s s' t p (queue s t p)) ∨
     ∃ pre d post ka, queue s t p = pre ++ d :: post ∧ Forall (skipped s p) pre ∧ act s p d.2 = Some ka ∧ acted cw s s' t p (pre ++ [d]) d ka v).
Proof.
  intros Hc. pose proof Hc as [Hp Hw [He Hg] _ _ _]. unfold do_signal. rewrite Hp. pose proof (queue_length s t p) as Hl.
  destruct (queue_split cw s t p Hc) as [Hs|(pre & d & post & ka & Hq & Hs & Ha & Hk)].
  - destruct (take_all_spec (queue s t p) [] s t p Hw) as [H1 Hq1]; [by rewrite app_nil_r|]. exists (no_handler (take_all s t p (queue s t p)) t), (Returned None).
    split; [|left; split; [done|]; split; [done|by apply no_handler_spec]].
    replace SIGNAL_FUEL with (length (queue s t p) + S (139 - length (queue s t p)))%nat by (unfold SIGNAL_FUEL; lia).
    rewrite (signal_loop_skip cw _ _ []) by (done || by rewrite app_nil_r). apply loop_end; [apply H1|by rewrite (ot_exiting _ _ _ _ _ H1)|by rewrite (ot_stop _ _ _ _ _ H1)|done].
  - assert (length pre ≤ 128)%nat as Hl' by (rewrite Hq, length_app in Hl; lia).
    destruct (act_one cw (138 - length pre) s t p pre d post ka Hc Hq Ha Hk) as (s' & v & E & Hact). exists s', v. split; [|right; by exists pre, d, post, ka].
    replace SIGNAL_FUEL with (length pre + S (S (138 - length pre)))%nat by (unfold SIGNAL_FUEL; lia). by rewrite (signal_loop_skip cw _ pre (d :: post)).
Qed.


(** ** Return from a handler *)

Lemma frame_aligned x ka : Z.land (frame_base x ka) 15 = 0.
Proof.
  unfold frame_base. set (a := ALIGN_DOWN _ 16). destruct (ALIGN_DOWN_spec (sub64 (sub64 (if negb (Z.land (sa_flags ka) SA_ONSTACK =? 0) && negb (ss_size (sigaltstack x) =? 0) &&
    (Z.land (ss_flags (sigaltstack x)) SS_DISABLE =? 0) && negb (on_sig_stack x (r_sp (user_regs x))) then ss_sp (sigaltstack x) ⊕ ss_size (sigaltstack x) else r_sp (user_regs x)) FRAME_SIZE) RECORD_SIZE) 16)
    as [[q Hq] _]; [by exists 4|auto with olux|]. fold a in Hq. change 15 with (Z.ones 4). rewrite Z.land_ones, Hq by done. change (2 ^ 4) with 16. by apply Z.mod_mul.
Qed.

Definition mask_ok (m : Z) : Prop := u64_ok m ∧ sin m SIGKILL = false ∧ sin m SIGSTOP = false.

Lemma mask_ok_land m : u64_ok m → mask_ok (Z.land m (not64 SIG_KERNEL_ONLY)).
Proof.
  intros Hm. split; [auto with olux|]. assert (sig_ok SIGKILL ∧ sig_ok SIGSTOP) as [A B] by (unfold sig_ok; lia).
  split; autorewrite with olux_sig; apply andb_false_r.
Qed.
Lemma mask_ok_id m : mask_ok m → Z.land m (not64 SIG_KERNEL_ONLY) = m.
Proof.
  intros (Hm & Hk & Hs). apply sset_ext; [auto with olux|done|]. intros g Hg. autorewrite with olux_sig.
  destruct (Z.eqb_spec g SIGKILL) as [->|]; [by rewrite Hk|]. destruct (Z.eqb_spec g SIGSTOP) as [->|]; [by rewrite Hs|]. apply andb_true_r.
Qed.

(** The part of the registers of the interrupted program that a handler leaves
    alone: all but the flags other than NZCV. *)
Definition NZCV : Z := Z.shiftl 0xf 28.

Lemma returned_caught cw s t p s' f :
  can_deliver cw s t p → do_signal cw s t = Some (s', Returned (Some f)) → ∃ d ka, act s p d.2 = Some ka ∧ caught s s' t p d ka f.
Proof.
  intros Hc Hd. destruct (do_signal_spec cw s t p Hc) as (s1 & v & E & H). rewrite Hd in E. injection E as <- <-.
  destruct H as [(_ & E & _)|(pre & d & post & ka & _ & _ & Ha & H)]; [discriminate E|]. exists d, ka. split; [done|]. unfold acted in H.
  destruct (effect_of s p d.2 ka); [done|by destruct H..|]. destruct (frame_ok cw s t ka); [|discriminate H]. destruct H as (g & E & _ & Hca). by injection E as ->.
Qed.

(** The alternate stack after the return: base and size are those from before
    the handler if that stack was large enough and the program does not return
    onto the stack that is set now; the flags are never restored. *)
Definition restored_stack (before now : stack_t) (on_stack : bool) : stack_t :=
  if (2048 <=? ss_size before) && negb on_stack then StackT (ss_sp before) (ss_flags now) (ss_size before) else now.

(** What [rt_sigreturn] takes from a frame that the kernel wrote. *)
Lemma sigreturn_spec u t p user f :
  (kmem u).1 = true → Z.land (r_sp (user_regs (thr u t))) 15 = 0 → user (r_sp (user_regs (thr u t))) = Some f → fc_magic f = FPSIMD_MAGIC → fc_size f = FPSIMD_SIZE →
  (2048 ≤ ss_size (f_stack f) → Z.land (ss_flags (f_stack f)) SS_DISABLE = 0) →
  ∃ u', sys_rt_sigreturn u t p user = Some (u', sc_regs f 0) ∧
    user_regs (thr u' t) = PtRegs (sc_regs f) (sc_sp f) (sc_pc f) (Z.land (sc_pstate f) NZCV) (orig_x0 (user_regs (thr u t))) (-1) ∧
    fpsimd (thr u' t) = fc_state f ∧ sig_blocked (thr u' t) = Z.land (f_sigmask f) (not64 SIG_KERNEL_ONLY) ∧
    sigaltstack (thr u' t) = restored_stack (f_stack f) (sigaltstack (thr u t)) (on_sig_stack (thr u t) (sc_sp f)).
Proof.
  intros Hk Hal Hu E1 E2 Hfl. unfold sys_rt_sigreturn. destruct (kmem_thr u) as (K1 & _). destruct (kmem u) as [ok u1]. cbn [fst snd] in Hk, K1. subst ok.
  rewrite Hal. cbn [andb]. change (0 =? 0) with true. cbn iota. rewrite Hu, E1, E2. change ((FPSIMD_MAGIC =? FPSIMD_MAGIC) && (FPSIMD_SIZE <=? FPSIMD_SIZE)) with true. cbn iota.
  eexists. split; [reflexivity|]. unfold restored_stack. set (s3 := upd_thr _ t (set_blocked _)).
  assert (on_sig_stack (thr s3 t) (sc_sp f) = on_sig_stack (thr u t) (sc_sp f)) as -> by (unfold on_sig_stack, s3; cbn; by rewrite !fn_lookup_insert, <-K1).
  assert ((Z.land (ss_flags (f_stack f)) SS_DISABLE =? 0) && (2048 <=? ss_size (f_stack f)) = (2048 <=? ss_size (f_stack f))) as ->.
  { destruct (2048 <=? ss_size (f_stack f)) eqn:E; [|apply andb_false_r]. zbool. by rewrite Hfl. }
  destruct (_ && negb _); unfold s3; cbn [thr upd_thr]; rewrite !fn_lookup_insert; cbn; by rewrite K1.
Qed.

Lemma altstack_enabled x : 2048 ≤ ss_size (sigaltstack x) → Z.land (altstack_flags x) SS_DISABLE = 0.
Proof. intros H. unfold altstack_flags. destruct (on_sig_stack _ _); [done|]. by destruct (Z.eqb_spec (ss_size (sigaltstack x)) 0); [lia|]. Qed.

(** C26. A handler that returns brings the interrupted program back: when
    [do_signal] has written a frame and the thread, with its stack pointer at
    that frame and the frame in memory as it was written, calls
    [rt_sigreturn], then it has the general registers, stack pointer and
    program counter of the interrupted program, restarted if it was in a system call, its condition
    flags, its floating-point state and its signal mask (that of [sigsuspend]'s caller);
    the call is not restarted twice.  The alternate stack is the one of the
    interrupted program if the handler left it as it was.  In general its flags
    stay as the handler left them, and its base and size are those of the
    interrupted program if that stack has at least 2048 bytes and the program does
    not return onto the stack that is set now, else those the handler left. *)
Theorem sigreturn_roundtrip cw s t p s' a f rec u user :
  can_deliver cw s t p → mask_ok (old_mask s t) → do_signal cw s t = Some (s', Returned (Some (a, f, rec))) →
  r_sp (user_regs (thr u t)) = a → user a = Some f → (kmem u).1 = true →
  ∃ ka g u', act s p g = Some ka ∧ r_pc (user_regs (thr s' t)) = handler ka ∧ regs (user_regs (thr s' t)) 0 = g ∧
    sys_rt_sigreturn u t p user = Some (u', regs (restart_regs s t (Some ka)) 0) ∧
    let r := user_regs (thr u' t) in let r0 := restart_regs s t (Some ka) in
    regs r = regs r0 ∧ r_sp r = r_sp r0 ∧ r_pc r = r_pc r0 ∧ r_pstate r = Z.land (r_pstate r0) NZCV ∧ syscallno r < 0 ∧
    fpsimd (thr u' t) = fpsimd (thr s t) ∧ sig_blocked (thr u' t) = old_mask s t ∧
    (sigaltstack (thr u t) = sigaltstack (thr s t) → sigaltstack (thr u' t) = sigaltstack (thr s t)) ∧
    sigaltstack (thr u' t) = restored_stack (sigaltstack (thr s t)) (sigaltstack (thr u t)) (on_sig_stack (thr u t) (r_sp r0)).
Proof.
  intros Hc Hm Hd Hsp Hu Hk. destruct (returned_caught _ _ _ _ _ _ Hc Hd) as (d & ka & Ha & [C1 C2 _ _ _ _]). injection C1 as Ea Ef _.
  destruct (sigreturn_spec u t p user f) as (u' & E & R1 & R2 & R3 & R4); [done|rewrite Hsp, Ea; apply frame_aligned|by rewrite Hsp|by rewrite Ef|by rewrite Ef|rewrite Ef; apply altstack_enabled|].
  exists ka, d.2, u'. split; [done|]. split; [by rewrite C2|]. split; [rewrite C2; reflexivity|]. split; [rewrite E, Ef; done|].
  cbn zeta. rewrite R4, R1, R2, R3, Ef. cbn. split_and!; try done; [by apply mask_ok_id|]. intros ->.
  unfold restored_stack. destruct (_ && negb _); [|done]. cbn. by destruct (sigaltstack (thr s t)).
Qed.

(** ** An example: a thread of a user process with a handler for SIGUSR1 *)

Definition ex_regs : pt_regs := PtRegs (λ _, wrap64 (- ERESTARTSYS)) 0x7fff0000 0x400100 (Z.shiftl 6 28) 77 98.
Definition ex_info (g : Z) : siginfo_t := kernel_info g.
Definition ex_thread (p pending : Z) : thread :=
  Thread (Some p) TASK_RUNNING 0 0 pending (λ i, ex_info (i + 1)) 0 false (StackT 0 SS_DISABLE 0) ex_regs (Fpsimd 0 0 (λ _, 0)) (p * 10).
Definition ex_proc (id parent_ shared user : Z) : process :=
  Process id id 1 (if parent_ =? 0 then None else Some parent_) [id * 10] user user 0 shared (λ i, ex_info (i + 1)) 0 false false false false 0 0x400800.
Definition ex_table : list k_sigaction := <[10%nat := KSigaction 0x400200 SA_RESTART 0 (sigmask 12)]> (replicate 64 (KSigaction SIG_DFL 0 0 0)).
(** Process 1 is init; process 2, of another user, has SIGUSR1 pending for its
    thread 20 and SIGCHLD for itself. *)
Definition ex_sys : sys :=
  Sys (λ t, if t =? 20 then ex_thread 2 (sigmask 10) else ex_thread 1 0)
    (λ p, if p =? 2 then ex_proc 2 1 (sigmask SIGCHLD) 1000 else ex_proc 1 0 0 0)
    (λ _, ex_table) [1; 2] [10; 20] 1 [] (λ _, []).
Definition ex_cw (a n : Z) : bool := true.

Lemma ex_queue : queue ex_sys 20 2 = [(true, 10); (false, SIGCHLD)].
Proof. vm_compute. reflexivity. Qed.

Lemma ex_can_deliver : can_deliver ex_cw ex_sys 20 2.
Proof.
  split; [reflexivity|split; [|split]; vm_compute; intuition discriminate|done| | |].
  - rewrite ex_queue. intros d [-> |[-> | []%not_elem_of_nil]%elem_of_cons]%elem_of_cons; vm_compute; by eexists.
  - intros pp [= <-]. split; [done|]. eexists. vm_compute. reflexivity.
  - intros d ka _ _ _. left. reflexivity.
Qed.


(** The handler returns with the stack pointer back at the frame. *)
Lemma sigreturn_witness : ∃ s' a f rec u', do_signal ex_cw ex_sys 20 = Some (s', Returned (Some (a, f, rec))) ∧
  sys_rt_sigreturn (upd_thr ex_sys 20 (set_regs (PtRegs (λ _, 0) a 0 0 0 0))) 20 2 (λ x, if x =? a then Some f else None) = Some (u', 77) ∧
  r_pc (user_regs (thr u' 20)) = 0x4000fc ∧ sig_blocked (thr u' 20) = 0.
Proof.
  assert (match do_signal ex_cw ex_sys 20 with Some (_, Returned (Some _)) => true | _ => false end = true) as H by (vm_compute; reflexivity).
  assert (match do_signal ex_cw ex_sys 20 with Some (s', _) => regs (user_regs (thr s' 20)) 0 | None => 0 end = 10) as H0 by (vm_compute; reflexivity).
  destruct (do_signal ex_cw ex_sys 20) as [[s' [[[[a f] rec]|]| | | |]]|] eqn:E; try discriminate H. exists s', a, f, rec.
  destruct (sigreturn_roundtrip ex_cw ex_sys 20 2 s' a f rec (upd_thr ex_sys 20 (set_regs (PtRegs (λ _, 0) a 0 0 0 0))) (λ x, if x =? a then Some f else None))
    as (ka & g & u' & Ha & _ & Hg & Hr & Hres); [exact ex_can_deliver|vm_compute; intuition discriminate|exact E|reflexivity|by rewrite Z.eqb_refl|reflexivity|].
  exists u'. split; [reflexivity|].
  assert (g = 10) as -> by (rewrite <-Hg; exact H0).
  vm_compute in Ha. injection Ha as <-. destruct Hres as (R1 & R2 & R3 & R4 & R5 & R6 & R7 & _). split; [exact Hr|]. split; [rewrite R3; reflexivity|rewrite R7; reflexivity].
Defined.
