(* ===== verification/SignalInv.v ===== *)
(** * The invariant of signals, and sending

    Masks, pending sets and tables in every state that the operations reach;
    what sending a signal does, and to whom it may be sent. *)

From stdpp Require Import functions.
From S2P Require Import Prelude Signal SignalSpec.

(** ** The invariant *)

Record thread_ok (x : thread) : Prop := {
  to_blocked : mask_ok (sig_blocked x);
  to_saved : mask_ok (saved_sigmask x);
  to_pending : u64_ok (sig_pending x);
  to_waiting : u64_ok (sig_waiting x);
}.

(** A stop signal and SIGCONT cancel each other. *)
Definition no_conflict (x : Z) : Prop := ∀ g, sig_ok g → default_action g = SIG_ACT_STOP → sin x SIGCONT = true → sin x g = false.
Definition process_ok (q : process) : Prop := u64_ok (shared_pending q) ∧ no_conflict (shared_pending q).

Record table_ok (l : list k_sigaction) : Prop := {
  ta_length : length l = Z.to_nat NSIG;
  ta_mask i ka : l !! i = Some ka → mask_ok (sa_mask ka);
  ta_kernel i ka : i = Z.to_nat SIGKILL ∨ i = Z.to_nat SIGSTOP → l !! i = Some ka → handler ka = SIG_DFL;
}.

(** SIGKILL and SIGSTOP are never blocked, ignored or caught. *)
Record sig_inv (s : sys) : Prop := {
  si_thr t : thread_ok (thr s t);
  si_prc p : process_ok (prc s p);
  si_act h : table_ok (action s h);
}.

Lemma inv_thr s t f : sig_inv s → (thread_ok (thr s t) → thread_ok (f (thr s t))) → sig_inv (upd_thr s t f).
Proof.
  intros [Ht Hp Ha] H. split; [|done..]. intros u. cbn. destruct (decide (t = u)) as [->|]; [rewrite fn_lookup_insert; auto|by rewrite fn_lookup_insert_ne].
Qed.
Lemma inv_prc s p f : sig_inv s → (process_ok (prc s p) → process_ok (f (prc s p))) → sig_inv (upd_prc s p f).
Proof.
  intros [Ht Hp Ha] H. split; [done| |done]. intros u. cbn. destruct (decide (p = u)) as [->|]; [rewrite fn_lookup_insert; auto|by rewrite fn_lookup_insert_ne].
Qed.
Lemma inv_act s h l : sig_inv s → table_ok l → sig_inv (set_actions s h l).
Proof.
  intros [Ht Hp Ha] H. split; [done..|]. intros u. cbn. destruct (decide (h = u)) as [->|]; [by rewrite fn_lookup_insert|by rewrite fn_lookup_insert_ne].
Qed.
Lemma inv_awake s s' : awake s s' → sig_inv s → sig_inv s'.
Proof.
  intros [E1 E2 _ E3] [Ht Hp Ha]. split; [|by rewrite E1|by rewrite E2]. intros u. destruct (E3 u) as [->| ->]; [done|]. by destruct (Ht u).
Qed.
Lemma inv_fold {A} (f : sys → A → sys) l s : (∀ s x, sig_inv s → sig_inv (f s x)) → sig_inv s → sig_inv (fold_left f l s).
Proof. intros H. revert s. induction l as [|x l IH]; intros s Hs; [done|]. cbn. auto. Qed.
Lemma inv_kmem s : sig_inv s → sig_inv (kmem s).2.
Proof. intros [Ht Hp Ha]. destruct (kmem_thr s) as (E1 & E2 & E3 & _). split; by rewrite ?E1, ?E2, ?E3. Qed.

Lemma inv_words s t p : sig_inv s → words s t p.
Proof. intros [Ht Hp _]. destruct (Ht t) as [[? _] _ ? _], (Hp p). done. Qed.
Lemma inv_table s p g : sig_inv s → 0 ≤ g < NSIG → is_Some (act s p g).
Proof. intros [_ _ Ha] Hg. unfold act. apply lookup_lt_is_Some. rewrite (ta_length _ (Ha _)). lia. Qed.

#[export] Hint Resolve inv_thr inv_prc inv_act inv_awake inv_fold inv_kmem : olux.

(** *** Sets *)

Lemma no_conflict_clear x m : u64_ok x → u64_ok m → no_conflict x → no_conflict (Z.land x (not64 m)).
Proof.
  intros Hx Hm H g Hg Hd. assert (sig_ok SIGCONT) by (unfold sig_ok; lia). autorewrite with olux_sig. intros [Hc _]%andb_true_iff. by rewrite (H g Hg Hd Hc).
Qed.

Lemma clear_shared_inv s p m : u64_ok m → sig_inv s → sig_inv (clear_shared s p m).
Proof.
  intros Hm Hs. apply inv_prc; [done|]. intros [Hu Hc]. split; cbn; [auto with olux|by apply no_conflict_clear].
Qed.
Lemma clear_thread_inv s t m : u64_ok m → sig_inv s → sig_inv (upd_thr s t (λ x, set_pending (Z.land (sig_pending x) (not64 m)) (sig_info x) x)).
Proof. intros Hm Hs. apply inv_thr; [done|]. intros [H1 H2 H3 H4]. split; cbn; auto with olux. Qed.
Lemma clear_threads_inv s p m : u64_ok m → sig_inv s → sig_inv (clear_threads s p m).
Proof. intros Hm. apply inv_fold. intros s' t. by apply clear_thread_inv. Qed.
Lemma take_inv s t p d : sig_ok d.2 → sig_inv s → sig_inv (take s t p d).
Proof. intros Hd Hs. unfold take. destruct d.1; [apply clear_thread_inv|apply clear_shared_inv]; auto with olux. Qed.
Lemma set_state_inv s t x : sig_inv s → sig_inv (upd_thr s t (set_state x)).
Proof. intros Hs. apply inv_thr; [done|]. by intros []. Qed.
Lemma set_stop_inv s p f g h i : sig_inv s → sig_inv (upd_prc s p (λ q, set_stop (f q) (g q) (h q) (i q) q)).
Proof. intros Hs. by apply inv_prc. Qed.
Lemma queue_thread_inv s t g info : sig_ok g → sig_inv s → sig_inv (queue_thread s t g info).
Proof. intros Hg Hs. apply inv_thr; [done|]. intros [H1 H2 H3 H4]. split; cbn; auto with olux. Qed.

(** A signal may join the pending ones of a process when what it cancels is gone. *)
Definition may_queue (s : sys) (p g : Z) : Prop :=
  (g = SIGCONT → ∀ h, sig_ok h → default_action h = SIG_ACT_STOP → sin (shared_pending (prc s p)) h = false) ∧
  (default_action g = SIG_ACT_STOP → sin (shared_pending (prc s p)) SIGCONT = false).

Lemma queue_process_inv s p g info : sig_ok g → may_queue s p g → sig_inv s → sig_inv (queue_process s p g info).
Proof.
  intros Hg [M1 M2] Hs. apply inv_prc; [done|]. intros [Hu Hc]. split; cbn; [auto with olux|]. intros h Hh Hd. assert (sig_ok SIGCONT) by (unfold sig_ok; lia).
  autorewrite with olux_sig. intros [Hx|Hx%Z.eqb_eq]%orb_true_iff.
  - rewrite (Hc h Hh Hd Hx). cbn. apply Z.eqb_neq. intros ->. rewrite M2 in Hx; done.
  - subst g. rewrite M1 by done. cbn. apply Z.eqb_neq. intros ->. done.
Qed.

(** ** Sending *)

Lemma clear_threads_prc s p m : prc (clear_threads s p m) = prc s ∧ action (clear_threads s p m) = action s.
Proof.
  unfold clear_threads. generalize (threads (prc s p)). intros l. revert s. induction l as [|u l IH]; intros s; [done|]. cbn. apply (IH (upd_thr s u _)).
Qed.

Lemma prepare_inv s p g : sig_inv s → sig_inv (prepare_signal s p g).
Proof.
  intros Hs. unfold prepare_signal. destruct (_ || _).
  - assert (sig_inv (clear_threads (clear_shared s p stops) p stops)) as H by (apply clear_threads_inv, clear_shared_inv; auto with olux).
    cbn zeta. destruct (group_stop _); [|done]. eapply inv_awake; [apply awake_stopped|]. by apply set_stop_inv.
  - destruct (bool_decide _); [|done]. apply clear_shared_inv; [|done]. apply u64_sigmask. unfold sig_ok. lia.
Qed.

(** The pending signals of the process after [prepare_signal]. *)
Definition prepared (g x : Z) : Z :=
  if (g =? SIGCONT) || (g =? SIGKILL) then Z.land x (not64 stops)
  else if bool_decide (default_action g = SIG_ACT_STOP) then Z.land x (not64 (sigmask SIGCONT)) else x.

Lemma prepare_spec s p g :
  let s' := prepare_signal s p g in
  shared_pending (prc s' p) = prepared g (shared_pending (prc s p)) ∧ action s' = action s ∧ threads (prc s' p) = threads (prc s p) ∧
  sighand (prc s' p) = sighand (prc s p) ∧ p_state (prc s' p) = p_state (prc s p) ∧ (∀ q, q ≠ p → prc s' q = prc s q).
Proof.
  unfold prepare_signal, prepared. destruct (_ || _).
  - cbn zeta. set (s1 := clear_threads _ _ _). destruct (clear_threads_prc (clear_shared s p stops) p stops) as [E1 E2]. fold s1 in E1, E2.
    assert (prc s1 p = set_shared (Z.land (shared_pending (prc s p)) (not64 stops)) (shared_info (prc s p)) (prc s p)) as E by (rewrite E1; cbn; by rewrite fn_lookup_insert).
    assert (∀ q, q ≠ p → prc s1 q = prc s q) as Hq by (intros; rewrite E1; cbn; by rewrite fn_lookup_insert_ne).
    destruct (group_stop (prc s1 p)); [|rewrite E, E2; by split_and!].
    set (s2 := upd_prc s1 p _). destruct (awake_stopped s2 p) as [-> -> _ _ _].
    cbn. rewrite fn_lookup_insert, E, E2. cbn. split_and!; try done. intros q Hne. rewrite fn_lookup_insert_ne by done. by apply Hq.
  - destruct (bool_decide _); cbn; [|by split_and!]. rewrite fn_lookup_insert. cbn. split_and!; try done. intros q Hne. by rewrite fn_lookup_insert_ne.
Qed.

Lemma prepare_may_queue s p g : sig_ok g → sig_inv s → may_queue (prepare_signal s p g) p g.
Proof.
  intros Hg [_ Hp _]. destruct (Hp p) as [Hu _], (prepare_spec s p g) as [E _]. cbn zeta in E. unfold may_queue. rewrite E. unfold prepared.
  assert (sig_ok SIGCONT) by (unfold sig_ok; lia). split.
  - intros -> h Hh Hd. cbn. autorewrite with olux_sig. rewrite sin_stops by done. by rewrite bool_decide_true, andb_false_r.
  - intros Hd. rewrite bool_decide_true by done. destruct (Z.eqb_spec g SIGCONT) as [->|]; [done|]. destruct (Z.eqb_spec g SIGKILL) as [->|]; [done|]. cbn.
    autorewrite with olux_sig. by rewrite Z.eqb_refl, andb_false_r.
Qed.

Lemma send_thread_inv s t g info s' r : sig_inv s → send_signal_thread s t g info = Some (s', r) → sig_inv s'.
Proof.
  intros Hs. unfold send_signal_thread. destruct (_ || _) eqn:Eg; [by intros [= <- _]|]. zbool. assert (sig_ok g) by (unfold sig_ok; lia).
  destruct (proc (thr s t)) as [p|]; [|by intros [= <- _]]. destruct (sig_ignored _ p g) as [ign|]; [|done]. cbn [mbind option_bind]. intros [= <- _].
  eapply inv_awake; [apply awake_wake|]. pose proof (prepare_inv s p g Hs). destruct (_ || _); [by apply queue_thread_inv|done].
Qed.

Lemma send_process_inv s p g info s' r : sig_inv s → send_signal_process s p g info = Some (s', r) → sig_inv s'.
Proof.
  intros Hs. unfold send_signal_process. destruct (_ || _) eqn:Eg; [by intros [= <- _]|]. zbool. destruct (Z.eqb_spec g 0); [by intros [= <- _]|].
  assert (sig_ok g) by (unfold sig_ok; lia). destruct (_ =? PROC_ZOMBIE); [by intros [= <- _]|].
  pose proof (prepare_inv s p g Hs) as Hp. destruct (sig_ignored _ p g) as [ign|]; [|done]. cbn [mbind option_bind]. destruct (_ && _); intros [= <- _]; [done|].
  eapply inv_awake; [apply awake_taker|]. apply queue_process_inv; [done|by apply prepare_may_queue|done].
Qed.

Lemma kill_each_inv l s pg g info n s' r : sig_inv s → kill_each s l pg g info n = Some (s', r) → sig_inv s'.
Proof.
  revert s n. induction l as [|p l IH]; intros s n Hs; cbn; [by intros [= <- _]|]. destruct (_ && _); [|by apply IH].
  destruct (send_signal_process s p g info) as [[s1 r1]|] eqn:E; [|done]. cbn. apply IH. by eapply send_process_inv.
Qed.
Lemma kill_loop_inv l s c id pg g info n e s' r : sig_inv s → kill_loop s l c id pg g info n e = Some (s', r) → sig_inv s'.
Proof.
  revert s n e. induction l as [|p l IH]; intros s n e Hs; cbn [kill_loop]; [by intros [= <- _]|]. destruct (_ =? PROC_ZOMBIE); [by apply IH|].
  destruct (if id =? -1 then _ else _); [by apply IH|]. destruct (negb _); [by apply IH|].
  destruct (send_signal_process s p g (Some info)) as [[s1 r1]|] eqn:E; [|done]. cbn. apply IH. by eapply send_process_inv.
Qed.

(** ** Delivery and system calls *)

Lemma put_act_inv s p g ka : sig_inv s → mask_ok (sa_mask ka) → (g = SIGKILL ∨ g = SIGSTOP → handler ka = SIG_DFL) → sig_ok g → sig_inv (put_act s p g ka).
Proof.
  intros Hs Hm Hk Hg. apply inv_act; [done|]. destruct (si_act s Hs (sighand (prc s p))) as [Hl Hma Hke]. split.
  - by rewrite length_insert.
  - intros i ka'. rewrite list_lookup_insert. case_decide as E; [by intros [= <-]|apply Hma].
  - intros i ka' Hi. rewrite list_lookup_insert. case_decide as E; [|by apply Hke]. intros [= <-]. apply Hk. unfold sig_ok in Hg. destruct E as [E _], Hi as [-> | ->]; lia.
Qed.

Lemma reset_inv s p g ka : sig_inv s → sig_ok g → act s p g = Some ka → sig_inv (put_act s p g (set_handler SIG_DFL ka)).
Proof. intros Hs Hg Ha. apply put_act_inv; [done| |done|done]. exact (ta_mask _ (si_act s Hs (sighand (prc s p))) (Z.to_nat g) ka Ha). Qed.

Lemma force_inv s t p g code addr s' : sig_inv s → sig_ok g → force_sig_fault s t p g code addr = Some s' → sig_inv s'.
Proof.
  intros Hs Hg. unfold force_sig_fault. destruct (act s p g) as [ka|] eqn:Ha; [|done]. cbn [mbind option_bind]. intros [= <-]. apply queue_thread_inv; [done|].
  destruct (_ || _); [|done]. set (s1 := upd_thr s t _).
  assert (sig_inv s1) as H1. { apply inv_thr; [done|]. intros [(H1 & H2 & H3) H4 H5 H6]. split; try done. assert (sig_ok SIGKILL ∧ sig_ok SIGSTOP) as [? ?] by (unfold sig_ok; lia).
    split; cbn; [auto with olux|]. autorewrite with olux_sig. by rewrite H2, H3. }
  by apply (reset_inv s1).
Qed.

Lemma stop_inv s t p g s' : sig_inv s → process_stop_all s t p g = Some s' → sig_inv s'.
Proof.
  intros Hs. unfold process_stop_all. destruct (group_stop (prc s p)); [by intros [= <-]|]. set (s1 := upd_prc s p _). set (s2 := fold_left _ _ _).
  assert (sig_inv s2) as H2. { eapply inv_awake; [apply awake_fold; intros a x; destruct (x =? t); [done|apply awake_wake]|]. by apply set_stop_inv. }
  destruct (parent (prc s2 p)) as [pp|]; [|by intros [= <-]]. destruct (act s2 pp SIGCHLD) as [ka|]; [|done]. cbn [mbind option_bind].
  set (notice := if _ && _ then _ else _). assert (∀ s3, notice = Some s3 → sig_inv s3) as H3.
  { unfold notice. destruct (_ && _); [|by intros s3 [= <-]]. destruct (send_signal_process s2 pp SIGCHLD _) as [[s3 r]|] eqn:E; [|done]. cbn. intros ? [= <-]. by eapply send_process_inv. }
  destruct notice as [s3|]; [|done]. cbn. intros [= <-]. eapply inv_awake; [apply awake_children|]. by apply H3.
Qed.

Lemma regs_inv s t f : sig_inv s → sig_inv (upd_thr s t (λ x, set_regs (f x) x)).
Proof. intros Hs. apply inv_thr; [done|]. by intros []. Qed.

Lemma mask_ok_lor x y : mask_ok x → mask_ok y → mask_ok (Z.lor x y).
Proof. intros (A1 & A2 & A3) (B1 & B2 & B3). split; [auto with olux|]. autorewrite with olux_sig. by rewrite A2, A3, B2, B3. Qed.
Lemma mask_ok_sigmask g : sig_ok g → g ≠ SIGKILL → g ≠ SIGSTOP → mask_ok (sigmask g).
Proof.
  intros Hg H1 H2. assert (sig_ok SIGKILL ∧ sig_ok SIGSTOP) as [? ?] by (unfold sig_ok; lia). split; [auto with olux|]. rewrite !sin_sigmask by done.
  split; apply Z.eqb_neq; congruence.
Qed.

Lemma enter_inv s t p g ka : sig_inv s → sig_ok g → act s p g = Some ka → handler ka ≠ SIG_DFL → sig_inv (enter_handler s t p g ka).
Proof.
  intros Hs Hg Ha Hh. destruct (si_act s Hs (sighand (prc s p))) as [_ Hma Hke]. pose proof (Hma _ _ Ha) as Hm.
  assert (g ≠ SIGKILL ∧ g ≠ SIGSTOP) as [N1 N2] by (split; intros ->; apply Hh; [apply (Hke (Z.to_nat SIGKILL))|apply (Hke (Z.to_nat SIGSTOP))]; auto).
  assert (∀ m s, mask_ok m → sig_inv s → sig_inv (upd_thr s t (λ x, set_blocked (Z.lor (sig_blocked x) m) x))) as Hlor.
  { intros m s0 Hmo Hs0. apply inv_thr; [done|]. intros [H1 H2 H3 H4]. split; try done. by apply mask_ok_lor. }
  unfold enter_handler. set (s1 := upd_thr s t _). set (s2 := if _ =? 0 then _ else _).
  assert (sig_inv s2 ∧ act s2 p g = Some ka) as [H2 Ha2].
  { assert (sig_inv s1) by (apply Hlor; [apply mask_ok_land; apply Hm|done]). unfold s2. destruct (_ =? 0); [split; [apply Hlor; [by apply mask_ok_sigmask|done]|done]|done]. }
  destruct (negb _); [by apply reset_inv|done].
Qed.

Lemma saved_inv s t x b : mask_ok x → sig_inv s → sig_inv (upd_thr s t (set_saved x b)).
Proof. intros Hx Hs. apply inv_thr; [done|]. intros [H1 H2 H3 H4]. by split. Qed.
Lemma blocked_inv s t x : mask_ok x → sig_inv s → sig_inv (upd_thr s t (set_blocked x)).
Proof. intros Hx Hs. apply inv_thr; [done|]. intros [H1 H2 H3 H4]. by split. Qed.

Lemma no_handler_inv s t : sig_inv s → sig_inv (no_handler s t).
Proof.
  intros Hs. unfold no_handler. set (s1 := upd_thr s t _). assert (sig_inv s1) as H1 by (by apply regs_inv). destruct (restore_sigmask _); [|done].
  apply inv_thr; [done|]. intros [A1 A2 A3 A4]. by split.
Qed.

Lemma dequeue_inv s t p s' d : sig_inv s → dequeue_signal s t p = (s', d) → sig_inv s' ∧ ∀ g i, d = Some (g, i) → sig_ok g.
Proof.
  intros Hs. rewrite dequeue_spec by by apply inv_words. pose proof (queue_sig s t p) as Hq. destruct (queue s t p) as [|e r]; [by intros [= <- <-]|].
  intros [= <- <-]. assert (sig_ok e.2) by (apply Hq, list_elem_of_here). split; [by apply take_inv|]. by intros g i [= <- _].
Qed.

Lemma setup_inv cw s t p g ka info old s' r :
  sig_inv s → setup_frame cw s t p g ka info old = (s', r) → sig_inv s' ∧ action s' = action s ∧ prc s' = prc s.
Proof.
  intros Hs. unfold setup_frame. pose proof (inv_kmem s Hs) as Hk. destruct (kmem_thr s) as (_ & E2 & E3 & _). destruct (kmem s) as [ok s1]. cbn [snd] in *.
  destruct (negb ok); [by intros [= <- _]|]. destruct (_ || _); [by intros [= <- _]|]. intros [= <- _]. split; [by apply (regs_inv s1 t (λ _, _))|done].
Qed.

Lemma loop_inv cw fuel s t p s' v : sig_inv s → signal_loop cw fuel s t p = Some (s', v) → sig_inv s'.
Proof.
  revert s. induction fuel as [|fuel IH]; intros s Hs; cbn [signal_loop]; [by intros [= <- _]|].
  destruct (exiting (prc s p)); [by intros [= <- _]|]. destruct (group_stop (prc s p)); [intros [= <- _]; by apply set_state_inv|].
  destruct (dequeue_signal s t p) as [s1 [[g info]|]] eqn:Eq; apply dequeue_inv in Eq as [H1 Hg]; [|done| |done]; [|intros [= <- _]; by apply no_handler_inv].
  specialize (Hg g info eq_refl). destruct (act s1 p g) as [ka|] eqn:Ha; [|done]. cbn [mbind option_bind]. destruct (handler ka =? SIG_IGN); [by apply IH|].
  destruct (Z.eqb_spec (handler ka) SIG_DFL) as [Hd|Hd].
  - destruct (bool_decide _); [by apply IH|]. destruct (_ && _); [by apply IH|]. destruct (bool_decide _); [|by intros [= <- _]]. destruct (_ && _); [by apply IH|].
    destruct (process_stop_all s1 t p g) as [s2|] eqn:E; [|done]. cbn. apply IH. by eapply stop_inv.
  - set (s2 := upd_thr s1 t (λ x, _)). set (s3 := upd_thr s2 t _). assert (sig_inv s2) as H2 by (by apply regs_inv).
    assert (sig_inv s3) as H3 by (apply saved_inv; [apply (si_thr s2 H2 t)|done]).
    destruct (setup_frame cw s3 t p g ka info _) as [s4 [e|f]] eqn:E; destruct (setup_inv _ _ _ _ _ _ _ _ _ _ H3 E) as (H4 & E1 & E2).
    + destruct (force_sig_fault s4 t p SIGSEGV SI_KERNEL _) as [s5|] eqn:F; [|done]. cbn. apply IH. eapply force_inv; [exact H4| |exact F]. unfold sig_ok. lia.
    + intros [= <- _]. apply enter_inv; [done|done| |done]. unfold act. by rewrite E1, E2.
Qed.

Lemma sigreturn_inv s t p user s' r :
  sig_inv s → (∀ a f, user a = Some f → u64_ok (f_sigmask f)) → sys_rt_sigreturn s t p user = Some (s', r) → sig_inv s'.
Proof.
  intros Hs Hu. unfold sys_rt_sigreturn. pose proof (inv_kmem s Hs) as Hk. destruct (kmem s) as [ok s1]. cbn [snd] in Hk.
  destruct (if ok && _ then _ else _) as [f|] eqn:Ef.
  - assert (u64_ok (f_sigmask f)) as Hf by (destruct (ok && _); [by eapply Hu|done]). clear Ef. intros [= <- _]. set (s2 := upd_thr s1 t (set_regs _)).
    assert (sig_inv s2) as H2 by (by apply (regs_inv s1 t (λ _, _))). set (s3 := if (_ =? FPSIMD_MAGIC) && _ then _ else s2).
    assert (sig_inv s3) as H3 by (unfold s3; destruct (_ && _); [apply inv_thr; [done|]; by intros []|done]).
    set (s4 := upd_thr s3 t _). assert (sig_inv s4) as H4 by (apply blocked_inv; [by apply mask_ok_land|done]). clearbody s4.
    destruct (_ && negb _); [|done]. apply inv_thr; [done|]. by intros [].
  - destruct (force_sig_fault s1 t p SIGSEGV SI_KERNEL _) as [s2|] eqn:E; [|done]. cbn. intros [= <- _]. eapply force_inv; [exact Hk| |exact E]. unfold sig_ok. lia.
Qed.

Lemma sigaction_inv s p g a n o ok size s' r w :
  sig_inv s → (∀ k, n = Some k → u64_ok (sa_mask k)) → sys_rt_sigaction s p g a n o ok size = Some (s', r, w) → sig_inv s'.
Proof.
  intros Hs Hn. unfold sys_rt_sigaction. destruct (_ || _) eqn:Eg; [by intros [= <- _ _]|]. zbool. destruct (act s p g) as [old|]; [|done]. cbn [mbind option_bind].
  assert (∀ s1, sig_inv s1 → Some (if o =? 0 then (s1, 0, None) else if ok then (s1, 0, Some old) else (s1, - EFAULT, None)) = Some (s', r, w) → sig_inv s') as Hfin.
  { intros s1 Hs1. destruct (o =? 0); [by intros [= <- _ _]|]. destruct ok; by intros [= <- _ _]. }
  destruct (a =? 0); [by apply Hfin|]. destruct n as [k|]; [|by intros [= <- _ _]]. destruct (_ || _) eqn:Ek; [by intros [= <- _ _]|]. zbool.
  set (s1 := put_act s p g _). assert (sig_ok g) as Hg by (unfold sig_ok; lia).
  assert (sig_inv s1) as Hs1 by (apply put_act_inv; [done|apply mask_ok_land; by apply Hn|lia|done]).
  destruct (sig_ignored s1 p g) as [ign|]; [|done]. cbn [mbind option_bind]. apply Hfin. destruct ign; [|done]. apply clear_threads_inv; [|apply clear_shared_inv; [|done]]; by apply u64_sigmask.
Qed.

Lemma procmask_inv s t how set n o ok size s' r w :
  sig_inv s → (∀ x, n = Some x → u64_ok x) → sys_rt_sigprocmask s t how set n o ok size = (s', r, w) → sig_inv s'.
Proof.
  intros Hs Hn. unfold sys_rt_sigprocmask. destruct (negb _); [by intros [= <- _ _]|]. pose proof (to_blocked _ (si_thr s Hs t)) as Hb.
  assert (∀ s1, sig_inv s1 → (if o =? 0 then (s1, 0, None) else if ok then (s1, 0, Some (sig_blocked (thr s t))) else (s1, - EFAULT, None)) = (s', r, w) → sig_inv s') as Hfin.
  { intros s1 Hs1. destruct (o =? 0); [by intros [= <- _ _]|]. destruct ok; by intros [= <- _ _]. }
  destruct (set =? 0); [by apply Hfin|]. destruct n as [x|]; [|by intros [= <- _ _]]. specialize (Hn x eq_refl). pose proof (mask_ok_land x Hn) as Hm.
  destruct (how =? SIG_BLOCK); [apply Hfin, blocked_inv; [by apply mask_ok_lor|done]|].
  destruct (how =? SIG_UNBLOCK); [apply Hfin, blocked_inv; [|done]|].
  { destruct Hb as (B1 & B2 & B3), Hm as (M1 & M2 & M3). assert (sig_ok SIGKILL ∧ sig_ok SIGSTOP) as [? ?] by (unfold sig_ok; lia). split; [auto with olux|]. split; rewrite sin_land; [by rewrite B2|by rewrite B3]. }
  destruct (how =? SIG_SETMASK); [by apply Hfin, blocked_inv|by intros [= <- _ _]].
Qed.

Lemma suspend_wait_inv s t s' r : sig_inv s → sigsuspend_wait s t = (s', r) → sig_inv s'.
Proof. intros Hs. unfold sigsuspend_wait. pose proof (set_state_inv s t TASK_RUNNING Hs). destruct (signal_pending _ _); intros [= <- _]; [done|by apply set_state_inv]. Qed.
Lemma suspend_inv s t n size s' r : sig_inv s → (∀ x, n = Some x → u64_ok x) → sys_rt_sigsuspend s t n size = (s', r) → sig_inv s'.
Proof.
  intros Hs Hn. unfold sys_rt_sigsuspend. destruct (negb _); [by intros [= <- _]|]. destruct n as [x|]; [|by intros [= <- _]]. apply suspend_wait_inv, blocked_inv; [apply mask_ok_land; auto|].
  apply inv_thr; [done|]. intros [A1 A2 A3 A4]. by split.
Qed.

(** A wait whose locals are well formed. *)
Definition twait_ok (w : twait) : Prop := mask_ok (tw_saved w) ∧ u64_ok (tw_set w).

(** Only the mask of [t] is not what it should be. *)
Lemma dequeue_masked s t p m saved s' d :
  sig_inv s → u64_ok m → mask_ok saved → dequeue_signal (upd_thr s t (set_blocked m)) t p = (s', d) → sig_inv (upd_thr s' t (set_blocked saved)).
Proof.
  intros Hs Hm Hsv. pose proof (si_thr s Hs t) as [A1 A2 A3 A4]. pose proof (si_prc s Hs p) as [B1 B2]. set (s1 := upd_thr s t _).
  assert (thr s1 t = set_blocked m (thr s t)) as E1 by (cbn; by rewrite fn_lookup_insert).
  assert (sig_inv (upd_thr s1 t (set_blocked saved))) as H1. { split; [|apply Hs..]. intros u. cbn. destruct (decide (t = u)) as [<-|]; [rewrite !fn_lookup_insert; by split|rewrite !fn_lookup_insert_ne by done; apply Hs]. }
  assert (words s1 t p) as Hw by (unfold words; rewrite E1; done).
  rewrite dequeue_spec by done. pose proof (queue_sig s1 t p) as Hq. destruct (queue s1 t p) as [|e r]; intros [= <- _]; [done|].
  assert (sig_ok e.2) as He by (apply Hq, list_elem_of_here). pose proof (take_inv _ t p e He H1) as [C1 C2 C3]. revert C1 C2 C3. unfold take. destruct e.1; intros C1 C2 C3; (split; [|exact C2|exact C3]); [|exact C1].
  intros u. specialize (C1 u). revert C1. cbn. destruct (decide (t = u)) as [<-|]; [by rewrite !fn_lookup_insert|by rewrite !fn_lookup_insert_ne].
Qed.

Lemma waiting_inv s t x : u64_ok x → sig_inv s → sig_inv (upd_thr s t (set_waiting x)).
Proof. intros Hx Hs. apply inv_thr; [done|]. intros [A1 A2 A3 A4]. by split. Qed.

Lemma timedwait_pass_inv s t p w ok now s' r : sig_inv s → twait_ok w → timedwait_pass s t p w ok now = (s', r) → sig_inv s'.
Proof.
  intros Hs [Hsv Hset]. unfold timedwait_pass. destruct (dequeue_signal _ t p) as [s1 d] eqn:Eq.
  assert (sig_inv (upd_thr s1 t (set_blocked (tw_saved w)))) as H1 by (eapply dequeue_masked; [exact Hs| |exact Hsv|exact Eq]; auto with olux).
  set (s2 := upd_thr s1 t _) in *. pose proof (waiting_inv s2 t 0 u64_0 H1). destruct d as [[g i]|]; [by intros [= <- _]|].
  destruct (signal_pending s2 t); [by intros [= <- _]|]. destruct (_ =? 0); [by intros [= <- _]|]. destruct (_ && _); [by intros [= <- _]|].
  intros [= <- _]. apply inv_thr; [done|]. intros [A1 A2 A3 A4]. split; try done. cbn. destruct Hsv as (B1 & B2 & B3). split; [auto with olux|].
  split; rewrite sin_land; [by rewrite B2|by rewrite B3].
Qed.

Lemma timedwait_inv s t p n uts ts size ok now s' w r :
  sig_inv s → (∀ x, n = Some x → u64_ok x) → sys_rt_sigtimedwait s t p n uts ts size ok now = (s', w, r) → sig_inv s' ∧ twait_ok w.
Proof.
  intros Hs Hn. assert (twait_ok (TWait 0 0 0 0)) as H0 by done. unfold sys_rt_sigtimedwait. destruct (negb _); [by intros [= <- <- _]|].
  destruct n as [x|]; [|by intros [= <- <- _]]. specialize (Hn x eq_refl). destruct (if uts =? 0 then _ else _) as [timeout|]; [|by intros [= <- <- _]].
  set (w0 := TWait _ _ _ _). assert (twait_ok w0) as Hw by (split; [apply (si_thr s Hs t)|cbn; auto with olux]).
  destruct (timedwait_pass _ t p w0 ok now) as [s1 r1] eqn:E. intros [= <- <- _]. split; [|done]. eapply timedwait_pass_inv; [|exact Hw|exact E]. apply waiting_inv; auto with olux.
Qed.
Lemma timedwait_resume_inv s t p w ok now s' r : sig_inv s → twait_ok w → timedwait_resume s t p w ok now = (s', r) → sig_inv s'.
Proof.
  intros Hs Hw. apply timedwait_pass_inv; [|done]. apply inv_thr; [done|]. intros [A1 A2 A3 A4]. destruct Hw. by split.
Qed.

Lemma altstack_inv s t uss n uo ok s' r w : sig_inv s → sys_sigaltstack s t uss n uo ok = (s', r, w) → sig_inv s'.
Proof.
  intros Hs. unfold sys_sigaltstack. assert (∀ a, sig_inv (upd_thr s t (set_altstack a))) as Ha by (intros a; apply inv_thr; [done|]; by intros []).
  intros E. repeat case_match; simplify_eq; auto.
Qed.

(** ** The machine *)

(** The state and the waits that threads sleep in. *)
Definition machine : Type := sys * (Z → option twait).

(** What comes from user memory is made of 64-bit words. *)
Inductive sig_step (cw : Z → Z → bool) : machine → machine → Prop :=
| st_thread s W t g info s' r : send_signal_thread s t g info = Some (s', r) → sig_step cw (s, W) (s', W)
| st_process s W p g info s' r : send_signal_process s p g info = Some (s', r) → sig_step cw (s, W) (s', W)
| st_pgrp s W pg g info s' r : kill_pgrp s pg g info = Some (s', r) → sig_step cw (s, W) (s', W)
| st_fault s W t p g code addr s' : sig_ok g → force_sig_fault s t p g code addr = Some s' → sig_step cw (s, W) (s', W)
| st_stop s W t p g s' : process_stop_all s t p g = Some s' → sig_step cw (s, W) (s', W)
| st_continue s W p : sig_step cw (s, W) (process_continue s p, W)
| st_deliver s W t s' v : do_signal cw s t = Some (s', v) → sig_step cw (s, W) (s', W)
| st_resumed s W t s' v : do_signal_resumed cw s t = Some (s', v) → sig_step cw (s, W) (s', W)
| st_return s W t p user s' r :
    (∀ a f, user a = Some f → u64_ok (f_sigmask f)) → sys_rt_sigreturn s t p user = Some (s', r) → sig_step cw (s, W) (s', W)
| st_action s W p g a n o ok size s' r w :
    (∀ k, n = Some k → u64_ok (sa_mask k)) → sys_rt_sigaction s p g a n o ok size = Some (s', r, w) → sig_step cw (s, W) (s', W)
| st_mask s W t how set n o ok size s' r w :
    (∀ x, n = Some x → u64_ok x) → sys_rt_sigprocmask s t how set n o ok size = (s', r, w) → sig_step cw (s, W) (s', W)
| st_suspend s W t n size s' r : (∀ x, n = Some x → u64_ok x) → sys_rt_sigsuspend s t n size = (s', r) → sig_step cw (s, W) (s', W)
| st_suspended s W t s' r : sigsuspend_wait s t = (s', r) → sig_step cw (s, W) (s', W)
| st_wait s W t p n uts ts size ok now s' w r :
    (∀ x, n = Some x → u64_ok x) → sys_rt_sigtimedwait s t p n uts ts size ok now = (s', w, r) →
    sig_step cw (s, W) (s', <[t := match r with Some _ => None | None => Some w end]> W)
| st_waited s W t p w ok now s' r :
    W t = Some w → timedwait_resume s t p w ok now = (s', r) → sig_step cw (s, W) (s', <[t := match r with Some _ => None | None => Some w end]> W)
| st_altstack s W t uss n uo ok s' r w : sys_sigaltstack s t uss n uo ok = (s', r, w) → sig_step cw (s, W) (s', W)
| st_kill s W c id g s' r : sys_kill s c id g = Some (s', r) → sig_step cw (s, W) (s', W)
| st_tgkill s W c tg id g s' r : sys_tgkill s c tg id g = Some (s', r) → sig_step cw (s, W) (s', W).

Lemma kill_inv s c id g s' r : sig_inv s → sys_kill s c id g = Some (s', r) → sig_inv s'.
Proof.
  intros Hs. unfold sys_kill. destruct (NSIG <? g); [by intros [= <- _]|]. destruct (0 <? to_s32 id); [|by apply kill_loop_inv].
  destruct (process_find s (to_s32 id)) as [p|]; [|by intros [= <- _]]. destruct (_ =? PROC_ZOMBIE); [by intros [= <- _]|]. destruct (negb _); [by intros [= <- _]|]. by apply send_process_inv.
Qed.
Lemma tgkill_inv s c tg id g s' r : sig_inv s → sys_tgkill s c tg id g = Some (s', r) → sig_inv s'.
Proof.
  intros Hs. unfold sys_tgkill. destruct (NSIG <? g); [by intros [= <- _]|]. destruct (thread_find s (to_s32 id)) as [t|]; [|by intros [= <- _]].
  destruct (proc (thr s t)) as [p|]; [|by intros [= <- _]]. destruct (_ && _); [by intros [= <- _]|]. destruct (g =? 0); [by intros [= <- _]|]. by apply send_thread_inv.
Qed.

Definition machine_ok (m : machine) : Prop := sig_inv m.1 ∧ ∀ t w, m.2 t = Some w → twait_ok w.

Lemma wait_ok (W : Z → option twait) t (r : option (Z * option siginfo_t)) w :
  twait_ok w → (∀ t w, W t = Some w → twait_ok w) → ∀ u w', <[t := match r with Some _ => None | None => Some w end]> W u = Some w' → twait_ok w'.
Proof.
  intros Hw HW u w'. destruct (decide (t = u)) as [->|]; [rewrite fn_lookup_insert; destruct r; [done|by intros [= <-]]|rewrite fn_lookup_insert_ne by done; apply HW].
Qed.

Lemma sig_step_ok cw m m' : machine_ok m → sig_step cw m m' → machine_ok m'.
Proof.
  intros [Hs HW] Hst. destruct Hst; cbn [fst snd] in *; try (split; [|exact HW]; cbn [fst]).
  - by eapply send_thread_inv.
  - by eapply send_process_inv.
  - unfold kill_pgrp in H. destruct (kill_each _ _ _ _ _ _) as [[s1 r1]|] eqn:E; [|done]. cbn in H. injection H as <- _. by eapply kill_each_inv.
  - by eapply force_inv.
  - by eapply stop_inv.
  - by apply prepare_inv.
  - unfold do_signal in H. destruct (proc _); [by eapply loop_inv|by injection H as <- _].
  - unfold do_signal_resumed, do_signal in H. pose proof (set_state_inv s t TASK_RUNNING Hs). destruct (proc _); [by eapply loop_inv|by injection H as <- _].
  - by eapply sigreturn_inv.
  - by eapply sigaction_inv.
  - by eapply procmask_inv.
  - by eapply suspend_inv.
  - by eapply suspend_wait_inv.
  - destruct (timedwait_inv _ _ _ _ _ _ _ _ _ _ _ _ Hs H H0) as [H1 Hw]. split; [done|]. by apply wait_ok.
  - split; [eapply timedwait_resume_inv; [exact Hs|by eapply HW|exact H0]|]. apply wait_ok; [by eapply HW|done].
  - by eapply altstack_inv.
  - by eapply kill_inv.
  - by eapply tgkill_inv.
Qed.

(** A thread's own set may hold SIGCONT and a stop signal together: a stop
    signal takes SIGCONT only out of the set of the process. *)
Theorem thread_conflict :
  ∃ s1 s2, send_signal_thread (upd_thr ex_sys 20 (set_blocked (sigmask SIGCONT))) 20 SIGCONT None = Some (s1, 0) ∧
    send_signal_thread s1 20 SIGSTOP None = Some (s2, 0) ∧
    sin (sig_pending (thr s2 20)) SIGCONT = true ∧ sin (sig_pending (thr s2 20)) SIGSTOP = true.
Proof. eexists _, _. split; [reflexivity|]. split; [reflexivity|]. by vm_compute. Qed.

(** C27. Starting from a well-formed state, after any sequence of the signal
    operations of the kernel and of programs that access no table past its end
    (signal 64 does): SIGKILL and SIGSTOP are neither blocked, caught nor ignored;
    all masks and pending sets are 64-bit words, also the masks saved for a
    later return; tables have [NSIG] entries; and the pending set of a process (not
    the sets of its threads) never holds SIGCONT and a stop signal together.  The
    states are those between operations: inside [sigtimedwait] the caller's mask is
    for a moment the complement of the set it waits for. *)
Theorem signals_well_formed cw m m' : machine_ok m → rtc (sig_step cw) m m' → machine_ok m'.
Proof. intros Hm Hr. induction Hr as [|m1 m2 m3 Hst _ IH]; [done|]. apply IH. by eapply sig_step_ok. Qed.

(** ** What a signal to a process does *)

(** The process after a signal: pending signals and stop state have changed. *)
Definition signalled (q q' : process) : Prop :=
  ∃ x i a b c d, q' = set_shared x i (set_stop a b c d q).

Lemma signalled_refl q : signalled q q.
Proof. exists (shared_pending q), (shared_info q), (group_stop q), (stop_reported q), (cont_reported q), (stop_sig q). by destruct q. Qed.
Lemma signalled_trans a b c : signalled a b → signalled b c → signalled a c.
Proof. intros (x & i & a1 & a2 & a3 & a4 & ->) (y & j & b1 & b2 & b3 & b4 & ->). by exists y, j, b1, b2, b3, b4. Qed.
Lemma signalled_shared q x i : signalled q (set_shared x i q).
Proof. exists x, i, (group_stop q), (stop_reported q), (cont_reported q), (stop_sig q). by destruct q. Qed.

Lemma prepare_signalled s p g : signalled (prc s p) (prc (prepare_signal s p g) p).
Proof.
  unfold prepare_signal. destruct (_ || _).
  - cbn zeta. set (s1 := clear_threads _ _ _). destruct (clear_threads_prc (clear_shared s p stops) p stops) as [E1 _]. fold s1 in E1.
    assert (signalled (prc s p) (prc s1 p)) as H1 by (rewrite E1; cbn; rewrite fn_lookup_insert; apply signalled_shared).
    destruct (group_stop (prc s1 p)); [|done]. set (s2 := upd_prc s1 p _). destruct (awake_stopped s2 p) as [-> _ _ _ _].
    eapply signalled_trans; [exact H1|]. cbn. rewrite fn_lookup_insert. eexists (shared_pending (prc s1 p)), (shared_info (prc s1 p)), _, _, _, _. reflexivity.
  - destruct (bool_decide _); [cbn; rewrite fn_lookup_insert; apply signalled_shared|apply signalled_refl].
Qed.

(** Threads keep their masks and their process. *)
Definition same_masks (s s' : sys) : Prop := ∀ u, sig_blocked (thr s' u) = sig_blocked (thr s u) ∧ sig_waiting (thr s' u) = sig_waiting (thr s u) ∧ proc (thr s' u) = proc (thr s u).

Lemma awake_masks s s' : awake s s' → same_masks s s'.
Proof. intros [_ _ _ H] u. by destruct (H u) as [-> | ->]. Qed.
Lemma clear_threads_masks s p m : same_masks s (clear_threads s p m).
Proof.
  unfold clear_threads. generalize (threads (prc s p)). intros l. revert s. induction l as [|t l IH]; intros s; [done|]. cbn. intros u.
  destruct (IH (upd_thr s t (λ x, set_pending (Z.land (sig_pending x) (not64 m)) (sig_info x) x)) u) as (-> & -> & ->). cbn.
  destruct (decide (t = u)) as [->|]; [by rewrite fn_lookup_insert|by rewrite fn_lookup_insert_ne].
Qed.
Lemma prepare_masks s p g : same_masks s (prepare_signal s p g).
Proof.
  unfold prepare_signal. destruct (_ || _); [|by destruct (bool_decide _)]. cbn zeta. pose proof (clear_threads_masks (clear_shared s p stops) p stops) as H.
  destruct (group_stop _); [|exact H]. intros u. set (s2 := upd_prc _ p _). destruct (awake_masks s2 _ (awake_stopped s2 p) u) as (-> & -> & ->). apply H.
Qed.

(** An ignored signal that no thread blocks or waits for. *)
Definition discards (s : sys) (p g : Z) : bool :=
  match sig_ignored s p g with Some ign => ign && negb (wanted s p g) | None => false end.

Lemma wanted_eq s s' p g : same_masks s s' → threads (prc s' p) = threads (prc s p) → wanted s' p g = wanted s p g.
Proof.
  intros H E. unfold wanted. rewrite E. clear E. induction (threads (prc s p)) as [|t l IH]; [done|]. cbn. rewrite IH. by destruct (H t) as (-> & -> & _).
Qed.

Lemma sig_ignored_prepare s p g : sig_ignored (prepare_signal s p g) p g = sig_ignored s p g.
Proof. destruct (prepare_spec s p g) as (_ & E1 & _ & E2 & _). unfold sig_ignored, act. by rewrite E1, E2. Qed.

(** A thread sleeps in none of the states of the mask. *)
Definition not_in (s : sys) (m t : Z) : Prop := Z.land (state (thr s t)) m = 0.

Lemma not_in_awake s s' m t : awake s s' → not_in s m t → not_in s' m t.
Proof. intros [_ _ _ H] Hn. unfold not_in in *. destruct (H t) as [-> | ->]; [done|]. apply Z.land_0_l. Qed.
Lemma wake_not_in s m t : not_in (try_to_wake_up s t m) m t.
Proof. unfold not_in, try_to_wake_up. destruct (Z.eqb_spec (Z.land (state (thr s t)) m) 0) as [E|_]; [done|]. cbn. rewrite fn_lookup_insert. apply Z.land_0_l. Qed.

Lemma wake_taker_spec l s g :
  sig_inv s → sig_ok g → Exists (λ t, sin (sig_blocked (thr s t)) g = false) l →
  Exists (λ t, sin (sig_blocked (thr s t)) g = false ∧ not_in (wake_taker s l g) TASK_INTERRUPTIBLE t) l.
Proof.
  intros Hs Hg. revert s Hs. induction l as [|t l IH]; intros s Hs H; [by inversion H|]. cbn [wake_taker]. rewrite land_sigmask by (done || apply Hs).
  destruct (sin (sig_blocked (thr s t)) g) eqn:E; cbn [negb].
  - rewrite orb_false_r. assert (Exists (λ t, sin (sig_blocked (thr s t)) g = false) l) as H' by (inversion H; congruence). right. destruct (Z.eqb_spec g SIGKILL) as [->|].
    + assert (mask_ok (sig_blocked (thr s t))) as (_ & Hk & _) by apply Hs. congruence.
    + by apply IH.
  - rewrite orb_true_r. left. split; [done|]. destruct (g =? SIGKILL); [eapply not_in_awake; [apply awake_taker|]|]; apply wake_not_in.
Qed.

Lemma kill_taker_spec l s : ∀ t, t ∈ l → not_in (wake_taker s l SIGKILL) TASK_INTERRUPTIBLE t.
Proof.
  revert s. induction l as [|u l IH]; intros s t; [by intros ?%not_elem_of_nil|]. cbn. intros [->|Ht]%elem_of_cons; [|by apply IH].
  eapply not_in_awake; [apply awake_taker|apply wake_not_in].
Qed.

Lemma fold_wake_not_in m l s : ∀ t, t ∈ l → not_in (fold_left (λ s t, try_to_wake_up s t m) l s) m t.
Proof.
  revert s. induction l as [|u l IH]; intros s t; [by intros ?%not_elem_of_nil|]. cbn. intros [->|Ht]%elem_of_cons; [|by apply IH].
  eapply not_in_awake; [apply awake_fold; intros; apply awake_wake|apply wake_not_in].
Qed.

(** SIGCONT and SIGKILL let a stopped process run. *)
Lemma prepare_resumes s p g :
  g = SIGCONT ∨ g = SIGKILL →
  group_stop (prc (prepare_signal s p g) p) = false ∧
  (group_stop (prc s p) = true → ∀ t, t ∈ threads (prc s p) → not_in (prepare_signal s p g) TASK_STOPPED t).
Proof.
  intros Hg. unfold prepare_signal. replace ((g =? SIGCONT) || (g =? SIGKILL)) with true by (by destruct Hg as [-> | ->]).
  cbn zeta. set (s1 := clear_threads _ _ _). destruct (clear_threads_prc (clear_shared s p stops) p stops) as [E1 _]. fold s1 in E1.
  assert (group_stop (prc s1 p) = group_stop (prc s p) ∧ threads (prc s1 p) = threads (prc s p)) as [G T] by (rewrite E1; cbn; by rewrite fn_lookup_insert).
  rewrite G. destruct (group_stop (prc s p)); [|split; [by rewrite G|done]]. set (s2 := upd_prc s1 p _).
  assert (threads (prc s2 p) = threads (prc s p)) as T2 by (cbn; rewrite fn_lookup_insert; done). destruct (awake_stopped s2 p) as [E _ _ _ _].
  split; [rewrite E; cbn; by rewrite fn_lookup_insert|]. intros _ t Ht. eapply not_in_awake; [apply awake_parent|]. apply fold_wake_not_in. by rewrite T2.
Qed.

Lemma send_process_frame s p g info s' r :
  send_signal_process s p g info = Some (s', r) → signalled (prc s p) (prc s' p) ∧ (∀ q, q ≠ p → prc s' q = prc s q) ∧ action s' = action s ∧ same_masks s s'.
Proof.
  unfold send_signal_process. assert (signalled (prc s p) (prc s p) ∧ (∀ q, q ≠ p → prc s q = prc s q) ∧ action s = action s ∧ same_masks s s) as H0 by (split; [apply signalled_refl|done]).
  destruct (_ || _); [by intros [= <- _]|]. destruct (g =? 0); [by intros [= <- _]|]. destruct (_ =? PROC_ZOMBIE); [by intros [= <- _]|].
  pose proof (prepare_signalled s p g) as H1. destruct (prepare_spec s p g) as (_ & E1 & _ & _ & _ & Hq). pose proof (prepare_masks s p g) as Hm. cbn zeta in *. set (s1 := prepare_signal s p g) in *.
  destruct (sig_ignored s1 p g) as [ign|]; [|done]. cbn [mbind option_bind]. destruct (_ && _); [by intros [= <- _]|].
  set (s2 := queue_process s1 p g info). clearbody s1. intros E. assert (s' = wake_taker s2 (threads (prc s2 p)) g) as -> by congruence. clear E. pose proof (awake_taker (threads (prc s2 p)) s2 g) as Haw. pose proof (awake_masks _ _ Haw) as Hm'. destruct Haw as [E2 E3 _ _]. rewrite E2, E3.
  assert (prc s2 p = set_shared (queue_signal (shared_pending (prc s1 p)) (shared_info (prc s1 p)) g info).1 (queue_signal (shared_pending (prc s1 p)) (shared_info (prc s1 p)) g info).2 (prc s1 p)) as E by (cbn; by rewrite fn_lookup_insert).
  split; [rewrite E; eapply signalled_trans; [exact H1|apply signalled_shared]|]. split; [intros q Hne; cbn; rewrite fn_lookup_insert_ne by done; by apply Hq|]. split; [exact E1|].
  intros u. destruct (Hm' u) as (-> & -> & ->). apply Hm.
Qed.

(** The wait queues are those of before. *)
Lemma prepare_queue s p g : child_wait (prepare_signal s p g) = child_wait s.
Proof.
  unfold prepare_signal. destruct (_ || _); [|by destruct (bool_decide _)]. cbn zeta. set (s1 := clear_threads _ _ _).
  assert (child_wait s1 = child_wait s) as <-.
  { unfold s1, clear_threads. change (child_wait s) with (child_wait (clear_shared s p stops)). generalize (threads (prc (clear_shared s p stops) p)). intros l.
    generalize (clear_shared s p stops). induction l as [|t l IH]; intros x; [done|]. cbn. by rewrite IH. }
  destruct (group_stop _); [|done]. by rewrite (aw_queue _ _ (awake_stopped _ p)).
Qed.
Lemma send_process_queue s p g info s' r : send_signal_process s p g info = Some (s', r) → child_wait s' = child_wait s.
Proof.
  unfold send_signal_process. destruct (_ || _); [by intros [= <- _]|]. destruct (g =? 0); [by intros [= <- _]|]. destruct (_ =? PROC_ZOMBIE); [by intros [= <- _]|].
  destruct (sig_ignored _ p g) as [ign|]; [|done]. cbn [mbind option_bind]. destruct (_ && _); intros [= <- _]; [apply prepare_queue|].
  etrans; [apply (aw_queue _ _ (awake_taker _ _ g))|]. apply prepare_queue.
Qed.

(** A thread keeps its state or is made runnable. *)
Definition only_woken (s s' : sys) : Prop := ∀ u, state (thr s' u) = state (thr s u) ∨ state (thr s' u) = TASK_RUNNING.

Lemma awake_woken s s1 s' : awake s1 s' → only_woken s s1 → only_woken s s'.
Proof. intros [_ _ _ H _] Hw u. destruct (H u) as [-> | ->]; [apply Hw|by right]. Qed.
Lemma prepare_woken s p g : only_woken s (prepare_signal s p g).
Proof.
  unfold prepare_signal. destruct (_ || _); [|by destruct (bool_decide _); left]. cbn zeta. set (s1 := clear_threads _ _ _).
  assert (only_woken s s1) as H1.
  { intros u. left. unfold s1, clear_threads. change (thr s) with (thr (clear_shared s p stops)). generalize (threads (prc (clear_shared s p stops) p)). intros l.
    generalize (clear_shared s p stops). induction l as [|t l IH]; intros x; [done|]. cbn. rewrite IH. cbn.
    destruct (decide (t = u)) as [->|]; [by rewrite fn_lookup_insert|by rewrite fn_lookup_insert_ne]. }
  destruct (group_stop _); [|done]. eapply awake_woken; [apply awake_stopped|]. exact H1.
Qed.

(** The two ends of [send_signal_process]. *)
Lemma send_cases s p g info :
  sig_inv s → 0 < g < NSIG → p_state (prc s p) ≠ PROC_ZOMBIE →
  let s1 := prepare_signal s p g in let s2 := queue_process s1 p g info in
  send_signal_process s p g info = Some (if discards s p g then s1 else wake_taker s2 (threads (prc s p)) g, 0).
Proof.
  intros Hs Hg Hz. unfold send_signal_process. replace ((g <? 0) || (NSIG <? g)) with false by lia. replace (g =? 0) with false by lia. rewrite (proj2 (Z.eqb_neq _ _) Hz).
  cbn zeta. destruct (prepare_spec s p g) as (_ & _ & ET & _). cbn zeta in ET. rewrite sig_ignored_prepare. unfold discards.
  destruct (sig_ignored s p g) as [ign|] eqn:E.
  - cbn [mbind option_bind]. rewrite (wanted_eq s) by (done || apply prepare_masks). destruct (ign && negb (wanted s p g)); [done|].
    cbn [queue_process upd_prc prc]. rewrite fn_lookup_insert. destruct (queue_signal _ _ _ _). cbn. by rewrite ET.
  - exfalso. unfold sig_ignored in E. destruct (_ || _); [done|]. destruct (inv_table s p g Hs) as [ka Ha]; [lia|]. by rewrite Ha in E.
Qed.

Lemma queue_process_prc s p g info :
  sig_ok g → u64_ok (shared_pending (prc s p)) →
  let q := prc (queue_process s p g info) p in
  q = set_shared (Z.lor (shared_pending (prc s p)) (sigmask g)) (shared_info q) (prc s p) ∧
  (sin (shared_pending (prc s p)) g = false → shared_info q (g - 1) = match info with Some i => SigInfo g (si_code i) (si_word i) (si_status i) | None => kernel_info g end).
Proof.
  intros Hg Hu. cbn. rewrite fn_lookup_insert. split; [done|]. intros E. cbn. rewrite land_sigmask, E by done. cbn. rewrite fn_lookup_insert. by destruct info.
Qed.

Lemma woken_running s s' t : only_woken s s' → not_in s' TASK_INTERRUPTIBLE t → state (thr s t) = TASK_INTERRUPTIBLE → state (thr s' t) = TASK_RUNNING.
Proof. intros Hw Hn E. destruct (Hw t) as [Hk|Hk]; [|done]. unfold not_in in Hn. rewrite Hk, E in Hn. discriminate Hn. Qed.

(** C28. A signal sent to a live process is not lost.  It is discarded only when
    it is ignored and no thread blocks it or waits for it; else it is pending
    afterwards, with its information if it was not pending before, and when some
    thread does not block it, one such thread sees it pending and is not left in
    an interruptible sleep: it runs if it was in one, and otherwise, say stopped,
    it may stay as it was.  SIGKILL leaves no thread in an interruptible sleep;
    SIGKILL and SIGCONT end a stop of the process and leave none of its threads stopped.  Stop signals and SIGCONT
    cancel each other in the pending set of the process.  No record of another
    process changes, and the only change of any thread's state is to runnable. *)
Theorem send_signal_process_correct s p g info :
  sig_inv s → 0 < g < NSIG → p_state (prc s p) ≠ PROC_ZOMBIE → (∀ t, t ∈ threads (prc s p) → proc (thr s t) = Some p) →
  ∃ s', send_signal_process s p g info = Some (s', 0) ∧ sig_inv s' ∧ (∀ q, q ≠ p → prc s' q = prc s q) ∧ same_masks s s' ∧ only_woken s s' ∧
    (∀ h, sig_ok h → sin (shared_pending (prc s' p)) h = sin (prepared g (shared_pending (prc s p))) h || ((h =? g) && negb (discards s p g))) ∧
    (g = SIGCONT ∨ g = SIGKILL → group_stop (prc s' p) = false ∧ (group_stop (prc s p) = true → ∀ t, t ∈ threads (prc s p) → not_in s' TASK_STOPPED t)) ∧
    (discards s p g = false →
       (sin (prepared g (shared_pending (prc s p))) g = false → shared_info (prc s' p) (g - 1) = match info with Some i => SigInfo g (si_code i) (si_word i) (si_status i) | None => kernel_info g end) ∧
       (Exists (λ t, sin (sig_blocked (thr s t)) g = false) (threads (prc s p)) →
        Exists (λ t, sin (sig_blocked (thr s t)) g = false ∧ signal_pending s' t = true ∧ not_in s' TASK_INTERRUPTIBLE t ∧
                     (state (thr s t) = TASK_INTERRUPTIBLE → state (thr s' t) = TASK_RUNNING)) (threads (prc s p))) ∧
       (g = SIGKILL → ∀ t, t ∈ threads (prc s p) → not_in s' TASK_INTERRUPTIBLE t)).
Proof.
  intros Hs Hg Hz Hpr. assert (sig_ok g) as Hok by (unfold sig_ok; lia). pose proof (send_cases s p g info Hs Hg Hz) as E. eexists. split; [exact E|].
  pose proof (send_process_inv _ _ _ _ _ _ Hs E) as Hi. destruct (send_process_frame _ _ _ _ _ _ E) as (_ & Hq & _ & Hm). cbn zeta in *.
  destruct (prepare_spec s p g) as (E1 & _). cbn zeta in E1. pose proof (prepare_resumes s p g) as Hres. pose proof (prepare_inv s p g Hs) as H1.
  pose proof (prepare_woken s p g) as Hwo. split; [exact Hi|]. split; [exact Hq|]. split; [exact Hm|]. set (s1 := prepare_signal s p g) in *.
  destruct (discards s p g). { split; [exact Hwo|]. split; [intros h Hh; by rewrite E1, andb_false_r, orb_false_r|]. split; [exact Hres|done]. }
  set (s2 := queue_process s1 p g info) in *. destruct (queue_process_prc s1 p g info Hok) as [E2 Hinfo]; [apply H1|]. cbn zeta in E2, Hinfo. fold s2 in E2, Hinfo.
  assert (sig_inv s2) as H2 by (apply queue_process_inv; [done|by apply prepare_may_queue|done]).
  assert (same_masks s s2) as Hm2 by apply prepare_masks.
  pose proof (awake_taker (threads (prc s p)) s2 g) as Haw. pose proof (aw_prc _ _ Haw) as Ep. rewrite Ep.
  assert (only_woken s (wake_taker s2 (threads (prc s p)) g)) as Hwo' by (eapply awake_woken; [exact Haw|exact Hwo]). split; [exact Hwo'|].
  split. { intros h Hh. rewrite E2. cbn [shared_pending set_shared]. rewrite E1, sin_lor, sin_sigmask by done. by rewrite andb_true_r. }
  split. { intros Hor. destruct (Hres Hor) as [R1 R2]. split; [rewrite E2; exact R1|]. intros Hst t Ht. eapply not_in_awake; [exact Haw|]. exact (R2 Hst t Ht). }
  intros _. split; [rewrite <-E1; exact Hinfo|]. split.
  - intros Hex. assert (Exists (λ t, sin (sig_blocked (thr s2 t)) g = false) (threads (prc s p))) as Hex2.
    { eapply Exists_impl; [exact Hex|]. intros t. by destruct (Hm2 t) as (-> & _). }
    pose proof (wake_taker_spec _ s2 g H2 Hok Hex2) as Hw. apply Exists_exists in Hw as (t & Ht & Hb & Hn). apply Exists_exists. exists t. split; [done|].
    rewrite <-(proj1 (Hm2 t)). split; [done|]. split; [|split; [done|by apply (woken_running s)]]. unfold signal_pending. destruct (Hm t) as (-> & _ & ->). rewrite Hpr by done. rewrite Ep.
    destruct (Z.eqb_spec (Z.land (Z.lor (sig_pending (thr (wake_taker s2 (threads (prc s p)) g) t)) (shared_pending (prc s2 p))) (not64 (sig_blocked (thr s t)))) 0) as [Z0|]; [|done].
    exfalso. apply (f_equal (λ x, sin x g)) in Z0. revert Z0. rewrite <-(proj1 (Hm2 t)). assert (u64_ok (sig_blocked (thr s2 t))) by apply H2.
    autorewrite with olux_sig. rewrite Hb, E2. cbn [shared_pending set_shared]. autorewrite with olux_sig. rewrite Z.eqb_refl, !orb_true_r. done.
  - intros ->. apply kill_taker_spec.
Qed.

(** ** Who may signal whom *)

(** Only pending signals, stop states and sleep states have changed. *)
Definition sent (s s' : sys) : Prop := (∀ q, signalled (prc s q) (prc s' q)) ∧ action s' = action s ∧ same_masks s s'.

Lemma sent_refl s : sent s s.
Proof. split; [intros; apply signalled_refl|done]. Qed.
Lemma sent_trans a b c : sent a b → sent b c → sent a c.
Proof.
  intros (A1 & A2 & A3) (B1 & B2 & B3). split; [intros q; eapply signalled_trans; [apply A1|apply B1]|]. split; [by rewrite B2|].
  intros u. destruct (A3 u) as (<- & <- & <-). apply B3.
Qed.

Definition permitted (s : sys) (c g p : Z) : bool := check_kill_perm s c p g =? 0.
(** The live processes that a call addresses. *)
Definition addressed (s : sys) (c id p : Z) : bool :=
  negb (p_state (prc s p) =? PROC_ZOMBIE) &&
  (if 0 <? id then pid (prc s p) =? id
   else if id =? 0 then pgid (prc s p) =? pgid (prc s c)
   else if id =? -1 then negb (pid (prc s p) =? 1) && negb (p =? c)
   else pgid (prc s p) =? to_s32 (- id)).

Lemma sent_addressed s s' c id p : sent s s' → addressed s' c id p = addressed s c id p.
Proof. intros (H & _). unfold addressed. destruct (H p) as (x1 & x2 & x3 & x4 & x5 & x6 & ->), (H c) as (y1 & y2 & y3 & y4 & y5 & y6 & ->). done. Qed.
Lemma sent_permitted s s' c g p : sent s s' → permitted s' c g p = permitted s c g p.
Proof. intros (H & _). unfold permitted, check_kill_perm. destruct (H p) as (x1 & x2 & x3 & x4 & x5 & x6 & ->), (H c) as (y1 & y2 & y3 & y4 & y5 & y6 & ->). done. Qed.
Lemma sent_discards s s' p g : sent s s' → discards s' p g = discards s p g.
Proof.
  intros (H & Ha & Hm). unfold discards, sig_ignored, act. rewrite Ha. rewrite (wanted_eq s s' p g Hm); destruct (H p) as (x1 & x2 & x3 & x4 & x5 & x6 & ->); done.
Qed.

(** One target. *)
Definition received (s s' : sys) (g q : Z) : Prop := 0 < g → discards s q g = true ∨ sin (shared_pending (prc s' q)) g = true.

Lemma send_one s p g info :
  sig_inv s → 0 ≤ g < NSIG → p_state (prc s p) ≠ PROC_ZOMBIE →
  ∃ s', send_signal_process s p g info = Some (s', 0) ∧ sig_inv s' ∧ sent s s' ∧ (∀ q, q ≠ p → prc s' q = prc s q) ∧ received s s' g p.
Proof.
  intros Hs Hg Hz. destruct (decide (g = 0)) as [->|Hne]; [exists s; split; [done|]; split; [done|]; split; [apply sent_refl|]; split; [done|]; unfold received; lia|].
  pose proof (send_cases s p g info Hs ltac:(lia) Hz) as E. eexists. split; [exact E|]. pose proof (send_process_inv _ _ _ _ _ _ Hs E) as Hi.
  destruct (send_process_frame _ _ _ _ _ _ E) as (F1 & F2 & F3 & F4). split; [exact Hi|]. split.
  { split; [|done]. intros q. destruct (decide (q = p)) as [->|Hq]; [exact F1|]. rewrite F2 by done. apply signalled_refl. }
  split; [exact F2|]. intros _. destruct (discards s p g); [by left|]. right. rewrite (aw_prc _ _ (awake_taker _ _ _)).
  assert (sig_ok g) as Hok by (unfold sig_ok; lia). destruct (queue_process_prc (prepare_signal s p g) p g info Hok) as [-> _]; [apply (si_prc _ (prepare_inv s p g Hs) p)|].
  cbn [shared_pending set_shared]. autorewrite with olux_sig. by rewrite Z.eqb_refl, orb_true_r.
Qed.

Definition targets (s : sys) (c id : Z) (l : list Z) : list Z := List.filter (addressed s c id) l.
Definition allowed (s : sys) (c id g : Z) (l : list Z) : list Z := List.filter (permitted s c g) (targets s c id l).

(** The result of a call: success if something was signalled, else whether
    there was a target at all. *)
Definition kill_result (T A : list Z) : Z := match A, T with _ :: _, _ => 0 | [], _ :: _ => - EPERM | [], [] => - ESRCH end.

Lemma addressed_loop s0 s c id p :
  sent s0 s → id ≤ 0 →
  (if p_state (prc s p) =? PROC_ZOMBIE then true
   else if id =? -1 then (pid (prc s p) =? 1) || (p =? c)
   else negb (pgid (prc s p) =? (if id =? 0 then pgid (prc s0 c) else if id =? -1 then 0 else to_s32 (- id)))) = negb (addressed s0 c id p).
Proof.
  intros Hse Hid. rewrite <-(sent_addressed s0 s c id p Hse). unfold addressed. replace (0 <? id) with false by lia.
  destruct Hse as [H _]. destruct (H c) as (y1 & y2 & y3 & y4 & y5 & y6 & ->). cbn. destruct (_ =? PROC_ZOMBIE); [done|]. cbn.
  destruct (Z.eqb_spec id 0) as [->|]; [done|]. destruct (id =? -1); [|done]. by rewrite negb_andb, !negb_involutive.
Qed.

Lemma kill_loop_spec l s0 s c id pg g info count err :
  sent s0 s → sig_inv s → NoDup l → 0 ≤ g < NSIG → 0 ≤ count → id ≤ 0 → pg = (if id =? 0 then pgid (prc s0 c) else if id =? -1 then 0 else to_s32 (- id)) →
  ∃ s', kill_loop s l c id pg g info count err =
      Some (s', if count =? 0 then match allowed s0 c id g l, targets s0 c id l with _ :: _, _ => 0 | [], _ :: _ => - EPERM | [], [] => err end else 0) ∧
    sig_inv s' ∧ sent s0 s' ∧ (∀ q, q ∉ allowed s0 c id g l → prc s' q = prc s q) ∧ (∀ q, q ∈ allowed s0 c id g l → received s0 s' g q).
Proof.
  intros Hse Hs Hnd Hg Hc Hid ->. revert s count err Hse Hs Hc. induction l as [|p l IH]; intros s count err Hse Hs Hc.
  { exists s. cbn. split; [by destruct (count =? 0)|]. split; [done|]. split; [done|]. split; [done|]. by intros q ?%not_elem_of_nil. }
  apply NoDup_cons in Hnd as [Hp Hnd]. specialize (IH Hnd). cbn [kill_loop]. set (pg := if id =? 0 then _ else _) in *.
  pose proof (addressed_loop s0 s c id p Hse Hid) as Ead. fold pg in Ead. unfold allowed, targets. cbn [List.filter].
  destruct (addressed s0 c id p) eqn:Ad; cbn [negb] in Ead.
  2:{ destruct (p_state (prc s p) =? PROC_ZOMBIE); [by apply IH|]. rewrite Ead. by apply IH. }
  destruct (Z.eqb_spec (p_state (prc s p)) PROC_ZOMBIE) as [|Hz]; [done|]. rewrite Ead. cbn [List.filter]. change (check_kill_perm s c p g =? 0) with (permitted s c g p). rewrite (sent_permitted s0) by done.
  destruct (permitted s0 c g p) eqn:Pe; cbn [negb].
  - destruct (send_one s p g (Some info) Hs Hg Hz) as (s1 & -> & Hs1 & Hse1 & Hq1 & Hr1). cbn [mbind option_bind fst].
    assert (sent s0 s1) as Hse01 by (by eapply sent_trans). destruct (IH s1 (count + 1) err Hse01 Hs1) as (s' & -> & Hi & Hse' & Hq & Hr); [lia|].
    exists s'. replace (count + 1 =? 0) with false by lia. split; [by destruct (count =? 0)|]. split; [done|]. split; [done|].
    assert (p ∉ allowed s0 c id g l) as Hpl by (intros H; apply Hp; apply list_elem_of_In, filter_In in H as [[H _]%filter_In _]; by apply list_elem_of_In).
    split; [intros q [Hne Hnq]%not_elem_of_cons; rewrite Hq by done; by apply Hq1|].
    intros q [->|Hq']%elem_of_cons; [|by apply Hr]. intros Hg0. rewrite Hq by done. rewrite <-(sent_discards s0 s) by done. by apply Hr1.
  - destruct (IH s count (- EPERM) Hse Hs Hc) as (s' & -> & Hi & Hse' & Hq & Hr). exists s'. split; [|done].
    f_equal. f_equal. destruct (count =? 0); [|done]. fold (targets s0 c id l). unfold allowed. by destruct (List.filter (permitted s0 c g) (targets s0 c id l)), (targets s0 c id l).
Qed.

Lemma filter_none {A} (f : A → bool) l : (∀ x, x ∈ l → f x = false) → List.filter f l = [].
Proof. induction l as [|x l IH]; intros H; [done|]. cbn. rewrite (H x) by apply list_elem_of_here. apply IH. intros y Hy. apply H. by right. Qed.
Lemma filter_unique {A} (f : A → bool) l p : NoDup l → p ∈ l → f p = true → (∀ q, q ∈ l → f q = true → q = p) → List.filter f l = [p].
Proof.
  induction l as [|x l IH]; intros Hnd Hp Hf Hu; [by apply not_elem_of_nil in Hp|]. apply NoDup_cons in Hnd as [Hx Hnd]. cbn.
  destruct (f x) eqn:E.
  - assert (x = p) as -> by (apply Hu; [apply list_elem_of_here|done]). f_equal. apply filter_none. intros y Hy. destruct (f y) eqn:F; [|done].
    exfalso. apply Hx. assert (y = p) as <- by (apply Hu; [by right|done]). done.
  - apply IH; [done| |done|intros q Hq; apply Hu; by right]. apply elem_of_cons in Hp as [->|]; [congruence|done].
Qed.

(** C29. [kill] signals exactly the live processes that it addresses and that the
    caller may signal: superuser, same user, or SIGCONT in the same session.
    No other process changes.  It succeeds if it signalled one, fails with
    [EPERM] if all targets were refused and with [ESRCH] if there was none. *)
Theorem sys_kill_correct s c upid g :
  sig_inv s → 0 ≤ g < NSIG → NoDup (all_processes s) → (∀ p q, p ∈ all_processes s → q ∈ all_processes s → pid (prc s p) = pid (prc s q) → p = q) →
  let id := to_s32 upid in let T := targets s c id (all_processes s) in let A := allowed s c id g (all_processes s) in
  ∃ s', sys_kill s c upid g = Some (s', kill_result T A) ∧ sig_inv s' ∧ sent s s' ∧
    (∀ q, q ∉ A → prc s' q = prc s q) ∧ (∀ q, q ∈ A → received s s' g q).
Proof.
  intros Hs Hg Hnd Hpid id T A. unfold sys_kill. fold id. replace (NSIG <? g) with false by lia. cbn zeta. set (info := SigInfo _ _ _ _).
  destruct (Z.ltb_spec 0 id) as [Hid|Hid].
  2:{ destruct (kill_loop_spec (all_processes s) s s c id _ g info 0 (- ESRCH) (sent_refl s) Hs Hnd Hg ltac:(lia) Hid eq_refl) as (s' & -> & H). exists s'. split; [|done].
      unfold kill_result, T, A. cbn. by destruct (allowed _ _ _ _ _), (targets _ _ _ _). }
  assert (∀ p, addressed s c id p = negb (p_state (prc s p) =? PROC_ZOMBIE) && (pid (prc s p) =? id)) as Ead by (intros; unfold addressed; by replace (0 <? id) with true by lia).
  unfold process_find. destruct (List.find (λ p, pid (prc s p) =? id) (all_processes s)) as [p|] eqn:E.
  2:{ exists s. assert (T = []) as ET by (apply filter_none; intros x Hx; rewrite Ead, (find_none _ _ E x) by (by apply list_elem_of_In); apply andb_false_r).
      unfold A, allowed. fold T. rewrite ET. split; [done|]. split; [done|]. split; [apply sent_refl|]. split; [done|]. by intros q ?%not_elem_of_nil. }
  apply find_some in E as [Hin%list_elem_of_In Ep%Z.eqb_eq].
  assert (∀ q, q ∈ all_processes s → addressed s c id q = true → q = p) as Huq by (intros q Hq; rewrite Ead; intros [_ Eq%Z.eqb_eq]%andb_true_iff; apply Hpid; congruence).
  destruct (Z.eqb_spec (p_state (prc s p)) PROC_ZOMBIE) as [Hz|Hz].
  { exists s. assert (T = []) as ET. { apply filter_none. intros x Hx. destruct (addressed s c id x) eqn:F; [|done]. pose proof (Huq x Hx F) as ->. by rewrite Ead, Hz in F. }
    unfold A, allowed. fold T. rewrite ET. split; [done|]. split; [done|]. split; [apply sent_refl|]. split; [done|]. by intros q ?%not_elem_of_nil. }
  assert (T = [p]) as ET by (apply filter_unique; [done|done|rewrite Ead, Ep, Z.eqb_refl; by apply Z.eqb_neq in Hz as ->|done]).
  unfold A, allowed. fold T. rewrite ET. cbn [List.filter]. change (check_kill_perm s c p g =? 0) with (permitted s c g p). destruct (permitted s c g p) eqn:Pe; cbn [negb kill_result].
  - destruct (send_one s p g (Some info) Hs Hg Hz) as (s1 & -> & Hs1 & Hse1 & Hq1 & Hr1). exists s1. split; [done|]. split; [done|]. split; [done|].
    split; [intros q Hq; apply Hq1; by intros ->; apply Hq, list_elem_of_here|]. intros q Hq%list_elem_of_singleton. by subst q.
  - exists s. split. { unfold permitted, check_kill_perm in *. do 2 (destruct (_ || _) || destruct (_ && _); try done). }
    split; [done|]. split; [apply sent_refl|]. split; [done|]. by intros q ?%not_elem_of_nil.
Qed.

(** ** Examples and what they show *)

Lemma mask_0 : mask_ok 0.
Proof. by vm_compute. Qed.

Lemma ex_thread_ok p x : u64_ok x → thread_ok (ex_thread p x).
Proof. intros Hx. split; [exact mask_0|exact mask_0|exact Hx|exact u64_0]. Qed.

Lemma ex_table_ok : table_ok ex_table.
Proof.
  split; [reflexivity|..]; intros i ka; unfold ex_table; rewrite list_lookup_insert; case_decide as E.
  - intros [= <-]. by vm_compute.
  - intros [-> _]%lookup_replicate. exact mask_0.
  - intros Hi. exfalso. destruct E as [<- _], Hi as [H|H]; discriminate H.
  - intros _ [-> _]%lookup_replicate. reflexivity.
Qed.

Lemma ex_inv : sig_inv ex_sys.
Proof.
  split; [| |intros; exact ex_table_ok].
  - intros t. cbn. destruct (t =? 20); apply ex_thread_ok; by vm_compute.
  - intros p. cbn. assert (∀ x, u64_ok x → sin x SIGCONT = false → no_conflict x) as H by (intros x _ Hx g _ _ E; congruence).
    destruct (p =? 2); (split; [by vm_compute|apply H; by vm_compute]).
Qed.

Lemma signals_well_formed_witness : ∃ m, rtc (sig_step ex_cw) (ex_sys, λ _, None) m ∧ machine_ok m.
Proof.
  destruct (sys_rt_sigprocmask ex_sys 20 SIG_SETMASK 1 (Some (U64 - 1)) 0 true 8) as [[s' r] w] eqn:E.
  assert (rtc (sig_step ex_cw) (ex_sys, λ _, None) (s', λ _, None)) as H.
  { eapply rtc_l; [|apply rtc_refl]. eapply st_mask; [|exact E]. intros x [= <-]. by vm_compute. }
  exists (s', λ _, None). split; [exact H|]. apply (signals_well_formed ex_cw (ex_sys, λ _, None)); [|exact H]. split; [exact ex_inv|]. intros t w' Hw. discriminate Hw.
Defined.

Lemma send_signal_process_witness : ∃ s', send_signal_process ex_sys 2 15 None = Some (s', 0) ∧ sin (shared_pending (prc s' 2)) 15 = true.
Proof.
  destruct (send_signal_process_correct ex_sys 2 15 None ex_inv) as (s' & E & _ & _ & _ & _ & H & _); [lia|discriminate|intros t Ht; apply list_elem_of_singleton in Ht; by subst t|].
  exists s'. split; [exact E|]. rewrite H by (unfold sig_ok; lia). vm_compute. reflexivity.
Defined.

Lemma sys_kill_witness : ∃ s', sys_kill ex_sys 2 1 15 = Some (s', - EPERM) ∧ prc s' 1 = prc ex_sys 1.
Proof.
  destruct (sys_kill_correct ex_sys 2 1 15 ex_inv) as (s' & E & _ & _ & H & _); [lia|apply (bool_decide_unpack _); vm_compute; exact I| |].
  - intros p q [->|[-> | []%not_elem_of_nil]%elem_of_cons]%elem_of_cons [->|[-> | []%not_elem_of_nil]%elem_of_cons]%elem_of_cons; vm_compute; congruence.
  - exists s'. split; [exact E|]. apply H. assert (allowed ex_sys 2 (to_s32 1) 15 (all_processes ex_sys) = []) as -> by (vm_compute; reflexivity). apply not_elem_of_nil.
Defined.

(** [tgkill] asks for no permission: a process that may not [kill] init sends
    its thread a signal. *)
Theorem tgkill_unchecked :
  sys_kill ex_sys 2 1 15 = Some (ex_sys, - EPERM) ∧
  ∃ s', sys_tgkill ex_sys 2 1 10 15 = Some (s', 0) ∧ sin (sig_pending (thr s' 10)) 15 = true.
Proof. split; [reflexivity|]. eexists. split; [reflexivity|]. vm_compute. reflexivity. Qed.

(** Signal 64 is accepted, and its entry lies outside the table. *)
Theorem sigaction_past_table s p n o ok :
  sig_inv s → sys_rt_sigaction s p NSIG 1 n o ok 8 = None.
Proof.
  intros [_ _ Ha]. unfold sys_rt_sigaction. change ((NSIG <? 1) || (NSIG <? NSIG) || negb (8 =? 8)) with false. cbn iota. unfold act.
  rewrite lookup_ge_None_2; [reflexivity|]. rewrite (ta_length _ (Ha _)). done.
Qed.
