(* ===== verification/Process.v ===== *)
(** * Processes: src/kernel/process.c

    Creation, exit, reparenting and wait.  The part of a process that signals
    see is that of Signal; here it gets its children, its reference count, its
    exit status, its times and the objects it shares.  Objects are named by
    numbers; what an allocation returns is an argument, [None] when it fails.
    [live] tells the process objects that are allocated.  The address space,
    the descriptor table and the signal table of a process are counted
    references; their contents belong to other components.  The
    scheduling parameters, limits, names, paths and timers that a fork copies
    and an exit drops, and the thread numbers it writes to user memory, are not
    part of the state.  A call runs under the kernel lock and is one operation.  A result [None] is undefined
    behaviour. *)

From stdpp Require Import functions.
From S2P Require Import Prelude Signal.

Notation CLONE_VM := 0x100%Z (only parsing).
Notation CLONE_FILES := 0x400%Z (only parsing).
Notation CLONE_SIGHAND := 0x800%Z (only parsing).
Notation CLONE_PIDFD := 0x1000%Z (only parsing).
Notation CLONE_VFORK := 0x4000%Z (only parsing).
Notation CLONE_PARENT := 0x8000%Z (only parsing).
Notation CLONE_THREAD := 0x10000%Z (only parsing).
Notation CLONE_NEWNS := 0x20000%Z (only parsing).
Notation WNOHANG := 1%Z (only parsing).
Notation WUNTRACED := 2%Z (only parsing).
Notation WEXITED := 4%Z (only parsing).
Notation WCONTINUED := 8%Z (only parsing).
Notation WNOWAIT := 0x01000000%Z (only parsing).
Notation PROC_ALIVE := 0%Z (only parsing).
Notation SIGHUP := 1%Z (only parsing).
Notation SA_NOCLDWAIT := 2%Z (only parsing).
Notation CLD_EXITED := 1%Z (only parsing).
Notation CLD_KILLED := 2%Z (only parsing).
Notation CLD_DUMPED := 3%Z (only parsing).
Notation ECHILD := 10%Z (only parsing).

(** ** State *)

Record pnode : Type := PNode {
  refcount : Z; children : list Z; exit_code : Z;
  utime : Z; stime : Z; cutime : Z; cstime : Z;
  p_mm : option Z; p_files : option Z; p_tty : option Z; vfork_done : option Z;
}.

Record psys : Type := PSys {
  sg : sys; node : Z → pnode; live : Z → bool;
  sh_ref : Z → Z; mm_ref : Z → Z; fd_ref : Z → Z;
  t_utime : Z → Z; t_stime : Z → Z; tty_pgrp : Z → Z; tty_session : Z → Z;
}.

Definition set_sg (s : psys) (g : sys) : psys :=
  PSys g (node s) (live s) (sh_ref s) (mm_ref s) (fd_ref s) (t_utime s) (t_stime s) (tty_pgrp s) (tty_session s).
Definition upd_node (s : psys) (p : Z) (f : pnode → pnode) : psys :=
  PSys (sg s) (<[p := f (node s p)]> (node s)) (live s) (sh_ref s) (mm_ref s) (fd_ref s) (t_utime s) (t_stime s) (tty_pgrp s) (tty_session s).
Definition set_live (s : psys) (p : Z) (b : bool) : psys :=
  PSys (sg s) (node s) (<[p := b]> (live s)) (sh_ref s) (mm_ref s) (fd_ref s) (t_utime s) (t_stime s) (tty_pgrp s) (tty_session s).
Definition add_sh (s : psys) (h d : Z) : psys :=
  PSys (sg s) (node s) (live s) (<[h := sh_ref s h + d]> (sh_ref s)) (mm_ref s) (fd_ref s) (t_utime s) (t_stime s) (tty_pgrp s) (tty_session s).
Definition add_mm (s : psys) (m d : Z) : psys :=
  PSys (sg s) (node s) (live s) (sh_ref s) (<[m := mm_ref s m + d]> (mm_ref s)) (fd_ref s) (t_utime s) (t_stime s) (tty_pgrp s) (tty_session s).
Definition add_fd (s : psys) (f d : Z) : psys :=
  PSys (sg s) (node s) (live s) (sh_ref s) (mm_ref s) (<[f := fd_ref s f + d]> (fd_ref s)) (t_utime s) (t_stime s) (tty_pgrp s) (tty_session s).
Definition clear_tty (s : psys) (y : Z) : psys :=
  PSys (sg s) (node s) (live s) (sh_ref s) (mm_ref s) (fd_ref s) (t_utime s) (t_stime s) (<[y := 0]> (tty_pgrp s)) (<[y := 0]> (tty_session s)).
Definition zero_times (s : psys) (t : Z) : psys :=
  PSys (sg s) (node s) (live s) (sh_ref s) (mm_ref s) (fd_ref s) (<[t := 0]> (t_utime s)) (<[t := 0]> (t_stime s)) (tty_pgrp s) (tty_session s).
Definition set_queue (s : psys) (p : Z) (l : list Z) : psys :=
  let g := sg s in
  set_sg s (Sys (thr g) (prc g) (action g) (all_processes g) (all_threads g) (init_process g) (allocs g) (<[p := l]> (child_wait g))).

(** The fields of a process that Signal has. *)
Definition set_parent (x : option Z) (p : process) : process :=
  Process (pid p) (pgid p) (sid p) x (threads p) (uid p) (euid p) (sighand p) (shared_pending p) (shared_info p) (p_state p) (exiting p) (group_stop p) (stop_reported p) (cont_reported p) (stop_sig p) (sigtramp p).
Definition set_threads (x : list Z) (p : process) : process :=
  Process (pid p) (pgid p) (sid p) (parent p) x (uid p) (euid p) (sighand p) (shared_pending p) (shared_info p) (p_state p) (exiting p) (group_stop p) (stop_reported p) (cont_reported p) (stop_sig p) (sigtramp p).
Definition set_pstate (x : Z) (p : process) : process :=
  Process (pid p) (pgid p) (sid p) (parent p) (threads p) (uid p) (euid p) (sighand p) (shared_pending p) (shared_info p) x (exiting p) (group_stop p) (stop_reported p) (cont_reported p) (stop_sig p) (sigtramp p).
Definition set_exiting (p : process) : process :=
  Process (pid p) (pgid p) (sid p) (parent p) (threads p) (uid p) (euid p) (sighand p) (shared_pending p) (shared_info p) (p_state p) true (group_stop p) (stop_reported p) (cont_reported p) (stop_sig p) (sigtramp p).
Definition set_proc (x : option Z) (t : thread) : thread :=
  Thread x (state t) (sig_blocked t) (sig_waiting t) (sig_pending t) (sig_info t) (saved_sigmask t) (restore_sigmask t) (sigaltstack t) (user_regs t) (fpsimd t) (tid t).

Definition set_refs (n : Z) (x : pnode) : pnode :=
  PNode n (children x) (exit_code x) (utime x) (stime x) (cutime x) (cstime x) (p_mm x) (p_files x) (p_tty x) (vfork_done x).
Definition set_children (l : list Z) (x : pnode) : pnode :=
  PNode (refcount x) l (exit_code x) (utime x) (stime x) (cutime x) (cstime x) (p_mm x) (p_files x) (p_tty x) (vfork_done x).
Definition set_code (c : Z) (x : pnode) : pnode :=
  PNode (refcount x) (children x) c (utime x) (stime x) (cutime x) (cstime x) (p_mm x) (p_files x) (p_tty x) (vfork_done x).
Definition set_times (u v cu cv : Z) (x : pnode) : pnode :=
  PNode (refcount x) (children x) (exit_code x) u v cu cv (p_mm x) (p_files x) (p_tty x) (vfork_done x).
Definition set_objects (m f : option Z) (x : pnode) : pnode :=
  PNode (refcount x) (children x) (exit_code x) (utime x) (stime x) (cutime x) (cstime x) m f (p_tty x) (vfork_done x).
Definition set_vfork (b : option Z) (x : pnode) : pnode :=
  PNode (refcount x) (children x) (exit_code x) (utime x) (stime x) (cutime x) (cstime x) (p_mm x) (p_files x) (p_tty x) b.

Definition set_all (g : sys) (l ts : list Z) : sys := Sys (thr g) (prc g) (action g) l ts (init_process g) (allocs g) (child_wait g).

(** Take a node out of a list. *)
Definition list_del (x : Z) (l : list Z) : list Z := List.filter (λ y, negb (y =? x)) l.
Definition set_sighand (x : Z) (p : process) : process :=
  Process (pid p) (pgid p) (sid p) (parent p) (threads p) (uid p) (euid p) x (shared_pending p) (shared_info p) (p_state p) (exiting p) (group_stop p) (stop_reported p) (cont_reported p) (stop_sig p) (sigtramp p).

Definition upd_process (s : psys) (p : Z) (f : process → process) : psys := set_sg s (upd_prc (sg s) p f).
Definition upd_thread (s : psys) (t : Z) (f : thread → thread) : psys := set_sg s (upd_thr (sg s) t f).

(** ** Objects *)

Definition zero_info : siginfo_t := SigInfo 0 0 0 0.
Definition zero_process : process :=
  Process 0 0 0 None [] 0 0 0 0 (λ _, zero_info) PROC_ALIVE false false false false 0 0.
Definition zero_thread (id : Z) : thread :=
  Thread None TASK_UNINTERRUPTIBLE 0 0 0 (λ _, zero_info) 0 false (StackT 0 0 0) (PtRegs (λ _, 0) 0 0 0 0 0) (Fpsimd 0 0 (λ _, 0)) id.

(** [p] is what [kzalloc] returned. *)
Definition process_alloc (s : psys) (p : Z) : psys :=
  upd_process (upd_node (set_queue (set_live s p true) p []) p (λ _, PNode 1 [] 0 0 0 0 0 None None None None)) p (λ _, zero_process).

Definition process_get (s : psys) (p : Z) : psys := upd_node s p (λ x, set_refs (refcount x + 1) x).

(** A table that loses its last reference is freed; nothing names it then. *)
Definition process_put (s : psys) (p : Z) : psys :=
  let s := upd_node s p (λ x, set_refs (refcount x - 1) x) in
  if 0 <? refcount (node s p) then s
  else
    let h := sighand (prc (sg s) p) in
    let s := if h =? 0 then s else add_sh s h (-1) in
    set_live s p false.

Definition attach_thread (s : psys) (p t : Z) : psys :=
  upd_process (upd_thread s t (set_proc (Some p))) p (λ q, set_threads (threads q ++ [t]) q).

Definition mm_put (s : psys) (m : Z) : psys := add_mm s m (-1).
Definition fdtable_put (s : psys) (f : Z) : psys := add_fd s f (-1).

(** Wake the threads that wait for children of [p]. *)
Definition wake_up (s : psys) (p : Z) : psys :=
  set_sg s (wake_children (sg s) p).

(** ** Fork *)

(** What the allocations of a fork return: a thread with its number, a process,
    an address space, a descriptor table and a signal table. *)
Record fork_alloc : Type := ForkAlloc {
  fa_thread : option (Z * Z); fa_proc : option Z; fa_mm : option Z; fa_files : option Z; fa_table : option Z;
}.

Definition has_flag (flags f : Z) : bool := negb (Z.land flags f =? 0).

Definition thread_alloc (s : psys) (t id : Z) : psys :=
  let g := upd_thr (sg s) t (λ _, zero_thread id) in
  zero_times (set_sg s (set_all g (all_processes g) (all_threads g ++ [t]))) t.
Definition thread_put (s : psys) (t : Z) : psys :=
  set_sg s (set_all (sg s) (all_processes (sg s)) (list_del t (all_threads (sg s)))).

(** What the new process takes over from its parent. *)
Definition inherit (s : psys) (p pp id : Z) : psys :=
  let q := prc (sg s) pp in
  let s := upd_process s p (λ _, Process id (pgid q) (sid q) None [] (uid q) (euid q) 0 0 (λ _, zero_info) PROC_ALIVE false false false false 0 (sigtramp q)) in
  upd_node s p (λ x, PNode (refcount x) (children x) (exit_code x) (utime x) (stime x) (cutime x) (cstime x) (p_mm x) (p_files x) (p_tty (node s pp)) (vfork_done x)).

(** The address space, the descriptor table and the signal table of the new
    process: the parent's, with one more reference, or a copy, which [a] says
    whether there is memory for, with one reference. *)
Definition take_mm (s : psys) (p pp flags : Z) (a : fork_alloc) : option (psys * bool) :=
  if has_flag flags CLONE_VM then
    m ← p_mm (node s pp); Some (add_mm (upd_node s p (λ x, set_objects (Some m) (p_files x) x)) m 1, true)
  else
    match fa_mm a with
    | None => Some (s, false)
    | Some m => Some (upd_node (add_mm s m (1 - mm_ref s m)) p (λ x, set_objects (Some m) (p_files x) x), true)
    end.
Definition take_files (s : psys) (p pp flags : Z) (a : fork_alloc) : option (psys * bool) :=
  if has_flag flags CLONE_FILES then
    f ← p_files (node s pp); Some (add_fd (upd_node s p (λ x, set_objects (p_mm x) (Some f) x)) f 1, true)
  else
    match fa_files a with
    | None => Some (s, false)
    | Some f => Some (upd_node (add_fd s f (1 - fd_ref s f)) p (λ x, set_objects (p_mm x) (Some f) x), true)
    end.
Definition take_table (s : psys) (p pp flags : Z) (a : fork_alloc) : option (psys * bool) :=
  let h0 := sighand (prc (sg s) pp) in
  if h0 =? 0 then None
  else if has_flag flags CLONE_SIGHAND then Some (add_sh (upd_process s p (set_sighand h0)) h0 1, true)
  else
    match fa_table a with
    | None => Some (s, false)
    | Some h =>
        let s := upd_process s p (set_sighand h) in
        let s := set_sg s (set_actions (sg s) h (action (sg s) h0)) in
        Some (add_sh s h (1 - sh_ref s h), true)
    end.

(** The objects of the new process, up to the first that is missing. *)
Definition fork_objects (s : psys) (p pp flags : Z) (a : fork_alloc) : option (psys * bool) :=
  '(s, ok) ← take_mm s p pp flags a;
  if negb ok then Some (s, false)
  else
    '(s, ok) ← take_files s p pp flags a;
    if negb ok then Some (s, false) else take_table s p pp flags a.

(** [fail_proc]. *)
Definition fork_fail (s : psys) (p : Z) : psys :=
  let s := match p_mm (node s p) with Some m => mm_put s m | None => s end in
  let s := match p_files (node s p) with Some f => fdtable_put s f | None => s end in
  process_put s p.

(** Enter the process into the tree. *)
Definition link_process (s : psys) (p pp flags t : Z) : psys :=
  let par := match parent (prc (sg s) pp) with Some gp => if has_flag flags CLONE_PARENT then gp else pp | None => pp end in
  let s := upd_process s p (set_parent (Some par)) in
  let s := upd_node s p (set_code (Z.land flags 0xff)) in
  let s := attach_thread (process_get s p) p t in
  let s := upd_node s par (λ x, set_children (children x ++ [p]) x) in
  set_sg s (set_all (sg s) (all_processes (sg s) ++ [p]) (all_threads (sg s))).

(** The new thread takes the signal mask, the registers and the floating-point
    state of its creator and is made runnable. *)
Definition start_thread (s : psys) (t cur newsp : Z) : psys :=
  let c := thr (sg s) cur in
  let r := user_regs c in
  let r := PtRegs (<[0 := 0]> (regs r)) (if newsp =? 0 then r_sp r else newsp) (r_pc r) (r_pstate r) (orig_x0 r) (syscallno r) in
  upd_thread s t (λ x, set_state TASK_RUNNING (set_fpsimd (fpsimd c) (set_regs r (set_blocked (sig_blocked c) x)))).

Inductive fork_result : Type :=
| Forked (tid : Z)
| ForkWaits (tid : Z) (* in [wait_for_completion] of a vfork *)
| ForkFailed (err : Z).

(** The end of a fork: the new thread [t] of [p] runs, and after a vfork its
    creator sleeps. *)
Definition fork_finish (s : psys) (cur p t id flags newsp : Z) : psys * fork_result :=
  let s := start_thread s t cur newsp in
  if has_flag flags CLONE_VFORK
  then (upd_thread (upd_node s p (set_vfork (Some cur))) cur (set_state TASK_UNINTERRUPTIBLE), ForkWaits id)
  else (s, Forked id).

(** [cur] is the current thread, [pp] its process. *)
Definition do_fork (s : psys) (cur pp flags newsp : Z) (a : fork_alloc) : option (psys * fork_result) :=
  if has_flag flags CLONE_THREAD && negb (has_flag flags CLONE_SIGHAND) then Some (s, ForkFailed (- EINVAL))
  else if has_flag flags CLONE_SIGHAND && negb (has_flag flags CLONE_VM) then Some (s, ForkFailed (- EINVAL))
  else if has_flag flags (Z.lor CLONE_NEWNS CLONE_PIDFD) then Some (s, ForkFailed (- EINVAL))
  else
    match fa_thread a with
    | None => Some (s, ForkFailed (- EAGAIN))
    | Some (t, id) =>
        let s := thread_alloc s t id in
        if has_flag flags CLONE_THREAD then Some (fork_finish (attach_thread (process_get s pp) pp t) cur pp t id flags newsp)
        else
          match fa_proc a with
          | None => Some (thread_put s t, ForkFailed (- ENOMEM))
          | Some p =>
              '(s, ok) ← fork_objects (inherit (process_alloc s p) p pp id) p pp flags a;
              if negb ok then Some (thread_put (fork_fail s p) t, ForkFailed (- ENOMEM))
              else Some (fork_finish (link_process s p pp flags t) cur p t id flags newsp)
          end
    end.

(** ** Exit *)

Fixpoint reparent_loop (s : psys) (p : Z) (l : list Z) : psys :=
  match l with
  | [] => s
  | c :: l =>
      let i := init_process (sg s) in
      let s := upd_node s p (λ x, set_children (list_del c (children x)) x) in
      let s := upd_process s c (set_parent (Some i)) in
      let s := upd_node s i (λ x, set_children (children x ++ [c]) x) in
      reparent_loop s p l
  end.
Definition reparent_children (s : psys) (p : Z) : psys :=
  let l := children (node s p) in
  let s := reparent_loop s p l in
  if existsb (λ c, p_state (prc (sg s) c) =? PROC_ZOMBIE) l then wake_up s (init_process (sg s)) else s.

(** The signal for the end of [p]. *)
Definition exit_info (s : psys) (p : Z) : siginfo_t :=
  let st := exit_code (node s p) in
  let who := ids (pid (prc (sg s) p)) (uid (prc (sg s) p)) in
  if Z.land st 0x7f =? 0 then SigInfo SIGCHLD CLD_EXITED who (Z.land (Z.shiftr st 8) 0xff)
  else SigInfo SIGCHLD (if Z.land st 0x80 =? 0 then CLD_KILLED else CLD_DUMPED) who (Z.land st 0x7f).

Definition notify_parent (s : psys) (p : Z) : option psys :=
  match parent (prc (sg s) p) with
  | None => Some s
  | Some pp =>
      ka ← act (sg s) pp SIGCHLD;
      s ← (if handler ka =? SIG_IGN then Some s
           else r ← send_signal_process (sg s) pp SIGCHLD (Some (exit_info s p)); Some (set_sg s r.1));
      Some (wake_up s pp)
  end.

(** The references of an exiting process to what it shares. *)
Definition release_objects (s : psys) (p : Z) : psys :=
  let s := match p_files (node s p) with Some f => upd_node (fdtable_put s f) p (λ x, set_objects (p_mm x) None x) | None => s end in
  match p_mm (node s p) with Some m => mm_put (upd_node s p (λ x, set_objects None (p_files x) x)) m | None => s end.

(** The parent of a vfork sleeps on the completion until its child is done. *)
Definition vfork_complete (s : psys) (p : Z) : psys :=
  match vfork_done (node s p) with
  | None => s
  | Some t =>
      let s := set_sg s (try_to_wake_up (sg s) t (Z.lor TASK_INTERRUPTIBLE TASK_UNINTERRUPTIBLE)) in
      upd_node s p (set_vfork None)
  end.

(** The end of a session leader hangs up its terminal. *)
Definition hang_up (s : psys) (p : Z) : option psys :=
  match p_tty (node s p) with
  | Some y =>
      if sid (prc (sg s) p) =? pid (prc (sg s) p) then
        s ← (if 0 <? tty_pgrp s y then
               r ← kill_pgrp (sg s) (tty_pgrp s y) SIGHUP None;
               r ← kill_pgrp r.1 (tty_pgrp s y) SIGCONT None; Some (set_sg s r.1)
             else Some s);
        Some (clear_tty s y)
      else Some s
  | None => Some s
  end.

(** Take a child out of its parent's list and of the list of all processes. *)
Definition unlink (s : psys) (p pp : Z) : psys :=
  let s := upd_node s pp (λ x, set_children (list_del p (children x)) x) in
  set_sg s (set_all (sg s) (list_del p (all_processes (sg s))) (all_threads (sg s))).

Definition exit_process (s : psys) (p : Z) : option (outcome psys) :=
  s ← hang_up (vfork_complete (release_objects s p) p) p;
  if p =? init_process (sg s) then Some Panic
  else
    let s := upd_process (reparent_children s p) p (set_pstate PROC_ZOMBIE) in
    pp ← parent (prc (sg s) p);
    ka ← act (sg s) pp SIGCHLD;
    if ((handler ka =? SIG_IGN) || negb (Z.land (sa_flags ka) SA_NOCLDWAIT =? 0)) && negb (pp =? init_process (sg s))
    then Some (Ok (process_put (wake_up (unlink s p pp) pp) p))
    else s ← notify_parent s p; Some (Ok s).

(** The part of [do_exit] before the thread is gone; waking the waiter on the
    word [clear_child_tid] points to is the futex component's. *)
Definition do_exit (s : psys) (t code : Z) : option (outcome psys) :=
  match proc (thr (sg s) t) with
  | None => Some Panic
  | Some p =>
      let s := upd_process s p (λ q, set_threads (list_del t (threads q)) q) in
      let s := upd_node s p (λ x, set_times (utime x ⊕ t_utime s t) (stime x ⊕ t_stime s t) (cutime x) (cstime x) x) in
      r ← (if bool_decide (threads (prc (sg s) p) = []) then
             let s := if exiting (prc (sg s) p) then s else upd_node s p (set_code (Z.shiftl (Z.land code 0xff) 8)) in
             exit_process s p
           else Some (Ok (if exiting (prc (sg s) p) then wake_up s p else s)));
      Some (let! s := r in Ok (upd_thread (process_put (upd_thread s t (set_proc None)) p) t (set_state TASK_DEAD)))
  end.

Fixpoint kill_others (g : sys) (t : Z) (l : list Z) : option sys :=
  match l with
  | [] => Some g
  | o :: l => if o =? t then kill_others g t l else r ← send_signal_thread g o SIGKILL None; kill_others r.1 t l
  end.

Definition do_group_exit (s : psys) (t p code : Z) : option (outcome psys) :=
  if exiting (prc (sg s) p) then do_exit s t code
  else
    let s := upd_node (upd_process s p set_exiting) p (set_code code) in
    g ← kill_others (sg s) t (threads (prc (sg s) p));
    do_exit (set_sg s g) t code.

(** ** Wait *)

Definition wait_match (s : psys) (self c pid_ : Z) : bool :=
  if 0 <? pid_ then pid (prc (sg s) c) =? pid_
  else if pid_ =? -1 then true
  else if pid_ =? 0 then pgid (prc (sg s) c) =? pgid (prc (sg s) self)
  else pgid (prc (sg s) c) =? - pid_.

Definition WAIT_OPTIONS : Z := fold_left Z.lor [WNOHANG; WUNTRACED; WCONTINUED; WEXITED; WNOWAIT; 0x40000000; 0x80000000] 0.

(** A call returns a number, with what it has written to the status word, or sleeps. *)
Inductive wait_result : Type :=
| Waited (r : Z) (status : option Z)
| WaitSleeps
| WaitAgain. (* out of passes *)

(** User memory: whether there is a status word, and whether it and the usage
    can be written. *)
Record wait_user : Type := WaitUser { wu_status : bool; wu_status_ok : bool; wu_usage_ok : bool }.
Definition put_status (u : wait_user) (st : Z) : option (option Z) :=
  if wu_status u then if wu_status_ok u then Some (Some st) else None else Some None.

Definition reap (s : psys) (self c : Z) : psys :=
  let s := upd_node s self (λ x, set_times (utime x) (stime x) (cutime x ⊕ (utime (node s c) ⊕ cutime (node s c))) (cstime x ⊕ (stime (node s c) ⊕ cstime (node s c))) x) in
  process_put (unlink s c self) c.

Definition wants_stop (s : psys) (c options : Z) : bool :=
  has_flag options WUNTRACED && group_stop (prc (sg s) c) && negb (stop_reported (prc (sg s) c)).
Definition wants_cont (s : psys) (c options : Z) : bool :=
  has_flag options WCONTINUED && negb (group_stop (prc (sg s) c)) && negb (cont_reported (prc (sg s) c)).

(** The walk over the children; [any] tells whether one of them matched. *)
Fixpoint wait_scan (s : psys) (self : Z) (l : list Z) (pid_ options : Z) (u : wait_user) (any : bool) : psys * (bool + Z * option Z) :=
  match l with
  | [] => (s, inl any)
  | c :: l =>
      if negb (wait_match s self c pid_) then wait_scan s self l pid_ options u any
      else if p_state (prc (sg s) c) =? PROC_ZOMBIE then
        match put_status u (exit_code (node s c)) with
        | None => (s, inr (- EFAULT, None))
        | Some st =>
            if negb (wu_usage_ok u) then (s, inr (- EFAULT, st))
            else if has_flag options WNOWAIT then (s, inr (pid (prc (sg s) c), st))
            else (reap s self c, inr (pid (prc (sg s) c), st))
        end
      else if wants_stop s c options then
        let s' := upd_process s c (λ q, set_stop (group_stop q) true (cont_reported q) (stop_sig q) q) in
        match put_status u (Z.lor (Z.shiftl (stop_sig (prc (sg s) c)) 8) 0x7f) with
        | None => (s', inr (- EFAULT, None)) | Some st => (s', inr (pid (prc (sg s) c), st)) end
      else if wants_cont s c options then
        let s' := upd_process s c (λ q, set_stop (group_stop q) (stop_reported q) true (stop_sig q) q) in
        match put_status u 0xffff with
        | None => (s', inr (- EFAULT, None)) | Some st => (s', inr (pid (prc (sg s) c), st)) end
      else wait_scan s self l pid_ options u true
  end.

(** The condition of the wait. *)
Definition wait_due (s : psys) (self pid_ options c : Z) : bool :=
  wait_match s self c pid_ && ((p_state (prc (sg s) c) =? PROC_ZOMBIE) || wants_stop s c options || wants_cont s c options).
Definition wait_ready (s : psys) (self pid_ options : Z) : bool :=
  existsb (wait_due s self pid_ options) (children (node s self)) || bool_decide (children (node s self) = []).

Definition prepare_to_wait (s : psys) (t self : Z) : psys :=
  let s := if bool_decide (t ∈ child_wait (sg s) self) then s else set_queue s self (child_wait (sg s) self ++ [t]) in
  upd_thread s t (set_state TASK_INTERRUPTIBLE).
Definition finish_wait (s : psys) (t self : Z) : psys :=
  let s := upd_thread s t (set_state TASK_RUNNING) in set_queue s self (list_del t (child_wait (sg s) self)).

(** One turn of [wait_event_interruptible]: [Some 0] when the condition holds,
    [Some] of an error for a signal, [None] when the thread sleeps. *)
Definition wait_event (s : psys) (t self pid_ options : Z) : psys * option Z :=
  let s := prepare_to_wait s t self in
  if wait_ready s self pid_ options then (finish_wait s t self, Some 0)
  else if signal_pending (sg s) t then (finish_wait s t self, Some (- ERESTARTSYS))
  else (s, None).

(** The loop of [do_wait4], at most [n] passes of it, and the rest of the call
    when it comes out of the wait.  [t] is the current thread, of [self]. *)
Fixpoint wait_loop (n : nat) (s : psys) (t self pid_ options : Z) (u : wait_user) : psys * wait_result :=
  match n with
  | O => (s, WaitAgain)
  | S n =>
      match wait_scan s self (children (node s self)) pid_ options u false with
      | (s, inr (r, st)) => (s, Waited r st)
      | (s, inl any) =>
          if negb any then (s, Waited (- ECHILD) None)
          else if has_flag options WNOHANG then (s, Waited 0 None)
          else
            match wait_event s t self pid_ options with
            | (s, None) => (s, WaitSleeps)
            | (s, Some r) => if r =? 0 then wait_loop n s t self pid_ options u else (s, Waited r None)
            end
      end
  end.

Definition WAIT_PASSES : nat := 2.

Definition do_wait4 (s : psys) (t self pid_ options : Z) (u : wait_user) : psys * wait_result :=
  if negb (Z.ldiff options WAIT_OPTIONS =? 0) then (s, Waited (- EINVAL) None) else wait_loop WAIT_PASSES s t self pid_ options u.

(** A thread that slept there runs again. *)
Definition wait_resume (s : psys) (t self pid_ options : Z) (u : wait_user) : psys * wait_result :=
  match wait_event s t self pid_ options with
  | (s, None) => (s, WaitSleeps)
  | (s, Some r) => if r =? 0 then wait_loop WAIT_PASSES s t self pid_ options u else (s, Waited r None)
  end.
