(* ===== verification/ProcessSpec.v ===== *)
(** * Properties of processes

    The tree of processes and the references they hold, through fork, exit and
    wait. *)

From stdpp Require Import functions.
From S2P Require Import Prelude Signal SignalSpec SignalInv Process.

(** ** Lists and counts *)

Lemma elem_of_list_del x y l : x ∈ list_del y l ↔ x ∈ l ∧ x ≠ y.
Proof.
  unfold list_del. rewrite !list_elem_of_In, filter_In. destruct (Z.eqb_spec x y); naive_solver.
Qed.
Lemma NoDup_list_del y l : NoDup l → NoDup (list_del y l).
Proof. rewrite !NoDup_ListNoDup. apply List.NoDup_filter. Qed.
Lemma list_del_id y l : y ∉ l → list_del y l = l.
Proof.
  intros H. unfold list_del. apply forallb_filter_id, forallb_forall. intros x Hx%list_elem_of_In. apply negb_true_iff, Z.eqb_neq. by intros ->.
Qed.
Lemma list_del_app y l k : list_del y (l ++ k) = list_del y l ++ list_del y k.
Proof. apply List.filter_app. Qed.

(** The number of members of [l] that satisfy [f]. *)
Definition cnt (f : Z → bool) (l : list Z) : Z := Z.of_nat (length (List.filter f l)).

Lemma cnt_app f l k : cnt f (l ++ k) = cnt f l + cnt f k.
Proof. unfold cnt. rewrite List.filter_app, length_app. lia. Qed.
Lemma cnt_cons f x l : cnt f (x :: l) = (if f x then 1 else 0) + cnt f l.
Proof. unfold cnt. cbn. destruct (f x); cbn [length]; lia. Qed.
Lemma cnt_ext f g l : (∀ x, x ∈ l → f x = g x) → cnt f l = cnt g l.
Proof. intros H. unfold cnt. do 2 f_equal. apply filter_ext_in. intros x Hx. apply H. by apply list_elem_of_In. Qed.
Lemma cnt_del f x l : NoDup l → x ∈ l → cnt f (list_del x l) = cnt f l - (if f x then 1 else 0).
Proof.
  induction l as [|y l IH]; intros Hd Hx; [by apply not_elem_of_nil in Hx|]. apply NoDup_cons in Hd as [Hy Hd]. rewrite cnt_cons. unfold list_del. cbn [List.filter]. fold (list_del x l).
  destruct (Z.eqb_spec y x) as [->|Hne]; cbn [negb].
  - rewrite list_del_id by done. lia.
  - apply elem_of_cons in Hx as [->|Hx]; [done|]. rewrite cnt_cons, IH by done. lia.
Qed.
Lemma cnt_upd f g x l : NoDup l → x ∈ l → (∀ y, y ∈ l → y ≠ x → f y = g y) → cnt f l = cnt g l + (if f x then 1 else 0) - (if g x then 1 else 0).
Proof.
  intros Hd Hx H. pose proof (cnt_del f x l Hd Hx). pose proof (cnt_del g x l Hd Hx). assert (cnt f (list_del x l) = cnt g (list_del x l)) by (apply cnt_ext; intros y [? ?]%elem_of_list_del; auto). lia.
Qed.

(** ** The tree *)

Definition procs (s : psys) : list Z := all_processes (sg s).
Definition proc_of (s : psys) (p : Z) : process := prc (sg s) p.
Definition has_mm (s : psys) (m p : Z) : bool := bool_decide (p_mm (node s p) = Some m).
Definition has_files (s : psys) (f p : Z) : bool := bool_decide (p_files (node s p) = Some f).
Definition has_table (s : psys) (h p : Z) : bool := sighand (proc_of s p) =? h.

(** A finite path of parents leads from [p] to [i]. *)
Inductive rooted (par : Z → option Z) (i : Z) : Z → Prop :=
| rooted_top : rooted par i i
| rooted_child c p : par c = Some p → rooted par i p → rooted par i c.

Definition parent_of (s : psys) (p : Z) : option Z := parent (proc_of s p).

Lemma rooted_ext par par' i p : (∀ q, par' q = par q) → rooted par i p → rooted par' i p.
Proof. intros H. induction 1 as [|c p E _ IH]; [constructor|]. apply (rooted_child _ _ c p); [by rewrite H|done]. Qed.

Record tree_ok (s : psys) : Prop := {
  tr_nodup : NoDup (procs s);
  tr_pids p q : p ∈ procs s → q ∈ procs s → pid (proc_of s p) = pid (proc_of s q) → p = q;
  (* a process object is allocated while it is in the list, no shorter and no longer *)
  tr_live p : live s p = true ↔ p ∈ procs s;
  (* it is referenced by its threads and by its parent's list *)
  tr_refs p : p ∈ procs s → refcount (node s p) = Z.of_nat (length (threads (proc_of s p))) + 1;
  tr_threads p t : p ∈ procs s → t ∈ threads (proc_of s p) ↔ proc (thr (sg s) t) = Some p;
  tr_proc t p : proc (thr (sg s) t) = Some p → p ∈ procs s;
  tr_nodup_threads p : p ∈ procs s → NoDup (threads (proc_of s p));
  (* a process without threads is a zombie, and has given up its objects *)
  tr_zombie p : p ∈ procs s →
    if bool_decide (threads (proc_of s p) = [])
    then p_state (proc_of s p) = PROC_ZOMBIE ∧ p_mm (node s p) = None ∧ p_files (node s p) = None
    else p_state (proc_of s p) = PROC_ALIVE ∧ is_Some (p_mm (node s p)) ∧ is_Some (p_files (node s p));
  tr_init : init_process (sg s) ∈ procs s ∧ parent (proc_of s (init_process (sg s))) = None ∧ threads (proc_of s (init_process (sg s))) ≠ [];
  (* every other process is in the list of a parent that runs *)
  tr_parent c : c ∈ procs s → c ≠ init_process (sg s) → ∃ p, parent (proc_of s c) = Some p ∧ p ∈ procs s ∧ threads (proc_of s p) ≠ [] ∧ p ≠ c;
  tr_children p c : p ∈ procs s → c ∈ children (node s p) ↔ c ∈ procs s ∧ parent (proc_of s c) = Some p;
  tr_nodup_children p : p ∈ procs s → NoDup (children (node s p));
  (* counted references *)
  tr_table p : p ∈ procs s → sighand (proc_of s p) ≠ 0;
  tr_sh h : h ≠ 0 → sh_ref s h = cnt (has_table s h) (procs s);
  tr_mm m : mm_ref s m = cnt (has_mm s m) (procs s);
  tr_fd f : fd_ref s f = cnt (has_files s f) (procs s);
  (* from every process the parents lead to init *)
  tr_rooted p : p ∈ procs s → rooted (parent_of s) (init_process (sg s)) p;
}.

(** Two states that look the same from here. *)
Record same_tree (s s' : psys) : Prop := {
  st_all : procs s' = procs s;
  st_init : init_process (sg s') = init_process (sg s);
  st_prc p : pid (proc_of s' p) = pid (proc_of s p) ∧ threads (proc_of s' p) = threads (proc_of s p) ∧ p_state (proc_of s' p) = p_state (proc_of s p) ∧
             parent (proc_of s' p) = parent (proc_of s p) ∧ sighand (proc_of s' p) = sighand (proc_of s p);
  st_node p : refcount (node s' p) = refcount (node s p) ∧ children (node s' p) = children (node s p) ∧ p_mm (node s' p) = p_mm (node s p) ∧ p_files (node s' p) = p_files (node s p);
  st_proc t : proc (thr (sg s') t) = proc (thr (sg s) t);
  st_refs : live s' = live s ∧ sh_ref s' = sh_ref s ∧ mm_ref s' = mm_ref s ∧ fd_ref s' = fd_ref s;
}.

Lemma same_tree_ok s s' : same_tree s s' → tree_ok s → tree_ok s'.
Proof.
  intros [E1 E2 E3 E4 E5 (E6 & E7 & E8 & E9)] [H1 H2 H3 H4 H5 H6 H7 H8 H9 H10 H11 H12 H13 H14 H15 H16 H17].
  split; rewrite ?E1, ?E2, ?E6, ?E7, ?E8, ?E9; try done.
  - intros p q. destruct (E3 p) as (-> & _), (E3 q) as (-> & _). apply H2.
  - intros p Hp. destruct (E3 p) as (_ & -> & _), (E4 p) as (-> & _). by apply H4.
  - intros p t Hp. destruct (E3 p) as (_ & -> & _). rewrite E5. by apply H5.
  - intros t p. rewrite E5. apply H6.
  - intros p Hp. destruct (E3 p) as (_ & -> & _). by apply H7.
  - intros p Hp. destruct (E3 p) as (_ & -> & -> & _), (E4 p) as (_ & _ & -> & ->). by apply H8.
  - destruct (E3 (init_process (sg s))) as (_ & -> & _ & -> & _). apply H9.
  - intros c Hc Hi. destruct (H10 c Hc Hi) as (p & A & B & C & D). exists p. destruct (E3 c) as (_ & _ & _ & -> & _), (E3 p) as (_ & -> & _). done.
  - intros p c Hp. destruct (E4 p) as (_ & -> & _), (E3 c) as (_ & _ & _ & -> & _). by apply H11.
  - intros p Hp. destruct (E4 p) as (_ & -> & _). by apply H12.
  - intros p Hp. destruct (E3 p) as (_ & _ & _ & _ & ->). by apply H13.
  - intros h Hh. rewrite (H14 h Hh). apply cnt_ext. intros x _. unfold has_table. by destruct (E3 x) as (_ & _ & _ & _ & ->).
  - intros m. rewrite (H15 m). apply cnt_ext. intros x _. unfold has_mm. by destruct (E4 x) as (_ & _ & -> & _).
  - intros m. rewrite (H16 m). apply cnt_ext. intros x _. unfold has_files. by destruct (E4 x) as (_ & _ & _ & ->).
  - intros p Hp. apply (rooted_ext (parent_of s)); [|by apply H17]. intros q. by destruct (E3 q) as (_ & _ & _ & ? & _).
Qed.

(** ** Signals leave the tree alone *)

Definition calm (g g' : sys) : Prop :=
  sent g g' ∧ all_processes g' = all_processes g ∧ all_threads g' = all_threads g ∧ init_process g' = init_process g ∧ child_wait g' = child_wait g.

Lemma calm_refl g : calm g g.
Proof. split; [apply sent_refl|done]. Qed.
Lemma calm_trans a b c : calm a b → calm b c → calm a c.
Proof. intros (A1 & A2 & A3 & A4 & A5) (B1 & B2 & B3 & B4 & B5). split; [by eapply sent_trans|]. by rewrite B2, B3, B4, B5. Qed.
Lemma calm_awake g g' : awake g g' → calm g g'.
Proof.
  intros H. pose proof (awake_masks _ _ H) as Hm. destruct H as [E1 E2 (E3 & E4 & E5 & _) _ E6]. split; [|done]. split; [|done]. intros q. rewrite E1. apply signalled_refl.
Qed.

Lemma clear_threads_all s p m :
  all_processes (clear_threads s p m) = all_processes s ∧ all_threads (clear_threads s p m) = all_threads s ∧ init_process (clear_threads s p m) = init_process s.
Proof. unfold clear_threads. generalize (threads (prc s p)). intros l. revert s. induction l as [|u l IH]; intros s; [done|]. cbn. apply (IH (upd_thr s u _)). Qed.

Lemma prepare_calm s p g : calm s (prepare_signal s p g).
Proof.
  split.
  - pose proof (prepare_signalled s p g) as H. destruct (prepare_spec s p g) as (_ & E & _ & _ & _ & Hq). cbn zeta in *. split; [|split; [done|apply prepare_masks]].
    intros q. destruct (decide (q = p)) as [->|Hne]; [done|]. rewrite Hq by done. apply signalled_refl.
  - rewrite (prepare_queue s p g). unfold prepare_signal. destruct (_ || _); [|by destruct (bool_decide _)]. cbn zeta. set (s1 := clear_threads _ _ _).
    destruct (clear_threads_all (clear_shared s p stops) p stops) as (E1 & E2 & E3). fold s1 in E1, E2, E3. destruct (group_stop _); [|done].
    set (s2 := upd_prc s1 p _). destruct (awake_stopped s2 p) as [_ _ (-> & -> & -> & _) _ _]. done.
Qed.

Lemma send_process_calm s p g info s' r : send_signal_process s p g info = Some (s', r) → calm s s'.
Proof.
  intros E. destruct (send_process_frame _ _ _ _ _ _ E) as (F1 & F2 & F3 & F4). split.
  { split; [|done]. intros q. destruct (decide (q = p)) as [->|Hne]; [done|]. rewrite F2 by done. apply signalled_refl. }
  rewrite (send_process_queue _ _ _ _ _ _ E). revert E. unfold send_signal_process. destruct (_ || _); [by intros [= <- _]|]. destruct (g =? 0); [by intros [= <- _]|]. destruct (_ =? PROC_ZOMBIE); [by intros [= <- _]|].
  pose proof (prepare_calm s p g) as (_ & E1 & E1' & E1'' & _). destruct (sig_ignored _ p g) as [ign|]; [|done]. cbn [mbind option_bind]. destruct (_ && _); [by intros [= <- _]|].
  set (s2 := queue_process _ p g info). assert (all_processes s2 = all_processes s ∧ all_threads s2 = all_threads s ∧ init_process s2 = init_process s) as E2 by done.
  clearbody s2. intros [= <- _]. destruct (calm_awake _ _ (awake_taker (threads (prc s2 p)) s2 g)) as (_ & -> & -> & -> & _). destruct E2 as (? & ? & ?). done.
Qed.

Lemma upd_thr_calm s t f : (∀ x, sig_blocked (f x) = sig_blocked x ∧ sig_waiting (f x) = sig_waiting x ∧ proc (f x) = proc x) → calm s (upd_thr s t f).
Proof.
  intros H. split; [|done]. split; [intros; apply signalled_refl|]. split; [done|]. intros u. cbn. destruct (decide (t = u)) as [->|]; [rewrite fn_lookup_insert; apply H|by rewrite fn_lookup_insert_ne].
Qed.

Lemma send_thread_calm s t g info s' r : send_signal_thread s t g info = Some (s', r) → calm s s'.
Proof.
  unfold send_signal_thread. destruct (_ || _); [intros [= <- _]; apply calm_refl|]. destruct (proc (thr s t)) as [p|]; [|intros [= <- _]; apply calm_refl].
  pose proof (prepare_calm s p g) as H1. destruct (sig_ignored _ p g) as [ign|]; [|done]. cbn [mbind option_bind]. intros [= <- _]. eapply calm_trans; [exact H1|].
  eapply calm_trans; [|apply calm_awake, awake_wake]. destruct (_ || _); [by apply upd_thr_calm|apply calm_refl].
Qed.

Lemma kill_each_calm l s pg g info n : 
  sig_inv s → 0 ≤ g < NSIG → ∃ s' r, kill_each s l pg g info n = Some (s', r) ∧ sig_inv s' ∧ calm s s'.
Proof.
  intros Hs Hg. revert s n Hs. induction l as [|p l IH]; intros s n Hs; cbn [kill_each]; [exists s, n; split; [done|]; split; [done|apply calm_refl]|].
  destruct (_ && negb _) eqn:E; [|by apply IH]. apply andb_true_iff in E as [_ Hz%negb_true_iff%Z.eqb_neq].
  destruct (send_one s p g info Hs Hg Hz) as (s1 & E1 & H1 & _). rewrite E1. cbn [mbind option_bind fst]. destruct (IH s1 (n + 1) H1) as (s' & r & -> & H2 & Hc).
  exists s', r. split; [done|]. split; [done|]. eapply calm_trans; [by eapply send_process_calm|done].
Qed.
Lemma kill_pgrp_calm s pg g info : sig_inv s → 0 ≤ g < NSIG → ∃ s' r, kill_pgrp s pg g info = Some (s', r) ∧ sig_inv s' ∧ calm s s'.
Proof.
  intros Hs Hg. unfold kill_pgrp. destruct (kill_each_calm (all_processes s) s pg g info 0 Hs Hg) as (s' & r & -> & H). cbn. by eexists _, _.
Qed.

Lemma calm_same s g : calm (sg s) g → same_tree s (set_sg s g).
Proof.
  intros ((H1 & _ & H2) & E1 & _ & E2 & _). split; [done|done| |done| |done].
  - intros p. unfold proc_of. cbn. by destruct (H1 p) as (x1 & x2 & x3 & x4 & x5 & x6 & ->).
  - intros t. cbn. apply H2.
Qed.

#[export] Instance same_tree_refl : Reflexive same_tree.
Proof. by split. Qed.
#[export] Instance same_tree_trans : Transitive same_tree.
Proof.
  intros a b c [A1 A2 A3 A4 A5 (A6 & A7 & A8 & A9)] [B1 B2 B3 B4 B5 (B6 & B7 & B8 & B9)]. split; [congruence..| | | |split_and!; congruence].
  - intros p. destruct (A3 p) as (<- & <- & <- & <- & <-). apply B3.
  - intros p. destruct (A4 p) as (<- & <- & <- & <-). apply B4.
  - intros t. by rewrite B5.
Qed.

(** ** References *)

Lemma process_put_pos s p : 1 < refcount (node s p) → process_put s p = upd_node s p (λ x, set_refs (refcount x - 1) x).
Proof. intros H. unfold process_put. cbn. rewrite fn_lookup_insert. cbn. by replace (0 <? refcount (node s p) - 1) with true by lia. Qed.

Lemma process_put_last s p :
  refcount (node s p) = 1 → sighand (proc_of s p) ≠ 0 →
  process_put s p = set_live (add_sh (upd_node s p (λ x, set_refs (refcount x - 1) x)) (sighand (proc_of s p)) (-1)) p false.
Proof. intros H Hh. unfold proc_of in Hh. unfold process_put. cbn. rewrite fn_lookup_insert. cbn. rewrite H. change (0 <? 1 - 1) with false. cbn iota. by rewrite (proj2 (Z.eqb_neq _ _) Hh). Qed.

(** A zombie that is taken out of the lists is freed, with its reference to a
    table, and nothing else changes. *)
Lemma reap_ok s c pp :
  tree_ok s → c ∈ procs s → threads (proc_of s c) = [] → parent (proc_of s c) = Some pp → tree_ok (process_put (unlink s c pp) c).
Proof.
  intros Ht Hc Hz Hp. pose proof Ht as [H1 H2 H3 H4 H5 H6 H7 H8 H9 H10 H11 H12 H13 H14 H15 H16 H17].
  assert (refcount (node s c) = 1) as Hr by (rewrite H4, Hz by done; done).
  assert (c ≠ init_process (sg s)) as Hi by (intros ->; destruct H9 as (_ & _ & ?); done).
  destruct (H10 c Hc Hi) as (pp' & Hp' & Hpp & Hpt & Hne). assert (pp' = pp) as -> by congruence. clear Hp'.
  assert (∀ x, x ∈ procs s → parent (proc_of s x) ≠ Some c) as Hnop.
  { intros x Hx Hxp. destruct (decide (x = init_process (sg s))) as [->|Hxi]; [destruct H9 as (_ & E & _); congruence|]. destruct (H10 x Hx Hxi) as (q & Hq & _ & Hqt & _). assert (q = c) as -> by congruence. done. }
  rewrite process_put_last; [|cbn; rewrite fn_lookup_insert_ne by done; exact Hr|exact (H13 c Hc)].
  set (s' := set_live _ c false). change (proc_of (unlink s c pp) c) with (proc_of s c) in s'.
  assert (∀ q, refcount (node s' q) = (if decide (q = c) then 0 else refcount (node s q)) ∧ children (node s' q) = (if decide (q = pp) then list_del c (children (node s q)) else children (node s q)) ∧
    p_mm (node s' q) = p_mm (node s q) ∧ p_files (node s' q) = p_files (node s q)) as Hn.
  { intros q. cbn. destruct (decide (q = c)) as [->|Hqc].
    - rewrite fn_lookup_insert, fn_lookup_insert_ne by done. cbn. rewrite decide_False by done. rewrite Hr. done.
    - rewrite fn_lookup_insert_ne by congruence. destruct (decide (q = pp)) as [->|Hqp]; [by rewrite fn_lookup_insert|by rewrite fn_lookup_insert_ne]. }
  assert (∀ q, q ∈ procs s' ↔ q ∈ procs s ∧ q ≠ c) as Hin by (intros q; apply elem_of_list_del).
  split; change (proc_of s') with (proc_of s); change (init_process (sg s')) with (init_process (sg s)); change (thr (sg s')) with (thr (sg s)).
  - by apply NoDup_list_del.
  - intros p q [Hp1 _]%Hin [Hq1 _]%Hin. by apply H2.
  - intros p. rewrite Hin, <-H3. cbn. destruct (decide (c = p)) as [->|]; [rewrite fn_lookup_insert; naive_solver|rewrite fn_lookup_insert_ne by done; naive_solver].
  - intros p [Hp1 Hpc]%Hin. destruct (Hn p) as (-> & _). rewrite decide_False by done. by apply H4.
  - intros p t [Hp1 _]%Hin. by apply H5.
  - intros t p Htp. apply Hin. split; [by eapply H6|]. intros ->. apply H5 in Htp; [|done]. rewrite Hz in Htp. by apply not_elem_of_nil in Htp.
  - intros p [Hp1 _]%Hin. by apply H7.
  - intros p [Hp1 _]%Hin. destruct (Hn p) as (_ & _ & -> & ->). by apply H8.
  - destruct H9 as (A & B & C). split; [by apply Hin|done].
  - intros x [Hx Hxc]%Hin Hxi. destruct (H10 x Hx Hxi) as (q & A & B & C & D). exists q. split; [done|]. split; [|done]. apply Hin. split; [done|]. intros ->. by apply (Hnop x).
  - intros p x [Hp1 Hpc]%Hin. destruct (Hn p) as (_ & -> & _). rewrite Hin. destruct (decide (p = pp)) as [->|Hpp'].
    + rewrite elem_of_list_del, H11 by done. naive_solver.
    + rewrite H11 by done. split; [|naive_solver]. intros [A B]. split; [|done]. split; [done|]. intros ->. congruence.
  - intros p [Hp1 Hpc]%Hin. destruct (Hn p) as (_ & -> & _). destruct (decide (p = pp)); [by apply NoDup_list_del, H12|by apply H12].
  - intros p [Hp1 _]%Hin. by apply H13.
  - intros h Hh. change (procs s') with (list_del c (procs s)). rewrite cnt_del by done. change (has_table s' h) with (has_table s h). rewrite <-H14 by done. unfold has_table. cbn.
    destruct (Z.eqb_spec (sighand (proc_of s c)) h) as [->|Hhc]; [rewrite fn_lookup_insert; lia|rewrite fn_lookup_insert_ne by done; lia].
  - intros m. change (procs s') with (list_del c (procs s)). rewrite cnt_del by done. rewrite (cnt_ext _ (has_mm s m)) by (intros x _; unfold has_mm; by destruct (Hn x) as (_ & _ & -> & _)).
    change (mm_ref s' m) with (mm_ref s m). rewrite H15. unfold has_mm at 3. destruct (Hn c) as (_ & _ & -> & _). specialize (H8 c Hc). rewrite bool_decide_true in H8 by done. destruct H8 as (_ & -> & _). rewrite bool_decide_false by done. lia.
  - intros m. change (procs s') with (list_del c (procs s)). rewrite cnt_del by done. rewrite (cnt_ext _ (has_files s m)) by (intros x _; unfold has_files; by destruct (Hn x) as (_ & _ & _ & ->)).
    change (fd_ref s' m) with (fd_ref s m). rewrite H16. unfold has_files at 3. destruct (Hn c) as (_ & _ & _ & ->). specialize (H8 c Hc). rewrite bool_decide_true in H8 by done. destruct H8 as (_ & _ & ->). rewrite bool_decide_false by done. lia.
  - intros p [Hp1 _]%Hin. by apply H17.
Qed.

(** ** Exit *)

(** Thread [t] has left process [p], which has others. *)
Record thread_gone (s s' : psys) (p t : Z) : Prop := {
  tg_all : procs s' = procs s ∧ init_process (sg s') = init_process (sg s);
  tg_prc q : pid (proc_of s' q) = pid (proc_of s q) ∧ p_state (proc_of s' q) = p_state (proc_of s q) ∧ parent (proc_of s' q) = parent (proc_of s q) ∧ sighand (proc_of s' q) = sighand (proc_of s q);
  tg_threads q : threads (proc_of s' q) = if decide (q = p) then list_del t (threads (proc_of s q)) else threads (proc_of s q);
  tg_refs q : refcount (node s' q) = if decide (q = p) then refcount (node s q) - 1 else refcount (node s q);
  tg_node q : children (node s' q) = children (node s q) ∧ p_mm (node s' q) = p_mm (node s q) ∧ p_files (node s' q) = p_files (node s q);
  tg_proc u : proc (thr (sg s') u) = if decide (u = t) then None else proc (thr (sg s) u);
  tg_counts : live s' = live s ∧ sh_ref s' = sh_ref s ∧ mm_ref s' = mm_ref s ∧ fd_ref s' = fd_ref s;
}.

Lemma length_list_del t l : NoDup l → t ∈ l → Z.of_nat (length (list_del t l)) = Z.of_nat (length l) - 1.
Proof.
  intros Hd Ht. pose proof (cnt_del (λ _, true) t l Hd Ht) as H. unfold cnt in H.
  assert (∀ l : list Z, List.filter (λ _, true) l = l) as E by (intros k; apply forallb_filter_id, forallb_forall; done). by rewrite !E in H.
Qed.

Lemma thread_gone_ok s s' p t :
  tree_ok s → p ∈ procs s → t ∈ threads (proc_of s p) → list_del t (threads (proc_of s p)) ≠ [] → thread_gone s s' p t → tree_ok s'.
Proof.
  intros [H1 H2 H3 H4 H5 H6 H7 H8 H9 H10 H11 H12 H13 H14 H15 H16 H17] Hp Htp Hne [[E1 E2] E3 E4 E5 E6 E7 (E8 & E9 & E10 & E11)].
  assert (∀ q, threads (proc_of s q) ≠ [] → threads (proc_of s' q) ≠ []) as Hth by (intros q; rewrite E4; case_decide as D; [by subst q|done]).
  split; rewrite ?E1, ?E2, ?E8, ?E9, ?E10, ?E11; try done.
  - intros x y. destruct (E3 x) as (-> & _), (E3 y) as (-> & _). apply H2.
  - intros q Hq. rewrite E4, E5. case_decide as D; [|by apply H4]. subst q. rewrite length_list_del, H4 by auto. lia.
  - intros q u Hq. rewrite E4, E7. case_decide as D.
    + subst q. rewrite elem_of_list_del, H5 by done. case_decide; naive_solver.
    + rewrite H5 by done. case_decide as D'; [|done]. subst u. apply H5 in Htp; [|done]. naive_solver.
  - intros u q. rewrite E7. case_decide; [done|]. apply H6.
  - intros q Hq. rewrite E4. case_decide; [by apply NoDup_list_del, H7|by apply H7].
  - intros q Hq. specialize (H8 q Hq). destruct (E3 q) as (_ & -> & _), (E6 q) as (_ & -> & ->). rewrite E4. case_decide as D; [|done]. subst q.
    rewrite (bool_decide_false (list_del _ _ = [])) by done. rewrite bool_decide_false in H8; [done|]. intros E. by rewrite E in Hne.
  - destruct H9 as (A & B & C). destruct (E3 (init_process (sg s))) as (_ & _ & -> & _). auto.
  - intros c Hc Hi. destruct (H10 c Hc Hi) as (q & A & B & C & D). exists q. destruct (E3 c) as (_ & _ & -> & _). auto.
  - intros q c Hq. destruct (E6 q) as (-> & _), (E3 c) as (_ & _ & -> & _). by apply H11.
  - intros q Hq. destruct (E6 q) as (-> & _). by apply H12.
  - intros q Hq. destruct (E3 q) as (_ & _ & _ & ->). by apply H13.
  - intros h Hh. rewrite (H14 h Hh). apply cnt_ext. intros x _. unfold has_table. by destruct (E3 x) as (_ & _ & _ & ->).
  - intros m. rewrite (H15 m). apply cnt_ext. intros x _. unfold has_mm. by destruct (E6 x) as (_ & -> & _).
  - intros m. rewrite (H16 m). apply cnt_ext. intros x _. unfold has_files. by destruct (E6 x) as (_ & _ & ->).
  - intros q Hq. apply (rooted_ext (parent_of s)); [|by apply H17]. intros x. by destruct (E3 x) as (_ & _ & ? & _).
Qed.

(** The last thread [t] of [p] has ended, the children of [p] are with init, and
    [p] is a zombie without objects. *)
Record zombified (s s' : psys) (p t : Z) : Prop := {
  zo_all : procs s' = procs s ∧ init_process (sg s') = init_process (sg s);
  zo_prc q : pid (proc_of s' q) = pid (proc_of s q) ∧ sighand (proc_of s' q) = sighand (proc_of s q);
  zo_state q : p_state (proc_of s' q) = (if decide (q = p) then PROC_ZOMBIE else p_state (proc_of s q)) ∧
               threads (proc_of s' q) = (if decide (q = p) then [] else threads (proc_of s q));
  zo_parent q : parent (proc_of s' q) = if decide (q ∈ children (node s p)) then Some (init_process (sg s)) else parent (proc_of s q);
  zo_children q : children (node s' q) = if decide (q = p) then [] else if decide (q = init_process (sg s)) then children (node s q) ++ children (node s p) else children (node s q);
  zo_refs q : refcount (node s' q) = if decide (q = p) then 1 else refcount (node s q);
  zo_objects q : p_mm (node s' q) = (if decide (q = p) then None else p_mm (node s q)) ∧ p_files (node s' q) = (if decide (q = p) then None else p_files (node s q));
  zo_proc u : proc (thr (sg s') u) = if decide (u = t) then None else proc (thr (sg s) u);
  zo_counts : live s' = live s ∧ sh_ref s' = sh_ref s;
  zo_mm m : mm_ref s' m = mm_ref s m - (if has_mm s m p then 1 else 0);
  zo_fd f : fd_ref s' f = fd_ref s f - (if has_files s f p then 1 else 0);
}.

Lemma zombified_ok s s' p t :
  tree_ok s → p ∈ procs s → threads (proc_of s p) = [t] → p ≠ init_process (sg s) → zombified s s' p t → tree_ok s'.
Proof.
  intros [H1 H2 H3 H4 H5 H6 H7 H8 H9 H10 H11 H12 H13 H14 H15 H16 H17] Hp Htp Hpi [[E1 E2] E3 E4 E5 E6 E7 E8 E9 [E10 E11] E12 E13].
  assert (∀ c, c ∈ children (node s p) ↔ c ∈ procs s ∧ parent (proc_of s c) = Some p) as Hch by (intros; by apply H11).
  destruct H9 as (Hi1 & Hi2 & Hi3).
  assert (threads (proc_of s' (init_process (sg s))) ≠ []) as Hi3'. { destruct (E4 (init_process (sg s))) as (_ & ->). by rewrite decide_False. }
  split; rewrite ?E1, ?E2, ?E10, ?E11; try done.
  - intros x y. destruct (E3 x) as (-> & _), (E3 y) as (-> & _). apply H2.
  - intros q Hq. rewrite E7. destruct (E4 q) as (_ & ->). case_decide; [done|by apply H4].
  - intros q u Hq. destruct (E4 q) as (_ & ->). rewrite E9. assert (∀ v, proc (thr (sg s) v) = Some p ↔ v = t) as Hv by (intros v; rewrite <-H5, Htp by done; apply list_elem_of_singleton).
    case_decide as D; [subst q|rewrite H5 by done]; case_decide as D'; [..|done].
    + subst u. split; [by intros ?%not_elem_of_nil|done].
    + split; [by intros ?%not_elem_of_nil|]. by intros ->%Hv.
    + subst u. split; [|done]. intros E. assert (proc (thr (sg s) t) = Some p) by (by apply Hv). congruence.
  - intros u q. rewrite E9. case_decide; [done|]. apply H6.
  - intros q Hq. destruct (E4 q) as (_ & ->). case_decide; [constructor|by apply H7].
  - intros q Hq. destruct (E4 q) as (-> & ->), (E8 q) as (-> & ->). case_decide; [done|by apply H8].
  - rewrite E5. rewrite decide_False by (rewrite Hch; intros [_ E]; congruence). done.
  - intros c Hc Hci. rewrite E5. case_decide as D.
    + exists (init_process (sg s)). auto.
    + destruct (H10 c Hc Hci) as (q & A & B & C & F). exists q. split; [done|]. split; [done|]. split; [|done]. destruct (E4 q) as (_ & ->). rewrite decide_False; [done|]. intros ->. apply D. by apply Hch.
  - intros q c Hq. rewrite E6, E5. destruct (decide (q = p)) as [->|Hqp].
    + split; [by intros ?%not_elem_of_nil|]. case_decide as D; [intros [_ [= E]]; done|]. intros [A B]. exfalso. apply D. by apply Hch.
    + destruct (decide (q = init_process (sg s))) as [->|Hqi].
      * case_decide as D; rewrite elem_of_app, H11, Hch by done; rewrite Hch in D; (split; [|by auto]); [by intros _; split; [apply D|]|by intros [?|?]; [|done]].
      * case_decide as D; rewrite H11 by done; [|done]. apply Hch in D as [D1 D2]. split; [intros [_ E]; congruence|]. intros [_ [= E]]. done.
  - intros q Hq. rewrite E6. case_decide; [constructor|]. case_decide as D; [|by apply H12]. apply NoDup_app. split; [by apply H12|]. split; [|by apply H12].
    intros x Hx1 Hx2. apply Hch in Hx2 as [_ Hx2]. apply H11 in Hx1 as [_ Hx1]; [|done]. congruence.
  - intros q Hq. destruct (E3 q) as (_ & ->). by apply H13.
  - intros h Hh. rewrite (H14 h Hh). apply cnt_ext. intros x _. unfold has_table. by destruct (E3 x) as (_ & ->).
  - intros m. rewrite E12, H15. rewrite (cnt_upd (has_mm s' m) (has_mm s m) p) by (try done; intros y _ Hy; unfold has_mm; destruct (E8 y) as (-> & _); by rewrite decide_False).
    unfold has_mm at 4. destruct (E8 p) as (-> & _). rewrite decide_True, bool_decide_false by done. lia.
  - intros m. rewrite E13, H16. rewrite (cnt_upd (has_files s' m) (has_files s m) p) by (try done; intros y _ Hy; unfold has_files; destruct (E8 y) as (_ & ->); by rewrite decide_False).
    unfold has_files at 4. destruct (E8 p) as (_ & ->). rewrite decide_True, bool_decide_false by done. lia.
  - intros q Hq. specialize (H17 q Hq). induction H17 as [|c r Er _ IH]; [constructor|]. pose proof (E5 c) as Ec. case_decide as D.
    + eapply rooted_child; [exact Ec|constructor].
    + eapply rooted_child; [rewrite <-Er; exact Ec|]. apply IH. destruct (decide (c = init_process (sg s))) as [->|Hci]; [unfold parent_of in Er; congruence|].
      destruct (H10 c Hq Hci) as (r' & Er' & Hr' & _). unfold parent_of in Er. congruence.
Qed.

(** What [exit_process] does to the tree before the thread is gone. *)
Record undone (s s' : psys) (p : Z) : Prop := {
  un_all : procs s' = procs s ∧ init_process (sg s') = init_process (sg s);
  un_prc q : pid (proc_of s' q) = pid (proc_of s q) ∧ sighand (proc_of s' q) = sighand (proc_of s q) ∧ threads (proc_of s' q) = threads (proc_of s q);
  un_state q : p_state (proc_of s' q) = if decide (q = p) then PROC_ZOMBIE else p_state (proc_of s q);
  un_parent q : parent (proc_of s' q) = if decide (q ∈ children (node s p)) then Some (init_process (sg s)) else parent (proc_of s q);
  un_children q : children (node s' q) = if decide (q = p) then [] else if decide (q = init_process (sg s)) then children (node s q) ++ children (node s p) else children (node s q);
  un_refs q : refcount (node s' q) = refcount (node s q);
  un_objects q : p_mm (node s' q) = (if decide (q = p) then None else p_mm (node s q)) ∧ p_files (node s' q) = (if decide (q = p) then None else p_files (node s q));
  un_proc u : proc (thr (sg s') u) = proc (thr (sg s) u);
  un_counts : live s' = live s ∧ sh_ref s' = sh_ref s;
  un_mm m : mm_ref s' m = mm_ref s m - (if has_mm s m p then 1 else 0);
  un_fd f : fd_ref s' f = fd_ref s f - (if has_files s f p then 1 else 0);
}.

Lemma set_children_id l x : children x = l → set_children l x = x.
Proof. intros <-. by destruct x. Qed.

Lemma reparent_spec l s p :
  NoDup l → children (node s p) = l → p ≠ init_process (sg s) → init_process (sg s) ∉ l → p ∉ l →
  let s' := reparent_loop s p l in
  (∀ q, node s' q = if decide (q = p) then set_children [] (node s q) else if decide (q = init_process (sg s)) then set_children (children (node s q) ++ l) (node s q) else node s q) ∧
  (∀ q, proc_of s' q = if decide (q ∈ l) then set_parent (Some (init_process (sg s))) (proc_of s q) else proc_of s q) ∧
  thr (sg s') = thr (sg s) ∧ action (sg s') = action (sg s) ∧ all_processes (sg s') = all_processes (sg s) ∧ init_process (sg s') = init_process (sg s) ∧
  live s' = live s ∧ sh_ref s' = sh_ref s ∧ mm_ref s' = mm_ref s ∧ fd_ref s' = fd_ref s.
Proof.
  revert s. induction l as [|c l IH]; intros s Hnd Hch Hpi Hil Hpl; cbn zeta.
  - cbn [reparent_loop]. split_and!; try done. intros q. case_decide as D; [subst q; by rewrite set_children_id|]. case_decide; [|done]. rewrite app_nil_r. by rewrite set_children_id.
  - apply NoDup_cons in Hnd as [Hc Hnd]. apply not_elem_of_cons in Hil as [Hic Hil], Hpl as [Hpc Hpl]. cbn [reparent_loop]. set (i := init_process (sg s)) in *.
    set (s1 := upd_node (upd_process (upd_node s p _) c _) i _).
    assert (∀ q, node s1 q = if decide (q = p) then set_children l (node s q) else if decide (q = i) then set_children (children (node s q) ++ [c]) (node s q) else node s q) as Hn.
    { intros q. cbn. destruct (decide (q = p)) as [->|]; [rewrite fn_lookup_insert_ne, fn_lookup_insert by congruence|].
      - rewrite Hch. f_equal. unfold list_del. cbn [List.filter]. rewrite Z.eqb_refl. cbn [negb]. by apply list_del_id.
      - destruct (decide (q = i)) as [->|]; [rewrite fn_lookup_insert|rewrite fn_lookup_insert_ne by congruence]; by rewrite fn_lookup_insert_ne by congruence. }
    destruct (IH s1) as (A1 & A2 & A3 & A4 & A5 & A6 & A7 & A8 & A9 & A10); [done|rewrite Hn, decide_True by done; done|done|done|done|].
    change (init_process (sg s1)) with i in *. cbn zeta in *. rewrite A3, A4, A5, A6, A7, A8, A9, A10. split_and!; try done.
    + intros q. rewrite A1, Hn. destruct (decide (q = p)) as [->|]; [done|]. destruct (decide (q = i)) as [->|]; [|done]. cbn. by rewrite <-app_assoc.
    + intros q. rewrite A2. unfold proc_of. cbn. destruct (decide (q = c)) as [->|Hqc].
      * rewrite fn_lookup_insert. rewrite decide_False by done. rewrite decide_True by apply list_elem_of_here. done.
      * rewrite fn_lookup_insert_ne by congruence. destruct (decide (q ∈ l)); [rewrite decide_True by (by right); done|rewrite decide_False by (by apply not_elem_of_cons); done].
Qed.

Lemma release_spec s p :
  let s' := release_objects s p in
  sg s' = sg s ∧ live s' = live s ∧ sh_ref s' = sh_ref s ∧
  (∀ q, refcount (node s' q) = refcount (node s q) ∧ children (node s' q) = children (node s q) ∧
        p_mm (node s' q) = (if decide (q = p) then None else p_mm (node s q)) ∧ p_files (node s' q) = (if decide (q = p) then None else p_files (node s q))) ∧
  (∀ m, mm_ref s' m = mm_ref s m - (if has_mm s m p then 1 else 0)) ∧ (∀ f, fd_ref s' f = fd_ref s f - (if has_files s f p then 1 else 0)).
Proof.
  cbn zeta. unfold release_objects. set (s1 := match p_files (node s p) with Some f => _ | None => s end).
  assert (sg s1 = sg s ∧ live s1 = live s ∧ sh_ref s1 = sh_ref s ∧ mm_ref s1 = mm_ref s ∧
    (∀ q, refcount (node s1 q) = refcount (node s q) ∧ children (node s1 q) = children (node s q) ∧ p_mm (node s1 q) = p_mm (node s q) ∧ p_files (node s1 q) = (if decide (q = p) then None else p_files (node s q))) ∧
    ∀ f, fd_ref s1 f = fd_ref s f - (if has_files s f p then 1 else 0)) as (A1 & A2 & A3 & A4 & A5 & A6).
  { unfold s1. destruct (p_files (node s p)) as [f|] eqn:E; split_and!; try done.
    - intros q. cbn. destruct (decide (q = p)) as [->|]; [by rewrite fn_lookup_insert|by rewrite fn_lookup_insert_ne].
    - intros f'. unfold has_files. rewrite E. cbn. destruct (decide (f = f')) as [->|]; [rewrite fn_lookup_insert, bool_decide_true by done; lia|rewrite fn_lookup_insert_ne, bool_decide_false by congruence; lia].
    - intros q. destruct (decide (q = p)) as [->|]; done.
    - intros f'. unfold has_files. rewrite E, bool_decide_false by done. lia. }
  set (s2 := match p_mm (node s1 p) with Some m => _ | None => s1 end).
  assert (sg s2 = sg s ∧ live s2 = live s ∧ sh_ref s2 = sh_ref s ∧ fd_ref s2 = fd_ref s1 ∧
    (∀ q, refcount (node s2 q) = refcount (node s q) ∧ children (node s2 q) = children (node s q) ∧ p_mm (node s2 q) = (if decide (q = p) then None else p_mm (node s q)) ∧ p_files (node s2 q) = (if decide (q = p) then None else p_files (node s q))) ∧
    ∀ m, mm_ref s2 m = mm_ref s m - (if has_mm s m p then 1 else 0)) as (B1 & B2 & B3 & B4 & B5 & B6).
  { unfold s2. destruct (A5 p) as (_ & _ & Em & _). rewrite Em. destruct (p_mm (node s p)) as [m|] eqn:E; split_and!; try done.
    - intros q. destruct (A5 q) as (F1 & F2 & F3 & F4). cbn. destruct (decide (q = p)) as [->|]; [rewrite fn_lookup_insert|rewrite fn_lookup_insert_ne by congruence]; by rewrite <-F1, <-F2, ?F3, ?F4.
    - intros m'. unfold has_mm. rewrite E. cbn. rewrite A4. destruct (decide (m = m')) as [->|]; [rewrite fn_lookup_insert, bool_decide_true by done; lia|rewrite fn_lookup_insert_ne, bool_decide_false by congruence; lia].
    - intros q. destruct (A5 q) as (F1 & F2 & F3 & F4). destruct (decide (q = p)) as [->|]; rewrite ?F3, ?F4, ?E; done.
    - intros m'. unfold has_mm. rewrite E, bool_decide_false by done. rewrite A4. lia. }
  split_and!; [exact B1|exact B2|exact B3|exact B5|exact B6|intros f; rewrite B4; apply A6].
Qed.

(** Waking threads. *)
Lemma awake_prc g g' p f : awake g g' → awake (upd_prc g p f) (upd_prc g' p f).
Proof. intros [E1 E2 E3 E4 E5]. split; [cbn; by rewrite E1|done..]. Qed.
Lemma wake_up_awake s p : ∃ g, wake_up s p = set_sg s g ∧ awake (sg s) g.
Proof. eexists. split; [reflexivity|]. apply awake_fold. intros g t. apply awake_wake. Qed.
Lemma awake_same s g : awake (sg s) g → same_tree s (set_sg s g).
Proof. intros H. by apply calm_same, calm_awake. Qed.
Lemma wake_up_spec s p : sig_inv (sg s) → sig_inv (sg (wake_up s p)) ∧ same_tree s (wake_up s p).
Proof. intros Hs. destruct (wake_up_awake s p) as (g & -> & Ha). split; [by eapply inv_awake|by apply awake_same]. Qed.

(** The threads that wait for children of [p] run in [g]. *)
Definition roused (s : psys) (p : Z) (g : sys) : Prop := ∀ u, u ∈ child_wait (sg s) p → not_in g (Z.lor TASK_INTERRUPTIBLE TASK_UNINTERRUPTIBLE) u.
Lemma wake_up_roused s p : roused s p (sg (wake_up s p)).
Proof. intros u Hu. by apply fold_wake_not_in. Qed.

Lemma wake_fold_all m l g a b : fold_left (λ g t, try_to_wake_up g t m) l (set_all g a b) = set_all (fold_left (λ g t, try_to_wake_up g t m) l g) a b.
Proof. revert g. induction l as [|t l IH]; intros g; [done|]. cbn [fold_left]. rewrite <-IH. f_equal. unfold try_to_wake_up. cbn. by destruct (_ =? 0). Qed.
Lemma wake_unlink s p pp q : wake_up (unlink s p pp) q = unlink (wake_up s q) p pp.
Proof.
  unfold wake_up, unlink. cbn. unfold wake_children. cbn [child_wait set_all]. rewrite wake_fold_all. fold (wake_children (sg s) q). destruct (wake_up_awake s q) as (g & E & [_ _ (E1 & E2 & _) _]). unfold wake_up in E. injection E as E. rewrite E, E1, E2. done.
Qed.

Lemma vfork_spec s p : sig_inv (sg s) → sig_inv (sg (vfork_complete s p)) ∧ same_tree s (vfork_complete s p).
Proof.
  intros Hs. unfold vfork_complete. destruct (vfork_done _) as [t|]; [|done]. set (g := try_to_wake_up _ _ _). assert (awake (sg s) g) as Ha by apply awake_wake. clearbody g. cbn zeta.
  split; [by eapply inv_awake|]. transitivity (set_sg s g); [by apply awake_same|]. split; try done. intros q. cbn. destruct (decide (q = p)) as [->|]; [by rewrite fn_lookup_insert|by rewrite fn_lookup_insert_ne].
Qed.

Lemma hang_up_spec s p : sig_inv (sg s) → ∃ s', hang_up s p = Some s' ∧ sig_inv (sg s') ∧ same_tree s s' ∧ child_wait (sg s') = child_wait (sg s) ∧ action (sg s') = action (sg s).
Proof.
  intros Hs. unfold hang_up. destruct (p_tty (node s p)) as [y|]; [|by exists s]. destruct (_ =? _); [|by exists s].
  destruct (0 <? tty_pgrp s y); [|by exists (clear_tty s y)].
  destruct (kill_pgrp_calm (sg s) (tty_pgrp s y) SIGHUP None Hs) as (g1 & r1 & -> & H1 & C1); [lia|]. cbn [mbind option_bind fst].
  destruct (kill_pgrp_calm g1 (tty_pgrp s y) SIGCONT None H1) as (g2 & r2 & -> & H2 & C2); [lia|]. cbn [mbind option_bind fst].
  pose proof (calm_trans _ _ _ C1 C2) as C. eexists. split; [reflexivity|]. split; [done|]. split; [transitivity (set_sg s g2); [by apply calm_same|done]|].
  destruct C as ((_ & E1 & _) & _ & _ & _ & E2). done.
Qed.

Lemma undone_same s0 s s' p : same_tree s0 s → undone s s' p → undone s0 s' p.
Proof.
  intros [A1 A2 A3 A4 A5 (A6 & A7 & A8 & A9)] [[B1 B2] B3 B4 B5 B6 B7 B8 B9 [B10 B11] B12 B13]. destruct (A4 p) as (_ & Ech & _ & _). split; rewrite ?B1, ?B2, ?B10, ?B11; try done.
  - intros q. destruct (B3 q) as (-> & -> & ->), (A3 q) as (-> & -> & _ & _ & ->). done.
  - intros q. rewrite B4. by destruct (A3 q) as (_ & _ & -> & _).
  - intros q. rewrite B5, Ech, A2. by destruct (A3 q) as (_ & _ & _ & -> & _).
  - intros q. rewrite B6, Ech, A2. by destruct (A4 q) as (_ & -> & _).
  - intros q. rewrite B7. apply A4.
  - intros q. destruct (B8 q) as (-> & ->), (A4 q) as (_ & _ & -> & ->). done.
  - intros u. by rewrite B9.
  - intros m. rewrite B12, A8. unfold has_mm. by destruct (A4 p) as (_ & _ & -> & _).
  - intros f. rewrite B13, A9. unfold has_files. by destruct (A4 p) as (_ & _ & _ & ->).
Qed.

Lemma undone_after s s' s'' p : undone s s' p → same_tree s' s'' → undone s s'' p.
Proof.
  intros [[B1 B2] B3 B4 B5 B6 B7 B8 B9 [B10 B11] B12 B13] [A1 A2 A3 A4 A5 (A6 & A7 & A8 & A9)]. split; rewrite ?A1, ?A2, ?A6, ?A7; try done.
  - intros q. destruct (A3 q) as (-> & -> & _ & _ & ->). apply B3.
  - intros q. destruct (A3 q) as (_ & _ & -> & _). apply B4.
  - intros q. destruct (A3 q) as (_ & _ & _ & -> & _). apply B5.
  - intros q. destruct (A4 q) as (_ & -> & _). apply B6.
  - intros q. destruct (A4 q) as (-> & _). apply B7.
  - intros q. destruct (A4 q) as (_ & _ & -> & ->). apply B8.
  - intros u. by rewrite A5.
  - intros m. by rewrite A8.
  - intros f. by rewrite A9.
Qed.

(** [exit_process] up to the notice to the parent. *)
Lemma undo_spec s s1 p :
  same_tree (release_objects s p) s1 → NoDup (children (node s p)) → p ≠ init_process (sg s) → init_process (sg s) ∉ children (node s p) → p ∉ children (node s p) →
  let s2 := reparent_loop s1 p (children (node s1 p)) in
  undone s (upd_process s2 p (set_pstate PROC_ZOMBIE)) p ∧ action (sg s2) = action (sg s1) ∧ thr (sg s2) = thr (sg s1).
Proof.
  intros [A1 A2 A3 A4 A5 (A6 & A7 & A8 & A9)] Hnd Hpi Hil Hpl. destruct (release_spec s p) as (R1 & R2 & R3 & R4 & R5 & R6). cbn zeta in *.
  assert (children (node s1 p) = children (node s p)) as Ech by (destruct (A4 p) as (_ & -> & _), (R4 p) as (_ & -> & _); done). rewrite R1 in A2.
  destruct (reparent_spec (children (node s p)) s1 p) as (P1 & P2 & P3 & P4 & P5 & P6 & P7 & P8 & P9 & P10); [done|done|by rewrite A2|by rewrite A2|done|]. cbn zeta in *.
  rewrite Ech. set (s2 := reparent_loop s1 p _) in *. split; [|done].
  assert (∀ q, proc_of (upd_process s2 p (set_pstate PROC_ZOMBIE)) q = if decide (q = p) then set_pstate PROC_ZOMBIE (proc_of s2 q) else proc_of s2 q) as Hz.
  { intros q. unfold proc_of. cbn. destruct (decide (q = p)) as [->|]; [by rewrite fn_lookup_insert|by rewrite fn_lookup_insert_ne]. }
  assert (∀ q, proc_of s2 q = (if decide (q ∈ children (node s p)) then set_parent (Some (init_process (sg s))) (proc_of s1 q) else proc_of s1 q)) as P2' by (intros q; rewrite P2, A2; done).
  assert (∀ q, pid (proc_of s1 q) = pid (proc_of s q) ∧ threads (proc_of s1 q) = threads (proc_of s q) ∧ p_state (proc_of s1 q) = p_state (proc_of s q) ∧ parent (proc_of s1 q) = parent (proc_of s q) ∧ sighand (proc_of s1 q) = sighand (proc_of s q)) as A3'.
  { intros q. specialize (A3 q). unfold proc_of in *. rewrite R1 in A3. exact A3. }
  split; change (node (upd_process s2 p (set_pstate PROC_ZOMBIE))) with (node s2).
  - split; [|by etrans]. unfold procs. cbn. rewrite P5. change (all_processes (sg s1)) with (procs s1). rewrite A1. unfold procs. by rewrite R1.
  - intros q. rewrite Hz, P2'. destruct (A3' q) as (<- & <- & _ & _ & <-). by repeat case_decide.
  - intros q. rewrite Hz, P2'. destruct (A3' q) as (_ & _ & <- & _). by repeat case_decide.
  - intros q. rewrite Hz, P2'. destruct (A3' q) as (_ & _ & _ & <- & _). by repeat case_decide.
  - intros q. rewrite P1, A2. destruct (A4 q) as (_ & Eq & _), (R4 q) as (_ & Eq' & _). rewrite Eq' in Eq. repeat case_decide; cbn; [done|by rewrite Eq|done].
  - intros q. rewrite P1. destruct (A4 q) as (Eq & _), (R4 q) as (Eq' & _). repeat case_decide; cbn; by rewrite Eq.
  - intros q. rewrite P1. destruct (A4 q) as (_ & _ & F1 & F2), (R4 q) as (_ & _ & G1 & G2). rewrite G1 in F1. rewrite G2 in F2. repeat case_decide; cbn; by rewrite ?F1, ?F2.
  - intros u. cbn. rewrite P3, A5. by rewrite R1.
  - cbn. rewrite P7, P8, A6, A7. done.
  - intros m. cbn. rewrite P9, A8. apply R5.
  - intros f. cbn. rewrite P10, A9. apply R6.
Qed.

Lemma send_total s p g info : sig_inv s → 0 ≤ g < NSIG → ∃ s' r, send_signal_process s p g info = Some (s', r) ∧ sig_inv s' ∧ calm s s'.
Proof.
  intros Hs Hg. destruct (decide (p_state (prc s p) = PROC_ZOMBIE)) as [Hz|Hz].
  - exists s, 0. split; [|split; [done|apply calm_refl]]. unfold send_signal_process. replace ((g <? 0) || (NSIG <? g)) with false by lia. rewrite Hz. by destruct (g =? 0).
  - destruct (send_one s p g info Hs Hg Hz) as (s' & E & H & _). exists s', 0. split; [done|]. split; [done|by eapply send_process_calm].
Qed.

Lemma notify_total s p : sig_inv (sg s) → ∃ s', notify_parent s p = Some s' ∧ sig_inv (sg s') ∧ same_tree s s' ∧ ∀ pp, parent (proc_of s p) = Some pp → roused s pp (sg s').
Proof.
  intros Hs. unfold notify_parent, proc_of. destruct (parent (prc (sg s) p)) as [pp|]; [|by exists s]. destruct (inv_table (sg s) pp SIGCHLD Hs) as [ka Ha]; [lia|]. rewrite Ha. cbn [mbind option_bind].
  destruct (handler ka =? SIG_IGN); cbn [mbind option_bind].
  - destruct (wake_up_spec s pp Hs). exists (wake_up s pp). split_and!; [done..|]. intros pp' [= <-]. apply wake_up_roused.
  - destruct (send_total (sg s) pp SIGCHLD (Some (exit_info s p)) Hs) as (g & r & -> & H & Hc); [lia|]. cbn [mbind option_bind fst]. destruct (wake_up_spec (set_sg s g) pp H) as [W1 W2].
    eexists. split; [reflexivity|]. split; [done|]. split; [transitivity (set_sg s g); [by apply calm_same|done]|]. intros pp' [= <-] u Hu. apply (wake_up_roused (set_sg s g)). cbn. by destruct Hc as (_ & _ & _ & _ & ->).
Qed.

Lemma inv_same g g' :
  (∀ t, thread_ok (thr g t) → thread_ok (thr g' t)) → (∀ p, shared_pending (prc g' p) = shared_pending (prc g p)) → action g' = action g → sig_inv g → sig_inv g'.
Proof. intros Ht Hp Ha [H1 H2 H3]. split; [auto| |by rewrite Ha]. intros p. unfold process_ok. rewrite Hp. apply H2. Qed.

Lemma process_put_sg s p : sg (process_put s p) = sg s.
Proof. unfold process_put. cbn. destruct (0 <? _); [done|]. by destruct (_ =? 0). Qed.

(** Moving the children of [p] to init changes nothing that signals see. *)
Lemma reparent_inv s p : 
  sig_inv (sg s) → NoDup (children (node s p)) → p ≠ init_process (sg s) → init_process (sg s) ∉ children (node s p) → p ∉ children (node s p) →
  sig_inv (sg (reparent_loop s p (children (node s p)))).
Proof.
  intros Hs Hnd Hpi Hil Hpl. destruct (reparent_spec (children (node s p)) s p) as (_ & P2 & Hthr & Hact & _); [done..|]. cbn zeta in *.
  apply (inv_same (sg s)); [by rewrite Hthr| |exact Hact|exact Hs]. intros q. specialize (P2 q). unfold proc_of in P2. rewrite P2. by case_decide.
Qed.

Lemma reparent_children_spec s p : ∃ g, reparent_children s p = set_sg (reparent_loop s p (children (node s p))) g ∧ awake (sg (reparent_loop s p (children (node s p)))) g.
Proof.
  unfold reparent_children. set (x := reparent_loop s p _). destruct (existsb _ _); [apply wake_up_awake|]. exists (sg x). split; [by destruct x|done].
Qed.

(** Wait queues and signal tables are those of before. *)
Definition same_queues (g g' : sys) : Prop := child_wait g' = child_wait g ∧ action g' = action g.

Lemma awake_queues g g' : awake g g' → same_queues g g'.
Proof. by intros [_ E1 _ _ E2]. Qed.
Lemma release_queue s p : same_queues (sg s) (sg (release_objects s p)).
Proof. destruct (release_spec s p) as (E & _). cbn zeta in E. by rewrite E. Qed.
Lemma vfork_queue s p : same_queues (sg s) (sg (vfork_complete s p)).
Proof. unfold vfork_complete. destruct (vfork_done _); [|done]. apply awake_queues, awake_wake. Qed.
Lemma reparent_queue s p : same_queues (sg s) (sg (reparent_children s p)).
Proof.
  destruct (reparent_children_spec s p) as (g & -> & [_ E1 _ _ E2]). unfold same_queues. cbn. rewrite E1, E2. generalize (children (node s p)). intros l. clear. revert s.
  induction l as [|c l IH]; intros s; [done|]. cbn [reparent_loop]. destruct (IH (upd_node (upd_process (upd_node s p (λ x, set_children (list_del c (children x)) x)) c (set_parent (Some (init_process (sg s)))))
    (init_process (sg s)) (λ x, set_children (children x ++ [c]) x))) as [-> ->]. done.
Qed.

(** The parent [pp] wants no zombies of its children: it ignores SIGCHLD or has set
    SA_NOCLDWAIT, and is not init. *)
Definition autoreap (s : psys) (pp : Z) : bool :=
  match act (sg s) pp SIGCHLD with
  | Some ka => ((handler ka =? SIG_IGN) || negb (Z.land (sa_flags ka) SA_NOCLDWAIT =? 0)) && negb (pp =? init_process (sg s))
  | None => false
  end.

Lemma autoreap_same s s' pp :
  action (sg s') = action (sg s) → sighand (proc_of s' pp) = sighand (proc_of s pp) → init_process (sg s') = init_process (sg s) → autoreap s' pp = autoreap s pp.
Proof. intros E1 E2 E3. unfold autoreap, act. unfold proc_of in E2. by rewrite E1, E2, E3. Qed.

(** What [exit_process] has done when it looks at the parent. *)
Lemma exit_middle s s1 p :
  same_tree (release_objects s p) s1 → sig_inv (sg s1) → NoDup (children (node s p)) → p ≠ init_process (sg s) → init_process (sg s) ∉ children (node s p) → p ∉ children (node s p) →
  let s2 := upd_process (reparent_children s1 p) p (set_pstate PROC_ZOMBIE) in undone s s2 p ∧ sig_inv (sg s2).
Proof.
  intros Hsame H1 Hnd Hpi Hil Hpl. destruct (release_spec s p) as (R1 & _ & _ & R4 & _). cbn zeta in *.
  assert (children (node s1 p) = children (node s p)) as Ech by (destruct (st_node _ _ Hsame p) as (_ & -> & _); apply R4).
  assert (init_process (sg s1) = init_process (sg s)) as Ei by (rewrite (st_init _ _ Hsame), R1; done).
  destruct (undo_spec s s1 p Hsame Hnd Hpi Hil Hpl) as (Hun & _). cbn zeta in Hun. destruct (reparent_children_spec s1 p) as (g & -> & Ha).
  pose proof (reparent_inv s1 p H1) as H2. rewrite Ech, Ei in H2. rewrite Ech in *. specialize (H2 Hnd Hpi Hil Hpl). set (x := reparent_loop s1 p _) in *.
  pose proof (awake_prc (sg x) g p (set_pstate PROC_ZOMBIE) Ha) as Ha'. split.
  - eapply undone_after; [exact Hun|]. change (upd_process (set_sg x g) p (set_pstate PROC_ZOMBIE)) with (set_sg (upd_process x p (set_pstate PROC_ZOMBIE)) (upd_prc g p (set_pstate PROC_ZOMBIE))). by apply awake_same.
  - eapply inv_awake; [exact Ha'|]. apply inv_prc; [done|by intros []].
Qed.

Lemma exit_process_spec s p pp :
  sig_inv (sg s) → NoDup (children (node s p)) → p ≠ init_process (sg s) → init_process (sg s) ∉ children (node s p) → p ∉ children (node s p) → parent (proc_of s p) = Some pp →
  ∃ b, exit_process s p = Some (Ok b) ∧ sig_inv (sg b) ∧ roused s pp (sg b) ∧ if autoreap s pp then ∃ z, undone s z p ∧ b = process_put (unlink z p pp) p else undone s b p.
Proof.
  intros Hs Hnd Hpi Hil Hpl Hpar. unfold exit_process. destruct (release_spec s p) as (R1 & _). cbn zeta in R1.
  destruct (vfork_spec (release_objects s p) p) as [V1 V2]; [by rewrite R1|]. destruct (hang_up_spec _ p V1) as (s1 & -> & H1 & Hsame' & Hq1 & Ha1). assert (same_tree (release_objects s p) s1) as Hsame by (by etrans). cbn [mbind option_bind].
  assert (init_process (sg s1) = init_process (sg s)) as Ei by (rewrite (st_init _ _ Hsame), R1; done). rewrite Ei, (proj2 (Z.eqb_neq _ _) Hpi).
  destruct (exit_middle s s1 p Hsame H1 Hnd Hpi Hil Hpl) as (Hun & H2). destruct (reparent_queue s1 p) as [Hq Ha2], (vfork_queue (release_objects s p) p) as [Hq' Ha']. rewrite Hq1, Hq', R1 in Hq. rewrite Ha1, Ha', R1 in Ha2.
  set (s2 := upd_process (reparent_children s1 p) p (set_pstate PROC_ZOMBIE)) in *. change (child_wait (sg s2) = child_wait (sg s)) in Hq. change (action (sg s2) = action (sg s)) in Ha2. clearbody s2.
  assert (parent (prc (sg s2) p) = Some pp) as Hp2. { pose proof (un_parent _ _ _ Hun p) as E. unfold proc_of in E. rewrite E, decide_False by done. exact Hpar. }
  rewrite Hp2. cbn [mbind option_bind]. destruct (inv_table (sg s2) pp SIGCHLD H2) as [ka Ha]; [lia|]. rewrite <-(autoreap_same s s2); [|done|apply (un_prc _ _ _ Hun)|apply (un_all _ _ _ Hun)]. unfold autoreap. rewrite Ha. cbn [mbind option_bind].
  destruct (_ && negb _).
  - rewrite wake_unlink. destruct (wake_up_spec s2 pp H2) as [W1 W2]. eexists. split; [reflexivity|]. split; [rewrite process_put_sg; destruct W1; by split|]. split; [rewrite process_put_sg; unfold roused; rewrite <-Hq; exact (wake_up_roused s2 pp)|]. exists (wake_up s2 pp). split; [by eapply undone_after|done].
  - destruct (notify_total s2 p H2) as (s3 & -> & H3 & Hs3 & Hw). cbn. eexists. split; [reflexivity|]. split; [done|]. split; [unfold roused; rewrite <-Hq; by apply Hw|]. by eapply undone_after.
Qed.

(** The end of [do_exit]: the thread leaves its process and drops its reference. *)
Definition leave (s : psys) (t p : Z) : psys := upd_thread (process_put (upd_thread s t (set_proc None)) p) t (set_state TASK_DEAD).
Arguments leave : simpl never.

Lemma leave_inv s t p : sig_inv (sg s) → sig_inv (sg (leave s t p)).
Proof.
  intros Hs. unfold leave. cbn. rewrite process_put_sg. apply set_state_inv, inv_thr; [done|]. by intros [].
Qed.

Lemma leave_proc s t p u : proc (thr (sg (leave s t p)) u) = if decide (u = t) then None else proc (thr (sg s) u).
Proof.
  unfold leave. cbn. rewrite process_put_sg. cbn. destruct (decide (u = t)) as [->|]; [by rewrite !fn_lookup_insert|by rewrite !fn_lookup_insert_ne by congruence].
Qed.
Lemma leave_state s t p u : u ≠ t → state (thr (sg (leave s t p)) u) = state (thr (sg s) u).
Proof. intros H. unfold leave. cbn. rewrite process_put_sg. cbn. by rewrite !fn_lookup_insert_ne by congruence. Qed.
Lemma leave_prc s t p : prc (sg (leave s t p)) = prc (sg s) ∧ all_processes (sg (leave s t p)) = all_processes (sg s) ∧ init_process (sg (leave s t p)) = init_process (sg s).
Proof. unfold leave. cbn. by rewrite process_put_sg. Qed.

Lemma leave_more s t p :
  1 < refcount (node s p) →
  (∀ q, node (leave s t p) q = if decide (q = p) then set_refs (refcount (node s q) - 1) (node s q) else node s q) ∧
  live (leave s t p) = live s ∧ sh_ref (leave s t p) = sh_ref s ∧ mm_ref (leave s t p) = mm_ref s ∧ fd_ref (leave s t p) = fd_ref s.
Proof.
  intros Hr. unfold leave. rewrite process_put_pos by done. cbn. split; [|done]. intros q. destruct (decide (q = p)) as [->|]; [by rewrite fn_lookup_insert|by rewrite fn_lookup_insert_ne].
Qed.

(** Leaving first or being reaped first gives the same tree. *)
Lemma leave_reaped s t p pp :
  refcount (node s p) = 2 → sighand (proc_of s p) ≠ 0 → pp ≠ p → same_tree (process_put (unlink (leave s t p) p pp) p) (leave (process_put (unlink s p pp) p) t p).
Proof.
  intros Hr Hh Hne. destruct (leave_more s t p ltac:(lia)) as (L1 & L2 & L3 & L4 & L5). destruct (leave_prc s t p) as (L6 & L7 & L8).
  assert (∀ s, refcount (node (unlink s p pp) p) = refcount (node s p)) as Hu by (intros x; cbn; by rewrite fn_lookup_insert_ne by done).
  assert (refcount (node (leave s t p) p) = 1) as Hr1 by (rewrite L1, decide_True by done; cbn; lia).
  assert (∀ x, proc_of (unlink x p pp) p = proc_of x p) as Hpu by done. assert (proc_of (leave s t p) p = proc_of s p) as Hpl by (unfold proc_of; by rewrite L6).
  rewrite (process_put_last (unlink (leave s t p) p pp)); [|by rewrite Hu|by rewrite Hpu, Hpl].
  rewrite (process_put_pos (unlink s p pp)) by (rewrite Hu; lia). set (a := upd_node (unlink s p pp) p _).
  assert (refcount (node (upd_thread a t (set_proc None)) p) = 1) as Hra by (cbn; rewrite fn_lookup_insert, fn_lookup_insert_ne by done; cbn; lia).
  unfold leave at 3. rewrite (process_put_last (upd_thread a t (set_proc None)) p Hra Hh). clear Hra Hpu.
  split.
  - unfold procs. cbn. by rewrite L7.
  - cbn. by rewrite L8.
  - intros q. unfold proc_of. cbn. by rewrite L6.
  - intros q. cbn. destruct (decide (q = p)) as [->|Hqp].
    + rewrite !fn_lookup_insert. cbn. rewrite !(fn_lookup_insert_ne _ pp p) by done. by rewrite L1, decide_True by done.
    + rewrite !(fn_lookup_insert_ne _ p q) by done. destruct (decide (q = pp)) as [->|Hqq]; [rewrite !fn_lookup_insert|rewrite !fn_lookup_insert_ne by congruence]; rewrite L1, decide_False by done; done.
  - intros u. cbn. rewrite leave_proc. destruct (decide (u = t)) as [->|]; [by rewrite !fn_lookup_insert|by rewrite !fn_lookup_insert_ne by congruence].
  - unfold proc_of. cbn. rewrite L2, L3, L4, L5, L6. done.
Qed.

(** Thread [t] is off the list of [p], and nothing else has happened. *)
Record thread_out (s s' : psys) (p t : Z) : Prop := {
  to_all : procs s' = procs s ∧ init_process (sg s') = init_process (sg s);
  to_prc q : pid (proc_of s' q) = pid (proc_of s q) ∧ p_state (proc_of s' q) = p_state (proc_of s q) ∧ parent (proc_of s' q) = parent (proc_of s q) ∧ sighand (proc_of s' q) = sighand (proc_of s q);
  to_threads q : threads (proc_of s' q) = if decide (q = p) then list_del t (threads (proc_of s q)) else threads (proc_of s q);
  to_node q : refcount (node s' q) = refcount (node s q) ∧ children (node s' q) = children (node s q) ∧ p_mm (node s' q) = p_mm (node s q) ∧ p_files (node s' q) = p_files (node s q);
  to_proc u : proc (thr (sg s') u) = proc (thr (sg s) u);
  to_counts : live s' = live s ∧ sh_ref s' = sh_ref s ∧ mm_ref s' = mm_ref s ∧ fd_ref s' = fd_ref s;
}.

Lemma thread_out_same s a b p t : thread_out s a p t → same_tree a b → thread_out s b p t.
Proof.
  intros [[B1 B2] B3 B4 B5 B6 (B7 & B8 & B9 & B10)] [A1 A2 A3 A4 A5 (A6 & A7 & A8 & A9)]. split; rewrite ?A1, ?A2, ?A6, ?A7, ?A8, ?A9; try done.
  - intros q. destruct (A3 q) as (-> & _ & -> & -> & ->). apply B3.
  - intros q. destruct (A3 q) as (_ & -> & _). apply B4.
  - intros q. destruct (A4 q) as (-> & -> & -> & ->). apply B5.
  - intros u. by rewrite A5.
Qed.

Lemma gone_leave s s1 p t : thread_out s s1 p t → 1 < refcount (node s p) → thread_gone s (leave s1 t p) p t.
Proof.
  intros [[B1 B2] B3 B4 B5 B6 (B7 & B8 & B9 & B10)] Hr. destruct (leave_more s1 t p) as (L1 & L2 & L3 & L4 & L5); [destruct (B5 p) as (-> & _); done|]. destruct (leave_prc s1 t p) as (L6 & L7 & L8).
  split; rewrite ?L2, ?L3, ?L4, ?L5; unfold procs, proc_of; rewrite ?L6, ?L7, ?L8; try done.
  - intros q. rewrite L1. destruct (B5 q) as (E & _). case_decide; cbn; by rewrite E.
  - intros q. rewrite L1. destruct (B5 q) as (_ & <- & <- & <-). by case_decide.
  - intros u. rewrite leave_proc. case_decide; [done|apply B6].
Qed.

Lemma zombified_leave s s1 b p t :
  thread_out s s1 p t → undone s1 b p → refcount (node s p) = 2 → threads (proc_of s p) = [t] → zombified s (leave b t p) p t.
Proof.
  intros [[B1 B2] B3 B4 B5 B6 (B7 & B8 & B9 & B10)] [[C1 C2] C3 C4 C5 C6 C7 C8 C9 [C10 C11] C12 C13] Hr Ht.
  destruct (leave_more b t p) as (L1 & L2 & L3 & L4 & L5); [rewrite C7; destruct (B5 p) as (-> & _); lia|]. destruct (leave_prc b t p) as (L6 & L7 & L8). destruct (B5 p) as (_ & Ech & Em & Ef).
  split; rewrite ?L2, ?L3, ?L4, ?L5; unfold procs, proc_of; rewrite ?L6, ?L7, ?L8; try change (prc (sg b)) with (proc_of b).
  - unfold procs in *. split; congruence.
  - intros q. destruct (C3 q) as (-> & -> & _), (B3 q) as (-> & _ & _ & ->). done.
  - intros q. rewrite C4. destruct (C3 q) as (_ & _ & ->), (B3 q) as (_ & -> & _). rewrite B4. case_decide as D; [|done]. subst q. rewrite Ht. split; [done|]. unfold list_del. cbn. by rewrite Z.eqb_refl.
  - intros q. rewrite C5, Ech, B2. destruct (B3 q) as (_ & _ & -> & _). done.
  - intros q. rewrite L1. assert (children (node b q) = if decide (q = p) then [] else if decide (q = init_process (sg s)) then children (node s q) ++ children (node s p) else children (node s q)) as E by (rewrite C6, Ech, B2; by destruct (B5 q) as (_ & -> & _)).
    rewrite <-E. by destruct (decide (q = p)).
  - intros q. rewrite L1. pose proof (C7 q) as E. destruct (B5 q) as (E' & _). case_decide as D; cbn; [subst q; lia|congruence].
  - intros q. rewrite L1. destruct (C8 q) as (E1 & E2), (B5 q) as (_ & _ & E3 & E4). rewrite E3 in E1. rewrite E4 in E2. rewrite <-E1, <-E2. by case_decide.
  - intros u. rewrite leave_proc. case_decide; [done|]. by rewrite C9.
  - by rewrite C10, C11.
  - intros m. rewrite C12, B9. unfold has_mm. by rewrite Em.
  - intros f. rewrite C13, B10. unfold has_files. by rewrite Ef.
Qed.

(** The part of [do_exit] that takes the thread off the list. *)
Definition drop_thread (s : psys) (t p : Z) : psys :=
  let s := upd_process s p (λ q, set_threads (list_del t (threads q)) q) in
  upd_node s p (λ x, set_times (utime x ⊕ t_utime s t) (stime x ⊕ t_stime s t) (cutime x) (cstime x) x).

Lemma drop_out s t p : thread_out s (drop_thread s t p) p t.
Proof.
  unfold drop_thread. split; try done.
  - intros q. unfold proc_of. cbn. destruct (decide (q = p)) as [->|]; [by rewrite fn_lookup_insert|by rewrite fn_lookup_insert_ne].
  - intros q. unfold proc_of. cbn. destruct (decide (q = p)) as [->|]; [by rewrite fn_lookup_insert|by rewrite fn_lookup_insert_ne].
  - intros q. cbn. destruct (decide (q = p)) as [->|]; [by rewrite fn_lookup_insert|by rewrite fn_lookup_insert_ne].
Qed.
Lemma drop_inv s t p : sig_inv (sg s) → sig_inv (sg (drop_thread s t p)).
Proof. intros H. unfold drop_thread. cbn. apply inv_prc; [done|by intros []]. Qed.

(** No step of the exit of a process changes a status. *)
Definition codes (s : psys) (q : Z) : Z := exit_code (node s q).

Lemma upd_node_codes s p f q : (∀ x, exit_code (f x) = exit_code x) → codes (upd_node s p f) q = codes s q.
Proof. intros H. unfold codes. cbn. destruct (decide (p = q)) as [->|]; [rewrite fn_lookup_insert; apply H|by rewrite fn_lookup_insert_ne]. Qed.
Lemma process_put_codes s p q : codes (process_put s p) q = codes s q.
Proof.
  unfold process_put. cbn zeta. set (x := upd_node s p _). assert (codes x q = codes s q) as E by (by apply upd_node_codes). destruct (0 <? _); [done|]. by destruct (_ =? 0).
Qed.
Lemma release_codes s p q : codes (release_objects s p) q = codes s q.
Proof.
  unfold release_objects. set (x := match p_files (node s p) with Some f => _ | None => s end). cbn zeta.
  assert (codes x q = codes s q) as <-. { unfold x. destruct (p_files (node s p)); [by rewrite upd_node_codes|done]. }
  destruct (p_mm (node x p)); [|done]. unfold mm_put. change (codes (add_mm ?a _ _) q) with (codes a q). by apply upd_node_codes.
Qed.
Lemma vfork_codes s p q : codes (vfork_complete s p) q = codes s q.
Proof. unfold vfork_complete. destruct (vfork_done _); [|done]. by rewrite upd_node_codes. Qed.
Lemma hang_up_codes s p s' q : hang_up s p = Some s' → codes s' q = codes s q.
Proof.
  unfold hang_up. destruct (p_tty _) as [y|]; [|by intros [= <-]]. destruct (_ =? _); [|by intros [= <-]]. destruct (0 <? _); [|by intros [= <-]].
  destruct (kill_pgrp _ _ SIGHUP _) as [r|]; [|done]. cbn [mbind option_bind]. destruct (kill_pgrp _ _ SIGCONT _) as [r'|]; [|done]. cbn [mbind option_bind]. by intros [= <-].
Qed.
Lemma reparent_codes l s p q : codes (reparent_loop s p l) q = codes s q.
Proof. revert s. induction l as [|c l IH]; intros s; [done|]. cbn [reparent_loop]. rewrite IH. rewrite upd_node_codes by done. by apply upd_node_codes. Qed.
Lemma notify_codes s p s' q : notify_parent s p = Some s' → codes s' q = codes s q.
Proof.
  unfold notify_parent. destruct (parent _) as [pp|]; [|by intros [= <-]]. destruct (act _ _ _) as [ka|]; [|done]. cbn [mbind option_bind].
  destruct (_ =? _); [by intros [= <-]|]. destruct (send_signal_process _ _ _ _) as [r|]; [|done]. by intros [= <-].
Qed.
Lemma exit_codes s p s' q : exit_process s p = Some (Ok s') → codes s' q = codes s q.
Proof.
  unfold exit_process. destruct (hang_up _ p) as [s1|] eqn:E1; [|done]. cbn [mbind option_bind]. destruct (_ =? _); [done|]. set (s2 := upd_process _ _ _).
  assert (codes s2 q = codes s q) as E2.
  { transitivity (codes s1 q); [|rewrite (hang_up_codes _ _ _ q E1), vfork_codes; apply release_codes]. change (codes s2 q) with (codes (reparent_children s1 p) q). destruct (reparent_children_spec s1 p) as (g & -> & _).
    change (codes (set_sg ?a _) q) with (codes a q). apply reparent_codes. }
  clearbody s2. destruct (parent _) as [pp|]; [|done]. cbn [mbind option_bind]. destruct (act _ _ _) as [ka|]; [|done]. cbn [mbind option_bind]. destruct (_ && negb _).
  - intros [= <-]. rewrite process_put_codes, wake_unlink, <-E2. destruct (wake_up_awake s2 pp) as (g & -> & _). unfold unlink. change (codes (set_sg ?a _) q) with (codes a q). by rewrite upd_node_codes.
  - destruct (notify_parent s2 p) as [s3|] eqn:E3; [|done]. cbn. intros [= <-]. by rewrite (notify_codes _ _ _ _ E3).
Qed.

Lemma last_thread t l : NoDup l → t ∈ l → list_del t l = [] ↔ l = [t].
Proof.
  intros Hd Ht. split.
  - intros E. pose proof (length_list_del t l Hd Ht) as Hl. rewrite E in Hl. destruct l as [|x [|y l]]; cbn in Hl; [by apply not_elem_of_nil in Ht| |lia]. apply list_elem_of_singleton in Ht. by subst x.
  - intros ->. unfold list_del. cbn. by rewrite Z.eqb_refl.
Qed.

Lemma not_own_child s p : tree_ok s → p ∈ procs s → p ≠ init_process (sg s) →
  init_process (sg s) ∉ children (node s p) ∧ p ∉ children (node s p) ∧ ∃ pp, parent (proc_of s p) = Some pp ∧ pp ∈ procs s ∧ pp ≠ p ∧ threads (proc_of s pp) ≠ [].
Proof.
  intros Ht Hp Hpi. destruct (tr_parent _ Ht p Hp Hpi) as (pp & A & B & C & D). split_and!; [| |by exists pp].
  - rewrite (tr_children _ Ht) by done. destruct (tr_init _ Ht) as (_ & E & _). rewrite E. by intros [_ ?].
  - rewrite (tr_children _ Ht) by done. rewrite A. intros [_ [= ?]]. done.
Qed.

(** The state in which the last thread calls [exit_process]. *)
Definition exit_status (s : psys) (p code : Z) : Z := if exiting (proc_of s p) then exit_code (node s p) else Z.shiftl (Z.land code 0xff) 8.
Definition last_out (s : psys) (t p code : Z) : psys :=
  let s := drop_thread s t p in if exiting (prc (sg s) p) then s else upd_node s p (set_code (Z.shiftl (Z.land code 0xff) 8)).

Lemma last_out_spec s t p code : sig_inv (sg s) → sig_inv (sg (last_out s t p code)) ∧ thread_out s (last_out s t p code) p t ∧ codes (last_out s t p code) p = exit_status s p code.
Proof.
  intros Hs. pose proof (drop_inv s t p Hs) as H1. pose proof (drop_out s t p) as Ho. unfold last_out, exit_status. cbn zeta.
  assert (exiting (prc (sg (drop_thread s t p)) p) = exiting (proc_of s p)) as -> by (cbn; by rewrite fn_lookup_insert).
  assert (codes (drop_thread s t p) p = codes s p) as Hc by (unfold drop_thread; cbn zeta; by rewrite upd_node_codes). destruct (exiting _); [done|]. split; [done|]. split.
  - eapply thread_out_same; [exact Ho|]. split; try done. intros q. cbn -[drop_thread]. destruct (decide (q = p)) as [->|]; [by rewrite !fn_lookup_insert|by rewrite !fn_lookup_insert_ne].
  - unfold codes. cbn -[drop_thread]. by rewrite fn_lookup_insert.
Qed.

Lemma do_exit_eq s t code p :
  proc (thr (sg s) t) = Some p →
  do_exit s t code =
    (r ← (if bool_decide (list_del t (threads (proc_of s p)) = []) then exit_process (last_out s t p code) p
          else Some (Ok (if exiting (proc_of s p) then wake_up (drop_thread s t p) p else drop_thread s t p)));
     Some (let! s := r in Ok (leave s t p))).
Proof.
  intros Hp. unfold do_exit. rewrite Hp. cbn zeta. fold (drop_thread s t p).
  assert (threads (prc (sg (drop_thread s t p)) p) = list_del t (threads (proc_of s p))) as -> by (cbn; by rewrite fn_lookup_insert).
  unfold last_out. cbn zeta. assert (exiting (prc (sg (drop_thread s t p)) p) = exiting (proc_of s p)) as -> by (cbn; by rewrite fn_lookup_insert). done.
Qed.

(** After the exit of thread [t]: its process has the others; or it is a zombie
    with the status [st], or gone if its parent wants no zombies, and the threads
    that waited for it run. *)
Definition exit_post (s : psys) (t p st : Z) (s' : psys) : Prop :=
  if bool_decide (threads (proc_of s p) = [t])
  then ∃ pp, parent (proc_of s p) = Some pp ∧
       (if autoreap s pp then p ∉ procs s' ∧ live s' p = false ∧ ∃ z, zombified s z p t ∧ same_tree (process_put (unlink z p pp) p) s'
        else zombified s s' p t ∧ codes s' p = st) ∧
       (∀ u, u ∈ child_wait (sg s) pp → u ≠ t → not_in (sg s') (Z.lor TASK_INTERRUPTIBLE TASK_UNINTERRUPTIBLE) u)
  else thread_gone s s' p t.

Lemma leave_codes s t p q : codes (leave s t p) q = codes s q.
Proof. unfold leave. change (codes (upd_thread ?a _ _) q) with (codes a q). by rewrite process_put_codes. Qed.

Lemma last_exit s t p code :
  sig_inv (sg s) → tree_ok s → p ∈ procs s → threads (proc_of s p) = [t] → p ≠ init_process (sg s) →
  ∃ b pp, exit_process (last_out s t p code) p = Some (Ok b) ∧ sig_inv (sg b) ∧ codes b p = exit_status s p code ∧ tree_ok (leave b t p) ∧ parent (proc_of s p) = Some pp ∧ roused s pp (sg b) ∧
    if autoreap s pp then ∃ z, zombified s z p t ∧ same_tree (process_put (unlink z p pp) p) (leave b t p) else zombified s (leave b t p) p t.
Proof.
  intros Hs Ht Hp Hth Hpi. destruct (not_own_child s p Ht Hp Hpi) as (Hil & Hpl & pp & Hpar & Hpp & Hne & Hppt). destruct (last_out_spec s t p code Hs) as (H1 & Ho & Hcode). pose proof Ho as [[B1 B2] B3 B4 B5 _ _].
  assert (refcount (node s p) = 2) as Hr by (rewrite (tr_refs _ Ht), Hth by done; done). destruct (B5 p) as (Er & Ech & _). assert (same_queues (sg s) (sg (last_out s t p code))) as [Eq Ea] by (unfold last_out; cbn zeta; by destruct (exiting _)). set (a := last_out s t p code) in *. clearbody a.
  destruct (exit_process_spec a p pp) as (b & Hb & Hbs & Hw & Hcase); [done|rewrite Ech; by apply (tr_nodup_children _ Ht)|congruence|by rewrite B2, Ech|by rewrite Ech|by destruct (B3 p) as (_ & _ & -> & _)|].
  exists b, pp. split; [done|]. split; [done|]. split; [by rewrite (exit_codes _ _ _ _ Hb)|]. assert (roused s pp (sg b)) as Hw' by (unfold roused in *; by rewrite <-Eq). clear Hw.
  rewrite (autoreap_same s a) in Hcase; [|done|apply B3|done]. destruct (autoreap s pp).
  - destruct Hcase as (z & Hu & ->). pose proof (zombified_leave _ _ _ _ _ Ho Hu Hr Hth) as Hz. assert (tree_ok (leave z t p)) as Hzt by exact (zombified_ok _ _ _ _ Ht Hp Hth Hpi Hz).
    assert (same_tree (process_put (unlink (leave z t p) p pp) p) (leave (process_put (unlink z p pp) p) t p)) as Hsame.
    { apply leave_reaped; [by rewrite (un_refs _ _ _ Hu), Er| |done]. destruct (un_prc _ _ _ Hu p) as (_ & -> & _), (B3 p) as (_ & _ & _ & ->). by apply (tr_table _ Ht). }
    split; [|split; [done|split; [done|by exists (leave z t p)]]]. eapply same_tree_ok; [exact Hsame|]. apply reap_ok; [done|by rewrite (proj1 (zo_all _ _ _ _ Hz))| |].
    + destruct (zo_state _ _ _ _ Hz p) as (_ & ->). by rewrite decide_True.
    + rewrite (zo_parent _ _ _ _ Hz). by rewrite decide_False.
  - pose proof (zombified_leave _ _ _ _ _ Ho Hcase Hr Hth) as Hz. split; [exact (zombified_ok _ _ _ _ Ht Hp Hth Hpi Hz)|done].
Qed.

Lemma reaped_gone z s' p pp : tree_ok s' → same_tree (process_put (unlink z p pp) p) s' → p ∉ procs s' ∧ live s' p = false.
Proof.
  intros Ht Hsame. assert (p ∉ procs s') as Hp by (rewrite (st_all _ _ Hsame); unfold procs; rewrite process_put_sg; cbn; rewrite elem_of_list_del; by intros []).
  split; [done|]. rewrite <-(tr_live _ Ht) in Hp. by destruct (live s' p).
Qed.

Lemma do_exit_spec s t code p :
  sig_inv (sg s) → tree_ok s → proc (thr (sg s) t) = Some p → ¬ (p = init_process (sg s) ∧ threads (proc_of s p) = [t]) →
  ∃ s', do_exit s t code = Some (Ok s') ∧ sig_inv (sg s') ∧ tree_ok s' ∧ exit_post s t p (exit_status s p code) s'.
Proof.
  intros Hs Ht Htp Hno. rewrite (do_exit_eq _ _ _ _ Htp). unfold exit_post. assert (p ∈ procs s) as Hp by (by eapply tr_proc). assert (t ∈ threads (proc_of s p)) as Hin by (by apply (tr_threads _ Ht)).
  pose proof (tr_nodup_threads _ Ht p Hp) as Hnd. destruct (decide (threads (proc_of s p) = [t])) as [Hl|Hl].
  - rewrite !bool_decide_true by (done || by apply last_thread). destruct (last_exit s t p code) as (b & pp & -> & Hbs & Hc & Hbt & Hpp & Hw & Hpost); [done..|intros ->; by apply Hno|].
    cbn. eexists. split; [done|]. split; [by apply leave_inv|]. split; [done|]. exists pp. split; [done|]. split; [|intros u Hu Hne; unfold not_in; rewrite leave_state by done; by apply Hw].
    destruct (autoreap s pp); [|split; [done|by rewrite leave_codes]]. destruct Hpost as (z & Hz & Hsame). destruct (reaped_gone z _ _ _ Hbt Hsame). eauto.
  - assert (list_del t (threads (proc_of s p)) ≠ []) as Hl' by (rewrite last_thread by done; done). rewrite !bool_decide_false by done. cbn [mbind option_bind].
    set (b := if exiting _ then _ else _). assert (sig_inv (sg b) ∧ thread_out s b p t) as [Hb1 Hb2].
    { pose proof (drop_inv s t p Hs) as H1. pose proof (drop_out s t p) as Ho. unfold b. destruct (exiting _); [|done]. destruct (wake_up_spec _ p H1). split; [done|by eapply thread_out_same]. }
    clearbody b. cbn. eexists. split; [done|]. split; [by apply leave_inv|].
    assert (thread_gone s (leave b t p) p t) as Hg. { apply gone_leave; [done|]. rewrite (tr_refs _ Ht) by done. destruct (threads (proc_of s p)); [by apply not_elem_of_nil in Hin|cbn [length]; lia]. }
    split; [by eapply thread_gone_ok|done].
Qed.

Lemma do_exit_init s t code :
  sig_inv (sg s) → tree_ok s → threads (proc_of s (init_process (sg s))) = [t] → do_exit s t code = Some Panic.
Proof.
  intros Hs Ht Hth. destruct (tr_init _ Ht) as (Hi & _). set (p := init_process (sg s)) in *. assert (proc (thr (sg s) t) = Some p) as Hp by (apply (tr_threads _ Ht); [done|]; rewrite Hth; apply list_elem_of_here).
  rewrite (do_exit_eq _ _ _ _ Hp), Hth. unfold list_del. cbn [List.filter]. rewrite Z.eqb_refl. cbn [negb]. rewrite bool_decide_true by done.
  destruct (last_out_spec s t p code Hs) as (H1 & Ho & _). set (a := last_out s t p code) in *. clearbody a. unfold exit_process. destruct (release_spec a p) as (R1 & _). cbn zeta in R1.
  destruct (vfork_spec (release_objects a p) p) as [V1 V2]; [by rewrite R1|]. destruct (hang_up_spec _ p V1) as (s1 & -> & _ & Hsame & _ & _). cbn [mbind option_bind].
  rewrite (st_init _ _ Hsame), (st_init _ _ V2), R1, (proj2 (to_all _ _ _ _ Ho)). fold p. by rewrite Z.eqb_refl.
Qed.

(** ** Group exit *)

Lemma send_thread_total s t g info : sig_inv s → 0 ≤ g < NSIG → ∃ s' r, send_signal_thread s t g info = Some (s', r) ∧ sig_inv s' ∧ calm s s'.
Proof.
  intros Hs Hg. assert (∃ x, send_signal_thread s t g info = Some x) as [[s' r] E].
  { unfold send_signal_thread. destruct (_ || _); [by eexists|]. destruct (proc _) as [p|]; [|by eexists]. rewrite sig_ignored_prepare. unfold sig_ignored.
    destruct (inv_table s p g Hs Hg) as [ka ->]. cbn [mbind option_bind]. repeat case_match; eauto. }
  exists s', r. split; [done|]. split; [by eapply send_thread_inv|by eapply send_thread_calm].
Qed.

(** SIGKILL is pending for thread [o]. *)
Definition killed (g : sys) (o : Z) : Prop := sin (sig_pending (thr g o)) SIGKILL = true.

Lemma killed_awake g g' o : awake g g' → killed g o → killed g' o.
Proof. intros [_ _ _ H]. unfold killed. by destruct (H o) as [-> | ->]. Qed.
Lemma killed_clear g p o : killed g o → killed (clear_threads g p stops) o.
Proof.
  unfold clear_threads. generalize (threads (prc g p)). intros l. revert g. induction l as [|u l IH]; intros g Hg; [done|]. cbn [fold_left]. apply IH. unfold killed in *. cbn -[stops not64 sin Z.land].
  destruct (decide (u = o)) as [->|]; [|by rewrite fn_lookup_insert_ne]. rewrite fn_lookup_insert. cbn -[stops not64 sin Z.land]. rewrite sin_land, Hg. by vm_compute.
Qed.
Lemma killed_prepare g p o : killed g o → killed (prepare_signal g p SIGKILL) o.
Proof.
  intros Hg. unfold prepare_signal. change ((SIGKILL =? SIGCONT) || (SIGKILL =? SIGKILL)) with true. cbn iota zeta. assert (killed (clear_threads (clear_shared g p stops) p stops) o) as H by (by apply killed_clear).
  destruct (group_stop _); [|done]. eapply killed_awake; [apply awake_stopped|done].
Qed.

Lemma send_kill g o g' r p :
  proc (thr g o) = Some p → send_signal_thread g o SIGKILL None = Some (g', r) → killed g' o ∧ ∀ v, killed g v → killed g' v.
Proof.
  intros Hp. unfold send_signal_thread. change ((SIGKILL <=? 0) || (NSIG <? SIGKILL)) with false. rewrite Hp. cbn iota zeta. pose proof (killed_prepare g p) as Hk. set (x := prepare_signal g p SIGKILL) in *. clearbody x.
  unfold sig_ignored. change ((SIGKILL =? SIGKILL) || _) with true. cbn [mbind option_bind negb orb]. set (y := queue_thread x o SIGKILL None). intros E. assert (g' = signal_wake y o) as -> by congruence. clear E.
  assert (∀ v, v = o ∨ killed x v → killed y v) as Hy; [|split; [|intros v Hv]; (eapply killed_awake; [apply awake_wake|]); auto].
  intros v Hv. unfold killed, y, queue_thread. cbn -[sigmask sin Z.lor queue_signal]. destruct (decide (o = v)) as [->|]; [|rewrite fn_lookup_insert_ne by done; destruct Hv; [congruence|done]].
  rewrite fn_lookup_insert. unfold queue_signal. cbn -[sigmask sin Z.lor]. rewrite sin_lor. change (sin (sigmask SIGKILL) SIGKILL) with true. apply orb_true_r.
Qed.

Lemma kill_others_calm l g t :
  sig_inv g → (∀ o, o ∈ l → is_Some (proc (thr g o))) →
  ∃ g', kill_others g t l = Some g' ∧ sig_inv g' ∧ calm g g' ∧ (∀ o, killed g o → killed g' o) ∧ ∀ o, o ∈ l → o ≠ t → killed g' o.
Proof.
  revert g. induction l as [|o l IH]; intros g Hg Hl; cbn [kill_others]; [exists g; split; [done|]; split; [done|]; split; [apply calm_refl|]; split; [done|by intros o ?%not_elem_of_nil]|].
  destruct (Z.eqb_spec o t) as [->|Hne].
  { destruct (IH g Hg) as (g' & E & H1 & H2 & H3 & H4); [intros o Ho; apply Hl; by right|]. exists g'. split_and!; [done..|]. intros o [->|Ho]%elem_of_cons; [done|by apply H4]. }
  destruct (send_thread_total g o SIGKILL None Hg) as (g1 & r & Es & H1 & C1); [lia|]. rewrite Es. cbn [mbind option_bind fst]. destruct (Hl o) as [p Hp]; [apply list_elem_of_here|].
  destruct (send_kill _ _ _ _ _ Hp Es) as [K1 K2]. destruct (IH g1 H1) as (g' & E & H2 & C2 & K3 & K4).
  { intros v Hv. destruct C1 as ((_ & _ & Hm) & _). destruct (Hm v) as (_ & _ & ->). apply Hl. by right. }
  exists g'. split; [done|]. split; [done|]. split; [by eapply calm_trans|]. split; [auto|]. intros v [->|Hv]%elem_of_cons Hvt; [by apply K3|by apply K4].
Qed.

(** What [do_group_exit] does before the thread itself exits: every other thread
    has SIGKILL pending, and the status is decided. *)
Lemma group_spec s t p code :
  sig_inv (sg s) → tree_ok s → p ∈ procs s →
  ∃ a, do_group_exit s t p code = do_exit a t code ∧ sig_inv (sg a) ∧ same_tree s a ∧ same_queues (sg s) (sg a) ∧ exiting (proc_of a p) = true ∧ codes a p = (if exiting (proc_of s p) then codes s p else code) ∧
    (exiting (proc_of s p) = false → ∀ o, o ∈ threads (proc_of s p) → o ≠ t → killed (sg a) o).
Proof.
  intros Hs Ht Hp. unfold do_group_exit. change (exiting (prc (sg s) p)) with (exiting (proc_of s p)). destruct (exiting (proc_of s p)) eqn:Ee; [by exists s|].
  set (b := upd_node (upd_process s p set_exiting) p (set_code code)). cbn zeta.
  assert (sig_inv (sg b)) as Hb by (cbn; apply inv_prc; [done|by intros []]).
  assert (same_tree s b) as Hsame.
  { split; try done; intros q; unfold proc_of; cbn; destruct (decide (q = p)) as [->|]; by rewrite ?fn_lookup_insert, ?fn_lookup_insert_ne. }
  assert (exiting (proc_of b p) = true ∧ codes b p = code ∧ threads (proc_of b p) = threads (proc_of s p)) as (E1 & E2 & E3) by (unfold proc_of, codes; cbn; by rewrite !fn_lookup_insert).
  change (prc (sg b) p) with (proc_of b p). rewrite E3.
  destruct (kill_others_calm (threads (proc_of s p)) (sg b) t Hb) as (g & -> & Hg & Hc & _ & Hk); [intros o Ho; exists p; by apply (tr_threads _ Ht) in Ho|].
  cbn [mbind option_bind]. exists (set_sg b g). split; [done|]. split; [done|]. split; [etrans; [exact Hsame|by apply calm_same]|]. destruct Hc as ((Hpr & Hca & _) & _ & _ & _ & Hcq).
  split; [done|]. split; [|split; [done|by intros _]]. unfold proc_of. cbn [sg set_sg]. destruct (Hpr p) as (x1 & x2 & x3 & x4 & x5 & x6 & ->). exact E1.
Qed.

(** *** The effect in terms of the first state *)

Lemma thread_gone_same s a s' p t : same_tree s a → thread_gone a s' p t → thread_gone s s' p t.
Proof.
  intros [A1 A2 A3 A4 A5 (A6 & A7 & A8 & A9)] [[B1 B2] B3 B4 B5 B6 B7 (B8 & B9 & B10 & B11)]. split; rewrite ?B1, ?B2, ?B8, ?B9, ?B10, ?B11; try done.
  - intros q. destruct (A3 q) as (<- & _ & <- & <- & <-). apply B3.
  - intros q. rewrite B4. by destruct (A3 q) as (_ & -> & _).
  - intros q. rewrite B5. by destruct (A4 q) as (-> & _).
  - intros q. destruct (A4 q) as (_ & <- & <- & <-). apply B6.
  - intros u. by rewrite B7, A5.
Qed.

Lemma zombified_same s a s' p t : same_tree s a → zombified a s' p t → zombified s s' p t.
Proof.
  intros [A1 A2 A3 A4 A5 (A6 & A7 & A8 & A9)] [[B1 B2] B3 B4 B5 B6 B7 B8 B9 [B10 B11] B12 B13]. destruct (A4 p) as (_ & Ec & Em & Ef). split; rewrite ?B1, ?B2, ?B10, ?B11; try done.
  - intros q. destruct (A3 q) as (<- & _ & _ & _ & <-). apply B3.
  - intros q. destruct (A3 q) as (_ & <- & <- & _). apply B4.
  - intros q. rewrite B5, Ec, A2. by destruct (A3 q) as (_ & _ & _ & -> & _).
  - intros q. rewrite B6, Ec, A2. by destruct (A4 q) as (_ & -> & _).
  - intros q. rewrite B7. by destruct (A4 q) as (-> & _).
  - intros q. destruct (A4 q) as (_ & _ & <- & <-). apply B8.
  - intros u. by rewrite B9, A5.
  - intros m. rewrite B12, A8. unfold has_mm. by rewrite Em.
  - intros f. rewrite B13, A9. unfold has_files. by rewrite Ef.
Qed.

Lemma exit_post_same s a t p st s' : same_tree s a → same_queues (sg s) (sg a) → exit_post a t p st s' → exit_post s t p st s'.
Proof.
  intros H [Eq Ea]. unfold exit_post. destruct (st_prc _ _ H p) as (_ & -> & _ & -> & _). destruct (bool_decide _); [|by apply thread_gone_same]. rewrite Eq.
  intros (pp & Hpp & Hpost & Hw). exists pp. split; [done|]. split; [|done]. rewrite (autoreap_same s a) in Hpost; [|done|apply (st_prc _ _ H)|apply (st_init _ _ H)].
  destruct (autoreap s pp); [|destruct Hpost; split; [by eapply zombified_same|done]]. destruct Hpost as (H1 & H2 & z & Hz & Hs). split; [done|]. split; [done|]. exists z. split; [by eapply zombified_same|done].
Qed.

(** A thread that is not the last of its process leaves status, signals and the
    flag of a group exit alone. *)
Lemma do_exit_more s t code p s' :
  proc (thr (sg s) t) = Some p → list_del t (threads (proc_of s p)) ≠ [] → do_exit s t code = Some (Ok s') →
  codes s' p = codes s p ∧ exiting (proc_of s' p) = exiting (proc_of s p) ∧ ∀ o, o ≠ t → killed (sg s) o → killed (sg s') o.
Proof.
  intros Hp Hl. rewrite (do_exit_eq _ _ _ _ Hp), bool_decide_false by done. cbn [mbind option_bind]. set (b := if exiting _ then _ else _).
  assert (codes b p = codes s p ∧ exiting (proc_of b p) = exiting (proc_of s p) ∧ ∀ o, killed (sg s) o → killed (sg b) o) as (B1 & B2 & B3).
  { assert (codes (drop_thread s t p) p = codes s p) as Hc by (unfold drop_thread; cbn zeta; by rewrite upd_node_codes).
    assert (exiting (proc_of (drop_thread s t p) p) = exiting (proc_of s p)) as He by (unfold proc_of; cbn; by rewrite fn_lookup_insert).
    unfold b. destruct (exiting (proc_of s p)); [|done]. destruct (wake_up_awake (drop_thread s t p) p) as (g & -> & Ha). split; [done|]. split; [unfold proc_of in *; cbn [sg set_sg]; by rewrite (aw_prc _ _ Ha)|].
    intros o Ho. cbn [sg set_sg]. by eapply killed_awake. }
  clearbody b. intros [= <-]. rewrite leave_codes. destruct (leave_prc b t p) as (E & _). split; [done|]. split; [unfold proc_of in *; by rewrite E|].
  intros o Ho Hk. specialize (B3 o Hk). unfold killed in *. unfold leave. cbn. rewrite process_put_sg. cbn. by rewrite !fn_lookup_insert_ne by congruence.
Qed.
