(* ===== verification/ProcessInv.v ===== *)
(** * Fork, wait and the invariant of processes

    Fork gives back everything when it fails and otherwise adds one process or
    one thread; wait reports and reaps children.  With the lemmas on exit, every
    call keeps the tree of processes and the signal state well formed. *)

From stdpp Require Import functions.
From S2P Require Import Prelude Signal SignalSpec SignalInv Process ProcessSpec.

(** ** Fork *)

(** What the allocators promise: objects that nothing uses, a number that no
    process has. *)
Record fork_fresh (s : psys) (a : fork_alloc) : Prop := {
  ff_thread t id : fa_thread a = Some (t, id) → proc (thr (sg s) t) = None ∧ t ∉ all_threads (sg s) ∧ ∀ q, q ∈ procs s → pid (proc_of s q) ≠ id;
  ff_proc p : fa_proc a = Some p → live s p = false;
  ff_mm m : fa_mm a = Some m → mm_ref s m = 0;
  ff_files f : fa_files a = Some f → fd_ref s f = 0;
  ff_table h : fa_table a = Some h → h ≠ 0 ∧ sh_ref s h = 0;
}.

(** A process object that is not yet in the tree, with its references so far. *)
Record building (s x : psys) (p id : Z) (om ofl : option Z) (h : Z) : Prop := {
  bu_all : procs x = procs s ∧ init_process (sg x) = init_process (sg s);
  bu_prc q : q ≠ p → proc_of x q = proc_of s q;
  bu_new : pid (proc_of x p) = id ∧ threads (proc_of x p) = [] ∧ p_state (proc_of x p) = PROC_ALIVE ∧ sighand (proc_of x p) = h;
  bu_node q : q ≠ p → node x q = node s q;
  bu_fresh : refcount (node x p) = 1 ∧ children (node x p) = [] ∧ p_mm (node x p) = om ∧ p_files (node x p) = ofl;
  bu_proc u : proc (thr (sg x) u) = proc (thr (sg s) u);
  bu_keep u : is_Some (proc (thr (sg s) u)) → thr (sg x) u = thr (sg s) u;
  bu_live q : live x q = if decide (q = p) then true else live s q;
  bu_mm m : mm_ref x m = mm_ref s m + if bool_decide (om = Some m) then 1 else 0;
  bu_fd f : fd_ref x f = fd_ref s f + if bool_decide (ofl = Some f) then 1 else 0;
  bu_sh k : k ≠ 0 → sh_ref x k = sh_ref s k + if h =? k then 1 else 0;
}.

Ltac fsolve := repeat first [rewrite fn_lookup_insert | rewrite fn_lookup_insert_ne by congruence]; cbn; try done.

Lemma building_start s t id p pp :
  proc (thr (sg s) t) = None → building s (inherit (process_alloc (thread_alloc s t id) p) p pp id) p id None None 0.
Proof.
  intros Ht. split; try done.
  - intros q Hq. unfold proc_of. cbn. fsolve.
  - unfold proc_of. cbn. fsolve.
  - intros q Hq. cbn. fsolve.
  - cbn. fsolve.
  - intros u. cbn. destruct (decide (u = t)) as [->|]; fsolve.
  - intros u Hu. cbn. destruct (decide (u = t)) as [->|]; [rewrite Ht in Hu; by destruct Hu|fsolve].
  - intros q. cbn. destruct (decide (q = p)) as [->|]; fsolve.
  - intros m. rewrite bool_decide_false by done. cbn. lia.
  - intros m. rewrite bool_decide_false by done. cbn. lia.
  - intros k Hk. rewrite (proj2 (Z.eqb_neq 0 k)) by done. cbn. lia.
Qed.

Lemma building_inv s t id p pp : sig_inv (sg s) → sig_inv (sg (inherit (process_alloc (thread_alloc s t id) p) p pp id)).
Proof.
  intros Hs. assert (u64_ok 0) as Hu by (by vm_compute). assert (process_ok zero_process) as Hz by (split; [done|by intros g _ _ ?]). unfold inherit. cbn. apply inv_prc; [|done]. apply inv_prc; [|done].
  destruct (inv_thr (sg s) t (λ _, zero_thread id) Hs) as [H1 H2 H3]; [|by split]. intros _. by split.
Qed.

Lemma has_some {A} `{!EqDecision A} (x y : A) : (if bool_decide (Some x = Some y) then 1 else 0) = if decide (x = y) then 1 else 0.
Proof. case_decide as D; [subst y; by rewrite bool_decide_true|]. by rewrite bool_decide_false by congruence. Qed.

Lemma take_mm_ok s x p id pp flags a :
  building s x p id None None 0 → pp ≠ p → is_Some (p_mm (node s pp)) → fork_fresh s a →
  ∃ x' ok, take_mm x p pp flags a = Some (x', ok) ∧ ok = has_flag flags CLONE_VM || bool_decide (is_Some (fa_mm a)) ∧ sg x' = sg x ∧ if ok then ∃ m, building s x' p id (Some m) None 0 else building s x' p id None None 0.
Proof.
  intros Hb Hne [m0 Hm0] Hf. pose proof Hb as [B1 B2 B3 B4 (B5 & B5' & B5'' & B5''') B6 Bk B7 B8 B9 B10]. unfold take_mm. rewrite (B4 pp Hne), Hm0.
  assert (∀ m, mm_ref x m = mm_ref s m) as E by (intros m; rewrite B8, bool_decide_false by done; lia).
  assert (∀ m d x', d = 1 - mm_ref s m ∧ mm_ref s m = 0 ∨ d = 1 → sg x' = sg x → live x' = live x → sh_ref x' = sh_ref x → fd_ref x' = fd_ref x →
    node x' = <[p := set_objects (Some m) (p_files (node x p)) (node x p)]> (node x) → mm_ref x' = <[m := mm_ref x m + d]> (mm_ref x) → building s x' p id (Some m) None 0) as H.
  { intros m d x' Hd X1 X2 X3 X4 X5 X6. split; unfold procs, proc_of; rewrite ?X1, ?X2, ?X3, ?X4; try done.
    - intros q Hq. rewrite X5. fsolve. by apply B4.
    - rewrite X5. fsolve.
    - intros k. rewrite X6, has_some. case_decide as D; [subst k; rewrite fn_lookup_insert, E; lia|rewrite fn_lookup_insert_ne by done; rewrite E; lia]. }
  cbn [mbind option_bind]. destruct (has_flag _ _); [by eexists _, true; split; [reflexivity|]; split; [done|]; split; [done|]; exists m0; apply (H m0 1); auto|].
  destruct (fa_mm a) as [m|] eqn:Ea; [|by exists x, false]. pose proof (ff_mm _ _ Hf m Ea) as Hz. eexists _, true. split; [reflexivity|]. split; [done|]. split; [done|]. exists m. apply (H m (1 - mm_ref s m)); auto. by rewrite <-E.
Qed.

Lemma take_files_ok s x p id pp flags a m :
  building s x p id (Some m) None 0 → pp ≠ p → is_Some (p_files (node s pp)) → fork_fresh s a →
  ∃ x' ok, take_files x p pp flags a = Some (x', ok) ∧ ok = has_flag flags CLONE_FILES || bool_decide (is_Some (fa_files a)) ∧ sg x' = sg x ∧ if ok then ∃ f, building s x' p id (Some m) (Some f) 0 else building s x' p id (Some m) None 0.
Proof.
  intros Hb Hne [f0 Hf0] Hf. pose proof Hb as [B1 B2 B3 B4 (B5 & B5' & B5'' & B5''') B6 Bk B7 B8 B9 B10]. unfold take_files. rewrite (B4 pp Hne), Hf0.
  assert (∀ f, fd_ref x f = fd_ref s f) as E by (intros f; rewrite B9, bool_decide_false by done; lia).
  assert (∀ f d x', d = 1 - fd_ref s f ∧ fd_ref s f = 0 ∨ d = 1 → sg x' = sg x → live x' = live x → sh_ref x' = sh_ref x → mm_ref x' = mm_ref x →
    node x' = <[p := set_objects (p_mm (node x p)) (Some f) (node x p)]> (node x) → fd_ref x' = <[f := fd_ref x f + d]> (fd_ref x) → building s x' p id (Some m) (Some f) 0) as H.
  { intros f d x' Hd X1 X2 X3 X4 X5 X6. split; unfold procs, proc_of; rewrite ?X1, ?X2, ?X3, ?X4; try done.
    - intros q Hq. rewrite X5. fsolve. by apply B4.
    - rewrite X5. fsolve.
    - intros k. rewrite X6, has_some. case_decide as D; [subst k; rewrite fn_lookup_insert, E; lia|rewrite fn_lookup_insert_ne by done; rewrite E; lia]. }
  cbn [mbind option_bind]. destruct (has_flag _ _); [by eexists _, true; split; [reflexivity|]; split; [done|]; split; [done|]; exists f0; apply (H f0 1); auto|].
  destruct (fa_files a) as [f|] eqn:Ea; [|by exists x, false]. pose proof (ff_files _ _ Hf f Ea) as Hz. eexists _, true. split; [reflexivity|]. split; [done|]. split; [done|]. exists f. apply (H f (1 - fd_ref s f)); auto. by rewrite <-E.
Qed.

Lemma take_table_ok s x p id pp flags a m f :
  sig_inv (sg x) → building s x p id (Some m) (Some f) 0 → pp ≠ p → sighand (proc_of s pp) ≠ 0 → fork_fresh s a →
  ∃ x' ok, take_table x p pp flags a = Some (x', ok) ∧ ok = has_flag flags CLONE_SIGHAND || bool_decide (is_Some (fa_table a)) ∧ sig_inv (sg x') ∧ if ok then ∃ h, h ≠ 0 ∧ building s x' p id (Some m) (Some f) h else building s x' p id (Some m) (Some f) 0.
Proof.
  intros Hs Hb Hne Hh Hf. pose proof Hb as [B1 B2 (B3 & B3' & B3'' & B3''') B4 B5 B6 Bk B7 B8 B9 B10]. unfold take_table. change (prc (sg x) pp) with (proc_of x pp). rewrite (B2 pp Hne).
  rewrite (proj2 (Z.eqb_neq _ _) Hh). set (h0 := sighand (proc_of s pp)) in *.
  assert (∀ k, k ≠ 0 → sh_ref x k = sh_ref s k) as E by (intros k Hk; rewrite B10, (proj2 (Z.eqb_neq 0 k)) by done; lia).
  assert (∀ h d x', h ≠ 0 → d = 1 - sh_ref s h ∧ sh_ref s h = 0 ∨ d = 1 → node x' = node x → live x' = live x → mm_ref x' = mm_ref x → fd_ref x' = fd_ref x →
    procs x' = procs x ∧ init_process (sg x') = init_process (sg x) ∧ thr (sg x') = thr (sg x) → prc (sg x') = <[p := set_sighand h (prc (sg x) p)]> (prc (sg x)) →
    sh_ref x' = <[h := sh_ref x h + d]> (sh_ref x) → building s x' p id (Some m) (Some f) h) as H.
  { intros h d x' Hh' Hd X1 X2 X3 X4 (X5 & X5' & X5'') X6 X7. split; unfold proc_of; rewrite ?X1, ?X2, ?X3, ?X4, ?X5, ?X5', ?X5''; try done.
    - intros q Hq. rewrite X6. fsolve. by apply B2.
    - rewrite X6. fsolve.
    - intros k Hk. rewrite X7. destruct (Z.eqb_spec h k) as [->|Hhk]; [rewrite fn_lookup_insert, E by done; lia|rewrite fn_lookup_insert_ne, E by done; lia]. }
  destruct (has_flag _ _).
  { eexists _, true. split; [reflexivity|]. split; [done|]. split; [cbn; apply inv_prc; [done|by intros []]|]. exists h0. split; [done|]. apply (H h0 1); auto. }
  destruct (fa_table a) as [h|] eqn:Ea; [|by exists x, false]. destruct (ff_table _ _ Hf h Ea) as [Hh' Hz]. eexists _, true. split; [reflexivity|]. split; [done|]. split.
  - cbn. apply inv_act; [|apply (si_act _ Hs)]. apply inv_prc; [done|by intros []].
  - exists h. split; [done|]. apply (H h (1 - sh_ref s h)); auto. cbn. by rewrite E.
Qed.

(** There is memory for every object that the process does not share. *)
Definition fork_room (flags : Z) (a : fork_alloc) : bool :=
  (has_flag flags CLONE_VM || bool_decide (is_Some (fa_mm a))) && (has_flag flags CLONE_FILES || bool_decide (is_Some (fa_files a))) &&
  (has_flag flags CLONE_SIGHAND || bool_decide (is_Some (fa_table a))).

Lemma fork_objects_ok s x p id pp flags a :
  sig_inv (sg x) → building s x p id None None 0 → pp ≠ p → is_Some (p_mm (node s pp)) → is_Some (p_files (node s pp)) → sighand (proc_of s pp) ≠ 0 → fork_fresh s a →
  ∃ x' ok om ofl h, fork_objects x p pp flags a = Some (x', ok) ∧ ok = fork_room flags a ∧ sig_inv (sg x') ∧ building s x' p id om ofl h ∧ if ok then is_Some om ∧ is_Some ofl ∧ h ≠ 0 else h = 0.
Proof.
  intros Hs Hb Hne Hm Hfl Hh Hf. unfold fork_objects, fork_room. destruct (take_mm_ok s x p id pp flags a Hb Hne Hm Hf) as (x1 & ok1 & -> & <- & E1 & H1). cbn [mbind option_bind].
  destruct ok1; cbn [negb andb]; [destruct H1 as [m H1]|by exists x1, false, None, None, 0; rewrite E1].
  destruct (take_files_ok s x1 p id pp flags a m H1 Hne Hfl Hf) as (x2 & ok2 & -> & <- & E2 & H2). cbn [mbind option_bind].
  destruct ok2; cbn [negb andb]; [destruct H2 as [f H2]|by exists x2, false, (Some m), None, 0; rewrite E2, E1].
  destruct (take_table_ok s x2 p id pp flags a m f) as (x3 & ok3 & -> & <- & H3 & H4); [by rewrite E2, E1|done..|].
  destruct ok3; [destruct H4 as (h & Hh' & H4); by exists x3, true, (Some m), (Some f), h|by exists x3, false, (Some m), (Some f), 0].
Qed.

(** A path to init stays in the tree, so that changes outside do not matter. *)
Lemma rooted_within s par p :
  tree_ok s → p ∈ procs s → (∀ q, q ∈ procs s → par q = parent_of s q) → rooted par (init_process (sg s)) p.
Proof.
  intros Ht Hp He. pose proof (tr_rooted _ Ht p Hp) as Hr. induction Hr as [|c r Er _ IH]; [constructor|]. eapply rooted_child; [rewrite He by done; exact Er|]. apply IH.
  destruct (decide (c = init_process (sg s))) as [->|Hi]; [destruct (tr_init _ Ht) as (_ & E & _); unfold parent_of in Er; congruence|].
  destruct (tr_parent _ Ht c Hp Hi) as (q & Eq & Hq & _). unfold parent_of in Er. congruence.
Qed.

(** Two states that agree on the processes in the tree. *)
Record same_in (s s' : psys) : Prop := {
  sn_all : procs s' = procs s ∧ init_process (sg s') = init_process (sg s);
  sn_prc q : q ∈ procs s → proc_of s' q = proc_of s q ∧ node s' q = node s q;
  sn_proc u : proc (thr (sg s') u) = proc (thr (sg s) u);
  sn_live q : live s' q = live s q;
  sn_sh h : h ≠ 0 → sh_ref s' h = sh_ref s h;
  sn_mm m : mm_ref s' m = mm_ref s m;
  sn_fd f : fd_ref s' f = fd_ref s f;
  sn_thr u : is_Some (proc (thr (sg s) u)) → thr (sg s') u = thr (sg s) u;
}.

Lemma same_in_ok s s' : same_in s s' → tree_ok s → tree_ok s'.
Proof.
  intros [[E1 E2] E3 E4 E5 E6 E7 E8 _] [H1 H2 H3 H4 H5 H6 H7 H8 H9 H10 H11 H12 H13 H14 H15 H16 H17].
  split; rewrite ?E1, ?E2; try done.
  - intros p q Hp Hq. destruct (E3 p Hp) as [-> _], (E3 q Hq) as [-> _]. by apply H2.
  - intros p. by rewrite E5.
  - intros p Hp. destruct (E3 p Hp) as [-> ->]. by apply H4.
  - intros p t Hp. destruct (E3 p Hp) as [-> _]. rewrite E4. by apply H5.
  - intros t p. rewrite E4. apply H6.
  - intros p Hp. destruct (E3 p Hp) as [-> _]. by apply H7.
  - intros p Hp. destruct (E3 p Hp) as [-> ->]. by apply H8.
  - destruct H9 as (A & B). destruct (E3 _ A) as [-> _]. done.
  - intros c Hc Hi. destruct (H10 c Hc Hi) as (p & A & B & C & D). exists p. destruct (E3 c Hc) as [-> _], (E3 p B) as [-> _]. done.
  - intros p c Hp. destruct (E3 p Hp) as [_ ->]. rewrite H11 by done. split; intros [Hc ?]; (split; [done|]); destruct (E3 c Hc) as [E _]; congruence.
  - intros p Hp. destruct (E3 p Hp) as [_ ->]. by apply H12.
  - intros p Hp. destruct (E3 p Hp) as [-> _]. by apply H13.
  - intros h Hh. rewrite E6, (H14 h Hh) by done. apply cnt_ext. intros x Hx. unfold has_table. by destruct (E3 x Hx) as [-> _].
  - intros m. rewrite E7, (H15 m). apply cnt_ext. intros x Hx. unfold has_mm. by destruct (E3 x Hx) as [_ ->].
  - intros f. rewrite E8, (H16 f). apply cnt_ext. intros x Hx. unfold has_files. by destruct (E3 x Hx) as [_ ->].
  - intros p Hp. apply (rooted_within s); [by split|done|]. intros q Hq. unfold parent_of. by destruct (E3 q Hq) as [-> _].
Qed.

(** A failed fork gives back what it took. *)
Lemma fork_fail_same s x p t id om ofl :
  building s x p id om ofl 0 → p ∉ procs s → live s p = false → same_in s (thread_put (fork_fail x p) t).
Proof.
  intros [[B1 B1'] B2 (_ & _ & _ & B3) B4 (B5 & _ & Bm & Bf) B6 Bk B7 B8 B9 B10] Hp Hl. unfold fork_fail. rewrite Bm.
  set (x1 := match om with Some m => mm_put x m | None => x end). assert (node x1 = node x ∧ sg x1 = sg x ∧ live x1 = live x ∧ sh_ref x1 = sh_ref x ∧ fd_ref x1 = fd_ref x ∧ ∀ m, mm_ref x1 m = mm_ref s m) as (X1 & X2 & X3 & X4 & X5 & X6).
  { unfold x1. destruct om as [m|]; split_and!; try done; intros k; rewrite ?B8; [|rewrite bool_decide_false by done; lia].
    cbn. destruct (decide (m = k)) as [->|]; [rewrite fn_lookup_insert, B8, has_some, decide_True by done; lia|rewrite fn_lookup_insert_ne, B8, has_some, decide_False by done; lia]. }
  clearbody x1. rewrite X1, Bf. set (x2 := match ofl with Some f => fdtable_put x1 f | None => x1 end). cbn zeta.
  assert (node x2 = node x ∧ sg x2 = sg x ∧ live x2 = live x ∧ sh_ref x2 = sh_ref x ∧ mm_ref x2 = mm_ref x1 ∧ ∀ f, fd_ref x2 f = fd_ref s f) as (Y1 & Y2 & Y3 & Y4 & Y5 & Y6).
  { unfold x2. destruct ofl as [f|]; split_and!; try done; intros k; rewrite ?X5, ?B9; [|rewrite bool_decide_false by done; lia].
    cbn. rewrite X5. destruct (decide (f = k)) as [->|]; [rewrite fn_lookup_insert, B9, has_some, decide_True by done; lia|rewrite fn_lookup_insert_ne, B9, has_some, decide_False by done; lia]. }
  clearbody x2. assert (process_put x2 p = set_live (upd_node x2 p (λ x, set_refs (refcount x - 1) x)) p false) as ->.
  { unfold process_put. cbn. rewrite fn_lookup_insert, Y1. cbn. rewrite B5. cbn. rewrite Y2. change (prc (sg x) p) with (proc_of x p). by rewrite B3. }
  split; unfold procs, proc_of; cbn; rewrite ?Y2, ?Y4, ?Y5; try done.
  - intros q Hq. assert (q ≠ p) by (intros ->; exact (Hp Hq)). split; [by apply B2|]. rewrite fn_lookup_insert_ne, Y1 by congruence. by apply B4.
  - intros q. rewrite Y3. destruct (decide (p = q)) as [->|]; [by rewrite fn_lookup_insert|]. rewrite fn_lookup_insert_ne, B7, decide_False by congruence. done.
  - intros h Hh. rewrite B10, (proj2 (Z.eqb_neq 0 h)) by done. lia.
Qed.

(** Making the objects of a process takes no thread. *)
Lemma fork_objects_threads x p pp flags a x' ok : fork_objects x p pp flags a = Some (x', ok) → all_threads (sg x') = all_threads (sg x).
Proof.
  unfold fork_objects. destruct (take_mm x p pp flags a) as [[x1 ok1]|] eqn:E1; [|done]. cbn [mbind option_bind].
  assert (all_threads (sg x1) = all_threads (sg x)) as <- by (unfold take_mm in E1; destruct (has_flag _ _); [destruct (p_mm _)|destruct (fa_mm a)]; by simplify_eq/=).
  destruct (negb ok1); [by intros [= <- _]|]. destruct (take_files x1 p pp flags a) as [[x2 ok2]|] eqn:E2; [|done]. cbn [mbind option_bind].
  assert (all_threads (sg x2) = all_threads (sg x1)) as <- by (unfold take_files in E2; destruct (has_flag _ _); [destruct (p_files _)|destruct (fa_files a)]; by simplify_eq/=).
  destruct (negb ok2); [by intros [= <- _]|]. unfold take_table. destruct (_ =? 0); [done|]. destruct (has_flag _ _); [by intros [= <- _]|]. destruct (fa_table a); by intros [= <- _].
Qed.
Lemma fork_fail_threads x p t : all_threads (sg (thread_put (fork_fail x p) t)) = list_del t (all_threads (sg x)).
Proof. unfold thread_put, fork_fail. cbn. rewrite process_put_sg. by repeat case_match. Qed.

(** A new process [p] with the thread [t], a child of [par]. *)
Record process_new (s s' : psys) (p par t id : Z) : Prop := {
  pn_all : procs s' = procs s ++ [p] ∧ init_process (sg s') = init_process (sg s);
  pn_prc q : q ≠ p → proc_of s' q = proc_of s q;
  pn_new : pid (proc_of s' p) = id ∧ threads (proc_of s' p) = [t] ∧ p_state (proc_of s' p) = PROC_ALIVE ∧ parent (proc_of s' p) = Some par ∧ sighand (proc_of s' p) ≠ 0;
  pn_node q : q ≠ p → node s' q = if decide (q = par) then set_children (children (node s q) ++ [p]) (node s q) else node s q;
  pn_fresh : refcount (node s' p) = 2 ∧ children (node s' p) = [] ∧ is_Some (p_mm (node s' p)) ∧ is_Some (p_files (node s' p));
  pn_keep u : is_Some (proc (thr (sg s) u)) → u ≠ t → thr (sg s') u = thr (sg s) u;
  pn_proc u : proc (thr (sg s') u) = if decide (u = t) then Some p else proc (thr (sg s) u);
  pn_live q : live s' q = if decide (q = p) then true else live s q;
  pn_mm m : mm_ref s' m = mm_ref s m + if has_mm s' m p then 1 else 0;
  pn_fd f : fd_ref s' f = fd_ref s f + if has_files s' f p then 1 else 0;
  pn_sh h : h ≠ 0 → sh_ref s' h = sh_ref s h + if has_table s' h p then 1 else 0;
}.

Lemma elem_of_snoc (x y : Z) l : x ∈ l ++ [y] ↔ x ∈ l ∨ x = y.
Proof. by rewrite elem_of_app, list_elem_of_singleton. Qed.

Lemma process_new_ok s s' p par t id :
  tree_ok s → process_new s s' p par t id → p ∉ procs s → par ∈ procs s → threads (proc_of s par) ≠ [] → proc (thr (sg s) t) = None → (∀ q, q ∈ procs s → pid (proc_of s q) ≠ id) → tree_ok s'.
Proof.
  intros [H1 H2 H3 H4 H5 H6 H7 H8 H9 H10 H11 H12 H13 H14 H15 H16 H17] [[E1 E2] E3 (N1 & N2 & N3 & N4 & N5) E4 (N6 & N7 & N8 & N9) _ E5 E6 E7 E8 E9] Hp Hpar Hpt Ht Hid.
  assert (∀ q, q ∈ procs s → q ≠ p) as Hne by (intros q Hq ->; done).
  assert (∀ q, q ≠ p → refcount (node s' q) = refcount (node s q) ∧ p_mm (node s' q) = p_mm (node s q) ∧ p_files (node s' q) = p_files (node s q)) as Hn by (intros q Hq; rewrite E4 by done; by case_decide).
  assert (∀ q, parent (proc_of s q) ≠ Some p ∨ q ∉ procs s) as Hnop.
  { intros q. destruct (decide (q ∈ procs s)) as [Hq|]; [left|by right]. intros E. destruct (decide (q = init_process (sg s))) as [->|Hqi]; [destruct H9 as (_ & E' & _); congruence|]. destruct (H10 q Hq Hqi) as (r & Er & Hr & _). assert (r = p) as -> by congruence. done. }
  split; rewrite ?E1, ?E2.
  - apply NoDup_app. split; [done|]. split; [|apply NoDup_singleton]. intros x Hx ->%list_elem_of_singleton. done.
  - intros x y. rewrite !elem_of_snoc. intros [Hx| ->] [Hy| ->]; [rewrite !E3 by auto; auto|rewrite E3, N1 by auto; intros E|rewrite N1, E3 by auto; intros E|done]; exfalso; [by eapply Hid|symmetry in E; by eapply Hid].
  - intros q. rewrite elem_of_snoc, E6, <-H3. case_decide; naive_solver.
  - intros q. rewrite elem_of_snoc. intros [Hq| ->]; [|by rewrite N2, N6]. rewrite E3 by auto. destruct (Hn q) as (-> & _); [auto|]. by apply H4.
  - intros q u. rewrite elem_of_snoc, E5. intros [Hq| ->].
    + rewrite E3, H5 by auto. case_decide as D; [subst u; rewrite Ht|done]. split; [done|]. intros [= ->]. done.
    + rewrite N2, list_elem_of_singleton. case_decide as D; [done|]. split; [done|]. intros Hu. apply H6 in Hu. done.
  - intros u q. rewrite E5, elem_of_snoc. case_decide; [intros [= ->]; by right|]. intros Hu. left. by eapply H6.
  - intros q. rewrite elem_of_snoc. intros [Hq| ->]; [rewrite E3 by auto; by apply H7|rewrite N2; apply NoDup_singleton].
  - intros q. rewrite elem_of_snoc. intros [Hq| ->]; [rewrite E3 by auto; destruct (Hn q) as (_ & -> & ->); [auto|by apply H8]|]. by rewrite N2, bool_decide_false by done.
  - destruct H9 as (A & B). rewrite E3 by auto. rewrite elem_of_snoc. auto.
  - intros c. rewrite elem_of_snoc. intros [Hc| ->] Hi.
    + destruct (H10 c Hc Hi) as (q & A & B & C & D). exists q. rewrite !E3, elem_of_snoc by auto. auto.
    + exists par. rewrite N4, E3, elem_of_snoc by auto. auto.
  - intros q c. rewrite !elem_of_snoc. intros [Hq| ->].
    + rewrite E4 by auto. destruct (decide (c = p)) as [->|Hcp].
      * rewrite N4. case_decide as D; [subst q; cbn; rewrite elem_of_snoc; naive_solver|]. rewrite H11 by done. split; [naive_solver|]. intros [_ [= ?]]. congruence.
      * rewrite E3 by done. case_decide; cbn; rewrite ?elem_of_snoc, H11 by done; naive_solver.
    + rewrite N7. split; [by intros ?%not_elem_of_nil|]. intros [[Hc| ->] E]; [rewrite E3 in E by auto; destruct (Hnop c); done|]. rewrite N4 in E. injection E as ->. done.
  - intros q. rewrite elem_of_snoc. intros [Hq| ->]; [|rewrite N7; constructor]. rewrite E4 by auto. case_decide as D; [|by apply H12]. cbn. apply NoDup_app. split; [by apply H12|]. split; [|apply NoDup_singleton].
    intros x Hx ->%list_elem_of_singleton. apply H11 in Hx as [? _]; done.
  - intros q. rewrite elem_of_snoc. intros [Hq| ->]; [rewrite E3 by auto; by apply H13|done].
  - intros h Hh. rewrite E9, (H14 h Hh), cnt_app, cnt_cons by done. rewrite (cnt_ext (has_table s' h) (has_table s h)) by (intros x Hx; unfold has_table; by rewrite E3 by auto). unfold cnt at 3. cbn. lia.
  - intros m. rewrite E7, (H15 m), cnt_app, cnt_cons. rewrite (cnt_ext (has_mm s' m) (has_mm s m)) by (intros x Hx; unfold has_mm; by destruct (Hn x) as (_ & -> & _); [auto|]). unfold cnt at 3. cbn. lia.
  - intros f. rewrite E8, (H16 f), cnt_app, cnt_cons. rewrite (cnt_ext (has_files s' f) (has_files s f)) by (intros x Hx; unfold has_files; by destruct (Hn x) as (_ & _ & ->); [auto|]). unfold cnt at 3. cbn. lia.
  - assert (tree_ok s) as Hts by (by split). assert (∀ q, q ∈ procs s → rooted (parent_of s') (init_process (sg s)) q) as Hin.
    { intros q Hq. apply (rooted_within s); [done..|]. intros x Hx. unfold parent_of. by rewrite E3 by auto. }
    intros q. rewrite elem_of_snoc. intros [Hq| ->]; [by apply Hin|]. eapply rooted_child; [exact N4|by apply Hin].
Qed.

(** The parent of the new process. *)
Definition fork_parent (s : psys) (pp flags : Z) : Z :=
  match parent (proc_of s pp) with Some gp => if has_flag flags CLONE_PARENT then gp else pp | None => pp end.

Lemma fork_parent_ok s pp flags : tree_ok s → pp ∈ procs s → threads (proc_of s pp) ≠ [] → fork_parent s pp flags ∈ procs s ∧ threads (proc_of s (fork_parent s pp flags)) ≠ [].
Proof.
  intros Ht Hp Hth. unfold fork_parent. destruct (parent (proc_of s pp)) as [gp|] eqn:E; [|done]. destruct (has_flag _ _); [|done].
  destruct (decide (pp = init_process (sg s))) as [->|Hi]; [destruct (tr_init _ Ht) as (_ & E' & _); congruence|]. destruct (tr_parent _ Ht pp Hp Hi) as (q & A & B & C & _). assert (q = gp) as -> by congruence. done.
Qed.

Lemma link_new s x p pp flags t id om ofl h :
  building s x p id om ofl h → is_Some om → is_Some ofl → h ≠ 0 → pp ≠ p → fork_parent s pp flags ≠ p → process_new s (link_process x p pp flags t) p (fork_parent s pp flags) t id.
Proof.
  intros [[B1 B1'] B2 (B3 & B3' & B3'' & B3''') B4 (B5 & B5' & B5'' & B5''') B6 Bk B7 B8 B9 B10] Hm Hf Hh Hpp Hpar. unfold link_process. change (prc (sg x) pp) with (proc_of x pp). rewrite (B2 pp Hpp). fold (fork_parent s pp flags).
  set (par := fork_parent s pp flags) in *. cbn zeta. set (y := set_sg _ _).
  assert (∀ q, proc_of y q = if decide (q = p) then set_threads [t] (set_parent (Some par) (proc_of x p)) else proc_of s q) as Hprc.
  { intros q. unfold y, proc_of. cbn. case_decide as D; [subst q; fsolve|]. - f_equal. change (prc (sg x) p) with (proc_of x p). by rewrite B3'. - fsolve. by apply B2. }
  assert (∀ q, node y q = if decide (q = p) then set_refs 2 (set_code (Z.land flags 0xff) (node x p)) else if decide (q = par) then set_children (children (node s q) ++ [p]) (node s q) else node s q) as Hnode.
  { intros q. unfold y. cbn. case_decide as D; [subst q; fsolve; by rewrite B5|]. case_decide as D'; [subst q; fsolve; by rewrite B4|]. fsolve. by apply B4. }
  split.
  - split; [|done]. unfold procs in *. by rewrite <-B1.
  - intros q Hq. rewrite Hprc. by rewrite decide_False.
  - rewrite Hprc, decide_True by done. split_and!; [done..|]. cbn. by rewrite B3'''.
  - intros q Hq. rewrite Hnode. by rewrite decide_False.
  - rewrite Hnode, decide_True by done. cbn. rewrite B5', B5'', B5'''. done.
  - intros u Hu Hut. unfold y. cbn. fsolve. by apply Bk.
  - intros u. unfold y. cbn. case_decide as D; [subst u; fsolve|]. fsolve.
  - intros q. exact (B7 q).
  - intros m. unfold has_mm. rewrite Hnode, decide_True by done. cbn [p_mm set_refs set_code]. rewrite B5''. exact (B8 m).
  - intros m. unfold has_files. rewrite Hnode, decide_True by done. cbn [p_files set_refs set_code]. rewrite B5'''. exact (B9 m).
  - intros k Hk. unfold has_table. rewrite Hprc, decide_True by done. cbn [sighand set_threads set_parent]. rewrite B3'''. by apply B10.
Qed.

Lemma link_inv x p pp flags t : sig_inv (sg x) → sig_inv (sg (link_process x p pp flags t)).
Proof.
  intros Hs. unfold link_process. set (par := match parent _ with Some gp => _ | None => _ end). cbn.
  assert (sig_inv (upd_prc (upd_thr (upd_prc (sg x) p (set_parent (Some par))) t (set_proc (Some p))) p (λ q, set_threads (threads q ++ [t]) q))) as [H1 H2 H3]; [|by split].
  apply inv_prc; [|by intros []]. apply inv_thr; [|by intros []]. apply inv_prc; [done|by intros []].
Qed.

(** A new thread [t] in process [p]. *)
Record thread_new (s s' : psys) (p t : Z) : Prop := {
  tn_all : procs s' = procs s ∧ init_process (sg s') = init_process (sg s);
  tn_prc q : proc_of s' q = if decide (q = p) then set_threads (threads (proc_of s q) ++ [t]) (proc_of s q) else proc_of s q;
  tn_node q : node s' q = if decide (q = p) then set_refs (refcount (node s q) + 1) (node s q) else node s q;
  tn_keep u : u ≠ t → thr (sg s') u = thr (sg s) u;
  tn_proc u : proc (thr (sg s') u) = if decide (u = t) then Some p else proc (thr (sg s) u);
  tn_counts : live s' = live s ∧ sh_ref s' = sh_ref s ∧ mm_ref s' = mm_ref s ∧ fd_ref s' = fd_ref s;
}.

Lemma thread_new_ok s s' p t :
  tree_ok s → thread_new s s' p t → p ∈ procs s → threads (proc_of s p) ≠ [] → proc (thr (sg s) t) = None → tree_ok s'.
Proof.
  intros [H1 H2 H3 H4 H5 H6 H7 H8 H9 H10 H11 H12 H13 H14 H15 H16 H17] [[E1 E2] E3 E4 _ E5 (E6 & E7 & E8 & E9)] Hp Hth Ht.
  assert (∀ q, pid (proc_of s' q) = pid (proc_of s q) ∧ parent (proc_of s' q) = parent (proc_of s q) ∧ sighand (proc_of s' q) = sighand (proc_of s q) ∧ p_state (proc_of s' q) = p_state (proc_of s q)) as Ep by (intros q; rewrite E3; by case_decide).
  assert (∀ q, children (node s' q) = children (node s q) ∧ p_mm (node s' q) = p_mm (node s q) ∧ p_files (node s' q) = p_files (node s q)) as En by (intros q; rewrite E4; by case_decide).
  assert (∀ q, threads (proc_of s q) ≠ [] ↔ threads (proc_of s' q) ≠ []) as Hne. { intros q. rewrite E3. case_decide as D; [subst q; cbn|done]. split; [|done]. intros _. by destruct (threads (proc_of s p)). }
  split; rewrite ?E1, ?E2, ?E6, ?E7, ?E8, ?E9; try done.
  - intros x y. destruct (Ep x) as (-> & _), (Ep y) as (-> & _). apply H2.
  - intros q Hq. rewrite E3, E4. case_decide; [|by apply H4]. cbn. rewrite H4, length_app by done. cbn. lia.
  - intros q u Hq. rewrite E3, E5. case_decide as D; cbn.
    + subst q. rewrite elem_of_snoc, H5 by done. case_decide; naive_solver.
    + rewrite H5 by done. case_decide as D'; [subst u; rewrite Ht; naive_solver|done].
  - intros u q. rewrite E5. case_decide; [intros [= <-]; done|apply H6].
  - intros q Hq. rewrite E3. case_decide as D; [subst q; cbn|by apply H7]. apply NoDup_app. split; [by apply H7|]. split; [|apply NoDup_singleton]. intros x Hx ->%list_elem_of_singleton. apply H5 in Hx; congruence.
  - intros q Hq. specialize (H8 q Hq). destruct (Ep q) as (_ & _ & _ & ->), (En q) as (_ & -> & ->). specialize (Hne q). destruct (bool_decide_reflect (threads (proc_of s q) = [])), (bool_decide_reflect (threads (proc_of s' q) = [])); naive_solver.
  - destruct H9 as (A & B & C). destruct (Ep (init_process (sg s))) as (_ & -> & _). split; [done|]. split; [done|]. by apply Hne.
  - intros c Hc Hi. destruct (H10 c Hc Hi) as (q & A & B & C & D). exists q. destruct (Ep c) as (_ & -> & _). split_and!; [done|done|by apply Hne|done].
  - intros q c Hq. destruct (En q) as (-> & _), (Ep c) as (_ & -> & _). by apply H11.
  - intros q Hq. destruct (En q) as (-> & _). by apply H12.
  - intros q Hq. destruct (Ep q) as (_ & _ & -> & _). by apply H13.
  - intros h Hh. rewrite (H14 h Hh). apply cnt_ext. intros x _. unfold has_table. by destruct (Ep x) as (_ & _ & -> & _).
  - intros m. rewrite (H15 m). apply cnt_ext. intros x _. unfold has_mm. by destruct (En x) as (_ & -> & _).
  - intros m. rewrite (H16 m). apply cnt_ext. intros x _. unfold has_files. by destruct (En x) as (_ & _ & ->).
  - intros q Hq. apply (rooted_ext (parent_of s)); [|by apply H17]. intros x. apply (Ep x).
Qed.

(** The new thread runs with the registers of its creator, 0 as the result of
    the call and the stack it was given, and with its creator's signal mask and
    floating-point state. *)
Record started (c x : thread) (newsp : Z) : Prop := {
  sd_state : state x = TASK_RUNNING;
  sd_blocked : sig_blocked x = sig_blocked c ∧ fpsimd x = fpsimd c;
  sd_regs k : regs (user_regs x) k = if decide (k = 0) then 0 else regs (user_regs c) k;
  sd_pc : r_pc (user_regs x) = r_pc (user_regs c) ∧ r_pstate (user_regs x) = r_pstate (user_regs c);
  sd_sp : r_sp (user_regs x) = if newsp =? 0 then r_sp (user_regs c) else newsp;
}.

(** After a vfork the creator sleeps, not to be interrupted, on the completion of
    the new process; else it goes on as it was. *)
Definition creator_after (s s' : psys) (cur p flags : Z) : Prop :=
  if has_flag flags CLONE_VFORK then thr (sg s') cur = set_state TASK_UNINTERRUPTIBLE (thr (sg s) cur) ∧ vfork_done (node s' p) = Some cur
  else thr (sg s') cur = thr (sg s) cur.

Lemma fork_finish_ok s cur p t id flags newsp :
  sig_inv (sg s) → t ≠ cur → let '(s', r) := fork_finish s cur p t id flags newsp in
  sig_inv (sg s') ∧ same_tree s s' ∧ r = (if has_flag flags CLONE_VFORK then ForkWaits id else Forked id) ∧ started (thr (sg s) cur) (thr (sg s') t) newsp ∧
  all_threads (sg s') = all_threads (sg s) ∧ creator_after s s' cur p flags.
Proof.
  intros Hs Hne. unfold fork_finish, creator_after. cbn zeta. set (x := start_thread s t cur newsp). assert (sig_inv (sg x) ∧ same_tree s x ∧ started (thr (sg s) cur) (thr (sg x) t) newsp ∧ all_threads (sg x) = all_threads (sg s) ∧ thr (sg x) cur = thr (sg s) cur) as (Hx & Hsame & Hsd & Hal & Hcu).
  { split; [|split; [|split; [|split; [done|unfold x, start_thread; cbn; fsolve]]]].
    - unfold x, start_thread. cbn. apply inv_thr; [done|]. intros [H1 H2 H3 H4]. destruct (si_thr _ Hs cur). by split.
    - unfold x, start_thread. split; try done. intros u. cbn. destruct (decide (t = u)) as [->|]; fsolve.
    - unfold x, start_thread. cbn. rewrite fn_lookup_insert. split; try done. intros k. cbn. case_decide; [subst k; fsolve|fsolve]. }
  clearbody x. destruct (has_flag _ _); [|done]. split; [by apply set_state_inv|]. split; [|split; [done|split; [cbn; by rewrite fn_lookup_insert_ne|split; [done|cbn; rewrite !fn_lookup_insert, Hcu; done]]]]. etrans; [exact Hsame|]. split; try done.
  - intros q. cbn. destruct (decide (p = q)) as [->|]; fsolve.
  - intros u. cbn. destruct (decide (cur = u)) as [->|]; fsolve.
Qed.

(** Combinations of flags that are refused. *)
Definition fork_bad (flags : Z) : bool :=
  (has_flag flags CLONE_THREAD && negb (has_flag flags CLONE_SIGHAND)) || (has_flag flags CLONE_SIGHAND && negb (has_flag flags CLONE_VM)) || has_flag flags (Z.lor CLONE_NEWNS CLONE_PIDFD).

Definition fork_post (s : psys) (cur pp flags newsp : Z) (a : fork_alloc) (s' : psys) (r : fork_result) : Prop :=
  if fork_bad flags then s' = s ∧ r = ForkFailed (- EINVAL)
  else
    match fa_thread a with
    | None => s' = s ∧ r = ForkFailed (- EAGAIN)
    | Some (t, id) =>
        if has_flag flags CLONE_THREAD || bool_decide (is_Some (fa_proc a)) && fork_room flags a then
          r = (if has_flag flags CLONE_VFORK then ForkWaits id else Forked id) ∧ started (thr (sg s) cur) (thr (sg s') t) newsp ∧
          all_threads (sg s') = all_threads (sg s) ++ [t] ∧
          ∃ p, creator_after s s' cur p flags ∧
            ∃ z, same_tree z s' ∧ if has_flag flags CLONE_THREAD then p = pp ∧ thread_new s z pp t else fa_proc a = Some p ∧ process_new s z p (fork_parent s pp flags) t id
        else same_in s s' ∧ all_threads (sg s') = all_threads (sg s) ∧ r = ForkFailed (- ENOMEM)
    end.

Lemma list_del_self t : list_del t [t] = [].
Proof. unfold list_del. cbn. by rewrite Z.eqb_refl. Qed.
Lemma thread_alloc_same s t id : proc (thr (sg s) t) = None → same_in s (thread_put (thread_alloc s t id) t).
Proof.
  intros Ht. split; try done; intros u; cbn; [destruct (decide (t = u)) as [->|]; fsolve|]. intros Hu. destruct (decide (t = u)) as [->|]; [|fsolve]. rewrite Ht in Hu. by destruct Hu.
Qed.
Lemma thread_alloc_inv s t id : sig_inv (sg s) → sig_inv (sg (thread_alloc s t id)).
Proof.
  intros Hs. destruct (inv_thr (sg s) t (λ _, zero_thread id) Hs) as [H1 H2 H3]; [|by split]. assert (u64_ok 0) as Hu by (by vm_compute). intros _. by split.
Qed.

Lemma clone_new s pp t id : thread_new s (attach_thread (process_get (thread_alloc s t id) pp) pp t) pp t.
Proof.
  split; try done.
  - intros q. unfold proc_of. cbn. case_decide as D; [subst q; fsolve|fsolve].
  - intros q. cbn. case_decide as D; [subst q; fsolve|fsolve].
  - intros u Hu. cbn. fsolve.
  - intros u. cbn. case_decide as D; [subst u; fsolve|fsolve].
Qed.
Lemma clone_inv s pp t id : sig_inv (sg s) → sig_inv (sg (attach_thread (process_get (thread_alloc s t id) pp) pp t)).
Proof. intros Hs. pose proof (thread_alloc_inv s t id Hs) as H. unfold attach_thread. cbn -[thread_alloc]. apply inv_prc; [|by intros []]. apply inv_thr; [done|by intros []]. Qed.

Lemma do_fork_spec s cur pp flags newsp a :
  sig_inv (sg s) → tree_ok s → proc (thr (sg s) cur) = Some pp → fork_fresh s a →
  ∃ s' r, do_fork s cur pp flags newsp a = Some (s', r) ∧ sig_inv (sg s') ∧ tree_ok s' ∧ fork_post s cur pp flags newsp a s' r.
Proof.
  intros Hs Ht Hcur Hf. assert (pp ∈ procs s) as Hpp by (by eapply tr_proc). assert (threads (proc_of s pp) ≠ []) as Hth by (apply (tr_threads _ Ht) in Hcur; [|done]; by destruct (threads (proc_of s pp)); [apply not_elem_of_nil in Hcur|]).
  unfold do_fork, fork_post, fork_bad. destruct (_ && _); cbn [orb]; [by eexists _, _|]. destruct (_ && _); cbn [orb]; [by eexists _, _|]. destruct (has_flag flags (Z.lor _ _)); [by eexists _, _|].
  destruct (fa_thread a) as [[t id]|] eqn:Ea; [|by eexists _, _]. destruct (ff_thread _ _ Hf t id Ea) as (Htn & Htl & Hid). cbn zeta. assert (t ≠ cur) as Htc by congruence.
  assert (∀ x p, sig_inv (sg x) → tree_ok x → thr (sg x) cur = thr (sg s) cur → all_threads (sg x) = all_threads (sg s) ++ [t] →
    (if has_flag flags CLONE_THREAD then p = pp ∧ thread_new s x pp t else fa_proc a = Some p ∧ process_new s x p (fork_parent s pp flags) t id) →
    ∃ s' r, Some (fork_finish x cur p t id flags newsp) = Some (s', r) ∧ sig_inv (sg s') ∧ tree_ok s' ∧ r = (if has_flag flags CLONE_VFORK then ForkWaits id else Forked id) ∧ started (thr (sg s) cur) (thr (sg s') t) newsp ∧
      all_threads (sg s') = all_threads (sg s) ++ [t] ∧ ∃ p, creator_after s s' cur p flags ∧
      ∃ z, same_tree z s' ∧ if has_flag flags CLONE_THREAD then p = pp ∧ thread_new s z pp t else fa_proc a = Some p ∧ process_new s z p (fork_parent s pp flags) t id) as Hfin.
  { intros x p Hx Htx Ex El Hpost. pose proof (fork_finish_ok x cur p t id flags newsp Hx Htc) as H. destruct (fork_finish _ _ _ _ _ _ _) as [s' r]. destruct H as (H1 & H2 & -> & H3 & H4 & H5). rewrite Ex in H3. eexists _, _. split; [reflexivity|]. split; [done|].
    split; [by eapply same_tree_ok|]. split; [done|]. split; [done|]. split; [by rewrite H4|]. exists p. split; [|by exists x]. unfold creator_after in *. by rewrite <-Ex. }
  destruct (has_flag flags CLONE_THREAD) eqn:Ec; cbn [orb].
  { pose proof (clone_new s pp t id) as Hn. apply Hfin; [by apply clone_inv| |by apply (tn_keep _ _ _ _ Hn)|done|done]. eapply thread_new_ok; [exact Ht|exact Hn|done..]. }
  destruct (fa_proc a) as [p|] eqn:Ep; cbn [andb].
  2: { eexists _, _. split; [reflexivity|]. pose proof (thread_alloc_same s t id Htn) as Hsame. split; [destruct (thread_alloc_inv s t id Hs); by split|]. split; [by eapply same_in_ok|]. split; [done|].
       split; [|done]. cbn -[list_del]. by rewrite list_del_app, list_del_id, list_del_self, app_nil_r. }
  pose proof (ff_proc _ _ Hf p Ep) as Hl. assert (p ∉ procs s) as Hp by (rewrite <-(tr_live _ Ht); congruence). assert (pp ≠ p) as Hne by congruence.
  pose proof (tr_zombie _ Ht pp Hpp) as Hz. rewrite bool_decide_false in Hz by done. destruct Hz as (_ & Hm & Hfl).
  destruct (fork_objects_ok s (inherit (process_alloc (thread_alloc s t id) p) p pp id) p id pp flags a) as (x & ok & om & ofl & h & Eo & <- & Hx & Hb & Hok); [by apply building_inv|by apply building_start|done|done|done|by apply (tr_table _ Ht)|done|].
  pose proof (fork_objects_threads _ _ _ _ _ _ _ Eo) as El. change (all_threads (sg x) = all_threads (sg s) ++ [t]) in El.
  rewrite Eo, (bool_decide_true (is_Some (Some p))) by done. cbn [mbind option_bind]. destruct ok; cbn [negb andb].
  - destruct Hok as (Hom & Hofl & Hh). destruct (fork_parent_ok s pp flags Ht Hpp Hth) as [F1 F2]. assert (process_new s (link_process x p pp flags t) p (fork_parent s pp flags) t id) as Hnew by (eapply link_new; [exact Hb|done..|congruence]).
    apply Hfin; [by apply link_inv|by eapply process_new_ok| |exact El|done]. apply (pn_keep _ _ _ _ _ _ Hnew); [by exists pp|congruence].
  - subst h. pose proof (fork_fail_same s x p t id om ofl Hb Hp Hl) as Hsame. eexists _, _. split; [reflexivity|]. split; [|split; [by eapply same_in_ok|split; [done|split; [|done]]]].
    + assert (sg (fork_fail x p) = sg x) as E by (unfold fork_fail; rewrite process_put_sg; by repeat case_match). unfold thread_put. cbn. rewrite E. destruct Hx. by split.
    + rewrite fork_fail_threads, El. by rewrite list_del_app, list_del_id, list_del_self, app_nil_r.
Qed.

(** ** Wait *)

(** What [do_wait4] does with the child it reports. *)
Definition wait_report (s : psys) (self c options : Z) (u : wait_user) : psys * (Z * option Z) :=
  let k := pid (proc_of s c) in
  let answer s' st := match put_status u st with None => (s', (- EFAULT, None)) | Some x => (s', (k, x)) end in
  if p_state (proc_of s c) =? PROC_ZOMBIE then
    match put_status u (codes s c) with
    | None => (s, (- EFAULT, None))
    | Some x => if negb (wu_usage_ok u) then (s, (- EFAULT, x)) else (if has_flag options WNOWAIT then s else reap s self c, (k, x))
    end
  else if wants_stop s c options then
    answer (upd_process s c (λ q, set_stop (group_stop q) true (cont_reported q) (stop_sig q) q)) (Z.lor (Z.shiftl (stop_sig (proc_of s c)) 8) 0x7f)
  else answer (upd_process s c (λ q, set_stop (group_stop q) (stop_reported q) true (stop_sig q) q)) 0xffff.

(** The scan reports the first child that is due. *)
Lemma wait_scan_find s self l pid_ options u any :
  wait_scan s self l pid_ options u any =
  match List.find (wait_due s self pid_ options) l with
  | Some c => let '(s', x) := wait_report s self c options u in (s', inr x)
  | None => (s, inl (any || existsb (λ c, wait_match s self c pid_) l))
  end.
Proof.
  revert any. induction l as [|c l IH]; intros any; cbn [wait_scan List.find existsb]; [by rewrite orb_false_r|]. unfold wait_due at 1. destruct (wait_match s self c pid_) eqn:Em; cbn [negb andb orb]; [|by rewrite IH].
  destruct (p_state (prc (sg s) c) =? PROC_ZOMBIE) eqn:Ez; cbn [orb].
  { unfold wait_report, codes, proc_of. cbn zeta. rewrite Ez. destruct (put_status u _); [|done]. destruct (wu_usage_ok u); [|done]. cbn. by destruct (has_flag _ _). }
  destruct (wants_stop s c options) eqn:Es; cbn [orb]; [unfold wait_report, proc_of; cbn zeta; rewrite Ez, Es; by destruct (put_status u _)|].
  destruct (wants_cont s c options); [unfold wait_report, proc_of; cbn zeta; rewrite Ez, Es; by destruct (put_status u _)|]. rewrite IH, orb_true_r. by destruct (List.find _ l).
Qed.

Lemma find_due_none s self pid_ options l : List.find (wait_due s self pid_ options) l = None → existsb (wait_due s self pid_ options) l = false.
Proof. intros H. destruct (existsb _ l) eqn:E; [|done]. apply existsb_exists in E as (c & Hc & Hd). by rewrite (find_none _ _ H c Hc) in Hd. Qed.

(** Only the states of threads and the queue change in a wait. *)
Record idle (s s' : psys) (t : Z) : Prop := {
  id_prc : prc (sg s') = prc (sg s) ∧ action (sg s') = action (sg s) ∧ all_processes (sg s') = all_processes (sg s) ∧ init_process (sg s') = init_process (sg s);
  id_node : node s' = node s;
  id_refs : live s' = live s ∧ sh_ref s' = sh_ref s ∧ mm_ref s' = mm_ref s ∧ fd_ref s' = fd_ref s;
  id_thr : ∃ f, (∀ u, thr (sg s') u = f u (thr (sg s) u)) ∧ ∀ u x, f u x = x ∨ u = t ∧ ∃ w, f u x = set_state w x;
}.

Lemma idle_same s s' t : idle s s' t → same_tree s s'.
Proof.
  intros [(E1 & E2 & E3 & E4) E5 E6 (f & Hf & Hw)]. split; try done; [intros p; unfold proc_of; by rewrite E1|intros p; by rewrite E5|].
  intros u. rewrite Hf. by destruct (Hw u (thr (sg s) u)) as [-> | (_ & w & ->)].
Qed.
Lemma idle_inv s s' t : idle s s' t → sig_inv (sg s) → sig_inv (sg s').
Proof.
  intros [(E1 & E2 & _) _ _ (f & Hf & Hw)] [H1 H2 H3]. split; [|by rewrite E1|by rewrite E2]. intros u. rewrite Hf. destruct (Hw u (thr (sg s) u)) as [-> | (_ & w & ->)]; [done|]. by destruct (H1 u).
Qed.

Lemma prepare_idle s t self : idle s (prepare_to_wait s t self) t.
Proof.
  unfold prepare_to_wait. destruct (bool_decide _); (split; [done..|]); exists (λ u x, if decide (u = t) then set_state TASK_INTERRUPTIBLE x else x);
    (split; [intros u; cbn; case_decide; [subst u; fsolve|fsolve]|intros u x; case_decide; eauto]).
Qed.
Lemma finish_idle s t self : idle s (finish_wait s t self) t.
Proof.
  unfold finish_wait. split; [done..|]. exists (λ u x, if decide (u = t) then set_state TASK_RUNNING x else x). split; [intros u; cbn; case_decide; [subst u; fsolve|fsolve]|intros u x; case_decide; eauto].
Qed.
Lemma idle_trans a b c t : idle a b t → idle b c t → idle a c t.
Proof.
  intros [(A1 & A2 & A3 & A4) A5 (A6 & A7 & A8 & A9) (f & Hf & Hw)] [(B1 & B2 & B3 & B4) B5 (B6 & B7 & B8 & B9) (g & Hg & Hv)]. split; [split_and!; congruence|congruence|split_and!; congruence|].
  exists (λ u x, g u (f u x)). split; [intros u; by rewrite Hg, Hf|]. intros u x. destruct (Hw u x) as [-> | (E & w & ->)]; [apply Hv|]. destruct (Hv u (set_state w x)) as [-> | (_ & v & ->)]; right; (split; [done|]); [by exists w|by exists v].
Qed.

Lemma idle_ready s s' t self pid_ options : idle s s' t → wait_ready s' self pid_ options = wait_ready s self pid_ options.
Proof. intros [(E1 & _) E2 _ _]. unfold wait_ready, wait_due, wait_match, wants_stop, wants_cont. by rewrite E1, E2. Qed.
Lemma idle_due s s' t self pid_ options c : idle s s' t → wait_due s' self pid_ options c = wait_due s self pid_ options c.
Proof. intros [(E1 & _) E2 _ _]. unfold wait_due, wait_match, wants_stop, wants_cont. by rewrite E1. Qed.
Lemma idle_pending s s' t : idle s s' t → signal_pending (sg s') t = signal_pending (sg s) t.
Proof.
  intros [(E1 & _) _ _ (f & Hf & Hw)]. unfold signal_pending. rewrite Hf, E1. by destruct (Hw t (thr (sg s) t)) as [-> | (_ & w & ->)].
Qed.

(** Whether [t] is in the queue of [self], and its state. *)
Definition waiting (s : psys) (t self : Z) : Prop := t ∈ child_wait (sg s) self ∧ state (thr (sg s) t) = TASK_INTERRUPTIBLE.
Definition not_waiting (s : psys) (t self : Z) : Prop := t ∉ child_wait (sg s) self ∧ state (thr (sg s) t) = TASK_RUNNING.

Lemma prepare_waiting s t self : waiting (prepare_to_wait s t self) t self.
Proof.
  unfold prepare_to_wait. destruct (bool_decide_reflect (t ∈ child_wait (sg s) self)); (split; [|cbn; fsolve]); [done|]. cbn. rewrite fn_lookup_insert. apply elem_of_snoc. by right.
Qed.
Lemma finish_not_waiting s t self : not_waiting (finish_wait s t self) t self.
Proof. unfold finish_wait. split; cbn -[list_del]; [|fsolve]. rewrite fn_lookup_insert, elem_of_list_del. by intros []. Qed.

Lemma wait_event_spec s t self pid_ options :
  let '(x, r) := wait_event s t self pid_ options in
  idle s x t ∧ r = (if wait_ready s self pid_ options then Some 0 else if signal_pending (sg s) t then Some (- ERESTARTSYS) else None) ∧ if r then not_waiting x t self else waiting x t self.
Proof.
  unfold wait_event. cbn zeta. pose proof (prepare_idle s t self) as H. pose proof (prepare_waiting s t self) as Hq. set (a := prepare_to_wait s t self) in *. clearbody a. rewrite (idle_ready _ _ _ _ _ _ H), (idle_pending _ _ _ H).
  pose proof (idle_trans _ _ _ _ H (finish_idle a t self)) as H'. destruct (wait_ready _ _ _ _); [split; [done|]; split; [done|apply finish_not_waiting]|]. destruct (signal_pending _ _); [split; [done|]; split; [done|apply finish_not_waiting]|done].
Qed.

(** One pass of the loop is the last when nothing is due or something is. *)
Definition loop_post (s : psys) (t self pid_ options : Z) (u : wait_user) (s' : psys) (r : wait_result) : Prop :=
  match List.find (wait_due s self pid_ options) (children (node s self)) with
  | Some c => let '(x, (k, st)) := wait_report s self c options u in s' = x ∧ r = Waited k st
  | None =>
      if negb (existsb (λ c, wait_match s self c pid_) (children (node s self))) then s' = s ∧ r = Waited (- ECHILD) None
      else if has_flag options WNOHANG then s' = s ∧ r = Waited 0 None
      else idle s s' t ∧ if signal_pending (sg s) t then r = Waited (- ERESTARTSYS) None ∧ not_waiting s' t self else r = WaitSleeps ∧ waiting s' t self
  end.

Lemma wait_loop_spec n s t self pid_ options u :
  let '(s', r) := wait_loop (S n) s t self pid_ options u in loop_post s t self pid_ options u s' r.
Proof.
  cbn [wait_loop]. rewrite wait_scan_find. unfold loop_post. destruct (List.find _ _) as [c|] eqn:Ef; [by destruct (wait_report _ _ _ _ _) as [x [k st]]|]. rewrite orb_false_l.
  destruct (existsb (λ c, wait_match s self c pid_) _) eqn:Ee; cbn [negb]; [|done]. destruct (has_flag _ _); [done|].
  assert (wait_ready s self pid_ options = false) as Hr. { unfold wait_ready. rewrite (find_due_none _ _ _ _ _ Ef). by destruct (children (node s self)). }
  pose proof (wait_event_spec s t self pid_ options) as H. destruct (wait_event _ _ _ _ _) as [x r]. rewrite Hr in H. destruct H as (H1 & -> & H2). by destruct (signal_pending _ _).
Qed.

(** The zombie [c] is gone, and its times are its parent's. *)
Record reaped (s s' : psys) (self c : Z) : Prop := {
  re_all : procs s' = list_del c (procs s) ∧ children (node s' self) = list_del c (children (node s self));
  re_prc q : proc_of s' q = proc_of s q;
  re_thr : thr (sg s') = thr (sg s);
  re_node q : q ≠ self → q ≠ c → node s' q = node s q;
  re_live q : live s' q = if decide (q = c) then false else live s q;
  re_times : cutime (node s' self) = cutime (node s self) ⊕ (utime (node s c) ⊕ cutime (node s c)) ∧
             cstime (node s' self) = cstime (node s self) ⊕ (stime (node s c) ⊕ cstime (node s c));
}.

Lemma zombie_child s self c :
  tree_ok s → self ∈ procs s → c ∈ children (node s self) → p_state (proc_of s c) = PROC_ZOMBIE →
  c ∈ procs s ∧ parent (proc_of s c) = Some self ∧ threads (proc_of s c) = [] ∧ refcount (node s c) = 1 ∧ c ≠ self.
Proof.
  intros Ht Hs Hc Hz. apply (tr_children _ Ht) in Hc as [Hc Hp]; [|done]. pose proof (tr_zombie _ Ht c Hc) as H. destruct (bool_decide_reflect (threads (proc_of s c) = [])) as [E|]; [|destruct H as (H & _); rewrite Hz in H; lia].
  split_and!; [done..| |].
  - rewrite (tr_refs _ Ht), E by done. done.
  - intros ->. destruct (decide (self = init_process (sg s))) as [->|Hi]; [destruct (tr_init _ Ht) as (_ & E' & _); congruence|]. destruct (tr_parent _ Ht self Hc Hi) as (q & A & _ & _ & D). congruence.
Qed.

Lemma reap_spec s self c :
  sig_inv (sg s) → tree_ok s → self ∈ procs s → c ∈ children (node s self) → p_state (proc_of s c) = PROC_ZOMBIE →
  sig_inv (sg (reap s self c)) ∧ tree_ok (reap s self c) ∧ reaped s (reap s self c) self c.
Proof.
  intros Hs Ht Hself Hc Hz. destruct (zombie_child s self c Ht Hself Hc Hz) as (Hcp & Hpar & Hth & Hr & Hne). unfold reap. set (x := upd_node s self _). cbn zeta.
  assert (same_tree s x) as Hsame. { split; try done. intros q. unfold x. cbn. destruct (decide (self = q)) as [->|]; fsolve. }
  split; [rewrite process_put_sg; destruct Hs; by split|]. split; [apply reap_ok; [by eapply same_tree_ok|done..]|].
  rewrite process_put_last; [|unfold x; cbn; fsolve; by rewrite Hr|exact (tr_table _ Ht c Hcp)]. split.
  - split; [done|]. unfold x. cbn. fsolve.
  - done.
  - done.
  - intros q Hq Hqc. unfold x. cbn. fsolve.
  - intros q. cbn. case_decide; [subst q; fsolve|fsolve].
  - unfold x. cbn. fsolve.
Qed.

(** What a wait that reports the child [c] has done. *)
Definition wait_post (s : psys) (self c options : Z) (u : wait_user) (s' : psys) (r : wait_result) : Prop :=
  let denied := wu_status u && negb (wu_status_ok u) in
  let answer x := if denied then Waited (- EFAULT) None else Waited (pid (proc_of s c)) (if wu_status u then Some x else None) in
  if p_state (proc_of s c) =? PROC_ZOMBIE then
    if denied || negb (wu_usage_ok u) then s' = s ∧ ∃ st, r = Waited (- EFAULT) st
    else r = answer (codes s c) ∧ if has_flag options WNOWAIT then s' = s else reaped s s' self c
  else
    same_tree s s' ∧
    if wants_stop s c options then r = answer (Z.lor (Z.shiftl (stop_sig (proc_of s c)) 8) 0x7f) ∧ wants_stop s' c options = false
    else r = answer 0xffff ∧ wants_cont s' c options = false.

Lemma set_stop_same s c f : (∀ q, ∃ a b d e, f q = set_stop a b d e q) → same_tree s (upd_process s c f).
Proof. intros H. split; try done. intros q. unfold proc_of. cbn. destruct (decide (c = q)) as [->|]; [|fsolve]. rewrite fn_lookup_insert. destruct (H (prc (sg s) q)) as (a & b & d & e & ->). done. Qed.

Lemma put_status_spec u x : put_status u x = if wu_status u && negb (wu_status_ok u) then None else Some (if wu_status u then Some x else None).
Proof. unfold put_status. by destruct (wu_status u), (wu_status_ok u). Qed.

Lemma report_ok s self c options u :
  sig_inv (sg s) → tree_ok s → self ∈ procs s → c ∈ children (node s self) →
  let '(s', (k, st)) := wait_report s self c options u in sig_inv (sg s') ∧ tree_ok s' ∧ wait_post s self c options u s' (Waited k st).
Proof.
  intros Hs Ht Hself Hc. unfold wait_report, wait_post. cbn zeta. rewrite !put_status_spec. destruct (p_state (proc_of s c) =? PROC_ZOMBIE) eqn:Ez.
  { apply Z.eqb_eq in Ez. destruct (wu_status u && _); cbn [orb]; [by eauto|]. destruct (wu_usage_ok u); cbn [negb]; [|by eauto]. destruct (has_flag _ _); [done|]. by destruct (reap_spec s self c Hs Ht Hself Hc Ez) as (H1 & H2 & H3). }
  destruct (wants_stop s c options) eqn:Es.
  - set (x := upd_process s c _). assert (sig_inv (sg x) ∧ same_tree s x) as [Hx Hsame] by (split; [by apply inv_prc|apply set_stop_same; eauto]).
    assert (wants_stop x c options = false) as Hw by (unfold wants_stop, x; cbn; fsolve; by rewrite andb_false_r). assert (tree_ok x) by (by eapply same_tree_ok). clearbody x. by destruct (wu_status u && _).
  - set (x := upd_process s c _). assert (sig_inv (sg x) ∧ same_tree s x) as [Hx Hsame] by (split; [by apply inv_prc|apply set_stop_same; eauto]).
    assert (wants_cont x c options = false) as Hw by (unfold wants_cont, x; cbn; fsolve; by rewrite andb_false_r). assert (tree_ok x) by (by eapply same_tree_ok). clearbody x. by destruct (wu_status u && _).
Qed.

(** What a wait has done: it reports the first child that is due; without one
    it fails, returns at once or sleeps. *)
Definition wait4_post (s : psys) (t self pid_ options : Z) (u : wait_user) (s' : psys) (r : wait_result) : Prop :=
  match List.find (wait_due s self pid_ options) (children (node s self)) with
  | Some c => wait_post s self c options u s' r
  | None =>
      if negb (existsb (λ c, wait_match s self c pid_) (children (node s self))) then s' = s ∧ r = Waited (- ECHILD) None
      else if has_flag options WNOHANG then s' = s ∧ r = Waited 0 None
      else idle s s' t ∧ if signal_pending (sg s) t then r = Waited (- ERESTARTSYS) None ∧ not_waiting s' t self else r = WaitSleeps ∧ waiting s' t self
  end.

(** What a wait that runs again has done. *)
Definition resume_post (s : psys) (t self pid_ options : Z) (u : wait_user) (s' : psys) (r : wait_result) : Prop :=
  if wait_ready s self pid_ options
  then ∃ x, idle s x t ∧ not_waiting x t self ∧ wait4_post x t self pid_ options u s' r ∧ r ≠ WaitSleeps
  else idle s s' t ∧ if signal_pending (sg s) t then r = Waited (- ERESTARTSYS) None ∧ not_waiting s' t self else r = WaitSleeps ∧ waiting s' t self.

Lemma loop_ok n s t self pid_ options u :
  sig_inv (sg s) → tree_ok s → self ∈ procs s →
  let '(s', r) := wait_loop (S n) s t self pid_ options u in sig_inv (sg s') ∧ tree_ok s' ∧ wait4_post s t self pid_ options u s' r.
Proof.
  intros Hs Ht Hself. pose proof (wait_loop_spec n s t self pid_ options u) as H. destruct (wait_loop _ _ _ _ _ _ _) as [s' r]. unfold loop_post in H. unfold wait4_post. destruct (List.find _ _) as [c|] eqn:Ef.
  - apply find_some in Ef as [Hc%list_elem_of_In _]. pose proof (report_ok s self c options u Hs Ht Hself Hc) as Hr. destruct (wait_report _ _ _ _ _) as [x [k st]]. destruct H as [-> ->]. done.
  - destruct (negb _); [by destruct H as [-> ->]|]. destruct (has_flag _ _); [by destruct H as [-> ->]|]. destruct H as [H1 H2]. split; [by eapply idle_inv|]. split; [by eapply same_tree_ok; [eapply idle_same|]|done].
Qed.

Lemma ready_answers s t self pid_ options u s' r : wait_ready s self pid_ options = true → wait4_post s t self pid_ options u s' r → r ≠ WaitSleeps.
Proof.
  unfold wait_ready, wait4_post. intros [Hd|He%bool_decide_eq_true]%orb_true_iff.
  - destruct (List.find _ _) as [c|] eqn:Ef; [|by rewrite (find_due_none _ _ _ _ _ Ef) in Hd]. unfold wait_post. cbn zeta. intros H ->. revert H. repeat case_match; naive_solver.
  - rewrite He. cbn. by intros [_ ->].
Qed.

Lemma do_wait4_ok s t self pid_ options u :
  sig_inv (sg s) → tree_ok s → self ∈ procs s →
  let '(s', r) := do_wait4 s t self pid_ options u in
  sig_inv (sg s') ∧ tree_ok s' ∧ if Z.ldiff options WAIT_OPTIONS =? 0 then wait4_post s t self pid_ options u s' r else s' = s ∧ r = Waited (- EINVAL) None.
Proof. intros Hs Ht Hself. unfold do_wait4. destruct (_ =? 0); cbn [negb]; [|done]. by apply (loop_ok 1). Qed.

Lemma wait_resume_ok s t self pid_ options u :
  sig_inv (sg s) → tree_ok s → self ∈ procs s →
  let '(s', r) := wait_resume s t self pid_ options u in sig_inv (sg s') ∧ tree_ok s' ∧ resume_post s t self pid_ options u s' r.
Proof.
  intros Hs Ht Hself. unfold wait_resume, resume_post. pose proof (wait_event_spec s t self pid_ options) as H. destruct (wait_event _ _ _ _ _) as [x r0]. destruct H as (H1 & -> & H2).
  pose proof (idle_inv _ _ _ H1 Hs) as Hx. pose proof (idle_same _ _ _ H1) as Hsame. pose proof (same_tree_ok _ _ Hsame Ht) as Htx. destruct (wait_ready s self pid_ options) eqn:Er.
  - change (0 =? 0) with true. cbn iota. pose proof (loop_ok 1 x t self pid_ options u Hx Htx) as H. change (S 1) with WAIT_PASSES in H. destruct (wait_loop _ _ _ _ _ _ _) as [s' r]. rewrite (st_all _ _ Hsame) in H. destruct (H Hself) as (H3 & H4 & H5).
    split; [done|]. split; [done|]. exists x. split_and!; [done..|]. eapply ready_answers; [|exact H5]. by rewrite (idle_ready _ _ _ _ _ _ H1).
  - by destruct (signal_pending _ _).
Qed.

(** ** The theorems *)

(** What runs: calls of processes, and signals from anywhere. *)
Inductive proc_step : psys → psys → Prop :=
| step_fork s cur pp flags newsp a s' r :
    proc (thr (sg s) cur) = Some pp → fork_fresh s a → do_fork s cur pp flags newsp a = Some (s', r) → proc_step s s'
| step_exit s t code s' : do_exit s t code = Some (Ok s') → proc_step s s'
| step_group_exit s t p code s' : proc (thr (sg s) t) = Some p → do_group_exit s t p code = Some (Ok s') → proc_step s s'
| step_wait s t p pid_ options u s' r : proc (thr (sg s) t) = Some p → do_wait4 s t p pid_ options u = (s', r) → proc_step s s'
| step_resume s t p pid_ options u s' r : proc (thr (sg s) t) = Some p → wait_resume s t p pid_ options u = (s', r) → proc_step s s'
| step_signal s q g info g' r : send_signal_process (sg s) q g info = Some (g', r) → proc_step s (set_sg s g')
| step_thread_signal s t g info g' r : send_signal_thread (sg s) t g info = Some (g', r) → proc_step s (set_sg s g').

Definition proc_inv (s : psys) : Prop := sig_inv (sg s) ∧ tree_ok s.

Lemma exit_inv s t code s' : proc_inv s → do_exit s t code = Some (Ok s') → proc_inv s'.
Proof.
  intros [Hs Ht] E. destruct (proc (thr (sg s) t)) as [p|] eqn:Hp; [|unfold do_exit in E; rewrite Hp in E; congruence].
  destruct (decide (p = init_process (sg s) ∧ threads (proc_of s p) = [t])) as [[-> Hth]|Hno]; [rewrite (do_exit_init s t code Hs Ht Hth) in E; congruence|].
  destruct (do_exit_spec s t code p Hs Ht Hp Hno) as (x & E' & H1 & H2 & _). assert (x = s') as -> by congruence. done.
Qed.

Lemma proc_step_inv s s' : proc_step s s' → proc_inv s → proc_inv s'.
Proof.
  intros Hst Hi. pose proof Hi as [Hs Ht]. destruct Hst as [s cur pp flags newsp a s' r Hc Hf E|s t code s' E|s t p code s' Hp E|s t p pid_ options u s' r Hp E|s t p pid_ options u s' r Hp E|s q g info g' r E|s t g info g' r E].
  - destruct (do_fork_spec s cur pp flags newsp a Hs Ht Hc Hf) as (x & r' & E' & H1 & H2 & _). assert (x = s') as -> by congruence. done.
  - by eapply exit_inv.
  - destruct (group_spec s t p code Hs Ht) as (a & Ea & H1 & H2 & _); [by eapply tr_proc|]. rewrite Ea in E. eapply exit_inv; [|exact E]. split; [done|by eapply same_tree_ok].
  - pose proof (do_wait4_ok s t p pid_ options u Hs Ht ltac:(by eapply tr_proc)) as H. rewrite E in H. by destruct H as (H1 & H2 & _).
  - pose proof (wait_resume_ok s t p pid_ options u Hs Ht ltac:(by eapply tr_proc)) as H. rewrite E in H. by destruct H as (H1 & H2 & _).
  - split; [by eapply send_process_inv|]. eapply same_tree_ok; [eapply calm_same, send_process_calm, E|done].
  - split; [by eapply send_thread_inv|]. eapply same_tree_ok; [eapply calm_same, send_thread_calm, E|done].
Qed.

(** No call is undefined behaviour, and only the end of init is a panic. *)
Definition calls_defined (s : psys) : Prop :=
  (∀ t p code, proc (thr (sg s) t) = Some p →
     if bool_decide (p = init_process (sg s) ∧ threads (proc_of s p) = [t]) then do_exit s t code = Some Panic ∧ do_group_exit s t p code = Some Panic
     else ∃ s1 s2, do_exit s t code = Some (Ok s1) ∧ do_group_exit s t p code = Some (Ok s2)) ∧
  (∀ cur pp flags newsp a, proc (thr (sg s) cur) = Some pp → fork_fresh s a → is_Some (do_fork s cur pp flags newsp a)).

Lemma proc_inv_defined s : proc_inv s → calls_defined s.
Proof.
  intros [Hs Ht]. split.
  - intros t p code Hp. destruct (group_spec s t p code Hs Ht) as (a & -> & H1 & H2 & _); [by eapply tr_proc|]. pose proof (same_tree_ok _ _ H2 Ht) as Hta. destruct (st_prc _ _ H2 p) as (_ & Eth & _). pose proof (st_init _ _ H2) as Ei.
    destruct (bool_decide_reflect (p = init_process (sg s) ∧ threads (proc_of s p) = [t])) as [[-> Hth]|Hno].
    + split; [by apply do_exit_init|]. apply do_exit_init; [done..|]. by rewrite Ei, Eth.
    + destruct (do_exit_spec s t code p Hs Ht Hp Hno) as (s1 & -> & _). destruct (do_exit_spec a t code p H1 Hta) as (s2 & -> & _); [by rewrite (st_proc _ _ H2)|by rewrite Ei, Eth|]. eauto.
  - intros cur pp flags newsp a Hc Hf. destruct (do_fork_spec s cur pp flags newsp a Hs Ht Hc Hf) as (s' & r & -> & _). done.
Qed.


(** C31. [do_fork] refuses exactly the wrong combinations of flags, and fails for
    want of memory exactly when an object it needs is missing.  After a failure the
    processes of the tree, their threads, the list of threads, the process objects
    allocated and the counts of all shared objects are as before: the thread, the
    process and every reference it took are given back.  Else it adds one thread to the list
    and to the caller's process, or a new process with that thread as a child of the
    caller or of its parent, with one reference to each of its objects.  The
    new thread runs with its creator's registers, 0 as the result and its
    creator's signal mask.  After a vfork the caller is in an uninterruptible
    sleep, recorded as the one to wake when the new process is done; else it
    goes on as it was. *)
Theorem do_fork_correct s cur pp flags newsp a :
  proc_inv s → proc (thr (sg s) cur) = Some pp → fork_fresh s a →
  ∃ s' r, do_fork s cur pp flags newsp a = Some (s', r) ∧ fork_post s cur pp flags newsp a s' r.
Proof. intros [Hs Ht] Hc Hf. destruct (do_fork_spec s cur pp flags newsp a Hs Ht Hc Hf) as (s' & r & E & _ & _ & H). eauto. Qed.

(** C32. When a thread exits, its process keeps the other threads.  After the last
    one its children are init's, its address space and files have lost its
    references, and the threads that wait for children of its parent run; if the parent
    ignores SIGCHLD or has set SA_NOCLDWAIT, and is not init, the process is
    removed and freed at once, and else it is a zombie with the exit status.
    Group exit does the same with the status of the call that came first, and that
    call leaves SIGKILL pending, afterwards, for every other thread of the process
    and marks the process as exiting. *)
Theorem do_exit_correct s t p code :
  proc_inv s → proc (thr (sg s) t) = Some p → ¬ (p = init_process (sg s) ∧ threads (proc_of s p) = [t]) →
  (∃ s', do_exit s t code = Some (Ok s') ∧ exit_post s t p (exit_status s p code) s') ∧
  (∃ s', let st := if exiting (proc_of s p) then codes s p else code in
     do_group_exit s t p code = Some (Ok s') ∧ exit_post s t p st s' ∧
     (threads (proc_of s p) ≠ [t] → exiting (proc_of s' p) = true ∧ codes s' p = st ∧
        (exiting (proc_of s p) = false → ∀ o, o ∈ threads (proc_of s p) → o ≠ t → killed (sg s') o))).
Proof.
  intros [Hs Ht] Hp Hno. split; [destruct (do_exit_spec s t code p Hs Ht Hp Hno) as (s' & E & _ & _ & H); eauto|].
  assert (p ∈ procs s) as Hpp by (by eapply tr_proc). destruct (group_spec s t p code Hs Ht Hpp) as (a & -> & H1 & H2 & H3 & H4 & H5 & H6). destruct (st_prc _ _ H2 p) as (_ & Eth & _).
  assert (proc (thr (sg a) t) = Some p) as Hpa by (by rewrite (st_proc _ _ H2)).
  destruct (do_exit_spec a t code p H1 (same_tree_ok _ _ H2 Ht) Hpa) as (s' & E & _ & _ & H); [by rewrite (st_init _ _ H2), Eth|].
  exists s'. cbn zeta. rewrite <-H5. split; [done|]. split; [apply (exit_post_same s a); [done..|]; unfold exit_status in H; by rewrite H4 in H|].
  intros Hl. destruct (do_exit_more a t code p s' Hpa) as (C1 & C2 & C3); [rewrite Eth, last_thread; [done|by apply (tr_nodup_threads _ Ht)|by apply (tr_threads _ Ht)]|done|].
  split; [by rewrite C2|]. split; [done|]. intros He o Ho Hot. by apply C3, H6.
Qed.

(** C33. [wait4] reports the first child that matches and has something to report:
    a zombie with its status, which is then freed, once, and gives its times to
    its parent, unless the status cannot be written or the call only looks; a
    stop or a continuation, which is not reported again.  Without such a child
    it fails with ECHILD when none matches, returns 0 when asked not to wait, or
    sleeps in the queue of its process.  A thread that slept there answers as
    soon as a child is due. *)
Theorem wait4_correct s t self pid_ options u :
  proc_inv s → proc (thr (sg s) t) = Some self → Z.ldiff options WAIT_OPTIONS = 0 →
  (∃ s' r, do_wait4 s t self pid_ options u = (s', r) ∧ wait4_post s t self pid_ options u s' r) ∧
  (∃ s' r, wait_resume s t self pid_ options u = (s', r) ∧ resume_post s t self pid_ options u s' r).
Proof.
  intros [Hs Ht] Hp Ho. assert (self ∈ procs s) as Hself by (by eapply tr_proc). split.
  - pose proof (do_wait4_ok s t self pid_ options u Hs Ht Hself) as H. rewrite Ho in H. destruct (do_wait4 _ _ _ _ _ _) as [s' r]. destruct H as (_ & _ & H). eauto.
  - pose proof (wait_resume_ok s t self pid_ options u Hs Ht Hself) as H. destruct (wait_resume _ _ _ _ _ _) as [s' r]. destruct H as (_ & _ & H). eauto.
Qed.

(** ** Examples and what they show *)

(** Init alone, with one thread. *)
Definition ex_boot : psys :=
  PSys
    (Sys (λ t, if t =? 1 then set_proc (Some 1) (zero_thread 1) else zero_thread t)
       (λ p, if p =? 1 then Process 1 1 1 None [1] 0 0 100 0 (λ _, zero_info) PROC_ALIVE false false false false 0 0 else zero_process)
       (λ _, ex_table) [1] [1] 1 [] (λ _, []))
    (λ p, if p =? 1 then PNode 2 [] 0 0 0 0 0 (Some 200) (Some 300) None None else PNode 0 [] 0 0 0 0 0 None None None None)
    (λ p, p =? 1) (λ h, if h =? 100 then 1 else 0) (λ m, if m =? 200 then 1 else 0) (λ f, if f =? 300 then 1 else 0)
    (λ _, 0) (λ _, 0) (λ _, 0) (λ _, 0).

Lemma ex_boot_inv : proc_inv ex_boot.
Proof.
  assert (u64_ok 0) as Hu by (by vm_compute). split.
  - split; [| |intros; exact ex_table_ok].
    + intros t. cbn. by destruct (t =? 1).
    + intros p. cbn. destruct (p =? 1); (split; [done|by intros g _ _ E]).
  - assert (∀ x, x ∈ [1] → x = 1) as H1 by (intros x; apply list_elem_of_singleton). split; unfold procs, proc_of; cbn.
    + apply NoDup_singleton.
    + by intros p q ->%H1 ->%H1.
    + intros p. rewrite list_elem_of_singleton. apply Z.eqb_eq.
    + by intros p ->%H1.
    + intros p t ->%H1. cbn. rewrite list_elem_of_singleton. destruct (Z.eqb_spec t 1); naive_solver.
    + intros t p. destruct (t =? 1); [intros [= <-]; apply list_elem_of_here|done].
    + intros p ->%H1. apply NoDup_singleton.
    + intros p ->%H1. cbn. by eauto.
    + split; [apply list_elem_of_here|done].
    + by intros c ->%H1.
    + intros p c ->%H1. cbn. split; [by intros ?%not_elem_of_nil|]. by intros [->%H1 ?].
    + intros p ->%H1. constructor.
    + by intros p ->%H1.
    + intros h Hh. unfold cnt. cbn [List.filter]. destruct (Z.eqb_spec h 100) as [->|Hn]; [done|]. assert (has_table ex_boot h 1 = false) as -> by (apply Z.eqb_neq; cbn; congruence). done.
    + intros m. unfold cnt, has_mm. cbn. destruct (Z.eqb_spec m 200) as [->|]; [done|]. by rewrite bool_decide_false by congruence.
    + intros m. unfold cnt, has_files. cbn. destruct (Z.eqb_spec m 300) as [->|]; [done|]. by rewrite bool_decide_false by congruence.
    + intros p ->%H1. constructor.
Qed.

(** The objects of the child it forks, with the flags of fork. *)
Definition ex_alloc : fork_alloc := ForkAlloc (Some (2, 2)) (Some 2) (Some 201) (Some 301) (Some 101).
Notation ex_fork := (do_fork ex_boot 1 1 SIGCHLD 0 ex_alloc) (only parsing).
Definition ex_child : psys := (default (ex_boot, ForkFailed 0) ex_fork).1.

Lemma ex_fresh : fork_fresh ex_boot ex_alloc.
Proof.
  split; cbn.
  - intros t id [= <- <-]. split; [done|]. split; [by intros ?%list_elem_of_singleton|]. by intros q ->%list_elem_of_singleton.
  - by intros p [= <-].
  - by intros m [= <-].
  - by intros f [= <-].
  - by intros h [= <-].
Qed.

Lemma result_of {A B} (o : option (A * B)) d b : is_Some o → snd <$> o = Some b → o = Some ((default d o).1, b).
Proof. intros [[x y] ->]. cbn. by intros [= ->]. Qed.
Lemma ex_fork_some : is_Some ex_fork.
Proof.
  destruct ex_boot_inv as [Hs Ht]. destruct (do_fork_spec ex_boot 1 1 SIGCHLD 0 ex_alloc Hs Ht eq_refl ex_fresh) as (s' & r & E & _). exists (s', r). exact E.
Qed.
Lemma ex_fork_eq : ex_fork = Some (ex_child, Forked 2).
Proof. apply result_of; [exact ex_fork_some|]. vm_compute. reflexivity. Qed.
Lemma ex_fork_step : proc_step ex_boot ex_child.
Proof. exact (step_fork ex_boot 1 1 SIGCHLD 0 ex_alloc ex_child (Forked 2) eq_refl ex_fresh ex_fork_eq). Qed.
Lemma ex_child_inv : proc_inv ex_child.
Proof. exact (proc_step_inv _ _ ex_fork_step ex_boot_inv). Qed.

(** The child exits. *)
Definition ex_zombie : psys := match do_exit ex_child 2 7 with Some (Ok s) => s | _ => ex_child end.
Lemma ex_child_proc : proc (thr (sg ex_child) 2) = Some 2.
Proof. by vm_compute. Qed.
Lemma ex_child_not_init : ¬ (2 = init_process (sg ex_child) ∧ threads (proc_of ex_child 2) = [2]).
Proof. intros [H _]. vm_compute in H. discriminate H. Qed.
Lemma ex_exit_eq : do_exit ex_child 2 7 = Some (Ok ex_zombie).
Proof.
  destruct ex_child_inv as [Hs Ht]. destruct (do_exit_spec ex_child 2 7 2 Hs Ht ex_child_proc ex_child_not_init) as (s' & E & _). unfold ex_zombie. by rewrite E.
Qed.
Lemma ex_exit_step : proc_step ex_child ex_zombie.
Proof. exact (step_exit _ _ _ _ ex_exit_eq). Qed.
Lemma ex_zombie_inv : proc_inv ex_zombie.
Proof. exact (proc_step_inv _ _ ex_exit_step ex_child_inv). Qed.


Lemma do_fork_witness : ∃ s' r, do_fork ex_boot 1 1 SIGCHLD 0 ex_alloc = Some (s', r) ∧ r = Forked 2 ∧ started (thr (sg ex_boot) 1) (thr (sg s') 2) 0.
Proof.
  destruct (do_fork_correct ex_boot 1 1 SIGCHLD 0 ex_alloc ex_boot_inv eq_refl ex_fresh) as (s' & r & E & H). change (fork_post ex_boot 1 1 SIGCHLD 0 ex_alloc s' r) in H. unfold fork_post in H.
  change (fork_bad SIGCHLD) with false in H. cbn iota in H. change (fa_thread ex_alloc) with (Some (2, 2)) in H. cbn iota in H. change (has_flag SIGCHLD CLONE_THREAD || bool_decide (is_Some (fa_proc ex_alloc)) && fork_room SIGCHLD ex_alloc) with true in H. cbn iota in H.
  destruct H as (-> & H & _). exists s', (Forked 2). split; [exact E|]. split; [reflexivity|exact H].
Defined.

Lemma do_exit_witness : ∃ s', do_exit ex_child 2 7 = Some (Ok s') ∧ codes s' 2 = 0x700.
Proof.
  destruct (do_exit_correct ex_child 2 2 7 ex_child_inv ex_child_proc ex_child_not_init) as ((s' & E & H) & _). exists s'. split; [exact E|]. unfold exit_post in H.
  assert (bool_decide (threads (proc_of ex_child 2) = [2]) = true) as Hb by (by vm_compute). rewrite Hb in H. destruct H as (pp & Hpp & H & _). assert (parent (proc_of ex_child 2) = Some 1) as Hp1 by (by vm_compute). rewrite Hp1 in Hpp. injection Hpp as <-.
  assert (autoreap ex_child 1 = false) as Ha by (by vm_compute). rewrite Ha in H. destruct H as [_ H]. rewrite H. vm_compute. reflexivity.
Defined.

Lemma wait4_witness : ∃ s' r, do_wait4 ex_zombie 1 1 (-1) 0 (WaitUser true true true) = (s', r) ∧ r = Waited 2 (Some 0x700) ∧ reaped ex_zombie s' 1 2.
Proof.
  destruct (wait4_correct ex_zombie 1 1 (-1) 0 (WaitUser true true true) ex_zombie_inv) as ((s' & r & E & H) & _); [by vm_compute|by vm_compute|]. exists s', r. split; [exact E|]. unfold wait4_post in H.
  assert (List.find (wait_due ex_zombie 1 (-1) 0) (children (node ex_zombie 1)) = Some 2) as Hf by (by vm_compute). rewrite Hf in H. unfold wait_post in H. cbn zeta in H.
  assert (p_state (proc_of ex_zombie 2) = PROC_ZOMBIE) as Hz by (vm_compute; reflexivity). assert (pid (proc_of ex_zombie 2) = 2) as Hp by (vm_compute; reflexivity). assert (codes ex_zombie 2 = 0x700) as Hc by (vm_compute; reflexivity).
  rewrite Hz, Hp, Hc in H. exact H.
Defined.

(** A child that has never been stopped is reported as continued. *)
Theorem wait_continued_spurious :
  group_stop (proc_of ex_child 2) = false ∧ (do_wait4 ex_child 1 1 (-1) WCONTINUED (WaitUser true true true)).2 = Waited 2 (Some 0xffff).
Proof. by vm_compute. Qed.

(** A thread that waits for one child and runs again when another thread has
    reaped it goes on sleeping while its process has other children; a new call
    fails at once. *)
Theorem wait_echild_missed s t self pid_ options u :
  Z.ldiff options WAIT_OPTIONS = 0 → children (node s self) ≠ [] → (∀ c, c ∈ children (node s self) → wait_match s self c pid_ = false) → signal_pending (sg s) t = false →
  (wait_resume s t self pid_ options u).2 = WaitSleeps ∧ (do_wait4 s t self pid_ options u).2 = Waited (- ECHILD) None.
Proof.
  intros Ho Hne Hm Hp. assert (List.find (wait_due s self pid_ options) (children (node s self)) = None) as Hf.
  { destruct (List.find _ _) as [c|] eqn:E; [|done]. apply find_some in E as [Hc%list_elem_of_In Hd]. unfold wait_due in Hd. by rewrite Hm in Hd. }
  assert (existsb (λ c, wait_match s self c pid_) (children (node s self)) = false) as He.
  { destruct (existsb _ _) eqn:E; [|done]. apply existsb_exists in E as (c & Hc%list_elem_of_In & Hd). by rewrite Hm in Hd. }
  split.
  - unfold wait_resume. pose proof (wait_event_spec s t self pid_ options) as H. destruct (wait_event _ _ _ _ _) as [x r]. destruct H as (_ & -> & _). unfold wait_ready. rewrite (find_due_none _ _ _ _ _ Hf), bool_decide_false, Hp by done. done.
  - unfold do_wait4. rewrite Ho. cbn [Z.eqb negb]. pose proof (wait_loop_spec 1 s t self pid_ options u) as H. change 2%nat with WAIT_PASSES in H. destruct (wait_loop _ _ _ _ _ _ _) as [s' r]. unfold loop_post in H. rewrite Hf, He in H. by destruct H as [_ ->].
Qed.

(** A new thread of the same process with CLONE_VFORK: its creator sleeps, not
    to be interrupted, until its own process is done. *)
Theorem clone_vfork_stuck :
  ∃ s', do_fork ex_boot 1 1 (fold_left Z.lor [CLONE_VM; CLONE_SIGHAND; CLONE_THREAD; CLONE_VFORK] 0) 0 ex_alloc = Some (s', ForkWaits 2) ∧
    state (thr (sg s') 1) = TASK_UNINTERRUPTIBLE ∧ vfork_done (node s' 1) = Some 1 ∧ threads (proc_of s' 1) = [1; 2].
Proof. eexists. split; [reflexivity|]. by vm_compute. Qed.
