(* ===== verification/Tty.v ===== *)
(** * Terminals: src/drivers/char/tty.c

    The line discipline, job control and the operations on open terminals.  The
    terminals are numbered; the session and the foreground group of a terminal
    and the terminal of a process are those of Process.  A character is a
    number below 256.  [t_out] is what the driver's [write] has been given.
    The interrupt handler and the calls run under the lock of the terminal; a
    read drops it to copy chunks of 128 characters, and [read_section] is what
    runs between.  What a copy from or to user memory gives, and what the
    driver answers to [write_room], are arguments.  A result [None] is
    undefined behaviour. *)

From stdpp Require Import functions.
From S2P Require Import Prelude Signal Process.

Notation TTY_BUF := 4096%Z (only parsing).
Notation VINTR := 0%Z (only parsing).
Notation VQUIT := 1%Z (only parsing).
Notation VERASE := 2%Z (only parsing).
Notation VKILL := 3%Z (only parsing).
Notation VEOF := 4%Z (only parsing).
Notation VTIME := 5%Z (only parsing).
Notation VMIN := 6%Z (only parsing).
Notation VSTART := 8%Z (only parsing).
Notation VSTOP := 9%Z (only parsing).
Notation VSUSP := 10%Z (only parsing).
Notation VEOL := 11%Z (only parsing).
Notation VWERASE := 14%Z (only parsing).
Notation VLNEXT := 15%Z (only parsing).
Notation INLCR := 0x40%Z (only parsing).
Notation IGNCR := 0x80%Z (only parsing).
Notation ICRNL := 0x100%Z (only parsing).
Notation IXON := 0x400%Z (only parsing).
Notation IUTF8 := 0x4000%Z (only parsing).
Notation OPOST := 0x1%Z (only parsing).
Notation ONLCR := 0x4%Z (only parsing).
Notation CREAD := 0x80%Z (only parsing).
Notation CS8 := 0x30%Z (only parsing).
Notation B115200 := 0x1002%Z (only parsing).
Notation ISIG := 0x1%Z (only parsing).
Notation ICANON := 0x2%Z (only parsing).
Notation ECHO := 0x8%Z (only parsing).
Notation ECHOE := 0x10%Z (only parsing).
Notation ECHOK := 0x20%Z (only parsing).
Notation ECHONL := 0x40%Z (only parsing).
Notation NOFLSH := 0x80%Z (only parsing).
Notation TOSTOP := 0x100%Z (only parsing).
Notation ECHOCTL := 0x200%Z (only parsing).
Notation ECHOKE := 0x800%Z (only parsing).
Notation IEXTEN := 0x8000%Z (only parsing).
Notation SIGINT := 2%Z (only parsing).
Notation EIO := 5%Z (only parsing).
Notation ENXIO := 6%Z (only parsing).
Notation MAX_TTYS := 16%Z (only parsing).
Notation POLLIN_MASK := 0x41%Z (only parsing).
Notation POLLOUT_MASK := 0x104%Z (only parsing).
Notation POLLHUP := 0x10%Z (only parsing).
Notation NL := 10%Z (only parsing).
Notation CR := 13%Z (only parsing).
Notation BS := 8%Z (only parsing).
Notation TAB := 9%Z (only parsing).
Notation SPACE := 32%Z (only parsing).

(** ** State *)

Record termios : Type := Termios { c_iflag : Z; c_oflag : Z; c_cflag : Z; c_lflag : Z; c_cc : Z → Z }.

Record tty : Type := Tty {
  tm : termios; winsize : list Z;
  ibuf : Z → Z; ihead : Z; itail : Z; icanon_end : Z;
  column : Z; lnext : bool;
  read_wait : list Z; write_wait : list Z;
  opens : Z; hangup : bool; t_out : list Z;
}.

Record tsys : Type := TSys { ps : psys; tts : Z → tty }.

Definition set_tm (x : termios) (t : tty) : tty := Tty x (winsize t) (ibuf t) (ihead t) (itail t) (icanon_end t) (column t) (lnext t) (read_wait t) (write_wait t) (opens t) (hangup t) (t_out t).
Definition set_winsize (x : list Z) (t : tty) : tty := Tty (tm t) x (ibuf t) (ihead t) (itail t) (icanon_end t) (column t) (lnext t) (read_wait t) (write_wait t) (opens t) (hangup t) (t_out t).
Definition set_ring (b : Z → Z) (h l e : Z) (t : tty) : tty := Tty (tm t) (winsize t) b h l e (column t) (lnext t) (read_wait t) (write_wait t) (opens t) (hangup t) (t_out t).
Definition set_column (x : Z) (t : tty) : tty := Tty (tm t) (winsize t) (ibuf t) (ihead t) (itail t) (icanon_end t) x (lnext t) (read_wait t) (write_wait t) (opens t) (hangup t) (t_out t).
Definition set_lnext (x : bool) (t : tty) : tty := Tty (tm t) (winsize t) (ibuf t) (ihead t) (itail t) (icanon_end t) (column t) x (read_wait t) (write_wait t) (opens t) (hangup t) (t_out t).
Definition set_waits (r w : list Z) (t : tty) : tty := Tty (tm t) (winsize t) (ibuf t) (ihead t) (itail t) (icanon_end t) (column t) (lnext t) r w (opens t) (hangup t) (t_out t).
Definition set_opens (n : Z) (h : bool) (t : tty) : tty := Tty (tm t) (winsize t) (ibuf t) (ihead t) (itail t) (icanon_end t) (column t) (lnext t) (read_wait t) (write_wait t) n h (t_out t).
Definition set_out (l : list Z) (t : tty) : tty := Tty (tm t) (winsize t) (ibuf t) (ihead t) (itail t) (icanon_end t) (column t) (lnext t) (read_wait t) (write_wait t) (opens t) (hangup t) l.

Definition upd_tty (s : tsys) (y : Z) (f : tty → tty) : tsys := TSys (ps s) (<[y := f (tts s y)]> (tts s)).
Definition upd_ps (s : tsys) (f : psys → psys) : tsys := TSys (f (ps s)) (tts s).
Definition set_tty (x : option Z) (n : pnode) : pnode :=
  PNode (refcount n) (children n) (exit_code n) (utime n) (stime n) (cutime n) (cstime n) (p_mm n) (p_files n) x (vfork_done n).
Definition set_job (s : psys) (y session pgrp : Z) : psys :=
  PSys (sg s) (node s) (live s) (sh_ref s) (mm_ref s) (fd_ref s) (t_utime s) (t_stime s) (<[y := pgrp]> (tty_pgrp s)) (<[y := session]> (tty_session s)).

Definition lflag (t : tty) (f : Z) : bool := has_flag (c_lflag (tm t)) f.
Definition iflag (t : tty) (f : Z) : bool := has_flag (c_iflag (tm t)) f.
Definition oflag (t : tty) (f : Z) : bool := has_flag (c_oflag (tm t)) f.
Definition cc (t : tty) (i : Z) : Z := c_cc (tm t) i.

(** Differences of the positions in the ring, which have type [unsigned]. *)
Definition sub32 (x y : Z) : Z := wrap32 (x - y).
Definition ibuf_count (t : tty) : Z := sub32 (ihead t) (itail t).

Definition default_cc : Z → Z :=
  <[VINTR := 3]> (<[VQUIT := 28]> (<[VERASE := 127]> (<[VKILL := 21]> (<[VEOF := 4]> (<[VTIME := 0]> (<[VMIN := 1]>
  (<[VSTART := 17]> (<[VSTOP := 19]> (<[VSUSP := 26]> (<[VWERASE := 23]> (<[VLNEXT := 22]> (λ _, 0)))))))))))).
Definition default_termios : termios :=
  Termios (fold_left Z.lor [ICRNL; IXON; IUTF8] 0) (Z.lor OPOST ONLCR) (fold_left Z.lor [B115200; CS8; CREAD] 0)
    (fold_left Z.lor [ISIG; ICANON; ECHO; ECHOE; ECHOK; ECHOCTL; ECHOKE; IEXTEN] 0) default_cc.

(** ** Output *)

Definition tty_out (t : tty) (l : list Z) : tty := set_out (t_out t ++ l) t.

Definition isprint (c : Z) : bool := (0x20 <=? c) && (c <? 0x7f).

Definition out_char (t : tty) (c : Z) : tty :=
  if oflag t OPOST && oflag t ONLCR && (c =? NL) then set_column 0 (tty_out t [CR; NL])
  else
    let t :=
      if c =? CR then set_column 0 t
      else if c =? BS then (if column t =? 0 then t else set_column (column t - 1) t)
      else if c =? TAB then set_column (wrap32 (Z.lor (column t) 7 + 1)) t
      else if isprint c then set_column (wrap32 (column t + 1)) t
      else t in
    tty_out t [c].

Definition echo_char (t : tty) (c : Z) : tty :=
  if negb (lflag t ECHO) then (if (c =? NL) && lflag t ECHONL then out_char t c else t)
  else if lflag t ECHOCTL && (c <? 32) && negb (c =? NL) && negb (c =? TAB)
  then set_column (wrap32 (column t + 2)) (tty_out t [94; c + 64])
  else out_char t c.

(** The last character of the line that is being typed. *)
Definition last_char (t : tty) : Z := ibuf t (sub32 (ihead t) 1 `mod` TTY_BUF).

Definition erase_one (t : tty) : tty :=
  if ihead t =? icanon_end t then t
  else
    let c := last_char t in
    let t := set_ring (ibuf t) (sub32 (ihead t) 1) (itail t) (icanon_end t) t in
    if lflag t ECHO && lflag t ECHOE
    then tty_out t (if (c <? 32) && lflag t ECHOCTL then [BS; SPACE; BS; BS; SPACE; BS] else [BS; SPACE; BS])
    else t.

(** ** Input *)

(** What a character leads to outside the terminal: its readers are woken, or
    its foreground group gets a signal and its readers are woken. *)
Inductive ievent : Type := INone | IWake | ISignal (sig : Z).

Definition flush_input (t : tty) : tty := set_ring (ibuf t) 0 0 0 t.

(** [store:] in [input_char]. *)
Definition store_char (t : tty) (c : Z) : tty * ievent :=
  if TTY_BUF - 1 <=? ibuf_count t then (t, INone)
  else
    let t := set_ring (<[ihead t `mod` TTY_BUF := c]> (ibuf t)) (wrap32 (ihead t + 1)) (itail t) (icanon_end t) t in
    let complete t := set_ring (ibuf t) (ihead t) (itail t) (ihead t) t in
    if lflag t ICANON then
      if (c =? NL) || (c =? cc t VEOF) || (c =? cc t VEOL)
      then (complete (if c =? cc t VEOF then t else echo_char t c), IWake)
      else (echo_char t c, INone)
    else (complete (echo_char t c), IWake).

(** Erase while the last character of the line satisfies [f]. *)
Fixpoint erase_while (n : nat) (t : tty) (f : Z → bool) : tty :=
  match n with
  | O => t
  | S n => if (ihead t =? icanon_end t) || negb (f (last_char t)) then t else erase_while n (erase_one t) f
  end.
Definition erase_all (t : tty) (f : Z → bool) : tty := erase_while (Z.to_nat (sub32 (ihead t) (icanon_end t))) t f.

(** The signal of a character. *)
Definition signal_of (t : tty) (c : Z) : Z :=
  if negb (lflag t ISIG) then 0
  else if c =? cc t VINTR then SIGINT
  else if c =? cc t VQUIT then SIGQUIT
  else if c =? cc t VSUSP then SIGTSTP
  else 0.

Definition input_char (t : tty) (c : Z) : tty * ievent :=
  if lnext t then store_char (set_lnext false t) c
  else if iflag t IGNCR && (c =? CR) then (t, INone)
  else
    let c := if iflag t ICRNL && (c =? CR) then NL else if iflag t INLCR && (c =? NL) then CR else c in
    let sig := signal_of t c in
    if negb (sig =? 0) && negb (c =? 0) then
      let t := echo_char t c in (if lflag t NOFLSH then t else flush_input t, ISignal sig)
    else if lflag t ICANON then
      if (c =? cc t VERASE) || (c =? BS) then (erase_one t, INone)
      else if c =? cc t VKILL then (erase_all t (λ _, true), INone)
      else if (c =? cc t VWERASE) && lflag t IEXTEN
      then (erase_all (erase_all t (λ x, x =? SPACE)) (λ x, negb (x =? SPACE)), INone)
      else if (c =? cc t VLNEXT) && lflag t IEXTEN then (set_lnext true t, INone)
      else store_char t c
    else store_char t c.

Definition wake_queue (s : tsys) (q : list Z) : tsys :=
  upd_ps s (λ p, set_sg p (fold_left (λ g t, try_to_wake_up g t (Z.lor TASK_INTERRUPTIBLE TASK_UNINTERRUPTIBLE)) q (sg p))).
Definition signal_group (s : tsys) (pg sig : Z) : option tsys :=
  r ← kill_pgrp (sg (ps s)) pg sig None; Some (upd_ps s (λ p, set_sg p r.1)).

Definition tty_event (s : tsys) (y : Z) (ev : ievent) : option tsys :=
  match ev with
  | INone => Some s
  | IWake => Some (wake_queue s (read_wait (tts s y)))
  | ISignal sig =>
      s ← (if 0 <? tty_pgrp (ps s) y then signal_group s (tty_pgrp (ps s) y) sig else Some s);
      Some (wake_queue s (read_wait (tts s y)))
  end.

Fixpoint tty_receive (s : tsys) (y : Z) (l : list Z) : option tsys :=
  match l with
  | [] => Some s
  | c :: l =>
      let '(t, ev) := input_char (tts s y) c in
      s ← tty_event (upd_tty s y (λ _, t)) y ev;
      tty_receive s y l
  end.

Definition tty_input_room (t : tty) : Z := wrap32 (TTY_BUF - 1 - ibuf_count t).

(** ** Registration *)

(** A terminal from [kzalloc]. *)
Definition tty_new : tty := Tty default_termios [24; 80; 0; 0] (λ _, 0) 0 0 0 0 false [] [] 0 false [].

Definition tty_setup (s : tsys) (y : Z) : tsys := upd_ps (upd_tty s y (λ _, tty_new)) (λ p, set_job p y 0 0).
(** [y] is the object [kzalloc] returned, [None] when there is no memory. *)
Definition tty_alloc (s : tsys) (y : option Z) : tsys := match y with Some y => tty_setup s y | None => s end.
Definition tty_register (s : tsys) (tt : list Z) (y : option Z) : tsys * list Z * option Z :=
  if Z.of_nat (length tt) =? MAX_TTYS then (s, tt, None)
  else match y with Some y => (tty_setup s y, tt ++ [y], Some y) | None => (s, tt, None) end.
Definition tty_free (s : tsys) (y : Z) : tsys :=
  upd_ps s (λ p, fold_left (λ p q, if bool_decide (p_tty (node p q) = Some y) then upd_node p q (set_tty None) else p) (all_processes (sg p)) p).

(** ** Job control *)

(** The current thread is [th]. *)
Definition job_control (s : tsys) (th y sig : Z) : option (tsys * Z) :=
  match proc (thr (sg (ps s)) th) with
  | None => Some (s, 0)
  | Some p =>
      let q := prc (sg (ps s)) p in
      if negb (bool_decide (p_tty (node (ps s) p) = Some y)) || (tty_pgrp (ps s) y <=? 0) || (pgid q =? tty_pgrp (ps s) y) then Some (s, 0)
      else
        ka ← act (sg (ps s)) p sig;
        if negb (Z.land (sig_blocked (thr (sg (ps s)) th)) (sigmask sig) =? 0) || (handler ka =? SIG_IGN)
        then Some (s, if sig =? SIGTTIN then - EIO else 0)
        else if is_orphaned_pgrp (sg (ps s)) (pgid q) then Some (s, - EIO)
        else s ← signal_group s (pgid q) sig; Some (s, - ERESTARTSYS)
  end.

(** ** Reading *)

Definition can_read (t : tty) : bool :=
  hangup t ||
  if lflag t ICANON then negb (icanon_end t =? itail t)
  else let vmin := cc t VMIN in (Z.max vmin 1 <=? ibuf_count t) || ((vmin =? 0) && (0 <? ibuf_count t)).

(** Up to [k] characters before [limit], and whether a line has ended. *)
Fixpoint take_chars (k : nat) (t : tty) (canon : bool) (limit : Z) : tty * list Z * bool :=
  match k with
  | O => (t, [], false)
  | S k =>
      if itail t =? limit then (t, [], false)
      else
        let c := ibuf t (itail t `mod` TTY_BUF) in
        let t := set_ring (ibuf t) (ihead t) (wrap32 (itail t + 1)) (icanon_end t) t in
        if canon && (c =? cc t VEOF) then (t, [], true)
        else if canon && (c =? NL) then (t, [c], true)
        else let '(t, l, eol) := take_chars k t canon limit in (t, c :: l, eol)
  end.

Definition CHUNK : Z := 128.
Definition read_chunk (t : tty) (canon : bool) (room : Z) : tty * list Z * bool :=
  take_chars (Z.to_nat (Z.min CHUNK room)) t canon (if canon then icanon_end t else ihead t).

(** A read between two of its sections: its mode and the size of its buffer, the
    characters copied so far, the chunk to copy next and whether it ends a line. *)
Record rcopy : Type := RCopy { rc_canon : bool; rc_len : Z; rc_done : list Z; rc_chunk : list Z; rc_eol : bool }.

(** A call returns a number, with the characters it has copied, sleeps, or has
    dropped the lock to copy a chunk. *)
Inductive tread : Type :=
| TRead (r : Z) (l : list Z)
| TReadSleeps
| TReadCopies (c : rcopy).

(** After the loop. *)
Definition read_end (t : tty) : tty :=
  if TTY_BUF <? sub32 (icanon_end t) (itail t) then set_ring (ibuf t) (ihead t) (itail t) (itail t) t else t.

(** The loop up to the place where it drops the lock. *)
Definition read_section (t : tty) (canon : bool) (len : Z) (done : list Z) : tty * tread :=
  let n := Z.of_nat (length done) in
  if n <? len then
    let '(t, l, eol) := read_chunk t canon (len - n) in
    if bool_decide (l = []) && negb eol then (read_end t, TRead n done) else (t, TReadCopies (RCopy canon len done l eol))
  else (read_end t, TRead n done).

(** The copy is made, [ok] tells whether it succeeded, and the lock is taken
    again.  A fault ends the call without the lock. *)
Definition read_copied (t : tty) (c : rcopy) (ok : bool) : tty * tread :=
  let n := Z.of_nat (length (rc_done c)) in
  if negb (bool_decide (rc_chunk c = [])) && negb ok then (t, TRead (if n =? 0 then - EFAULT else n) (rc_done c))
  else
    let done := rc_done c ++ rc_chunk c in
    if rc_eol c then (read_end t, TRead (Z.of_nat (length done)) done) else read_section t (rc_canon c) (rc_len c) done.

(** An open file of a terminal. *)
Record tfile : Type := TFile { tf_tty : Z; tf_nonblock : bool }.

Definition enqueue (th : Z) (q : list Z) : list Z := if bool_decide (th ∈ q) then q else q ++ [th].
Definition set_state_of (s : tsys) (th x : Z) : tsys := upd_ps s (λ p, upd_thread p th (set_state x)).

Definition read_start (s : tsys) (y : Z) (canon : bool) (len : Z) : tsys * tread :=
  let '(t, w) := read_section (tts s y) canon len [] in (upd_tty s y (λ _, t), w).
Definition tty_read_copied (s : tsys) (y : Z) (c : rcopy) (ok : bool) : tsys * tread :=
  let '(t, w) := read_copied (tts s y) c ok in (upd_tty s y (λ _, t), w).

(** The wait on [read_wait] for [cond]; [expired] says that its time is over. *)
Definition read_wait_event (s : tsys) (th y : Z) (cond : tty → bool) (expired : bool) : tsys * option bool :=
  let s := set_state_of (upd_tty s y (λ t, set_waits (enqueue th (read_wait t)) (write_wait t) t)) th TASK_INTERRUPTIBLE in
  let finish s := set_state_of (upd_tty s y (λ t, set_waits (list_del th (read_wait t)) (write_wait t) t)) th TASK_RUNNING in
  if cond (tts s y) then (finish s, Some true)
  else if signal_pending (sg (ps s)) th then (finish s, Some false)
  else if expired then (finish s, Some true)
  else (s, None).

(** The condition of the wait: with [timed], for the time of VTIME. *)
Definition read_cond (timed : bool) (t : tty) : bool := if timed then (0 <? ibuf_count t) || hangup t else can_read t.

Definition read_wait_then (s : tsys) (th y : Z) (canon timed expired : bool) (len : Z) : tsys * tread :=
  match read_wait_event s th y (read_cond timed) expired with
  | (s, None) => (s, TReadSleeps)
  | (s, Some true) => read_start s y canon len
  | (s, Some false) => (s, TRead (- ERESTARTSYS) [])
  end.

(** Up to the first place where the call sleeps or drops the lock. *)
Definition tty_read (s : tsys) (th : Z) (f : tfile) (len : Z) : option (tsys * tread) :=
  let y := tf_tty f in
  '(s, jr) ← job_control s th y SIGTTIN;
  if negb (jr =? 0) then Some (s, TRead jr [])
  else
    let t := tts s y in
    let canon := lflag t ICANON in
    Some
      (if negb canon && (cc t VMIN =? 0) then
         if negb (cc t VTIME =? 0) && (ibuf_count t =? 0) then read_wait_then s th y canon true false len
         else read_start s y canon len
       else if can_read t then read_start s y canon len
       else if tf_nonblock f then (s, TRead (- EAGAIN) [])
       else read_wait_then s th y canon false false len).

(** A reader that slept runs again. *)
Definition tty_read_resume (s : tsys) (th y : Z) (canon timed expired : bool) (len : Z) : tsys * tread :=
  read_wait_then s th y canon timed (timed && expired) len.

(** ** Writing *)

Inductive twrite : Type :=
| TWrote (r : Z)
| TWriteSleeps (done : Z).

Notation WRITE_CHUNK := 256%Z (only parsing).

Definition write_chunk (t : tty) (l : list Z) : tty := if oflag t OPOST then fold_left out_char l t else tty_out t l.

Definition or_done (done r : Z) : Z := if done =? 0 then r else done.

(** The loop over the bytes [data] from offset [done] on.  [room] is what the
    driver answers at an offset, [None] for a driver without flow control;
    [ok] tells whether the copy at an offset succeeds. *)
Fixpoint write_loop (fuel : nat) (s : tsys) (th y : Z) (nonblock : bool) (data : list Z) (room : option (Z → Z)) (ok : Z → bool) (done : Z) : tsys * twrite :=
  let len := Z.of_nat (length data) in
  match fuel with
  | O => (s, TWrote done)
  | S fuel =>
      if done <? len then
        let n := Z.min (len - done) WRITE_CHUNK in
        let put s :=
          if negb (ok done) then (s, TWrote (or_done done (- EFAULT)))
          else
            let l := take (Z.to_nat n) (drop (Z.to_nat done) data) in
            write_loop fuel (upd_tty s y (λ t, write_chunk t l)) th y nonblock data room ok (done + n) in
        match room with
        | None => put s
        | Some room =>
            if hangup (tts s y) then (s, TWrote (or_done done (- EIO)))
            else if room done <? 2 * n then
              if nonblock then (s, TWrote (or_done done (- EAGAIN)))
              else if signal_pending (sg (ps s)) th then (set_state_of s th TASK_RUNNING, TWrote (or_done done (- ERESTARTSYS)))
              else (set_state_of (upd_tty s y (λ t, set_waits (read_wait t) (enqueue th (write_wait t)) t)) th TASK_INTERRUPTIBLE, TWriteSleeps done)
            else put s
        end
      else (s, TWrote done)
  end.

Definition write_fuel (data : list Z) : nat := S (length data).

Definition tty_write (s : tsys) (th : Z) (f : tfile) (data : list Z) (room : option (Z → Z)) (ok : Z → bool) : option (tsys * twrite) :=
  let y := tf_tty f in
  '(s, jr) ← (if lflag (tts s y) TOSTOP then job_control s th y SIGTTOU else Some (s, 0));
  Some (if negb (jr =? 0) then (s, TWrote jr) else write_loop (write_fuel data) s th y (tf_nonblock f) data room ok 0).

(** A writer that slept at offset [done] runs again. *)
Definition tty_write_resume (s : tsys) (th y : Z) (data : list Z) (room : Z → Z) (ok : Z → bool) (done : Z) : tsys * twrite :=
  let finish s := set_state_of (upd_tty s y (λ t, set_waits (read_wait t) (list_del th (write_wait t)) t)) th TASK_RUNNING in
  let n := Z.min (Z.of_nat (length data) - done) WRITE_CHUNK in
  if hangup (tts s y) || (2 * n <=? room done) then write_loop (write_fuel data) (finish s) th y false data (Some room) ok done
  else if signal_pending (sg (ps s)) th then (finish s, TWrote (or_done done (- ERESTARTSYS)))
  else (set_state_of s th TASK_INTERRUPTIBLE, TWriteSleeps done).

(** [room] is what the driver answers now, [None] without flow control. *)
Definition tty_poll (t : tty) (room : option Z) : Z :=
  let m := match room with Some r => if (r <? 512) && negb (hangup t) then 0 else POLLOUT_MASK | None => POLLOUT_MASK end in
  let m := if can_read t || (negb (lflag t ICANON) && negb (ibuf_count t =? 0)) then Z.lor m POLLIN_MASK else m in
  if hangup t then Z.lor m POLLHUP else m.

(** ** Control *)

(** What the calls copy from user memory, [None] for a fault, and whether a
    copy to it succeeds. *)
Record tuser : Type := TUser { tu_termios : option termios; tu_winsize : option (list Z); tu_word : option Z; tu_put : bool }.

Inductive tcmd : Type :=
| TCGETS | TCSETS | TCSETSW | TCSETSF | TIOCGWINSZ | TIOCSWINSZ | TIOCGPGRP | TIOCSPGRP | TIOCGSID | TIOCSCTTY (arg : Z) | TIOCNOTTY
| FIONREAD | TIOCOUTQ | TCFLSH (arg : Z) | TCSBRK | TCXONC | TIOCSTI | FIONBIO | TOther.

(** What a call hands to the user: a word, the attributes or the size. *)
Inductive tvalue : Type := VNone | VWord (x : Z) | VTermios (x : termios) | VWinsize (x : list Z).

Definition put_word (u : tuser) (x : Z) : Z * tvalue := if tu_put u then (0, VWord x) else (- EFAULT, VNone).

(** Leaving canonical mode makes the line that is being typed readable. *)
Definition apply_termios (nt : termios) (t : tty) : tty :=
  let t' := set_tm nt t in
  if lflag t ICANON && negb (lflag t' ICANON) then set_ring (ibuf t') (ihead t') (itail t') (ihead t') t' else t'.

Definition set_attributes (s : tsys) (y : Z) (nt : termios) : tsys :=
  let s := upd_tty s y (apply_termios nt) in wake_queue s (read_wait (tts s y)).

Definition give_up_tty (s : tsys) (y : Z) : option tsys :=
  let pg := tty_pgrp (ps s) y in
  s ← (if 0 <? pg then s ← signal_group s pg SIGHUP; signal_group s pg SIGCONT else Some s);
  Some (upd_ps s (λ p, set_job p y 0 0)).

(** [th] is the current thread, of process [p]. *)
Definition tty_ioctl (s : tsys) (th p : Z) (f : tfile) (cmd : tcmd) (u : tuser) : option (tsys * tfile * (Z * tvalue)) :=
  let y := tf_tty f in
  let t := tts s y in
  let q := prc (sg (ps s)) p in
  let mine := bool_decide (p_tty (node (ps s) p) = Some y) in
  let ret s r := Some (s, f, r) in
  match cmd with
  | TCGETS => ret s (if tu_put u then (0, VTermios (tm t)) else (- EFAULT, VNone))
  | TCSETS | TCSETSW | TCSETSF =>
      let s := match cmd with TCSETSF => upd_tty s y flush_input | _ => s end in
      match tu_termios u with
      | None => ret s (- EFAULT, VNone)
      | Some nt => ret (set_attributes s y nt) (0, VNone)
      end
  | TIOCGWINSZ => ret s (if tu_put u then (0, VWinsize (winsize t)) else (- EFAULT, VNone))
  | TIOCSWINSZ =>
      match tu_winsize u with
      | None => ret s (- EFAULT, VNone)
      | Some w =>
          if bool_decide (w = winsize t) then ret s (0, VNone)
          else
            let s := upd_tty s y (set_winsize w) in
            s ← (if 0 <? tty_pgrp (ps s) y then signal_group s (tty_pgrp (ps s) y) SIGWINCH else Some s); ret s (0, VNone)
      end
  | TIOCGPGRP => if mine then ret s (put_word u (tty_pgrp (ps s) y)) else ret s (- ENOTTY, VNone)
  | TIOCSPGRP =>
      if negb mine || negb (tty_session (ps s) y =? sid q) then ret s (- ENOTTY, VNone)
      else
        match tu_word u with
        | None => ret s (- EFAULT, VNone)
        | Some pg =>
            if pg <=? 0 then ret s (- EINVAL, VNone)
            else if negb (existsb (λ k, (pgid (prc (sg (ps s)) k) =? pg) && (sid (prc (sg (ps s)) k) =? sid q)) (all_processes (sg (ps s)))) then ret s (- EPERM, VNone)
            else ret (upd_ps s (λ p, set_job p y (tty_session p y) pg)) (0, VNone)
        end
  | TIOCGSID => if mine then ret s (put_word u (tty_session (ps s) y)) else ret s (- ENOTTY, VNone)
  | TIOCSCTTY arg =>
      if negb (sid q =? pid q) then ret s (- EPERM, VNone)
      else if mine then ret s (0, VNone)
      else if negb (tty_session (ps s) y =? 0) && negb (tty_session (ps s) y =? sid q) && negb ((arg =? 1) && (euid q =? 0)) then ret s (- EPERM, VNone)
      else ret (upd_ps s (λ x, set_job (upd_node x p (set_tty (Some y))) y (sid q) (pgid q))) (0, VNone)
  | TIOCNOTTY =>
      if negb mine then ret s (- ENOTTY, VNone)
      else
        s ← (if sid q =? pid q then give_up_tty s y else Some s);
        ret (upd_ps s (λ x, upd_node x p (set_tty None))) (0, VNone)
  | FIONREAD => ret s (put_word u (if lflag t ICANON then sub32 (icanon_end t) (itail t) else ibuf_count t))
  | TIOCOUTQ => ret s (put_word u 0)
  | TCFLSH arg => ret (if (arg =? 0) || (arg =? 2) then upd_tty s y flush_input else s) (0, VNone)
  | TCSBRK | TCXONC => ret s (0, VNone)
  | TIOCSTI =>
      if negb mine && negb (euid q =? 0) then ret s (- EPERM, VNone)
      else match tu_word u with None => ret s (- EFAULT, VNone) | Some c => s ← tty_receive s y [c]; ret s (0, VNone) end
  | FIONBIO =>
      match tu_word u with None => ret s (- EFAULT, VNone) | Some on => Some (s, TFile y (negb (on =? 0)), (0, VNone)) end
  | TOther => ret s (- ENOTTY, VNone)
  end.

(** ** Open, close and hang-up *)

(** [p] is the process of the current thread, if it has one. *)
Definition tty_open_common (s : tsys) (p : option Z) (y : Z) (noctty : bool) : tsys :=
  let s := upd_tty s y (λ t, set_opens (opens t + 1) false t) in
  match p with
  | None => s
  | Some p =>
      let q := prc (sg (ps s)) p in
      if negb noctty && (sid q =? pid q) && bool_decide (p_tty (node (ps s) p) = None) && (tty_session (ps s) y =? 0)
      then upd_ps s (λ x, set_job (upd_node x p (set_tty (Some y))) y (sid q) (pgid q))
      else s
  end.

(** [tt] lists the registered terminals, [con] is the console. *)
Definition ttydev_open (s : tsys) (tt : list Z) (p : option Z) (minor : Z) (noctty : bool) : tsys * Z :=
  let idx := minor - 64 in
  if (idx <? 0) || (Z.of_nat (length tt) <=? idx) then (s, - ENXIO)
  else match tt !! Z.to_nat idx with None => (s, - ENXIO) | Some y => (tty_open_common s p y noctty, 0) end.
Definition console_open (s : tsys) (con : option Z) (p : option Z) (noctty : bool) : tsys * Z :=
  match con with None => (s, - ENXIO) | Some y => (tty_open_common s p y noctty, 0) end.
Definition devtty_open (s : tsys) (p : option Z) : tsys * Z :=
  match p ≫= (λ p, p_tty (node (ps s) p)) with
  | None => (s, - ENXIO)
  | Some y => (upd_tty s y (λ t, set_opens (opens t + 1) (hangup t) t), 0)
  end.
Definition tty_release (s : tsys) (y : Z) : tsys := upd_tty s y (λ t, set_opens (opens t - 1) (hangup t) t).

Definition tty_hangup (s : tsys) (y : Z) : option tsys :=
  let s := upd_tty s y (λ t, set_opens (opens t) true t) in
  let pg := tty_pgrp (ps s) y in let se := tty_session (ps s) y in
  s ← (if 0 <? pg then signal_group s pg SIGHUP else Some s);
  s ← (if (0 <? se) && negb (se =? pg) then signal_group s se SIGHUP else Some s);
  Some (wake_queue (wake_queue s (read_wait (tts s y))) (write_wait (tts s y))).
