(* ===== verification/TtySpec.v ===== *)
(** * Properties of terminals

    The ring buffer with its three positions implements a queue of finished
    lines and the line that is being typed; reads take lines from the queue.
    Writes hand the driver exactly the translation of what was written. *)

From stdpp Require Import functions.
From S2P Require Import Prelude Signal SignalSpec SignalInv Process ProcessSpec ProcessInv Tty.

(** ** The ring *)

Definition pos_ok (x : Z) : Prop := 0 ≤ x < U32.

Record tty_ok (t : tty) : Prop := {
  ty_pos : pos_ok (ihead t) ∧ pos_ok (itail t) ∧ pos_ok (icanon_end t);
  ty_room : ibuf_count t ≤ TTY_BUF - 1;
  ty_order : sub32 (icanon_end t) (itail t) ≤ ibuf_count t;
  ty_raw : lflag t ICANON = false → icanon_end t = ihead t;
}.

(** The [n] characters of the ring from position [x] on. *)
Definition chars (b : Z → Z) (x n : Z) : list Z := (λ i, b ((x + i) `mod` TTY_BUF)) <$> seqZ 0 n.

Definition ready (t : tty) : list Z := chars (ibuf t) (itail t) (sub32 (icanon_end t) (itail t)).
Definition line (t : tty) : list Z := chars (ibuf t) (icanon_end t) (sub32 (ihead t) (icanon_end t)).

Lemma U32_val : U32 = 4294967296.
Proof. done. Qed.
Lemma sub32_range x y : 0 ≤ sub32 x y < U32.
Proof. apply Z.mod_pos_bound. done. Qed.
Lemma sub32_eq x y d : 0 ≤ d < U32 → x = y + d ∨ x = y + d - U32 → sub32 x y = d.
Proof. unfold sub32, wrap32. intros Hd [-> | ->]; [replace (y + d - y) with d by lia; by apply Z.mod_small|]. replace (y + d - U32 - y) with (d + (-1) * U32) by lia. rewrite Z.mod_add by done. by apply Z.mod_small. Qed.
(** A position is [d] past another one, around the end of the numbers or not. *)
Lemma sub32_cases x y : pos_ok x → pos_ok y → (x = y + sub32 x y ∨ x = y + sub32 x y - U32).
Proof.
  unfold pos_ok, sub32, wrap32. intros Hx Hy. destruct (decide (y ≤ x)).
  - left. rewrite Z.mod_small by lia. lia.
  - right. replace (x - y) with (x - y + U32 + (-1) * U32) by lia. rewrite Z.mod_add by done. rewrite Z.mod_small by lia. lia.
Qed.
Lemma wrap32_succ x : pos_ok x → wrap32 (x + 1) = x + 1 ∨ wrap32 (x + 1) = x + 1 - U32.
Proof. unfold pos_ok, wrap32. intros Hx. destruct (decide (x + 1 = U32)) as [E|]; [right; rewrite E, Z.mod_same by done; lia|left; apply Z.mod_small; lia]. Qed.
Lemma wrap32_ok x : pos_ok (wrap32 x).
Proof. apply Z.mod_pos_bound. done. Qed.
Lemma ring_mod x : (x - U32) `mod` TTY_BUF = x `mod` TTY_BUF.
Proof. change U32 with (1048576 * TTY_BUF). replace (x - 1048576 * TTY_BUF) with (x + (-1048576) * TTY_BUF) by lia. apply Z.mod_add. done. Qed.
Lemma ring_wrap x : wrap32 x `mod` TTY_BUF = x `mod` TTY_BUF.
Proof.
  unfold wrap32. rewrite (Z.mod_eq x U32) by done. generalize (x / U32). intros k. change U32 with (1048576 * TTY_BUF). replace (x - 1048576 * TTY_BUF * k) with (x + (-1048576 * k) * TTY_BUF) by lia.
  apply Z.mod_add. done.
Qed.

Lemma chars_length b x n : length (chars b x n) = Z.to_nat n.
Proof. unfold chars. rewrite length_fmap. apply length_seqZ. Qed.
Lemma chars_0 b x : chars b x 0 = [].
Proof. done. Qed.
Lemma chars_ext b b' x x' n : (∀ i, 0 ≤ i < n → b ((x + i) `mod` TTY_BUF) = b' ((x' + i) `mod` TTY_BUF)) → chars b x n = chars b' x' n.
Proof. intros H. unfold chars. apply list_fmap_ext. intros j i Hi. apply lookup_seqZ in Hi as [-> Hi]. apply H. lia. Qed.
Lemma chars_snoc b x n : 0 ≤ n → chars b x (n + 1) = chars b x n ++ [b ((x + n) `mod` TTY_BUF)].
Proof. intros Hn. unfold chars. rewrite seqZ_app by lia. rewrite fmap_app. done. Qed.
Lemma chars_cons b x n : 0 ≤ n → chars b x (n + 1) = b (x `mod` TTY_BUF) :: chars b (x + 1) n.
Proof.
  intros Hn. unfold chars. rewrite Z.add_1_r, seqZ_cons by lia. rewrite Z.pred_succ. cbn [fmap list_fmap]. f_equal; [f_equal; f_equal; lia|].
  apply list_eq. intros i. rewrite !list_lookup_fmap. destruct (decide (Z.of_nat i < n)).
  - rewrite !lookup_seqZ_lt by lia. cbn. do 3 f_equal. lia.
  - rewrite !lookup_seqZ_ge by lia. done.
Qed.
Lemma chars_app b x n m : 0 ≤ n → 0 ≤ m → chars b x (n + m) = chars b x n ++ chars b (x + n) m.
Proof.
  intros Hn Hm. unfold chars. rewrite seqZ_app by lia. rewrite fmap_app. f_equal. apply list_eq. intros i. rewrite !list_lookup_fmap. destruct (decide (Z.of_nat i < m)).
  - rewrite !lookup_seqZ_lt by lia. cbn. do 3 f_equal. lia.
  - rewrite !lookup_seqZ_ge by lia. done.
Qed.
(** Positions that differ by a turn of the numbers hold the same characters. *)
Lemma chars_wrap b x n : chars b (x - U32) n = chars b x n.
Proof. apply chars_ext. intros i _. replace (x - U32 + i) with (x + i - U32) by lia. by rewrite ring_mod. Qed.

(** The part of the invariant that speaks of positions. *)
Record ring_ok (t : tty) : Prop := {
  rg_pos : pos_ok (ihead t) ∧ pos_ok (itail t) ∧ pos_ok (icanon_end t);
  rg_room : ibuf_count t ≤ TTY_BUF - 1;
  rg_order : sub32 (icanon_end t) (itail t) ≤ ibuf_count t;
}.

Lemma tty_ring t : tty_ok t → ring_ok t.
Proof. by intros []. Qed.

(** Everything in terms of the first position and two lengths. *)
Lemma ring_lengths t : ring_ok t →
  let n1 := sub32 (icanon_end t) (itail t) in let n := ibuf_count t in
  0 ≤ n1 ≤ n ∧ n ≤ TTY_BUF - 1 ∧ sub32 (ihead t) (icanon_end t) = n - n1 ∧
  (ihead t = itail t + n ∨ ihead t = itail t + n - U32) ∧ (icanon_end t = itail t + n1 ∨ icanon_end t = itail t + n1 - U32).
Proof.
  intros [(P1 & P2 & P3) H1 H2]. cbn zeta. pose proof (sub32_range (icanon_end t) (itail t)). pose proof (sub32_range (ihead t) (itail t)).
  pose proof (sub32_cases (ihead t) (itail t) P1 P2) as C1. pose proof (sub32_cases (icanon_end t) (itail t) P3 P2) as C2. unfold ibuf_count in *. split_and!; try lia; try done.
  apply sub32_eq; [lia|]. unfold pos_ok in *. lia.
Qed.

Lemma line_eq t : ring_ok t → line t = chars (ibuf t) (itail t + sub32 (icanon_end t) (itail t)) (ibuf_count t - sub32 (icanon_end t) (itail t)).
Proof. intros H. destruct (ring_lengths t H) as (_ & _ & E & _ & C). unfold line. rewrite E. set (n1 := sub32 (icanon_end t) (itail t)) in *. clearbody n1. destruct C as [-> | ->]; [done|]. apply chars_wrap. Qed.

Lemma ring_view t : ring_ok t → ready t ++ line t = chars (ibuf t) (itail t) (ibuf_count t).
Proof.
  intros H. rewrite (line_eq t H). destruct (ring_lengths t H) as (H1 & _). unfold ready. rewrite <-chars_app by lia. f_equal. lia.
Qed.
Lemma ready_length t : ring_ok t → Z.of_nat (length (ready t)) = sub32 (icanon_end t) (itail t).
Proof. intros H. destruct (ring_lengths t H) as (H1 & _). unfold ready. rewrite chars_length. lia. Qed.
Lemma line_length t : ring_ok t → Z.of_nat (length (line t)) = ibuf_count t - sub32 (icanon_end t) (itail t).
Proof. intros H. destruct (ring_lengths t H) as (H1 & _ & E & _). unfold line. rewrite chars_length. lia. Qed.
Lemma line_nil t : ring_ok t → line t = [] ↔ ihead t = icanon_end t.
Proof.
  intros H. pose proof (line_length t H) as L. destruct (ring_lengths t H) as (H1 & H2 & E & C1 & C2). destruct H as [(P1 & P2 & P3) _ _]. unfold pos_ok in *. split.
  - intros N. rewrite N in L. cbn in L. lia.
  - intros N. apply length_zero_iff_nil. rewrite N in E. unfold sub32 at 1, wrap32 in E. rewrite Z.sub_diag in E. change (0 `mod` U32) with 0 in E. lia.
Qed.
Lemma ready_nil t : ring_ok t → ready t = [] ↔ icanon_end t = itail t.
Proof.
  intros H. pose proof (ready_length t H) as L. destruct (ring_lengths t H) as (H1 & H2 & E & C1 & C2). destruct H as [(P1 & P2 & P3) _ _]. unfold pos_ok in *. split.
  - intros N. rewrite N in L. cbn in L. lia.
  - intros N. apply length_zero_iff_nil. rewrite N in L. unfold sub32, wrap32 in L. rewrite Z.sub_diag in L. change (0 `mod` U32) with 0 in L. lia.
Qed.

(** Two terminals with the same input side. *)
Definition same_input (t t' : tty) : Prop :=
  tm t' = tm t ∧ ibuf t' = ibuf t ∧ ihead t' = ihead t ∧ itail t' = itail t ∧ icanon_end t' = icanon_end t ∧ lnext t' = lnext t.
#[export] Instance same_input_refl : Reflexive same_input.
Proof. by repeat split. Qed.
#[export] Instance same_input_trans : Transitive same_input.
Proof. intros a b c (A1 & A2 & A3 & A4 & A5 & A6) (B1 & B2 & B3 & B4 & B5 & B6). split_and!; congruence. Qed.

Lemma same_input_ok t t' : same_input t t' → tty_ok t → tty_ok t'.
Proof. intros (E1 & E2 & E3 & E4 & E5 & E6) [H1 H2 H3 H4]. split; unfold ibuf_count, lflag in *; rewrite ?E1, ?E3, ?E4, ?E5; done. Qed.
Lemma same_input_view t t' : same_input t t' → ready t' = ready t ∧ line t' = line t ∧ lnext t' = lnext t ∧ tm t' = tm t.
Proof. intros (E1 & E2 & E3 & E4 & E5 & E6). unfold ready, line. by rewrite E1, E2, E3, E4, E5, E6. Qed.

Lemma tty_out_same t l : same_input t (tty_out t l).
Proof. by repeat split. Qed.
Lemma out_char_same t c : same_input t (out_char t c).
Proof. unfold out_char. destruct (_ && _ && _); [by repeat split|]. by repeat case_match; repeat split. Qed.
Lemma echo_char_same t c : same_input t (echo_char t c).
Proof.
  unfold echo_char. destruct (negb (lflag t ECHO)); [destruct (_ && _); [apply out_char_same|done]|]. destruct (_ && negb (c =? TAB)); [by repeat split|apply out_char_same].
Qed.

(** *** The four moves of the positions *)

Lemma push_spec t c :
  ring_ok t → ibuf_count t < TTY_BUF - 1 →
  let t' := set_ring (<[ihead t `mod` TTY_BUF := c]> (ibuf t)) (wrap32 (ihead t + 1)) (itail t) (icanon_end t) t in
  ring_ok t' ∧ ready t' = ready t ∧ line t' = line t ++ [c].
Proof.
  pose proof U32_val as HU. intros H Hn. cbn zeta. set (t' := set_ring _ _ _ _ t). pose proof (ring_lengths t H) as (H1 & H2 & E & C1 & C2). pose proof H as [(P1 & P2 & P3) _ _]. cbn zeta in *.
  assert (ibuf_count t' = ibuf_count t + 1) as En by (unfold ibuf_count at 1; cbn; apply sub32_eq; [lia|]; pose proof (wrap32_ok (ihead t + 1)); destruct (wrap32_succ (ihead t) P1); unfold pos_ok in *; lia).
  assert (ring_ok t') as H'. { split; [split_and!; [apply wrap32_ok|done|done]|lia|rewrite En; change (icanon_end t') with (icanon_end t); change (itail t') with (itail t); lia]. }
  assert (∀ i, 0 ≤ i < ibuf_count t → ibuf t' ((itail t + i) `mod` TTY_BUF) = ibuf t ((itail t + i) `mod` TTY_BUF)) as Hb.
  { intros i Hi. cbn. apply fn_lookup_insert_ne. intros Heq.
    assert (ihead t `mod` TTY_BUF = (itail t + ibuf_count t) `mod` TTY_BUF) as Eh by (destruct C1 as [-> | ->]; [done|apply ring_mod]). rewrite Eh in Heq.
    pose proof (Z.div_mod (itail t + ibuf_count t) TTY_BUF). pose proof (Z.div_mod (itail t + i) TTY_BUF). lia. }
  split; [done|]. assert (ready t' = ready t) as Hr. { unfold ready. change (icanon_end t') with (icanon_end t). change (itail t') with (itail t). apply chars_ext. intros i Hi. apply Hb. lia. }
  split; [done|]. apply (app_inv_head (ready t)). rewrite <-Hr at 1. rewrite (ring_view t' H'), app_assoc, (ring_view t H), En. change (itail t') with (itail t).
  rewrite chars_snoc by lia. f_equal; [apply chars_ext; auto|]. f_equal. cbn.
  replace (ihead t `mod` TTY_BUF) with ((itail t + ibuf_count t) `mod` TTY_BUF) by (destruct C1 as [-> | ->]; [done|symmetry; apply ring_mod]). by rewrite fn_lookup_insert.
Qed.

Lemma complete_spec t :
  ring_ok t → let t' := set_ring (ibuf t) (ihead t) (itail t) (ihead t) t in ring_ok t' ∧ ready t' = ready t ++ line t ∧ line t' = [].
Proof.
  intros H. cbn zeta. set (t' := set_ring _ _ _ _ t). pose proof H as [(P1 & P2 & P3) H1 H2]. assert (ring_ok t') as H' by (split; [done|done|change (ibuf_count t' ≤ ibuf_count t'); lia]).
  split; [done|]. assert (line t' = []) as Hl by (by apply line_nil). split; [|done]. pose proof (ring_view t' H') as V. rewrite Hl, app_nil_r in V. rewrite V. symmetry. apply (ring_view t H).
Qed.

Lemma pop_spec t :
  ring_ok t → ihead t ≠ icanon_end t →
  let t' := set_ring (ibuf t) (sub32 (ihead t) 1) (itail t) (icanon_end t) t in ring_ok t' ∧ ready t' = ready t ∧ line t = line t' ++ [last_char t].
Proof.
  pose proof U32_val as HU. intros H Hne. cbn zeta. set (t' := set_ring _ _ _ _ t). pose proof (ring_lengths t H) as (H1 & H2 & E & C1 & C2). pose proof H as [(P1 & P2 & P3) _ _]. cbn zeta in *.
  assert (sub32 (icanon_end t) (itail t) < ibuf_count t) as Hlt by (unfold pos_ok in *; lia).
  assert (sub32 (ihead t) 1 = ihead t - 1 ∨ sub32 (ihead t) 1 = ihead t - 1 + U32) as Hs.
  { pose proof (sub32_cases (ihead t) 1 P1 ltac:(unfold pos_ok; change U32 with 4294967296; lia)). lia. }
  assert (ibuf_count t' = ibuf_count t - 1) as En. { unfold ibuf_count at 1. cbn. pose proof (sub32_range (ihead t) 1). apply sub32_eq; unfold pos_ok in *; lia. }
  assert (ring_ok t') as H'. { split; [split_and!; [apply wrap32_ok|done|done]|lia|rewrite En; change (icanon_end t') with (icanon_end t); change (itail t') with (itail t); lia]. }
  split; [done|]. split; [done|]. apply (app_inv_head (ready t)). rewrite (ring_view t H). change (ready t) with (ready t'). rewrite app_assoc, (ring_view t' H'), En. change (itail t') with (itail t). change (ibuf t') with (ibuf t).
  replace (ibuf_count t) with (ibuf_count t - 1 + 1) at 1 by lia. rewrite chars_snoc by lia. do 2 f_equal. unfold last_char. f_equal. unfold sub32. rewrite ring_wrap. destruct C1 as [-> | ->]; [f_equal; lia|].
  replace (itail t + ibuf_count t - U32 - 1) with (itail t + (ibuf_count t - 1) - U32) by lia. by rewrite ring_mod.
Qed.

Lemma ring_advance_spec t :
  ring_ok t → itail t ≠ icanon_end t →
  let t' := set_ring (ibuf t) (ihead t) (wrap32 (itail t + 1)) (icanon_end t) t in
  ring_ok t' ∧ ready t = ibuf t (itail t `mod` TTY_BUF) :: ready t' ∧ line t' = line t ∧ ibuf_count t' = ibuf_count t - 1.
Proof.
  pose proof U32_val as HU. intros H Hne. cbn zeta. set (t' := set_ring _ _ _ _ t). pose proof (ring_lengths t H) as (H1 & H2 & E & C1 & C2). pose proof H as [(P1 & P2 & P3) _ _]. cbn zeta in *.
  assert (0 < sub32 (icanon_end t) (itail t)) as Hlt by (unfold pos_ok in *; lia). pose proof (wrap32_succ (itail t) P2) as Hw. pose proof (wrap32_ok (itail t + 1)) as Hwo.
  assert (ibuf_count t' = ibuf_count t - 1) as En. { unfold ibuf_count at 1. cbn. apply sub32_eq; unfold pos_ok in *; lia. }
  assert (sub32 (icanon_end t') (itail t') = sub32 (icanon_end t) (itail t) - 1) as E1. { cbn. apply sub32_eq; unfold pos_ok in *; lia. }
  assert (ring_ok t') as H'. { split; [split_and!; [done|apply wrap32_ok|done]|lia|rewrite En, E1; lia]. }
  split; [done|]. split; [|split; [done|done]]. unfold ready. rewrite E1. replace (sub32 (icanon_end t) (itail t)) with (sub32 (icanon_end t) (itail t) - 1 + 1) at 1 by lia.
  rewrite chars_cons by lia. f_equal. cbn. destruct Hw as [-> | ->]; [done|]. by rewrite chars_wrap.
Qed.

(** ** The line editor *)

(** The finished lines, the line that is being typed, and whether the next
    character is taken as it is. *)
Record edit : Type := Edit { e_ready : list Z; e_line : list Z; e_quote : bool }.
Definition view (t : tty) : edit := Edit (ready t) (line t) (lnext t).

(** The list without its last elements that satisfy [f]. *)
Fixpoint strip (f : Z → bool) (l : list Z) : list Z :=
  match l with
  | [] => []
  | c :: l => match strip f l with [] => if f c then [] else [c] | l' => c :: l' end
  end.

Lemma strip_snoc f l c : strip f (l ++ [c]) = if f c then strip f l else l ++ [c].
Proof.
  induction l as [|x l IH]; [done|]. cbn. rewrite IH. destruct (f c); [done|]. by destruct l.
Qed.

Definition kflag (k : termios) (f : Z) : bool := has_flag (c_lflag k) f.
(** Characters that finish a line. *)
Definition ends (k : termios) (c : Z) : bool := (c =? NL) || (c =? c_cc k VEOF) || (c =? c_cc k VEOL).

Definition edit_store (k : termios) (e : edit) (c : Z) : edit * ievent :=
  let n := Z.of_nat (length (e_ready e)) + Z.of_nat (length (e_line e)) in
  if TTY_BUF - 1 <=? n then (e, INone)
  else if kflag k ICANON && negb (ends k c) then (Edit (e_ready e) (e_line e ++ [c]) (e_quote e), INone)
  else (Edit (e_ready e ++ e_line e ++ [c]) [] (e_quote e), IWake).

(** The translation of carriage returns and newlines. *)
Definition edit_crnl (k : termios) (c : Z) : Z :=
  if has_flag (c_iflag k) ICRNL && (c =? CR) then NL else if has_flag (c_iflag k) INLCR && (c =? NL) then CR else c.
Definition edit_signal (k : termios) (c : Z) : Z :=
  if negb (kflag k ISIG) || (c =? 0) then 0
  else if c =? c_cc k VINTR then SIGINT else if c =? c_cc k VQUIT then SIGQUIT else if c =? c_cc k VSUSP then SIGTSTP else 0.

Definition edit_char (k : termios) (e : edit) (c : Z) : edit * ievent :=
  let set_line l := Edit (e_ready e) l (e_quote e) in
  if e_quote e then edit_store k (Edit (e_ready e) (e_line e) false) c
  else if has_flag (c_iflag k) IGNCR && (c =? CR) then (e, INone)
  else
    let c := edit_crnl k c in
    let sig := edit_signal k c in
    if negb (sig =? 0) then (if kflag k NOFLSH then e else Edit [] [] false, ISignal sig)
    else if negb (kflag k ICANON) then edit_store k e c
    else if (c =? c_cc k VERASE) || (c =? BS) then (set_line (removelast (e_line e)), INone)
    else if c =? c_cc k VKILL then (set_line [], INone)
    else if (c =? c_cc k VWERASE) && kflag k IEXTEN
    then (set_line (strip (λ x, negb (x =? SPACE)) (strip (λ x, x =? SPACE) (e_line e))), INone)
    else if (c =? c_cc k VLNEXT) && kflag k IEXTEN then (Edit (e_ready e) (e_line e) true, INone)
    else edit_store k e c.

Lemma ring_tty t : ring_ok t → (lflag t ICANON = false → icanon_end t = ihead t) → tty_ok t.
Proof. by intros [] H. Qed.
Lemma same_input_ring t t' : same_input t t' → ring_ok t → ring_ok t'.
Proof. intros (E1 & E2 & E3 & E4 & E5 & E6) [H1 H2 H3]. split; unfold ibuf_count in *; rewrite ?E3, ?E4, ?E5; done. Qed.

Lemma store_refines t c : tty_ok t → let '(t', ev) := store_char t c in tty_ok t' ∧ tm t' = tm t ∧ edit_store (tm t) (view t) c = (view t', ev).
Proof.
  intros Ht. pose proof (tty_ring t Ht) as H. unfold store_char, edit_store. cbn [view e_ready e_line e_quote]. cbn zeta. rewrite (ready_length t H), (line_length t H).
  replace (sub32 (icanon_end t) (itail t) + (ibuf_count t - sub32 (icanon_end t) (itail t))) with (ibuf_count t) by lia.
  destruct (Z.leb_spec (TTY_BUF - 1) (ibuf_count t)) as [|Hn]; [done|]. destruct (push_spec t c H Hn) as (H1 & R1 & L1). set (t1 := set_ring _ _ _ _ t) in *.
  assert (tm t1 = tm t ∧ lnext t1 = lnext t) as [Etm Eln] by done. clearbody t1. unfold ends, kflag. fold (lflag t ICANON).
  assert (∀ x, same_input t1 x → lflag t1 ICANON = true → tty_ok x ∧ tm x = tm t ∧ view x = Edit (ready t) (line t ++ [c]) (lnext t)) as Hplain.
  { intros x Hx Hc. destruct (same_input_view _ _ Hx) as (V1 & V2 & V3 & V4). split; [apply ring_tty; [by eapply same_input_ring|unfold lflag in *; rewrite V4; congruence]|]. split; [congruence|]. unfold view. congruence. }
  assert (∀ x, same_input t1 x → tty_ok (set_ring (ibuf x) (ihead x) (itail x) (ihead x) x) ∧ tm x = tm t ∧ view (set_ring (ibuf x) (ihead x) (itail x) (ihead x) x) = Edit (ready t ++ line t ++ [c]) [] (lnext t)) as Hend.
  { intros x Hx. destruct (same_input_view _ _ Hx) as (V1 & V2 & V3 & V4). destruct (complete_spec x) as (C1 & C2 & C3); [by eapply same_input_ring|]. split; [by apply ring_tty|]. split; [congruence|].
    unfold view. rewrite C2, C3, V1, V2, R1, L1. cbn. congruence. }
  unfold lflag, cc in *. rewrite Etm. fold (lflag t ICANON). destruct (lflag t ICANON) eqn:Ec; cbn [andb].
  - destruct ((c =? NL) || (c =? c_cc (tm t) VEOF) || (c =? c_cc (tm t) VEOL)).
    + destruct (Hend (if c =? c_cc (tm t) VEOF then t1 else echo_char t1 c)) as (A & B & C); [destruct (_ =? _); [done|apply echo_char_same]|]. rewrite C. done.
    + destruct (Hplain (echo_char t1 c) (echo_char_same t1 c)) as (A & B & C); [by rewrite Etm|]. rewrite C. done.
  - destruct (Hend (echo_char t1 c) (echo_char_same t1 c)) as (A & B & C). rewrite C. done.
Qed.

(** Erasing changes the line and the output only. *)
Definition erased (t t' : tty) (l : list Z) : Prop := ring_ok t' ∧ tm t' = tm t ∧ lnext t' = lnext t ∧ ready t' = ready t ∧ line t' = l.

Lemma erase_one_spec t : ring_ok t → erased t (erase_one t) (removelast (line t)).
Proof.
  intros H. unfold erase_one. destruct (Z.eqb_spec (ihead t) (icanon_end t)) as [E|E].
  { assert (line t = []) as L by (by apply line_nil). rewrite L. done. }
  destruct (pop_spec t H E) as (H1 & R1 & L1). rewrite L1, removelast_last. cbn zeta. set (t1 := set_ring _ _ _ _ t) in *. assert (tm t1 = tm t ∧ lnext t1 = lnext t) as [E1 E2] by done. clearbody t1.
  destruct (_ && _); [|done]. destruct (same_input_view _ _ (tty_out_same t1 (if (last_char t <? 32) && lflag t1 ECHOCTL then [BS; SPACE; BS; BS; SPACE; BS] else [BS; SPACE; BS]))) as (V1 & V2 & V3 & V4).
  split; [by eapply same_input_ring; [apply tty_out_same|]|]. split; [congruence|]. split; [congruence|]. split; congruence.
Qed.

Lemma erase_while_spec n t f : ring_ok t → (length (line t) ≤ n)%nat → erased t (erase_while n t f) (strip f (line t)).
Proof.
  revert t. induction n as [|n IH]; intros t H Hn; cbn [erase_while].
  { assert (line t = []) as L by (apply length_zero_iff_nil; lia). rewrite L. done. }
  destruct (Z.eqb_spec (ihead t) (icanon_end t)) as [E|E]; cbn [orb].
  { assert (line t = []) as L by (by apply line_nil). rewrite L. done. }
  destruct (pop_spec t H E) as (_ & _ & L1). set (l1 := line (set_ring _ _ _ _ t)) in L1. rewrite L1, strip_snoc. destruct (f (last_char t)); cbn [negb]; [|done].
  destruct (erase_one_spec t H) as (H2 & E2 & N2 & R2 & L2). rewrite L1, removelast_last in L2. rewrite L1, length_app in Hn. cbn in Hn.
  destruct (IH (erase_one t) H2) as (A & B & C & D & F); [rewrite L2; lia|]. rewrite L2 in F. split; [done|]. split; [congruence|]. split; [congruence|]. split; congruence.
Qed.
Lemma erase_all_spec t f : ring_ok t → erased t (erase_all t f) (strip f (line t)).
Proof. intros H. apply erase_while_spec; [done|]. pose proof (line_length t H). destruct (ring_lengths t H) as (H1 & _ & E & _). cbn zeta in *. lia. Qed.

Lemma strip_true l : strip (λ _, true) l = [].
Proof. induction l as [|c l IH]; [done|]. cbn. by rewrite IH. Qed.

Lemma erased_ok t t' l : lflag t ICANON = true → erased t t' l → tty_ok t' ∧ tm t' = tm t ∧ view t' = Edit (ready t) l (lnext t).
Proof.
  intros Hc (H1 & H2 & H3 & H4 & H5). split; [apply ring_tty; [done|unfold lflag in *; rewrite H2; congruence]|]. split; [done|]. unfold view. congruence.
Qed.

Lemma flush_spec t : tty_ok t → let t' := flush_input t in tty_ok t' ∧ tm t' = tm t ∧ view t' = Edit [] [] (lnext t).
Proof. intros _. cbn zeta. split; [|done]. split; done. Qed.

(** One character does to the ring what it does to the lists. *)
Lemma input_refines t c : tty_ok t → let '(t', ev) := input_char t c in tty_ok t' ∧ tm t' = tm t ∧ edit_char (tm t) (view t) c = (view t', ev).
Proof.
  intros Ht. pose proof (tty_ring t Ht) as H. unfold input_char, edit_char. cbn [view e_quote e_ready e_line]. destruct (lnext t) eqn:En.
  { assert (tty_ok (set_lnext false t)) as Ht' by (destruct Ht; by split). exact (store_refines (set_lnext false t) c Ht'). }
  unfold iflag. destruct (_ && (c =? CR)); [unfold view; by rewrite En|]. cbn zeta. fold (edit_crnl (tm t) c). set (d := edit_crnl (tm t) c). clearbody d.
  assert (negb (signal_of t d =? 0) && negb (d =? 0) = negb (edit_signal (tm t) d =? 0) ∧ (negb (edit_signal (tm t) d =? 0) = true → signal_of t d = edit_signal (tm t) d)) as [-> Hsig].
  { unfold signal_of, edit_signal, kflag, lflag, cc. destruct (has_flag _ ISIG), (d =? 0); cbn [negb orb]; rewrite ?andb_false_r, ?andb_true_r; try done. }
  destruct (negb (edit_signal _ _ =? 0)).
  { rewrite Hsig by done. destruct (same_input_view _ _ (echo_char_same t d)) as (V1 & V2 & V3 & V4). pose proof (same_input_ok _ _ (echo_char_same t d) Ht) as Hok. unfold lflag, kflag. rewrite V4. destruct (has_flag _ NOFLSH).
    - split; [done|]. split; [done|]. unfold view. rewrite V1, V2, V3, En. done.
    - destruct (flush_spec _ Hok) as (F1 & F2 & F3). split; [done|]. split; [congruence|]. rewrite F3, V3, En. done. }
  fold (kflag (tm t) ICANON). change (lflag t ICANON) with (kflag (tm t) ICANON). unfold cc. change (lflag t IEXTEN) with (kflag (tm t) IEXTEN). destruct (kflag (tm t) ICANON) eqn:Ec; cbn [negb].
  2: { exact (store_refines t d Ht). }
  destruct (_ || (d =? BS)). { destruct (erased_ok _ _ _ Ec (erase_one_spec t H)) as (A & B & C). rewrite C, En. done. }
  destruct (d =? _). { pose proof (erase_all_spec t (λ _, true) H) as Hk. rewrite strip_true in Hk. destruct (erased_ok _ _ _ Ec Hk) as (A & B & C). rewrite C, En. done. }
  destruct (_ && kflag (tm t) IEXTEN).
  { destruct (erase_all_spec t (λ x, x =? SPACE) H) as (A1 & A2 & A3 & A4 & A5). pose proof (erase_all_spec _ (λ x, negb (x =? SPACE)) A1) as (B1 & B2 & B3 & B4 & B5).
    assert (erased t (erase_all (erase_all t (λ x, x =? SPACE)) (λ x, negb (x =? SPACE))) (strip (λ x, negb (x =? SPACE)) (strip (λ x, x =? SPACE) (line t)))) as Hw by (split_and!; congruence).
    destruct (erased_ok _ _ _ Ec Hw) as (A & B & C). rewrite C, En. done. }
  destruct (_ && kflag (tm t) IEXTEN). { split; [destruct Ht; by split|]. split; done. }
  exact (store_refines t d Ht).
Qed.

(** ** Reading *)

(** At most [n] characters of the finished lines, up to the end of the first of
    them; the character of VEOF ends a line and is not returned. *)
Fixpoint cut (eof : Z) (n : nat) (l : list Z) : list Z * list Z * bool :=
  match n, l with
  | O, _ => ([], l, false)
  | _, [] => ([], [], false)
  | S n, c :: l =>
      if c =? eof then ([], l, true)
      else if c =? NL then ([c], l, true)
      else let '(a, b, e) := cut eof n l in (c :: a, b, e)
  end.
Definition cut_mode (canon : bool) (eof : Z) (n : nat) (l : list Z) : list Z * list Z * bool :=
  if canon then cut eof n l else (firstn n l, skipn n l, false).

Lemma cut_mode_nil canon eof n : cut_mode canon eof n [] = ([], [], false).
Proof. unfold cut_mode. destruct canon; [by destruct n|]. by rewrite take_nil, drop_nil. Qed.

(** A cut in two steps. *)
Lemma cut_mode_add canon eof n m l a b : cut_mode canon eof n l = (a, b, false) →
  cut_mode canon eof (n + m) l = let '(a', b', e) := cut_mode canon eof m b in (a ++ a', b', e).
Proof.
  unfold cut_mode. destruct canon.
  - revert l a b. induction n as [|n IH]; intros l a b E; cbn [cut Nat.add] in *.
    { injection E as <- <-. by destruct (cut eof m l) as [[a' b'] e]. }
    destruct l as [|c l]; [injection E as <- <-; by destruct m|]. destruct (c =? eof); [done|]. destruct (c =? NL); [done|]. destruct (cut eof n l) as [[a1 b1] e1] eqn:E1.
    injection E as <- <- ->. rewrite (IH l a1 b1 E1). by destruct (cut eof m b1) as [[a' b'] e].
  - intros [= <- <-]. rewrite drop_drop. do 2 f_equal. by rewrite take_take_drop.
Qed.

Lemma cut_mode_length canon eof n l a b e : cut_mode canon eof n l = (a, b, e) → (length b ≤ length l)%nat ∧ (length a ≤ n)%nat ∧ (a = [] → e = false → n = O ∨ l = []) ∧ (a ≠ [] → length b < length l)%nat.
Proof.
  unfold cut_mode. destruct canon.
  - revert l a b e. induction n as [|n IH]; intros l a b e E; cbn [cut] in E; [injection E as <- <- <-; naive_solver lia|]. destruct l as [|c l]; [injection E as <- <- <-; cbn; naive_solver lia|].
    destruct (c =? eof); [injection E as <- <- <-; cbn; split_and!; [lia|lia|done|done]|]. destruct (c =? NL); [injection E as <- <- <-; cbn; split_and!; [lia|lia|done|lia]|].
    destruct (cut eof n l) as [[a1 b1] e1] eqn:E1. injection E as <- <- <-. destruct (IH _ _ _ _ E1) as (A & B & _). cbn. split_and!; [lia|lia|done|lia].
  - intros [= <- <- <-]. rewrite length_drop, length_take. split_and!; [lia|lia| |].
    + intros N _. apply (f_equal length) in N. rewrite length_take in N. cbn in N. destruct n; [by left|right]. apply length_zero_iff_nil. lia.
    + intros N. destruct n; [done|]. destruct l; [by rewrite take_nil in N|cbn; lia].
Qed.

(** Taking characters moves the first position only. *)
Definition taken (t t' : tty) (r : list Z) : Prop := ring_ok t' ∧ tm t' = tm t ∧ lnext t' = lnext t ∧ icanon_end t' = icanon_end t ∧ ihead t' = ihead t ∧ line t' = line t ∧ ready t' = r.

Lemma taken_refl t : ring_ok t → taken t t (ready t).
Proof. intros H. split_and!; done. Qed.

Lemma take_chars_spec k t canon : ring_ok t → ∃ t' l e, take_chars k t canon (icanon_end t) = (t', l, e) ∧ taken t t' (cut_mode canon (cc t VEOF) k (ready t)).1.2 ∧
  cut_mode canon (cc t VEOF) k (ready t) = (l, ready t', e).
Proof.
  revert t. induction k as [|k IH]; intros t H; cbn [take_chars].
  { exists t, [], false. pose proof (taken_refl t H). unfold cut_mode. destruct canon; cbn; by rewrite ?drop_0. }
  destruct (Z.eqb_spec (itail t) (icanon_end t)) as [E|E].
  { assert (ready t = []) as R by (by apply ready_nil). exists t, [], false. pose proof (taken_refl t H) as Hr. rewrite R in *. rewrite cut_mode_nil. done. }
  destruct (ring_advance_spec t H E) as (H1 & R1 & L1 & _). set (t1 := set_ring _ _ _ _ t) in *. set (c := ibuf t (itail t `mod` TTY_BUF)) in *.
  assert (tm t1 = tm t ∧ lnext t1 = lnext t ∧ icanon_end t1 = icanon_end t ∧ ihead t1 = ihead t) as (E1 & E2 & E3 & E4) by done. clearbody t1 c. cbn zeta. unfold cc in *. rewrite E1, R1.
  assert (∀ t' r, taken t1 t' r → taken t t' r) as Ht by (intros t' r (A & B & C & D & F & G & I); split_and!; congruence).
  assert (taken t1 t1 (ready t1)) as Hself by (by apply taken_refl).
  assert (∃ t' l e, take_chars k t1 canon (icanon_end t) = (t', l, e) ∧ taken t1 t' (cut_mode canon (c_cc (tm t) VEOF) k (ready t1)).1.2 ∧ cut_mode canon (c_cc (tm t) VEOF) k (ready t1) = (l, ready t', e)) as (t' & l & e & K1 & K2 & K3).
  { rewrite <-E3. destruct (IH t1 H1) as (t' & l & e & K). rewrite E1 in K. eauto. }
  destruct canon; cbn [andb]; unfold cut_mode in *; cbn [cut firstn skipn].
  - destruct (c =? c_cc (tm t) VEOF); [exists t1, [], true; split; [done|]; split; [by apply Ht|done]|]. destruct (c =? NL); [exists t1, [c], true; split; [done|]; split; [by apply Ht|done]|].
    rewrite K1. exists t', (c :: l), e. split; [done|]. destruct (cut _ k (ready t1)) as [[a b] e']. injection K3 as -> -> ->. split; [by apply Ht|done].
  - rewrite K1. exists t', (c :: l), e. split; [done|]. injection K3 as <- K3 <-. split; [by apply Ht|]. by rewrite K3.
Qed.

Lemma cut_mode_end canon eof n m l a b : cut_mode canon eof n l = (a, b, true) → cut_mode canon eof (n + m) l = (a, b, true).
Proof.
  unfold cut_mode. destruct canon; [|done]. revert l a b. induction n as [|n IH]; intros l a b E; cbn [cut Nat.add] in *; [done|]. destruct l as [|c l]; [done|].
  destruct (c =? eof); [done|]. destruct (c =? NL); [done|]. destruct (cut eof n l) as [[a1 b1] e1] eqn:E1. injection E as <- <- ->. by rewrite (IH l a1 b1 E1).
Qed.
Lemma cut_mode_short canon eof n l a b : cut_mode canon eof n l = (a, b, false) → (length a < n)%nat → b = [].
Proof.
  unfold cut_mode. destruct canon.
  - revert l a b. induction n as [|n IH]; intros l a b E Hl; cbn [cut] in E; [lia|]. destruct l as [|c l]; [by injection E|]. destruct (c =? eof); [done|]. destruct (c =? NL); [done|].
    destruct (cut eof n l) as [[a1 b1] e1] eqn:E1. injection E as <- <- ->. apply (IH l a1 b1 E1). cbn in Hl. lia.
  - intros [= <- <-] Hl. rewrite length_take in Hl. apply skipn_all2. lia.
Qed.

Lemma taken_trans a b c r r' : taken a b r → taken b c r' → taken a c r'.
Proof. intros (A1 & A2 & A3 & A4 & A5 & A6 & A7) (B1 & B2 & B3 & B4 & B5 & B6 & B7). split_and!; congruence. Qed.

(** *** A read that nobody disturbs *)

(** Its loop as one piece: the characters copied, and whether it ended without a
    fault; [ok] tells whether the copy at an offset succeeds. *)
Fixpoint read_loop (fuel : nat) (t : tty) (canon : bool) (len : Z) (done : list Z) (ok : Z → bool) : tty * (Z * list Z) * bool :=
  let n := Z.of_nat (length done) in
  match fuel with
  | O => (t, (n, done), true)
  | S fuel =>
      if n <? len then
        let '(t, l, eol) := read_chunk t canon (len - n) in
        if bool_decide (l = []) && negb eol then (t, (n, done), true)
        else if negb (bool_decide (l = [])) && negb (ok n) then (t, (if n =? 0 then - EFAULT else n, done), false)
        else if eol then (t, (n + Z.of_nat (length l), done ++ l), true)
        else read_loop fuel t canon len (done ++ l) ok
      else (t, (n, done), true)
  end.

(** The sections of a read one after the other. *)
Fixpoint read_on (fuel : nat) (t : tty) (w : tread) (ok : Z → bool) : tty * tread :=
  match fuel, w with
  | S fuel, TReadCopies c => let '(t, w) := read_copied t c (ok (Z.of_nat (length (rc_done c)))) in read_on fuel t w ok
  | _, _ => (t, w)
  end.

(** The position of the reader [d] characters further. *)
Definition adv (t : tty) (d : Z) : tty := set_ring (ibuf t) (ihead t) (wrap32 (itail t + d)) (icanon_end t) t.

Lemma wrap32_id x : pos_ok x → wrap32 x = x.
Proof. unfold pos_ok, wrap32. apply Z.mod_small. Qed.
Lemma adv_0 t : pos_ok (itail t) → adv t 0 = t.
Proof. intros H. unfold adv. rewrite Z.add_0_r, wrap32_id by done. by destruct t. Qed.
Lemma adv_add t a b : adv (adv t a) b = adv t (a + b).
Proof. unfold adv. cbn. assert (wrap32 (wrap32 (itail t + a) + b) = wrap32 (itail t + (a + b))) as ->; [|done]. unfold wrap32. by rewrite Zplus_mod_idemp_l, Z.add_assoc. Qed.
Lemma sub32_adv L x d : pos_ok L → pos_ok x → 0 ≤ d ≤ sub32 L x → sub32 L (wrap32 (x + d)) = sub32 L x - d.
Proof.
  intros HL Hx Hd. pose proof (sub32_range L x). unfold sub32, wrap32 in *. rewrite Zminus_mod_idemp_r. symmetry. apply Z.mod_unique_pos with ((L - x) `div` U32); [lia|]. pose proof (Z.div_mod (L - x) U32 ltac:(by vm_compute)). lia.
Qed.

(** A section takes [d] characters before its limit, at least one unless it finds
    nothing. *)
Lemma take_adv k : ∀ t canon L, pos_ok L → pos_ok (itail t) →
  ∃ d l e, take_chars k t canon L = (adv t d, l, e) ∧ 0 ≤ d ≤ sub32 L (itail t) ∧ (d = 0 → l = [] ∧ e = false).
Proof.
  induction k as [|k IH]; intros t canon L HL Ht; pose proof (sub32_range L (itail t)) as Hr; cbn [take_chars]; [exists 0, [], false; by rewrite adv_0; [split; [|split; [lia|]]|]|].
  destruct (Z.eqb_spec (itail t) L) as [E|E]; [exists 0, [], false; by rewrite adv_0; [split; [|split; [lia|]]|]|]. fold (adv t 1).
  assert (sub32 L (itail t) ≠ 0) as Hne. { intros E0. destruct (sub32_cases L (itail t) HL Ht) as [F|F]; unfold pos_ok in *; lia. }
  cbn zeta. destruct (_ && _); [exists 1, [], true; split; [done|lia]|]. destruct (_ && _); [eexists 1, _, true; split; [done|lia]|].
  destruct (IH (adv t 1) canon L HL ltac:(apply wrap32_ok)) as (d & l & e & -> & Hd & _). rewrite adv_add. eexists _, _, _. split; [done|]. change (itail (adv t 1)) with (wrap32 (itail t + 1)) in Hd. rewrite sub32_adv in Hd by (done || lia). lia.
Qed.

Definition limit_of (t : tty) (canon : bool) : Z := if canon then icanon_end t else ihead t.

(** The sections of an undisturbed read make up the loop. *)
Lemma read_on_loop fuel : ∀ t canon len dn ok,
  pos_ok (limit_of t canon) → pos_ok (itail t) → sub32 (limit_of t canon) (itail t) ≤ Z.of_nat fuel →
  let '(t1, w1) := read_section t canon len dn in
  read_on fuel t1 w1 ok = let '(t', (r, l), b) := read_loop (S fuel) t canon len dn ok in (if b then read_end t' else t', TRead r l).
Proof.
  induction fuel as [|fuel IH]; intros t canon len dn ok HL Ht Hf; unfold read_section; cbn [read_loop]; cbn zeta; (destruct (Z.of_nat (length dn) <? len); [|done]);
    unfold read_chunk; fold (limit_of t canon); destruct (take_adv (Z.to_nat (Z.min CHUNK (len - Z.of_nat (length dn)))) t canon _ HL Ht) as (d & l & e & -> & Hd & Hd0).
  - destruct Hd0 as [-> ->]; [lia|]. done.
  - destruct (bool_decide (l = []) && negb e) eqn:El; [done|]. cbn [read_on]. unfold read_copied. cbn [rc_done rc_chunk rc_eol rc_canon rc_len].
    destruct (negb _ && negb _); [by destruct fuel|]. destruct e; [rewrite length_app, Nat2Z.inj_add; by destruct fuel|].
    assert (d ≠ 0) as Hne by (intros ->; destruct Hd0 as [-> _]; done).
    specialize (IH (adv t d) canon len (dn ++ l) ok HL ltac:(apply wrap32_ok)). change (limit_of (adv t d) canon) with (limit_of t canon) in IH. change (itail (adv t d)) with (wrap32 (itail t + d)) in IH.
    rewrite sub32_adv in IH by done. specialize (IH ltac:(lia)). by destruct (read_section (adv t d) canon len (dn ++ l)).
Qed.

(** A fault cuts off what the read would have copied. *)
Lemma read_loop_fault fuel : ∀ t canon len dn ok,
  let '(_, (r, l), b) := read_loop fuel t canon len dn ok in let '(_, (_, l'), _) := read_loop fuel t canon len dn (λ _, true) in
  l `prefix_of` l' ∧ dn `prefix_of` l ∧ r = if negb b && (Z.of_nat (length l) =? 0) then - EFAULT else Z.of_nat (length l).
Proof.
  induction fuel as [|fuel IH]; intros t canon len dn ok; cbn [read_loop]; cbn zeta; [done|]. destruct (_ <? len); [|done]. destruct (read_chunk _ _ _) as [[t1 l] e]. destruct (bool_decide (l = []) && negb e); [done|]. rewrite andb_false_r.
  assert (∀ f, dn `prefix_of` (let '(_, (_, l'), _) := read_loop fuel t1 canon len (dn ++ l) f in l')) as Hp.
  { intros f. specialize (IH t1 canon len (dn ++ l) f). destruct (read_loop fuel t1 canon len (dn ++ l) f) as [[? [? l1]] ?], (read_loop fuel t1 canon len (dn ++ l) (λ _, true)) as [[? [? ?]] ?].
    destruct IH as (_ & H & _). etrans; [|exact H]. by apply prefix_app_r. }
  destruct (negb _ && negb _).
  - destruct e; [split; [by apply prefix_app_r|done]|]. specialize (Hp (λ _, true)). by destruct (read_loop fuel t1 canon len (dn ++ l) (λ _, true)) as [[? [? ?]] ?].
  - destruct e; [split; [done|]; split; [by apply prefix_app_r|cbn [negb andb]; rewrite length_app; lia]|]. specialize (IH t1 canon len (dn ++ l) ok). specialize (Hp ok).
    destruct (read_loop fuel t1 canon len (dn ++ l) ok) as [[? [? ?]] ?], (read_loop fuel t1 canon len (dn ++ l) (λ _, true)) as [[? [? ?]] ?]. destruct IH as (H1 & _ & H3). done.
Qed.

(** The end of what a read with a buffer of [n] bytes takes. *)
Lemma tty_read_loop_spec fuel t canon len done ok :
  ring_ok t → (canon = false → icanon_end t = ihead t) → (∀ n, ok n = true) → (length (ready t) < fuel)%nat → Z.of_nat (length done) ≤ len →
  let '(a, r, _) := cut_mode canon (cc t VEOF) (Z.to_nat (len - Z.of_nat (length done))) (ready t) in
  ∃ t', read_loop fuel t canon len done ok = (t', (Z.of_nat (length (done ++ a)), done ++ a), true) ∧ taken t t' r.
Proof.
  revert t done. induction fuel as [|fuel IH]; intros t done H Hraw Hok Hf Hd; [lia|]. cbn [read_loop]. cbn zeta. set (n := Z.of_nat (length done)) in *. destruct (Z.ltb_spec n len) as [Hn|Hn].
  2: { replace (Z.to_nat (len - n)) with O by lia. assert (cut_mode canon (cc t VEOF) 0 (ready t) = ([], ready t, false)) as -> by (unfold cut_mode; by destruct canon). exists t. rewrite app_nil_r. split; [done|by apply taken_refl]. }
  set (k := Z.to_nat (Z.min CHUNK (len - n))). assert (k ≠ O) as Hk by (unfold k, CHUNK; lia). assert (∃ m, Z.to_nat (len - n) = (k + m)%nat) as [m Em] by (exists (Z.to_nat (len - n) - k)%nat; unfold k, CHUNK; lia).
  unfold read_chunk. fold k. assert ((if canon then icanon_end t else ihead t) = icanon_end t) as -> by (destruct canon; [done|by rewrite Hraw]).
  destruct (take_chars_spec k t canon H) as (t1 & l & e & E1 & T1 & C1). rewrite E1, C1 in *. cbn [fst snd] in T1. rewrite Em. destruct (cut_mode_length _ _ _ _ _ _ _ C1) as (L1 & L2 & L3 & L4).
  destruct (bool_decide_reflect (l = [])) as [->|Hl]; cbn [andb negb].
  - destruct e; cbn [negb].
    + rewrite (cut_mode_end _ _ _ m _ _ _ C1). exists t1. by rewrite app_nil_r, Z.add_0_r.
    + destruct L3 as [?|Hr]; [done|done|done|]. rewrite Hr, cut_mode_nil. rewrite Hr, cut_mode_nil in C1. injection C1 as C1. exists t1. rewrite app_nil_r. split; [done|]. by rewrite <-C1 in T1.
  - rewrite Hok. cbn [negb]. destruct e.
    + rewrite (cut_mode_end _ _ _ m _ _ _ C1). exists t1. split; [|done]. do 3 f_equal. rewrite length_app. lia.
    + rewrite (cut_mode_add _ _ _ m _ _ _ C1). assert (length (ready t1) < length (ready t))%nat as L5 by auto. destruct T1 as (A1 & A2 & A3 & A4 & A5 & A6 & A7).
      assert (Z.of_nat (length (done ++ l)) ≤ len) as Hd' by (rewrite length_app; unfold k, CHUNK in L2; lia).
      pose proof (IH t1 (done ++ l) A1 ltac:(intros; rewrite A4, A5; auto) Hok ltac:(lia) Hd') as HI. unfold cc in *. rewrite A2 in HI.
      assert (cut_mode canon (c_cc (tm t) VEOF) (Z.to_nat (len - Z.of_nat (length (done ++ l)))) (ready t1) = cut_mode canon (c_cc (tm t) VEOF) m (ready t1)) as Ecut.
      { destruct (decide (length l = k)) as [Hlk|Hlk]; [do 2 f_equal; rewrite length_app; lia|]. assert (ready t1 = []) as -> by (eapply cut_mode_short; [exact C1|lia]). by rewrite !cut_mode_nil. }
      rewrite Ecut in HI. destruct (cut_mode canon (c_cc (tm t) VEOF) m (ready t1)) as [[a' b'] e']. destruct HI as (t' & E & T). exists t'. rewrite app_assoc. split; [done|].
      eapply taken_trans; [|exact T]. by split_and!.
Qed.

(** It takes the next characters of the finished lines and leaves the line that
    is being typed; a fault cuts off what it copies. *)
Lemma read_refines t len ok :
  tty_ok t → 0 ≤ len →
  let '(a, r, _) := cut_mode (lflag t ICANON) (cc t VEOF) (Z.to_nat len) (ready t) in
  let '(t1, w1) := read_section t (lflag t ICANON) len [] in
  ∃ t' x l, read_on (Z.to_nat TTY_BUF) t1 w1 ok = (t', TRead x l) ∧ l `prefix_of` a ∧ (x = Z.of_nat (length l) ∨ l = [] ∧ x = - EFAULT) ∧
    ((∀ n, ok n = true) → l = a ∧ x = Z.of_nat (length a) ∧ tty_ok t' ∧ tm t' = tm t ∧ view t' = Edit r (line t) (lnext t)).
Proof.
  intros Ht Hlen. pose proof (tty_ring t Ht) as H. destruct (ring_lengths t H) as (H1 & H2 & H4 & H5 & H6). cbn zeta in *. pose proof (ready_length t H) as Lr. pose proof Ht as [(P1 & P2 & P3) H7 _ _].
  assert (pos_ok (limit_of t (lflag t ICANON)) ∧ sub32 (limit_of t (lflag t ICANON)) (itail t) ≤ Z.of_nat (Z.to_nat TTY_BUF)) as [PL HF]. { unfold ibuf_count, limit_of in *. destruct (lflag t ICANON); split; try done; lia. }
  pose proof (read_on_loop (Z.to_nat TTY_BUF) t (lflag t ICANON) len [] ok PL P2 HF) as HL. pose proof (read_loop_fault (S (Z.to_nat TTY_BUF)) t (lflag t ICANON) len [] ok) as HP.
  assert (∀ ok, (∀ n, ok n = true) → let '(a, r, _) := cut_mode (lflag t ICANON) (cc t VEOF) (Z.to_nat len) (ready t) in ∃ t', read_loop (S (Z.to_nat TTY_BUF)) t (lflag t ICANON) len [] ok = (t', (Z.of_nat (length a), a), true) ∧ taken t t' r) as HC.
  { intros ok' Hok. pose proof (tty_read_loop_spec (S (Z.to_nat TTY_BUF)) t (lflag t ICANON) len [] ok' H (ty_raw _ Ht) Hok ltac:(lia) ltac:(cbn; lia)) as HC. cbn [length app] in HC. by rewrite Z.sub_0_r in HC. }
  pose proof (HC (λ _, true) (λ _, eq_refl)) as HT. specialize (HC ok). destruct (cut_mode _ _ _ _) as [[a r] e]. destruct HT as (tt & ET & _). rewrite ET in HP.
  destruct (read_section _ _ _ _) as [t1 w1]. rewrite HL. destruct (read_loop _ _ _ _ _ ok) as [[t' [x l]] b] eqn:El. destruct HP as (HP & _ & Hx). eexists _, x, l. split; [done|]. split; [done|]. split.
  { rewrite Hx. destruct l; [|by rewrite andb_comm; left]. destruct b; [by left|by right]. }
  intros Hok. destruct (HC Hok) as (t2 & E2 & A1 & A2 & A3 & A4 & A5 & A6 & A7). injection E2 as -> -> -> ->.
  assert (read_end t2 = t2) as ->. { unfold read_end. assert ((TTY_BUF <? sub32 (icanon_end t2) (itail t2)) = false) as ->; [|done]. apply Z.ltb_ge. destruct A1 as [_ B1 B2]. lia. }
  split; [done|]. split; [done|]. split; [apply ring_tty; [done|]; unfold lflag in *; rewrite A2, A4, A5; exact (ty_raw _ Ht)|]. split; [done|]. unfold view. congruence.
Qed.

Lemma apply_termios_refines t k : tty_ok t →
  tty_ok (apply_termios k t) ∧ tm (apply_termios k t) = k ∧
  view (apply_termios k t) = if lflag t ICANON && negb (kflag k ICANON) then Edit (ready t ++ line t) [] (lnext t) else view t.
Proof.
  intros Ht. pose proof (tty_ring t Ht) as H. unfold apply_termios. cbn zeta. change (lflag (set_tm k t) ICANON) with (kflag k ICANON). assert (ring_ok (set_tm k t)) as H' by (destruct H; by split).
  destruct (lflag t ICANON && negb (kflag k ICANON)) eqn:E.
  - destruct (complete_spec (set_tm k t) H') as (C1 & C2 & C3). split; [by apply ring_tty|]. split; [done|]. unfold view. rewrite C2, C3. done.
  - split; [|done]. apply ring_tty; [done|]. intros Hk. apply (ty_raw _ Ht). change (kflag k ICANON = false) in Hk. rewrite Hk in E. by destruct (lflag t ICANON).
Qed.

(** ** Terminals in the system *)

Fixpoint edit_run (k : termios) (e : edit) (l : list Z) : edit * list ievent :=
  match l with
  | [] => (e, [])
  | c :: l => let '(e, ev) := edit_char k e c in let '(e, evs) := edit_run k e l in (e, ev :: evs)
  end.

(** Nothing but the states of threads and the pending signals has changed. *)
Definition quiet_ps (p p' : psys) : Prop := ∃ g, p' = set_sg p g ∧ calm (sg p) g.

Lemma quiet_ps_refl p : quiet_ps p p.
Proof. exists (sg p). split; [by destruct p|apply calm_refl]. Qed.
Lemma quiet_ps_trans a b c : quiet_ps a b → quiet_ps b c → quiet_ps a c.
Proof. intros (g & -> & H1) (g' & -> & H2). exists g'. split; [done|by eapply calm_trans]. Qed.

(** *** Signals to a process group *)

Definition in_group (g : sys) (pg q : Z) : bool := (pgid (prc g q) =? pg) && negb (p_state (prc g q) =? PROC_ZOMBIE).
(** The processes that a signal from terminal [y] is for. *)
Definition at_foreground (s : tsys) (y q : Z) : bool :=
  (0 <? tty_pgrp (ps s) y) && bool_decide (q ∈ all_processes (sg (ps s))) && in_group (sg (ps s)) (tty_pgrp (ps s) y) q.
(** While characters arrive signals stay pending and threads awake. *)
Definition keeps (g g' : sys) : Prop :=
  only_woken g g' ∧ ∀ q h, sig_ok h → h ≠ SIGCONT → sin (shared_pending (prc g q)) h = true → sin (shared_pending (prc g' q)) h = true.

Lemma in_group_sent g g' pg q : sent g g' → in_group g' pg q = in_group g pg q.
Proof. intros (H & _). unfold in_group. by destruct (H q) as (x1 & x2 & x3 & x4 & x5 & x6 & ->). Qed.
Lemma sig_keeps_refl g : keeps g g.
Proof. split; [by left|done]. Qed.
Lemma sig_keeps_trans a b c : keeps a b → keeps b c → keeps a c.
Proof.
  intros [W1 H1] [W2 H2]. split; [|auto]. intros u. destruct (W2 u) as [-> | ->]; [apply W1|by right].
Qed.
Lemma keeps_not_in a b m u : keeps a b → not_in a m u → not_in b m u.
Proof. intros [H _]. unfold not_in. destruct (H u) as [-> | ->]; [done|]. intros _. apply Z.land_0_l. Qed.
Lemma keeps_awake g g' : awake g g' → keeps g g'.
Proof. intros H. split; [eapply awake_woken; [exact H|by left]|]. intros q h _ _. by rewrite (aw_prc _ _ H). Qed.

Lemma send_keeps g p x info g' r :
  sig_inv g → 0 < x < NSIG → x ≠ SIGCONT → x ≠ SIGKILL → p_state (prc g p) ≠ PROC_ZOMBIE → send_signal_process g p x info = Some (g', r) → keeps g g'.
Proof.
  intros Hs Hx H1 H2 Hz E. split.
  { rewrite send_cases in E by done. injection E as <- _. destruct (discards g p x); [apply prepare_woken|]. eapply awake_woken; [apply awake_taker|]. exact (prepare_woken g p x). }
  intros q h Hh Hne Hin. destruct (decide (q = p)) as [->|Hq]; [|by destruct (send_process_frame _ _ _ _ _ _ E) as (_ & -> & _)].
  rewrite send_cases in E by done. injection E as <- _. destruct (prepare_spec g p x) as (E1 & _). cbn zeta in E1. assert (sig_ok x) as Hok by (unfold sig_ok; lia).
  assert (sin (shared_pending (prc (prepare_signal g p x) p)) h = true) as Hp.
  { rewrite E1. unfold prepared. apply Z.eqb_neq in H1 as ->. apply Z.eqb_neq in H2 as ->. cbn [orb]. destruct (bool_decide _); [|done]. autorewrite with olux_sig. rewrite Hin. apply Z.eqb_neq in Hne as ->. done. }
  destruct (discards g p x); [done|]. rewrite (aw_prc _ _ (awake_taker _ _ _)). destruct (queue_process_prc (prepare_signal g p x) p x info Hok) as [-> _]; [apply (si_prc _ (prepare_inv g p x Hs) p)|].
  cbn [shared_pending set_shared]. autorewrite with olux_sig. by rewrite Hp.
Qed.

Lemma kill_each_spec l : ∀ s pg g info n,
  sig_inv s → 0 < g < NSIG → NoDup l →
  ∃ s' r, kill_each s l pg g info n = Some (s', r) ∧ sig_inv s' ∧ calm s s' ∧ (g ≠ SIGCONT → g ≠ SIGKILL → keeps s s') ∧
    (∀ q, q ∉ l ∨ in_group s pg q = false → prc s' q = prc s q) ∧ (∀ q, q ∈ l → in_group s pg q = true → received s s' g q).
Proof.
  induction l as [|p l IH]; intros s pg g info n Hs Hg Hnd; cbn [kill_each].
  { exists s, n. split; [done|]. split; [done|]. split; [apply calm_refl|]. split; [intros; apply sig_keeps_refl|]. split; [done|]. by intros q ?%not_elem_of_nil. }
  apply NoDup_cons in Hnd as [Hp Hnd]. fold (in_group s pg p). destruct (in_group s pg p) eqn:Ep.
  2: { destruct (IH s pg g info n Hs Hg Hnd) as (s' & r & -> & A1 & A2 & A3 & A4 & A5). exists s', r. do 4 (split; [done|]). split; [intros q [Hq|Hq]; apply A4; [left; set_solver|by right]|].
       intros q [->|Hq]%elem_of_cons Hin; [congruence|by apply A5]. }
  assert (p_state (prc s p) ≠ PROC_ZOMBIE) as Hz by (unfold in_group in Ep; lia). destruct (send_one s p g info Hs ltac:(lia) Hz) as (s1 & E1 & B1 & B2 & B3 & B4). rewrite E1. cbn [mbind option_bind fst].
  destruct (IH s1 pg g info (n + 1) B1 Hg Hnd) as (s' & r & -> & A1 & A2 & A3 & A4 & A5). exists s', r. split; [done|]. split; [done|].
  split; [eapply calm_trans; [by eapply send_process_calm|done]|]. split; [intros ? ?; eapply sig_keeps_trans; [by eapply send_keeps|auto]|].
  assert (prc s' p = prc s1 p) as Epp by (apply A4; by left). split.
  - intros q Hq. destruct (decide (q = p)) as [->|Hne]; [destruct Hq as [Hq|Hq]; [set_solver|congruence]|]. rewrite A4; [by apply B3|]. destruct Hq as [Hq|Hq]; [left; set_solver|right]. by rewrite (in_group_sent s).
  - intros q [->|Hq]%elem_of_cons Hin; [intros Hg0; rewrite Epp; by apply B4|]. intros Hg0. rewrite <- (sent_discards s s1) by done. apply A5; [done|by rewrite (in_group_sent s)|done].
Qed.

(** What the processes get from a terminal: each one at the foreground every
    signal it does not discard, the others nothing. *)
Definition group_got (s : tsys) (y : Z) (evs : list ievent) (s' : tsys) : Prop :=
  (∀ q g, at_foreground s y q = true → ISignal g ∈ evs → discards (sg (ps s)) q g = true ∨ sin (shared_pending (prc (sg (ps s')) q)) g = true) ∧
  (∀ q, at_foreground s y q = false ∨ (∀ g, ISignal g ∉ evs) → prc (sg (ps s')) q = prc (sg (ps s)) q).

Lemma signal_group_spec s pg g : sig_inv (sg (ps s)) → 0 ≤ g < NSIG →
  ∃ s', signal_group s pg g = Some s' ∧ tts s' = tts s ∧ sig_inv (sg (ps s')) ∧ quiet_ps (ps s) (ps s').
Proof.
  intros Hs Hg. unfold signal_group. destruct (kill_pgrp_calm (sg (ps s)) pg g None Hs Hg) as (g' & r & -> & H1 & H2). cbn. eexists. split; [done|]. split; [done|]. split; [done|]. by exists g'.
Qed.
(** The signals of the keyboard. *)
Definition key_signal (g : Z) : Prop := g = SIGINT ∨ g = SIGQUIT ∨ g = SIGTSTP.
Lemma signal_group_keys s y g : sig_inv (sg (ps s)) → key_signal g → NoDup (all_processes (sg (ps s))) → 0 < tty_pgrp (ps s) y →
  ∃ s', signal_group s (tty_pgrp (ps s) y) g = Some s' ∧ tts s' = tts s ∧ sig_inv (sg (ps s')) ∧ quiet_ps (ps s) (ps s') ∧ keeps (sg (ps s)) (sg (ps s')) ∧ group_got s y [ISignal g] s'.
Proof.
  intros Hs Hk Hnd Hp. unfold signal_group, kill_pgrp. destruct (kill_each_spec _ _ (tty_pgrp (ps s) y) g None 0 Hs ltac:(unfold key_signal in Hk; lia) Hnd) as (g' & r & -> & A1 & A2 & A3 & A4 & A5). cbn [mbind option_bind fst].
  eexists. split; [done|]. split; [done|]. split; [done|]. split; [by exists g'|]. split; [apply A3; unfold key_signal in Hk; lia|]. split.
  - intros q h Hq [= ->]%list_elem_of_singleton. apply andb_true_iff in Hq as [[_ Hq%bool_decide_eq_true]%andb_true_iff Hq']. apply A5; [done..|unfold key_signal in Hk; lia].
  - intros q Hq. apply A4. destruct Hq as [Hq|Hq]; [|by destruct (Hq g); apply list_elem_of_singleton]. unfold at_foreground in Hq. apply Z.ltb_lt in Hp. rewrite Hp in Hq. case_bool_decide; [by right|by left].
Qed.

Definition mask_sleep : Z := Z.lor TASK_INTERRUPTIBLE TASK_UNINTERRUPTIBLE.
Lemma wake_queue_spec s q : sig_inv (sg (ps s)) →
  tts (wake_queue s q) = tts s ∧ sig_inv (sg (ps (wake_queue s q))) ∧ quiet_ps (ps s) (ps (wake_queue s q)) ∧ ∀ u, u ∈ q → not_in (sg (ps (wake_queue s q))) mask_sleep u.
Proof.
  intros Hs. assert (awake (sg (ps s)) (sg (ps (wake_queue s q)))) as Ha by (apply awake_fold; intros; apply awake_wake). split; [done|]. split; [by eapply inv_awake|].
  split; [eexists; split; [done|by apply calm_awake]|]. intros u Hu. by apply fold_wake_not_in.
Qed.

Lemma quiet_foreground s s' y q : quiet_ps (ps s) (ps s') → at_foreground s' y q = at_foreground s y q.
Proof. intros (g & E & (Hse & Ha & _)). unfold at_foreground. rewrite E. cbn. by rewrite Ha, (in_group_sent (sg (ps s))). Qed.
Lemma group_got_nil s y s' : (∀ q, prc (sg (ps s')) q = prc (sg (ps s)) q) → group_got s y [] s'.
Proof. intros H. split; [by intros q g _ ?%not_elem_of_nil|auto]. Qed.
Lemma group_got_wake s y evs s' q : sig_inv (sg (ps s')) → group_got s y evs s' → group_got s y evs (wake_queue s' q).
Proof.
  intros Hs [H1 H2]. assert (awake (sg (ps s')) (sg (ps (wake_queue s' q)))) as Ha by (apply awake_fold; intros; apply awake_wake). split; intros; rewrite (aw_prc _ _ Ha); auto.
Qed.
Lemma group_got_cons s y ev s1 evs s' :
  quiet_ps (ps s) (ps s1) → (∀ g, ev = ISignal g → key_signal g) → keeps (sg (ps s1)) (sg (ps s')) → group_got s y [ev] s1 → group_got s1 y evs s' → group_got s y (ev :: evs) s'.
Proof.
  intros Hq Hk Hke [A1 A2] [B1 B2]. pose proof Hq as (g1 & E1 & (Hse & _)). split.
  - intros q g Hf [<-|Hg]%elem_of_cons.
    + destruct (A1 q g Hf) as [?|?]; [by apply list_elem_of_singleton|by left|right]. apply (proj2 Hke); [specialize (Hk g eq_refl); unfold key_signal, sig_ok in *; lia..|done].
    + destruct (B1 q g) as [Hd|?]; [by rewrite (quiet_foreground s)|done| |by right]. left. rewrite E1 in Hd. cbn in Hd. by rewrite <- (sent_discards (sg (ps s)) g1).
  - intros q Hn. rewrite B2; [apply A2|]; (destruct Hn as [Hn|Hn]; [left; by rewrite ?(quiet_foreground s)|right; intros g Hg; apply (Hn g)]).
    + apply list_elem_of_singleton in Hg as <-. by left.
    + by right.
Qed.

Lemma tty_event_spec s y ev : sig_inv (sg (ps s)) → NoDup (all_processes (sg (ps s))) → (∀ g, ev = ISignal g → key_signal g) →
  ∃ s', tty_event s y ev = Some s' ∧ tts s' = tts s ∧ sig_inv (sg (ps s')) ∧ quiet_ps (ps s) (ps s') ∧ keeps (sg (ps s)) (sg (ps s')) ∧ group_got s y [ev] s' ∧
    (ev ≠ INone → ∀ u, u ∈ read_wait (tts s y) → not_in (sg (ps s')) mask_sleep u).
Proof.
  intros Hs Hnd Hg. assert (∀ s q, keeps (sg (ps s)) (sg (ps (wake_queue s q)))) as Hkw by (intros; apply keeps_awake, awake_fold; intros; apply awake_wake).
  assert ((∀ g, ev ≠ ISignal g) ∨ tty_pgrp (ps s) y ≤ 0 → group_got s y [ev] s) as Hno.
  { intros Hn. split; [|done]. intros q g Hf E%list_elem_of_singleton. exfalso. destruct Hn as [Hn|Hn]; [by destruct (Hn g)|]. unfold at_foreground in Hf. replace (0 <? tty_pgrp (ps s) y) with false in Hf by lia. done. }
  destruct ev as [| |g]; cbn [tty_event].
  - exists s. split; [done|]. split; [done|]. split; [done|]. split; [apply quiet_ps_refl|]. split; [apply sig_keeps_refl|]. split; [apply Hno; by left|done].
  - destruct (wake_queue_spec s (read_wait (tts s y)) Hs) as (W1 & W2 & W3 & W4). eexists. split; [done|]. do 3 (split; [done|]). split; [apply Hkw|]. split; [|auto]. apply group_got_wake; [done|apply Hno; by left].
  - assert (∃ s1, (if 0 <? tty_pgrp (ps s) y then signal_group s (tty_pgrp (ps s) y) g else Some s) = Some s1 ∧ tts s1 = tts s ∧ sig_inv (sg (ps s1)) ∧ quiet_ps (ps s) (ps s1) ∧ keeps (sg (ps s)) (sg (ps s1)) ∧ group_got s y [ISignal g] s1) as (s1 & -> & E1 & H1 & Q1 & K1 & G1).
    { destruct (Z.ltb_spec 0 (tty_pgrp (ps s) y)); [apply signal_group_keys; auto|]. exists s. do 3 (split; [done|]). split; [apply quiet_ps_refl|]. split; [apply sig_keeps_refl|apply Hno; by right]. }
    cbn [mbind option_bind]. rewrite E1. destruct (wake_queue_spec s1 (read_wait (tts s y)) H1) as (W1 & W2 & W3 & W4). eexists. split; [done|]. split; [congruence|]. split; [done|]. split; [by eapply quiet_ps_trans|].
    split; [eapply sig_keeps_trans; [exact K1|apply Hkw]|]. split; [by apply group_got_wake|done].
Qed.

Lemma edit_char_signal k e c g : (edit_char k e c).2 = ISignal g → key_signal g.
Proof.
  assert (∀ e c, (edit_store k e c).2 = ISignal g → key_signal g) as Hst by (intros ??; unfold edit_store; by repeat case_match).
  unfold edit_char. cbn zeta. destruct (e_quote e); [apply Hst|]. destruct (_ && _); [done|]. destruct (negb (_ =? 0)) eqn:E.
  { cbn [snd]. intros [= <-]. revert E. unfold edit_signal, key_signal. repeat case_match; tauto || done. }
  repeat (case_match; try apply Hst; try done).
Qed.

Lemma tts_upd s y f z : tts (upd_tty s y f) z = if z =? y then f (tts s y) else tts s z.
Proof. unfold upd_tty. cbn. destruct (Z.eqb_spec z y) as [->|]; [by rewrite fn_lookup_insert|by rewrite fn_lookup_insert_ne]. Qed.

Definition no_event (ev : ievent) : bool := match ev with INone => true | _ => false end.

(** The part of a terminal that its input leaves alone. *)
Definition rest (t : tty) := (winsize t, read_wait t, write_wait t, opens t, hangup t).
Lemma rest_out t l : rest (tty_out t l) = rest t.
Proof. done. Qed.
Lemma rest_out_char t c : rest (out_char t c) = rest t.
Proof. unfold out_char. by repeat case_match. Qed.
Lemma rest_echo t c : rest (echo_char t c) = rest t.
Proof. unfold echo_char. repeat case_match; rewrite ?rest_out_char, ?rest_out; done. Qed.
Lemma rest_ring b h l e t : rest (set_ring b h l e t) = rest t.
Proof. done. Qed.
Lemma rest_store t c : rest (store_char t c).1 = rest t.
Proof. unfold store_char. cbn zeta. repeat (case_match; cbn [fst]); rewrite ?rest_ring, ?rest_echo; done. Qed.
Lemma rest_erase_one t : rest (erase_one t) = rest t.
Proof. unfold erase_one. by repeat case_match. Qed.
Lemma rest_erase_all t f : rest (erase_all t f) = rest t.
Proof.
  unfold erase_all. generalize (Z.to_nat (sub32 (ihead t) (icanon_end t))) as n. intros n. revert t. induction n as [|n IH]; intros t; cbn [erase_while]; [done|]. repeat case_match; try done. by rewrite IH, rest_erase_one.
Qed.
Lemma rest_input t c : rest (input_char t c).1 = rest t.
Proof.
  unfold input_char. destruct (lnext t); [by rewrite rest_store|]. destruct (_ && _); [done|]. cbn zeta. destruct (_ && _).
  - destruct (lflag _ NOFLSH); cbn [fst]; [apply rest_echo|]. unfold flush_input. rewrite rest_ring. apply rest_echo.
  - repeat (case_match; cbn [fst]); rewrite ?rest_store, ?rest_erase_all, ?rest_erase_one; done.
Qed.

Lemma tty_receive_spec l : ∀ s y, tty_ok (tts s y) → sig_inv (sg (ps s)) → NoDup (all_processes (sg (ps s))) →
  let '(e, evs) := edit_run (tm (tts s y)) (view (tts s y)) l in
  ∃ s', tty_receive s y l = Some s' ∧ tty_ok (tts s' y) ∧ tm (tts s' y) = tm (tts s y) ∧ view (tts s' y) = e ∧ rest (tts s' y) = rest (tts s y) ∧
    (∀ z, z ≠ y → tts s' z = tts s z) ∧ sig_inv (sg (ps s')) ∧ quiet_ps (ps s) (ps s') ∧ keeps (sg (ps s)) (sg (ps s')) ∧ group_got s y evs s' ∧
    (∀ ev, ev ∈ evs → ev ≠ INone → ∀ u, u ∈ read_wait (tts s y) → not_in (sg (ps s')) mask_sleep u).
Proof.
  induction l as [|c l IH]; intros s y Ht Hs Hnd; cbn [edit_run tty_receive].
  { exists s. do 7 (split; [done|]). split; [apply quiet_ps_refl|]. split; [apply sig_keeps_refl|]. split; [by apply group_got_nil|]. by intros ev ?%not_elem_of_nil. }
  pose proof (input_refines (tts s y) c Ht) as Hi. pose proof (rest_input (tts s y) c) as Hr. pose proof (edit_char_signal (tm (tts s y)) (view (tts s y)) c) as Hg.
  destruct (input_char (tts s y) c) as [t1 ev1]. destruct Hi as (I1 & I2 & I3). cbn [fst] in Hr. rewrite I3 in Hg |- *. cbn [snd] in Hg.
  set (s1 := upd_tty s y (λ _, t1)). assert (tts s1 y = t1) as E1 by (unfold s1; by rewrite tts_upd, Z.eqb_refl).
  destruct (tty_event_spec s1 y ev1 Hs Hnd Hg) as (s2 & -> & E2 & S2 & Q2 & K2 & G2 & W2). cbn [mbind option_bind]. rewrite E1 in W2.
  assert (NoDup (all_processes (sg (ps s2)))) as Hnd2 by (destruct Q2 as (g2 & -> & (_ & Ea & _)); cbn; by rewrite Ea).
  specialize (IH s2 y). rewrite E2, E1, I2 in IH. specialize (IH I1 S2 Hnd2). destruct (edit_run _ (view t1) l) as [e evs] eqn:Er.
  destruct IH as (s' & HR & A1 & A2 & A3 & A4 & A5 & A6 & A7 & A8 & A9 & A10). exists s'. assert (read_wait t1 = read_wait (tts s y)) as Erw by (injection Hr; auto).
  do 4 (split; [done|]). split; [congruence|]. split; [intros z Hz; rewrite A5 by done; unfold s1; rewrite tts_upd; by apply Z.eqb_neq in Hz as ->|]. split; [done|].
  split; [by eapply quiet_ps_trans|]. split; [by eapply sig_keeps_trans|]. split; [by apply (group_got_cons s1 y ev1 s2)|].
  intros ev [->|Hl]%elem_of_cons Hev u Hu; [|apply (A10 ev); [done..|by rewrite Erw]]. apply (keeps_not_in _ _ _ _ A8), W2; [done|by rewrite Erw].
Qed.

(** ** Reading and writing *)

Lemma waits_same r w t : same_input t (set_waits r w t).
Proof. done. Qed.

(** What a read of [len] characters hands over and what it leaves. *)
Definition handed (t : tty) (len : Z) : list Z := (cut_mode (lflag t ICANON) (cc t VEOF) (Z.to_nat len) (ready t)).1.1.
Definition left_over (t : tty) (len : Z) : list Z := (cut_mode (lflag t ICANON) (cc t VEOF) (Z.to_nat len) (ready t)).1.2.

(** The sections of a read by a thread that nobody disturbs. *)
Fixpoint read_copies (fuel : nat) (s : tsys) (y : Z) (w : tread) (ok : Z → bool) : tsys * tread :=
  match fuel, w with
  | S fuel, TReadCopies c => let '(s, w) := tty_read_copied s y c (ok (Z.of_nat (length (rc_done c)))) in read_copies fuel s y w ok
  | _, _ => (s, w)
  end.
(** Each copy has taken a character, so that there are less than [TTY_BUF]. *)
Definition read_through (s : tsys) (y : Z) (w : tread) (ok : Z → bool) : tsys * tread := read_copies (Z.to_nat TTY_BUF) s y w ok.

Lemma read_copies_on fuel : ∀ s y w ok,
  let r := read_copies fuel s y w ok in
  (tts r.1 y, r.2) = read_on fuel (tts s y) w ok ∧ ps r.1 = ps s ∧ ∀ z, z ≠ y → tts r.1 z = tts s z.
Proof.
  induction fuel as [|fuel IH]; intros s y w ok; [done|]. destruct w as [| |c]; [done..|]. cbn [read_copies read_on]. unfold tty_read_copied. destruct (read_copied (tts s y) c _) as [t w].
  specialize (IH (upd_tty s y (λ _, t)) y w ok). rewrite tts_upd, Z.eqb_refl in IH. destruct IH as (E & Ep & Ez). split; [done|]. split; [done|]. intros z Hz. rewrite Ez, tts_upd by done. by apply Z.eqb_neq in Hz as ->.
Qed.
Lemma read_through_done s y w ok : (∀ c, w ≠ TReadCopies c) → read_through s y w ok = (s, w).
Proof. unfold read_through. destruct (Z.to_nat TTY_BUF), w as [| |c]; try done. intros H. by destruct (H c). Qed.

(** The terminal [y] after a read, whose copies succeed as [ok] says; the others
    are untouched. *)
Definition read_of (s : tsys) (y len : Z) (ok : Z → bool) (s' : tsys) (w : tread) : Prop :=
  (∃ x l, w = TRead x l ∧ l `prefix_of` handed (tts s y) len ∧ (x = Z.of_nat (length l) ∨ l = [] ∧ x = - EFAULT)) ∧
  ((∀ n, ok n = true) →
     w = TRead (Z.of_nat (length (handed (tts s y) len))) (handed (tts s y) len) ∧
     tty_ok (tts s' y) ∧ tm (tts s' y) = tm (tts s y) ∧ view (tts s' y) = Edit (left_over (tts s y) len) (line (tts s y)) (lnext (tts s y))) ∧
  ∀ z, z ≠ y → tts s' z = tts s z.

Lemma read_start_spec s y len ok :
  tty_ok (tts s y) → 0 ≤ len →
  let r := read_start s y (lflag (tts s y) ICANON) len in let r := read_through r.1 y r.2 ok in read_of s y len ok r.1 r.2 ∧ ps r.1 = ps s.
Proof.
  intros Ht Hlen. pose proof (read_refines (tts s y) len ok Ht Hlen) as Hr. unfold read_start, read_of, handed, left_over, read_through.
  destruct (cut_mode _ _ _ _) as [[a r] e], (read_section _ _ _ _) as [t1 w1]. destruct Hr as (t' & x & l & E & H1 & H2 & H3). cbn [fst snd].
  destruct (read_copies_on (Z.to_nat TTY_BUF) (upd_tty s y (λ _, t1)) y w1 ok) as (R1 & R2 & R3). rewrite tts_upd, Z.eqb_refl, E in R1. destruct (read_copies _ _ _ _ _) as [s' w']. cbn [fst snd] in *. injection R1 as -> ->. split; [|exact R2].
  split; [by eexists _, _|]. split; [intros Hok; destruct (H3 Hok) as (-> & -> & ?); done|]. intros z Hz. rewrite R3, tts_upd by done. by apply Z.eqb_neq in Hz as ->.
Qed.

Lemma read_of_same s1 s y len ok s' w : same_input (tts s y) (tts s1 y) → (∀ z, z ≠ y → tts s1 z = tts s z) → read_of s1 y len ok s' w → read_of s y len ok s' w.
Proof.
  intros Hs Hz (H1 & H2 & H3). destruct (same_input_view _ _ Hs) as (V1 & V2 & V3 & V4). unfold read_of, handed, left_over, lflag, cc in *.
  rewrite V1, V4 in *. rewrite V2, V3 in H2. split; [done|]. split; [done|]. intros z Hne. rewrite H3 by done. by apply Hz.
Qed.

Lemma state_of_eq s th x : state (thr (sg (ps (set_state_of s th x))) th) = x.
Proof. cbn. by rewrite fn_lookup_insert. Qed.
Lemma signal_pending_state s th x u : signal_pending (sg (ps (set_state_of s th x))) u = signal_pending (sg (ps s)) u.
Proof.
  unfold signal_pending. cbn. destruct (Z.eq_dec u th) as [->|Hne]; [by rewrite fn_lookup_insert|by rewrite fn_lookup_insert_ne].
Qed.
Lemma enqueue_in th q : th ∈ enqueue th q.
Proof. unfold enqueue. case_bool_decide; [done|]. apply elem_of_app. right. by apply list_elem_of_singleton. Qed.

(** The terminal keeps its input when threads are queued on it. *)
Definition same_ttys (s s' : tsys) (y : Z) : Prop := same_input (tts s y) (tts s' y) ∧ hangup (tts s' y) = hangup (tts s y) ∧ ∀ z, z ≠ y → tts s' z = tts s z.
Lemma same_ttys_waits s y th x f g : same_ttys s (set_state_of (upd_tty s y (λ t, set_waits (f t) (g t) t)) th x) y.
Proof.
  unfold same_ttys. change (tts (set_state_of ?a _ _)) with (tts a). rewrite tts_upd, Z.eqb_refl. split; [done|]. split; [done|]. intros z Hz. change (tts (set_state_of ?a _ _)) with (tts a). rewrite tts_upd. by apply Z.eqb_neq in Hz as ->.
Qed.
Lemma same_ttys_trans a b c y : same_ttys a b y → same_ttys b c y → same_ttys a c y.
Proof. intros (A1 & A2 & A3) (B1 & B2 & B3). split; [by etrans|]. split; [congruence|]. intros z Hz. by rewrite B3, A3. Qed.
Lemma read_cond_same timed t t' : same_input t t' → hangup t' = hangup t → read_cond timed t' = read_cond timed t.
Proof. intros (H1 & H2 & H3 & H4 & H5 & H6) Hh. unfold read_cond, can_read, ibuf_count, lflag, cc. by rewrite H1, H3, H4, H5, Hh. Qed.

Lemma read_wait_then_spec s th y timed expired len ok :
  tty_ok (tts s y) → 0 ≤ len →
  let r := read_wait_then s th y (lflag (tts s y) ICANON) timed expired len in let r := read_through r.1 y r.2 ok in
  if read_cond timed (tts s y) then read_of s y len ok r.1 r.2
  else if signal_pending (sg (ps s)) th then r.2 = TRead (- ERESTARTSYS) [] ∧ same_ttys s r.1 y
  else if expired then read_of s y len ok r.1 r.2
  else r.2 = TReadSleeps ∧ same_ttys s r.1 y ∧ th ∈ read_wait (tts r.1 y) ∧ state (thr (sg (ps r.1)) th) = TASK_INTERRUPTIBLE.
Proof.
  intros Ht Hlen. unfold read_wait_then, read_wait_event. set (s1 := set_state_of _ th TASK_INTERRUPTIBLE). cbn zeta.
  assert (same_ttys s s1 y) as E1 by apply same_ttys_waits. set (s2 := set_state_of (upd_tty s1 y _) th TASK_RUNNING). assert (same_ttys s s2 y) as E2 by (eapply same_ttys_trans; [exact E1|apply same_ttys_waits]).
  assert (let r := read_start s2 y (lflag (tts s y) ICANON) len in let r := read_through r.1 y r.2 ok in read_of s y len ok r.1 r.2) as Hf.
  { destruct E2 as (E2 & _ & E3). destruct (same_input_view _ _ E2) as (_ & _ & _ & Em). unfold lflag. rewrite <- Em. apply (read_of_same s2); [done..|]. apply read_start_spec; [by eapply same_input_ok|done]. }
  rewrite (read_cond_same timed (tts s y) (tts s1 y)) by apply E1. destruct (read_cond timed (tts s y)); [exact Hf|].
  unfold s1. rewrite signal_pending_state. change (ps (upd_tty s y _)) with (ps s). fold s1. destruct (signal_pending _ th); [by rewrite read_through_done|]. destruct expired; [exact Hf|]. rewrite read_through_done by done. cbn [fst snd]. split; [done|]. split; [done|]. split; [|apply state_of_eq].
  unfold s1. change (tts (set_state_of ?a _ _)) with (tts a). rewrite tts_upd, Z.eqb_refl. apply enqueue_in.
Qed.

(** The process of [th] may use terminal [y]. *)
Definition foreground (s : tsys) (th y : Z) : bool :=
  match proc (thr (sg (ps s)) th) with
  | None => true
  | Some p => negb (bool_decide (p_tty (node (ps s) p) = Some y)) || (tty_pgrp (ps s) y <=? 0) || (pgid (prc (sg (ps s)) p) =? tty_pgrp (ps s) y)
  end.

(** What a background process meets: an error, or its group gets the signal. *)
Definition stopped (s : tsys) (th sig : Z) (s' : tsys) (r : Z) : Prop :=
  tts s' = tts s ∧ sig_inv (sg (ps s')) ∧ quiet_ps (ps s) (ps s') ∧
  ∃ p ka, proc (thr (sg (ps s)) th) = Some p ∧ act (sg (ps s)) p sig = Some ka ∧
    if sin (sig_blocked (thr (sg (ps s)) th)) sig || (handler ka =? SIG_IGN) then s' = s ∧ r = (if sig =? SIGTTIN then - EIO else 0)
    else if is_orphaned_pgrp (sg (ps s)) (pgid (prc (sg (ps s)) p)) then s' = s ∧ r = - EIO
    else signal_group s (pgid (prc (sg (ps s)) p)) sig = Some s' ∧ r = - ERESTARTSYS.

Lemma job_control_spec s th y sig : sig_inv (sg (ps s)) → 1 ≤ sig < NSIG →
  if foreground s th y then job_control s th y sig = Some (s, 0) else ∃ s' r, job_control s th y sig = Some (s', r) ∧ stopped s th sig s' r.
Proof.
  intros Hs Hg. unfold foreground, job_control, stopped. destruct (proc (thr (sg (ps s)) th)) as [p|]; [|done]. cbn zeta. destruct (_ || _ || _); [done|].
  destruct (si_act _ Hs (sighand (prc (sg (ps s)) p))) as [Hl _ _]. destruct (lookup_lt_is_Some_2 (action (sg (ps s)) (sighand (prc (sg (ps s)) p))) (Z.to_nat sig)) as [ka Hka]; [lia|].
  change (act (sg (ps s)) p sig = Some ka) in Hka. rewrite Hka. cbn [mbind option_bind].
  rewrite land_sigmask, negb_involutive by (apply (si_thr _ Hs th) || unfold sig_ok; lia). destruct (_ || (handler ka =? SIG_IGN)) eqn:E1.
  { eexists s, _. split; [done|]. split_and!; [done..|apply quiet_ps_refl|]. eexists _, _. split_and!; [done..|]. by rewrite E1. }
  destruct (is_orphaned_pgrp _ _) eqn:E2.
  { eexists s, _. split; [done|]. split_and!; [done..|apply quiet_ps_refl|]. eexists _, _. split_and!; [done..|]. by rewrite E1, E2. }
  destruct (signal_group_spec s (pgid (prc (sg (ps s)) p)) sig Hs ltac:(lia)) as (s' & Eg & H1 & H2 & H3). rewrite Eg. cbn.
  eexists s', _. split; [done|]. split_and!; [done..|]. eexists _, _. split_and!; [done..|]. by rewrite E1, E2.
Qed.

(** Characters a read may return now. *)
Definition available (t : tty) : bool :=
  let n := Z.of_nat (length (ready t)) in
  hangup t ||
  if lflag t ICANON then 0 <? n
  else if cc t VMIN =? 0 then (cc t VTIME =? 0) || (0 <? n)
  else Z.max (cc t VMIN) 1 <=? n.

Lemma raw_count t : tty_ok t → lflag t ICANON = false → ibuf_count t = Z.of_nat (length (ready t)).
Proof. intros Ht Hc. rewrite (ready_length t (tty_ring t Ht)), (ty_raw _ Ht Hc). done. Qed.
Lemma canon_ready t : tty_ok t → negb (icanon_end t =? itail t) = (0 <? Z.of_nat (length (ready t))).
Proof.
  intros Ht. pose proof (ready_nil t (tty_ring t Ht)) as H. destruct (Z.eqb_spec (icanon_end t) (itail t)) as [E|E], (Z.ltb_spec 0 (Z.of_nat (length (ready t)))) as [F|F]; try done.
  - apply H in E. rewrite E in F. cbn in F. lia.
  - destruct E. apply H. by destruct (ready t); [|cbn in F; lia].
Qed.

(** When a read with characters to wait for finds them. *)
Lemma can_read_available t : tty_ok t → (negb (lflag t ICANON) && (cc t VMIN =? 0) = false) → can_read t = available t.
Proof.
  intros Ht Hm. unfold can_read, available. cbn zeta. destruct (hangup t); [done|]. cbn [orb]. destruct (lflag t ICANON) eqn:Hc; [by apply canon_ready|].
  cbn in Hm. rewrite Hm. cbn [andb]. by rewrite orb_false_r, (raw_count t Ht Hc).
Qed.

Ltac by_through H := cbv zeta in H; revert H; match goal with |- context [read_through ?a ?b ?c ?d] => destruct (read_through a b c d) end; exact id.

Lemma read_total s th f len ok :
  let y := tf_tty f in let t := tts s y in
  sig_inv (sg (ps s)) → tty_ok t → 0 ≤ len →
  ∃ s1 w1, tty_read s th f len = Some (s1, w1) ∧
    let '(s', w) := read_through s1 y w1 ok in
    if negb (foreground s th y) then ∃ r, stopped s th SIGTTIN s' r ∧ w = TRead r []
    else if available t then read_of s y len ok s' w
    else if tf_nonblock f && (lflag t ICANON || negb (cc t VMIN =? 0)) then w = TRead (- EAGAIN) [] ∧ s' = s
    else if signal_pending (sg (ps s)) th then w = TRead (- ERESTARTSYS) [] ∧ same_ttys s s' y
    else w = TReadSleeps ∧ same_ttys s s' y ∧ th ∈ read_wait (tts s' y) ∧ state (thr (sg (ps s')) th) = TASK_INTERRUPTIBLE.
Proof.
  intros y t Hs Ht Hlen. pose proof (job_control_spec s th y SIGTTIN Hs ltac:(lia)) as Hj. unfold tty_read. fold y. destruct (foreground s th y); cbn [negb].
  2: { destruct Hj as (s' & r & -> & Hst). cbn [mbind option_bind]. assert ((r =? 0) = false) as ->. { destruct Hst as (_ & _ & _ & p & ka & _ & _ & Hr). change (SIGTTIN =? SIGTTIN) with true in Hr. destruct (_ || _); [by destruct Hr as [_ ->]|]. destruct (is_orphaned_pgrp _ _); by destruct Hr as [_ ->]. }
       eexists _, _. split; [done|]. rewrite read_through_done by done. by exists r. }
  rewrite Hj. cbn [mbind option_bind]. change (negb (0 =? 0)) with false. cbn iota zeta. fold t. eexists _, _. split; [by rewrite <- surjective_pairing|].
  destruct (read_start_spec s y len ok Ht Hlen) as [Hf _]. pose proof (λ timed, read_wait_then_spec s th y timed false len ok Ht Hlen) as Hw. fold t in Hw, Hf. destruct (negb (lflag t ICANON) && (cc t VMIN =? 0)) eqn:Em.
  - apply andb_true_iff in Em as [Hc Hm]. apply negb_true_iff in Hc. unfold available. rewrite Hc, Hm. cbn [negb orb]. rewrite andb_false_r, <- (raw_count t Ht Hc). specialize (Hw true). rewrite Hc in Hw, Hf.
    unfold read_cond in Hw. pose proof (sub32_range (ihead t) (itail t)) as Hrg. fold (ibuf_count t) in Hrg.
    destruct (cc t VTIME =? 0); cbn [negb andb orb]; [rewrite orb_true_r; by_through Hf|]. destruct (Z.eqb_spec (ibuf_count t) 0) as [E0|E0].
    + rewrite orb_comm in Hw. by_through Hw.
    + assert (0 <? ibuf_count t = true) as -> by (apply Z.ltb_lt; lia). rewrite orb_true_r. by_through Hf.
  - rewrite (can_read_available t Ht Em). destruct (available t) eqn:Ea; [by_through Hf|]. assert (lflag t ICANON || negb (cc t VMIN =? 0) = true) as -> by (by destruct (lflag t ICANON), (cc t VMIN =? 0)). rewrite andb_true_r.
    destruct (tf_nonblock f); [by rewrite read_through_done|]. specialize (Hw false). unfold read_cond in Hw. rewrite (can_read_available t Ht Em), Ea in Hw. by_through Hw.
Qed.

(** ** Output *)

(** How a character leaves: a newline may become a return and a newline. *)
Definition expand (k : termios) (c : Z) : list Z := if has_flag (c_oflag k) OPOST && has_flag (c_oflag k) ONLCR && (c =? NL) then [CR; NL] else [c].
Definition expand_all (k : termios) (l : list Z) : list Z := concat (map (expand k) l).

Lemma expand_app k a b : expand_all k (a ++ b) = expand_all k a ++ expand_all k b.
Proof. unfold expand_all. by rewrite map_app, concat_app. Qed.
Lemma expand_length k l : (length l ≤ length (expand_all k l) ≤ 2 * length l)%nat.
Proof.
  induction l as [|c l IH]; [cbn; lia|]. change (c :: l) with ([c] ++ l). rewrite expand_app, !length_app. unfold expand_all at 1 3. cbn [map concat]. rewrite app_nil_r. unfold expand. case_match; cbn [length]; lia.
Qed.

(** The terminal has sent [l], its input is as it was. *)
Definition sent_out (t t' : tty) (l : list Z) : Prop := same_input t t' ∧ t_out t' = t_out t ++ l ∧ hangup t' = hangup t ∧ read_wait t' = read_wait t.

Lemma sent_out_trans a b c l m : sent_out a b l → sent_out b c m → sent_out a c (l ++ m).
Proof. intros (A1 & A2 & A3 & A4) (B1 & B2 & B3 & B4). split; [by etrans|]. split; [by rewrite B2, A2, app_assoc|]. split; congruence. Qed.
Lemma out_char_spec t c : sent_out t (out_char t c) (expand (tm t) c).
Proof. split; [apply out_char_same|]. unfold out_char, expand, oflag. by repeat case_match. Qed.
Lemma out_chars_spec l : ∀ t, sent_out t (fold_left out_char l t) (expand_all (tm t) l).
Proof.
  induction l as [|c l IH]; intros t; [split_and!; try done; cbn; by rewrite app_nil_r|]. cbn [fold_left]. change (expand_all (tm t) (c :: l)) with (expand (tm t) c ++ expand_all (tm t) l).
  eapply sent_out_trans; [apply out_char_spec|]. destruct (out_char_same t c) as (<- & _). apply IH.
Qed.
Lemma write_chunk_spec t l : sent_out t (write_chunk t l) (expand_all (tm t) l).
Proof.
  unfold write_chunk. destruct (oflag t OPOST) eqn:E; [apply out_chars_spec|]. assert (expand_all (tm t) l = l) as ->; [|done].
  unfold expand_all, expand. unfold oflag in E. rewrite E. cbn. induction l as [|c l IH]; [done|]. cbn. by rewrite IH.
Qed.

(** What a write that has sent [m] of the [len] bytes reports. *)
Definition write_result (len m : Z) (w : twrite) : Prop :=
  (m = len ∧ w = TWrote len) ∨
  (m < len ∧ (w = TWriteSleeps m ∨ ∃ e, e ∈ [EFAULT; EIO; EAGAIN; ERESTARTSYS] ∧ w = TWrote (or_done m (- e)))).

Definition bytes (data : list Z) (from to : Z) : list Z := firstn (Z.to_nat (to - from)) (skipn (Z.to_nat from) data).
Lemma bytes_app data a b c : 0 ≤ a ≤ b → b ≤ c → bytes data a c = bytes data a b ++ bytes data b c.
Proof.
  intros H1 H2. unfold bytes. replace (Z.to_nat (c - a)) with (Z.to_nat (b - a) + Z.to_nat (c - b))%nat by lia. replace (Z.to_nat b) with (Z.to_nat a + Z.to_nat (b - a))%nat by lia.
  by rewrite <- drop_drop, take_take_drop.
Qed.

(** A write went on from offset [d] to some offset [m]: the driver got the
    translation of these bytes, and the result tells [m]. *)
Definition wrote (s : tsys) (th y : Z) (data : list Z) (d : Z) (s' : tsys) (w : twrite) : Prop :=
  ∃ m, d ≤ m ≤ Z.of_nat (length data) ∧ write_result (Z.of_nat (length data)) m w ∧
    sent_out (tts s y) (tts s' y) (expand_all (tm (tts s y)) (bytes data d m)) ∧ (∀ z, z ≠ y → tts s' z = tts s z) ∧
    (w = TWriteSleeps m → th ∈ write_wait (tts s' y) ∧ state (thr (sg (ps s')) th) = TASK_INTERRUPTIBLE).

Lemma write_loop_spec fuel : ∀ s th y nb data room ok d,
  0 ≤ d ≤ Z.of_nat (length data) → (Z.to_nat (Z.of_nat (length data) - d) < fuel)%nat →
  let r := write_loop fuel s th y nb data room ok d in wrote s th y data d r.1 r.2.
Proof.
  unfold wrote. induction fuel as [|fuel IH]; intros s th y nb data room ok d Hd Hf; [lia|]. cbn [write_loop]. set (len := Z.of_nat (length data)) in *.
  assert (sent_out (tts s y) (tts s y) (expand_all (tm (tts s y)) (bytes data d d))) as H0 by (unfold bytes; rewrite Z.sub_diag; split_and!; try done; cbn; by rewrite app_nil_r).
  destruct (Z.ltb_spec d len) as [Hlt|Hge].
  2: { exists d. cbn [fst snd]. split; [lia|]. split; [left; split; [lia|f_equal; lia]|]. done. }
  cbn zeta. set (n := Z.min (len - d) WRITE_CHUNK).
  assert (∀ e, e ∈ [EFAULT; EIO; EAGAIN; ERESTARTSYS] → write_result len d (TWrote (or_done d (- e)))) as Herr by (intros e He; right; split; [done|right; by exists e]).
  assert (∃ m, d ≤ m ≤ len ∧
    let r := if negb (ok d) then (s, TWrote (or_done d (- EFAULT))) else write_loop fuel (upd_tty s y (λ t, write_chunk t (firstn (Z.to_nat n) (skipn (Z.to_nat d) data)))) th y nb data room ok (d + n) in
    write_result len m r.2 ∧ sent_out (tts s y) (tts r.1 y) (expand_all (tm (tts s y)) (bytes data d m)) ∧ (∀ z, z ≠ y → tts r.1 z = tts s z) ∧
    (r.2 = TWriteSleeps m → th ∈ write_wait (tts r.1 y) ∧ state (thr (sg (ps r.1)) th) = TASK_INTERRUPTIBLE)) as Hput.
  { destruct (ok d); cbn [negb]; [|exists d; cbn [fst snd]; split; [lia|]; split; [apply Herr; set_solver|done]].
    set (s1 := upd_tty _ _ _). destruct (IH s1 th y nb data room ok (d + n) ltac:(lia) ltac:(lia)) as (m & Hm & R1 & R2 & R3 & R4). exists m. split; [lia|]. cbn zeta. split; [done|].
    assert (sent_out (tts s y) (tts s1 y) (expand_all (tm (tts s y)) (bytes data d (d + n)))) as Hc. { unfold s1. rewrite tts_upd, Z.eqb_refl. unfold bytes. replace (d + n - d) with n by lia. apply write_chunk_spec. }
    split; [|split; [|done]].
    - rewrite (bytes_app data d (d + n) m), expand_app by lia. eapply sent_out_trans; [exact Hc|]. destruct Hc as ((<- & _) & _). exact R2.
    - intros z Hz. rewrite R3 by done. unfold s1. rewrite tts_upd. by apply Z.eqb_neq in Hz as ->. }
  destruct room as [room|]; [|exact Hput]. destruct (hangup (tts s y)). { exists d. split; [lia|]. split; [apply Herr; set_solver|done]. }
  destruct (_ <? 2 * n); [|exact Hput]. destruct nb. { exists d. split; [lia|]. split; [apply Herr; set_solver|done]. }
  destruct (signal_pending _ th); exists d; (split; [lia|]); cbn [fst snd]. { split; [apply Herr; set_solver|]. done. }
  split; [right; split; [done|by left]|]. pose proof (same_ttys_waits s y th TASK_INTERRUPTIBLE read_wait (λ t, enqueue th (write_wait t))) as (W1 & W2 & W3).
  change (tts (set_state_of ?a _ _)) with (tts a) in *. split; [|split; [done|]].
  - rewrite tts_upd, Z.eqb_refl. exact H0.
  - intros _. split; [rewrite tts_upd, Z.eqb_refl; apply enqueue_in|apply state_of_eq].
Qed.

Lemma wrote_same s1 s th y data d s' w : same_ttys s s1 y → t_out (tts s1 y) = t_out (tts s y) → read_wait (tts s1 y) = read_wait (tts s y) →
  wrote s1 th y data d s' w → wrote s th y data d s' w.
Proof.
  intros (H1 & H2 & H3) Ho Hr (m & M1 & M2 & M3 & M4 & M5). exists m. split; [done|]. split; [done|]. split; [|split; [|done]].
  - destruct H1 as (Em & H1). rewrite Em in M3. destruct M3 as (N1 & N2 & N3 & N4). split; [etrans; [|exact N1]; by split|]. split; [by rewrite N2, Ho|]. split; congruence.
  - intros z Hz. by rewrite M4, H3.
Qed.

Lemma write_resume_spec s th y data room ok d :
  0 ≤ d < Z.of_nat (length data) → th ∈ write_wait (tts s y) →
  let r := tty_write_resume s th y data room ok d in wrote s th y data d r.1 r.2.
Proof.
  intros Hd Hq. unfold tty_write_resume. set (s1 := set_state_of (upd_tty s y _) th TASK_RUNNING). cbn zeta.
  assert (same_ttys s s1 y) as E1 by apply same_ttys_waits. assert (t_out (tts s1 y) = t_out (tts s y) ∧ read_wait (tts s1 y) = read_wait (tts s y)) as [E2 E3].
  { unfold s1. change (tts (set_state_of ?a _ _)) with (tts a). by rewrite tts_upd, Z.eqb_refl. }
  assert (∀ s2 : tsys, same_input (tts s y) (tts s2 y) → t_out (tts s2 y) = t_out (tts s y) → hangup (tts s2 y) = hangup (tts s y) → read_wait (tts s2 y) = read_wait (tts s y) → sent_out (tts s y) (tts s2 y) (expand_all (tm (tts s y)) (bytes data d d))) as H0.
  { intros s2 A B C D. unfold bytes. rewrite Z.sub_diag. split; [done|]. split; [|done]. cbn. by rewrite app_nil_r. }
  destruct (_ || _); [apply (wrote_same s1); [done..|]; apply write_loop_spec; unfold write_fuel; lia|]. destruct (signal_pending _ th); exists d; cbn [fst snd]; (split; [lia|]).
  - destruct E1 as (A & B & C). split; [right; split; [lia|]; right; exists ERESTARTSYS; split; [set_solver|done]|]. split; [by apply H0|]. split; [done|]. done.
  - split; [right; split; [lia|by left]|]. split; [by apply H0|]. split; [done|]. intros _. split; [done|]. apply state_of_eq.
Qed.

Lemma write_total s th f data room ok :
  let y := tf_tty f in sig_inv (sg (ps s)) →
  ∃ s1 r s' w, tty_write s th f data room ok = Some (s', w) ∧
    (if lflag (tts s y) TOSTOP && negb (foreground s th y) then stopped s th SIGTTOU s1 r else s1 = s ∧ r = 0) ∧
    if r =? 0 then wrote s1 th y data 0 s' w else s' = s1 ∧ w = TWrote r.
Proof.
  intros y Hs. unfold tty_write. fold y. assert (∀ s1, wrote s1 th y data 0 (write_loop (write_fuel data) s1 th y (tf_nonblock f) data room ok 0).1 (write_loop (write_fuel data) s1 th y (tf_nonblock f) data room ok 0).2) as Hw.
  { intros s1. apply write_loop_spec; unfold write_fuel; lia. }
  assert (∃ s1 r, (if lflag (tts s y) TOSTOP then job_control s th y SIGTTOU else Some (s, 0)) = Some (s1, r) ∧ (if lflag (tts s y) TOSTOP && negb (foreground s th y) then stopped s th SIGTTOU s1 r else s1 = s ∧ r = 0)) as (s1 & r & -> & Hj).
  { pose proof (job_control_spec s th y SIGTTOU Hs ltac:(lia)) as Hj. destruct (lflag _ TOSTOP); [|by eexists _, _]. destruct (foreground s th y); cbn [negb andb]; [by eexists _, _|done]. }
  cbn [mbind option_bind]. exists s1, r. destruct (r =? 0); cbn [negb]; eexists _, _; (split; [by rewrite <- surjective_pairing|]); done.
Qed.
