(* ===== verification/TtyInv.v ===== *)
(** * Terminals stay well-formed

    Every operation on terminals keeps their rings and the tree of processes
    well-formed, and is defined; input, reads and writes do what an editor of
    lines promises.  Examples show where the code departs from what it means to
    do. *)

From stdpp Require Import functions.
From S2P Require Import Prelude Signal SignalSpec SignalInv Process ProcessSpec ProcessInv Tty TtySpec.

(** ** Every operation keeps the terminals well-formed *)

(** A read that began in raw mode finds the terminal in raw mode. *)
Definition mode_kept (t : tty) (canon : bool) : Prop := canon = false → lflag t ICANON = false.

Lemma read_end_id t : tty_ok t → read_end t = t.
Proof. intros [_ H1 H2 _]. unfold read_end. assert ((TTY_BUF <? sub32 (icanon_end t) (itail t)) = false) as ->; [apply Z.ltb_ge; unfold ibuf_count in *; lia|done]. Qed.
Lemma adv_ok t canon d : tty_ok t → mode_kept t canon → 0 ≤ d ≤ sub32 (limit_of t canon) (itail t) → tty_ok (adv t d).
Proof.
  intros Ht Hm Hd. pose proof Ht as [(P1 & P2 & P3) H1 H2 H3]. unfold ibuf_count in *. assert (d ≤ sub32 (icanon_end t) (itail t)) as Hle. { destruct canon; [by apply Hd|]. rewrite H3 by auto. by apply Hd. }
  pose proof (sub32_adv (ihead t) (itail t) d P1 P2 ltac:(lia)) as A1. pose proof (sub32_adv (icanon_end t) (itail t) d P3 P2 ltac:(lia)) as A2.
  split; [split; [done|split; [apply wrap32_ok|done]]|..|exact H3]; change (itail (adv t d)) with (wrap32 (itail t + d)).
  - change (sub32 (ihead t) (wrap32 (itail t + d)) ≤ TTY_BUF - 1). lia.
  - change (sub32 (icanon_end t) (wrap32 (itail t + d)) ≤ sub32 (ihead t) (wrap32 (itail t + d))). lia.
Qed.
Lemma read_section_ok t canon len dn : tty_ok t → mode_kept t canon → tty_ok (read_section t canon len dn).1.
Proof.
  intros Ht Hm. unfold read_section. cbn zeta. destruct (_ <? len); [|by rewrite read_end_id]. unfold read_chunk. fold (limit_of t canon). pose proof Ht as [(P1 & P2 & P3) _ _ _].
  destruct (take_adv (Z.to_nat (Z.min CHUNK (len - Z.of_nat (length dn)))) t canon (limit_of t canon) ltac:(by destruct canon) P2) as (d & l & e & -> & Hd & _). pose proof (adv_ok t canon d Ht Hm Hd) as Ha. destruct (_ && _); [by rewrite read_end_id|done].
Qed.
Lemma read_copied_ok t c ok : tty_ok t → mode_kept t (rc_canon c) → tty_ok (read_copied t c ok).1.
Proof. intros Ht Hm. unfold read_copied. cbn zeta. destruct (_ && _); [done|]. destruct (rc_eol c); [by rewrite read_end_id|by apply read_section_ok]. Qed.

Definition tsys_inv (s : tsys) : Prop := proc_inv (ps s) ∧ ∀ y, tty_ok (tts s y).

Lemma tsys_tty s y f : tsys_inv s → (tty_ok (tts s y) → tty_ok (f (tts s y))) → tsys_inv (upd_tty s y f).
Proof. intros [Hp Ht] H. split; [done|]. intros z. rewrite tts_upd. destruct (Z.eqb_spec z y) as [->|]; auto. Qed.
Lemma tsys_ps s f : tsys_inv s → sig_inv (sg (f (ps s))) → same_tree (ps s) (f (ps s)) → tsys_inv (upd_ps s f).
Proof. intros [[Hs Ht] Hy] H1 H2. split; [|done]. split; [done|]. by eapply same_tree_ok. Qed.
Lemma tsys_quiet s s' : tsys_inv s → tts s' = tts s → sig_inv (sg (ps s')) → quiet_ps (ps s) (ps s') → tsys_inv s'.
Proof. intros [[Hs Ht] Hy] E1 H1 (g & E2 & H2). split; [|by rewrite E1]. split; [done|]. rewrite E2. eapply same_tree_ok; [by apply calm_same|done]. Qed.
Lemma tsys_state s th x : tsys_inv s → tsys_inv (set_state_of s th x).
Proof.
  intros H. pose proof H as [[Hs _] _]. apply tsys_ps; [done|apply inv_thr; [done|by intros []]|]. split; try done. intros t. cbn. destruct (Z.eq_dec t th) as [->|Hne]; [by rewrite fn_lookup_insert|by rewrite fn_lookup_insert_ne].
Qed.
Lemma tsys_node s p x : tsys_inv s → tsys_inv (upd_ps s (λ z, upd_node z p (set_tty x))).
Proof.
  intros H. pose proof H as [[Hs _] _]. apply tsys_ps; [done..|]. split; try done. intros q. cbn. destruct (Z.eq_dec q p) as [->|Hne]; [by rewrite fn_lookup_insert|by rewrite fn_lookup_insert_ne].
Qed.
Lemma tsys_job s y a b : tsys_inv s → tsys_inv (upd_ps s (λ p, set_job p y a b)).
Proof. intros H. pose proof H as [[Hs _] _]. by apply tsys_ps. Qed.
Lemma tsys_group s y b : tsys_inv s → tsys_inv (upd_ps s (λ p, set_job p y (tty_session p y) b)).
Proof. intros H. pose proof H as [[Hs _] _]. by apply tsys_ps. Qed.
Lemma tsys_own s p y a b : tsys_inv s → tsys_inv (upd_ps s (λ z, set_job (upd_node z p (set_tty (Some y))) y a b)).
Proof. intros H. by apply (tsys_job (upd_ps s (λ z, upd_node z p (set_tty (Some y))))), tsys_node. Qed.
#[export] Hint Resolve tsys_state tsys_node tsys_job tsys_group tsys_own : olux.

Lemma tsys_wake s q : tsys_inv s → tsys_inv (wake_queue s q).
Proof. intros H. pose proof H as [[Hs _] _]. destruct (wake_queue_spec s q Hs) as (A & B & C & _). by apply (tsys_quiet s). Qed.
Lemma tsys_signal s pg g : tsys_inv s → 0 ≤ g < NSIG → ∃ s', signal_group s pg g = Some s' ∧ tsys_inv s' ∧ tts s' = tts s.
Proof. intros H Hg. pose proof H as [[Hs _] _]. destruct (signal_group_spec s pg g Hs Hg) as (s' & E & A & B & C). exists s'. split; [done|]. split; [|done]. by apply (tsys_quiet s). Qed.
#[export] Hint Resolve tsys_wake : olux.

Lemma tsys_receive s y l : tsys_inv s → ∃ s', tty_receive s y l = Some s' ∧ tsys_inv s'.
Proof.
  intros H. pose proof H as [[Hs Htr] Hy]. pose proof (tty_receive_spec l s y (Hy y) Hs (tr_nodup _ Htr)) as HR. destruct (edit_run _ _ _) as [e evs]. destruct HR as (s' & E & A1 & A2 & A3 & A4 & A5 & A6 & (g & A7 & A8) & A9). exists s'. split; [done|]. split.
  - split; [done|]. rewrite A7. eapply same_tree_ok; [by apply calm_same|done].
  - intros z. destruct (Z.eq_dec z y) as [->|Hne]; [done|by rewrite A5].
Qed.

Lemma tsys_waits s y r w : tsys_inv s → tsys_inv (upd_tty s y (λ t, set_waits (r t) (w t) t)).
Proof. intros H. apply tsys_tty; [done|]. apply same_input_ok, waits_same. Qed.
#[export] Hint Resolve tsys_waits : olux.

Lemma tsys_read_start s y canon len : tsys_inv s → mode_kept (tts s y) canon → tsys_inv (read_start s y canon len).1.
Proof.
  intros H Hm. unfold read_start. pose proof (read_section_ok (tts s y) canon len [] (proj2 H y) Hm) as Hr. destruct (read_section _ _ _ _) as [t w]. by apply tsys_tty.
Qed.
Lemma tsys_read_copied s y c ok : tsys_inv s → mode_kept (tts s y) (rc_canon c) → tsys_inv (tty_read_copied s y c ok).1.
Proof.
  intros H Hm. unfold tty_read_copied. pose proof (read_copied_ok (tts s y) c ok (proj2 H y) Hm) as Hr. destruct (read_copied _ _ _) as [t w]. by apply tsys_tty.
Qed.
Lemma tsys_read_wait s th y canon timed expired len :
  tsys_inv s → mode_kept (tts s y) canon → tsys_inv (read_wait_then s th y canon timed expired len).1.
Proof.
  intros H Hm. unfold read_wait_then, read_wait_event. set (s1 := set_state_of _ th TASK_INTERRUPTIBLE). cbn zeta. set (s2 := set_state_of (upd_tty s1 y _) th TASK_RUNNING).
  assert (tsys_inv s1) as H1 by (unfold s1; auto with olux). assert (tsys_inv s2) as H2 by (unfold s2; auto with olux).
  assert (same_ttys s s2 y) as ((Em & _) & _) by (eapply same_ttys_trans; apply same_ttys_waits).
  assert (tsys_inv (read_start s2 y canon len).1) as Hf. { apply tsys_read_start; [done|]. unfold mode_kept, lflag in *. by rewrite Em. }
  destruct (read_cond _ _); [exact Hf|]. destruct (signal_pending _ _); [done|]. by destruct expired.
Qed.

Lemma tsys_job_control s th y sig : tsys_inv s → 1 ≤ sig < NSIG → ∃ s' r, job_control s th y sig = Some (s', r) ∧ tsys_inv s' ∧ tts s' = tts s.
Proof.
  intros H Hg. pose proof H as [[Hs _] _]. pose proof (job_control_spec s th y sig Hs Hg) as Hj. destruct (foreground s th y); [by exists s, 0|].
  destruct Hj as (s' & r & E & A & B & C & _). exists s', r. split; [done|]. split; [|done]. by apply (tsys_quiet s).
Qed.
Lemma tsys_read s th f len : tsys_inv s → ∃ s' w, tty_read s th f len = Some (s', w) ∧ tsys_inv s'.
Proof.
  intros H. unfold tty_read. destruct (tsys_job_control s th (tf_tty f) SIGTTIN H ltac:(lia)) as (s1 & r & -> & H1 & E1). cbn [mbind option_bind]. destruct (negb (r =? 0)); [by eexists _, _|]. eexists _, _. split; [by rewrite <- surjective_pairing|].
  assert (mode_kept (tts s1 (tf_tty f)) (lflag (tts s1 (tf_tty f)) ICANON)) as Hm by (by intros ->). repeat case_match; try done; first [by apply tsys_read_wait|by apply tsys_read_start].
Qed.

Lemma tsys_write_loop fuel : ∀ s th y nb data room ok d, tsys_inv s → tsys_inv (write_loop fuel s th y nb data room ok d).1.
Proof.
  induction fuel as [|fuel IH]; intros s th y nb data room ok d H; [done|]. cbn [write_loop]. destruct (d <? _); [|done]. cbn zeta.
  assert (∀ l d', tsys_inv (write_loop fuel (upd_tty s y (λ t, write_chunk t l)) th y nb data room ok d').1) as Hc. { intros l d'. apply IH, tsys_tty; [done|]. apply same_input_ok, write_chunk_spec. }
  repeat case_match; try done; cbn [fst]; auto with olux.
Qed.
Lemma tsys_write s th f data room ok : tsys_inv s → ∃ s' w, tty_write s th f data room ok = Some (s', w) ∧ tsys_inv s'.
Proof.
  intros H. unfold tty_write. assert (∃ s1 r, (if lflag (tts s (tf_tty f)) TOSTOP then job_control s th (tf_tty f) SIGTTOU else Some (s, 0)) = Some (s1, r) ∧ tsys_inv s1) as (s1 & r & -> & H1).
  { destruct (lflag _ _); [|by eexists _, _]. destruct (tsys_job_control s th (tf_tty f) SIGTTOU H ltac:(lia)) as (s1 & r & -> & ? & _). by eexists _, _. }
  cbn [mbind option_bind]. eexists _, _. split; [by rewrite <- surjective_pairing|]. destruct (negb _); [done|by apply tsys_write_loop].
Qed.
Lemma tsys_write_resume s th y data room ok d : tsys_inv s → tsys_inv (tty_write_resume s th y data room ok d).1.
Proof. intros H. unfold tty_write_resume. cbn zeta. destruct (_ || _); [apply tsys_write_loop; auto with olux|]. destruct (signal_pending _ _); cbn [fst]; auto with olux. Qed.

Lemma tsys_flush s y : tsys_inv s → tsys_inv (upd_tty s y flush_input).
Proof. intros H. apply tsys_tty; [done|]. intros Ht. by apply flush_spec. Qed.
Lemma tsys_attributes s y k : tsys_inv s → tsys_inv (set_attributes s y k).
Proof. intros H. unfold set_attributes. apply tsys_wake, tsys_tty; [done|]. intros Ht. by apply apply_termios_refines. Qed.
Lemma tsys_size s y w : tsys_inv s → tsys_inv (upd_tty s y (set_winsize w)).
Proof. intros H. apply tsys_tty; [done|]. by apply same_input_ok. Qed.
Lemma tsys_opens s y n h : tsys_inv s → tsys_inv (upd_tty s y (λ t, set_opens (n t) (h t) t)).
Proof. intros H. apply tsys_tty; [done|]. by apply same_input_ok. Qed.
#[export] Hint Resolve tsys_flush tsys_attributes tsys_size tsys_opens : olux.

Lemma tsys_signal_if s (b : bool) pg g : tsys_inv s → 0 ≤ g < NSIG → ∃ s', (if b then signal_group s pg g else Some s) = Some s' ∧ tsys_inv s' ∧ tts s' = tts s.
Proof. intros H Hg. destruct b; [by apply tsys_signal|by exists s]. Qed.
Lemma tsys_give_up s y : tsys_inv s → ∃ s', give_up_tty s y = Some s' ∧ tsys_inv s'.
Proof.
  intros H. unfold give_up_tty. cbn zeta. destruct (0 <? _); cbn [mbind option_bind]; [|eexists; split; [done|auto with olux]].
  destruct (tsys_signal s (tty_pgrp (ps s) y) SIGHUP H ltac:(lia)) as (s1 & -> & H1 & _). cbn. destruct (tsys_signal s1 (tty_pgrp (ps s) y) SIGCONT H1 ltac:(lia)) as (s2 & -> & H2 & _). cbn. eexists; split; [done|auto with olux].
Qed.

Lemma tsys_ioctl s th p f cmd u : tsys_inv s → ∃ s' f' r, tty_ioctl s th p f cmd u = Some (s', f', r) ∧ tsys_inv s'.
Proof.
  intros H. unfold tty_ioctl. cbn zeta. set (y := tf_tty f).
  assert (∀ (o : option tsys) (f' : tfile) (r : Z * tvalue), (∃ s', o = Some s' ∧ tsys_inv s') → ∃ s' f1 r1, (s1 ← o; Some (s1, f', r)) = Some (s', f1, r1) ∧ tsys_inv s') as Hbind by (intros o f' r (s' & -> & Hs'); by eexists _, _, _).
  assert (∀ (s1 : tsys) (f' : tfile) (r : Z * tvalue), tsys_inv s1 → ∃ s' f1 r1, Some (s1, f', r) = Some (s', f1, r1) ∧ tsys_inv s') as Hret by (intros s1 f' r Hs'; by eexists _, _, _).
  destruct cmd; try (repeat case_match; apply Hret; auto with olux).
  - case_match; [|by apply Hret]. case_bool_decide; [by apply Hret|]. destruct (tsys_signal_if (upd_tty s y (set_winsize l)) (0 <? tty_pgrp (ps (upd_tty s y (set_winsize l))) y) (tty_pgrp (ps (upd_tty s y (set_winsize l))) y) SIGWINCH ltac:(auto with olux) ltac:(lia)) as (s1 & E & Hs1 & _). apply Hbind. eauto.
  - case_match; [by apply Hret|]. assert (∃ s1, (if sid (prc (sg (ps s)) p) =? pid (prc (sg (ps s)) p) then give_up_tty s y else Some s) = Some s1 ∧ tsys_inv s1) as (s1 & -> & Hs1) by (case_match; [by apply tsys_give_up|by exists s]). cbn [mbind option_bind]. apply Hret. auto with olux.
  - case_match; [by apply Hret|]. case_match; [|by apply Hret]. apply Hbind. by apply tsys_receive.
Qed.

Lemma tsys_open s p y noctty : tsys_inv s → tsys_inv (tty_open_common s p y noctty).
Proof.
  intros H. unfold tty_open_common. cbn zeta. set (s1 := upd_tty s y _). assert (tsys_inv s1) as H1 by (unfold s1; auto with olux). destruct p as [p|]; [|done]. destruct (_ && _); [|done]. auto with olux.
Qed.
Lemma tsys_hangup s y : tsys_inv s → ∃ s', tty_hangup s y = Some s' ∧ tsys_inv s'.
Proof.
  intros H. unfold tty_hangup. cbn zeta. set (s1 := upd_tty s y _). assert (tsys_inv s1) as H1 by (unfold s1; auto with olux).
  destruct (tsys_signal_if s1 (0 <? tty_pgrp (ps s1) y) (tty_pgrp (ps s1) y) SIGHUP H1 ltac:(lia)) as (s2 & -> & H2 & _). cbn [mbind option_bind].
  destruct (tsys_signal_if s2 ((0 <? tty_session (ps s1) y) && negb (tty_session (ps s1) y =? tty_pgrp (ps s1) y)) (tty_session (ps s1) y) SIGHUP H2 ltac:(lia)) as (s3 & -> & H3 & _). cbn [mbind option_bind].
  eexists. split; [done|]. auto with olux.
Qed.
Lemma tsys_free s y : tsys_inv s → tsys_inv (tty_free s y).
Proof.
  intros H. unfold tty_free, upd_ps. cbn beta. generalize (all_processes (sg (ps s))) as l. intros l. revert s H. induction l as [|q l IH]; intros s H; [by destruct H|]. cbn [fold_left]. 
  destruct (bool_decide _); [|by apply IH]. apply (IH (upd_ps s (λ z, upd_node z q (set_tty None)))). auto with olux.
Qed.
Lemma tty_new_ok : tty_ok tty_new.
Proof. split; try done; by vm_compute. Qed.
Lemma tsys_setup s y : tsys_inv s → tsys_inv (tty_setup s y).
Proof. intros H. apply tsys_job, tsys_tty; [done|]. intros _. exact tty_new_ok. Qed.

(** The operations on terminals, by any thread, and their creation.  The sections
    of a read are steps of their own, with anything between them: its start, its
    return from the wait, and its return from the copy of a chunk; so is a chunk of
    a write.  A section of a read
    that began in raw mode is a step only as long as the terminal is in raw mode,
    [stale_read_breaks] shows why. *)
Inductive tty_step : tsys → tsys → Prop :=
| ts_alloc s y : tty_step s (tty_alloc s y)
| ts_register s tt y : tty_step s (tty_register s tt y).1.1
| ts_free s y : tty_step s (tty_free s y)
| ts_attach s p y noctty : tty_step s (tty_open_common s p y noctty)
| ts_open s tt p minor noctty : tty_step s (ttydev_open s tt p minor noctty).1
| ts_console s con p noctty : tty_step s (console_open s con p noctty).1
| ts_devtty s p : tty_step s (devtty_open s p).1
| ts_release s y : tty_step s (tty_release s y)
| ts_hangup s y s' : tty_hangup s y = Some s' → tty_step s s'
| ts_receive s y l s' : tty_receive s y l = Some s' → tty_step s s'
| ts_read s th f len s' w : tty_read s th f len = Some (s', w) → tty_step s s'
| ts_read_start s y canon len : mode_kept (tts s y) canon → tty_step s (read_start s y canon len).1
| ts_read_resume s th y canon timed expired len : mode_kept (tts s y) canon → tty_step s (tty_read_resume s th y canon timed expired len).1
| ts_read_copied s y c ok : mode_kept (tts s y) (rc_canon c) → tty_step s (tty_read_copied s y c ok).1
| ts_write s th f data room ok s' w : tty_write s th f data room ok = Some (s', w) → tty_step s s'
| ts_write_chunk s y l : tty_step s (upd_tty s y (λ t, write_chunk t l))
| ts_write_resume s th y data room ok d : tty_step s (tty_write_resume s th y data room ok d).1
| ts_ioctl s th p f cmd u s' f' r : tty_ioctl s th p f cmd u = Some (s', f', r) → tty_step s s'.

Lemma tty_step_inv s s' : tty_step s s' → tsys_inv s → tsys_inv s'.
Proof.
  intros Hst H. destruct Hst.
  - unfold tty_alloc. case_match; [by apply tsys_setup|done].
  - unfold tty_register. repeat case_match; try done. by apply tsys_setup.
  - by apply tsys_free.
  - by apply tsys_open.
  - unfold ttydev_open. cbn zeta. repeat case_match; try done. by apply tsys_open.
  - unfold console_open. case_match; [by apply tsys_open|done].
  - unfold devtty_open. case_match; [|done]. cbn [fst]. auto with olux.
  - unfold tty_release. auto with olux.
  - destruct (tsys_hangup _ y H) as (? & ? & ?). congruence.
  - destruct (tsys_receive _ y l H) as (? & ? & ?). congruence.
  - destruct (tsys_read _ th f len H) as (? & ? & ? & ?). congruence.
  - by apply tsys_read_start.
  - by apply tsys_read_wait.
  - by apply tsys_read_copied.
  - destruct (tsys_write _ th f data room ok H) as (? & ? & ? & ?). congruence.
  - apply tsys_tty; [done|]. apply same_input_ok, write_chunk_spec.
  - by apply tsys_write_resume.
  - destruct (tsys_ioctl _ th p f cmd u H) as (? & ? & ? & ? & ?). congruence.
Qed.


(** C35. The bytes that arrive at a terminal are handled like an editor of lines
    does it: finished lines queue up, in order; the last line is edited by the
    erase, kill, word-erase and quote characters; the interrupt, quit and suspend
    characters discard the input, unless NOFLSH is set.  Their signals are pending
    for every live process of the foreground group that does not discard them, and
    no other process is touched.  A byte that ends a line or gives a signal leaves
    no reader asleep.  A reader in canonical mode that runs again, when there is a
    finished line, gets the finished characters up to the first newline, which it
    keeps, or end-of-file character, which it drops, as many as fit: this is if
    its copies succeed and nobody else uses the terminal until it returns. *)
Theorem tty_receive_correct s y l :
  tsys_inv s →
  let '(e, evs) := edit_run (tm (tts s y)) (view (tts s y)) l in
  ∃ s', tty_receive s y l = Some s' ∧ view (tts s' y) = e ∧ tm (tts s' y) = tm (tts s y) ∧ (∀ z, z ≠ y → tts s' z = tts s z) ∧ quiet_ps (ps s) (ps s') ∧
    group_got s y evs s' ∧
    (∀ ev, ev ∈ evs → ev ≠ INone → ∀ u, u ∈ read_wait (tts s y) → not_in (sg (ps s')) mask_sleep u) ∧
    (∀ th len ok, lflag (tts s y) ICANON = true → e_ready e ≠ [] → 0 ≤ len → (∀ n, ok n = true) →
       let a := (cut (cc (tts s y) VEOF) (Z.to_nat len) (e_ready e)).1.1 in
       let '(s1, w1) := tty_read_resume s' th y true false false len in
       (read_through s1 y w1 ok).2 = TRead (Z.of_nat (length a)) a).
Proof.
  intros [[Hs Htr] Hy]. pose proof (tty_receive_spec l s y (Hy y) Hs (tr_nodup _ Htr)) as HR. destruct (edit_run _ _ _) as [e evs]. destruct HR as (s' & E & A1 & A2 & A3 & A4 & A5 & A6 & A7 & _ & A8 & A9). exists s'. do 7 (split; [done|]).
  intros th len ok Hc He Hlen Hok. pose proof (read_wait_then_spec s' th y false false len ok A1 Hlen) as Hw. assert (lflag (tts s' y) ICANON = true) as Hc' by (unfold lflag in *; by rewrite A2). cbn zeta in Hw.
  assert (read_cond false (tts s' y) = true) as Hrc. { unfold read_cond, can_read. rewrite Hc', canon_ready by done. apply orb_true_iff. right. apply Z.ltb_lt. change (ready (tts s' y)) with (e_ready (view (tts s' y))). rewrite A3. destruct (e_ready e); [done|cbn; lia]. }
  rewrite Hrc, Hc' in Hw. destruct Hw as (_ & Hw & _). destruct (Hw Hok) as (Hw' & _). unfold tty_read_resume. cbn [andb]. destruct (read_wait_then _ _ _ _ _ _ _) as [s1 w1]. cbn [fst snd] in Hw'. cbn zeta. rewrite Hw'.
  unfold handed, cc. rewrite Hc', A2. change (ready (tts s' y)) with (e_ready (view (tts s' y))). by rewrite A3.
Qed.



(** ** Examples and what they show *)

(** Init, and terminals on which the line "hi" and an "x" have been typed. *)
Definition typed (l : list Z) (t : tty) : tty := fold_left (λ t c, (input_char t c).1) l t.
Definition ex_tty : tty := typed [104; 105; 10; 120] tty_new.
Definition ex_ttys : tsys := TSys ex_boot (λ _, ex_tty).

Lemma typed_ok l : ∀ t, tty_ok t → tty_ok (typed l t).
Proof. induction l as [|c l IH]; intros t Ht; [done|]. apply IH. pose proof (input_refines t c Ht) as Hi. destruct (input_char t c) as [t' ev]. apply Hi. Qed.
Lemma ex_tty_ok : tty_ok ex_tty.
Proof. exact (typed_ok [104; 105; 10; 120] tty_new tty_new_ok). Qed.
Lemma ex_ttys_inv : tsys_inv ex_ttys.
Proof. exact (conj ex_boot_inv (λ _, ex_tty_ok)). Qed.


(** The same terminals with the group of init, 1, at the foreground. *)
Definition ex_job : tsys := upd_ps ex_ttys (λ p, set_job p 0 1 1).
Lemma ex_job_inv : tsys_inv ex_job.
Proof. exact (tsys_job ex_ttys 0 1 1 ex_ttys_inv). Qed.

(** A "y", an erase, a "z" and a newline follow; a reader that waits gets "hi".
    With an interrupt character instead, init has the signal. *)
Lemma tty_receive_correct_witness :
  (∃ s', tty_receive ex_ttys 0 [121; 127; 122; 10] = Some s' ∧ view (tts s' 0) = Edit [104; 105; 10; 120; 122; 10] [] false ∧
         let '(s1, w1) := tty_read_resume s' 1 0 true false false 100 in (read_through s1 0 w1 (λ _, true)).2 = TRead 3 [104; 105; 10]) ∧
  (∃ s', tty_receive ex_job 0 [3] = Some s' ∧ view (tts s' 0) = Edit [] [] false ∧ sin (shared_pending (prc (sg (ps s')) 1)) SIGINT = true).
Proof.
  pose proof (tty_receive_correct ex_ttys 0 [121; 127; 122; 10] ex_ttys_inv) as H. pose proof (tty_receive_correct ex_job 0 [3] ex_job_inv) as H'.
  replace (edit_run (tm (tts ex_ttys 0)) (view (tts ex_ttys 0)) [121; 127; 122; 10]) with (Edit [104; 105; 10; 120; 122; 10] [] false, [INone; INone; INone; IWake]) in H by (vm_compute; reflexivity).
  replace (edit_run (tm (tts ex_job 0)) (view (tts ex_job 0)) [3]) with (Edit [] [] false, [ISignal SIGINT]) in H' by (vm_compute; reflexivity).
  destruct H as (s' & E & V & _ & _ & _ & _ & _ & R). destruct H' as (s2 & E2 & V2 & _ & _ & _ & G & _). split.
  - exists s'. split; [exact E|]. split; [exact V|]. exact (R 1 100 (λ _, true) eq_refl ltac:(discriminate) ltac:(lia) (λ _, eq_refl)).
  - exists s2. split; [exact E2|]. split; [exact V2|]. clear E2 V2. destruct (proj1 G 1 SIGINT) as [Hd|Hp]; [vm_compute; reflexivity|by apply list_elem_of_singleton| |exact Hp].
    replace (discards (sg (ps ex_job)) 1 SIGINT) with false in Hd by (vm_compute; reflexivity). discriminate.
Defined.



(** The attributes a terminal starts with leave the second end-of-line character
    0, which stands for none, but a NUL byte ends a line. *)
Theorem nul_ends_line : c_cc default_termios VEOL = 0 ∧ view (typed [97; 0] tty_new) = Edit [97; 0] [] false.
Proof. split; vm_compute; reflexivity. Qed.

(** A read does not stop at the second end-of-line character: two lines come in
    one call. *)
Theorem eol_read_on : view (typed [97; 0; 98; 10] tty_new) = Edit [97; 0; 98; 10] [] false ∧ handed (typed [97; 0; 98; 10] tty_new) 100 = [97; 0; 98; 10].
Proof. split; vm_compute; reflexivity. Qed.

(** A quoted newline and a quoted end-of-file character still end the line, and
    the latter is taken out of it. *)
Theorem quoted_ends_line :
  view (typed [97; 22; 10] tty_new) = Edit [97; 10] [] false ∧
  view (typed [97; 22; 4] tty_new) = Edit [97; 4] [] false ∧ handed (typed [97; 22; 4] tty_new) 100 = [97].
Proof. split_and!; vm_compute; reflexivity. Qed.

(** A line that has filled the buffer cannot be finished: its newline is dropped,
    and no reader can have it. *)
Theorem full_line_stuck t :
  tty_ok t → lnext t = false → tm t = default_termios → ibuf_count t = TTY_BUF - 1 → ready t = [] →
  let '(t', ev) := input_char t NL in view t' = view t ∧ ev = INone ∧ can_read t' = hangup t.
Proof.
  intros Ht Hn Hm Hc Hr. pose proof (input_refines t NL Ht) as Hi. pose proof (rest_input t NL) as Hrest. destruct (input_char t NL) as [t' ev]. destruct Hi as (H1 & H2 & H3). cbn [fst] in Hrest.
  assert (edit_char (tm t) (view t) NL = (view t, INone)) as E.
  { assert (∀ a b, edit_char default_termios (Edit a b false) NL = edit_store default_termios (Edit a b false) NL) as Hs by (intros a b; reflexivity). rewrite Hm. unfold view. rewrite Hn, Hs, Hr. unfold edit_store. cbn [e_ready e_line].
    pose proof (line_length t (tty_ring t Ht)) as HL. pose proof (ready_length t (tty_ring t Ht)) as HR. rewrite Hr in HR. cbn in HR. assert ((TTY_BUF - 1 <=? Z.of_nat (length (@nil Z)) + Z.of_nat (length (line t))) = true) as -> by (apply Z.leb_le; cbn [length]; lia). done. }
  rewrite E in H3. injection H3 as V1 V2 V3 V4. split; [unfold view; congruence|]. split; [done|].
  unfold can_read. assert (lflag t' ICANON = true) as -> by (unfold lflag; by rewrite H2, Hm). rewrite canon_ready, <- V1, Hr by done. cbn. rewrite orb_false_r. by injection Hrest.
Qed.

(** A reader that began in raw mode, while the terminal was put in canonical mode
    and a line begun, takes characters of this line: while it copies them, and for
    good when the copy faults, its position is past the end of the finished lines,
    and the terminal claims to have some. *)
Theorem stale_read_breaks :
  let t := typed [97] tty_new in
  let '(t1, w) := read_section t false 1 [] in
  tty_ok t ∧ can_read t = false ∧ w = TReadCopies (RCopy false 1 [] [97] false) ∧
  read_copied t1 (RCopy false 1 [] [97] false) false = (t1, TRead (- EFAULT) []) ∧
  ibuf_count t1 = 0 ∧ sub32 (icanon_end t1) (itail t1) = U32 - 1 ∧ can_read t1 = true.
Proof.
  cbv zeta. destruct (read_section (typed [97] tty_new) false 1 []) as [t1 w] eqn:E. assert (w = TReadCopies (RCopy false 1 [] [97] false)) as -> by (by injection E).
  split; [exact (typed_ok [97] tty_new tty_new_ok)|]. split; [by vm_compute|]. split; [done|]. split; [done|]. injection E as <-. split_and!; vm_compute; reflexivity.
Qed.
