(* ===== verification/Tmpfs.v ===== *)
(** * The RAM file system: src/fs/tmpfs.c

    The inodes of one mounted file system, with the counts of src/fs/vfs.c that
    keep them alive.  An inode is named by its number, which [new_inode] takes
    from [next_ino]; [inodes] holds those that are allocated.  The data that
    tmpfs keeps with an inode (its entries, parent, pages and link target) are
    fields of it.  A page is a function from offsets to bytes; its address is of
    no importance, since only its file refers to it.  Whether an allocation or a
    copy from or to user memory succeeds are arguments.  Of src/fs/vfs.c there are
    also the ends of link and rename, which look the new name up.  Times are not part of
    the state, nor are the widths of reference and link counts.  A result [None]
    is undefined behaviour: the use of an inode that was freed. *)

From S2P Require Import Prelude.

Notation S_IFMT := 0xf000%Z (only parsing).
Notation S_IFLNK := 0xa000%Z (only parsing).
Notation S_IFREG := 0x8000%Z (only parsing).
Notation S_IFDIR := 0x4000%Z (only parsing).
Notation NAME_MAX := 255%Z (only parsing).
Notation ENOENT := 2%Z (only parsing).
Notation EEXIST := 17%Z (only parsing).
Notation EBUSY := 16%Z (only parsing).
Notation ENOTDIR := 20%Z (only parsing).
Notation EISDIR := 21%Z (only parsing).
Notation ENOSPC := 28%Z (only parsing).
Notation ENAMETOOLONG := 36%Z (only parsing).
Notation ENOTEMPTY := 39%Z (only parsing).
Notation ATTR_MODE := 1%Z (only parsing).
Notation ATTR_UID := 2%Z (only parsing).
Notation ATTR_GID := 4%Z (only parsing).
Notation ATTR_SIZE := 8%Z (only parsing).
Notation SEEK_SET := 0%Z (only parsing).
Notation SEEK_CUR := 1%Z (only parsing).
Notation SEEK_END := 2%Z (only parsing).

(** ** State *)

Definition name : Type := list Z.
Definition page : Type := Z → Z.

Record inode : Type := Inode {
  mode : Z; nlink : Z; uid : Z; gid : Z; isize : Z; rdev : Z; blocks : Z; refcount : Z;
  entries : list (name * Z); parent : option Z;
  pages : list (option page);
  target : option name;
}.

Record tfs : Type := Tfs { inodes : gmap Z inode; next_ino : Z; max_pages : Z; used_pages : Z }.

Definition set_mode (x : Z) (i : inode) : inode := Inode x (nlink i) (uid i) (gid i) (isize i) (rdev i) (blocks i) (refcount i) (entries i) (parent i) (pages i) (target i).
Definition set_nlink (x : Z) (i : inode) : inode := Inode (mode i) x (uid i) (gid i) (isize i) (rdev i) (blocks i) (refcount i) (entries i) (parent i) (pages i) (target i).
Definition set_owner (u g : Z) (i : inode) : inode := Inode (mode i) (nlink i) u g (isize i) (rdev i) (blocks i) (refcount i) (entries i) (parent i) (pages i) (target i).
Definition set_size (x : Z) (i : inode) : inode := Inode (mode i) (nlink i) (uid i) (gid i) x (rdev i) (blocks i) (refcount i) (entries i) (parent i) (pages i) (target i).
Definition set_count (x : Z) (i : inode) : inode := Inode (mode i) (nlink i) (uid i) (gid i) (isize i) (rdev i) (blocks i) x (entries i) (parent i) (pages i) (target i).
Definition set_entries (l : list (name * Z)) (n : Z) (i : inode) : inode := Inode (mode i) (nlink i) (uid i) (gid i) n (rdev i) (blocks i) (refcount i) l (parent i) (pages i) (target i).
Definition set_parent (x : option Z) (i : inode) : inode := Inode (mode i) (nlink i) (uid i) (gid i) (isize i) (rdev i) (blocks i) (refcount i) (entries i) x (pages i) (target i).
Definition set_data (n b : Z) (l : list (option page)) (i : inode) : inode := Inode (mode i) (nlink i) (uid i) (gid i) n (rdev i) b (refcount i) (entries i) (parent i) l (target i).
Definition set_target (x : option name) (n : Z) (i : inode) : inode := Inode (mode i) (nlink i) (uid i) (gid i) n (rdev i) (blocks i) (refcount i) (entries i) (parent i) (pages i) x.

Definition set_inodes (m : gmap Z inode) (s : tfs) : tfs := Tfs m (next_ino s) (max_pages s) (used_pages s).
Definition set_used (n : Z) (s : tfs) : tfs := Tfs (inodes s) (next_ino s) (max_pages s) n.
Definition upd (s : tfs) (i : Z) (f : inode → inode) : tfs := set_inodes (alter f i (inodes s)) s.

Definition is_dir (i : inode) : bool := Z.land (mode i) S_IFMT =? S_IFDIR.
Definition is_reg (i : inode) : bool := Z.land (mode i) S_IFMT =? S_IFREG.

(** The pages of a list of slots. *)
Definition held (l : list (option page)) : Z := Z.of_nat (length (omap id l)).

(** ** Inodes *)

(** [u] and [g] are the identity of the caller. *)
Definition new_inode (s : tfs) (md u g : Z) : tfs * Z :=
  let i := next_ino s + 1 in
  (Tfs (<[i := Inode md 1 u g 0 0 0 1 [] None [] None]> (inodes s)) i (max_pages s) (used_pages s), i).

Definition inode_get (s : tfs) (i : Z) : tfs := upd s i (λ n, set_count (refcount n + 1) n).

(** What [tmpfs_evict] gives back of a regular file; the entries of a directory
    are put one after the other. *)
Fixpoint put_all (fuel : nat) (s : tfs) (l : list Z) : option tfs :=
  match l with
  | [] => Some s
  | i :: l =>
      match fuel with
      | O => None
      | S fuel =>
          n ← inodes s !! i;
          if 0 <? refcount n - 1 then put_all fuel (upd s i (set_count (refcount n - 1))) l
          else
            let s := set_inodes (delete i (inodes s)) s in
            let s := if is_reg n then set_used (used_pages s ⊖ held (pages n)) s else s in
            put_all fuel s ((if is_dir n then snd <$> entries n else []) ++ l)
      end
  end.

(** Every put takes one reference away. *)
Definition put_fuel (s : tfs) : nat := S (Z.to_nat (map_fold (λ _ n k, Z.max (refcount n) 1 + k) 0 (inodes s))).
Definition inode_put (s : tfs) (i : Z) : option tfs := put_all (put_fuel s) s [i].

(** Allocations of a call that makes an entry and perhaps an inode. *)
Record mem : Type := Mem { m_inode : bool; m_node : bool; m_entry : bool; m_name : bool; m_target : bool }.

Definition tmpfs_new_inode (s : tfs) (md dev u g : Z) (a : mem) : option (tfs * option Z) :=
  if negb (m_inode a) then Some (s, None)
  else
    let '(s, i) := new_inode s md u g in
    if negb (m_node a) then s ← inode_put s i; Some (s, None)
    else
      let s := upd s i (λ n, Inode (mode n) (nlink n) (uid n) (gid n) (isize n) dev (blocks n) (refcount n) [] None [] None) in
      Some (upd s i (λ n, if is_dir n then set_nlink 2 n else n), Some i).

(** ** Directories *)

Definition find_entry (l : list (name * Z)) (nm : name) : option Z := snd <$> find (λ e, bool_decide (e.1 = nm)) l.
(** The list without its first entry of that name. *)
Fixpoint del_entry (nm : name) (l : list (name * Z)) : list (name * Z) :=
  match l with
  | [] => []
  | e :: l => if bool_decide (e.1 = nm) then l else e :: del_entry nm l
  end.

Definition add_entry (s : tfs) (dir : Z) (nm : name) (i : Z) (a : mem) : tfs * Z :=
  if NAME_MAX <? Z.of_nat (length nm) then (s, - ENAMETOOLONG)
  else if negb (m_entry a) || negb (m_name a) then (s, - ENOMEM)
  else (upd (inode_get s i) dir (λ d, set_entries (entries d ++ [(nm, i)]) (isize d + 1) d), 0).

(** The entry [nm] of [dir] names [i]. *)
Definition remove_entry (s : tfs) (dir : Z) (nm : name) (i : Z) : option tfs :=
  s ← inode_put (upd s dir (λ d, set_entries (del_entry nm (entries d)) (isize d) d)) i;
  _ ← inodes s !! dir;
  Some (upd s dir (λ d, set_size (isize d - 1) d)).

Definition tmpfs_lookup (s : tfs) (dir : Z) (nm : name) : option (tfs * (Z + Z)) :=
  d ← inodes s !! dir;
  match find_entry (entries d) nm with
  | None => Some (s, inl (- ENOENT))
  | Some i => Some (inode_get s i, inr i)
  end.

(** The caller of the operations that make an inode gets a reference to it. *)
Definition tmpfs_create (s : tfs) (dir : Z) (nm : name) (md dev u g : Z) (a : mem) : option (tfs * (Z + Z)) :=
  d ← inodes s !! dir;
  if bool_decide (is_Some (find_entry (entries d) nm)) then Some (s, inl (- EEXIST))
  else
    '(s, o) ← tmpfs_new_inode s md dev u g a;
    match o with
    | None => Some (s, inl (- ENOMEM))
    | Some i =>
        let '(s, r) := add_entry s dir nm i a in
        if r =? 0 then Some (s, inr i)
        else s ← inode_put (upd s i (set_nlink 0)) i; Some (s, inl r)
    end.

Definition tmpfs_mkdir (s : tfs) (dir : Z) (nm : name) (md u g : Z) (a : mem) : option (tfs * (Z + Z)) :=
  '(s, r) ← tmpfs_create s dir nm (Z.lor S_IFDIR (Z.land md 0xfff)) 0 u g a;
  match r with
  | inl _ => Some (s, r)
  | inr i => Some (upd (upd s i (set_parent (Some dir))) dir (λ d, set_nlink (nlink d + 1) d), r)
  end.

Definition tmpfs_unlink (s : tfs) (dir : Z) (nm : name) (victim : Z) : option (tfs * Z) :=
  d ← inodes s !! dir;
  match find_entry (entries d) nm with
  | None => Some (s, - ENOENT)
  | Some i =>
      _ ← inodes s !! victim;
      s ← remove_entry (upd s victim (λ n, set_nlink (nlink n - 1) n)) dir nm i;
      Some (s, 0)
  end.

Definition tmpfs_rmdir (s : tfs) (dir : Z) (nm : name) (victim : Z) : option (tfs * Z) :=
  v ← inodes s !! victim;
  if negb (bool_decide (entries v = [])) then Some (s, - ENOTEMPTY)
  else
    d ← inodes s !! dir;
    match find_entry (entries d) nm with
    | None => Some (s, - ENOENT)
    | Some i =>
        s ← remove_entry (upd (upd s victim (set_nlink 0)) dir (λ d, set_nlink (nlink d - 1) d)) dir nm i;
        Some (s, 0)
    end.

(** The first part of a rename takes the entry of an existing target away. *)
Definition rename_target (s : tfs) (ndir : Z) (nname : name) (tgt : Z) : option tfs :=
  t ← inodes s !! tgt; nd ← inodes s !! ndir;
  match find_entry (entries nd) nname with
  | None => Some s
  | Some e =>
      remove_entry
        (if is_dir t then upd (upd s tgt (set_nlink 0)) ndir (λ d, set_nlink (nlink d - 1) d)
         else upd s tgt (λ n, set_nlink (nlink n - 1) n)) ndir nname e
  end.

(** The entry of the old name is found first; when the target has the same name
    it is the entry that was freed. *)
Definition tmpfs_rename (s : tfs) (odir : Z) (oname : name) (ndir : Z) (nname : name) (victim : Z) (tgt : option Z) (a : mem) : option (tfs * Z) :=
  od ← inodes s !! odir; v ← inodes s !! victim;
  match find_entry (entries od) oname with
  | None => Some (s, - ENOENT)
  | Some oe =>
      let busy := match tgt ≫= (λ t, inodes s !! t) with Some t => is_dir t && negb (bool_decide (entries t = [])) | None => false end in
      if busy then Some (s, - ENOTEMPTY)
      else
        s ← match tgt with Some t => rename_target s ndir nname t | None => Some s end;
        let '(s, r) := add_entry s ndir nname victim a in
        if negb (r =? 0) then Some (s, r)
        else
          let s := if is_dir v && negb (odir =? ndir)
                   then upd (upd (upd s odir (λ d, set_nlink (nlink d - 1) d)) ndir (λ d, set_nlink (nlink d + 1) d)) victim (set_parent (Some ndir))
                   else s in
          if bool_decide (is_Some tgt) && (odir =? ndir) && bool_decide (oname = nname) then None
          else s ← remove_entry s odir oname oe; Some (s, 0)
  end.

Definition tmpfs_link (s : tfs) (dir : Z) (nm : name) (tgt : Z) (a : mem) : option (tfs * Z) :=
  _ ← inodes s !! dir; _ ← inodes s !! tgt;
  let '(s, r) := add_entry s dir nm tgt a in
  Some (if r =? 0 then upd s tgt (λ n, set_nlink (nlink n + 1) n) else s, r).

Definition tmpfs_symlink (s : tfs) (dir : Z) (nm tgt : name) (u g : Z) (a : mem) : option (tfs * (Z + Z) * option Z) :=
  '(s, r) ← tmpfs_create s dir nm (Z.lor S_IFLNK 0x1ff) 0 u g a;
  match r with
  | inl e => Some (s, inl e, None)
  | inr i =>
      let s := upd s i (set_target (if m_target a then Some tgt else None) (Z.of_nat (length tgt))) in
      Some (s, if m_target a then inr i else inl (- ENOMEM), Some i)
  end.

Definition tmpfs_readlink (s : tfs) (i size : Z) : option (Z * name) :=
  n ← inodes s !! i;
  match target n with
  | None => Some (- EINVAL, [])
  | Some t => let k := Z.min (Z.of_nat (length t)) size in Some (k, take (Z.to_nat k) t)
  end.

(** ** Calls of the virtual file system that look a new name up *)

(** [alloc]: the name is in the cache of names, or there is memory to put it
    there.  The reference that the cache takes is a call of its own. *)
Definition d_lookup (s : tfs) (dir : Z) (nm : name) (alloc : bool) : option (Z + Z) :=
  d ← inodes s !! dir;
  Some (match find_entry (entries d) nm with None => inl (- ENOENT) | Some i => if alloc then inr i else inl (- ENOMEM) end).

(** The part of [vfs_link] after the paths are resolved, in one mount; [perm] is
    the result of [may_create]. *)
Definition vfs_link (s : tfs) (dir : Z) (nm : name) (tgt perm : Z) (alloc : bool) (a : mem) : option (tfs * Z) :=
  t ← inodes s !! tgt;
  if is_dir t then Some (s, - EPERM)
  else
    r ← d_lookup s dir nm alloc;
    match r with
    | inr _ => Some (s, - EEXIST)
    | inl _ => if negb (perm =? 0) then Some (s, perm) else tmpfs_link s dir nm tgt a
    end.

(** The same of [vfs_rename]; [inside] is the result of [is_ancestor], [busy] that
    of [is_mountpoint_busy].  The dentry of a name is one object, so that the two
    dentries are the same for the same name. *)
Definition vfs_rename (s : tfs) (odir : Z) (oname : name) (ndir : Z) (nname : name) (perm : Z) (oalloc nalloc inside busy : bool) (a : mem) : option (tfs * Z) :=
  if bool_decide (oname = [46]) || bool_decide (nname = [46]) then Some (s, - EBUSY)
  else
    o ← d_lookup s odir oname oalloc;
    match o with
    | inl e => Some (s, e)
    | inr i =>
        if negb (perm =? 0) then Some (s, perm)
        else
          v ← inodes s !! i;
          r ← d_lookup s ndir nname nalloc;
          let tgt := match r with inr x => Some x | inl _ => None end in
          let tdir := tgt ≫= (λ x, is_dir <$> inodes s !! x) in
          if bool_decide ((odir, oname) = (ndir, nname)) then Some (s, 0)
          else if is_dir v && inside then Some (s, - EINVAL)
          else if is_dir v && bool_decide (tdir = Some false) then Some (s, - ENOTDIR)
          else if negb (is_dir v) && bool_decide (tdir = Some true) then Some (s, - EISDIR)
          else if bool_decide (is_Some tgt) && busy then Some (s, - EBUSY)
          else tmpfs_rename s odir oname ndir nname i tgt a
    end.

(** ** Data *)

(** Where [f] holds a byte is replaced. *)
Definition put_bytes (pg : page) (po : Z) (l : list Z) : page := λ o, default (pg o) (if po <=? o then l !! Z.to_nat (o - po) else None).
Definition zero_page : page := λ _, 0.
Definition zero_from (po : Z) (pg : page) : page := λ o, if po <=? o then 0 else pg o.

Definition truncate_node (n : inode) (size : Z) : inode :=
  let keep := (size + PAGE_SIZE - 1) `div` PAGE_SIZE in
  let k := Z.to_nat keep in
  let l := take k (pages n) ++ ((λ _, None) <$> drop k (pages n)) in
  let po := size `mod` PAGE_SIZE in
  let l := if negb (po =? 0) && negb (keep =? 0) && (keep <=? Z.of_nat (length l)) then alter (fmap (zero_from po)) (k - 1)%nat l else l in
  set_data size (held (take k l) * (PAGE_SIZE / 512)) l n.

Definition truncate_pages (s : tfs) (i size : Z) : option tfs :=
  n ← inodes s !! i;
  let n' := truncate_node n size in
  Some (set_used (used_pages s ⊖ (held (pages n) - held (pages n'))) (upd s i (λ _, n'))).

(** What a call sets, [None] for what its [valid] leaves out. *)
Record iattr : Type := Iattr { a_size : option Z; a_mode : option Z; a_uid : option Z; a_gid : option Z }.

Definition tmpfs_setattr (s : tfs) (i : Z) (a : iattr) : option (tfs * Z) :=
  n ← inodes s !! i;
  if bool_decide (is_Some (a_size a)) && negb (is_reg n) then Some (s, - EINVAL)
  else
    s ← match a_size a with
        | Some z => if z <? isize n then truncate_pages s i z else Some (upd s i (set_size z))
        | None => Some s
        end;
    let set_attrs n :=
      let n := match a_mode a with Some m => set_mode (Z.lor (Z.land (mode n) S_IFMT) (Z.land m 0xfff)) n | None => n end in
      set_owner (default (uid n) (a_uid a)) (default (gid n) (a_gid a)) n in
    Some (upd s i set_attrs, 0).

(** The bytes of a file from an offset on, zeros where it has no page. *)
Definition page_at (n : inode) (idx : Z) : page := default zero_page (mjoin (pages n !! Z.to_nat idx)).
Definition page_bytes (pg : page) (po k : Z) : list Z := pg <$> seqZ po k.

(** The copy to the caller in pieces of at most a page; [ok] tells whether the
    copy at an offset succeeds. *)
Fixpoint read_loop (fuel : nat) (n : inode) (pos total : Z) (done : list Z) (ok : Z → bool) : list Z * bool :=
  match fuel with
  | O => (done, true)
  | S fuel =>
      let d := Z.of_nat (length done) in
      if d <? total then
        let off := pos ⊕ d in
        let idx := off `div` PAGE_SIZE in let po := off `mod` PAGE_SIZE in
        let chunk := Z.min (total - d) (PAGE_SIZE - po) in
        if negb (ok d) then (done, false)
        else read_loop fuel n pos total (done ++ page_bytes (page_at n idx) po chunk) ok
      else (done, true)
  end.

(** The result, the bytes handed over and the new position. *)
Definition tmpfs_read (n : inode) (len pos : Z) (ok : Z → bool) : Z * list Z * Z :=
  if isize n <=? pos then (0, [], pos)
  else
    let total := Z.min len (isize n - pos) in
    let '(l, b) := read_loop (S (Z.to_nat total)) n pos total [] ok in
    let d := Z.of_nat (length l) in
    if b : bool then (d, l, pos + d) else (if d =? 0 then - EFAULT else d, l, pos).

(** Outcomes of the steps of a write at an offset: the table of slots can grow,
    a page is free, and the copy succeeds ([None]) or faults after some bytes. *)
Record wmem : Type := Wmem { w_slots : Z → bool; w_page : Z → bool; w_copy : Z → option Z }.

Definition ensure_slots (l : list (option page)) (idx : Z) (ok : bool) : option (list (option page)) :=
  let np := Z.of_nat (length l) in
  if idx <? np then Some l
  else if negb ok then None
  else let nn := Z.max (Z.max (idx + 1) (np * 2)) 8 in Some (l ++ replicate (Z.to_nat (nn - np)) None).

(** The file, the pages in use and the bytes written when the loop ends; an error
    ends the call at once when nothing has been written. *)
Fixpoint write_loop (fuel : nat) (n : inode) (used mx : Z) (data : list Z) (pos done : Z) (w : wmem) : inode * Z * (Z + Z) :=
  match fuel with
  | O => (n, used, inr done)
  | S fuel =>
      let len := Z.of_nat (length data) in
      let stop n used e := (n, used, if done =? 0 then inl e else inr done) in
      if done <? len then
        let off := pos ⊕ done in
        let idx := off `div` PAGE_SIZE in let po := off `mod` PAGE_SIZE in
        let chunk := Z.min (len - done) (PAGE_SIZE - po) in
        match ensure_slots (pages n) idx (w_slots w done) with
        | None => (n, used, inr done)
        | Some l =>
            let k := Z.to_nat idx in
            let new := bool_decide (mjoin (l !! k) = None) in
            if new && ((mx <=? used) || negb (w_page w done)) then stop (set_data (isize n) (blocks n) l n) used (- ENOSPC)
            else
              let pg := default zero_page (mjoin (l !! k)) in
              let used := if new then used + 1 else used in
              let blk := if new then blocks n + PAGE_SIZE / 512 else blocks n in
              let bytes := take (Z.to_nat chunk) (drop (Z.to_nat done) data) in
              let store bytes := set_data (isize n) blk (<[k := Some (put_bytes pg po bytes)]> l) n in
              match w_copy w done with
              | Some c => stop (store (take (Z.to_nat c) bytes)) used (- EFAULT)
              | None => write_loop fuel (store bytes) used mx data pos (done + chunk) w
              end
        end
      else (n, used, inr done)
  end.

(** The result and the new position; [append] is O_APPEND of the open file. *)
Definition tmpfs_write (s : tfs) (i : Z) (append : bool) (data : list Z) (pos : Z) (w : wmem) : option (tfs * Z * Z) :=
  n ← inodes s !! i;
  let pos := if append then isize n else pos in
  let '(n, used, r) := write_loop (S (length data)) n (used_pages s) (max_pages s) data pos 0 w in
  let s := set_used used s in
  match r with
  | inl e => Some (upd s i (λ _, n), e, pos)
  | inr d => Some (upd s i (λ _, set_size (Z.max (isize n) (pos + d)) n), d, pos + d)
  end.

(** The new position and the result; a sum that does not fit is undefined. *)
Definition generic_llseek (fpos size off whence : Z) : option (Z * Z) :=
  let base := if whence =? SEEK_SET then 0 else if whence =? SEEK_CUR then fpos else if whence =? SEEK_END then size else -1 in
  if base <? 0 then Some (fpos, - EINVAL)
  else
    let np := base + off in
    if 2 ^ 63 <=? np then None else if np <? 0 then Some (fpos, - EINVAL) else Some (np, np).

(** ** Listing *)

(** A name, its inode number and its type. *)
Definition dirent : Type := name * Z * Z.
Definition mode_to_dtype (m : Z) : Z := Z.shiftr (Z.land m S_IFMT) 12.

(** The caller takes [room] more entries; the new cookie is returned. *)
Fixpoint iter_entries (s : tfs) (l : list (name * Z)) (idx pos : Z) (room : nat) : option (list dirent * Z) :=
  match l with
  | [] => Some ([], pos)
  | (nm, i) :: l =>
      if idx <? pos then iter_entries s l (idx + 1) pos room
      else
        n ← inodes s !! i;
        match room with
        | O => Some ([], pos)
        | S room => '(r, p) ← iter_entries s l (idx + 1) (idx + 1) room; Some ((nm, i, mode_to_dtype (mode n)) :: r, p)
        end
  end.

Definition tmpfs_iterate (s : tfs) (dir pos : Z) (room : nat) : option (list dirent * Z) :=
  d ← inodes s !! dir;
  let dot := if pos =? 0 then [([46], dir, 4)] else [] in
  let early := (pos =? 0) || (pos =? 1) in
  let dots := if early then dot ++ [([46; 46], default dir (parent d), 4)] else [] in
  if (room <? length dots)%nat then Some (take room dots, pos + Z.of_nat room)
  else '(r, p) ← iter_entries s (entries d) 2 (if early then 2 else pos) (room - length dots); Some (dots ++ r, p).

(** ** The file system *)

(** Blocks, free blocks, files, free files and the size of a block. *)
Definition tmpfs_statfs (s : tfs) : Z * Z * Z * Z * Z :=
  (max_pages s, max_pages s ⊖ used_pages s, max_pages s, max_pages s ⊖ used_pages s, PAGE_SIZE).

(** [total] is the number of pages of the machine, [opt] the number after [size=]
    and the character that follows it, [sticky] whether [mode=1777] is given.  The
    allocations [m_entry] and [m_name] are those of the limits of the mount and of
    the entry of the root. *)
Definition mount_size (v c : Z) : Z :=
  if (c =? 107) || (c =? 75) then wrap64 (Z.shiftl v 10)
  else if (c =? 109) || (c =? 77) then wrap64 (Z.shiftl v 20)
  else if (c =? 103) || (c =? 71) then wrap64 (Z.shiftl v 30) else v.
Definition mount_pages (total : Z) (opt : option (Z * Z)) : Z :=
  match opt with
  | None => total / 2
  | Some (v, c) => if mount_size v c =? 0 then total / 2 else wrap64 (mount_size v c + PAGE_SIZE - 1) / PAGE_SIZE
  end.
Definition tmpfs_mount (total : Z) (opt : option (Z * Z)) (sticky : bool) (u g : Z) (a : mem) : option (option (tfs * Z)) :=
  if negb (m_entry a) then Some None
  else
    '(s, o) ← tmpfs_new_inode (Tfs ∅ 0 (mount_pages total opt) 0) (Z.lor S_IFDIR 0x1ed) 0 u g a;
    match o with
    | None => Some None
    | Some root => Some (if m_name a then Some (if sticky then upd s root (set_mode (Z.lor S_IFDIR 0x3ff)) else s, root) else None)
    end.
