(* ===== verification/TmpfsData.v ===== *)
(** * Files of the RAM file system

    The pages and the size of a file implement an array of bytes that is zero
    wherever nothing was written. *)

From S2P Require Import Prelude Tmpfs.

(** ** Bytes *)

(** What the pages hold at an offset, and what the file holds there. *)
Definition byte (n : inode) (o : Z) : Z := page_at n (o `div` PAGE_SIZE) (o `mod` PAGE_SIZE).
Definition content (n : inode) (o : Z) : Z := if (0 <=? o) && (o <? isize n) then byte n o else 0.

(** A file in order: its size is a position, nothing is stored past its end, and
    its blocks are counted. *)
Record file_ok (n : inode) : Prop := {
  fo_size : 0 ≤ isize n < 2 ^ 63;
  fo_tail o : isize n ≤ o → byte n o = 0;
  fo_blocks : blocks n = held (pages n) * (PAGE_SIZE / 512);
}.

Lemma held_app l m : held (l ++ m) = held l + held m.
Proof. unfold held. rewrite omap_app, length_app. lia. Qed.
Lemma held_none {A} (l : list A) : held ((λ _, None) <$> l) = 0.
Proof. induction l as [|x l IH]; [done|]. exact IH. Qed.
Lemma held_replicate k : held (replicate k None) = 0.
Proof. induction k as [|k IH]; [done|]. exact IH. Qed.
Lemma held_cons y l : held (y :: l) = (match y with Some _ => 1 | None => 0 end) + held l.
Proof. unfold held. destruct y; cbn; lia. Qed.
Lemma held_insert l k x : (k < length l)%nat → held (<[k := Some x]> l) = held l + if bool_decide (mjoin (l !! k) = None) then 1 else 0.
Proof.
  revert k. induction l as [|y l IH]; intros [|k] Hk; cbn [length] in Hk; try lia.
  - change (<[0%nat := Some x]> (y :: l)) with (Some x :: l). rewrite !held_cons. destruct y as [y|]; [rewrite bool_decide_false by done|rewrite bool_decide_true by done]; lia.
  - change (<[S k := Some x]> (y :: l)) with (y :: <[k := Some x]> l). change ((y :: l) !! S k) with (l !! k). rewrite !held_cons, IH by lia. lia.
Qed.
Lemma held_alter l k f : held (alter (fmap f) k l) = held l.
Proof.
  revert k. induction l as [|y l IH]; intros [|k]; try done.
  - change (alter (fmap f) 0%nat (y :: l)) with (fmap f y :: l). rewrite !held_cons. by destruct y.
  - change (alter (fmap f) (S k) (y :: l)) with (y :: alter (fmap f) k l). by rewrite !held_cons, IH.
Qed.
Lemma held_zero l : (∀ j, mjoin (l !! j) = None) → held l = 0.
Proof.
  induction l as [|y l IH]; intros H; [done|]. rewrite held_cons, IH; [|intros j; exact (H (S j))]. specialize (H O). cbn in H. by destruct y.
Qed.
Lemma held_pos l : 0 ≤ held l.
Proof. unfold held. lia. Qed.

Lemma off_split pos d : 0 ≤ pos → 0 ≤ d → let po := (pos + d) `mod` PAGE_SIZE in 0 ≤ po < PAGE_SIZE ∧ pos + d = (pos + d) `div` PAGE_SIZE * PAGE_SIZE + po.
Proof. intros Hp Hd. cbn zeta. split; [apply Z.mod_pos_bound; by vm_compute|]. rewrite (Z.mul_comm _ PAGE_SIZE). apply Z.div_mod. by vm_compute. Qed.
(** Offsets within the page of a position. *)
Lemma same_page x j : 0 ≤ x `mod` PAGE_SIZE + j < PAGE_SIZE → (x + j) `div` PAGE_SIZE = x `div` PAGE_SIZE ∧ (x + j) `mod` PAGE_SIZE = x `mod` PAGE_SIZE + j.
Proof.
  intros H. assert (x + j = PAGE_SIZE * (x `div` PAGE_SIZE) + (x `mod` PAGE_SIZE + j)) as E by (pose proof (Z.div_mod x PAGE_SIZE ltac:(by vm_compute)); lia).
  split; symmetry; [eapply Z.div_unique_pos|eapply Z.mod_unique_pos]; [exact H|exact E|exact H|exact E].
Qed.

(** The bytes of a file from [pos] on. *)
Definition slice (n : inode) (pos k : Z) : list Z := byte n <$> seqZ pos k.

Lemma slice_app n pos a b : 0 ≤ a → 0 ≤ b → slice n pos (a + b) = slice n pos a ++ slice n (pos + a) b.
Proof. intros Ha Hb. unfold slice. rewrite seqZ_app by lia. apply fmap_app. Qed.
Lemma slice_length n pos k : length (slice n pos k) = Z.to_nat k.
Proof. unfold slice. by rewrite length_fmap, length_seqZ. Qed.
Lemma page_bytes_slice n x k : 0 ≤ x → 0 ≤ k → x `mod` PAGE_SIZE + k ≤ PAGE_SIZE → page_bytes (page_at n (x `div` PAGE_SIZE)) (x `mod` PAGE_SIZE) k = slice n x k.
Proof.
  intros Hx Hk Hle. unfold page_bytes, slice. apply list_eq. intros i. rewrite !list_lookup_fmap. destruct (decide (Z.of_nat i < k)) as [Hi|Hi].
  - rewrite !lookup_seqZ_lt by lia. cbn. f_equal. unfold byte. pose proof (Z.mod_pos_bound x PAGE_SIZE ltac:(by vm_compute)). destruct (same_page x (Z.of_nat i) ltac:(lia)) as [-> ->]. done.
  - rewrite !lookup_seqZ_ge by lia. done.
Qed.

(** ** Reading *)

Lemma read_loop_spec' fuel : ∀ n pos total d ok,
  0 ≤ pos → 0 ≤ d ≤ total → pos + total < U64 → (Z.to_nat (total - d) < fuel)%nat →
  ∃ e b, read_loop fuel n pos total (slice n pos d) ok = (slice n pos e, b) ∧ d ≤ e ≤ total ∧ (b = true → e = total) ∧ (b = false → ok e = false).
Proof.
  induction fuel as [|fuel IH]; intros n pos total d ok Hp Hd Hu Hf; [lia|]. cbn [read_loop]. rewrite slice_length, Z2Nat.id by lia. destruct (Z.ltb_spec d total) as [Hlt|Hge].
  2: { exists d, true. split; [done|]. split; [lia|]. split; [lia|done]. }
  cbn zeta. destruct (off_split pos d Hp ltac:(lia)) as [H1 H2]. assert (pos ⊕ d = pos + d) as -> by (apply wrap64_small; lia). set (chunk := Z.min (total - d) (PAGE_SIZE - (pos + d) `mod` PAGE_SIZE)).
  destruct (ok d) eqn:Eo; cbn [negb]; [|exists d, false; split; [done|]; split; [lia|]; done].
  rewrite page_bytes_slice, <- slice_app by lia. destruct (IH n pos total (d + chunk) ok Hp ltac:(lia) Hu ltac:(lia)) as (e & b & E & A & B). exists e, b. split; [exact E|]. split; [lia|done].
Qed.

(** ** Writing *)

(** The same pages in a table that may be longer. *)
Definition same_pages (l m : list (option page)) : Prop := ∀ k, mjoin (m !! k) = mjoin (l !! k).

Lemma ensure_slots_spec l idx ok : 0 ≤ idx →
  match ensure_slots l idx ok with
  | Some m => same_pages l m ∧ held m = held l ∧ (Z.to_nat idx < length m)%nat
  | None => ok = false
  end.
Proof.
  intros Hi. unfold ensure_slots. destruct (Z.ltb_spec idx (Z.of_nat (length l))); [split_and!; [done|done|lia]|]. destruct ok; cbn [negb]; [|done]. split_and!.
  - intros k. destruct (decide (k < length l)%nat) as [Hk|Hk]; [by rewrite lookup_app_l|]. rewrite lookup_app_r by lia. rewrite (lookup_ge_None_2 l) by lia. cbn.
    destruct (replicate _ _ !! _) eqn:E; [|done]. apply lookup_replicate in E as [-> _]. done.
  - rewrite held_app, held_replicate. lia.
  - rewrite length_app, length_replicate. lia.
Qed.

Lemma put_bytes_spec pg po bytes q : 0 ≤ po → 0 ≤ q →
  put_bytes pg po bytes q = if (po <=? q) && (q <? po + Z.of_nat (length bytes)) then default 0 (bytes !! Z.to_nat (q - po)) else pg q.
Proof.
  intros Hpo Hq. unfold put_bytes. destruct (Z.leb_spec po q) as [Hle|Hle]; cbn [andb]; [|done]. destruct (Z.ltb_spec q (po + Z.of_nat (length bytes))) as [Hlt|Hge].
  - destruct (lookup_lt_is_Some_2 bytes (Z.to_nat (q - po)) ltac:(lia)) as [b ->]. done.
  - by rewrite lookup_ge_None_2 by lia.
Qed.

Lemma byte_store n l x bytes sz blk o :
  0 ≤ x → 0 ≤ o → x `mod` PAGE_SIZE + Z.of_nat (length bytes) ≤ PAGE_SIZE → same_pages (pages n) l → (Z.to_nat (x `div` PAGE_SIZE) < length l)%nat →
  byte (set_data sz blk (<[Z.to_nat (x `div` PAGE_SIZE) := Some (put_bytes (default zero_page (mjoin (l !! Z.to_nat (x `div` PAGE_SIZE)))) (x `mod` PAGE_SIZE) bytes)]> l) n) o =
  if (x <=? o) && (o <? x + Z.of_nat (length bytes)) then default 0 (bytes !! Z.to_nat (o - x)) else byte n o.
Proof.
  intros Hx Ho Hl Hs Hk. unfold byte, page_at. cbn [pages set_data]. pose proof (Z.div_mod x PAGE_SIZE ltac:(by vm_compute)) as Dx. pose proof (Z.div_mod o PAGE_SIZE ltac:(by vm_compute)) as Do.
  pose proof (Z.mod_pos_bound x PAGE_SIZE ltac:(by vm_compute)) as Mx. pose proof (Z.mod_pos_bound o PAGE_SIZE ltac:(by vm_compute)) as Mo. pose proof (Z.div_pos x PAGE_SIZE Hx ltac:(by vm_compute)). pose proof (Z.div_pos o PAGE_SIZE Ho ltac:(by vm_compute)).
  destruct (Z.eq_dec (o `div` PAGE_SIZE) (x `div` PAGE_SIZE)) as [E|E].
  - rewrite E, list_lookup_insert_eq by done. cbn [mjoin option_join default from_option id]. rewrite put_bytes_spec, Hs by lia.
    replace ((x `mod` PAGE_SIZE <=? o `mod` PAGE_SIZE) && (o `mod` PAGE_SIZE <? x `mod` PAGE_SIZE + Z.of_nat (length bytes))) with ((x <=? o) && (o <? x + Z.of_nat (length bytes))).
    { destruct ((x <=? o) && _); [|done]. f_equal. f_equal. lia. }
    f_equal; apply eq_iff_eq_true; rewrite ?Z.leb_le, ?Z.ltb_lt; lia.
  - rewrite list_lookup_insert_ne by lia. rewrite Hs. destruct ((x <=? o) && (o <? x + Z.of_nat (length bytes))) eqn:Er; [|done]. destruct E. apply andb_true_iff in Er as [E1%Z.leb_le E2%Z.ltb_lt].
    replace o with (x + (o - x)) by lia. apply same_page. lia.
Qed.

(** From [n] to [n'] the bytes of [data] between offsets [a] and [d] have been
    stored from position [pos + a] on, and [c] more that do not count. *)
Record written (mx : Z) (data : list Z) (pos a d c : Z) (n : inode) (used : Z) (n' : inode) (used' : Z) : Prop := {
  wr_range : a ≤ d ∧ 0 ≤ c ∧ d + c ≤ Z.of_nat (length data);
  wr_bytes o : 0 ≤ o → byte n' o = if (pos + a <=? o) && (o <? pos + d + c) then default 0 (data !! Z.to_nat (o - pos)) else byte n o;
  wr_attr : n' = set_data (isize n) (blocks n') (pages n') n;
  wr_used : used' - used = held (pages n') - held (pages n);
  wr_blocks : blocks n' - blocks n = (held (pages n') - held (pages n)) * (PAGE_SIZE / 512);
  wr_quota : used ≤ mx → used' ≤ mx;
}.

Lemma written_trans mx data pos a b d c n u n1 u1 n2 u2 :
  written mx data pos a b 0 n u n1 u1 → written mx data pos b d c n1 u1 n2 u2 → written mx data pos a d c n u n2 u2.
Proof.
  intros [A1 A2 A3 A4 A5 A6] [B1 B2 B3 B4 B5 B6]. split; [lia| | |lia|lia|auto].
  - intros o Ho. rewrite B2, A2 by done. destruct (Z.leb_spec (pos + b) o), (Z.ltb_spec o (pos + d + c)), (Z.leb_spec (pos + a) o), (Z.ltb_spec o (pos + b + 0)); cbn [andb]; try done; lia.
  - rewrite B3. rewrite A3 at 1 2. done.
Qed.
Lemma written_none mx data pos a n u l : 0 ≤ a ≤ Z.of_nat (length data) → same_pages (pages n) l → held l = held (pages n) →
  written mx data pos a a 0 n u (set_data (isize n) (blocks n) l n) u.
Proof.
  intros Ha Hs Hh. split; [lia| |done|cbn; lia|cbn; lia|done]. intros o Ho. destruct (Z.leb_spec (pos + a) o), (Z.ltb_spec o (pos + a + 0)); cbn [andb]; try lia; unfold byte, page_at; cbn; by rewrite Hs.
Qed.

(** Pages that the bytes from [a] to [b] lie in. *)
Definition span (a b : Z) : Z := if a <? b then (b - 1) `div` PAGE_SIZE - a `div` PAGE_SIZE + 1 else 0.

Lemma span_step a b : 0 ≤ a < b → let k := Z.min (b - a) (PAGE_SIZE - a `mod` PAGE_SIZE) in 1 + span (a + k) b ≤ span a b.
Proof.
  intros H. cbn zeta. set (k := Z.min _ _). pose proof (Z.mod_pos_bound a PAGE_SIZE ltac:(by vm_compute)) as M. pose proof (Z.div_mod a PAGE_SIZE ltac:(by vm_compute)) as D. unfold span. destruct (Z.ltb_spec a b); [|lia].
  assert (a `div` PAGE_SIZE ≤ (b - 1) `div` PAGE_SIZE) by (apply Z.div_le_mono; [by vm_compute|lia]). destruct (Z.ltb_spec (a + k) b) as [Hk|Hk]; [|lia].
  assert (k = PAGE_SIZE - a `mod` PAGE_SIZE) as Ek by lia. assert ((a + k) `div` PAGE_SIZE = a `div` PAGE_SIZE + 1) as ->; [|lia]. replace (a + k) with (0 + (a `div` PAGE_SIZE + 1) * PAGE_SIZE) by lia. by rewrite Z.div_add.
Qed.
Lemma span_pos a b : 0 ≤ a → 0 ≤ span a b.
Proof. intros H. unfold span. destruct (Z.ltb_spec a b); [|lia]. assert (a `div` PAGE_SIZE ≤ (b - 1) `div` PAGE_SIZE) by (apply Z.div_le_mono; [by vm_compute|lia]). lia. Qed.

Lemma stored mx data pos a d c n used l (new : bool) :
  0 ≤ pos → 0 ≤ a ≤ d → 0 ≤ c → d + c ≤ Z.of_nat (length data) → (pos + a) `mod` PAGE_SIZE + (d + c - a) ≤ PAGE_SIZE →
  same_pages (pages n) l → held l = held (pages n) → (Z.to_nat ((pos + a) `div` PAGE_SIZE) < length l)%nat →
  new = bool_decide (mjoin (l !! Z.to_nat ((pos + a) `div` PAGE_SIZE)) = None) → (new = true → used < mx) →
  written mx data pos a d c n used
    (set_data (isize n) (if new then blocks n + PAGE_SIZE / 512 else blocks n)
       (<[Z.to_nat ((pos + a) `div` PAGE_SIZE) := Some (put_bytes (default zero_page (mjoin (l !! Z.to_nat ((pos + a) `div` PAGE_SIZE)))) ((pos + a) `mod` PAGE_SIZE) (firstn (Z.to_nat (d + c - a)) (skipn (Z.to_nat a) data)))]> l) n)
    (if new then used + 1 else used).
Proof.
  intros Hp Ha Hc Hd Hm Hs Hh Hk Hn Hq. assert (length (firstn (Z.to_nat (d + c - a)) (skipn (Z.to_nat a) data)) = Z.to_nat (d + c - a)) as Hl by (rewrite length_take, length_drop; lia).
  split; [lia| |done| | |].
  - intros o Ho. rewrite byte_store by (done || rewrite ?Hl; lia). rewrite Hl, Z2Nat.id by lia. replace (pos + a + (d + c - a)) with (pos + d + c) by lia. destruct ((pos + a <=? o) && (o <? pos + d + c)) eqn:E; [|done].
    apply andb_true_iff in E as [E1%Z.leb_le E2%Z.ltb_lt]. rewrite lookup_take_lt by lia. rewrite lookup_drop. do 2 f_equal. lia.
  - cbn [pages set_data]. rewrite held_insert, <- Hn by done. destruct new; lia.
  - cbn [pages blocks set_data]. rewrite held_insert, <- Hn by done. destruct new; lia.
  - intros Hu. destruct new; [specialize (Hq eq_refl)|]; lia.
Qed.

(** Why a write ends: all is written, a resource is missing or a copy faults. *)
Definition enough (w : wmem) : Prop := ∀ x, w_slots w x = true ∧ w_page w x = true ∧ w_copy w x = None.

Lemma write_loop_spec' fuel : ∀ n used mx data pos a w,
  0 ≤ pos → pos + Z.of_nat (length data) < U64 → 0 ≤ a ≤ Z.of_nat (length data) → (Z.to_nat (Z.of_nat (length data) - a) < fuel)%nat →
  ∃ n' used' r d c, write_loop fuel n used mx data pos a w = (n', used', r) ∧ written mx data pos a d c n used n' used' ∧
    (r = inr d ∨ a = 0 ∧ d = 0 ∧ (r = inl (- ENOSPC) ∨ r = inl (- EFAULT) ∧ ∃ x, w_copy w x ≠ None)) ∧
    (c ≠ 0 → ∃ x, w_copy w x ≠ None) ∧
    (enough w → used + span (pos + a) (pos + Z.of_nat (length data)) ≤ mx → r = inr (Z.of_nat (length data)) ∧ d = Z.of_nat (length data)).
Proof.
  induction fuel as [|fuel IH]; intros n used mx data pos a w Hp Hu Ha Hf; [lia|]. cbn [write_loop]. set (len := Z.of_nat (length data)) in *.
  assert (∀ l, same_pages (pages n) l → held l = held (pages n) → written mx data pos a a 0 n used (set_data (isize n) (blocks n) l n) used) as Hnone by (intros; by apply written_none).
  assert (set_data (isize n) (blocks n) (pages n) n = n) as Esame by (by destruct n).
  destruct (Z.ltb_spec a len) as [Hlt|Hge].
  2: { exists n, used, (inr a), a, 0. split; [done|]. split; [rewrite <- Esame at 2; by apply Hnone|]. split; [by left|]. split; [done|]. intros _ _. assert (a = len) by lia. by subst. }
  cbn zeta. destruct (off_split pos a Hp ltac:(lia)) as [H1 H2]. assert (pos ⊕ a = pos + a) as -> by (apply wrap64_small; lia). set (x := pos + a) in *. set (chunk := Z.min (len - a) (PAGE_SIZE - x `mod` PAGE_SIZE)).
  pose proof (ensure_slots_spec (pages n) (x `div` PAGE_SIZE) (w_slots w a) ltac:(apply Z.div_pos; [lia|by vm_compute])) as He. destruct (ensure_slots _ _ _) as [l|].
  2: { exists n, used, (inr a), a, 0. split; [done|]. split; [rewrite <- Esame at 2; by apply Hnone|]. split; [by left|]. split; [done|]. intros Hw _. destruct (Hw a) as (? & _). congruence. }
  destruct He as (S1 & S2 & S3). set (k := Z.to_nat (x `div` PAGE_SIZE)) in *. set (new := bool_decide (mjoin (l !! k) = None)).
  destruct (new && ((mx <=? used) || negb (w_page w a))) eqn:Eq.
  { exists (set_data (isize n) (blocks n) l n), used, (if a =? 0 then inl (- ENOSPC) else inr a), a, 0. split; [done|]. split; [by apply Hnone|].
    split; [destruct (Z.eqb_spec a 0); [right; split_and!; [done|done|by left]|by left]|]. split; [done|]. intros Hw Hmx. exfalso. apply andb_true_iff in Eq as [_ Eq]. destruct (Hw a) as (_ & Hpg & _). rewrite Hpg, orb_false_r in Eq. apply Z.leb_le in Eq.
    pose proof (span_step x (pos + len) ltac:(lia)) as Hsp. cbn zeta in Hsp. pose proof (span_pos (x + Z.min (pos + len - x) (PAGE_SIZE - x `mod` PAGE_SIZE)) (pos + len) ltac:(lia)). lia. }
  assert (new = true → used < mx) as Hq. { intros Hn. rewrite Hn in Eq. cbn [andb] in Eq. apply orb_false_iff in Eq as [E%Z.leb_gt _]. done. }
  destruct (w_copy w a) as [c|] eqn:Ec.
  { set (c' := Z.min (Z.max c 0) chunk). exists (set_data (isize n) (if new then blocks n + PAGE_SIZE / 512 else blocks n) (<[k := Some (put_bytes (default zero_page (mjoin (l !! k))) (x `mod` PAGE_SIZE) (firstn (Z.to_nat (a + c' - a)) (skipn (Z.to_nat a) data)))]> l) n), (if new then used + 1 else used), (if a =? 0 then inl (- EFAULT) else inr a), a, c'.
    split; [do 6 f_equal; rewrite take_take; do 2 f_equal; lia|]. split; [exact (stored mx data pos a a c' n used l new Hp ltac:(lia) ltac:(lia) ltac:(lia) ltac:(fold x; lia) S1 S2 S3 eq_refl Hq)|]. split; [destruct (Z.eqb_spec a 0); [right; split; [done|]; split; [done|]; right; split; [done|]; exists a; by rewrite Ec|by left]|]. split; [intros _; exists a; by rewrite Ec|]. intros Hw. destruct (Hw a) as (_ & _ & ?). congruence. }
  set (n1 := set_data _ _ _ n). set (used1 := if new then used + 1 else used). assert (written mx data pos a (a + chunk) 0 n used n1 used1) as H0.
  { pose proof (stored mx data pos a (a + chunk) 0 n used l new Hp ltac:(lia) ltac:(lia) ltac:(lia) ltac:(fold x; lia) S1 S2 S3 eq_refl Hq) as Hst. replace (a + chunk + 0 - a) with chunk in Hst by lia. exact Hst. }
  destruct (IH n1 used1 mx data pos (a + chunk) w Hp Hu ltac:(lia) ltac:(lia)) as (n' & used' & r & d & c & E & W & R & C & F). exists n', used', r, d, c. split; [exact E|]. split; [by eapply written_trans|]. split; [destruct R as [->|(? & _)]; [by left|lia]|]. split; [done|].
  intros Hw Hmx. apply F; [done|]. pose proof (span_step x (pos + len) ltac:(lia)) as Hsp. cbn zeta in Hsp. replace (pos + len - x) with (len - a) in Hsp by lia. fold chunk in Hsp. replace (pos + (a + chunk)) with (x + chunk) by lia. unfold used1. fold len. destruct new; lia.
Qed.

(** ** Truncation *)

Lemma keep_eq z : 0 ≤ z → let keep := (z + PAGE_SIZE - 1) `div` PAGE_SIZE in 0 ≤ keep ∧ (keep - 1) * PAGE_SIZE < z ≤ keep * PAGE_SIZE ∧ (z `mod` PAGE_SIZE ≠ 0 → keep = z `div` PAGE_SIZE + 1).
Proof.
  intros Hz. cbn zeta. pose proof (Z.div_mod (z + PAGE_SIZE - 1) PAGE_SIZE ltac:(by vm_compute)) as D. pose proof (Z.mod_pos_bound (z + PAGE_SIZE - 1) PAGE_SIZE ltac:(by vm_compute)) as M. assert (0 < PAGE_SIZE) as HP by by vm_compute.
  pose proof (Z.div_pos (z + PAGE_SIZE - 1) PAGE_SIZE ltac:(lia) HP). split; [lia|]. split; [lia|]. intros Hm. pose proof (Z.div_mod z PAGE_SIZE ltac:(by vm_compute)) as D'. pose proof (Z.mod_pos_bound z PAGE_SIZE HP) as M'.
  symmetry. apply Z.div_unique_pos with (z `mod` PAGE_SIZE - 1); lia.
Qed.

Lemma truncate_spec n z : 0 ≤ z →
  (∀ o, 0 ≤ o → byte (truncate_node n z) o = if o <? z then byte n o else 0) ∧
  isize (truncate_node n z) = z ∧ blocks (truncate_node n z) = held (pages (truncate_node n z)) * (PAGE_SIZE / 512) ∧
  held (pages (truncate_node n z)) ≤ held (pages n) ∧ truncate_node n z = set_data z (blocks (truncate_node n z)) (pages (truncate_node n z)) n.
Proof.
  intros Hz. unfold truncate_node. destruct (keep_eq z Hz) as (K1 & K2 & K3). set (keep := (z + PAGE_SIZE - 1) `div` PAGE_SIZE) in *. set (k := Z.to_nat keep). cbn zeta. set (l0 := firstn k (pages n) ++ _).
  assert (∀ j, mjoin (l0 !! j) = if decide (j < k)%nat then mjoin (pages n !! j) else None) as L0.
  { intros j. unfold l0. destruct (decide (j < k)%nat) as [Hj|Hj].
    - destruct (decide (j < length (pages n))%nat); [rewrite lookup_app_l by (rewrite length_take; lia); by rewrite lookup_take_lt|]. rewrite lookup_app_r by (rewrite length_take; lia). rewrite list_lookup_fmap, lookup_drop, !lookup_ge_None_2 by (rewrite ?length_take; lia). done.
    - destruct (l0 !! j) eqn:E; unfold l0 in E; rewrite E; [|done]. rewrite lookup_app_r in E by (rewrite length_take; lia). rewrite list_lookup_fmap in E. destruct (_ !! _) in E; [|done]. by injection E as <-. }
  assert (held l0 = held (firstn k (pages n))) as H0 by (unfold l0; rewrite held_app, held_none; lia). set (c := negb _ && negb _ && _). set (l := if c then _ else l0).
  assert (held l = held l0) as Hl by (unfold l; destruct c; [apply held_alter|done]).
  assert (∀ j, mjoin (l !! j) = if decide (c = true ∧ j = (k - 1)%nat) then zero_from (z `mod` PAGE_SIZE) <$> mjoin (l0 !! j) else mjoin (l0 !! j)) as L1.
  { intros j. unfold l. destruct c; [|by rewrite decide_False by naive_solver]. destruct (decide (j = (k - 1)%nat)) as [->|Hj]; [rewrite decide_True by done; rewrite list_lookup_alter_eq; by destruct (l0 !! _)|]. rewrite decide_False by naive_solver. by rewrite list_lookup_alter_ne by done. }
  assert (held (firstn k l) = held l) as Hk. { rewrite <- (take_drop k l) at 2. rewrite held_app. rewrite (held_zero (skipn k l)); [lia|]. intros j. rewrite lookup_drop, L1, L0. rewrite (decide_False (P := (k + j < k)%nat)) by lia. by destruct (decide _). }
  split; [|cbn [isize blocks pages set_data]; rewrite Hk; split; [done|]; split; [done|]; split; [|done]].
  2: { rewrite Hl, H0. rewrite <- (take_drop k (pages n)) at 2. rewrite held_app. pose proof (held_pos (skipn k (pages n))). lia. }
  intros o Ho. unfold byte, page_at. cbn [pages set_data]. rewrite L1, L0. assert (0 < PAGE_SIZE) as HP by by vm_compute. pose proof (Z.div_mod o PAGE_SIZE ltac:(lia)) as Do. pose proof (Z.mod_pos_bound o PAGE_SIZE HP) as Mo. pose proof (Z.div_pos o PAGE_SIZE Ho HP).
  pose proof (Z.div_mod z PAGE_SIZE ltac:(lia)) as Dz. pose proof (Z.mod_pos_bound z PAGE_SIZE HP) as Mz.
  destruct (Z.ltb_spec o z) as [Hoz|Hoz].
  - rewrite (decide_True (P := (Z.to_nat (o `div` PAGE_SIZE) < k)%nat)) by nia. destruct (decide _) as [[Hc Hj]|]; [|done]. assert (z `mod` PAGE_SIZE ≠ 0) as Hm. { unfold c in Hc. destruct (Z.eqb_spec (z `mod` PAGE_SIZE) 0); [done|done]. }
    specialize (K3 Hm). destruct (mjoin (pages n !! _)) as [pg|]; [|done]. cbn. unfold zero_from. assert (o `div` PAGE_SIZE = z `div` PAGE_SIZE) as E by nia. destruct (Z.leb_spec (z `mod` PAGE_SIZE) (o `mod` PAGE_SIZE)); [nia|done].
  - destruct (decide (Z.to_nat (o `div` PAGE_SIZE) < k)%nat) as [Hj|Hj]; [|by destruct (decide _)]. assert (o `div` PAGE_SIZE = keep - 1) as E by nia. assert (z `mod` PAGE_SIZE ≠ 0) as Hm. { intros Hm. rewrite E in Do. assert (z `div` PAGE_SIZE < keep) as Hlt by (apply (Z.mul_lt_mono_pos_r PAGE_SIZE); lia). assert ((keep - 1) < z `div` PAGE_SIZE) by (apply (Z.mul_lt_mono_pos_r PAGE_SIZE); lia). lia. }
    specialize (K3 Hm).
    destruct (decide _) as [[Hc Hj']|Hn]; [destruct (mjoin (pages n !! _)) as [pg|]; [|done]; cbn; unfold zero_from; destruct (Z.leb_spec (z `mod` PAGE_SIZE) (o `mod` PAGE_SIZE)); [done|nia]|].
    assert (pages n !! Z.to_nat (o `div` PAGE_SIZE) = None) as ->; [|done]. apply lookup_ge_None. apply not_lt. intros Hlt. destruct Hn. split; [|lia]. unfold c. apply Z.eqb_neq in Hm as ->. assert ((keep =? 0) = false) as -> by (apply Z.eqb_neq; lia). apply Z.leb_le. unfold l0. rewrite length_app, length_fmap, length_take, length_drop. lia.
Qed.

(** ** Operations on a file *)

(** The file [i] becomes [n'], and the pages in use follow. *)
Definition file_set (s s' : tfs) (i : Z) (n n' : inode) : Prop :=
  inodes s' = <[i := n']> (inodes s) ∧ next_ino s' = next_ino s ∧ max_pages s' = max_pages s ∧
  used_pages s' - used_pages s = held (pages n') - held (pages n) ∧
  n' = set_data (isize n') (blocks n') (pages n') n ∧ (used_pages s ≤ max_pages s → used_pages s' ≤ max_pages s).

Lemma content_slice n pos d : 0 ≤ pos → 0 ≤ d → pos + d ≤ isize n → slice n pos d = content n <$> seqZ pos d.
Proof.
  intros Hp Hd Hs. unfold slice. apply list_fmap_ext. intros j o Hj. apply lookup_seqZ in Hj as [-> Hj]. unfold content. destruct (Z.leb_spec 0 (pos + Z.of_nat j)), (Z.ltb_spec (pos + Z.of_nat j) (isize n)); cbn [andb]; try done; lia.
Qed.

(** What is left to read from a position on. *)
Definition readable (n : inode) (len pos : Z) : Z := Z.max 0 (Z.min len (isize n - pos)).

Lemma tmpfs_read_spec n len pos ok : file_ok n → 0 ≤ pos → 0 ≤ len →
  ∃ d r p, tmpfs_read n len pos ok = (r, content n <$> seqZ pos d, p) ∧ 0 ≤ d ≤ readable n len pos ∧
    ((r = d ∧ d = readable n len pos ∧ p = pos + d) ∨ (∃ x, ok x = false) ∧ p = pos ∧ r = if d =? 0 then - EFAULT else d).
Proof.
  intros [Hs _ _] Hp Hl. unfold tmpfs_read, readable. destruct (Z.leb_spec (isize n) pos) as [Hle|Hgt].
  { exists 0, 0, pos. split; [by rewrite seqZ_nil by lia|]. split; [lia|]. left. lia. }
  set (total := Z.min len (isize n - pos)). assert (pos + total < U64) as Hu by (assert (2 ^ 63 < U64) by (by vm_compute); lia).
  destruct (read_loop_spec' (S (Z.to_nat total)) n pos total 0 ok Hp ltac:(lia) Hu ltac:(lia)) as (e & b & E & A & B & C). unfold slice at 1 in E. rewrite seqZ_nil in E by lia. cbn [fmap list_fmap] in E. cbn zeta. rewrite E, slice_length, Z2Nat.id by lia. rewrite content_slice by lia.
  destruct b.
  - exists e, e, (pos + e). split; [done|]. split; [lia|]. left. specialize (B eq_refl). lia.
  - eexists e, _, pos. split; [done|]. split; [lia|]. right. split; [exists e; auto|done].
Qed.

(** A write at [p], of which [d] bytes count and [c] more were stored. *)
Definition wrote_at (n n' : inode) (p d c : Z) (data : list Z) (sz : Z) : Prop :=
  isize n' = sz ∧ ∀ o, content n' o = if (p <=? o) && (o <? p + d + c) && (o <? sz) then default 0 (data !! Z.to_nat (o - p)) else content n o.

Lemma upd_const s i x n : inodes s !! i = Some n → inodes (upd s i (λ _, x)) = <[i := x]> (inodes s).
Proof.
  intros Hi. cbn. apply map_eq. intros j. destruct (decide (i = j)) as [->|Hne]; [by rewrite lookup_alter_eq, lookup_insert_eq, Hi|by rewrite lookup_alter_ne, lookup_insert_ne].
Qed.
Lemma set_data_bytes n sz blk o : byte (set_size sz n) o = byte n o ∧ byte (set_data sz blk (pages n) n) o = byte n o.
Proof. done. Qed.

(** The bytes of a written file, when its size becomes [sz]. *)
Lemma wrote_file mx data p d c n u n1 u1 sz : file_ok n → 0 ≤ p → written mx data p 0 d c n u n1 u1 → isize n ≤ sz < 2 ^ 63 → p + d ≤ sz ∨ (d = 0 ∧ sz = isize n) →
  wrote_at n (set_size sz n1) p d c data sz ∧ (c = 0 → file_ok (set_size sz n1)).
Proof.
  intros [Hs Ht Hb] Hp [W1 W2 W3 W4 W5 W6] Hsz Hpd. rewrite Z.add_0_r in *. split.
  - split; [done|]. intros o. unfold content. cbn [isize set_size]. change (byte (set_size sz n1) o) with (byte n1 o). destruct (Z.leb_spec 0 o) as [Ho|Ho]; cbn [andb].
    + rewrite W2 by done. destruct (Z.ltb_spec o sz) as [Hlt|Hge]; [|rewrite andb_false_r; destruct (Z.ltb_spec o (isize n)); [lia|done]]. rewrite andb_true_r. destruct (_ && _); [done|]. destruct (Z.ltb_spec o (isize n)); [done|auto].
    + destruct (Z.leb_spec p o); [lia|done].
  - intros ->. split; [cbn; lia| |]; cbn [isize blocks pages set_size].
    + intros o Ho. change (byte (set_size sz n1) o) with (byte n1 o). rewrite W2 by lia. destruct (Z.leb_spec p o), (Z.ltb_spec o (p + d + 0)); cbn [andb]; try (apply Ht; lia). lia.
    + lia.
Qed.

Lemma tmpfs_write_spec s i n (append : bool) data pos w :
  let p := if append then isize n else pos in let len := Z.of_nat (length data) in
  inodes s !! i = Some n → file_ok n → 0 ≤ pos → p + len < 2 ^ 63 →
  ∃ s' n' r p' d c, tmpfs_write s i append data pos w = Some (s', r, p') ∧ file_set s s' i n n' ∧
    0 ≤ d ∧ 0 ≤ c ∧ d + c ≤ len ∧ (c ≠ 0 → ∃ x, w_copy w x ≠ None) ∧
    ((r = d ∧ p' = p + d ∧ wrote_at n n' p d c data (Z.max (isize n) (p + d))) ∨
     (d = 0 ∧ p' = p ∧ (r = - ENOSPC ∨ r = - EFAULT ∧ ∃ x, w_copy w x ≠ None) ∧ wrote_at n n' p 0 c data (isize n))) ∧
    (c = 0 → file_ok n') ∧ (enough w → used_pages s + span p (p + len) ≤ max_pages s → r = len).
Proof.
  intros p len Hi Hn Hpos Hlen. pose proof Hn as [Hs Ht Hb]. assert (0 ≤ p) as Hp by (unfold p; destruct append; lia). assert (2 ^ 63 < U64) as HU by by vm_compute. unfold tmpfs_write. rewrite Hi. cbn [mbind option_bind]. fold p.
  destruct (write_loop_spec' (S (length data)) n (used_pages s) (max_pages s) data p 0 w Hp ltac:(lia) ltac:(lia) ltac:(lia)) as (n1 & u1 & r1 & d & c & -> & [W1 W2 W3 W4 W5 W6] & R & C & F). cbn zeta. rewrite Z.add_0_r in *.
  pose proof (conj W1 W2) as _. assert (written (max_pages s) data p 0 d c n (used_pages s) n1 u1) as W by (split; rewrite ?Z.add_0_r; auto).
  assert (n1 = set_size (isize n) n1) as E1 by (rewrite W3; done).
  assert (∀ sz, file_set s (set_used u1 (upd s i (λ _, set_size sz n1))) i n (set_size sz n1)) as Hset.
  { intros sz. split; [cbn [inodes set_used]; by eapply upd_const|]. split_and!; try done. cbn [isize blocks pages set_size set_data]. rewrite W3 at 1. done. }
  destruct R as [->|(_ & -> & R)].
  - eexists _, (set_size (Z.max (isize n) (p + d)) n1), d, (p + d), d, c. assert (isize n1 = isize n) as Ez by (by rewrite E1). rewrite Ez. split; [done|]. split; [apply Hset|].
    destruct (wrote_file (max_pages s) data p d c n (used_pages s) n1 u1 (Z.max (isize n) (p + d)) Hn Hp W ltac:(lia) ltac:(lia)) as [A B]. split_and!; try lia; try done; [by left|]. intros Hw Hm. destruct (F Hw Hm) as [_ ->]. done.
  - destruct (wrote_file (max_pages s) data p 0 c n (used_pages s) n1 u1 (isize n) Hn Hp W ltac:(lia) ltac:(lia)) as [A B]. rewrite <- E1 in A, B.
    assert (∃ e, r1 = inl e ∧ (e = - ENOSPC ∨ e = - EFAULT ∧ ∃ x, w_copy w x ≠ None)) as (e & -> & He) by (destruct R as [-> | [-> ?]]; eauto 6).
    exists (set_used u1 (upd s i (λ _, n1))), n1, e, p, 0, c. split; [done|]. split; [rewrite E1; apply Hset|]. split_and!; try lia; try done; [by right|]. intros Hw Hm. destruct (F Hw Hm) as [? _]. done.
Qed.

Lemma tmpfs_truncate_spec s i n z :
  inodes s !! i = Some n → is_reg n = true → file_ok n → 0 ≤ z < 2 ^ 63 → held (pages n) ≤ used_pages s < U64 →
  ∃ s' n', tmpfs_setattr s i (Iattr (Some z) None None None) = Some (s', 0) ∧ file_set s s' i n n' ∧ file_ok n' ∧
    isize n' = z ∧ ∀ o, content n' o = if o <? z then content n o else 0.
Proof.
  intros Hi Hr Hn Hz Hu. pose proof Hn as [Hs Ht Hb]. unfold tmpfs_setattr. rewrite Hi. cbn [mbind option_bind a_size a_mode a_uid a_gid]. rewrite Hr. rewrite andb_false_r.
  assert (∀ x f, f x = x → alter f i (alter (λ _, x) i (inodes s)) = <[i := x]> (inodes s)) as Halt.
  { intros x f Hf. apply map_eq. intros j. destruct (decide (i = j)) as [->|Hne]; [by rewrite !lookup_alter_eq, lookup_insert_eq, Hi; cbn; rewrite Hf|by rewrite !lookup_alter_ne, lookup_insert_ne]. }
  destruct (Z.ltb_spec z (isize n)) as [Hlt|Hge].
  - unfold truncate_pages. rewrite Hi. cbn [mbind option_bind]. destruct (truncate_spec n z ltac:(lia)) as (T1 & T2 & T3 & T4 & T5). set (n' := truncate_node n z) in *. pose proof (held_pos (pages n')).
    eexists _, n'. split; [done|]. split.
    { split; [cbn; apply Halt; by destruct n'|]. split; [done|]. split; [done|]. cbn [used_pages upd set_inodes set_used max_pages]. rewrite sub64_small by lia. split; [lia|]. split; [by rewrite T2|lia]. }
    assert (∀ o, content n' o = if o <? z then content n o else 0) as Hc.
    { intros o. unfold content. rewrite T2. destruct (Z.leb_spec 0 o); cbn [andb]; [|by destruct (o <? z)]. destruct (Z.ltb_spec o z); [|done]. rewrite T1 by done. destruct (Z.ltb_spec o z), (Z.ltb_spec o (isize n)); try done; lia. }
    split; [|done]. split; [lia| |lia]. intros o Ho. rewrite T1 by lia. destruct (Z.ltb_spec o z); [lia|done].
  - set (n' := set_size z n). eexists _, n'. split; [done|]. split.
    { split; [|split_and!; try done; cbn; lia]. cbn [inodes upd set_inodes]. apply map_eq. intros j. destruct (decide (i = j)) as [->|Hne]; [by rewrite !lookup_alter_eq, lookup_insert_eq, Hi|by rewrite !lookup_alter_ne, lookup_insert_ne]. }
    split; [split; [cbn; lia| |done]|split; [done|]].
    + intros o Ho. apply Ht. cbn in Ho. lia.
    + intros o. unfold content, n'. cbn [isize set_size]. change (byte (set_size z n) o) with (byte n o). destruct (Z.leb_spec 0 o); cbn [andb]; [|by destruct (o <? z)]. destruct (Z.ltb_spec o z), (Z.ltb_spec o (isize n)); try done; [apply Ht; lia].
Qed.
