(* ===== verification/TmpfsDir.v ===== *)
(** * Directories of the RAM file system

    The directories implement maps from names to inodes; the counts of links,
    references and pages agree with them in every reachable state. *)

From S2P Require Import Prelude Tmpfs TmpfsData.

(** ** Sums over inodes *)

Definition tally (m : gmap Z inode) (f : inode → Z) : Z := map_fold (λ _ n k, f n + k) 0 m.

Lemma tally_new m i n f : m !! i = None → tally (<[i := n]> m) f = f n + tally m f.
Proof. intros Hi. unfold tally. rewrite map_fold_insert_L; [done| |done]. intros. lia. Qed.
Lemma tally_delete m i n f : m !! i = Some n → tally m f = f n + tally (delete i m) f.
Proof. intros Hi. rewrite <- (insert_delete_id m i n Hi) at 1. apply tally_new, lookup_delete_eq. Qed.
Lemma tally_insert m i n x f : m !! i = Some n → tally (<[i := x]> m) f = tally m f + f x - f n.
Proof. intros Hi. rewrite (tally_delete m i n f Hi), <- insert_delete_eq, tally_new by apply lookup_delete_eq. lia. Qed.
Lemma alter_insert (m : gmap Z inode) i n g : m !! i = Some n → alter g i m = <[i := g n]> m.
Proof.
  intros Hi. apply map_eq. intros j. destruct (decide (i = j)) as [->|Hne]; [by rewrite lookup_alter_eq, lookup_insert_eq, Hi|by rewrite lookup_alter_ne, lookup_insert_ne].
Qed.
Lemma tally_ext m f g : (∀ i n, m !! i = Some n → f n = g n) → tally m f = tally m g.
Proof.
  induction m as [|i n m Hi IH] using map_ind; intros H; [done|]. rewrite !tally_new by done. rewrite (H i n) by apply lookup_insert_eq. rewrite IH; [done|].
  intros j x Hj. apply (H j). rewrite lookup_insert_ne; [done|]. congruence.
Qed.
Lemma tally_nonneg m f : (∀ i n, m !! i = Some n → 0 ≤ f n) → 0 ≤ tally m f.
Proof.
  induction m as [|i n m Hi IH] using map_ind; intros H; [done|]. rewrite tally_new by done. pose proof (H i n (lookup_insert_eq _ _ _)). enough (0 ≤ tally m f) by lia. apply IH.
  intros j x Hj. apply (H j). rewrite lookup_insert_ne; [done|]. congruence.
Qed.
Lemma tally_le m f i n : (∀ i n, m !! i = Some n → 0 ≤ f n) → m !! i = Some n → f n ≤ tally m f.
Proof.
  intros H Hi. rewrite (tally_delete m i n f Hi). enough (0 ≤ tally (delete i m) f) by lia. apply tally_nonneg. intros j x [_ Hj]%lookup_delete_Some. eauto.
Qed.
Lemma tally_zero m f : (∀ i n, m !! i = Some n → f n = 0) → tally m f = 0.
Proof. intros H. rewrite (tally_ext m f (λ _, 0)) by done. clear H. induction m as [|i n m Hi IH] using map_ind; [done|]. by rewrite tally_new. Qed.

(** ** Entries *)

Definition occ (i : Z) (l : list (name * Z)) : Z := Z.of_nat (length (List.filter (λ e, e.2 =? i) l)).
Definition links (s : tfs) (i : Z) : Z := tally (inodes s) (λ n, occ i (entries n)).

Lemma occ_nonneg i l : 0 ≤ occ i l.
Proof. unfold occ. lia. Qed.
Lemma occ_cons i e l : occ i (e :: l) = (if e.2 =? i then 1 else 0) + occ i l.
Proof. unfold occ. cbn. destruct (_ =? i); cbn [length]; lia. Qed.
Lemma occ_app i l m : occ i (l ++ m) = occ i l + occ i m.
Proof. unfold occ. rewrite List.filter_app, length_app. lia. Qed.
Lemma occ_none i l : (∀ e, e ∈ l → e.2 ≠ i) → occ i l = 0.
Proof. induction l as [|e l IH]; intros H; [done|]. rewrite occ_cons, IH by (intros e' He; apply H; by right). destruct (Z.eqb_spec e.2 i) as [E|]; [|done]. by destruct (H e ltac:(by left)). Qed.
Lemma occ_in i l e : e ∈ l → e.2 = i → 0 < occ i l.
Proof.
  intros He Hi. induction l as [|x l IH]; [by apply not_elem_of_nil in He|]. rewrite occ_cons. pose proof (occ_nonneg i l). apply elem_of_cons in He as [<-|He]; [apply Z.eqb_eq in Hi as ->; lia|]. specialize (IH He). destruct (_ =? i); lia.
Qed.

Lemma find_entry_cons e l nm : find_entry (e :: l) nm = if bool_decide (e.1 = nm) then Some e.2 else find_entry l nm.
Proof. unfold find_entry. cbn. by destruct (bool_decide _). Qed.
Lemma find_entry_app l m nm : find_entry (l ++ m) nm = match find_entry l nm with Some i => Some i | None => find_entry m nm end.
Proof. induction l as [|e l IH]; [done|]. cbn [app]. rewrite !find_entry_cons, IH. by destruct (bool_decide _). Qed.
Lemma find_entry_in l nm i : find_entry l nm = Some i → (nm, i) ∈ l.
Proof. induction l as [|[x j] l IH]; [done|]. rewrite find_entry_cons. cbn. case_bool_decide as E; [intros [= ->]; subst; by left|intros H; right; auto]. Qed.
Lemma find_entry_none l nm : find_entry l nm = None ↔ nm ∉ l.*1.
Proof.
  induction l as [|e l IH]; [split; [intros _; apply not_elem_of_nil|done]|]. rewrite find_entry_cons, fmap_cons, not_elem_of_cons, <- IH. case_bool_decide as E; split; [done|intros [? _]; by subst|intros; split; [congruence|done]|by intros [_ ?]].
Qed.
Lemma del_entry_find l nm x : NoDup l.*1 → find_entry (del_entry nm l) x = if bool_decide (x = nm) then None else find_entry l x.
Proof.
  induction l as [|e l IH]; intros Hd; [cbn; by destruct (bool_decide _)|]. rewrite fmap_cons in Hd. apply NoDup_cons in Hd as [Hn Hd]. cbn [del_entry]. rewrite find_entry_cons. destruct (bool_decide_reflect (e.1 = nm)) as [<-|He].
  - destruct (decide (x = e.1)) as [Hx|Hx]; [rewrite bool_decide_true by done; apply find_entry_none; by rewrite Hx|]. by rewrite !bool_decide_false by congruence.
  - rewrite find_entry_cons, IH by done. destruct (decide (e.1 = x)) as [Hx|Hx]; [rewrite (bool_decide_true (e.1 = x)), (bool_decide_false (x = nm)) by congruence; done|by rewrite (bool_decide_false (e.1 = x))].
Qed.
Lemma del_entry_cnt l nm i j : find_entry l nm = Some i → occ j (del_entry nm l) = occ j l - if j =? i then 1 else 0.
Proof.
  induction l as [|e l IH]; [done|]. rewrite find_entry_cons. cbn [del_entry]. rewrite occ_cons. destruct (bool_decide _); [intros [= ->]; rewrite (Z.eqb_sym i j); destruct (j =? i); lia|]. intros H. rewrite occ_cons, IH by done. lia.
Qed.
Lemma del_entry_sub l nm : del_entry nm l ⊆ l.
Proof. induction l as [|e l IH]; [done|]. cbn. destruct (bool_decide _); [intros x; by right|]. intros x [->|Hx]%elem_of_cons; [by left|right; auto]. Qed.
Lemma del_entry_nodup l nm : NoDup l.*1 → NoDup (del_entry nm l).*1.
Proof.
  induction l as [|e l IH]; intros Hd; [done|]. rewrite fmap_cons in Hd. apply NoDup_cons in Hd as [Hn Hd]. cbn. destruct (bool_decide _); [done|]. rewrite fmap_cons. apply NoDup_cons. split; [|auto]. intros (x & Hx & Hin)%list_elem_of_fmap. apply Hn. apply list_elem_of_fmap. exists x. split; [done|]. by apply del_entry_sub in Hin.
Qed.
Lemma del_entry_length l nm i : find_entry l nm = Some i → Z.of_nat (length (del_entry nm l)) = Z.of_nat (length l) - 1.
Proof. induction l as [|e l IH]; [done|]. rewrite find_entry_cons. cbn. destruct (bool_decide _); [lia|]. intros H. cbn. rewrite Nat2Z.inj_succ, IH by done. lia. Qed.

Lemma nel2 (j a b : Z) : j ∉ [a; b] ↔ j ≠ a ∧ j ≠ b.
Proof. set_solver. Qed.
Lemma el2 (j a b : Z) : j ∈ [a; b] ↔ j = a ∨ j = b.
Proof. set_solver. Qed.
Lemma nel1 (j a : Z) : j ∉ [a] ↔ j ≠ a.
Proof. set_solver. Qed.

(** ** The counts *)

Record node_ok (n : inode) : Prop := {
  no_pages : is_reg n = false → pages n = [];
  no_entries : is_dir n = false → entries n = [];
  no_names : NoDup (entries n).*1;
  no_size : is_dir n = true → isize n = Z.of_nat (length (entries n));
  no_data : is_reg n = true → file_ok n;
}.

Lemma node_ok_ext n x : mode x = mode n → entries x = entries n → pages x = pages n → isize x = isize n → blocks x = blocks n → node_ok n → node_ok x.
Proof.
  intros E1 E2 E3 E4 E5 [H1 H2 H3 H4 H5]. unfold is_reg, is_dir in *. split; unfold is_reg, is_dir; rewrite ?E1, ?E2, ?E3, ?E4; auto. intros Hr. destruct (H5 Hr) as [F1 F2 F3]. split; rewrite ?E4, ?E5, ?E3; auto.
  intros o Ho. unfold byte, page_at. rewrite E3. by apply F2.
Qed.

Record core (s : tfs) : Prop := {
  co_ino i n : inodes s !! i = Some n → 1 ≤ i ≤ next_ino s;
  co_next : 0 ≤ next_ino s;
  co_node i n : inodes s !! i = Some n → node_ok n;
  co_child d n e : inodes s !! d = Some n → e ∈ entries n → is_Some (inodes s !! e.2);
  co_refs i n : inodes s !! i = Some n → links s i ≤ refcount n ∧ 1 ≤ refcount n;
  co_used : used_pages s = tally (inodes s) (λ n, held (pages n));
  co_quota : used_pages s ≤ max_pages s < U64;
}.

Definition put_in (s : tfs) (i : Z) (x : inode) : tfs := set_inodes (<[i := x]> (inodes s)) s.

Lemma upd_put s i n f : inodes s !! i = Some n → upd s i f = put_in s i (f n).
Proof. intros Hi. unfold upd, put_in. by rewrite (alter_insert _ i n). Qed.
Lemma put_in_lookup s i x j : inodes (put_in s i x) !! j = if decide (j = i) then Some x else inodes s !! j.
Proof. cbn. destruct (decide (j = i)) as [->|]; [apply lookup_insert_eq|by rewrite lookup_insert_ne]. Qed.
Lemma put_in_links s i n x j : inodes s !! i = Some n → links (put_in s i x) j = links s j + occ j (entries x) - occ j (entries n).
Proof. intros Hi. unfold links. cbn. by rewrite (tally_insert _ i n). Qed.
Lemma links_nonneg s i : 0 ≤ links s i.
Proof. apply tally_nonneg. intros. apply occ_nonneg. Qed.
Lemma links_in s d n e : inodes s !! d = Some n → e ∈ entries n → 0 < links s e.2.
Proof.
  intros Hd He. pose proof (occ_in e.2 _ _ He eq_refl). pose proof (tally_le (inodes s) (λ n, occ e.2 (entries n)) d n ltac:(intros; apply occ_nonneg) Hd). unfold links. cbn in *. lia.
Qed.
Lemma links_two s d n d' n' e e' : inodes s !! d = Some n → inodes s !! d' = Some n' → d ≠ d' → e ∈ entries n → e' ∈ entries n' → e.2 = e'.2 → 2 ≤ links s e.2.
Proof.
  intros Hd Hd' Hne He He' E. unfold links. rewrite (tally_delete _ d n _ Hd). pose proof (occ_in e.2 _ _ He eq_refl). pose proof (occ_in e.2 _ _ He' (eq_sym E)).
  pose proof (tally_le (delete d (inodes s)) (λ n, occ e.2 (entries n)) d' n' ltac:(intros; apply occ_nonneg) ltac:(by rewrite lookup_delete_ne)). cbn in *. lia.
Qed.
Lemma links_absent s i : core s → inodes s !! i = None → links s i = 0.
Proof. intros H Hi. apply tally_zero. intros d n Hd. apply occ_none. intros e He E. destruct (co_child _ H d n e Hd He) as [x Hx]. congruence. Qed.

(** An inode changes where no count looks. *)
Lemma core_attr s i n x :
  core s → inodes s !! i = Some n → node_ok x → entries x = entries n → pages x = pages n → refcount x = refcount n → core (put_in s i x) ∧ ∀ j, links (put_in s i x) j = links s j.
Proof.
  intros H Hi Hx E1 E2 E3. assert (∀ j, links (put_in s i x) j = links s j) as Hl by (intros j; rewrite (put_in_links s i n), E1 by done; lia). split; [|done]. destruct H as [H1 H2 H3 H4 H5 H6 H7]. split; try done.
  - intros j m. rewrite put_in_lookup. case_decide; [intros _; subst; eauto|apply H1].
  - intros j m. rewrite put_in_lookup. case_decide; [intros [= <-]; done|apply H3].
  - intros d m e Hm He. rewrite put_in_lookup. case_decide; [done|]. rewrite put_in_lookup in Hm. case_decide; [injection Hm as <-; rewrite E1 in He; subst; eauto|eauto].
  - intros j m. rewrite Hl, put_in_lookup. case_decide; [intros [= <-]; subst; rewrite E3; eauto|apply H5].
  - cbn [used_pages put_in set_inodes inodes]. rewrite (tally_insert _ i n), E2 by done. lia.
Qed.

(** A new entry of [d] names [i], which counts it. *)
Lemma core_add s d n i v nm (m : mem) :
  core s → inodes s !! d = Some n → is_dir n = true → inodes s !! i = Some v → d ≠ i → find_entry (entries n) nm = None →
  Z.of_nat (length nm) ≤ NAME_MAX → m_entry m = true → m_name m = true →
  let s' := put_in (put_in s i (set_count (refcount v + 1) v)) d (set_entries (entries n ++ [(nm, i)]) (isize n + 1) n) in
  add_entry s d nm i m = (s', 0) ∧ core s' ∧ ∀ j, links s' j = links s j + if j =? i then 1 else 0.
Proof.
  intros H Hd Hdir Hi Hne Hf Hl M1 M2 s'. split.
  { unfold add_entry, inode_get. destruct (Z.ltb_spec NAME_MAX (Z.of_nat (length nm))); [lia|]. rewrite M1, M2. cbn [negb orb]. f_equal. rewrite (upd_put s i v) by done. rewrite (upd_put _ d n); [done|]. rewrite put_in_lookup. by rewrite decide_False. }
  assert (inodes (put_in s i (set_count (refcount v + 1) v)) !! d = Some n) as Hd' by (rewrite put_in_lookup; by rewrite decide_False).
  assert (∀ j, links s' j = links s j + if j =? i then 1 else 0) as Hlk.
  { intros j. unfold s'. rewrite (put_in_links _ d n), (put_in_links s i v) by done. cbn [entries set_entries set_count]. rewrite occ_app, occ_cons. cbn [snd]. rewrite (Z.eqb_sym i j). change (occ j []) with 0. lia. }
  split; [|done]. destruct H as [H1 H2 H3 H4 H5 H6 H7]. pose proof (H3 d n Hd) as [N1 N2 N3 N4 N5].
  assert (∀ j, inodes s' !! j = if decide (j = d) then Some (set_entries (entries n ++ [(nm, i)]) (isize n + 1) n) else if decide (j = i) then Some (set_count (refcount v + 1) v) else inodes s !! j) as Hlook by (intros j; unfold s'; by rewrite !put_in_lookup).
  split; try done.
  - intros j x. rewrite Hlook. repeat case_decide; intros E; subst; eauto.
  - intros j x. rewrite Hlook. repeat case_decide; intros E; subst; [injection E as <-|injection E as <-; by apply (node_ok_ext v); [..|eapply H3]|eauto].
    split; cbn [pages entries isize set_entries]; [done|intros E; change (is_dir n = false) in E; congruence| | |].
    + rewrite fmap_app. apply NoDup_app. split; [done|]. split; [|apply NoDup_singleton]. intros x Hx Hx'. cbn in Hx'. apply list_elem_of_singleton in Hx' as ->. by apply find_entry_none in Hf.
    + intros _. rewrite length_app, N4 by done. cbn. lia.
    + intros E. change (is_reg n = true) in E. unfold is_reg, is_dir in *. apply Z.eqb_eq in E, Hdir. congruence.
  - intros j x e Hj He. rewrite Hlook. repeat case_decide; try done. rewrite Hlook in Hj. repeat case_decide; [injection Hj as <-; cbn in He|injection Hj as <-; eauto|eauto].
    apply elem_of_app in He as [He|He%list_elem_of_singleton]; [eauto|]. by subst e.
  - intros j x Hj. rewrite Hlk. rewrite Hlook in Hj. repeat case_decide; [injection Hj as <-|injection Hj as <-|]; subst; cbn [refcount set_count set_entries].
    + apply Z.eqb_neq in Hne as ->. destruct (H5 _ _ Hd). lia.
    + rewrite Z.eqb_refl. destruct (H5 _ _ Hi). lia.
    + assert ((j =? i) = false) as -> by (by apply Z.eqb_neq). destruct (H5 _ _ Hj). lia.
  - unfold s'. cbn [used_pages put_in set_inodes inodes]. rewrite (tally_insert _ d n) by exact Hd'. rewrite (tally_insert _ i v) by done. cbn [pages set_entries set_count]. lia.
Qed.

Lemma tfs_eq s s' : (∀ j, inodes s !! j = inodes s' !! j) → next_ino s = next_ino s' → max_pages s = max_pages s' → used_pages s = used_pages s' → s = s'.
Proof. destruct s, s'. cbn. intros H -> -> ->. f_equal. by apply map_eq. Qed.

Lemma put_held s i v : inodes s !! i = Some v → 1 < refcount v → inode_put s i = Some (put_in s i (set_count (refcount v - 1) v)).
Proof.
  intros Hi Hr. unfold inode_put, put_fuel. cbn [put_all]. rewrite Hi. cbn [mbind option_bind]. destruct (Z.ltb_spec 0 (refcount v - 1)); [|lia]. rewrite (upd_put s i v) by done. by destruct (Z.to_nat _).
Qed.

(** The entry [nm] of [d] goes, while the inode it named is in use. *)
Lemma core_del s d n i v nm :
  core s → inodes s !! d = Some n → is_dir n = true → inodes s !! i = Some v → d ≠ i → find_entry (entries n) nm = Some i → links s i < refcount v →
  let s' := put_in (put_in s i (set_count (refcount v - 1) v)) d (set_entries (del_entry nm (entries n)) (isize n - 1) n) in
  remove_entry s d nm i = Some s' ∧ core s' ∧ ∀ j, links s' j = links s j - if j =? i then 1 else 0.
Proof.
  intros H Hd Hdir Hi Hne Hf Hr s'. assert (0 < links s i) as Hpos by (exact (links_in s d n (nm, i) Hd (find_entry_in _ _ _ Hf))). split.
  { unfold remove_entry. rewrite (upd_put s d n) by done. set (s1 := put_in s d _). assert (inodes s1 !! i = Some v) as Hi1 by (unfold s1; rewrite put_in_lookup; by rewrite decide_False). rewrite (put_held s1 i v) by (done || lia). cbn [mbind option_bind].
    assert (inodes (put_in s1 i (set_count (refcount v - 1) v)) !! d = Some (set_entries (del_entry nm (entries n)) (isize n) n)) as E by (rewrite put_in_lookup, decide_False by done; unfold s1; rewrite put_in_lookup; by rewrite decide_True).
    rewrite E. cbn [mbind option_bind]. rewrite (upd_put _ d _ _ E). f_equal. apply tfs_eq; try done. intros j. unfold s', s1. rewrite !put_in_lookup. by repeat case_decide. }
  assert (inodes (put_in s i (set_count (refcount v - 1) v)) !! d = Some n) as Hd' by (rewrite put_in_lookup; by rewrite decide_False).
  assert (∀ j, links s' j = links s j - if j =? i then 1 else 0) as Hlk.
  { intros j. unfold s'. rewrite (put_in_links _ d n), (put_in_links s i v) by done. cbn [entries set_entries set_count]. rewrite (del_entry_cnt _ _ i) by done. lia. }
  split; [|done]. destruct H as [H1 H2 H3 H4 H5 H6 H7]. pose proof (H3 d n Hd) as [N1 N2 N3 N4 N5].
  assert (∀ j, inodes s' !! j = if decide (j = d) then Some (set_entries (del_entry nm (entries n)) (isize n - 1) n) else if decide (j = i) then Some (set_count (refcount v - 1) v) else inodes s !! j) as Hlook by (intros j; unfold s'; by rewrite !put_in_lookup).
  split; try done.
  - intros j x. rewrite Hlook. repeat case_decide; intros E; subst; eauto.
  - intros j x. rewrite Hlook. repeat case_decide; intros E; subst; [injection E as <-|injection E as <-; by apply (node_ok_ext v); [..|eapply H3]|eauto].
    split; cbn [pages entries isize set_entries]; [done|intros E; change (is_dir n = false) in E; congruence|by apply del_entry_nodup| |].
    + intros _. rewrite (del_entry_length _ _ i), N4 by done. done.
    + intros E. change (is_reg n = true) in E. unfold is_reg, is_dir in *. apply Z.eqb_eq in E, Hdir. congruence.
  - intros j x e Hj He. rewrite Hlook. repeat case_decide; try done. rewrite Hlook in Hj. repeat case_decide; [injection Hj as <-; cbn in He; apply del_entry_sub in He; eauto|injection Hj as <-; eauto|eauto].
  - intros j x Hj. rewrite Hlk. rewrite Hlook in Hj. repeat case_decide; [injection Hj as <-|injection Hj as <-|]; subst; cbn [refcount set_count set_entries].
    + apply Z.eqb_neq in Hne as ->. destruct (H5 _ _ Hd). lia.
    + rewrite Z.eqb_refl. lia.
    + assert ((j =? i) = false) as -> by (by apply Z.eqb_neq). destruct (H5 _ _ Hj). lia.
  - unfold s'. cbn [used_pages put_in set_inodes inodes]. rewrite (tally_insert _ d n) by exact Hd'. rewrite (tally_insert _ i v) by done. cbn [pages set_entries set_count]. lia.
Qed.

(** ** Link counts *)

Definition dirp (s : tfs) (i : Z) : bool := match inodes s !! i with Some n => is_dir n | None => false end.
Definition subs (s : tfs) (l : list (name * Z)) : Z := Z.of_nat (length (List.filter (λ e, dirp s e.2) l)).

Lemma subs_cons s e l : subs s (e :: l) = (if dirp s e.2 then 1 else 0) + subs s l.
Proof. unfold subs. cbn. destruct (dirp s e.2); cbn [length]; lia. Qed.
Lemma subs_app s l m : subs s (l ++ m) = subs s l + subs s m.
Proof. unfold subs. rewrite List.filter_app, length_app. lia. Qed.
Lemma subs_del s l nm i : find_entry l nm = Some i → subs s (del_entry nm l) = subs s l - if dirp s i then 1 else 0.
Proof.
  induction l as [|e l IH]; [done|]. rewrite find_entry_cons. cbn [del_entry]. rewrite subs_cons. destruct (bool_decide _); [intros [= ->]; lia|]. intros H. rewrite subs_cons, IH by done. lia.
Qed.
Lemma subs_ext s s' l : (∀ e, e ∈ l → dirp s' e.2 = dirp s e.2) → subs s' l = subs s l.
Proof. induction l as [|e l IH]; intros H; [done|]. rewrite !subs_cons, IH by (intros x Hx; apply H; by right). by rewrite (H e) by left. Qed.

(** A link count is what the entries make it: for a directory that is in the tree
    2 and one for every directory in it; one that was removed is empty. *)
Record fs_ok (s : tfs) (root : Z) : Prop := {
  fk_core : core s;
  fk_root : dirp s root = true ∧ links s root = 0;
  fk_file i n : inodes s !! i = Some n → is_dir n = false → nlink n = links s i;
  fk_dir i n : inodes s !! i = Some n → is_dir n = true →
    links s i ≤ 1 ∧ (i = root ∨ links s i = 1 → nlink n = 2 + subs s (entries n)) ∧ (i ≠ root → links s i = 0 → nlink n = 0 ∧ entries n = []);
  fk_parent d n e c : inodes s !! d = Some n → e ∈ entries n → inodes s !! e.2 = Some c → is_dir c = true → parent c = Some d;
}.

(** The same but for the counts of some inodes. *)
Record fs_but (s : tfs) (root : Z) (l : list Z) : Prop := {
  fb_core : core s;
  fb_root : dirp s root = true ∧ links s root = 0;
  fb_file i n : i ∉ l → inodes s !! i = Some n → is_dir n = false → nlink n = links s i;
  fb_dir i n : i ∉ l → inodes s !! i = Some n → is_dir n = true →
    links s i ≤ 1 ∧ (i = root ∨ links s i = 1 → nlink n = 2 + subs s (entries n)) ∧ (i ≠ root → links s i = 0 → nlink n = 0 ∧ entries n = []);
  fb_parent d n e c : inodes s !! d = Some n → e ∈ entries n → inodes s !! e.2 = Some c → is_dir c = true → parent c = Some d;
}.
Lemma fs_ok_but s root l : fs_ok s root → fs_but s root l.
Proof. intros []. split; auto. Qed.

(** Between two states the inodes in [l] may change, the others keep their links,
    and what is a directory stays one. *)
Record change (s s' : tfs) (l : list Z) : Prop := {
  ch_core : core s';
  ch_look j : j ∉ l → inodes s' !! j = inodes s !! j;
  ch_links j : j ∉ l → links s' j = links s j;
  ch_dirp j : inodes s !! j ≠ None → dirp s' j = dirp s j;
}.

Lemma subs_change s s' l d n : change s s' l → core s → inodes s !! d = Some n → subs s' (entries n) = subs s (entries n).
Proof. intros [_ _ _ H] Hc Hd. apply subs_ext. intros e He. apply H. destruct (co_child _ Hc d n e Hd He) as [x ->]. done. Qed.

(** The conditions need to be shown for the inodes in [l] only. *)
Lemma fs_ok_change s s' root l :
  fs_but s root l → change s s' l → links s' root = 0 →
  (∀ i n, i ∈ l → inodes s' !! i = Some n → is_dir n = false → nlink n = links s' i) →
  (∀ i n, i ∈ l → inodes s' !! i = Some n → is_dir n = true →
     links s' i ≤ 1 ∧ (i = root ∨ links s' i = 1 → nlink n = 2 + subs s' (entries n)) ∧ (i ≠ root → links s' i = 0 → nlink n = 0 ∧ entries n = [])) →
  (∀ d n e c, inodes s' !! d = Some n → e ∈ entries n → inodes s' !! e.2 = Some c → is_dir c = true → d ∈ l ∨ e.2 ∈ l → parent c = Some d) →
  fs_ok s' root.
Proof.
  intros [H1 [H2 H2'] H3 H4 H5] Hch Hr Hf Hd Hp. pose proof Hch as [C1 C2 C3 C4]. split; [done| | | |].
  - split; [|done]. rewrite C4; [done|]. unfold dirp in H2. by destruct (inodes s !! root).
  - intros i n Hi Hdir. destruct (decide (i ∈ l)) as [Hl|Hl]; [by apply Hf|]. rewrite C3 by done. rewrite C2 in Hi by done. by apply H3.
  - intros i n Hi Hdir. destruct (decide (i ∈ l)) as [Hl|Hl]; [by apply Hd|]. rewrite C3 by done. rewrite C2 in Hi by done. rewrite (subs_change s s' l i n) by done. by apply H4.
  - intros d n e c Hdn He Hc Hdir. destruct (decide (d ∈ l)) as [Hl|Hl]; [apply (Hp d n e c); auto|]. destruct (decide (e.2 ∈ l)) as [Hl'|Hl']; [apply (Hp d n e c); auto|]. rewrite C2 in Hdn by done. rewrite C2 in Hc by done. by apply (H5 d n e).
Qed.

(** No entry, parent or directory is new. *)
Definition shrinks (s s' : tfs) : Prop :=
  ∀ j c, inodes s' !! j = Some c → ∃ c0, inodes s !! j = Some c0 ∧ is_dir c0 = is_dir c ∧ parent c0 = parent c ∧ entries c ⊆ entries c0.
Lemma shrinks_parent s s' root d n e c : fs_ok s root → shrinks s s' → inodes s' !! d = Some n → e ∈ entries n → inodes s' !! e.2 = Some c → is_dir c = true → parent c = Some d.
Proof.
  intros Hok Hs Hd He Hc Hdir. destruct (Hs d n Hd) as (n0 & Hn0 & _ & _ & Hsub). destruct (Hs e.2 c Hc) as (c0 & Hc0 & E1 & <- & _). apply (fk_parent _ _ Hok d n0 e c0); [done|by apply Hsub|done|congruence].
Qed.

(** ** Removing entries *)

(** What a name stands for in a directory. *)
Definition look (s : tfs) (d : Z) (nm : name) : option Z := inodes s !! d ≫= λ n, find_entry (entries n) nm.

Lemma entry_dir s d n nm i : core s → inodes s !! d = Some n → find_entry (entries n) nm = Some i → is_dir n = true.
Proof. intros H Hd Hf. destruct (is_dir n) eqn:E; [done|]. rewrite (no_entries _ (co_node _ H d n Hd) E) in Hf. done. Qed.
Lemma dir_not_reg n : is_dir n = true → is_reg n = false.
Proof. unfold is_dir, is_reg. intros E%Z.eqb_eq. rewrite E. done. Qed.

(** An inode in use by a caller. *)
Definition in_use (s : tfs) (i : Z) : Prop := ∃ v, inodes s !! i = Some v ∧ links s i < refcount v.

(** The entry [nm] of [d] goes for good; a directory it names must be empty. *)
Definition off_victim (v : inode) : inode := set_nlink (if is_dir v then 0 else nlink v - 1) v.
Definition off_dir (v n : inode) : inode := if is_dir v then set_nlink (nlink n - 1) n else n.

Lemma drop_ok s root d n nm i v :
  fs_ok s root → inodes s !! d = Some n → find_entry (entries n) nm = Some i → inodes s !! i = Some v → (is_dir v = true → entries v = []) → links s i < refcount v →
  d ≠ i ∧ ∃ s', remove_entry (put_in (put_in s i (off_victim v)) d (off_dir v n)) d nm i = Some s' ∧ fs_ok s' root ∧ change s s' [d; i] ∧ shrinks s s' ∧
    inodes s' !! i = Some (set_count (refcount v - 1) (off_victim v)) ∧ inodes s' !! d = Some (set_entries (del_entry nm (entries n)) (isize n - 1) (off_dir v n)) ∧
    ∀ j, links s' j = links s j - if j =? i then 1 else 0.
Proof.
  intros Hok Hd Hf Hi Hv Hr. pose proof Hok as [Hc [Hr1 Hr2] Hfile Hdir Hpar]. pose proof (entry_dir s d n nm i Hc Hd Hf) as Hdn. assert (d ≠ i) as Hne by (intros ->; assert (n = v) as -> by congruence; rewrite Hv in Hf; done). split; [done|].
  set (v0 := off_victim v). set (n0 := off_dir v n). assert (entries n0 = entries n ∧ pages n0 = pages n ∧ mode n0 = mode n ∧ refcount n0 = refcount n ∧ isize n0 = isize n ∧ blocks n0 = blocks n ∧ parent n0 = parent n) as (N1 & N2 & N3 & N4 & N5 & N6 & N7) by (unfold n0, off_dir; by destruct (is_dir v)).
  assert (is_dir n0 = true) as Hdn0 by (unfold is_dir; by rewrite N3).
  destruct (core_attr s i v v0 Hc Hi) as [Hc0 Hl0]; [by apply (node_ok_ext v); [..|eapply co_node]|done|done|done|]. set (s0 := put_in s i v0) in *. assert (inodes s0 !! d = Some n) as Hd0 by (unfold s0; rewrite put_in_lookup; by rewrite decide_False).
  destruct (core_attr s0 d n n0 Hc0 Hd0) as [Hc1 Hl1]; [by apply (node_ok_ext n); [..|eapply co_node]|done..|]. set (s1 := put_in s0 d n0) in *.
  assert (inodes s1 !! d = Some n0) as Hd1 by (unfold s1; rewrite put_in_lookup; by rewrite decide_True). assert (inodes s1 !! i = Some v0) as Hi1 by (unfold s1, s0; rewrite !put_in_lookup; by rewrite decide_False, decide_True).
  destruct (core_del s1 d n0 i v0 nm Hc1 Hd1 Hdn0 Hi1 Hne ltac:(by rewrite N1) ltac:(by rewrite Hl1, Hl0)) as (E & Hc2 & Hl2). cbn zeta in Hc2, Hl2, E. rewrite N1, N5 in E, Hc2, Hl2. set (s' := put_in (put_in s1 _ _) _ _) in *. exists s'. split; [done|].
  assert (∀ j, inodes s' !! j = if decide (j = d) then Some (set_entries (del_entry nm (entries n)) (isize n - 1) n0) else if decide (j = i) then Some (set_count (refcount v - 1) v0) else inodes s !! j) as Hlook by (intros j; unfold s', s1, s0; rewrite !put_in_lookup; by repeat case_decide).
  assert (∀ j, links s' j = links s j - if j =? i then 1 else 0) as Hl by (intros j; by rewrite Hl2, Hl1, Hl0).
  assert (change s s' [d; i]) as Hch.
  { split; [done|intros j [Ha Hb]%nel2; rewrite Hlook; by rewrite !decide_False| |].
    - intros j [_ Hj%Z.eqb_neq]%nel2. rewrite Hl, Hj. lia.
    - intros j Hj. unfold dirp. rewrite Hlook. repeat case_decide; subst; [rewrite Hd; unfold is_dir; cbn; by rewrite N3|by rewrite Hi|done]. }
  assert (shrinks s s') as Hsh by (intros j y Hy; rewrite Hlook in Hy; repeat case_decide; subst; [injection Hy as <-; exists n; split_and!; try done; [unfold is_dir; cbn; by rewrite N3|apply del_entry_sub]|injection Hy as <-; by exists v|by exists y]).
  split; [|split_and!; try done; rewrite Hlook; [by rewrite decide_False, decide_True|by rewrite decide_True]].
  assert (0 < links s i) as Hpos by (exact (links_in s d n (nm, i) Hd (find_entry_in _ _ _ Hf))). assert (links s' d = links s d) as Hld by (rewrite Hl; apply Z.eqb_neq in Hne as ->; lia).
  apply (fs_ok_change s s' root [d; i]); try done; [by apply fs_ok_but|..].
  - rewrite Hl. destruct (Z.eqb_spec root i) as [->|]; lia.
  - intros j x Hj Hx Hdx. rewrite Hlook in Hx. repeat case_decide; [injection Hx as <-; change (is_dir n0 = false) in Hdx; congruence| |by apply el2 in Hj as []]. injection Hx as <-. subst j. rewrite Hl, Z.eqb_refl. change (is_dir v = false) in Hdx. cbn [nlink set_count v0 off_victim set_nlink]. rewrite Hdx, (Hfile i v) by done. done.
  - intros j x Hj Hx Hdx. rewrite Hlook in Hx. repeat case_decide; [| |by apply el2 in Hj as []]; injection Hx as <-; subst j.
    + rewrite Hld. cbn [nlink entries set_entries]. destruct (Hdir d n Hd Hdn) as (D1 & D2 & D3). split; [done|]. split; [intros Hlive; rewrite (subs_del _ _ _ i) by done|].
      * assert (dirp s' i = is_dir v) as -> by (rewrite (ch_dirp _ _ _ Hch) by (by rewrite Hi); unfold dirp; by rewrite Hi). rewrite (subs_change s s' [d; i] d n) by done. specialize (D2 Hlive). unfold n0, off_dir. destruct (is_dir v); cbn [nlink set_nlink]; lia.
      * intros Hnr Hz. destruct (D3 Hnr Hz) as [_ En]. rewrite En in Hf. done.
    + change (is_dir v = true) in Hdx. destruct (Hdir i v Hi Hdx) as (D1 & _). rewrite Hl, Z.eqb_refl. split; [lia|]. split; [intros [->|]; lia|]. intros _ _. cbn [nlink entries set_count v0 off_victim set_nlink]. rewrite Hdx. auto.
  - intros d' x e c Hx He Hce Hdc _. by apply (shrinks_parent s s' root d' x e c).
Qed.

(** ** Adding entries *)

(** The inode [i] gets its entry in [d]: a file with a link count that says so
    already, or a new directory. *)
Definition on_victim (v : inode) (d : Z) : inode := set_count (refcount v + 1) (if is_dir v then set_parent (Some d) v else v).
Definition on_dir (v n : inode) (nm : name) (i : Z) : inode := set_entries (entries n ++ [(nm, i)]) (isize n + 1) (if is_dir v then set_nlink (nlink n + 1) n else n).

Lemma attach_ok s root d n nm i v :
  fs_but s root [i] → inodes s !! d = Some n → is_dir n = true → d = root ∨ links s d = 1 → inodes s !! i = Some v → d ≠ i → i ≠ root → find_entry (entries n) nm = None →
  Z.of_nat (length nm) ≤ NAME_MAX → (is_dir v = false → nlink v = links s i + 1) → (is_dir v = true → links s i = 0 ∧ entries v = [] ∧ nlink v = 2) →
  let s' := put_in (put_in s i (on_victim v d)) d (on_dir v n nm i) in fs_ok s' root ∧ change s s' [d; i] ∧ ∀ j, links s' j = links s j + if j =? i then 1 else 0.
Proof.
  intros Hok Hd Hdn Hlive Hi Hne Hir Hf Hlen Hv1 Hv2 s'. pose proof Hok as [Hc [Hr1 Hr2] Hfile Hdir Hpar].
  set (v0 := if is_dir v then set_parent (Some d) v else v). set (n0 := if is_dir v then set_nlink (nlink n + 1) n else n).
  assert (entries n0 = entries n ∧ pages n0 = pages n ∧ mode n0 = mode n ∧ refcount n0 = refcount n ∧ isize n0 = isize n ∧ blocks n0 = blocks n ∧ parent n0 = parent n) as (N1 & N2 & N3 & N4 & N5 & N6 & N7) by (unfold n0; by destruct (is_dir v)).
  assert (entries v0 = entries v ∧ pages v0 = pages v ∧ mode v0 = mode v ∧ refcount v0 = refcount v ∧ isize v0 = isize v ∧ blocks v0 = blocks v ∧ nlink v0 = nlink v) as (V1 & V2 & V3 & V4 & V5 & V6 & V7) by (unfold v0; by destruct (is_dir v)).
  assert (is_dir n0 = is_dir n ∧ is_dir v0 = is_dir v) as [Hdn0 Hdv0] by (unfold is_dir; by rewrite N3, V3).
  destruct (core_attr s i v v0 Hc Hi) as [Hc0 Hl0]; [by apply (node_ok_ext v); [..|eapply co_node]|done..|]. set (s0 := put_in s i v0) in *. assert (inodes s0 !! d = Some n) as Hd0 by (unfold s0; rewrite put_in_lookup; by rewrite decide_False).
  destruct (core_attr s0 d n n0 Hc0 Hd0) as [Hc1 Hl1]; [by apply (node_ok_ext n); [..|eapply co_node]|done..|]. set (s1 := put_in s0 d n0) in *.
  assert (inodes s1 !! d = Some n0) as Hd1 by (unfold s1; rewrite put_in_lookup; by rewrite decide_True). assert (inodes s1 !! i = Some v0) as Hi1 by (unfold s1, s0; rewrite !put_in_lookup; by rewrite decide_False, decide_True).
  destruct (core_add s1 d n0 i v0 nm (Mem true true true true true) Hc1 Hd1 ltac:(by rewrite Hdn0) Hi1 Hne ltac:(by rewrite N1) Hlen eq_refl eq_refl) as (_ & Hc2 & Hl2). cbn zeta in Hc2, Hl2. rewrite N1, N5, V4 in Hc2, Hl2.
  assert (∀ j, inodes s' !! j = if decide (j = d) then Some (on_dir v n nm i) else if decide (j = i) then Some (on_victim v d) else inodes s !! j) as Hlook by (intros j; unfold s'; by rewrite !put_in_lookup).
  assert (put_in (put_in s1 i (set_count (refcount v + 1) v0)) d (set_entries (entries n ++ [(nm, i)]) (isize n + 1) n0) = s') as Es.
  { apply tfs_eq; try done. intros j. rewrite Hlook. unfold s1, s0. rewrite !put_in_lookup. by repeat case_decide. }
  rewrite Es in Hc2, Hl2. assert (∀ j, links s' j = links s j + if j =? i then 1 else 0) as Hl by (intros j; by rewrite Hl2, Hl1, Hl0).
  assert (change s s' [d; i]) as Hch.
  { split; [done|intros j [Ha Hb]%nel2; rewrite Hlook; by rewrite !decide_False| |].
    - intros j [_ Hj%Z.eqb_neq]%nel2. rewrite Hl, Hj. lia.
    - intros j Hj. unfold dirp. rewrite Hlook. repeat case_decide; subst; [rewrite Hd; exact Hdn0|rewrite Hi; exact Hdv0|done]. }
  split; [|done]. assert (links s' d = links s d) as Hld by (rewrite Hl; apply Z.eqb_neq in Hne as ->; lia). apply (fs_ok_change s s' root [d; i]); try done.
  - split; try done; intros j x [_ Hj]%nel2; [apply Hfile|apply Hdir]; by apply nel1.
  - rewrite Hl. apply not_eq_sym, Z.eqb_neq in Hir as ->. lia.
  - intros j x Hj Hx Hdx. rewrite Hlook in Hx. repeat case_decide; [injection Hx as <-; change (is_dir n0 = false) in Hdx; congruence| |by apply el2 in Hj as []]. injection Hx as <-. subst j. rewrite Hl, Z.eqb_refl. change (nlink v0 = links s i + 1). rewrite V7. apply Hv1. change (is_dir v0 = false) in Hdx. congruence.
  - intros j x Hj Hx Hdx. rewrite Hlook in Hx. repeat case_decide; [| |by apply el2 in Hj as []]; injection Hx as <-; subst j.
    + rewrite Hld. change (entries (on_dir v n nm i)) with (entries n ++ [(nm, i)]). change (nlink (on_dir v n nm i)) with (nlink n0). destruct (Hdir d n ltac:(by apply nel1) Hd Hdn) as (D1 & D2 & D3). split; [done|]. split.
      * intros _. specialize (D2 Hlive). rewrite subs_app, subs_cons, (subs_change s s' [d; i] d n) by done. cbn [snd]. assert (dirp s' i = is_dir v) as -> by (rewrite (ch_dirp _ _ _ Hch) by (by rewrite Hi); unfold dirp; by rewrite Hi). change (subs s' []) with 0. unfold n0. destruct (is_dir v); cbn [nlink set_nlink]; lia.
      * intros Hnr Hz. destruct Hlive; [done|lia].
    + assert (is_dir v = true) as Hdv by (change (is_dir v0 = true) in Hdx; congruence). destruct (Hv2 Hdv) as (L1 & L2 & L3). rewrite Hl, Z.eqb_refl, L1. split; [lia|]. split; [intros _|lia]. change (nlink v0 = 2 + subs s' (entries v0)). rewrite V7, V1, L2, L3. done.
  - intros d' x e c Hx He Hce Hdc _. rewrite Hlook in Hx, Hce. destruct (decide (e.2 = i)) as [Ei|Ei].
    + rewrite decide_False in Hce by congruence. injection Hce as <-. assert (is_dir v = true) as Hdv by (change (is_dir v0 = true) in Hdc; congruence). change (parent v0 = Some d'). unfold v0. rewrite Hdv. cbn. f_equal.
      destruct (Hv2 Hdv) as (L1 & L2 & _). destruct (decide (d' = d)) as [|Hn]; [done|]. destruct (decide (d' = i)) as [->|Hn'].
      * injection Hx as <-. change (e ∈ entries v0) in He. rewrite V1, L2 in He. by apply not_elem_of_nil in He.
      * pose proof (links_in s d' x e Hx He). rewrite Ei in *. lia.
    + assert (∃ c0, inodes s !! e.2 = Some c0 ∧ is_dir c0 = true ∧ parent c0 = parent c) as (c0 & Hc0' & Hd0' & <-).
      { destruct (decide (e.2 = d)) as [Ed|Ed]; [injection Hce as <-; exists n; rewrite Ed; split_and!; [done|done|]; change (parent n = parent n0); by rewrite N7|]. by exists c. }
      destruct (decide (d' = d)) as [->|Hn]; [injection Hx as <-; change (e ∈ entries n ++ [(nm, i)]) in He; apply elem_of_app in He as [He|He%list_elem_of_singleton]; [by apply (Hpar d n e)|by subst e]|].
      destruct (decide (d' = i)) as [->|Hn']; [injection Hx as <-; change (e ∈ entries v0) in He; rewrite V1 in He; by apply (Hpar i v e)|by apply (Hpar d' x e)].
Qed.

(** ** References and new inodes *)

(** A change of the reference count that leaves room for the links. *)
Lemma count_ok s root i v k : fs_ok s root → inodes s !! i = Some v → links s i ≤ k → 1 ≤ k → fs_ok (put_in s i (set_count k v)) root ∧ ∀ j, links (put_in s i (set_count k v)) j = links s j.
Proof.
  intros Hok Hi Hk H1. assert (∀ j, links (put_in s i (set_count k v)) j = links s j) as Hl by (intros j; rewrite (put_in_links s i v) by done; cbn; lia). split; [|done].
  destruct Hok as [Hc [Hr1 Hr2] Hfile Hdir Hpar]. set (s' := put_in s i (set_count k v)) in *.
  assert (∀ j x, inodes s' !! j = Some x → ∃ y, inodes s !! j = Some y ∧ mode x = mode y ∧ nlink x = nlink y ∧ entries x = entries y ∧ parent x = parent y) as Hlook.
  { intros j x. unfold s'. rewrite put_in_lookup. case_decide; [intros [= <-]; subst; by exists v|intros Hx; by exists x]. }
  assert (∀ j, dirp s' j = dirp s j) as Hd by (intros j; unfold dirp, s'; rewrite put_in_lookup; case_decide; [subst; by rewrite Hi|done]).
  assert (core s') as Hc'.
  { destruct Hc as [H2 H3 H4 H5 H6 H7 H8]. split; try done.
    - intros j x Hj. destruct (Hlook j x Hj) as (y & Hy & _). eauto.
    - intros j x. unfold s'. rewrite put_in_lookup. case_decide; [intros [= <-]; subst; by apply (node_ok_ext v); [..|eapply H4]|apply H4].
    - intros d x e Hx He. destruct (Hlook d x Hx) as (y & Hy & _ & _ & E & _). rewrite E in He. unfold s'. rewrite put_in_lookup. case_decide; [done|eauto].
    - intros j x. rewrite Hl. unfold s'. rewrite put_in_lookup. case_decide; [intros [= <-]; subst; cbn; lia|apply H6].
    - unfold s'. cbn [used_pages put_in set_inodes inodes]. rewrite (tally_insert _ i v) by done. cbn. lia. }
  split; [done|by rewrite Hd, Hl| | |].
  - intros j x Hj. destruct (Hlook j x Hj) as (y & Hy & E1 & E2 & E3 & E4). unfold is_dir. rewrite E1, E2, Hl. by apply Hfile.
  - intros j x Hj. destruct (Hlook j x Hj) as (y & Hy & E1 & E2 & E3 & E4). unfold is_dir. rewrite E1, E2, E3, Hl, (subs_ext s s') by (intros; apply Hd). by apply Hdir.
  - intros d x e c Hx He Hce Hdc. destruct (Hlook d x Hx) as (y & Hy & _ & _ & E3 & _). destruct (Hlook e.2 c Hce) as (c0 & Hc0 & F1 & _ & _ & F4). rewrite F4. rewrite E3 in He. apply (Hpar d y e c0); try done. unfold is_dir in *. congruence.
Qed.

Lemma get_ok s root i v : fs_ok s root → inodes s !! i = Some v → inode_get s i = put_in s i (set_count (refcount v + 1) v) ∧ fs_ok (inode_get s i) root ∧ ∀ j, links (inode_get s i) j = links s j.
Proof.
  intros Hok Hi. assert (inode_get s i = put_in s i (set_count (refcount v + 1) v)) as E by (unfold inode_get; by rewrite (upd_put s i v)). destruct (co_refs _ (fk_core _ _ Hok) i v Hi). rewrite E. split; [done|]. apply count_ok; [done|done|lia|lia].
Qed.

Definition freed (s : tfs) (i : Z) (v : inode) : tfs := Tfs (delete i (inodes s)) (next_ino s) (max_pages s) (used_pages s - held (pages v)).

Lemma put_last s i v : core s → inodes s !! i = Some v → refcount v ≤ 1 → entries v = [] → inode_put s i = Some (freed s i v).
Proof.
  intros Hc Hi Hr He. unfold inode_put, put_fuel. cbn [put_all]. rewrite Hi. cbn [mbind option_bind]. destruct (Z.ltb_spec 0 (refcount v - 1)); [lia|]. rewrite He. cbn [fmap list_fmap]. replace (if is_dir v then [] else []) with (@nil Z) by (by destruct (is_dir v)). cbn [app].
  assert (∀ k s, put_all k s [] = Some s) as Hnil by (by intros []). rewrite Hnil. f_equal. unfold freed, set_inodes. destruct (is_reg v) eqn:Er; cbn [used_pages set_used inodes next_ino max_pages].
  - unfold set_used. cbn. f_equal. rewrite sub64_small; [done|]. pose proof (co_used _ Hc) as Hu. destruct (co_quota _ Hc). pose proof (tally_le (inodes s) (λ n, held (pages n)) i v ltac:(intros; apply held_pos) Hi). pose proof (held_pos (pages v)). cbn in *. lia.
  - rewrite (no_pages _ (co_node _ Hc i v Hi) Er). change (held []) with 0. by rewrite Z.sub_0_r.
Qed.

Lemma free_ok s root i v :
  fs_but s root [i] → inodes s !! i = Some v → i ≠ root → links s i = 0 → entries v = [] → fs_ok (freed s i v) root ∧ ∀ j, links (freed s i v) j = links s j.
Proof.
  intros [Hc [Hr1 Hr2] Hfile Hdir Hpar] Hi Hne Hz He. set (s' := freed s i v). assert (∀ j, links s' j = links s j) as Hl.
  { intros j. unfold links. rewrite (tally_delete (inodes s) i v) by done. rewrite He. unfold s'. cbn. change (occ j []) with 0. lia. }
  assert (∀ j x, inodes s' !! j = Some x → j ≠ i ∧ inodes s !! j = Some x) as Hlook by (intros j x Hx; change (delete i (inodes s) !! j = Some x) in Hx; apply lookup_delete_Some in Hx as [? ?]; done).
  assert (∀ d x e, inodes s !! d = Some x → e ∈ entries x → e.2 ≠ i) as Hnot by (intros d x e Hx Hin E; pose proof (links_in s d x e Hx Hin); rewrite E in *; lia).
  assert (∀ j, j ≠ i → dirp s' j = dirp s j) as Hd by (intros j Hj; unfold dirp, s'; cbn; by rewrite lookup_delete_ne).
  split; [|done]. split.
  - destruct Hc as [H2 H3 H4 H5 H6 H7 H8]. split; try done.
    + intros j x [_ Hx]%Hlook. eauto.
    + intros j x [_ Hx]%Hlook. eauto.
    + intros d x e [_ Hx]%Hlook Hin. unfold s'. cbn. rewrite lookup_delete_ne by (by apply not_eq_sym, (Hnot d x)). eauto.
    + intros j x [_ Hx]%Hlook. rewrite Hl. by apply H6.
    + unfold s'. cbn. rewrite H7, (tally_delete _ i v) by done. cbn. lia.
    + unfold s'. cbn. pose proof (held_pos (pages v)). lia.
  - rewrite Hl, Hd by done. done.
  - intros j x [Hj Hx]%Hlook Hdx. rewrite Hl. apply Hfile; [by apply nel1|done..].
  - intros j x [Hj Hx]%Hlook Hdx. rewrite Hl, (subs_ext s s') by (intros e Hin; apply Hd; by apply (Hnot j x)). apply Hdir; [by apply nel1|done..].
  - intros d x e c [_ Hx]%Hlook Hin [_ Hce]%Hlook Hdc. by apply (Hpar d x e).
Qed.

(** The caller gives its reference to an inode back. *)
Lemma put_ok s root i v :
  fs_ok s root → inodes s !! i = Some v → links s i < refcount v → (i = root → 1 < refcount v) →
  ∃ s', inode_put s i = Some s' ∧ fs_ok s' root ∧ (∀ j, links s' j = links s j) ∧ if 1 <? refcount v then s' = put_in s i (set_count (refcount v - 1) v) else s' = freed s i v ∧ links s i = 0 ∧ nlink v = 0.
Proof.
  intros Hok Hi Hl Hroot. pose proof Hok as [Hc [_ Hr2] Hfile Hdir _]. destruct (co_refs _ Hc i v Hi) as [R1 R2]. pose proof (links_nonneg s i). destruct (Z.ltb_spec 1 (refcount v)) as [Hgt|Hle].
  - eexists. split; [by apply put_held|]. destruct (count_ok s root i v (refcount v - 1) Hok Hi ltac:(lia) ltac:(lia)). done.
  - assert (i ≠ root) as Hne by (intros E; specialize (Hroot E); lia). assert (links s i = 0) as Hz by lia.
    assert (entries v = [] ∧ nlink v = 0) as [He Hn]. { destruct (is_dir v) eqn:E; [destruct (Hdir i v Hi E) as (_ & _ & D); destruct (D Hne Hz); done|]. split; [exact (no_entries _ (co_node _ Hc i v Hi) E)|]. by rewrite (Hfile i v Hi E). }
    eexists. split; [by apply put_last|]. destruct (free_ok s root i v (fs_ok_but _ _ _ Hok) Hi Hne Hz He). done.
Qed.

(** A new inode, not yet in the tree. *)
Lemma new_ok s root i v :
  fs_ok s root → i = next_ino s + 1 → node_ok v → entries v = [] → pages v = [] → refcount v = 1 →
  let s1 := Tfs (<[i := v]> (inodes s)) i (max_pages s) (used_pages s) in
  inodes s !! i = None ∧ fs_but s1 root [i] ∧ (∀ j, links s1 j = links s j) ∧ links s1 i = 0 ∧ i ≠ root ∧ (∀ j, inodes s !! j ≠ None → dirp s1 j = dirp s j).
Proof.
  intros [Hc [Hr1 Hr2] Hfile Hdir Hpar] Hi Hv He Hp Hr s1. pose proof (co_next _ Hc) as Hn0. assert (inodes s !! i = None) as Hnone. { destruct (inodes s !! i) as [x|] eqn:E; [|done]. pose proof (co_ino _ Hc i x E). lia. }
  assert (∀ j, links s1 j = links s j) as Hl by (intros j; unfold links, s1; cbn; rewrite tally_new by done; rewrite He; change (occ j []) with 0; lia).
  assert (∀ j, inodes s !! j ≠ None → dirp s1 j = dirp s j) as Hd by (intros j Hj; unfold dirp, s1; cbn; by rewrite lookup_insert_ne by congruence).
  assert (i ≠ root) as Hir by (intros ->; unfold dirp in Hr1; by rewrite Hnone in Hr1).
  assert (∀ j x, inodes s1 !! j = Some x → j = i ∧ x = v ∨ j ≠ i ∧ inodes s !! j = Some x) as Hlook by (intros j x Hx; change (<[i := v]> (inodes s) !! j = Some x) in Hx; apply lookup_insert_Some in Hx as [[<- <-]|[? ?]]; auto).
  split; [done|]. split; [|split_and!; try done; rewrite Hl; by apply links_absent]. split.
  - destruct Hc as [H2 H3 H4 H5 H6 H7 H8]. assert (core s) as Hc by (by split). split; cbn [next_ino s1].
    + intros j x [[-> ->]|[_ Hx]]%Hlook; [lia|]. specialize (H2 j x Hx). lia.
    + lia.
    + intros j x [[-> ->]|[_ Hx]]%Hlook; eauto.
    + intros d x e [[-> ->]|[_ Hx]]%Hlook Hin; [rewrite He in Hin; by apply not_elem_of_nil in Hin|]. cbn. destruct (H5 d x e Hx Hin) as [y Hy]. rewrite lookup_insert_ne by congruence. by exists y.
    + intros j x [[-> ->]|[_ Hx]]%Hlook; rewrite Hl; [rewrite Hr, links_absent by done; lia|by apply H6].
    + cbn. rewrite tally_new, Hp by done. exact H7.
    + done.
  - rewrite Hl, Hd; [done|]. unfold dirp in Hr1. by destruct (inodes s !! root).
  - intros j x Hj%nel1 [[-> ->]|[_ Hx]]%Hlook Hdx; [done|]. rewrite Hl. by apply Hfile.
  - intros j x Hj%nel1 [[-> ->]|[_ Hx]]%Hlook Hdx; [done|]. rewrite Hl, (subs_ext s s1); [by apply Hdir|]. intros e Hin. apply Hd. destruct (co_child _ Hc j x e Hx Hin) as [y ->]. done.
  - intros d x e c [[-> ->]|[_ Hx]]%Hlook Hin Hce Hdc; [rewrite He in Hin; by apply not_elem_of_nil in Hin|]. apply Hlook in Hce as [[E ->]|[_ Hce]]; [|by apply (Hpar d x e)]. destruct (co_child _ Hc d x e Hx Hin) as [y Hy]. congruence.
Qed.
