(* ===== verification/TmpfsInv.v ===== *)
(** * Operations of the RAM file system

    What every operation on directories does, when it is called the way the
    virtual file system calls it; the invariant of all reachable states. *)

From S2P Require Import Prelude Tmpfs TmpfsData TmpfsDir.

(** ** Making entries *)

Definition bumped (s : tfs) : tfs := Tfs (inodes s) (next_ino s + 1) (max_pages s) (used_pages s).
Lemma bumped_ok s root : fs_ok s root → fs_ok (bumped s) root.
Proof. intros [[H1 H2 H3 H4 H5 H6 H7] Hr Hf Hd Hp]. split; try done. split; try done; [|cbn; lia]. intros i n Hi. specialize (H1 i n Hi). cbn. lia. Qed.

(** The inode that a call makes. *)
Definition fresh (md dev u g : Z) : inode := Inode md (if Z.land md S_IFMT =? S_IFDIR then 2 else 1) u g 0 dev 0 1 [] None [] None.
Lemma fresh_ok md dev u g nl : node_ok (Inode md nl u g 0 dev 0 1 [] None [] None).
Proof. split; [done|done|apply NoDup_nil_2|done|]. intros _. split; [done| |done]. intros o _. unfold byte, page_at. cbn. by rewrite lookup_nil. Qed.

Definition with_fresh (s : tfs) (v : inode) : tfs := Tfs (<[next_ino s + 1 := v]> (inodes s)) (next_ino s + 1) (max_pages s) (used_pages s).

Lemma new_inode_spec s root md dev u g a : fs_ok s root →
  tmpfs_new_inode s md dev u g a = Some (if negb (m_inode a) then (s, None) else if negb (m_node a) then (bumped s, None) else (with_fresh s (fresh md dev u g), Some (next_ino s + 1))).
Proof.
  intros Hok. unfold tmpfs_new_inode. destruct (m_inode a); cbn [negb]; [|done]. unfold new_inode. cbn zeta. set (i := next_ino s + 1). set (v := Inode md 1 u g 0 0 0 1 [] None [] None).
  destruct (new_ok s root i v Hok eq_refl (fresh_ok _ _ _ _ _) eq_refl eq_refl eq_refl) as (Hnone & Hb & _). cbn zeta in Hb. set (s1 := Tfs (<[i := v]> (inodes s)) i (max_pages s) (used_pages s)) in *. assert (inodes s1 !! i = Some v) as Hi by apply lookup_insert_eq.
  destruct (m_node a); cbn [negb].
  - rewrite (upd_put s1 i v) by done. rewrite (upd_put _ i (Inode md 1 u g 0 dev 0 1 [] None [] None)) by (rewrite put_in_lookup; by rewrite decide_True). do 2 f_equal. apply tfs_eq; try done. intros j. unfold with_fresh, s1. rewrite !put_in_lookup. cbn [inodes]. fold i. destruct (decide (j = i)) as [->|Hj]; [|by rewrite !lookup_insert_ne].
    rewrite lookup_insert_eq. unfold fresh, is_dir. cbn. by destruct (_ =? S_IFDIR).
  - rewrite (put_last s1 i v (fb_core _ _ _ Hb) Hi ltac:(cbn; lia) eq_refl). cbn [mbind option_bind]. do 2 f_equal. apply tfs_eq; try done; [|apply Z.sub_0_r]. intros j. cbn. destruct (decide (j = i)) as [->|Hj]; [by rewrite lookup_delete_eq, Hnone|by rewrite lookup_delete_ne, lookup_insert_ne].
Qed.

(** Why a call that makes an entry fails, if it does. *)
Definition entry_error (nm : name) (a : mem) : option Z :=
  if NAME_MAX <? Z.of_nat (length nm) then Some (- ENAMETOOLONG) else if m_entry a && m_name a then None else Some (- ENOMEM).
Definition create_error (n : inode) (nm : name) (a : mem) : option Z :=
  if bool_decide (is_Some (find_entry (entries n) nm)) then Some (- EEXIST) else if m_inode a && m_node a then entry_error nm a else Some (- ENOMEM).

Lemma add_entry_error s d nm i a e : entry_error nm a = Some e → add_entry s d nm i a = (s, e) ∧ e < 0.
Proof. unfold entry_error, add_entry. destruct (NAME_MAX <? _); [intros [= <-]; done|]. destruct (m_entry a), (m_name a); cbn; try done; intros [= <-]; done. Qed.

Lemma create_spec s root d n nm md dev u g a :
  fs_ok s root → inodes s !! d = Some n → is_dir n = true →
  let i := next_ino s + 1 in let v := fresh md dev u g in
  ∃ s' r, tmpfs_create s d nm md dev u g a = Some (s', r) ∧
    match create_error n nm a with
    | Some e => r = inl e ∧ e < 0 ∧ (s' = s ∨ s' = bumped s)
    | None => r = inr i ∧ s' = put_in (put_in (with_fresh s v) i (set_count 2 v)) d (set_entries (entries n ++ [(nm, i)]) (isize n + 1) n) ∧ find_entry (entries n) nm = None ∧ Z.of_nat (length nm) ≤ NAME_MAX
    end.
Proof.
  intros Hok Hd Hdn i v. unfold tmpfs_create, create_error. rewrite Hd. cbn [mbind option_bind]. destruct (bool_decide_reflect (is_Some (find_entry (entries n) nm))) as [Hs|Hs]; [eexists _, _; split_and!; [done..|by left]|].
  rewrite (new_inode_spec s root) by done. cbn [mbind option_bind]. destruct (m_inode a) eqn:Ma; cbn [negb andb]; [|eexists _, _; split_and!; [done..|by left]]. destruct (m_node a) eqn:Mn; cbn [negb]; [|eexists _, _; split_and!; [done..|by right]]. fold i v. set (s1 := with_fresh s v).
  destruct (new_ok s root i v Hok eq_refl (fresh_ok _ _ _ _ _) eq_refl eq_refl eq_refl) as (Hnone & Hb & _). cbn zeta in Hb. change (fs_but s1 root [i]) in Hb. assert (inodes s1 !! i = Some v) as Hi by apply lookup_insert_eq. assert (d ≠ i) as Hne by congruence. assert (inodes s1 !! d = Some n) as Hd1 by (unfold s1; cbn; by rewrite lookup_insert_ne).
  assert (find_entry (entries n) nm = None) as Hf by (destruct (find_entry _ _); [by destruct Hs|done]). destruct (entry_error nm a) as [e|] eqn:Ee.
  - destruct (add_entry_error s1 d nm i a e Ee) as [-> Hneg]. destruct (Z.eqb_spec e 0); [lia|]. rewrite (upd_put s1 i v) by done. set (s2 := put_in s1 i (set_nlink 0 v)). assert (inodes s2 !! i = Some (set_nlink 0 v)) as Hi2 by (unfold s2; rewrite put_in_lookup; by rewrite decide_True).
    destruct (core_attr s1 i v (set_nlink 0 v) (fb_core _ _ _ Hb) Hi (fresh_ok _ _ _ _ _) eq_refl eq_refl eq_refl) as [Hc2 _]. rewrite (put_last s2 i _ Hc2 Hi2 ltac:(cbn; lia) eq_refl). cbn [mbind option_bind]. eexists _, _. split; [done|]. split; [done|]. split; [done|]. right.
    apply tfs_eq; try done; [|apply Z.sub_0_r]. intros j. cbn. fold i. destruct (decide (j = i)) as [->|Hj]; [by rewrite lookup_delete_eq, Hnone|by rewrite lookup_delete_ne, !lookup_insert_ne].
  - assert (Z.of_nat (length nm) ≤ NAME_MAX ∧ m_entry a = true ∧ m_name a = true) as (Hlen & Me & Mm). { unfold entry_error in Ee. destruct (Z.ltb_spec NAME_MAX (Z.of_nat (length nm))); [done|]. by destruct (m_entry a), (m_name a). }
    destruct (core_add s1 d n i v nm a (fb_core _ _ _ Hb) Hd1 Hdn Hi Hne Hf Hlen Me Mm) as [-> _]. eexists _, _. split; [done|]. done.
Qed.

Lemma look_put s i x d nm : look (put_in s i x) d nm = if decide (d = i) then find_entry (entries x) nm else look s d nm.
Proof. unfold look. rewrite put_in_lookup. by case_decide. Qed.
Lemma look_eq s d n nm : inodes s !! d = Some n → look s d nm = find_entry (entries n) nm.
Proof. intros Hd. unfold look. by rewrite Hd. Qed.

(** Of all names only [nm] of [d] means something else now. *)
Definition renames (s s' : tfs) (f : Z → name → option (option Z)) : Prop := ∀ d x, look s' d x = match f d x with Some r => r | None => look s d x end.
Definition at_name (d : Z) (nm : name) (r : option Z) (d' : Z) (x : name) : option (option Z) := if bool_decide (d' = d ∧ x = nm) then Some r else None.

(** A directory in the tree. *)
Definition live_dir (s : tfs) (root d : Z) (n : inode) : Prop := inodes s !! d = Some n ∧ is_dir n = true ∧ (d = root ∨ links s d = 1).

Lemma look_add s d n nm i s' : inodes s !! d = Some n → find_entry (entries n) nm = None →
  (∀ d' x, look s' d' x = if decide (d' = d) then find_entry (entries n ++ [(nm, i)]) x else look s d' x) → renames s s' (at_name d nm (Some i)).
Proof.
  intros Hd Hf Hl d' x. rewrite Hl. unfold at_name. case_decide as E; [subst d'|by rewrite bool_decide_false by naive_solver]. rewrite find_entry_app, find_entry_cons, (look_eq s d n) by done. cbn [fst snd]. destruct (decide (x = nm)) as [->|Hx].
  - rewrite !bool_decide_true by done. by rewrite Hf.
  - rewrite (bool_decide_false (nm = x)), (bool_decide_false (d = d ∧ x = nm)) by naive_solver. cbn. by destruct (find_entry _ x).
Qed.

Lemma create_ok s root d n nm md dev u g a :
  fs_ok s root → live_dir s root d n → Z.land md S_IFMT ≠ S_IFDIR →
  ∃ s' r, tmpfs_create s d nm md dev u g a = Some (s', r) ∧ fs_ok s' root ∧
    match create_error n nm a with
    | Some e => r = inl e ∧ (s' = s ∨ s' = bumped s)
    | None => ∃ i, r = inr i ∧ inodes s !! i = None ∧ inodes s' !! i = Some (set_count 2 (fresh md dev u g)) ∧ links s' i = 1 ∧ renames s s' (at_name d nm (Some i)) ∧ ∀ j, j ≠ d → j ≠ i → inodes s' !! j = inodes s !! j
    end.
Proof.
  intros Hok (Hd & Hdn & Hlive) Hmd. destruct (create_spec s root d n nm md dev u g a Hok Hd Hdn) as (s' & r & E & Hr). exists s', r. split; [done|]. destruct (create_error n nm a) as [e|].
  { destruct Hr as (-> & _ & Hs). split; [|done]. destruct Hs as [-> | ->]; [done|by apply bumped_ok]. }
  destruct Hr as (-> & -> & Hf & Hlen). set (i := next_ino s + 1) in *. set (v := fresh md dev u g). assert (is_dir v = false) as Hdv by (by apply Z.eqb_neq).
  destruct (new_ok s root i v Hok eq_refl (fresh_ok _ _ _ _ _) eq_refl eq_refl eq_refl) as (Hnone & Hb & Hl & Hl0 & Hir & _). cbn zeta in *. change (Tfs (<[i := v]> (inodes s)) i (max_pages s) (used_pages s)) with (with_fresh s v) in *. set (s1 := with_fresh s v) in *.
  assert (inodes s1 !! i = Some v) as Hi by apply lookup_insert_eq. assert (d ≠ i) as Hne by congruence. assert (inodes s1 !! d = Some n) as Hd1 by (unfold s1; cbn; by rewrite lookup_insert_ne).
  destruct (attach_ok s1 root d n nm i v Hb Hd1 Hdn ltac:(by rewrite Hl) Hi Hne Hir Hf Hlen) as (Hok' & _ & Hl'). { intros _. rewrite Hl0. unfold v, fresh. cbn. apply Z.eqb_neq in Hmd as ->. done. } { congruence. }
  unfold on_victim, on_dir in Hok', Hl'. rewrite Hdv in Hok', Hl'. cbn [refcount] in Hok', Hl'. split; [exact Hok'|]. exists i. split; [done|]. split; [done|]. split; [rewrite !put_in_lookup; by rewrite decide_False, decide_True by done|]. split; [etrans; [apply Hl'|]; by rewrite Hl0, Z.eqb_refl|]. split.
  - apply (look_add s d n); [done..|]. intros d' x. rewrite !look_put. case_decide; [done|]. case_decide as Ei; [|unfold look, s1; cbn; by rewrite lookup_insert_ne]. subst d'. unfold look. by rewrite Hnone.
  - intros j Hj1 Hj2. rewrite !put_in_lookup, !decide_False by done. unfold s1. cbn. by rewrite lookup_insert_ne.
Qed.

Lemma dir_mode md : Z.land (Z.lor S_IFDIR (Z.land md 0xfff)) S_IFMT = S_IFDIR.
Proof. rewrite Z.land_lor_distr_l, <- Z.land_assoc. change (Z.land 0xfff S_IFMT) with 0. by rewrite Z.land_0_r. Qed.

Lemma mkdir_ok s root d n nm md u g a :
  fs_ok s root → live_dir s root d n →
  ∃ s' r, tmpfs_mkdir s d nm md u g a = Some (s', r) ∧ fs_ok s' root ∧
    match create_error n nm a with
    | Some e => r = inl e ∧ (s' = s ∨ s' = bumped s)
    | None => ∃ i v, r = inr i ∧ inodes s !! i = None ∧ inodes s' !! i = Some v ∧ is_dir v = true ∧ refcount v = 2 ∧ links s' i = 1 ∧ entries v = [] ∧ parent v = Some d ∧ renames s s' (at_name d nm (Some i)) ∧ ∀ j, j ≠ d → j ≠ i → inodes s' !! j = inodes s !! j
    end.
Proof.
  intros Hok (Hd & Hdn & Hlive). set (md' := Z.lor S_IFDIR (Z.land md 0xfff)). destruct (create_spec s root d n nm md' 0 u g a Hok Hd Hdn) as (s' & r & E & Hr). unfold tmpfs_mkdir. fold md'. rewrite E. cbn [mbind option_bind]. destruct (create_error n nm a) as [e|].
  { destruct Hr as (-> & _ & Hs). eexists _, _. split; [done|]. split; [|done]. destruct Hs as [-> | ->]; [done|by apply bumped_ok]. }
  destruct Hr as (-> & -> & Hf & Hlen). set (i := next_ino s + 1) in *. set (v := fresh md' 0 u g). assert (is_dir v = true) as Hdv by (unfold v, is_dir; cbn; unfold md'; by rewrite dir_mode).
  destruct (new_ok s root i v Hok eq_refl (fresh_ok _ _ _ _ _) eq_refl eq_refl eq_refl) as (Hnone & Hb & Hl & Hl0 & Hir & _). cbn zeta in *. change (Tfs (<[i := v]> (inodes s)) i (max_pages s) (used_pages s)) with (with_fresh s v) in *. set (s1 := with_fresh s v) in *.
  assert (inodes s1 !! i = Some v) as Hi by apply lookup_insert_eq. assert (d ≠ i) as Hne by congruence. assert (inodes s1 !! d = Some n) as Hd1 by (unfold s1; cbn; by rewrite lookup_insert_ne).
  destruct (attach_ok s1 root d n nm i v Hb Hd1 Hdn ltac:(by rewrite Hl) Hi Hne Hir Hf Hlen) as (Hok' & _ & Hl'); [congruence| |].
  { intros _. split_and!; [done..|]. unfold v, fresh. cbn. unfold md'. by rewrite dir_mode. }
  set (s2 := put_in (put_in s1 i (set_count 2 v)) d _). set (s3 := put_in (put_in s1 i (on_victim v d)) d (on_dir v n nm i)) in *.
  assert (upd (upd s2 i (set_parent (Some d))) d (λ d0, set_nlink (nlink d0 + 1) d0) = s3) as Es.
  { assert (inodes s2 !! i = Some (set_count 2 v)) as Hi2 by (unfold s2; rewrite !put_in_lookup; by rewrite decide_False, decide_True). rewrite (upd_put s2 i _ _ Hi2). rewrite (upd_put _ d (set_entries (entries n ++ [(nm, i)]) (isize n + 1) n)) by (rewrite put_in_lookup, decide_False by done; unfold s2; rewrite put_in_lookup; by rewrite decide_True).
    apply tfs_eq; try done. intros j. unfold s2, s3, on_victim, on_dir. rewrite !put_in_lookup, Hdv. by repeat case_decide. }
  rewrite Es. eexists s3, _. split; [done|]. split; [done|]. exists i, (on_victim v d). split; [done|]. split; [done|]. split; [unfold s3; rewrite !put_in_lookup; by rewrite decide_False, decide_True by done|]. unfold on_victim at 1 2 3 4. rewrite Hdv.
  split_and!; try done; [rewrite Hl', Hl0, Z.eqb_refl; done| |].
  - apply (look_add s d n); [done..|]. intros d' x. unfold s3. rewrite !look_put. case_decide; [unfold on_dir; by rewrite Hdv|]. case_decide as Ei; [|unfold look, s1; cbn; by rewrite lookup_insert_ne]. subst d'. unfold on_victim. rewrite Hdv. unfold look. by rewrite Hnone.
  - intros j Hj1 Hj2. unfold s3. rewrite !put_in_lookup, !decide_False by done. unfold s1. cbn. by rewrite lookup_insert_ne.
Qed.

Lemma nlink_but s root i v k : fs_ok s root → inodes s !! i = Some v → let s0 := put_in s i (set_nlink k v) in fs_but s0 root [i] ∧ ∀ j, links s0 j = links s j.
Proof.
  intros [Hc [Hr1 Hr2] Hfile Hdir Hpar] Hi s0. destruct (core_attr s i v (set_nlink k v) Hc Hi) as [Hc0 Hl0]; [by apply (node_ok_ext v); [..|eapply co_node]|done..|]. fold s0 in Hc0, Hl0.
  assert (∀ j, dirp s0 j = dirp s j) as Hd by (intros j; unfold dirp, s0; rewrite put_in_lookup; case_decide; [subst; by rewrite Hi|done]).
  assert (∀ j x, inodes s0 !! j = Some x → ∃ y, inodes s !! j = Some y ∧ is_dir x = is_dir y ∧ entries x = entries y ∧ parent x = parent y ∧ (j ≠ i → x = y)) as Hlook.
  { intros j x. unfold s0. rewrite put_in_lookup. case_decide; [intros [= <-]; subst; by exists v|intros Hx; by exists x]. }
  split; [|done]. split; [done|by rewrite Hd, Hl0| | |].
  - intros j x Hj%nel1 Hx Hdx. destruct (Hlook j x Hx) as (y & Hy & _ & _ & _ & E). rewrite Hl0. rewrite (E Hj) in *. by apply Hfile.
  - intros j x Hj%nel1 Hx Hdx. destruct (Hlook j x Hx) as (y & Hy & _ & _ & _ & E). rewrite Hl0, (subs_ext s s0) by (intros; apply Hd). rewrite (E Hj) in *. by apply Hdir.
  - intros d x e c Hx He Hce Hdc. destruct (Hlook d x Hx) as (y & Hy & _ & E & _). destruct (Hlook e.2 c Hce) as (c0 & Hc0' & F1 & _ & F & _). rewrite F. apply (Hpar d y e c0); [done|by rewrite <- E|done|congruence].
Qed.

Lemma link_ok s root d n nm i v a :
  fs_ok s root → live_dir s root d n → inodes s !! i = Some v → is_dir v = false → find_entry (entries n) nm = None →
  ∃ s' r, tmpfs_link s d nm i a = Some (s', r) ∧ fs_ok s' root ∧
    match entry_error nm a with
    | Some e => r = e ∧ s' = s
    | None => r = 0 ∧ inodes s' !! i = Some (set_nlink (nlink v + 1) (set_count (refcount v + 1) v)) ∧ links s' i = links s i + 1 ∧ renames s s' (at_name d nm (Some i)) ∧ ∀ j, j ≠ d → j ≠ i → inodes s' !! j = inodes s !! j
    end.
Proof.
  intros Hok (Hd & Hdn & Hlive) Hi Hdv Hf. unfold tmpfs_link. rewrite Hd, Hi. cbn [mbind option_bind]. destruct (entry_error nm a) as [e|] eqn:Ee.
  { destruct (add_entry_error s d nm i a e Ee) as [-> Hneg]. destruct (Z.eqb_spec e 0); [lia|]. by eexists _, _. }
  assert (Z.of_nat (length nm) ≤ NAME_MAX ∧ m_entry a = true ∧ m_name a = true) as (Hlen & Me & Mm). { unfold entry_error in Ee. destruct (Z.ltb_spec NAME_MAX (Z.of_nat (length nm))); [done|]. by destruct (m_entry a), (m_name a). }
  assert (d ≠ i) as Hne by (intros ->; congruence). pose proof Hok as [Hc [Hr1 _] Hfile _ _]. assert (i ≠ root) as Hir by (intros ->; unfold dirp in Hr1; rewrite Hi in Hr1; congruence).
  destruct (core_add s d n i v nm a Hc Hd Hdn Hi Hne Hf Hlen Me Mm) as [-> _]. change (0 =? 0) with true. cbn iota. set (v0 := set_nlink (nlink v + 1) v). set (s0 := put_in s i v0).
  destruct (nlink_but s root i v (nlink v + 1) Hok Hi) as [Hb Hl0]. fold v0 s0 in Hb, Hl0. assert (inodes s0 !! d = Some n) as Hd0 by (unfold s0; rewrite put_in_lookup; by rewrite decide_False). assert (inodes s0 !! i = Some v0) as Hi0 by (unfold s0; rewrite put_in_lookup; by rewrite decide_True).
  destruct (attach_ok s0 root d n nm i v0 Hb Hd0 Hdn ltac:(by rewrite Hl0) Hi0 Hne Hir Hf Hlen) as (Hok' & _ & Hl'); [intros _; rewrite Hl0; cbn; by rewrite (Hfile i v)|intros Hdx; change (is_dir v = true) in Hdx; congruence|].
  set (s3 := put_in (put_in s0 i (on_victim v0 d)) d (on_dir v0 n nm i)) in *. assert (on_victim v0 d = set_count (refcount v + 1) v0 ∧ on_dir v0 n nm i = set_entries (entries n ++ [(nm, i)]) (isize n + 1) n) as [Ev En] by (unfold on_victim, on_dir; change (is_dir v0) with (is_dir v); by rewrite Hdv).
  set (s2 := put_in _ d _). assert (upd s2 i (λ n0, set_nlink (nlink n0 + 1) n0) = s3) as Es.
  { rewrite (upd_put s2 i (set_count (refcount v + 1) v)) by (unfold s2; rewrite !put_in_lookup; by rewrite decide_False, decide_True). apply tfs_eq; try done. intros j. unfold s2, s3, s0. rewrite !put_in_lookup, Ev, En. repeat case_decide; subst; done. }
  rewrite Es. exists s3, 0. split; [done|]. split; [done|]. split; [done|]. split; [unfold s3; rewrite !put_in_lookup, decide_False, decide_True, Ev by done; done|]. split; [rewrite Hl', Hl0, Z.eqb_refl; done|]. split.
  - apply (look_add s d n); [done..|]. intros d' x. unfold s3, s0. rewrite !look_put, Ev, En. case_decide; [done|]. case_decide as Ei; [subst d'; by rewrite (look_eq s i v)|done].
  - intros j Hj1 Hj2. unfold s3, s0. by rewrite !put_in_lookup, !decide_False.
Qed.

Lemma look_del s d n nm s' : core s → inodes s !! d = Some n →
  (∀ d' x, look s' d' x = if decide (d' = d) then find_entry (del_entry nm (entries n)) x else look s d' x) → renames s s' (at_name d nm None).
Proof.
  intros Hc Hd Hl d' x. rewrite Hl. unfold at_name. case_decide as E; [subst d'|by rewrite bool_decide_false by naive_solver]. rewrite del_entry_find by exact (no_names _ (co_node _ Hc d n Hd)). rewrite (look_eq s d n) by done.
  destruct (decide (x = nm)) as [->|Hx]; [by rewrite !bool_decide_true|by rewrite !bool_decide_false by naive_solver].
Qed.

(** The entry [nm] of [d] for [i] is taken out; an open file lives on. *)
Definition taken_out (s s' : tfs) (d : Z) (nm : name) (i : Z) (v : inode) : Prop :=
  renames s s' (at_name d nm None) ∧ inodes s' !! i = Some (set_count (refcount v - 1) (off_victim v)) ∧ links s' i = links s i - 1 ∧ ∀ j, j ≠ d → j ≠ i → inodes s' !! j = inodes s !! j.

Lemma drop_taken s root d n nm i v :
  fs_ok s root → inodes s !! d = Some n → find_entry (entries n) nm = Some i → inodes s !! i = Some v → (is_dir v = true → entries v = []) → links s i < refcount v →
  d ≠ i ∧ ∃ s', remove_entry (put_in (put_in s i (off_victim v)) d (off_dir v n)) d nm i = Some s' ∧ fs_ok s' root ∧ taken_out s s' d nm i v ∧ ∀ j, links s' j = links s j - if j =? i then 1 else 0.
Proof.
  intros Hok Hd Hf Hi Hv Hr. destruct (drop_ok s root d n nm i v Hok Hd Hf Hi Hv Hr) as (Hne & s' & E & Hok' & Hch & _ & Ei & Ed & Hl). split; [done|]. exists s'. split; [done|]. split; [done|]. split; [|done]. split; [|split; [done|split]].
  - apply (look_del s d n); [apply Hok|done|]. intros d' x. case_decide as Ed'; [subst; by rewrite (look_eq s' d _ _ Ed)|]. destruct (decide (d' = i)) as [->|Hn]; [by rewrite (look_eq s' i _ _ Ei), (look_eq s i v)|]. unfold look. rewrite (ch_look _ _ _ Hch); [done|]. by apply nel2.
  - by rewrite Hl, Z.eqb_refl.
  - intros j Hj1 Hj2. apply (ch_look _ _ _ Hch). by apply nel2.
Qed.

Lemma unlink_ok s root d n nm i v :
  fs_ok s root → inodes s !! d = Some n → find_entry (entries n) nm = Some i → inodes s !! i = Some v → is_dir v = false → links s i < refcount v →
  ∃ s', tmpfs_unlink s d nm i = Some (s', 0) ∧ fs_ok s' root ∧ taken_out s s' d nm i v ∧ ∀ j, links s' j = links s j - if j =? i then 1 else 0.
Proof.
  intros Hok Hd Hf Hi Hdv Hr. destruct (drop_taken s root d n nm i v Hok Hd Hf Hi ltac:(congruence) Hr) as (Hne & s' & E & H). exists s'. split; [|done]. unfold tmpfs_unlink. rewrite Hd. cbn [mbind option_bind]. rewrite Hf, Hi. cbn [mbind option_bind].
  rewrite (upd_put s i v) by done. assert (put_in (put_in s i (off_victim v)) d (off_dir v n) = put_in s i (set_nlink (nlink v - 1) v)) as <-; [|by rewrite E].
  apply tfs_eq; try done. intros j. unfold off_victim, off_dir. rewrite Hdv, !put_in_lookup. repeat case_decide; try done; congruence.
Qed.

Lemma rmdir_ok s root d n nm i v :
  fs_ok s root → inodes s !! d = Some n → find_entry (entries n) nm = Some i → inodes s !! i = Some v → is_dir v = true → links s i < refcount v →
  ∃ s' r, tmpfs_rmdir s d nm i = Some (s', r) ∧ fs_ok s' root ∧
    if bool_decide (entries v = []) then r = 0 ∧ taken_out s s' d nm i v ∧ ∀ j, links s' j = links s j - if j =? i then 1 else 0 else r = - ENOTEMPTY ∧ s' = s.
Proof.
  intros Hok Hd Hf Hi Hdv Hr. unfold tmpfs_rmdir. rewrite Hi. cbn [mbind option_bind]. destruct (bool_decide_reflect (entries v = [])) as [He|He]; cbn [negb]; [|by eexists _, _].
  destruct (drop_taken s root d n nm i v Hok Hd Hf Hi ltac:(done) Hr) as (Hne & s' & E & Hok' & H). rewrite Hd. cbn [mbind option_bind]. rewrite Hf. exists s', 0. split; [|done]. rewrite (upd_put s i v) by done. rewrite (upd_put _ d n) by (rewrite put_in_lookup; by rewrite decide_False).
  unfold off_victim, off_dir in E. rewrite Hdv in E. by rewrite E.
Qed.

(** ** Renaming *)

(** The second part of a rename: the entry moves. *)
Definition move_entry (s : tfs) (od : Z) (oname : name) (nd : Z) (nname : name) (i : Z) (isd : bool) (a : mem) : option (tfs * Z) :=
  let '(s, r) := add_entry s nd nname i a in
  if negb (r =? 0) then Some (s, r)
  else
    let s := if isd && negb (od =? nd)
             then upd (upd (upd s od (λ d, set_nlink (nlink d - 1) d)) nd (λ d, set_nlink (nlink d + 1) d)) i (set_parent (Some nd)) else s in
    s ← remove_entry s od oname i; Some (s, 0).

Definition move_pre (s : tfs) (root od : Z) (on : inode) (oname : name) (nd : Z) (nn : inode) (nname : name) (i : Z) (v : inode) : Prop :=
  fs_ok s root ∧ inodes s !! od = Some on ∧ find_entry (entries on) oname = Some i ∧ live_dir s root nd nn ∧ find_entry (entries nn) nname = None ∧
  inodes s !! i = Some v ∧ links s i < refcount v ∧ od ≠ i ∧ nd ≠ i.

Definition moved (s s' : tfs) (od : Z) (oname : name) (nd : Z) (nname : name) (i : Z) : Prop :=
  renames s s' (λ d x, if bool_decide (d = nd ∧ x = nname) then Some (Some i) else if bool_decide (d = od ∧ x = oname) then Some None else None) ∧
  (∀ j, links s' j = links s j) ∧ ∀ j, j ≠ od → j ≠ nd → j ≠ i → inodes s' !! j = inodes s !! j.

(** Within a directory. *)
Lemma move_same s root d n oname nname i v a :
  move_pre s root d n oname d n nname i v → entry_error nname a = None →
  ∃ s', move_entry s d oname d nname i (is_dir v) a = Some (s', 0) ∧ fs_ok s' root ∧ moved s s' d oname d nname i ∧ inodes s' !! i = Some v.
Proof.
  intros (Hok & Hd & Hfo & (_ & Hdn & Hlive) & Hfn & Hi & Hr & Hne & _) Ee. pose proof Hok as [Hc [Hr1 Hr2] Hfile Hdir Hpar].
  assert (Z.of_nat (length nname) ≤ NAME_MAX ∧ m_entry a = true ∧ m_name a = true) as (Hlen & Me & Mm). { unfold entry_error in Ee. destruct (Z.ltb_spec NAME_MAX (Z.of_nat (length nname))); [done|]. by destruct (m_entry a), (m_name a). }
  unfold move_entry. destruct (core_add s d n i v nname a Hc Hd Hdn Hi Hne Hfn Hlen Me Mm) as (-> & Hc1 & Hl1). cbn zeta. set (v1 := set_count (refcount v + 1) v) in *. set (n1 := set_entries _ _ n) in *. set (s1 := put_in (put_in s i v1) d n1) in *. change (negb (0 =? 0)) with false. cbn iota. rewrite Z.eqb_refl. cbn [negb]. rewrite andb_false_r.
  assert (inodes s1 !! d = Some n1) as Hd1 by (unfold s1; rewrite put_in_lookup; by rewrite decide_True). assert (inodes s1 !! i = Some v1) as Hi1 by (unfold s1; rewrite !put_in_lookup; by rewrite decide_False, decide_True).
  assert (find_entry (entries n1) oname = Some i) as Hf1 by (unfold n1; cbn [entries set_entries]; by rewrite find_entry_app, Hfo).
  destruct (core_del s1 d n1 i v1 oname Hc1 Hd1 Hdn Hi1 Hne Hf1 ltac:(rewrite Hl1, Z.eqb_refl; cbn; lia)) as (-> & Hc2 & Hl2). cbn [mbind option_bind]. set (s' := put_in (put_in s1 _ _) _ _) in *. exists s'. split; [done|].
  assert (∀ j, links s' j = links s j) as Hl by (intros j; rewrite Hl2, Hl1; lia). set (n' := set_entries (del_entry oname (entries n ++ [(nname, i)])) (isize n) n).
  assert (∀ j, inodes s' !! j = if decide (j = d) then Some n' else inodes s !! j) as Hlook.
  { intros j. unfold s', s1. rewrite !put_in_lookup. case_decide; [unfold n', n1, set_entries; cbn; do 2 f_equal; lia|]. case_decide; [|done]. subst j. rewrite Hi. unfold v1. cbn. f_equal. destruct v. cbn. unfold set_count. cbn. f_equal. lia. }
  assert (inodes s' !! i = Some v) as Hi' by (rewrite Hlook; by rewrite decide_False). assert (change s s' [d; i]) as Hch.
  { split; [done|intros j [Hj _]%nel2; rewrite Hlook; by rewrite decide_False|done|]. intros j Hj. unfold dirp. rewrite Hlook. case_decide; [subst; by rewrite Hd|done]. }
  assert (dirp s' i = dirp s i) as Hdi by (apply (ch_dirp _ _ _ Hch); by rewrite Hi). split; [|split; [split; [|split; [done|]]|done]].
  - apply (fs_ok_change s s' root [d; i]); [by apply fs_ok_but|done|by rewrite Hl| | |].
    + intros j x Hj Hx Hdx. rewrite Hl. rewrite Hlook in Hx. case_decide; [injection Hx as <-; change (is_dir n = false) in Hdx; congruence|by apply Hfile].
    + intros j x Hj Hx Hdx. rewrite Hl. rewrite Hlook in Hx. case_decide; [|rewrite (subs_change s s' [d; i] j x) by done; by apply Hdir]. injection Hx as <-. subst j. destruct (Hdir d n Hd Hdn) as (D1 & D2 & D3). split; [done|]. split.
      * intros Hlv. change (nlink n = 2 + subs s' (del_entry oname (entries n ++ [(nname, i)]))). rewrite (subs_del _ _ _ i) by (by rewrite find_entry_app, Hfo). rewrite subs_app, subs_cons, (subs_change s s' [d; i] d n) by done. cbn [snd]. change (subs s' []) with 0. specialize (D2 Hlv). lia.
      * intros Hnr Hz. destruct (D3 Hnr Hz) as [_ En]. rewrite En in Hfo. done.
    + intros d' x e c Hx He Hce Hdc _. rewrite Hlook in Hx, Hce. assert (∃ c0, inodes s !! e.2 = Some c0 ∧ is_dir c0 = true ∧ parent c0 = parent c) as (c0 & Hc0 & Hd0 & <-).
      { destruct (decide (e.2 = d)) as [Ed|Ed]; [injection Hce as <-; exists n; by rewrite Ed|by exists c]. }
      destruct (decide (d' = d)) as [->|Hn]; [|by apply (Hpar d' x e)]. injection Hx as <-. change (e ∈ del_entry oname (entries n ++ [(nname, i)])) in He. apply del_entry_sub in He. apply elem_of_app in He as [He|He%list_elem_of_singleton]; [by apply (Hpar d n e)|]. subst e. cbn [snd] in *.
      apply (Hpar d n (oname, i) c0); [done|by apply find_entry_in|done|done].
  - intros d' x. unfold look at 1. rewrite Hlook. case_decide as E; [|rewrite !bool_decide_false by naive_solver; done]. subst d'. cbn [mbind option_bind]. unfold n'. cbn [entries set_entries]. rewrite del_entry_find by exact (no_names _ (co_node _ Hc1 d n1 Hd1)). rewrite find_entry_app, find_entry_cons, (look_eq s d n) by done. cbn [fst snd].
    destruct (decide (x = nname)) as [->|Hx].
    + rewrite (bool_decide_true (d = d ∧ nname = nname)), (bool_decide_false (nname = oname)), Hfn, bool_decide_true by (done || congruence). done.
    + rewrite (bool_decide_false (d = d ∧ x = nname)), (bool_decide_false (nname = x)) by naive_solver. destruct (decide (x = oname)) as [->|Ho]; [by rewrite !bool_decide_true|]. rewrite !bool_decide_false by naive_solver. change (find_entry [] x) with (@None Z). by destruct (find_entry (entries n) x).
  - intros j Hj _ _. rewrite Hlook. by rewrite decide_False.
Qed.

(** Three inodes change where no count looks. *)
Lemma core_attr3 s a b c na nb nc xa xb xc :
  core s → a ≠ b → a ≠ c → b ≠ c → inodes s !! a = Some na → inodes s !! b = Some nb → inodes s !! c = Some nc →
  (∀ n x, (n, x) ∈ [(na, xa); (nb, xb); (nc, xc)] → mode x = mode n ∧ entries x = entries n ∧ pages x = pages n ∧ isize x = isize n ∧ blocks x = blocks n ∧ refcount x = refcount n) →
  let s' := put_in (put_in (put_in s a xa) b xb) c xc in core s' ∧ ∀ j, links s' j = links s j.
Proof.
  intros Hc Hab Hac Hbc Ha Hb Hcc Hx s'. destruct (Hx na xa ltac:(by left)) as (A1 & A2 & A3 & A4 & A5 & A6). destruct (Hx nb xb ltac:(by right; left)) as (B1 & B2 & B3 & B4 & B5 & B6). destruct (Hx nc xc ltac:(by right; right; left)) as (C1 & C2 & C3 & C4 & C5 & C6).
  destruct (core_attr s a na xa Hc Ha) as [Hc1 Hl1]; [by apply (node_ok_ext na); [..|exact (co_node _ Hc a na Ha)]|done..|]. destruct (core_attr (put_in s a xa) b nb xb Hc1) as [Hc2 Hl2]; [rewrite put_in_lookup; by rewrite decide_False|by apply (node_ok_ext nb); [..|exact (co_node _ Hc b nb Hb)]|done..|].
  destruct (core_attr (put_in (put_in s a xa) b xb) c nc xc Hc2) as [Hc3 Hl3]; [rewrite !put_in_lookup; by rewrite !decide_False|by apply (node_ok_ext nc); [..|exact (co_node _ Hc c nc Hcc)]|done..|]. split; [done|]. intros j. unfold s'. by rewrite Hl3, Hl2, Hl1.
Qed.

(** The three inodes of a move between directories. *)
Definition mv_old (v on : inode) (oname : name) : inode := set_entries (del_entry oname (entries on)) (isize on - 1) (if is_dir v then set_nlink (nlink on - 1) on else on).
Definition mv_new (v nn : inode) (nname : name) (i : Z) : inode := set_entries (entries nn ++ [(nname, i)]) (isize nn + 1) (if is_dir v then set_nlink (nlink nn + 1) nn else nn).
Definition mv_victim (v : inode) (nd : Z) : inode := if is_dir v then set_parent (Some nd) v else v.

Lemma move_steps s root od on oname nd nn nname i v a :
  move_pre s root od on oname nd nn nname i v → od ≠ nd → entry_error nname a = None →
  let s' := put_in (put_in (put_in s od (mv_old v on oname)) nd (mv_new v nn nname i)) i (mv_victim v nd) in
  move_entry s od oname nd nname i (is_dir v) a = Some (s', 0) ∧ core s' ∧ ∀ j, links s' j = links s j.
Proof.
  intros (Hok & Hod & Hfo & (Hnd & Hdn & Hlive) & Hfn & Hi & Hr & Hoi & Hni) Hon Ee s'. pose proof (fk_core _ _ Hok) as Hc. pose proof (entry_dir s od on oname i Hc Hod Hfo) as Hdo.
  assert (Z.of_nat (length nname) ≤ NAME_MAX ∧ m_entry a = true ∧ m_name a = true) as (Hlen & Me & Mm). { unfold entry_error in Ee. destruct (Z.ltb_spec NAME_MAX (Z.of_nat (length nname))); [done|]. by destruct (m_entry a), (m_name a). }
  unfold move_entry. destruct (core_add s nd nn i v nname a Hc Hnd Hdn Hi Hni Hfn Hlen Me Mm) as (-> & Hc1 & Hl1). cbn zeta. set (v1 := set_count (refcount v + 1) v) in *. set (n1 := set_entries _ _ nn) in *. set (s1 := put_in (put_in s i v1) nd n1) in *. change (negb (0 =? 0)) with false. cbn iota.
  assert (inodes s1 !! od = Some on) as Ho1 by (unfold s1; rewrite !put_in_lookup; by rewrite !decide_False). assert (inodes s1 !! nd = Some n1) as Hn1 by (unfold s1; rewrite put_in_lookup; by rewrite decide_True). assert (inodes s1 !! i = Some v1) as Hi1 by (unfold s1; rewrite !put_in_lookup; by rewrite decide_False, decide_True).
  set (on0 := if is_dir v then set_nlink (nlink on - 1) on else on). set (n2 := if is_dir v then set_nlink (nlink n1 + 1) n1 else n1). set (v2 := if is_dir v then set_parent (Some nd) v1 else v1). set (s2 := put_in (put_in (put_in s1 od on0) nd n2) i v2).
  assert ((if is_dir v && negb (od =? nd) then upd (upd (upd s1 od (λ d, set_nlink (nlink d - 1) d)) nd (λ d, set_nlink (nlink d + 1) d)) i (set_parent (Some nd)) else s1) = s2) as ->.
  { apply Z.eqb_neq in Hon as Hon'. rewrite Hon'. unfold s2, on0, n2, v2. destruct (is_dir v); cbn [andb negb].
    - rewrite (upd_put s1 od on) by done. rewrite (upd_put _ nd n1) by (rewrite put_in_lookup; by rewrite decide_False). rewrite (upd_put _ i v1) by (rewrite !put_in_lookup; by rewrite !decide_False). done.
    - apply tfs_eq; try done. intros j. rewrite !put_in_lookup. repeat case_decide; subst; done. }
  destruct (core_attr3 s1 od nd i on n1 v1 on0 n2 v2 Hc1 Hon Hoi Hni Ho1 Hn1 Hi1) as [Hc2 Hl2].
  { intros n x Hx. apply elem_of_cons in Hx as [[= -> ->]|Hx]; [unfold on0; by destruct (is_dir v)|]. apply elem_of_cons in Hx as [[= -> ->]|Hx]; [unfold n2; by destruct (is_dir v)|]. apply list_elem_of_singleton in Hx as [= -> ->]. unfold v2. by destruct (is_dir v). }
  fold s2 in Hc2, Hl2. assert (entries on0 = entries on ∧ isize on0 = isize on ∧ is_dir on0 = true ∧ refcount v2 = refcount v + 1) as (O1 & O2 & O3 & O4) by (unfold on0, v2; by destruct (is_dir v)).
  destruct (core_del s2 od on0 i v2 oname Hc2) as (E & Hc3 & Hl3); [unfold s2; rewrite !put_in_lookup; by rewrite !decide_False, decide_True by done|done|unfold s2; rewrite put_in_lookup; by rewrite decide_True|done|by rewrite O1|rewrite Hl2, Hl1, Z.eqb_refl, O4; lia|].
  cbn zeta in Hc3, Hl3. rewrite O1, O2, O4 in E, Hc3, Hl3. rewrite E. cbn [mbind option_bind]. set (s3 := put_in (put_in s2 _ _) _ _) in *.
  assert (s3 = s') as Es. { apply tfs_eq; try done. intros j. unfold s3, s', s2, s1, mv_old, mv_new, mv_victim, on0, n2, v2, n1, v1. rewrite !put_in_lookup. repeat case_decide; subst; try done; destruct (is_dir v); try done; f_equal; destruct v; unfold set_count, set_parent; cbn; f_equal; lia. }
  rewrite Es in *. split; [done|]. split; [done|]. intros j. rewrite Hl3, Hl2, Hl1. lia.
Qed.

Lemma move_other s root od on oname nd nn nname i v a :
  move_pre s root od on oname nd nn nname i v → od ≠ nd → entry_error nname a = None →
  ∃ s', move_entry s od oname nd nname i (is_dir v) a = Some (s', 0) ∧ fs_ok s' root ∧ moved s s' od oname nd nname i ∧ inodes s' !! i = Some (mv_victim v nd).
Proof.
  intros Hpre Hon Ee. destruct (move_steps s root od on oname nd nn nname i v a Hpre Hon Ee) as (E & Hc' & Hl). set (s' := put_in (put_in (put_in s od _) nd _) i _) in *. exists s'. split; [done|].
  destruct Hpre as (Hok & Hod & Hfo & (Hnd & Hdn & Hlive) & Hfn & Hi & Hr & Hoi & Hni). pose proof Hok as [Hc [Hr1 Hr2] Hfile Hdir Hpar]. pose proof (entry_dir s od on oname i Hc Hod Hfo) as Hdo.
  assert (∀ j, inodes s' !! j = if decide (j = i) then Some (mv_victim v nd) else if decide (j = nd) then Some (mv_new v nn nname i) else if decide (j = od) then Some (mv_old v on oname) else inodes s !! j) as Hlook by (intros j; unfold s'; by rewrite !put_in_lookup).
  assert (is_dir (mv_victim v nd) = is_dir v ∧ entries (mv_victim v nd) = entries v ∧ nlink (mv_victim v nd) = nlink v) as (V1 & V2 & V3) by (unfold mv_victim; destruct (is_dir v) eqn:Ev; [split_and!; [exact Ev|done..]|done]).
  assert (is_dir (mv_new v nn nname i) = true ∧ is_dir (mv_old v on oname) = true ∧ parent (mv_new v nn nname i) = parent nn ∧ parent (mv_old v on oname) = parent on) as (N1 & O1 & N2 & O2) by (unfold mv_new, mv_old; by destruct (is_dir v)).
  assert (∀ j, dirp s' j = dirp s j) as Hd by (intros j; unfold dirp; rewrite Hlook; repeat case_decide; subst; [by rewrite Hi|by rewrite Hnd, Hdn|by rewrite Hod, Hdo|done]).
  assert (∀ l, subs s' l = subs s l) as Hsub by (intros l; apply subs_ext; intros; apply Hd). assert (dirp s i = is_dir v) as Hdi by (unfold dirp; by rewrite Hi).
  split; [|split; [split; [|split; [done|]]|rewrite Hlook; by rewrite decide_True]].
  - split; [done|by rewrite Hd, Hl| | |].
    + intros j x Hj Hdx. rewrite Hl. rewrite Hlook in Hj. repeat case_decide; [injection Hj as <-; subst; rewrite V3; apply Hfile; congruence|injection Hj as <-; congruence|injection Hj as <-; congruence|by apply Hfile].
    + intros j x Hj Hdx. rewrite Hl, Hsub. rewrite Hlook in Hj. repeat case_decide; [injection Hj as <-; subst; rewrite V2, V3; apply Hdir; congruence|injection Hj as <-; subst j|injection Hj as <-; subst j|by apply Hdir].
      * destruct (Hdir nd nn Hnd Hdn) as (D1 & D2 & D3). split; [done|]. split; [|intros Hnr Hz; destruct Hlive; [done|lia]]. intros _. specialize (D2 Hlive). change (entries (mv_new v nn nname i)) with (entries nn ++ [(nname, i)]). rewrite subs_app, subs_cons. cbn [snd]. rewrite Hdi. change (subs s []) with 0. unfold mv_new. destruct (is_dir v); cbn [nlink set_entries set_nlink]; lia.
      * destruct (Hdir od on Hod Hdo) as (D1 & D2 & D3). split; [done|]. split; [intros Hlv; specialize (D2 Hlv)|intros Hnr Hz; destruct (D3 Hnr Hz) as [_ En]; by rewrite En in Hfo]. change (entries (mv_old v on oname)) with (del_entry oname (entries on)). rewrite (subs_del _ _ _ i), Hdi by done. unfold mv_old. destruct (is_dir v); cbn [nlink set_entries set_nlink]; lia.
    + intros d' x e c Hx He Hce Hdc. destruct (decide (e.2 = i)) as [Ei|Ei].
      * pose proof Hce as Hce'. rewrite Ei, Hlook, decide_True in Hce' by done. injection Hce' as <-. rewrite V1 in Hdc. unfold mv_victim. rewrite Hdc. cbn. f_equal. destruct (decide (d' = nd)) as [|Hn]; [done|]. destruct (Hdir i v Hi Hdc) as (L1 & _).
        assert (inodes s' !! nd = Some (mv_new v nn nname i)) as Hnd' by (rewrite Hlook; by rewrite decide_False, decide_True by done). pose proof (links_two s' d' x nd _ e (nname, i) Hx Hnd' Hn He ltac:(unfold mv_new; cbn; apply elem_of_app; right; by left) Ei) as H2. rewrite Hl, Ei in H2. lia.
      * rewrite Hlook in Hce. assert (∃ c0, inodes s !! e.2 = Some c0 ∧ is_dir c0 = true ∧ parent c0 = parent c) as (c0 & Hc0 & Hd0 & <-).
        { rewrite decide_False in Hce by done. repeat case_decide; [injection Hce as <-; exists nn; by rewrite H|injection Hce as <-; exists on; by rewrite H0|by exists c]. }
        rewrite Hlook in Hx. destruct (decide (d' = i)) as [->|]; [injection Hx as <-; rewrite V2 in He; by apply (Hpar i v e)|]. destruct (decide (d' = nd)) as [->|]; [injection Hx as <-; change (e ∈ entries nn ++ [(nname, i)]) in He; apply elem_of_app in He as [He|He%list_elem_of_singleton]; [by apply (Hpar nd nn e)|by subst e]|].
        destruct (decide (d' = od)) as [->|]; [injection Hx as <-; change (e ∈ del_entry oname (entries on)) in He; apply del_entry_sub in He; by apply (Hpar od on e)|by apply (Hpar d' x e)].
  - intros d' x. unfold look at 1. rewrite Hlook. destruct (decide (d' = i)) as [->|]; [rewrite !bool_decide_false by naive_solver; cbn [mbind option_bind]; by rewrite V2, (look_eq s i v)|]. destruct (decide (d' = nd)) as [->|].
    + cbn [mbind option_bind]. change (entries (mv_new v nn nname i)) with (entries nn ++ [(nname, i)]). rewrite find_entry_app, find_entry_cons, (look_eq s nd nn) by done. cbn [fst snd]. rewrite (bool_decide_false (nd = od ∧ x = oname)) by naive_solver. destruct (decide (x = nname)) as [->|Hx]; [rewrite !bool_decide_true by done; by rewrite Hfn|]. rewrite !bool_decide_false by naive_solver. change (find_entry [] x) with (@None Z). by destruct (find_entry (entries nn) x).
    + rewrite (bool_decide_false (d' = nd ∧ x = nname)) by naive_solver. destruct (decide (d' = od)) as [->|]; [|by rewrite bool_decide_false by naive_solver]. cbn [mbind option_bind]. change (entries (mv_old v on oname)) with (del_entry oname (entries on)). rewrite del_entry_find by exact (no_names _ (co_node _ Hc od on Hod)). rewrite (look_eq s od on) by done.
      destruct (decide (x = oname)) as [->|Hx]; [by rewrite !bool_decide_true|by rewrite !bool_decide_false by naive_solver].
  - intros j Hj1 Hj2 Hj3. rewrite Hlook. by rewrite !decide_False.
Qed.

Lemma move_ok s root od on oname nd nn nname i v a :
  move_pre s root od on oname nd nn nname i v → (od, oname) ≠ (nd, nname) →
  match entry_error nname a with
  | Some e => e < 0 ∧ move_entry s od oname nd nname i (is_dir v) a = Some (s, e)
  | None => ∃ s', move_entry s od oname nd nname i (is_dir v) a = Some (s', 0) ∧ fs_ok s' root ∧ moved s s' od oname nd nname i
  end.
Proof.
  intros Hpre Hne. destruct (entry_error nname a) as [e|] eqn:Ee.
  { unfold move_entry. destruct (add_entry_error s nd nname i a e Ee) as [-> Hneg]. destruct (Z.eqb_spec e 0); [lia|]. done. }
  destruct (decide (od = nd)) as [->|Hon].
  - assert (on = nn) as -> by (destruct Hpre as (_ & H1 & _ & (H2 & _) & _); congruence). destruct (move_same s root nd nn oname nname i v a Hpre Ee) as (s' & E & H1 & H2 & _). eauto.
  - destruct (move_other s root od on oname nd nn nname i v a Hpre Hon Ee) as (s' & E & H1 & H2 & _). eauto.
Qed.

(** What the virtual file system has checked: [t] is what the new name stands for,
    of the same kind as [i]; no directory moves into itself; and the caller holds
    the inodes. *)
Record rename_pre (s : tfs) (root od : Z) (on : inode) (oname : name) (nd : Z) (nn : inode) (nname : name) (i : Z) (v : inode) (t : option Z) : Prop := {
  rp_ok : fs_ok s root;
  rp_old : inodes s !! od = Some on ∧ find_entry (entries on) oname = Some i;
  rp_new : live_dir s root nd nn ∧ find_entry (entries nn) nname = t;
  rp_victim : inodes s !! i = Some v ∧ links s i < refcount v ∧ od ≠ i ∧ nd ≠ i;
  rp_target x : t = Some x → ∃ tv, inodes s !! x = Some tv ∧ links s x < refcount tv ∧ is_dir tv = is_dir v;
  rp_other : (od, oname) ≠ (nd, nname);
}.

(** The target is a directory that is not empty. *)
Definition full (s : tfs) (t : option Z) : bool :=
  match t ≫= (λ x, inodes s !! x) with Some tv => is_dir tv && negb (bool_decide (entries tv = [])) | None => false end.

Lemma rename_move s od oname nd nname i on v t a :
  inodes s !! od = Some on → find_entry (entries on) oname = Some i → inodes s !! i = Some v → (od, oname) ≠ (nd, nname) → full s t = false →
  tmpfs_rename s od oname nd nname i t a = s1 ← match t with Some x => rename_target s nd nname x | None => Some s end; move_entry s1 od oname nd nname i (is_dir v) a.
Proof.
  intros Hod Hf Hi Hne Hfull. unfold tmpfs_rename. rewrite Hod, Hi. cbn [mbind option_bind]. rewrite Hf. unfold full in Hfull. rewrite Hfull. destruct (match t with Some x => rename_target s nd nname x | None => Some s end) as [s1|]; [|done]. cbn [mbind option_bind]. unfold move_entry. destruct (add_entry s1 nd nname i a) as [s2 r]. destruct (negb (r =? 0)); [done|]. cbn zeta.
  assert (bool_decide (is_Some t) && (od =? nd) && bool_decide (oname = nname) = false) as ->; [|done]. destruct (Z.eqb_spec od nd) as [->|]; [|by rewrite andb_false_r]. rewrite (bool_decide_false (oname = nname)) by congruence. apply andb_false_r.
Qed.

Lemma rename_target_ok s root nd nn nname x tv :
  fs_ok s root → inodes s !! nd = Some nn → find_entry (entries nn) nname = Some x → inodes s !! x = Some tv → (is_dir tv = true → entries tv = []) → links s x < refcount tv →
  nd ≠ x ∧ ∃ s1, rename_target s nd nname x = Some s1 ∧ fs_ok s1 root ∧ taken_out s s1 nd nname x tv ∧ (∀ j, links s1 j = links s j - if j =? x then 1 else 0) ∧
    inodes s1 !! nd = Some (set_entries (del_entry nname (entries nn)) (isize nn - 1) (off_dir tv nn)).
Proof.
  intros Hok Hnd Hf Hx Htv Hr. destruct (drop_ok s root nd nn nname x tv Hok Hnd Hf Hx Htv Hr) as (Hne & s1 & E & _ & _ & _ & _ & Ed & _). destruct (drop_taken s root nd nn nname x tv Hok Hnd Hf Hx Htv Hr) as (_ & s1' & E' & H). assert (s1' = s1) as -> by congruence. split; [done|]. exists s1. split; [|destruct H as (A & B & C); done].
  unfold rename_target. rewrite Hx, Hnd. cbn [mbind option_bind]. rewrite Hf. rewrite <- E. f_equal. unfold off_victim, off_dir. destruct (is_dir tv).
  - rewrite (upd_put s x tv) by done. rewrite (upd_put _ nd nn); [done|]. rewrite put_in_lookup. by rewrite decide_False.
  - rewrite (upd_put s x tv) by done. apply tfs_eq; try done. intros j. rewrite !put_in_lookup. repeat case_decide; subst; done.
Qed.

(** What a rename does. *)
Definition renamed (s s' : tfs) (od : Z) (oname : name) (nd : Z) (nname : name) (i : Z) : Prop :=
  renames s s' (λ d x, if bool_decide (d = nd ∧ x = nname) then Some (Some i) else if bool_decide (d = od ∧ x = oname) then Some None else None).

Lemma rename_ok s root od on oname nd nn nname i v t a :
  rename_pre s root od on oname nd nn nname i v t →
  ∃ s' r, tmpfs_rename s od oname nd nname i t a = Some (s', r) ∧ fs_ok s' root ∧
    if full s t then r = - ENOTEMPTY ∧ s' = s
    else match entry_error nname a with
         | Some e => r = e ∧ match t with Some _ => renames s s' (at_name nd nname None) | None => s' = s end
         | None => r = 0 ∧ renamed s s' od oname nd nname i ∧ ∀ j, links s' j = links s j - match t with Some x => if j =? x then 1 else 0 | None => 0 end
         end.
Proof.
  intros [Hok (Hod & Hfo) ((Hnd & Hdn & Hlive) & Hft) (Hi & Hr & Hoi & Hni) Htgt Hne]. destruct (full s t) eqn:Hfull.
  { unfold tmpfs_rename. rewrite Hod, Hi. cbn [mbind option_bind]. rewrite Hfo. unfold full in Hfull. rewrite Hfull. by eexists _, _. }
  rewrite (rename_move s od oname nd nname i on v t a Hod Hfo Hi Hne Hfull). destruct t as [x|].
  2: { cbn [mbind option_bind]. pose proof (move_ok s root od on oname nd nn nname i v a ltac:(split_and!; try done; by split_and!) Hne) as Hm. destruct (entry_error nname a) as [e|]; [destruct Hm as [_ ->]; by eexists _, _|]. destruct Hm as (s' & -> & H1 & H2 & H3 & _). eexists _, _. split; [done|]. split_and!; try done. intros j. rewrite H3. lia. }
  destruct (Htgt x eq_refl) as (tv & Hx & Hrx & Hk). assert (is_dir tv = true → entries tv = []) as Htv. { intros Hd. unfold full in Hfull. cbn [mbind option_bind] in Hfull. rewrite Hx, Hd in Hfull. cbn in Hfull. by destruct (bool_decide_reflect (entries tv = [])). }
  destruct (rename_target_ok s root nd nn nname x tv Hok Hnd Hft Hx Htv Hrx) as (Hnx & s1 & -> & Hok1 & (T1 & T2 & T3 & T4) & Hl1 & Hnd1). cbn [mbind option_bind]. set (nn1 := set_entries _ _ _) in Hnd1.
  assert (is_dir nn1 = true ∧ find_entry (entries nn1) nname = None) as [Hdn1 Hfn1]. { split; [unfold nn1, off_dir; by destruct (is_dir tv)|]. unfold nn1. cbn [entries set_entries]. rewrite del_entry_find by exact (no_names _ (co_node _ (fk_core _ _ Hok) nd nn Hnd)). by rewrite bool_decide_true. }
  assert (od ≠ x) as Hox. { intros ->. assert (on = tv) as -> by congruence. pose proof (entry_dir s x tv oname i (fk_core _ _ Hok) Hx Hfo) as Hd. rewrite (Htv Hd) in Hfo. done. }
  assert (∃ on1, inodes s1 !! od = Some on1 ∧ find_entry (entries on1) oname = Some i) as (on1 & Hod1 & Hfo1).
  { destruct (decide (od = nd)) as [->|Hon]; [|exists on; by rewrite T4]. exists nn1. split; [done|]. assert (on = nn) as -> by congruence. unfold nn1. cbn [entries set_entries]. rewrite del_entry_find by exact (no_names _ (co_node _ (fk_core _ _ Hok) nd nn Hnd)). by rewrite bool_decide_false by congruence. }
  assert (∃ v1, inodes s1 !! i = Some v1 ∧ links s1 i < refcount v1 ∧ is_dir v1 = is_dir v) as (v1 & Hi1 & Hr1 & Hk1).
  { rewrite Hl1. destruct (Z.eqb_spec i x) as [->|Hix]; [eexists; split; [exact T2|]; assert (tv = v) as -> by congruence; cbn; split; [lia|done]|]. exists v. rewrite T4 by done. split_and!; [done|lia|done]. }
  assert (links s1 nd = links s nd) as Hlnd by (rewrite Hl1; apply Z.eqb_neq in Hnx as ->; lia).
  pose proof (move_ok s1 root od on1 oname nd nn1 nname i v1 a ltac:(split_and!; try done; split_and!; [done..|by rewrite Hlnd]) Hne) as Hm. rewrite Hk1 in Hm.
  destruct (entry_error nname a) as [e|]; [destruct Hm as [_ ->]; by eexists _, _|]. destruct Hm as (s' & -> & H1 & H2 & H3 & _). eexists _, _. split; [done|]. split; [done|]. split; [done|]. split; [|intros j; by rewrite H3, Hl1].
  intros d y. rewrite (H2 d y). destruct (bool_decide (d = nd ∧ y = nname)) eqn:B1; [done|]. destruct (bool_decide (d = od ∧ y = oname)) eqn:B2; [done|]. rewrite (T1 d y). unfold at_name. by rewrite B1.
Qed.

(** ** Data and attributes *)

Lemma data_ok s s' root i n n' : fs_ok s root → inodes s !! i = Some n → is_reg n = true → file_set s s' i n n' → file_ok n' → fs_ok s' root ∧ ∀ d x, look s' d x = look s d x.
Proof.
  intros [Hc [Hr1 Hr2] Hfile Hdir Hpar] Hi Hreg (E1 & E2 & E3 & E4 & E5 & E6) Hf.
  assert (mode n' = mode n ∧ entries n' = entries n ∧ refcount n' = refcount n ∧ nlink n' = nlink n ∧ parent n' = parent n) as (M1 & M2 & M3 & M4 & M5) by (rewrite E5; done).
  assert (∀ j x, inodes s' !! j = Some x → ∃ y, inodes s !! j = Some y ∧ mode x = mode y ∧ nlink x = nlink y ∧ entries x = entries y ∧ parent x = parent y ∧ refcount x = refcount y) as Hlook.
  { intros j x. rewrite E1. destruct (decide (j = i)) as [->|Hj]; [rewrite lookup_insert_eq; intros [= <-]; by exists n|rewrite lookup_insert_ne by done; intros Hx; by exists x]. }
  assert (∀ j, links s' j = links s j) as Hl by (intros j; unfold links; rewrite E1, (tally_insert _ i n), M2 by done; lia).
  assert (∀ j, dirp s' j = dirp s j) as Hd by (intros j; unfold dirp, is_dir; rewrite E1; destruct (decide (j = i)) as [->|Hj]; [rewrite lookup_insert_eq, Hi, M1; done|by rewrite lookup_insert_ne]).
  split; [split; [|by rewrite Hd, Hl| | |]|].
  - destruct Hc as [H2 H3 H4 H5 H6 H7 H8]. split; rewrite ?E2; try done.
    + intros j x Hj. destruct (Hlook j x Hj) as (y & Hy & _). eauto.
    + intros j x. rewrite E1. destruct (decide (j = i)) as [->|Hj]; [rewrite lookup_insert_eq; intros [= <-]|rewrite lookup_insert_ne by done; apply H4]. destruct (H4 i n Hi) as [N1 N2 N3 N4 N5].
      assert (is_reg n' = true ∧ is_dir n' = is_dir n) as [R1 R2] by (unfold is_reg, is_dir in *; by rewrite M1). split; rewrite ?R1, ?R2, ?M2; try done. intros Hdn. apply dir_not_reg in Hdn. congruence.
    + intros d x e Hx He. destruct (Hlook d x Hx) as (y & Hy & _ & _ & E & _). rewrite E in He. rewrite E1. destruct (decide (e.2 = i)) as [->|Hj]; [by rewrite lookup_insert_eq|rewrite lookup_insert_ne by done; eauto].
    + intros j x Hj. destruct (Hlook j x Hj) as (y & Hy & _ & _ & _ & _ & E). rewrite Hl, E. eauto.
    + rewrite E1, (tally_insert _ i n) by done. lia.
    + rewrite E3. lia.
  - intros j x Hj. destruct (Hlook j x Hj) as (y & Hy & F1 & F2 & _). unfold is_dir. rewrite F1, F2, Hl. by apply Hfile.
  - intros j x Hj. destruct (Hlook j x Hj) as (y & Hy & F1 & F2 & F3 & _). unfold is_dir. rewrite F1, F2, F3, Hl, (subs_ext s s') by (intros; apply Hd). by apply Hdir.
  - intros d x e c Hx He Hce Hdc. destruct (Hlook d x Hx) as (y & Hy & _ & _ & F3 & _). destruct (Hlook e.2 c Hce) as (c0 & Hc0 & G1 & _ & _ & G4 & _). rewrite G4. rewrite F3 in He. apply (Hpar d y e c0); try done. unfold is_dir in *. congruence.
  - intros d x. unfold look. rewrite E1. destruct (decide (d = i)) as [->|Hj]; [rewrite lookup_insert_eq, Hi; cbn; by rewrite M2|by rewrite lookup_insert_ne].
Qed.

(** An inode changes where neither counts nor names look. *)
Lemma same_ok s root i n x :
  fs_ok s root → inodes s !! i = Some n → node_ok x → is_dir x = is_dir n → entries x = entries n → pages x = pages n → refcount x = refcount n → nlink x = nlink n → parent x = parent n →
  fs_ok (put_in s i x) root ∧ (∀ d y, look (put_in s i x) d y = look s d y) ∧ ∀ j, links (put_in s i x) j = links s j.
Proof.
  intros [Hc [Hr1 Hr2] Hfile Hdir Hpar] Hi Hx E1 E2 E3 E4 E5 E6. destruct (core_attr s i n x Hc Hi Hx E2 E3 E4) as [Hc' Hl]. set (s' := put_in s i x) in *.
  assert (∀ j y, inodes s' !! j = Some y → ∃ z, inodes s !! j = Some z ∧ is_dir y = is_dir z ∧ nlink y = nlink z ∧ entries y = entries z ∧ parent y = parent z) as Hlook.
  { intros j y. unfold s'. rewrite put_in_lookup. case_decide; [intros [= <-]; subst; by exists n|intros Hy; by exists y]. }
  assert (∀ j, dirp s' j = dirp s j) as Hd by (intros j; unfold dirp, s'; rewrite put_in_lookup; case_decide; [subst; by rewrite Hi, E1|done]).
  split; [split; [done|by rewrite Hd, Hl| | |]|split; [|done]].
  - intros j y Hj. destruct (Hlook j y Hj) as (z & Hz & F1 & F2 & _). rewrite F1, F2, Hl. by apply Hfile.
  - intros j y Hj. destruct (Hlook j y Hj) as (z & Hz & F1 & F2 & F3 & _). rewrite F1, F2, F3, Hl, (subs_ext s s') by (intros; apply Hd). by apply Hdir.
  - intros d y e c Hy He Hce Hdc. destruct (Hlook d y Hy) as (z & Hz & _ & _ & F3 & _). destruct (Hlook e.2 c Hce) as (c0 & Hc0 & G1 & _ & _ & G4). rewrite G4. rewrite F3 in He. apply (Hpar d z e c0); try done. congruence.
  - intros d y. unfold s'. rewrite look_put. case_decide; [subst; by rewrite E2, (look_eq s i n)|done].
Qed.

Lemma type_bits m x : Z.land (Z.lor (Z.land m S_IFMT) (Z.land x 0xfff)) S_IFMT = Z.land m S_IFMT.
Proof. rewrite Z.land_lor_distr_l, <- !Z.land_assoc. change (Z.land 0xfff S_IFMT) with 0. change (Z.land S_IFMT S_IFMT) with S_IFMT. by rewrite Z.land_0_r, Z.lor_0_r. Qed.

Lemma setattr_ok s root i n a :
  fs_ok s root → inodes s !! i = Some n → a_size a = None → ∃ s', tmpfs_setattr s i a = Some (s', 0) ∧ fs_ok s' root ∧ (∀ d y, look s' d y = look s d y) ∧ ∀ j, links s' j = links s j.
Proof.
  intros Hok Hi Ha. unfold tmpfs_setattr. rewrite Hi. cbn [mbind option_bind]. rewrite Ha. cbn [mbind option_bind]. rewrite bool_decide_false by (by intros []). cbn [andb]. eexists. split; [done|]. rewrite (upd_put s i n) by done.
  pose proof (co_node _ (fk_core _ _ Hok) i n Hi) as Hn. set (x := set_owner _ _ _). assert (Z.land (mode x) S_IFMT = Z.land (mode n) S_IFMT) as Em by (unfold x; destruct (a_mode a); [apply type_bits|done]).
  assert (entries x = entries n ∧ pages x = pages n ∧ refcount x = refcount n ∧ nlink x = nlink n ∧ parent x = parent n ∧ isize x = isize n ∧ blocks x = blocks n) as (X1 & X2 & X3 & X4 & X5 & X6 & X7) by (unfold x; by destruct (a_mode a)).
  apply (same_ok s root i n); try done; [|unfold is_dir; by rewrite Em]. destruct Hn as [N1 N2 N3 N4 N5]. split; unfold is_reg, is_dir in *; rewrite ?Em, ?X1, ?X2, ?X6; try done. intros Hr. destruct (N5 Hr) as [F1 F2 F3]. split; rewrite ?X6, ?X7, ?X2; try done. intros o Ho. unfold byte, page_at. rewrite X2. by apply F2.
Qed.

Lemma symlink_ok s root d n nm tgt u g a :
  fs_ok s root → live_dir s root d n →
  ∃ s' r o, tmpfs_symlink s d nm tgt u g a = Some (s', r, o) ∧ fs_ok s' root ∧
    match create_error n nm a with
    | Some e => r = inl e ∧ o = None ∧ (s' = s ∨ s' = bumped s)
    | None => ∃ i v, o = Some i ∧ inodes s !! i = None ∧ inodes s' !! i = Some v ∧ target v = (if m_target a then Some tgt else None) ∧ refcount v = 2 ∧ links s' i = 1 ∧ renames s s' (at_name d nm (Some i)) ∧ r = if m_target a then inr i else inl (- ENOMEM)
    end.
Proof.
  intros Hok Hd. unfold tmpfs_symlink. destruct (create_ok s root d n nm (Z.lor S_IFLNK 0x1ff) 0 u g a Hok Hd ltac:(done)) as (s1 & r & -> & Hok1 & Hr). cbn [mbind option_bind]. destruct (create_error n nm a) as [e|].
  { destruct Hr as (-> & Hs). by eexists _, _, _. }
  destruct Hr as (i & -> & Hnone & Hi & Hli & Hren & _). rewrite (upd_put s1 i _ _ Hi). set (v := set_target _ _ _). eexists _, _, (Some i). split; [done|].
  destruct (same_ok s1 root i _ v Hok1 Hi) as (Hok2 & Hlook & Hl); try done; [split; [done|done|apply NoDup_nil_2|intros Hv; by vm_compute in Hv|intros Hv; by vm_compute in Hv]|]. split; [done|]. exists i, v. split_and!; try done; [rewrite put_in_lookup; by rewrite decide_True|by rewrite Hl|]. intros d' y. rewrite Hlook. apply Hren.
Qed.

(** ** Mounting, and all states *)

Lemma mount_pages_range total opt : 0 ≤ total < U64 → 0 ≤ mount_pages total opt < U64.
Proof.
  intros Ht. assert (0 ≤ total / 2 < U64) as H2 by (split; [apply Z.div_pos; lia|apply Z.div_lt_upper_bound; lia]). unfold mount_pages. destruct opt as [[v c]|]; [|done]. destruct (_ =? 0); [done|].
  pose proof (wrap64_range (mount_size v c + PAGE_SIZE - 1)) as Hw. assert (0 < PAGE_SIZE) as HP by by vm_compute. split; [apply Z.div_pos; lia|]. apply Z.div_lt_upper_bound; [done|]. assert (1 * U64 ≤ PAGE_SIZE * U64) by (apply Z.mul_le_mono_nonneg_r; [by vm_compute|done]). lia.
Qed.

Lemma single_ok v mx : is_dir v = true → node_ok v → nlink v = 2 → refcount v = 1 → entries v = [] → pages v = [] → 0 ≤ mx < U64 → fs_ok (Tfs {[1 := v]} 1 mx 0) 1.
Proof.
  intros Hd Hv Hn Hr He Hp Hmx. set (s := Tfs _ _ _ _). assert (∀ j x, inodes s !! j = Some x → j = 1 ∧ x = v) as Hlook by (intros j x Hx; change (({[1 := v]} : gmap Z inode) !! j = Some x) in Hx; apply lookup_singleton_Some in Hx as [<- <-]; done). assert (inodes s !! 1 = Some v) as H1 by apply lookup_singleton_eq.
  assert (∀ j, links s j = 0) as Hl by (intros j; apply tally_zero; intros i x [-> ->]%Hlook; by rewrite He). assert (∀ d x e, inodes s !! d = Some x → e ∉ entries x) as Hno by (intros d x e [-> ->]%Hlook; rewrite He; apply not_elem_of_nil).
  split; [|rewrite Hl; unfold dirp; by rewrite H1| | |].
  - split; [intros j x [-> _]%Hlook; cbn; lia|cbn; lia|intros j x [_ ->]%Hlook; done|intros d x e Hx Hin; by destruct (Hno d x e Hx)|intros j x [_ ->]%Hlook; rewrite Hl; lia| |cbn; lia].
    symmetry. apply tally_zero. intros j x [_ ->]%Hlook. by rewrite Hp.
  - intros j x [_ ->]%Hlook Hdx. congruence.
  - intros j x [-> ->]%Hlook _. rewrite Hl, He, Hn. split; [lia|]. split; [done|]. done.
  - intros d x e c Hx Hin. by destruct (Hno d x e Hx).
Qed.

Lemma mount_ok total opt sticky u g a s root :
  0 ≤ total < U64 → tmpfs_mount total opt sticky u g a = Some (Some (s, root)) → fs_ok s root.
Proof.
  intros Ht. pose proof (mount_pages_range total opt Ht) as Hm. unfold tmpfs_mount, tmpfs_new_inode. destruct (m_entry a); cbn [negb]; [|done]. destruct (m_inode a); cbn [negb]; [|done]. cbn zeta. unfold new_inode. cbn [next_ino inodes max_pages used_pages].
  destruct (m_node a); cbn [negb]; [|destruct (inode_put _ _); done]. cbn [mbind option_bind]. destruct (m_name a); [|done]. intros [= <- <-]. change (0 + 1) with 1. rewrite insert_empty. set (mx := mount_pages total opt) in *. set (v := Inode (Z.lor S_IFDIR 0x1ed) 2 u g 0 0 0 1 [] None [] None).
  assert (upd (upd (Tfs {[1 := Inode (Z.lor S_IFDIR 0x1ed) 1 u g 0 0 0 1 [] None [] None]} 1 mx 0) 1 (λ n, Inode (mode n) (nlink n) (uid n) (gid n) (isize n) 0 (blocks n) (refcount n) [] None [] None)) 1 (λ n, if is_dir n then set_nlink 2 n else n) = Tfs {[1 := v]} 1 mx 0) as -> by (unfold upd, set_inodes; cbn [inodes next_ino max_pages used_pages]; by rewrite !alter_singleton).
  assert (fs_ok (Tfs {[1 := v]} 1 mx 0) 1) as Hok by (apply single_ok; try done; apply fresh_ok). destruct sticky; [|done]. unfold upd, set_inodes. cbn [inodes next_ino max_pages used_pages]. rewrite alter_singleton. apply single_ok; try done. apply (fresh_ok (Z.lor S_IFDIR 0x3ff)).
Qed.

Lemma pages_used s root i n : fs_ok s root → inodes s !! i = Some n → held (pages n) ≤ used_pages s < U64.
Proof.
  intros Hok Hi. pose proof (fk_core _ _ Hok) as Hc. rewrite (co_used _ Hc) at 1. destruct (co_quota _ Hc). split; [|lia].
  exact (tally_le (inodes s) (λ n, held (pages n)) i n ltac:(intros; apply held_pos) Hi).
Qed.

(** *** Links and renames through the virtual file system *)

Definition link_error (n v : inode) (nm : name) (perm : Z) (a : mem) : option Z :=
  if is_dir v then Some (- EPERM) else if bool_decide (is_Some (find_entry (entries n) nm)) then Some (- EEXIST) else if negb (perm =? 0) then Some perm else entry_error nm a.

Lemma vfs_link_ok s root d n nm i v perm a :
  fs_ok s root → live_dir s root d n → inodes s !! i = Some v →
  ∃ s' r, vfs_link s d nm i perm true a = Some (s', r) ∧ fs_ok s' root ∧
    match link_error n v nm perm a with Some e => r = e ∧ s' = s | None => r = 0 ∧ renames s s' (at_name d nm (Some i)) end.
Proof.
  intros Hok Hd Hi. unfold vfs_link, d_lookup, link_error. rewrite Hi, (proj1 Hd). cbn [mbind option_bind]. destruct (is_dir v) eqn:Hv; [by eexists _, _|]. destruct (find_entry (entries n) nm) as [x|] eqn:Ef; [rewrite bool_decide_true by done; by eexists _, _|]. rewrite bool_decide_false by (by intros []).
  destruct (negb (perm =? 0)); [by eexists _, _|]. destruct (link_ok s root d n nm i v a Hok Hd Hi Hv Ef) as (s' & r & E & H1 & H2). exists s', r. split; [done|]. split; [done|]. destruct (entry_error nm a); [done|]. destruct H2 as (A & _ & _ & B & _). done.
Qed.

(** The caller of a rename holds what the two names stand for; no directory is an
    entry of itself; and [inside] tells when the new directory is the one that
    moves. *)
Definition rename_call (s : tfs) (root od : Z) (oname : name) (nd : Z) (nn : inode) (nname : name) (inside : bool) : Prop :=
  live_dir s root nd nn ∧ (∀ i, look s od oname = Some i → in_use s i ∧ od ≠ i ∧ (nd = i → inside = true)) ∧ (∀ x, look s nd nname = Some x → in_use s x).

Lemma vfs_rename_ok s root od oname nd nn nname perm oalloc inside busy a s' r :
  fs_ok s root → rename_call s root od oname nd nn nname inside → vfs_rename s od oname nd nname perm oalloc true inside busy a = Some (s', r) → fs_ok s' root.
Proof.
  intros Hok (Hlive & Hold & Hnew). unfold vfs_rename. destruct (_ || _); [by intros [= <- _]|]. unfold d_lookup. destruct (inodes s !! od) as [on|] eqn:Hod; [|done]. cbn [mbind option_bind]. destruct (find_entry (entries on) oname) as [i|] eqn:Ef; [|by intros [= <- _]].
  destruct oalloc; [|by intros [= <- _]]. destruct (negb (perm =? 0)); [by intros [= <- _]|]. destruct (Hold i) as ((v & Hi & Hr) & Hoi & Hin); [by rewrite (look_eq s od on)|]. pose proof Hlive as (Hnd & Hdn & _). rewrite Hi, Hnd. cbn [mbind option_bind].
  set (t := match match find_entry (entries nn) nname with Some x => inr x | None => inl (- ENOENT) end with inl _ => None | inr x => Some x end). assert (find_entry (entries nn) nname = t) as Et by (unfold t; by destruct (find_entry (entries nn) nname)). cbn zeta.
  destruct (bool_decide_reflect ((od, oname) = (nd, nname))) as [|Hne]; [by intros [= <- _]|]. destruct (is_dir v && inside) eqn:E1; [by intros [= <- _]|]. destruct (is_dir v && bool_decide _) eqn:E2; [by intros [= <- _]|]. destruct (negb _ && bool_decide _) eqn:E3; [by intros [= <- _]|]. destruct (_ && busy); [by intros [= <- _]|].
  assert (rename_pre s root od on oname nd nn nname i v t) as Hpre.
  { split; try done; [split_and!; try done|].
    - intros ->. rewrite Hin in E1 by done. assert (nn = v) as -> by congruence. by rewrite Hdn in E1.
    - intros x Hx. destruct (Hnew x) as (tv & Htv & Hrt); [rewrite (look_eq s nd nn) by done; congruence|]. exists tv. split; [done|]. split; [done|]. rewrite Hx in E2, E3. cbn in E2, E3. rewrite Htv in E2, E3. cbn in E2, E3. destruct (is_dir v), (is_dir tv); done. }
  destruct (rename_ok s root od on oname nd nn nname i v t a Hpre) as (s1 & r1 & -> & H1 & _). by intros [= <- _].
Qed.

(** The calls of the virtual file system: a reference is only put by one that has
    it, entries are made in directories of the tree, an inode is removed while its
    name is looked up.  Three things are left out: a link or rename for which there
    is no memory to look the new name up ([link_duplicates] and [rename_duplicates]
    show what they do), a write whose copy faults ([faulting_write_exposed]), and
    one that would end past [2^63]. *)
Inductive tmpfs_step (root : Z) : tfs → tfs → Prop :=
| st_lookup s d n nm s' r : inodes s !! d = Some n → tmpfs_lookup s d nm = Some (s', r) → tmpfs_step root s s'
| st_get s i s' : is_Some (inodes s !! i) → s' = inode_get s i → tmpfs_step root s s'
| st_put s i v s' : inodes s !! i = Some v → links s i < refcount v → (i = root → 1 < refcount v) → inode_put s i = Some s' → tmpfs_step root s s'
| st_create s d n nm md dev u g a s' r : live_dir s root d n → Z.land md S_IFMT ≠ S_IFDIR → tmpfs_create s d nm md dev u g a = Some (s', r) → tmpfs_step root s s'
| st_mkdir s d n nm md u g a s' r : live_dir s root d n → tmpfs_mkdir s d nm md u g a = Some (s', r) → tmpfs_step root s s'
| st_symlink s d n nm tgt u g a s' r o : live_dir s root d n → tmpfs_symlink s d nm tgt u g a = Some (s', r, o) → tmpfs_step root s s'
| st_link s d n nm i perm a s' r : live_dir s root d n → is_Some (inodes s !! i) → vfs_link s d nm i perm true a = Some (s', r) → tmpfs_step root s s'
| st_unlink s d n nm i v s' r : inodes s !! d = Some n → find_entry (entries n) nm = Some i → inodes s !! i = Some v → is_dir v = false → links s i < refcount v → tmpfs_unlink s d nm i = Some (s', r) → tmpfs_step root s s'
| st_rmdir s d n nm i v s' r : inodes s !! d = Some n → find_entry (entries n) nm = Some i → inodes s !! i = Some v → is_dir v = true → links s i < refcount v → tmpfs_rmdir s d nm i = Some (s', r) → tmpfs_step root s s'
| st_rename s od oname nd nn nname perm oalloc inside busy a s' r : rename_call s root od oname nd nn nname inside → vfs_rename s od oname nd nname perm oalloc true inside busy a = Some (s', r) → tmpfs_step root s s'
| st_write s i n append data pos w s' r p : inodes s !! i = Some n → is_reg n = true → 0 ≤ pos → (if (append : bool) then isize n else pos) + Z.of_nat (length data) < 2 ^ 63 → (∀ x, w_copy w x = None) → tmpfs_write s i append data pos w = Some (s', r, p) → tmpfs_step root s s'
| st_truncate s i n z s' r : inodes s !! i = Some n → is_reg n = true → 0 ≤ z < 2 ^ 63 → tmpfs_setattr s i (Iattr (Some z) None None None) = Some (s', r) → tmpfs_step root s s'
| st_setattr s i a s' r : is_Some (inodes s !! i) → a_size a = None → tmpfs_setattr s i a = Some (s', r) → tmpfs_step root s s'.

Lemma tmpfs_step_ok root s s' : tmpfs_step root s s' → fs_ok s root → fs_ok s' root.
Proof.
  intros Hst Hok. destruct Hst.
  - unfold tmpfs_lookup in H0. rewrite H in H0. cbn [mbind option_bind] in H0. destruct (find_entry (entries n) nm) as [i|] eqn:Ef; [|by injection H0 as <- <-]. injection H0 as <- <-. destruct (co_child _ (fk_core _ _ Hok) d n (nm, i) H (find_entry_in _ _ _ Ef)) as [x Hx]. by eapply get_ok.
  - destruct H as [v Hv]. subst s'. by eapply get_ok.
  - destruct (put_ok s root i v Hok H H0 H1) as (? & ? & ? & _). congruence.
  - destruct (create_ok s root d n nm md dev u g a Hok H H0) as (? & ? & ? & ? & _). congruence.
  - destruct (mkdir_ok s root d n nm md u g a Hok H) as (? & ? & ? & ? & _). congruence.
  - destruct (symlink_ok s root d n nm tgt u g a Hok H) as (? & ? & ? & ? & ? & _). congruence.
  - destruct H0 as [v Hv]. destruct (vfs_link_ok s root d n nm i v perm a Hok H Hv) as (? & ? & ? & ? & _). congruence.
  - destruct (unlink_ok s root d n nm i v Hok H H0 H1 H2 H3) as (? & ? & ? & _). congruence.
  - destruct (rmdir_ok s root d n nm i v Hok H H0 H1 H2 H3) as (? & ? & ? & ? & _). congruence.
  - by eapply vfs_rename_ok.
  - pose proof (no_data _ (co_node _ (fk_core _ _ Hok) i n H) H0) as Hf. destruct (tmpfs_write_spec s i n append data pos w H Hf H1 H2) as (s1 & n' & r1 & p' & d & c & E & Hset & _ & _ & _ & Hc & _ & Hfo & _). assert (s1 = s') as -> by congruence.
    assert (c = 0) as ->. { destruct (Z.eq_dec c 0) as [|Hn]; [done|]. destruct (Hc Hn) as [x Hx]. by rewrite H3 in Hx. } exact (proj1 (data_ok s s' root i n n' Hok H H0 Hset (Hfo eq_refl))).
  - pose proof (no_data _ (co_node _ (fk_core _ _ Hok) i n H) H0) as Hf. assert (held (pages n) ≤ used_pages s < U64) as Hu by by apply (pages_used s root i).
    destruct (tmpfs_truncate_spec s i n z H H0 Hf H1 Hu) as (s1 & n' & E & Hset & Hfo & _). assert (s1 = s') as -> by congruence. exact (proj1 (data_ok s s' root i n n' Hok H H0 Hset Hfo)).
  - destruct H as [n Hn]. destruct (setattr_ok s root i n a Hok Hn H0) as (? & ? & ? & _). congruence.
Qed.


(** C39. The directories are maps from names to inodes: a lookup gives what the
    name stands for; create, mkdir and symlink bind exactly one new name, to a new
    inode, and refuse a name that exists or is too long; a link, when there is
    memory to look the name up, binds exactly one new name to a file that is no
    directory, and refuses a name that exists or is too long; unlink and rmdir,
    given the inode that the name stands for, take exactly one name away, and only
    an empty directory; a rename of one name to another, given the inode that the
    new name stands for if there is one, which must be of the same kind and an empty
    directory if it is one, binds the new name to the inode of the old one, which it
    frees, when no directory moves into itself.  A call that fails changes no name, with two exceptions: a rename without memory
    for its entry has removed the new name, and a symlink without memory for its
    target has made the name. *)
Theorem tmpfs_names_correct s root :
  fs_ok s root →
  (∀ d n nm, inodes s !! d = Some n → ∃ s', tmpfs_lookup s d nm = Some (s', match look s d nm with Some i => inr i | None => inl (- ENOENT) end) ∧ ∀ d' x, look s' d' x = look s d' x) ∧
  (∀ d n nm u g a, live_dir s root d n →
     (∀ md dev, Z.land md S_IFMT ≠ S_IFDIR → ∃ s' r, tmpfs_create s d nm md dev u g a = Some (s', r) ∧
        match create_error n nm a with Some e => r = inl e ∧ ∀ d' x, look s' d' x = look s d' x | None => ∃ i, r = inr i ∧ inodes s !! i = None ∧ renames s s' (at_name d nm (Some i)) end) ∧
     (∀ md, ∃ s' r, tmpfs_mkdir s d nm md u g a = Some (s', r) ∧
        match create_error n nm a with Some e => r = inl e ∧ ∀ d' x, look s' d' x = look s d' x | None => ∃ i, r = inr i ∧ inodes s !! i = None ∧ renames s s' (at_name d nm (Some i)) end) ∧
     (∀ tgt, ∃ s' r o, tmpfs_symlink s d nm tgt u g a = Some (s', r, o) ∧
        match create_error n nm a with
        | Some e => r = inl e ∧ ∀ d' x, look s' d' x = look s d' x
        | None => ∃ i, r = (if m_target a then inr i else inl (- ENOMEM)) ∧ inodes s !! i = None ∧ renames s s' (at_name d nm (Some i))
        end) ∧
     (∀ i v perm, inodes s !! i = Some v → ∃ s' r, vfs_link s d nm i perm true a = Some (s', r) ∧
        match link_error n v nm perm a with Some e => r = e ∧ s' = s | None => r = 0 ∧ renames s s' (at_name d nm (Some i)) end)) ∧
  (∀ d n nm i v, inodes s !! d = Some n → find_entry (entries n) nm = Some i → inodes s !! i = Some v → links s i < refcount v →
     if is_dir v then ∃ s' r, tmpfs_rmdir s d nm i = Some (s', r) ∧ if bool_decide (entries v = []) then r = 0 ∧ taken_out s s' d nm i v else r = - ENOTEMPTY ∧ s' = s
     else ∃ s', tmpfs_unlink s d nm i = Some (s', 0) ∧ taken_out s s' d nm i v) ∧
  (∀ od on oname nd nn nname i v t a, rename_pre s root od on oname nd nn nname i v t → ∃ s' r, tmpfs_rename s od oname nd nname i t a = Some (s', r) ∧
     if full s t then r = - ENOTEMPTY ∧ s' = s
     else match entry_error nname a with
          | Some e => r = e ∧ match t with Some _ => renames s s' (at_name nd nname None) | None => s' = s end
          | None => r = 0 ∧ renamed s s' od oname nd nname i
          end).
Proof.
  intros Hok. assert (∀ s', s' = s ∨ s' = bumped s → ∀ d' x, look s' d' x = look s d' x) as Hsame by (by intros s' [-> | ->]). split; [|split; [|split]].
  - intros d n nm Hd. unfold tmpfs_lookup. rewrite Hd, (look_eq s d n) by done. cbn [mbind option_bind]. destruct (find_entry (entries n) nm) as [i|] eqn:Ef; [|by exists s]. eexists. split; [done|]. destruct (co_child _ (fk_core _ _ Hok) d n (nm, i) Hd (find_entry_in _ _ _ Ef)) as [x Hx].
    destruct (get_ok s root i x Hok Hx) as (-> & _). intros d' y. rewrite look_put. case_decide; [subst; by rewrite (look_eq s i x)|done].
  - intros d n nm u g a Hd. split; [|split; [|split]].
    + intros md dev Hmd. destruct (create_ok s root d n nm md dev u g a Hok Hd Hmd) as (s' & r & E & _ & H). exists s', r. split; [done|]. destruct (create_error n nm a); [destruct H; auto|]. destruct H as (i & A & B & _ & _ & C & _). eauto.
    + intros md. destruct (mkdir_ok s root d n nm md u g a Hok Hd) as (s' & r & E & _ & H). exists s', r. split; [done|]. destruct (create_error n nm a); [destruct H; auto|]. destruct H as (i & v & A & B & _ & _ & _ & _ & _ & _ & C & _). eauto.
    + intros tgt. destruct (symlink_ok s root d n nm tgt u g a Hok Hd) as (s' & r & o & E & _ & H). exists s', r, o. split; [done|]. destruct (create_error n nm a); [destruct H as (A & _ & B); auto|]. destruct H as (i & v & _ & A & _ & _ & _ & _ & B & C). eauto.
    + intros i v perm Hi. destruct (vfs_link_ok s root d n nm i v perm a Hok Hd Hi) as (s' & r & E & _ & H). eauto.
  - intros d n nm i v Hd Hf Hi Hr. destruct (is_dir v) eqn:Hv.
    + destruct (rmdir_ok s root d n nm i v Hok Hd Hf Hi Hv Hr) as (s' & r & E & _ & H). exists s', r. split; [done|]. destruct (bool_decide _); [destruct H as (A & B & _); done|done].
    + destruct (unlink_ok s root d n nm i v Hok Hd Hf Hi Hv Hr) as (s' & E & _ & H & _). eauto.
  - intros od on oname nd nn nname i v t a Hpre. destruct (rename_ok s root od on oname nd nn nname i v t a Hpre) as (s' & r & E & _ & H). exists s', r. split; [done|]. destruct (full s t); [done|]. destruct (entry_error nname a); [done|]. destruct H as (A & B & _). done.
Qed.

(** C40. A regular file that is zero past its end is an array of bytes.  A read hands
    over its bytes up to the end, and if a copy faults a front of them, or -EFAULT
    when there is none.  A write that ends below [2^63] stores [d] bytes of its data
    at its position, or at the end, which it reports, and nothing else, and grows
    the file when it must; it fails with -ENOSPC, or after a fault with -EFAULT,
    only when [d] is 0, and reports everything when there are memory and room and
    no copy faults.  After a fault [c] more bytes of its data may be stored; without
    one there are none, and the file is again zero past its end.  Cutting a file and
    growing it again leaves zeros. *)
Theorem tmpfs_files_correct s root i n :
  fs_ok s root → inodes s !! i = Some n → is_reg n = true →
  (∀ len pos ok, 0 ≤ pos → 0 ≤ len →
     let k := readable n len pos in
     ∃ d r p, tmpfs_read n len pos ok = (r, content n <$> seqZ pos d, p) ∧ 0 ≤ d ≤ k ∧
       ((r = d ∧ d = k ∧ p = pos + k) ∨ (∃ x, ok x = false) ∧ p = pos ∧ r = if d =? 0 then - EFAULT else d)) ∧
  (∀ append data pos w, 0 ≤ pos →
     let p := if (append : bool) then isize n else pos in let len := Z.of_nat (length data) in p + len < 2 ^ 63 →
     ∃ s' n' r p' d c, tmpfs_write s i append data pos w = Some (s', r, p') ∧ inodes s' = <[i := n']> (inodes s) ∧ 0 ≤ d ∧ 0 ≤ c ∧ d + c ≤ len ∧
       ((r = d ∧ p' = p + d ∧ wrote_at n n' p d c data (Z.max (isize n) (p + d))) ∨
        (d = 0 ∧ p' = p ∧ (r = - ENOSPC ∨ r = - EFAULT ∧ ∃ x, w_copy w x ≠ None) ∧ wrote_at n n' p 0 c data (isize n))) ∧
       ((∀ x, w_copy w x = None) → c = 0 ∧ fs_ok s' root) ∧
       (enough w → used_pages s + span p (p + len) ≤ max_pages s → r = len)) ∧
  (∀ z, 0 ≤ z < 2 ^ 63 → ∃ s' n', tmpfs_setattr s i (Iattr (Some z) None None None) = Some (s', 0) ∧ fs_ok s' root ∧ inodes s' = <[i := n']> (inodes s) ∧
     isize n' = z ∧ ∀ o, content n' o = if o <? z then content n o else 0).
Proof.
  intros Hok Hi Hr. pose proof (no_data _ (co_node _ (fk_core _ _ Hok) i n Hi) Hr) as Hf. split; [|split].
  - intros len pos ok Hp Hl k. destruct (tmpfs_read_spec n len pos ok Hf Hp Hl) as (d & r & p & E & Hd & H). exists d, r, p. split; [done|]. split; [done|]. destruct H as [(-> & Hk & ->)|H]; [left; fold k in Hk; by rewrite <- Hk|by right].
  - intros append data pos w Hp p len Hl. destruct (tmpfs_write_spec s i n append data pos w Hi Hf Hp Hl) as (s' & n' & r & p' & d & c & E & Hset & Hd & Hc & Hdc & Hx & Hr' & Hfo & Hen).
    exists s', n', r, p', d, c. split; [done|]. split; [apply Hset|]. do 4 (split; [done|]). split; [|done]. intros Hw.
    assert (c = 0) as -> by (destruct (Z.eq_dec c 0) as [|Hn]; [done|]; destruct (Hx Hn) as [x Hx']; by rewrite Hw in Hx'). split; [done|]. exact (proj1 (data_ok s s' root i n n' Hok Hi Hr Hset (Hfo eq_refl))).
  - intros z Hz. assert (held (pages n) ≤ used_pages s < U64) as Hu by by apply (pages_used s root i). destruct (tmpfs_truncate_spec s i n z Hi Hr Hf Hz Hu) as (s' & n' & E & Hset & Hfo & Hsz & Hct). exists s', n'. split; [done|]. split; [exact (proj1 (data_ok s s' root i n n' Hok Hi Hr Hset Hfo))|]. split; [apply Hset|done].
Qed.

(** ** Witnesses *)

Definition ex_mem : mem := Mem true true true true true.
Definition ex_root : inode := Inode (Z.lor S_IFDIR 0x1ed) 2 0 0 0 0 0 1 [] None [] None.
Definition ex_fs : tfs := Tfs {[1 := ex_root]} 1 500 0.

Lemma ex_mounted : tmpfs_mount 1000 None false 0 0 ex_mem = Some (Some (ex_fs, 1)).
Proof. vm_compute. reflexivity. Qed.
Lemma ex_fs_ok : fs_ok ex_fs 1.
Proof. apply (mount_ok 1000 None false 0 0 ex_mem); [by vm_compute|exact ex_mounted]. Qed.
Lemma ex_live : live_dir ex_fs 1 1 ex_root.
Proof. split_and!; [vm_compute; reflexivity|vm_compute; reflexivity|by left]. Qed.

(** With a directory, with an empty file, and with two of them. *)
Definition ex_dir_fs : tfs := match tmpfs_mkdir ex_fs 1 [100] 0x1ff 0 0 ex_mem with Some (s, _) => s | None => ex_fs end.
Definition ex_file_fs : tfs := match tmpfs_create ex_fs 1 [102] 0x81a4 0 0 0 ex_mem with Some (s, _) => s | None => ex_fs end.
Definition ex_file : inode := Inode 0x81a4 1 0 0 0 0 0 2 [] None [] None.

Lemma ex_file_ok : fs_ok ex_file_fs 1 ∧ inodes ex_file_fs !! 2 = Some ex_file.
Proof.
  split; [|vm_compute; reflexivity]. destruct (create_ok ex_fs 1 1 ex_root [102] 0x81a4 0 0 0 ex_mem ex_fs_ok ex_live ltac:(done)) as (s' & r & E & H & _).
  unfold ex_file_fs. by rewrite E.
Qed.

Definition ex_two_fs : tfs := match tmpfs_create ex_file_fs 1 [103] 0x81a4 0 0 0 ex_mem with Some (s, _) => s | None => ex_fs end.
Definition ex_one : inode := set_entries [([102], 2)] 1 ex_root.
Definition ex_two : inode := set_entries [([102], 2); ([103], 3)] 2 ex_root.

Lemma ex_two_fs_ok : fs_ok ex_two_fs 1.
Proof.
  assert (live_dir ex_file_fs 1 1 ex_one) as Hl by (split; [vm_compute; reflexivity|split; [vm_compute; reflexivity|by left]]).
  destruct (create_ok ex_file_fs 1 1 ex_one [103] 0x81a4 0 0 0 ex_mem (proj1 ex_file_ok) Hl ltac:(done)) as (s' & r & E & H & _). unfold ex_two_fs. by rewrite E.
Qed.
Lemma ex_rename : rename_pre ex_two_fs 1 1 ex_two [102] 1 ex_two [103] 2 ex_file (Some 3).
Proof.
  split; [exact ex_two_fs_ok| | | | |done].
  - split; vm_compute; reflexivity.
  - split; [split; [vm_compute; reflexivity|split; [vm_compute; reflexivity|by left]]|vm_compute; reflexivity].
  - split; [vm_compute; reflexivity|]. split; [vm_compute; reflexivity|done].
  - intros x [= <-]. exists ex_file. split; [vm_compute; reflexivity|]. split; vm_compute; reflexivity.
Qed.


Lemma tmpfs_names_correct_witness : ∃ s' r, tmpfs_rename ex_two_fs 1 [102] 1 [103] 2 (Some 3) ex_mem = Some (s', r) ∧ r = 0 ∧ renamed ex_two_fs s' 1 [102] 1 [103] 2.
Proof. exact (proj2 (proj2 (proj2 (tmpfs_names_correct ex_two_fs 1 ex_two_fs_ok))) 1 ex_two [102] 1 ex_two [103] 2 ex_file (Some 3) ex_mem ex_rename). Defined.

Lemma tmpfs_files_correct_witness : ∃ s' n', tmpfs_setattr ex_file_fs 2 (Iattr (Some 10) None None None) = Some (s', 0) ∧ fs_ok s' 1 ∧ inodes s' = <[2 := n']> (inodes ex_file_fs) ∧
  isize n' = 10 ∧ ∀ o, content n' o = if o <? 10 then content ex_file o else 0.
Proof. exact (proj2 (proj2 (tmpfs_files_correct ex_file_fs 1 2 ex_file (proj1 ex_file_ok) (proj2 ex_file_ok) eq_refl)) 10 ltac:(lia)). Defined.

(** ** What the code does not do *)

(** A read that faults after some bytes reports them and leaves the position. *)
Theorem read_fault_keeps_position : let '(r, l, p) := tmpfs_read (set_size 8192 ex_file) 8192 0 (λ x, x <? 4096) in r = 4096 ∧ length l = 4096%nat ∧ p = 0.
Proof. vm_compute. done. Qed.

(** A write for which the table of pages cannot grow writes nothing, reports no
    error, and makes the file as long as its position. *)
Theorem write_no_table_grows : ∃ s' n', tmpfs_write ex_file_fs 2 false [1; 2; 3] 100 (Wmem (λ _, false) (λ _, true) (λ _, None)) = Some (s', 0, 100) ∧ inodes s' !! 2 = Some n' ∧ isize n' = 100.
Proof. eexists _, (set_size 100 ex_file). split; [vm_compute; reflexivity|]. split; [vm_compute; reflexivity|done]. Qed.

(** A write that faults leaves what it copied past the end of the file, where an
    extension makes it appear. *)
Theorem faulting_write_exposed : ∃ s1 s2 n, tmpfs_write ex_file_fs 2 false [7; 8; 9] 0 (Wmem (λ _, true) (λ _, true) (λ _, Some 2)) = Some (s1, - EFAULT, 0) ∧
  tmpfs_setattr s1 2 (Iattr (Some 3) None None None) = Some (s2, 0) ∧ inodes s2 !! 2 = Some n ∧ content n <$> seqZ 0 3 = [7; 8; 0].
Proof. eexists _, _, _. split; [vm_compute; reflexivity|]. split; [vm_compute; reflexivity|]. split; [vm_compute; reflexivity|vm_compute; reflexivity]. Qed.

(** A rename onto an existing file that finds no memory for its entry has removed
    that file, and reports the error. *)
Theorem rename_loses_target s root od on oname nd nn nname i v x a e :
  rename_pre s root od on oname nd nn nname i v (Some x) → full s (Some x) = false → entry_error nname a = Some e →
  ∃ s', tmpfs_rename s od oname nd nname i (Some x) a = Some (s', e) ∧ look s' nd nname = None.
Proof.
  intros Hp Hf He. destruct (rename_ok s root od on oname nd nn nname i v (Some x) a Hp) as (s' & r & E & _ & H). rewrite Hf, He in H. destruct H as [-> H]. exists s'. split; [done|]. rewrite H. unfold at_name. by rewrite bool_decide_true.
Qed.

(** A link for which there is no memory to look its name up does not see that the
    name exists, and makes a second entry with it. *)
Theorem link_duplicates : ∃ s', vfs_link ex_two_fs 1 [103] 2 0 false ex_mem = Some (s', 0) ∧ (entries <$> inodes s' !! 1) = Some [([102], 2); ([103], 3); ([103], 2)].
Proof. eexists. split; vm_compute; reflexivity. Qed.
(** A rename does the same, instead of replacing what the new name stood for. *)
Theorem rename_duplicates : ∃ s', vfs_rename ex_two_fs 1 [102] 1 [103] 0 true false false false ex_mem = Some (s', 0) ∧ (entries <$> inodes s' !! 1) = Some [([103], 3); ([103], 2)].
Proof. eexists. split; vm_compute; reflexivity. Qed.

(** A symbolic link without memory for its target is refused, but its entry stays,
    and so does a reference that nobody has. *)
Theorem symlink_no_target s root d n nm tgt u g a :
  fs_ok s root → live_dir s root d n → create_error n nm a = None → m_target a = false →
  ∃ s' i v o, tmpfs_symlink s d nm tgt u g a = Some (s', inl (- ENOMEM), o) ∧ look s' d nm = Some i ∧ inodes s' !! i = Some v ∧ target v = None ∧ refcount v = links s' i + 1.
Proof.
  intros Hok Hd He Hm. destruct (symlink_ok s root d n nm tgt u g a Hok Hd) as (s' & r & o & E & _ & H). rewrite He, Hm in H. destruct H as (i & v & -> & _ & Hv & Ht & Hc & Hl & Hr & ->). exists s', i, v, (Some i). split; [done|].
  split; [rewrite Hr; unfold at_name; by rewrite bool_decide_true|]. split; [done|]. split; [done|lia].
Qed.

(** A listing that goes on after an entry was removed misses the entry after it. *)
Theorem listing_misses_entry : ∃ l s', tmpfs_iterate ex_two_fs 1 0 3 = Some (l, 3) ∧ tmpfs_unlink ex_two_fs 1 [102] 2 = Some (s', 0) ∧ look s' 1 [103] = Some 3 ∧ [103] ∉ (fst ∘ fst <$> l) ∧ tmpfs_iterate s' 1 3 100 = Some ([], 3).
Proof.
  eexists _, _. split; [vm_compute; reflexivity|]. split; [vm_compute; reflexivity|]. split; [vm_compute; reflexivity|]. split; [|vm_compute; reflexivity].
  apply (bool_decide_unpack _). vm_compute. exact I.
Qed.
